(* ===== verification/_CoqProject ===== *)
-Q . S2P
Prelude.v
PyValue.v
Timestamps.v
PyText.v
PolicyModels.v
PolicyStore.v
Demo.v
PolicyStoreProps.v
PolicyGrants.v
PolicyRules.v
PolicyConfirm.v
PolicyService.v
PolicyServiceProps.v
TurnLeases.v
TurnLeasesProps.v
TurnQueue.v
TurnQueueProps.v
A2AModels.v
A2ARuntime.v
A2AOnce.v
A2AJobs.v
A2ACalls.v
IsoText.v
Schedule.v
ScheduleCron.v
ScheduleProps.v
CronTables.v
CronStore.v
CronInv.v
CronSteps.v
CronKeeps.v
CronProps.v
CronFlow.v
CronEffects.v
CronWorker.v
CronDelivery.v
CronDemo.v
CPTables.v
CPPrincipals.v
CPQueues.v
CPModels.v
CPAuth.v
CPPairing.v
CPWorker.v
CPSteps.v
CPTokenProps.v
CPQueueProps.v
CPAccessProps.v
CPGuessProps.v
OrderedDict.v
CPCache.v
CPDemo.v
Todo.v
TodoProps.v
TodoDemo.v
TaskPlan.v
TaskPlanProps.v
TaskLife.v
TaskLifeProps.v
TaskManager.v
TaskManagerProps.v
TaskDemo.v
BlobStore.v
BlobStoreProps.v
BlobGc.v
ArtifactIndex.v
ArtifactText.v
ArtifactCtl.v
ArtifactProps.v
ArtifactRetention.v
ArtifactUse.v
ArtifactDemo.v
CommandParser.v
ToolPolicy.v
ExecPolicy.v
ExecProcess.v
CommandProps.v
ToolPolicyProps.v
ExecProcessProps.v
ToolDemo.v
