(* ===== verification/Prelude.v ===== *)
(** * OpenMinion: authorisation, turns, schedules, tasks, pairing, artifacts and commands

    OpenMinion (src/src/openminion) is an agent runtime: sessions receive
    turns, a brain plans tool calls, tools act, and agents call each other.
    This library models the parts whose own logic decides what may run, who
    owns a turn, which input runs next, when a scheduled job is due, how often
    a delegated handler or a scheduled run is performed, what state a task and
    its plan are in, which chats may reach the agent at all, what is kept of the
    files and outputs it handles, and which paths and commands its tools may use.

    ** Parts and how they interact

    - The policy engine (modules/policy) decides each tool invocation.
      [PolicyCtl.check] resolves the risk of the invocation, consults the
      configured rules, the stored grants and the approvals of operators, opens
      a confirmation when one is needed, and logs the decision.
    - Session turn leases (modules/session/storage/turn_leases.py) give one
      worker at a time the right to run a session's turn, with fence tokens that
      expose a worker that lost it.
    - The turn input queue (services/runtime/turn_input/queue.py) orders the
      inputs that arrive while a turn runs; a worker reserves the next one, runs
      it and reports how it ended (lifecycle.py).
    - The agent-to-agent runtime (modules/a2a) delivers calls and jobs to the
      handlers of other agents under idempotency receipts, with cancellation,
      recovery of stale jobs and a policy of its own.
    - Schedules (modules/task/scheduling/schedule.py, user_schedule.py) say when a job is
      due: once, at an interval or by a cron expression in a time zone, with a
      policy for missed points.
    - The cron store (modules/session/storage/cron_store.py and
      cron_coordination.py) keeps jobs and runs in SQL tables: it enqueues the
      due points of the jobs, hands runs to daemons under leases, retries with a
      backoff, and records outcomes and deliveries.  The coordination functions
      (modules/task/scheduling/coordination.py) drive it from the side of a worker.
    - The task lifecycle (modules/task/runtime) keeps a record per task with its
      state, the checkpoints of long-running projects, and claims that let one
      worker at a time run a project's cycle (lifecycle_repository.py,
      lifecycle_checkpoints.py).  The task manager (lifecycle_manager.py,
      lifecycle_schedule.py, lifecycle_progress.py) couples records to cron jobs:
      it schedules, pauses, resumes, cancels and changes tasks and records how
      their runs ended.
    - Task plans (modules/task/plan.py) are graphs of steps that signals of the
      agent advance; a project turn may revise them (project/checkpoints.py).
    - The todo list of a session (modules/session/todo, tools/todo/plugin.py) is
      kept in memory or in a file, with a limit on the sessions it remembers.
    - The control plane (modules/controlplane) connects chats to the agent.  A
      chat redeems a one-time token and is bound to a principal with scopes
      (pairing/, storage/pair_tokens.py, storage/principals.py); its messages wait
      in an inbox (storage/inbox_outbox.py); a worker (runtime/worker/inbox.py)
      claims one, finds its identity and scopes (runtime/identity.py,
      runtime/security.py), checks the rate limits (runtime/rate_limit.py), routes
      it to a session (runtime/router.py, storage/store.py) and puts the reply in
      the outbox, from which a second worker delivers it.
    - The artifact store (modules/artifact) keeps inputs, outputs and the views made
      of them under the digest of their bytes: the bytes in a directory of blobs
      (storage/fs_cas.py over modules/storage/backends/blob_store.py), the entries,
      views, aliases and references of owners in an index (storage/store.py).
      [ArtifactCtl] (control.py) ingests, makes views, marks what is unused (gc),
      removes what was marked (purge) and verifies the whole.
    - The tool policy (modules/tool/runtime/policy*.py) is a dictionary that says
      which tools, scopes, paths, commands and variables a call may use; it is
      checked before a tool runs (policy_checks.py).  The tool [exec.run]
      (tools/exec) parses a command line (command_parser.py), checks each command
      of it against that policy, its directory and, outside of a sandbox, the
      executables (policy.py, workspace.py, sessions.py, handlers.py), and hands it
      to a sandbox, to the security laboratory, or to the process manager
      (process.py), whose sessions agents poll, feed and kill.

    ** Files

    - [Prelude]: results and the state-and-exception monad (Python code that
      mutates and may raise; the world reached when an exception is raised is
      kept, and [transaction] rolls tables back), Python text functions, the
      code-point order, SQL tables as lists of rows in insertion order, shared
      lemmas and tactics ([mstep], [msplit], [munfold], [bsplit]).
    - [PyValue]: Python values, dictionaries in insertion order, truth, [str],
      [repr], JSON text, and the class [PyEnv] of what the interpreter and its
      library provide and the sources do not contain (clock, uuid4, SHA-256,
      regular expressions, URL host, home directory, ISO parsing).
    - [Timestamps]: [datetime.isoformat] in UTC at microsecond width, and that
      the order of the texts is the order of the instants in the years 1 to 9999.
    - [PolicyModels], [PolicyStore], [PolicyGrants], [PolicyRules],
      [PolicyConfirm], [PolicyService]: constants.py, models.py,
      storage/store.py, grants.py, runtime/action_policy.py,
      runtime/confirmation.py and runtime/service.py of modules/policy, with the
      descriptor table of modules/tool/plugin_api.py and the modes of
      base/config/action_policy.py.  The state is [Store] (the four tables, the
      clock readings and the identifiers drawn) inside [PolicyCtl] (the service
      with its configuration and risk registry).
    - [TurnLeases]: the lease table and every operation of
      [SessionTurnLeaseStore].
    - [TurnQueue]: the queue's entries, idempotency index and emitted events,
      and every operation of [TurnInputQueue].
    - [A2AModels]: models.py, constants.py, errors.py, policy.py and the
      redaction of storage/base.py of modules/a2a.  [A2ARuntime]: runtime.py
      over storage/memory.py and registry.py.  A call or job in flight is a
      thread ([athread]) at a program point; [serve] is one request or one
      atomic step of a thread, and [serve_all] an interleaving.
    - [PyText]: conversions between text and integers; [IsoText]: a reader of
      ISO text that inverts [isoformat].
    - [Schedule]: schedule.py and user_schedule.py; [ScheduleCron] and
      [ScheduleProps]: the search of cron expressions, due points and the
      normalised forms.
    - [CronTables], [CronStore]: the tables [CronWorld] and every method of the
      store, one atomic step each.  [CronInv]: the invariant of the tables.
      [CronSteps], [CronKeeps]: predicates on runs that are stable under the
      changes the store makes, and that every operation keeps them; [CronProps]
      runs sequences of operations ([cron_exec], [cron_reachable]).
      [CronFlow], [CronEffects]: theorems about single operations.
    - [CronWorker]: coordination.py against the class [CronStoreProtocol] of
      store operations; a delivery is a program of single [steps].  [CronDelivery]:
      the laws a store promises ([CronStoreLaws]), the instance of the modelled
      store, and deliveries under way at once ([delivery_step]).
    - [CPTables]: the rows of the control plane's tables, the database [CPWorld]
      and the clock.  [CPPrincipals], [CPQueues]: the methods of the store on
      tokens, principals, queues and sessions, one transaction each.  [CPModels]: messages, the
      command parser and administrators.  [CPAuth]: identity, scopes, rate checks,
      administration and the pairing commands.  [CPPairing]: the pairing service,
      with a channel's adapter as an instance of [PairingAdapter].  [CPWorker]:
      the router and the two workers.  [OrderedDict]: Python's ordered
      dictionary with eviction; [CPCache]: the cached identity lookup.
    - [CPSteps]: the methods of the store as a step relation, and the tactics that
      show what a method leaves alone; [CPTokenProps], [CPQueueProps],
      [CPAccessProps], [CPGuessProps]: the theorems about the control plane.
    - [Todo]: the todo store in memory and in a file, and the todo tools, with
      the store as an instance of the class [TodoStore]; [TodoProps]:
      its theorems.
    - [TaskPlan], [TaskPlanProps]: steps, plans, signals, assignments and
      revisions.  [TaskLife]: the tables [TaskWorld] of tasks, checkpoints and
      claims and every method of the repository, with the transaction that a refused
      [INSERT] leaves open ([in_transaction]); [TaskLifeProps] runs sequences of
      them ([task_exec], [task_step]) and the commits of threads that share a
      repository and its lock ([repo_step]).  [TaskManager]: the manager over the two
      databases ([ManagerWorld]), in one file or in two, against the class
      [TaskCronStoreProtocol], of which the modelled cron store and the one without
      cron are instances; in one file an open transaction locks the cron store out;
      [TaskManagerProps]: its theorems, for the modelled store.
    - [BlobStore], [BlobGc]: the directory [BlobDir] of payloads and sidecars and its
      operations; [BlobStoreProps]: when its names are sound and what an operation
      does to them.  [ArtifactIndex]: records, the database [ArtWorld] and every
      method of the index.  [ArtifactText]: media types, decoding, excerpts, tables
      and redaction (content.py and the text functions of control.py), with the
      class [TextEnv] of codecs and parsers of the library.  [ArtifactCtl]:
      control.py, integrity.py, refs.py and the retention checks of config.py.
      [ArtifactProps]: the invariant [art_ok] and the requests that only add
      ([grown]); [ArtifactRetention]: the requests that only remove ([shrunk]);
      [ArtifactUse]: sequences of requests ([art_step]) and the theorems.
    - [CommandParser]: command_parser.py, modules/tool/commands.py and
      command_patterns.py, with [shlex] as far as they use it.  [ToolPolicy]: the
      policy and its checks, over POSIX paths ([Path]) and the class [ToolEnv] of
      the working directory, links, executables and tool names.  [ExecPolicy]:
      policy.py, hints.py and workspace.py of tools/exec, and schemas.py, sessions.py
      and handlers.py up to the start of a command ([_h_exec_run]).
      [ExecProcess]: the process manager [ProcWorld] over the class [ProcEnv] of
      the answers of the system, and [serve], one request of an agent.
    - [CommandProps], [ToolPolicyProps]: the theorems about commands, paths and the
      checks; [ExecProcessProps]: what a request does to a session ([advances]) and
      to the manager ([tracks]), sequences of requests ([serve_all]), deadlines and
      isolation ([isolated]).
    - [Demo], [CronDemo], [CPDemo], [TodoDemo], [TaskDemo], [ArtifactDemo],
      [ToolDemo]: a concrete environment and set-up in which the witnesses of the
      theorems run; that of the agent-to-agent runtime is in [A2AOnce].
    - [PolicyStoreProps], [PolicyServiceProps], [TurnLeasesProps],
      [TurnQueueProps], [A2AOnce], [A2AJobs], [A2ACalls]: the theorems; those
      about grants and rules are in [PolicyGrants] and [PolicyRules].

    ** What the theorems show

    - Authorisation: an exact action and an operations command are allowed only
      by a live one-time grant that stems from a confirmation of this invocation
      which the operator allowed (an operations command spends it; for an exact
      action, over histories in which no caller hands in an approval id); a
      guarded action only by a grant or a configured [auto] rule; a block rule
      wins over all of them; [log_only] spends nothing; each returning check is
      logged once.
    - Grants and confirmations: over any sequence of store operations the uses
      of a limited grant are bounded; a confirmation is resolved once, creates
      one bound grant, and is reused while it is live; the precedence among
      grants and rules; what validated grants satisfy; the exact window of an
      [allow_until] approval.
    - Leases: the behaviour of [acquire] on every branch; fence tokens are never
      reused; a lost lease stays lost; a live lease is changed only by its
      holder.
    - Queue: every operation but a [move] that raises refines the status machine,
      with the versions counting its steps; terminal entries are final; capacity, exclusive
      reservation, first-in first-out, idempotent enqueueing, the placement of a
      move, and events without the user's text.
    - Agent to agent, over every interleaving: handlers run at most once per
      idempotency scope and key; a job and its receipt agree; settled jobs and
      call receipts never change; a cancellation settles its job; retries are
      answered from the receipt; requests that are not admitted change nothing;
      the last matching policy rule decides.
    - Schedules: the search of a cron expression ends, and finds the first match
      after the given time or none within five years; an expression of weekly
      points always comes due; due points obey the misfire policy and the next
      due time moves forward; normalised schedules and policies are read back as
      they were stored.
    - Cron, over every sequence of store operations: a run is started at most as
      often as its limit says, at most one run per coordination key is running, the
      tables stay consistent, a worker whose lease was taken over changes nothing,
      and each target is delivered to at most once however the steps of deliveries
      interleave.  For single operations: a due run is
      acquired, enqueueing respects the concurrency limit, a paused scheduler
      starts nothing, a retry waits for its backoff, and finishing a run
      publishes the watermark of its scope.
    - Control plane: a pairing token is consumed at most once and only as it was
      issued; redeeming it gives the chat the token's scopes and a revocation takes
      them away from all messages but those that carry an identity; the attempts that reach the token store are bounded per window; a
      message without identity or scopes is never dispatched, unless it is a
      [/pair] command; a session keeps its
      owner and is refused to others; a message is stored once, claimed oldest
      first, left alone while its lock is live and retried after a backoff; rate
      limits hold in every window.
    - Identity cache and todo lists: a cached answer is at most the time to live
      old; reopening a file store restores every plan; plans stay well-formed and
      within the limits; the session that is dropped is the least recently used;
      a written list is read back.
    - Task plans: the traversal accepts exactly the acyclic graphs with known
      dependencies; a plan in progress stays valid and can be completed; criteria
      never change under a plan's identity and revisions form a chain.
    - Tasks: finished tasks stay finished; a claim after which a new one was granted
      can do nothing; among the threads of one repository a checkpoint has one
      committed successor; a refused stop restores the job, a failed scheduling
      leaves nothing behind unless the file is locked, a cancelled task stops, and an
      outcome is recorded once.
    - Artifacts, over every sequence of requests: verification finds nothing wrong;
      what was ingested is read back by the sessions that may; collection keeps what owners and aliases hold
      and their views; purging keeps what is live, but for the case in the
      divergences; an opaque input stays with its session.  A collection of the
      blob directory ends within its budget and removes the oldest digests.
    - Tools and commands: a path that a tool is handed is confined to the allowed
      roots, links resolved, and a relative one to the workspace; a scope is never
      widened; a call that passes the checks is of a permitted tool, scope, path and
      command.  The segments and operators that a command line is parsed to make up
      the whole of it, and one put together from quoted words is read back; it reaches
      a shell only when each segment is accepted, and the host only when that was
      enabled and approved (a shell may read it differently from the parser, see the
      divergences); the laboratory runs approved executables alone.
    - Process manager: a request neither depends on nor changes the sessions of
      other agents; polls return the output once and in order; a session that ended
      stays as it is; one past its deadline is killed when it is asked for (nothing
      watches it in between); waiting ends.
    - Divergences: the [expired] state of a confirmation is rolled back, a
      failed [move] loses its entry, compensation can exceed the queue's
      capacity, risk inference takes [delete_target] for a read, a grant for every
      tool with a made-up approval id allows an exact action, a run whose job is
      deleted is never recovered, a cron search in the repeated hour returns a
      time in the past, the points a catch-up selects beyond the concurrency
      limit are dropped, the revoke command finds no pairing in Slack, and is
      dispatched without its scope, a queued message that carries an identity keeps
      it after a revocation, a
      message that kills its worker is claimed without end, a refused todo write
      has replaced the list, a reopened todo store forgets which session was used
      last, concurrent saves lose an update, a transition that read the task
      before another one finished it overwrites the finished state, two workers
      can commit a successor of the same checkpoint when the checks of one precede
      the commit of the other, a refused task record leaves a job behind and the file
      locked, the reason of a failure is overwritten by a later
      run, a revision-only turn can replace the plan by one with completed
      steps; purging destroys a live artifact that is its own view and was ingested
      again, an input that was ingested again keeps its age, a recent input with the
      bytes of a view of an old one is collected, a second session cannot open
      opaque bytes it handed in, an address next to another one is not redacted, and
      a file whose name begins with a digest is taken for its blob; an escaped quote
      or a quote in a comment hides the commands after it from the policy, a command substitution is not
      looked into, an assignment in front of a command sets what the variables of the
      call may not, [find] counts as read-only with any arguments, a command that is
      rebuilt for another interpreter loses its redirections, and the name of the
      workspace in a policy is unknown to the working directories.

    ** Assumptions and bounds

    The control plane's dispatcher, the delivery of a channel and the older
    Telegram token store are parameters; the workers are proved for every
    behaviour of theirs, and the older store is assumed to write only its own
    tables where that matters ([legacy_separate]).
    Theorems that need them take as hypotheses that [uuid4] does not repeat
    ([uuids_distinct]), that the clock does not run backwards
    ([clock_monotone]), and that its readings are representable instants.  Text
    is Latin-1; a naive time is read as UTC; foreign keys of the lease table are
    taken to hold.  An operation under a lock or in a transaction is one step;
    where the code reads before it locks, the two parts are definitions of their
    own ([transition_write], [commit_check], [commit_write]).  What a repository's
    own lock serialises is proved of the calls through one repository; calls of
    several connections appear where a theorem names them and in the divergences.
    [clock_strict] states that readings of the clock increase, as far as they are
    taken; the readings of [time.monotonic] are the class [MonotonicClock], and
    the clock, the limits and the file system of the todo store are the class
    [TodoEnv].  The two databases of the task manager share clock and identifiers.
    The files that artifacts are ingested from are a parameter, and [sha_is_hex]
    states that a SHA-256 text is 64 hexadecimal digits; modification times of
    blobs are a parameter.  The database function [date] is that of UTC texts.
    For paths, [realpath_resolves] states that a resolved path is absolute, without
    dots or empty components, and resolved again the same, and
    [expanduser_tilde_only] that a path with a leading slash has no home directory
    to expand.  The reading of arguments by pydantic, [json.loads], [float] of a
    text, the directories that exist, the platform and the shells are parameters of
    [ExecPolicy]; of the operating system the process manager assumes nothing, but
    theorems over several requests take that session names do not repeat
    ([ids_distinct]).  An environment is a configuration object, not a plain
    mapping.
    The time-zone database, SHA-256 and the parsing of ISO texts are parameters;
    [iso_reads_back] states that the parser inverts [isoformat].  Rows that tie
    in an ORDER BY come in the order of their row ids, and a JSON column holds
    the value its text denotes.  The loops recurse on the lists they traverse,
    except these: the cron search has as fuel the number of steps to its
    five-year limit ([cron_search_terminates] shows that it never runs out); the
    loop over due points stops after 512 points as the code does; the traversal of
    a plan has one more than the number of steps ([step_graph_check_exact] shows
    that it never runs out; Python's own recursion limit is not modelled); the
    pages of unresolved runs are at most as many as the runs; the matcher of
    glob patterns recurses on the lengths of pattern and name, and decimal text
    on the size of the number; redirections are dropped at most as often as the text
    is long; and waiting for a session takes the rounds it is given ([wait_returns]
    shows that one per microsecond is enough; a run that is out of rounds counts as
    still running).
    Integers are Python's, hence [Z] or [nat] without wrap-around; the bounds
    that matter (capacities, time windows, the preview length) are theorems.

    ** Not modelled

    The SQL engine's own failures (but for refused rows and the lock that one
    leaves in [TaskManager]), the sink [put_bytes] of the agent-to-agent
    runtime (a parameter), the agent-to-agent SQLite and audit stores and the
    [from_dict] parsers, the consent preview texts, the control plane's users,
    clarifications, attachments, housekeeping (with the retention deletions of
    runtime/janitor.py) and dispatcher, the default path of
    the todo file, project cycles above plans and claims, the runs of a sandbox, the
    summaries, previews and events of commands, the error of a loop of symbolic
    links, and the rest of the system: the brain and its language-model clients,
    memory, context, the other tools, channels, HTTP and command line, which are
    input and output around third-party services.  Next in line are project cycles,
    the scheduling loop of the cron service, supervision and the sandbox runners. *)

From stdpp Require Export base gmap strings list pretty.
From Stdlib Require Export ZArith Lia.
From Stdlib Require Import Ascii Sorting.Sorted.

(** ** Results and the state-and-exception monad

    Python code that mutates an object and may raise is a function from the
    world to the world after the call and a result.  The world reached when an
    exception is raised is kept: Python has no implicit rollback. *)

Inductive result (E A : Type) : Type :=
| Ok (a : A)
| Raise (e : E).
Arguments Ok {E A} a.
Arguments Raise {E A} e.

Definition M (W E A : Type) : Type := W → W * result E A.

#[export] Instance M_ret {W E} : MRet (M W E) := λ A a w, (w, Ok a).

#[export] Instance M_bind {W E} : MBind (M W E) := λ A B f m w,
  match m w with
  | (w', Ok a) => f a w'
  | (w', Raise e) => (w', Raise e)
  end.

Definition raise {W E A} (e : E) : M W E A := λ w, (w, Raise e).
Definition get_world {W E} : M W E W := λ w, (w, Ok w).
Definition put_world {W E} (w' : W) : M W E () := λ _, (w', Ok ()).
Definition gets {W E A} (f : W → A) : M W E A := λ w, (w, Ok (f w)).
Definition modify {W E} (f : W → W) : M W E () := λ w, (f w, Ok ()).
Definition lift_result {W E A} (r : result E A) : M W E A := λ w, (w, r).

#[export] Instance result_ret {E} : MRet (result E) := λ A a, Ok a.
#[export] Instance result_bind {E} : MBind (result E) := λ A B f m,
  match m with
  | Ok a => f a
  | Raise e => Raise e
  end.

(** [with store.transaction(): body] commits when the body returns and rolls
    the tables back when it raises; [rollback before after] rebuilds the world
    with the tables of [before] (the clock and the id generator of [after] are
    not transactional). *)
Definition transaction {W E A} (rollback : W → W → W) (m : M W E A) : M W E A :=
  λ w, match m w with
       | (w', Ok a) => (w', Ok a)
       | (w', Raise e) => (rollback w w', Raise e)
       end.

Section monad_lemmas.
Context {W E : Type}.

Lemma bind_Ok_inv {A B} (m : M W E A) (f : A → M W E B) w w' b :
  mbind f m w = (w', Ok b) → ∃ w1 a, m w = (w1, Ok a) ∧ f a w1 = (w', Ok b).
Proof.
  unfold mbind, M_bind. destruct (m w) as [w1 [a|e]] eqn:Hm; [eauto|done].
Qed.

Lemma bind_of_Ok {A B} (m : M W E A) (f : A → M W E B) w w1 a :
  m w = (w1, Ok a) → mbind f m w = f a w1.
Proof. unfold mbind, M_bind. by intros ->. Qed.

Lemma bind_of_Raise {A B} (m : M W E A) (f : A → M W E B) w w1 e :
  m w = (w1, Raise e) → mbind f m w = (w1, Raise e).
Proof. unfold mbind, M_bind. by intros ->. Qed.

(** A world invariant preserved by both halves is preserved by the bind,
    whether or not the first half raises. *)
Lemma bind_preserves {A B} (P : W → Prop) (m : M W E A) (f : A → M W E B) :
  (∀ w, P w → P (m w).1) → (∀ a w, P w → P (f a w).1) →
  ∀ w, P w → P (mbind f m w).1.
Proof.
  intros Hm Hf w Hw. unfold mbind, M_bind. specialize (Hm w Hw).
  destruct (m w) as [w1 [a|e]]; simpl in *; auto.
Qed.

Lemma lift_Ok_inv {A} (r : result E A) (w w' : W) a :
  lift_result r w = (w', Ok a) → w' = w ∧ r = Ok a.
Proof. unfold lift_result. by intros [= -> ->]. Qed.

Lemma bind_lift_Ok {A B} (r : result E A) (f : A → M W E B) (w : W) a :
  r = Ok a → mbind f (lift_result r) w = f a w.
Proof. by intros ->. Qed.

Lemma bind_lift_Raise {A B} (r : result E A) (f : A → M W E B) (w : W) e :
  r = Raise e → mbind f (lift_result r) w = (w, Raise e).
Proof. by intros ->. Qed.

Lemma bind_get_world {B} (f : W → M W E B) (w : W) : mbind f get_world w = f w w.
Proof. done. Qed.

Lemma transaction_Ok_inv {A} rb (m : M W E A) w w' a :
  transaction rb m w = (w', Ok a) → m w = (w', Ok a).
Proof. unfold transaction. destruct (m w) as [? [?|?]]; naive_solver. Qed.
End monad_lemmas.

(** Exposes the next monadic action of a hypothesis [H : prog w = _], naming
    the world and value it produced. *)
Ltac mstep H :=
  match type of H with
  | mbind _ _ _ = (_, Ok _) =>
      apply bind_Ok_inv in H as (? & ? & ? & H)
  end.
Tactic Notation "msplit" hyp(H) "as" ident(w) ident(a) ident(E) :=
  apply bind_Ok_inv in H as (w & a & E & H).
Ltac munfold := unfold mbind, M_bind, mret, M_ret, raise, get_world, put_world,
  gets, modify, lift_result, result_ret, result_bind in *.

(** ** Booleans *)

Lemma negb_true_intro b : b = false → negb b = true.
Proof. by intros ->. Qed.

(** A guard [if a and not b: raise] that was passed. *)
Lemma guard_implies (a b : bool) : a && negb b = false → a = true → b = true.
Proof. by destruct a, b. Qed.

(** Splits every boolean conjunction, disjunction and negation among the
    hypotheses into its parts. *)
Ltac bsplit := repeat match goal with
  | H : _ && _ = true |- _ => apply andb_true_iff in H as [? ?]
  | H : _ || _ = false |- _ => apply orb_false_iff in H as [? ?]
  | H : negb _ = true |- _ => apply negb_true_iff in H
  | H : negb _ = false |- _ => apply negb_false_iff in H
  | H : String.eqb _ _ = true |- _ => apply String.eqb_eq in H
  | H : String.eqb _ _ = false |- _ => apply String.eqb_neq in H
  end.

(** ** Text

    A [str] is a Stdlib string; each character stands for one code point in
    the Latin-1 range, for which the functions below are Python's. *)

Definition latin1_is_space (c : ascii) : bool :=
  let n := N_of_ascii c in
  ((9 <=? n) && (n <=? 13) || (28 <=? n) && (n <=? 32)
   || (n =? 133) || (n =? 160))%N.

Definition latin1_lower (c : ascii) : ascii :=
  let n := N_of_ascii c in
  if ((65 <=? n) && (n <=? 90) || (192 <=? n) && (n <=? 222) && negb (n =? 215))%N
  then ascii_of_N (n + 32) else c.

(** [str.upper] on ASCII; the code calls it on ASCII tool names only. *)
Definition ascii_upper (c : ascii) : ascii :=
  let n := N_of_ascii c in
  if ((97 <=? n) && (n <=? 122))%N then ascii_of_N (n - 32) else c.

Fixpoint str_map (f : ascii → ascii) (s : string) : string :=
  match s with
  | EmptyString => EmptyString
  | String c s' => String (f c) (str_map f s')
  end.

Definition py_lower : string → string := str_map latin1_lower.
Definition py_upper : string → string := str_map ascii_upper.

Fixpoint drop_while (p : ascii → bool) (s : string) : string :=
  match s with
  | EmptyString => EmptyString
  | String c s' => if p c then drop_while p s' else s
  end.

(** Removes the longest suffix whose characters all satisfy [p]. *)
Fixpoint drop_while_end (p : ascii → bool) (s : string) : string :=
  match s with
  | EmptyString => EmptyString
  | String c s' =>
      match drop_while_end p s' with
      | EmptyString => if p c then EmptyString else String c EmptyString
      | t => String c t
      end
  end.

(** [s.strip()] *)
Definition py_strip (s : string) : string :=
  drop_while_end latin1_is_space (drop_while latin1_is_space s).

(** [s.rstrip(chars)] *)
Fixpoint str_mem (c : ascii) (s : string) : bool :=
  match s with
  | EmptyString => false
  | String d s' => Ascii.eqb c d || str_mem c s'
  end.
Definition py_rstrip_chars (chars s : string) : string :=
  drop_while_end (λ c, str_mem c chars) s.

(** [s.split()]: the maximal runs of non-space characters. *)
Fixpoint split_go (cur : string) (s : string) : list string :=
  match s with
  | EmptyString => if String.eqb cur "" then [] else [cur]
  | String c s' =>
      if latin1_is_space c
      then (if String.eqb cur "" then [] else [cur]) ++ split_go "" s'
      else split_go (cur +:+ String c "") s'
  end.
Definition py_split (s : string) : list string := split_go "" s.

(** [sep.join(parts)] *)
Fixpoint py_join (sep : string) (parts : list string) : string :=
  match parts with
  | [] => ""
  | [p] => p
  | p :: rest => p +:+ sep +:+ py_join sep rest
  end.

(** [s.startswith(p)] *)
Definition py_startswith (s p : string) : bool := String.prefix p s.

(** [p in s] *)
Fixpoint py_contains (s p : string) : bool :=
  String.prefix p s ||
  match s with
  | EmptyString => false
  | String _ s' => py_contains s' p
  end.

(** [s.rpartition(sep)] for a one-character separator: the part before the
    last separator and the part after it, [None] when there is none. *)
Fixpoint py_rpartition (sep : ascii) (s : string) : option (string * string) :=
  match s with
  | EmptyString => None
  | String c s' =>
      match py_rpartition sep s' with
      | Some (l, r) => Some (String c l, r)
      | None => if Ascii.eqb c sep then Some ("", s') else None
      end
  end.

(** [s.replace(c, rep)] for a one-character [c]. *)
Fixpoint py_replace (c : ascii) (rep s : string) : string :=
  match s with
  | EmptyString => EmptyString
  | String d s' => if Ascii.eqb d c then rep +:+ py_replace c rep s'
                   else String d (py_replace c rep s')
  end.

(** Truth value of a [str], and of an optional one. *)
Definition truthy (s : string) : bool := negb (String.eqb s "").
Definition otruthy (o : option string) : bool :=
  match o with Some s => truthy s | None => false end.
(** [o or d] for an optional [str]. *)
Definition str_or (o : option string) (d : string) : string :=
  match o with
  | Some s => if truthy s then s else d
  | None => d
  end.
Definition ostr_eqb (a b : option string) : bool :=
  match a, b with
  | Some x, Some y => String.eqb x y
  | None, None => true
  | _, _ => false
  end.

(** [s in {…}] for a literal collection of strings. *)
Definition str_in (s : string) (l : list string) : bool := existsb (String.eqb s) l.

Lemma str_in_elem s l : str_in s l = true ↔ s ∈ l.
Proof.
  unfold str_in. rewrite existsb_exists. setoid_rewrite String.eqb_eq.
  rewrite list_elem_of_In. split; [intros (x & Hx & ->)|intros Hs; exists s]; done.
Qed.

Lemma str_in_elem_false s l : str_in s l = false ↔ s ∉ l.
Proof. rewrite <-str_in_elem. by destruct (str_in s l). Qed.

Lemma ostr_eqb_eq a b : ostr_eqb a b = true ↔ a = b.
Proof.
  destruct a, b; simpl; try (split; congruence).
  rewrite String.eqb_eq. split; congruence.
Qed.

Lemma truthy_true s : truthy s = true ↔ s ≠ "".
Proof. unfold truthy. rewrite negb_true_iff. apply String.eqb_neq. Qed.

(** ** The code-point order on strings

    Python compares [str] values, and SQLite compares TEXT columns, by code
    point. *)

Definition str_ltb (a b : string) : bool :=
  match String.compare a b with Lt => true | _ => false end.
Definition str_leb (a b : string) : bool := String.leb a b.

Lemma str_leb_ltb a b : str_leb a b = negb (str_ltb b a).
Proof.
  unfold str_leb, String.leb, str_ltb. rewrite (String.compare_antisym b a).
  by destruct (a ?= b)%string.
Qed.

Lemma str_compare_refl a : String.compare a a = Eq.
Proof.
  induction a as [|c a IH]; simpl; [done|].
  unfold Ascii.compare. by rewrite N.compare_refl.
Qed.

Lemma str_ltb_irrefl a : str_ltb a a = false.
Proof. unfold str_ltb. by rewrite str_compare_refl. Qed.

Lemma str_leb_refl a : str_leb a a = true.
Proof. by rewrite str_leb_ltb, str_ltb_irrefl. Qed.

Lemma str_leb_trans a b c :
  str_leb a b = true → str_leb b c = true → str_leb a c = true.
Proof.
  intros H1 H2. apply Is_true_true. change (String.le a c).
  apply Is_true_true in H1, H2. by etrans.
Qed.

Lemma str_leb_antisymm a b : str_leb a b = true → str_leb b a = true → a = b.
Proof. unfold str_leb. apply String.leb_antisym. Qed.

Lemma str_ltb_leb a b : str_ltb a b = true → str_leb a b = true.
Proof.
  unfold str_ltb, str_leb, String.leb. by destruct (a ?= b)%string.
Qed.

Lemma str_ltb_leb_trans a b c :
  str_ltb a b = true → str_leb b c = true → str_ltb a c = true.
Proof.
  intros Hab Hbc. destruct (str_ltb a c) eqn:E; [done|].
  assert (str_leb c a = true) as Hca by (rewrite str_leb_ltb; by rewrite E).
  assert (str_leb b a = true) as Hba by eauto using str_leb_trans.
  rewrite str_leb_ltb, Hab in Hba. done.
Qed.

Lemma str_leb_ltb_trans a b c :
  str_leb a b = true → str_ltb b c = true → str_ltb a c = true.
Proof.
  intros Hab Hbc. destruct (str_ltb a c) eqn:E; [done|].
  assert (str_leb c a = true) as Hca by (rewrite str_leb_ltb; by rewrite E).
  assert (str_leb c b = true) as Hcb by eauto using str_leb_trans.
  rewrite str_leb_ltb, Hbc in Hcb. done.
Qed.

Lemma str_ltb_trans a b c :
  str_ltb a b = true → str_ltb b c = true → str_ltb a c = true.
Proof. intros H1 H2. eauto using str_ltb_leb_trans, str_ltb_leb. Qed.

Create HintDb minion.
#[export] Hint Resolve str_leb_refl str_leb_trans str_ltb_leb : minion.

(** ** Tables

    A SQL table is the list of its rows in insertion order. *)

Lemma filter_elem {A} (p : A → bool) l x :
  x ∈ List.filter p l ↔ x ∈ l ∧ p x = true.
Proof. by rewrite !list_elem_of_In, filter_In. Qed.
Lemma NoDup_map_filter {A B} (g : A → B) p (l : list A) :
  NoDup (map g l) → NoDup (map g (List.filter p l)).
Proof.
  induction l as [|x l IH]; simpl; [done|]. intros [Hx Hl]%NoDup_cons.
  destruct (p x); simpl; [|by apply IH]. apply NoDup_cons. split; [|by apply IH].
  intros Hin. apply Hx. apply list_elem_of_In, in_map_iff in Hin as (y & Ey & Hy).
  apply filter_In in Hy as [Hy _]. rewrite <-Ey. apply list_elem_of_In, in_map, Hy.
Qed.

Section tables.
Context {A : Type}.
Implicit Types (p : A → bool) (f : A → A) (l : list A).

(** [UPDATE … SET f WHERE p] and its row count. *)
Definition update_where p f l : list A := map (λ x, if p x then f x else x) l.
Definition count_where p l : nat := length (List.filter p l).

Lemma update_where_elem p f l y :
  y ∈ update_where p f l ↔
  ∃ x, x ∈ l ∧ ((p x = true ∧ y = f x) ∨ (p x = false ∧ y = x)).
Proof.
  unfold update_where. rewrite list_elem_of_In, in_map_iff.
  setoid_rewrite list_elem_of_In. split.
  - intros (x & <- & Hx). exists x. destruct (p x); naive_solver.
  - intros (x & Hx & [[Hp ->]|[Hp ->]]); exists x; by rewrite Hp.
Qed.

Lemma update_where_Forall (P : A → Prop) p f l :
  (∀ x, P x → p x = true → P (f x)) → Forall P l → Forall P (update_where p f l).
Proof.
  intros Hf Hl. unfold update_where. apply Forall_fmap.
  eapply Forall_impl; [done|]. intros x Hx. simpl. destruct (p x) eqn:E; auto.
Qed.

Lemma update_where_length p f l : length (update_where p f l) = length l.
Proof. apply length_map. Qed.

Lemma update_where_id p f l :
  (∀ x, x ∈ l → p x = false) → update_where p f l = l.
Proof.
  induction l as [|x l IH]; intros Hl; simpl; [done|].
  rewrite (Hl x) by (left; done). f_equal. apply IH. intros y Hy. apply Hl. by right.
Qed.

(** A projection that the update leaves alone keeps its list of values. *)
Lemma update_where_map {B} (g : A → B) p f l :
  (∀ x, g (f x) = g x) → map g (update_where p f l) = map g l.
Proof.
  intros Hg. unfold update_where. rewrite map_map. apply map_ext.
  intros x. by destruct (p x).
Qed.

Lemma count_where_snoc p l x :
  count_where p (l ++ [x]) = count_where p l + if p x then 1 else 0.
Proof. unfold count_where. rewrite List.filter_app, length_app. simpl. by destruct (p x). Qed.
Lemma count_where_mono p q l : (∀ x, x ∈ l → p x = true → q x = true) → count_where p l ≤ count_where q l.
Proof.
  unfold count_where. induction l as [|x l IH]; simpl; intros H; [done|].
  assert (length (List.filter p l) ≤ length (List.filter q l)) as Hl
    by (apply IH; intros y Hy; apply H; by right).
  destruct (p x) eqn:E; [rewrite (H x) by (done || by left)|destruct (q x)]; simpl; lia.
Qed.
Lemma count_where_pos p l x : x ∈ l → p x = true → 0 < count_where p l.
Proof.
  intros Hx Hp. unfold count_where.
  assert (In x (List.filter p l)) as Hin
    by (apply filter_In; split; [by apply list_elem_of_In|done]).
  destruct (List.filter p l); [done|simpl; lia].
Qed.

Lemma count_where_unique {B} (g : A → B) p l x :
  NoDup (map g l) → x ∈ l → p x = true → (∀ y, p y = true → g y = g x) →
  count_where p l = 1.
Proof.
  unfold count_where. intros Hnd Hx Hp Hg.
  induction l as [|z l IH]; [by apply elem_of_nil in Hx|].
  simpl in Hnd. apply NoDup_cons in Hnd as [Hz Hnd].
  assert (∀ y, y ∈ l → g y ∈ map g l) as Hmap.
  { intros y Hy. apply list_elem_of_In, in_map, list_elem_of_In, Hy. }
  apply elem_of_cons in Hx as [->|Hx]; simpl.
  - rewrite Hp. simpl. f_equal.
    destruct (List.filter p l) as [|y ys] eqn:E; [done|].
    exfalso. apply Hz. assert (In y (List.filter p l)) as Hy by (rewrite E; by left).
    apply filter_In in Hy as [Hy Hpy]. apply list_elem_of_In in Hy.
    rewrite <-(Hg y Hpy). by apply Hmap.
  - destruct (p z) eqn:Ez; [|by apply IH].
    exfalso. apply Hz. rewrite (Hg z Ez). by apply Hmap.
Qed.

(** [SELECT … ORDER BY key DESC]: a stable sort; rows with equal keys keep
    their insertion order. *)
Fixpoint insert_desc (key : A → string) (x : A) l : list A :=
  match l with
  | [] => [x]
  | y :: l' => if str_leb (key y) (key x) then x :: l else y :: insert_desc key x l'
  end.
Definition sort_desc (key : A → string) l : list A := foldr (insert_desc key) [] l.

Lemma insert_desc_perm key x l : insert_desc key x l ≡ₚ x :: l.
Proof.
  induction l as [|y l IH]; simpl; [done|].
  destruct (str_leb _ _); [done|]. by rewrite IH, Permutation_swap.
Qed.

Lemma sort_desc_perm key l : sort_desc key l ≡ₚ l.
Proof.
  induction l as [|x l IH]; simpl; [done|]. by rewrite insert_desc_perm, IH.
Qed.

Lemma sort_desc_elem key l x : x ∈ sort_desc key l ↔ x ∈ l.
Proof. by rewrite sort_desc_perm. Qed.

(** The first row of a descending sort has the greatest key. *)
Lemma sort_desc_head key l x rest :
  sort_desc key l = x :: rest → ∀ y, y ∈ l → str_leb (key y) (key x) = true.
Proof.
  revert x rest. induction l as [|z l IH]; intros x rest; simpl; [done|].
  destruct (sort_desc key l) as [|h t] eqn:E; simpl.
  - intros [= -> <-] y Hy.
    assert (l = []) as -> by (by apply Permutation_nil; rewrite <-E; apply sort_desc_perm).
    apply list_elem_of_singleton in Hy as ->. apply str_leb_refl.
  - destruct (str_leb (key h) (key z)) eqn:Eh; intros [= <- _] y Hy;
      apply elem_of_cons in Hy as [->|Hy]; auto using str_leb_refl.
    + eauto with minion.
    + rewrite str_leb_ltb in Eh |- *. apply negb_false_iff in Eh.
      apply negb_true_iff. destruct (str_ltb (key h) (key z)) eqn:E2; [|done].
      pose proof (str_ltb_trans _ _ _ Eh E2) as E3. by rewrite str_ltb_irrefl in E3.
    + eauto with minion.
Qed.

(** Restricting the rows does not change which row is first, if it remains. *)
Lemma sort_desc_filter_head key (q : A → bool) l h rest :
  sort_desc key l = h :: rest → q h = true →
  ∃ rest', sort_desc key (List.filter q l) = h :: rest'.
Proof.
  revert h rest. induction l as [|z l IH]; intros h rest; [done|]. cbn [sort_desc foldr].
  fold (sort_desc key l). destruct (sort_desc key l) as [|h' t'] eqn:E; cbn [insert_desc].
  - assert (l = []) as -> by (by apply Permutation_nil; rewrite <-E; apply sort_desc_perm).
    intros [= <- <-] Hq. cbn. rewrite Hq. by eexists.
  - destruct (str_leb (key h') (key z)) eqn:Eh; intros [= <- <-] Hq.
    + cbn [List.filter]. rewrite Hq. cbn [sort_desc foldr]. fold (sort_desc key (List.filter q l)).
      destruct (sort_desc key (List.filter q l)) as [|y t] eqn:Ey; [by eexists|].
      assert (y ∈ l) as Hy.
      { apply (filter_elem q), (sort_desc_elem key). rewrite Ey. left. }
      cbn [insert_desc].
      rewrite (str_leb_trans _ _ _ (sort_desc_head _ _ _ _ E y Hy) Eh). by eexists.
    + destruct (IH h' t' eq_refl Hq) as [r Hr]. cbn [List.filter].
      destruct (q z); [|by eexists]. cbn [sort_desc foldr].
      fold (sort_desc key (List.filter q l)). rewrite Hr. cbn [insert_desc]. rewrite Eh.
      by eexists.
Qed.

(** [max(items, key=…)]: the first of the greatest items; [gt a b] says that
    the key of [a] is strictly greater than the key of [b]. *)
Definition py_max (gt : A → A → bool) (x : A) l : A :=
  fold_left (λ m y, if gt y m then y else m) l x.

Lemma py_max_elem gt x l : py_max gt x l ∈ x :: l.
Proof.
  revert x. induction l as [|y l IH]; intros x; simpl; [by left|].
  specialize (IH (if gt y x then y else x)).
  apply elem_of_cons in IH as [IH|IH].
  - unfold py_max in *. simpl. rewrite IH. destruct (gt y x); [right; by left|by left].
  - right. by right.
Qed.

Lemma py_max_ge gt x l :
  (∀ a b c, gt a b = false → gt b c = false → gt a c = false) →
  (∀ a, gt a a = false) →
  (∀ a b, gt a b = true → gt b a = false) →
  ∀ y, y ∈ x :: l → gt y (py_max gt x l) = false.
Proof.
  intros Htr Hrefl Hasym. revert x.
  induction l as [|z l IH]; intros x y Hy; simpl.
  - apply list_elem_of_singleton in Hy as ->. apply Hrefl.
  - change (py_max gt x (z :: l)) with (py_max gt (if gt z x then z else x) l).
    pose proof (IH (if gt z x then z else x) _ ltac:(by left)) as H1.
    apply elem_of_cons in Hy as [->|Hy]; [|apply elem_of_cons in Hy as [->|Hy]].
    + destruct (gt z x) eqn:E; [|done]. apply (Htr x z); auto.
    + destruct (gt z x) eqn:E; [done|]. by apply (Htr z x).
    + apply IH. by right.
Qed.
End tables.

(** ** Strings and lists *)

Lemma str_app_assoc s1 s2 s3 : (s1 +:+ s2) +:+ s3 = s1 +:+ (s2 +:+ s3).
Proof.
  induction s1 as [|c s1 IH]; [done|].
  change (String c ((s1 +:+ s2) +:+ s3) = String c (s1 +:+ (s2 +:+ s3))).
  by rewrite IH.
Qed.

Lemma str_app_nil_r s : s +:+ "" = s.
Proof.
  induction s as [|c s IH]; [done|].
  change (String c (s +:+ "") = String c s). by rewrite IH.
Qed.

Lemma drop_while_head p s c s' : drop_while p s = String c s' → p c = false.
Proof.
  induction s as [|d s IH]; simpl; [done|].
  destruct (p d) eqn:E; [done|]. by intros [= <- _].
Qed.

Lemma existsb_elem {A} (p : A → bool) l :
  existsb p l = true ↔ ∃ x, x ∈ l ∧ p x = true.
Proof. rewrite existsb_exists. by setoid_rewrite list_elem_of_In. Qed.


Lemma find_elem {A} (p : A → bool) l x :
  List.find p l = Some x → x ∈ l ∧ p x = true.
Proof. intros H%find_some. by rewrite list_elem_of_In. Qed.

(** ** Ascending order and limits *)

Section sort_asc.
Context {A : Type} (key : A → string).
Implicit Types (l : list A).

(** [SELECT … ORDER BY key ASC]: a stable sort. *)
Fixpoint insert_asc (x : A) l : list A :=
  match l with
  | [] => [x]
  | y :: l' => if str_leb (key x) (key y) then x :: l else y :: insert_asc x l'
  end.
Definition sort_asc l : list A := foldr insert_asc [] l.

Lemma insert_asc_perm x l : insert_asc x l ≡ₚ x :: l.
Proof.
  induction l as [|y l IH]; simpl; [done|]. case_match; [done|]. by rewrite IH, Permutation_swap.
Qed.
Lemma sort_asc_perm l : sort_asc l ≡ₚ l.
Proof. induction l as [|x l IH]; simpl; [done|]. by rewrite insert_asc_perm, IH. Qed.
Lemma sort_asc_elem l x : x ∈ sort_asc l ↔ x ∈ l.
Proof. by rewrite sort_asc_perm. Qed.

(** The first row of an ascending sort has the least key. *)
Lemma sort_asc_head l x rest :
  sort_asc l = x :: rest → ∀ y, y ∈ l → str_leb (key x) (key y) = true.
Proof.
  revert x rest. induction l as [|z l IH]; intros x rest; simpl; [done|].
  destruct (sort_asc l) as [|h t] eqn:E; simpl.
  - intros [= -> <-] y Hy.
    assert (l = []) as -> by (by apply Permutation_nil; rewrite <-E; apply sort_asc_perm).
    apply list_elem_of_singleton in Hy as ->. apply str_leb_refl.
  - destruct (str_leb (key z) (key h)) eqn:Eh; intros [= <- _] y Hy;
      apply elem_of_cons in Hy as [->|Hy]; auto using str_leb_refl; [eauto with minion| |eauto with minion].
    rewrite str_leb_ltb in Eh. apply negb_false_iff in Eh. by apply str_ltb_leb.
Qed.
End sort_asc.

(** [LIMIT n] *)
Definition limit_rows {A} (limit : Z) (l : list A) : list A := take (Z.to_nat limit) l.

(** ** Steps that stay within a relation

    [within R m]: the world that [m] reaches, by returning or by raising, is
    related by [R] to the world it started from.  For a preorder [R] the
    programs within [R] are closed under sequencing. *)

Definition within {W E A} (R : W → W → Prop) (m : M W E A) : Prop := ∀ w, R w (m w).1.

Create HintDb within.

Section within.
Context {W E : Type} (R : W → W → Prop) `{!PreOrder R}.

Lemma within_same {A} (m : M W E A) : (∀ w, (m w).1 = w) → within R m.
Proof. intros H w. by rewrite H. Qed.
Lemma within_ret {A} (a : A) : within R (mret a : M W E A).
Proof. by apply within_same. Qed.
Lemma within_raise {A} e : within R (raise e : M W E A).
Proof. by apply within_same. Qed.
Lemma within_gets {A} (f : W → A) : within R (gets f : M W E A).
Proof. by apply within_same. Qed.
Lemma within_get : within R (get_world : M W E W).
Proof. by apply within_same. Qed.
Lemma within_lift {A} (r : result E A) : within R (lift_result r : M W E A).
Proof. by apply within_same. Qed.
Lemma within_bind {A B} (m : M W E A) (f : A → M W E B) :
  within R m → (∀ a, within R (f a)) → within R (mbind f m).
Proof.
  intros Hm Hf w. unfold mbind, M_bind. specialize (Hm w).
  destruct (m w) as [w1 [a|e]]; simpl in *; [|done]. by etrans; [|apply Hf].
Qed.
Lemma within_modify (f : W → W) : (∀ w, R w (f w)) → within R (modify f : M W E ()).
Proof. done. Qed.
Lemma within_if {A} (b : bool) (m n : M W E A) : within R m → within R n → within R (if b then m else n).
Proof. by destruct b. Qed.
(** A rolled back transaction keeps only what the rollback keeps. *)
Lemma within_transaction {A} rb (m : M W E A) :
  (∀ w w', R w w' → R w (rb w w')) → within R m → within R (transaction rb m).
Proof.
  intros Hrb Hm w. unfold transaction. specialize (Hm w).
  destruct (m w) as [w1 [a|e]]; simpl in *; auto.
Qed.
End within.

#[export] Hint Resolve within_ret within_raise within_gets within_get within_lift within_if : within.
#[export] Hint Extern 2 (within _ (mbind _ _)) => apply within_bind; [try apply _| |intro] : within.

(** ** Triples

    [triple P m Q X]: from a world in [P], [m] returns a value and a world in [Q],
    or raises in a world in [X]. *)

Definition triple {W E A} (P : W → Prop) (m : M W E A) (Q : A → W → Prop) (X : W → Prop) : Prop :=
  ∀ w, P w → match m w with (w', Ok a) => Q a w' | (w', Raise _) => X w' end.

Section triple.
Context {W E : Type}.
Implicit Types (P X : W → Prop).

Lemma triple_ret {A} (Q : A → W → Prop) X (a : A) : triple (E := E) (Q a) (mret a) Q X.
Proof. by intros w. Qed.
Lemma triple_raise {A} (Q : A → W → Prop) X (e : E) : triple X (raise e) Q X.
Proof. by intros w. Qed.
Lemma triple_bind {A B} P (m : M W E A) (Q : A → W → Prop) X (f : A → M W E B) (R : B → W → Prop) :
  triple P m Q X → (∀ a, triple (Q a) (f a) R X) → triple P (mbind f m) R X.
Proof.
  intros Hm Hf w Hw. unfold mbind, M_bind. specialize (Hm w Hw).
  destruct (m w) as [w1 [a|e]]; [by apply Hf|done].
Qed.
Lemma triple_gets {A} P (g : W → A) X : triple P (gets g : M W E A) (λ a w, P w ∧ a = g w) X.
Proof. by intros w. Qed.
Lemma triple_get P X : triple P (get_world : M W E W) (λ a w, P w ∧ a = w) X.
Proof. by intros w. Qed.
Lemma triple_modify P (g : W → W) (Q : W → Prop) X : (∀ w, P w → Q (g w)) → triple P (modify g : M W E ()) (λ _, Q) X.
Proof. intros H w Hw. by apply H. Qed.
Lemma triple_weaken {A} P P' (m : M W E A) (Q Q' : A → W → Prop) X X' :
  triple P m Q X → (∀ w, P' w → P w) → (∀ a w, Q a w → Q' a w) → (∀ w, X w → X' w) → triple P' m Q' X'.
Proof.
  intros Hm HP HQ HX w Hw. specialize (Hm w (HP w Hw)). destruct (m w) as [w1 [a|e]]; auto.
Qed.
(** A pure fact may be assumed. *)
Lemma triple_pure {A} (φ : Prop) P (m : M W E A) (Q : A → W → Prop) X :
  (φ → triple P m Q X) → triple (λ w, P w ∧ φ) m Q X.
Proof. intros H w [Hw Hφ]. by apply H. Qed.
Lemma triple_within {A} P (m : M W E A) : within (λ w w', P w → P w') m → triple P m (λ _, P) P.
Proof. intros H w Hw. specialize (H w Hw). by destruct (m w) as [w1 [a|e]]. Qed.
End triple.
