(* ===== verification/PyValue.v ===== *)
(** Python values as the program passes them between components: the JSON-like
    data of tool arguments, grant targets and confirmation previews, with
    [str()], [==], [json.dumps] and [fnmatch] on them, and the interpreter
    services (clock, id generator, hashing, regular expressions, URL parsing)
    that the modelled code calls. *)

From S2P Require Import Prelude.
From Stdlib Require Import Ascii.

Set Warnings "-register-all".

(** ** Values

    A float carries its exact dyadic value and its [repr]; dictionaries are
    association lists in insertion order, with string keys. *)

Inductive pyval : Type :=
| PNone
| PBool (b : bool)
| PInt (z : Z)
| PFloat (num : Z) (den : positive) (repr : string)
| PStr (s : string)
| PList (l : list pyval)
| PDict (d : list (string * pyval)).

Abbreviation dict := (list (string * pyval)).

Section pyval_ind.
Variable P : pyval → Prop.
Hypothesis Pnone : P PNone.
Hypothesis Pbool : ∀ b, P (PBool b).
Hypothesis Pint : ∀ z, P (PInt z).
Hypothesis Pfloat : ∀ n d r, P (PFloat n d r).
Hypothesis Pstr : ∀ s, P (PStr s).
Hypothesis Plist : ∀ l, Forall P l → P (PList l).
Hypothesis Pdict : ∀ d : dict, Forall (λ kv, P kv.2) d → P (PDict d).

Fixpoint pyval_nested_ind (v : pyval) : P v :=
  match v with
  | PNone => Pnone
  | PBool b => Pbool b
  | PInt z => Pint z
  | PFloat n d r => Pfloat n d r
  | PStr s => Pstr s
  | PList l => Plist l
      ((fix go (l : list pyval) : Forall P l :=
          match l with
          | [] => Forall_nil_2 P
          | x :: l' => Forall_cons_2 P x l' (pyval_nested_ind x) (go l')
          end) l)
  | PDict d => Pdict d
      ((fix go (d : dict) : Forall (λ kv, P kv.2) d :=
          match d with
          | [] => Forall_nil_2 _
          | kv :: d' => Forall_cons_2 _ kv d' (pyval_nested_ind kv.2) (go d')
          end) d)
  end.
End pyval_ind.

(** ** Dictionaries *)

Fixpoint dget (d : dict) (k : string) : option pyval :=
  match d with
  | [] => None
  | (k', v) :: d' => if String.eqb k k' then Some v else dget d' k
  end.

(** [d.get(k)] with the default [None]. *)
Definition dget_none (d : dict) (k : string) : pyval := default PNone (dget d k).
(** [k in d] *)
Definition dmem (d : dict) (k : string) : bool :=
  match dget d k with Some _ => true | None => false end.

(** [d[k] = v]: in place when the key exists, at the end otherwise. *)
Fixpoint dset (d : dict) (k : string) (v : pyval) : dict :=
  match d with
  | [] => [(k, v)]
  | (k', v') :: d' => if String.eqb k k' then (k', v) :: d' else (k', v') :: dset d' k v
  end.
(** [d.update(e)] *)
Definition dupdate (d e : dict) : dict :=
  fold_left (λ acc kv, dset acc kv.1 kv.2) e d.
(** [d.pop(k, None)] *)
Definition dpop (d : dict) (k : string) : dict :=
  List.filter (λ kv, negb (String.eqb k kv.1)) d.
(** [d.setdefault(k, v)] *)
Definition dsetdefault (d : dict) (k : string) (v : pyval) : dict :=
  if dmem d k then d else dset d k v.

Lemma dget_dset_eq d k v : dget (dset d k v) k = Some v.
Proof.
  induction d as [|[k' v'] d IH]; simpl; [by rewrite String.eqb_refl|].
  destruct (String.eqb k k') eqn:E; simpl; by rewrite E.
Qed.

Lemma dget_dset_ne d k k' v : k ≠ k' → dget (dset d k v) k' = dget d k'.
Proof.
  intros Hne. induction d as [|[k1 v1] d IH]; simpl.
  - by rewrite (proj2 (String.eqb_neq k' k)) by congruence.
  - destruct (String.eqb k k1) eqn:E; simpl; [|by rewrite IH].
    apply String.eqb_eq in E as ->.
    by rewrite (proj2 (String.eqb_neq k' k1)) by congruence.
Qed.

(** ** Truth value, [str] and [repr] *)

Definition py_truthy (v : pyval) : bool :=
  match v with
  | PNone => false
  | PBool b => b
  | PInt z => negb (Z.eqb z 0)
  | PFloat n _ _ => negb (Z.eqb n 0)
  | PStr s => truthy s
  | PList l => match l with [] => false | _ => true end
  | PDict d => match d with [] => false | _ => true end
  end.

Definition hex_digit (n : N) : ascii :=
  ascii_of_N (if (n <? 10)%N then 48 + n else 87 + n)%N.
Definition hex2 (c : ascii) : string :=
  let n := N_of_ascii c in
  String (hex_digit (n / 16)%N) (String (hex_digit (n mod 16)%N) EmptyString).

Definition chr (n : N) : string := String (ascii_of_N n) EmptyString.

(** One character of [repr] of a [str] delimited by [quote]. *)
Definition repr_char (quote : ascii) (c : ascii) : string :=
  let n := N_of_ascii c in
  if Ascii.eqb c quote || (n =? 92)%N then chr 92 +:+ String c EmptyString
  else if (n =? 9)%N then chr 92 +:+ "t"
  else if (n =? 10)%N then chr 92 +:+ "n"
  else if (n =? 13)%N then chr 92 +:+ "r"
  else if ((n <? 32) || (127 <=? n) && (n <=? 160) || (n =? 173))%N
  then chr 92 +:+ "x" +:+ hex2 c
  else String c EmptyString.

Fixpoint concat_map_str (f : ascii → string) (s : string) : string :=
  match s with
  | EmptyString => EmptyString
  | String c s' => f c +:+ concat_map_str f s'
  end.

Definition repr_str (s : string) : string :=
  let quote := if str_mem (ascii_of_N 39) s && negb (str_mem (ascii_of_N 34) s)
               then ascii_of_N 34 else ascii_of_N 39 in
  String quote EmptyString +:+ concat_map_str (repr_char quote) s
    +:+ String quote EmptyString.

Fixpoint py_repr (v : pyval) : string :=
  match v with
  | PNone => "None"
  | PBool b => if b then "True" else "False"
  | PInt z => pretty z
  | PFloat _ _ r => r
  | PStr s => repr_str s
  | PList l => "[" +:+ py_join ", " (map py_repr l) +:+ "]"
  | PDict d =>
      "{" +:+ py_join ", " (map (λ '(k, v), repr_str k +:+ ": " +:+ py_repr v) d) +:+ "}"
  end.

(** [str(v)] *)
Definition py_str (v : pyval) : string :=
  match v with PStr s => s | _ => py_repr v end.

Definition ostr_val (o : option string) : pyval :=
  match o with Some s => PStr s | None => PNone end.

(** ** Equality

    [==] on values: booleans are integers, an integer equals a float of the
    same value, dictionaries ignore the order of their items. *)

Definition py_num (v : pyval) : option (Z * positive) :=
  match v with
  | PBool b => Some (Z.b2z b, 1%positive)
  | PInt z => Some (z, 1%positive)
  | PFloat n d _ => Some (n, d)
  | _ => None
  end.

Fixpoint py_eq (a b : pyval) {struct a} : bool :=
  match py_num a, py_num b with
  | Some (n1, d1), Some (n2, d2) => (n1 * Zpos d2 =? n2 * Zpos d1)%Z
  | _, _ =>
    match a, b with
    | PNone, PNone => true
    | PStr s, PStr t => String.eqb s t
    | PList l, PList m =>
        (fix go (l m : list pyval) : bool :=
           match l, m with
           | [], [] => true
           | x :: l', y :: m' => py_eq x y && go l' m'
           | _, _ => false
           end) l m
    | PDict d, PDict e =>
        Nat.eqb (length d) (length e) &&
        (fix go (d : dict) : bool :=
           match d with
           | [] => true
           | (k, v) :: d' =>
               match dget e k with Some v' => py_eq v v' | None => false end && go d'
           end) d
    | _, _ => false
    end
  end.

(** ** JSON

    [json.dumps(v, sort_keys=True, separators=(",", ":"), ensure_ascii=True)]:
    [json_sort] orders the items of every object by key, [json_text] prints. *)

Fixpoint dinsert_sorted (k : string) (v : pyval) (d : dict) : dict :=
  match d with
  | [] => [(k, v)]
  | (k', v') :: d' =>
      if str_leb k k' then (k, v) :: d else (k', v') :: dinsert_sorted k v d'
  end.
Definition dsort (d : dict) : dict := foldr (λ kv, dinsert_sorted kv.1 kv.2) [] d.

Fixpoint json_sort (v : pyval) : pyval :=
  match v with
  | PList l => PList (map json_sort l)
  | PDict d => PDict (dsort (map (λ '(k, v), (k, json_sort v)) d))
  | _ => v
  end.

Definition json_char (c : ascii) : string :=
  let n := N_of_ascii c in
  if (n =? 34)%N || (n =? 92)%N then chr 92 +:+ String c EmptyString
  else if (n =? 10)%N then chr 92 +:+ "n"
  else if (n =? 13)%N then chr 92 +:+ "r"
  else if (n =? 9)%N then chr 92 +:+ "t"
  else if (n =? 12)%N then chr 92 +:+ "f"
  else if (n =? 8)%N then chr 92 +:+ "b"
  else if ((n <? 32) || (126 <? n))%N then chr 92 +:+ "u00" +:+ hex2 c
  else String c EmptyString.
Definition json_str (s : string) : string :=
  chr 34 +:+ concat_map_str json_char s +:+ chr 34.

Fixpoint json_text (v : pyval) : string :=
  match v with
  | PNone => "null"
  | PBool b => if b then "true" else "false"
  | PInt z => pretty z
  | PFloat _ _ r => r
  | PStr s => json_str s
  | PList l => "[" +:+ py_join "," (map json_text l) +:+ "]"
  | PDict d =>
      "{" +:+ py_join "," (map (λ '(k, v), json_str k +:+ ":" +:+ json_text v) d) +:+ "}"
  end.
(** [json.dumps(v, ensure_ascii=True)]: the items in insertion order, with the
    default separators. *)
Fixpoint json_text_default (v : pyval) : string :=
  match v with
  | PList l => "[" +:+ py_join ", " (map json_text_default l) +:+ "]"
  | PDict d =>
      "{" +:+ py_join ", " (map (λ '(k, v), json_str k +:+ ": " +:+ json_text_default v) d) +:+ "}"
  | _ => json_text v
  end.
Definition json_dumps (v : pyval) : string := json_text (json_sort v).

(** ** [fnmatch.fnmatch]

    Shell patterns on a POSIX host: [*], [?], [[seq]], [[!seq]]; a bracket that
    is never closed is a literal. *)

(** Splits a pattern after [[] into the set text and the rest after the
    closing bracket; a [!] and a [\]] right after it belong to the set. *)
Fixpoint bracket_close (pat : string) : option (string * string) :=
  match pat with
  | EmptyString => None
  | String c pat' =>
      if Ascii.eqb c "]"%char then Some ("", pat')
      else match bracket_close pat' with
           | Some (set, rest) => Some (String c set, rest)
           | None => None
           end
  end.
Definition bracket_first (pat : string) : option (string * string) :=
  match pat with
  | String c pat' =>
      if Ascii.eqb c "]"%char
      then match bracket_close pat' with
           | Some (set, rest) => Some (String c set, rest)
           | None => None
           end
      else bracket_close pat
  | EmptyString => None
  end.
Definition bracket_split (pat : string) : option (bool * string * string) :=
  match pat with
  | String c pat' =>
      if Ascii.eqb c "!"%char
      then match bracket_first pat' with
           | Some (set, rest) => Some (true, set, rest)
           | None => None
           end
      else match bracket_first pat with
           | Some (set, rest) => Some (false, set, rest)
           | None => None
           end
  | EmptyString => None
  end.

(** Membership in the text of a bracket set; [x-y] is a range. *)
Fixpoint set_mem (fuel : nat) (set : string) (c : ascii) : bool :=
  match fuel with
  | 0 => false
  | S fuel =>
    match set with
    | String a (String h (String b rest)) =>
        if Ascii.eqb h "-"%char
        then ((N_of_ascii a <=? N_of_ascii c) && (N_of_ascii c <=? N_of_ascii b))%N
             || set_mem fuel rest c
        else Ascii.eqb a c || set_mem fuel (String h (String b rest)) c
    | String a rest => Ascii.eqb a c || set_mem fuel rest c
    | EmptyString => false
    end
  end.

(** The matcher is structural in a fuel that bounds the characters of name and
    pattern together, each call consuming one of them. *)
Fixpoint glob (fuel : nat) (pat name : string) : bool :=
  match fuel with
  | 0 => false
  | S fuel =>
    match pat with
    | EmptyString => match name with EmptyString => true | _ => false end
    | String p pat' =>
        if Ascii.eqb p "*"%char then
          glob fuel pat' name ||
          match name with String _ name' => glob fuel pat name' | EmptyString => false end
        else if Ascii.eqb p "?"%char then
          match name with String _ name' => glob fuel pat' name' | EmptyString => false end
        else
          match (if Ascii.eqb p "["%char then bracket_split pat' else None) with
          | Some (neg, set, rest) =>
              match name with
              | String c name' =>
                  xorb neg (set_mem (String.length set) set c) && glob fuel rest name'
              | EmptyString => false
              end
          | None =>
              match name with
              | String c name' => Ascii.eqb p c && glob fuel pat' name'
              | EmptyString => false
              end
          end
    end
  end.
Definition fnmatch (name pat : string) : bool :=
  glob (S (String.length name + String.length pat)) pat name.

Example fnmatch_star : fnmatch "api.example.com" "*.example.com" = true.
Proof. reflexivity. Qed.
Example fnmatch_set : fnmatch "db7" "db[0-9]" = true ∧ fnmatch "dbx" "db[!a-z]" = false
  ∧ fnmatch "a[b" "a[b" = true.
Proof. repeat split; reflexivity. Qed.
Example json_dumps_example :
  json_dumps (PDict [("b", PInt 2); ("a", PList [PBool true; PNone; PStr "x"])])
  = "{" +:+ chr 34 +:+ "a" +:+ chr 34 +:+ ":[true,null," +:+ chr 34 +:+ "x" +:+ chr 34
    +:+ "]," +:+ chr 34 +:+ "b" +:+ chr 34 +:+ ":2}".
Proof. reflexivity. Qed.

(** ** Interpreter services

    What the modelled code calls outside itself.  [py_clock n] is the [n]-th
    reading of [datetime.now(timezone.utc)], in microseconds since
    0001-01-01T00:00; [py_uuid4 n] is the [n]-th identifier drawn; a regular
    expression that does not compile is [None]; [py_fromisoformat] returns the
    local time and the UTC offset of a timestamp text, in microseconds, the
    offset [None] when the text has no timezone, and [None] for the
    [ValueError] of a text that is not a timestamp. *)

Class PyEnv := {
  py_clock : nat → Z;
  py_uuid4 : nat → string;
  py_sha256_hexdigest : string → string;
  py_re_search : string → string → option bool;
  py_url_hostname : string → option string;
  py_path_expanduser : string → string;
  py_fromisoformat : string → option (Z * option Z);
}.

(** The clock does not run backwards: [datetime.now] read from a clock that is
    not stepped back. *)
Definition clock_monotone `{PyEnv} : Prop :=
  ∀ i j, i ≤ j → (py_clock i ≤ py_clock j)%Z.
(** [uuid4] never repeats an identifier. *)
Definition uuids_distinct `{PyEnv} : Prop := ∀ i j, py_uuid4 i = py_uuid4 j → i = j.
