(* ===== verification/Timestamps.v ===== *)
(** UTC timestamps as text.  The program stores [datetime.isoformat()] of UTC
    instants and compares the texts (in Python and in SQL).  An instant is its
    number of microseconds since 0001-01-01T00:00; [isoformat] renders it as
    [datetime] does (no fraction when the microseconds are zero, offset
    [+00:00]); the main result is that comparing the texts compares the
    instants, from year 1 to year 9999. *)

From S2P Require Import Prelude PyValue.
From Stdlib Require Import Ascii.

Local Open Scope Z_scope.

(** ** Fixed-width decimal fields *)

Definition digit_char (d : Z) : ascii := ascii_of_N (Z.to_N (48 + d)).

Fixpoint digits (w : nat) (n : Z) : string :=
  match w with
  | O => EmptyString
  | S w' => String (digit_char (n / 10 ^ Z.of_nat w')) (digits w' (n mod 10 ^ Z.of_nat w'))
  end.

(** [c] when it decides, [d] otherwise: lexicographic combination. *)
Definition lex (c d : comparison) : comparison :=
  match c with Eq => d | _ => c end.

Lemma str_compare_cons a b s t :
  String.compare (String a s) (String b t) = lex (Ascii.compare a b) (String.compare s t).
Proof. simpl. by destruct (Ascii.compare a b). Qed.

Lemma lex_assoc a b c : lex (lex a b) c = lex a (lex b c).
Proof. by destruct a. Qed.

Lemma digit_char_compare a b :
  0 ≤ a < 10 → 0 ≤ b < 10 → Ascii.compare (digit_char a) (digit_char b) = (a ?= b).
Proof.
  intros Ha Hb. unfold Ascii.compare, digit_char.
  rewrite !N_ascii_embedding by lia.
  rewrite <-N2Z.inj_compare, !Z2N.id by lia.
  destruct (Z.compare_spec a b);
    [apply Z.compare_eq_iff|apply Z.compare_lt_iff|apply Z.compare_gt_iff]; lia.
Qed.

(** Comparing quotients first and remainders next compares the numbers. *)
Lemma compare_divmod a b k :
  0 < k → lex (a / k ?= b / k) (a mod k ?= b mod k) = (a ?= b).
Proof.
  intros Hk. pose proof (Z_div_mod_eq_full a k) as Ha.
  pose proof (Z_div_mod_eq_full b k) as Hb.
  pose proof (Z.mod_pos_bound a k Hk). pose proof (Z.mod_pos_bound b k Hk).
  destruct (Z.compare_spec (a / k) (b / k)) as [E|E|E]; simpl.
  - destruct (Z.compare_spec (a mod k) (b mod k)); symmetry;
      [apply Z.compare_eq_iff|apply Z.compare_lt_iff|apply Z.compare_gt_iff]; nia.
  - symmetry. apply Z.compare_lt_iff. nia.
  - symmetry. apply Z.compare_gt_iff. nia.
Qed.

Lemma digits_compare w a b s t :
  0 ≤ a < 10 ^ Z.of_nat w → 0 ≤ b < 10 ^ Z.of_nat w →
  String.compare (digits w a +:+ s) (digits w b +:+ t) =
  lex (a ?= b) (String.compare s t).
Proof.
  revert a b. induction w as [|w IH]; intros a b Ha Hb.
  { change (10 ^ Z.of_nat 0) with 1 in *. assert (a = 0) as -> by lia.
    assert (b = 0) as -> by lia. done. }
  rewrite Nat2Z.inj_succ, Z.pow_succ_r in * by lia.
  assert (0 < 10 ^ Z.of_nat w) as Hk by lia.
  change (digits (S w) a +:+ s) with
    (String (digit_char (a / 10 ^ Z.of_nat w)) (digits w (a mod 10 ^ Z.of_nat w) +:+ s)).
  change (digits (S w) b +:+ t) with
    (String (digit_char (b / 10 ^ Z.of_nat w)) (digits w (b mod 10 ^ Z.of_nat w) +:+ t)).
  rewrite str_compare_cons, IH by (apply Z.mod_pos_bound; lia).
  rewrite digit_char_compare.
  - by rewrite <-lex_assoc, compare_divmod.
  - split; [apply Z.div_pos; lia|apply Z.div_lt_upper_bound; lia].
  - split; [apply Z.div_pos; lia|apply Z.div_lt_upper_bound; lia].
Qed.

Lemma str_compare_app_same p s t :
  String.compare (p +:+ s) (p +:+ t) = String.compare s t.
Proof.
  induction p as [|c p IH]; [done|].
  change (String.compare (String c (p +:+ s)) (String c (p +:+ t)) = String.compare s t).
  rewrite str_compare_cons, IH. unfold Ascii.compare. by rewrite N.compare_refl.
Qed.

(** ** The Gregorian calendar *)

(** Days before January 1st of [y]. *)
Definition days_before_year (y : Z) : Z :=
  let p := y - 1 in 365 * p + p / 4 - p / 100 + p / 400.
Definition is_leap (y : Z) : bool :=
  (y mod 4 =? 0) && (negb (y mod 100 =? 0) || (y mod 400 =? 0)).

(** The year of the day with 0-based ordinal [n], by 400-, 100-, 4- and 1-year
    cycles, as [datetime.fromordinal] computes it. *)
Definition year_of_day (n : Z) : Z :=
  let n400 := n / 146097 in let r := n mod 146097 in
  let n100 := r / 36524 in let r := r mod 36524 in
  let n4 := r / 1461 in let r := r mod 1461 in
  let n1 := r / 365 in
  let y := n400 * 400 + n100 * 100 + n4 * 4 + n1 + 1 in
  if (n1 =? 4) || (n100 =? 4) then y - 1 else y.

Definition month_lengths (leap : bool) : list Z :=
  [31; if leap then 29 else 28; 31; 30; 31; 30; 31; 31; 30; 31; 30; 31].

Fixpoint month_scan (m doy : Z) (lens : list Z) : Z * Z :=
  match lens with
  | [] => (m, doy + 1)
  | len :: lens' =>
      if doy <? len then (m, doy + 1) else month_scan (m + 1) (doy - len) lens'
  end.

Definition month_day (leap : bool) (doy : Z) : Z * Z :=
  month_scan 1 doy (removelast (month_lengths leap)).

Definition us_per_day : Z := 86400000000.

(** [datetime.isoformat()] of a UTC instant. *)
Definition isoformat (t : Z) : string :=
  let day := t / us_per_day in
  let us := t mod us_per_day in
  let y := year_of_day day in
  let md := month_day (is_leap y) (day - days_before_year y) in
  let sec := us / 1000000 in
  let frac := us mod 1000000 in
  digits 4 y +:+ "-" +:+ digits 2 md.1 +:+ "-" +:+ digits 2 md.2 +:+ "T" +:+
  digits 2 (sec / 3600) +:+ ":" +:+ digits 2 (sec mod 3600 / 60) +:+ ":" +:+
  digits 2 (sec mod 3600 mod 60) +:+
  (if frac =? 0 then "" else "." +:+ digits 6 frac) +:+ "+00:00".

(** The range [datetime] supports. *)
Definition max_instant : Z := 3652059 * us_per_day.
Definition instant_ok (t : Z) : Prop := 0 ≤ t < max_instant.

Example isoformat_epoch : isoformat (719162 * us_per_day) = "1970-01-01T00:00:00+00:00".
Proof. reflexivity. Qed.
Example isoformat_leap :
  isoformat (738944 * us_per_day + 86399000001) = "2024-02-29T23:59:59.000001+00:00".
Proof. reflexivity. Qed.

Lemma year_of_day_spec n :
  days_before_year (year_of_day n) ≤ n < days_before_year (year_of_day n + 1).
Proof.
  unfold days_before_year, year_of_day. cbv zeta.
  destruct (Z.eqb_spec (n mod 146097 mod 36524 mod 1461 / 365) 4) as [E1|E1];
  destruct (Z.eqb_spec (n mod 146097 / 36524) 4) as [E2|E2]; simpl;
  Z.to_euclidean_division_equations; lia.
Qed.

Lemma days_before_year_mono y y' : y ≤ y' → days_before_year y ≤ days_before_year y'.
Proof. intros H. unfold days_before_year. Z.to_euclidean_division_equations; lia. Qed.

Lemma year_of_day_mono n n' : n ≤ n' → year_of_day n ≤ year_of_day n'.
Proof.
  intros H. pose proof (year_of_day_spec n). pose proof (year_of_day_spec n').
  destruct (Z.le_gt_cases (year_of_day n) (year_of_day n')) as [|Hgt]; [done|].
  pose proof (days_before_year_mono (year_of_day n' + 1) (year_of_day n)). lia.
Qed.

Lemma year_length y :
  days_before_year (y + 1) - days_before_year y = if is_leap y then 366 else 365.
Proof.
  unfold days_before_year, is_leap.
  destruct (Z.eqb_spec (y mod 4) 0), (Z.eqb_spec (y mod 100) 0),
    (Z.eqb_spec (y mod 400) 0); simpl; Z.to_euclidean_division_equations; lia.
Qed.

Definition lex_pair (p q : Z * Z) : comparison := lex (p.1 ?= q.1)%Z (p.2 ?= q.2)%Z.

Lemma month_scan_ge m doy lens : m ≤ (month_scan m doy lens).1.
Proof.
  revert m doy. induction lens as [|len lens IH]; intros m doy; simpl; [lia|].
  destruct (doy <? len); simpl; [lia|]. specialize (IH (m + 1) (doy - len)). lia.
Qed.

Lemma month_scan_mono m doy doy' lens :
  doy < doy' → lex_pair (month_scan m doy lens) (month_scan m doy' lens) = Lt.
Proof.
  revert m doy doy'. induction lens as [|len lens IH]; intros m doy doy' H; simpl.
  { unfold lex_pair; simpl. rewrite Z.compare_refl. simpl. apply Z.compare_lt_iff. lia. }
  destruct (Z.ltb_spec doy len), (Z.ltb_spec doy' len); try lia.
  - unfold lex_pair; simpl. rewrite Z.compare_refl. simpl. apply Z.compare_lt_iff. lia.
  - unfold lex_pair; simpl. pose proof (month_scan_ge (m + 1) (doy' - len) lens).
    assert ((m ?= (month_scan (m + 1) (doy' - len) lens).1) = Lt) as ->; [|done].
    apply Z.compare_lt_iff. lia.
  - apply IH. lia.
Qed.

Lemma month_day_bounds (leap : bool) doy :
  0 ≤ doy < (if leap then 366 else 365) →
  1 ≤ (month_day leap doy).1 ≤ 12 ∧ 1 ≤ (month_day leap doy).2 ≤ 31.
Proof.
  intros H. unfold month_day, month_lengths. cbn [removelast month_scan].
  destruct leap; repeat match goal with
    | |- context [?a <? ?b] => destruct (Z.ltb_spec a b); [simpl; lia|]
    end; simpl; lia.
Qed.

(** Year, month and day of day [n], compared lexicographically. *)
Definition date_compare (n n' : Z) : comparison :=
  let y := year_of_day n in let y' := year_of_day n' in
  lex (y ?= y') (lex_pair (month_day (is_leap y) (n - days_before_year y))
                          (month_day (is_leap y') (n' - days_before_year y'))).

Lemma date_compare_lt n n' : n < n' → date_compare n n' = Lt.
Proof.
  intros H. unfold date_compare. pose proof (year_of_day_mono n n').
  destruct (Z.compare_spec (year_of_day n) (year_of_day n')) as [E|E|E]; simpl; [|done|lia].
  rewrite E. apply month_scan_mono. lia.
Qed.

Lemma lex_pair_opp p q : lex_pair q p = CompOpp (lex_pair p q).
Proof.
  unfold lex_pair. rewrite (Z.compare_antisym p.1 q.1), (Z.compare_antisym p.2 q.2).
  by destruct (Z.compare p.1 q.1).
Qed.

Lemma date_compare_opp n n' : date_compare n' n = CompOpp (date_compare n n').
Proof.
  unfold date_compare. cbv zeta.
  rewrite (Z.compare_antisym (year_of_day n) (year_of_day n')).
  destruct (year_of_day n ?= year_of_day n'); simpl; auto using lex_pair_opp.
Qed.

Lemma date_compare_spec n n' : date_compare n n' = (n ?= n').
Proof.
  destruct (Z.compare_spec n n') as [->|H|H].
  - unfold date_compare, lex_pair. by rewrite !Z.compare_refl.
  - by apply date_compare_lt.
  - by rewrite date_compare_opp, (date_compare_lt _ _ H).
Qed.

Lemma year_of_day_bounds n : 0 ≤ n < 3652059 → 1 ≤ year_of_day n ≤ 9999.
Proof.
  intros H. split.
  - change 1 with (year_of_day 0). apply year_of_day_mono. lia.
  - change 9999 with (year_of_day 3652058). apply year_of_day_mono. lia.
Qed.

(** The fraction and offset at the end of the text. *)
Lemma tail_compare f g :
  0 ≤ f < 1000000 → 0 ≤ g < 1000000 →
  String.compare ((if f =? 0 then "" else "." +:+ digits 6 f) +:+ "+00:00")
                 ((if g =? 0 then "" else "." +:+ digits 6 g) +:+ "+00:00") = (f ?= g).
Proof.
  intros Hf Hg. destruct (Z.eqb_spec f 0) as [->|Hf0], (Z.eqb_spec g 0) as [->|Hg0].
  - done.
  - symmetry. apply Z.compare_lt_iff. lia.
  - symmetry. apply Z.compare_gt_iff. lia.
  - rewrite !str_app_assoc, str_compare_app_same, digits_compare by done.
    by destruct (f ?= g).
Qed.

Lemma digits2_compare a b s t :
  0 ≤ a < 100 → 0 ≤ b < 100 →
  String.compare (digits 2 a +:+ s) (digits 2 b +:+ t) = lex (a ?= b) (String.compare s t).
Proof. intros. by apply digits_compare. Qed.

(** Texts of instants in range compare as the instants do. *)
Lemma isoformat_compare t u :
  instant_ok t → instant_ok u → String.compare (isoformat t) (isoformat u) = (t ?= u).
Proof.
  intros Ht Hu. unfold instant_ok, max_instant in *.
  assert (0 < us_per_day) as Hd by done.
  assert (0 ≤ t / us_per_day < 3652059) as HT by (split;
    [apply Z.div_pos|apply Z.div_lt_upper_bound]; lia).
  assert (0 ≤ u / us_per_day < 3652059) as HU by (split;
    [apply Z.div_pos|apply Z.div_lt_upper_bound]; lia).
  rewrite <-(compare_divmod t u us_per_day Hd), <-date_compare_spec.
  unfold isoformat, date_compare. cbv zeta.
  pose proof (Z.mod_pos_bound t us_per_day Hd) as Bt.
  pose proof (Z.mod_pos_bound u us_per_day Hd) as Bu.
  set (n := t / us_per_day) in *. set (n' := u / us_per_day) in *.
  set (r := t mod us_per_day) in *. set (r' := u mod us_per_day) in *.
  pose proof (year_of_day_bounds n HT). pose proof (year_of_day_bounds n' HU).
  pose proof (month_day_bounds (is_leap (year_of_day n)) (n - days_before_year (year_of_day n))
    ltac:(rewrite <-year_length; pose proof (year_of_day_spec n); lia)) as [Hm Hdd].
  pose proof (month_day_bounds (is_leap (year_of_day n')) (n' - days_before_year (year_of_day n'))
    ltac:(rewrite <-year_length; pose proof (year_of_day_spec n'); lia)) as [Hm' Hdd'].
  rewrite <-(compare_divmod r r' 1000000), <-(compare_divmod (r / 1000000) (r' / 1000000) 3600),
    <-(compare_divmod (r / 1000000 mod 3600) (r' / 1000000 mod 3600) 60) by lia.
  unfold us_per_day in Bt, Bu.
  assert (∀ x, 0 ≤ x < 86400000000 → 0 ≤ x / 1000000 / 3600 < 100 ∧
    0 ≤ x / 1000000 mod 3600 / 60 < 100 ∧ 0 ≤ x / 1000000 mod 3600 mod 60 < 100) as Hsec
    by (intros x Hx; Z.to_euclidean_division_equations; lia).
  destruct (Hsec r Bt) as (? & ? & ?), (Hsec r' Bu) as (? & ? & ?).
  rewrite (digits_compare 4) by lia. rewrite str_compare_app_same.
  rewrite digits2_compare, str_compare_app_same, digits2_compare, str_compare_app_same by lia.
  rewrite digits2_compare, str_compare_app_same, digits2_compare, str_compare_app_same by lia.
  rewrite digits2_compare, tail_compare by (try apply Z.mod_pos_bound; lia).
  unfold lex_pair. by rewrite !lex_assoc.
Qed.

Lemma isoformat_ltb t u :
  instant_ok t → instant_ok u → str_ltb (isoformat t) (isoformat u) = (t <? u).
Proof.
  intros Ht Hu. unfold str_ltb. rewrite isoformat_compare by done. by rewrite Z.ltb_compare.
Qed.

Lemma isoformat_leb t u :
  instant_ok t → instant_ok u → str_leb (isoformat t) (isoformat u) = (t <=? u).
Proof.
  intros Ht Hu. rewrite str_leb_ltb, isoformat_ltb by done.
  rewrite Z.leb_antisym. done.
Qed.
