(* ===== verification/PyText.v ===== *)
(** Text and number conversions of the language that the scheduling code uses:
    [str.split] and [str.partition] on a character, [int()] and the built-in
    exceptions. *)

From S2P Require Import Prelude PyValue.
From Stdlib Require Import Ascii.

(** ** Built-in exceptions *)

Inductive py_exn : Type :=
| PyValueError (msg : string)
| PyTypeError (msg : string)
| PyOverflowError (msg : string).
Abbreviation PR A := (result py_exn A).

(** [s.endswith(suffix)] *)
Definition py_endswith (s suffix : string) : bool :=
  (String.length suffix <=? String.length s)%nat &&
  String.eqb (String.substring (String.length s - String.length suffix) (String.length suffix) s) suffix.
(** [o is not None] *)
Definition is_some {A} (o : option A) : bool := match o with Some _ => true | None => false end.

(** [ch.isalnum()] in Latin-1 *)
Definition latin1_isalnum (c : ascii) : bool :=
  let n := N_of_ascii c in
  ((48 <=? n) && (n <=? 57) || (65 <=? n) && (n <=? 90) || (97 <=? n) && (n <=? 122)
   || (n =? 170) || (n =? 178) || (n =? 179) || (n =? 181) || (n =? 185) || (n =? 186)
   || (188 <=? n) && (n <=? 190) || (192 <=? n) && negb (n =? 215) && negb (n =? 247))%N.
(** [ch.isalpha()] in Latin-1 *)
Definition latin1_isalpha (c : ascii) : bool :=
  let n := N_of_ascii c in
  ((65 <=? n) && (n <=? 90) || (97 <=? n) && (n <=? 122) || (n =? 170) || (n =? 181) || (n =? 186)
   || (192 <=? n) && negb (n =? 215) && negb (n =? 247))%N.
(** [str.replace] of a non-empty substring: [skip] characters of a match are
    still to be dropped. *)
Fixpoint replace_go (old new : string) (skip : nat) (s : string) : string :=
  match s with
  | EmptyString => EmptyString
  | String c s' =>
      match skip with
      | S k => replace_go old new k s'
      | O => if String.prefix old s then new +:+ replace_go old new (String.length old - 1) s'
             else String c (replace_go old new 0 s')
      end
  end.
Definition str_replace (old new s : string) : string := replace_go old new 0 s.

(** ** Splitting *)

(** [s.split(c)] for a one-character separator. *)
Fixpoint split_char (c : ascii) (s : string) : list string :=
  match s with
  | EmptyString => [""]
  | String d s' =>
      if Ascii.eqb d c then "" :: split_char c s'
      else match split_char c s' with
           | [] => [String d ""]
           | p :: ps => String d p :: ps
           end
  end.

(** [s.partition(c)]: the part before the first separator and the part after
    it, [None] when there is none. *)
Fixpoint partition_char (c : ascii) (s : string) : option (string * string) :=
  match s with
  | EmptyString => None
  | String d s' =>
      if Ascii.eqb d c then Some ("", s')
      else match partition_char c s' with
           | Some (l, r) => Some (String d l, r)
           | None => None
           end
  end.

(** [s[:-len(t)]] when [s] ends with the character [t]. *)
Fixpoint drop_last (c : ascii) (s : string) : option string :=
  match s with
  | EmptyString => None
  | String d EmptyString => if Ascii.eqb d c then Some "" else None
  | String d s' => match drop_last c s' with Some r => Some (String d r) | None => None end
  end.

(** ** Integers *)

Definition is_digit (c : ascii) : bool := let n := N_of_ascii c in ((48 <=? n) && (n <=? 57))%N.
Definition digit_val (c : ascii) : Z := (Z.of_N (N_of_ascii c) - 48)%Z.

(** [\d+] on the whole text. *)
Fixpoint str_all (p : ascii → bool) (s : string) : bool :=
  match s with EmptyString => true | String c s' => p c && str_all p s' end.
Definition all_digits (s : string) : bool := truthy s && str_all is_digit s.

(** The digits of an integer literal, single underscores between digits
    allowed. *)
Fixpoint int_digits (acc : Z) (after_digit : bool) (s : string) : option Z :=
  match s with
  | EmptyString => if after_digit then Some acc else None
  | String c s' =>
      if is_digit c then int_digits (10 * acc + digit_val c)%Z true s'
      else if Ascii.eqb c "_"%char && after_digit then int_digits acc false s'
      else None
  end.

Definition int_of_text (s : string) : option Z :=
  match py_strip s with
  | String "-"%char r => match int_digits 0 false r with Some z => Some (- z)%Z | None => None end
  | String "+"%char r => int_digits 0 false r
  | r => int_digits 0 false r
  end.

(** [int(v)]; a float is truncated. *)
Definition py_int (v : pyval) : PR Z :=
  match v with
  | PBool b => Ok (Z.b2z b)
  | PInt z => Ok z
  | PFloat n d _ => Ok (Z.quot n (Zpos d))
  | PStr s =>
      match int_of_text s with
      | Some z => Ok z
      | None => Raise (PyValueError ("invalid literal for int() with base 10: " +:+ repr_str s))
      end
  | PNone => Raise (PyTypeError "int() argument must be a string, a bytes-like object or a real number, not 'NoneType'")
  | PList _ => Raise (PyTypeError "int() argument must be a string, a bytes-like object or a real number, not 'list'")
  | PDict _ => Raise (PyTypeError "int() argument must be a string, a bytes-like object or a real number, not 'dict'")
  end.

(** [v or d] *)
Definition py_or (v d : pyval) : pyval := if py_truthy v then v else d.
(** [str(v or "").strip()] and [str(v or "").strip() or None] *)
Definition str_or_blank (v : pyval) : string := py_strip (py_str (py_or v (PStr ""))).

(** [int(s, 16)] of an unsigned hexadecimal text. *)
Definition hex_digit_val (c : ascii) : option Z :=
  let n := Z.of_N (N_of_ascii c) in
  if ((48 <=? n) && (n <=? 57))%Z then Some (n - 48)%Z
  else if ((97 <=? n) && (n <=? 102))%Z then Some (n - 87)%Z
  else if ((65 <=? n) && (n <=? 70))%Z then Some (n - 55)%Z else None.
Fixpoint hex_digits (acc : Z) (s : string) : option Z :=
  match s with
  | EmptyString => Some acc
  | String c s' => match hex_digit_val c with
                   | Some d => hex_digits (16 * acc + d)%Z s'
                   | None => None
                   end
  end.
Definition int_of_hex (s : string) : PR Z :=
  match (if truthy s then hex_digits 0 s else None) with
  | Some z => Ok z
  | None => Raise (PyValueError ("invalid literal for int() with base 16: " +:+ repr_str s))
  end.

(** ** [int(str(n)) = n] *)

Lemma pretty_N_char_digit x :
  (x < 10)%N → is_digit (pretty_N_char x) = true ∧ digit_val (pretty_N_char x) = Z.of_N x.
Proof.
  intros Hx. assert (x ∈ [0; 1; 2; 3; 4; 5; 6; 7; 8; 9]%N) as Hin.
  { rewrite !elem_of_cons. lia. }
  repeat (apply elem_of_cons in Hin as [->|Hin]; [by split|]). by apply elem_of_nil in Hin.
Qed.

(** Printing [x] in front of [s] and reading it back. *)
Lemma int_digits_go (x : N) : ∀ b s,
  ∃ k, (0 ≤ k)%Z ∧ ∀ acc, int_digits acc b (pretty_N_go x s) =
    int_digits (acc * 10 ^ k + Z.of_N x)%Z (b || negb (N.eqb x 0)) s.
Proof.
  induction (N.lt_wf_0 x) as [x _ IH]. intros b s.
  destruct (decide (x = 0)%N) as [->|Hx].
  - exists 0%Z. split; [lia|]. intros acc. rewrite pretty_N_go_0. simpl. rewrite orb_false_r.
    f_equal. lia.
  - rewrite pretty_N_go_step by lia.
    assert (x `div` 10 < x)%N as Hlt by (apply N.div_lt; lia).
    assert (x `mod` 10 < 10)%N as Hmod by (apply N.mod_lt; lia).
    destruct (IH _ Hlt b (String (pretty_N_char (x `mod` 10)) s)) as (k & Hk & E).
    exists (k + 1)%Z. split; [lia|]. intros acc. rewrite E. cbn [int_digits].
    destruct (pretty_N_char_digit _ Hmod) as [-> ->].
    rewrite (proj2 (N.eqb_neq x 0)) by done. cbn [negb]. rewrite orb_true_r. f_equal.
    rewrite Z.pow_add_r by lia. rewrite (N.div_mod x 10) at 3 by lia.
    rewrite N2Z.inj_add, N2Z.inj_mul. lia.
Qed.

Lemma pretty_N_go_digits (x : N) s : str_all is_digit s = true → str_all is_digit (pretty_N_go x s) = true.
Proof.
  revert s. induction (N.lt_wf_0 x) as [x _ IH]. intros s Hs.
  destruct (decide (x = 0)%N) as [->|Hx]; [by rewrite pretty_N_go_0|].
  rewrite pretty_N_go_step by lia.
  apply IH; [apply N.div_lt; lia|]. simpl.
  by rewrite (proj1 (pretty_N_char_digit (x `mod` 10) ltac:(apply N.mod_lt; lia))).
Qed.

(** Text without spaces is its own strip. *)
Lemma drop_while_none p s : str_all (λ c, negb (p c)) s = true → drop_while p s = s.
Proof. destruct s as [|c s]; simpl; [done|]. intros H. bsplit. by rewrite H. Qed.
Lemma drop_while_end_none p s : str_all (λ c, negb (p c)) s = true → drop_while_end p s = s.
Proof.
  induction s as [|c s IH]; simpl; [done|]. intros H. bsplit. rewrite IH by done.
  destruct s; [|done]. by rewrite H.
Qed.
Lemma str_all_impl (p q : ascii → bool) s :
  (∀ c, p c = true → q c = true) → str_all p s = true → str_all q s = true.
Proof. intros Hpq. induction s as [|c s IH]; simpl; [done|]. intros H. bsplit. by rewrite Hpq, IH. Qed.
Lemma digit_not_space c : is_digit c = true → negb (latin1_is_space c) = true.
Proof. destruct c as [[] [] [] [] [] [] [] []]; by vm_compute. Qed.
Lemma strip_digits s : str_all is_digit s = true → py_strip s = s.
Proof.
  intros Hs. assert (str_all (λ c, negb (latin1_is_space c)) s = true) as H
    by (eapply str_all_impl; [apply digit_not_space|done]).
  unfold py_strip. rewrite drop_while_none by done. by apply drop_while_end_none.
Qed.

Lemma pretty_N_digits (n : N) : str_all is_digit (pretty n) = true ∧ pretty n ≠ "".
Proof.
  unfold pretty, pretty_N. case_decide as Hn; [by subst|]. split; [by apply pretty_N_go_digits|].
  destruct (int_digits_go n false "") as (k & _ & E). intros Heq. specialize (E 0%Z).
  rewrite Heq in E. simpl in E. by rewrite (proj2 (N.eqb_neq n 0)) in E.
Qed.

Lemma int_digits_pretty (n : N) : int_digits 0 false (pretty n) = Some (Z.of_N n).
Proof.
  unfold pretty, pretty_N. case_decide as Hn; [by subst|].
  destruct (int_digits_go n false "") as (k & _ & ->). simpl.
  by rewrite (proj2 (N.eqb_neq n 0)).
Qed.

Lemma pretty_Z_of_N (z : Z) : (0 ≤ z)%Z → pretty z = pretty (Z.to_N z).
Proof. intros Hz. destruct z; [done|done|lia]. Qed.

(** The decimal text of a natural number reads back as that number. *)
Lemma all_digits_pretty (z : Z) : (0 ≤ z)%Z → all_digits (pretty z) = true.
Proof.
  intros Hz. rewrite pretty_Z_of_N by done. destruct (pretty_N_digits (Z.to_N z)) as [H1 H2].
  unfold all_digits. by rewrite H1, (proj2 (truthy_true _) H2).
Qed.
Lemma int_of_text_digits s : all_digits s = true → int_of_text s = int_digits 0 false s.
Proof.
  unfold all_digits, int_of_text. intros H. bsplit. rewrite strip_digits by done.
  destruct s as [|c s]; [done|]. simpl in *. bsplit.
  by destruct c as [[] [] [] [] [] [] [] []].
Qed.
Lemma int_of_text_pretty (z : Z) : (0 ≤ z)%Z → int_of_text (pretty z) = Some z.
Proof.
  intros Hz. rewrite int_of_text_digits by (by apply all_digits_pretty).
  rewrite pretty_Z_of_N, int_digits_pretty by done. by rewrite Z2N.id.
Qed.

(** ** [strip] *)

Lemma drop_while_end_idem p s : drop_while_end p (drop_while_end p s) = drop_while_end p s.
Proof.
  induction s as [|c s IH]; simpl; [done|].
  destruct (drop_while_end p s) as [|d t] eqn:E.
  - destruct (p c) eqn:Ec; simpl; [done|]. by rewrite Ec.
  - change (drop_while_end p (String c (String d t))) with
      (match drop_while_end p (String d t) with
       | EmptyString => if p c then EmptyString else String c EmptyString
       | u => String c u
       end). by rewrite IH.
Qed.
Lemma drop_while_end_keeps_head p c s :
  p c = false → ∃ s', drop_while_end p (String c s) = String c s'.
Proof. intros Hc. simpl. rewrite Hc. destruct (drop_while_end p s); eauto. Qed.
Lemma strip_idem s : py_strip (py_strip s) = py_strip s.
Proof.
  unfold py_strip at 2 3. destruct (drop_while latin1_is_space s) as [|c t] eqn:E; [done|].
  pose proof (drop_while_head _ _ _ _ E) as Hc.
  destruct (drop_while_end_keeps_head latin1_is_space c t Hc) as [u Hu].
  unfold py_strip. rewrite Hu. simpl drop_while. rewrite Hc, <-Hu. apply drop_while_end_idem.
Qed.
Lemma strip_no_space s : str_all (λ c, negb (latin1_is_space c)) s = true → py_strip s = s.
Proof.
  intros H. unfold py_strip. rewrite drop_while_none by done. by apply drop_while_end_none.
Qed.
Lemma str_or_blank_str s : str_or_blank (PStr s) = py_strip s.
Proof. by destruct s. Qed.
Lemma str_all_app p a b : str_all p (a +:+ b) = str_all p a && str_all p b.
Proof.
  induction a as [|c a IH]; [done|].
  change (str_all p (String c (a +:+ b)) = p c && str_all p a && str_all p b).
  cbn [str_all]. by rewrite IH, andb_assoc.
Qed.
Lemma replace_absent c rep s : str_all (λ d, negb (Ascii.eqb d c)) s = true → py_replace c rep s = s.
Proof. induction s as [|d s IH]; simpl; [done|]. intros H. bsplit. by rewrite H, IH. Qed.

(** ** Substrings *)

Lemma str_length_app s t : String.length (s +:+ t) = (String.length s + String.length t)%nat.
Proof. induction s as [|c s IH]; [done|]. change (String c s +:+ t) with (String c (s +:+ t)). cbn [String.length]. by rewrite IH. Qed.
Lemma substring_all s : String.substring 0 (String.length s) s = s.
Proof. induction s as [|c s IH]; simpl; [done|]. by rewrite IH. Qed.
Lemma substring_app p s : String.substring (String.length p) (String.length s) (p +:+ s) = s.
Proof. induction p as [|c p IH]; simpl; [apply substring_all|done]. Qed.
(** A prefix does not change when the text grows. *)
Lemma substring_app_l n s t : (n ≤ String.length s)%nat → String.substring 0 n (s +:+ t) = String.substring 0 n s.
Proof.
  revert n. induction s as [|c s IH]; intros [|n] H; try done; [by destruct t|simpl in H; lia|].
  change (String c s +:+ t) with (String c (s +:+ t)). cbn. rewrite IH; [done|]. simpl in H. lia.
Qed.
(** A text is what comes before a position and what comes after. *)
Lemma substring_split n s : (n ≤ String.length s)%nat →
  String.substring 0 n s +:+ String.substring n (String.length s - n) s = s.
Proof.
  revert n. induction s as [|c s IH]; intros [|n] H; [done|simpl in H; lia| |].
  - cbn [String.substring Nat.sub]. rewrite Nat.sub_0_r. apply (substring_all (String c s)).
  - cbn in H |- *. change (String c ?a +:+ ?b) with (String c (a +:+ b)). f_equal. apply IH. lia.
Qed.
