(* ===== verification/PolicyModels.v ===== *)
(** Data of the action-policy module: the constants of
    [modules/policy/constants.py], the records of [modules/policy/models.py],
    the authorization descriptors and the invocation hash of
    [modules/tool/plugin_api.py], and the action-policy configuration of
    [base/config]. *)

From S2P Require Import Prelude PyValue.

(** ** Constants *)

Definition POLICY_MODE_DISABLED := "disabled".
Definition POLICY_MODE_LOG_ONLY := "log_only".
Definition POLICY_MODE_ENFORCE := "enforce".
Definition POLICY_MODE_ENFORCE_SAFE := "enforce_safe".
Definition POLICY_MODE_CHOICES : list string :=
  [POLICY_MODE_DISABLED; POLICY_MODE_LOG_ONLY; POLICY_MODE_ENFORCE; POLICY_MODE_ENFORCE_SAFE].

Definition POLICY_DECISION_ALLOW := "ALLOW".
Definition POLICY_DECISION_DENY := "DENY".
Definition POLICY_DECISION_REQUIRE_CONFIRM := "REQUIRE_CONFIRM".

Definition POLICY_GRANT_EFFECT_ALLOW := "allow".
Definition POLICY_GRANT_EFFECT_DENY := "deny".
Definition POLICY_GRANT_EFFECTS : list string :=
  [POLICY_GRANT_EFFECT_ALLOW; POLICY_GRANT_EFFECT_DENY].

Definition POLICY_DURATION_ONCE := "once".
Definition POLICY_DURATION_UNTIL := "until".
Definition POLICY_DURATION_SESSION := "session".
Definition POLICY_DURATION_FOREVER := "forever".
Definition POLICY_DURATION_TYPES : list string :=
  [POLICY_DURATION_ONCE; POLICY_DURATION_UNTIL; POLICY_DURATION_SESSION;
   POLICY_DURATION_FOREVER].

Definition POLICY_RISK_READ := "read".
Definition POLICY_RISK_WRITE := "write".
Definition POLICY_RISK_EXEC := "exec".
Definition POLICY_RISK_STATE_CHANGE := "state_change".
Definition POLICY_RISK_DESTRUCTIVE := "destructive".
Definition POLICY_RISK_FINANCIAL := "financial".
Definition POLICY_RISK_SECURITY := "security".

(** [POLICY_RISK_ORDER[risk]]; [None] is the [KeyError] of a class that is not
    in the table. *)
Definition POLICY_RISK_ORDER (risk : string) : option nat :=
  if String.eqb risk POLICY_RISK_READ then Some 0
  else if String.eqb risk POLICY_RISK_WRITE then Some 1
  else if String.eqb risk POLICY_RISK_STATE_CHANGE then Some 2
  else if String.eqb risk POLICY_RISK_EXEC then Some 3
  else if String.eqb risk POLICY_RISK_SECURITY then Some 4
  else if String.eqb risk POLICY_RISK_FINANCIAL then Some 5
  else if String.eqb risk POLICY_RISK_DESTRUCTIVE then Some 6
  else None.

Definition POLICY_HIGH_CONFIRM_RISKS : list string :=
  [POLICY_RISK_DESTRUCTIVE; POLICY_RISK_FINANCIAL; POLICY_RISK_SECURITY].
Definition POLICY_SIDE_EFFECT_CONFIRM_RISKS : list string :=
  [POLICY_RISK_EXEC; POLICY_RISK_STATE_CHANGE].

Definition POLICY_SIDE_EFFECT_NONE := "none".
Definition POLICY_SIDE_EFFECT_LOCAL := "local".
Definition POLICY_SIDE_EFFECT_REMOTE := "remote".
Definition POLICY_SIDE_EFFECT_EXTERNAL_ACCOUNT := "external_account".

Definition POLICY_REVERSIBILITY_REVERSIBLE := "reversible".
Definition POLICY_REVERSIBILITY_PARTIALLY_REVERSIBLE := "partially_reversible".
Definition POLICY_REVERSIBILITY_IRREVERSIBLE := "irreversible".
Definition POLICY_REVERSIBILITY_UNKNOWN := "unknown".

Definition POLICY_CONFIRM_RESPONSE_AFFIRM := "affirm".
Definition POLICY_CONFIRM_RESPONSE_DENY := "deny".
Definition POLICY_CONFIRM_RESPONSE_UNCLEAR := "unclear".

Definition POLICY_SUBJECT_ID_LOCAL := "local".
Definition BLOCKCHAIN_POLICY_TOOL := "blockchain".
Definition BLOCKCHAIN_SEND_METHOD := "send_transaction".
Definition OPS_COMMAND_POLICY_TOOL := "ops.command".
Definition OPS_COMMAND_RUN_METHOD := "run".
Definition OPS_COMMAND_CONFIRMATION_TTL_SECONDS : Z := 600.
Definition BLOCKCHAIN_CONFIRMATION_PREVIEW_INVALID_MESSAGE :=
  "Blockchain transaction approval preview could not be verified.".

(** ** Exceptions the policy code raises *)

Inductive policy_exn : Type :=
| ValueError (message : string)
| PolicyControlError (code message : string) (details : dict)
| KeyError (key : string)
| AssertionError
| ReError (pattern : string)
| TypeError.

(** ** Authorization descriptors ([plugin_api.py]) *)

Record PolicyAuthorizationDescriptor := {
  pad_risk_class : string;
  pad_side_effects : string;
  pad_reversibility : string;
  pad_confirmation_ttl_seconds : Z;
  pad_required_subject_id : option string;
  pad_requires_session : bool;
}.

Definition POLICY_AUTHORIZATION_DESCRIPTORS (tool method : string)
    : option PolicyAuthorizationDescriptor :=
  if String.eqb tool "blockchain" && String.eqb method "send_transaction" then
    Some {| pad_risk_class := "financial"; pad_side_effects := "external_account";
            pad_reversibility := "irreversible"; pad_confirmation_ttl_seconds := 600;
            pad_required_subject_id := None; pad_requires_session := false |}
  else if String.eqb tool "commerce" && String.eqb method "prepare_order" then
    Some {| pad_risk_class := "state_change"; pad_side_effects := "external_account";
            pad_reversibility := "reversible"; pad_confirmation_ttl_seconds := 600;
            pad_required_subject_id := Some "local"; pad_requires_session := true |}
  else if String.eqb tool "commerce" && String.eqb method "place_order" then
    Some {| pad_risk_class := "financial"; pad_side_effects := "external_account";
            pad_reversibility := "irreversible"; pad_confirmation_ttl_seconds := 600;
            pad_required_subject_id := Some "local"; pad_requires_session := true |}
  else if String.eqb tool "commerce" && String.eqb method "apply_order_action" then
    Some {| pad_risk_class := "financial"; pad_side_effects := "external_account";
            pad_reversibility := "partially_reversible";
            pad_confirmation_ttl_seconds := 600;
            pad_required_subject_id := Some "local"; pad_requires_session := true |}
  else None.

Definition is_policy_authorization_pair (tool method : string) : bool :=
  match POLICY_AUTHORIZATION_DESCRIPTORS tool method with
  | Some _ => true
  | None => false
  end.

Definition is_exact_confirmation_pair (tool method : string) : bool :=
  is_policy_authorization_pair tool method
  || String.eqb tool OPS_COMMAND_POLICY_TOOL && String.eqb method OPS_COMMAND_RUN_METHOD.

(** [stable_invocation_hash]: the digest of the canonical JSON of tool, method
    and the arguments whose name does not start with an underscore. *)
Definition public_args (args : dict) : dict :=
  List.filter (λ kv, negb (py_startswith kv.1 "_")) args.
Definition invocation_encoding (tool method : string) (args : dict) : string :=
  json_dumps (PDict [("tool", PStr tool); ("method", PStr method);
                     ("args", PDict (public_args args))]).
Definition stable_invocation_hash `{PyEnv} (tool method : string) (args : dict) : string :=
  py_sha256_hexdigest (invocation_encoding tool method args).

(** ** Records ([models.py]) *)

Record RiskSpec := {
  risk_class : string;
  side_effects : string;
  reversibility : string;
  default_confirm : bool;
  sensitive_targets : list pyval;
}.

Definition RiskSpec_to_dict (r : RiskSpec) : dict :=
  [("risk_class", PStr (risk_class r)); ("side_effects", PStr (side_effects r));
   ("reversibility", PStr (reversibility r));
   ("default_confirm", PBool (default_confirm r));
   ("sensitive_targets", PList (sensitive_targets r))].

Definition dget_str (d : dict) (k dflt : string) : string :=
  match dget d k with Some v => py_str v | None => dflt end.

(** [list(v)]: the items of a list, the keys of a dictionary, the characters of
    a string; a [TypeError] for a value that is not iterable. *)
Definition py_list (v : pyval) : result policy_exn (list pyval) :=
  match v with
  | PList l => Ok l
  | PDict d => Ok (map (λ kv, PStr kv.1) d)
  | PStr s => Ok (map (λ c, PStr (String c EmptyString)) (String.list_ascii_of_string s))
  | _ => Raise TypeError
  end.
Definition RiskSpec_from_dict (payload : dict) : result policy_exn RiskSpec :=
  targets ← py_list (default (PList []) (dget payload "sensitive_targets"));
  Ok {| risk_class := dget_str payload "risk_class" POLICY_RISK_READ;
        side_effects := dget_str payload "side_effects" POLICY_SIDE_EFFECT_NONE;
        reversibility := dget_str payload "reversibility" POLICY_REVERSIBILITY_UNKNOWN;
        default_confirm := py_truthy (default (PBool false) (dget payload "default_confirm"));
        sensitive_targets := targets |}.

Record PolicyRule := {
  rule_tool_name : string;
  rule_min_risk_class : string;
  rule_mode : string;
}.

Record PolicyConfig := {
  cfg_mode : string;
  cfg_default_action : string;
  cfg_default_duration : string;
  cfg_sandbox_path_prefixes : list string;
  cfg_allow_read_only_without_prompt : bool;
  cfg_rules : list PolicyRule;
  cfg_affirmative_tokens : list string;
  cfg_negative_tokens : list string;
  cfg_subject_id_default : string;
  cfg_decision_log_enabled : bool;
}.

Definition default_PolicyConfig : PolicyConfig :=
  {| cfg_mode := POLICY_MODE_ENFORCE;
     cfg_default_action := py_lower POLICY_DECISION_REQUIRE_CONFIRM;
     cfg_default_duration := POLICY_DURATION_ONCE;
     cfg_sandbox_path_prefixes := ["/sandbox"; "./sandbox"];
     cfg_allow_read_only_without_prompt := true;
     cfg_rules := [];
     cfg_affirmative_tokens := ["yes"; "y"; "proceed"; "go"; "confirm"; "sure";
                                "affirmative"; "sounds good"];
     cfg_negative_tokens := ["no"; "n"; "cancel"; "stop"; "abort"; "not now"];
     cfg_subject_id_default := POLICY_SUBJECT_ID_LOCAL;
     cfg_decision_log_enabled := true |}.

Record PolicyGrantInput := {
  gi_effect : string;
  gi_tool : string;
  gi_method : string;
  gi_target_json : dict;
  gi_duration_type : string;
  gi_subject_id : string;
  gi_expires_at : option string;
  gi_session_id : option string;
  gi_invocation_hash : option string;
  gi_max_uses : option Z;
  gi_reason : option string;
  gi_created_trace_id : option string;
  gi_risk_floor : option string;
  gi_approval_id : option string;
}.

Record PolicyGrant := {
  grant_id : string;
  g_subject_id : string;
  g_effect : string;
  g_tool : string;
  g_method : string;
  g_target_json : dict;
  g_duration_type : string;
  g_expires_at : option string;
  g_session_id : option string;
  g_invocation_hash : option string;
  g_max_uses : option Z;
  g_uses_count : Z;
  g_created_at : string;
  g_updated_at : string;
  g_revoked_at : option string;
  g_reason : option string;
  g_created_trace_id : option string;
  g_risk_floor : option string;
  g_approval_id : option string;
}.

Definition active (g : PolicyGrant) : bool :=
  match g_revoked_at g with None => true | Some _ => false end.

Record InvocationSummary := {
  invocation_id : string;
  inv_tool : string;
  inv_method : string;
  inv_args : dict;
  inv_invocation_hash : string;
}.

Record ContextSummary := {
  ctx_trace_id : option string;
  ctx_session_id : option string;
  ctx_agent_id : option string;
  ctx_subject_id : option string;
  ctx_mode_name : option string;
}.

Record PolicyDecision := {
  decision : string;
  reason_code : string;
  d_reason : string;
  d_risk : RiskSpec;
  matched_grant_id : option string;
  confirm_request : option dict;
  d_details : dict;
  d_approval_id : option string;
  d_invocation_hash : option string;
  d_confirmation_preview : option dict;
}.

(** [PolicyDecision(decision=…, reason_code=…, reason=…, risk=…)] with the
    defaults of the other fields. *)
Definition mk_decision (dec code reason : string) (risk : RiskSpec) : PolicyDecision :=
  {| decision := dec; reason_code := code; d_reason := reason; d_risk := risk;
     matched_grant_id := None; confirm_request := None; d_details := [];
     d_approval_id := None; d_invocation_hash := None; d_confirmation_preview := None |}.

Record PendingPolicyConfirmation := {
  p_approval_id : string;
  p_subject_id : string;
  p_tool : string;
  p_method : string;
  p_invocation_hash : string;
  p_invocation_id : string;
  p_trace_id : option string;
  p_session_id : option string;
  p_preview : dict;
  p_state : string;
  p_resolution_action : option string;
  p_grant_id : option string;
  p_created_at : string;
  p_expires_at : string;
  p_resolved_at : option string;
}.

(** ** Functions of [models.py] *)

Definition normalize_mode (value : string) : result policy_exn string :=
  let mode := py_lower (py_strip value) in
  if str_in mode POLICY_MODE_CHOICES then Ok mode
  else Raise (ValueError ("Invalid policy mode: " +:+ value)).

Definition secret_tokens : list string :=
  ["token"; "secret"; "password"; "key"; "authorization"].

Definition sanitize_value (key : string) (value : pyval) : pyval :=
  if existsb (py_contains (py_lower key)) secret_tokens then PStr "[REDACTED]"
  else match value with
       | PList l => PDict [("_type", PStr "array"); ("size", PInt (Z.of_nat (length l)))]
       | PDict d => PDict [("_type", PStr "object"); ("size", PInt (Z.of_nat (length d)))]
       | _ => value
       end.
Definition sanitize_args (args : dict) : dict :=
  map (λ kv, (kv.1, sanitize_value kv.1 kv.2)) args.

Definition build_policy_facts (canonical_tool code : string) (risk : dict)
    (duration_options : list string) : dict :=
  List.filter (λ kv, py_truthy kv.2)
    [("canonical_tool", PStr (py_strip canonical_tool));
     ("reason_code", PStr (py_strip code));
     ("risk", PDict risk);
     ("duration_options", PList (map PStr duration_options))].

(** ** Action-policy configuration ([base/config/core.py], [action_policy.py]) *)

Record ActionPolicyRuleConfig := {
  apr_tool_category : string;
  apr_tool_name : string;
  apr_min_risk_class : string;
  apr_mode : string;
}.
Record ActionPolicyConfig := {
  ap_mode : string;
  ap_default_action : string;
  ap_allow_read_only_without_prompt : bool;
  ap_rules : list ActionPolicyRuleConfig;
  ap_affirmative_tokens : list string;
  ap_negative_tokens : list string;
}.

Definition map_action_policy_mode (mode : string) : string :=
  let normalized := py_lower (py_strip mode) in
  if String.eqb normalized "ask" then POLICY_MODE_ENFORCE
  else if String.eqb normalized "auto" then POLICY_MODE_ENFORCE_SAFE
  else if str_in normalized ["bypass"; "disabled"; "off"] then POLICY_MODE_DISABLED
  else POLICY_MODE_ENFORCE.

Definition ACTION_POLICY_USER_MODES : list string := ["ask"; "auto"; "bypass"].
Definition normalize_action_policy_mode_override (mode : option string) : option string :=
  let normalized := py_lower (py_strip (str_or mode "")) in
  if String.eqb normalized "" then None
  else if str_in normalized ACTION_POLICY_USER_MODES then Some normalized else None.

Definition overlay_action_policy_mode (ap : ActionPolicyConfig) (mode_override : option string)
    : ActionPolicyConfig :=
  match normalize_action_policy_mode_override mode_override with
  | None => ap
  | Some m => {| ap_mode := m; ap_default_action := ap_default_action ap;
                 ap_allow_read_only_without_prompt := ap_allow_read_only_without_prompt ap;
                 ap_rules := ap_rules ap;
                 ap_affirmative_tokens := ap_affirmative_tokens ap;
                 ap_negative_tokens := ap_negative_tokens ap |}
  end.

Definition policy_rule_of_config (r : ActionPolicyRuleConfig) : PolicyRule :=
  {| rule_tool_name := py_strip (apr_tool_name r);
     rule_min_risk_class := py_lower (py_strip (apr_min_risk_class r));
     rule_mode := py_lower (py_strip (if truthy (apr_mode r) then apr_mode r else "ask")) |}.
Definition policy_config_from_action_policy (ap : ActionPolicyConfig) : PolicyConfig :=
  let dfl := default_PolicyConfig in
  {| cfg_mode := map_action_policy_mode (ap_mode ap);
     cfg_default_action :=
       if truthy (ap_default_action ap) then ap_default_action ap
       else cfg_default_action dfl;
     cfg_default_duration := cfg_default_duration dfl;
     cfg_sandbox_path_prefixes := cfg_sandbox_path_prefixes dfl;
     cfg_allow_read_only_without_prompt := ap_allow_read_only_without_prompt ap;
     cfg_rules := map policy_rule_of_config (ap_rules ap);
     cfg_affirmative_tokens :=
       match ap_affirmative_tokens ap with [] => cfg_affirmative_tokens dfl | l => l end;
     cfg_negative_tokens :=
       match ap_negative_tokens ap with [] => cfg_negative_tokens dfl | l => l end;
     cfg_subject_id_default := cfg_subject_id_default dfl;
     cfg_decision_log_enabled := cfg_decision_log_enabled dfl |}.

(** The descriptor table lists exactly four pairs. *)
Lemma policy_authorization_pair_cases tool method :
  is_policy_authorization_pair tool method = true →
  (tool = "blockchain" ∧ method = "send_transaction") ∨
  (tool = "commerce" ∧ (method = "prepare_order" ∨ method = "place_order"
                        ∨ method = "apply_order_action")).
Proof.
  unfold is_policy_authorization_pair, POLICY_AUTHORIZATION_DESCRIPTORS.
  repeat match goal with
  | |- context [String.eqb ?a ?b] => destruct (String.eqb_spec a b); simpl
  end; naive_solver.
Qed.

Lemma ops_not_authorization_pair method :
  is_policy_authorization_pair OPS_COMMAND_POLICY_TOOL method = false.
Proof. reflexivity. Qed.
