(* ===== verification/PolicyStore.v ===== *)
(** The policy store ([modules/policy/storage/store.py]): the grant,
    pending-confirmation, decision and settings tables and every operation on
    them, with the clock and the id generator they read. *)

From S2P Require Import Prelude PyValue Timestamps PolicyModels.

(** A row of [policy_decisions]. *)
Record DecisionRow := {
  dr_decision_id : string;
  dr_trace_id : option string;
  dr_session_id : option string;
  dr_agent_id : option string;
  dr_invocation_id : string;
  dr_tool : string;
  dr_method : string;
  dr_decision : string;
  dr_matched_grant_id : option string;
  dr_reason_code : string;
  dr_approval_id : option string;
  dr_invocation_hash : option string;
  dr_risk_spec : dict;
  dr_created_at : string;
}.

(** The tables, and how many clock readings and identifiers were drawn. *)
Record Store := {
  policy_grants : list PolicyGrant;
  policy_pending : list PendingPolicyConfirmation;
  policy_decisions : list DecisionRow;
  policy_settings : gmap string string;
  ticks : nat;
  drawn : nat;
}.

Abbreviation PM A := (M Store policy_exn A).

Definition set_grants (f : list PolicyGrant → list PolicyGrant) (s : Store) : Store :=
  {| policy_grants := f (policy_grants s); policy_pending := policy_pending s;
     policy_decisions := policy_decisions s; policy_settings := policy_settings s;
     ticks := ticks s; drawn := drawn s |}.
Definition set_pending (f : list PendingPolicyConfirmation → list PendingPolicyConfirmation)
    (s : Store) : Store :=
  {| policy_grants := policy_grants s; policy_pending := f (policy_pending s);
     policy_decisions := policy_decisions s; policy_settings := policy_settings s;
     ticks := ticks s; drawn := drawn s |}.
Definition set_decisions (f : list DecisionRow → list DecisionRow) (s : Store) : Store :=
  {| policy_grants := policy_grants s; policy_pending := policy_pending s;
     policy_decisions := f (policy_decisions s); policy_settings := policy_settings s;
     ticks := ticks s; drawn := drawn s |}.
Definition set_settings (f : gmap string string → gmap string string) (s : Store) : Store :=
  {| policy_grants := policy_grants s; policy_pending := policy_pending s;
     policy_decisions := policy_decisions s; policy_settings := f (policy_settings s);
     ticks := ticks s; drawn := drawn s |}.
Definition rollback (before after : Store) : Store :=
  {| policy_grants := policy_grants before; policy_pending := policy_pending before;
     policy_decisions := policy_decisions before; policy_settings := policy_settings before;
     ticks := ticks after; drawn := drawn after |}.

Definition empty_store : Store :=
  {| policy_grants := []; policy_pending := []; policy_decisions := [];
     policy_settings := ∅; ticks := 0; drawn := 0 |}.

(** ** Row updates *)

Definition grant_revoke (now : string) (g : PolicyGrant) : PolicyGrant :=
  {| grant_id := grant_id g; g_subject_id := g_subject_id g; g_effect := g_effect g;
     g_tool := g_tool g; g_method := g_method g; g_target_json := g_target_json g;
     g_duration_type := g_duration_type g; g_expires_at := g_expires_at g;
     g_session_id := g_session_id g; g_invocation_hash := g_invocation_hash g;
     g_max_uses := g_max_uses g; g_uses_count := g_uses_count g;
     g_created_at := g_created_at g; g_updated_at := now; g_revoked_at := Some now;
     g_reason := g_reason g; g_created_trace_id := g_created_trace_id g;
     g_risk_floor := g_risk_floor g; g_approval_id := g_approval_id g |}.

(** [SET uses_count = uses_count + 1, updated_at = now,
    revoked_at = COALESCE(revoke_at, revoked_at)] *)
Definition grant_use (now : string) (revoke_at : option string) (g : PolicyGrant)
    : PolicyGrant :=
  {| grant_id := grant_id g; g_subject_id := g_subject_id g; g_effect := g_effect g;
     g_tool := g_tool g; g_method := g_method g; g_target_json := g_target_json g;
     g_duration_type := g_duration_type g; g_expires_at := g_expires_at g;
     g_session_id := g_session_id g; g_invocation_hash := g_invocation_hash g;
     g_max_uses := g_max_uses g; g_uses_count := (g_uses_count g + 1)%Z;
     g_created_at := g_created_at g; g_updated_at := now;
     g_revoked_at := match revoke_at with Some t => Some t | None => g_revoked_at g end;
     g_reason := g_reason g; g_created_trace_id := g_created_trace_id g;
     g_risk_floor := g_risk_floor g; g_approval_id := g_approval_id g |}.

Definition pending_resolve (state : string) (action grant : option string) (now : string)
    (p : PendingPolicyConfirmation) : PendingPolicyConfirmation :=
  {| p_approval_id := p_approval_id p; p_subject_id := p_subject_id p; p_tool := p_tool p;
     p_method := p_method p; p_invocation_hash := p_invocation_hash p;
     p_invocation_id := p_invocation_id p; p_trace_id := p_trace_id p;
     p_session_id := p_session_id p; p_preview := p_preview p; p_state := state;
     p_resolution_action := action; p_grant_id := grant; p_created_at := p_created_at p;
     p_expires_at := p_expires_at p; p_resolved_at := Some now |}.

(** ** Conditions of the queries *)

(** [revoked_at IS NULL] *)
Definition not_revoked (g : PolicyGrant) : bool := active g.
(** [expires_at IS NULL OR expires_at > now] *)
Definition not_expired (now : string) (g : PolicyGrant) : bool :=
  match g_expires_at g with None => true | Some e => str_ltb now e end.
(** [max_uses IS NULL OR uses_count < max_uses] *)
Definition uses_left (g : PolicyGrant) : bool :=
  match g_max_uses g with None => true | Some m => (g_uses_count g <? m)%Z end.
Definition usable (now : string) (g : PolicyGrant) : bool :=
  not_revoked g && not_expired now g && uses_left g.

(** The use is the last one the grant allows. *)
Definition last_use (g : PolicyGrant) : bool :=
  String.eqb (g_duration_type g) POLICY_DURATION_ONCE ||
  match g_max_uses g with None => false | Some m => (m <=? g_uses_count g + 1)%Z end.

Fixpoint value_contains (actual expected : pyval) {struct expected} : bool :=
  match expected with
  | PDict required =>
      match actual with
      | PDict value =>
          (fix go (required : dict) : bool :=
             match required with
             | [] => true
             | (k, e) :: rest => value_contains (dget_none value k) e && go rest
             end) required
      | _ => false
      end
  | _ => py_eq actual expected
  end.
Definition _mapping_contains (value required : dict) : bool :=
  value_contains (PDict value) (PDict required).

(** What the store relies on from [tools/blockchain/confirmation.py]: whether
    the stored preview of a transaction fails to parse. *)
Class BlockchainPreview := {
  blockchain_preview_is_invalid : dict → bool;
}.

Section Store.
Context {Env : PyEnv} {Bc : BlockchainPreview}.

(** ** Clock and identifiers *)

Definition tick (s : Store) : Store :=
  {| policy_grants := policy_grants s; policy_pending := policy_pending s;
     policy_decisions := policy_decisions s; policy_settings := policy_settings s;
     ticks := S (ticks s); drawn := drawn s |}.
Definition draw (s : Store) : Store :=
  {| policy_grants := policy_grants s; policy_pending := policy_pending s;
     policy_decisions := policy_decisions s; policy_settings := policy_settings s;
     ticks := ticks s; drawn := S (drawn s) |}.
Definition now_iso (s : Store) : string := isoformat (py_clock (ticks s)).

Definition datetime_now : PM Z := λ s, (tick s, Ok (py_clock (ticks s))).
Definition utc_now_iso : PM string := t ← datetime_now; mret (isoformat t).
Definition uuid4 : PM string := λ s, (draw s, Ok (py_uuid4 (drawn s))).

(** [execute_count] of an UPDATE: the number of rows it changed. *)
Definition update_grants (p : PolicyGrant → bool) (f : PolicyGrant → PolicyGrant)
    : PM nat := λ s,
  (set_grants (update_where p f) s, Ok (count_where p (policy_grants s))).
Definition update_pending (p : PendingPolicyConfirmation → bool)
    (f : PendingPolicyConfirmation → PendingPolicyConfirmation) : PM nat := λ s,
  (set_pending (update_where p f) s, Ok (count_where p (policy_pending s))).

(** ** Grants *)

Definition grant_row (id : string) (gi : PolicyGrantInput) (now : string) : PolicyGrant :=
  {| grant_id := id; g_subject_id := gi_subject_id gi; g_effect := gi_effect gi;
     g_tool := gi_tool gi; g_method := gi_method gi;
     g_target_json := match json_sort (PDict (gi_target_json gi)) with
                      | PDict d => d | _ => [] end;
     g_duration_type := gi_duration_type gi; g_expires_at := gi_expires_at gi;
     g_session_id := gi_session_id gi; g_invocation_hash := gi_invocation_hash gi;
     g_max_uses := gi_max_uses gi; g_uses_count := 0;
     g_created_at := now; g_updated_at := now; g_revoked_at := None;
     g_reason := gi_reason gi; g_created_trace_id := gi_created_trace_id gi;
     g_risk_floor := gi_risk_floor gi; g_approval_id := gi_approval_id gi |}.

Definition _insert_grant (id : string) (gi : PolicyGrantInput) (now : string) : PM () :=
  modify (set_grants (λ l, l ++ [grant_row id gi now])).

Definition store_create_grant (gi : PolicyGrantInput) : PM string :=
  now ← utc_now_iso;
  id ← uuid4;
  _ ← _insert_grant id gi now;
  mret id.

Definition store_revoke_grant (id : string) : PM bool :=
  now ← utc_now_iso;
  count ← update_grants (λ g, String.eqb (grant_id g) id && not_revoked g)
            (grant_revoke now);
  mret (0 <? count).

Definition opt_filter (o : option string) (col : PolicyGrant → string) (g : PolicyGrant)
    : bool :=
  if otruthy o then ostr_eqb o (Some (col g)) else true.

Definition store_list_grants (subject_id effect tool method : option string)
    (active_only : bool) : PM (list PolicyGrant) :=
  if active_only then
    now ← utc_now_iso;
    gets (λ s, sort_desc g_created_at (List.filter (λ g,
      opt_filter subject_id g_subject_id g && opt_filter effect g_effect g &&
      opt_filter tool g_tool g && opt_filter method g_method g &&
      not_revoked g && not_expired now g) (policy_grants s)))
  else
    gets (λ s, sort_desc g_created_at (List.filter (λ g,
      opt_filter subject_id g_subject_id g && opt_filter effect g_effect g &&
      opt_filter tool g_tool g && opt_filter method g_method g) (policy_grants s))).

Definition get_grant (id : string) : PM (option PolicyGrant) :=
  gets (λ s, List.find (λ g, String.eqb (grant_id g) id) (policy_grants s)).

Definition consume_grant_use (id : string) : PM (option PolicyGrant) :=
  now ← utc_now_iso;
  transaction rollback (
    found ← get_grant id;
    match found with
    | None => mret None
    | Some grant =>
        if negb (usable now grant) then mret None else
        let revoke_at := if last_use grant then Some now else None in
        updated ← update_grants
          (λ g, String.eqb (grant_id g) id && usable now g) (grant_use now revoke_at);
        if Nat.eqb updated 1 then get_grant id else mret None
    end).

Definition resolve_active_grant_for_use (id subject_id tool method : string)
    (required_target : option dict) : PM (option PolicyGrant) :=
  now ← utc_now_iso;
  rows ← gets (λ s, List.filter (λ g,
    String.eqb (grant_id g) id && String.eqb (g_subject_id g) subject_id &&
    String.eqb (g_effect g) "allow" && String.eqb (g_tool g) tool &&
    String.eqb (g_method g) method && usable now g) (policy_grants s));
  match rows with
  | [] => mret None
  | grant :: _ =>
      if match required_target with
         | Some req => negb (_mapping_contains (g_target_json grant) req)
         | None => false
         end
      then mret None else
      let revoke_at := if last_use grant then Some now else None in
      updated ← update_grants
        (λ g, String.eqb (grant_id g) id && usable now g) (grant_use now revoke_at);
      mret (if Nat.eqb updated 1 then Some grant else None)
  end.

Definition cleanup_expired : PM nat :=
  now ← utc_now_iso;
  update_grants (λ g, not_revoked g && negb (not_expired now g)) (grant_revoke now).

(** ** Pending confirmations *)

Definition is_blockchain_send (tool method : string) : bool :=
  String.eqb tool "blockchain" && String.eqb method "send_transaction".

Definition pending_by_id (id : string) (p : PendingPolicyConfirmation) : bool :=
  String.eqb (p_approval_id p) id.
Definition is_pending (p : PendingPolicyConfirmation) : bool :=
  String.eqb (p_state p) "pending".

Definition deny_pending (id now : string) : PM nat :=
  update_pending (λ p, pending_by_id id p && is_pending p)
    (λ p, pending_resolve "denied" (Some "deny") (p_grant_id p) now p).

Definition insert_pending (p : PendingPolicyConfirmation) : PM () :=
  modify (set_pending (λ l, l ++ [p])).

Definition get_or_create_pending_confirmation
    (subject_id tool method invocation_hash invocation_id : string)
    (trace_id session_id : option string) (preview : dict) (ttl_seconds : Z)
    : PM PendingPolicyConfirmation :=
  now ← utc_now_iso;
  now_dt ← datetime_now;
  let expires_at := isoformat (now_dt + ttl_seconds * 1000000)%Z in
  transaction rollback (
    rows ← gets (λ s, sort_desc p_created_at (List.filter (λ p,
      String.eqb (p_subject_id p) subject_id && String.eqb (p_tool p) tool &&
      String.eqb (p_method p) method && String.eqb (p_invocation_hash p) invocation_hash &&
      is_pending p && String.eqb (default "" (p_session_id p)) (str_or session_id "") &&
      str_ltb now (p_expires_at p)) (policy_pending s)));
    let create :=
      approval_id ← uuid4;
      let row := {| p_approval_id := approval_id; p_subject_id := subject_id;
           p_tool := tool; p_method := method; p_invocation_hash := invocation_hash;
           p_invocation_id := invocation_id; p_trace_id := trace_id;
           p_session_id := session_id;
           p_preview := match json_sort (PDict preview) with PDict d => d | _ => [] end;
           p_state := "pending"; p_resolution_action := None; p_grant_id := None;
           p_created_at := now; p_expires_at := expires_at; p_resolved_at := None |} in
      _ ← insert_pending row;
      mret row in
    match rows with
    | [] => create
    | pending :: _ =>
        if is_blockchain_send tool method then
          if blockchain_preview_is_invalid (p_preview pending) then
            _ ← deny_pending (p_approval_id pending) now;
            create
          else mret pending
        else mret pending
    end).

(** The grant that an [allow_once] resolution creates. *)
Definition confirmation_grant (pending : PendingPolicyConfirmation) : PolicyGrantInput :=
  {| gi_effect := "allow"; gi_tool := p_tool pending; gi_method := p_method pending;
     gi_target_json := []; gi_duration_type := "once";
     gi_subject_id := p_subject_id pending; gi_expires_at := None;
     gi_session_id := p_session_id pending;
     gi_invocation_hash := Some (p_invocation_hash pending); gi_max_uses := Some 1%Z;
     gi_reason := Some "created_from_confirmation:allow_once";
     gi_created_trace_id := p_trace_id pending; gi_risk_floor := None;
     gi_approval_id := Some (p_approval_id pending) |}.

(** Inside the transaction: [inl tt] is the invalid-preview outcome, whose
    exception is raised after the commit. *)
Definition resolve_confirmation_tx (approval_id action now : string)
    : PM (() + option string) :=
  found ← gets (λ s, List.find (pending_by_id approval_id) (policy_pending s));
  match found with
  | None => raise (PolicyControlError "PENDING_CONFIRMATION_NOT_FOUND"
                     "Pending confirmation was not found." [])
  | Some pending =>
      if String.eqb action "allow_once" && is_blockchain_send (p_tool pending) (p_method pending)
         && blockchain_preview_is_invalid (p_preview pending)
      then
        _ ← deny_pending approval_id now;
        mret (inl ())
      else if negb (is_pending pending) then
        if ostr_eqb (p_resolution_action pending) (Some action)
        then mret (inr (p_grant_id pending))
        else raise (PolicyControlError "PENDING_CONFIRMATION_ALREADY_RESOLVED"
                      "Pending confirmation was already resolved." [])
      else if str_leb (p_expires_at pending) now then
        _ ← update_pending (λ p, pending_by_id approval_id p && is_pending p)
              (λ p, pending_resolve "expired" (p_resolution_action p) (p_grant_id p) now p);
        raise (PolicyControlError "PENDING_CONFIRMATION_EXPIRED"
                 "Pending confirmation expired." [])
      else
        sg ← (if String.eqb action "allow_once" then
                id ← uuid4;
                _ ← _insert_grant id (confirmation_grant pending) now;
                mret ("allowed", Some id)
              else if negb (String.eqb action "deny") then
                raise (ValueError "confirmation action must be allow_once|deny")
              else mret ("denied", None));
        _ ← update_pending (λ p, pending_by_id approval_id p && is_pending p)
              (pending_resolve sg.1 (Some action) sg.2 now);
        mret (inr sg.2)
  end.

Definition resolve_confirmation (approval_id action : string) : PM (option string) :=
  now ← utc_now_iso;
  r ← transaction rollback (resolve_confirmation_tx approval_id action now);
  match r with
  | inl _ => raise (PolicyControlError "BLOCKCHAIN_CONFIRMATION_PREVIEW_INVALID"
                      BLOCKCHAIN_CONFIRMATION_PREVIEW_INVALID_MESSAGE
                      [("approval_id", PStr approval_id)])
  | inr grant_id => mret grant_id
  end.

(** The candidates of [resolve_matching_active_grant_for_use]. *)
Definition exact_grant_row (subject_id tool method invocation_hash : string)
    (session_id : option string) (now : string) (g : PolicyGrant) : bool :=
  String.eqb (g_subject_id g) subject_id && String.eqb (g_effect g) "allow" &&
  String.eqb (g_tool g) tool && String.eqb (g_method g) method &&
  ostr_eqb (g_invocation_hash g) (Some invocation_hash) &&
  match session_id with
  | None => true
  | Some sid => String.eqb (default "" (g_session_id g)) sid
  end &&
  String.eqb (g_duration_type g) "once" &&
  match g_approval_id g with Some _ => true | None => false end &&
  usable now g.

(** The approval row that authorizes the grant. *)
Definition approval_row (approval_id : option string) (tool method invocation_hash : string)
    (p : PendingPolicyConfirmation) : bool :=
  ostr_eqb (Some (p_approval_id p)) approval_id && String.eqb (p_tool p) tool &&
  String.eqb (p_method p) method && String.eqb (p_invocation_hash p) invocation_hash.

Definition approval_accepts (subject_id : string) (session_id : option string)
    (p : PendingPolicyConfirmation) : bool :=
  String.eqb (p_state p) "allowed" && String.eqb (p_subject_id p) subject_id &&
  match session_id with
  | None => true
  | Some sid => String.eqb (str_or (p_session_id p) "") sid
  end.

Definition resolve_matching_tx (subject_id tool method invocation_hash : string)
    (session_id : option string) (now : string) : PM (string + option PolicyGrant) :=
  rows ← gets (λ s, sort_desc g_created_at (List.filter
    (exact_grant_row subject_id tool method invocation_hash session_id now)
    (policy_grants s)));
  match rows with
  | [] => mret (inr None)
  | grant :: _ =>
      approval ← gets (λ s, List.find
        (approval_row (g_approval_id grant) tool method invocation_hash)
        (policy_pending s));
      match approval with
      | None => mret (inr None)
      | Some p =>
          if negb (approval_accepts subject_id session_id p) then mret (inr None)
          else if is_blockchain_send tool method
                  && blockchain_preview_is_invalid (p_preview p) then
            _ ← update_grants (λ g, String.eqb (grant_id g) (grant_id grant) && not_revoked g)
                  (grant_revoke now);
            mret (inl (str_or (g_approval_id grant) ""))
          else
            updated ← update_grants (λ g, String.eqb (grant_id g) (grant_id grant)
                        && not_revoked g && uses_left g) (grant_use now (Some now));
            mret (inr (if Nat.eqb updated 1 then Some grant else None))
      end
  end.

Definition resolve_matching_active_grant_for_use
    (subject_id tool method invocation_hash : string) (session_id : option string)
    : PM (option PolicyGrant) :=
  if negb (is_exact_confirmation_pair tool method) then mret None
  else if match POLICY_AUTHORIZATION_DESCRIPTORS tool method with
          | None => false
          | Some d => (pad_requires_session d && negb (otruthy session_id)) ||
              match pad_required_subject_id d with
              | None => false
              | Some req => negb (String.eqb req subject_id)
              end
          end
  then mret None
  else
    now ← utc_now_iso;
    r ← transaction rollback
          (resolve_matching_tx subject_id tool method invocation_hash session_id now);
    match r with
    | inl approval_id =>
        raise (PolicyControlError "BLOCKCHAIN_CONFIRMATION_PREVIEW_INVALID"
                 BLOCKCHAIN_CONFIRMATION_PREVIEW_INVALID_MESSAGE
                 [("approval_id", PStr approval_id)])
    | inr consumed => mret consumed
    end.

(** ** Decisions and settings *)

Definition log_decision (trace_id session_id agent_id : option string)
    (inv_id tool method decision : string) (matched_grant_id approval_id : option string)
    (invocation_hash : option string) (reason_code : string) (risk_spec : dict)
    : PM string :=
  now ← utc_now_iso;
  id ← uuid4;
  _ ← modify (set_decisions (λ l, l ++
    [{| dr_decision_id := id; dr_trace_id := trace_id; dr_session_id := session_id;
        dr_agent_id := agent_id; dr_invocation_id := inv_id; dr_tool := tool;
        dr_method := method; dr_decision := decision;
        dr_matched_grant_id := matched_grant_id; dr_reason_code := reason_code;
        dr_approval_id := approval_id; dr_invocation_hash := invocation_hash;
        dr_risk_spec := match json_sort (PDict risk_spec) with PDict d => d | _ => [] end;
        dr_created_at := now |}]));
  mret id.

Definition list_decisions (limit : Z) : PM (list DecisionRow) :=
  gets (λ s, take (Z.to_nat (Z.max 1 limit)) (sort_desc dr_created_at (policy_decisions s))).

Definition set_setting (key value : string) : PM () :=
  _ ← utc_now_iso;
  modify (set_settings (λ m, <[key := value]> m)).
Definition get_setting (key : string) : PM (option string) :=
  gets (λ s, policy_settings s !! key).

(** ** Row identity

    Updates keep the identifiers, so a row can be followed through them. *)

Lemma find_update_where {A} (key : A → string) id (p : A → bool) (f : A → A) l :
  (∀ x, key (f x) = key x) →
  List.find (λ x, String.eqb (key x) id) (update_where p f l) =
  (λ x, if p x then f x else x) <$> List.find (λ x, String.eqb (key x) id) l.
Proof.
  intros Hf. induction l as [|x l IH]; [done|]. simpl.
  assert (key (if p x then f x else x) = key x) as -> by (by destruct (p x)).
  by destruct (String.eqb (key x) id).
Qed.

Lemma find_app_last {A} (p : A → bool) l x :
  List.find p (l ++ [x]) =
  match List.find p l with Some y => Some y | None => if p x then Some x else None end.
Proof. induction l as [|y l IH]; simpl; [done|]. by destruct (p y). Qed.

Lemma find_unique {A} (key : A → string) l x :
  NoDup (map key l) → x ∈ l → List.find (λ y, String.eqb (key y) (key x)) l = Some x.
Proof.
  induction l as [|y l IH]; intros Hnd Hx; [by apply elem_of_nil in Hx|].
  simpl in Hnd. apply NoDup_cons in Hnd as [Hy Hnd]. simpl.
  apply elem_of_cons in Hx as [->|Hx]; [by rewrite String.eqb_refl|].
  destruct (String.eqb_spec (key y) (key x)) as [E|]; [|by apply IH].
  exfalso. apply Hy. rewrite E. apply list_elem_of_In, in_map, list_elem_of_In, Hx.
Qed.

Definition grant_at (s : Store) (id : string) : option PolicyGrant :=
  List.find (λ g, String.eqb (grant_id g) id) (policy_grants s).
Definition pending_at (s : Store) (id : string) : option PendingPolicyConfirmation :=
  List.find (pending_by_id id) (policy_pending s).

(** Identifiers are distinct within a table and were drawn from [uuid4]. *)
Record store_wf (s : Store) : Prop := {
  wf_grant_ids : NoDup (map grant_id (policy_grants s));
  wf_pending_ids : NoDup (map p_approval_id (policy_pending s));
  wf_grant_drawn : Forall (λ g, ∃ i, i < drawn s ∧ grant_id g = py_uuid4 i)
                     (policy_grants s);
  wf_pending_drawn : Forall (λ p, ∃ i, i < drawn s ∧ p_approval_id p = py_uuid4 i)
                       (policy_pending s);
}.

Lemma store_wf_empty : store_wf empty_store.
Proof. split; constructor. Qed.

Lemma store_wf_update_grants p f s :
  (∀ g, grant_id (f g) = grant_id g) →
  store_wf s → store_wf (set_grants (update_where p f) s).
Proof.
  intros Hf [Hg Hp Hgd Hpd]. split; simpl; auto.
  - by rewrite update_where_map.
  - apply update_where_Forall; [|done]. intros g Hg' _. by rewrite Hf.
Qed.

Lemma store_wf_update_pending p f s :
  (∀ x, p_approval_id (f x) = p_approval_id x) →
  store_wf s → store_wf (set_pending (update_where p f) s).
Proof.
  intros Hf [Hg Hp Hgd Hpd]. split; simpl; auto.
  - by rewrite update_where_map.
  - apply update_where_Forall; [|done]. intros g Hg' _. by rewrite Hf.
Qed.

Lemma store_wf_tick s : store_wf s → store_wf (tick s).
Proof. by intros [????]. Qed.
Lemma store_wf_draw s : store_wf s → store_wf (draw s).
Proof.
  intros [? ? Hg Hp]. split; simpl; auto.
  - eapply Forall_impl; [exact Hg|]. intros g (i & ? & ?). exists i. split; [lia|done].
  - eapply Forall_impl; [exact Hp|]. intros g (i & ? & ?). exists i. split; [lia|done].
Qed.
Lemma store_wf_rollback s s' : store_wf s → drawn s ≤ drawn s' → store_wf (rollback s s').
Proof.
  intros [? ? Hg Hp] Hd. split; simpl; auto.
  - eapply Forall_impl; [exact Hg|]. intros g (i & ? & ?). exists i. split; [lia|done].
  - eapply Forall_impl; [exact Hp|]. intros g (i & ? & ?). exists i. split; [lia|done].
Qed.
Lemma store_wf_decisions f s : store_wf s → store_wf (set_decisions f s).
Proof. by intros [????]. Qed.
Lemma store_wf_settings f s : store_wf s → store_wf (set_settings f s).
Proof. by intros [????]. Qed.

Section fresh.
Hypothesis Huuid : uuids_distinct.

Lemma fresh_not_drawn {A} (key : A → string) (l : list A) n :
  Forall (λ x, ∃ i, i < n ∧ key x = py_uuid4 i) l → py_uuid4 n ∉ map key l.
Proof.
  intros Hl Hin. apply list_elem_of_In, in_map_iff in Hin as (x & Hx & Hin).
  apply list_elem_of_In in Hin. rewrite Forall_forall in Hl.
  destruct (Hl x Hin) as (i & Hi & E). rewrite Hx in E. apply Huuid in E. lia.
Qed.

(** Inserting under a fresh identifier; the counter has moved past it. *)
Lemma store_wf_insert_grant gi now s :
  store_wf s →
  store_wf (set_grants (λ l, l ++ [grant_row (py_uuid4 (drawn s)) gi now]) (draw s)).
Proof.
  intros Hwf. pose proof (store_wf_draw s Hwf) as [_ Hp' Hg' Hpd'].
  destruct Hwf as [Hg Hp Hgd Hpd]. split; simpl; auto.
  - rewrite map_app. simpl. apply NoDup_app. split; [done|].
    split; [|apply NoDup_singleton].
    intros x Hx Hx2. apply list_elem_of_singleton in Hx2 as ->.
    exact (fresh_not_drawn _ _ _ Hgd Hx).
  - apply Forall_app. split; [done|]. constructor; [|constructor]. simpl.
    exists (drawn s). split; [lia|done].
Qed.

Lemma store_wf_insert_pending row s :
  store_wf s → p_approval_id row = py_uuid4 (drawn s) →
  store_wf (set_pending (λ l, l ++ [row]) (draw s)).
Proof.
  intros Hwf Hrow. pose proof (store_wf_draw s Hwf) as [Hg' _ Hgd' Hpd'].
  destruct Hwf as [Hg Hp Hgd Hpd]. split; simpl; auto.
  - rewrite map_app. simpl. rewrite Hrow. apply NoDup_app. split; [done|].
    split; [|apply NoDup_singleton].
    intros x Hx Hx2. apply list_elem_of_singleton in Hx2 as ->.
    exact (fresh_not_drawn _ _ _ Hpd Hx).
  - apply Forall_app. split; [done|]. constructor; [|constructor].
    exists (drawn s). split; [lia|done].
Qed.
End fresh.
End Store.

#[export] Hint Resolve store_wf_tick store_wf_draw store_wf_decisions store_wf_settings
  store_wf_update_grants store_wf_update_pending store_wf_insert_grant
  store_wf_insert_pending : minion.
