(* ===== verification/Demo.v ===== *)
(** A concrete interpreter environment: a clock that advances one second per
    reading, numbered identifiers, an identity digest and a substring search.
    The witnesses of the theorems that mention the environment run in it. *)

From S2P Require Import Prelude PyValue Timestamps PolicyModels PolicyStore.

Local Open Scope Z_scope.

Definition demo_epoch : Z := 739000 * us_per_day.

#[global] Instance demo_env : PyEnv := {|
  py_clock n := demo_epoch + Z.of_nat n * 1000000;
  py_uuid4 n := "id-" +:+ pretty n;
  py_sha256_hexdigest s := s;
  py_re_search pat s := Some (py_contains s pat);
  py_url_hostname s := if py_startswith s "https://" then Some "example.com" else None;
  py_path_expanduser s := s;
  py_fromisoformat s :=
    if String.eqb s "2024-05-01T12:00:00+02:00"
    then Some (739006 * us_per_day + 12 * 3600000000, Some 7200000000)
    else if String.eqb s "2024-05-01T12:00:00"
    then Some (739006 * us_per_day + 12 * 3600000000, None)
    else None;
|}.

(** A preview is valid when it names its transaction. *)
#[global] Instance demo_blockchain : BlockchainPreview := {|
  blockchain_preview_is_invalid d := negb (dmem d "transaction");
|}.

Lemma demo_uuids_distinct : uuids_distinct.
Proof.
  intros i j H. unfold py_uuid4, demo_env in H.
  apply (inj (String.app "id-")) in H. by apply (inj pretty) in H.
Qed.

Lemma demo_clock_monotone : clock_monotone.
Proof. intros i j H. unfold py_clock, demo_env. lia. Qed.

Lemma demo_clock_in_range n : Z.of_nat n < 1000000000 → instant_ok (py_clock n).
Proof.
  intros H. unfold py_clock, demo_env, instant_ok, max_instant, demo_epoch, us_per_day. lia.
Qed.
