(* ===== verification/PolicyStoreProps.v ===== *)
(** Theorems about the policy store: identifiers stay unique, a grant is never
    used more often than it allows under any sequence of store operations, a
    confirmation is resolved at most once and its replay is idempotent, and
    timestamps mean what they say. *)

From S2P Require Import Prelude PyValue Timestamps PolicyModels PolicyStore Demo.

Section Props.
Context {Env : PyEnv} {Bc : BlockchainPreview}.

(** ** Consumption *)

(** How many more uses a limited grant allows; [None] when it is unlimited. *)
Definition allowance (g : PolicyGrant) : option nat :=
  if String.eqb (g_duration_type g) POLICY_DURATION_ONCE then
    Some (if active g then
            match g_max_uses g with
            | None => 1
            | Some m => Z.to_nat (Z.min 1 (m - g_uses_count g))
            end
          else 0)
  else match g_max_uses g with
       | None => None
       | Some m => Some (if active g then Z.to_nat (m - g_uses_count g) else 0)
       end.

Definition use_revoke (now : string) (g : PolicyGrant) : option string :=
  if last_use g then Some now else None.

Lemma allowance_revoke now g a :
  allowance g = Some a → allowance (grant_revoke now g) = Some 0.
Proof.
  unfold allowance. simpl. destruct (String.eqb _ _); [done|].
  by destruct (g_max_uses g).
Qed.

(** Using a usable grant lowers its allowance; [r] revokes at least when the
    code's test says it is the last use. *)
Lemma allowance_use now now' r g a :
  usable now g = true → allowance g = Some a → (last_use g = true → r = Some now') →
  ∃ a', allowance (grant_use now' r g) = Some a' ∧ a' + 1 ≤ a.
Proof.
  unfold usable, not_revoked, uses_left, allowance, last_use. intros Hu Ha Hr. simpl.
  bsplit. unfold active in *. simpl in *. destruct (g_revoked_at g) eqn:Erv; [done|].
  destruct (String.eqb (g_duration_type g) POLICY_DURATION_ONCE) eqn:Ed; simpl in *.
  - rewrite (Hr eq_refl). simpl. eexists; split; [done|].
    destruct (g_max_uses g) as [m|]; simplify_eq; [|lia].
    apply Z.ltb_lt in H0. lia.
  - destruct (g_max_uses g) as [m|]; [|done]. simplify_eq.
    apply Z.ltb_lt in H0. destruct (Z.leb_spec m (g_uses_count g + 1)).
    + rewrite Hr by done. eexists; split; [done|]. lia.
    + destruct r; eexists; (split; [done|]); lia.
Qed.

Definition same_id (f : PolicyGrant → PolicyGrant) : Prop :=
  ∀ g, grant_id (f g) = grant_id g.
Lemma grant_revoke_id now : same_id (grant_revoke now).
Proof. done. Qed.
Lemma grant_use_id now r : same_id (grant_use now r).
Proof. done. Qed.

Lemma grant_at_update p f s id :
  same_id f →
  grant_at (set_grants (update_where p f) s) id =
  (λ g, if p g then f g else g) <$> grant_at s id.
Proof. intros Hf. unfold grant_at. simpl. by apply find_update_where. Qed.

Lemma grant_at_elem s id g : grant_at s id = Some g → g ∈ policy_grants s ∧ grant_id g = id.
Proof. intros [? ?%String.eqb_eq]%find_elem. done. Qed.

Lemma grant_at_unique s g : store_wf s → g ∈ policy_grants s → grant_at s (grant_id g) = Some g.
Proof. intros [Hnd _ _ _] Hg. by apply find_unique. Qed.

(** The row count of an update that selects one grant by its identifier. *)
Lemma count_grant_one s g (q : PolicyGrant → bool) :
  store_wf s → g ∈ policy_grants s → q g = true →
  count_where (λ x, String.eqb (grant_id x) (grant_id g) && q x) (policy_grants s) = 1.
Proof.
  intros [Hnd _ _ _] Hg Hq. apply (count_where_unique grant_id _ _ g); auto.
  - by rewrite String.eqb_refl.
  - intros y Hy. by bsplit.
Qed.

Lemma consume_grant_use_eq s id :
  store_wf s →
  consume_grant_use id s =
  match grant_at s id with
  | Some g =>
      if usable (now_iso s) g then
        (set_grants (update_where
           (λ x, String.eqb (grant_id x) id && usable (now_iso s) x)
           (grant_use (now_iso s) (use_revoke (now_iso s) g))) (tick s),
         Ok (Some (grant_use (now_iso s) (use_revoke (now_iso s) g) g)))
      else (tick s, Ok None)
  | None => (tick s, Ok None)
  end.
Proof.
  intros Hwf. unfold consume_grant_use, utc_now_iso, datetime_now, transaction, get_grant,
    update_grants, use_revoke. munfold. fold (now_iso s).
  change (List.find (λ g, String.eqb (grant_id g) id) (policy_grants (tick s)))
    with (grant_at s id).
  destruct (grant_at s id) as [g|] eqn:Eg; [|done].
  pose proof (grant_at_elem _ _ _ Eg) as [Hin Hid].
  destruct (usable (now_iso s) g) eqn:Eu; simpl; [|done].
  assert (count_where (λ x, String.eqb (grant_id x) id && usable (now_iso s) x)
            (policy_grants s) = 1) as ->.
  { subst id. by apply count_grant_one. }
  simpl.
  change (List.find _ _) with (grant_at (set_grants (update_where
     (λ x, String.eqb (grant_id x) id && usable (now_iso s) x)
     (grant_use (now_iso s) (if last_use g then Some (now_iso s) else None))) s) id).
  rewrite grant_at_update, Eg by apply grant_use_id. simpl.
  rewrite Eu. subst id. by rewrite String.eqb_refl.
Qed.

(** ** Sequences of store operations *)

Inductive store_op : Type :=
| OpCreateGrant (gi : PolicyGrantInput)
| OpRevokeGrant (id : string)
| OpConsume (id : string)
| OpResolveActive (id subject tool method : string) (required : option dict)
| OpCleanup
| OpPending (subject tool method hash inv_id : string) (trace session : option string)
    (preview : dict) (ttl : Z)
| OpResolveConfirmation (approval_id action : string)
| OpResolveMatching (subject tool method hash : string) (session : option string)
| OpSetSetting (key value : string).

Definition used {A} (idf : A → string) (r : Store * result policy_exn (option A))
    : Store * option string :=
  (r.1, match r.2 with Ok (Some a) => Some (idf a) | _ => None end).
Definition no_use {A} (r : Store * result policy_exn A) : Store * option string :=
  (r.1, None).

(** One operation: the store after it and the grant whose use it returned. *)
Definition run_op (op : store_op) (s : Store) : Store * option string :=
  match op with
  | OpCreateGrant gi => no_use (store_create_grant gi s)
  | OpRevokeGrant id => no_use (store_revoke_grant id s)
  | OpConsume id => used grant_id (consume_grant_use id s)
  | OpResolveActive id subject tool method required =>
      used grant_id (resolve_active_grant_for_use id subject tool method required s)
  | OpCleanup => no_use (cleanup_expired s)
  | OpPending subject tool method hash inv_id trace session preview ttl =>
      no_use (get_or_create_pending_confirmation subject tool method hash inv_id
                trace session preview ttl s)
  | OpResolveConfirmation a action => no_use (resolve_confirmation a action s)
  | OpResolveMatching subject tool method hash session =>
      used grant_id (resolve_matching_active_grant_for_use subject tool method hash session s)
  | OpSetSetting k v => no_use (set_setting k v s)
  end.

Fixpoint run_ops (ops : list store_op) (s : Store) : Store * list (option string) :=
  match ops with
  | [] => (s, [])
  | op :: ops' =>
      let r := run_op op s in
      let rest := run_ops ops' r.1 in
      (rest.1, r.2 :: rest.2)
  end.

Definition uses_of (id : string) (trace : list (option string)) : nat :=
  count_where (ostr_eqb (Some id)) trace.

Lemma uses_of_cons id u trace :
  uses_of id (u :: trace) = (if ostr_eqb (Some id) u then 1 else 0) + uses_of id trace.
Proof.
  unfold uses_of, count_where. cbn [List.filter]. by destruct (ostr_eqb (Some id) u).
Qed.

(** What one operation does to the row of every limited grant. *)
Definition lowers (s s' : Store) (u : option string) : Prop :=
  ∀ id g a, grant_at s id = Some g → allowance g = Some a →
  ∃ g' a', grant_at s' id = Some g' ∧ allowance g' = Some a' ∧
           a' + (if ostr_eqb (Some id) u then 1 else 0) ≤ a.

Lemma lowers_same s s' : policy_grants s' = policy_grants s → lowers s s' None.
Proof.
  intros E id g a Hg Ha. exists g, a. unfold grant_at in *. rewrite E. simpl.
  split_and!; [done|done|lia].
Qed.

Lemma lowers_insert s s' row :
  policy_grants s' = policy_grants s ++ [row] → lowers s s' None.
Proof.
  intros E id g a Hg Ha. exists g, a. unfold grant_at in *.
  rewrite E, find_app_last, Hg. simpl. split_and!; [done|done|lia].
Qed.

Lemma lowers_revoke s s' now p :
  policy_grants s' = update_where p (grant_revoke now) (policy_grants s) → lowers s s' None.
Proof.
  intros E id g a Hg Ha. simpl.
  pose proof (grant_at_update p (grant_revoke now) s id (grant_revoke_id now)) as Hup.
  unfold grant_at in *. rewrite E. simpl in Hup. rewrite Hup, Hg. simpl.
  destruct (p g); eexists _, _; (split; [done|]); (split; [eauto using allowance_revoke|]); lia.
Qed.

(** A use of grant [g0], found under its identifier and usable. *)
Lemma lowers_use s s' now q g0 r :
  store_wf s → g0 ∈ policy_grants s → usable now g0 = true →
  (last_use g0 = true → r = Some now) → q g0 = true →
  policy_grants s' =
    update_where (λ x, String.eqb (grant_id x) (grant_id g0) && q x) (grant_use now r)
      (policy_grants s) →
  lowers s s' (Some (grant_id g0)).
Proof.
  intros Hwf Hin Hu Hr Hq E id g a Hg Ha.
  pose proof (grant_at_update (λ x, String.eqb (grant_id x) (grant_id g0) && q x)
    (grant_use now r) s id (grant_use_id now r)) as Hup.
  destruct (grant_at_elem _ _ _ Hg) as [Hgin Hgid].
  unfold grant_at in *. rewrite E. simpl in Hup. rewrite Hup, Hg. simpl. clear Hup.
  rewrite Hgid. destruct (String.eqb_spec id (grant_id g0)) as [Heq|Hne]; simpl.
  - assert (g = g0) as ->.
    { pose proof (grant_at_unique s g0 Hwf Hin) as H1. unfold grant_at in H1.
      rewrite <-Heq in H1. congruence. }
    rewrite Hq. destruct (allowance_use now now r g0 a Hu Ha Hr) as (a' & ? & ?).
    eauto.
  - eexists _, _. split; [done|]. split; [done|]. lia.
Qed.

Lemma resolve_active_spec s id subject tool method required :
  store_wf s →
  let r := resolve_active_grant_for_use id subject tool method required s in
  r = (tick s, Ok None) ∨
  ∃ g, g ∈ policy_grants s ∧ grant_id g = id ∧ usable (now_iso s) g = true ∧
    g_subject_id g = subject ∧ g_effect g = "allow" ∧ g_tool g = tool ∧
    g_method g = method ∧
    (∀ req, required = Some req → _mapping_contains (g_target_json g) req = true) ∧
    r = (set_grants (update_where
           (λ x, String.eqb (grant_id x) (grant_id g) && usable (now_iso s) x)
           (grant_use (now_iso s) (use_revoke (now_iso s) g))) (tick s), Ok (Some g)).
Proof.
  intros Hwf. unfold resolve_active_grant_for_use, utc_now_iso, datetime_now,
    update_grants, use_revoke. munfold. fold (now_iso s). simpl.
  destruct (List.filter _ _) as [|g rest] eqn:Ef; [by left|].
  assert (g ∈ List.filter (λ g, String.eqb (grant_id g) id &&
    String.eqb (g_subject_id g) subject && String.eqb (g_effect g) "allow" &&
    String.eqb (g_tool g) tool && String.eqb (g_method g) method &&
    usable (now_iso s) g) (policy_grants s)) as Hg by (rewrite Ef; by left).
  apply filter_elem in Hg as [Hin Hc]. bsplit.
  destruct (match required with Some _ => _ | None => _ end) eqn:Er; [by left|].
  right. exists g. subst.
  split_and!; auto.
  - intros req ->. by bsplit.
  - by rewrite (count_grant_one s g (usable (now_iso s))).
Qed.

Lemma resolve_matching_tx_spec s subject tool method hash session now :
  store_wf s →
  let r := resolve_matching_tx subject tool method hash session now s in
  r = (s, Ok (inr None)) ∨
  ∃ g p, g ∈ policy_grants s ∧ exact_grant_row subject tool method hash session now g = true ∧
    p ∈ policy_pending s ∧ approval_row (g_approval_id g) tool method hash p = true ∧
    approval_accepts subject session p = true ∧
    ((is_blockchain_send tool method && blockchain_preview_is_invalid (p_preview p) = true ∧
      r = (set_grants (update_where
             (λ x, String.eqb (grant_id x) (grant_id g) && not_revoked x)
             (grant_revoke now)) s, Ok (inl (str_or (g_approval_id g) "")))) ∨
     (is_blockchain_send tool method && blockchain_preview_is_invalid (p_preview p) = false ∧
      r = (set_grants (update_where
             (λ x, String.eqb (grant_id x) (grant_id g) && not_revoked x && uses_left x)
             (grant_use now (Some now))) s, Ok (inr (Some g))))).
Proof.
  intros Hwf. unfold resolve_matching_tx, update_grants. munfold. simpl.
  destruct (sort_desc _ _) as [|g rest] eqn:Es; [by left|].
  assert (g ∈ sort_desc g_created_at (List.filter
    (exact_grant_row subject tool method hash session now) (policy_grants s))) as Hg
    by (rewrite Es; by left).
  apply sort_desc_elem, filter_elem in Hg as [Hin Hc].
  destruct (List.find _ (policy_pending s)) as [p|] eqn:Ep; [|by left].
  apply find_elem in Ep as [Hp Hap].
  destruct (approval_accepts subject session p) eqn:Ea; simpl; [|by left].
  right. exists g, p. split_and!; auto.
  destruct (is_blockchain_send tool method && _) eqn:Eb; [left|right]; (split; [done|]).
  - done.
  - assert (not_revoked g && uses_left g = true) as Hnu.
    { unfold exact_grant_row, usable in Hc. bsplit. apply andb_true_iff. done. }
    pose proof (count_grant_one s g (λ x, not_revoked x && uses_left x) Hwf Hin Hnu) as E1.
    replace (count_where _ _) with 1; [done|].
    rewrite <-E1. unfold count_where. f_equal. apply filter_ext.
    intros x. by rewrite andb_assoc.
Qed.

Section preservation.
Hypothesis Huuid : uuids_distinct.

(** The part of the step lemma each operation contributes. *)
Definition op_ok (s : Store) (r : Store * option string) : Prop :=
  store_wf r.1 ∧ lowers s r.1 r.2.

Lemma op_ok_tick s : store_wf s → op_ok s (tick s, None).
Proof. split; simpl; auto with minion. by apply lowers_same. Qed.

Lemma resolve_confirmation_ok s approval_id action :
  store_wf s → op_ok s (no_use (resolve_confirmation approval_id action s)).
Proof.
  intros Hwf. unfold resolve_confirmation, utc_now_iso, datetime_now, transaction,
    resolve_confirmation_tx, deny_pending, update_pending, _insert_grant, uuid4.
  munfold. unfold no_use, op_ok.
  repeat (case_match; simplify_eq/=); split; try (by apply lowers_same);
    auto with minion.
  all: try (by apply store_wf_rollback; auto with minion).
  - apply store_wf_update_pending; [done|].
    apply (store_wf_insert_grant Huuid _ _ (tick s)). auto with minion.
  - by eapply lowers_insert.
Qed.

Lemma get_or_create_pending_ok s subject tool method hash inv_id trace session preview ttl :
  store_wf s →
  op_ok s (no_use (get_or_create_pending_confirmation subject tool method hash inv_id
                     trace session preview ttl s)).
Proof.
  intros Hwf. unfold get_or_create_pending_confirmation, utc_now_iso, datetime_now,
    transaction, deny_pending, update_pending, insert_pending, uuid4.
  munfold. unfold no_use, op_ok.
  repeat (case_match; simplify_eq/=); split; try (by apply lowers_same);
    auto with minion.
  all: apply (store_wf_insert_pending Huuid _); [|done]; auto with minion.
Qed.

Lemma resolve_matching_ok s subject tool method hash session :
  store_wf s →
  op_ok s (used grant_id
    (resolve_matching_active_grant_for_use subject tool method hash session s)).
Proof.
  intros Hwf. unfold resolve_matching_active_grant_for_use, utc_now_iso, datetime_now.
  case_match; [split; simpl; [done|by apply lowers_same]|].
  case_match; [split; simpl; [done|by apply lowers_same]|].
  unfold transaction. munfold. fold (now_iso s).
  destruct (resolve_matching_tx_spec (tick s) subject tool method hash session (now_iso s))
    as [->|Hs]; [auto with minion|by apply op_ok_tick|].
  destruct Hs as (g & p & Hin & Hrow & _ & _ & _ & [[_ ->]|[_ ->]]).
  - split; simpl; [apply store_wf_update_grants; auto with minion|].
    by eapply lowers_revoke.
  - split; simpl; [apply store_wf_update_grants; auto with minion|].
    unfold exact_grant_row in Hrow. bsplit.
    eapply (lowers_use s _ (now_iso s) (λ x, not_revoked x && uses_left x) g
              (Some (now_iso s))); auto.
    + unfold usable in *. by bsplit; apply andb_true_iff.
    + simpl. apply map_ext. intros x. by rewrite andb_assoc.
Qed.

Lemma run_op_ok s op : store_wf s → op_ok s (run_op op s).
Proof.
  intros Hwf. destruct op; simpl.
  - split; simpl; [|by eapply lowers_insert].
    apply (store_wf_insert_grant Huuid _ _ (tick s)). auto with minion.
  - split; simpl; [apply store_wf_update_grants; auto with minion|].
    by eapply lowers_revoke.
  - rewrite consume_grant_use_eq by done.
    destruct (grant_at s id) as [g|] eqn:Eg; [|by apply op_ok_tick].
    destruct (usable (now_iso s) g) eqn:Eu; [|by apply op_ok_tick].
    apply grant_at_elem in Eg as [Hin <-].
    split; simpl; [apply store_wf_update_grants; auto with minion|].
    eapply (lowers_use s _ (now_iso s) (usable (now_iso s)) g (use_revoke (now_iso s) g));
      auto. unfold use_revoke. by intros ->.
  - destruct (resolve_active_spec s id subject tool method required Hwf) as [->|Hs];
      [by apply op_ok_tick|].
    destruct Hs as (g & Hin & <- & Hu & _ & _ & _ & _ & _ & ->).
    split; simpl; [apply store_wf_update_grants; auto with minion|].
    eapply (lowers_use s _ (now_iso s) (usable (now_iso s)) g (use_revoke (now_iso s) g));
      auto. unfold use_revoke. by intros ->.
  - split; simpl; [apply store_wf_update_grants; auto with minion|].
    by eapply lowers_revoke.
  - by apply get_or_create_pending_ok.
  - by apply resolve_confirmation_ok.
  - by apply resolve_matching_ok.
  - split; simpl; [|by apply lowers_same].
    apply store_wf_settings. auto with minion.
Qed.

Lemma run_ops_wf ops s : store_wf s → store_wf (run_ops ops s).1.
Proof.
  revert s. induction ops as [|op ops IH]; intros s Hwf; simpl; [done|].
  apply IH. by apply run_op_ok.
Qed.

Lemma run_ops_uses ops s id g a :
  store_wf s → grant_at s id = Some g → allowance g = Some a →
  uses_of id (run_ops ops s).2 ≤ a.
Proof.
  revert s g a. induction ops as [|op ops IH]; intros s g a Hwf Hg Ha; simpl.
  { unfold uses_of, count_where. simpl. lia. }
  destruct (run_op_ok s op Hwf) as [Hwf' Hlow].
  destruct (Hlow id g a Hg Ha) as (g' & a' & Hg' & Ha' & Hle).
  specialize (IH _ g' a' Hwf' Hg' Ha').
  rewrite uses_of_cons. lia.
Qed.
End preservation.

(** ** Confirmations *)

Lemma pending_at_elem s id p :
  pending_at s id = Some p → p ∈ policy_pending s ∧ p_approval_id p = id.
Proof. intros [? ?%String.eqb_eq]%find_elem. done. Qed.

(** A row that is not pending survives an update of the pending ones. *)
Lemma pending_at_update_other id0 f s id p :
  (∀ x, p_approval_id (f x) = p_approval_id x) →
  pending_at s id = Some p → is_pending p = false →
  pending_at (set_pending (update_where (λ x, pending_by_id id0 x && is_pending x) f) s) id
  = Some p.
Proof.
  intros Hf Hp Hn. unfold pending_at, pending_by_id in *. simpl.
  rewrite (find_update_where p_approval_id) by done. rewrite Hp. simpl.
  by rewrite Hn, andb_false_r.
Qed.

Definition settled (s s' : Store) : Prop :=
  ∀ id p, pending_at s id = Some p → is_pending p = false → pending_at s' id = Some p.

Lemma settled_same s s' : policy_pending s' = policy_pending s → settled s s'.
Proof. intros E id p Hp _. unfold pending_at in *. by rewrite E. Qed.

Lemma settled_insert s row : settled s (set_pending (λ l, l ++ [row]) s).
Proof.
  intros id p Hp _. unfold pending_at in *. simpl. by rewrite find_app_last, Hp.
Qed.

Lemma settled_trans s1 s2 s3 : settled s1 s2 → settled s2 s3 → settled s1 s3.
Proof. intros H1 H2 id p Hp Hn. eauto. Qed.

Lemma settled_update s id0 f :
  (∀ x, p_approval_id (f x) = p_approval_id x) →
  settled s (set_pending (update_where (λ x, pending_by_id id0 x && is_pending x) f) s).
Proof. intros Hf id p Hp Hn. by apply pending_at_update_other. Qed.

Lemma resolve_confirmation_settled approval_id action s :
  settled s (resolve_confirmation approval_id action s).1.
Proof.
  unfold resolve_confirmation, utc_now_iso, datetime_now, transaction,
    resolve_confirmation_tx, deny_pending, update_pending, _insert_grant, uuid4.
  munfold.
  repeat (case_match; simplify_eq/=); try (by apply settled_same);
    (eapply settled_trans; [|by apply settled_update]); by apply settled_same.
Qed.

Lemma get_or_create_settled subject tool method hash inv_id trace session preview ttl s :
  settled s (get_or_create_pending_confirmation subject tool method hash inv_id
               trace session preview ttl s).1.
Proof.
  unfold get_or_create_pending_confirmation, utc_now_iso, datetime_now,
    transaction, deny_pending, update_pending, insert_pending, uuid4.
  munfold.
  repeat (case_match; simplify_eq/=); try (by apply settled_same).
  - eapply settled_trans; [|apply settled_insert]. by apply settled_same.
  - eapply settled_trans; [|apply settled_insert].
    eapply settled_trans; [by apply (settled_same _ (tick (tick s)))|].
    eapply settled_trans; [eapply (settled_update _ (p_approval_id p)); shelve|].
    by apply settled_same.
    Unshelve. by intros x.
Qed.

Lemma run_op_settled op s : settled s (run_op op s).1.
Proof.
  destruct op; simpl; try (by apply settled_same).
  - unfold consume_grant_use, utc_now_iso, datetime_now, transaction, get_grant,
      update_grants. munfold. repeat (case_match; simplify_eq/=); by apply settled_same.
  - unfold resolve_active_grant_for_use, utc_now_iso, datetime_now, update_grants.
    munfold. repeat (case_match; simplify_eq/=); by apply settled_same.
  - apply get_or_create_settled.
  - apply resolve_confirmation_settled.
  - unfold resolve_matching_active_grant_for_use, resolve_matching_tx, utc_now_iso,
      datetime_now, transaction, update_grants. munfold.
    repeat (case_match; simplify_eq/=); by apply settled_same.
Qed.

Lemma run_ops_settled ops s : settled s (run_ops ops s).1.
Proof.
  revert s. induction ops as [|op ops IH]; intros s; simpl; [by apply settled_same|].
  eapply settled_trans; [apply run_op_settled|apply IH].
Qed.

(** The row a successful resolution leaves behind. *)
Definition resolved_row (p : PendingPolicyConfirmation) (action : string)
    (gid : option string) : Prop :=
  is_pending p = false ∧ p_resolution_action p = Some action ∧ p_grant_id p = gid ∧
  (String.eqb action "allow_once" && is_blockchain_send (p_tool p) (p_method p)
   && blockchain_preview_is_invalid (p_preview p)) = false.

Lemma pending_at_update_hit s id f p :
  (∀ x, p_approval_id (f x) = p_approval_id x) →
  pending_at s id = Some p → is_pending p = true →
  pending_at (set_pending (update_where (λ x, pending_by_id id x && is_pending x) f) s) id
  = Some (f p).
Proof.
  intros Hf Hp Hn. pose proof (pending_at_elem _ _ _ Hp) as [_ Hid].
  unfold pending_at, pending_by_id in *. simpl.
  rewrite (find_update_where p_approval_id) by done. rewrite Hp. simpl.
  by rewrite Hn, Hid, String.eqb_refl.
Qed.

Lemma resolve_confirmation_success s s1 approval_id action gid :
  resolve_confirmation approval_id action s = (s1, Ok gid) →
  ∃ p, pending_at s1 approval_id = Some p ∧ resolved_row p action gid.
Proof.
  unfold resolve_confirmation, utc_now_iso, datetime_now, transaction,
    resolve_confirmation_tx, deny_pending, update_pending, _insert_grant, uuid4.
  munfold. intros H.
  destruct (List.find _ _) as [p|] eqn:Ep; [|by repeat case_match; simplify_eq/=].
  destruct (String.eqb action "allow_once" && _ && _) eqn:Einv;
    [by repeat case_match; simplify_eq/=|].
  destruct (negb (is_pending p)) eqn:Epd.
  - destruct (ostr_eqb _ _) eqn:Ea; simplify_eq/=.
    exists p. split; [done|]. bsplit. apply ostr_eqb_eq in Ea. done.
  - destruct (str_leb _ _) eqn:Ele; [by simplify_eq/=|]. bsplit.
    destruct (String.eqb action "allow_once") eqn:Eact; simplify_eq/=.
    + eexists. split.
      { apply (pending_at_update_hit (set_grants (λ l, l ++ [grant_row (py_uuid4 (drawn s))
          (confirmation_grant p) (isoformat (py_clock (ticks s)))]) (draw (tick s)))
          approval_id); [done|exact Ep|done]. }
      split_and!; [done|done|done|]. simpl. by rewrite Eact.
    + destruct (String.eqb_spec action "deny"); simplify_eq/=. eexists. split.
      { apply (pending_at_update_hit (tick s) approval_id); [done|exact Ep|done]. }
      done.
Qed.

(** Resolving a settled confirmation again. *)
Lemma resolve_confirmation_replay s approval_id action gid p :
  pending_at s approval_id = Some p → resolved_row p action gid →
  resolve_confirmation approval_id action s = (tick s, Ok gid).
Proof.
  intros Hp (Hn & Ha & Hg & Hb). unfold resolve_confirmation, utc_now_iso, datetime_now,
    transaction, resolve_confirmation_tx. munfold. simpl.
  change (List.find (pending_by_id approval_id) (policy_pending s))
    with (pending_at s approval_id). rewrite Hp, Hb, Hn. simpl.
  rewrite Ha. simpl. rewrite String.eqb_refl. by subst.
Qed.

Lemma deny_pending_noop s id now p :
  store_wf s → pending_at s id = Some p → is_pending p = false →
  (deny_pending id now s).1 = set_pending (λ l, l) s.
Proof.
  intros Hwf Hp Hn. unfold deny_pending, update_pending, set_pending. simpl. f_equal.
  apply update_where_id. intros x Hx. unfold pending_by_id.
  destruct (String.eqb_spec (p_approval_id x) id) as [E|]; [|done]. simpl.
  destruct (pending_at_elem _ _ _ Hp) as [_ Hid].
  pose proof (find_unique p_approval_id _ x (wf_pending_ids s Hwf) Hx) as Hu.
  rewrite E in Hu. unfold pending_at, pending_by_id in Hp. congruence.
Qed.

Lemma resolve_confirmation_conflict s approval_id action action' gid p :
  store_wf s → pending_at s approval_id = Some p → resolved_row p action gid →
  action' ≠ action →
  let r := resolve_confirmation approval_id action' s in
  (∃ e, r.2 = Raise e) ∧ policy_grants r.1 = policy_grants s ∧
  policy_pending r.1 = policy_pending s.
Proof.
  intros Hwf Hp (Hn & Ha & Hg & Hb) Hne.
  unfold resolve_confirmation, utc_now_iso, datetime_now, transaction,
    resolve_confirmation_tx. munfold. simpl.
  change (List.find (pending_by_id approval_id) (policy_pending s))
    with (pending_at s approval_id). rewrite Hp, Hn. simpl. rewrite Ha.
  assert (ostr_eqb (Some action) (Some action') = false) as ->
    by (apply String.eqb_neq; congruence).
  destruct (String.eqb action' "allow_once" && is_blockchain_send (p_tool p) (p_method p)
    && blockchain_preview_is_invalid (p_preview p)); [|by eauto].
  pose proof (deny_pending_noop (tick s) approval_id (isoformat (py_clock (ticks s))) p
    (store_wf_tick s Hwf) Hp Hn) as Hnoop.
  apply (f_equal policy_pending) in Hnoop. simpl in Hnoop.
  split; [by eauto|]. split; [done|exact Hnoop].
Qed.

(** States a row can be in. *)
Definition live_state (p : PendingPolicyConfirmation) : Prop :=
  p_state p ∈ ["pending"; "allowed"; "denied"].

Lemma live_update (q : PendingPolicyConfirmation → bool) st a g now l :
  st ∈ ["pending"; "allowed"; "denied"] →
  Forall live_state l → Forall live_state (update_where q (pending_resolve st a g now) l).
Proof. intros Hst Hl. apply update_where_Forall; [|done]. done. Qed.

Lemma resolve_confirmation_live approval_id action s :
  Forall live_state (policy_pending s) →
  Forall live_state (policy_pending (resolve_confirmation approval_id action s).1).
Proof.
  intros Hl. unfold resolve_confirmation, utc_now_iso, datetime_now, transaction,
    resolve_confirmation_tx, deny_pending, update_pending, _insert_grant, uuid4.
  munfold. repeat (case_match; simplify_eq/=); auto.
  - apply update_where_Forall; [|done]. intros. unfold live_state. simpl. do 2 right; left.
  - apply live_update; [set_solver|done].
  - apply live_update; [set_solver|done].
Qed.

Lemma run_op_live op s :
  Forall live_state (policy_pending s) → Forall live_state (policy_pending (run_op op s).1).
Proof.
  intros Hl. destruct op; simpl; try done.
  - unfold consume_grant_use, utc_now_iso, datetime_now, transaction, get_grant,
      update_grants. munfold. repeat (case_match; simplify_eq/=); done.
  - unfold resolve_active_grant_for_use, utc_now_iso, datetime_now, update_grants.
    munfold. repeat (case_match; simplify_eq/=); done.
  - unfold get_or_create_pending_confirmation, utc_now_iso, datetime_now,
      transaction, deny_pending, update_pending, insert_pending, uuid4. munfold.
    repeat (case_match; simplify_eq/=); try done; apply Forall_app; split; try done;
      try (apply update_where_Forall; [|done]; intros);
      repeat constructor; unfold live_state; simpl; set_solver.
  - by apply resolve_confirmation_live.
  - unfold resolve_matching_active_grant_for_use, resolve_matching_tx, utc_now_iso,
      datetime_now, transaction, update_grants. munfold.
    repeat (case_match; simplify_eq/=); done.
Qed.
(** ** Approvals *)

(** The grant was written when the operator allowed a confirmation: the row that
    says so is there, with the subject, the session and the hash of the invocation
    that was shown. *)
Definition approved_by (s : Store) (g : PolicyGrant) (p : PendingPolicyConfirmation) : Prop :=
  p ∈ policy_pending s ∧ g_approval_id g = Some (p_approval_id p) ∧ p_state p = "allowed" ∧
  p_grant_id p = Some (grant_id g) ∧ g_subject_id g = p_subject_id p ∧ g_session_id g = p_session_id p ∧
  g_invocation_hash g = Some (p_invocation_hash p) ∧ truthy (p_invocation_hash p) = true.
Definition approvals_backed (s : Store) : Prop :=
  (∀ g, g ∈ policy_grants s → otruthy (g_approval_id g) = true → ∃ p, approved_by s g p) ∧
  (∀ p, p ∈ policy_pending s → truthy (p_invocation_hash p) = true).
(** A call that does not make an approval up: a grant is created without the id of
    one, and a confirmation is asked for an invocation. *)
Definition vetted (op : store_op) : Prop :=
  match op with
  | OpCreateGrant gi => otruthy (gi_approval_id gi) = false
  | OpPending _ _ _ hash _ _ _ _ _ => truthy hash = true
  | _ => True
  end.

Lemma backed_same s s' :
  policy_grants s' = policy_grants s → policy_pending s' = policy_pending s →
  approvals_backed s → approvals_backed s'.
Proof. unfold approvals_backed, approved_by. by intros -> ->. Qed.
(** Updates of grants that keep what ties a grant to its approval. *)
Definition keeps_tie (f : PolicyGrant → PolicyGrant) : Prop :=
  ∀ g, grant_id (f g) = grant_id g ∧ g_approval_id (f g) = g_approval_id g ∧ g_subject_id (f g) = g_subject_id g ∧
       g_session_id (f g) = g_session_id g ∧ g_invocation_hash (f g) = g_invocation_hash g.
Lemma backed_update_grants q f s : keeps_tie f → approvals_backed s → approvals_backed (set_grants (update_where q f) s).
Proof.
  intros Hf [Hg Hp]. split; [|done]. simpl. intros g Hin Ha.
  apply update_where_elem in Hin as (x & Hx & [[_ ->]|[_ ->]]); [|by apply Hg].
  destruct (Hf x) as (E1 & E2 & E3 & E4 & E5). rewrite E2 in Ha. destruct (Hg x Hx Ha) as [p Hpx]. exists p.
  unfold approved_by in *. simpl. by rewrite E1, E2, E3, E4, E5.
Qed.
Lemma tie_revoke now : keeps_tie (grant_revoke now).
Proof. done. Qed.
Lemma tie_use now r : keeps_tie (grant_use now r).
Proof. done. Qed.
(** The rows that are no longer pending are left alone, and hashes stay. *)
Lemma backed_update_pending q f s :
  (∀ p, p_invocation_hash (f p) = p_invocation_hash p) → approvals_backed s →
  approvals_backed (set_pending (update_where (λ p, q p && is_pending p) f) s).
Proof.
  intros Hf [Hg Hp]. split; simpl.
  - intros g Hin Ha. destruct (Hg g Hin Ha) as (p & Hpin & H1 & H2 & Hrest). exists p. split; [|done]. simpl.
    apply update_where_elem. exists p. split; [done|]. right. split; [|done].
    unfold is_pending. rewrite H2. apply andb_false_r.
  - intros p Hin. apply update_where_elem in Hin as (x & Hx & [[_ ->]|[_ ->]]); [rewrite Hf|]; by apply Hp.
Qed.
Lemma backed_insert_pending row s :
  truthy (p_invocation_hash row) = true → approvals_backed s → approvals_backed (set_pending (λ l, l ++ [row]) s).
Proof.
  intros Hr [Hg Hp]. split; simpl.
  - intros g Hin Ha. destruct (Hg g Hin Ha) as (p & Hpin & Hrest). exists p. split; [|done].
    apply elem_of_app. by left.
  - intros p [Hin| ->%list_elem_of_singleton]%elem_of_app; [by apply Hp|done].
Qed.
Lemma backed_create gi s : otruthy (gi_approval_id gi) = false → approvals_backed s →
  approvals_backed (store_create_grant gi s).1.
Proof.
  intros Hgi [Hg Hp]. split; [|done]. simpl. intros g [Hin| ->%list_elem_of_singleton]%elem_of_app Ha; [by apply Hg|].
  change (otruthy (gi_approval_id gi) = true) in Ha. by rewrite Hgi in Ha.
Qed.
(** The grant of an allowed confirmation, with the row that allows it. *)
Lemma backed_allow s id a act now pending :
  approvals_backed s → pending ∈ policy_pending s → p_approval_id pending = a → is_pending pending = true →
  approvals_backed (set_pending (update_where (λ p, pending_by_id a p && is_pending p)
                       (pending_resolve "allowed" act (Some id) now))
                      (set_grants (λ l, l ++ [grant_row id (confirmation_grant pending) now]) s)).
Proof.
  intros [Hg Hp] Hin Ea Hpend. destruct (backed_update_pending (pending_by_id a)
    (pending_resolve "allowed" act (Some id) now) s (λ _, eq_refl) (conj Hg Hp)) as [Hg' Hp'].
  split; [|exact Hp']. simpl. intros g [Hgin| ->%list_elem_of_singleton]%elem_of_app Ha.
  { destruct (Hg' g Hgin Ha) as (p & Hpin & Hrest). by exists p. }
  exists (pending_resolve "allowed" act (Some id) now pending). split; [|simpl; split_and!; try done; by apply Hp].
  simpl. apply update_where_elem. exists pending. split; [done|]. left. split; [|done].
  unfold pending_by_id. by rewrite Ea, String.eqb_refl, Hpend.
Qed.

Lemma backed_resolve_confirmation a action s : approvals_backed s → approvals_backed (resolve_confirmation a action s).1.
Proof.
  intros Hb. unfold resolve_confirmation, utc_now_iso, datetime_now, transaction,
    resolve_confirmation_tx, deny_pending, update_pending, _insert_grant, uuid4. munfold.
  repeat (case_match; simplify_eq/=); try (by eapply backed_same; [..|exact Hb]);
    try (by eapply backed_same; [..|apply (backed_update_pending (pending_by_id a)); [|exact Hb]]).
  all: match goal with E : List.find _ _ = Some _ |- _ => apply find_elem in E as [? ?%String.eqb_eq] end.
  all: eapply backed_same; [..|eapply backed_allow; [exact Hb|..]]; try done; try (by apply negb_false_iff).
Qed.
Lemma backed_pending subject tool method hash inv_id trace session preview ttl s :
  truthy hash = true → approvals_backed s →
  approvals_backed (get_or_create_pending_confirmation subject tool method hash inv_id trace session preview ttl s).1.
Proof.
  intros Hh Hb. unfold get_or_create_pending_confirmation, utc_now_iso, datetime_now,
    transaction, deny_pending, update_pending, insert_pending, uuid4. munfold.
  repeat (case_match; simplify_eq/=); try (by eapply backed_same; [..|exact Hb]);
    apply backed_insert_pending; try done; try (by eapply backed_same; [..|exact Hb]).
  eapply backed_same; [..|eapply (backed_update_pending (pending_by_id _)); [|exact Hb]]; done.
Qed.
Lemma backed_consume id s : approvals_backed s → approvals_backed (consume_grant_use id s).1.
Proof.
  intros Hb. unfold consume_grant_use, utc_now_iso, datetime_now, transaction, get_grant, update_grants. munfold.
  repeat (case_match; simplify_eq/=); try (by eapply backed_same; [..|exact Hb]);
    (eapply backed_same; [..|eapply backed_update_grants; [apply tie_use|exact Hb]]; done).
Qed.
Lemma backed_cleanup s : approvals_backed s → approvals_backed (cleanup_expired s).1.
Proof. intros Hb. eapply backed_same; [..|eapply backed_update_grants; [apply tie_revoke|exact Hb]]; done. Qed.
Lemma backed_matching subject tool method hash session s : approvals_backed s →
  approvals_backed (resolve_matching_active_grant_for_use subject tool method hash session s).1.
Proof.
  intros Hb. unfold resolve_matching_active_grant_for_use, resolve_matching_tx, utc_now_iso,
    datetime_now, transaction, update_grants. munfold.
  repeat (case_match; simplify_eq/=); try (by eapply backed_same; [..|exact Hb]);
    first [by eapply backed_same; [..|eapply backed_update_grants; [apply tie_use|exact Hb]]
          |by eapply backed_same; [..|eapply backed_update_grants; [apply tie_revoke|exact Hb]]].
Qed.
Lemma run_op_backed op s : vetted op → approvals_backed s → approvals_backed (run_op op s).1.
Proof.
  intros Hv Hb. destruct op; simpl in Hv |- *.
  - by apply backed_create.
  - eapply backed_same; [..|eapply backed_update_grants; [apply tie_revoke|exact Hb]]; done.
  - by apply backed_consume.
  - unfold resolve_active_grant_for_use, utc_now_iso, datetime_now, update_grants. munfold.
    repeat (case_match; simplify_eq/=); try (by eapply backed_same; [..|exact Hb]);
      (eapply backed_same; [..|eapply backed_update_grants; [apply tie_use|exact Hb]]; done).
  - by apply backed_cleanup.
  - by apply backed_pending.
  - by apply backed_resolve_confirmation.
  - by apply backed_matching.
  - by eapply backed_same; [..|exact Hb].
Qed.
Lemma approvals_backed_empty : approvals_backed empty_store.
Proof. split; by intros ? ?%elem_of_nil. Qed.
End Props.

(** ** The store's contract *)

(** C2: whatever sequence of store operations runs after a limited grant (one
    with duration [once], or with [max_uses]) is in the table, the operations
    that return a use of it ([consume_grant_use], [resolve_active_grant_for_use],
    [resolve_matching_active_grant_for_use]) do so at most as often as the
    grant still allows: once for a [once] grant, [max_uses - uses_count]
    times otherwise, never when it is revoked. *)
Theorem grant_uses_bounded `{PyEnv, BlockchainPreview} ops s id g a :
  uuids_distinct → store_wf s → grant_at s id = Some g → allowance g = Some a →
  uses_of id (run_ops ops s).2 ≤ a.
Proof. intros Hu Hwf Hg Ha. by eapply run_ops_uses. Qed.

Definition demo_once_input : PolicyGrantInput :=
  {| gi_effect := "allow"; gi_tool := "file"; gi_method := "write"; gi_target_json := [];
     gi_duration_type := "once"; gi_subject_id := "local"; gi_expires_at := None;
     gi_session_id := None; gi_invocation_hash := Some "h"; gi_max_uses := None;
     gi_reason := None; gi_created_trace_id := None; gi_risk_floor := None;
     gi_approval_id := None |}.
Definition demo_once_store : Store := (store_create_grant demo_once_input empty_store).1.

Lemma demo_once_wf : store_wf demo_once_store.
Proof. apply (store_wf_insert_grant demo_uuids_distinct _ _ (tick empty_store)).
  apply store_wf_tick, store_wf_empty. Qed.

Lemma grant_uses_bounded_witness :
  uses_of "id-0" (run_ops [OpConsume "id-0"; OpConsume "id-0"; OpCleanup; OpConsume "id-0"]
                    demo_once_store).2 ≤ 1
  ∧ (run_ops [OpConsume "id-0"; OpConsume "id-0"] demo_once_store).2 = [Some "id-0"; None].
Proof.
  split; [|vm_compute; reflexivity].
  eapply grant_uses_bounded;
    [exact demo_uuids_distinct|exact demo_once_wf|vm_compute; reflexivity|vm_compute; reflexivity].
Defined.

(** A confirmation is resolved once.  After a resolution returned, and
    after any further store operations, repeating it returns the same grant id
    and changes nothing but the clock, and resolving it with any other action
    raises and leaves the grant and confirmation tables as they are. *)
Theorem confirmation_resolved_once `{PyEnv, BlockchainPreview} ops s s1 approval_id action gid :
  uuids_distinct → store_wf s →
  resolve_confirmation approval_id action s = (s1, Ok gid) →
  let s2 := (run_ops ops s1).1 in
  resolve_confirmation approval_id action s2 = (tick s2, Ok gid) ∧
  ∀ action', action' ≠ action →
    let r := resolve_confirmation approval_id action' s2 in
    (∃ e, r.2 = Raise e) ∧ policy_grants r.1 = policy_grants s2 ∧
    policy_pending r.1 = policy_pending s2.
Proof.
  intros Hu Hwf Hres s2.
  destruct (resolve_confirmation_success _ _ _ _ _ Hres) as (p & Hp & Hrow).
  assert (pending_at s2 approval_id = Some p) as Hp2
    by (eapply run_ops_settled; [done|apply Hrow]).
  assert (store_wf s2) as Hwf2.
  { apply run_ops_wf; [done|]. pose proof (resolve_confirmation_ok Hu s approval_id action Hwf)
      as [H1 _]. by rewrite Hres in H1. }
  split; [by eapply resolve_confirmation_replay|].
  intros action' Hne. by eapply resolve_confirmation_conflict.
Qed.

(** A pending confirmation of an operations command. *)
Definition demo_pending_store : Store :=
  (get_or_create_pending_confirmation "local" "ops.command" "run" "h" "inv-1" None None []
     600 empty_store).1.
Definition demo_resolved_store : Store :=
  (resolve_confirmation "id-0" "allow_once" demo_pending_store).1.

Lemma demo_pending_wf : store_wf demo_pending_store.
Proof.
  destruct (get_or_create_pending_ok demo_uuids_distinct empty_store "local" "ops.command" "run"
    "h" "inv-1" None None [] 600 store_wf_empty) as [H _]. exact H.
Qed.

Lemma confirmation_resolved_once_witness :
  let s2 := (run_ops [OpCleanup; OpConsume "id-1"] demo_resolved_store).1 in
  resolve_confirmation "id-0" "allow_once" s2 = (tick s2, Ok (Some "id-1")).
Proof.
  apply (confirmation_resolved_once [OpCleanup; OpConsume "id-1"] demo_pending_store
    demo_resolved_store "id-0" "allow_once" (Some "id-1"));
    [exact demo_uuids_distinct|exact demo_pending_wf|vm_compute; reflexivity].
Defined.

(** [allow_once] on a pending confirmation that is not expired (and, for a
    transaction, whose preview parses) draws a fresh id, appends exactly one
    grant to the table: an [allow]/[once] grant with one use, bound to the
    confirmation's tool, method, subject, session and invocation hash and
    carrying its approval id, marks that confirmation [allowed] with the grant
    id, and leaves every other row of both tables as it was. *)
Theorem allow_once_creates_one_grant `{PyEnv, BlockchainPreview} s approval_id p :
  pending_at s approval_id = Some p → is_pending p = true →
  str_ltb (now_iso s) (p_expires_at p) = true →
  is_blockchain_send (p_tool p) (p_method p) && blockchain_preview_is_invalid (p_preview p)
    = false →
  let now := now_iso s in
  let gid := py_uuid4 (drawn s) in
  let r := resolve_confirmation approval_id "allow_once" s in
  r.2 = Ok (Some gid) ∧
  policy_grants r.1 = policy_grants s ++
    [{| grant_id := gid; g_subject_id := p_subject_id p; g_effect := "allow";
        g_tool := p_tool p; g_method := p_method p; g_target_json := [];
        g_duration_type := "once"; g_expires_at := None; g_session_id := p_session_id p;
        g_invocation_hash := Some (p_invocation_hash p); g_max_uses := Some 1%Z;
        g_uses_count := 0; g_created_at := now; g_updated_at := now; g_revoked_at := None;
        g_reason := Some "created_from_confirmation:allow_once";
        g_created_trace_id := p_trace_id p; g_risk_floor := None;
        g_approval_id := Some approval_id |}] ∧
  pending_at r.1 approval_id = Some (pending_resolve "allowed" (Some "allow_once") (Some gid) now p) ∧
  ∀ id', id' ≠ approval_id → pending_at r.1 id' = pending_at s id'.
Proof.
  intros Hp Hpd Hexp Hbc now gid r.
  pose proof (pending_at_elem _ _ _ Hp) as [_ Hid].
  assert (r = (set_pending (update_where (λ x, pending_by_id approval_id x && is_pending x)
      (pending_resolve "allowed" (Some "allow_once") (Some gid) now))
    (set_grants (λ l, l ++ [grant_row gid (confirmation_grant p) now]) (draw (tick s))),
    Ok (Some gid))) as ->.
  { subst r. unfold resolve_confirmation, utc_now_iso, datetime_now, transaction,
      resolve_confirmation_tx, _insert_grant, uuid4, update_pending. munfold. simpl.
    change (List.find (pending_by_id approval_id) (policy_pending s))
      with (pending_at s approval_id). rewrite Hp. simpl. rewrite Hbc, Hpd. simpl.
    fold (now_iso s). by rewrite str_leb_ltb, Hexp. }
  simpl. split; [done|]. split; [by rewrite <-Hid|]. split.
  - by apply pending_at_update_hit.
  - intros id' Hne. unfold pending_at. simpl. unfold pending_by_id.
    rewrite (find_update_where p_approval_id) by done.
    destruct (List.find _ _) as [q|] eqn:Eq; [|done]. simpl.
    apply find_elem in Eq as [_ Eq]. apply String.eqb_eq in Eq.
    destruct (String.eqb_spec (p_approval_id q) approval_id); [congruence|done].
Qed.

Lemma allow_once_creates_one_grant_witness :
  (resolve_confirmation "id-0" "allow_once" demo_pending_store).2
  = Ok (Some (py_uuid4 (drawn demo_pending_store))).
Proof.
  eapply proj1, (allow_once_creates_one_grant demo_pending_store "id-0");
    vm_compute; reflexivity.
Defined.

(** The [expired] state is never recorded.  Resolving a pending
    confirmation after its expiry raises [PENDING_CONFIRMATION_EXPIRED], but the
    exception leaves the transaction block, whose rollback undoes the update to
    [expired]: both tables are as before the call, and no sequence of store
    operations ever puts a row in a state other than [pending], [allowed] or
    [denied]. *)
Theorem expired_state_never_recorded `{PyEnv, BlockchainPreview} s approval_id p ops :
  pending_at s approval_id = Some p → is_pending p = true →
  str_leb (p_expires_at p) (now_iso s) = true →
  Forall live_state (policy_pending s) →
  let r := resolve_confirmation approval_id "deny" s in
  r.2 = Raise (PolicyControlError "PENDING_CONFIRMATION_EXPIRED"
                 "Pending confirmation expired." []) ∧
  policy_grants r.1 = policy_grants s ∧ policy_pending r.1 = policy_pending s ∧
  Forall live_state (policy_pending (run_ops ops s).1).
Proof.
  intros Hp Hpd Hexp Hlive r.
  assert (r = (rollback (tick s) (tick s), Raise (PolicyControlError
    "PENDING_CONFIRMATION_EXPIRED" "Pending confirmation expired." []))) as ->.
  { subst r. unfold resolve_confirmation, utc_now_iso, datetime_now, transaction,
      resolve_confirmation_tx, update_pending. munfold. simpl.
    change (List.find (pending_by_id approval_id) (policy_pending s))
      with (pending_at s approval_id). rewrite Hp, Hpd. simpl.
    fold (now_iso s). by rewrite Hexp. }
  split_and!; [done..|]. clear -Hlive. revert s Hlive.
  induction ops as [|op ops IH]; intros s Hl; [done|]. simpl. apply IH. by apply run_op_live.
Qed.

(** The same store 11 minutes later. *)
Definition demo_late_store : Store :=
  {| policy_grants := policy_grants demo_pending_store;
     policy_pending := policy_pending demo_pending_store;
     policy_decisions := []; policy_settings := ∅; ticks := 660; drawn := 1 |}.

Lemma expired_state_never_recorded_witness :
  policy_pending (resolve_confirmation "id-0" "deny" demo_late_store).1
  = policy_pending demo_late_store.
Proof.
  eapply proj1, proj2, proj2, (expired_state_never_recorded demo_late_store "id-0" _ []);
    [vm_compute; reflexivity|vm_compute; reflexivity|vm_compute; reflexivity|].
  constructor; [|constructor]. vm_compute. left.
Defined.

(** The store when the clock has advanced to its [n]-th reading. *)
Definition at_tick (n : nat) (s : Store) : Store :=
  {| policy_grants := policy_grants s; policy_pending := policy_pending s;
     policy_decisions := policy_decisions s; policy_settings := policy_settings s;
     ticks := n; drawn := drawn s |}.

(** The identity of a pending confirmation, without its expiry. *)
Definition same_request (subject tool method hash : string) (session : option string)
    (p : PendingPolicyConfirmation) : bool :=
  String.eqb (p_subject_id p) subject && String.eqb (p_tool p) tool &&
  String.eqb (p_method p) method && String.eqb (p_invocation_hash p) hash &&
  is_pending p && String.eqb (default "" (p_session_id p)) (str_or session "").

(** The rows [get_or_create_pending_confirmation] looks at. *)
Definition live_requests (subject tool method hash : string) (session : option string)
    (now : string) (l : list PendingPolicyConfirmation) : list PendingPolicyConfirmation :=
  sort_desc p_created_at (List.filter
    (λ p, same_request subject tool method hash session p && str_ltb now (p_expires_at p)) l).

Lemma get_or_create_found `{PyEnv, BlockchainPreview}
    subject tool method hash inv_id trace session preview ttl s p rest :
  is_blockchain_send tool method = false →
  live_requests subject tool method hash session (now_iso s) (policy_pending s) = p :: rest →
  get_or_create_pending_confirmation subject tool method hash inv_id trace session preview ttl s
    = (tick (tick s), Ok p).
Proof.
  intros Hb Hl. unfold get_or_create_pending_confirmation, utc_now_iso, datetime_now, transaction.
  munfold. fold (now_iso s). unfold live_requests, same_request in Hl. simpl. rewrite Hl.
  by rewrite Hb.
Qed.

Lemma get_or_create_inv `{PyEnv, BlockchainPreview}
    subject tool method hash inv_id trace session preview ttl s s1 p :
  is_blockchain_send tool method = false →
  get_or_create_pending_confirmation subject tool method hash inv_id trace session preview ttl s
    = (s1, Ok p) →
  (∃ rest, live_requests subject tool method hash session (now_iso s) (policy_pending s) = p :: rest
     ∧ policy_pending s1 = policy_pending s) ∨
  (live_requests subject tool method hash session (now_iso s) (policy_pending s) = [] ∧
   policy_pending s1 = policy_pending s ++ [p] ∧
   same_request subject tool method hash session p = true).
Proof.
  intros Hb. destruct (live_requests subject tool method hash session (now_iso s) (policy_pending s))
    as [|q rest] eqn:El.
  - unfold get_or_create_pending_confirmation, utc_now_iso, datetime_now, transaction, uuid4,
      insert_pending. munfold. fold (now_iso s). pose proof El as El'.
    unfold live_requests, same_request in El'. simpl. rewrite El'. intros [= <- <-]. right.
    split; [done|]. split; [done|]. unfold same_request, is_pending. simpl.
    rewrite !String.eqb_refl. simpl. apply String.eqb_eq.
    destruct session as [c|]; [|done]. simpl. destruct (truthy c) eqn:E; [done|].
    unfold truthy in E. by apply negb_false_iff, String.eqb_eq in E.
  - rewrite (get_or_create_found _ _ _ _ _ _ _ _ _ _ q rest Hb El). intros [= <- <-]. left. eauto.
Qed.

Lemma live_requests_later `{PyEnv} subject tool method hash session i j l :
  (py_clock i ≤ py_clock j)%Z → instant_ok (py_clock i) → instant_ok (py_clock j) →
  live_requests subject tool method hash session (isoformat (py_clock j)) l =
  sort_desc p_created_at (List.filter (λ p, str_ltb (isoformat (py_clock j)) (p_expires_at p))
    (List.filter (λ p, same_request subject tool method hash session p
                       && str_ltb (isoformat (py_clock i)) (p_expires_at p)) l)).
Proof.
  intros Hij Hi Hj. unfold live_requests. f_equal. induction l as [|p l IH]; [done|].
  cbn [List.filter]. destruct (same_request _ _ _ _ _ p); cbn [andb]; [|done].
  destruct (str_ltb (isoformat (py_clock i)) (p_expires_at p)) eqn:Ei; cbn [List.filter].
  - destruct (str_ltb (isoformat (py_clock j)) (p_expires_at p)); [by f_equal|done].
  - destruct (str_ltb (isoformat (py_clock j)) (p_expires_at p)) eqn:Ej; [|done].
    exfalso. assert (str_leb (isoformat (py_clock i)) (isoformat (py_clock j)) = true) as Hle
      by (rewrite isoformat_leb by done; by apply Z.leb_le).
    by rewrite (str_leb_ltb_trans _ _ _ Hle Ej) in Ei.
Qed.

(** Confirmations are not duplicated.  Asking again for the same subject,
    tool, method, invocation hash and session (whatever the invocation id,
    trace, preview and lifetime) while the first request is still live returns
    that very request and adds no row.  (Blockchain sends, whose stored preview
    is re-validated, are excluded.) *)
Theorem pending_confirmation_reused `{PyEnv, BlockchainPreview}
    subject tool method hash session i1 t1 pv1 ttl1 i2 t2 pv2 ttl2 s s1 p n :
  clock_monotone → is_blockchain_send tool method = false →
  get_or_create_pending_confirmation subject tool method hash i1 t1 session pv1 ttl1 s
    = (s1, Ok p) →
  ticks s ≤ n → instant_ok (py_clock (ticks s)) → instant_ok (py_clock n) →
  str_ltb (isoformat (py_clock n)) (p_expires_at p) = true →
  let r := get_or_create_pending_confirmation subject tool method hash i2 t2 session pv2 ttl2
             (at_tick n s1) in
  r.2 = Ok p ∧ policy_pending r.1 = policy_pending s1.
Proof.
  intros Hmono Hb Hget Hn Hok1 Hok2 Hlive r.
  assert (∃ rest, live_requests subject tool method hash session (now_iso (at_tick n s1))
            (policy_pending (at_tick n s1)) = p :: rest) as [rest Hl].
  { change (now_iso (at_tick n s1)) with (isoformat (py_clock n)).
    change (policy_pending (at_tick n s1)) with (policy_pending s1).
    rewrite (live_requests_later _ _ _ _ _ (ticks s) n) by auto.
    apply get_or_create_inv in Hget as [(rest & Hl & ->)|(Hl & -> & Hreq)]; [|..|done].
    - eapply sort_desc_filter_head; [exact Hl|done].
    - assert (List.filter (λ p0, same_request subject tool method hash session p0
        && str_ltb (isoformat (py_clock (ticks s))) (p_expires_at p0)) (policy_pending s) = []) as E.
      { apply Permutation_nil. unfold live_requests in Hl. rewrite <-Hl. apply sort_desc_perm. }
      rewrite List.filter_app, E. cbn [app List.filter]. rewrite Hreq. cbn [andb].
      assert (str_leb (isoformat (py_clock (ticks s))) (isoformat (py_clock n)) = true) as Hle
        by (rewrite isoformat_leb by done; apply Z.leb_le; auto).
      rewrite (str_leb_ltb_trans _ _ _ Hle Hlive). cbn [List.filter]. rewrite Hlive. by eexists. }
  subst r. by rewrite (get_or_create_found _ _ _ _ _ _ _ _ _ _ p rest Hb Hl).
Qed.

Lemma pending_confirmation_reused_witness :
  ∃ p, (get_or_create_pending_confirmation "local" "ops.command" "run" "h" "inv-2" None None []
          60 (at_tick 300 demo_pending_store)).2 = Ok p ∧ p_approval_id p = "id-0".
Proof.
  eexists. split.
  - eapply proj1, (pending_confirmation_reused "local" "ops.command" "run" "h" None "inv-1" None
      [] 600 "inv-2" None [] 60 empty_store demo_pending_store _ 300);
      [exact demo_clock_monotone|reflexivity|vm_compute; reflexivity|vm_compute; lia
      |apply demo_clock_in_range; reflexivity|apply demo_clock_in_range; reflexivity
      |vm_compute; reflexivity].
  - vm_compute. reflexivity.
Defined.
