(* ===== verification/PolicyGrants.v ===== *)
(** Grant rules ([modules/policy/grants.py]): validation of grant inputs, the
    terms a confirmation action yields, specificity scoring and the selection
    of the grant that decides an invocation. *)

From S2P Require Import Prelude PyValue Timestamps PolicyModels PolicyStore Demo.

Record GrantMatch := { gm_grant : PolicyGrant; gm_score : nat }.

Definition requires_once_duration (tool method : string) (risk_floor : option string) : bool :=
  let normalized_tool := py_lower (py_strip tool) in
  let normalized_method := py_lower (py_strip method) in
  String.eqb normalized_tool "financial"
  || is_policy_authorization_pair normalized_tool normalized_method
  || String.eqb normalized_tool "ops.command" && String.eqb normalized_method "run"
  || String.eqb normalized_tool "project" && String.eqb normalized_method "start"
  || ostr_eqb risk_floor (Some "financial").

Definition grant_specificity_score (g : PolicyGrant) : nat :=
  (if negb (String.eqb (g_tool g) "*") then 8 else 0)
  + (if negb (String.eqb (g_method g) "*") then 6 else 0)
  + match g_target_json g with [] => 0 | t => 4 + length t end
  + (if otruthy (g_risk_floor g) then 1 else 0).

Definition is_deny (m : GrantMatch) : bool :=
  String.eqb (g_effect (gm_grant m)) POLICY_GRANT_EFFECT_DENY.
Definition created_after (a b : GrantMatch) : bool :=
  str_ltb (g_created_at (gm_grant b)) (g_created_at (gm_grant a)).

Definition select_grant_match (matches : list GrantMatch) : option GrantMatch :=
  match matches with
  | [] => None
  | _ :: _ =>
      let best := foldr Nat.max 0 (map gm_score matches) in
      let same := List.filter (λ m, Nat.eqb (gm_score m) best) matches in
      let deny := List.filter is_deny same in
      match (match deny with [] => same | _ => deny end) with
      | [] => None
      | m :: rest => Some (py_max created_after m rest)
      end
  end.

Definition with_expires_at (gi : PolicyGrantInput) (e : option string) : PolicyGrantInput :=
  {| gi_effect := gi_effect gi; gi_tool := gi_tool gi; gi_method := gi_method gi;
     gi_target_json := gi_target_json gi; gi_duration_type := gi_duration_type gi;
     gi_subject_id := gi_subject_id gi; gi_expires_at := e;
     gi_session_id := gi_session_id gi; gi_invocation_hash := gi_invocation_hash gi;
     gi_max_uses := gi_max_uses gi; gi_reason := gi_reason gi;
     gi_created_trace_id := gi_created_trace_id gi; gi_risk_floor := gi_risk_floor gi;
     gi_approval_id := gi_approval_id gi |}.

Section Grants.
Context {Env : PyEnv} {Bc : BlockchainPreview}.

(** Returns the input as the validation leaves it: the expiry of an [until]
    grant rewritten in UTC. *)
Definition validate_grant_input (gi : PolicyGrantInput) : result policy_exn PolicyGrantInput :=
  if negb (str_in (gi_effect gi) POLICY_GRANT_EFFECTS) then
    Raise (ValueError "grant.effect must be allow|deny")
  else if negb (str_in (gi_duration_type gi) POLICY_DURATION_TYPES) then
    Raise (ValueError "grant.duration_type must be once|until|session|forever")
  else if String.eqb (gi_duration_type gi) POLICY_DURATION_SESSION
          && negb (otruthy (gi_session_id gi)) then
    Raise (ValueError "session grants require a non-empty session_id")
  else if requires_once_duration (gi_tool gi) (gi_method gi) (gi_risk_floor gi)
          && negb (String.eqb (gi_duration_type gi) POLICY_DURATION_ONCE) then
    Raise (ValueError (gi_tool gi +:+ "." +:+ gi_method gi +:+ " grants must be allow once"))
  else if String.eqb (gi_duration_type gi) POLICY_DURATION_ONCE
          && negb (otruthy (gi_invocation_hash gi)) then
    Raise (ValueError "once grants require invocation_hash")
  else if String.eqb (gi_duration_type gi) POLICY_DURATION_UNTIL then
    if negb (otruthy (gi_expires_at gi)) then
      Raise (ValueError "until grants require expires_at")
    else match py_fromisoformat (default "" (gi_expires_at gi)) with
         | None => Raise (ValueError "expires_at must be an ISO-8601 timestamp")
         | Some (_, None) => Raise (ValueError "expires_at must include a timezone")
         | Some (local, Some offset) =>
             Ok (with_expires_at gi (Some (isoformat (local - offset)%Z)))
         end
  else Ok gi.

(** Duration, expiry, session and invocation hash of the grant an approval
    action creates. *)
Definition confirmation_grant_terms (action : string) (session_id : option string)
    (invocation_hash : string) (until_seconds : option Z)
    : PM (string * option string * option string * option string) :=
  if String.eqb action "allow_once" then
    mret (POLICY_DURATION_ONCE, None, None, Some invocation_hash)
  else if String.eqb action "allow_until" then
    let given := default 0%Z until_seconds in
    let seconds := Z.max 1 (if Z.eqb given 0 then 600 else given) in
    now ← datetime_now;
    mret (POLICY_DURATION_UNTIL, Some (isoformat (now + seconds * 1000000)%Z), None, None)
  else if str_in action ["allow_session"; "allow_session_exact"] then
    if negb (otruthy session_id) then
      raise (ValueError "session approval requires a non-empty session_id")
    else
      let exact_hash := if String.eqb action "allow_session_exact"
                        then Some invocation_hash else None in
      mret (POLICY_DURATION_SESSION, None, session_id, exact_hash)
  else if String.eqb action "allow_forever" then
    mret (POLICY_DURATION_FOREVER, None, None, None)
  else raise (ValueError ("Unsupported confirmation action: " +:+ action)).

Definition is_exact_ops (inv : InvocationSummary) : bool :=
  String.eqb (inv_tool inv) OPS_COMMAND_POLICY_TOOL
  && String.eqb (inv_method inv) OPS_COMMAND_RUN_METHOD.

(** The two filters [matching_grant_decision] applies before selecting. *)
Definition eligible_matches (inv : InvocationSummary) (risk : RiskSpec)
    (matches : list GrantMatch) : list GrantMatch :=
  let matches :=
    if requires_once_duration (inv_tool inv) (inv_method inv) (Some (risk_class risk))
    then List.filter (λ m, is_deny m ||
           String.eqb (g_duration_type (gm_grant m)) POLICY_DURATION_ONCE) matches
    else matches in
  if is_policy_authorization_pair (inv_tool inv) (inv_method inv)
  then List.filter (λ m, otruthy (g_approval_id (gm_grant m))) matches
  else matches.

Definition deny_by_grant (grant : PolicyGrant) (risk : RiskSpec) : PolicyDecision :=
  {| decision := POLICY_DECISION_DENY; reason_code := "EXPLICIT_DENY";
     d_reason := "Denied by explicit grant rule"; d_risk := risk;
     matched_grant_id := Some (grant_id grant); confirm_request := None;
     d_details := [("grant_id", PStr (grant_id grant))]; d_approval_id := None;
     d_invocation_hash := None; d_confirmation_preview := None |}.
Definition allow_by_grant (grant : PolicyGrant) (inv : InvocationSummary) (risk : RiskSpec)
    : PolicyDecision :=
  {| decision := POLICY_DECISION_ALLOW; reason_code := "EXPLICIT_ALLOW";
     d_reason := "Allowed by explicit grant"; d_risk := risk;
     matched_grant_id := Some (grant_id grant); confirm_request := None;
     d_details := [("grant_id", PStr (grant_id grant))];
     d_approval_id := g_approval_id grant;
     d_invocation_hash := Some (inv_invocation_hash inv); d_confirmation_preview := None |}.

Definition matching_grant_decision (matches : list GrantMatch) (inv : InvocationSummary)
    (risk : RiskSpec) (consume_grants : bool) : PM (option PolicyDecision) :=
  match select_grant_match (eligible_matches inv risk matches) with
  | None => mret None
  | Some selected =>
      let grant := gm_grant selected in
      if is_deny selected then mret (Some (deny_by_grant grant risk))
      else if is_exact_ops inv then mret None
      else if consume_grants
              && negb (is_policy_authorization_pair (inv_tool inv) (inv_method inv)) then
        used ← consume_grant_use (grant_id grant);
        match used with
        | None => mret None
        | Some _ => mret (Some (allow_by_grant grant inv risk))
        end
      else mret (Some (allow_by_grant grant inv risk))
  end.

(** ** Selection *)

Lemma best_score_spec (l : list GrantMatch) m :
  m ∈ l → gm_score m ≤ foldr Nat.max 0 (map gm_score l).
Proof.
  induction l as [|x l IH]; intros Hm; [by apply elem_of_nil in Hm|].
  apply elem_of_cons in Hm as [->|Hm]; simpl; [lia|]. specialize (IH Hm). lia.
Qed.

Lemma best_score_attained (l : list GrantMatch) :
  l ≠ [] → ∃ m, m ∈ l ∧ gm_score m = foldr Nat.max 0 (map gm_score l).
Proof.
  induction l as [|x l IH]; intros Hl; [done|]. simpl.
  destruct (decide (l = [])) as [->|Hne].
  - exists x. split; [by left|simpl; lia].
  - destruct (IH Hne) as (m & Hm & E).
    destruct (Nat.max_spec (gm_score x) (foldr Nat.max 0 (map gm_score l)))
      as [[? ->]|[? ->]]; [exists m|exists x]; split; try done; [by right|by left].
Qed.

Lemma created_after_laws :
  (∀ a b c, created_after a b = false → created_after b c = false → created_after a c = false)
  ∧ (∀ a, created_after a a = false)
  ∧ (∀ a b, created_after a b = true → created_after b a = false).
Proof.
  unfold created_after. split_and!.
  - intros a b c H1 H2. apply negb_true_iff in H1, H2. rewrite <-str_leb_ltb in H1, H2.
    apply negb_true_iff. rewrite <-str_leb_ltb. eauto with minion.
  - intros a. apply str_ltb_irrefl.
  - intros a b H. apply negb_true_iff. rewrite <-str_leb_ltb. eauto with minion.
Qed.

Lemma select_none l : select_grant_match l = None ↔ l = [].
Proof.
  split; [|by intros ->]. destruct l as [|x l]; [done|]. unfold select_grant_match.
  destruct (best_score_attained (x :: l)) as (m & Hm & E); [done|].
  set (same := List.filter (λ m, Nat.eqb (gm_score m) _) (x :: l)).
  assert (m ∈ same) as Hs by (apply filter_elem; split; [done|by apply Nat.eqb_eq]).
  destruct (List.filter is_deny same) eqn:Ed; [|done].
  destruct same; [by apply elem_of_nil in Hs|done].
Qed.

(** The selected match, in full: one of the matches, of the best score; a
    deny when any match of the best score is a deny; and the most recently
    created among those. *)
Lemma select_spec l m :
  select_grant_match l = Some m →
  m ∈ l ∧ (∀ x, x ∈ l → gm_score x ≤ gm_score m) ∧
  (∀ x, x ∈ l → gm_score x = gm_score m → is_deny x = true → is_deny m = true) ∧
  (∀ x, x ∈ l → gm_score x = gm_score m → is_deny x = is_deny m →
        str_leb (g_created_at (gm_grant x)) (g_created_at (gm_grant m)) = true).
Proof.
  unfold select_grant_match. destruct l as [|x0 l0] eqn:El; [done|]. rewrite <-El.
  assert (l ≠ []) as Hne by (by rewrite El). clear El x0 l0.
  set (best := foldr Nat.max 0 (map gm_score l)).
  set (same := List.filter (λ m, Nat.eqb (gm_score m) best) l).
  set (pool := match List.filter is_deny same with [] => same | _ => List.filter is_deny same end).
  destruct created_after_laws as (Ht & Hr & Ha).
  destruct pool as [|p rest] eqn:Ep; [done|]. intros [= <-].
  pose proof (py_max_elem created_after p rest) as Hin.
  pose proof (py_max_ge created_after p rest Ht Hr Ha) as Hge.
  rewrite <-Ep in Hin, Hge. set (m := py_max created_after p rest) in *. clearbody m.
  assert (∀ x, x ∈ pool → x ∈ same ∧ (List.filter is_deny same ≠ [] → is_deny x = true)) as Hpool.
  { intros x. subst pool. destruct (List.filter is_deny same) as [|d ds] eqn:Ed.
    - intros Hx. split; [done|done].
    - rewrite <-Ed. intros Hx. apply filter_elem in Hx as [? ?]. done. }
  destruct (Hpool m Hin) as [Hms Hmd]. apply filter_elem in Hms as [Hml Hmb].
  apply Nat.eqb_eq in Hmb.
  assert (∀ x, x ∈ l → gm_score x = gm_score m → x ∈ same) as Hsame.
  { intros x Hx E. apply filter_elem. split; [done|]. apply Nat.eqb_eq. congruence. }
  split_and!.
  - done.
  - intros x Hx. rewrite Hmb. by apply best_score_spec.
  - intros x Hx E Hd. apply Hmd. intros Hnil.
    assert (x ∈ List.filter is_deny same) as Hxd by (apply filter_elem; auto).
    rewrite Hnil in Hxd. by apply elem_of_nil in Hxd.
  - intros x Hx E Hd. assert (x ∈ pool) as Hxp.
    { subst pool. destruct (List.filter is_deny same) as [|d ds] eqn:Ed; [by apply Hsame|].
      rewrite <-Ed. apply filter_elem. split; [by apply Hsame|].
      rewrite Hd. apply Hmd. done. }
    specialize (Hge x Hxp). unfold created_after in Hge.
    rewrite str_leb_ltb. by rewrite Hge.
Qed.
End Grants.

(** ** The rules' contracts *)

(** Precedence among matching grants.  Some match is selected whenever
    there is one, and it has the best specificity score, is a deny when any
    match of that score is a deny, and is the latest created of the matches
    of that score and effect. *)
Theorem select_grant_match_precedence l :
  l ≠ [] →
  ∃ m, select_grant_match l = Some m ∧ m ∈ l ∧
    (∀ x, x ∈ l → gm_score x ≤ gm_score m) ∧
    (∀ x, x ∈ l → gm_score x = gm_score m → is_deny x = true → is_deny m = true) ∧
    (∀ x, x ∈ l → gm_score x = gm_score m → is_deny x = is_deny m →
          str_leb (g_created_at (gm_grant x)) (g_created_at (gm_grant m)) = true).
Proof.
  intros Hl. destruct (select_grant_match l) as [m|] eqn:E.
  - exists m. split; [done|]. by apply select_spec.
  - by apply select_none in E.
Qed.

Definition demo_grant (effect created : string) : PolicyGrant :=
  {| grant_id := effect +:+ created; g_subject_id := "local"; g_effect := effect;
     g_tool := "file"; g_method := "*"; g_target_json := []; g_duration_type := "forever";
     g_expires_at := None; g_session_id := None; g_invocation_hash := None; g_max_uses := None;
     g_uses_count := 0; g_created_at := created; g_updated_at := created; g_revoked_at := None;
     g_reason := None; g_created_trace_id := None; g_risk_floor := None; g_approval_id := None |}.
Definition demo_match (effect created : string) : GrantMatch :=
  {| gm_grant := demo_grant effect created; gm_score := 8 |}.

Lemma select_grant_match_precedence_witness :
  ∃ m, select_grant_match [demo_match "allow" "2"; demo_match "deny" "1"] = Some m ∧
       is_deny m = true.
Proof.
  destruct (select_grant_match_precedence [demo_match "allow" "2"; demo_match "deny" "1"])
    as (m & Hs & _ & _ & Hd & _); [discriminate|].
  exists m. split; [exact Hs|]. apply (Hd (demo_match "deny" "1")); [right; left| |reflexivity].
  injection Hs as <-. reflexivity.
Defined.

(** What a validated grant input satisfies.  Its effect and duration are
    known ones; a session grant names a session; the actions that must be
    approved once, and the grants with a financial risk floor, have duration
    [once]; a [once] grant is bound to an invocation hash; an [until] grant
    has an expiry in canonical UTC form; and nothing but that expiry was
    changed. *)
Theorem validated_grant_sound `{PyEnv} gi gi' :
  validate_grant_input gi = Ok gi' →
  gi_effect gi' ∈ POLICY_GRANT_EFFECTS ∧ gi_duration_type gi' ∈ POLICY_DURATION_TYPES ∧
  (gi_duration_type gi' = POLICY_DURATION_SESSION → otruthy (gi_session_id gi') = true) ∧
  (requires_once_duration (gi_tool gi') (gi_method gi') (gi_risk_floor gi') = true →
   gi_duration_type gi' = POLICY_DURATION_ONCE) ∧
  (gi_duration_type gi' = POLICY_DURATION_ONCE → otruthy (gi_invocation_hash gi') = true) ∧
  (gi_duration_type gi' = POLICY_DURATION_UNTIL →
   ∃ t, gi_expires_at gi' = Some (isoformat t)) ∧
  gi' = with_expires_at gi (gi_expires_at gi').
Proof.
  unfold validate_grant_input.
  destruct (str_in (gi_effect gi) _) eqn:He; [|done].
  destruct (str_in (gi_duration_type gi) _) eqn:Hd; [|done]. cbn [negb].
  apply str_in_elem in He, Hd.
  destruct (_ && negb (otruthy (gi_session_id gi))) eqn:Hs; [by intros [=]|].
  destruct (requires_once_duration _ _ _ && _) eqn:Ho; [by intros [=]|].
  destruct (_ && negb (otruthy (gi_invocation_hash gi))) eqn:Hh; [by intros [=]|].
  pose proof (guard_implies _ _ Hs) as Hs'. pose proof (guard_implies _ _ Ho) as Ho'.
  pose proof (guard_implies _ _ Hh) as Hh'. rewrite !String.eqb_eq in *. clear Hs Ho Hh.
  destruct (String.eqb_spec (gi_duration_type gi) POLICY_DURATION_UNTIL) as [Eu|Eu].
  - destruct (otruthy (gi_expires_at gi)); cbn [negb]; [|by intros [=]].
    destruct (py_fromisoformat _) as [[loc [off|]]|]; intros [=]; subst gi'.
    destruct gi; simpl in *. split_and!; eauto.
  - intros [= <-]. destruct gi; simpl in *. split_and!; auto. done.
Qed.

Definition demo_until_input : PolicyGrantInput :=
  {| gi_effect := "allow"; gi_tool := "file"; gi_method := "write"; gi_target_json := [];
     gi_duration_type := "until"; gi_subject_id := "local";
     gi_expires_at := Some "2024-05-01T12:00:00+02:00";
     gi_session_id := None; gi_invocation_hash := None; gi_max_uses := None;
     gi_reason := None; gi_created_trace_id := None; gi_risk_floor := None;
     gi_approval_id := None |}.

Lemma validated_grant_sound_witness :
  validate_grant_input demo_until_input
    = Ok (with_expires_at demo_until_input (Some "2024-05-01T10:00:00+00:00")) ∧
  ∃ t, Some "2024-05-01T10:00:00+00:00" = Some (isoformat t).
Proof.
  split; [vm_compute; reflexivity|].
  destruct (validated_grant_sound demo_until_input
    (with_expires_at demo_until_input (Some "2024-05-01T10:00:00+00:00")))
    as (_ & _ & _ & _ & _ & Hu & _); [vm_compute; reflexivity|]. exact (Hu eq_refl).
Defined.

(** An [allow_until] approval of [n] seconds (600 when [n] is missing or
    zero, at least 1) yields an [until] grant that the store's text comparison
    treats as live exactly at the clock readings before the approval time plus
    that many seconds, and that is bound to no session or invocation. *)
Theorem allow_until_window `{PyEnv} session_id hash secs s g t0 n :
  let window := Z.max 1 (if Z.eqb (default 0%Z secs) 0 then 600 else default 0%Z secs) in
  py_clock (ticks s) = t0 →
  instant_ok (t0 + window * 1000000)%Z → instant_ok (py_clock n) →
  confirmation_grant_terms "allow_until" session_id hash secs s
    = (tick s, Ok (POLICY_DURATION_UNTIL, g_expires_at g, None, None)) →
  not_expired (isoformat (py_clock n)) g = (py_clock n <? t0 + window * 1000000)%Z.
Proof.
  intros window Ht0 Hw Hn Hterms. unfold confirmation_grant_terms, datetime_now in Hterms.
  munfold. simpl in Hterms. inversion Hterms as [Hexp]. rewrite Ht0 in Hexp.
  unfold not_expired. rewrite <-Hexp. by apply isoformat_ltb.
Qed.

Definition demo_ten_minutes : PolicyGrant :=
  {| grant_id := "g"; g_subject_id := "local"; g_effect := "allow"; g_tool := "file";
     g_method := "*"; g_target_json := []; g_duration_type := "until";
     g_expires_at := Some "2024-04-25T00:10:00+00:00"; g_session_id := None;
     g_invocation_hash := None; g_max_uses := None; g_uses_count := 0;
     g_created_at := ""; g_updated_at := ""; g_revoked_at := None; g_reason := None;
     g_created_trace_id := None; g_risk_floor := None; g_approval_id := None |}.

Lemma allow_until_window_witness :
  not_expired (isoformat (py_clock 599)) demo_ten_minutes = true ∧
  not_expired (isoformat (py_clock 600)) demo_ten_minutes = false.
Proof.
  split;
    (erewrite (allow_until_window None "h" None empty_store);
     [| reflexivity | vm_compute; split; [discriminate|reflexivity]
      | vm_compute; split; [discriminate|reflexivity] | vm_compute; reflexivity];
     vm_compute; reflexivity).
Defined.
