(* ===== verification/PolicyRules.v ===== *)
(** Configured rules and tool risks ([modules/policy/runtime/action_policy.py]):
    selection of the rule for a tool, merging of a command's risk into the
    registered one, the risk registry derived from tool declarations and its
    run-scoped binding. *)

From S2P Require Import Prelude PyValue PolicyModels.
From Stdlib Require Import Ascii.

(** ** Rules *)

Definition risk_order (risk : string) : result policy_exn nat :=
  match POLICY_RISK_ORDER risk with
  | Some n => Ok n
  | None => Raise (KeyError risk)
  end.

Definition rule_priority (mode : string) : result policy_exn nat :=
  if String.eqb mode "auto" then Ok 0
  else if String.eqb mode "ask" then Ok 1
  else if String.eqb mode "block" then Ok 2
  else Raise (KeyError mode).

Definition rule_target (inv : InvocationSummary) : string :=
  if String.eqb (inv_method inv) "default" then inv_tool inv
  else inv_tool inv +:+ "." +:+ inv_method inv.

(** Whether one rule matches; looking up an unknown risk class raises. *)
Definition rule_matches (tool_name : string) (risk : RiskSpec) (rule : PolicyRule)
    : result policy_exn bool :=
  if negb (String.eqb (rule_tool_name rule) tool_name) then Ok false
  else if negb (truthy (rule_min_risk_class rule)) then Ok true
  else actual ← risk_order (risk_class risk);
       floor ← risk_order (rule_min_risk_class rule);
       Ok (floor <=? actual).

Fixpoint filter_result {A} (p : A → result policy_exn bool) (l : list A)
    : result policy_exn (list A) :=
  match l with
  | [] => Ok []
  | x :: l' =>
      keep ← p x;
      rest ← filter_result p l';
      Ok (if keep : bool then x :: rest else rest)
  end.

(** [max(matches, key=…)], where computing a key may raise. *)
Fixpoint keyed {A} (key : A → result policy_exn nat) (l : list A)
    : result policy_exn (list (nat * A)) :=
  match l with
  | [] => Ok []
  | x :: l' =>
      k ← key x;
      rest ← keyed key l';
      Ok ((k, x) :: rest)
  end.
Definition higher {A} (a b : nat * A) : bool := b.1 <? a.1.

Definition select_policy_rule (inv : InvocationSummary) (risk : RiskSpec) (config : PolicyConfig)
    : result policy_exn (option PolicyRule) :=
  matches ← filter_result (rule_matches (rule_target inv) risk) (cfg_rules config);
  ranked ← keyed (λ r, rule_priority (rule_mode r)) matches;
  match ranked with
  | [] => Ok None
  | m :: rest => Ok (Some (py_max higher m rest).2)
  end.

Definition blocked_rule_decision (matching_rule : option PolicyRule) (risk : RiskSpec)
    : option PolicyDecision :=
  match matching_rule with
  | None => None
  | Some rule =>
      if negb (String.eqb (rule_mode rule) "block") then None
      else Some
        {| decision := POLICY_DECISION_DENY; reason_code := "CONFIG_RULE_BLOCK";
           d_reason := "Denied by configured exact-tool rule"; d_risk := risk;
           matched_grant_id := None; confirm_request := None;
           d_details := [("rule_mode", PStr "block"); ("tool_name", PStr (rule_tool_name rule))];
           d_approval_id := None; d_invocation_hash := None; d_confirmation_preview := None |}
  end.

Definition merge_policy_risk (registered : RiskSpec) (command : option RiskSpec)
    : result policy_exn RiskSpec :=
  match command with
  | None => Ok registered
  | Some c =>
      oc ← risk_order (risk_class c);
      orr ← risk_order (risk_class registered);
      if oc <=? orr then Ok registered
      else Ok {| risk_class := risk_class c; side_effects := side_effects registered;
                 reversibility := reversibility registered;
                 default_confirm := default_confirm registered;
                 sensitive_targets := sensitive_targets registered |}
  end.

(** ** Risks of declared tools *)

(** The attributes of a tool declaration the derivation reads; an absent
    [min_scope] or policy risk is the empty string. *)
Record ToolDecl := {
  tool_min_scope : string;
  tool_dangerous : bool;
  tool_idempotent : bool;
  tool_policy_risk : string;
}.

Definition descriptor_risk (d : PolicyAuthorizationDescriptor) : RiskSpec :=
  {| risk_class := pad_risk_class d; side_effects := pad_side_effects d;
     reversibility := pad_reversibility d; default_confirm := true;
     sensitive_targets := [] |}.

Definition derive_tool_risk_spec (tool_name : string) (tool : ToolDecl) : RiskSpec :=
  let '(tool_id, method) := match py_rpartition "."%char tool_name with
                            | Some (l, r) => (l, r)
                            | None => ("", tool_name)
                            end in
  match POLICY_AUTHORIZATION_DESCRIPTORS tool_id method with
  | Some d => descriptor_risk d
  | None =>
      let min_scope := py_upper (py_strip
        (if truthy (tool_min_scope tool) then tool_min_scope tool else "READ_ONLY")) in
      let dangerous := tool_dangerous tool
        || str_in (py_lower (py_strip (tool_policy_risk tool))) ["high"; "critical"] in
      let idempotent := tool_idempotent tool in
      if dangerous then
        {| risk_class := POLICY_RISK_DESTRUCTIVE; side_effects := "local";
           reversibility := "irreversible"; default_confirm := true; sensitive_targets := [] |}
      else if String.eqb min_scope "READ_ONLY" then
        {| risk_class := POLICY_RISK_READ; side_effects := "none";
           reversibility := "reversible"; default_confirm := false; sensitive_targets := [] |}
      else if String.eqb min_scope "WRITE_SAFE" then
        {| risk_class := POLICY_RISK_WRITE; side_effects := "local";
           reversibility := if idempotent then "reversible" else "unknown";
           default_confirm := negb idempotent; sensitive_targets := [] |}
      else if str_in min_scope ["POWER_USER"; "UI_AUTOMATION"] then
        {| risk_class := POLICY_RISK_EXEC; side_effects := "local";
           reversibility := "unknown"; default_confirm := true; sensitive_targets := [] |}
      else
        {| risk_class := POLICY_RISK_WRITE; side_effects := "local";
           reversibility := "unknown"; default_confirm := negb idempotent;
           sensitive_targets := [] |}
  end.

(** The registry is a dictionary from tool keys to risks. *)
Definition derive_tool_risk_registry (tools : list (string * ToolDecl)) : gmap string RiskSpec :=
  fold_left (λ risks nt,
    let risk := derive_tool_risk_spec nt.1 nt.2 in
    let risks := <[nt.1 := risk]> risks in
    if str_mem "."%char nt.1 then risks else <[nt.1 +:+ ".default" := risk]> risks)
    tools ∅.

(** [with temporary_tool_risks(registry, tools)]: what the enclosed code sees,
    and the restoration on leaving it, whatever the registry then is. *)
Definition temporary_enter (tools : list (string * ToolDecl)) (registry : gmap string RiskSpec)
    : gmap string RiskSpec :=
  derive_tool_risk_registry tools ∪ registry.
Definition temporary_previous (tools : list (string * ToolDecl))
    (registry : gmap string RiskSpec) : list (string * option RiskSpec) :=
  map (λ kv, (kv.1, registry !! kv.1)) (map_to_list (derive_tool_risk_registry tools)).
Definition temporary_exit (previous : list (string * option RiskSpec))
    (registry : gmap string RiskSpec) : gmap string RiskSpec :=
  fold_left (λ reg kp,
    match kp.2 with
    | None => delete kp.1 reg
    | Some spec => <[kp.1 := spec]> reg
    end) previous registry.
Definition temporary_tool_risks (tools : list (string * ToolDecl))
    (body : gmap string RiskSpec → gmap string RiskSpec) (registry : gmap string RiskSpec)
    : gmap string RiskSpec :=
  temporary_exit (temporary_previous tools registry) (body (temporary_enter tools registry)).

(** ** Lemmas *)

Lemma descriptor_risk_from_dict d :
  RiskSpec_from_dict
    [("risk_class", PStr (pad_risk_class d)); ("side_effects", PStr (pad_side_effects d));
     ("reversibility", PStr (pad_reversibility d)); ("default_confirm", PBool true)]
  = Ok (descriptor_risk d).
Proof. reflexivity. Qed.

Lemma risk_order_Ok r n : risk_order r = Ok n ↔ POLICY_RISK_ORDER r = Some n.
Proof. unfold risk_order. destruct (POLICY_RISK_ORDER r); split; naive_solver. Qed.

Lemma keyed_elem {A} (key : A → result policy_exn nat) l kl :
  keyed key l = Ok kl →
  ∀ k x, (k, x) ∈ kl ↔ x ∈ l ∧ key x = Ok k.
Proof.
  revert kl. induction l as [|y l IH]; intros kl; simpl.
  { intros [= <-] k x. rewrite !elem_of_nil. naive_solver. }
  unfold mbind, result_bind. destruct (key y) as [ky|] eqn:Ey; [|done].
  destruct (keyed key l) as [rest|] eqn:Er; [|done]. intros [= <-] k x.
  rewrite !elem_of_cons, (IH rest eq_refl). split.
  - intros [[= -> ->]|[? ?]]; auto.
  - intros [[->|?] Hk]; [left; congruence|auto].
Qed.

Lemma filter_result_elem {A} (p : A → result policy_exn bool) l l' :
  filter_result p l = Ok l' → ∀ x, x ∈ l' ↔ x ∈ l ∧ p x = Ok true.
Proof.
  revert l'. induction l as [|y l IH]; intros l'; simpl.
  { intros [= <-] x. rewrite elem_of_nil. naive_solver. }
  unfold mbind, result_bind. destruct (p y) as [b|] eqn:Ey; [|done].
  destruct (filter_result p l) as [rest|] eqn:Er; [|done]. intros [= <-] x.
  specialize (IH rest eq_refl x). destruct b; rewrite ?elem_of_cons, IH; split.
  - intros [->|[? ?]]; auto.
  - intros [[->|?] Hx]; auto.
  - intros [? ?]; auto.
  - intros [[->|?] Hx]; [congruence|auto].
Qed.

Lemma higher_laws {A} :
  (∀ a b c : nat * A, higher a b = false → higher b c = false → higher a c = false) ∧
  (∀ a : nat * A, higher a a = false) ∧
  (∀ a b : nat * A, higher a b = true → higher b a = false).
Proof.
  unfold higher. split_and!; intros *; rewrite ?Nat.ltb_ge, ?Nat.ltb_lt; lia.
Qed.

(** The selected rule is one that matches, of the highest priority. *)
Lemma select_policy_rule_spec inv risk config r :
  select_policy_rule inv risk config = Ok (Some r) →
  r ∈ cfg_rules config ∧ rule_matches (rule_target inv) risk r = Ok true ∧
  ∃ k, rule_priority (rule_mode r) = Ok k ∧
    ∀ r' k', r' ∈ cfg_rules config → rule_matches (rule_target inv) risk r' = Ok true →
      rule_priority (rule_mode r') = Ok k' → k' ≤ k.
Proof.
  unfold select_policy_rule, mbind, result_bind.
  destruct (filter_result _ _) as [ms|] eqn:Ef; [|done].
  destruct (keyed _ ms) as [ranked|] eqn:Ek; [|done].
  destruct ranked as [|m rest]; [done|]. intros [= <-].
  pose proof (filter_result_elem _ _ _ Ef) as Hf. pose proof (keyed_elem _ _ _ Ek) as Hk.
  destruct (@higher_laws PolicyRule) as (Ht & Hr & Ha).
  pose proof (py_max_elem higher m rest) as Hin.
  pose proof (py_max_ge higher m rest Ht Hr Ha) as Hge.
  destruct (py_max higher m rest) as [k r]; simpl in *.
  apply Hk in Hin as [Hms Hkey]. apply Hf in Hms as [Hcfg Hm].
  split_and!; [done|done|]. exists k. split; [done|]. intros r' k' Hr' Hm' Hk'.
  assert ((k', r') ∈ m :: rest) as Hin' by (apply Hk; split; [by apply Hf|done]).
  specialize (Hge _ Hin'). unfold higher in Hge. simpl in Hge. apply Nat.ltb_ge in Hge. lia.
Qed.

Lemma select_policy_rule_none inv risk config :
  select_policy_rule inv risk config = Ok None →
  ∀ r, r ∈ cfg_rules config → rule_matches (rule_target inv) risk r ≠ Ok true.
Proof.
  unfold select_policy_rule, mbind, result_bind.
  destruct (filter_result _ _) as [ms|] eqn:Ef; [|done].
  destruct (keyed _ ms) as [ranked|] eqn:Ek; [|done].
  destruct ranked as [|m rest]; [|done]. intros _ r Hr Hm.
  pose proof (filter_result_elem _ _ _ Ef r) as Hf.
  assert (r ∈ ms) as Hms by (by apply Hf).
  destruct ms as [|x ms]; [by apply elem_of_nil in Hms|].
  simpl in Ek. unfold mbind, result_bind in Ek.
  destruct (rule_priority _); [|done]. destruct (keyed _ ms); done.
Qed.

Lemma temporary_exit_other previous registry k :
  k ∉ map fst previous → temporary_exit previous registry !! k = registry !! k.
Proof.
  unfold temporary_exit. revert registry.
  induction previous as [|[k' o] previous IH]; intros registry Hk; simpl in *; [done|].
  apply not_elem_of_cons in Hk as [Hne Hk]. rewrite IH by done.
  destruct o; [by rewrite lookup_insert_ne|by rewrite lookup_delete_ne].
Qed.

Lemma temporary_exit_in previous registry k o :
  NoDup (map fst previous) → (k, o) ∈ previous →
  temporary_exit previous registry !! k = o.
Proof.
  unfold temporary_exit. revert registry.
  induction previous as [|[k' o'] previous IH]; intros registry Hnd Hin;
    [by apply elem_of_nil in Hin|].
  simpl in *. apply NoDup_cons in Hnd as [Hk' Hnd].
  apply elem_of_cons in Hin as [[= -> ->]|Hin]; [|by apply IH].
  change (fold_left _ previous ?r) with (temporary_exit previous r).
  rewrite temporary_exit_other by done.
  destruct o'; [apply lookup_insert_eq|apply lookup_delete_eq].
Qed.

Lemma temporary_previous_keys tools registry :
  map fst (temporary_previous tools registry)
  = map fst (map_to_list (derive_tool_risk_registry tools)).
Proof. unfold temporary_previous. rewrite map_map. by apply map_ext. Qed.

(** Merging a command's risk into the registered one takes the higher of
    the two classes in the risk order and never lowers it; every other field is
    the registered one. *)
Lemma merge_policy_risk_max registered command oc orr :
  POLICY_RISK_ORDER (risk_class command) = Some oc →
  POLICY_RISK_ORDER (risk_class registered) = Some orr →
  ∃ r, merge_policy_risk registered (Some command) = Ok r ∧
    POLICY_RISK_ORDER (risk_class r) = Some (Nat.max oc orr) ∧
    side_effects r = side_effects registered ∧ reversibility r = reversibility registered ∧
    default_confirm r = default_confirm registered ∧
    sensitive_targets r = sensitive_targets registered.
Proof.
  intros Hc Hr. unfold merge_policy_risk, mbind, result_bind, risk_order. rewrite Hc, Hr.
  destruct (Nat.leb_spec oc orr); eexists; (split; [done|]); simpl;
    (split; [rewrite ?Hc, ?Hr; f_equal; lia|done]).
Qed.

Definition demo_risk (cls : string) : RiskSpec :=
  {| risk_class := cls; side_effects := "local"; reversibility := "unknown";
     default_confirm := true; sensitive_targets := [] |}.

(** The strictest matching rule decides.  When rule selection returns, a
    matching [block] rule makes the selected rule a [block] rule, and without
    one a matching [ask] rule keeps [auto] rules from being selected. *)
Theorem strictest_rule_selected inv risk config sel r :
  select_policy_rule inv risk config = Ok sel →
  r ∈ cfg_rules config → rule_matches (rule_target inv) risk r = Ok true →
  ∃ r', sel = Some r' ∧
    (rule_mode r = "block" → rule_mode r' = "block") ∧
    (rule_mode r = "ask" → rule_mode r' = "ask" ∨ rule_mode r' = "block").
Proof.
  intros Hsel Hr Hm. destruct sel as [r'|].
  2: { exfalso. by eapply select_policy_rule_none. }
  exists r'. split; [done|].
  destruct (select_policy_rule_spec _ _ _ _ Hsel) as (_ & _ & k & Hk & Hmax).
  unfold rule_priority in Hk.
  split; intros Hmode; specialize (Hmax r _ Hr Hm ltac:(rewrite Hmode; reflexivity));
    destruct (String.eqb_spec (rule_mode r') "auto"), (String.eqb_spec (rule_mode r') "ask"),
      (String.eqb_spec (rule_mode r') "block"); simplify_eq/=; auto; lia.
Qed.

Definition demo_inv : InvocationSummary :=
  {| invocation_id := "inv-1"; inv_tool := "shell"; inv_method := "run"; inv_args := [];
     inv_invocation_hash := "h" |}.
Definition demo_rule (mode floor : string) : PolicyRule :=
  {| rule_tool_name := "shell.run"; rule_min_risk_class := floor; rule_mode := mode |}.
Definition demo_config (rules : list PolicyRule) : PolicyConfig :=
  {| cfg_mode := POLICY_MODE_ENFORCE; cfg_default_action := "require_confirm";
     cfg_default_duration := POLICY_DURATION_ONCE; cfg_sandbox_path_prefixes := ["/sandbox"];
     cfg_allow_read_only_without_prompt := true; cfg_rules := rules;
     cfg_affirmative_tokens := ["yes"]; cfg_negative_tokens := ["no"];
     cfg_subject_id_default := "local"; cfg_decision_log_enabled := true |}.

Lemma strictest_rule_selected_witness :
  ∃ r', select_policy_rule demo_inv (demo_risk "exec")
          (demo_config [demo_rule "auto" ""; demo_rule "block" "write"; demo_rule "ask" ""])
        = Ok (Some r') ∧ rule_mode r' = "block".
Proof.
  exists (demo_rule "block" "write"). split; [vm_compute; reflexivity|].
  destruct (strictest_rule_selected demo_inv (demo_risk "exec")
    (demo_config [demo_rule "auto" ""; demo_rule "block" "write"; demo_rule "ask" ""])
    (Some (demo_rule "block" "write")) (demo_rule "block" "write")) as (r' & Hr & Hb & _);
    [vm_compute; reflexivity|right; left|vm_compute; reflexivity|].
  injection Hr as <-. exact (Hb eq_refl).
Defined.

(** Run-scoped tool risks are undone on exit.  Whatever the enclosed code
    does to the registry, every key the declarations bind has afterwards the
    value (or absence) it had before, and every other key is as the enclosed
    code left it. *)
Theorem temporary_tool_risks_restores tools body registry k :
  (is_Some (derive_tool_risk_registry tools !! k) →
   temporary_tool_risks tools body registry !! k = registry !! k) ∧
  (derive_tool_risk_registry tools !! k = None →
   temporary_tool_risks tools body registry !! k = body (temporary_enter tools registry) !! k).
Proof.
  unfold temporary_tool_risks. split.
  - intros [v Hv]. apply temporary_exit_in.
    + rewrite temporary_previous_keys. apply NoDup_fst_map_to_list.
    + unfold temporary_previous. apply list_elem_of_In, in_map_iff. exists (k, v).
      split; [done|]. by apply list_elem_of_In, elem_of_map_to_list.
  - intros Hn. apply temporary_exit_other. rewrite temporary_previous_keys.
    intros Hin. apply list_elem_of_In, in_map_iff in Hin as ([k' v] & <- & Hin).
    apply list_elem_of_In, elem_of_map_to_list in Hin. simpl in Hn. congruence.
Qed.
