(* ===== verification/PolicyConfirm.v ===== *)
(** Confirmation logic ([modules/policy/runtime/confirmation.py]): the exact
    confirmations of sensitive actions, the preflight checks, the reading of a
    free-text reply and the confirmation request shown to the operator. *)

From S2P Require Import Prelude PyValue Timestamps PolicyModels PolicyStore PolicyGrants.

Definition is_exact_blockchain_send (tool method : string) : bool :=
  String.eqb tool BLOCKCHAIN_POLICY_TOOL && String.eqb method BLOCKCHAIN_SEND_METHOD.
Definition is_exact_ops_command (tool method : string) : bool :=
  String.eqb tool OPS_COMMAND_POLICY_TOOL && String.eqb method OPS_COMMAND_RUN_METHOD.

Definition _BLOCKCHAIN_PREVIEW_ERROR_REASONS : list string :=
  ["request_schema"; "preparation_digest"; "call_context"; "calldata_limit"; "preview_limit"].

(** ** Replies *)

Definition _normalize_confirmation_token (value : string) : string :=
  let token := py_rstrip_chars ".,!?" (py_lower (py_strip value)) in
  py_join " " (py_split token).

Definition token_set (tokens : list string) : list string :=
  List.filter truthy (map _normalize_confirmation_token tokens).

Definition parse_confirmation_response (text : string)
    (affirmative_tokens negative_tokens : option (list string)) : string :=
  let normalized := _normalize_confirmation_token text in
  if negb (truthy normalized) then POLICY_CONFIRM_RESPONSE_UNCLEAR
  else
    let affirmative := token_set
      (default (cfg_affirmative_tokens default_PolicyConfig) affirmative_tokens) in
    let negative := token_set
      (default (cfg_negative_tokens default_PolicyConfig) negative_tokens) in
    if str_in normalized affirmative && negb (str_in normalized negative)
    then POLICY_CONFIRM_RESPONSE_AFFIRM
    else if str_in normalized negative && negb (str_in normalized affirmative)
    then POLICY_CONFIRM_RESPONSE_DENY
    else POLICY_CONFIRM_RESPONSE_UNCLEAR.

(** ** The request shown to the operator *)

Definition build_confirm_request (inv : InvocationSummary) (ctx : ContextSummary)
    (risk : RiskSpec) (target_scope : dict) : dict :=
  let tool := ("tool", PStr (inv_tool inv)) in
  let method := ("method", PStr (inv_method inv)) in
  let target := ("target", PDict target_scope) in
  let scope_preview := PDict
    [("allow_once", PDict [tool; method; ("invocation_hash", PStr (inv_invocation_hash inv))]);
     ("allow_until", PDict [tool; method; target]);
     ("allow_session", PDict [tool; method; target;
                              ("session_id", ostr_val (ctx_session_id ctx))]);
     ("allow_forever", PDict [tool; method; target])] in
  [("trace_id", ostr_val (ctx_trace_id ctx));
   ("invocation_id", PStr (invocation_id inv));
   ("summary", PDict [tool; method; ("args", PDict (sanitize_args (inv_args inv)))]);
   ("risk", PDict [("risk_class", PStr (risk_class risk));
                   ("side_effects", PStr (side_effects risk));
                   ("reversibility", PStr (reversibility risk))]);
   ("suggested_choices", PList
     [PDict [("action", PStr "allow_once"); ("label", PStr "Allow once")];
      PDict [("action", PStr "allow_until"); ("label", PStr "Allow for 10 minutes");
             ("until_seconds", PInt 600)];
      PDict [("action", PStr "allow_session"); ("label", PStr "Allow for this session")];
      PDict [("action", PStr "allow_forever"); ("label", PStr "Allow forever (scoped)")];
      PDict [("action", PStr "deny"); ("label", PStr "Deny")]]);
   ("scope_preview", scope_preview);
   ("deny_option", PDict [("action", PStr "deny")])].

(** ** Preflight *)

Definition with_hash (h : string) (d : PolicyDecision) : PolicyDecision :=
  {| decision := decision d; reason_code := reason_code d; d_reason := d_reason d;
     d_risk := d_risk d; matched_grant_id := matched_grant_id d;
     confirm_request := confirm_request d; d_details := d_details d;
     d_approval_id := d_approval_id d; d_invocation_hash := Some h;
     d_confirmation_preview := d_confirmation_preview d |}.
Definition with_details (details : dict) (d : PolicyDecision) : PolicyDecision :=
  {| decision := decision d; reason_code := reason_code d; d_reason := d_reason d;
     d_risk := d_risk d; matched_grant_id := matched_grant_id d;
     confirm_request := confirm_request d; d_details := details;
     d_approval_id := d_approval_id d; d_invocation_hash := d_invocation_hash d;
     d_confirmation_preview := d_confirmation_preview d |}.

Definition blockchain_preview_invalid_decision (invocation_hash : string) (risk : RiskSpec)
    (reason : option string) : PolicyDecision :=
  with_details
    [("reason", PStr (match reason with
                      | Some r => if str_in r _BLOCKCHAIN_PREVIEW_ERROR_REASONS then r
                                  else "request_schema"
                      | None => "request_schema"
                      end))]
    (with_hash invocation_hash
      (mk_decision POLICY_DECISION_DENY "BLOCKCHAIN_CONFIRMATION_PREVIEW_INVALID"
         BLOCKCHAIN_CONFIRMATION_PREVIEW_INVALID_MESSAGE risk)).

(** The checks on the preview and on the trusted subject and session. *)
Definition preflight_preview (inv : InvocationSummary) (ctx : ContextSummary) (risk : RiskSpec)
    (confirmation_preview : option dict) (confirmation_preview_error : option string)
    : option PolicyDecision :=
  if is_exact_blockchain_send (inv_tool inv) (inv_method inv) then
    match confirmation_preview with
    | None => Some (blockchain_preview_invalid_decision (inv_invocation_hash inv) risk
                      confirmation_preview_error)
    | Some _ => None
    end
  else match POLICY_AUTHORIZATION_DESCRIPTORS (inv_tool inv) (inv_method inv) with
  | Some descriptor =>
      if match pad_required_subject_id descriptor with
         | Some req => negb (ostr_eqb (ctx_subject_id ctx) (Some req))
         | None => false
         end
         || pad_requires_session descriptor && negb (otruthy (ctx_session_id ctx))
      then Some (with_hash (inv_invocation_hash inv)
             (mk_decision POLICY_DECISION_DENY "SUBJECT_UNAVAILABLE"
                "Authorization requires the trusted subject and session." risk))
      else match confirmation_preview with
           | None => Some (with_hash (inv_invocation_hash inv)
               (mk_decision POLICY_DECISION_DENY
                  (py_upper (inv_tool inv) +:+ "_CONFIRMATION_PREVIEW_INVALID")
                  "Approval preview could not be verified." risk))
           | Some _ => None
           end
  | None => None
  end.

Definition authorization_preflight_decision (inv : InvocationSummary) (ctx : ContextSummary)
    (risk : RiskSpec) (mode : string) (confirmation_preview : option dict)
    (confirmation_preview_error : option string) : option PolicyDecision :=
  match preflight_preview inv ctx risk confirmation_preview confirmation_preview_error with
  | Some d => Some d
  | None =>
      if (is_policy_authorization_pair (inv_tool inv) (inv_method inv)
          || is_exact_ops_command (inv_tool inv) (inv_method inv))
         && negb (str_in mode [POLICY_MODE_DISABLED; POLICY_MODE_ENFORCE;
                               POLICY_MODE_ENFORCE_SAFE])
      then
        let action := if is_exact_ops_command (inv_tool inv) (inv_method inv)
                      then "operations command"
                      else inv_tool inv +:+ " " +:+ inv_method inv in
        Some (with_details [("mode", PStr mode)] (with_hash (inv_invocation_hash inv)
          (mk_decision POLICY_DECISION_DENY "POLICY_MODE_UNSUPPORTED"
             ("Enforcing policy is required for " +:+ action +:+ ".") risk)))
      else None
  end.

Section Confirm.
Context {Env : PyEnv} {Bc : BlockchainPreview}.

(** The preview stored with an operations command. *)
Definition ops_preview (args : dict) : result policy_exn dict :=
  argv ← py_list (default (PList []) (dget args "argv"));
  Ok [("plan_id", PStr (dget_str args "plan_id" "")); ("plan_hash", PStr (dget_str args "plan_hash" ""));
   ("target_id", PStr (dget_str args "target_id" ""));
   ("target_revision", dget_none args "target_revision");
   ("argv", PList argv);
   ("cwd", PStr (dget_str args "cwd" ""));
   ("timeout_seconds", dget_none args "timeout_seconds");
   ("expires_at", PStr (dget_str args "expires_at" ""))].

Definition get_or_create_exact_confirmation (inv : InvocationSummary) (ctx : ContextSummary)
    (subject_id : string) (confirmation_preview : option dict)
    : PM PendingPolicyConfirmation :=
  match POLICY_AUTHORIZATION_DESCRIPTORS (inv_tool inv) (inv_method inv) with
  | Some descriptor =>
      match confirmation_preview with
      | None => raise AssertionError
      | Some preview =>
          get_or_create_pending_confirmation subject_id (inv_tool inv) (inv_method inv)
            (inv_invocation_hash inv) (invocation_id inv) (ctx_trace_id ctx)
            (ctx_session_id ctx) (dpop preview "display_lines")
            (pad_confirmation_ttl_seconds descriptor)
      end
  | None =>
      preview ← lift_result (ops_preview (inv_args inv));
      get_or_create_pending_confirmation subject_id (inv_tool inv) (inv_method inv)
        (inv_invocation_hash inv) (invocation_id inv) (ctx_trace_id ctx)
        (ctx_session_id ctx) preview
        OPS_COMMAND_CONFIRMATION_TTL_SECONDS
  end.

Definition resolve_exact_ops_decision (inv : InvocationSummary) (ctx : ContextSummary)
    (subject_id : string) (risk : RiskSpec) : PM (option PolicyDecision) :=
  grant ← resolve_matching_active_grant_for_use subject_id (inv_tool inv) (inv_method inv)
            (inv_invocation_hash inv) (ctx_session_id ctx);
  match grant with
  | None => mret None
  | Some g => mret (Some
      {| decision := POLICY_DECISION_ALLOW; reason_code := "EXACT_PENDING_ALLOW";
         d_reason := "Allowed by exact pending confirmation"; d_risk := risk;
         matched_grant_id := Some (grant_id g); confirm_request := None;
         d_details := [("grant_id", PStr (grant_id g));
                       ("duration_type", PStr (g_duration_type g))];
         d_approval_id := g_approval_id g;
         d_invocation_hash := Some (inv_invocation_hash inv);
         d_confirmation_preview := None |})
  end.

(** [confirm] is the service's confirmation decision for a reason code and a
    reason. *)
Definition resolve_exact_authorization_decision (inv : InvocationSummary)
    (ctx : ContextSummary) (subject_id : string) (risk : RiskSpec)
    (confirm : string → string → PM PolicyDecision) : PM (option PolicyDecision) :=
  if is_policy_authorization_pair (inv_tool inv) (inv_method inv) then
    d ← confirm "EXACT_AUTHORIZATION_REQUIRED" "Exact authorization is required for this action";
    mret (Some d)
  else if negb (is_exact_ops_command (inv_tool inv) (inv_method inv)) then mret None
  else
    decided ← resolve_exact_ops_decision inv ctx subject_id risk;
    match decided with
    | Some d => mret (Some d)
    | None =>
        d ← confirm "EXACT_AUTHORIZATION_REQUIRED"
              "Policy confirmation is required for this exact operations command";
        mret (Some d)
    end.
End Confirm.
