(* ===== verification/PolicyService.v ===== *)
(** The policy service ([modules/policy/runtime/service.py], class [PolicyCtl]):
    normalization of invocations and contexts, risk resolution, grant matching,
    and the decision procedure [check]. *)

From S2P Require Import Prelude PyValue Timestamps PolicyModels PolicyStore PolicyGrants PolicyRules PolicyConfirm.
From Stdlib Require Import Ascii.

(** ** Reading arguments *)

Definition _opt_str (v : pyval) : option string :=
  match v with
  | PNone => None
  | _ => let text := py_strip (py_str v) in if truthy text then Some text else None
  end.

Definition _arg_path (args : dict) : option string :=
  match _opt_str (dget_none args "path") with
  | Some t => Some t
  | None => _opt_str (dget_none args "root")
  end.

Definition _arg_command (args : dict) : option string :=
  match dget_none args "argv" with
  | PList argv => _opt_str (PStr (py_join " " (map py_str argv)))
  | _ => _opt_str (dget_none args "command")
  end.

(** An invocation or context is passed as a dictionary or as an object; the
    attributes of an object are listed by name. *)
Inductive raw : Type :=
| RawDict (d : dict)
| RawObject (attrs : dict).

(** [PolicyCtl]: its configuration and risk registry; its store is the world. *)
Record PolicyCtl := {
  ctl_config : PolicyConfig;
  ctl_registry : gmap string RiskSpec;
}.

Definition register_risk (ctl : PolicyCtl) (key : string) (spec : RiskSpec) : PolicyCtl :=
  {| ctl_config := ctl_config ctl; ctl_registry := <[key := spec]> (ctl_registry ctl) |}.

Definition _baseline_allow_decision (mode : string) (risk : RiskSpec)
    (allow_read_only is_sensitive_target : bool) : option PolicyDecision :=
  if String.eqb mode POLICY_MODE_DISABLED then
    Some (mk_decision POLICY_DECISION_ALLOW "POLICY_DISABLED" "Policy mode is disabled" risk)
  else if String.eqb (risk_class risk) POLICY_RISK_READ && allow_read_only
          && negb is_sensitive_target then
    Some (mk_decision POLICY_DECISION_ALLOW "READ_ONLY_ALLOW"
            "Read-only operation allowed by default" risk)
  else None.

Definition _confirm_reason (ctx : ContextSummary) (risk : RiskSpec) (mode : string)
    (config : PolicyConfig) (is_sensitive_target : bool) : option (string * string) :=
  if is_sensitive_target then
    Some ("SENSITIVE_TARGET", "Sensitive target requires confirmation")
  else if String.eqb (py_lower (py_strip (str_or (ctx_mode_name ctx) ""))) "plan"
          && str_in (risk_class risk) [POLICY_RISK_WRITE; POLICY_RISK_STATE_CHANGE;
               POLICY_RISK_EXEC; POLICY_RISK_SECURITY; POLICY_RISK_FINANCIAL;
               POLICY_RISK_DESTRUCTIVE] then
    Some ("PLAN_MODE_CONFIRM", "Plan mode requires confirmation for non-read side effects")
  else if str_in (risk_class risk) POLICY_HIGH_CONFIRM_RISKS then
    Some ("HIGH_RISK", "High-risk action requires confirmation")
  else if str_in (risk_class risk) POLICY_SIDE_EFFECT_CONFIRM_RISKS
          && negb (String.eqb (side_effects risk) POLICY_SIDE_EFFECT_NONE) then
    Some ("SIDE_EFFECTS_CONFIRM", "Action with side effects requires confirmation")
  else if String.eqb (reversibility risk) POLICY_REVERSIBILITY_UNKNOWN
          && negb (String.eqb (risk_class risk) POLICY_RISK_READ) then
    Some ("UNKNOWN_REVERSIBILITY", "Unknown reversibility requires confirmation")
  else if String.eqb mode POLICY_MODE_ENFORCE_SAFE
          && negb (String.eqb (risk_class risk) POLICY_RISK_READ) then
    Some ("ENFORCE_SAFE_CONFIRM", "enforce_safe mode requires confirmation for non-read actions")
  else if String.eqb (cfg_default_action config) (py_lower POLICY_DECISION_REQUIRE_CONFIRM)
          && (negb (String.eqb (risk_class risk) POLICY_RISK_READ)
              || negb (cfg_allow_read_only_without_prompt config)) then
    Some ("DEFAULT_CONFIRM", "Default policy requires confirmation for non-read actions")
  else None.

(** ** Risk inference *)

Definition mk_risk (cls side rev : string) (confirm : bool) : RiskSpec :=
  {| risk_class := cls; side_effects := side; reversibility := rev;
     default_confirm := confirm; sensitive_targets := [] |}.

Definition any_in (text : string) (tokens : list string) : bool := existsb (py_contains text) tokens.

Definition _infer_risk (inv : InvocationSummary) : RiskSpec :=
  let method := py_lower (inv_method inv) in
  let tool := py_lower (inv_tool inv) in
  let text := tool +:+ "." +:+ method in
  let args := inv_args inv in
  if any_in method [POLICY_RISK_READ; "list"; "show"; "get"; "status"; "which"; "snapshot"; "tail"]
  then mk_risk POLICY_RISK_READ POLICY_SIDE_EFFECT_NONE POLICY_REVERSIBILITY_REVERSIBLE false
  else if any_in text ["delete"; "remove"; "rm"; "drop"; "destroy"; "wipe"; "kill"]
  then mk_risk POLICY_RISK_DESTRUCTIVE POLICY_SIDE_EFFECT_LOCAL
         POLICY_REVERSIBILITY_IRREVERSIBLE true
  else if any_in text ["pay"; "buy"; "transfer"; "charge"]
  then mk_risk POLICY_RISK_FINANCIAL POLICY_SIDE_EFFECT_EXTERNAL_ACCOUNT
         POLICY_REVERSIBILITY_UNKNOWN true
  else if any_in text ["exec"; "run"; "ssh"; "shell"]
  then mk_risk POLICY_RISK_EXEC
         (if py_contains text "ssh" then POLICY_SIDE_EFFECT_REMOTE else POLICY_SIDE_EFFECT_LOCAL)
         POLICY_REVERSIBILITY_UNKNOWN true
  else if any_in text ["click"; "submit"; "apply"; "start"; "stop"; "restart"; "write"; "update"]
  then mk_risk POLICY_RISK_STATE_CHANGE
         (if py_contains tool "browser" then POLICY_SIDE_EFFECT_EXTERNAL_ACCOUNT
          else POLICY_SIDE_EFFECT_LOCAL)
         POLICY_REVERSIBILITY_PARTIALLY_REVERSIBLE true
  else if dmem args "path" || dmem args "content"
  then mk_risk POLICY_RISK_WRITE POLICY_SIDE_EFFECT_LOCAL
         POLICY_REVERSIBILITY_PARTIALLY_REVERSIBLE true
  else mk_risk POLICY_RISK_READ POLICY_SIDE_EFFECT_NONE POLICY_REVERSIBILITY_UNKNOWN false.

Definition _resolve_risk (registry : gmap string RiskSpec) (inv : InvocationSummary) : RiskSpec :=
  let tool := inv_tool inv in let method := inv_method inv in
  match registry !! (tool +:+ "." +:+ method) with
  | Some r => r
  | None => match registry !! (tool +:+ ".*") with
  | Some r => r
  | None => match registry !! ("*." +:+ method) with
  | Some r => r
  | None => match registry !! "*.*" with
  | Some r => r
  | None => _infer_risk inv
  end end end end.

Section Service.
Context {Env : PyEnv} {Bc : BlockchainPreview}.

Definition _arg_domain (args : dict) : option string :=
  match _opt_str (dget_none args "domain") with
  | Some d => Some d
  | None =>
      match dget_none args "url" with
      | PStr url => match py_url_hostname url with
                    | Some h => _opt_str (PStr h)
                    | None => None
                    end
      | _ => None
      end
  end.

Definition opt_entry (k : string) (o : option string) : dict :=
  match o with Some v => [(k, PStr v)] | None => [] end.

Definition _default_target_scope (inv : InvocationSummary) : dict :=
  let args := inv_args inv in
  opt_entry "path_prefix" (_arg_path args)
  ++ match dget_none args "argv" with
     | PList (first :: _) =>
         let first := py_strip (py_str first) in
         if truthy first then [("cmd_prefix", PStr first)] else []
     | _ => []
     end
  ++ match dget args "host" with Some h => [("host", PStr (py_str h))] | None => [] end
  ++ opt_entry "domain" (_arg_domain args).

Definition _target_facts (inv : InvocationSummary) : dict :=
  let args := inv_args inv in
  opt_entry "path" (_arg_path args)
  ++ opt_entry "command" (_arg_command args)
  ++ match dget args "host" with Some h => [("host", PStr (py_str h))] | None => [] end
  ++ opt_entry "domain" (_arg_domain args)
  ++ concat (map (λ k, match dget args k with
                       | Some v => [(k, PStr (py_str v))]
                       | None => []
                       end) ["namespace"; "cluster"; "resource"]).

(** ** Targets of grants *)

(** The inner [_values(key)]. *)
Definition target_values (target : dict) (key : string) : list string :=
  match dget_none target key with
  | PNone => []
  | PList l => List.filter (λ s, truthy (py_strip s)) (map py_str l)
  | v => [py_str v]
  end.

Definition fact (facts : dict) (key : string) : string := dget_str facts key "".

(** [re.search] for each expression in turn, stopping at the first that does
    not match; one that does not compile raises. *)
Fixpoint all_search (exprs : list string) (cmd : string) : result policy_exn bool :=
  match exprs with
  | [] => Ok true
  | e :: rest =>
      match py_re_search e cmd with
      | None => Raise (ReError e)
      | Some false => Ok false
      | Some true => all_search rest cmd
      end
  end.

Definition args_equal (expected args : dict) : bool :=
  forallb (λ ke, py_eq (dget_none args ke.1) ke.2) expected.
Definition args_contain (expected args : dict) : bool :=
  forallb (λ ke,
    let text := match dget_none args ke.1 with
                | PList l => py_join " " (map py_str l)
                | v => py_str v
                end in
    py_contains text (py_str ke.2)) expected.

Definition _target_matches (target facts args : dict) : result policy_exn bool :=
  match target with
  | [] => Ok true
  | _ =>
    if negb (forallb (py_startswith (fact facts "path")) (target_values target "path_prefix"))
    then Ok false
    else if negb (forallb (py_startswith (fact facts "command"))
                    (target_values target "cmd_prefix"))
    then Ok false
    else
      searched ← all_search (target_values target "cmd_regex") (fact facts "command");
      if negb searched then Ok false else
      Ok (forallb (fnmatch (fact facts "host")) (target_values target "host")
          && forallb (fnmatch (fact facts "domain")) (target_values target "domain")
          && forallb (String.eqb (fact facts "namespace")) (target_values target "namespace")
          && forallb (String.eqb (fact facts "cluster")) (target_values target "cluster")
          && forallb (String.eqb (fact facts "resource")) (target_values target "resource")
          && match dget_none target "arg_equals" with
             | PDict e => args_equal e args
             | _ => true
             end
          && match dget_none target "arg_contains" with
             | PDict e => args_contain e args
             | _ => true
             end)
  end.

Fixpoint any_sensitive (matchers : list pyval) (blob : string) (facts args : dict)
    : result policy_exn bool :=
  match matchers with
  | [] => Ok false
  | PStr m :: rest =>
      if truthy m && py_contains blob m then Ok true else any_sensitive rest blob facts args
  | PDict d :: rest =>
      hit ← _target_matches d facts args;
      if hit : bool then Ok true else any_sensitive rest blob facts args
  | _ :: rest => any_sensitive rest blob facts args
  end.

Definition _matches_sensitive_target (inv : InvocationSummary) (risk : RiskSpec)
    : result policy_exn bool :=
  let facts := _target_facts inv in
  let blob := py_join " " [fact facts "path"; fact facts "command"; fact facts "host";
                           fact facts "domain"] in
  any_sensitive (sensitive_targets risk) blob facts (inv_args inv).

Definition _is_write_under_sandbox (ctl : PolicyCtl) (inv : InvocationSummary) : bool :=
  match _arg_path (inv_args inv) with
  | None => false
  | Some raw =>
      existsb (λ prefix, py_startswith (py_path_expanduser raw) (py_path_expanduser prefix))
        (cfg_sandbox_path_prefixes (ctl_config ctl))
  end.

(** ** Grant matching *)

Definition _grant_matches (grant : PolicyGrant) (inv : InvocationSummary)
    (ctx : ContextSummary) (risk : RiskSpec) (facts : dict) : PM bool :=
  if negb (active grant) then mret false else
  expired ← match g_expires_at grant with
            | None => mret false
            | Some e => now ← utc_now_iso; mret (str_leb e now)
            end;
  if expired : bool then mret false
  else if negb (uses_left grant) then mret false
  else if String.eqb (g_duration_type grant) POLICY_DURATION_SESSION
          && negb (otruthy (g_session_id grant)) then mret false
  else if otruthy (g_session_id grant)
          && negb (ostr_eqb (g_session_id grant) (ctx_session_id ctx)) then mret false
  else if otruthy (g_invocation_hash grant)
          && negb (ostr_eqb (g_invocation_hash grant) (Some (inv_invocation_hash inv)))
       then mret false
  else if negb (String.eqb (g_tool grant) "*") && negb (String.eqb (g_tool grant) (inv_tool inv))
       then mret false
  else if negb (String.eqb (g_method grant) "*")
          && negb (String.eqb (g_method grant) (inv_method inv)) then mret false
  else
    below ← (if otruthy (g_risk_floor grant) then
               actual ← lift_result (risk_order (risk_class risk));
               floor ← lift_result (risk_order (default "" (g_risk_floor grant)));
               mret (actual <? floor)
             else mret false);
    if below : bool then mret false
    else lift_result (_target_matches (g_target_json grant) facts (inv_args inv)).

Fixpoint _find_matching_grants (grants : list PolicyGrant) (inv : InvocationSummary)
    (ctx : ContextSummary) (risk : RiskSpec) (facts : dict) : PM (list GrantMatch) :=
  match grants with
  | [] => mret []
  | g :: rest =>
      hit ← _grant_matches g inv ctx risk facts;
      others ← _find_matching_grants rest inv ctx risk facts;
      mret (if hit : bool
            then {| gm_grant := g; gm_score := grant_specificity_score g |} :: others
            else others)
  end.

(** ** Decisions *)

Definition subject_or_default (ctx : ContextSummary) (config : PolicyConfig) : string :=
  str_or (ctx_subject_id ctx) (cfg_subject_id_default config).

Definition confirm_result (inv : InvocationSummary) (risk : RiskSpec)
    (code reason : string) (preview : option dict) (request : dict)
    (approval_id : option string) : PolicyDecision :=
  {| decision := POLICY_DECISION_REQUIRE_CONFIRM; reason_code := code; d_reason := reason;
     d_risk := risk; matched_grant_id := None; confirm_request := Some request;
     d_details := []; d_approval_id := approval_id;
     d_invocation_hash := Some (inv_invocation_hash inv);
     d_confirmation_preview := preview |}.

Definition _confirm_decision (ctl : PolicyCtl) (inv : InvocationSummary) (ctx : ContextSummary)
    (risk : RiskSpec) (preview : option dict) (code reason : string) : PM PolicyDecision :=
  let request := build_confirm_request inv ctx risk (_default_target_scope inv) in
  if is_policy_authorization_pair (inv_tool inv) (inv_method inv)
     || is_exact_ops_command (inv_tool inv) (inv_method inv) then
    pending ← get_or_create_exact_confirmation inv ctx
                (subject_or_default ctx (ctl_config ctl)) preview;
    mret (confirm_result inv risk code reason preview
      [("approval_id", PStr (p_approval_id pending));
       ("choices", PList [PStr "allow_once"; PStr "deny"]);
       ("preview", PDict (p_preview pending))] (Some (p_approval_id pending)))
  else mret (confirm_result inv risk code reason preview request None).

Definition _configured_rule_decision (ctl : PolicyCtl) (matching_rule : option PolicyRule)
    (inv : InvocationSummary) (ctx : ContextSummary) (risk : RiskSpec)
    (preview : option dict) : PM (option PolicyDecision) :=
  match matching_rule with
  | None => mret None
  | Some rule =>
      if String.eqb (rule_mode rule) "ask" then
        d ← _confirm_decision ctl inv ctx risk preview "CONFIG_RULE_ASK"
              "Configured exact-tool rule requires confirmation";
        mret (Some d)
      else if String.eqb (rule_mode rule) "auto" then
        mret (Some (with_details
          [("rule_mode", PStr "auto"); ("tool_name", PStr (rule_tool_name rule))]
          (mk_decision POLICY_DECISION_ALLOW "CONFIG_RULE_AUTO"
             "Allowed by configured exact-tool rule" risk)))
      else mret None
  end.

(** The defaults that apply when no rule, grant or exact authorization
    decides. *)
Definition default_decision (ctl : PolicyCtl) (inv : InvocationSummary) (ctx : ContextSummary)
    (risk : RiskSpec) (mode : string) (config : PolicyConfig) (preview : option dict)
    : PM PolicyDecision :=
  sensitive ← lift_result (_matches_sensitive_target inv risk);
  match _baseline_allow_decision mode risk (cfg_allow_read_only_without_prompt config)
          sensitive with
  | Some d => mret d
  | None =>
      match _confirm_reason ctx risk mode config sensitive with
      | Some (code, reason) => _confirm_decision ctl inv ctx risk preview code reason
      | None =>
          if String.eqb (risk_class risk) POLICY_RISK_WRITE && _is_write_under_sandbox ctl inv
          then mret (mk_decision POLICY_DECISION_ALLOW "SANDBOX_WRITE_ALLOW"
                       "Write scoped to sandbox path is allowed" risk)
          else mret (mk_decision POLICY_DECISION_ALLOW "NO_MATCHING_GRANT"
                       "No matching grant; default allow" risk)
      end
  end.

Definition _evaluate_enforced (ctl : PolicyCtl) (inv : InvocationSummary) (ctx : ContextSummary)
    (risk : RiskSpec) (consume_grants : bool) (mode : string) (config : PolicyConfig)
    (preview : option dict) : PM PolicyDecision :=
  _ ← cleanup_expired;
  let subject_id := subject_or_default ctx config in
  matching_rule ← lift_result (select_policy_rule inv risk config);
  match blocked_rule_decision matching_rule risk with
  | Some d => mret d
  | None =>
    candidates ← store_list_grants (Some subject_id) None None None true;
    matches ← _find_matching_grants candidates inv ctx risk (_target_facts inv);
    by_grant ← matching_grant_decision matches inv risk consume_grants;
    match by_grant with
    | Some d => mret d
    | None =>
      exact ← resolve_exact_authorization_decision inv ctx subject_id risk
                (_confirm_decision ctl inv ctx risk preview);
      match exact with
      | Some d => mret d
      | None =>
        by_rule ← _configured_rule_decision ctl matching_rule inv ctx risk preview;
        match by_rule with
        | Some d => mret d
        | None => default_decision ctl inv ctx risk mode config preview
        end
      end
    end
  end.

(** ** Normalization *)

Definition raw_attrs (r : raw) : dict := match r with RawDict d => d | RawObject d => d end.

Definition _normalize_invocation (r : raw) : result policy_exn InvocationSummary :=
  let d := raw_attrs r in
  let tool := py_strip (dget_str d "tool" "") in
  let method := py_strip (dget_str d "method" "") in
  let args := match r with
              | RawDict d => default (PDict []) (dget d "args")
              | RawObject d =>
                  let a := default (PDict []) (dget d "args") in
                  if py_truthy a then a else PDict []
              end in
  let given := py_strip (dget_str d "invocation_id" "") in
  let invocation_id := if truthy given then given else "invocation-local" in
  let '(tool, method) :=
    if negb (truthy method) && truthy tool then
      match py_rpartition "."%char tool with
      | Some (tool_part, method_part) => (tool_part, method_part)
      | None => (tool, method)
      end
    else (tool, method) in
  if negb (truthy tool) then Raise (ValueError "invocation.tool is required")
  else if negb (truthy method) then Raise (ValueError "invocation.method is required")
  else match args with
       | PDict args => Ok
           {| invocation_id := invocation_id; inv_tool := tool; inv_method := method;
              inv_args := args;
              inv_invocation_hash := stable_invocation_hash tool method args |}
       | _ => Raise (ValueError "invocation.args must be a dict")
       end.

Definition _normalize_context (r : raw) : ContextSummary :=
  let d := raw_attrs r in
  {| ctx_trace_id := _opt_str (dget_none d "trace_id");
     ctx_session_id := _opt_str (dget_none d "session_id");
     ctx_agent_id := _opt_str (dget_none d "agent_id");
     ctx_subject_id := _opt_str (dget_none d "subject_id");
     ctx_mode_name := _opt_str (dget_none d "mode_name") |}.

(** ** Mode *)

Definition ctl_mode (ctl : PolicyCtl) : PM string :=
  persisted ← get_setting "mode";
  mret (str_or persisted (cfg_mode (ctl_config ctl))).

Definition set_mode (mode : string) : PM () :=
  let normalized := py_lower (py_strip mode) in
  if negb (str_in normalized POLICY_MODE_CHOICES)
  then raise (ValueError ("Invalid mode: " +:+ mode))
  else set_setting "mode" normalized.

Definition _log_decision (ctl : PolicyCtl) (inv : InvocationSummary) (ctx : ContextSummary)
    (d : PolicyDecision) : PM () :=
  if negb (cfg_decision_log_enabled (ctl_config ctl)) then mret ()
  else
    _ ← log_decision (ctx_trace_id ctx) (ctx_session_id ctx) (ctx_agent_id ctx)
          (invocation_id inv) (inv_tool inv) (inv_method inv) (py_lower (decision d))
          (matched_grant_id d) (d_approval_id d) (Some (inv_invocation_hash inv))
          (reason_code d) (RiskSpec_to_dict (d_risk d));
    mret ().

(** ** [check] *)

Definition log_only_decision (enforced : PolicyDecision) (risk : RiskSpec) : PolicyDecision :=
  {| decision := POLICY_DECISION_ALLOW; reason_code := "LOG_ONLY_ALLOW";
     d_reason := "Policy log_only mode does not block actions"; d_risk := risk;
     matched_grant_id := matched_grant_id enforced;
     confirm_request := confirm_request enforced;
     d_details := dset (dset (d_details enforced) "would_decision" (PStr (decision enforced)))
                    "would_reason_code" (PStr (reason_code enforced));
     d_approval_id := None; d_invocation_hash := None; d_confirmation_preview := None |}.

Definition effective_risk (ctl : PolicyCtl) (inv : InvocationSummary)
    (risk_override trusted_risk_override : option RiskSpec) : result policy_exn RiskSpec :=
  let registered := _resolve_risk (ctl_registry ctl) inv in
  if is_policy_authorization_pair (inv_tool inv) (inv_method inv) then Ok registered
  else match trusted_risk_override with
       | Some r => Ok r
       | None => merge_policy_risk registered risk_override
       end.

Definition check (ctl : PolicyCtl) (invocation ctx : raw)
    (risk_override trusted_risk_override : option RiskSpec)
    (config_overrides : option PolicyConfig) (confirmation_preview : option dict)
    (confirmation_preview_error : option string) : PM PolicyDecision :=
  inv ← lift_result (_normalize_invocation invocation);
  let csum := _normalize_context ctx in
  risk ← lift_result (effective_risk ctl inv risk_override trusted_risk_override);
  let effective_config := default (ctl_config ctl) config_overrides in
  mode ← match config_overrides with
         | Some c => mret (cfg_mode c)
         | None => ctl_mode ctl
         end;
  match authorization_preflight_decision inv csum risk mode confirmation_preview
          confirmation_preview_error with
  | Some d => _ ← _log_decision ctl inv csum d; mret d
  | None =>
      enforced ← _evaluate_enforced ctl inv csum risk
                   (negb (String.eqb mode POLICY_MODE_LOG_ONLY)) mode effective_config
                   confirmation_preview;
      _ ← _log_decision ctl inv csum enforced;
      if String.eqb mode POLICY_MODE_LOG_ONLY then mret (log_only_decision enforced risk)
      else mret enforced
  end.

(** ** Grants *)

Definition requires_confirmation_error (tool method : string) : policy_exn :=
  if is_exact_blockchain_send tool method then
    PolicyControlError "BLOCKCHAIN_SEND_GRANT_REQUIRES_CONFIRMATION"
      "Blockchain send grants require a pending confirmation." []
  else
    PolicyControlError "EXACT_AUTHORIZATION_REQUIRES_CONFIRMATION"
      "Exact action grants require a pending confirmation." [].

Definition create_grant (gi : PolicyGrantInput) : PM string :=
  if is_policy_authorization_pair (gi_tool gi) (gi_method gi)
  then raise (requires_confirmation_error (gi_tool gi) (gi_method gi))
  else
    validated ← lift_result (validate_grant_input gi);
    store_create_grant validated.

Definition create_grant_from_confirmation (ctl : PolicyCtl) (invocation ctx : raw)
    (action : string) (until_seconds : option Z) (scope_overrides : option dict)
    (max_uses : option Z) : PM string :=
  inv ← lift_result (_normalize_invocation invocation);
  if is_policy_authorization_pair (inv_tool inv) (inv_method inv)
  then raise (requires_confirmation_error (inv_tool inv) (inv_method inv))
  else
    let csum := _normalize_context ctx in
    let scope := _default_target_scope inv in
    let target := match scope_overrides with Some o => dupdate scope o | None => scope end in
    terms ← confirmation_grant_terms action (ctx_session_id csum) (inv_invocation_hash inv)
              until_seconds;
    let '(duration, expires_at, session_id, invocation_hash) := terms in
    if requires_once_duration (inv_tool inv) (inv_method inv) None
       && negb (String.eqb duration POLICY_DURATION_ONCE)
    then raise (ValueError (inv_tool inv +:+ "." +:+ inv_method inv
                            +:+ " approvals must be allow once"))
    else create_grant
      {| gi_effect := POLICY_GRANT_EFFECT_ALLOW; gi_tool := inv_tool inv;
         gi_method := inv_method inv; gi_target_json := target;
         gi_duration_type := duration;
         gi_subject_id := subject_or_default csum (ctl_config ctl);
         gi_expires_at := expires_at; gi_session_id := session_id;
         gi_invocation_hash := invocation_hash; gi_max_uses := max_uses;
         gi_reason := Some ("created_from_confirmation:" +:+ action);
         gi_created_trace_id := ctx_trace_id csum; gi_risk_floor := None;
         gi_approval_id := None |}.

Definition ctl_parse_confirmation_response (ctl : PolicyCtl) (text : string) : string :=
  parse_confirmation_response text (Some (cfg_affirmative_tokens (ctl_config ctl)))
    (Some (cfg_negative_tokens (ctl_config ctl))).
End Service.
