(* ===== verification/PolicyServiceProps.v ===== *)
(** What [PolicyCtl.check] guarantees: which authority every ALLOW rests on, what
    an exact action needs, that a block rule wins, that [log_only] observes
    without spending grants, and that every decision is logged once. *)

From S2P Require Import Prelude PyValue Timestamps PolicyModels PolicyStore Demo PolicyStoreProps PolicyGrants PolicyRules PolicyConfirm PolicyService.

Section ServiceProps.
Context {Env : PyEnv} {Bc : BlockchainPreview}.

(** ** Frames *)

(** The tables are the same; clock readings may have been taken. *)
Record same_tables (s s' : Store) : Prop := {
  st_grants : policy_grants s' = policy_grants s;
  st_pending : policy_pending s' = policy_pending s;
  st_decisions : policy_decisions s' = policy_decisions s;
  st_settings : policy_settings s' = policy_settings s;
  st_ticks : ticks s ≤ ticks s';
  st_drawn : drawn s ≤ drawn s';
}.

#[local] Instance same_tables_preorder : PreOrder same_tables.
Proof.
  split; [intros s; split; done|]. intros s1 s2 s3 [] []. split; try congruence; lia.
Qed.

Lemma same_tables_tick s : same_tables s (tick s).
Proof. split; simpl; auto. Qed.

(** A program that leaves the tables alone, whatever it returns. *)
Definition quiet {A} (m : PM A) : Prop := ∀ s, same_tables s (m s).1.

Lemma quiet_ret {A} (a : A) : quiet (mret a).
Proof. intros s. simpl. reflexivity. Qed.
Lemma quiet_lift {A} (r : result policy_exn A) : quiet (lift_result r).
Proof. intros s. simpl. reflexivity. Qed.
Lemma quiet_raise {A} e : quiet (raise e : PM A).
Proof. intros s. simpl. reflexivity. Qed.
Lemma quiet_now : quiet utc_now_iso.
Proof. intros s. apply same_tables_tick. Qed.
Lemma quiet_bind {A B} (m : PM A) (f : A → PM B) :
  quiet m → (∀ a, quiet (f a)) → quiet (mbind f m).
Proof.
  intros Hm Hf s. unfold mbind, M_bind. specialize (Hm s).
  destruct (m s) as [s1 [a|e]]; simpl in *; [|done]. etrans; [done|apply Hf].
Qed.
Create HintDb quiet.
#[local] Hint Resolve quiet_ret quiet_lift quiet_raise quiet_now quiet_bind : quiet.
Ltac quiet := repeat first
  [ apply quiet_ret | apply quiet_lift | apply quiet_raise | apply quiet_now
  | apply quiet_bind; [|intros ?] | case_match | solve [eauto with quiet] ].

Lemma quiet_grant_matches g inv ctx risk facts : quiet (_grant_matches g inv ctx risk facts).
Proof. unfold _grant_matches. quiet. Qed.

Lemma quiet_find_matching grants inv ctx risk facts :
  quiet (_find_matching_grants grants inv ctx risk facts).
Proof.
  induction grants; simpl; [apply quiet_ret|].
  apply quiet_bind; [apply quiet_grant_matches|]. intros ?. quiet.
Qed.

Lemma quiet_list_grants subj eff tool method b :
  quiet (store_list_grants subj eff tool method b).
Proof.
  intros s. unfold store_list_grants. destruct b; [apply same_tables_tick|reflexivity].
Qed.

(** ** Matching *)

(** The conditions of [_grant_matches] that do not depend on the target. *)
Record covers (g : PolicyGrant) (inv : InvocationSummary) (ctx : ContextSummary) : Prop := {
  cov_active : active g = true;
  cov_uses : uses_left g = true;
  cov_session : otruthy (g_session_id g) = true → g_session_id g = ctx_session_id ctx;
  cov_hash : otruthy (g_invocation_hash g) = true →
             g_invocation_hash g = Some (inv_invocation_hash inv);
  cov_tool : g_tool g = "*" ∨ g_tool g = inv_tool inv;
  cov_method : g_method g = "*" ∨ g_method g = inv_method inv;
}.

Lemma star_or_eq t u : negb (String.eqb t "*") && negb (String.eqb t u) = false →
  t = "*" ∨ t = u.
Proof.
  destruct (String.eqb_spec t "*") as [->|]; [by left|]. intros H. right.
  simpl in H. by bsplit.
Qed.

Lemma grant_matches_covers g inv ctx risk facts s s' :
  _grant_matches g inv ctx risk facts s = (s', Ok true) → covers g inv ctx.
Proof.
  unfold _grant_matches. destruct (active g) eqn:Ea; [|by intros [=]]. cbn [negb].
  intros H. mstep H. destruct x0; [by inversion H|].
  repeat match type of H with
         | (if ?b then _ else _) _ = _ => destruct b eqn:?; [by inversion H|]
         end.
  bsplit. split; auto using star_or_eq.
  - intros Ht. apply ostr_eqb_eq. eauto using guard_implies.
  - intros Ht. apply ostr_eqb_eq. eauto using guard_implies.
Qed.

Lemma find_matching_covers grants inv ctx risk facts s s' ms :
  _find_matching_grants grants inv ctx risk facts s = (s', Ok ms) →
  ∀ m, m ∈ ms → gm_grant m ∈ grants ∧ covers (gm_grant m) inv ctx.
Proof.
  revert s ms. induction grants as [|g grants IH]; intros s ms; simpl.
  { intros [= _ <-] m Hm. by apply elem_of_nil in Hm. }
  intros H. mstep H. rename H0 into Hg. mstep H. rename H0 into Hr.
  inversion H; subst. intros m Hm. destruct x0.
  - apply elem_of_cons in Hm as [->|Hm]; simpl.
    + split; [by left|]. by eapply grant_matches_covers.
    + destruct (IH _ _ Hr m Hm). split; [by right|done].
  - destruct (IH _ _ Hr m Hm). split; [by right|done].
Qed.

(** The grants [list_grants(subject_id, active_only=True)] offers, after the
    expired ones were revoked, are grants of the store before. *)
Lemma cleanup_keeps_active s g :
  g ∈ policy_grants (cleanup_expired s).1 → active g = true → g ∈ policy_grants s.
Proof.
  unfold cleanup_expired, utc_now_iso, datetime_now, update_grants. munfold. simpl.
  intros Hg Ha. apply update_where_elem in Hg as (x & Hx & [[_ ->]|[_ ->]]); [|done].
  by unfold grant_revoke, active in Ha.
Qed.

Definition of_subject (subject : string) (g : PolicyGrant) : Prop :=
  subject ≠ "" → g_subject_id g = subject.

Lemma list_active_spec subject s s' l :
  store_list_grants (Some subject) None None None true s = (s', Ok l) →
  s' = tick s ∧ ∀ g, g ∈ l →
    g ∈ policy_grants s ∧ of_subject subject g ∧ not_expired (now_iso s) g = true.
Proof.
  unfold store_list_grants, utc_now_iso, datetime_now. munfold. intros [= <- <-].
  split; [done|]. intros g Hg. apply sort_desc_elem, filter_elem in Hg as [Hg Hc].
  bsplit. split_and!; [done| |done].
  intros Hs%truthy_true. unfold opt_filter in *. simpl in *. rewrite Hs in *.
  bsplit. congruence.
Qed.
(** ** What an ALLOW rests on *)

Lemma eligible_elem inv risk ms m :
  m ∈ eligible_matches inv risk ms →
  m ∈ ms ∧
  (requires_once_duration (inv_tool inv) (inv_method inv) (Some (risk_class risk)) = true →
   is_deny m = false → g_duration_type (gm_grant m) = POLICY_DURATION_ONCE) ∧
  (is_policy_authorization_pair (inv_tool inv) (inv_method inv) = true →
   otruthy (g_approval_id (gm_grant m)) = true).
Proof.
  unfold eligible_matches. intros Hm.
  destruct (is_policy_authorization_pair _ _); [apply filter_elem in Hm as [Hm Ha]|];
  (destruct (requires_once_duration _ _ _);
     [apply filter_elem in Hm as [Hm Ho]; split_and!; [done| |done]
     |split_and!; [done|done|done]]);
  intros _ Hd; rewrite Hd in Ho; by apply String.eqb_eq in Ho.
Qed.

Lemma pair_requires_once tool method floor :
  is_policy_authorization_pair tool method = true →
  requires_once_duration tool method floor = true.
Proof.
  intros H. unfold requires_once_duration.
  assert (py_lower (py_strip tool) = tool ∧ py_lower (py_strip method) = method) as [-> ->].
  { apply policy_authorization_pair_cases in H as [[-> ->]|[-> [->|[->| ->]]]]; by split. }
  by rewrite H, orb_true_r.
Qed.

Lemma matching_decision_allow ms inv risk consume s s' d :
  matching_grant_decision ms inv risk consume s = (s', Ok (Some d)) →
  decision d = POLICY_DECISION_ALLOW →
  ∃ m, m ∈ eligible_matches inv risk ms ∧ is_deny m = false ∧ is_exact_ops inv = false ∧
    d = allow_by_grant (gm_grant m) inv risk.
Proof.
  unfold matching_grant_decision.
  destruct (select_grant_match _) as [m|] eqn:Es; [|by intros [=]].
  apply select_spec in Es as [Hm _].
  destruct (is_deny m) eqn:Ed; [by intros [= _ <-]|].
  destruct (is_exact_ops inv) eqn:Ee; [by intros [=]|].
  assert (∀ x, Some (allow_by_grant (gm_grant m) inv risk) = Some x →
    ∃ m0, m0 ∈ eligible_matches inv risk ms ∧ is_deny m0 = false ∧ false = false ∧
    x = allow_by_grant (gm_grant m0) inv risk) as Hdone by (intros x [= <-]; by exists m).
  destruct (consume && _).
  - intros H _. mstep H. destruct x0; inversion H; subst; auto.
  - intros [= _ <-] _; auto.
Qed.

(** A grant of the store that covers the invocation, live at a clock reading
    taken during the check. *)
Record authorizing_grant (s : Store) (subject : string) (inv : InvocationSummary)
    (ctx : ContextSummary) (g : PolicyGrant) : Prop := {
  ag_stored : g ∈ policy_grants s;
  ag_subject : of_subject subject g;
  ag_live : ∃ n, ticks s ≤ n ∧ not_expired (isoformat (py_clock n)) g = true;
  ag_covers : covers g inv ctx;
  ag_allow : g_effect g ≠ POLICY_GRANT_EFFECT_DENY;
}.

Lemma confirm_decision_not_allow ctl inv ctx risk preview code reason s s' d :
  _confirm_decision ctl inv ctx risk preview code reason s = (s', Ok d) →
  decision d = POLICY_DECISION_REQUIRE_CONFIRM.
Proof.
  unfold _confirm_decision. destruct (_ || _).
  - intros H. mstep H. by inversion H.
  - by intros [= _ <-].
Qed.

(** The stages of [_evaluate_enforced] in order, and which one decided. *)
Inductive allow_basis (ctl : PolicyCtl) (inv : InvocationSummary) (ctx : ContextSummary)
    (risk : RiskSpec) (mode : string) (config : PolicyConfig) (s s' : Store)
    : PolicyDecision → Prop :=
| basis_grant g :
    authorizing_grant s (subject_or_default ctx config) inv ctx g →
    is_exact_ops inv = false →
    (requires_once_duration (inv_tool inv) (inv_method inv) (Some (risk_class risk)) = true →
     g_duration_type g = POLICY_DURATION_ONCE) →
    (is_policy_authorization_pair (inv_tool inv) (inv_method inv) = true →
     otruthy (g_approval_id g) = true) →
    allow_basis ctl inv ctx risk mode config s s' (allow_by_grant g inv risk)
| basis_exact s1 d :
    is_exact_ops inv = true → policy_grants s1 = policy_grants (cleanup_expired s).1 →
    policy_pending s1 = policy_pending s → drawn s ≤ drawn s1 →
    resolve_exact_ops_decision inv ctx (subject_or_default ctx config) risk s1
      = (s', Ok (Some d)) →
    allow_basis ctl inv ctx risk mode config s s' d
| basis_rule rule d :
    is_policy_authorization_pair (inv_tool inv) (inv_method inv) = false →
    is_exact_ops inv = false →
    select_policy_rule inv risk config = Ok (Some rule) → rule_mode rule = "auto" →
    reason_code d = "CONFIG_RULE_AUTO" →
    allow_basis ctl inv ctx risk mode config s s' d
| basis_default sensitive d :
    is_policy_authorization_pair (inv_tool inv) (inv_method inv) = false →
    is_exact_ops inv = false →
    _matches_sensitive_target inv risk = Ok sensitive →
    (mode = POLICY_MODE_DISABLED ∨
     risk_class risk = POLICY_RISK_READ ∧ cfg_allow_read_only_without_prompt config = true
       ∧ sensitive = false ∨
     _confirm_reason ctx risk mode config sensitive = None) →
    allow_basis ctl inv ctx risk mode config s s' d.

Lemma default_allow ctl inv ctx risk mode config preview s s' d :
  default_decision ctl inv ctx risk mode config preview s = (s', Ok d) →
  decision d = POLICY_DECISION_ALLOW →
  ∃ sensitive, _matches_sensitive_target inv risk = Ok sensitive ∧
    (mode = POLICY_MODE_DISABLED ∨
     risk_class risk = POLICY_RISK_READ ∧ cfg_allow_read_only_without_prompt config = true
       ∧ sensitive = false ∨
     _confirm_reason ctx risk mode config sensitive = None).
Proof.
  unfold default_decision. intros H Hd. mstep H. rename H0 into Hs. inversion Hs as [[Hx Hm]].
  exists x0. split; [done|]. unfold _baseline_allow_decision in H.
  destruct (String.eqb_spec mode POLICY_MODE_DISABLED); [by left|]. right.
  destruct (String.eqb (risk_class risk) POLICY_RISK_READ && _ && negb x0) eqn:Er.
  { left. by bsplit. }
  right. destruct (_confirm_reason ctx risk mode config x0) as [[code reason]|] eqn:Ec; [|done].
  apply confirm_decision_not_allow in H. rewrite H in Hd. done.
Qed.

Lemma is_exact_ops_same inv :
  is_exact_ops_command (inv_tool inv) (inv_method inv) = is_exact_ops inv.
Proof. done. Qed.

Lemma after_grants_allow ctl inv ctx risk mode config preview rule s0 s s' d :
  select_policy_rule inv risk config = Ok rule →
  (is_exact_ops inv = true → policy_grants s = policy_grants (cleanup_expired s0).1 ∧
     policy_pending s = policy_pending s0 ∧ drawn s0 ≤ drawn s) →
  (exact ← resolve_exact_authorization_decision inv ctx (subject_or_default ctx config) risk
             (_confirm_decision ctl inv ctx risk preview);
   match exact with
   | Some d => mret d
   | None =>
       by_rule ← _configured_rule_decision ctl rule inv ctx risk preview;
       match by_rule with
       | Some d => mret d
       | None => default_decision ctl inv ctx risk mode config preview
       end
   end) s = (s', Ok d) →
  decision d = POLICY_DECISION_ALLOW →
  allow_basis ctl inv ctx risk mode config s0 s' d.
Proof.
  intros Hsel Hframe H Hd. mstep H. rename H0 into He.
  unfold resolve_exact_authorization_decision in He. rewrite is_exact_ops_same in He.
  destruct (is_policy_authorization_pair _ _) eqn:Epair.
  { mstep He. apply confirm_decision_not_allow in H0. inversion He; subst.
    inversion H; subst. by rewrite H0 in Hd. }
  destruct (is_exact_ops inv) eqn:Eops; cbn [negb] in He.
  { mstep He. rename H0 into Hx. destruct x2 as [d2|].
    - inversion He; subst. inversion H; subst. destruct (Hframe eq_refl) as (? & ? & ?).
      by eapply basis_exact.
    - mstep He. apply confirm_decision_not_allow in H0. inversion He; subst.
      inversion H; subst. by rewrite H0 in Hd. }
  inversion He; subst. mstep H. rename H0 into Hr. unfold _configured_rule_decision in Hr.
  destruct rule as [rule|].
  2:{ inversion Hr; subst. apply default_allow in H as (b & Hb & Hc); [|done].
      by eapply basis_default. }
  destruct (String.eqb (rule_mode rule) "ask") eqn:Eask.
  { mstep Hr. apply confirm_decision_not_allow in H0. inversion Hr; subst.
    inversion H; subst. by rewrite H0 in Hd. }
  destruct (String.eqb_spec (rule_mode rule) "auto") as [Eauto|].
  { inversion Hr; subst. inversion H; subst. by eapply basis_rule. }
  inversion Hr; subst. apply default_allow in H as (b & Hb & Hc); [|done].
  by eapply basis_default.
Qed.
Lemma cleanup_frame s :
  policy_pending (cleanup_expired s).1 = policy_pending s ∧
  drawn (cleanup_expired s).1 = drawn s ∧ ticks (cleanup_expired s).1 = S (ticks s) ∧
  policy_decisions (cleanup_expired s).1 = policy_decisions s ∧
  ∃ n, (cleanup_expired s).2 = Ok n.
Proof.
  unfold cleanup_expired, utc_now_iso, datetime_now, update_grants. munfold. simpl. split_and!; eauto.
Qed.

(** Every ALLOW of [_evaluate_enforced] has one of the four bases. *)
Lemma evaluate_allow ctl inv ctx risk consume mode config preview s s' d :
  _evaluate_enforced ctl inv ctx risk consume mode config preview s = (s', Ok d) →
  decision d = POLICY_DECISION_ALLOW → allow_basis ctl inv ctx risk mode config s s' d.
Proof.
  intros H Hd. unfold _evaluate_enforced in H.
  destruct (cleanup_frame s) as (Hpend & Hdr & Htk & _ & n & Hn).
  pose proof (cleanup_keeps_active s) as Hkeep.
  assert (cleanup_expired s = ((cleanup_expired s).1, Ok n)) as Hc
    by (rewrite <-Hn; by destruct (cleanup_expired s)).
  rewrite (bind_of_Ok _ _ _ _ _ Hc) in H. remember (cleanup_expired s).1 as s1 eqn:Hs1. mstep H. rename H0 into Hsel, x0 into rule. inversion Hsel; subst x.
  destruct (blocked_rule_decision rule risk) as [b|] eqn:Eb.
  { inversion H; subst. unfold blocked_rule_decision in Eb. repeat case_match; by simplify_eq. }
  mstep H. rename H0 into Hl, x0 into cands. apply list_active_spec in Hl as [-> Hl].
  mstep H. rename H0 into Hf, x0 into ms.
  pose proof (quiet_find_matching cands inv ctx risk (_target_facts inv) (tick s1)) as Hq.
  rewrite Hf in Hq. simpl in Hq. mstep H. rename H0 into Hm, x1 into by_grant.
  destruct by_grant as [d1|].
  - inversion H; subst. apply matching_decision_allow in Hm as (m & Hin & Hnd & Hops & ->); [|done].
    apply eligible_elem in Hin as (Hin & Honce & Happ).
    destruct (find_matching_covers _ _ _ _ _ _ _ _ Hf m Hin) as [Hgm Hcov].
    destruct (Hl _ Hgm) as (Hst & Hsub & Hlive). constructor; auto.
    split; auto.
    + apply Hkeep; [done|apply Hcov].
    + exists (ticks (cleanup_expired s).1). split; [lia|done].
    + unfold is_deny in Hnd. by apply String.eqb_neq.
  - eapply after_grants_allow; [done| |done|done]. intros Hops.
    assert (x0 = x) as ->.
    { unfold matching_grant_decision in Hm. rewrite Hops in Hm.
      unfold mret, M_ret in Hm. repeat case_match; by simplify_eq/=. }
    destruct Hq as [Hg Hp _ _ _ Hd']. simpl in Hg, Hp, Hd'. rewrite <-Hs1.
    split_and!; [congruence|congruence|lia].
Qed.
Lemma store_wf_same s s' :
  store_wf s → policy_grants s' = policy_grants s → policy_pending s' = policy_pending s →
  drawn s ≤ drawn s' → store_wf s'.
Proof.
  intros [? ? Hg Hp] Eg Ep Hd. split; rewrite ?Eg, ?Ep; auto;
    (eapply Forall_impl; [eassumption|]); intros ? (i & ? & ?); exists i; (split; [lia|done]).
Qed.

Lemma cleanup_wf s : store_wf s → store_wf (cleanup_expired s).1.
Proof.
  intros Hwf. unfold cleanup_expired, utc_now_iso, datetime_now, update_grants. munfold.
  simpl. apply store_wf_update_grants; [done|]. auto with minion.
Qed.

Lemma resolve_exact_ops_spec inv ctx subject risk s s' d :
  store_wf s → resolve_exact_ops_decision inv ctx subject risk s = (s', Ok (Some d)) →
  ∃ g p, g ∈ policy_grants s ∧ p ∈ policy_pending s ∧
    exact_grant_row subject (inv_tool inv) (inv_method inv) (inv_invocation_hash inv)
      (ctx_session_id ctx) (now_iso s) g = true ∧
    approval_row (g_approval_id g) (inv_tool inv) (inv_method inv) (inv_invocation_hash inv) p
      = true ∧
    approval_accepts subject (ctx_session_id ctx) p = true ∧
    matched_grant_id d = Some (grant_id g) ∧
    grant_at s' (grant_id g) = Some (grant_use (now_iso s) (Some (now_iso s)) g).
Proof.
  intros Hwf H. unfold resolve_exact_ops_decision in H. msplit H as s1 og E.
  destruct og as [g0|]; [|by inversion H]. inversion H; subst; clear H.
  unfold resolve_matching_active_grant_for_use in E.
  case_match; [by inversion E|]. case_match; [by inversion E|].
  unfold utc_now_iso, datetime_now, transaction in E. munfold. fold (now_iso s) in E.
  destruct (resolve_matching_tx_spec (tick s) subject (inv_tool inv) (inv_method inv)
    (inv_invocation_hash inv) (ctx_session_id ctx) (now_iso s)) as [Er|Hs];
    [auto with minion|by rewrite Er in E|].
  destruct Hs as (g & p & Hin & Hrow & Hp & Ha & Hacc & [[_ Er]|[_ Er]]);
    rewrite Er in E; [done|]. simplify_eq.
  exists g0, p. split_and!; auto.
  rewrite grant_at_update by apply grant_use_id.
  rewrite (grant_at_unique (tick s) g0) by auto with minion. simpl.
  unfold exact_grant_row, usable in Hrow. bsplit. rewrite String.eqb_refl.
  by match goal with H1 : not_revoked g0 = true, H2 : uses_left g0 = true |- _ =>
       rewrite H1, H2 end.
Qed.

(** ** [check], stage by stage *)

Definition check_config (ctl : PolicyCtl) (overrides : option PolicyConfig) : PolicyConfig :=
  default (ctl_config ctl) overrides.
(** The mode in force: the overriding configuration's, else the persisted
    one, else the configured one. *)
Definition check_mode (ctl : PolicyCtl) (overrides : option PolicyConfig) (s : Store) : string :=
  match overrides with
  | Some c => cfg_mode c
  | None => str_or (policy_settings s !! "mode") (cfg_mode (ctl_config ctl))
  end.

(** The row [_log_decision] appends. *)
Definition logs (ctl : PolicyCtl) (inv : InvocationSummary) (ctx : ContextSummary)
    (d : PolicyDecision) (s s' : Store) : Prop :=
  _log_decision ctl inv ctx d s = (s', Ok ()).

Lemma log_decision_total ctl inv ctx d s : ∃ s', logs ctl inv ctx d s s'.
Proof.
  unfold logs, _log_decision. destruct (negb _); [by eexists|].
  unfold log_decision, utc_now_iso, datetime_now, uuid4. munfold. by eexists.
Qed.

Lemma logs_frame ctl inv ctx d s s' :
  logs ctl inv ctx d s s' →
  policy_grants s' = policy_grants s ∧ policy_pending s' = policy_pending s ∧
  ticks s ≤ ticks s'.
Proof.
  unfold logs, _log_decision. destruct (negb _); [by intros [= <-]|].
  unfold log_decision, utc_now_iso, datetime_now, uuid4. munfold. intros [= <-]. simpl.
  split_and!; [done|done|lia].
Qed.

Section check_inversion.
Context (ctl : PolicyCtl) (invocation context : raw) (ro tro : option RiskSpec)
        (co : option PolicyConfig) (preview : option dict) (perr : option string).
Let csum := _normalize_context context.

Inductive check_outcome (s s' : Store) (inv : InvocationSummary) (risk : RiskSpec)
    (d : PolicyDecision) : Prop :=
| outcome_preflight :
    authorization_preflight_decision inv csum risk (check_mode ctl co s) preview perr = Some d →
    logs ctl inv csum d s s' → check_outcome s s' inv risk d
| outcome_evaluated s1 e :
    authorization_preflight_decision inv csum risk (check_mode ctl co s) preview perr = None →
    _evaluate_enforced ctl inv csum risk
      (negb (String.eqb (check_mode ctl co s) POLICY_MODE_LOG_ONLY)) (check_mode ctl co s)
      (check_config ctl co) preview s = (s1, Ok e) →
    logs ctl inv csum e s1 s' →
    d = (if String.eqb (check_mode ctl co s) POLICY_MODE_LOG_ONLY
         then log_only_decision e risk else e) →
    check_outcome s s' inv risk d.

Lemma check_inv s s' d :
  check ctl invocation context ro tro co preview perr s = (s', Ok d) →
  ∃ inv risk, _normalize_invocation invocation = Ok inv ∧
    effective_risk ctl inv ro tro = Ok risk ∧ check_outcome s s' inv risk d.
Proof.
  unfold check. intros H.
  msplit H as s1 inv E1. apply lift_Ok_inv in E1 as [-> E1].
  msplit H as s2 risk E2. apply lift_Ok_inv in E2 as [-> E2].
  exists inv, risk. split; [done|]. split; [done|].
  msplit H as s3 mode E3. assert (s3 = s ∧ mode = check_mode ctl co s) as [-> ->].
  { unfold check_mode, ctl_mode, get_setting in *. munfold. by destruct co; simplify_eq. }
  clear E3. fold csum in H.
  destruct (authorization_preflight_decision _ _ _ _ _ _) as [p|] eqn:Epre.
  - msplit H as s4 u E4. inversion H; subst. destruct u. by apply outcome_preflight.
  - msplit H as s4 e E4. msplit H as s5 u E5. destruct u.
    assert (s5 = s') as -> by (by destruct (String.eqb _ POLICY_MODE_LOG_ONLY); inversion H).
    eapply outcome_evaluated; [done|exact E4|exact E5|].
    destruct (String.eqb _ POLICY_MODE_LOG_ONLY); by inversion H.
Qed.
End check_inversion.

(** [check] once the invocation, the risk and the mode are known. *)
Lemma check_eq ctl invocation context ro tro co preview perr s inv risk :
  _normalize_invocation invocation = Ok inv → effective_risk ctl inv ro tro = Ok risk →
  let csum := _normalize_context context in
  let mode := check_mode ctl co s in
  check ctl invocation context ro tro co preview perr s =
  match authorization_preflight_decision inv csum risk mode preview perr with
  | Some d => _ ← _log_decision ctl inv csum d; mret d
  | None =>
      enforced ← _evaluate_enforced ctl inv csum risk
                   (negb (String.eqb mode POLICY_MODE_LOG_ONLY)) mode (check_config ctl co)
                   preview;
      _ ← _log_decision ctl inv csum enforced;
      if String.eqb mode POLICY_MODE_LOG_ONLY then mret (log_only_decision enforced risk)
      else mret enforced
  end s.
Proof.
  intros Hn Hr csum mode. unfold check.
  rewrite (bind_of_Ok _ _ s s inv) by (unfold lift_result; by rewrite Hn). cbv zeta.
  rewrite (bind_of_Ok _ _ s s risk) by (unfold lift_result; by rewrite Hr).
  by rewrite (bind_of_Ok _ _ s s mode) by
    (subst mode; unfold check_mode, ctl_mode, get_setting; munfold; by destruct co).
Qed.

Lemma preflight_denies inv ctx risk mode preview perr d :
  authorization_preflight_decision inv ctx risk mode preview perr = Some d →
  decision d = POLICY_DECISION_DENY.
Proof.
  unfold authorization_preflight_decision, preflight_preview.
  repeat case_match; intros [= <-]; simplify_eq; done.
Qed.

(** An exact action is evaluated only in a mode that is not [log_only]. *)
Lemma preflight_mode inv ctx risk mode preview perr :
  authorization_preflight_decision inv ctx risk mode preview perr = None →
  is_policy_authorization_pair (inv_tool inv) (inv_method inv) || is_exact_ops inv = true →
  String.eqb mode POLICY_MODE_LOG_ONLY = false.
Proof.
  unfold authorization_preflight_decision. rewrite is_exact_ops_same.
  destruct (preflight_preview _ _ _ _ _); [done|]. intros H Hex. rewrite Hex in H.
  destruct (String.eqb_spec mode POLICY_MODE_LOG_ONLY) as [->|]; [|done].
  vm_compute in H. done.
Qed.

(** Only exact actions have preflight checks. *)
Lemma preflight_exact inv ctx risk mode preview perr d :
  authorization_preflight_decision inv ctx risk mode preview perr = Some d →
  is_policy_authorization_pair (inv_tool inv) (inv_method inv) || is_exact_ops inv = true.
Proof.
  unfold authorization_preflight_decision. rewrite is_exact_ops_same.
  destruct (_ || is_exact_ops inv) eqn:E; [done|]. bsplit.
  unfold preflight_preview, is_exact_blockchain_send, is_policy_authorization_pair in *.
  destruct (POLICY_AUTHORIZATION_DESCRIPTORS _ _) eqn:Ed; [done|].
  destruct (String.eqb_spec (inv_tool inv) BLOCKCHAIN_POLICY_TOOL) as [Et|],
    (String.eqb_spec (inv_method inv) BLOCKCHAIN_SEND_METHOD) as [Em|]; try done.
  rewrite Et, Em in Ed. done.
Qed.

(** In the enforcing modes an ALLOW is the one [_evaluate_enforced] gave. *)
Lemma check_allow ctl invocation context ro tro co preview perr s s' d inv :
  check ctl invocation context ro tro co preview perr s = (s', Ok d) →
  _normalize_invocation invocation = Ok inv →
  decision d = POLICY_DECISION_ALLOW →
  check_mode ctl co s ≠ POLICY_MODE_LOG_ONLY ∨
  is_policy_authorization_pair (inv_tool inv) (inv_method inv) || is_exact_ops inv = true →
  ∃ risk s1, effective_risk ctl inv ro tro = Ok risk ∧
    allow_basis ctl inv (_normalize_context context) risk (check_mode ctl co s)
      (check_config ctl co) s s1 d ∧
    _evaluate_enforced ctl inv (_normalize_context context) risk true (check_mode ctl co s)
      (check_config ctl co) preview s = (s1, Ok d) ∧
    policy_grants s' = policy_grants s1.
Proof.
  intros H Hn Hd Hmode. apply check_inv in H as (inv' & risk & Hn' & Hr & Ho).
  assert (inv' = inv) as -> by congruence. exists risk.
  destruct Ho as [Hp _|s1 e Hp He Hl ->].
  { apply preflight_denies in Hp. by rewrite Hp in Hd. }
  assert (String.eqb (check_mode ctl co s) POLICY_MODE_LOG_ONLY = false) as Em.
  { destruct Hmode; [by apply String.eqb_neq|]. by eapply preflight_mode. }
  rewrite Em in *. exists s1. apply logs_frame in Hl as (Hg & _).
  split_and!; [done| |done|done]. by eapply evaluate_allow.
Qed.

(** ** The decision log *)

Definition row_for (inv : InvocationSummary) (d : PolicyDecision) (row : DecisionRow) : Prop :=
  dr_tool row = inv_tool inv ∧ dr_method row = inv_method inv ∧
  dr_invocation_id row = invocation_id inv ∧
  dr_invocation_hash row = Some (inv_invocation_hash inv) ∧
  dr_decision row = py_lower (decision d) ∧ dr_reason_code row = reason_code d ∧
  dr_matched_grant_id row = matched_grant_id d.

Lemma logs_row ctl inv ctx d s :
  cfg_decision_log_enabled (ctl_config ctl) = true →
  ∃ s' row, _log_decision ctl inv ctx d s = (s', Ok ()) ∧
    policy_decisions s' = policy_decisions s ++ [row] ∧ row_for inv d row.
Proof.
  intros Hlog. unfold _log_decision. rewrite Hlog. cbn [negb].
  unfold log_decision, utc_now_iso, datetime_now, uuid4. munfold.
  eexists _, _. split; [reflexivity|]. simpl. split; [reflexivity|]. done.
Qed.

(** A program that writes no decision row. *)
Definition no_log {A} (m : PM A) : Prop := ∀ s, policy_decisions (m s).1 = policy_decisions s.
Lemma quiet_no_log {A} (m : PM A) : quiet m → no_log m.
Proof. intros Hm s. apply (Hm s). Qed.
Lemma no_log_bind {A B} (m : PM A) (f : A → PM B) :
  no_log m → (∀ a, no_log (f a)) → no_log (mbind f m).
Proof.
  intros Hm Hf s. unfold mbind, M_bind. specialize (Hm s).
  destruct (m s) as [s1 [a|e]]; simpl in *; [|done]. by rewrite Hf.
Qed.
Ltac no_log_step := first
  [ solve [eauto 2] | apply quiet_no_log; solve [quiet] | apply no_log_bind; [|intros ?] | case_match ].

Lemma no_log_consume id : no_log (consume_grant_use id).
Proof.
  intros s. unfold consume_grant_use, utc_now_iso, datetime_now, transaction, get_grant,
    update_grants. munfold. repeat (case_match; simplify_eq/=); done.
Qed.
Lemma no_log_get_or_create subject tool method hash inv_id trace session preview ttl :
  no_log (get_or_create_pending_confirmation subject tool method hash inv_id trace session
            preview ttl).
Proof.
  intros s. unfold get_or_create_pending_confirmation, utc_now_iso, datetime_now,
    transaction, deny_pending, update_pending, insert_pending, uuid4.
  munfold. repeat (case_match; simplify_eq/=); done.
Qed.
Lemma no_log_resolve_matching subject tool method hash session :
  no_log (resolve_matching_active_grant_for_use subject tool method hash session).
Proof.
  intros s. unfold resolve_matching_active_grant_for_use, resolve_matching_tx, utc_now_iso,
    datetime_now, transaction, update_grants. munfold.
  repeat (case_match; simplify_eq/=); done.
Qed.
Lemma no_log_confirm ctl inv ctx risk preview code reason :
  no_log (_confirm_decision ctl inv ctx risk preview code reason).
Proof.
  unfold _confirm_decision, get_or_create_exact_confirmation.
  pose proof no_log_get_or_create. repeat no_log_step; auto.
Qed.

Lemma evaluate_no_log ctl inv ctx risk consume mode config preview :
  no_log (_evaluate_enforced ctl inv ctx risk consume mode config preview).
Proof.
  unfold _evaluate_enforced, matching_grant_decision, resolve_exact_authorization_decision,
    resolve_exact_ops_decision, _configured_rule_decision, default_decision.
  pose proof no_log_confirm. pose proof no_log_consume. pose proof no_log_resolve_matching.
  apply no_log_bind; [intros s; by apply cleanup_frame|]. intros ?.
  apply no_log_bind; [apply quiet_no_log, quiet_lift|]. intros rule.
  case_match; [apply quiet_no_log, quiet_ret|].
  apply no_log_bind; [apply quiet_no_log, quiet_list_grants|]. intros cands.
  apply no_log_bind; [apply quiet_no_log, quiet_find_matching|]. intros ms.
  repeat no_log_step; auto.
Qed.

(** ** Observing without spending *)

Section observe.
Context (ctl : PolicyCtl) (inv : InvocationSummary) (ctx : ContextSummary) (risk : RiskSpec).
Hypothesis Hpair : is_policy_authorization_pair (inv_tool inv) (inv_method inv) = false.
Hypothesis Hops : is_exact_ops inv = false.

Lemma quiet_confirm preview code reason :
  quiet (_confirm_decision ctl inv ctx risk preview code reason).
Proof. unfold _confirm_decision. rewrite is_exact_ops_same, Hpair, Hops. quiet. Qed.

Lemma quiet_matching ms : quiet (matching_grant_decision ms inv risk false).
Proof. unfold matching_grant_decision. quiet. Qed.

Lemma quiet_exact subject confirm :
  quiet (resolve_exact_authorization_decision inv ctx subject risk confirm).
Proof.
  unfold resolve_exact_authorization_decision. rewrite is_exact_ops_same, Hpair, Hops.
  apply quiet_ret.
Qed.

Lemma quiet_default mode config preview :
  quiet (default_decision ctl inv ctx risk mode config preview).
Proof. unfold default_decision. pose proof quiet_confirm. quiet. Qed.

Lemma quiet_rule rule preview : quiet (_configured_rule_decision ctl rule inv ctx risk preview).
Proof. unfold _configured_rule_decision. pose proof quiet_confirm. quiet. Qed.

Lemma evaluate_observes mode config preview s :
  same_tables (cleanup_expired s).1
    (_evaluate_enforced ctl inv ctx risk false mode config preview s).1.
Proof.
  unfold _evaluate_enforced. destruct (cleanup_frame s) as (_ & _ & _ & _ & n & Hn).
  rewrite (bind_of_Ok _ _ s (cleanup_expired s).1 n)
    by (rewrite <-Hn; by destruct (cleanup_expired s)).
  generalize (cleanup_expired s).1. change (quiet ?m) with (∀ s, same_tables s (m s).1).
  apply quiet_bind; [apply quiet_lift|]. intros rule. case_match; [apply quiet_ret|].
  apply quiet_bind; [apply quiet_list_grants|]. intros cands.
  apply quiet_bind; [apply quiet_find_matching|]. intros ms.
  apply quiet_bind; [apply quiet_matching|]. intros [d|]; [apply quiet_ret|].
  apply quiet_bind; [apply quiet_exact|]. intros [d|]; [apply quiet_ret|].
  apply quiet_bind; [apply quiet_rule|]. intros [d|]; [apply quiet_ret|].
  apply quiet_default.
Qed.
End observe.
End ServiceProps.

(** ** Histories of the service *)

Section approvals.
Context {Env : PyEnv} {Bc : BlockchainPreview}.

(** What a client of the policy service and of its store can call. *)
Inductive policy_call : Type :=
| CallStore (op : store_op)
| CallCheck (ctl : PolicyCtl) (invocation context : raw) (ro tro : option RiskSpec) (co : option PolicyConfig)
    (preview : option dict) (perr : option string)
| CallCreateGrant (gi : PolicyGrantInput)
| CallGrantFromConfirmation (ctl : PolicyCtl) (invocation context : raw) (action : string) (until_seconds : option Z)
    (scope_overrides : option dict) (max_uses : option Z)
| CallSetMode (mode : string).
Definition run_call (c : policy_call) (s : Store) : Store :=
  match c with
  | CallStore op => (run_op op s).1
  | CallCheck ctl invocation context ro tro co preview perr =>
      (check ctl invocation context ro tro co preview perr s).1
  | CallCreateGrant gi => (create_grant gi s).1
  | CallGrantFromConfirmation ctl invocation context action secs scope uses =>
      (create_grant_from_confirmation ctl invocation context action secs scope uses s).1
  | CallSetMode mode => (set_mode mode s).1
  end.
Definition run_calls (cs : list policy_call) (s : Store) : Store := fold_left (λ s c, run_call c s) cs s.
(** No call makes an approval up; see [vetted]. *)
Definition vetted_call (c : policy_call) : Prop :=
  match c with
  | CallStore op => vetted op
  | CallCreateGrant gi => otruthy (gi_approval_id gi) = false
  | _ => True
  end.
(** The digest of an invocation is a text of hexadecimal digits. *)
Definition digests_nonempty : Prop := ∀ tool method args, truthy (stable_invocation_hash tool method args) = true.

Definition backs {A} (m : PM A) : Prop := ∀ s, approvals_backed s → approvals_backed (m s).1.
Lemma backs_ret {A} (a : A) : backs (mret a).
Proof. by intros s. Qed.
Lemma backs_raise {A} e : backs (raise e : PM A).
Proof. by intros s. Qed.
Lemma backs_lift {A} (r : result policy_exn A) : backs (lift_result r).
Proof. intros s. by destruct r. Qed.
Lemma backs_gets {A} (f : Store → A) : backs (gets f).
Proof. by intros s. Qed.
Lemma backs_bind {A B} (m : PM A) (f : A → PM B) : backs m → (∀ a, backs (f a)) → backs (mbind f m).
Proof.
  intros Hm Hf s Hs. specialize (Hm s Hs). unfold mbind, M_bind. destruct (m s) as [s1 [a|e]]; [by apply Hf|done].
Qed.
Lemma backs_bind_lift {A B} (r : result policy_exn A) (f : A → PM B) :
  (∀ a, r = Ok a → backs (f a)) → backs (mbind f (lift_result r)).
Proof. intros Hf s. destruct r as [a|e]; [by apply Hf|done]. Qed.
Lemma backs_now : backs utc_now_iso.
Proof. intros s Hs. by eapply backed_same; [..|exact Hs]. Qed.
Lemma backs_clock : backs datetime_now.
Proof. intros s Hs. by eapply backed_same; [..|exact Hs]. Qed.
Lemma backs_setting k v : backs (set_setting k v).
Proof. intros s Hs. by eapply backed_same; [..|exact Hs]. Qed.
Lemma backs_list subject effect tool method live : backs (store_list_grants subject effect tool method live).
Proof. unfold store_list_grants. destruct live; [apply backs_bind; [apply backs_now|intros; apply backs_gets]|apply backs_gets]. Qed.
Lemma backs_log ctl inv ctx d : backs (_log_decision ctl inv ctx d).
Proof.
  unfold _log_decision. destruct (negb _); [apply backs_ret|]. apply backs_bind; [|intros; apply backs_ret].
  intros s Hs. by eapply backed_same; [..|exact Hs].
Qed.
Ltac backs :=
  repeat match goal with
  | |- backs (mret _) => apply backs_ret
  | |- backs (raise _) => apply backs_raise
  | |- backs (lift_result _) => apply backs_lift
  | |- backs (gets _) => apply backs_gets
  | |- backs utc_now_iso => apply backs_now
  | |- backs datetime_now => apply backs_clock
  | |- backs (set_setting _ _) => apply backs_setting
  | |- backs (store_list_grants _ _ _ _ _) => apply backs_list
  | |- backs (_log_decision _ _ _ _) => apply backs_log
  | |- backs (mbind _ _) => apply backs_bind; [|intros]
  | |- backs _ => assumption
  | |- backs (match _ with _ => _ end) => case_match
  | |- backs (let _ := _ in _) => cbv zeta
  end.
Lemma backs_matching_grants grants inv ctx risk facts : backs (_find_matching_grants grants inv ctx risk facts).
Proof. induction grants as [|g grants IH]; cbn [_find_matching_grants]; [backs|]. unfold _grant_matches. backs. Qed.
Lemma backs_decided matches inv risk consume : backs (matching_grant_decision matches inv risk consume).
Proof.
  unfold matching_grant_decision. assert (∀ id, backs (consume_grant_use id)) as Hc by (intros id s; apply backed_consume).
  backs. all: apply Hc.
Qed.
Lemma backs_confirm ctl inv ctx risk preview code reason : truthy (inv_invocation_hash inv) = true →
  backs (_confirm_decision ctl inv ctx risk preview code reason).
Proof.
  intros Hh. unfold _confirm_decision, get_or_create_exact_confirmation. backs.
  all: intros s Hs; by apply backed_pending.
Qed.
Lemma backs_evaluate ctl inv ctx risk consume mode config preview : truthy (inv_invocation_hash inv) = true →
  backs (_evaluate_enforced ctl inv ctx risk consume mode config preview).
Proof.
  intros Hh. unfold _evaluate_enforced, resolve_exact_authorization_decision, resolve_exact_ops_decision,
    _configured_rule_decision, default_decision.
  assert (backs cleanup_expired) as H1 by (intros s; apply backed_cleanup).
  assert (∀ subject tool method hash session, backs (resolve_matching_active_grant_for_use subject tool method hash session))
    as H2 by (intros ????? s; apply backed_matching).
  backs. all: first [apply backs_matching_grants|apply backs_decided|by apply backs_confirm|apply H2].
Qed.
Lemma backs_check ctl invocation context ro tro co preview perr : digests_nonempty →
  backs (check ctl invocation context ro tro co preview perr).
Proof.
  intros Hd. unfold check. apply backs_bind_lift. intros inv En.
  assert (truthy (inv_invocation_hash inv) = true) as Hh.
  { unfold _normalize_invocation in En. repeat (case_match; simplify_eq/=); apply Hd. }
  unfold ctl_mode, get_setting. backs. all: by apply backs_evaluate.
Qed.
Lemma backs_create gi : otruthy (gi_approval_id gi) = false → backs (create_grant gi).
Proof.
  intros Hgi. unfold create_grant. destruct (is_policy_authorization_pair _ _); [apply backs_raise|].
  apply backs_bind_lift. intros v Ev s Hs. apply backed_create; [|done].
  apply validated_grant_sound in Ev as (_ & _ & _ & _ & _ & _ & ->). done.
Qed.
Lemma run_call_backed c s : digests_nonempty → vetted_call c → approvals_backed s → approvals_backed (run_call c s).
Proof.
  intros Hd Hv. destruct c; simpl in *.
  - by apply run_op_backed.
  - by apply backs_check.
  - by apply backs_create.
  - revert s. change (backs (create_grant_from_confirmation ctl invocation context action until_seconds scope_overrides max_uses)).
    unfold create_grant_from_confirmation, confirmation_grant_terms. backs. all: by apply backs_create.
  - revert s. change (backs (set_mode mode)). unfold set_mode. backs.
Qed.
Lemma run_calls_backed cs s : digests_nonempty → Forall vetted_call cs → approvals_backed s → approvals_backed (run_calls cs s).
Proof.
  intros Hd Hcs. revert s. induction Hcs as [|c cs Hc _ IH]; intros s Hs; [done|]. apply IH. by apply run_call_backed.
Qed.
End approvals.

(** ** The guarantees of [check] *)

(** C1: in every history of the service and its store in which no call hands in the
    id of an approval of its own making, an exact action (a blockchain send, or
    preparing, placing or changing a commerce order) is allowed, in any mode and
    under any configuration, rules and risk overrides, only by a stored grant of the
    subject that is active, not expired, not used up, not a deny and of duration
    [once], and that was written when the operator allowed the confirmation of exactly
    this invocation: the confirmation's row is in state [allowed], names this grant,
    this subject and the hash of this invocation, and, when it was asked in a
    session, this session. *)
Theorem exact_action_needs_approval `{PyEnv, BlockchainPreview}
    cs ctl invocation context ro tro co preview perr s' d inv :
  let s := run_calls cs empty_store in
  let ctx := _normalize_context context in
  digests_nonempty → Forall vetted_call cs →
  _normalize_invocation invocation = Ok inv →
  is_policy_authorization_pair (inv_tool inv) (inv_method inv) = true →
  check ctl invocation context ro tro co preview perr s = (s', Ok d) →
  decision d = POLICY_DECISION_ALLOW →
  ∃ g p, authorizing_grant s (subject_or_default ctx (check_config ctl co)) inv ctx g ∧
    g_duration_type g = POLICY_DURATION_ONCE ∧
    matched_grant_id d = Some (grant_id g) ∧ d_approval_id d = Some (p_approval_id p) ∧
    p ∈ policy_pending s ∧ p_state p = "allowed" ∧ p_grant_id p = Some (grant_id g) ∧
    p_subject_id p = g_subject_id g ∧ p_invocation_hash p = inv_invocation_hash inv ∧
    (otruthy (p_session_id p) = true → p_session_id p = ctx_session_id ctx).
Proof.
  intros s ctx Hdig Hcs Hn Hpair Hc Hd.
  destruct (check_allow _ _ _ _ _ _ _ _ _ _ _ _ Hc Hn Hd) as (risk & s1 & _ & Hb & _).
  { right. by rewrite Hpair. }
  inversion Hb as [g Hg Hops Honce Happ|s2 d' Hops _ _ _ _|? ? Hnp|? ? Hnp];
    simplify_eq; [|by exfalso; unfold is_exact_ops in Hops; bsplit;
                   destruct inv; simpl in *; subst|congruence..].
  destruct (run_calls_backed cs empty_store Hdig Hcs approvals_backed_empty) as [Hbk _].
  destruct (Hbk g (ag_stored _ _ _ _ _ Hg) (Happ Hpair)) as (p & Hp & E1 & E2 & E3 & E4 & E5 & E6 & E7).
  destruct (ag_covers _ _ _ _ _ Hg) as [_ _ Hses Hhash _ _]. rewrite E5 in Hses. rewrite E6 in Hhash.
  specialize (Hhash E7). injection Hhash as Hhash. exists g, p. split_and!; auto using pair_requires_once.
Qed.

(** A controller with the default configuration; an order, checked, approved
    and checked again. *)
Definition demo_ctl : PolicyCtl := {| ctl_config := default_PolicyConfig; ctl_registry := ∅ |}.
Definition demo_order : raw :=
  RawDict [("tool", PStr "commerce"); ("method", PStr "prepare_order");
           ("args", PDict [("sku", PStr "x1")])].
Definition demo_context : raw :=
  RawDict [("session_id", PStr "session-1"); ("subject_id", PStr "local")].
Definition demo_preview : option dict := Some [("total", PStr "10")].
Definition demo_check (invocation : raw) (s : Store) : Store * result policy_exn PolicyDecision :=
  check demo_ctl invocation demo_context None None None demo_preview None s.
Definition approve_first (s : Store) : Store :=
  match policy_pending s with
  | p :: _ => (resolve_confirmation (p_approval_id p) "allow_once" s).1
  | [] => s
  end.
Definition demo_approved (invocation : raw) : Store :=
  approve_first (demo_check invocation empty_store).1.
Definition checked (r : Store * result policy_exn PolicyDecision) : option (string * string) :=
  match r.2 with Ok d => Some (decision d, reason_code d) | Raise _ => None end.

Lemma demo_digests_nonempty : digests_nonempty.
Proof. by intros tool method args. Qed.
Definition demo_history : list policy_call :=
  [CallCheck demo_ctl demo_order demo_context None None None demo_preview None;
   CallStore (OpResolveConfirmation "id-0" "allow_once")].

Lemma exact_action_needs_approval_witness :
  ∃ g p, g ∈ policy_grants (run_calls demo_history empty_store) ∧
    p ∈ policy_pending (run_calls demo_history empty_store) ∧ p_state p = "allowed".
Proof.
  edestruct (exact_action_needs_approval demo_history demo_ctl demo_order demo_context None None None
    demo_preview None) as (g & p & [Hg _ _ _ _] & _ & _ & _ & Hp & Hs & _);
    [exact demo_digests_nonempty|repeat constructor|vm_compute; reflexivity..|].
  exists g, p. exact (conj Hg (conj Hp Hs)).
Defined.

(** A grant for every tool is not one for an exact action, so [create_grant] takes it
    with the id of an approval that never was; it then allows the exact action. *)
Definition wildcard_grant (hash : string) : PolicyGrantInput :=
  {| gi_effect := "allow"; gi_tool := "*"; gi_method := "*"; gi_target_json := [];
     gi_duration_type := "once"; gi_subject_id := "local"; gi_expires_at := None;
     gi_session_id := None; gi_invocation_hash := Some hash; gi_max_uses := None;
     gi_reason := None; gi_created_trace_id := None; gi_risk_floor := None;
     gi_approval_id := Some "x" |}.
Definition wildcard_store : Store :=
  (create_grant (wildcard_grant (stable_invocation_hash "commerce" "prepare_order" [("sku", PStr "x1")])) empty_store).1.
Theorem wildcard_grant_allows_exact_action :
  checked (demo_check demo_order wildcard_store) = Some (POLICY_DECISION_ALLOW, "EXPLICIT_ALLOW") ∧
  policy_pending wildcard_store = [].
Proof. split; vm_compute; reflexivity. Qed.

(** C3: an operations command ([ops.command.run]) is allowed, in any mode and
    whatever the rules and other grants say, only by spending a one-time grant:
    the store held an active [once] allow-grant for exactly this subject, tool,
    method and invocation hash whose approval row is in state [allowed] for
    the same subject and session, and after the check that grant is revoked
    and its use counted, so the next check must ask again. *)
Theorem ops_command_allow_spends_approval `{PyEnv, BlockchainPreview}
    ctl invocation context ro tro co preview perr s s' d inv :
  store_wf s →
  _normalize_invocation invocation = Ok inv → is_exact_ops inv = true →
  check ctl invocation context ro tro co preview perr s = (s', Ok d) →
  decision d = POLICY_DECISION_ALLOW →
  let csum := _normalize_context context in
  let subject := subject_or_default csum (check_config ctl co) in
  ∃ g p now, g ∈ policy_grants s ∧ p ∈ policy_pending s ∧
    exact_grant_row subject (inv_tool inv) (inv_method inv) (inv_invocation_hash inv)
      (ctx_session_id csum) now g = true ∧
    g_approval_id g = Some (p_approval_id p) ∧ p_state p = "allowed" ∧
    p_subject_id p = subject ∧ p_invocation_hash p = inv_invocation_hash inv ∧
    matched_grant_id d = Some (grant_id g) ∧
    ∃ g', grant_at s' (grant_id g) = Some g' ∧ active g' = false ∧
          g_uses_count g' = (g_uses_count g + 1)%Z.
Proof.
  intros Hwf Hn Hops Hc Hd csum subject.
  destruct (check_allow _ _ _ _ _ _ _ _ _ _ _ _ Hc Hn Hd) as (risk & s1 & _ & Hb & _ & Hgr).
  { right. by rewrite Hops, orb_true_r. }
  inversion Hb as [|s2 d' _ Eg Ep Hdr Hres| |]; simplify_eq; try congruence.
  pose proof (store_wf_same _ _ (cleanup_wf _ Hwf) Eg) as Hwf2.
  destruct (cleanup_frame s) as (Hpc & Hdc & _).
  apply resolve_exact_ops_spec in Hres as (g & p & Hg & Hp & Hrow & Hap & Hacc & Hm & Hat);
    [|apply Hwf2; [congruence|lia]].
  exists g, p, (now_iso s2). rewrite Eg in Hg. rewrite Ep in Hp.
  assert (active g = true) as Hact.
  { unfold exact_grant_row, usable, not_revoked in Hrow. by bsplit. }
  split; [by apply cleanup_keeps_active|]. split; [done|]. split; [done|].
  unfold approval_row, approval_accepts in *. bsplit.
  split_and!; [symmetry; by apply ostr_eqb_eq|done..|].
  eexists. split; [unfold grant_at in *; rewrite Hgr; exact Hat|]. done.
Qed.

Definition demo_command : raw :=
  RawDict [("tool", PStr "ops.command"); ("method", PStr "run");
           ("args", PDict [("plan_id", PStr "p1"); ("argv", PList [PStr "ls"])])].

Lemma store_wf_one `{PyEnv} s g p i j :
  policy_grants s = [g] → policy_pending s = [p] → Nat.ltb i (drawn s) = true → Nat.ltb j (drawn s) = true →
  grant_id g = py_uuid4 i → p_approval_id p = py_uuid4 j → store_wf s.
Proof.
  intros Hg Hp Hi Hj Eg Ep. apply Nat.ltb_lt in Hi, Hj.
  split; rewrite ?Hg, ?Hp; simpl; try apply NoDup_singleton;
    (constructor; [eauto|constructor]).
Qed.

Lemma demo_approved_command_wf : store_wf (demo_approved demo_command).
Proof. eapply (store_wf_one _ _ _ 2 0); vm_compute; reflexivity. Qed.

Lemma ops_command_allow_spends_approval_witness :
  checked (demo_check demo_command (demo_approved demo_command))
    = Some ("ALLOW", "EXACT_PENDING_ALLOW") ∧
  ∃ g p now, g ∈ policy_grants (demo_approved demo_command) ∧
    exact_grant_row "local" "ops.command" "run" (stable_invocation_hash "ops.command" "run"
      [("plan_id", PStr "p1"); ("argv", PList [PStr "ls"])]) (Some "session-1") now g = true ∧
    p_state p = "allowed".
Proof.
  split; [vm_compute; reflexivity|].
  edestruct (ops_command_allow_spends_approval demo_ctl demo_command demo_context None None None
    demo_preview None (demo_approved demo_command)) as (g & p & now & Hg & _ & Hrow & _ & Hp & _);
    [exact demo_approved_command_wf|reflexivity|vm_compute; reflexivity
    |vm_compute; reflexivity|vm_compute; reflexivity|].
  exists g, p, now. exact (conj Hg (conj Hrow Hp)).
Defined.

(** The actions [_confirm_reason] asks about whatever the target: a destructive, financial or security risk; an [exec] or [state_change] risk
    with side effects; under [enforce_safe], everything but reads. *)
Definition guarded_risk (mode : string) (risk : RiskSpec) : bool :=
  str_in (risk_class risk) POLICY_HIGH_CONFIRM_RISKS
  || str_in (risk_class risk) POLICY_SIDE_EFFECT_CONFIRM_RISKS
     && negb (String.eqb (side_effects risk) POLICY_SIDE_EFFECT_NONE)
  || String.eqb mode POLICY_MODE_ENFORCE_SAFE
     && negb (String.eqb (risk_class risk) POLICY_RISK_READ).

Lemma guarded_confirms ctx risk mode config sensitive :
  guarded_risk mode risk = true → _confirm_reason ctx risk mode config sensitive ≠ None.
Proof.
  unfold guarded_risk, _confirm_reason. intros Hg.
  destruct sensitive; [done|]. case_match; [done|].
  destruct (str_in _ POLICY_HIGH_CONFIRM_RISKS); [done|]. cbn [orb] in Hg.
  destruct (str_in _ POLICY_SIDE_EFFECT_CONFIRM_RISKS && _); [done|]. cbn [orb] in Hg.
  case_match; [done|]. by rewrite Hg.
Qed.

Lemma guarded_not_read mode risk :
  guarded_risk mode risk = true → risk_class risk ≠ POLICY_RISK_READ.
Proof.
  intros Hg Hr. unfold guarded_risk in Hg. rewrite Hr in Hg. vm_compute (str_in _ _) in Hg.
  simpl in Hg. by rewrite andb_false_r in Hg.
Qed.

(** C8: in the enforcing modes a guarded action (see [guarded_risk]) other
    than an operations command is never allowed by default: an ALLOW rests
    either on a stored grant of the subject that covers the invocation and is
    live, unspent and not a deny (of duration [once] where the risk is
    financial or the action requires it), or on a configured rule in [auto]
    mode that [select_policy_rule] chose. *)
Theorem guarded_allow_needs_authority `{PyEnv, BlockchainPreview}
    ctl invocation context ro tro co preview perr s s' d inv risk :
  _normalize_invocation invocation = Ok inv → is_exact_ops inv = false →
  effective_risk ctl inv ro tro = Ok risk →
  check_mode ctl co s ∈ [POLICY_MODE_ENFORCE; POLICY_MODE_ENFORCE_SAFE] →
  guarded_risk (check_mode ctl co s) risk = true →
  check ctl invocation context ro tro co preview perr s = (s', Ok d) →
  decision d = POLICY_DECISION_ALLOW →
  (∃ g, authorizing_grant s
          (subject_or_default (_normalize_context context) (check_config ctl co))
          inv (_normalize_context context) g ∧
        matched_grant_id d = Some (grant_id g) ∧
        (requires_once_duration (inv_tool inv) (inv_method inv) (Some (risk_class risk)) = true →
         g_duration_type g = POLICY_DURATION_ONCE)) ∨
  (∃ rule, select_policy_rule inv risk (check_config ctl co) = Ok (Some rule) ∧
           rule_mode rule = "auto").
Proof.
  intros Hn Hops Hr Hmode Hg Hc Hd.
  assert (check_mode ctl co s ≠ POLICY_MODE_LOG_ONLY ∧ check_mode ctl co s ≠ POLICY_MODE_DISABLED)
    as [Hm1 Hm2].
  { apply elem_of_cons in Hmode as [->|Hmode]; [done|].
    by apply list_elem_of_singleton in Hmode as ->. }
  destruct (check_allow _ _ _ _ _ _ _ _ _ _ _ _ Hc Hn Hd) as (risk' & s1 & Hr' & Hb & _).
  { by left. }
  assert (risk' = risk) as -> by congruence.
  inversion Hb as [g Hag _ Honce _|? ? Hex|rule d' _ _ Hsel Hauto _|sens d' _ _ _ Hdef]; simplify_eq.
  - left. exists g. done.
  - congruence.
  - right. by exists rule.
  - destruct Hdef as [?|[[Hread _]|Hnone]]; [done| |].
    + by apply guarded_not_read in Hg.
    + by apply (guarded_confirms (_normalize_context context) risk _ (check_config ctl co) sens)
        in Hg.
Qed.

(** A deletion, allowed for the session. *)
Definition demo_delete : raw :=
  RawDict [("tool", PStr "file"); ("method", PStr "delete"); ("args", PDict [("path", PStr "/tmp/x")])].
Definition demo_granted : Store :=
  (create_grant_from_confirmation demo_ctl demo_delete demo_context "allow_session" None None None
     empty_store).1.

Lemma guarded_allow_needs_authority_witness :
  checked (demo_check demo_delete empty_store) = Some ("REQUIRE_CONFIRM", "HIGH_RISK") ∧
  ∃ g, g ∈ policy_grants demo_granted ∧ g_effect g ≠ POLICY_GRANT_EFFECT_DENY.
Proof.
  split; [vm_compute; reflexivity|].
  edestruct (guarded_allow_needs_authority demo_ctl demo_delete demo_context None None None
    demo_preview None demo_granted) as [(g & [Hg _ _ _ Ha] & _)|(rule & Hsel & _)];
    [vm_compute; reflexivity|vm_compute; reflexivity|vm_compute; reflexivity|left
    |vm_compute; reflexivity|vm_compute; reflexivity|vm_compute; reflexivity| |].
  - exists g. exact (conj Hg Ha).
  - vm_compute in Hsel. discriminate Hsel.
Defined.

(** A configured block rule wins over every grant, approval and default:
    when the rule [select_policy_rule] chooses has mode [block], [check]
    denies in every mode but [log_only], and the deny spends no grant and
    opens no confirmation. *)
Theorem block_rule_denies `{PyEnv, BlockchainPreview}
    ctl invocation context ro tro co preview perr s inv risk rule :
  _normalize_invocation invocation = Ok inv → effective_risk ctl inv ro tro = Ok risk →
  check_mode ctl co s ≠ POLICY_MODE_LOG_ONLY →
  select_policy_rule inv risk (check_config ctl co) = Ok (Some rule) → rule_mode rule = "block" →
  let r := check ctl invocation context ro tro co preview perr s in
  (∃ d, r.2 = Ok d ∧ decision d = POLICY_DECISION_DENY) ∧
  policy_pending r.1 = policy_pending s ∧
  (policy_grants r.1 = policy_grants s ∨ policy_grants r.1 = policy_grants (cleanup_expired s).1).
Proof.
  intros Hn Hr Hmode Hsel Hblock r. subst r. rewrite (check_eq _ _ _ _ _ _ _ _ _ _ _ Hn Hr).
  set (csum := _normalize_context context).
  destruct (authorization_preflight_decision _ _ _ _ _ _) as [p|] eqn:Ep.
  - destruct (log_decision_total ctl inv csum p s) as [s' Hl].
    pose proof (logs_frame _ _ _ _ _ _ Hl) as (Hg & Hpd & _). unfold logs in Hl.
    rewrite (bind_of_Ok _ _ _ _ _ Hl). simpl. apply preflight_denies in Ep.
    split_and!; [by exists p|done|by left].
  - destruct (cleanup_frame s) as (Hpend & _ & _ & _ & n & Hn').
    assert (∃ b, blocked_rule_decision (Some rule) risk = Some b ∧ decision b = POLICY_DECISION_DENY)
      as (b & Hb & Hbd) by (unfold blocked_rule_decision; rewrite Hblock; by eexists).
    assert (_evaluate_enforced ctl inv csum risk
      (negb (String.eqb (check_mode ctl co s) POLICY_MODE_LOG_ONLY)) (check_mode ctl co s)
      (check_config ctl co) preview s = ((cleanup_expired s).1, Ok b)) as He.
    { unfold _evaluate_enforced.
      rewrite (bind_of_Ok _ _ s (cleanup_expired s).1 n)
        by (rewrite <-Hn'; by destruct (cleanup_expired s)).
      rewrite (bind_of_Ok _ _ _ (cleanup_expired s).1 (Some rule))
        by (unfold lift_result; by rewrite Hsel). by rewrite Hb. }
    rewrite (bind_of_Ok _ _ _ _ _ He).
    destruct (log_decision_total ctl inv csum b (cleanup_expired s).1) as [s' Hl].
    pose proof (logs_frame _ _ _ _ _ _ Hl) as (Hg & Hpd & _). unfold logs in Hl.
    rewrite (bind_of_Ok _ _ _ _ _ Hl). apply String.eqb_neq in Hmode. rewrite Hmode. simpl.
    split_and!; [by exists b|congruence|by right].
Qed.

Definition demo_block_config (mode : string) : PolicyConfig :=
  {| cfg_mode := mode; cfg_default_action := "require_confirm";
     cfg_default_duration := POLICY_DURATION_ONCE; cfg_sandbox_path_prefixes := [];
     cfg_allow_read_only_without_prompt := true;
     cfg_rules := [{| rule_tool_name := "file.delete"; rule_min_risk_class := "";
                      rule_mode := "block" |}];
     cfg_affirmative_tokens := ["yes"]; cfg_negative_tokens := ["no"];
     cfg_subject_id_default := "local"; cfg_decision_log_enabled := true |}.

Lemma block_rule_denies_witness :
  ∃ d, (check demo_ctl demo_delete demo_context None None (Some (demo_block_config POLICY_MODE_ENFORCE)) None None
          demo_granted).2 = Ok d ∧ decision d = POLICY_DECISION_DENY.
Proof.
  eapply proj1, (block_rule_denies demo_ctl demo_delete demo_context None None
    (Some (demo_block_config POLICY_MODE_ENFORCE)) None None demo_granted);
    [vm_compute; reflexivity|vm_compute; reflexivity|discriminate|vm_compute; reflexivity
    |reflexivity].
Defined.

(** In [log_only] mode [check] observes.  Whether it returns or raises, no
    grant is spent (the grant table changes only by the revocation of grants
    that had expired) and no confirmation is opened or resolved; and the
    decision for every action that is not exact is ALLOW, recording the
    decision enforcement would have taken. *)
Theorem log_only_observes `{PyEnv, BlockchainPreview}
    ctl invocation context ro tro co preview perr s :
  check_mode ctl co s = POLICY_MODE_LOG_ONLY →
  let r := check ctl invocation context ro tro co preview perr s in
  policy_pending r.1 = policy_pending s ∧
  (policy_grants r.1 = policy_grants s ∨ policy_grants r.1 = policy_grants (cleanup_expired s).1) ∧
  ∀ d inv, r.2 = Ok d → _normalize_invocation invocation = Ok inv →
    is_policy_authorization_pair (inv_tool inv) (inv_method inv) || is_exact_ops inv = false →
    decision d = POLICY_DECISION_ALLOW ∧ reason_code d = "LOG_ONLY_ALLOW".
Proof.
  intros Hmode r. subst r.
  destruct (_normalize_invocation invocation) as [inv|e] eqn:Hn;
    [|unfold check; rewrite Hn; split_and!; [done|by left|done]].
  destruct (effective_risk ctl inv ro tro) as [risk|e] eqn:Hr;
    [|unfold check, mbind, M_bind, lift_result; rewrite Hn, Hr; split_and!; [done|by left|done]].
  rewrite (check_eq _ _ _ _ _ _ _ _ _ _ _ Hn Hr). set (csum := _normalize_context context).
  destruct (authorization_preflight_decision _ _ _ _ _ _) as [p|] eqn:Ep.
  - destruct (log_decision_total ctl inv csum p s) as [s' Hl].
    pose proof (logs_frame _ _ _ _ _ _ Hl) as (Hg & Hpd & _). unfold logs in Hl.
    rewrite (bind_of_Ok _ _ _ _ _ Hl). simpl. split_and!; [done|by left|].
    intros d inv' _ [= <-] Hex. apply preflight_exact in Ep. congruence.
  - assert (is_policy_authorization_pair (inv_tool inv) (inv_method inv) || is_exact_ops inv
      = false) as Hex.
    { destruct (_ || _) eqn:Hex; [|done]. eapply preflight_mode in Ep; [|done].
      by rewrite Hmode in Ep. }
    pose proof Hex as Hex'. apply orb_false_iff in Hex' as [Hpair Hops].
    pose proof (evaluate_observes ctl inv csum risk Hpair Hops (check_mode ctl co s)
      (check_config ctl co) preview s) as [Eg Ep' _ _ _ _].
    destruct (cleanup_frame s) as (Hpend & _). rewrite Hmode in Eg, Ep'.
    rewrite !Hmode, String.eqb_refl. cbn [negb].
    unfold mbind, M_bind.
    destruct (_evaluate_enforced _ _ _ _ _ _ _ _ s) as [s1 [e|ex]] eqn:He; cbn [fst] in Eg, Ep'.
    2:{ cbn [fst snd]. split_and!; [congruence|by right|done]. }
    destruct (log_decision_total ctl inv csum e s1) as [s' Hl].
    pose proof (logs_frame _ _ _ _ _ _ Hl) as (Hg & Hpd & _). unfold logs in Hl. rewrite Hl.
    unfold mret, M_ret. cbn [fst snd].
    split_and!; [congruence|right; congruence|].
    intros d inv' [= <-] _ _. done.
Qed.

Lemma log_only_observes_witness :
  policy_pending (check demo_ctl demo_delete demo_context None None
    (Some (demo_block_config POLICY_MODE_LOG_ONLY)) None None
    demo_granted).1 = policy_pending demo_granted.
Proof.
  eapply proj1, (log_only_observes demo_ctl demo_delete demo_context None None
    (Some (demo_block_config POLICY_MODE_LOG_ONLY)) None None demo_granted).
  reflexivity.
Defined.

(** Decisions are logged exactly once.  When the decision log is enabled, a
    [check] that returns appends one row to it, for the invocation's tool,
    method, id and hash, with the decision enforcement took (which in
    [log_only] mode is the one reported as [would_decision]); one that raises
    appends nothing. *)
Theorem check_logs_once `{PyEnv, BlockchainPreview}
    ctl invocation context ro tro co preview perr s :
  cfg_decision_log_enabled (ctl_config ctl) = true →
  let r := check ctl invocation context ro tro co preview perr s in
  match r.2 with
  | Ok d => ∃ row inv, policy_decisions r.1 = policy_decisions s ++ [row] ∧
      _normalize_invocation invocation = Ok inv ∧
      dr_tool row = inv_tool inv ∧ dr_method row = inv_method inv ∧
      dr_invocation_id row = invocation_id inv ∧
      dr_invocation_hash row = Some (inv_invocation_hash inv) ∧
      (reason_code d ≠ "LOG_ONLY_ALLOW" →
       dr_decision row = py_lower (decision d) ∧ dr_reason_code row = reason_code d ∧
       dr_matched_grant_id row = matched_grant_id d)
  | Raise _ => policy_decisions r.1 = policy_decisions s
  end.
Proof.
  intros Hlog r. subst r.
  destruct (_normalize_invocation invocation) as [inv|e] eqn:Hn;
    [|unfold check; by rewrite Hn].
  destruct (effective_risk ctl inv ro tro) as [risk|e] eqn:Hr;
    [|unfold check, mbind, M_bind, lift_result; by rewrite Hn, Hr].
  rewrite (check_eq _ _ _ _ _ _ _ _ _ _ _ Hn Hr). set (csum := _normalize_context context).
  destruct (authorization_preflight_decision _ _ _ _ _ _) as [p|] eqn:Ep.
  - destruct (logs_row ctl inv csum p s Hlog) as (s' & row & Hl & Hd & Hrow).
    rewrite (bind_of_Ok _ _ _ _ _ Hl). exists row, inv. simpl.
    destruct Hrow as (?&?&?&?&?&?&?). split_and!; auto.
  - pose proof (evaluate_no_log ctl inv csum risk
      (negb (String.eqb (check_mode ctl co s) POLICY_MODE_LOG_ONLY)) (check_mode ctl co s)
      (check_config ctl co) preview s) as He.
    unfold mbind, M_bind. destruct (_evaluate_enforced _ _ _ _ _ _ _ _ s) as [s1 [e|ex]];
      cbn [fst] in He; [|done].
    destruct (logs_row ctl inv csum e s1 Hlog) as (s' & row & Hl & Hd & Hrow).
    rewrite Hl. destruct (String.eqb _ POLICY_MODE_LOG_ONLY); cbn [fst snd mret M_ret];
      exists row, inv; destruct Hrow as (?&?&?&?&?&?&?); rewrite Hd, He;
      (split_and!; auto; done).
Qed.

Lemma check_logs_once_witness :
  match (demo_check demo_delete empty_store).2 with
  | Ok _ => ∃ row, policy_decisions (demo_check demo_delete empty_store).1 = [row]
  | Raise _ => False
  end.
Proof.
  pose proof (check_logs_once demo_ctl demo_delete demo_context None None None demo_preview None
    empty_store eq_refl) as Hw. cbv zeta in Hw. fold (demo_check demo_delete empty_store) in Hw.
  assert (∃ d, (demo_check demo_delete empty_store).2 = Ok d) as [d Hd]
    by (eexists; vm_compute; reflexivity).
  rewrite Hd in Hw |- *. destruct Hw as (row & _ & Hrow & _). exists row. exact Hrow.
Defined.

(** The inference of unregistered risks tests the read tokens first and
    as substrings of the method, so a method such as [delete_target] (which
    contains [get]) is classed as a read although it names a deletion; under
    the default configuration [check] then allows it without confirmation,
    while the same tool's [delete] must be confirmed. *)
Theorem inferred_read_shadows_deletion args id h :
  risk_class (_infer_risk {| invocation_id := id; inv_tool := "file";
    inv_method := "delete_target"; inv_args := args; inv_invocation_hash := h |}) = POLICY_RISK_READ ∧
  risk_class (_infer_risk {| invocation_id := id; inv_tool := "file";
    inv_method := "delete"; inv_args := args; inv_invocation_hash := h |}) = POLICY_RISK_DESTRUCTIVE ∧
  checked (demo_check (RawDict [("tool", PStr "file"); ("method", PStr "delete_target")]) empty_store)
    = Some (POLICY_DECISION_ALLOW, "READ_ONLY_ALLOW") ∧
  checked (demo_check (RawDict [("tool", PStr "file"); ("method", PStr "delete")]) empty_store)
    = Some (POLICY_DECISION_REQUIRE_CONFIRM, "HIGH_RISK").
Proof. split_and!; vm_compute; reflexivity. Qed.
