(* ===== verification/TurnLeases.v ===== *)
(** Session turn leases ([modules/session/storage/turn_leases.py], class
    [SessionTurnLeaseStore]): one row per session (the table's primary key is
    [session_id]) holding the owner, request and fence token of the turn in
    progress.  Every operation runs under the store's lock and in one
    transaction, so operations are atomic steps.  The session row a lease
    refers to is taken to exist. *)

From S2P Require Import Prelude PyValue Timestamps PolicyModels PolicyStore Demo.
From Stdlib Require Import Ascii.

Record SessionTurnLease := {
  l_session_id : string;
  l_owner : string;
  l_request_id : string;
  l_fence_token : Z;
  l_acquired_at : string;
  l_renewed_at : string;
  l_expires_at : string;
}.

(** A row of [session_turn_leases]: the lease and its [released_at] column. *)
Record LeaseRow := {
  row_lease : SessionTurnLease;
  row_released_at : option string;
}.

Definition SessionTurnLease_to_dict (l : SessionTurnLease) : dict :=
  [("session_id", PStr (l_session_id l)); ("owner", PStr (l_owner l));
   ("request_id", PStr (l_request_id l)); ("fence_token", PInt (l_fence_token l));
   ("acquired_at", PStr (l_acquired_at l)); ("renewed_at", PStr (l_renewed_at l));
   ("expires_at", PStr (l_expires_at l))].

Inductive lease_exn : Type :=
| LeaseValueError (msg : string)
| SessionTurnBusyError (session_id : string) (retry_after_s : Z)
    (active_owner expires_at : string)
| SessionTurnFenceError (msg : string)
| LeaseRuntimeError (msg : string).

(** The table and the number of clock readings taken. *)
Record LeaseWorld := { leases : gmap string LeaseRow; lease_ticks : nat }.
Abbreviation LM A := (M LeaseWorld lease_exn A).

Definition SESSION_TURN_LEASE_SCHEMA_VERSION : string := "session_turn_lease.v1".

Definition mk_busy (session_id : string) (retry_after_s : Z) (active_owner expires_at : string)
    : lease_exn :=
  SessionTurnBusyError session_id (Z.max 1 retry_after_s) active_owner expires_at.

Definition row_live (now : string) (r : LeaseRow) : bool :=
  match row_released_at r with None => true | Some _ => false end
  && str_ltb now (l_expires_at (row_lease r)).

Definition renew_row (now expires : string) (r : LeaseRow) : LeaseRow :=
  let l := row_lease r in
  {| row_lease := {| l_session_id := l_session_id l; l_owner := l_owner l;
       l_request_id := l_request_id l; l_fence_token := l_fence_token l;
       l_acquired_at := l_acquired_at l; l_renewed_at := now; l_expires_at := expires |};
     row_released_at := row_released_at r |}.
Definition release_row (now : string) (r : LeaseRow) : LeaseRow :=
  let l := row_lease r in
  {| row_lease := {| l_session_id := l_session_id l; l_owner := l_owner l;
       l_request_id := l_request_id l; l_fence_token := l_fence_token l;
       l_acquired_at := l_acquired_at l; l_renewed_at := now;
       l_expires_at := l_expires_at l |};
     row_released_at := Some now |}.

(** [WHERE session_id = ? AND owner = ? AND fence_token = ? AND released_at IS NULL] *)
Definition held_by (owner : string) (fence : Z) (r : LeaseRow) : bool :=
  String.eqb (l_owner (row_lease r)) owner && Z.eqb (l_fence_token (row_lease r)) fence
  && match row_released_at r with None => true | Some _ => false end.

Section Leases.
Context {Env : PyEnv}.

Definition _parse_iso_datetime (value : string) : option Z :=
  match py_fromisoformat (py_replace "Z"%char "+00:00" value) with
  | None => None
  | Some (local, None) => Some local
  | Some (local, Some offset) => Some (local - offset)%Z
  end.

Definition _utc_now : LM Z := λ w,
  ({| leases := leases w; lease_ticks := S (lease_ticks w) |}, Ok (py_clock (lease_ticks w))).

(** [_parse_iso_datetime(now_iso) if now_iso else _utc_now()] *)
Definition parse_or_now (now_iso : option string) : LM Z :=
  if otruthy now_iso then
    match _parse_iso_datetime (default "" now_iso) with
    | Some t => mret t
    | None => raise (LeaseValueError "Invalid isoformat string")
    end
  else _utc_now.

Definition _lease_expiry (now_iso : option string) (ttl_s : Z) : LM (string * string) :=
  now_dt ← parse_or_now now_iso;
  mret (isoformat now_dt, isoformat (now_dt + Z.max 1 ttl_s * 1000000)%Z).

(** The current time is always passed as text, so no clock is read. *)
Definition _retry_after_seconds (expires_at now_iso : string) : Z :=
  match _parse_iso_datetime expires_at, _parse_iso_datetime now_iso with
  | Some e, Some n => Z.max 1 (Z.quot (e - n) 1000000)
  | _, _ => 1
  end.

Definition update_row (sid : string) (p : LeaseRow → bool) (f : LeaseRow → LeaseRow) : LM nat :=
  λ w, match leases w !! sid with
       | Some r =>
           if p r then
             ({| leases := <[sid := f r]> (leases w); lease_ticks := lease_ticks w |}, Ok 1)
           else (w, Ok 0)
       | None => (w, Ok 0)
       end.

Definition _renew_locked (session_id owner : string) (fence_token : Z) (now expires : string)
    : LM bool :=
  if negb (truthy session_id) || negb (truthy owner) then mret false
  else
    updated ← update_row session_id (held_by owner fence_token) (renew_row now expires);
    mret (0 <? updated)%nat.

Definition _get_locked (session_id : string) : LM (option SessionTurnLease) :=
  gets (λ w, match leases w !! session_id with
             | Some r => match row_released_at r with
                         | None => Some (row_lease r)
                         | Some _ => None
                         end
             | None => None
             end).

Definition lease_rollback (before after : LeaseWorld) : LeaseWorld :=
  {| leases := leases before; lease_ticks := lease_ticks after |}.

Definition insert_lease (sid owner request : string) (fence : Z) (now expires : string) : LM () :=
  modify (λ w, {| leases := <[sid := {| row_lease :=
      {| l_session_id := sid; l_owner := owner; l_request_id := request;
         l_fence_token := fence; l_acquired_at := now; l_renewed_at := now;
         l_expires_at := expires |}; row_released_at := None |}]> (leases w);
    lease_ticks := lease_ticks w |}).

Definition busy {A} (sid : string) (current : LeaseRow) (now : string) : LM A :=
  raise (mk_busy sid (_retry_after_seconds (l_expires_at (row_lease current)) now)
           (l_owner (row_lease current)) (l_expires_at (row_lease current))).

Definition acquire_tx (sid lease_owner request now expires : string) : LM SessionTurnLease :=
  current ← gets (λ w, match leases w !! sid with
                       | Some r => if row_live now r then Some r else None
                       | None => None
                       end);
  match current with
  | Some current =>
      if String.eqb (l_owner (row_lease current)) lease_owner
         && String.eqb (l_request_id (row_lease current)) request then
        renewed ← _renew_locked sid lease_owner (l_fence_token (row_lease current)) now expires;
        if renewed : bool then
          refreshed ← _get_locked sid;
          match refreshed with
          | Some l => mret l
          | None => busy sid current now
          end
        else busy sid current now
      else busy sid current now
  | None =>
      max_fence ← gets (λ w, match leases w !! sid with
                             | Some r => l_fence_token (row_lease r)
                             | None => 0%Z
                             end);
      _ ← insert_lease sid lease_owner request (max_fence + 1)%Z now expires;
      lease ← _get_locked sid;
      match lease with
      | None => raise (LeaseRuntimeError "failed to acquire session turn lease")
      | Some l => mret l
      end
  end.

Definition acquire (session_id owner request_id : string) (ttl_s : Z) (now_iso : option string)
    : LM SessionTurnLease :=
  let sid := py_strip session_id in
  let lease_owner := py_strip owner in
  let request := py_strip request_id in
  if negb (truthy sid) then raise (LeaseValueError "session_id is required")
  else if negb (truthy lease_owner) then raise (LeaseValueError "owner is required")
  else if negb (truthy request) then raise (LeaseValueError "request_id is required")
  else
    times ← _lease_expiry now_iso ttl_s;
    transaction lease_rollback (acquire_tx sid lease_owner request times.1 times.2).

Definition renew (session_id owner : string) (fence_token ttl_s : Z) (now_iso : option string)
    : LM bool :=
  times ← _lease_expiry now_iso ttl_s;
  transaction lease_rollback
    (_renew_locked (py_strip session_id) (py_strip owner) fence_token times.1 times.2).

Definition release (session_id owner : string) (fence_token : Z) (now_iso : option string)
    : LM bool :=
  times ← _lease_expiry now_iso 1;
  transaction lease_rollback (
    updated ← update_row (py_strip session_id) (held_by (py_strip owner) fence_token)
                (release_row times.1);
    mret (0 <? updated)%nat).

Definition assert_fence (session_id : string) (fence_token : Z) : LM () :=
  let sid := py_strip session_id in
  row ← gets (λ w, leases w !! sid);
  match row with
  | None => raise (SessionTurnFenceError ("session turn lease is not active: " +:+ sid))
  | Some r =>
      match row_released_at r with
      | Some _ => raise (SessionTurnFenceError ("session turn lease is not active: " +:+ sid))
      | None =>
          if negb (Z.eqb (l_fence_token (row_lease r)) fence_token)
          then raise (SessionTurnFenceError ("stale session turn fence for " +:+ sid))
          else mret ()
      end
  end.

Definition get_active (session_id : string) : LM (option SessionTurnLease) :=
  _get_locked (py_strip session_id).

Definition count_rows (p : LeaseRow → bool) (m : gmap string LeaseRow) : nat :=
  size (filter (λ kr, p kr.2 = true) m).

Definition status (now_iso : option string) : LM dict :=
  times ← _lease_expiry now_iso 1;
  gets (λ w,
    [("schema_version", PStr SESSION_TURN_LEASE_SCHEMA_VERSION);
     ("active_count", PInt (Z.of_nat (count_rows (row_live times.1) (leases w))));
     ("expired_unreleased_count", PInt (Z.of_nat (count_rows (λ r,
         match row_released_at r with None => true | Some _ => false end
         && str_leb (l_expires_at (row_lease r)) times.1) (leases w))));
     ("max_fence_token", PInt (map_fold (λ _ r m, Z.max (l_fence_token (row_lease r)) m) 0%Z
                                 (leases w)))]).
End Leases.
