(* ===== verification/TurnLeasesProps.v ===== *)
(** Session turn leases: what each operation does to the table, mutual
    exclusion, and the monotonicity and uniqueness of fence tokens over
    arbitrary sequences of operations. *)

From S2P Require Import Prelude PyValue Timestamps PolicyModels PolicyStore Demo TurnLeases.

Section LeaseProps.
Context {Env : PyEnv}.

Definition set_lease (sid : string) (r : LeaseRow) (w : LeaseWorld) : LeaseWorld :=
  {| leases := <[sid := r]> (leases w); lease_ticks := lease_ticks w |}.

Definition fresh_row (sid owner request : string) (fence : Z) (now expires : string) : LeaseRow :=
  {| row_lease := {| l_session_id := sid; l_owner := owner; l_request_id := request;
       l_fence_token := fence; l_acquired_at := now; l_renewed_at := now;
       l_expires_at := expires |}; row_released_at := None |}.

Definition is_holder (owner request : string) (r : LeaseRow) : bool :=
  String.eqb (l_owner (row_lease r)) owner && String.eqb (l_request_id (row_lease r)) request.

Definition fence_at (w : LeaseWorld) (sid : string) : Z :=
  match leases w !! sid with Some r => l_fence_token (row_lease r) | None => 0%Z end.

(** The world and result of the locked part of [acquire]. *)
Definition acquired (sid owner request now expires : string) (w : LeaseWorld)
    : LeaseWorld * result lease_exn SessionTurnLease :=
  let fresh := fresh_row sid owner request (fence_at w sid + 1)%Z now expires in
  match leases w !! sid with
  | Some r =>
      if row_live now r then
        if is_holder owner request r then
          (set_lease sid (renew_row now expires r) w, Ok (row_lease (renew_row now expires r)))
        else (w, Raise (mk_busy sid (_retry_after_seconds (l_expires_at (row_lease r)) now)
                          (l_owner (row_lease r)) (l_expires_at (row_lease r))))
      else (set_lease sid fresh w, Ok (row_lease fresh))
  | None => (set_lease sid fresh w, Ok (row_lease fresh))
  end.

Lemma acquire_tx_eq sid owner request now expires w :
  truthy sid = true → truthy owner = true →
  acquire_tx sid owner request now expires w = acquired sid owner request now expires w.
Proof.
  intros Hs Ho. unfold acquire_tx, acquired, _get_locked, insert_lease, _renew_locked,
    update_row, busy, is_holder, fence_at. munfold.
  destruct (leases w !! sid) as [r|] eqn:E.
  - destruct (row_live now r) eqn:El.
    + destruct (String.eqb (l_owner _) owner && _) eqn:Eh; [|done].
      rewrite Hs, Ho. cbn [negb orb]. rewrite E.
      unfold row_live in El. bsplit. unfold held_by. rewrite Z.eqb_refl.
      destruct (row_released_at r) eqn:Er; [done|].
      match goal with H : l_owner _ = owner |- _ => rewrite H end.
      rewrite String.eqb_refl. cbn. rewrite lookup_insert_eq. cbn. by rewrite Er.
    + rewrite E. cbn. by rewrite lookup_insert_eq.
  - rewrite E. cbn. by rewrite lookup_insert_eq.
Qed.

Lemma transaction_acquired sid owner request now expires w :
  truthy sid = true → truthy owner = true →
  transaction lease_rollback (acquire_tx sid owner request now expires) w
  = acquired sid owner request now expires w.
Proof.
  intros Hs Ho. unfold transaction. rewrite acquire_tx_eq by done.
  unfold acquired. destruct (leases w !! sid) as [r|]; [|done].
  destruct (row_live now r); [|done]. destruct (is_holder owner request r); [done|].
  by destruct w.
Qed.

(** ** Evolution of a row *)

(** A row is succeeded by one with a greater fence token, or by one of the
    same tenure: same fence, owner and request, still released if it was. *)
Definition succeeds (r r' : LeaseRow) : Prop :=
  (l_fence_token (row_lease r) < l_fence_token (row_lease r'))%Z ∨
  (l_fence_token (row_lease r) = l_fence_token (row_lease r') ∧
   l_owner (row_lease r) = l_owner (row_lease r') ∧
   l_request_id (row_lease r) = l_request_id (row_lease r') ∧
   (row_released_at r ≠ None → row_released_at r' ≠ None)).

#[export] Instance succeeds_preorder : PreOrder succeeds.
Proof.
  split; [intros r; by right|]. intros r1 r2 r3. unfold succeeds.
  intros [?|(? & ? & ? & ?)] [?|(? & ? & ? & ?)]; [left; lia|left; lia|left; lia|right].
  split_and!; [lia|congruence|congruence|auto].
Qed.

Definition extends (w w' : LeaseWorld) : Prop :=
  ∀ sid r, leases w !! sid = Some r → ∃ r', leases w' !! sid = Some r' ∧ succeeds r r'.

#[export] Instance extends_preorder : PreOrder extends.
Proof.
  split; [intros w sid r Hr; exists r; split; [done|reflexivity]|].
  intros w1 w2 w3 H12 H23 sid r Hr. destruct (H12 _ _ Hr) as (r2 & Hr2 & S2).
  destruct (H23 _ _ Hr2) as (r3 & Hr3 & S3). exists r3. split; [done|]. by etrans.
Qed.

Lemma extends_same w w' : leases w' = leases w → extends w w'.
Proof. intros E sid r Hr. exists r. rewrite E. split; [done|reflexivity]. Qed.

Lemma extends_set w sid r' :
  (∀ r, leases w !! sid = Some r → succeeds r r') → extends w (set_lease sid r' w).
Proof.
  intros Hs sid0 r Hr. unfold set_lease. simpl. destruct (decide (sid0 = sid)) as [->|].
  - exists r'. rewrite lookup_insert_eq. auto.
  - exists r. rewrite lookup_insert_ne by done. split; [done|reflexivity].
Qed.

Lemma acquired_extends sid owner request now expires w :
  extends w (acquired sid owner request now expires w).1.
Proof.
  unfold acquired. destruct (leases w !! sid) as [r|] eqn:E.
  - destruct (row_live now r); [destruct (is_holder _ _ r)|]; simpl.
    + apply extends_set. intros r0 Hr. rewrite E in Hr. simplify_eq. right. done.
    + reflexivity.
    + apply extends_set. intros r0 Hr. rewrite E in Hr. simplify_eq. left. simpl.
      unfold fence_at. rewrite E. lia.
  - apply extends_set. intros r Hr. congruence.
Qed.

Lemma update_row_other sid p f w n key row :
  leases w !! key = Some row → ¬ (sid = key ∧ p row = true) →
  leases (update_row sid p f {| leases := leases w; lease_ticks := n |}).1 !! key = Some row.
Proof.
  intros Hrow Hn. unfold update_row. simpl. destruct (decide (sid = key)) as [->|Hne].
  - rewrite Hrow. destruct (p row) eqn:Ep; [by exfalso; apply Hn|done].
  - repeat case_match; simpl; rewrite ?lookup_insert_ne by done; done.
Qed.

(** ** Operations as steps *)

Inductive lease_op : Type :=
| LAcquire (session_id owner request_id : string) (ttl_s : Z) (now_iso : option string)
| LRenew (session_id owner : string) (fence_token ttl_s : Z) (now_iso : option string)
| LRelease (session_id owner : string) (fence_token : Z) (now_iso : option string)
| LStatus (now_iso : option string).

(** One operation: the table after it, and the lease [acquire] returned. *)
Definition run_lease (op : lease_op) (w : LeaseWorld) : LeaseWorld * option SessionTurnLease :=
  match op with
  | LAcquire sid owner request ttl now =>
      let r := acquire sid owner request ttl now w in
      (r.1, match r.2 with Ok l => Some l | Raise _ => None end)
  | LRenew sid owner fence ttl now => ((renew sid owner fence ttl now w).1, None)
  | LRelease sid owner fence now => ((release sid owner fence now w).1, None)
  | LStatus now => ((status now w).1, None)
  end.

Fixpoint run_leases (ops : list lease_op) (w : LeaseWorld) : LeaseWorld :=
  match ops with
  | [] => w
  | op :: ops' => run_leases ops' (run_lease op w).1
  end.

Lemma lease_expiry_leases now ttl w : leases (_lease_expiry now ttl w).1 = leases w.
Proof.
  unfold _lease_expiry, parse_or_now, _utc_now. munfold. repeat case_match; by simplify_eq/=.
Qed.

Lemma update_row_spec sid p f w :
  (leases w !! sid = None ∧ update_row sid p f w = (w, Ok 0)) ∨
  (∃ r, leases w !! sid = Some r ∧ p r = false ∧ update_row sid p f w = (w, Ok 0)) ∨
  (∃ r, leases w !! sid = Some r ∧ p r = true ∧
        update_row sid p f w = (set_lease sid (f r) w, Ok 1)).
Proof.
  unfold update_row. destruct (leases w !! sid) as [r|] eqn:E; [|by left]. right.
  destruct (p r) eqn:Ep; [right|left]; by exists r.
Qed.

Lemma update_row_extends sid p f w :
  (∀ r, p r = true → succeeds r (f r)) → extends w (update_row sid p f w).1.
Proof.
  intros Hf. destruct (update_row_spec sid p f w) as [[_ ->]|[(r & _ & _ & ->)|(r & E & Hp & ->)]];
    simpl; [reflexivity..|].
  apply extends_set. intros r0 Hr. rewrite E in Hr. simplify_eq. auto.
Qed.

Definition holds_at (w : LeaseWorld) (sid : string) (p : LeaseRow → bool) : bool :=
  match leases w !! sid with Some r => p r | None => false end.

(** The transactional body of [renew] and [release]. *)
Lemma tx_update sid p f w :
  transaction lease_rollback (updated ← update_row sid p f; mret (0 <? updated)) w
  = ((update_row sid p f w).1, Ok (holds_at w sid p)).
Proof.
  unfold transaction, holds_at. munfold.
  destruct (update_row_spec sid p f w) as [[E ->]|[(r & E & Hp & ->)|(r & E & Hp & ->)]];
    by rewrite E, ?Hp.
Qed.

Lemma lease_expiry_cases now ttl w :
  (∃ n t, _lease_expiry now ttl w = ({| leases := leases w; lease_ticks := n |},
     Ok (isoformat t, isoformat (t + Z.max 1 ttl * 1000000)%Z))) ∨
  (∃ e, _lease_expiry now ttl w = (w, Raise e)).
Proof.
  unfold _lease_expiry, parse_or_now, _utc_now. munfold. destruct w as [m k].
  destruct (otruthy now); [destruct (_parse_iso_datetime _)|]; simpl; eauto 6.
Qed.

(** [renew] and [release]: the row changes only when the caller holds it. *)
Lemma renew_eq sid owner fence ttl now w :
  let key := py_strip sid in
  (∃ n t, renew sid owner fence ttl now w =
     ((if truthy key && truthy (py_strip owner)
       then (update_row key (held_by (py_strip owner) fence)
               (renew_row (isoformat t) (isoformat (t + Z.max 1 ttl * 1000000)%Z))
               {| leases := leases w; lease_ticks := n |}).1
       else {| leases := leases w; lease_ticks := n |}),
      Ok (truthy key && truthy (py_strip owner)
          && holds_at w key (held_by (py_strip owner) fence)))) ∨
  (∃ e, renew sid owner fence ttl now w = (w, Raise e)).
Proof.
  intros key. unfold renew.
  destruct (lease_expiry_cases now ttl w) as [(n & t & E)|(e & E)];
    [left; exists n, t|right; exists e; by rewrite (bind_of_Raise _ _ _ _ _ E)].
  rewrite (bind_of_Ok _ _ _ _ _ E). cbn [fst snd]. unfold _renew_locked. fold key.
  destruct (truthy key), (truthy (py_strip owner)); cbn [negb orb andb]; [|done..].
  by rewrite tx_update.
Qed.

Lemma release_eq sid owner fence now w :
  let key := py_strip sid in
  (∃ n t, release sid owner fence now w =
     ((update_row key (held_by (py_strip owner) fence) (release_row (isoformat t))
         {| leases := leases w; lease_ticks := n |}).1,
      Ok (holds_at w key (held_by (py_strip owner) fence)))) ∨
  (∃ e, release sid owner fence now w = (w, Raise e)).
Proof.
  intros key. unfold release.
  destruct (lease_expiry_cases now 1 w) as [(n & t & E)|(e & E)];
    [left; exists n, t|right; exists e; by rewrite (bind_of_Raise _ _ _ _ _ E)].
  rewrite (bind_of_Ok _ _ _ _ _ E). cbn [fst snd]. fold key. by rewrite tx_update.
Qed.

(** [acquire]: either the arguments or the clock text are refused and the
    table is untouched, or the locked part runs. *)
Lemma acquire_cases sid owner request ttl now w :
  (∃ n t, let key := py_strip sid in let o := py_strip owner in let q := py_strip request in
     truthy key = true ∧ truthy o = true ∧ truthy q = true ∧
     acquire sid owner request ttl now w =
     acquired key o q (isoformat t) (isoformat (t + Z.max 1 ttl * 1000000)%Z)
       {| leases := leases w; lease_ticks := n |}) ∨
  (∃ e, acquire sid owner request ttl now w = (w, Raise e)).
Proof.
  unfold acquire.
  destruct (truthy (py_strip sid)) eqn:E1; cbn [negb]; [|right; by eexists].
  destruct (truthy (py_strip owner)) eqn:E2; cbn [negb]; [|right; by eexists].
  destruct (truthy (py_strip request)) eqn:E3; cbn [negb]; [|right; by eexists].
  destruct (lease_expiry_cases now ttl w) as [(n & t & E)|(e & E)];
    [left; exists n, t|right; exists e; by rewrite (bind_of_Raise _ _ _ _ _ E)].
  rewrite (bind_of_Ok _ _ _ _ _ E). cbn [fst snd]. rewrite transaction_acquired by done. done.
Qed.

Lemma succeeds_renew now expires r : succeeds r (renew_row now expires r).
Proof. by right. Qed.
Lemma succeeds_release now r : succeeds r (release_row now r).
Proof. by right. Qed.

Lemma extends_clock w w' n :
  extends {| leases := leases w; lease_ticks := n |} w' → extends w w'.
Proof. done. Qed.

Lemma run_lease_extends op w : extends w (run_lease op w).1.
Proof.
  destruct op; simpl.
  - destruct (acquire_cases session_id owner request_id ttl_s now_iso w)
      as [(n & t & _ & _ & _ & ->)|(e & ->)]; [|reflexivity].
    eapply extends_clock, acquired_extends.
  - destruct (renew_eq session_id owner fence_token ttl_s now_iso w)
      as [(n & t & ->)|(e & ->)]; simpl; [|reflexivity].
    case_match; [|by apply extends_same].
    eapply extends_clock, update_row_extends. intros r _. apply succeeds_renew.
  - destruct (release_eq session_id owner fence_token now_iso w)
      as [(n & t & ->)|(e & ->)]; simpl; [|reflexivity].
    eapply extends_clock, update_row_extends. intros r _. apply succeeds_release.
  - apply extends_same. unfold status. munfold.
    destruct (lease_expiry_cases now_iso 1 w) as [(n & t & ->)|(e & ->)]; done.
Qed.

Lemma run_leases_extends ops w : extends w (run_leases ops w).
Proof.
  revert w. induction ops as [|op ops IH]; intros w; simpl; [reflexivity|].
  etrans; [apply run_lease_extends|apply IH].
Qed.

(** The lease [acquire] returns is the row of its session, not released. *)
Lemma acquire_row sid owner request ttl now w w' l :
  acquire sid owner request ttl now w = (w', Ok l) →
  ∃ r, leases w' !! py_strip sid = Some r ∧ row_lease r = l ∧ row_released_at r = None ∧
       l_owner l = py_strip owner ∧ l_request_id l = py_strip request.
Proof.
  destruct (acquire_cases sid owner request ttl now w)
    as [(n & t & _ & _ & _ & ->)|(e & ->)]; [|done].
  unfold acquired. simpl. destruct (leases w !! py_strip sid) as [r|].
  - destruct (row_live _ r) eqn:El; [destruct (is_holder _ _ r) eqn:Eh; [|done]|];
      intros [= <- <-]; simpl; rewrite lookup_insert_eq; eexists; split_and!; try done.
    all: unfold row_live, is_holder in *; bsplit; try done; simpl.
    by destruct (row_released_at r).
  - intros [= <- <-]. simpl. rewrite lookup_insert_eq. by eexists.
Qed.
End LeaseProps.

(** ** The guarantees *)

(** [acquire], on every branch.  With non-blank session, owner and request
    and a readable clock time [t], it never fails silently: when the session
    has no live row (none, released, or expired at [t]) it installs a lease
    for the caller from [t] to [t + max(1, ttl)] whose fence token is one more
    than the last one; when the live row is the caller's own (same owner and
    request) it returns that lease with the same fence token and the renewed
    expiry; otherwise it raises [SessionTurnBusyError], naming the holder and
    a wait of at least a second, and the table is unchanged. *)
Theorem acquire_grants_or_busy `{PyEnv} sid owner request ttl now_iso w t n :
  let key := py_strip sid in
  let o := py_strip owner in
  let q := py_strip request in
  let now := isoformat t in
  let expires := isoformat (t + Z.max 1 ttl * 1000000)%Z in
  truthy key = true → truthy o = true → truthy q = true →
  parse_or_now now_iso w = ({| leases := leases w; lease_ticks := n |}, Ok t) →
  let r := acquire sid owner request ttl now_iso w in
  match leases w !! key with
  | Some row =>
      if row_live now row then
        if is_holder o q row then
          r.2 = Ok (row_lease (renew_row now expires row)) ∧
          leases r.1 = <[key := renew_row now expires row]> (leases w)
        else leases r.1 = leases w ∧
          ∃ wait, (1 ≤ wait)%Z ∧ r.2 = Raise (SessionTurnBusyError key wait
            (l_owner (row_lease row)) (l_expires_at (row_lease row)))
      else
        let row' := fresh_row key o q (l_fence_token (row_lease row) + 1)%Z now expires in
        r.2 = Ok (row_lease row') ∧ leases r.1 = <[key := row']> (leases w)
  | None =>
      let row' := fresh_row key o q 1 now expires in
      r.2 = Ok (row_lease row') ∧ leases r.1 = <[key := row']> (leases w)
  end.
Proof.
  intros key o q now expires Hk Ho Hq Hclock r. subst r. unfold acquire. fold key o q.
  rewrite Hk, Ho, Hq. cbn [negb]. unfold _lease_expiry.
  rewrite (bind_of_Ok _ _ w {| leases := leases w; lease_ticks := n |} (now, expires))
    by (rewrite (bind_of_Ok _ _ _ _ _ Hclock); done).
  cbn [fst snd]. rewrite transaction_acquired by done. unfold acquired, fence_at. simpl.
  destruct (leases w !! key) as [row|]; [|done].
  destruct (row_live now row); [|done]. destruct (is_holder o q row); [done|]. simpl.
  split; [done|]. eexists. split; [|reflexivity]. lia.
Qed.

Definition demo_leases : LeaseWorld :=
  (acquire "s1" "worker-a" "req-1" 60 None {| leases := ∅; lease_ticks := 0 |}).1.

Lemma acquire_grants_or_busy_witness :
  leases (acquire "s1" "worker-b" "req-2" 60 None demo_leases).1 = leases demo_leases ∧
  ∃ wait, (1 ≤ wait)%Z ∧ (acquire "s1" "worker-b" "req-2" 60 None demo_leases).2 =
    Raise (SessionTurnBusyError "s1" wait "worker-a" "2024-04-25T00:01:00+00:00").
Proof.
  exact (acquire_grants_or_busy "s1" "worker-b" "req-2" 60 None demo_leases
    (demo_epoch + 1000000)%Z 2 eq_refl eq_refl eq_refl eq_refl).
Defined.

(** C5: fence tokens are never reused.  In any execution, if two calls of
    [acquire] for one session return leases with the same fence token, they
    were made by the same owner for the same request; and the later lease's
    token is never smaller. *)
Theorem fence_token_unique `{PyEnv} sid1 owner1 request1 ttl1 now1 w1 w1' l1 ops
    sid2 owner2 request2 ttl2 now2 w2' l2 :
  acquire sid1 owner1 request1 ttl1 now1 w1 = (w1', Ok l1) →
  acquire sid2 owner2 request2 ttl2 now2 (run_leases ops w1') = (w2', Ok l2) →
  py_strip sid1 = py_strip sid2 →
  (l_fence_token l1 ≤ l_fence_token l2)%Z ∧
  (l_fence_token l1 = l_fence_token l2 → l_owner l1 = l_owner l2 ∧ l_request_id l1 = l_request_id l2).
Proof.
  intros H1 H2 Hsid.
  apply acquire_row in H1 as (r1 & Hr1 & <- & _).
  pose proof (run_lease_extends (LAcquire sid2 owner2 request2 ttl2 now2) (run_leases ops w1')) as Hstep.
  simpl in Hstep. rewrite H2 in Hstep.
  apply acquire_row in H2 as (r2 & Hr2 & <- & _).
  assert (extends w1' w2') as Hext by (etrans; [apply run_leases_extends|exact Hstep]).
  destruct (Hext _ _ Hr1) as (r & Hr & Hs). rewrite Hsid in Hr. simpl in Hr. simplify_eq.
  destruct Hs as [?|(? & ? & ? & _)]; split; (lia || done).
Qed.

Lemma fence_token_unique_witness :
  ∃ l2, (acquire "s1" "worker-b" "req-2" 60 None
           (run_leases [LRelease "s1" "worker-a" 1 None] demo_leases)).2 = Ok l2 ∧
        (1 ≤ l_fence_token l2)%Z.
Proof.
  eexists. split; [vm_compute; reflexivity|].
  edestruct (fence_token_unique "s1" "worker-a" "req-1" 60 None
    {| leases := ∅; lease_ticks := 0 |} demo_leases
    (row_lease (fresh_row "s1" "worker-a" "req-1" 1 "2024-04-25T00:00:00+00:00"
                  "2024-04-25T00:01:00+00:00")) [LRelease "s1" "worker-a" 1 None]
    "s1" "worker-b" "req-2" 60 None) as [Hle _];
    [vm_compute; reflexivity|vm_compute; reflexivity|reflexivity|].
  exact Hle.
Defined.

(** C9: a superseded or released holder is fenced off for good.  Once
    [acquire] returned a lease and the holder released it, or another tenure
    replaced it (a lease with another fence token was returned for the
    session), then after any further operations [assert_fence] with the old
    token raises, and [renew] and [release] with it return [False] and leave
    the table as it is. *)
Theorem stale_fence_rejected `{PyEnv} w ops sid row fence :
  leases w !! py_strip sid = Some row →
  (fence < l_fence_token (row_lease row))%Z ∨
  (l_fence_token (row_lease row) = fence ∧ row_released_at row ≠ None) →
  let w' := run_leases ops w in
  (∃ msg, assert_fence sid fence w' = (w', Raise (SessionTurnFenceError msg))) ∧
  (∀ owner ttl now, let r := renew sid owner fence ttl now w' in
     leases r.1 = leases w' ∧ r.2 ≠ Ok true) ∧
  (∀ owner now, let r := release sid owner fence now w' in
     leases r.1 = leases w' ∧ r.2 ≠ Ok true).
Proof.
  intros Hrow Hstale w'.
  destruct (run_leases_extends ops w _ _ Hrow) as (r' & Hr' & Hs). fold w' in Hr'.
  assert ((fence < l_fence_token (row_lease r'))%Z ∨
    (l_fence_token (row_lease r') = fence ∧ row_released_at r' ≠ None)) as Hst.
  { destruct Hs as [?|(? & _ & _ & ?)], Hstale as [?|[? ?]]; [left; lia..|right]. split; [lia|auto]. }
  assert (∀ owner, held_by owner fence r' = false) as Hno.
  { intros owner. unfold held_by. destruct Hst as [?|[_ ?]].
    - rewrite (proj2 (Z.eqb_neq _ _)) by lia. by rewrite andb_false_r.
    - destruct (row_released_at r'); [by rewrite andb_false_r|done]. }
  assert (∀ owner, holds_at w' (py_strip sid) (held_by owner fence) = false) as Hholds
    by (intros owner; unfold holds_at; by rewrite Hr').
  assert (∀ n owner f, leases (update_row (py_strip sid) (held_by owner fence) f
    {| leases := leases w'; lease_ticks := n |}).1 = leases w') as Hupd.
  { intros n owner f. unfold update_row. simpl. by rewrite Hr', Hno. }
  split_and!.
  - unfold assert_fence. munfold. rewrite Hr'. destruct (row_released_at r') eqn:Er; [by eexists|].
    destruct Hst as [?|[_ ?]]; [|done]. rewrite (proj2 (Z.eqb_neq _ _)) by lia. by eexists.
  - intros owner ttl now. destruct (renew_eq sid owner fence ttl now w') as [(n & t & ->)|(e & ->)];
      simpl; [|done]. rewrite Hholds, andb_false_r. split; [case_match; auto|done].
  - intros owner now. destruct (release_eq sid owner fence now w') as [(n & t & ->)|(e & ->)];
      simpl; [|done]. rewrite Hholds. split; [auto|done].
Qed.

Definition demo_released : LeaseWorld := (release "s1" "worker-a" 1 None demo_leases).1.

Lemma stale_fence_rejected_witness :
  let w' := run_leases [LAcquire "s1" "worker-b" "req-2" 60 None] demo_released in
  ∃ msg, assert_fence "s1" 1 w' = (w', Raise (SessionTurnFenceError msg)).
Proof.
  eapply (stale_fence_rejected demo_released [LAcquire "s1" "worker-b" "req-2" 60 None] "s1");
    [vm_compute; reflexivity|]. right. split; [reflexivity|discriminate].
Defined.

(** The operation is made by the holder of the row: an [acquire] for its owner
    and request, or a [renew] or [release] with its owner and fence token. *)
Definition by_holder (op : lease_op) (key : string) (row : LeaseRow) : Prop :=
  match op with
  | LAcquire sid owner request _ _ =>
      py_strip sid = key ∧ is_holder (py_strip owner) (py_strip request) row = true
  | LRenew sid owner fence _ _ | LRelease sid owner fence _ =>
      py_strip sid = key ∧ held_by (py_strip owner) fence row = true
  | LStatus _ => False
  end.

(** The operation's notion of the current time. *)
Definition op_now (op : lease_op) : option string :=
  match op with
  | LAcquire _ _ _ _ now | LRenew _ _ _ _ now | LRelease _ _ _ now | LStatus now => now
  end.

(** Mutual exclusion.  While a session's lease is live at the time an
    operation observes, no operation by anyone but its holder changes its row:
    other workers' [acquire]s are refused, and [renew], [release] with another
    owner or token have no effect. *)
Theorem live_lease_protected `{PyEnv} op w key row n t :
  leases w !! key = Some row →
  parse_or_now (op_now op) w = ({| leases := leases w; lease_ticks := n |}, Ok t) →
  row_live (isoformat t) row = true →
  ¬ by_holder op key row →
  leases (run_lease op w).1 !! key = Some row.
Proof.
  intros Hrow Hclock Hlive Hby.
  destruct op as [sid owner request ttl now|sid owner fence ttl now|sid owner fence now|now];
    simpl in *.
  - destruct (acquire_cases sid owner request ttl now w) as [Hc|(e & ->)]; [|done].
    destruct Hc as (n' & t' & Hk & Ho & Hq & E). revert E. unfold acquire.
    rewrite Hk, Ho, Hq. cbn [negb]. unfold _lease_expiry.
    rewrite (bind_of_Ok _ _ w {| leases := leases w; lease_ticks := n |}
      (isoformat t, isoformat (t + Z.max 1 ttl * 1000000)%Z))
      by (rewrite (bind_of_Ok _ _ _ _ _ Hclock); done).
    cbn [fst snd]. intros _. rewrite transaction_acquired by done. unfold acquired. simpl.
    destruct (decide (py_strip sid = key)) as [Hs|Hne].
    + rewrite Hs, Hrow, Hlive. destruct (is_holder _ _ row) eqn:Eh; [|done]. naive_solver.
    + repeat case_match; simpl; rewrite ?lookup_insert_ne by done; done.
  - destruct (renew_eq sid owner fence ttl now w) as [(n' & t' & ->)|(e & ->)]; simpl; [|done].
    case_match; [|done]. by apply update_row_other.
  - destruct (release_eq sid owner fence now w) as [(n' & t' & ->)|(e & ->)]; simpl; [|done].
    by apply update_row_other.
  - unfold status. munfold. by destruct (lease_expiry_cases now 1 w) as [(? & ? & ->)|(? & ->)].
Qed.

Lemma live_lease_protected_witness :
  leases (run_lease (LAcquire "s1" "worker-b" "req-2" 60 None) demo_leases).1 !! "s1"
  = leases demo_leases !! "s1".
Proof.
  assert (∃ row, leases demo_leases !! "s1" = Some row) as [row Hrow]
    by (eexists; vm_compute; reflexivity).
  rewrite Hrow.
  apply (live_lease_protected (LAcquire "s1" "worker-b" "req-2" 60 None) demo_leases "s1" row
    2 (demo_epoch + 1000000)%Z Hrow).
  - reflexivity.
  - vm_compute in Hrow. injection Hrow as <-. vm_compute. reflexivity.
  - vm_compute in Hrow. injection Hrow as <-. intros [_ Hh]. discriminate Hh.
Defined.
