(* ===== verification/TurnQueue.v ===== *)
(** The turn-input queue ([services/runtime/turn_input/queue.py], class
    [TurnInputQueue]) and the projection of terminal runtime events on it
    ([lifecycle.py]).  Every operation holds the queue's lock, so operations
    are atomic steps.  The events handed to the [on_event] callback are kept in
    the order they were emitted (an exception of the callback is swallowed). *)

From S2P Require Import Prelude PyValue Timestamps PyText.
From Stdlib Require Import Ascii.

(** ** Data *)

Inductive TurnInputIntent : Type :=
| QUEUE_NEXT | STEER_CURRENT | CANCEL_CURRENT | CANCEL_CURRENT_AND_RUN_NEXT
| DROP_QUEUED | MOVE_QUEUED.
Inductive TurnInputQueueStatus : Type :=
| QUEUED | RESERVED | RUNNING | COMPLETED | CANCELLED | FAILED | DROPPED | STEER_DEFERRED.

#[export] Instance intent_eq_dec : EqDecision TurnInputIntent.
Proof. solve_decision. Defined.
#[export] Instance status_eq_dec : EqDecision TurnInputQueueStatus.
Proof. solve_decision. Defined.

Definition intent_eqb (a b : TurnInputIntent) : bool := bool_decide (a = b).
Definition status_eqb (a b : TurnInputQueueStatus) : bool := bool_decide (a = b).

Definition intent_value (i : TurnInputIntent) : string :=
  match i with
  | QUEUE_NEXT => "queue_next" | STEER_CURRENT => "steer_current"
  | CANCEL_CURRENT => "cancel_current"
  | CANCEL_CURRENT_AND_RUN_NEXT => "cancel_current_and_run_next"
  | DROP_QUEUED => "drop_queued" | MOVE_QUEUED => "move_queued"
  end.
Definition status_value (s : TurnInputQueueStatus) : string :=
  match s with
  | QUEUED => "queued" | RESERVED => "reserved" | RUNNING => "running"
  | COMPLETED => "completed" | CANCELLED => "cancelled" | FAILED => "failed"
  | DROPPED => "dropped" | STEER_DEFERRED => "steer_deferred"
  end.

Definition QUEUE_EVENT_ENQUEUED := "turn_input.enqueued".
Definition QUEUE_EVENT_DEQUEUED := "turn_input.dequeued".
Definition QUEUE_EVENT_REQUEUED := "turn_input.requeued".
Definition QUEUE_EVENT_RUNNING := "turn_input.running".
Definition QUEUE_EVENT_DROPPED := "turn_input.dropped".
Definition QUEUE_EVENT_MOVED := "turn_input.moved".
Definition QUEUE_EVENT_CANCELLED := "turn_input.cancelled".
Definition QUEUE_EVENT_STEER_DEFERRED := "turn_input.steer_deferred".
Definition QUEUE_EVENT_FULL := "turn_input.queue_full".
Definition QUEUE_EVENT_COMPLETED := "turn_input.completed".
Definition QUEUE_EVENT_FAILED := "turn_input.failed".

(** Membership in [_QUEUE_ACTIVE_STATUSES]. *)
Definition queue_active (s : TurnInputQueueStatus) : bool :=
  match s with QUEUED | RESERVED | RUNNING => true | _ => false end.

(** [_TERMINAL_EVENTS.get(status)] *)
Definition terminal_event (s : TurnInputQueueStatus) : option string :=
  match s with
  | COMPLETED => Some QUEUE_EVENT_COMPLETED
  | CANCELLED => Some QUEUE_EVENT_CANCELLED
  | FAILED => Some QUEUE_EVENT_FAILED
  | _ => None
  end.

Record TurnInputQueueEntry := {
  queue_id : string;
  e_session_id : string;
  e_agent_id : string;
  e_text : string;
  e_intent : TurnInputIntent;
  e_status : TurnInputQueueStatus;
  e_source_client : string;
  e_idempotency_key : option string;
  e_priority : Z;
  e_metadata : dict;
  e_status_version : Z;
  e_created_at : string;
  e_started_at : option string;
  e_completed_at : option string;
  e_trace_id : option string;
  e_target_trace_id : option string;
}.

(** [dataclasses.replace] of the fields the queue changes. *)
Definition entry_set (status : TurnInputQueueStatus) (version : Z)
    (started completed trace : option string) (e : TurnInputQueueEntry) : TurnInputQueueEntry :=
  {| queue_id := queue_id e; e_session_id := e_session_id e; e_agent_id := e_agent_id e;
     e_text := e_text e; e_intent := e_intent e; e_status := status;
     e_source_client := e_source_client e; e_idempotency_key := e_idempotency_key e;
     e_priority := e_priority e; e_metadata := e_metadata e; e_status_version := version;
     e_created_at := e_created_at e; e_started_at := started; e_completed_at := completed;
     e_trace_id := trace; e_target_trace_id := e_target_trace_id e |}.
Definition entry_bump (status : TurnInputQueueStatus) (e : TurnInputQueueEntry)
    : TurnInputQueueEntry :=
  entry_set status (e_status_version e + 1) (e_started_at e) (e_completed_at e) (e_trace_id e) e.

(** U+2026, outside the range of the text model, is the substitute character. *)
Definition ELLIPSIS : string := String (ascii_of_N 26) "".

Definition redact_text_preview (text : string) (limit : Z) : string :=
  let normalized := py_join " " (py_split text) in
  if (Z.of_nat (String.length normalized) <=? limit)%Z then normalized
  else drop_while_end latin1_is_space
         (String.substring 0 (Z.to_nat (Z.max 0 (limit - 1))) normalized) +:+ ELLIPSIS.

Definition entry_to_dict (include_text : bool) (e : TurnInputQueueEntry) : dict :=
  [("queue_id", PStr (queue_id e)); ("session_id", PStr (e_session_id e));
   ("agent_id", PStr (e_agent_id e)); ("intent", PStr (intent_value (e_intent e)));
   ("status", PStr (status_value (e_status e))); ("source_client", PStr (e_source_client e));
   ("idempotency_key", ostr_val (e_idempotency_key e)); ("priority", PInt (e_priority e));
   ("metadata", PDict (e_metadata e)); ("status_version", PInt (e_status_version e));
   ("created_at", PStr (e_created_at e)); ("started_at", ostr_val (e_started_at e));
   ("completed_at", ostr_val (e_completed_at e)); ("trace_id", ostr_val (e_trace_id e));
   ("target_trace_id", ostr_val (e_target_trace_id e));
   ("text_preview", PStr (redact_text_preview (e_text e) 80))]
  ++ (if include_text then [("text", PStr (e_text e))] else []).
Definition event_payload (e : TurnInputQueueEntry) : dict := entry_to_dict false e.
Arguments event_payload : simpl never.
Arguments redact_text_preview : simpl never.

Definition steering_event_fact (e : TurnInputQueueEntry) : dict :=
  [("queue_id", PStr (queue_id e)); ("session_id", PStr (e_session_id e));
   ("agent_id", PStr (e_agent_id e)); ("target_trace_id", ostr_val (e_target_trace_id e));
   ("status", PStr (status_value (e_status e))); ("status_version", PInt (e_status_version e));
   ("text_preview", PStr (redact_text_preview (e_text e) 80))].

Inductive queue_exn : Type :=
| TurnInputQueueError (code message : string) (details : dict)
| QueueKeyError (key : string).

Definition idem_key : Type := string * string * string.

(** [TurnInputQueue]: its limit, entries, idempotency index, and the events,
    clock readings and identifiers drawn so far. *)
Record TurnInputQueue := {
  max_pending_per_session : Z;
  entries : list TurnInputQueueEntry;
  idempotency : gmap idem_key string;
  emitted : list (string * dict);
  q_ticks : nat;
  q_drawn : nat;
}.
Abbreviation QM A := (M TurnInputQueue queue_exn A).

Definition set_entries (l : list TurnInputQueueEntry) (q : TurnInputQueue) : TurnInputQueue :=
  {| max_pending_per_session := max_pending_per_session q; entries := l;
     idempotency := idempotency q; emitted := emitted q; q_ticks := q_ticks q;
     q_drawn := q_drawn q |}.
Definition set_idempotency (m : gmap idem_key string) (q : TurnInputQueue) : TurnInputQueue :=
  {| max_pending_per_session := max_pending_per_session q; entries := entries q;
     idempotency := m; emitted := emitted q; q_ticks := q_ticks q; q_drawn := q_drawn q |}.
Definition add_event (ev : string * dict) (q : TurnInputQueue) : TurnInputQueue :=
  {| max_pending_per_session := max_pending_per_session q; entries := entries q;
     idempotency := idempotency q; emitted := emitted q ++ [ev]; q_ticks := q_ticks q;
     q_drawn := q_drawn q |}.

Definition new_queue (max_pending : Z) : TurnInputQueue :=
  {| max_pending_per_session := Z.max 1 max_pending; entries := []; idempotency := ∅;
     emitted := []; q_ticks := 0; q_drawn := 0 |}.

(** ** Helpers *)

(** The first element satisfying [p], with its index. *)
Fixpoint find_index {A} (p : A → bool) (l : list A) : option (nat * A) :=
  match l with
  | [] => None
  | x :: l' => if p x then Some (0, x)
               else match find_index p l' with Some (i, y) => Some (S i, y) | None => None end
  end.
(** [del l[i]] and [l.insert(i, x)] for [i] in range. *)
Definition list_pop {A} (i : nat) (l : list A) : list A := take i l ++ drop (S i) l.
Definition list_insert_at {A} (i : nat) (x : A) (l : list A) : list A := take i l ++ x :: drop i l.

Definition qerror {A} (code message : string) (details : dict) : QM A :=
  raise (TurnInputQueueError code message details).

Definition _emit (event_type : string) (payload : dict) : QM () :=
  modify (add_event (event_type, payload)).

Definition _require_non_empty (value field_name : string) : result queue_exn string :=
  let normalized := py_strip value in
  if negb (truthy normalized) then
    Raise (TurnInputQueueError "INVALID_REQUEST" (field_name +:+ " must be non-empty.")
             [("field", PStr field_name)])
  else Ok normalized.

Definition _coerce_intent (value : string) : result queue_exn TurnInputIntent :=
  match List.find (λ i, String.eqb (intent_value i) value)
          [QUEUE_NEXT; STEER_CURRENT; CANCEL_CURRENT; CANCEL_CURRENT_AND_RUN_NEXT;
           DROP_QUEUED; MOVE_QUEUED] with
  | Some i => Ok i
  | None => Raise (TurnInputQueueError "INVALID_INTENT"
                     ("Invalid turn input intent: " +:+ value) [])
  end.
Definition _coerce_status (value : string) : result queue_exn TurnInputQueueStatus :=
  match List.find (λ i, String.eqb (status_value i) value)
          [QUEUED; RESERVED; RUNNING; COMPLETED; CANCELLED; FAILED; DROPPED; STEER_DEFERRED] with
  | Some i => Ok i
  | None => Raise (TurnInputQueueError "INVALID_STATUS"
                     ("Invalid turn input status: " +:+ value) [])
  end.

Definition _idempotency_lookup_key (session_id agent_id : string) (idempotency_key : option string)
    : option idem_key :=
  let normalized := py_strip (default "" idempotency_key) in
  if negb (truthy normalized) then None else Some (session_id, agent_id, normalized).

(** [str(value or "").strip() or None] *)
Definition strip_opt (value : option string) : option string :=
  let s := py_strip (default "" value) in if truthy s then Some s else None.

Definition status_details (e : TurnInputQueueEntry) : dict :=
  [("queue_id", PStr (queue_id e)); ("status", PStr (status_value (e_status e)))].

Definition _assert_status_version (e : TurnInputQueueEntry) (status_version : option Z) : QM () :=
  match status_version with
  | None => mret ()
  | Some v =>
      if negb (Z.eqb v (e_status_version e)) then
        qerror "QUEUE_CONFLICT" "Queue entry status_version is stale."
          [("queue_id", PStr (queue_id e));
           ("expected_status_version", PInt (e_status_version e));
           ("received_status_version", PInt v)]
      else mret ()
  end.

Definition _find_for_session_locked (session_id queue_id0 : string)
    : QM (nat * TurnInputQueueEntry) :=
  sid ← lift_result (_require_non_empty session_id "session_id");
  qid ← lift_result (_require_non_empty queue_id0 "queue_id");
  found ← gets (λ q, find_index (λ e, String.eqb (e_session_id e) sid
                                      && String.eqb (queue_id e) qid) (entries q));
  match found with
  | Some r => mret r
  | None => qerror "QUEUE_ENTRY_NOT_FOUND" "Turn input queue entry was not found."
              [("session_id", PStr sid); ("queue_id", PStr qid)]
  end.

Definition _find_by_id_locked (id : option string) (l : list TurnInputQueueEntry)
    : option TurnInputQueueEntry :=
  if otruthy id then List.find (λ e, String.eqb (queue_id e) (default "" id)) l else None.

Definition _resolve_move_index_locked (session_id : string)
    (before_queue_id after_queue_id : option string) : QM nat :=
  if negb (otruthy before_queue_id) && negb (otruthy after_queue_id) then
    gets (λ q, length (entries q))
  else
    let target_id := str_or before_queue_id (str_or after_queue_id "") in
    found ← gets (λ q, find_index (λ e, String.eqb (e_session_id e) session_id
                                        && String.eqb (queue_id e) target_id) (entries q));
    match found with
    | Some (index, _) => mret (if otruthy before_queue_id then index else S index)
    | None => qerror "QUEUE_ENTRY_NOT_FOUND" "Move target queue entry was not found."
                [("session_id", PStr session_id); ("target_queue_id", PStr target_id)]
    end.

Definition active_in (session_id : string) (e : TurnInputQueueEntry) : bool :=
  String.eqb (e_session_id e) session_id && queue_active (e_status e).

Definition _raise_if_full_locked (session_id : string) : QM () :=
  full ← gets (λ q, (max_pending_per_session q <=?
                       Z.of_nat (count_where (active_in session_id) (entries q)))%Z);
  if full : bool then
    max_pending ← gets max_pending_per_session;
    let details := [("session_id", PStr session_id); ("max_pending", PInt max_pending)] in
    _ ← _emit QUEUE_EVENT_FULL details;
    qerror "QUEUE_FULL" "Turn input queue is full." details
  else mret ().

(** ** Operations *)

Section Queue.
Context {Env : PyEnv}.

(** [datetime.now(timezone.utc).isoformat().replace("+00:00", "Z")] *)
Definition queue_now_iso : QM string := λ q,
  ({| max_pending_per_session := max_pending_per_session q; entries := entries q;
      idempotency := idempotency q; emitted := emitted q; q_ticks := S (q_ticks q);
      q_drawn := q_drawn q |},
   Ok (str_replace "+00:00" "Z" (isoformat (py_clock (q_ticks q))))).

(** The [id_factory]. *)
Definition next_id : QM string := λ q,
  ({| max_pending_per_session := max_pending_per_session q; entries := entries q;
      idempotency := idempotency q; emitted := emitted q; q_ticks := q_ticks q;
      q_drawn := S (q_drawn q) |}, Ok (py_uuid4 (q_drawn q))).

(** The arguments of [enqueue]. *)
Record EnqueueArgs := {
  a_session_id : string;
  a_agent_id : string;
  a_text : string;
  a_intent : string;
  a_source_client : string;
  a_idempotency_key : option string;
  a_priority : Z;
  a_metadata : dict;
  a_steer_supported : bool;
  a_target_trace_id : option string;
}.

(** Target trace, initial status and metadata of a new entry. *)
Definition enqueue_terms (a : EnqueueArgs) (intent : TurnInputIntent)
    : result queue_exn (option string * TurnInputQueueStatus * dict) :=
  let target := strip_opt (a_target_trace_id a) in
  if intent_eqb intent STEER_CURRENT && a_steer_supported a then
    t ← _require_non_empty (default "" target) "target_trace_id";
    Ok (Some t, QUEUED, a_metadata a)
  else if intent_eqb intent STEER_CURRENT then
    Ok (target, STEER_DEFERRED,
        dsetdefault (dsetdefault (a_metadata a) "deferred_to" (PStr (intent_value QUEUE_NEXT)))
          "reason" (PStr "steer_current_unsupported_v1"))
  else Ok (target, QUEUED, a_metadata a).

Definition enqueue_new (a : EnqueueArgs) (sid aid text : string) (intent : TurnInputIntent)
    (target : option string) (status : TurnInputQueueStatus) (metadata : dict)
    (key : option idem_key) : QM TurnInputQueueEntry :=
  _ ← _raise_if_full_locked sid;
  id ← next_id;
  created ← queue_now_iso;
  let source := py_strip (if truthy (a_source_client a) then a_source_client a else "unknown") in
  let entry :=
    {| queue_id := id; e_session_id := sid; e_agent_id := aid; e_text := text;
       e_intent := intent; e_status := status;
       e_source_client := if truthy source then source else "unknown";
       e_idempotency_key := strip_opt (a_idempotency_key a); e_priority := a_priority a;
       e_metadata := metadata; e_status_version := 1; e_created_at := created;
       e_started_at := None; e_completed_at := None; e_trace_id := None;
       e_target_trace_id := target |} in
  _ ← modify (λ q, set_entries (entries q ++ [entry]) q);
  _ ← match key with
      | Some k => modify (λ q, set_idempotency (<[k := id]> (idempotency q)) q)
      | None => mret ()
      end;
  _ ← _emit (if status_eqb status STEER_DEFERRED then QUEUE_EVENT_STEER_DEFERRED
             else QUEUE_EVENT_ENQUEUED) (event_payload entry);
  mret entry.

Definition enqueue (a : EnqueueArgs) : QM TurnInputQueueEntry :=
  sid ← lift_result (_require_non_empty (a_session_id a) "session_id");
  aid ← lift_result (_require_non_empty (a_agent_id a) "agent_id");
  text ← lift_result (_require_non_empty (a_text a) "text");
  intent ← lift_result (_coerce_intent (a_intent a));
  terms ← lift_result (enqueue_terms a intent);
  let '(target, status, metadata) := terms in
  let key := _idempotency_lookup_key sid aid (a_idempotency_key a) in
  existing ← gets (λ q,
    match key with
    | None => None
    | Some k => _find_by_id_locked (idempotency q !! k) (entries q)
    end);
  match existing with
  | Some e => mret e
  | None => enqueue_new a sid aid text intent target status metadata key
  end.

Definition list_entries (session_id : string) (agent_id : option string)
    (statuses : list string) : QM (list TurnInputQueueEntry) :=
  sid ← lift_result (_require_non_empty session_id "session_id");
  let aid := strip_opt agent_id in
  wanted ← lift_result (
    (fix go (l : list string) : result queue_exn (list TurnInputQueueStatus) :=
       match l with
       | [] => Ok []
       | s :: l' => st ← _coerce_status s; rest ← go l'; Ok (st :: rest)
       end) statuses);
  gets (λ q, List.filter (λ e,
    String.eqb (e_session_id e) sid
    && match aid with None => true | Some a => String.eqb (e_agent_id e) a end
    && (bool_decide (wanted = []) || existsb (status_eqb (e_status e)) wanted)) (entries q)).

Definition pending_count (session_id : string) (agent_id : option string) : QM nat :=
  l ← list_entries session_id agent_id [status_value QUEUED; status_value RESERVED];
  mret (length l).

Definition drop_entry (session_id queue_id0 : string) (status_version : option Z)
    : QM TurnInputQueueEntry :=
  found ← _find_for_session_locked session_id queue_id0;
  let '(index, entry) := found in
  _ ← _assert_status_version entry status_version;
  if negb (status_eqb (e_status entry) QUEUED) then
    qerror "QUEUE_CONFLICT" "Only queued entries can be dropped." (status_details entry)
  else
    now ← queue_now_iso;
    let updated := entry_set DROPPED (e_status_version entry + 1) (e_started_at entry)
                     (Some now) (e_trace_id entry) entry in
    _ ← modify (λ q, set_entries (<[index := updated]> (entries q)) q);
    _ ← _emit QUEUE_EVENT_DROPPED (event_payload updated);
    mret updated.

(** The entry is taken out of the list before the target is looked up. *)
Definition move_entry (session_id queue_id0 : string) (status_version : option Z)
    (before_queue_id after_queue_id : option string) : QM TurnInputQueueEntry :=
  if otruthy before_queue_id && otruthy after_queue_id then
    qerror "INVALID_MOVE_REQUEST" "Specify only one of before_queue_id or after_queue_id." []
  else
    found ← _find_for_session_locked session_id queue_id0;
    let '(index, entry) := found in
    _ ← _assert_status_version entry status_version;
    if negb (status_eqb (e_status entry) QUEUED) then
      qerror "QUEUE_CONFLICT" "Only queued entries can be moved." (status_details entry)
    else
      _ ← modify (λ q, set_entries (list_pop index (entries q)) q);
      target_index ← _resolve_move_index_locked session_id before_queue_id after_queue_id;
      let updated := entry_bump (e_status entry) entry in
      _ ← modify (λ q, set_entries (list_insert_at target_index updated (entries q)) q);
      _ ← _emit QUEUE_EVENT_MOVED
            (dset (dset (event_payload updated) "before_queue_id" (ostr_val before_queue_id))
               "after_queue_id" (ostr_val after_queue_id));
      mret updated.

Definition of_pair (session_id agent_id : string) (e : TurnInputQueueEntry) : bool :=
  String.eqb (e_session_id e) session_id && String.eqb (e_agent_id e) agent_id.
Definition reserved_in (session_id agent_id : string) (e : TurnInputQueueEntry) : bool :=
  of_pair session_id agent_id e && status_eqb (e_status e) RESERVED.
Definition next_in (session_id agent_id : string) (e : TurnInputQueueEntry) : bool :=
  of_pair session_id agent_id e && status_eqb (e_status e) QUEUED
  && intent_eqb (e_intent e) QUEUE_NEXT.

Definition reserve_next (session_id agent_id : string) (expected_queue_id : option string)
    : QM (option TurnInputQueueEntry) :=
  active ← gets (λ q, List.find (reserved_in session_id agent_id) (entries q));
  match active with
  | Some e => qerror "QUEUE_CONFLICT" "A queued entry is already reserved." (status_details e)
  | None =>
      found ← gets (λ q, find_index (next_in session_id agent_id) (entries q));
      match found with
      | None => mret None
      | Some (index, entry) =>
          if otruthy expected_queue_id
             && negb (ostr_eqb (Some (queue_id entry)) expected_queue_id) then
            qerror "QUEUE_CONFLICT" "The next queued entry changed before reservation."
              [("expected_queue_id", ostr_val expected_queue_id);
               ("actual_queue_id", PStr (queue_id entry))]
          else
            let updated := entry_bump RESERVED entry in
            _ ← modify (λ q, set_entries (<[index := updated]> (entries q)) q);
            _ ← _emit QUEUE_EVENT_DEQUEUED (event_payload updated);
            mret (Some updated)
      end
  end.

Definition steerable (sid aid trace : string) (e : TurnInputQueueEntry) : bool :=
  of_pair sid aid e && ostr_eqb (e_target_trace_id e) (Some trace)
  && intent_eqb (e_intent e) STEER_CURRENT && status_eqb (e_status e) QUEUED.

Fixpoint emit_all (event_type : string) (l : list TurnInputQueueEntry) : QM () :=
  match l with
  | [] => mret ()
  | e :: l' => _ ← _emit event_type (event_payload e); emit_all event_type l'
  end.

Definition reserve_steering (session_id agent_id target_trace_id : string)
    : QM (list TurnInputQueueEntry) :=
  sid ← lift_result (_require_non_empty session_id "session_id");
  aid ← lift_result (_require_non_empty agent_id "agent_id");
  trace ← lift_result (_require_non_empty target_trace_id "target_trace_id");
  reserved ← gets (λ q, map (entry_bump RESERVED)
                          (List.filter (steerable sid aid trace) (entries q)));
  _ ← modify (λ q, set_entries
        (update_where (steerable sid aid trace) (entry_bump RESERVED) (entries q)) q);
  _ ← emit_all QUEUE_EVENT_DEQUEUED reserved;
  mret reserved.

(** [updated_by_id[id] for id in ids]; a later match replaces an earlier one. *)
Fixpoint collect (updated : list TurnInputQueueEntry) (ids : list string)
    : result queue_exn (list TurnInputQueueEntry) :=
  match ids with
  | [] => Ok []
  | id :: ids' =>
      match List.find (λ e, String.eqb (queue_id e) id) (rev updated) with
      | None => Raise (QueueKeyError id)
      | Some e => rest ← collect updated ids'; Ok (e :: rest)
      end
  end.

Definition steer_ok (trace : string) (allowed : list TurnInputQueueStatus)
    (e : TurnInputQueueEntry) : bool :=
  intent_eqb (e_intent e) STEER_CURRENT && ostr_eqb (e_target_trace_id e) (Some trace)
  && existsb (status_eqb (e_status e)) allowed.

Definition steer_set (target : TurnInputQueueStatus) (now : string) (e : TurnInputQueueEntry)
    : TurnInputQueueEntry :=
  entry_set target (e_status_version e + 1) (e_started_at e)
    (if status_eqb target COMPLETED then Some now else None) (e_trace_id e) e.

Definition _transition_steering_batch (queue_ids : list string) (target_trace_id : string)
    (allowed : list TurnInputQueueStatus) (target : TurnInputQueueStatus)
    : QM (list TurnInputQueueEntry) :=
  let requested_ids := List.filter truthy (map py_strip queue_ids) in
  match requested_ids with
  | [] => mret []
  | _ :: _ =>
      trace ← lift_result (_require_non_empty target_trace_id "target_trace_id");
      matches ← gets (λ q, List.filter (λ e, str_in (queue_id e) requested_ids) (entries q));
      if negb (Nat.eqb (length matches) (length (remove_dups requested_ids))) then
        qerror "QUEUE_ENTRY_NOT_FOUND" "A steering queue entry was not found."
          [("queue_ids", PList (map PStr requested_ids))]
      else match List.find (λ e, negb (steer_ok trace allowed e)) matches with
      | Some e => qerror "QUEUE_CONFLICT" "The steering batch state changed before transition."
                    (status_details e)
      | None =>
          now ← queue_now_iso;
          let updated := map (steer_set target now) matches in
          _ ← modify (λ q, set_entries (update_where (λ e, str_in (queue_id e) requested_ids)
                                          (steer_set target now) (entries q)) q);
          _ ← emit_all (if status_eqb target COMPLETED then QUEUE_EVENT_COMPLETED
                        else QUEUE_EVENT_REQUEUED) updated;
          lift_result (collect updated requested_ids)
      end
  end.

Definition complete_steering (queue_ids : list string) (target_trace_id : string) :=
  _transition_steering_batch queue_ids target_trace_id [RESERVED] COMPLETED.
Definition compensate_steering (queue_ids : list string) (target_trace_id : string) :=
  _transition_steering_batch queue_ids target_trace_id [RESERVED; COMPLETED] QUEUED.

Definition _mark_running_entry (trace_id : string) (e : TurnInputQueueEntry)
    : QM TurnInputQueueEntry :=
  if negb (status_eqb (e_status e) RESERVED) then
    qerror "QUEUE_CONFLICT" "Only reserved entries can start running." (status_details e)
  else
    now ← queue_now_iso;
    mret (entry_set RUNNING (e_status_version e + 1) (Some now) (e_completed_at e)
            (Some trace_id) e).
Definition _requeue_entry (e : TurnInputQueueEntry) : QM TurnInputQueueEntry :=
  if negb (status_eqb (e_status e) RESERVED) && negb (status_eqb (e_status e) RUNNING) then
    qerror "QUEUE_CONFLICT" "Only reserved or running entries can be requeued."
      (status_details e)
  else mret (entry_set QUEUED (e_status_version e + 1) None (e_completed_at e) None e).
Definition _mark_terminal_entry (status : TurnInputQueueStatus) (e : TurnInputQueueEntry)
    : QM TurnInputQueueEntry :=
  if negb (status_eqb (e_status e) RUNNING) then
    qerror "QUEUE_CONFLICT" "Only running entries can become terminal." (status_details e)
  else
    now ← queue_now_iso;
    mret (entry_set status (e_status_version e + 1) (e_started_at e) (Some now)
            (e_trace_id e) e).

Definition _replace_by_id (id : string)
    (updater : TurnInputQueueEntry → QM TurnInputQueueEntry) : QM TurnInputQueueEntry :=
  found ← gets (λ q, find_index (λ e, String.eqb (queue_id e) id) (entries q));
  match found with
  | None => qerror "QUEUE_ENTRY_NOT_FOUND" "Turn input queue entry was not found."
              [("queue_id", PStr id)]
  | Some (index, entry) =>
      updated ← updater entry;
      _ ← modify (λ q, set_entries (<[index := updated]> (entries q)) q);
      _ ← match terminal_event (e_status updated) with
          | Some event_type => _emit event_type (event_payload updated)
          | None => mret ()
          end;
      mret updated
  end.

Definition mark_running (id trace_id : string) : QM TurnInputQueueEntry :=
  trace ← lift_result (_require_non_empty trace_id "trace_id");
  updated ← _replace_by_id id (_mark_running_entry trace);
  _ ← _emit QUEUE_EVENT_RUNNING (event_payload updated);
  mret updated.
Definition requeue (id : string) : QM TurnInputQueueEntry :=
  updated ← _replace_by_id id _requeue_entry;
  _ ← _emit QUEUE_EVENT_REQUEUED (event_payload updated);
  mret updated.

Definition coerce_terminal (status : string) : result queue_exn TurnInputQueueStatus :=
  terminal ← _coerce_status status;
  match terminal_event terminal with
  | None => Raise (TurnInputQueueError "INVALID_STATUS"
                     ("Invalid terminal status: " +:+ status) [])
  | Some _ => Ok terminal
  end.

Definition mark_terminal (id status : string) : QM TurnInputQueueEntry :=
  terminal ← lift_result (coerce_terminal status);
  _replace_by_id id (_mark_terminal_entry terminal).

Definition mark_terminal_by_trace (trace_id status : string) : QM (option TurnInputQueueEntry) :=
  let trace := py_strip trace_id in
  if negb (truthy trace) then mret None
  else
    terminal ← lift_result (coerce_terminal status);
    found ← gets (λ q, find_index (λ e, ostr_eqb (e_trace_id e) (Some trace)
                                        && status_eqb (e_status e) RUNNING) (entries q));
    match found with
    | None => mret None
    | Some (index, entry) =>
        updated ← _mark_terminal_entry terminal entry;
        _ ← modify (λ q, set_entries (<[index := updated]> (entries q)) q);
        _ ← _emit (default "" (terminal_event terminal)) (event_payload updated);
        mret (Some updated)
    end.

(** [project_terminal_runtime_event]: the audit record it appends to the
    session log, if any (failures of the log are only logged). *)
Definition runtime_terminal (event_type : string) : option (TurnInputQueueStatus * string) :=
  if String.eqb event_type "runtime.turn.completed" then Some (COMPLETED, QUEUE_EVENT_COMPLETED)
  else if String.eqb event_type "runtime.turn.cancelled" then
    Some (CANCELLED, QUEUE_EVENT_CANCELLED)
  else if String.eqb event_type "runtime.turn.failed" then Some (FAILED, QUEUE_EVENT_FAILED)
  else None.

Definition project_terminal_runtime_event (event_type : string) (payload : dict)
    : QM (option (string * string * dict)) :=
  match runtime_terminal event_type, dget payload "terminal" with
  | Some (status, event), Some (PBool true) =>
      let trace := match dget payload "trace_id" with Some v => py_str v | None => "" end in
      updated ← mark_terminal_by_trace (py_strip trace) (status_value status);
      match updated with
      | None => mret None
      | Some e => mret (Some (e_session_id e, event, event_payload e))
      end
  | _, _ => mret None
  end.
End Queue.
