(* ===== verification/TurnQueueProps.v ===== *)
(** The turn-input queue's contract: the status machine every operation
    respects, finality of terminal entries, capacity, exclusive reservation,
    idempotent enqueueing, the order produced by moves, and redaction. *)

From S2P Require Import Prelude PyValue Timestamps PyText PolicyModels PolicyStore Demo TurnQueue.
From Stdlib Require Import Ascii.

#[local] Arguments isoformat : simpl never.
#[local] Arguments str_replace : simpl never.

(** ** The status machine *)

Definition legal (intent : TurnInputIntent) (from to : TurnInputQueueStatus) : bool :=
  match from, to with
  | QUEUED, (QUEUED | RESERVED | DROPPED) => true
  | RESERVED, (RUNNING | QUEUED) => true
  | RUNNING, (QUEUED | COMPLETED | CANCELLED | FAILED) => true
  | RESERVED, COMPLETED | COMPLETED, QUEUED => intent_eqb intent STEER_CURRENT
  | _, _ => false
  end.

(** [u] is [e] after one transition: same request, next version. *)
Record trans (e u : TurnInputQueueEntry) : Prop := {
  tr_id : queue_id u = queue_id e;
  tr_session : e_session_id u = e_session_id e;
  tr_agent : e_agent_id u = e_agent_id e;
  tr_text : e_text u = e_text e;
  tr_intent : e_intent u = e_intent e;
  tr_key : e_idempotency_key u = e_idempotency_key e;
  tr_version : e_status_version u = (e_status_version e + 1)%Z;
  tr_status : legal (e_intent e) (e_status e) (e_status u) = true;
}.

Lemma status_eqb_eq a b : status_eqb a b = true ↔ a = b.
Proof. unfold status_eqb. apply bool_decide_eq_true. Qed.
Lemma intent_eqb_eq a b : intent_eqb a b = true ↔ a = b.
Proof. unfold intent_eqb. apply bool_decide_eq_true. Qed.

Lemma trans_set status started completed trace e :
  legal (e_intent e) (e_status e) status = true →
  trans e (entry_set status (e_status_version e + 1) started completed trace e).
Proof. by constructor. Qed.

Lemma trans_bump status e :
  legal (e_intent e) (e_status e) status = true → trans e (entry_bump status e).
Proof. apply trans_set. Qed.

(** ** Positions *)

Lemma find_index_spec {A} (p : A → bool) l i x :
  find_index p l = Some (i, x) →
  l !! i = Some x ∧ p x = true ∧ ∀ j y, j < i → l !! j = Some y → p y = false.
Proof.
  revert i. induction l as [|a l IH]; intros i; [done|]. simpl.
  destruct (p a) eqn:Ea.
  - intros [= <- <-]. split_and!; [done|done|]. intros j y Hj. lia.
  - destruct (find_index p l) as [[k y]|]; [|done]. intros [= <- <-].
    destruct (IH k eq_refl) as (Hk & Hp & Hb). split_and!; [done|done|].
    intros [|j] z Hj Hz; simpl in Hz; [by simplify_eq|]. apply (Hb j); [lia|done].
Qed.

Lemma find_index_none {A} (p : A → bool) l :
  find_index p l = None → ∀ x, x ∈ l → p x = false.
Proof.
  induction l as [|a l IH]; intros H x Hx; [by apply elem_of_nil in Hx|]. simpl in H.
  destruct (p a) eqn:Ea; [done|]. destruct (find_index p l) as [[k y]|]; [done|].
  apply elem_of_cons in Hx as [->|Hx]; auto.
Qed.

Lemma count_where_app {A} (p : A → bool) l1 l2 :
  count_where p (l1 ++ l2) = count_where p l1 + count_where p l2.
Proof. unfold count_where. by rewrite List.filter_app, length_app. Qed.

Lemma count_where_cons {A} (p : A → bool) x l :
  count_where p (x :: l) = (if p x then 1 else 0) + count_where p l.
Proof. unfold count_where. simpl. by destruct (p x). Qed.

Lemma count_where_none {A} (p : A → bool) l :
  (∀ x, x ∈ l → p x = false) → count_where p l = 0.
Proof.
  induction l as [|x l IH]; intros H; [done|]. rewrite count_where_cons, (H x) by left.
  apply IH. intros y Hy. apply H. by right.
Qed.

Lemma list_split_at {A} (l : list A) i x :
  l !! i = Some x → l = take i l ++ x :: drop (S i) l.
Proof. intros H. symmetry. by apply take_drop_middle. Qed.

Lemma count_where_insert {A} (p : A → bool) l i x u :
  l !! i = Some x →
  count_where p (<[i := u]> l) + (if p x then 1 else 0)
  = count_where p l + (if p u then 1 else 0).
Proof.
  intros H. rewrite (insert_take_drop l i u) by eauto using lookup_lt_Some.
  rewrite (list_split_at l i x H) at 3.
  rewrite !count_where_app, !count_where_cons. lia.
Qed.

Lemma count_where_pop {A} (p : A → bool) l i x :
  l !! i = Some x → count_where p (list_pop i l) + (if p x then 1 else 0) = count_where p l.
Proof.
  intros H. unfold list_pop. rewrite (list_split_at l i x H) at 3.
  rewrite !count_where_app, !count_where_cons. lia.
Qed.

Lemma count_where_insert_at {A} (p : A → bool) l i x :
  count_where p (list_insert_at i x l) = count_where p l + (if p x then 1 else 0).
Proof.
  unfold list_insert_at. rewrite <-(take_drop i l) at 3.
  rewrite !count_where_app, count_where_cons. lia.
Qed.

Lemma count_where_update_le {A} (p q : A → bool) f l :
  (∀ x, x ∈ l → q x = true → p (f x) = true → p x = true) →
  count_where p (update_where q f l) ≤ count_where p l.
Proof.
  induction l as [|x l IH]; intros H; [done|]. unfold update_where. cbn [map].
  fold (update_where q f l). rewrite !count_where_cons.
  assert (count_where p (update_where q f l) ≤ count_where p l) as Hl
    by (apply IH; intros y Hy; apply H; by right).
  destruct (q x) eqn:Eq; [|lia]. destruct (p (f x)) eqn:Ef; [|lia].
  rewrite (H x) by (done || by left). lia.
Qed.

Lemma elem_of_insert_at {A} i (x y : A) l :
  y ∈ list_insert_at i x l ↔ y = x ∨ y ∈ l.
Proof.
  unfold list_insert_at. rewrite elem_of_app, elem_of_cons.
  rewrite <-(take_drop i l) at 3. rewrite elem_of_app. tauto.
Qed.

Lemma elem_of_pop {A} i (x y : A) l :
  l !! i = Some x → y ∈ l → y = x ∨ y ∈ list_pop i l.
Proof.
  intros H Hy. rewrite (list_split_at l i x H) in Hy. unfold list_pop.
  rewrite elem_of_app, elem_of_cons in Hy. rewrite elem_of_app. tauto.
Qed.

Lemma pop_elem {A} i (y : A) l : y ∈ list_pop i l → y ∈ l.
Proof.
  unfold list_pop. rewrite elem_of_app. intros [H|H]; 
    [rewrite <-(take_drop i l)|rewrite <-(take_drop (S i) l)]; rewrite elem_of_app; auto.
Qed.
Lemma elem_of_set {A} (i : nat) (u y : A) (l : list A) : y ∈ <[i := u]> l → y ∈ l ∨ y = u.
Proof.
  intros [j Hj]%list_elem_of_lookup_1. destruct (decide (i = j)) as [->|Hne].
  - right. pose proof (lookup_lt_Some _ _ _ Hj) as Hlt. rewrite length_insert in Hlt.
    rewrite list_lookup_insert_eq in Hj by done. congruence.
  - left. rewrite list_lookup_insert_ne in Hj by done. by eapply list_elem_of_lookup_2.
Qed.

Lemma elem_of_insert_other {A} (i : nat) (x y u : A) (l : list A) :
  l !! i = Some x → y ∈ l → y = x ∨ y ∈ <[i := u]> l.
Proof.
  intros H Hy. rewrite (list_split_at l i x H) in Hy.
  rewrite (insert_take_drop l i u) by eauto using lookup_lt_Some.
  rewrite elem_of_app, elem_of_cons in Hy. rewrite elem_of_app, elem_of_cons. tauto.
Qed.

(** ** Operations and their effects *)

Section QueueProps.
Context {Env : PyEnv}.

Inductive queue_op : Type :=
| QEnqueue (a : EnqueueArgs)
| QDrop (session_id id : string) (version : option Z)
| QMove (session_id id : string) (version : option Z) (before after : option string)
| QReserveNext (session_id agent_id : string) (expected : option string)
| QReserveSteering (session_id agent_id trace : string)
| QCompleteSteering (ids : list string) (trace : string)
| QCompensateSteering (ids : list string) (trace : string)
| QMarkRunning (id trace : string)
| QRequeue (id : string)
| QMarkTerminal (id status : string)
| QMarkTerminalByTrace (trace status : string).

Definition outcome {A} (f : A → list TurnInputQueueEntry)
    (r : TurnInputQueue * result queue_exn A)
    : TurnInputQueue * result queue_exn (list TurnInputQueueEntry) :=
  (r.1, match r.2 with Ok a => Ok (f a) | Raise e => Raise e end).
Definition one (e : TurnInputQueueEntry) : list TurnInputQueueEntry := [e].

(** One operation: the queue after it and the entries it returned. *)
Definition run_queue (op : queue_op) (q : TurnInputQueue)
    : TurnInputQueue * result queue_exn (list TurnInputQueueEntry) :=
  match op with
  | QEnqueue a => outcome one (enqueue a q)
  | QDrop sid id v => outcome one (drop_entry sid id v q)
  | QMove sid id v b a => outcome one (move_entry sid id v b a q)
  | QReserveNext sid aid x => outcome option_list (reserve_next sid aid x q)
  | QReserveSteering sid aid tr => outcome (λ l, l) (reserve_steering sid aid tr q)
  | QCompleteSteering ids tr => outcome (λ l, l) (complete_steering ids tr q)
  | QCompensateSteering ids tr => outcome (λ l, l) (compensate_steering ids tr q)
  | QMarkRunning id tr => outcome one (mark_running id tr q)
  | QRequeue id => outcome one (requeue id q)
  | QMarkTerminal id st => outcome one (mark_terminal id st q)
  | QMarkTerminalByTrace tr st => outcome option_list (mark_terminal_by_trace tr st q)
  end.

Fixpoint run_queue_ops (ops : list queue_op) (q : TurnInputQueue) : TurnInputQueue :=
  match ops with
  | [] => q
  | op :: ops' => run_queue_ops ops' (run_queue op q).1
  end.

Definition active_count (sid : string) (l : list TurnInputQueueEntry) : Z :=
  Z.of_nat (count_where (active_in sid) l).

(** The effect of an operation on the entries. *)
Inductive effect (op : queue_op) (q : TurnInputQueue) (raised : bool)
    : list TurnInputQueueEntry → Prop :=
| eff_same : effect op q raised (entries q)
| eff_append e :
    raised = false → e_status_version e = 1%Z → e_status e = QUEUED ∨ e_status e = STEER_DEFERRED →
    (active_count (e_session_id e) (entries q) < max_pending_per_session q)%Z →
    effect op q raised (entries q ++ [e])
| eff_update i e u :
    entries q !! i = Some e → trans e u → queue_active (e_status e) = true →
    e_status u ≠ RESERVED → effect op q raised (<[i := u]> (entries q))
| eff_reserve i e :
    entries q !! i = Some e → e_status e = QUEUED →
    (∀ x, x ∈ entries q → reserved_in (e_session_id e) (e_agent_id e) x = false) →
    effect op q raised (<[i := entry_bump RESERVED e]> (entries q))
| eff_batch p f :
    (∀ e, e ∈ entries q → p e = true → trans e (f e) ∧ e_intent e = STEER_CURRENT ∧
       (match op with QCompensateSteering _ _ => True
        | _ => queue_active (e_status e) = true end)) →
    effect op q raised (update_where p f (entries q))
| eff_move i j e :
    entries q !! i = Some e → e_status e = QUEUED →
    effect op q raised (list_insert_at j (entry_bump QUEUED e) (list_pop i (entries q)))
| eff_lost i e sid id v b a :
    op = QMove sid id v b a → raised = true → entries q !! i = Some e → e_status e = QUEUED →
    effect op q raised (list_pop i (entries q)).

(** Passes over an action known to return [a]. *)
Ltac mok a := rewrite (bind_of_Ok _ _ _ _ a) by done.

Definition is_raise {A} (r : result queue_exn A) : bool :=
  match r with Raise _ => true | Ok _ => false end.

Definition has_effect {A} (op : queue_op) (q : TurnInputQueue)
    (r : TurnInputQueue * result queue_exn A) : Prop :=
  effect op q (is_raise r.2) (entries r.1).

Lemma outcome_effect {A} op q (f : A → list TurnInputQueueEntry) r :
  has_effect op q r → has_effect op q (outcome f r).
Proof. unfold has_effect, outcome. simpl. by destruct r as [q' [a|e]]. Qed.

(** Operations that leave the entries alone. *)
Definition keeps {A} (m : QM A) : Prop := ∀ q, entries (m q).1 = entries q.

Lemma find_for_session_cases sid id q :
  (∃ i e, _find_for_session_locked sid id q = (q, Ok (i, e)) ∧ entries q !! i = Some e) ∨
  (∃ x, _find_for_session_locked sid id q = (q, Raise x)).
Proof.
  unfold _find_for_session_locked. munfold.
  destruct (_require_non_empty sid _) as [s|x]; [|right; by eexists].
  destruct (_require_non_empty id _) as [d|x]; [|right; by eexists].
  destruct (find_index _ (entries q)) as [[i e]|] eqn:E; [|right; by eexists].
  left. exists i, e. split; [done|]. by apply find_index_spec in E as [? _].
Qed.

Lemma assert_version_cases e v q :
  _assert_status_version e v q = (q, Ok ()) ∨
  (∃ x, _assert_status_version e v q = (q, Raise x)).
Proof. unfold _assert_status_version. repeat case_match; [by right; eexists|by left..]. Qed.

(** The locating prefix shared by [drop] and [move]. *)
Lemma located_effect op sid id v q {A} (k : nat → TurnInputQueueEntry → QM A) :
  (∀ i e, entries q !! i = Some e → e_status e = QUEUED → has_effect op q (k i e q)) →
  ∀ (conflict : TurnInputQueueEntry → QM A), (∀ e, ∃ x, conflict e q = (q, Raise x)) →
  has_effect op q ((found ← _find_for_session_locked sid id;
    let '(index, entry) := found in
    _ ← _assert_status_version entry v;
    if negb (status_eqb (e_status entry) QUEUED) then conflict entry else k index entry) q).
Proof.
  intros Hk conflict Hc.
  destruct (find_for_session_cases sid id q) as [(i & e & E & Hi)|(x & E)];
    [|rewrite (bind_of_Raise _ _ _ _ _ E); apply eff_same].
  rewrite (bind_of_Ok _ _ _ _ _ E).
  destruct (assert_version_cases e v q) as [Ev|(x & Ev)];
    [|rewrite (bind_of_Raise _ _ _ _ _ Ev); apply eff_same].
  rewrite (bind_of_Ok _ _ _ _ _ Ev).
  destruct (status_eqb (e_status e) QUEUED) eqn:Es; cbn [negb].
  - apply Hk; [done|]. by apply status_eqb_eq.
  - destruct (Hc e) as [x ->]. apply eff_same.
Qed.

Lemma drop_effect op sid id v q : has_effect op q (drop_entry sid id v q).
Proof.
  unfold drop_entry. apply located_effect; [|intros e; by eexists].
  intros i e Hi Hs. unfold queue_now_iso, _emit. munfold. unfold has_effect. simpl.
  eapply eff_update; [done| | |done].
  - apply trans_set. by rewrite Hs.
  - by rewrite Hs.
Qed.

Lemma resolve_move_entries sid b a q :
  (_resolve_move_index_locked sid b a q).1 = q.
Proof. unfold _resolve_move_index_locked. munfold. repeat case_match; by simplify_eq/=. Qed.

Lemma move_effect sid id v b a q :
  has_effect (QMove sid id v b a) q (move_entry sid id v b a q).
Proof.
  unfold move_entry. destruct (otruthy b && otruthy a); [apply eff_same|].
  apply located_effect; [|intros e; by eexists].
  intros i e Hi Hs. set (q1 := set_entries (list_pop i (entries q)) q).
  rewrite (bind_of_Ok _ _ q q1 ()) by done.
  pose proof (resolve_move_entries sid b a q1) as Hr.
  destruct (_resolve_move_index_locked sid b a q1) as [q2 [j|x]] eqn:E; simpl in Hr; subst q2.
  - rewrite (bind_of_Ok _ _ _ _ _ E), Hs. by eapply eff_move.
  - rewrite (bind_of_Raise _ _ _ _ _ E). by eapply eff_lost.
Qed.

(** A move that raises has taken its entry out, or nothing. *)
Lemma move_raised sid id v b a q :
  is_raise (move_entry sid id v b a q).2 = true →
  entries (move_entry sid id v b a q).1 = entries q ∨
  ∃ i e, entries q !! i = Some e ∧ e_status e = QUEUED ∧
    entries (move_entry sid id v b a q).1 = list_pop i (entries q).
Proof.
  unfold move_entry. destruct (otruthy b && otruthy a); [by left|].
  destruct (find_for_session_cases sid id q) as [(i & e & E & Hi)|(x & E)];
    [rewrite (bind_of_Ok _ _ _ _ _ E)|by rewrite (bind_of_Raise _ _ _ _ _ E); left].
  destruct (assert_version_cases e v q) as [E'|(x & E')].
  2:{ rewrite (bind_of_Raise _ _ _ _ _ E'). by left. }
  rewrite (bind_of_Ok _ _ _ _ _ E'). destruct (status_eqb (e_status e) QUEUED) eqn:Es; [|by left]. cbn [negb].
  apply status_eqb_eq in Es. set (q1 := set_entries (list_pop i (entries q)) q).
  rewrite (bind_of_Ok _ _ q q1 ()) by done.
  pose proof (resolve_move_entries sid b a q1) as Hr.
  destruct (_resolve_move_index_locked sid b a q1) as [q2 [j|x]] eqn:E2; simpl in Hr; subst q2.
  - rewrite (bind_of_Ok _ _ _ _ _ E2). unfold _emit. munfold. done.
  - rewrite (bind_of_Raise _ _ _ _ _ E2). right. by exists i, e.
Qed.

Lemma raise_if_full_cases sid q :
  (_raise_if_full_locked sid q = (q, Ok ()) ∧
   (active_count sid (entries q) < max_pending_per_session q)%Z) ∨
  (∃ q' x, _raise_if_full_locked sid q = (q', Raise x) ∧ entries q' = entries q).
Proof.
  unfold _raise_if_full_locked, qerror, _emit. munfold. fold (active_count sid (entries q)).
  destruct (Z.leb_spec (max_pending_per_session q) (active_count sid (entries q)));
    [right; by eexists _, _|left]. split; [done|lia].
Qed.

Lemma enqueue_terms_status a intent target status metadata :
  enqueue_terms a intent = Ok (target, status, metadata) →
  status = QUEUED ∨ status = STEER_DEFERRED.
Proof.
  unfold enqueue_terms. munfold. repeat case_match; intros; simplify_eq/=; auto.
Qed.

Lemma enqueue_new_effect op a sid aid text intent target status metadata key q :
  status = QUEUED ∨ status = STEER_DEFERRED →
  has_effect op q (enqueue_new a sid aid text intent target status metadata key q).
Proof.
  intros Hst. unfold enqueue_new.
  destruct (raise_if_full_cases sid q) as [[E Hlt]|(q' & x & E & Hq)].
  - rewrite (bind_of_Ok _ _ _ _ _ E). unfold next_id, queue_now_iso, _emit. munfold.
    unfold has_effect. destruct key; simpl; by apply eff_append.
  - rewrite (bind_of_Raise _ _ _ _ _ E). unfold has_effect. simpl. rewrite Hq. apply eff_same.
Qed.

Lemma enqueue_effect op a q : has_effect op q (enqueue a q).
Proof.
  unfold enqueue.
  destruct (_require_non_empty (a_session_id a) _) as [sid|x]; [mok sid|apply eff_same].
  destruct (_require_non_empty (a_agent_id a) _) as [aid|x]; [mok aid|apply eff_same].
  destruct (_require_non_empty (a_text a) _) as [text|x]; [mok text|apply eff_same].
  destruct (_coerce_intent (a_intent a)) as [intent|x]; [mok intent|apply eff_same].
  destruct (enqueue_terms a intent) as [[[target status] metadata]|x] eqn:Et; [|apply eff_same].
  mok (target, status, metadata). unfold gets. unfold mbind at 1, M_bind at 1.
  destruct (match _idempotency_lookup_key _ _ _ with Some k => _ | None => _ end); [apply eff_same|]. apply enqueue_new_effect. by eapply enqueue_terms_status.
Qed.

Lemma reserve_next_effect op sid aid x q : has_effect op q (reserve_next sid aid x q).
Proof.
  unfold reserve_next, gets. unfold mbind at 1, M_bind at 1.
  destruct (List.find (reserved_in sid aid) (entries q)) as [r|] eqn:Ef; [apply eff_same|].
  unfold mbind at 1, M_bind at 1.
  destruct (find_index (next_in sid aid) (entries q)) as [[i e]|] eqn:Ei; [|apply eff_same].
  destruct (_ && _); [apply eff_same|]. apply find_index_spec in Ei as (Hi & Hn & _).
  unfold next_in, of_pair in Hn. bsplit. apply status_eqb_eq in H1. subst sid aid.
  apply (eff_reserve _ _ _ i e); [done|done|].
  intros y Hy. apply list_elem_of_In in Hy. exact (find_none _ _ Ef y Hy).
Qed.

Lemma emit_all_spec ty l q :
  ∃ q', emit_all ty l q = (q', Ok ()) ∧ entries q' = entries q.
Proof.
  revert q. induction l as [|e l IH]; intros q; [by exists q|].
  cbn [emit_all]. unfold _emit, modify. unfold mbind, M_bind.
  destruct (IH (add_event (ty, event_payload e) q)) as (q' & -> & Hq). by exists q'.
Qed.

Lemma reserve_steering_effect sid aid tr q :
  has_effect (QReserveSteering sid aid tr) q (reserve_steering sid aid tr q).
Proof.
  unfold reserve_steering.
  destruct (_require_non_empty sid _) as [s|x]; [mok s|apply eff_same].
  destruct (_require_non_empty aid _) as [a|x]; [mok a|apply eff_same].
  destruct (_require_non_empty tr _) as [t|x]; [mok t|apply eff_same]. unfold gets. unfold mbind at 1, M_bind at 1.
  unfold modify. unfold mbind at 1, M_bind at 1.
  set (l := map _ _). set (q1 := set_entries _ _).
  destruct (emit_all_spec QUEUE_EVENT_DEQUEUED l q1) as (q' & E & Hq).
  rewrite (bind_of_Ok _ _ _ _ _ E). unfold has_effect. simpl. rewrite Hq. simpl.
  apply eff_batch. intros e _ Hp. unfold steerable in Hp. bsplit.
  apply status_eqb_eq in H0. apply intent_eqb_eq in H1.
  split_and!; [|done|by rewrite H0]. apply trans_bump. by rewrite H0.
Qed.

Lemma batch_effect op ids tr allowed target q :
  (∀ st, existsb (status_eqb st) allowed = true → legal STEER_CURRENT st target = true) →
  (match op with QCompensateSteering _ _ => True
   | _ => ∀ st, existsb (status_eqb st) allowed = true → queue_active st = true end) →
  has_effect op q (_transition_steering_batch ids tr allowed target q).
Proof.
  intros Hlegal Hact. unfold _transition_steering_batch.
  set (req := List.filter truthy (map py_strip ids)). destruct req as [|r0 rs] eqn:Er;
    [apply eff_same|]. rewrite <-Er. clearbody req. clear Er.
  destruct (_require_non_empty tr _) as [t|x]; [mok t|apply eff_same]. unfold gets. unfold mbind at 1, M_bind at 1.
  set (ms := List.filter _ (entries q)).
  destruct (negb _); [apply eff_same|].
  destruct (List.find _ ms) as [bad|] eqn:Ef; [apply eff_same|].
  unfold queue_now_iso. unfold mbind at 1, M_bind at 1. unfold modify.
  unfold mbind at 1, M_bind at 1. set (l := map _ ms). set (q1 := set_entries _ _).
  destruct (emit_all_spec (if status_eqb target COMPLETED then QUEUE_EVENT_COMPLETED
                        else QUEUE_EVENT_REQUEUED) l q1) as (q' & E & Hq).
  rewrite (bind_of_Ok _ _ _ _ _ E). unfold has_effect. simpl. rewrite Hq. simpl.
  apply eff_batch. intros e He Hp.
  assert (steer_ok t allowed e = true) as Hok.
  { apply negb_false_iff. apply (find_none _ _ Ef). apply filter_In.
    split; [by apply list_elem_of_In|done]. }
  unfold steer_ok in Hok. bsplit. apply intent_eqb_eq in H.
  split_and!; [|done|destruct op; auto].
  apply trans_set. rewrite H. auto.
Qed.

(** An updater of a single entry: it raises without touching the entries, or
    returns a legal successor of an active entry. *)
Definition good_updater (f : TurnInputQueueEntry → QM TurnInputQueueEntry) : Prop :=
  ∀ e q, (∃ x, f e q = (q, Raise x)) ∨
    (∃ q' u, f e q = (q', Ok u) ∧ entries q' = entries q ∧ trans e u ∧
       queue_active (e_status e) = true ∧ e_status u ≠ RESERVED).

Lemma good_mark_running tr : good_updater (_mark_running_entry tr).
Proof.
  intros e q. unfold _mark_running_entry.
  destruct (status_eqb (e_status e) RESERVED) eqn:E; [right|left; by eexists].
  apply status_eqb_eq in E. eexists _, _. split; [reflexivity|].
  split_and!; [done| |by rewrite E|done]. apply trans_set. by rewrite E.
Qed.
Lemma good_requeue : good_updater _requeue_entry.
Proof.
  intros e q. unfold _requeue_entry. destruct (_ && _) eqn:E; [left; by eexists|right].
  eexists _, _. split; [reflexivity|].
  assert (e_status e = RESERVED ∨ e_status e = RUNNING) as [Es|Es].
  { apply andb_false_iff in E as [E|E]; apply negb_false_iff, status_eqb_eq in E; auto. }
  all: split_and!; [done|apply trans_set; by rewrite Es|by rewrite Es|done].
Qed.
Lemma good_mark_terminal st : terminal_event st ≠ None → good_updater (_mark_terminal_entry st).
Proof.
  intros Ht e q. unfold _mark_terminal_entry.
  destruct (status_eqb (e_status e) RUNNING) eqn:E; [right|left; by eexists].
  apply status_eqb_eq in E. eexists _, _. split; [reflexivity|].
  split_and!; [done| |by rewrite E|by destruct st]. apply trans_set. rewrite E. by destruct st.
Qed.

Lemma emit_terminal_spec u q :
  ∃ q', match terminal_event (e_status u) with
        | Some ty => _emit ty (event_payload u)
        | None => mret ()
        end q = (q', Ok ()) ∧ entries q' = entries q.
Proof. destruct (terminal_event _); by eexists. Qed.

Lemma replace_effect op id f q :
  good_updater f → has_effect op q (_replace_by_id id f q).
Proof.
  intros Hf. unfold _replace_by_id, gets. unfold mbind at 1, M_bind at 1.
  destruct (find_index _ (entries q)) as [[i e]|] eqn:Ei; [|apply eff_same].
  apply find_index_spec in Ei as (Hi & _).
  destruct (Hf e q) as [[x E]|(q' & u & E & Hq & Ht & Ha & Hr)].
  { rewrite (bind_of_Raise _ _ _ _ _ E). apply eff_same. }
  rewrite (bind_of_Ok _ _ _ _ _ E). set (q1 := set_entries (<[i:=u]> (entries q')) q').
  rewrite (bind_of_Ok _ _ q' q1 ()) by done.
  destruct (emit_terminal_spec u q1) as (q2 & E2 & Hq2).
  rewrite (bind_of_Ok _ _ _ _ _ E2). unfold has_effect. simpl. rewrite Hq2. simpl. rewrite Hq.
  by eapply eff_update.
Qed.

(** A step followed by an event emission. *)
Lemma emit_after_effect op q (m : QM TurnInputQueueEntry) ty :
  has_effect op q (m q) →
  has_effect op q ((u ← m; _ ← _emit ty (event_payload u); mret u) q).
Proof. unfold has_effect, mbind, M_bind. by destruct (m q) as [q' [u|x]]. Qed.

Lemma coerce_terminal_ok st s : coerce_terminal st = Ok s → terminal_event s ≠ None.
Proof.
  unfold coerce_terminal. munfold. destruct (_coerce_status st) as [s'|]; [|done].
  destruct (terminal_event s') eqn:E; [|done]. intros [= <-]. by rewrite E.
Qed.

Lemma mark_by_trace_effect op tr st q : has_effect op q (mark_terminal_by_trace tr st q).
Proof.
  unfold mark_terminal_by_trace. destruct (negb _); [apply eff_same|].
  destruct (coerce_terminal st) as [s|x] eqn:Ec; [mok s|apply eff_same].
  apply coerce_terminal_ok in Ec. unfold gets. unfold mbind at 1, M_bind at 1.
  destruct (find_index _ (entries q)) as [[i e]|] eqn:Ei; [|apply eff_same].
  apply find_index_spec in Ei as (Hi & _).
  destruct (good_mark_terminal s Ec e q) as [[x E]|(q' & u & E & Hq & Ht & Ha & Hr)].
  { rewrite (bind_of_Raise _ _ _ _ _ E). apply eff_same. }
  rewrite (bind_of_Ok _ _ _ _ _ E). unfold has_effect. simpl. rewrite Hq. by eapply eff_update.
Qed.

(** Every operation has one of the effects. *)
Lemma run_queue_effect op q : has_effect op q (run_queue op q).
Proof.
  destruct op; apply outcome_effect.
  - apply enqueue_effect.
  - apply drop_effect.
  - apply move_effect.
  - apply reserve_next_effect.
  - apply reserve_steering_effect.
  - apply batch_effect; intros []; done.
  - apply batch_effect; [intros []; done|done].
  - unfold mark_running. destruct (_require_non_empty trace _) as [tr|x]; [mok tr|apply eff_same].
    apply emit_after_effect, replace_effect, good_mark_running.
  - apply emit_after_effect, replace_effect, good_requeue.
  - unfold mark_terminal. destruct (coerce_terminal status) as [s|x] eqn:Ec; [mok s|apply eff_same].
    apply replace_effect, good_mark_terminal. by eapply coerce_terminal_ok.
  - apply mark_by_trace_effect.
Qed.

(** What becomes of an entry in one effect. *)
Lemma effect_entry op q raised l e :
  effect op q raised l → e ∈ entries q →
  (∃ e', e' ∈ l ∧ (e' = e ∨ trans e e')) ∨
  (raised = true ∧ e_status e = QUEUED ∧ ∃ sid id v b a, op = QMove sid id v b a).
Proof.
  intros Heff He. destruct Heff as [|x Hx|i x u Hi Ht Ha Hr|i x Hi Hs Hn|p f Hb|i j x Hi Hs
    |i x sid id v b a Hop Hraised Hi Hs].
  - left. eauto.
  - left. exists e. split; [|by left]. apply elem_of_app. by left.
  - left. destruct (elem_of_insert_other i x e u _ Hi He) as [->|Hin]; [|eauto].
    exists u. split; [|by right]. eapply list_elem_of_insert. eauto using lookup_lt_Some.
  - left. destruct (elem_of_insert_other i x e (entry_bump RESERVED x) _ Hi He) as [->|Hin];
      [|eauto].
    exists (entry_bump RESERVED x). split; [|right; apply trans_bump; by rewrite Hs].
    eapply list_elem_of_insert. eauto using lookup_lt_Some.
  - left. destruct (p e) eqn:Ep.
    + exists (f e). split; [|right; by apply Hb]. apply update_where_elem. eauto 6.
    + exists e. split; [|by left]. apply update_where_elem. eauto 6.
  - left. destruct (elem_of_pop i x e _ Hi He) as [->|Hin].
    + exists (entry_bump QUEUED x). rewrite elem_of_insert_at. split; [by left|].
      right. apply trans_bump. by rewrite Hs.
    + exists e. rewrite elem_of_insert_at. auto.
  - destruct (elem_of_pop i x e _ Hi He) as [->|Hin]; [right|left; eauto].
    split_and!; [done|done|]. by eexists _, _, _, _, _.
Qed.

Lemma effect_origin op q raised l e' :
  effect op q raised l → e' ∈ l →
  (∃ e, e ∈ entries q ∧ (e' = e ∨ trans e e')) ∨
  (raised = false ∧ e_status_version e' = 1%Z ∧ (e_status e' = QUEUED ∨ e_status e' = STEER_DEFERRED)).
Proof.
  intros Heff. destruct Heff as [|x Hr Hv Hs _|i x u Hi Ht Ha Hr|i x Hi Hs Hn|p f Hb|i j x Hi Hs
    |i x sid id v b a Hop Hraised Hi Hs].
  - left. eauto.
  - intros [?| ->%list_elem_of_singleton]%elem_of_app; [left; eauto|by right].
  - intros [Hin| ->]%elem_of_set; left; [eauto|]. exists x. eauto using list_elem_of_lookup_2.
  - intros [Hin| ->]%elem_of_set; left; [eauto|]. exists x. split; [by eapply list_elem_of_lookup_2|].
    right. apply trans_bump. by rewrite Hs.
  - intros (x & Hx & [[Hp ->]|[Hp ->]])%update_where_elem; left; exists x; split; auto. right. by apply Hb.
  - rewrite elem_of_insert_at. intros [->|Hin]; left.
    + exists x. split; [by eapply list_elem_of_lookup_2|]. right. apply trans_bump. by rewrite Hs.
    + exists e'. split; [|by left]. by eapply pop_elem.
  - intros Hin. left. exists e'. split; [|by left]. by eapply pop_elem.
Qed.

Definition failed_move (op : queue_op) (q : TurnInputQueue) : bool :=
  match op with QMove _ _ _ _ _ => is_raise (run_queue op q).2 | _ => false end.

Lemma failed_move_entries op q :
  failed_move op q = true →
  entries (run_queue op q).1 = entries q ∨
  ∃ i e, entries q !! i = Some e ∧ e_status e = QUEUED ∧ entries (run_queue op q).1 = list_pop i (entries q).
Proof.
  destruct op as [| |sid id v b a| | | | | | | |]; try done. simpl. intros H. apply (move_raised sid id v b a).
  by destruct (move_entry sid id v b a q) as [q' []].
Qed.

(** ** What operations other than [enqueue] never touch *)

Definition fixed (q q' : TurnInputQueue) : Prop :=
  max_pending_per_session q' = max_pending_per_session q ∧ idempotency q' = idempotency q.
#[local] Instance fixed_preorder : PreOrder fixed.
Proof. split; [done|]. intros ? ? ? [] []. split; congruence. Qed.

Definition keeps_fixed {A} (m : QM A) : Prop := ∀ q, fixed q (m q).1.
Lemma fixed_ret {A} (a : A) : keeps_fixed (mret a).
Proof. done. Qed.
Lemma fixed_raise {A} x : keeps_fixed (raise x : QM A).
Proof. done. Qed.
Lemma fixed_lift {A} (r : result queue_exn A) : keeps_fixed (lift_result r).
Proof. done. Qed.
Lemma fixed_gets {A} (f : TurnInputQueue → A) : keeps_fixed (gets f).
Proof. done. Qed.
Lemma fixed_now : keeps_fixed queue_now_iso.
Proof. done. Qed.
Lemma fixed_emit ty p : keeps_fixed (_emit ty p).
Proof. done. Qed.
Lemma fixed_entries f : keeps_fixed (modify (λ q, set_entries (f q) q)).
Proof. done. Qed.
Lemma fixed_bind {A B} (m : QM A) (f : A → QM B) :
  keeps_fixed m → (∀ a, keeps_fixed (f a)) → keeps_fixed (mbind f m).
Proof.
  intros Hm Hf q. unfold mbind, M_bind. specialize (Hm q).
  destruct (m q) as [q1 [a|e]]; simpl in *; [|done]. etrans; [done|apply Hf].
Qed.
Ltac fix_step := first
  [ apply fixed_ret | apply fixed_raise | apply fixed_lift | apply fixed_gets
  | apply fixed_now | apply fixed_emit | apply fixed_entries
  | apply fixed_bind; [|intros ?] | progress case_match | progress simpl ].

Lemma fixed_emit_all ty l : keeps_fixed (emit_all ty l).
Proof.
  induction l; cbn [emit_all]; [apply fixed_ret|]. apply fixed_bind; [apply fixed_emit|done].
Qed.

Definition is_enqueue (op : queue_op) : bool :=
  match op with QEnqueue _ => true | _ => false end.

Lemma outcome_fixed {A} (f : A → list TurnInputQueueEntry) q r :
  fixed q r.1 → fixed q (outcome f r).1.
Proof. done. Qed.

Lemma run_queue_fixed op q : is_enqueue op = false → fixed q (run_queue op q).1.
Proof.
  intros He. destruct op; [done|..]; apply outcome_fixed; revert q.
  all: match goal with |- ∀ q, fixed q (?m q).1 => change (keeps_fixed m) end.
  all: unfold drop_entry, move_entry, reserve_next, reserve_steering, complete_steering,
    compensate_steering, _transition_steering_batch, mark_running, requeue, mark_terminal,
    mark_terminal_by_trace, _replace_by_id, _find_for_session_locked, _assert_status_version,
    _resolve_move_index_locked, _mark_running_entry, _requeue_entry, _mark_terminal_entry, qerror.
  all: repeat first [apply fixed_emit_all | fix_step].
Qed.

Lemma enqueue_new_max a sid aid text intent target status metadata key q :
  max_pending_per_session
    (enqueue_new a sid aid text intent target status metadata key q).1
  = max_pending_per_session q.
Proof.
  unfold enqueue_new, _raise_if_full_locked, next_id, queue_now_iso, _emit, qerror. munfold.
  destruct (Z.leb _ _); [done|]. by destruct key.
Qed.

Lemma enqueue_max a q :
  max_pending_per_session (enqueue a q).1 = max_pending_per_session q.
Proof.
  unfold enqueue. unfold mbind, M_bind, lift_result, gets.
  repeat (case_match; simplify_eq/=); try done; apply enqueue_new_max.
Qed.

Lemma run_queue_max op q :
  max_pending_per_session (run_queue op q).1 = max_pending_per_session q.
Proof.
  destruct (is_enqueue op) eqn:E; [|by apply run_queue_fixed]. destruct op; try done.
  apply enqueue_max.
Qed.

(** ** Capacity *)

Definition within_capacity (q : TurnInputQueue) : Prop :=
  ∀ sid, (active_count sid (entries q) ≤ max_pending_per_session q)%Z.

Definition is_compensate (op : queue_op) : bool :=
  match op with QCompensateSteering _ _ => true | _ => false end.

Lemma active_in_trans sid e u :
  trans e u → queue_active (e_status e) = true → active_in sid u = true → active_in sid e = true.
Proof.
  intros [_ Hs _ _ _ _ _ _] Ha Hu. unfold active_in in *. bsplit. by rewrite <-Hs, Ha, H, String.eqb_refl.
Qed.

Lemma effect_capacity op q raised l :
  is_compensate op = false → effect op q raised l → within_capacity q →
  ∀ sid, (active_count sid l ≤ max_pending_per_session q)%Z.
Proof.
  intros Hop Heff Hcap sid. specialize (Hcap sid). unfold active_count in *.
  destruct Heff as [|x _ _ Hx Hlt|i x u Hi Ht Ha Hr|i x Hi Hs Hn|p f Hb|i j x Hi Hs
    |i x sid' id v b a Hop' Hraised Hi Hs].
  - done.
  - rewrite count_where_app, count_where_cons. unfold count_where at 2. simpl.
    destruct (active_in sid x) eqn:E; [|lia]. unfold active_in in E. bsplit. subst sid.
    unfold active_count in Hlt. lia.
  - pose proof (count_where_insert (active_in sid) _ _ _ u Hi) as Hc.
    destruct (active_in sid u) eqn:Eu; [|destruct (active_in sid x); lia].
    rewrite (active_in_trans _ _ _ Ht Ha Eu) in Hc. lia.
  - pose proof (count_where_insert (active_in sid) _ _ _ (entry_bump RESERVED x) Hi) as Hc.
    assert (active_in sid x = active_in sid (entry_bump RESERVED x)) as E
      by (unfold active_in; simpl; by rewrite Hs).
    rewrite E in Hc. destruct (active_in sid (entry_bump RESERVED x)); lia.
  - assert (count_where (active_in sid) (update_where p f (entries q))
      ≤ count_where (active_in sid) (entries q)); [|lia].
    apply count_where_update_le. intros x Hx Hp Hf.
    destruct (Hb x Hx Hp) as (Ht & _ & Ha). eapply active_in_trans; [done| |done].
    by destruct op.
  - rewrite count_where_insert_at. pose proof (count_where_pop (active_in sid) _ _ _ Hi) as Hc.
    assert (active_in sid x = active_in sid (entry_bump QUEUED x)) as E
      by (unfold active_in; simpl; by rewrite Hs).
    rewrite <-E. lia.
  - pose proof (count_where_pop (active_in sid) _ _ _ Hi) as Hc. lia.
Qed.

Lemma capacity_frame q ops :
  Forall (λ op, is_compensate op = false) ops → within_capacity q →
  within_capacity (run_queue_ops ops q).
Proof.
  intros Hops. revert q. induction Hops as [|op ops Hop Hops IH]; intros q Hq; [done|]. simpl.
  apply IH. intros sid. rewrite run_queue_max.
  exact (effect_capacity op q _ _ Hop (run_queue_effect op q) Hq sid).
Qed.

Lemma run_queue_ops_max ops q :
  max_pending_per_session (run_queue_ops ops q) = max_pending_per_session q.
Proof.
  revert q. induction ops as [|op ops IH]; intros q; [done|]. simpl.
  by rewrite IH, run_queue_max.
Qed.

(** ** Exclusive reservation *)

Definition reserved_next_in (sid aid : string) (e : TurnInputQueueEntry) : bool :=
  reserved_in sid aid e && intent_eqb (e_intent e) QUEUE_NEXT.

Definition exclusive (l : list TurnInputQueueEntry) : Prop :=
  ∀ sid aid, count_where (reserved_next_in sid aid) l ≤ 1.

Lemma not_reserved_in sid aid e : e_status e ≠ RESERVED → reserved_next_in sid aid e = false.
Proof.
  intros H. unfold reserved_next_in, reserved_in.
  destruct (status_eqb (e_status e) RESERVED) eqn:E; [by apply status_eqb_eq in E|].
  by rewrite andb_false_r.
Qed.

Lemma effect_exclusive op q raised l :
  effect op q raised l → exclusive (entries q) → exclusive l.
Proof.
  intros Heff Hx sid aid. specialize (Hx sid aid).
  destruct Heff as [|x _ _ Hs Hlt|i x u Hi Ht Ha Hr|i x Hi Hs Hn|p f Hb|i j x Hi Hs
    |i x sid' id v b a Hop' Hraised Hi Hs].
  - done.
  - rewrite count_where_app, count_where_cons. unfold count_where at 2. simpl.
    rewrite not_reserved_in by (by destruct Hs as [->| ->]). lia.
  - pose proof (count_where_insert (reserved_next_in sid aid) _ _ _ u Hi) as Hc.
    rewrite (not_reserved_in _ _ u Hr) in Hc. lia.
  - pose proof (count_where_insert (reserved_next_in sid aid) _ _ _ (entry_bump RESERVED x) Hi) as Hc.
    destruct (reserved_next_in sid aid (entry_bump RESERVED x)) eqn:E; [|lia].
    unfold reserved_next_in, reserved_in, of_pair in E. bsplit. simpl in *. subst sid aid.
    assert (count_where (reserved_next_in (e_session_id x) (e_agent_id x)) (entries q) = 0); [|lia].
    apply count_where_none. intros y Hy. unfold reserved_next_in. by rewrite Hn.
  - assert (count_where (reserved_next_in sid aid) (update_where p f (entries q))
      ≤ count_where (reserved_next_in sid aid) (entries q)); [|lia].
    apply count_where_update_le. intros y Hy Hp Hf.
    destruct (Hb y Hy Hp) as ([_ _ _ _ Hint _ _ _] & Hst & _).
    unfold reserved_next_in in Hf. rewrite Hint, Hst in Hf. by rewrite andb_false_r in Hf.
  - rewrite count_where_insert_at, not_reserved_in by done.
    pose proof (count_where_pop (reserved_next_in sid aid) _ _ _ Hi) as Hc. lia.
  - pose proof (count_where_pop (reserved_next_in sid aid) _ _ _ Hi) as Hc. lia.
Qed.

(** ** Final entries *)

Definition final (e : TurnInputQueueEntry) : bool :=
  match e_status e with
  | CANCELLED | FAILED | DROPPED | STEER_DEFERRED => true
  | COMPLETED => negb (intent_eqb (e_intent e) STEER_CURRENT)
  | QUEUED | RESERVED | RUNNING => false
  end.

Lemma final_no_trans e u : final e = true → ¬ trans e u.
Proof.
  intros Hf [_ _ _ _ _ _ _ Hl]. unfold final in Hf.
  destruct (e_status e); try done. destruct (e_status u); try done. simpl in Hl.
  by rewrite Hl in Hf.
Qed.

Lemma final_step op q e :
  final e = true → e ∈ entries q → e ∈ entries (run_queue op q).1.
Proof.
  intros Hf He. pose proof (run_queue_effect op q) as Heff.
  destruct (effect_entry _ _ _ _ e Heff He) as [(e' & He' & [->|Ht])|(_ & Hs & _)].
  - done.
  - by apply final_no_trans in Ht.
  - unfold final in Hf. by rewrite Hs in Hf.
Qed.
End QueueProps.

(** ** The queue's guarantees *)

(** C6: every operation respects the status machine.  Unless it is a [move] that
    raises, each entry that was in the queue is afterwards there, unchanged or with the
    same id, session, agent, text, intent and idempotency key, the next status
    version and a status the machine [legal] allows; this holds of operations that
    raise, too.  Conversely, an entry that is in the queue afterwards was there before
    or follows from one by such a transition, or it was added by an operation that
    returned, queued or deferred and in its first version.  A [move] that raises
    changes nothing or takes one queued entry out and leaves the others. *)
Theorem queue_transitions_legal `{PyEnv} op q :
  let r := run_queue op q in
  (failed_move op q = false →
   ∀ e, e ∈ entries q → ∃ e', e' ∈ entries r.1 ∧ (e' = e ∨ trans e e')) ∧
  (∀ e', e' ∈ entries r.1 →
   (∃ e, e ∈ entries q ∧ (e' = e ∨ trans e e')) ∨
   (is_raise r.2 = false ∧ e_status_version e' = 1%Z ∧ (e_status e' = QUEUED ∨ e_status e' = STEER_DEFERRED))) ∧
  (failed_move op q = true →
   entries r.1 = entries q ∨
   ∃ i e, entries q !! i = Some e ∧ e_status e = QUEUED ∧ entries r.1 = list_pop i (entries q)).
Proof.
  intros r. pose proof (run_queue_effect op q) as Heff. split_and!.
  - intros Hm e He. destruct (effect_entry op q _ _ e Heff He) as [|(Hr & _ & sid & id & v & b & a & ->)]; [done|].
    unfold failed_move in Hm. simpl in Hr, Hm. congruence.
  - intros e'. exact (effect_origin _ _ _ _ e' Heff).
  - intros Hm. by apply failed_move_entries.
Qed.

Definition demo_args (session text : string) (key : option string) : EnqueueArgs :=
  {| a_session_id := session; a_agent_id := "agent"; a_text := text; a_intent := "queue_next";
     a_source_client := "cli"; a_idempotency_key := key; a_priority := 0; a_metadata := [];
     a_steer_supported := false; a_target_trace_id := None |}.
Definition demo_steer (text : string) : EnqueueArgs :=
  {| a_session_id := "s1"; a_agent_id := "agent"; a_text := text; a_intent := "steer_current";
     a_source_client := "cli"; a_idempotency_key := None; a_priority := 0; a_metadata := [];
     a_steer_supported := true; a_target_trace_id := Some "trace-1" |}.
Definition demo_queue : TurnInputQueue :=
  run_queue_ops [QEnqueue (demo_args "s1" "first" (Some "k1")); QEnqueue (demo_args "s1" "second" None)]
    (new_queue 20).
Definition demo_entry (i : nat) (q : TurnInputQueue) : TurnInputQueueEntry :=
  nth i (entries q) (entry_set FAILED 0 None None None
    {| queue_id := ""; e_session_id := ""; e_agent_id := ""; e_text := ""; e_intent := QUEUE_NEXT;
       e_status := FAILED; e_source_client := ""; e_idempotency_key := None; e_priority := 0;
       e_metadata := []; e_status_version := 0; e_created_at := ""; e_started_at := None;
       e_completed_at := None; e_trace_id := None; e_target_trace_id := None |}).

(** Terminal entries are final.  An entry that is cancelled, failed,
    dropped or deferred, or completed other than as steering input, stays in
    the queue exactly as it is through every sequence of operations. *)
Theorem terminal_entries_final `{PyEnv} ops q e :
  e ∈ entries q → final e = true → e ∈ entries (run_queue_ops ops q).
Proof.
  revert q. induction ops as [|op ops IH]; intros q He Hf; [done|].
  simpl. apply IH; [|done]. by apply final_step.
Qed.

Definition demo_dropped : TurnInputQueue := run_queue_ops [QDrop "s1" "id-0" None] demo_queue.

Lemma terminal_entries_final_witness :
  demo_entry 0 demo_dropped ∈
  entries (run_queue_ops [QRequeue "id-0"; QReserveNext "s1" "agent" None] demo_dropped).
Proof. apply terminal_entries_final; [vm_compute; left|vm_compute; reflexivity]. Defined.

(** The queue stays within its capacity.  If no session has more than
    [max_pending_per_session] queued, reserved or running entries, none has
    after any sequence of operations that does not compensate steering
    entries. *)
Theorem capacity_respected `{PyEnv} ops q :
  Forall (λ op, is_compensate op = false) ops → within_capacity q →
  within_capacity (run_queue_ops ops q) ∧
  max_pending_per_session (run_queue_ops ops q) = max_pending_per_session q.
Proof. intros Hops Hq. split; [by apply capacity_frame|apply run_queue_ops_max]. Qed.

Lemma capacity_respected_witness :
  within_capacity (run_queue_ops [QEnqueue (demo_args "s1" "one" None);
                                  QEnqueue (demo_args "s1" "two" None)] (new_queue 1)).
Proof.
  eapply proj1, (capacity_respected [QEnqueue (demo_args "s1" "one" None);
    QEnqueue (demo_args "s1" "two" None)] (new_queue 1)).
  - repeat constructor.
  - intros sid. vm_compute. discriminate.
Defined.

(** Compensation can exceed the capacity.  Compensating completed steering
    entries puts them back in the queue without the capacity check: with a
    limit of one, a completed steering entry followed by a new entry leaves
    two active entries after the compensation. *)
Theorem compensation_exceeds_capacity :
  let q := run_queue_ops [QEnqueue (demo_steer "hint"); QReserveSteering "s1" "agent" "trace-1";
                          QCompleteSteering ["id-0"] "trace-1"; QEnqueue (demo_args "s1" "next" None)]
             (new_queue 1) in
  within_capacity q ∧
  active_count "s1" (entries (run_queue (QCompensateSteering ["id-0"] "trace-1") q).1) = 2%Z.
Proof.
  intros q. split; [|vm_compute; reflexivity].
  apply (capacity_frame (new_queue 1)); [repeat constructor|]. intros sid. vm_compute. discriminate.
Qed.

(** At most one entry of a session and agent is reserved to run next,
    after any sequence of operations from a queue in which that holds. *)
Theorem reservation_exclusive `{PyEnv} ops q :
  exclusive (entries q) → exclusive (entries (run_queue_ops ops q)).
Proof.
  revert q. induction ops as [|op ops IH]; intros q Hq; [done|]. simpl. apply IH.
  exact (effect_exclusive op q _ _ (run_queue_effect op q) Hq).
Qed.

Lemma reservation_exclusive_witness :
  exclusive (entries (run_queue_ops [QReserveNext "s1" "agent" None; QReserveNext "s1" "agent" None]
                        demo_queue)).
Proof.
  apply reservation_exclusive. intros sid aid.
  rewrite count_where_none; [lia|]. intros e He. vm_compute in He.
  apply not_reserved_in.
  apply elem_of_cons in He as [->|He]; [discriminate|].
  apply list_elem_of_singleton in He as ->. discriminate.
Defined.

(** [reserve_next] as a function of the queue. *)
Lemma reserve_next_eq sid aid expected q :
  reserve_next sid aid expected q =
  match List.find (reserved_in sid aid) (entries q) with
  | Some r => (q, Raise (TurnInputQueueError "QUEUE_CONFLICT" "A queued entry is already reserved."
                           (status_details r)))
  | None =>
      match find_index (next_in sid aid) (entries q) with
      | None => (q, Ok None)
      | Some (i, e) =>
          if otruthy expected && negb (ostr_eqb (Some (queue_id e)) expected) then
            (q, Raise (TurnInputQueueError "QUEUE_CONFLICT"
                  "The next queued entry changed before reservation."
                  [("expected_queue_id", ostr_val expected);
                   ("actual_queue_id", PStr (queue_id e))]))
          else (add_event (QUEUE_EVENT_DEQUEUED, event_payload (entry_bump RESERVED e))
                  (set_entries (<[i := entry_bump RESERVED e]> (entries q)) q),
                Ok (Some (entry_bump RESERVED e)))
      end
  end.
Proof.
  unfold reserve_next, qerror, _emit. munfold.
  destruct (List.find _ _); [done|]. destruct (find_index _ _) as [[i e]|]; [|done].
  by destruct (otruthy expected && _).
Qed.

(** [reserve_next] is first in, first out.  When nothing is reserved for
    the session and agent it takes the earliest queued [queue_next] entry of
    theirs (provided it is the expected one, when the caller names one), moves
    exactly that entry to [reserved] with the next version, announces it, and
    returns it; without a queued entry it returns [None]; when an entry is
    already reserved, or the earliest is not the expected one, it raises
    [QUEUE_CONFLICT] and the queue is unchanged. *)
Theorem reserve_next_fifo sid aid expected q :
  match List.find (reserved_in sid aid) (entries q) with
  | Some _ => ∃ d, reserve_next sid aid expected q
        = (q, Raise (TurnInputQueueError "QUEUE_CONFLICT" "A queued entry is already reserved." d))
  | None =>
      (reserve_next sid aid expected q = (q, Ok None) ∧
       ∀ e, e ∈ entries q → next_in sid aid e = false) ∨
      (∃ i e, entries q !! i = Some e ∧ next_in sid aid e = true ∧
         (∀ j x, j < i → entries q !! j = Some x → next_in sid aid x = false) ∧
         if otruthy expected && negb (ostr_eqb (Some (queue_id e)) expected) then
           ∃ d, reserve_next sid aid expected q = (q, Raise (TurnInputQueueError "QUEUE_CONFLICT"
                  "The next queued entry changed before reservation." d))
         else
           let u := entry_bump RESERVED e in
           reserve_next sid aid expected q =
           (add_event (QUEUE_EVENT_DEQUEUED, event_payload u)
              (set_entries (<[i := u]> (entries q)) q), Ok (Some u)))
  end.
Proof.
  rewrite reserve_next_eq.
  destruct (List.find (reserved_in sid aid) (entries q)) as [r|]; [by eexists|].
  destruct (find_index (next_in sid aid) (entries q)) as [[i e]|] eqn:Ei.
  - right. pose proof (find_index_spec _ _ _ _ Ei) as (Hi & Hn & Hb). exists i, e.
    split_and!; [done..|]. destruct (otruthy expected && _); [by eexists|done].
  - left. split; [done|]. by apply find_index_none.
Qed.

(** ** Idempotent enqueueing *)

Section Idempotency.
Context {Env : PyEnv}.

(** The index maps the key to an entry that is in the queue. *)
Definition registered (k : idem_key) (id : string) (q : TurnInputQueue) : Prop :=
  idempotency q !! k = Some id ∧ truthy id = true ∧ ∃ e, e ∈ entries q ∧ queue_id e = id.

Definition args_key (a : EnqueueArgs) : option idem_key :=
  _idempotency_lookup_key (py_strip (a_session_id a)) (py_strip (a_agent_id a))
    (a_idempotency_key a).

Lemma registered_found k id q :
  registered k id q →
  ∃ e, _find_by_id_locked (idempotency q !! k) (entries q) = Some e ∧ queue_id e = id.
Proof.
  intros (Hk & Ht & e & He & Hid). unfold _find_by_id_locked. rewrite Hk. simpl. rewrite Ht.
  destruct (List.find _ (entries q)) as [e'|] eqn:Ef.
  - exists e'. split; [done|]. apply find_elem in Ef as [_ Ef]. by apply String.eqb_eq.
  - exfalso. apply list_elem_of_In in He. pose proof (find_none _ _ Ef e He) as Hn.
    simpl in Hn. by rewrite Hid, String.eqb_refl in Hn.
Qed.

(** [enqueue] once its arguments are accepted. *)
Lemma enqueue_cases a q :
  (∃ x, enqueue a q = (q, Raise x)) ∨
  (∃ text intent target status metadata,
     let sid := py_strip (a_session_id a) in let aid := py_strip (a_agent_id a) in
     (status = QUEUED ∨ status = STEER_DEFERRED) ∧
     enqueue a q =
     match (match args_key a with
            | None => None
            | Some k => _find_by_id_locked (idempotency q !! k) (entries q)
            end) with
     | Some e => (q, Ok e)
     | None => enqueue_new a sid aid text intent target status metadata (args_key a) q
     end).
Proof.
  unfold enqueue, args_key. unfold _require_non_empty.
  destruct (negb (truthy (py_strip (a_session_id a)))); [left; by eexists|].
  rewrite (bind_of_Ok _ _ q q (py_strip (a_session_id a))) by done.
  destruct (negb (truthy (py_strip (a_agent_id a)))); [left; by eexists|].
  rewrite (bind_of_Ok _ _ q q (py_strip (a_agent_id a))) by done.
  destruct (negb (truthy (py_strip (a_text a)))); [left; by eexists|].
  rewrite (bind_of_Ok _ _ q q (py_strip (a_text a))) by done.
  destruct (_coerce_intent (a_intent a)) as [intent|x]; [|left; by eexists].
  rewrite (bind_of_Ok _ _ q q intent) by done.
  destruct (enqueue_terms a intent) as [[[target status] metadata]|x] eqn:Et; [|left; by eexists].
  rewrite (bind_of_Ok _ _ q q (target, status, metadata)) by done.
  right. exists (py_strip (a_text a)), intent, target, status, metadata.
  split; [by eapply enqueue_terms_status|]. unfold gets. unfold mbind at 1, M_bind at 1.
  by destruct (match _idempotency_lookup_key _ _ _ with Some k => _ | None => _ end).
Qed.

Lemma enqueue_new_Ok a sid aid text intent target status metadata key q q' e :
  enqueue_new a sid aid text intent target status metadata key q = (q', Ok e) →
  entries q' = entries q ++ [e] ∧ queue_id e = py_uuid4 (q_drawn q) ∧
  idempotency q' = match key with
                   | Some k => <[k := queue_id e]> (idempotency q)
                   | None => idempotency q
                   end.
Proof.
  unfold enqueue_new, _raise_if_full_locked, next_id, queue_now_iso, _emit, qerror. munfold.
  destruct (Z.leb _ _); [done|]. destruct key; intros [= <- <-]; done.
Qed.

Lemma enqueue_new_Raise a sid aid text intent target status metadata key q q' x :
  enqueue_new a sid aid text intent target status metadata key q = (q', Raise x) →
  entries q' = entries q ∧ idempotency q' = idempotency q.
Proof.
  unfold enqueue_new, _raise_if_full_locked, next_id, queue_now_iso, _emit, qerror. munfold.
  destruct (Z.leb _ _); [by intros [= <- _]|]. by destruct key.
Qed.

(** The key of an accepted request is registered with its entry. *)
Lemma enqueue_registers a k q q1 e :
  (∀ i, py_uuid4 i ≠ "") → enqueue a q = (q1, Ok e) → args_key a = Some k →
  registered k (queue_id e) q1.
Proof.
  intros Hid Henq Hka.
  destruct (enqueue_cases a q) as [[x E]|(tx & it & tg & st & md & _ & E)]; [congruence|].
  rewrite E, Hka in Henq.
  destruct (_find_by_id_locked (idempotency q !! k) (entries q)) as [e0|] eqn:Ef.
  - simplify_eq. unfold _find_by_id_locked in Ef.
    destruct (idempotency q1 !! k) as [id|] eqn:Ei; [|done]. simpl in Ef.
    destruct (truthy id) eqn:Et; [|done]. apply find_elem in Ef as [He Heq].
    apply String.eqb_eq in Heq. subst id. split_and!; [done|done|by exists e].
  - apply enqueue_new_Ok in Henq as (He & Hq & Hi). split_and!.
    + by rewrite Hi, lookup_insert_eq.
    + rewrite Hq. by apply truthy_true.
    + exists e. split; [|done]. rewrite He. apply elem_of_app. right. by left.
Qed.

Lemma registered_step op q k id :
  failed_move op q = false → registered k id q → registered k id (run_queue op q).1.
Proof.
  intros Hm Hreg. pose proof Hreg as (Hk & Ht & e & He & Hid).
  assert (∃ e', e' ∈ entries (run_queue op q).1 ∧ queue_id e' = id) as Hent.
  { destruct (effect_entry _ _ _ _ e (run_queue_effect op q) He)
      as [(e' & He' & [->|[Hi _ _ _ _ _ _ _]])|(Hr & _ & sid & i & v & b & a & ->)].
    - by exists e.
    - exists e'. split; [done|congruence].
    - simpl in Hm, Hr. congruence. }
  destruct (is_enqueue op) eqn:Eop.
  2:{ destruct (run_queue_fixed op q Eop) as [_ Hi]. split_and!; [by rewrite Hi|done|done]. }
  split_and!; [|done|done]. destruct op as [a| | | | | | | | | |]; try done. simpl.
  destruct (enqueue_cases a q) as [[x ->]|(tx & it & tg & st & md & _ & ->)]; [done|].
  destruct (match args_key a with Some _ => _ | None => _ end) as [e0|] eqn:Ef; [done|].
  destruct (enqueue_new _ _ _ _ _ _ _ _ _ q) as [q' [e1|x]] eqn:En; simpl.
  - apply enqueue_new_Ok in En as (_ & _ & ->). destruct (args_key a) as [k'|]; [|done].
    destruct (decide (k' = k)) as [->|Hne]; [|by rewrite lookup_insert_ne].
    destruct (registered_found k id q Hreg) as (e2 & Hf & _). congruence.
  - by apply enqueue_new_Raise in En as [_ ->].
Qed.
End Idempotency.

(** Along the execution, no [move] raises. *)
Fixpoint moves_succeed `{PyEnv} (ops : list queue_op) (q : TurnInputQueue) : bool :=
  match ops with
  | [] => true
  | op :: ops' => negb (failed_move op q) && moves_succeed ops' (run_queue op q).1
  end.

Lemma registered_run `{PyEnv} ops q k id :
  moves_succeed ops q = true → registered k id q → registered k id (run_queue_ops ops q).
Proof.
  revert q. induction ops as [|op ops IH]; intros q Hm Hr; [done|]. simpl in *. bsplit.
  apply IH; [done|]. by apply registered_step.
Qed.

(** Enqueueing is idempotent.  Once a request with an idempotency key was
    accepted, then after any further operations among which no [move] fails,
    every accepted request of the same session, agent and key (whatever its
    text and intent) returns the entry of the first one, in its current
    state, and leaves the queue exactly as it is. *)
Theorem enqueue_idempotent `{PyEnv} a a' k ops q q1 e :
  (∀ i, py_uuid4 i ≠ "") →
  enqueue a q = (q1, Ok e) → args_key a = Some k → args_key a' = Some k →
  moves_succeed ops q1 = true →
  let q2 := run_queue_ops ops q1 in
  (∃ x, enqueue a' q2 = (q2, Raise x)) ∨
  (∃ e', enqueue a' q2 = (q2, Ok e') ∧ queue_id e' = queue_id e).
Proof.
  intros Hid Henq Hka Hka' Hm q2.
  assert (registered k (queue_id e) q1) as Hreg by (by eapply enqueue_registers).
  apply (registered_run ops) in Hreg; [|done]. fold q2 in Hreg.
  destruct (registered_found k _ q2 Hreg) as (e' & Hf & Hide).
  destruct (enqueue_cases a' q2) as [[x E]|(tx & it & tg & st & md & _ & E)]; [left; eauto|right].
  exists e'. rewrite E, Hka', Hf. done.
Qed.

Definition demo_first : TurnInputQueue :=
  (enqueue (demo_args "s1" "first" (Some "k1")) (new_queue 20)).1.

Lemma enqueue_idempotent_witness :
  let q2 := run_queue_ops [QReserveNext "s1" "agent" None] demo_first in
  (∃ x, enqueue (demo_args " s1 " "again" (Some "k1")) q2 = (q2, Raise x)) ∨
  (∃ e', enqueue (demo_args " s1 " "again" (Some "k1")) q2 = (q2, Ok e') ∧
         queue_id e' = queue_id (demo_entry 0 demo_first)).
Proof.
  apply (enqueue_idempotent (demo_args "s1" "first" (Some "k1"))
    (demo_args " s1 " "again" (Some "k1")) ("s1", "agent", "k1")
    [QReserveNext "s1" "agent" None] (new_queue 20) demo_first (demo_entry 0 demo_first));
    [intros i; discriminate|vm_compute; reflexivity|reflexivity|reflexivity
    |vm_compute; reflexivity].
Defined.

(** ** Moves *)

Lemma resolve_move_index_spec sid before after q j :
  _resolve_move_index_locked sid before after q = (q, Ok j) →
  (otruthy before = false ∧ otruthy after = false ∧ j = length (entries q)) ∨
  (∃ i t, entries q !! i = Some t ∧ e_session_id t = sid ∧
     if otruthy before then before = Some (queue_id t) ∧ j = i
     else after = Some (queue_id t) ∧ j = S i).
Proof.
  unfold _resolve_move_index_locked, qerror. munfold.
  destruct (otruthy before) eqn:Eb, (otruthy after) eqn:Ea; cbn [negb andb].
  4:{ intros [= <-]. by left. }
  all: destruct (find_index _ (entries q)) as [[i t]|] eqn:Ei; [|done]; intros [= <-]; right;
    exists i, t; apply find_index_spec in Ei as (Hi & Hp & _); bsplit; (split; [done|]);
    (split; [done|]); (split; [|done]).
  all: destruct before as [b|]; simpl in *; try done; try rewrite Eb in *.
  all: try (destruct after as [a|]; simpl in *; try done; rewrite Ea in *).
  all: congruence.
Qed.

Lemma lookup_insert_at {A} (l : list A) j x :
  j ≤ length l →
  list_insert_at j x l !! j = Some x ∧
  (∀ i, i < j → list_insert_at j x l !! i = l !! i) ∧
  (∀ i, j ≤ i → list_insert_at j x l !! S i = l !! i).
Proof.
  intros Hj. unfold list_insert_at.
  assert (length (take j l) = j) as Hlen by (rewrite length_take; lia).
  split_and!.
  - rewrite lookup_app_r by lia. by rewrite Hlen, Nat.sub_diag.
  - intros i Hi. rewrite lookup_app_l by lia. by apply lookup_take_lt.
  - intros i Hi. rewrite lookup_app_r, Hlen by lia. rewrite Nat.sub_succ_l by lia. simpl.
    rewrite lookup_drop. f_equal. lia.
Qed.

(** A successful [move] takes exactly one queued entry of the session (at
    the version the caller saw), gives it the next version, keeps all other
    entries in their order, and places it at the end of the queue, or
    directly before or directly after the entry the caller named. *)
Theorem move_places_entry sid id version before after q q' u :
  move_entry sid id version before after q = (q', Ok u) →
  ∃ i e j, entries q !! i = Some e ∧ queue_id e = py_strip id ∧ e_session_id e = py_strip sid ∧
    e_status e = QUEUED ∧ u = entry_bump QUEUED e ∧
    (∀ v, version = Some v → v = e_status_version e) ∧
    entries q' = list_insert_at j u (list_pop i (entries q)) ∧
    let rest := list_pop i (entries q) in
    ((otruthy before = false ∧ otruthy after = false ∧ j = length rest) ∨
     (∃ k t, rest !! k = Some t ∧ e_session_id t = sid ∧
        if otruthy before
        then before = Some (queue_id t) ∧ entries q' !! S j = Some t ∧ j = k
        else after = Some (queue_id t) ∧ entries q' !! k = Some t ∧ j = S k)).
Proof.
  unfold move_entry. destruct (otruthy before && otruthy after); [done|]. intros H.
  msplit H as q1 found E1. destruct found as [i e].
  unfold _find_for_session_locked, _require_non_empty, qerror in E1. munfold.
  destruct (negb (truthy (py_strip sid))); [done|]. destruct (negb (truthy (py_strip id))); [done|].
  destruct (find_index _ (entries q)) as [[i0 e0]|] eqn:Ei; [|done]. simplify_eq.
  apply find_index_spec in Ei as (Hi & Hp & _). bsplit.
  destruct (assert_version_cases e version q1) as [Ev|(x & Ev)]; rewrite Ev in H; [|done].
  destruct (status_eqb (e_status e) QUEUED) eqn:Es; cbn [negb] in H; [|done].
  apply status_eqb_eq in Es. set (q2 := set_entries (list_pop i (entries q1)) q1) in *.
  pose proof (resolve_move_entries sid before after q2) as Hr.
  destruct (_resolve_move_index_locked sid before after q2) as [q3 [j|x]] eqn:Er; [|done].
  simpl in Hr. subst q3. apply resolve_move_index_spec in Er. rewrite Es in H.
  unfold _emit in H. munfold. simplify_eq. exists i, e, j.
  split_and!; try done.
  - intros v ->. unfold _assert_status_version, qerror in Ev. munfold.
    destruct (Z.eqb_spec v (e_status_version e)); [done|discriminate].
  - change (entries q2) with (list_pop i (entries q1)) in Er. cbn [entries add_event set_entries].
    destruct Er as [?|(k & t & Hk & Hs & Hcase)]; [by left|right].
    exists k, t. split; [done|]. split; [done|].
    pose proof (lookup_lt_Some _ _ _ Hk) as Hlt.
    destruct (otruthy before); destruct Hcase as [-> ->].
    + destruct (lookup_insert_at (list_pop i (entries q1)) k (entry_bump QUEUED e)) as (_ & _ & Ha);
        [lia|]. split_and!; [done|by rewrite Ha|done].
    + destruct (lookup_insert_at (list_pop i (entries q1)) (S k) (entry_bump QUEUED e))
        as (_ & Hb & _); [lia|]. split_and!; [done|by rewrite Hb by lia|done].
Qed.

Lemma move_places_entry_witness :
  ∃ i e, entries demo_queue !! i = Some e ∧ queue_id e = "id-1" ∧ e_status e = QUEUED.
Proof.
  edestruct (move_places_entry "s1" "id-1" None (Some "id-0") None demo_queue)
    as (i & e & j & Hi & Hid & _ & Hs & _); [vm_compute; reflexivity|].
  exists i, e. exact (conj Hi (conj Hid Hs)).
Defined.

(** A failed [move] deletes the entry.  The entry is taken out of the queue
    before the target is resolved, so when the target is not found (the entry
    itself, or an unknown id) the call raises and the entry is gone, although
    the caller was told that nothing was moved. *)
Theorem failed_move_loses_entry :
  let r := run_queue (QMove "s1" "id-0" None (Some "id-0") None) demo_queue in
  let r' := run_queue (QMove "s1" "id-0" None None (Some "missing")) demo_queue in
  map queue_id (entries demo_queue) = ["id-0"; "id-1"] ∧
  is_raise r.2 = true ∧ map queue_id (entries r.1) = ["id-1"] ∧
  is_raise r'.2 = true ∧ map queue_id (entries r'.1) = ["id-1"].
Proof. vm_compute. done. Qed.

(** ** Redaction *)

Lemma drop_while_end_length p s : String.length (drop_while_end p s) ≤ String.length s.
Proof.
  induction s as [|c s IH]; simpl; [done|].
  destruct (drop_while_end p s) as [|c' s']; simpl in *; [|lia]. destruct (p c); simpl; lia.
Qed.

Lemma substring_length n s : String.length (String.substring 0 n s) ≤ n.
Proof. revert s. induction n as [|n IH]; intros [|c s]; simpl; try lia. specialize (IH s). lia. Qed.

(** Events do not carry the user's text.  The payload of every event has no
    [text] item, and its preview is at most 80 characters long. *)
Theorem event_payload_redacted e :
  dmem (event_payload e) "text" = false ∧
  dget (event_payload e) "text_preview" = Some (PStr (redact_text_preview (e_text e) 80)) ∧
  String.length (redact_text_preview (e_text e) 80) ≤ 80.
Proof.
  split_and!; [reflexivity|reflexivity|]. unfold redact_text_preview.
  set (norm := py_join " " (py_split (e_text e))).
  destruct (Z.leb_spec (Z.of_nat (String.length norm)) 80); [lia|].
  rewrite str_length_app. unfold ELLIPSIS. cbn [String.length].
  pose proof (drop_while_end_length latin1_is_space (String.substring 0 79 norm)).
  pose proof (substring_length 79 norm). change (Z.to_nat (Z.max 0 (80 - 1))) with 79. lia.
Qed.
