(* ===== verification/A2AModels.v ===== *)
(** The agent-to-agent module's data ([modules/a2a/models.py], [constants.py],
    [errors.py]), its policy engine ([policy.py]) and the redaction of audit
    records ([storage/base.py]). *)

From S2P Require Import Prelude PyValue Timestamps.
From Stdlib Require Import Ascii.

(** ** Constants *)

Definition A2A_POLICY_ACTION_ALLOW := "allow".
Definition A2A_POLICY_ACTION_DENY := "deny".
Definition A2A_IDEMPOTENCY_STATUS_IN_PROGRESS := "IN_PROGRESS".
Definition A2A_IDEMPOTENCY_STATUS_SUCCESS := "SUCCESS".
Definition A2A_IDEMPOTENCY_STATUS_FAILED := "FAILED".
Definition A2A_IDEMPOTENCY_STATUS_CANCELED := "CANCELED".
Definition A2A_JOB_STATE_PENDING := "PENDING".
Definition A2A_JOB_STATE_RUNNING := "RUNNING".
Definition A2A_JOB_STATE_SUCCESS := "SUCCESS".
Definition A2A_JOB_STATE_FAILED := "FAILED".
Definition A2A_JOB_STATE_CANCELED := "CANCELED".
Definition A2A_TERMINAL_JOB_STATES : list string :=
  [A2A_JOB_STATE_SUCCESS; A2A_JOB_STATE_FAILED; A2A_JOB_STATE_CANCELED].
Definition A2A_ACTIVE_JOB_STATES : list string := [A2A_JOB_STATE_PENDING; A2A_JOB_STATE_RUNNING].
Definition A2A_IDEMPOTENCY_TERMINAL_STATUSES : list string :=
  [A2A_IDEMPOTENCY_STATUS_SUCCESS; A2A_IDEMPOTENCY_STATUS_FAILED;
   A2A_IDEMPOTENCY_STATUS_CANCELED].
Definition A2A_AUDIT_STATUS_CALL_RECEIVED := "CALL_RECEIVED".
Definition A2A_AUDIT_STATUS_JOB_QUEUED := "JOB_QUEUED".
Definition A2A_AUDIT_STATUS_RUNNING := "RUNNING".
Definition A2A_AUDIT_STATUS_SUCCESS := "SUCCESS".
Definition A2A_AUDIT_STATUS_FAILED := "FAILED".
Definition A2A_AUDIT_STATUS_CANCELED := "CANCELED".
Definition A2A_AUDIT_STATUS_RECOVERY_FAILED := "RECOVERY_FAILED".
Definition A2A_AGENT_STATUS_ONLINE := "online".
Definition A2A_OBSERVABILITY_SCHEMA_VERSION := "openminion.a2a_observability.v1".

Definition MESSAGE_TYPE_CALL := "call".
Definition MESSAGE_TYPE_RESULT := "result".
Definition MESSAGE_TYPE_JOB_START := "job.start".
Definition MESSAGE_TYPES : list string :=
  [MESSAGE_TYPE_CALL; MESSAGE_TYPE_RESULT; MESSAGE_TYPE_JOB_START; "job.status"; "job.cancel";
   "event.publish"].
Definition IDEMPOTENCY_REQUIRED_TYPES : list string := [MESSAGE_TYPE_CALL; MESSAGE_TYPE_JOB_START].

(** ** Errors *)

Definition ERROR_CODES : list string :=
  ["INVALID_ARGUMENT"; "INVALID_CONFIG"; "POLICY_DENIED"; "ALREADY_COMPLETED"; "IN_PROGRESS";
   "OUTCOME_UNKNOWN"; "JOB_NOT_FOUND"; "NO_HANDLER"; "AGENT_NOT_FOUND"; "ROUTE_NOT_FOUND";
   "HANDLER_ERROR"; "JOB_FAILED"; "CANCELED"; "STALE_JOB"; "FAILED"; "INTERNAL_ERROR"].

Definition normalize_error_code (raw_code : option string) : string :=
  let code := py_upper (py_strip (default "" raw_code)) in
  if str_in code ERROR_CODES then code else "INTERNAL_ERROR".

Inductive a2a_exn : Type :=
| A2AError (code message : string) (details : dict)
| EnvelopeValidationError (message : string)
| A2AKeyError (key : string).

(** The constructor with [__post_init__]. *)
Definition mk_A2AError (code message : string) (details : dict) : a2a_exn :=
  A2AError (normalize_error_code (Some code)) message details.

(** [A2AError.to_dict] *)
Definition error_to_dict (code message : string) (details : dict) : dict :=
  [("code", PStr code); ("message", PStr message)]
  ++ match details with [] => [] | _ => [("details", PDict details)] end.

(** ** Observability *)

Record A2AObservabilityContext := {
  o_invocation_id : string;
  o_execution_id : string;
  o_handoff_id : string;
  o_traceparent : string;
  o_tracestate : option string;
  o_schema_version : string;
}.

Definition is_lower_hex (c : ascii) : bool :=
  let n := N_of_ascii c in ((48 <=? n) && (n <=? 57) || (97 <=? n) && (n <=? 102))%N.

Fixpoint str_forallb (p : ascii → bool) (s : string) : bool :=
  match s with EmptyString => true | String c s' => p c && str_forallb p s' end.

Definition hex_field (s : string) (from len : nat) : bool :=
  str_forallb is_lower_hex (String.substring from len s).

(** [00-([0-9a-f]{32})-([0-9a-f]{16})-([0-9a-f]{2})] on the whole text, with
    neither identifier all zeros. *)
Definition is_valid_traceparent (value : string) : bool :=
  Nat.eqb (String.length value) 55
  && String.eqb (String.substring 0 3 value) "00-"
  && hex_field value 3 32 && String.eqb (String.substring 35 1 value) "-"
  && hex_field value 36 16 && String.eqb (String.substring 52 1 value) "-"
  && hex_field value 53 2
  && negb (String.eqb (String.substring 3 32 value) "00000000000000000000000000000000")
  && negb (String.eqb (String.substring 36 16 value) "0000000000000000").

(** Whether [uuid.UUID(value)] accepts the text. *)
Class UuidSyntax := { py_uuid_accepts : string → bool }.

Definition observability_validate `{UuidSyntax} (o : A2AObservabilityContext) : result a2a_exn () :=
  let uuid_field (name value : string) : result a2a_exn () :=
    if py_uuid_accepts (py_strip value) then Ok ()
    else Raise (EnvelopeValidationError ("A2A observability " +:+ name +:+ " must be a UUID")) in
  if negb (String.eqb (o_schema_version o) A2A_OBSERVABILITY_SCHEMA_VERSION) then
    Raise (EnvelopeValidationError
             ("Unsupported A2A observability schema: " +:+ py_repr (PStr (o_schema_version o))))
  else
    _ ← uuid_field "invocation_id" (o_invocation_id o);
    _ ← uuid_field "execution_id" (o_execution_id o);
    _ ← uuid_field "handoff_id" (o_handoff_id o);
    if is_valid_traceparent (o_traceparent o) then Ok ()
    else Raise (EnvelopeValidationError
                  "A2A observability traceparent must be a valid W3C traceparent").

Definition observability_to_dict (o : A2AObservabilityContext) : dict :=
  [("schema_version", PStr (o_schema_version o)); ("invocation_id", PStr (o_invocation_id o));
   ("execution_id", PStr (o_execution_id o)); ("handoff_id", PStr (o_handoff_id o));
   ("traceparent", PStr (o_traceparent o))]
  ++ match o_tracestate o with Some t => [("tracestate", PStr t)] | None => [] end.

(** [_optional_string(raw, key)] and [str(raw.get(key, ""))] *)
Definition _optional_string (raw : dict) (key : string) : option string :=
  match dget_none raw key with PNone => None | v => Some (py_str v) end.
Definition raw_str (raw : dict) (key : string) : string :=
  match dget raw key with Some v => py_str v | None => "" end.

Definition observability_from_dict (raw : dict) : A2AObservabilityContext :=
  {| o_schema_version := raw_str raw "schema_version"; o_invocation_id := raw_str raw "invocation_id";
     o_execution_id := raw_str raw "execution_id"; o_handoff_id := raw_str raw "handoff_id";
     o_traceparent := raw_str raw "traceparent"; o_tracestate := _optional_string raw "tracestate" |}.

(** ** Records *)

Record ArtifactRef := {
  ar_ref : string;
  ar_mime : string;
  ar_sha256 : string;
  ar_size_bytes : Z;
  ar_label : option string;
}.
Definition artifact_to_dict (a : ArtifactRef) : dict :=
  [("ref", PStr (ar_ref a)); ("mime", PStr (ar_mime a)); ("sha256", PStr (ar_sha256 a));
   ("size_bytes", PInt (ar_size_bytes a))]
  ++ match ar_label a with Some l => [("label", PStr l)] | None => [] end.

Record Envelope := {
  en_msg_id : string;
  en_trace_id : string;
  en_ts : string;
  en_from_agent : string;
  en_to_agent : option string;
  en_to_capability : option string;
  en_type : string;
  en_method : string;
  en_params : dict;
  en_attachments : list ArtifactRef;
  en_timeout_ms : Z;
  en_idempotency_key : string;
  en_meta : dict;
  en_observability : option A2AObservabilityContext;
}.

Definition envelope_to_dict (e : Envelope) : dict :=
  [("msg_id", PStr (en_msg_id e)); ("trace_id", PStr (en_trace_id e)); ("ts", PStr (en_ts e));
   ("from_agent", PStr (en_from_agent e)); ("to_agent", ostr_val (en_to_agent e));
   ("to_capability", ostr_val (en_to_capability e)); ("type", PStr (en_type e));
   ("method", PStr (en_method e)); ("params", PDict (en_params e));
   ("attachments", PList (map (λ a, PDict (artifact_to_dict a)) (en_attachments e)));
   ("timeout_ms", PInt (en_timeout_ms e)); ("idempotency_key", PStr (en_idempotency_key e));
   ("meta", PDict (en_meta e))]
  ++ match en_observability e with
     | Some o => [("observability", PDict (observability_to_dict o))]
     | None => []
     end.

Definition requires_idempotency (e : Envelope) : bool :=
  str_in (en_type e) IDEMPOTENCY_REQUIRED_TYPES.

Definition validate_envelope_contract `{UuidSyntax} (e : Envelope) : result a2a_exn () :=
  if negb (truthy (py_strip (en_method e))) then
    Raise (EnvelopeValidationError "Envelope method is required")
  else if negb (truthy (py_strip (en_from_agent e))) then
    Raise (EnvelopeValidationError "Envelope from_agent is required")
  else if negb (otruthy (en_to_agent e)) && negb (otruthy (en_to_capability e)) then
    Raise (EnvelopeValidationError "Either to_agent or to_capability is required")
  else if negb (str_in (en_type e) MESSAGE_TYPES) then
    Raise (EnvelopeValidationError ("Envelope type '" +:+ en_type e +:+ "' is invalid"))
  else if requires_idempotency e && negb (truthy (py_strip (en_idempotency_key e))) then
    Raise (EnvelopeValidationError "idempotency_key is required for call and job.start")
  else match en_observability e with
       | Some o => observability_validate o
       | None => Ok ()
       end.

Record IdempotencyRecord := {
  i_key : string;
  i_scope : string;
  i_status : string;
  i_result_inline : option dict;
  i_result_ref : option string;
  i_error : option dict;
  i_task_id : option string;
  i_created_at : string;
  i_updated_at : string;
}.

Record JobRecord := {
  j_task_id : string;
  j_trace_id : string;
  j_idempotency_key : string;
  j_agent_id : string;
  j_method : string;
  j_state : string;
  j_current_step : string;
  j_progress : pyval;
  j_result_inline : option dict;
  j_result_ref : option string;
  j_error : option dict;
  j_owner_agent_id : string;
  j_idempotency_scope : string;
  j_created_at : string;
  j_updated_at : string;
  j_heartbeat_at : string;
}.
Definition job_is_terminal (j : JobRecord) : bool := str_in (j_state j) A2A_TERMINAL_JOB_STATES.

Definition odict (o : option dict) : pyval := match o with Some d => PDict d | None => PNone end.
Definition job_to_dict (j : JobRecord) : dict :=
  [("task_id", PStr (j_task_id j)); ("trace_id", PStr (j_trace_id j));
   ("idempotency_key", PStr (j_idempotency_key j)); ("agent_id", PStr (j_agent_id j));
   ("method", PStr (j_method j)); ("state", PStr (j_state j));
   ("current_step", PStr (j_current_step j)); ("progress", j_progress j);
   ("result_inline", odict (j_result_inline j)); ("result_ref", ostr_val (j_result_ref j));
   ("error", odict (j_error j)); ("owner_agent_id", PStr (j_owner_agent_id j));
   ("idempotency_scope", PStr (j_idempotency_scope j)); ("created_at", PStr (j_created_at j));
   ("updated_at", PStr (j_updated_at j)); ("heartbeat_at", PStr (j_heartbeat_at j))].

Record AgentDescriptor := {
  ad_agent_id : string;
  ad_capabilities : list string;
  ad_endpoint : string;
  ad_tags : list string;
  ad_status : string;
}.
Definition supports_method (d : AgentDescriptor) (method : string) : bool :=
  existsb (py_startswith method) (ad_capabilities d).

Record AuditRecord := {
  au_ts : string;
  au_msg_id : string;
  au_trace_id : string;
  au_from_agent : string;
  au_to_agent : option string;
  au_to_capability : option string;
  au_type : string;
  au_method : string;
  au_status : string;
  au_task_id : option string;
  au_error_code : option string;
  au_error_message : option string;
  au_envelope : option dict;
  au_data : option dict;
}.

(** ** Audit redaction *)

Definition _structural_observability `{UuidSyntax} (envelope : option dict) : option dict :=
  match envelope with
  | None => None
  | Some env =>
      match dget_none env "observability" with
      | PDict raw =>
          let context := observability_from_dict raw in
          match observability_validate context with
          | Raise _ => None
          | Ok _ => Some [("observability", PDict (dpop (observability_to_dict context) "tracestate"))]
          end
      | _ => None
      end
  end.

Definition audit_record_for_storage `{UuidSyntax} (capture_payloads : bool) (r : AuditRecord)
    : AuditRecord :=
  if capture_payloads then r
  else {| au_ts := au_ts r; au_msg_id := au_msg_id r; au_trace_id := au_trace_id r;
          au_from_agent := au_from_agent r; au_to_agent := au_to_agent r;
          au_to_capability := au_to_capability r; au_type := au_type r; au_method := au_method r;
          au_status := au_status r; au_task_id := au_task_id r;
          au_error_code := au_error_code r; au_error_message := None;
          au_envelope := _structural_observability (au_envelope r); au_data := None |}.

(** ** Policy *)

Record A2APolicyRule := {
  pr_action : string;
  pr_from_agent : option string;
  pr_to_agent : option string;
  pr_to_capability : option string;
  pr_method_prefix : option string;
  pr_message_type : option string;
}.

(** [not field or field == value] *)
Definition unset_or (field : option string) (test : string → bool) : bool :=
  negb (otruthy field) || test (default "" field).

Definition rule_matches_envelope (r : A2APolicyRule) (e : Envelope) (resolved_agent : string) : bool :=
  unset_or (pr_from_agent r) (String.eqb (en_from_agent e))
  && unset_or (pr_to_agent r) (String.eqb resolved_agent)
  && unset_or (pr_to_capability r) (String.eqb (str_or (en_to_capability e) ""))
  && unset_or (pr_method_prefix r) (py_startswith (en_method e))
  && unset_or (pr_message_type r) (String.eqb (en_type e)).

Record PolicyEngine := { pe_default_action : string; pe_rules : list A2APolicyRule }.

Definition new_PolicyEngine (default_action : string) (rules : list A2APolicyRule) : PolicyEngine :=
  {| pe_default_action := if String.eqb (py_lower default_action) A2A_POLICY_ACTION_DENY
                          then A2A_POLICY_ACTION_DENY else A2A_POLICY_ACTION_ALLOW;
     pe_rules := rules |}.

Definition _norm (v : pyval) : option string :=
  match v with
  | PNone => None
  | _ => let s := py_strip (py_str v) in if truthy s then Some s else None
  end.
Definition _normalized_action (v : pyval) : string :=
  let action := py_lower (py_str v) in
  if str_in action [A2A_POLICY_ACTION_ALLOW; A2A_POLICY_ACTION_DENY] then action
  else A2A_POLICY_ACTION_DENY.

Definition rule_from_config (raw : dict) : A2APolicyRule :=
  {| pr_action := _normalized_action (default (PStr A2A_POLICY_ACTION_DENY) (dget raw "action"));
     pr_from_agent := _norm (dget_none raw "from_agent");
     pr_to_agent := _norm (dget_none raw "to_agent");
     pr_to_capability := _norm (dget_none raw "to_capability");
     pr_method_prefix := _norm (dget_none raw "method_prefix");
     pr_message_type := _norm (dget_none raw "message_type") |}.
Definition policy_from_config (default_action : string) (raw_rules : list pyval) : PolicyEngine :=
  new_PolicyEngine default_action
    (concat (map (λ v, match v with PDict d => [rule_from_config d] | _ => [] end) raw_rules)).

Definition is_allowed (p : PolicyEngine) (e : Envelope) (resolved_agent : string) : bool :=
  String.eqb
    (fold_left (λ decision r, if rule_matches_envelope r e resolved_agent then pr_action r
                              else decision) (pe_rules p) (pe_default_action p))
    A2A_POLICY_ACTION_ALLOW.
