(* ===== verification/A2ARuntime.v ===== *)
(** The agent-to-agent runtime ([modules/a2a/runtime.py]) over the in-memory
    state store ([storage/memory.py]) and the agent registry ([registry.py]).
    Each store operation and each region under the runtime's lock is one atomic
    step; handlers run outside the lock.  A call or a job in flight is a thread
    with a program point, and the machine interleaves the threads with new
    requests, status queries, cancellations and recovery.  This store always
    returns a record from [reserve_idempotency] and never raises a write error,
    so the branches of the runtime for those cases do not occur; an error of
    the audit store is swallowed by the runtime. *)

From S2P Require Import Prelude PyValue Timestamps A2AModels.
From Stdlib Require Import Ascii.

(** ** Insertion-ordered dictionaries with string keys *)

Fixpoint aget {A} (k : string) (l : list (string * A)) : option A :=
  match l with
  | [] => None
  | (k', v) :: l' => if String.eqb k k' then Some v else aget k l'
  end.
Fixpoint aset {A} (k : string) (v : A) (l : list (string * A)) : list (string * A) :=
  match l with
  | [] => [(k, v)]
  | (k', v') :: l' => if String.eqb k k' then (k', v) :: l' else (k', v') :: aset k v l'
  end.

(** ** State *)

(** The stores, the registry's handler tables, the runtime's [_futures] and
    [_cancel_events] tables, the state of every cancellation event (an event
    outlives its entry in the table), the records handed to the audit store,
    the clock readings and identifiers drawn. *)
Record A2A := {
  idem : gmap (string * string) IdempotencyRecord;
  jobs : list (string * JobRecord);
  agents : list (string * AgentDescriptor);
  handlers : gset string;
  job_handlers : gset string;
  futures : gset string;
  cancel_events : gset string;
  event_set : gset string;
  audits : list AuditRecord;
  a_ticks : nat;
  a_drawn : nat;
}.
Abbreviation AM A := (M A2A a2a_exn A).

Definition set_idem (f : gmap (string * string) IdempotencyRecord → gmap (string * string) IdempotencyRecord)
    (w : A2A) : A2A :=
  {| idem := f (idem w); jobs := jobs w; agents := agents w; handlers := handlers w;
     job_handlers := job_handlers w; futures := futures w; cancel_events := cancel_events w;
     event_set := event_set w; audits := audits w; a_ticks := a_ticks w; a_drawn := a_drawn w |}.
Definition set_jobs (f : list (string * JobRecord) → list (string * JobRecord)) (w : A2A) : A2A :=
  {| idem := idem w; jobs := f (jobs w); agents := agents w; handlers := handlers w;
     job_handlers := job_handlers w; futures := futures w; cancel_events := cancel_events w;
     event_set := event_set w; audits := audits w; a_ticks := a_ticks w; a_drawn := a_drawn w |}.
Definition set_registry (ag : list (string * AgentDescriptor)) (h jh : gset string) (w : A2A) : A2A :=
  {| idem := idem w; jobs := jobs w; agents := ag; handlers := h;
     job_handlers := jh; futures := futures w; cancel_events := cancel_events w;
     event_set := event_set w; audits := audits w; a_ticks := a_ticks w; a_drawn := a_drawn w |}.
Definition set_live (fu ce es : gset string) (w : A2A) : A2A :=
  {| idem := idem w; jobs := jobs w; agents := agents w; handlers := handlers w;
     job_handlers := job_handlers w; futures := fu; cancel_events := ce;
     event_set := es; audits := audits w; a_ticks := a_ticks w; a_drawn := a_drawn w |}.
Definition add_audit (r : AuditRecord) (w : A2A) : A2A :=
  {| idem := idem w; jobs := jobs w; agents := agents w; handlers := handlers w;
     job_handlers := job_handlers w; futures := futures w; cancel_events := cancel_events w;
     event_set := event_set w; audits := audits w ++ [r]; a_ticks := a_ticks w;
     a_drawn := a_drawn w |}.
Definition set_counters (t d : nat) (w : A2A) : A2A :=
  {| idem := idem w; jobs := jobs w; agents := agents w; handlers := handlers w;
     job_handlers := job_handlers w; futures := futures w; cancel_events := cancel_events w;
     event_set := event_set w; audits := audits w; a_ticks := t; a_drawn := d |}.

(** The runtime's settings and collaborators.  [put_bytes] is the artifact
    store, when there is one: the reference of the stored bytes, or the error
    of the write. *)
Record A2AConfig := {
  policy : PolicyEngine;
  max_inline_bytes : Z;
  recovery_stale_heartbeat_sec : Z;
  put_bytes : option (string → string → result string string);
}.

(** What a handler does: it returns a result, raises an [A2AError], or raises
    another exception with the given text. *)
Inductive handler_outcome : Type :=
| HReturn (result : dict)
| HA2AError (code message : string) (details : dict)
| HException (text : string).

(** [_job_patch]: the fields a patch replaces. *)
Record JobPatch := {
  jp_state : string;
  jp_current_step : string;
  jp_progress : option pyval;
  jp_result_inline : option (option dict);
  jp_result_ref : option (option string);
  jp_error : option (option dict);
  jp_stamp : string;
}.

Definition apply_patch (p : JobPatch) (j : JobRecord) : JobRecord :=
  {| j_task_id := j_task_id j; j_trace_id := j_trace_id j;
     j_idempotency_key := j_idempotency_key j; j_agent_id := j_agent_id j;
     j_method := j_method j; j_state := jp_state p; j_current_step := jp_current_step p;
     j_progress := default (j_progress j) (jp_progress p);
     j_result_inline := default (j_result_inline j) (jp_result_inline p);
     j_result_ref := default (j_result_ref j) (jp_result_ref p);
     j_error := default (j_error j) (jp_error p); j_owner_agent_id := j_owner_agent_id j;
     j_idempotency_scope := j_idempotency_scope j; j_created_at := j_created_at j;
     j_updated_at := jp_stamp p; j_heartbeat_at := jp_stamp p |}.

Definition simple_patch (state step : string) (error : dict) (stamp : string) : JobPatch :=
  {| jp_state := state; jp_current_step := step; jp_progress := None; jp_result_inline := None;
     jp_result_ref := None; jp_error := Some (Some error); jp_stamp := stamp |}.

Section Runtime.
Context {Env : PyEnv} {Uuid : UuidSyntax}.
Variable cfg : A2AConfig.

Definition a_now : AM Z := λ w, (set_counters (S (a_ticks w)) (a_drawn w) w, Ok (py_clock (a_ticks w))).
Definition iso_now : AM string := t ← a_now; mret (isoformat t).
Definition new_uuid : AM string := λ w,
  (set_counters (a_ticks w) (S (a_drawn w)) w, Ok (py_uuid4 (a_drawn w))).

(** ** [MemoryStateStore] *)

Definition reserve_idempotency (key scope : string) : AM (bool * IdempotencyRecord) :=
  row ← gets (λ w, idem w !! (scope, key));
  match row with
  | Some r => mret (false, r)
  | None =>
      now ← iso_now;
      let rec := {| i_key := key; i_scope := scope; i_status := A2A_IDEMPOTENCY_STATUS_IN_PROGRESS;
                    i_result_inline := None; i_result_ref := None; i_error := None;
                    i_task_id := None; i_created_at := now; i_updated_at := now |} in
      _ ← modify (set_idem (λ m, <[(scope, key) := rec]> m));
      mret (true, rec)
  end.

Definition finish_idempotency (reservation : IdempotencyRecord) (status : string)
    (result_inline : option dict) (result_ref : option string) (error : option dict) : AM bool :=
  let k := (i_scope reservation, i_key reservation) in
  row ← gets (λ w, idem w !! k);
  match row with
  | None => mret false
  | Some r =>
      if negb (String.eqb (i_status r) A2A_IDEMPOTENCY_STATUS_IN_PROGRESS)
         || negb (String.eqb (i_created_at r) (i_created_at reservation))
      then mret false
      else
        now ← iso_now;
        _ ← modify (set_idem (λ m, <[k :=
          {| i_key := i_key r; i_scope := i_scope r; i_status := status;
             i_result_inline := result_inline; i_result_ref := result_ref; i_error := error;
             i_task_id := i_task_id r; i_created_at := i_created_at r; i_updated_at := now |}]> m));
        mret true
  end.

Definition set_idempotency_result (key scope status : string) (result_inline : option dict)
    (result_ref : option string) (error : option dict) (task_id : option string)
    : AM IdempotencyRecord :=
  now ← iso_now;
  existing ← gets (λ w, idem w !! (scope, key));
  created ← match existing with
            | Some r => mret (i_created_at r)
            | None => c ← iso_now; _ ← iso_now; mret c
            end;
  let rec := {| i_key := key; i_scope := scope; i_status := status;
                i_result_inline := result_inline; i_result_ref := result_ref; i_error := error;
                i_task_id := task_id;
                i_created_at := if truthy created then created else now;
                i_updated_at := now |} in
  _ ← modify (set_idem (λ m, <[(scope, key) := rec]> m));
  mret rec.

Definition create_job (j : JobRecord) : AM string :=
  _ ← modify (set_jobs (aset (j_task_id j) j));
  mret (j_task_id j).

(** The default of [setdefault("updated_at", iso_now())] is read and unused:
    every patch has both stamps. *)
Definition update_job (task_id : string) (p : JobPatch) : AM JobRecord :=
  current ← gets (λ w, aget task_id (jobs w));
  match current with
  | None => raise (A2AKeyError task_id)
  | Some j =>
      let next := apply_patch p j in
      _ ← iso_now;
      _ ← modify (set_jobs (aset task_id next));
      mret next
  end.

Definition get_job (task_id : string) : AM (option JobRecord) := gets (λ w, aget task_id (jobs w)).

(** [list_jobs({"states": states, "limit": limit})] *)
Definition list_jobs_in (states : list string) (limit : Z) : AM (list JobRecord) :=
  gets (λ w, take (Z.to_nat (Z.max 1 (Z.min limit 5000)))
               (List.filter (λ j, str_in (j_state j) states) (map snd (jobs w)))).

(** ** Registry *)

Definition register_agent (agent_id : string) (capabilities tags : list string)
    (has_job_handler : bool) : AM () :=
  let descriptor := {| ad_agent_id := agent_id; ad_capabilities := capabilities;
                       ad_endpoint := "inproc://" +:+ agent_id; ad_tags := tags;
                       ad_status := A2A_AGENT_STATUS_ONLINE |} in
  modify (λ w, set_registry (aset agent_id descriptor (agents w)) ({[agent_id]} ∪ handlers w)
    (if has_job_handler then {[agent_id]} ∪ job_handlers w else job_handlers w ∖ {[agent_id]}) w).

Definition _resolve_target_agent (w : A2A) (target : string) : result a2a_exn AgentDescriptor :=
  match List.find (λ d, String.eqb (ad_agent_id d) target) (map snd (agents w)) with
  | None => Raise (mk_A2AError "AGENT_NOT_FOUND" ("Target agent '" +:+ target +:+ "' not found") [])
  | Some d =>
      if bool_decide (target ∈ handlers w) then Ok d
      else Raise (mk_A2AError "NO_HANDLER"
                    ("No local handler for target agent '" +:+ target +:+ "'") [])
  end.

Definition resolve (w : A2A) (e : Envelope) : result a2a_exn AgentDescriptor :=
  if otruthy (en_to_agent e) then _resolve_target_agent w (default "" (en_to_agent e))
  else
    match List.find (λ d, supports_method d (en_method e) && bool_decide (ad_agent_id d ∈ handlers w))
            (map snd (agents w)) with
    | Some d => Ok d
    | None => Raise (mk_A2AError "ROUTE_NOT_FOUND"
                ("No route found for method '" +:+ en_method e +:+ "'")
                [("method", PStr (en_method e)); ("to_capability", ostr_val (en_to_capability e))])
    end.

(** ** Envelopes and audit *)

Definition result_envelope (request : Envelope) (resolved_agent : string) (params meta : dict)
    : AM Envelope :=
  msg_id ← new_uuid;
  trace_id ← (if truthy (en_trace_id request) then mret (en_trace_id request) else new_uuid);
  ts ← iso_now;
  mret {| en_msg_id := msg_id; en_trace_id := trace_id; en_ts := ts;
          en_from_agent := resolved_agent; en_to_agent := Some (en_from_agent request);
          en_to_capability := None; en_type := MESSAGE_TYPE_RESULT; en_method := en_method request;
          en_params := params; en_attachments := []; en_timeout_ms := en_timeout_ms request;
          en_idempotency_key := en_idempotency_key request; en_meta := meta;
          en_observability := en_observability request |}.

Definition _success_result_envelope (request : Envelope) (resolved_agent : string)
    (result_inline : option dict) (result_ref : option string) (cached : bool) : AM Envelope :=
  let data := match result_inline with
              | Some d => d
              | None => if otruthy result_ref then [("result_ref", ostr_val result_ref)] else []
              end in
  result_envelope request resolved_agent
    [("ok", PBool true); ("status", PStr A2A_IDEMPOTENCY_STATUS_SUCCESS);
     ("cached", PBool cached); ("data", PDict data)] [("cached", PBool cached)].

Definition _error_result_envelope (request : Envelope) (resolved_agent : string) (error : dict)
    (cached : bool) (task_id : option string) : AM Envelope :=
  result_envelope request resolved_agent
    ([("ok", PBool false); ("status", default (PStr "FAILED") (dget error "code"));
      ("cached", PBool cached); ("error", PDict error)]
     ++ (if otruthy task_id then [("task_id", ostr_val task_id)] else []))
    [("cached", PBool cached); ("error", PBool true)].

Definition _in_progress_result_envelope (request : Envelope) (resolved_agent : string)
    (task_id : option string) (cached : bool) : AM Envelope :=
  let task := match task_id with Some t => [("task_id", PStr t)] | None => [] end in
  result_envelope request resolved_agent
    ([("ok", PBool false); ("status", PStr "IN_PROGRESS"); ("cached", PBool cached);
      ("data", PDict task)] ++ task)
    [("cached", PBool cached); ("in_progress", PBool true)].

Definition _unknown_call_result (request : Envelope) (resolved_agent : string) (cached : bool)
    : AM Envelope :=
  _error_result_envelope request resolved_agent
    [("code", PStr "OUTCOME_UNKNOWN");
     ("message", PStr "Call outcome is unknown; reconcile the effect before reissuing.")]
    cached None.

Definition _append_audit_record (e : Envelope) (resolved_agent : option string) (status : string)
    (task_id error_code error_message : option string) (payload : option dict) : AM () :=
  ts ← iso_now;
  modify (add_audit {| au_ts := ts; au_msg_id := en_msg_id e; au_trace_id := en_trace_id e;
    au_from_agent := en_from_agent e; au_to_agent := resolved_agent;
    au_to_capability := en_to_capability e; au_type := en_type e; au_method := en_method e;
    au_status := status; au_task_id := task_id; au_error_code := error_code;
    au_error_message := error_message; au_envelope := payload; au_data := None |}).

Definition _append_runtime_audit (trace_id resolved_agent method status task_id audit_type : string)
    (to_capability error_code error_message : option string) (data : option dict) : AM () :=
  ts ← iso_now;
  msg_id ← new_uuid;
  modify (add_audit {| au_ts := ts; au_msg_id := msg_id; au_trace_id := trace_id;
    au_from_agent := "runtime"; au_to_agent := Some resolved_agent;
    au_to_capability := to_capability; au_type := audit_type; au_method := method;
    au_status := status; au_task_id := Some task_id; au_error_code := error_code;
    au_error_message := error_message; au_envelope := None; au_data := data |}).

(** ** Idempotency *)

Definition _idempotency_scope (e : Envelope) (resolved_agent : string) : string :=
  let base_scope := en_type e +:+ ":" +:+ resolved_agent +:+ ":" +:+ en_method e in
  let session := default (PStr "") (dget (en_meta e) "session_id") in
  let session_id := py_strip (if py_truthy session then py_str session else "") in
  if truthy session_id then base_scope +:+ ":" +:+ session_id else base_scope.

(** [datetime.fromisoformat(text.replace("Z", "+00:00")).astimezone(utc)]; a
    text without an offset is read as local time, which is taken to be UTC. *)
Definition parse_utc (text : string) : option Z :=
  match py_fromisoformat (py_replace "Z"%char "+00:00" text) with
  | None => None
  | Some (local, offset) => Some (local - default 0%Z offset)%Z
  end.

(** The age in seconds exceeds [max(1, stale_after_sec)]; an unreadable stamp
    is stale. *)
Definition _is_stale (stamp : string) (now : Z) (stale_after_sec : Z) : bool :=
  match parse_utc stamp with
  | None => true
  | Some t => (Z.max 1 stale_after_sec * 1000000 <? now - t)%Z
  end.

Definition idempotency_slot_is_stale (updated_at : string) (stale_after_sec : Z) : AM bool :=
  match parse_utc updated_at with
  | None => mret true
  | Some _ => now ← a_now; mret (_is_stale updated_at now stale_after_sec)
  end.

Definition _result_from_idempotency (existing : IdempotencyRecord) (request : Envelope)
    (resolved_agent : string) : AM Envelope :=
  if String.eqb (i_status existing) A2A_IDEMPOTENCY_STATUS_SUCCESS then
    _success_result_envelope request resolved_agent (i_result_inline existing)
      (i_result_ref existing) true
  else if str_in (i_status existing) [A2A_IDEMPOTENCY_STATUS_FAILED;
                                      A2A_IDEMPOTENCY_STATUS_CANCELED] then
    let fallback := if String.eqb (i_status existing) A2A_IDEMPOTENCY_STATUS_FAILED
                    then "FAILED" else "CANCELED" in
    let error := match i_error existing with
                 | Some (x :: d) => x :: d
                 | _ => [("code", PStr fallback); ("message", PStr "Cached failure")]
                 end in
    _error_result_envelope request resolved_agent error true (i_task_id existing)
  else
    stale ← idempotency_slot_is_stale (i_updated_at existing) (recovery_stale_heartbeat_sec cfg);
    if stale : bool then _unknown_call_result request resolved_agent true
    else _in_progress_result_envelope request resolved_agent (i_task_id existing) true.

Definition _validate_envelope (e : Envelope) : result a2a_exn () :=
  match validate_envelope_contract e with
  | Raise (EnvelopeValidationError msg) => Raise (mk_A2AError "INVALID_ARGUMENT" msg [])
  | r => r
  end.

(** The inline result or the reference of the stored one; an error of the
    artifact store is its text. *)
Definition _store_result_if_needed (res : dict) (label : string)
    : result string (option dict * option string) :=
  let encoded := json_text_default (PDict res) in
  match put_bytes cfg with
  | None => Ok (Some res, None)
  | Some put =>
      if (Z.of_nat (String.length encoded) <=? max_inline_bytes cfg)%Z then Ok (Some res, None)
      else match put encoded label with
           | Ok ref => Ok (None, Some ref)
           | Raise text => Raise text
           end
  end.

(** ** Calls *)

(** [call] up to the handler: a response, or the reservation under which the
    handler is to run. *)
Definition call_begin (e : Envelope) : AM (Envelope + string * IdempotencyRecord) :=
  if negb (String.eqb (en_type e) "call") then
    raise (mk_A2AError "INVALID_ARGUMENT" "Envelope type must be 'call' for call()" [])
  else
    _ ← lift_result (_validate_envelope e);
    w ← get_world;
    route ← lift_result (resolve w e);
    let agent := ad_agent_id route in
    if negb (is_allowed (policy cfg) e agent) then
      raise (mk_A2AError "POLICY_DENIED" "Policy denied call"
               [("agent", PStr agent); ("method", PStr (en_method e))])
    else
      r ← reserve_idempotency (en_idempotency_key e) (_idempotency_scope e agent);
      let '(reserved, record) := r in
      if reserved : bool then
        _ ← _append_audit_record e (Some agent) A2A_AUDIT_STATUS_CALL_RECEIVED None None None
              (Some (envelope_to_dict e));
        mret (inr (agent, record))
      else
        resp ← _result_from_idempotency record e agent;
        mret (inl resp).

(** The error and the stored result that a handler's outcome leads to. *)
Definition call_outcome (method : string) (o : handler_outcome)
    : option dict * option dict * option string :=
  match o with
  | HA2AError code message details =>
      (Some (error_to_dict (normalize_error_code (Some code)) message details), None, None)
  | HException text => (Some [("code", PStr "HANDLER_ERROR"); ("message", PStr text)], None, None)
  | HReturn res =>
      match _store_result_if_needed res method with
      | Ok (inline, ref) => (None, inline, ref)
      | Raise _ => (Some [("code", PStr "OUTCOME_UNKNOWN");
          ("message", PStr "Call result could not be stored; reconcile the effect before reissuing.")],
          None, None)
      end
  end.

(** [_execute_call_handler] after the handler ended with [o]. *)
Definition call_finish (e : Envelope) (agent : string) (reservation : IdempotencyRecord)
    (o : handler_outcome) : AM Envelope :=
  let '(error, inline, ref) := call_outcome (en_method e) o in
  let failed := match error with Some _ => true | None => false end in
  finished ← finish_idempotency reservation
               (if failed then A2A_IDEMPOTENCY_STATUS_FAILED else A2A_IDEMPOTENCY_STATUS_SUCCESS)
               inline ref error;
  if negb finished then _unknown_call_result e agent false
  else
    response ← match error with
               | Some err => _error_result_envelope e agent err false None
               | None => _success_result_envelope e agent inline ref false
               end;
    let text k := match error with Some err => _optional_string err k | None => None end in
    _ ← _append_audit_record response (en_to_agent response)
          (if failed then A2A_AUDIT_STATUS_FAILED else A2A_AUDIT_STATUS_SUCCESS) None
          (text "code") (text "message") (Some (envelope_to_dict response));
    mret response.

(** [call] with a handler that ends with [o], nothing else running. *)
Definition call (e : Envelope) (o : handler_outcome) : AM Envelope :=
  r ← call_begin e;
  match r with
  | inl response => mret response
  | inr (agent, reservation) => call_finish e agent reservation o
  end.

(** ** Jobs *)

(** The locked part of [job_start]: the task id, and whether a job was
    submitted under it. *)
Definition _start_or_replay_job (e : Envelope) (agent scope : string) : AM (string * bool) :=
  r ← reserve_idempotency (en_idempotency_key e) scope;
  let '(reserved, existing) := r in
  if negb reserved then
    if otruthy (i_task_id existing) then mret (default "" (i_task_id existing), false)
    else
      let details := [("idempotency_key", PStr (en_idempotency_key e))] in
      if String.eqb (i_status existing) A2A_IDEMPOTENCY_STATUS_SUCCESS then
        raise (mk_A2AError "ALREADY_COMPLETED" "Job already completed for this idempotency key"
                 details)
      else raise (mk_A2AError "IN_PROGRESS" "Job is already in progress for this idempotency key"
                    details)
  else
    task_id ← new_uuid;
    now ← iso_now;
    _ ← create_job
      {| j_task_id := task_id; j_trace_id := en_trace_id e;
         j_idempotency_key := en_idempotency_key e; j_agent_id := agent; j_method := en_method e;
         j_state := A2A_JOB_STATE_PENDING; j_current_step := "queued";
         j_progress := PFloat 0 1 "0.0"; j_result_inline := None; j_result_ref := None;
         j_error := None; j_owner_agent_id := en_from_agent e; j_idempotency_scope := scope;
         j_created_at := now; j_updated_at := now; j_heartbeat_at := now |};
    _ ← set_idempotency_result (en_idempotency_key e) scope A2A_IDEMPOTENCY_STATUS_IN_PROGRESS
          None None None (Some task_id);
    _ ← _append_audit_record e (Some agent) A2A_AUDIT_STATUS_JOB_QUEUED (Some task_id) None None
          (Some (envelope_to_dict e));
    _ ← modify (λ w, set_live ({[task_id]} ∪ futures w) ({[task_id]} ∪ cancel_events w)
                       (event_set w) w);
    mret (task_id, true).

(** [job_start]: the task id, and for a new job the agent and scope it runs
    under. *)
Definition job_start (e : Envelope) : AM (string * option (string * string)) :=
  if negb (String.eqb (en_type e) "job.start") then
    raise (mk_A2AError "INVALID_ARGUMENT" "Envelope type must be 'job.start' for job_start()" [])
  else
    _ ← lift_result (_validate_envelope e);
    w ← get_world;
    route ← lift_result (resolve w e);
    let agent := ad_agent_id route in
    if negb (is_allowed (policy cfg) e agent) then
      raise (mk_A2AError "POLICY_DENIED" "Policy denied job start"
               [("agent", PStr agent); ("method", PStr (en_method e))])
    else
      let scope := _idempotency_scope e agent in
      r ← _start_or_replay_job e agent scope;
      mret (fst r, if (snd r : bool) then Some (agent, scope) else None).

Definition _mark_job_running (e : Envelope) (agent task_id : string) : AM bool :=
  current ← get_job task_id;
  match current with
  | None => mret false
  | Some j =>
      if job_is_terminal j then mret false
      else
        stamp ← iso_now;
        _ ← update_job task_id
              {| jp_state := A2A_JOB_STATE_RUNNING; jp_current_step := "executing";
                 jp_progress := Some (PFloat 3602879701896397 36028797018963968 "0.1");
                 jp_result_inline := None; jp_result_ref := None; jp_error := None;
                 jp_stamp := stamp |};
        _ ← _append_runtime_audit (en_trace_id e) agent (en_method e) A2A_AUDIT_STATUS_RUNNING
              task_id "job.status" (en_to_capability e) None None None;
        mret true
  end.

(** An error storing the result escapes as the exception with its text. *)
Definition _mark_job_success (e : Envelope) (agent task_id scope : string) (res : dict)
    : AM (string + bool) :=
  current ← get_job task_id;
  match current with
  | None => mret (inr false)
  | Some j =>
      if job_is_terminal j then mret (inr false)
      else
        match _store_result_if_needed res (en_method e) with
        | Raise text => mret (inl text)
        | Ok (inline, ref) =>
            stamp ← iso_now;
            _ ← update_job task_id
                  {| jp_state := A2A_JOB_STATE_SUCCESS; jp_current_step := "done";
                     jp_progress := Some (PFloat 1 1 "1.0"); jp_result_inline := Some inline;
                     jp_result_ref := Some ref; jp_error := Some None; jp_stamp := stamp |};
            _ ← set_idempotency_result (en_idempotency_key e) scope A2A_IDEMPOTENCY_STATUS_SUCCESS
                  inline ref None (Some task_id);
            _ ← _append_runtime_audit (en_trace_id e) agent (en_method e) A2A_AUDIT_STATUS_SUCCESS
                  task_id "job.status" (en_to_capability e) None None
                  (Some [("result_ref", ostr_val ref)]);
            mret (inr true)
        end
  end.

Definition _mark_job_failed (e : Envelope) (agent task_id scope text : string) : AM () :=
  let error := [("code", PStr "JOB_FAILED"); ("message", PStr text)] in
  current ← get_job task_id;
  match current with
  | None => mret ()
  | Some j =>
      if job_is_terminal j then mret ()
      else
        stamp ← iso_now;
        _ ← update_job task_id (simple_patch A2A_JOB_STATE_FAILED "failed" error stamp);
        _ ← set_idempotency_result (en_idempotency_key e) scope A2A_IDEMPOTENCY_STATUS_FAILED
              None None (Some error) (Some task_id);
        _append_runtime_audit (en_trace_id e) agent (en_method e) A2A_AUDIT_STATUS_FAILED
          task_id "job.status" (en_to_capability e) (Some "JOB_FAILED") (Some text) None
  end.

Definition _forget_job (task_id : string) : AM () :=
  modify (λ w, set_live (futures w ∖ {[task_id]}) (cancel_events w ∖ {[task_id]}) (event_set w) w).

(** [job.idempotency_scope or f"job.start:{agent}:{method}"] *)
Definition job_scope (j : JobRecord) : string :=
  if truthy (j_idempotency_scope j) then j_idempotency_scope j
  else "job.start:" +:+ j_agent_id j +:+ ":" +:+ j_method j.

Definition _recover_stale_job (j : JobRecord) (now : Z) : AM bool :=
  if job_is_terminal j || negb (_is_stale (j_heartbeat_at j) now (recovery_stale_heartbeat_sec cfg))
  then mret false
  else
    let message := "Job marked failed during recovery due to stale heartbeat" in
    let error := [("code", PStr "STALE_JOB"); ("message", PStr message)] in
    stamp ← iso_now;
    _ ← update_job (j_task_id j)
          (simple_patch A2A_JOB_STATE_FAILED "recovery_failed" error stamp);
    _ ← set_idempotency_result (j_idempotency_key j) (job_scope j) A2A_IDEMPOTENCY_STATUS_FAILED
          None None (Some error) (Some (j_task_id j));
    _ ← _append_runtime_audit (j_trace_id j) (j_agent_id j) (j_method j)
          A2A_AUDIT_STATUS_RECOVERY_FAILED (j_task_id j) "job.status" None (Some "STALE_JOB")
          (Some message) (Some [("task_id", PStr (j_task_id j))]);
    mret true.

Definition job_status (task_id : string) : AM JobRecord :=
  current ← get_job task_id;
  match current with
  | None => raise (mk_A2AError "JOB_NOT_FOUND" ("Job '" +:+ task_id +:+ "' was not found") [])
  | Some j =>
      live ← gets (λ w, bool_decide (task_id ∈ futures w));
      if live : bool then mret j
      else
        now ← a_now;
        recovered ← _recover_stale_job j now;
        if recovered : bool then
          again ← get_job task_id;
          mret (default j again)
        else mret j
  end.

(** The job's record, and whether [future.cancel()] is called. *)
Definition job_cancel (task_id : string) : AM (JobRecord * bool) :=
  j ← job_status task_id;
  if job_is_terminal j then mret (j, false)
  else
    future ← gets (λ w, bool_decide (task_id ∈ futures w));
    let error := [("code", PStr "CANCELED"); ("message", PStr "Job canceled")] in
    stamp ← iso_now;
    updated ← update_job task_id (simple_patch A2A_JOB_STATE_CANCELED "canceled" error stamp);
    _ ← modify (λ w, set_live (futures w) (cancel_events w)
          (if bool_decide (task_id ∈ cancel_events w) then {[task_id]} ∪ event_set w
           else event_set w) w);
    _ ← set_idempotency_result (j_idempotency_key updated) (job_scope updated)
          A2A_IDEMPOTENCY_STATUS_CANCELED None None (Some error) (Some task_id);
    _ ← _append_runtime_audit (j_trace_id updated) (j_agent_id updated) (j_method updated)
          A2A_AUDIT_STATUS_CANCELED task_id "job.cancel" None (Some "CANCELED")
          (Some "Job canceled") (Some (job_to_dict updated));
    mret (updated, future).

Fixpoint recover_rows (now : Z) (rows : list JobRecord) : AM (list string) :=
  match rows with
  | [] => mret []
  | j :: rest =>
      live ← gets (λ w, bool_decide (j_task_id j ∈ futures w));
      stale ← (if live : bool then mret false else _recover_stale_job j now);
      others ← recover_rows now rest;
      mret (if stale : bool then j_task_id j :: others else others)
  end.
Definition recover_stale_jobs : AM (list string) :=
  now ← a_now;
  rows ← list_jobs_in A2A_ACTIVE_JOB_STATES 5000;
  recover_rows now rows.

(** ** Threads *)

(** A call or job in flight, by program point. *)
Inductive athread : Type :=
| TCall (e : Envelope) (agent : string) (reservation : IdempotencyRecord)
    (** the handler is running *)
| TCallHandled (e : Envelope) (agent : string) (reservation : IdempotencyRecord)
    (o : handler_outcome)
| TJobQueued (e : Envelope) (agent task_id scope : string)
    (** submitted to the executor *)
| TJobMarked (e : Envelope) (agent task_id scope : string) (started : bool)
    (** [_mark_job_running] returned *)
| TJobRunning (e : Envelope) (agent task_id scope : string)
    (** the handler is running *)
| TJobHandled (e : Envelope) (agent task_id scope : string) (o : handler_outcome)
| TJobSucceeding (e : Envelope) (agent task_id scope : string) (res : dict)
    (** the event was not set when the handler returned *)
| TJobRaised (e : Envelope) (agent task_id scope text : string)
    (** in the [except] clause *)
| TJobFailing (e : Envelope) (agent task_id scope text : string)
    (** the event was not set in the [except] clause *)
| TJobEnding (task_id : string)
    (** [_run_job] returned; the future's callback is due *)
| TDone.

Definition exception_text (o : handler_outcome) : string :=
  match o with
  | HReturn _ => ""
  | HA2AError code message _ => normalize_error_code (Some code) +:+ ": " +:+ message
  | HException text => text
  end.

Definition run_quiet {A} (m : AM A) (w : A2A) : A2A := (m w).1.

(** One atomic step of a thread; [o] is how its handler ends, when the
    handler is what the thread is in. *)
Definition advance (t : athread) (o : handler_outcome) (w : A2A) : A2A * athread :=
  match t with
  | TCall e agent r => (w, TCallHandled e agent r o)
  | TCallHandled e agent r o => (run_quiet (call_finish e agent r o) w, TDone)
  | TJobQueued e agent task scope =>
      match _mark_job_running e agent task w with
      | (w', Ok started) => (w', TJobMarked e agent task scope started)
      | (w', Raise _) => (w', TJobRaised e agent task scope "")
      end
  | TJobMarked e agent task scope started =>
      (w, if negb started || bool_decide (task ∈ event_set w) then TJobEnding task
          else TJobRunning e agent task scope)
  | TJobRunning e agent task scope => (w, TJobHandled e agent task scope o)
  | TJobHandled e agent task scope o =>
      (w, match o with
          | HReturn res => if bool_decide (task ∈ event_set w) then TJobEnding task
                           else TJobSucceeding e agent task scope res
          | _ => TJobRaised e agent task scope (exception_text o)
          end)
  | TJobSucceeding e agent task scope res =>
      match _mark_job_success e agent task scope res w with
      | (w', Ok (inl text)) => (w', TJobRaised e agent task scope text)
      | (w', Ok (inr _)) => (w', TJobEnding task)
      | (w', Raise _) => (w', TJobRaised e agent task scope "")
      end
  | TJobRaised e agent task scope text =>
      (w, if bool_decide (task ∈ event_set w) then TJobEnding task
          else TJobFailing e agent task scope text)
  | TJobFailing e agent task scope text =>
      (run_quiet (_mark_job_failed e agent task scope text) w, TJobEnding task)
  | TJobEnding task => (run_quiet (_forget_job task) w, TDone)
  | TDone => (w, TDone)
  end.

(** ** The machine *)

Record Machine := { world : A2A; threads : list athread }.

Inductive request : Type :=
| RCall (e : Envelope)
| RJobStart (e : Envelope)
| RJobStatus (task_id : string)
| RJobCancel (task_id : string)
| RRecover
| RRegister (agent_id : string) (capabilities tags : list string) (has_job_handler : bool)
| RAdvance (i : nat) (o : handler_outcome).

(** [future.cancel()]: a job that has not started will not run, and its
    callback runs at once. *)
Definition drop_queued (task : string) (t : athread) : athread :=
  match t with
  | TJobQueued _ _ task' _ => if String.eqb task' task then TDone else t
  | _ => t
  end.
Definition is_queued (task : string) (t : athread) : bool :=
  match t with TJobQueued _ _ task' _ => String.eqb task' task | _ => false end.

Definition serve (r : request) (m : Machine) : Machine :=
  match r with
  | RCall e =>
      match call_begin e (world m) with
      | (w, Ok (inr (agent, record))) =>
          {| world := w; threads := threads m ++ [TCall e agent record] |}
      | (w, _) => {| world := w; threads := threads m |}
      end
  | RJobStart e =>
      match job_start e (world m) with
      | (w, Ok (task, Some (agent, scope))) =>
          {| world := w; threads := threads m ++ [TJobQueued e agent task scope] |}
      | (w, _) => {| world := w; threads := threads m |}
      end
  | RJobStatus task => {| world := run_quiet (job_status task) (world m); threads := threads m |}
  | RJobCancel task =>
      match job_cancel task (world m) with
      | (w, Ok (_, future)) =>
          if future && existsb (is_queued task) (threads m)
          then {| world := run_quiet (_forget_job task) w;
                  threads := map (drop_queued task) (threads m) |}
          else {| world := w; threads := threads m |}
      | (w, Raise _) => {| world := w; threads := threads m |}
      end
  | RRecover => {| world := run_quiet recover_stale_jobs (world m); threads := threads m |}
  | RRegister a caps tags jh =>
      {| world := run_quiet (register_agent a caps tags jh) (world m); threads := threads m |}
  | RAdvance i o =>
      match threads m !! i with
      | Some t => let r := advance t o (world m) in
                  {| world := r.1; threads := <[i := r.2]> (threads m) |}
      | None => m
      end
  end.

Fixpoint serve_all (rs : list request) (m : Machine) : Machine :=
  match rs with [] => m | r :: rs' => serve_all rs' (serve r m) end.
End Runtime.

Definition empty_a2a : A2A :=
  {| idem := ∅; jobs := []; agents := []; handlers := ∅; job_handlers := ∅; futures := ∅;
     cancel_events := ∅; event_set := ∅; audits := []; a_ticks := 0; a_drawn := 0 |}.
Definition empty_machine : Machine := {| world := empty_a2a; threads := [] |}.
