(* ===== verification/A2AOnce.v ===== *)
(** The agent-to-agent runtime under interleaving: receipts are never deleted, so the
    handlers run at most once per idempotency scope and key; with a concrete set-up in
    which the witnesses of the runtime's theorems run. *)

From S2P Require Import Prelude PyValue Timestamps PolicyModels PolicyStore Demo A2AModels A2ARuntime.


(** * A concrete agent-to-agent set-up: one agent, a call and a job to it, and
    requests that run them, for the witnesses of the runtime's theorems. *)

#[global] Instance demo_uuid_syntax : UuidSyntax := {| py_uuid_accepts s := Nat.eqb (String.length s) 36 |}.

Definition demo_a2a : A2AConfig :=
  {| policy := new_PolicyEngine "allow" []; max_inline_bytes := 16384;
     recovery_stale_heartbeat_sec := 300; put_bytes := None |}.

Definition demo_envelope (type method key : string) : Envelope :=
  {| en_msg_id := "m"; en_trace_id := "t"; en_ts := "2024-01-01T00:00:00+00:00";
     en_from_agent := "alice"; en_to_agent := Some "bob"; en_to_capability := None;
     en_type := type; en_method := method; en_params := []; en_attachments := [];
     en_timeout_ms := 30000; en_idempotency_key := key; en_meta := [];
     en_observability := None |}.

Definition demo_bob : AgentDescriptor :=
  {| ad_agent_id := "bob"; ad_capabilities := ["math."]; ad_endpoint := "inproc://bob";
     ad_tags := []; ad_status := "online" |}.

Definition demo_result : handler_outcome := HReturn [("sum", PInt 3)].

(** The agent registers and a job is queued for it. *)
Definition demo_job_queued : list request :=
  [RRegister "bob" ["math."] [] false; RJobStart (demo_envelope "job.start" "math.add" "k1")].
(** The worker runs it to the end. *)
Definition demo_job_done : list request :=
  demo_job_queued ++ repeat (RAdvance 0 demo_result) 6.

(** * Interleaved requests *)

#[local] Arguments isoformat : simpl never.
#[local] Arguments envelope_to_dict : simpl never.
#[local] Arguments job_to_dict : simpl never.

(** ** Ordered dictionaries *)

Lemma aget_aset {A} k k' (v : A) l :
  aget k (aset k' v l) = if String.eqb k k' then Some v else aget k l.
Proof.
  induction l as [|[k0 v0] l IH]; simpl; [done|].
  destruct (String.eqb_spec k' k0) as [->|Hne]; simpl.
  - by destruct (String.eqb k k0).
  - rewrite IH. destruct (String.eqb_spec k k0) as [->|]; [|done].
    by rewrite (proj2 (String.eqb_neq _ _)) by congruence.
Qed.

Lemma aset_keys {A} k (v : A) l :
  map fst (aset k v l) = match aget k l with Some _ => map fst l | None => map fst l ++ [k] end.
Proof.
  induction l as [|[k0 v0] l IH]; simpl; [done|].
  destruct (String.eqb_spec k k0) as [->|Hne]; simpl; [done|].
  rewrite IH. by destruct (aget k l).
Qed.

Lemma aget_None {A} k (l : list (string * A)) : aget k l = None ↔ k ∉ map fst l.
Proof.
  induction l as [|[k0 v0] l IH]; simpl; [split; [intros _ ?%elem_of_nil|]; done|].
  rewrite elem_of_cons. destruct (String.eqb_spec k k0) as [->|]; naive_solver.
Qed.

Lemma aget_elem {A} k (v : A) l : NoDup (map fst l) → (k, v) ∈ l → aget k l = Some v.
Proof.
  induction l as [|[k0 v0] l IH]; simpl; intros Hnd Hin; [by apply elem_of_nil in Hin|].
  apply NoDup_cons in Hnd as [H0 Hnd]. apply elem_of_cons in Hin as [[= -> ->]|Hin].
  - by rewrite String.eqb_refl.
  - destruct (String.eqb_spec k k0) as [->|]; [|by apply IH].
    exfalso. apply H0. apply list_elem_of_In, in_map_iff. exists (k0, v).
    by rewrite <-list_elem_of_In.
Qed.

(** ** Receipts are never deleted *)

Section Keeps.
Context {Env : PyEnv} {Uuid : UuidSyntax}.
Variable cfg : A2AConfig.

Definition receipts (w : A2A) : gset (string * string) := dom (idem w).

(** A program that deletes no receipt, whatever it returns. *)
Definition keeps {A} (m : AM A) : Prop := ∀ w, receipts w ⊆ receipts (m w).1.

Lemma keeps_same {A} (m : AM A) : (∀ w, idem (m w).1 = idem w) → keeps m.
Proof. intros H w. unfold receipts. by rewrite H. Qed.
Lemma keeps_bind {A B} (m : AM A) (f : A → AM B) :
  keeps m → (∀ a, keeps (f a)) → keeps (mbind f m).
Proof.
  intros Hm Hf w. unfold mbind, M_bind. specialize (Hm w).
  destruct (m w) as [w1 [a|x]]; simpl in *; [|done].
  etrans; [done|]. apply Hf.
Qed.
Lemma keeps_insert k r : keeps (modify (set_idem (λ m, <[k := r]> m))).
Proof. intros w. unfold receipts. simpl. rewrite dom_insert. set_solver. Qed.

Ltac keeps_with tac := repeat first
  [ tac | apply keeps_insert | apply keeps_bind; [|intros ?]
  | progress case_match | apply keeps_same; intros ?; reflexivity ].
Ltac keeps := keeps_with fail.

Lemma keeps_set_result k sc st ri rr er ti : keeps (set_idempotency_result k sc st ri rr er ti).
Proof. unfold set_idempotency_result. keeps. Qed.
Lemma keeps_update_job task p : keeps (update_job task p).
Proof. unfold update_job. keeps. Qed.
Lemma keeps_call_begin e : keeps (call_begin cfg e).
Proof.
  unfold call_begin, reserve_idempotency, _result_from_idempotency, _success_result_envelope,
    _unknown_call_result, _error_result_envelope, _in_progress_result_envelope, result_envelope,
    idempotency_slot_is_stale, _append_audit_record. keeps.
Qed.
Lemma keeps_call_finish e a r o : keeps (call_finish cfg e a r o).
Proof.
  unfold call_finish, finish_idempotency, _success_result_envelope, _unknown_call_result,
    _error_result_envelope, result_envelope, _append_audit_record. keeps.
Qed.
Lemma keeps_job_start e : keeps (job_start cfg e).
Proof.
  unfold job_start, _start_or_replay_job, reserve_idempotency, create_job, _append_audit_record.
  keeps_with ltac:(apply keeps_set_result).
Qed.
Ltac keeps_job :=
  keeps_with ltac:(first [apply keeps_set_result | apply keeps_update_job]).
Lemma keeps_mark_running e a t : keeps (_mark_job_running e a t).
Proof. unfold _mark_job_running, get_job, _append_runtime_audit. keeps_job. Qed.
Lemma keeps_mark_success e a t sc res : keeps (_mark_job_success cfg e a t sc res).
Proof. unfold _mark_job_success, get_job, _append_runtime_audit. keeps_job. Qed.
Lemma keeps_mark_failed e a t sc x : keeps (_mark_job_failed e a t sc x).
Proof. unfold _mark_job_failed, get_job, _append_runtime_audit. keeps_job. Qed.
Lemma keeps_recover j now : keeps (_recover_stale_job cfg j now).
Proof. unfold _recover_stale_job, _append_runtime_audit. keeps_job. Qed.
Lemma keeps_job_status t : keeps (job_status cfg t).
Proof. unfold job_status, get_job. keeps_with ltac:(apply keeps_recover). Qed.
Lemma keeps_job_cancel t : keeps (job_cancel cfg t).
Proof.
  unfold job_cancel, _append_runtime_audit.
  keeps_with ltac:(first [apply keeps_set_result | apply keeps_update_job | apply keeps_job_status]).
Qed.
Lemma keeps_recover_rows now rows : keeps (recover_rows cfg now rows).
Proof.
  induction rows as [|j rows IH]; simpl; [by apply keeps_same|].
  keeps_with ltac:(first [apply keeps_recover | apply IH]).
Qed.
Lemma keeps_recover_stale_jobs : keeps (recover_stale_jobs cfg).
Proof.
  unfold recover_stale_jobs, list_jobs_in.
  keeps_with ltac:(apply keeps_recover_rows).
Qed.
End Keeps.

(** ** Handlers run at most once *)

Section Once.
Context {Env : PyEnv} {Uuid : UuidSyntax}.
Variable cfg : A2AConfig.

(** The key under which a thread may still run its handler. *)
Definition slot (t : athread) : list (string * string) :=
  match t with
  | TCall _ _ r => [(i_scope r, i_key r)]
  | TJobQueued e _ _ scope | TJobMarked e _ _ scope _ | TJobRunning e _ _ scope =>
      [(scope, en_idempotency_key e)]
  | _ => []
  end.
Definition slots (m : Machine) : list (string * string) := concat (map slot (threads m)).

(** The key whose handler ends in this step, when the step is that. *)
Definition handled (t : athread) : list (string * string) :=
  match t with
  | TCall _ _ r => [(i_scope r, i_key r)]
  | TJobRunning e _ _ scope => [(scope, en_idempotency_key e)]
  | _ => []
  end.
Definition handler_run (r : request) (m : Machine) : list (string * string) :=
  match r with
  | RAdvance i _ => match threads m !! i with Some t => handled t | None => [] end
  | _ => []
  end.
Fixpoint invocations (rs : list request) (m : Machine) : list (string * string) :=
  match rs with
  | [] => []
  | r :: rs' => handler_run r m ++ invocations rs' (serve cfg r m)
  end.

Lemma advance_slot t o w : handled t ++ slot (advance cfg t o w).2 ⊆+ slot t.
Proof.
  destruct t; simpl; repeat (case_match; simpl); auto using submseteq_nil_l.
Qed.

Lemma advance_keeps t o w : receipts w ⊆ receipts (advance cfg t o w).1.
Proof.
  destruct t; simpl; try done.
  - apply (keeps_call_finish cfg).
  - pose proof (keeps_mark_running e agent task_id w) as H. by repeat case_match.
  - pose proof (keeps_mark_success cfg e agent task_id scope res w) as H. by repeat case_match.
  - apply keeps_mark_failed.
Qed.

(** Replacing a thread. *)
Lemma slots_insert i t (ts : list athread) u run :
  ts !! i = Some t → run ++ slot u ⊆+ slot t →
  run ++ concat (map slot (<[i := u]> ts)) ⊆+ concat (map slot ts).
Proof.
  intros Hi Hr. pattern ts at 2. rewrite <-(take_drop_middle ts i t Hi).
  rewrite insert_take_drop by (by eapply lookup_lt_Some).
  rewrite !map_app, !concat_app. simpl. rewrite (app_assoc run), (Permutation_app_comm run).
  rewrite <-app_assoc. apply submseteq_app; [done|]. rewrite app_assoc.
  by apply submseteq_app.
Qed.

Lemma slots_drop_queued task ts : concat (map slot (map (drop_queued task) ts)) ⊆+ concat (map slot ts).
Proof.
  induction ts as [|t ts IH]; simpl; [done|]. apply submseteq_app; [|done].
  destruct t; simpl; try done. case_match; simpl; auto using submseteq_nil_l.
Qed.

(** A call or job that begins reserved a key that had no receipt. *)
Lemma reserve_fresh key scope w w' r :
  reserve_idempotency key scope w = (w', Ok (true, r)) →
  ((scope, key) ∉ receipts w) ∧ (scope, key) ∈ receipts w' ∧ i_scope r = scope ∧ i_key r = key.
Proof.
  unfold reserve_idempotency. munfold. unfold receipts. intros H.
  repeat (case_match; simplify_eq/=). split_and!; [by apply not_elem_of_dom| |done|done].
  set_solver.
Qed.

Lemma call_begin_fresh e w w' agent r :
  call_begin cfg e w = (w', Ok (inr (agent, r))) →
  ((i_scope r, i_key r) ∉ receipts w) ∧ (i_scope r, i_key r) ∈ receipts w'.
Proof.
  unfold call_begin. case_match; [done|]. intros Hb.
  msplit Hb as w1 u1 E1. apply lift_Ok_inv in E1 as [-> _].
  msplit Hb as w2 u2 E2. unfold get_world in E2. simplify_eq.
  msplit Hb as w3 route E3. apply lift_Ok_inv in E3 as [-> _].
  case_match; [done|]. msplit Hb as w4 rr E4. destruct rr as [b rec]. destruct b.
  - msplit Hb as w5 u5 E5. unfold mret, M_ret in Hb. simplify_eq.
    apply reserve_fresh in E4 as (? & ? & Hsc & Hky). rewrite Hsc, Hky. split; [done|].
    unfold _append_audit_record in E5. munfold. by simplify_eq/=.
  - msplit Hb as w5 u5 E5. unfold mret, M_ret in Hb. simplify_eq.
Qed.

Lemma start_fresh e agent scope w w' task :
  _start_or_replay_job e agent scope w = (w', Ok (task, true)) →
  ((scope, en_idempotency_key e) ∉ receipts w) ∧ (scope, en_idempotency_key e) ∈ receipts w'.
Proof.
  unfold _start_or_replay_job. intros Hs. msplit Hs as w1 rr E1. destruct rr as [b rec]. destruct b.
  - apply reserve_fresh in E1 as (? & Hin & _ & _). split; [done|]. cbn [negb] in Hs.
    unfold create_job, set_idempotency_result, _append_audit_record, iso_now, a_now, new_uuid in Hs.
    munfold. unfold receipts in *. repeat (case_match; simplify_eq/=); set_solver.
  - cbn [negb] in Hs. munfold. repeat (case_match; simplify_eq/=).
Qed.

Lemma job_start_fresh e w w' task agent scope :
  job_start cfg e w = (w', Ok (task, Some (agent, scope))) →
  ((scope, en_idempotency_key e) ∉ receipts w) ∧ (scope, en_idempotency_key e) ∈ receipts w'.
Proof.
  unfold job_start. case_match; [done|]. intros Hb.
  msplit Hb as w1 u1 E1. apply lift_Ok_inv in E1 as [-> _].
  msplit Hb as w2 u2 E2. unfold get_world in E2. simplify_eq.
  msplit Hb as w3 route E3. apply lift_Ok_inv in E3 as [-> _].
  case_match; [done|]. msplit Hb as w4 rr E4. destruct rr as [t b].
  unfold mret, M_ret in Hb. destruct b; simplify_eq/=. by apply start_fresh in E4.
Qed.

(** What a request does to the handlers that may still run. *)
Definition opens (m : Machine) (new : list (string * string)) (m' : Machine) : Prop :=
  NoDup new ∧ ∀ k, k ∈ new → (k ∉ receipts (world m)) ∧ k ∈ receipts (world m').

Lemma opens_none m m' : opens m [] m'.
Proof. split; [constructor|]. by intros k ?%elem_of_nil. Qed.

Lemma opens_one m m' k : k ∉ receipts (world m) → k ∈ receipts (world m') → opens m [k] m'.
Proof. intros ??. split; [apply NoDup_singleton|]. by intros k' ->%list_elem_of_singleton. Qed.

Lemma serve_slots r m :
  receipts (world m) ⊆ receipts (world (serve cfg r m)) ∧
  ∃ new, opens m new (serve cfg r m) ∧
    handler_run r m ++ slots (serve cfg r m) ⊆+ slots m ++ new.
Proof.
  unfold slots. destruct r as [e|e|task|task| |a caps tags jh|i o]; simpl.
  - pose proof (keeps_call_begin cfg e (world m)) as Hk.
    destruct (call_begin cfg e (world m)) as [w [[resp|[agent r]]|x]] eqn:E; simpl in *;
      (split; [done|]); [by exists []; rewrite app_nil_r; auto using opens_none| |
                         by exists []; rewrite app_nil_r; auto using opens_none].
    apply call_begin_fresh in E as [? ?]. eexists. split; [by apply opens_one|].
    by rewrite map_app, concat_app.
  - pose proof (keeps_job_start cfg e (world m)) as Hk.
    destruct (job_start cfg e (world m)) as [w [[task [[agent scope]|]]|x]] eqn:E; simpl in *;
      (split; [done|]); [|by exists []; rewrite app_nil_r; auto using opens_none..].
    apply job_start_fresh in E as [? ?]. eexists. split; [by apply opens_one|].
    by rewrite map_app, concat_app.
  - split; [apply keeps_job_status|]. exists []. rewrite app_nil_r. auto using opens_none.
  - pose proof (keeps_job_cancel cfg task (world m)) as Hk.
    destruct (job_cancel cfg task (world m)) as [w [[j f]|x]]; simpl in *;
      [case_match|]; (split; [done|]); exists []; rewrite app_nil_r;
      (split; [apply opens_none|]); first [done | apply slots_drop_queued].
  - split; [apply keeps_recover_stale_jobs|]. exists []. rewrite app_nil_r. auto using opens_none.
  - split; [done|]. exists []. rewrite app_nil_r. auto using opens_none.
  - destruct (threads m !! i) as [t|] eqn:Ei; simpl;
      [|split; [done|]; exists []; rewrite app_nil_r; auto using opens_none].
    split; [apply advance_keeps|]. exists []. rewrite app_nil_r. split; [apply opens_none|].
    eapply slots_insert; [done|apply advance_slot].
Qed.

Lemma submseteq_NoDup {A} (l k : list A) : NoDup k → l ⊆+ k → NoDup l.
Proof.
  intros Hk [k' Hp]%submseteq_Permutation. rewrite Hp in Hk. by apply NoDup_app in Hk as (? & _).
Qed.

Lemma invocations_bounded rs : ∀ m,
  NoDup (slots m) → (∀ k, k ∈ slots m → k ∈ receipts (world m)) →
  NoDup (invocations rs m) ∧
  ∀ k, k ∈ invocations rs m → k ∈ slots m ∨ k ∉ receipts (world m).
Proof.
  induction rs as [|r rs IH]; intros m Hnd Hin; simpl.
  { split; [constructor|]. by intros k ?%elem_of_nil. }
  destruct (serve_slots r m) as (Hmono & new & [Hnew Hop] & Hsub).
  assert (NoDup (slots m ++ new)) as Hnd'.
  { apply NoDup_app. split_and!; [done| |done]. intros k Hk Hk'.
    apply (proj1 (Hop k Hk')), Hin, Hk. }
  assert (∀ k, k ∈ handler_run r m ++ slots (serve cfg r m) → k ∈ slots m ∨ k ∈ new) as Helem.
  { intros k Hk. apply elem_of_app. by eapply elem_of_submseteq. }
  pose proof (submseteq_NoDup _ _ Hnd' Hsub) as Hns.
  apply NoDup_app in Hns as (Hr & Hdisj & Hs).
  destruct (IH (serve cfg r m) Hs) as [IHnd IHin].
  { intros k Hk. destruct (Helem k) as [Hk'|Hk']; [by apply elem_of_app; right| |by apply Hop].
    by apply Hmono, Hin. }
  split.
  - apply NoDup_app. split_and!; [done| |done]. intros k Hk Hk'.
    destruct (IHin k Hk') as [?|Hno]; [by apply (Hdisj k)|]. apply Hno.
    destruct (Helem k) as [Hk2|Hk2]; [by apply elem_of_app; left| |by apply Hop].
    by apply Hmono, Hin.
  - intros k [Hk|Hk]%elem_of_app.
    + destruct (Helem k) as [?|?]; [by apply elem_of_app; left|by left|right; by apply Hop].
    + destruct (IHin k Hk) as [Hk'|Hk'].
      * destruct (Helem k) as [?|?]; [by apply elem_of_app; right|by left|right; by apply Hop].
      * right. set_solver.
Qed.

(** C4: Over any interleaving of calls, job starts, worker steps, status
    queries, cancellations and recoveries, the handlers run under a given
    idempotency scope and key at most once. *)
Theorem handlers_run_at_most_once (rs : list request) :
  NoDup (invocations rs empty_machine).
Proof. apply invocations_bounded; [constructor|by intros k ?%elem_of_nil]. Qed.
End Once.
