(* ===== verification/A2AJobs.v ===== *)
(** Jobs of the agent-to-agent runtime and their receipts: every job has the
    one receipt under its scope and key, which names it and shows its state, and
    a terminal job never changes, over any interleaving of requests. *)

From S2P Require Import Prelude PyValue Timestamps PolicyModels PolicyStore Demo A2AModels A2ARuntime A2AOnce.

#[local] Arguments isoformat : simpl never.
#[local] Arguments envelope_to_dict : simpl never.
#[local] Arguments job_to_dict : simpl never.

(** ** Jobs and their receipts *)

Section Jobs.
Context {Env : PyEnv} {Uuid : UuidSyntax}.
Variable cfg : A2AConfig.
Hypothesis Huuid : uuids_distinct.

(** The status a receipt has when its job is in state [s]. *)
Definition receipt_status (s : string) : string :=
  if str_in s A2A_TERMINAL_JOB_STATES then s else A2A_IDEMPOTENCY_STATUS_IN_PROGRESS.

(** The receipt under the job's scope and key names the job and has its
    state. *)
Definition receipt_agrees (w : A2A) (task : string) (j : JobRecord) : Prop :=
  ∃ r, idem w !! (job_scope j, j_idempotency_key j) = Some r ∧ i_task_id r = Some task ∧
    i_status r = receipt_status (j_state j).

(** A job is labelled by its own id, which was drawn; it runs under a job
    scope; its receipt agrees with it. *)
Record job_ok (w : A2A) (task : string) (j : JobRecord) : Prop := {
  jo_label : j_task_id j = task;
  jo_drawn : ∃ i, i < a_drawn w ∧ task = py_uuid4 i;
  jo_scope : String.prefix "job.start:" (job_scope j) = true;
  jo_agrees : receipt_agrees w task j;
}.
Record store_wf (w : A2A) : Prop := {
  sw_keys : NoDup (map fst (jobs w));
  sw_jobs : ∀ task j, aget task (jobs w) = Some j → job_ok w task j;
}.

(** A call's receipt that is no longer in progress. *)
Definition settled_call (w : A2A) (scope key : string) (r : IdempotencyRecord) : Prop :=
  String.prefix "call:" scope = true ∧ idem w !! (scope, key) = Some r ∧
  i_status r ≠ A2A_IDEMPOTENCY_STATUS_IN_PROGRESS.

(** A world that follows from a well-formed one: jobs are never deleted and
    keep their identity, a terminal one does not change, and neither does the
    settled receipt of a call. *)
Record evolves (w w' : A2A) : Prop := {
  ev_wf : store_wf w';
  ev_drawn : a_drawn w ≤ a_drawn w';
  ev_jobs : ∀ task j, aget task (jobs w) = Some j →
    ∃ j', aget task (jobs w') = Some j' ∧ (job_is_terminal j = true → j' = j) ∧
      job_scope j' = job_scope j ∧ j_idempotency_key j' = j_idempotency_key j;
  ev_calls : ∀ scope key r, settled_call w scope key r → settled_call w' scope key r;
}.

Lemma call_not_job scope :
  String.prefix "call:" scope = true → String.prefix "job.start:" scope = true → False.
Proof. destruct scope as [|c s]; simpl; [done|]. repeat case_match; congruence. Qed.

(** A receipt written under a job's scope leaves the calls' receipts alone. *)
Lemma settled_call_insert w w' scope key job_sc job_key r r' :
  idem w' = <[(job_sc, job_key) := r']> (idem w) →
  String.prefix "job.start:" job_sc = true →
  settled_call w scope key r → settled_call w' scope key r.
Proof.
  intros Hi Hj (Hp & Hr & Hs). split; [done|]. rewrite Hi, lookup_insert_ne; [done|].
  intros [= -> _]. by eapply call_not_job.
Qed.

Lemma evolves_trans w1 w2 w3 : evolves w1 w2 → evolves w2 w3 → evolves w1 w3.
Proof.
  intros [W1 D1 J1 C1] [W2 D2 J2 C2]. split; [done|lia| |auto].
  intros task j Hj. destruct (J1 _ _ Hj) as (j2 & Hj2 & T2 & S2 & K2).
  destruct (J2 _ _ Hj2) as (j3 & Hj3 & T3 & S3 & K3). exists j3.
  split_and!; [done| |congruence|congruence].
  intros Ht. assert (j2 = j) as -> by auto. auto.
Qed.

(** Only the receipts that belong to no job may differ. *)
Lemma evolves_frame w w' :
  store_wf w → jobs w' = jobs w → a_drawn w ≤ a_drawn w' →
  (∀ task j, aget task (jobs w) = Some j →
     idem w' !! (job_scope j, j_idempotency_key j) = idem w !! (job_scope j, j_idempotency_key j)) →
  (∀ scope key r, settled_call w scope key r → idem w' !! (scope, key) = idem w !! (scope, key)) →
  evolves w w'.
Proof.
  intros [Hk Hw] Hj Hd Hi Hc. split; [split; rewrite Hj|done| |]; [done| | |].
  - intros task j Ht. destruct (Hw _ _ Ht) as [L (i & ? & ?) S (r & Hr & Hr')].
    split; [done|exists i; split; [lia|done]|done|]. exists r. by rewrite (Hi _ _ Ht).
  - intros task j Ht. exists j. rewrite Hj. auto.
  - intros scope key r Hr. pose proof (Hc _ _ _ Hr) as E. destruct Hr as (? & Er & ?).
    split; [done|]. by rewrite E.
Qed.

Lemma evolves_same w w' :
  store_wf w → jobs w' = jobs w → idem w' = idem w → a_drawn w ≤ a_drawn w' → evolves w w'.
Proof. intros ???? . apply evolves_frame; [done..| |]; intros; congruence. Qed.

Lemma evolves_refl w : store_wf w → evolves w w.
Proof. intros. by apply evolves_same. Qed.

(** Two jobs under one scope and key are the same. *)
Lemma job_of_key w t1 t2 j1 j2 :
  store_wf w → aget t1 (jobs w) = Some j1 → aget t2 (jobs w) = Some j2 →
  job_scope j1 = job_scope j2 → j_idempotency_key j1 = j_idempotency_key j2 → t1 = t2.
Proof.
  intros [_ Hw] H1 H2 Hs Hk. destruct (Hw _ _ H1) as [_ _ _ (r1 & E1 & T1 & _)].
  destruct (Hw _ _ H2) as [_ _ _ (r2 & E2 & T2 & _)]. rewrite Hs, Hk, E2 in E1. congruence.
Qed.

(** An active job moves to another state together with its receipt. *)
Lemma evolves_settle w w' task j j' r :
  store_wf w → aget task (jobs w) = Some j → job_is_terminal j = false →
  jobs w' = aset task j' (jobs w) →
  idem w' = <[(job_scope j, j_idempotency_key j) := r]> (idem w) →
  a_drawn w ≤ a_drawn w' →
  j_task_id j' = j_task_id j → job_scope j' = job_scope j →
  j_idempotency_key j' = j_idempotency_key j →
  i_task_id r = Some task → i_status r = receipt_status (j_state j') →
  evolves w w'.
Proof.
  intros Hw Hj Hact Hjobs Hidem Hd Hl Hs Hk Ht Hst. pose proof Hw as [Hnd Hok].
  split; [split; rewrite Hjobs|done| |intros ???; eapply settled_call_insert; [done|exact (jo_scope _ _ _ (Hok _ _ Hj))]].
  - by rewrite aset_keys, Hj.
  - intros t2 j2 H2. rewrite aget_aset in H2. destruct (String.eqb_spec t2 task) as [->|Hne].
    + simplify_eq. destruct (Hok _ _ Hj) as [L (i & ? & ?) S _].
      split; [congruence|exists i; split; [lia|done]|by rewrite Hs|].
      exists r. by rewrite Hidem, Hs, Hk, lookup_insert_eq.
    + destruct (Hok _ _ H2) as [L (i & ? & ?) S (r2 & Hr2 & Hr2')].
      split; [done|exists i; split; [lia|done]|done|]. exists r2. split; [|done].
      rewrite Hidem, lookup_insert_ne; [done|]. intros [= E1 E2].
      apply Hne. symmetry. by eapply job_of_key.
  - intros t2 j2 H2. rewrite Hjobs, aget_aset. destruct (String.eqb_spec t2 task) as [->|Hne].
    + rewrite Hj in H2. simplify_eq. exists j'. split; [done|]. split; [congruence|done].
    + exists j2. auto.
Qed.

(** A new job enters with its receipt, under an id that was never drawn. *)
Lemma evolves_create w w' i j r :
  store_wf w → a_drawn w ≤ i → i < a_drawn w' →
  jobs w' = aset (py_uuid4 i) j (jobs w) →
  idem w !! (job_scope j, j_idempotency_key j) = None →
  idem w' = <[(job_scope j, j_idempotency_key j) := r]> (idem w) →
  j_task_id j = py_uuid4 i → String.prefix "job.start:" (job_scope j) = true →
  i_task_id r = Some (py_uuid4 i) → i_status r = receipt_status (j_state j) →
  evolves w w'.
Proof.
  intros [Hnd Hok] Hi Hi' Hjobs Hno Hidem Hl Hs Ht Hst.
  assert (aget (py_uuid4 i) (jobs w) = None) as Hfresh.
  { destruct (aget _ _) as [j0|] eqn:E; [|done].
    destruct (Hok _ _ E) as [_ (i0 & Hlt & Heq%Huuid) _ _]. lia. }
  split; [split; rewrite Hjobs|lia| |intros ???; by eapply settled_call_insert].
  - rewrite aset_keys, Hfresh. apply NoDup_app. split_and!; [done| |apply NoDup_singleton].
    intros k Hk ->%list_elem_of_singleton. by apply aget_None in Hfresh.
  - intros t2 j2 H2. rewrite aget_aset in H2. destruct (String.eqb_spec t2 (py_uuid4 i)) as [->|Hne].
    + simplify_eq. split; [done|by exists i|done|]. exists r. by rewrite Hidem, lookup_insert_eq.
    + destruct (Hok _ _ H2) as [L (i2 & ? & ?) S (r2 & Hr2 & Hr2')].
      split; [done|exists i2; split; [lia|done]|done|]. exists r2. split; [|done].
      rewrite Hidem, lookup_insert_ne; [done|]. intros [= E1 E2].
      by rewrite E1, E2, Hr2 in Hno.
  - intros t2 j2 H2. rewrite Hjobs, aget_aset. destruct (String.eqb_spec t2 (py_uuid4 i)) as [->|];
      [congruence|]. exists j2. auto.
Qed.

(** ** Programs that touch neither jobs nor receipts *)

Definition same (w w' : A2A) : Prop :=
  jobs w' = jobs w ∧ idem w' = idem w ∧ a_drawn w ≤ a_drawn w'.
Definition quiet {A} (m : AM A) : Prop := ∀ w, same w (m w).1.
Definition sound {A} (m : AM A) : Prop := ∀ w, store_wf w → evolves w (m w).1.

Lemma a2a_quiet_bind {A B} (m : AM A) (f : A → AM B) :
  quiet m → (∀ a, quiet (f a)) → quiet (mbind f m).
Proof.
  intros Hm Hf w. unfold mbind, M_bind. specialize (Hm w).
  destruct (m w) as [w1 [a|x]]; simpl in *; [|done].
  destruct Hm as (E1 & E2 & ?), (Hf a w1) as (E3 & E4 & ?). unfold same.
  rewrite E3, E4. split_and!; [done|done|lia].
Qed.
Lemma quiet_step {A} (m : AM A) :
  (∀ w, jobs (m w).1 = jobs w) → (∀ w, idem (m w).1 = idem w) →
  (∀ w, a_drawn w ≤ a_drawn (m w).1) → quiet m.
Proof. intros H1 H2 H3 w. split; [apply H1|]. split; [apply H2|apply H3]. Qed.
Ltac quiet := repeat first
  [ apply a2a_quiet_bind; [|intros ?] | progress case_match
  | apply quiet_step; intros ?; simpl; first [reflexivity | lia] ].

Lemma quiet_audit e ag st ti ec em pl : quiet (_append_audit_record e ag st ti ec em pl).
Proof. unfold _append_audit_record. quiet. Qed.
Lemma quiet_runtime_audit a b c d e f g h i j : quiet (_append_runtime_audit a b c d e f g h i j).
Proof. unfold _append_runtime_audit. quiet. Qed.
Lemma quiet_error_envelope e a er c t : quiet (_error_result_envelope e a er c t).
Proof. unfold _error_result_envelope, result_envelope. quiet. Qed.
Lemma quiet_success_envelope e a ri rr c : quiet (_success_result_envelope e a ri rr c).
Proof. unfold _success_result_envelope, result_envelope. quiet. Qed.
Lemma quiet_from_idempotency r e a : quiet (_result_from_idempotency cfg r e a).
Proof.
  unfold _result_from_idempotency, _success_result_envelope, _unknown_call_result,
    _error_result_envelope, _in_progress_result_envelope, result_envelope,
    idempotency_slot_is_stale. quiet.
Qed.

Lemma sound_quiet {A} (m : AM A) : quiet m → sound m.
Proof. intros Hm w Hw. destruct (Hm w) as (? & ? & ?). by apply evolves_same. Qed.
Lemma sound_bind {A B} (m : AM A) (f : A → AM B) :
  sound m → (∀ a, sound (f a)) → sound (mbind f m).
Proof.
  intros Hm Hf w Hw. unfold mbind, M_bind. specialize (Hm w Hw).
  destruct (m w) as [w1 [a|x]]; simpl in *; [|done].
  eapply evolves_trans; [done|]. apply Hf, Hm.
Qed.
(** What follows the decisive step is quiet. *)
Lemma evolves_then {A} w w1 (m : AM A) : evolves w w1 → quiet m → evolves w (m w1).1.
Proof. intros He Hq. eapply evolves_trans; [done|]. by apply (sound_quiet _ Hq), He. Qed.

Lemma sound_reserve key scope : sound (reserve_idempotency key scope).
Proof.
  intros w Hw. unfold reserve_idempotency. munfold.
  destruct (idem w !! (scope, key)) as [r|] eqn:E; [by apply evolves_refl|].
  apply evolves_frame; [done|done|simpl; lia| |].
  - intros task j Hj. simpl. rewrite lookup_insert_ne; [done|]. intros [= -> ->].
    destruct (sw_jobs _ Hw _ _ Hj) as [_ _ _ (r & Hr & _)]. congruence.
  - intros sc k r (_ & Hr & _). simpl. rewrite lookup_insert_ne; [done|]. intros [= -> ->].
    congruence.
Qed.

(** The receipt of a call is under a scope that no job has. *)
Lemma sound_finish r st ri rr er :
  String.prefix "call:" (i_scope r) = true → sound (finish_idempotency r st ri rr er).
Proof.
  intros Hp w Hw. unfold finish_idempotency. munfold.
  destruct (idem w !! _) as [r'|] eqn:E; [|by apply evolves_refl].
  case_match; [by apply evolves_refl|]. bsplit.
  apply evolves_frame; [done|done|simpl; lia| |].
  - intros task j Hj. simpl. rewrite lookup_insert_ne; [done|]. intros [= Es _].
    destruct (sw_jobs _ Hw _ _ Hj) as [_ _ Hs _]. rewrite <-Es in Hs. by eapply call_not_job.
  - intros sc k r2 (_ & Hr & Hs). simpl. rewrite lookup_insert_ne; [done|]. intros [= <- <-].
    congruence.
Qed.

Lemma sound_call_begin e : sound (call_begin cfg e).
Proof.
  unfold call_begin. case_match; [by apply sound_quiet; quiet|].
  apply sound_bind; [by apply sound_quiet; quiet|intros _].
  apply sound_bind; [by apply sound_quiet; quiet|intros w0].
  apply sound_bind; [by apply sound_quiet; quiet|intros route].
  case_match; [by apply sound_quiet; quiet|].
  apply sound_bind; [apply sound_reserve|intros [reserved record]].
  case_match; apply sound_quiet, a2a_quiet_bind;
    first [apply quiet_audit | apply quiet_from_idempotency | by intros; quiet].
Qed.

Lemma sound_call_finish e a r o :
  String.prefix "call:" (i_scope r) = true → sound (call_finish cfg e a r o).
Proof.
  intros Hp. unfold call_finish. destruct (call_outcome cfg (en_method e) o) as [[er ri] rr].
  apply sound_bind; [by apply sound_finish|intros fin].
  case_match; [apply sound_quiet, quiet_error_envelope|].
  apply sound_quiet, a2a_quiet_bind.
  - case_match; [apply quiet_error_envelope|apply quiet_success_envelope].
  - intros resp. apply a2a_quiet_bind; [apply quiet_audit|intros; quiet].
Qed.

(** ** Job transitions *)

(** The world after a reading of the clock. *)
Definition tick (w : A2A) : A2A := set_counters (S (a_ticks w)) (a_drawn w) w.

Lemma update_job_eq task p w j :
  aget task (jobs w) = Some j →
  update_job task p w = (set_jobs (aset task (apply_patch p j)) (tick w), Ok (apply_patch p j)).
Proof. intros Hj. unfold update_job. munfold. by rewrite Hj. Qed.

Lemma set_result_eq key scope st ri rr er ti w :
  ∃ w' r, set_idempotency_result key scope st ri rr er ti w = (w', Ok r) ∧
    jobs w' = jobs w ∧ idem w' = <[(scope, key) := r]> (idem w) ∧ a_drawn w' = a_drawn w ∧
    i_status r = st ∧ i_task_id r = ti.
Proof.
  unfold set_idempotency_result, iso_now. munfold. simpl.
  destruct (idem w !! (scope, key)) as [r|]; do 2 eexists; by split_and!.
Qed.

(** An update and the receipt that goes with it. *)
Lemma evolves_update w w1 task j p key scope ri rr er w' r :
  store_wf w → jobs w1 = aset task (apply_patch p j) (jobs w) → idem w1 = idem w →
  a_drawn w ≤ a_drawn w1 →
  aget task (jobs w) = Some j → job_is_terminal j = false →
  (scope, key) = (job_scope j, j_idempotency_key j) →
  str_in (jp_state p) A2A_TERMINAL_JOB_STATES = true →
  set_idempotency_result key scope (jp_state p) ri rr er (Some task) w1 = (w', Ok r) →
  evolves w w' ∧ jobs w' = jobs w1.
Proof.
  intros Hw Ej Ei Hd Hj Hact [= -> ->] Hterm Hset.
  destruct (set_result_eq (j_idempotency_key j) (job_scope j) (jp_state p) ri rr er (Some task) w1)
    as (w2 & r2 & E2 & Hj2 & Hi2 & Hd2 & Hs2 & Ht2).
  rewrite Hset in E2. injection E2 as <- <-. split; [|done].
  eapply (evolves_settle w w' task j (apply_patch p j) r); try done.
  - by rewrite Hj2, Ej.
  - by rewrite Hi2, Ei.
  - lia.
  - rewrite Hs2. unfold receipt_status. cbn [j_state apply_patch]. by rewrite Hterm.
Qed.

Lemma same_tick w : same w (set_counters (S (a_ticks w)) (a_drawn w) w).
Proof. by split_and!. Qed.

Lemma prefix_nil s : String.prefix "" s = true.
Proof. by destruct s. Qed.

Lemma job_scope_prefix e agent :
  en_type e = "job.start" → String.prefix "job.start:" (_idempotency_scope e agent) = true.
Proof. intros He. unfold _idempotency_scope. rewrite He. case_match; simpl; apply prefix_nil. Qed.

Lemma call_scope_prefix e agent :
  en_type e = "call" → String.prefix "call:" (_idempotency_scope e agent) = true.
Proof. intros He. unfold _idempotency_scope. rewrite He. case_match; simpl; apply prefix_nil. Qed.

Lemma prefix_truthy s : String.prefix "job.start:" s = true → truthy s = true.
Proof. by destruct s. Qed.

Lemma reserve_new key scope w :
  idem w !! (scope, key) = None →
  ∃ w1 r, reserve_idempotency key scope w = (w1, Ok (true, r)) ∧ jobs w1 = jobs w ∧
    idem w1 = <[(scope, key) := r]> (idem w) ∧ a_drawn w1 = a_drawn w.
Proof.
  intros E. unfold reserve_idempotency. munfold. rewrite E. simpl. do 2 eexists. by split_and!.
Qed.

Lemma reserve_old key scope w r :
  idem w !! (scope, key) = Some r → reserve_idempotency key scope w = (w, Ok (false, r)).
Proof. intros E. unfold reserve_idempotency. munfold. by rewrite E. Qed.

Lemma sound_start e agent scope :
  String.prefix "job.start:" scope = true → sound (_start_or_replay_job e agent scope).
Proof.
  intros Hp w Hw. unfold _start_or_replay_job.
  destruct (idem w !! (scope, en_idempotency_key e)) as [r|] eqn:E.
  { rewrite (bind_of_Ok _ _ _ _ _ (reserve_old _ _ _ _ E)). cbn [negb].
    repeat case_match; by apply evolves_refl. }
  destruct (reserve_new _ _ _ E) as (w1 & r & Er & Ej & Ei & Ed).
  rewrite (bind_of_Ok _ _ _ _ _ Er). cbn [negb].
  pose (wa := set_counters (a_ticks w1) (S (a_drawn w1)) w1).
  pose (w2 := set_counters (S (a_ticks wa)) (a_drawn wa) wa). pose (task := py_uuid4 (a_drawn w1)).
  rewrite (bind_of_Ok new_uuid _ w1 wa task eq_refl).
  rewrite (bind_of_Ok iso_now _ wa w2 _ eq_refl). set (j := Build_JobRecord _ _ _ _ _ _ _ _ _ _ _ _ _ _ _ _).
  rewrite (bind_of_Ok (create_job j) _ w2 (set_jobs (aset (j_task_id j) j) w2) (j_task_id j) eq_refl).
  destruct (set_result_eq (en_idempotency_key e) scope A2A_IDEMPOTENCY_STATUS_IN_PROGRESS
    None None None (Some task) (set_jobs (aset (j_task_id j) j) w2))
    as (w3 & r3 & E3 & Ej3 & Ei3 & Ed3 & Hs3 & Ht3).
  rewrite (bind_of_Ok _ _ _ _ _ E3).
  assert (job_scope j = scope) as Hsc.
  { unfold job_scope, j. cbn [j_idempotency_scope]. by rewrite prefix_truthy. }
  apply evolves_then; [|apply a2a_quiet_bind; [apply quiet_audit|intros; quiet]].
  apply (evolves_create w w3 (a_drawn w1) j r3); rewrite ?Hsc; try done.
  - lia.
  - rewrite Ed3. simpl. lia.
  - by rewrite Ej3; simpl; rewrite Ej.
  - rewrite Ei3. simpl. rewrite Ei. by rewrite insert_insert_eq.
Qed.

Lemma sound_job_start e : sound (job_start cfg e).
Proof.
  unfold job_start. case_match eqn:Ht; [by apply sound_quiet; quiet|]. bsplit.
  apply sound_bind; [by apply sound_quiet; quiet|intros _].
  apply sound_bind; [by apply sound_quiet; quiet|intros w0].
  apply sound_bind; [by apply sound_quiet; quiet|intros route].
  case_match; [by apply sound_quiet; quiet|].
  apply sound_bind; [by apply sound_start, job_scope_prefix|intros r].
  by apply sound_quiet; quiet.
Qed.

Lemma sound_mark_running e agent task : sound (_mark_job_running e agent task).
Proof.
  intros w Hw. unfold _mark_job_running, get_job. unfold mbind at 1, M_bind at 1, gets at 1.
  destruct (aget task (jobs w)) as [j|] eqn:Hj; [|by apply evolves_refl].
  destruct (job_is_terminal j) eqn:Hact; [by apply evolves_refl|].
  rewrite (bind_of_Ok iso_now _ _ _ _ eq_refl).
  rewrite (bind_of_Ok (update_job task _) _ _ _ _
             (update_job_eq task _ (set_counters _ _ w) j Hj)).
  apply evolves_then; [|apply a2a_quiet_bind; [apply quiet_runtime_audit|intros; quiet]].
  destruct (sw_jobs _ Hw _ _ Hj) as [_ _ _ (r & Hr & Ht & Hs)].
  eapply (evolves_settle w _ task j _ r); try done; simpl.
  - by rewrite insert_id.
  - unfold job_is_terminal in Hact. rewrite Hs. unfold receipt_status. by rewrite Hact.
Qed.

(** The end of a job by its worker. *)
Lemma evolves_end {A} w task j p key ri rr er scope (k : AM A) :
  store_wf w → aget task (jobs w) = Some j → job_is_terminal j = false →
  (scope, key) = (job_scope j, j_idempotency_key j) →
  str_in (jp_state p) A2A_TERMINAL_JOB_STATES = true → quiet k →
  ∀ w0, same w w0 →
  evolves w ((_ ← update_job task p;
              _ ← set_idempotency_result key scope (jp_state p) ri rr er (Some task); k) w0).1.
Proof.
  intros Hw Hj Hact Hkey Hst Hk w0 Hsame. pose proof Hsame as (Ej & _).
  rewrite (bind_of_Ok _ _ _ _ _ (update_job_eq task p w0 j ltac:(by rewrite Ej))).
  destruct (set_result_eq key scope (jp_state p) ri rr er (Some task)
    (set_jobs (aset task (apply_patch p j)) (tick w0))) as (w2 & r2 & E2 & _).
  rewrite (bind_of_Ok _ _ _ _ _ E2). apply evolves_then; [|done].
  destruct Hsame as (_ & Ei & Hd).
  eapply (evolves_update w (set_jobs (aset task (apply_patch p j)) (tick w0))); try done.
  simpl. by rewrite Ej.
Qed.

(** The worker's job, when it is in the store, is under the worker's scope
    and key. *)
Definition owns (w : A2A) (task scope key : string) : Prop :=
  ∀ j, aget task (jobs w) = Some j → job_scope j = scope ∧ j_idempotency_key j = key.

Lemma sound_mark_success e agent task scope res w :
  store_wf w → owns w task scope (en_idempotency_key e) →
  evolves w (_mark_job_success cfg e agent task scope res w).1.
Proof.
  intros Hw Ho. unfold _mark_job_success, get_job. unfold mbind at 1, M_bind at 1, gets at 1.
  destruct (aget task (jobs w)) as [j|] eqn:Hj; [|by apply evolves_refl].
  destruct (job_is_terminal j) eqn:Hact; [by apply evolves_refl|].
  destruct (_store_result_if_needed _ _ _) as [[inline ref]|text]; [|by apply evolves_refl].
  rewrite (bind_of_Ok iso_now _ _ _ _ eq_refl). destruct (Ho j Hj) as [Hs Hk].
  eapply evolves_end; try done; [by rewrite Hs, Hk|].
  apply a2a_quiet_bind; [apply quiet_runtime_audit|intros; quiet].
Qed.

Lemma sound_mark_failed e agent task scope text w :
  store_wf w → owns w task scope (en_idempotency_key e) →
  evolves w (_mark_job_failed e agent task scope text w).1.
Proof.
  intros Hw Ho. unfold _mark_job_failed, get_job. unfold mbind at 1, M_bind at 1, gets at 1.
  destruct (aget task (jobs w)) as [j|] eqn:Hj; [|by apply evolves_refl].
  destruct (job_is_terminal j) eqn:Hact; [by apply evolves_refl|].
  rewrite (bind_of_Ok iso_now _ _ _ _ eq_refl). destruct (Ho j Hj) as [Hs Hk].
  eapply evolves_end; try done; [by rewrite Hs, Hk|apply quiet_runtime_audit].
Qed.

(** Recovery of a job that is in the store touches no other job. *)
Lemma recover_evolves j now w :
  store_wf w → aget (j_task_id j) (jobs w) = Some j →
  evolves w (_recover_stale_job cfg j now w).1 ∧
  ∀ t, t ≠ j_task_id j → aget t (jobs (_recover_stale_job cfg j now w).1) = aget t (jobs w).
Proof.
  intros Hw Hj. unfold _recover_stale_job.
  case_match eqn:Hc; [by split; [apply evolves_refl|]|]. bsplit.
  rewrite (bind_of_Ok iso_now _ w (set_counters (S (a_ticks w)) (a_drawn w) w) _ eq_refl).
  set (w0 := set_counters _ _ _).
  rewrite (bind_of_Ok _ _ _ _ _ (update_job_eq (j_task_id j) _ w0 j Hj)).
  set (p := simple_patch _ _ _ _). set (w1 := set_jobs _ _).
  destruct (set_result_eq (j_idempotency_key j) (job_scope j) A2A_IDEMPOTENCY_STATUS_FAILED None None
    (Some [("code", PStr "STALE_JOB"); ("message", PStr "Job marked failed during recovery due to stale heartbeat")])
    (Some (j_task_id j)) w1) as (w2 & r2 & E2 & _).
  rewrite (bind_of_Ok _ _ _ _ _ E2).
  destruct (evolves_update w w1 (j_task_id j) j p _ _ _ _ _ _ _ Hw eq_refl eq_refl
    ltac:(simpl; lia) Hj ltac:(done) eq_refl eq_refl E2) as [He Ej].
  set (k := mbind _ _). assert (quiet k) as Hq
    by (apply a2a_quiet_bind; [apply quiet_runtime_audit|intros; quiet]).
  split; [by apply evolves_then|]. intros t Ht. destruct (Hq w2) as (-> & _). rewrite Ej.
  simpl. rewrite aget_aset. by rewrite (proj2 (String.eqb_neq _ _) Ht).
Qed.

Lemma recover_rows_evolves now rows : ∀ w,
  store_wf w → NoDup (map j_task_id rows) →
  (∀ j, j ∈ rows → aget (j_task_id j) (jobs w) = Some j) →
  evolves w (recover_rows cfg now rows w).1.
Proof.
  induction rows as [|j rows IH]; intros w Hw Hnd Hin; [by apply evolves_refl|].
  cbn [recover_rows]. unfold mbind at 1, M_bind at 1, gets at 1.
  apply NoDup_cons in Hnd as [Hj Hnd]. set (live := bool_decide _).
  pose (step := if live then mret false else _recover_stale_job cfg j now).
  assert (evolves w (step w).1 ∧ ∀ t, t ≠ j_task_id j → aget t (jobs (step w).1) = aget t (jobs w))
    as [He Hfr].
  { unfold step. destruct live; [by split; [apply evolves_refl|]|].
    apply recover_evolves; [done|]. apply Hin. left. }
  fold step. unfold mbind at 1, M_bind at 1.
  destruct (step w) as [w1 [b|x]]; simpl in *; [|done].
  eapply evolves_trans; [done|].
  assert (evolves w1 (recover_rows cfg now rows w1).1) as H1.
  { apply IH; [apply He|done|]. intros j' Hj'. rewrite Hfr; [apply Hin; by right|].
    intros Heq. apply Hj. rewrite <-Heq. by apply list_elem_of_In, in_map, list_elem_of_In. }
  unfold mbind, M_bind. destruct (recover_rows cfg now rows w1) as [w2 [l|x]]; simpl in *; done.
Qed.

Lemma listed_nodup (p : JobRecord → bool) n w :
  store_wf w →
  NoDup (map j_task_id (take n (List.filter p (map snd (jobs w))))) ∧
  ∀ j, j ∈ take n (List.filter p (map snd (jobs w))) → aget (j_task_id j) (jobs w) = Some j.
Proof.
  intros [Hnd Hok].
  assert (∀ kv, kv ∈ jobs w → aget kv.1 (jobs w) = Some kv.2 ∧ j_task_id kv.2 = kv.1) as Hall.
  { intros [k j] Hin. pose proof (aget_elem _ _ _ Hnd Hin) as Hg. split; [done|]. by apply Hok. }
  split.
  - assert (map j_task_id (map snd (jobs w)) = map fst (jobs w)) as Heq.
    { rewrite map_map. apply map_ext_in. intros kv Hkv%list_elem_of_In. by apply Hall. }
    rewrite <-Heq in Hnd. eapply sublist_NoDup; [exact Hnd|].
    apply (fmap_sublist j_task_id). etrans; [apply sublist_take|].
    generalize (map snd (jobs w)). intros l. induction l as [|x l IH]; simpl; [done|].
    destruct (p x); by constructor.
  - intros j Hj%elem_of_take. destruct Hj as (i & Hi & _).
    apply list_elem_of_lookup_2, filter_elem in Hi as [Hi _].
    apply list_elem_of_In, in_map_iff in Hi as (kv & <- & Hkv%list_elem_of_In).
    destruct (Hall kv Hkv) as [? ->]. done.
Qed.

Lemma sound_recover_stale_jobs : sound (recover_stale_jobs cfg).
Proof.
  intros w Hw. unfold recover_stale_jobs.
  rewrite (bind_of_Ok a_now _ w (set_counters (S (a_ticks w)) (a_drawn w) w) _ eq_refl).
  unfold list_jobs_in. unfold mbind at 1, M_bind at 1, gets at 1.
  set (w1 := set_counters _ _ w). eapply (evolves_trans _ w1); [by apply evolves_same|].
  assert (store_wf w1) as Hw1 by (by apply (evolves_same w)).
  apply recover_rows_evolves; [done|by apply listed_nodup..].
Qed.

Lemma job_status_evolves task w w' res :
  store_wf w → job_status cfg task w = (w', res) →
  evolves w w' ∧ ∀ j, res = Ok j → aget task (jobs w') = Some j.
Proof.
  intros Hw. unfold job_status, get_job. unfold mbind at 1, M_bind at 1, gets at 1.
  destruct (aget task (jobs w)) as [j|] eqn:Hj;
    [|intros [= <- <-]; by split; [apply evolves_refl|]].
  unfold mbind at 1, M_bind at 1, gets at 1.
  case_match; [intros [= <- <-]; split; [by apply evolves_refl|by intros ? [= <-]]|].
  rewrite (bind_of_Ok a_now _ w (set_counters (S (a_ticks w)) (a_drawn w) w) _ eq_refl).
  set (w1 := set_counters _ _ w). assert (evolves w w1) as He1 by (by apply evolves_same).
  assert (j_task_id j = task) as Hl by (by apply (sw_jobs _ Hw)).
  destruct (recover_evolves j (py_clock (a_ticks w)) w1 (ev_wf _ _ He1)) as [He2 _];
    [by rewrite Hl|].
  destruct (_recover_stale_job cfg j (py_clock (a_ticks w)) w1) as [w2 [b|x]] eqn:Er;
    [|rewrite (bind_of_Raise _ _ _ _ _ Er); intros [= <- <-];
      split; [by eapply evolves_trans|done]].
  rewrite (bind_of_Ok _ _ _ _ _ Er). simpl in He2.
  destruct b.
  - unfold mbind at 1, M_bind at 1, gets at 1. intros [= <- <-].
    split; [by eapply evolves_trans|]. intros j' [= <-].
    destruct (ev_jobs _ _ He2 task j Hj) as (j2 & -> & _). done.
  - intros [= <- <-]. split; [by eapply evolves_trans|]. intros j' [= <-].
    unfold _recover_stale_job in Er. case_match; [injection Er as <-; exact Hj|].
    exfalso. munfold. repeat (case_match; simplify_eq).
Qed.

Lemma job_cancel_evolves task w : store_wf w → evolves w (job_cancel cfg task w).1.
Proof.
  intros Hw. unfold job_cancel.
  destruct (job_status cfg task w) as [w1 res] eqn:Es.
  destruct (job_status_evolves _ _ _ _ Hw Es) as [He Hj].
  destruct res as [j|x]; [|by rewrite (bind_of_Raise _ _ _ _ _ Es)].
  rewrite (bind_of_Ok _ _ _ _ _ Es). specialize (Hj j eq_refl).
  case_match eqn:Hact; [done|]. unfold mbind at 1, M_bind at 1, gets at 1.
  rewrite (bind_of_Ok iso_now _ w1 (set_counters (S (a_ticks w1)) (a_drawn w1) w1) _ eq_refl).
  set (w2 := set_counters _ _ _).
  rewrite (bind_of_Ok _ _ _ _ _ (update_job_eq task _ w2 j Hj)).
  set (p := simple_patch _ _ _ _). set (w3 := set_jobs _ _).
  unfold mbind at 1, M_bind at 1, modify at 1. set (w4 := set_live _ _ _ w3).
  destruct (set_result_eq (j_idempotency_key (apply_patch p j)) (job_scope (apply_patch p j))
    A2A_IDEMPOTENCY_STATUS_CANCELED None None
    (Some [("code", PStr "CANCELED"); ("message", PStr "Job canceled")]) (Some task) w4)
    as (w5 & r5 & E5 & _).
  rewrite (bind_of_Ok _ _ _ _ _ E5). eapply evolves_trans; [exact He|].
  apply evolves_then; [|apply a2a_quiet_bind; [apply quiet_runtime_audit|intros; quiet]].
  by apply (evolves_update w1 w4 task j p _ _ _ _ _ _ _ (ev_wf _ _ He) eq_refl eq_refl
    ltac:(simpl; lia) Hj Hact eq_refl eq_refl E5).
Qed.

(** ** The machine *)

(** The job a worker runs is in the store, under the worker's scope and key. *)
Definition owned (w : A2A) (task scope key : string) : Prop :=
  ∃ j, aget task (jobs w) = Some j ∧ job_scope j = scope ∧ j_idempotency_key j = key.
Definition thread_ok (w : A2A) (t : athread) : Prop :=
  match t with
  | TCall _ _ r | TCallHandled _ _ r _ => String.prefix "call:" (i_scope r) = true
  | TJobQueued e _ task scope | TJobMarked e _ task scope _ | TJobRunning e _ task scope
  | TJobHandled e _ task scope _ | TJobSucceeding e _ task scope _ | TJobRaised e _ task scope _
  | TJobFailing e _ task scope _ => owned w task scope (en_idempotency_key e)
  | TJobEnding _ | TDone => True
  end.
Record machine_ok (m : Machine) : Prop := {
  mo_store : store_wf (world m);
  mo_threads : Forall (thread_ok (world m)) (threads m);
}.

Lemma owned_evolves w w' task scope key :
  evolves w w' → owned w task scope key → owned w' task scope key.
Proof.
  intros He (j & Hj & Hs & Hk). destruct (ev_jobs _ _ He _ _ Hj) as (j' & ? & _ & ? & ?).
  exists j'. split; [done|]. split; congruence.
Qed.
Lemma thread_ok_evolves w w' t : evolves w w' → thread_ok w t → thread_ok w' t.
Proof. intros He. destruct t; simpl; eauto using owned_evolves. Qed.
Lemma owned_owns w task scope key : owned w task scope key → owns w task scope key.
Proof. intros (j & Hj & ? & ?) j' Hj'. by simplify_eq. Qed.

Lemma call_begin_scope e w w' agent r :
  call_begin cfg e w = (w', Ok (inr (agent, r))) → String.prefix "call:" (i_scope r) = true.
Proof.
  unfold call_begin. case_match eqn:Ht; [done|]. bsplit. intros Hb.
  msplit Hb as w1 u1 E1. msplit Hb as w2 u2 E2. msplit Hb as w3 route E3.
  case_match; [done|]. msplit Hb as w4 rr E4. destruct rr as [b rec]. destruct b.
  - msplit Hb as w5 u5 E5. unfold mret, M_ret in Hb. simplify_eq.
    apply reserve_fresh in E4 as (_ & _ & -> & _). by apply call_scope_prefix.
  - msplit Hb as w5 u5 E5. unfold mret, M_ret in Hb. simplify_eq.
Qed.

Lemma start_owned e agent scope w w' task :
  String.prefix "job.start:" scope = true →
  _start_or_replay_job e agent scope w = (w', Ok (task, true)) →
  owned w' task scope (en_idempotency_key e).
Proof.
  unfold _start_or_replay_job. intros Hp Hs. msplit Hs as w1 rr E1. destruct rr as [b rec].
  destruct b; cbn [negb] in Hs; [|munfold; repeat (case_match; simplify_eq/=)].
  msplit Hs as w2 t2 E2. msplit Hs as w3 now E3. msplit Hs as w4 t4 E4.
  msplit Hs as w5 r5 E5. msplit Hs as w6 u6 E6. msplit Hs as w7 u7 E7.
  unfold create_job, mbind, M_bind, modify, mret, M_ret in E4. injection E4 as <- _.
  unfold modify in E7. injection E7 as <-. unfold mret, M_ret in Hs. injection Hs as <- <-.
  destruct (set_result_eq (en_idempotency_key e) scope A2A_IDEMPOTENCY_STATUS_IN_PROGRESS
    None None None (Some t2) (set_jobs (aset t2
      {| j_task_id := t2; j_trace_id := en_trace_id e;
         j_idempotency_key := en_idempotency_key e; j_agent_id := agent; j_method := en_method e;
         j_state := A2A_JOB_STATE_PENDING; j_current_step := "queued";
         j_progress := PFloat 0 1 "0.0"; j_result_inline := None; j_result_ref := None;
         j_error := None; j_owner_agent_id := en_from_agent e; j_idempotency_scope := scope;
         j_created_at := now; j_updated_at := now; j_heartbeat_at := now |}) w3))
    as (w5' & r5' & E5' & Ej & _). rewrite E5 in E5'. injection E5' as <- <-.
  pose proof (quiet_audit e (Some agent) A2A_AUDIT_STATUS_JOB_QUEUED (Some t2) None None
    (Some (envelope_to_dict e)) w5) as (Ej6 & _). rewrite E6 in Ej6. simpl in Ej6.
  eexists. unfold owned. simpl. rewrite Ej6, Ej. simpl. rewrite aget_aset, String.eqb_refl.
  split; [done|]. split; [|done]. unfold job_scope. simpl. by rewrite prefix_truthy.
Qed.

Lemma job_start_owned e w w' task agent scope :
  job_start cfg e w = (w', Ok (task, Some (agent, scope))) →
  owned w' task scope (en_idempotency_key e).
Proof.
  unfold job_start. case_match eqn:Ht; [done|]. bsplit. intros Hb.
  msplit Hb as w1 u1 E1. msplit Hb as w2 u2 E2. msplit Hb as w3 route E3.
  case_match; [done|]. msplit Hb as w4 rr E4. destruct rr as [t b].
  unfold mret, M_ret in Hb. destruct b; simplify_eq/=.
  eapply start_owned; [|done]. by apply job_scope_prefix.
Qed.

Lemma advance_ok t o w :
  store_wf w → thread_ok w t →
  evolves w (advance cfg t o w).1 ∧
  thread_ok (advance cfg t o w).1 (advance cfg t o w).2.
Proof.
  intros Hw Ht. pose proof (evolves_refl w Hw) as Hr.
  destruct t; simpl in *; try (split; [done|]; repeat case_match; done).
  - split; [by apply sound_call_finish|done].
  - pose proof (sound_mark_running e agent task_id w Hw) as He.
    repeat case_match; simpl in *; eauto using owned_evolves.
  - pose proof (sound_mark_success e agent task_id scope res w Hw (owned_owns _ _ _ _ Ht)) as He.
    repeat case_match; simpl in *; eauto using owned_evolves.
  - split; [|done]. by apply sound_mark_failed, owned_owns.
  - split; [by apply evolves_same|done].
Qed.

Lemma threads_evolve w w' ts :
  evolves w w' → Forall (thread_ok w) ts → Forall (thread_ok w') ts.
Proof. intros He Ht. eapply Forall_impl; [done|]. intros t. by apply thread_ok_evolves. Qed.

Lemma drop_queued_ok w task ts :
  Forall (thread_ok w) ts → Forall (thread_ok w) (map (drop_queued task) ts).
Proof.
  intros Hts. apply Forall_fmap. eapply Forall_impl; [done|]. intros t Ht. simpl.
  destruct t; simpl in *; try done. by case_match.
Qed.

Lemma sound_register a caps tags jh : sound (register_agent a caps tags jh).
Proof. apply sound_quiet. unfold register_agent. quiet. Qed.

(** A step that leaves the threads as they are, or adds one. *)
Lemma machine_step m w' new :
  machine_ok m → evolves (world m) w' → Forall (thread_ok w') new →
  machine_ok {| world := w'; threads := threads m ++ new |}.
Proof.
  intros [Hw Ht] He Hn. split; simpl; [apply He|]. apply Forall_app.
  split; [by eapply threads_evolve|done].
Qed.
Lemma machine_stay m w' :
  machine_ok m → evolves (world m) w' → machine_ok {| world := w'; threads := threads m |}.
Proof. intros Hm He. rewrite <-(app_nil_r (threads m)). by apply machine_step. Qed.

Lemma serve_ok r m :
  machine_ok m → machine_ok (serve cfg r m) ∧ evolves (world m) (world (serve cfg r m)).
Proof.
  intros Hm. pose proof Hm as [Hw Ht].
  destruct r as [e|e|task|task| |a caps tags jh|i o]; simpl.
  - pose proof (sound_call_begin e (world m) Hw) as He.
    destruct (call_begin cfg e (world m)) as [w [[resp|[agent r]]|x]] eqn:E; simpl in *;
      (split; [|done]); [by apply machine_stay| |by apply machine_stay].
    apply machine_step; [done..|]. apply Forall_singleton. by eapply call_begin_scope.
  - pose proof (sound_job_start e (world m) Hw) as He.
    destruct (job_start cfg e (world m)) as [w [[task [[agent scope]|]]|x]] eqn:E; simpl in *;
      (split; [|done]); [|by apply machine_stay..].
    apply machine_step; [done..|]. apply Forall_singleton. by eapply job_start_owned.
  - destruct (job_status cfg task (world m)) as [w res] eqn:E. unfold run_quiet. rewrite E.
    destruct (job_status_evolves _ _ _ _ Hw E) as [He _]. split; [by apply machine_stay|done].
  - pose proof (job_cancel_evolves task (world m) Hw) as He.
    destruct (job_cancel cfg task (world m)) as [w [[j f]|x]]; simpl in He;
      [case_match|]; (split; [|try done]); try by apply machine_stay.
    + assert (evolves w (run_quiet (_forget_job task) w)) as Hf by (apply evolves_same; [apply He|done..]).
      split; [apply Hf|]. simpl. eapply drop_queued_ok, threads_evolve; [|done].
      by eapply evolves_trans.
    + eapply evolves_trans; [exact He|]. by apply evolves_same; [apply He|..].
  - pose proof (sound_recover_stale_jobs (world m) Hw). split; [by apply machine_stay|done].
  - pose proof (sound_register a caps tags jh (world m) Hw). split; [by apply machine_stay|done].
  - destruct (threads m !! i) as [t|] eqn:Ei; [|split; [done|by apply evolves_refl]].
    assert (thread_ok (world m) t) as Hti by (by eapply Forall_lookup_1).
    destruct (advance_ok t o (world m) Hw Hti) as [He Ht']. simpl. split; [|done].
    split; simpl; [apply He|]. apply Forall_insert; [by eapply threads_evolve|done].
Qed.

Lemma serve_all_ok rs : ∀ m,
  machine_ok m → machine_ok (serve_all cfg rs m) ∧ evolves (world m) (world (serve_all cfg rs m)).
Proof.
  induction rs as [|r rs IH]; intros m Hm; simpl; [split; [done|apply evolves_refl, Hm]|].
  destruct (serve_ok r m Hm) as [Hm1 He1]. destruct (IH _ Hm1) as [Hm2 He2].
  split; [done|]. by eapply evolves_trans.
Qed.

Lemma empty_machine_ok : machine_ok empty_machine.
Proof. split; [split|]; simpl; [constructor|done|constructor]. Qed.

Definition reached (rs : list request) : Machine := serve_all cfg rs empty_machine.

Lemma reached_ok rs : machine_ok (reached rs).
Proof. apply serve_all_ok, empty_machine_ok. Qed.

(** A job that has settled stays as it is. *)
Lemma settled_stays m rs task j :
  machine_ok m → aget task (jobs (world m)) = Some j → job_is_terminal j = true →
  aget task (jobs (world (serve_all cfg rs m))) = Some j.
Proof.
  intros Hm Hj Ht. destruct (serve_all_ok rs m Hm) as [_ He].
  destruct (ev_jobs _ _ He _ _ Hj) as (j' & Hj' & Hsame & _). by rewrite Hj', (Hsame Ht).
Qed.

Lemma set_result_jobs key scope st ri rr er ti w w' res :
  set_idempotency_result key scope st ri rr er ti w = (w', res) → jobs w' = jobs w.
Proof.
  destruct (set_result_eq key scope st ri rr er ti w) as (w1 & r & -> & ? & _).
  by intros [= <- _].
Qed.

(** What a cancellation returns is terminal and is the stored record. *)
Lemma job_cancel_result task w w' j f :
  store_wf w → job_cancel cfg task w = (w', Ok (j, f)) →
  job_is_terminal j = true ∧ aget task (jobs w') = Some j.
Proof.
  intros Hw. unfold job_cancel. intros Hc. msplit Hc as w1 j1 E1.
  destruct (job_status_evolves _ _ _ _ Hw E1) as [He Hj]. specialize (Hj j1 eq_refl).
  case_match eqn:Hact; [unfold mret, M_ret in Hc; by simplify_eq|].
  unfold mbind at 1, M_bind at 1, gets at 1 in Hc.
  msplit Hc as w2 stamp E2. msplit Hc as w3 u E3. msplit Hc as w4 u4 E4.
  msplit Hc as w5 r5 E5. msplit Hc as w6 u6 E6. unfold mret, M_ret in Hc. injection Hc as <- <- <-.
  assert (jobs w2 = jobs w1) as Ej2 by (unfold iso_now, a_now in E2; munfold; by simplify_eq/=).
  rewrite (update_job_eq task _ w2 j1) in E3 by (by rewrite Ej2). injection E3 as <- <-.
  split; [done|]. apply set_result_jobs in E5 as Ej5.
  unfold modify in E4. injection E4 as <-.
  match type of E6 with ?m w5 = _ => assert (quiet m) as Hq by apply quiet_runtime_audit end.
  destruct (Hq w5) as (Ej6 & _). rewrite E6 in Ej6. simpl in Ej6. rewrite Ej6, Ej5. simpl.
  by rewrite aget_aset, String.eqb_refl.
Qed.

(** C7: Whatever requests were served, every job has exactly the receipt under
    its scope and key: the receipt names the job, its status is the job's
    state once the job has settled and IN_PROGRESS before, and no two jobs
    share a scope and key. *)
Theorem receipts_agree_with_jobs (rs : list request) (task : string) (j : JobRecord) :
  aget task (jobs (world (reached rs))) = Some j →
  receipt_agrees (world (reached rs)) task j ∧
  ∀ task' j', aget task' (jobs (world (reached rs))) = Some j' →
    job_scope j' = job_scope j → j_idempotency_key j' = j_idempotency_key j → task' = task.
Proof.
  intros Hj. destruct (reached_ok rs) as [Hw _]. split; [by apply (sw_jobs _ Hw)|].
  intros task' j' Hj' Hs Hk. by eapply job_of_key.
Qed.

(** A job that has succeeded, failed or been cancelled is never changed
    again: not by its worker finishing late, a cancellation, a recovery or a
    retried start. *)
Theorem terminal_jobs_final (rs rs' : list request) (task : string) (j : JobRecord) :
  aget task (jobs (world (reached rs))) = Some j → job_is_terminal j = true →
  aget task (jobs (world (serve_all cfg rs' (reached rs)))) = Some j.
Proof. apply settled_stays, reached_ok. Qed.

(** Once a call has finished, the receipt that its retries are answered
    from never changes again. *)
Theorem call_receipts_final (rs rs' : list request) (scope key : string) (r : IdempotencyRecord) :
  settled_call (world (reached rs)) scope key r →
  settled_call (world (serve_all cfg rs' (reached rs))) scope key r.
Proof. apply (serve_all_ok rs' _ (reached_ok rs)). Qed.

(** A cancellation that returns gives a terminal record, which is the
    stored one and remains it whatever is served afterwards. *)
Theorem cancellation_settles (rs rs' : list request) (task : string) (j : JobRecord) (f : bool) :
  (job_cancel cfg task (world (reached rs))).2 = Ok (j, f) →
  job_is_terminal j = true ∧
  aget task (jobs (world (serve_all cfg (RJobCancel task :: rs') (reached rs)))) = Some j.
Proof.
  intros Hc. pose proof (reached_ok rs) as Hm.
  destruct (serve_ok (RJobCancel task) _ Hm) as [Hm' _].
  destruct (job_cancel cfg task (world (reached rs))) as [w' res] eqn:E. simpl in Hc. subst res.
  destruct (job_cancel_result _ _ _ _ _ (mo_store _ Hm) E) as [Ht Hj]. split; [done|].
  cbn [serve_all]. apply settled_stays; [done| |done]. cbn [serve]. rewrite E. by case_match.
Qed.

(** A job start that is retried under the scope and key of an existing job
    returns that job's id, starts nothing and leaves the stores as they are. *)
Theorem retried_start_returns_job (rs : list request) (task : string) (j : JobRecord)
    (e : Envelope) (d : AgentDescriptor) :
  aget task (jobs (world (reached rs))) = Some j → task ≠ "" →
  en_type e = "job.start" → _validate_envelope e = Ok () →
  resolve (world (reached rs)) e = Ok d → is_allowed (policy cfg) e (ad_agent_id d) = true →
  _idempotency_scope e (ad_agent_id d) = job_scope j →
  en_idempotency_key e = j_idempotency_key j →
  job_start cfg e (world (reached rs)) = (world (reached rs), Ok (task, None)).
Proof.
  intros Hj Hne Ht Hv Hr Ha Hs Hk. destruct (reached_ok rs) as [Hw _].
  destruct (sw_jobs _ Hw _ _ Hj) as [_ _ _ (r & Er & Etask & _)].
  unfold job_start. rewrite Ht, String.eqb_refl. cbn [negb].
  rewrite (bind_lift_Ok _ _ _ _ Hv), bind_get_world, (bind_lift_Ok _ _ _ _ Hr), Ha. cbn [negb].
  unfold _start_or_replay_job. rewrite Hs, Hk. unfold mbind at 1, M_bind at 1.
  rewrite (bind_of_Ok _ _ _ _ _ (reserve_old _ _ _ _ Er)). cbn [negb]. rewrite Etask. simpl.
  by rewrite (proj2 (truthy_true task)).
Qed.
End Jobs.

(** ** Witnesses *)

Definition demo_job (state step : string) (progress : pyval) (result : option dict)
    (created updated : string) : JobRecord :=
  {| j_task_id := "id-0"; j_trace_id := "t"; j_idempotency_key := "k1"; j_agent_id := "bob";
     j_method := "math.add"; j_state := state; j_current_step := step; j_progress := progress;
     j_result_inline := result; j_result_ref := None; j_error := None;
     j_owner_agent_id := "alice"; j_idempotency_scope := "job.start:bob:math.add";
     j_created_at := created; j_updated_at := updated; j_heartbeat_at := updated |}.

Definition demo_done_job : JobRecord :=
  demo_job "SUCCESS" "done" (PFloat 1 1 "1.0") (Some [("sum", PInt 3)])
    (isoformat (py_clock 1)) (isoformat (py_clock 7)).

Lemma receipts_agree_with_jobs_witness :
  receipt_agrees (world (reached demo_a2a demo_job_done)) "id-0" demo_done_job ∧
  ∀ task' j', aget task' (jobs (world (reached demo_a2a demo_job_done))) = Some j' →
    job_scope j' = job_scope demo_done_job →
    j_idempotency_key j' = j_idempotency_key demo_done_job → task' = "id-0".
Proof.
  apply (receipts_agree_with_jobs demo_a2a demo_uuids_distinct). vm_compute. reflexivity.
Defined.

Lemma terminal_jobs_final_witness :
  aget "id-0" (jobs (world (serve_all demo_a2a [RJobCancel "id-0"; RRecover]
    (reached demo_a2a demo_job_done)))) = Some demo_done_job.
Proof.
  apply (terminal_jobs_final demo_a2a demo_uuids_distinct); vm_compute; reflexivity.
Defined.

(** The job is cancelled while its handler runs; the handler's result is
    dropped. *)
Definition demo_job_running : list request :=
  demo_job_queued ++ repeat (RAdvance 0 demo_result) 2.
Lemma cancellation_settles_witness :
  ∃ j, j_state j = "CANCELED" ∧ job_is_terminal j = true ∧
    aget "id-0" (jobs (world (serve_all demo_a2a
      (RJobCancel "id-0" :: repeat (RAdvance 0 demo_result) 4)
      (reached demo_a2a demo_job_running)))) = Some j.
Proof.
  destruct (job_cancel demo_a2a "id-0" (world (reached demo_a2a demo_job_running))) as [w res] eqn:E.
  assert (∃ j f, res = Ok (j, f) ∧ j_state j = "CANCELED") as (j & f & Hr & Hs).
  { change res with (w, res).2. rewrite <-E. clear. do 2 eexists.
    split; vm_compute; reflexivity. }
  exists j. split; [exact Hs|].
  apply (cancellation_settles demo_a2a demo_uuids_distinct _ _ _ _ f). rewrite E. exact Hr.
Defined.

Lemma retried_start_returns_job_witness :
  job_start demo_a2a (demo_envelope "job.start" "math.add" "k1")
    (world (reached demo_a2a demo_job_done)) = (world (reached demo_a2a demo_job_done), Ok ("id-0", None)).
Proof.
  apply (retried_start_returns_job demo_a2a demo_uuids_distinct demo_job_done "id-0" demo_done_job
    _ demo_bob); first [discriminate | vm_compute; reflexivity].
Defined.

(** A call to the agent that has finished. *)
Definition demo_call_done : list request :=
  [RRegister "bob" ["math."] [] false; RCall (demo_envelope "call" "math.add" "k1");
   RAdvance 0 demo_result; RAdvance 0 demo_result].
Definition demo_call_receipt : IdempotencyRecord :=
  {| i_key := "k1"; i_scope := "call:bob:math.add"; i_status := "SUCCESS";
     i_result_inline := Some [("sum", PInt 3)]; i_result_ref := None; i_error := None;
     i_task_id := None; i_created_at := isoformat (py_clock 0);
     i_updated_at := isoformat (py_clock 2) |}.
Lemma call_receipts_final_witness :
  settled_call (world (serve_all demo_a2a
      [RCall (demo_envelope "call" "math.add" "k1"); RAdvance 1 (HException "boom")]
      (reached demo_a2a demo_call_done))) "call:bob:math.add" "k1" demo_call_receipt.
Proof.
  apply (call_receipts_final demo_a2a demo_uuids_distinct).
  split; [vm_compute; reflexivity|]. split; [vm_compute; reflexivity|discriminate].
Defined.

(** The handlers do run. *)
Example demo_handlers_run :
  invocations demo_a2a demo_job_done empty_machine = [("job.start:bob:math.add", "k1")] ∧
  invocations demo_a2a demo_call_done empty_machine = [("call:bob:math.add", "k1")].
Proof. split; vm_compute; reflexivity. Qed.
