(* ===== verification/A2ACalls.v ===== *)
(** Admission, calls and policy of the agent-to-agent runtime: a request that
    is not admitted is refused without effect, a finished call is replayed to
    its retries without running the handler, and the last matching rule of the
    policy decides. *)

From S2P Require Import Prelude PyValue Timestamps PolicyModels PolicyStore Demo A2AModels A2ARuntime A2AOnce A2AJobs.

#[local] Arguments isoformat : simpl never.
#[local] Arguments envelope_to_dict : simpl never.

Section Calls.
Context {Env : PyEnv} {Uuid : UuidSyntax}.
Variable cfg : A2AConfig.

(** ** Admission *)

(** The envelope has the operation's type and is valid, and it is routed to an
    agent that has a handler and that the policy lets it reach. *)
Record admitted (type : string) (e : Envelope) (w : A2A) (d : AgentDescriptor) : Prop := {
  ad_type : en_type e = type;
  ad_valid : _validate_envelope e = Ok ();
  ad_route : resolve w e = Ok d;
  ad_policy : is_allowed (policy cfg) e (ad_agent_id d) = true;
}.

Lemma resolve_has_handler w e d : resolve w e = Ok d → ad_agent_id d ∈ handlers w.
Proof.
  unfold resolve, _resolve_target_agent. repeat (case_match; try discriminate); intros [= ->].
  - match goal with H : List.find _ _ = _ |- _ => apply find_elem in H as [_ H] end. bsplit.
    match goal with H : bool_decide _ = true |- _ => apply bool_decide_eq_true in H end. congruence.
  - match goal with H : List.find _ _ = _ |- _ => apply find_elem in H as [_ H] end. bsplit.
    by eapply bool_decide_eq_true.
Qed.

Lemma call_begin_admitted e w d :
  admitted "call" e w d →
  call_begin cfg e w =
    (r ← reserve_idempotency (en_idempotency_key e) (_idempotency_scope e (ad_agent_id d));
     let '(reserved, record) := r in
     if (reserved : bool) then
       _ ← _append_audit_record e (Some (ad_agent_id d)) A2A_AUDIT_STATUS_CALL_RECEIVED None None
             None (Some (envelope_to_dict e));
       mret (inr (ad_agent_id d, record))
     else
       resp ← _result_from_idempotency cfg record e (ad_agent_id d);
       mret (inl resp)) w.
Proof.
  intros [Ht Hv Hr Ha]. unfold call_begin. rewrite Ht, String.eqb_refl. cbn [negb].
  by rewrite (bind_lift_Ok _ _ _ _ Hv), bind_get_world, (bind_lift_Ok _ _ _ _ Hr), Ha.
Qed.

(** The checks of [call] and [job_start] up to the stores. *)
Lemma refused {A} type e w (x1 : a2a_exn) (x2 : AgentDescriptor → a2a_exn)
    (k : AgentDescriptor → AM A) :
  (∀ d, ¬ admitted type e w d) →
  ∃ x, (if negb (String.eqb (en_type e) type) then raise x1
        else _ ← lift_result (_validate_envelope e); w ← get_world;
             route ← lift_result (resolve w e);
             if negb (is_allowed (policy cfg) e (ad_agent_id route)) then raise (x2 route)
             else k route) w = (w, Raise x).
Proof.
  intros Hno. destruct (String.eqb_spec (en_type e) type) as [Ht|]; [|by eexists]. cbn [negb].
  destruct (_validate_envelope e) as [[]|x] eqn:Hv; [|by eexists].
  rewrite (bind_lift_Ok _ _ _ () eq_refl), bind_get_world.
  destruct (resolve w e) as [d|x] eqn:Hr; [|by eexists].
  rewrite (bind_lift_Ok _ _ _ d eq_refl).
  destruct (is_allowed (policy cfg) e (ad_agent_id d)) eqn:Ha; [|by eexists].
  destruct (Hno d). by split.
Qed.

(** A call or a job start whose envelope has another type, is invalid, has
    no route to an agent with a handler, or is denied by the policy raises and
    changes nothing: no receipt, no job, no audit record, no thread. *)
Theorem unadmitted_requests_refused (e : Envelope) (w : A2A) :
  ((∀ d, ¬ admitted "call" e w d) → ∃ x, call_begin cfg e w = (w, Raise x)) ∧
  ((∀ d, ¬ admitted "job.start" e w d) → ∃ x, job_start cfg e w = (w, Raise x)) ∧
  (∀ type d, admitted type e w d → ad_agent_id d ∈ handlers w).
Proof.
  split; [|split].
  - intros Hno. unfold call_begin. by apply refused.
  - intros Hno. unfold job_start. by apply refused.
  - intros type d Hd. eapply resolve_has_handler, Hd.
Qed.

(** ** Replay *)

(** The parameters of a response, marked as a cached one. *)
Definition as_cached (params : dict) : dict :=
  map (λ kv, if String.eqb kv.1 "cached" then (kv.1, PBool true) else kv) params.

Lemma result_envelope_params req agent params meta w :
  ∃ w' resp, result_envelope req agent params meta w = (w', Ok resp) ∧ en_params resp = params ∧
    jobs w' = jobs w ∧ idem w' = idem w.
Proof.
  unfold result_envelope, new_uuid, iso_now, a_now. munfold.
  destruct (truthy (en_trace_id req)); simpl; do 2 eexists; by split_and!.
Qed.

(** The receipt that [call_finish] writes. *)
Definition finished_receipt (method : string) (o : handler_outcome) (r : IdempotencyRecord) : Prop :=
  let '(error, inline, ref) := call_outcome cfg method o in
  i_result_inline r = inline ∧ i_result_ref r = ref ∧ i_error r = error ∧ i_task_id r = None ∧
  i_status r = match error with Some _ => A2A_IDEMPOTENCY_STATUS_FAILED
                              | None => A2A_IDEMPOTENCY_STATUS_SUCCESS end.

Lemma finish_reserved key scope w w1 r st ri rr er :
  idem w !! (scope, key) = None → reserve_idempotency key scope w = (w1, Ok (true, r)) →
  ∀ w2, idem w2 = idem w1 →
  ∃ w3 r', finish_idempotency r st ri rr er w2 = (w3, Ok true) ∧
    idem w3 = <[(scope, key) := r']> (idem w2) ∧ jobs w3 = jobs w2 ∧
    i_result_inline r' = ri ∧ i_result_ref r' = rr ∧ i_error r' = er ∧ i_task_id r' = None ∧
    i_status r' = st.
Proof.
  intros Hno. unfold reserve_idempotency, iso_now, a_now. munfold. rewrite Hno.
  intros [= <- <-] w2 E2. simpl in *. generalize dependent (isoformat (py_clock (a_ticks w))).
  intros stamp E2. eassert (idem w2 !! (scope, key) = Some _) as Hl
    by (rewrite E2; apply lookup_insert_eq).
  unfold finish_idempotency, iso_now, a_now. munfold. simpl. rewrite Hl. simpl.
  rewrite String.eqb_refl. simpl. do 2 eexists. by split_and!.
Qed.

(** The parameters of the answer that a call's receipt stands for. *)
Definition receipt_params (r : IdempotencyRecord) (cached : bool) : dict :=
  match i_error r with
  | Some err => [("ok", PBool false); ("status", default (PStr "FAILED") (dget err "code"));
                 ("cached", PBool cached); ("error", PDict err)]
  | None => [("ok", PBool true); ("status", PStr A2A_IDEMPOTENCY_STATUS_SUCCESS);
             ("cached", PBool cached);
             ("data", PDict match i_result_inline r with
                      | Some d => d
                      | None => if otruthy (i_result_ref r)
                                then [("result_ref", ostr_val (i_result_ref r))] else []
                      end)]
  end.

(** The world after an audit record. *)
Definition audited e ag st ti ec em pl (w : A2A) : A2A :=
  (_append_audit_record e ag st ti ec em pl w).1.
Lemma audit_eq e ag st ti ec em pl w :
  _append_audit_record e ag st ti ec em pl w = (audited e ag st ti ec em pl w, Ok ()).
Proof. done. Qed.

(** A call that runs its handler leaves its receipt and answers from it. *)
Lemma call_runs e o w d :
  admitted "call" e w d →
  let scope := _idempotency_scope e (ad_agent_id d) in
  idem w !! (scope, en_idempotency_key e) = None →
  ∃ w' resp r, call cfg e o w = (w', Ok resp) ∧
    idem w' !! (scope, en_idempotency_key e) = Some r ∧ finished_receipt (en_method e) o r ∧
    en_params resp = receipt_params r false.
Proof.
  intros Hd scope Hno. unfold call. unfold mbind at 1, M_bind at 1.
  rewrite (call_begin_admitted e w d Hd).
  destruct (reserve_new _ _ _ Hno) as (w1 & r1 & E1 & _).
  rewrite (bind_of_Ok _ _ _ _ _ E1). cbn [fst snd].
  rewrite (bind_of_Ok _ _ _ _ _ (audit_eq _ _ _ _ _ _ _ _)). set (w2 := audited _ _ _ _ _ _ _ w1).
  unfold mret at 1, M_ret at 1. unfold call_finish.
  unfold finished_receipt. destruct (call_outcome cfg (en_method e) o) as [[er ri] rr] eqn:Eo.
  destruct (finish_reserved _ _ _ _ _
    (if match er with Some _ => true | None => false end
     then A2A_IDEMPOTENCY_STATUS_FAILED else A2A_IDEMPOTENCY_STATUS_SUCCESS) ri rr er
    Hno E1 w2 eq_refl) as (w3 & r3 & E3 & Ei3 & _ & Hri & Hrr & Her & Hti & Hst).
  rewrite (bind_of_Ok _ _ _ _ _ E3). cbn [negb].
  assert (idem w3 !! (scope, en_idempotency_key e) = Some r3) as Hr3
    by (by rewrite Ei3, lookup_insert_eq).
  destruct er as [err|]; cbn [negb].
  - destruct (result_envelope_params e (ad_agent_id d)
      ([("ok", PBool false); ("status", default (PStr "FAILED") (dget err "code"));
        ("cached", PBool false); ("error", PDict err)] ++ []) [("cached", PBool false); ("error", PBool true)] w3)
      as (w4 & resp & E4 & Hp & _ & Ei4).
    rewrite (bind_of_Ok _ _ _ _ _ E4), (bind_of_Ok _ _ _ _ _ (audit_eq _ _ _ _ _ _ _ _)).
    eexists _, resp, r3. split; [done|]. unfold receipt_params. simpl. rewrite Ei4, Her. by split_and!.
  - match goal with |- context [_success_result_envelope ?a ?b ?c ?d ?f] =>
      unfold _success_result_envelope at 1 end.
    match goal with |- context [mbind _ (result_envelope ?a ?b ?c ?m)] =>
      destruct (result_envelope_params a b c m w3) as (w4 & resp & E4 & Hp & _ & Ei4) end.
    rewrite (bind_of_Ok _ _ _ _ _ E4), (bind_of_Ok _ _ _ _ _ (audit_eq _ _ _ _ _ _ _ _)).
    eexists _, resp, r3. split; [done|]. unfold receipt_params. simpl.
    rewrite Ei4, Her, Hri, Hrr. by split_and!.
Qed.

Lemma call_error_nonempty method o err inline ref :
  call_outcome cfg method o = (Some err, inline, ref) → ∃ x rest, err = x :: rest.
Proof.
  unfold call_outcome. destruct o as [res|code msg details|text]; [|by intros [= <- _ _]; eauto..].
  destruct (_store_result_if_needed cfg res method) as [[? ?]|?]; [done|].
  intros [= <- _ _]. eauto.
Qed.

(** A retry answers from the finished receipt, whatever the handler would do. *)
Lemma call_replays e o w d method o0 r :
  admitted "call" e w d →
  idem w !! (_idempotency_scope e (ad_agent_id d), en_idempotency_key e) = Some r →
  finished_receipt method o0 r →
  ∃ w' resp, call cfg e o w = (w', Ok resp) ∧ en_params resp = receipt_params r true ∧
    idem w' = idem w ∧ jobs w' = jobs w.
Proof.
  intros Hd Hr Hf. unfold call. unfold mbind at 1, M_bind at 1.
  rewrite (call_begin_admitted e w d Hd), (bind_of_Ok _ _ _ _ _ (reserve_old _ _ _ _ Hr)).
  unfold _result_from_idempotency, receipt_params. unfold finished_receipt in Hf.
  destruct (call_outcome cfg method o0) as [[er ri] rr] eqn:Eo.
  destruct Hf as (Hri & Hrr & Her & Hti & Hst). rewrite Hst, Her, Hti.
  destruct er as [err|]; simpl.
  - destruct (call_error_nonempty _ _ _ _ _ Eo) as (x & rest & ->).
    unfold _error_result_envelope.
    match goal with |- context [mbind _ (result_envelope ?a ?b ?c ?m)] =>
      destruct (result_envelope_params a b c m w) as (w4 & resp & E4 & Hp & Ej & Ei) end.
    rewrite (bind_of_Ok _ _ _ _ _ E4). exists w4, resp. by split_and!.
  - unfold _success_result_envelope.
    match goal with |- context [mbind _ (result_envelope ?a ?b ?c ?m)] =>
      destruct (result_envelope_params a b c m w) as (w4 & resp & E4 & Hp & Ej & Ei) end.
    rewrite (bind_of_Ok _ _ _ _ _ E4). exists w4, resp. by split_and!.
Qed.

Lemma receipt_params_cached r : receipt_params r true = as_cached (receipt_params r false).
Proof. unfold receipt_params. by destruct (i_error r). Qed.

(** A call that ran its handler is answered to every later admitted call
    under its scope and key with the same status, data or error, marked as
    cached; the retry writes no receipt and does not depend on what the
    handler would do. *)
Theorem finished_call_replayed (e e2 : Envelope) (o o2 : handler_outcome) (w w2 : A2A)
    (d d2 : AgentDescriptor) :
  admitted "call" e w d →
  let k := (_idempotency_scope e (ad_agent_id d), en_idempotency_key e) in
  idem w !! k = None →
  admitted "call" e2 w2 d2 →
  (_idempotency_scope e2 (ad_agent_id d2), en_idempotency_key e2) = k →
  idem w2 !! k = idem (call cfg e o w).1 !! k →
  ∃ resp resp2, (call cfg e o w).2 = Ok resp ∧ (call cfg e2 o2 w2).2 = Ok resp2 ∧
    en_params resp2 = as_cached (en_params resp) ∧
    idem (call cfg e2 o2 w2).1 = idem w2 ∧ jobs (call cfg e2 o2 w2).1 = jobs w2.
Proof.
  intros Hd k Hno Hd2 Hk Hsame. unfold k in *.
  destruct (call_runs e o w d Hd Hno) as (w' & resp & r & Ec & Hr & Hf & Hp).
  rewrite Ec in *. cbn [fst snd] in *. rewrite Hr, <-Hk in Hsame.
  destruct (call_replays e2 o2 w2 d2 _ _ r Hd2 Hsame Hf) as (w'' & resp2 & -> & Hp2 & Hi & Hj).
  exists resp, resp2. split_and!; try done. by rewrite Hp2, Hp, receipt_params_cached.
Qed.
End Calls.

(** ** Policy *)

Lemma fold_last_match {A B} (p : A → bool) (g : A → B) (l : list A) (z : B) :
  fold_left (λ acc x, if p x then g x else acc) l z =
  match last (List.filter p l) with Some x => g x | None => z end.
Proof.
  revert z. induction l as [|x l IH]; intros z; simpl; [done|].
  rewrite IH. destruct (p x); [|done]. rewrite last_cons. by destruct (last (List.filter p l)).
Qed.

Lemma fold_left_over_map {A B C} (f : C → B → C) (g : A → B) (l : list A) (z : C) :
  fold_left f (map g l) z = fold_left (λ acc x, f acc (g x)) l z.
Proof. revert z. induction l as [|x l IH]; intros z; simpl; [done|]. apply IH. Qed.

(** The rule entries of a configuration; entries that are not mappings are
    skipped. *)
Definition rule_entries (raw_rules : list pyval) : list dict :=
  concat (map (λ v, match v with PDict d => [d] | _ => [] end) raw_rules).

(** What a rule entry asks for: only the word [allow] allows. *)
Definition entry_allows (raw : dict) : bool :=
  String.eqb (py_lower (py_str (default (PStr "deny") (dget raw "action")))) "allow".

Lemma rules_of_entries raw_rules :
  concat (map (λ v, match v with PDict d => [rule_from_config d] | _ => [] end) raw_rules) =
  map rule_from_config (rule_entries raw_rules).
Proof.
  unfold rule_entries. induction raw_rules as [|v l IH]; simpl; [done|].
  rewrite map_app, IH. by destruct v.
Qed.

Lemma normalized_action_allow v :
  String.eqb (_normalized_action v) "allow" = String.eqb (py_lower (py_str v)) "allow".
Proof.
  unfold _normalized_action. destruct (str_in _ _) eqn:E; [done|].
  destruct (String.eqb_spec (py_lower (py_str v)) "allow") as [Heq|]; [|done].
  by rewrite Heq in E.
Qed.

(** A configured policy is decided by the last entry that matches the
    envelope and the agent: it allows exactly when that entry's action is
    [allow] (an unknown or missing action denies), and with no matching entry
    exactly when the default is not [deny]. *)
Theorem last_matching_rule_decides (default_action : string) (raw_rules : list pyval)
    (e : Envelope) (agent : string) :
  is_allowed (policy_from_config default_action raw_rules) e agent =
  match last (List.filter (λ raw, rule_matches_envelope (rule_from_config raw) e agent)
                (rule_entries raw_rules)) with
  | Some raw => entry_allows raw
  | None => negb (String.eqb (py_lower default_action) "deny")
  end.
Proof.
  unfold is_allowed, policy_from_config, new_PolicyEngine. cbn [pe_rules pe_default_action].
  rewrite rules_of_entries, fold_left_over_map.
  rewrite (fold_last_match (λ raw, rule_matches_envelope (rule_from_config raw) e agent)
             (λ raw, pr_action (rule_from_config raw))).
  destruct (last _) as [raw|].
  - apply normalized_action_allow.
  - unfold A2A_POLICY_ACTION_DENY. by destruct (String.eqb (py_lower default_action) "deny").
Qed.

(** ** Witnesses *)

Definition demo_ready : A2A := world (reached demo_a2a [RRegister "bob" ["math."] [] false]).
Definition demo_call : Envelope := demo_envelope "call" "math.add" "k1".

Lemma finished_call_replayed_witness :
  ∃ resp resp2, (call demo_a2a demo_call demo_result demo_ready).2 = Ok resp ∧
    (call demo_a2a demo_call (HException "boom") (call demo_a2a demo_call demo_result demo_ready).1).2
      = Ok resp2 ∧
    en_params resp2 = as_cached (en_params resp) ∧
    idem (call demo_a2a demo_call (HException "boom")
            (call demo_a2a demo_call demo_result demo_ready).1).1 =
      idem (call demo_a2a demo_call demo_result demo_ready).1 ∧
    jobs (call demo_a2a demo_call (HException "boom")
            (call demo_a2a demo_call demo_result demo_ready).1).1 =
      jobs (call demo_a2a demo_call demo_result demo_ready).1.
Proof.
  apply (finished_call_replayed demo_a2a demo_call demo_call demo_result (HException "boom")
    demo_ready _ demo_bob demo_bob).
  - split; vm_compute; reflexivity.
  - vm_compute. reflexivity.
  - split; vm_compute; reflexivity.
  - reflexivity.
  - reflexivity.
Defined.
