(* ===== verification/IsoText.v ===== *)
(** Reading back the text of a UTC instant: a reader of the format
    [isoformat] writes, and the proof that it inverts [isoformat] on the whole
    range of [datetime].  It instantiates [datetime.fromisoformat] in concrete
    environments; general statements only assume [iso_reads_back]. *)

From S2P Require Import Prelude PyValue Timestamps PyText.
From Stdlib Require Import Ascii.

Local Open Scope Z_scope.

(** A decimal field of width [w] and the text after it. *)
Fixpoint read_digits (w : nat) (acc : Z) (s : string) : option (Z * string) :=
  match w, s with
  | O, _ => Some (acc, s)
  | S w', String c s' => if is_digit c then read_digits w' (10 * acc + digit_val c) s' else None
  | S _, EmptyString => None
  end.
Definition read_char (c : ascii) (s : string) : option string :=
  match s with String d s' => if Ascii.eqb d c then Some s' else None | EmptyString => None end.

(** A field and the separator after it. *)
Definition read_field (w : nat) (sep : ascii) (s : string) : option (Z * string) :=
  match read_digits w 0 s with
  | Some (n, s') => match read_char sep s' with Some s'' => Some (n, s'') | None => None end
  | None => None
  end.

Definition days_before_month (leap : bool) (m : Z) : Z :=
  foldr Z.add 0 (take (Z.to_nat (m - 1)) (month_lengths leap)).

(** [YYYY-MM-DDTHH:MM:SS[.ffffff]+00:00] *)
Definition read_iso (s : string) : option Z :=
  '(y, s) ← read_field 4 "-"%char s;
  '(m, s) ← read_field 2 "-"%char s;
  '(d, s) ← read_field 2 "T"%char s;
  '(hh, s) ← read_field 2 ":"%char s;
  '(mi, s) ← read_field 2 ":"%char s;
  '(ss, s) ← read_digits 2 0 s;
  '(us, s) ← match read_char "."%char s with
             | Some s' => read_digits 6 0 s'
             | None => Some (0, s)
             end;
  if String.eqb s "+00:00" then
    Some ((days_before_year y + days_before_month (is_leap y) m + d - 1) * us_per_day
          + (hh * 3600 + mi * 60 + ss) * 1000000 + us)
  else None.

(** The law of [datetime.fromisoformat] that the scheduling code relies on. *)
Definition iso_reads_back `{PyEnv} : Prop :=
  ∀ t, instant_ok t → py_fromisoformat (isoformat t) = Some (t, Some 0).

Lemma digit_char_read d :
  0 ≤ d < 10 → is_digit (digit_char d) = true ∧ digit_val (digit_char d) = d.
Proof.
  intros Hd. assert (d ∈ [0; 1; 2; 3; 4; 5; 6; 7; 8; 9]) as Hin by (rewrite !elem_of_cons; lia).
  repeat (apply elem_of_cons in Hin as [->|Hin]; [by split|]). by apply elem_of_nil in Hin.
Qed.

Lemma read_digits_app w n acc s :
  0 ≤ n < 10 ^ Z.of_nat w →
  read_digits w acc (digits w n +:+ s) = Some (acc * 10 ^ Z.of_nat w + n, s).
Proof.
  revert n acc. induction w as [|w IH]; intros n acc Hn.
  { change (10 ^ Z.of_nat 0) with 1 in *. simpl. do 2 f_equal. lia. }
  rewrite Nat2Z.inj_succ, Z.pow_succ_r in * by lia.
  assert (0 < 10 ^ Z.of_nat w) as Hk by lia.
  change (digits (S w) n +:+ s) with
    (String (digit_char (n / 10 ^ Z.of_nat w)) (digits w (n mod 10 ^ Z.of_nat w) +:+ s)).
  cbn [read_digits].
  destruct (digit_char_read (n / 10 ^ Z.of_nat w)) as [-> ->];
    [split; [apply Z.div_pos; lia|apply Z.div_lt_upper_bound; lia]|].
  rewrite IH by (apply Z.mod_pos_bound; lia). do 2 f_equal.
  rewrite (Z_div_mod_eq_full n (10 ^ Z.of_nat w)) at 3. lia.
Qed.

Lemma read_field_app w n sep s :
  0 ≤ n < 10 ^ Z.of_nat w →
  read_field w sep (digits w n +:+ String sep "" +:+ s) = Some (n, s).
Proof.
  intros Hn. unfold read_field. rewrite read_digits_app by done. simpl.
  by rewrite Ascii.eqb_refl.
Qed.

Lemma month_scan_inv m doy lens :
  0 ≤ doy →
  doy = foldr Z.add 0 (take (Z.to_nat ((month_scan m doy lens).1 - m)) lens)
        + (month_scan m doy lens).2 - 1.
Proof.
  revert m doy. induction lens as [|len lens IH]; intros m doy Hd; simpl.
  { rewrite take_nil. simpl. lia. }
  destruct (Z.ltb_spec doy len); simpl.
  - rewrite Z.sub_diag. simpl. lia.
  - pose proof (month_scan_ge (m + 1) (doy - len) lens) as Hge.
    specialize (IH (m + 1) (doy - len) ltac:(lia)).
    replace (Z.to_nat ((month_scan (m + 1) (doy - len) lens).1 - m))
      with (S (Z.to_nat ((month_scan (m + 1) (doy - len) lens).1 - (m + 1)))) by lia.
    simpl. lia.
Qed.

Lemma month_scan_le m doy lens : (month_scan m doy lens).1 ≤ m + Z.of_nat (length lens).
Proof.
  revert m doy. induction lens as [|len lens IH]; intros m doy; simpl; [lia|].
  destruct (doy <? len); simpl; [lia|]. specialize (IH (m + 1) (doy - len)). lia.
Qed.

Lemma days_before_month_day (leap : bool) doy :
  0 ≤ doy → days_before_month leap (month_day leap doy).1 + (month_day leap doy).2 - 1 = doy.
Proof.
  intros H. unfold days_before_month, month_day.
  pose proof (month_scan_inv 1 doy (removelast (month_lengths leap)) H) as E.
  pose proof (month_scan_le 1 doy (removelast (month_lengths leap))) as L.
  pose proof (month_scan_ge 1 doy (removelast (month_lengths leap))) as G.
  set (p := month_scan 1 doy (removelast (month_lengths leap))) in *.
  change (length (removelast (month_lengths leap))) with 11%nat in L.
  replace (take (Z.to_nat (p.1 - 1)) (month_lengths leap))
    with (take (Z.to_nat (p.1 - 1)) (removelast (month_lengths leap))); [lia|].
  change (month_lengths leap) with (removelast (month_lengths leap) ++ [31]).
  rewrite take_app_le; [done|]. change (length (removelast _)) with 11%nat. lia.
Qed.

(** The date fields of a day in range. *)
Lemma date_fields n :
  0 ≤ n < 3652059 →
  let y := year_of_day n in let md := month_day (is_leap y) (n - days_before_year y) in
  0 ≤ y < 10 ^ Z.of_nat 4 ∧ 0 ≤ md.1 < 10 ^ Z.of_nat 2 ∧ 0 ≤ md.2 < 10 ^ Z.of_nat 2 ∧
  days_before_year y + days_before_month (is_leap y) md.1 + md.2 - 1 = n.
Proof.
  intros H. cbv zeta. pose proof (year_of_day_bounds n H). pose proof (year_of_day_spec n).
  pose proof (month_day_bounds (is_leap (year_of_day n)) (n - days_before_year (year_of_day n))
    ltac:(rewrite <-year_length; lia)) as [Hm Hd].
  pose proof (days_before_month_day (is_leap (year_of_day n)) (n - days_before_year (year_of_day n))
    ltac:(lia)).
  change (10 ^ Z.of_nat 4) with 10000. change (10 ^ Z.of_nat 2) with 100. lia.
Qed.

Lemma time_fields r :
  0 ≤ r < us_per_day →
  0 ≤ r / 1000000 / 3600 < 10 ^ Z.of_nat 2 ∧ 0 ≤ r / 1000000 mod 3600 / 60 < 10 ^ Z.of_nat 2 ∧
  0 ≤ r / 1000000 mod 3600 mod 60 < 10 ^ Z.of_nat 2 ∧
  (r / 1000000 / 3600 * 3600 + r / 1000000 mod 3600 / 60 * 60 + r / 1000000 mod 3600 mod 60)
    * 1000000 + r mod 1000000 = r.
Proof.
  intros H. unfold us_per_day in H. change (10 ^ Z.of_nat 2) with 100.
  Z.to_euclidean_division_equations; lia.
Qed.

(** [fromisoformat(isoformat(t)) = t] *)
Lemma read_iso_isoformat t : instant_ok t → read_iso (isoformat t) = Some t.
Proof.
  intros Ht. unfold instant_ok, max_instant in Ht. assert (0 < us_per_day) as Hd by done.
  assert (0 ≤ t / us_per_day < 3652059) as HT by (split;
    [apply Z.div_pos|apply Z.div_lt_upper_bound]; lia).
  destruct (date_fields _ HT) as (Hy & Hm & Hday & Edate).
  destruct (time_fields (t mod us_per_day) (Z.mod_pos_bound _ _ Hd)) as (Hh & Hmi & Hs & Etime).
  pose proof (Z.mod_pos_bound (t mod us_per_day) 1000000 ltac:(lia)) as Hus.
  unfold isoformat, read_iso. cbv zeta in *.
  change "-" with (String "-"%char ""). change "T" with (String "T"%char "").
  change ":" with (String ":"%char "").
  rewrite read_field_app by done. cbn [mbind option_bind].
  rewrite read_field_app by done. cbn [mbind option_bind].
  rewrite read_field_app by done. cbn [mbind option_bind].
  rewrite read_field_app by done. cbn [mbind option_bind].
  rewrite read_field_app by done. cbn [mbind option_bind].
  rewrite read_digits_app by done. cbn [mbind option_bind].
  rewrite !Z.mul_0_l, !Z.add_0_l. rewrite Edate.
  destruct (Z.eqb_spec (t mod us_per_day mod 1000000) 0) as [E0|E0].
  - change (read_char "."%char ("" +:+ "+00:00")) with (@None string).
    cbn [mbind option_bind]. change (String.eqb ("" +:+ "+00:00") "+00:00") with true.
    cbv match. f_equal. pose proof (Z_div_mod_eq_full t us_per_day). lia.
  - rewrite str_app_assoc.
    change (read_char "."%char ("." +:+ ?x)) with (Some x). cbv match.
    rewrite read_digits_app by done. cbn [mbind option_bind]. rewrite String.eqb_refl.
    f_equal. pose proof (Z_div_mod_eq_full t us_per_day). lia.
Qed.

(** ** The characters of a timestamp *)

Definition iso_char (c : ascii) : bool := is_digit c || str_mem c "-T:.+".

Lemma digits_all w n : 0 ≤ n < 10 ^ Z.of_nat w → str_all iso_char (digits w n) = true.
Proof.
  revert n. induction w as [|w IH]; intros n Hn; [done|].
  rewrite Nat2Z.inj_succ, Z.pow_succ_r in * by lia.
  assert (0 < 10 ^ Z.of_nat w) as Hk by lia. cbn [digits str_all]. unfold iso_char at 1.
  rewrite (proj1 (digit_char_read (n / 10 ^ Z.of_nat w)
    ltac:(split; [apply Z.div_pos; lia|apply Z.div_lt_upper_bound; lia]))).
  apply IH, Z.mod_pos_bound. lia.
Qed.

Lemma isoformat_chars t : instant_ok t → str_all iso_char (isoformat t) = true.
Proof.
  intros Ht. unfold instant_ok, max_instant in Ht. assert (0 < us_per_day) as Hd by done.
  assert (0 ≤ t / us_per_day < 3652059) as HT by (split;
    [apply Z.div_pos|apply Z.div_lt_upper_bound]; lia).
  destruct (date_fields _ HT) as (Hy & Hm & Hday & _).
  destruct (time_fields (t mod us_per_day) (Z.mod_pos_bound _ _ Hd)) as (Hh & Hmi & Hs & _).
  pose proof (Z.mod_pos_bound (t mod us_per_day) 1000000 ltac:(lia)) as Hus.
  unfold isoformat. cbv zeta in *. rewrite !str_all_app, !digits_all by done.
  change (str_all iso_char "-") with true. change (str_all iso_char "T") with true.
  change (str_all iso_char ":") with true. change (str_all iso_char "+00:00") with true.
  case_match; [done|]. rewrite str_all_app, digits_all by done. done.
Qed.

Lemma isoformat_strip t : instant_ok t → py_strip (isoformat t) = isoformat t.
Proof.
  intros Ht. apply strip_no_space. eapply str_all_impl; [|by apply isoformat_chars].
  intros c. destruct c as [[] [] [] [] [] [] [] []]; by vm_compute.
Qed.
Lemma isoformat_no_Z t rep : instant_ok t → py_replace "Z"%char rep (isoformat t) = isoformat t.
Proof.
  intros Ht. apply replace_absent. eapply str_all_impl; [|by apply isoformat_chars].
  intros c. destruct c as [[] [] [] [] [] [] [] []]; by vm_compute.
Qed.
Lemma isoformat_truthy t : truthy (isoformat t) = true.
Proof. done. Qed.
