(* ===== verification/Schedule.v ===== *)
(** Schedules ([modules/task/scheduling/schedule.py], [user_schedule.py] and
    [constants.py]): normalisation of schedules, payloads, deliveries and
    misfire policies, cron expressions, the next due time of a schedule and the
    due points of a job.  Instants are microseconds since 0001-01-01T00:00 UTC;
    an aware local time is its wall-clock reading in the same unit. *)

From S2P Require Import Prelude PyValue PyText Timestamps.
From Stdlib Require Import Ascii.

Local Open Scope Z_scope.

(** ** Constants *)

Definition ALLOWED_SCHEDULE_KINDS : list string := ["at"; "every"; "cron"].
Definition ALLOWED_WAKE_MODES : list string := ["now"; "next-heartbeat"].
Definition ALLOWED_SESSION_TARGETS : list string := ["main"; "isolated"; "agent_session"].
Definition PAYLOAD_KIND_SYSTEM_EVENT : string := "systemEvent".
Definition PAYLOAD_KIND_AGENT_IDLE_TICK : string := "agentIdleTick".
Definition PAYLOAD_KIND_PROJECT_CYCLE : string := "projectCycle".
Definition ALLOWED_PAYLOAD_KINDS : list string :=
  [PAYLOAD_KIND_SYSTEM_EVENT; "agentTurn"; PAYLOAD_KIND_AGENT_IDLE_TICK;
   PAYLOAD_KIND_PROJECT_CYCLE].
Definition ALLOWED_DELIVERY_MODES : list string := ["none"; "announce"; "webhook"].
Definition ALLOWED_MISFIRE_MODES : list string := ["skip"; "run_once"; "catch_up"].
Definition DEFAULT_TOP_OF_HOUR_STAGGER_MS : Z := 300000.
Definition DEFAULT_TASK_MIN_EVERY_MS : Z := 10000.

(** ** Environment

    The time-zone database: loading a zone succeeds, does not find it, or
    rejects the key with a message; [zone_local] is the wall-clock reading of an
    instant ([astimezone(tz)]) and [zone_utc] the instant of a wall-clock
    reading with [fold = 0] ([astimezone(timezone.utc)] after arithmetic).
    [local_tzname] is the name of the local zone, and [timestamp_ms] the value
    of [int(dt.timestamp() * 1000)], a double-precision computation. *)
Inductive zone_status : Type := ZoneFound | ZoneNotFound | ZoneBadKey (msg : string).
Class ScheduleEnv := {
  zone_load : string → zone_status;
  zone_local : string → Z → Z;
  zone_utc : string → Z → Z;
  local_tzname : string;
  timestamp_ms : Z → Z;
}.

Definition value_error {A} (msg : string) : PR A := Raise (PyValueError msg).

(** [t + timedelta]: the years 1 to 9999. *)
Definition dt_add (t d : Z) : PR Z :=
  if (0 <=? t + d) && (t + d <? max_instant) then Ok (t + d)
  else Raise (PyOverflowError "date value out of range").

(** [str(data.get(key, "")).strip()] *)
Definition field_text (d : dict) (key : string) : string :=
  py_strip (match dget d key with Some v => py_str v | None => "" end).

(** ** Cron expressions *)

Record _CronSpec := {
  has_seconds : bool;
  seconds : list Z;
  minutes : list Z;
  hours : list Z;
  days_of_month : list Z;
  months : list Z;
  days_of_week : list Z;
  dom_is_wildcard : bool;
  dow_is_wildcard : bool;
}.

Definition z_in (z : Z) (l : list Z) : bool := existsb (Z.eqb z) l.

(** [range(start, end + 1, step)] *)
Definition z_range (start stop step : Z) : list Z :=
  map (λ i, start + Z.of_nat i * step) (seq 0 (Z.to_nat ((stop - start) / step + 1))).

(** [^(\*|\d+|\d+-\d+)(/\d+)?$] on the whole token: its base and step text. *)
Definition cron_token (chunk : string) : option (string * string) :=
  let '(base, step) := match partition_char "/"%char chunk with
                       | Some (b, s) => (b, Some s)
                       | None => (chunk, None)
                       end in
  let base_ok := String.eqb base "*" || all_digits base ||
    match partition_char "-"%char base with
    | Some (l, r) => all_digits l && all_digits r
    | None => false
    end in
  let step_ok := match step with Some s => all_digits s | None => true end in
  if base_ok && step_ok then Some (base, default "" step) else None.

(** [int(text)] of a text of digits. *)
Definition int_text (s : string) : PR Z := py_int (PStr s).

(** The values of one token of a field. *)
Definition cron_chunk (minimum maximum : Z) (allow_sunday_7 : bool) (chunk : string) : PR (list Z) :=
  match cron_token chunk with
  | None => value_error ("unsupported cron field token: " +:+ chunk)
  | Some (base, step_raw) =>
      step ← (if truthy step_raw then int_text step_raw else Ok 1);
      if step <=? 0 then value_error "cron step must be > 0"
      else
        bounds ← (if String.eqb base "*" then Ok (minimum, maximum)
                  else match partition_char "-"%char base with
                       | Some (lo, hi) =>
                           start ← int_text lo; stop ← int_text hi; Ok (start, stop)
                       | None => v ← int_text base; Ok (v, v)
                       end);
        let '(start, stop) := bounds in
        let upper_bound := if allow_sunday_7 then 7 else maximum in
        if (start <? minimum) || (upper_bound <? stop) || (stop <? start)
        then value_error ("cron field token out of range: " +:+ chunk)
        else Ok (z_range start stop step)
  end.

Fixpoint cron_chunks (minimum maximum : Z) (allow_sunday_7 : bool) (chunks : list string)
    : PR (list Z) :=
  match chunks with
  | [] => Ok []
  | c :: rest =>
      let chunk := py_strip c in
      if negb (truthy chunk) then cron_chunks minimum maximum allow_sunday_7 rest
      else
        vs ← cron_chunk minimum maximum allow_sunday_7 chunk;
        more ← cron_chunks minimum maximum allow_sunday_7 rest;
        Ok (vs ++ more)
  end.

(** A set of values is the list of its members. *)
Definition _parse_cron_field (field_expr : string) (minimum maximum : Z) (allow_sunday_7 : bool)
    : PR (list Z) :=
  let expr := py_strip field_expr in
  if negb (truthy expr) then value_error "cron field is empty"
  else
    values ← cron_chunks minimum maximum allow_sunday_7 (split_char ","%char expr);
    let values := if allow_sunday_7 && z_in 7 values
                  then 0 :: List.filter (λ v, negb (v =? 7)) values else values in
    match values with
    | [] => value_error "cron field does not resolve to any values"
    | _ => Ok values
    end.

Definition cron_spec (with_seconds : bool) (second minute hour dom month dow : string)
    : PR _CronSpec :=
  ss ← _parse_cron_field second 0 59 false;
  ms ← _parse_cron_field minute 0 59 false;
  hs ← _parse_cron_field hour 0 23 false;
  ds ← _parse_cron_field dom 1 31 false;
  mo ← _parse_cron_field month 1 12 false;
  ws ← _parse_cron_field dow 0 6 true;
  Ok {| has_seconds := with_seconds; seconds := ss; minutes := ms; hours := hs;
        days_of_month := ds; months := mo; days_of_week := ws;
        dom_is_wildcard := String.eqb dom "*"; dow_is_wildcard := String.eqb dow "*" |}.

Definition _parse_cron_expression (expr : string) : PR _CronSpec :=
  match py_split expr with
  | [minute; hour; dom; month; dow] => cron_spec false "0" minute hour dom month dow
  | [second; minute; hour; dom; month; dow] => cron_spec true second minute hour dom month dow
  | _ => value_error "cron expr must have 5 or 6 fields"
  end.

(** The fields of a wall-clock time. *)
Definition dt_day (w : Z) : Z := w / us_per_day.
Definition dt_second (w : Z) : Z := w / 1000000 mod 60.
Definition dt_minute (w : Z) : Z := w / 60000000 mod 60.
Definition dt_hour (w : Z) : Z := w / 3600000000 mod 24.
Definition dt_month_day (w : Z) : Z * Z :=
  let n := dt_day w in let y := year_of_day n in
  month_day (is_leap y) (n - days_before_year y).
(** [weekday()]: 0001-01-01 is a Monday. *)
Definition dt_weekday (w : Z) : Z := dt_day w mod 7.

Definition _cron_matches (spec : _CronSpec) (w : Z) : bool :=
  if negb (z_in (dt_second w) (seconds spec)) then false
  else if negb (z_in (dt_minute w) (minutes spec)) then false
  else if negb (z_in (dt_hour w) (hours spec)) then false
  else if negb (z_in (dt_month_day w).1 (months spec)) then false
  else
    let dom_match := z_in (dt_month_day w).2 (days_of_month spec) in
    let cron_weekday := (dt_weekday w + 1) mod 7 in
    let dow_match := z_in cron_weekday (days_of_week spec) in
    if dom_is_wildcard spec && dow_is_wildcard spec then true
    else if dom_is_wildcard spec then dow_match
    else if dow_is_wildcard spec then dom_match
    else dom_match || dow_match.

(** The search loop; [None] when the fuel runs out. *)
Fixpoint cron_search (fuel : nat) (spec : _CronSpec) (step limit cursor : Z)
    : option (PR (option Z)) :=
  match fuel with
  | O => None
  | S fuel =>
      if cursor <=? limit then
        if _cron_matches spec cursor then Some (Ok (Some cursor))
        else match dt_add cursor step with
             | Ok next => cron_search fuel spec step limit next
             | Raise e => Some (Raise e)
             end
      else Some (Ok None)
  end.

Definition cron_horizon : Z := 366 * 5 * us_per_day.

Section Schedule.
Context {Env : PyEnv} {Sched : ScheduleEnv}.

Definition _load_timezone (name : string) : PR () :=
  match zone_load name with
  | ZoneFound => Ok ()
  | ZoneNotFound => value_error ("unknown timezone: " +:+ name)
  | ZoneBadKey msg => value_error msg
  end.

(** The local zone of [datetime.now().astimezone()] has a name and no key. *)
Definition _default_timezone_name : string :=
  let token := py_strip local_tzname in
  if truthy token then match _load_timezone token with Ok _ => token | Raise _ => "UTC" end
  else "UTC".

Definition cron_step (spec : _CronSpec) : Z := if has_seconds spec then 1000000 else 60000000.

(** The first candidate after the wall-clock time [w]. *)
Definition cron_start (spec : _CronSpec) (w : Z) : PR Z :=
  let step := cron_step spec in
  next ← dt_add w step;
  Ok (next - next mod step).

Definition cron_fuel (step limit cursor : Z) : nat := S (Z.to_nat ((limit - cursor) / step + 1)).

Definition _next_cron_occurrence (expr tz_name : string) (after : Z) : PR (option Z) :=
  spec ← _parse_cron_expression expr;
  _ ← _load_timezone tz_name;
  cursor ← cron_start spec (zone_local tz_name after);
  limit ← dt_add cursor cron_horizon;
  found ← default (Ok None)
            (cron_search (cron_fuel (cron_step spec) limit cursor) spec (cron_step spec) limit cursor);
  Ok (match found with Some w => Some (zone_utc tz_name w) | None => None end).

(** ** Timestamps *)

Definition parse_iso_datetime (value : pyval) : PR Z :=
  let raw := str_or_blank value in
  if negb (truthy raw) then value_error "datetime value is required"
  else match py_fromisoformat (py_replace "Z"%char "+00:00" raw) with
       | None => value_error ("Invalid isoformat string: " +:+ repr_str (py_replace "Z"%char "+00:00" raw))
       | Some (local, offset) => dt_add local (- default 0 offset)
       end.
Definition to_iso_utc (t : Z) : string := isoformat t.

(** ** Normalisation *)

Definition normalize_wake_mode (value : option string) : PR string :=
  let mode := let m := py_strip (str_or value "now") in if truthy m then m else "now" in
  if str_in mode ALLOWED_WAKE_MODES then Ok mode
  else value_error ("unsupported wake_mode: " +:+ mode).

Definition normalize_session_target (value : option string) : PR string :=
  let target := py_strip (str_or value "") in
  if str_in target ALLOWED_SESSION_TARGETS then Ok target
  else value_error ("unsupported session_target: " +:+ target).

Definition payload_system_event (data : dict) : PR dict :=
  let text := field_text data "event_text" in
  if negb (truthy text) then value_error "systemEvent payload requires event_text"
  else
    let data := dset data "event_text" (PStr text) in
    match dget_none data "metadata" with
    | PNone | PDict _ => Ok data
    | _ => value_error "systemEvent metadata must be an object"
    end.
Definition payload_agent_turn (data : dict) : PR dict :=
  let message := field_text data "message" in
  if negb (truthy message) then value_error "agentTurn payload requires message"
  else
    let data := dset data "message" (PStr message) in
    match dget_none data "timeout_seconds" with
    | PNone => Ok data
    | timeout =>
        t ← py_int timeout;
        if t <=? 0 then value_error "timeout_seconds must be greater than 0"
        else Ok (dset data "timeout_seconds" (PInt t))
    end.
Definition payload_idle_tick (data : dict) : PR dict :=
  let session_id := field_text data "session_id" in
  if negb (truthy session_id) then value_error "agentIdleTick payload requires session_id"
  else
    let data := dset data "session_id" (PStr session_id) in
    let data := dset data "plan_id" (PStr (field_text data "plan_id")) in
    match dget_none data "user_activity_grace_seconds" with
    | PNone => Ok data
    | grace =>
        let g := match py_int grace with Ok z => Z.max 0 z | Raise _ => 0 end in
        Ok (dset data "user_activity_grace_seconds" (PInt g))
    end.
Definition payload_project_cycle (data : dict) : PR dict :=
  let run_id := field_text data "run_id" in
  let task_id := field_text data "task_id" in
  if negb (truthy run_id) || negb (truthy task_id)
  then value_error "projectCycle payload requires run_id and task_id"
  else
    let data := dset (dset data "run_id" (PStr run_id)) "task_id" (PStr task_id) in
    interval ← py_int (py_or (default (PInt 1) (dget data "cycle_interval_seconds")) (PInt 1));
    if negb ((1 <=? interval) && (interval <=? 3600))
    then value_error "cycle_interval_seconds must be in 1..3600"
    else Ok (dset data "cycle_interval_seconds" (PInt interval)).

Definition normalize_payload (payload : pyval) : PR dict :=
  match payload with
  | PDict d =>
      let kind := field_text d "kind" in
      if negb (str_in kind ALLOWED_PAYLOAD_KINDS)
      then value_error "payload.kind must be systemEvent, agentTurn, agentIdleTick, or projectCycle"
      else
        let data := dset d "kind" (PStr kind) in
        if String.eqb kind PAYLOAD_KIND_SYSTEM_EVENT then payload_system_event data
        else if String.eqb kind "agentTurn" then payload_agent_turn data
        else if String.eqb kind PAYLOAD_KIND_AGENT_IDLE_TICK then payload_idle_tick data
        else payload_project_cycle data
  | _ => value_error "payload must be an object"
  end.

Definition normalize_delivery (delivery : pyval) : PR dict :=
  match py_or delivery (PDict [("mode", PStr "none")]) with
  | PDict raw =>
      let mode := let m := py_strip (match dget raw "mode" with Some v => py_str v | None => "none" end) in
                  if truthy m then m else "none" in
      if negb (str_in mode ALLOWED_DELIVERY_MODES)
      then value_error ("unsupported delivery.mode: " +:+ mode)
      else Ok [("mode", PStr mode);
               ("channel", PStr (str_or_blank (default (PStr "") (dget raw "channel"))));
               ("to", PStr (str_or_blank (default (PStr "") (dget raw "to"))));
               ("best_effort", PBool (py_truthy (default (PBool false) (dget raw "best_effort"))))]
  | _ => value_error "delivery must be an object"
  end.

Definition _field_is_exact_zero (field_expr : string) : bool :=
  let token := py_strip field_expr in
  if negb (truthy token) then false
  else if existsb (λ c, str_mem c token) [","%char; "/"%char; "-"%char; "*"%char] then false
  else match int_text token with Ok z => z =? 0 | Raise _ => false end.

Definition _is_top_of_hour_expression (expr : string) : bool :=
  match py_split expr with
  | [minute; _; _; _; _] => _field_is_exact_zero minute
  | [second; minute; _; _; _; _] => _field_is_exact_zero second && _field_is_exact_zero minute
  | _ => false
  end.

(** A normalised schedule and the mapping it is stored as. *)
Inductive nsched : Type :=
| NAt (at_ : string)
| NEvery (every_ms jitter_ms : Z)
| NCron (expr tz : string) (stagger_ms : Z).
Definition nsched_dict (s : nsched) : dict :=
  match s with
  | NAt t => [("kind", PStr "at"); ("at", PStr t)]
  | NEvery e j => [("kind", PStr "every"); ("every_ms", PInt e); ("jitter_ms", PInt j)]
  | NCron x tz st => [("kind", PStr "cron"); ("expr", PStr x); ("tz", PStr tz); ("stagger_ms", PInt st)]
  end.

Definition normalize_at (d : dict) : PR nsched :=
  t ← parse_iso_datetime (PStr (field_text d "at"));
  Ok (NAt (to_iso_utc t)).
Definition normalize_every (d : dict) : PR nsched :=
  every_ms ← py_int (default (PInt 0) (dget d "every_ms"));
  if every_ms <=? 0 then value_error "every_ms must be greater than 0"
  else
    jitter_ms ← py_int (py_or (default (PInt 0) (dget d "jitter_ms")) (PInt 0));
    if jitter_ms <? 0 then value_error "jitter_ms must be >= 0"
    else Ok (NEvery every_ms jitter_ms).
Definition normalize_cron (d : dict) : PR nsched :=
  let expr := field_text d "expr" in
  if negb (truthy expr) then value_error "cron schedule requires expr"
  else
    _ ← _parse_cron_expression expr;
    let tz_name := let t := str_or_blank (default (PStr "") (dget d "tz")) in
                   if truthy t then t else _default_timezone_name in
    _ ← _load_timezone tz_name;
    let stagger_raw :=
      match dget d "stagger_ms", dget d "staggerMs" with
      | Some v, _ => v
      | None, Some v => v
      | None, None =>
          PInt (if _is_top_of_hour_expression expr then DEFAULT_TOP_OF_HOUR_STAGGER_MS else 0)
      end in
    stagger_ms ← py_int (py_or stagger_raw (PInt 0));
    if stagger_ms <? 0 then value_error "stagger_ms must be >= 0"
    else Ok (NCron expr tz_name stagger_ms).

Definition normalize_schedule (schedule : pyval) : PR nsched :=
  match schedule with
  | PDict d =>
      let kind := field_text d "kind" in
      if negb (str_in kind ALLOWED_SCHEDULE_KINDS)
      then value_error "schedule.kind must be one of: at, every, cron"
      else if String.eqb kind "at" then normalize_at d
      else if String.eqb kind "every" then normalize_every d
      else normalize_cron d
  | _ => value_error "schedule must be an object"
  end.

(** The exceptions of [normalize_user_schedule]. *)
Inductive user_schedule_exn : Type :=
| UserSchedule (e : py_exn)
| TaskScheduleIntervalTooShortError (every_ms minimum_every_ms : Z).

Definition user_at_schedule (now : Z) (candidate : dict) : PR dict :=
  let has_at := match dget_none candidate "at" with
                | PNone => false | PStr s => truthy s | _ => true end in
  let has_after := match dget_none candidate "after_seconds" with PNone => false | _ => true end in
  if Bool.eqb has_at has_after
  then value_error "at schedule requires exactly one of at or after_seconds"
  else if negb has_after then Ok candidate
  else match dget_none candidate "after_seconds" with
       | PInt delay =>
           if delay <=? 0 then value_error "after_seconds must be greater than 0"
           else t ← dt_add now (delay * 1000000);
                Ok [("kind", PStr "at"); ("at", PStr (to_iso_utc t))]
       | _ => value_error "after_seconds must be a positive integer"
       end.

Definition lift_user {A} (r : PR A) : result user_schedule_exn A :=
  match r with Ok a => Ok a | Raise e => Raise (UserSchedule e) end.

Definition normalize_user_schedule (now : Z) (schedule : dict) : result user_schedule_exn nsched :=
  candidate ← lift_user
    (if String.eqb (str_or_blank (dget_none schedule "kind")) "at"
     then user_at_schedule now schedule else Ok schedule);
  normalized ← lift_user (normalize_schedule (PDict candidate));
  match normalized with
  | NEvery every_ms _ =>
      if every_ms <? DEFAULT_TASK_MIN_EVERY_MS
      then Raise (TaskScheduleIntervalTooShortError every_ms DEFAULT_TASK_MIN_EVERY_MS)
      else Ok normalized
  | _ => Ok normalized
  end.

Definition validate_target_payload_pair (session_target payload_kind : string) : PR () :=
  if String.eqb session_target "main" && negb (String.eqb payload_kind PAYLOAD_KIND_SYSTEM_EVENT)
  then value_error "session_target=main requires payload.kind=systemEvent"
  else if String.eqb session_target "isolated"
          && negb (str_in payload_kind ["agentTurn"; PAYLOAD_KIND_PROJECT_CYCLE])
  then value_error "session_target=isolated requires payload.kind=agentTurn or projectCycle"
  else if String.eqb session_target "agent_session"
          && negb (String.eqb payload_kind PAYLOAD_KIND_AGENT_IDLE_TICK)
  then value_error "session_target=agent_session requires payload.kind=agentIdleTick"
  else if String.eqb payload_kind PAYLOAD_KIND_AGENT_IDLE_TICK
          && negb (String.eqb session_target "agent_session")
  then value_error "payload.kind=agentIdleTick requires session_target=agent_session"
  else Ok ().

Definition default_session_target_for_payload (payload_kind : string) : string :=
  if String.eqb payload_kind PAYLOAD_KIND_SYSTEM_EVENT then "main"
  else if String.eqb payload_kind PAYLOAD_KIND_AGENT_IDLE_TICK then "agent_session"
  else "isolated".

Definition nsched_kind (s : nsched) : string :=
  match s with NAt _ => "at" | NEvery _ _ => "every" | NCron _ _ _ => "cron" end.
Definition default_delete_after_run (schedule_kind : string) : bool := String.eqb schedule_kind "at".

(** ** Misfire policies *)

Record MisfirePolicy := { mf_mode : string; catch_up_max : Z }.

(** [re.fullmatch(r"catch_up\(max=(\d+)\)", raw)] *)
Definition catch_up_match (raw : string) : option string :=
  let prefix := "catch_up(max=" in
  if py_startswith raw prefix then
    match drop_last ")"%char (String.substring 13 (String.length raw - 13) raw) with
    | Some n => if all_digits n then Some n else None
    | None => None
    end
  else None.

Definition checked_policy (mode : string) (catch_up : Z) : PR MisfirePolicy :=
  if negb (str_in mode ALLOWED_MISFIRE_MODES)
  then value_error "misfire_policy must be skip, run_once, or catch_up(max=N)"
  else Ok {| mf_mode := mode; catch_up_max := Z.max 1 catch_up |}.

Definition normalize_misfire_policy (value : pyval) : PR MisfirePolicy :=
  match value with
  | PNone => Ok {| mf_mode := "run_once"; catch_up_max := 1 |}
  | PDict d =>
      let mode := let m := py_strip (match dget d "mode" with Some v => py_str v | None => "run_once" end) in
                  if truthy m then m else "run_once" in
      catch_up ← py_int (py_or (default (PInt 1) (dget d "max")) (PInt 1));
      checked_policy mode catch_up
  | v =>
      let raw := py_strip (py_str v) in
      if negb (truthy raw) then Ok {| mf_mode := "run_once"; catch_up_max := 1 |}
      else match catch_up_match raw with
           | Some n => catch_up ← int_text n; checked_policy "catch_up" catch_up
           | None => checked_policy raw 1
           end
  end.

Definition encode_misfire_policy (policy : MisfirePolicy) : string :=
  if String.eqb (mf_mode policy) "catch_up"
  then "catch_up(max=" +:+ pretty (Z.max 1 (catch_up_max policy)) +:+ ")"
  else mf_mode policy.

(** ** Due times *)

(** [int(sha256(seed).hexdigest()[:8], 16) % (bound + 1)] *)
Definition digest_below (seed : string) (bound : Z) : PR Z :=
  if bound <=? 0 then Ok 0
  else n ← int_of_hex (String.substring 0 8 (py_sha256_hexdigest seed)); Ok (n mod (bound + 1)).
Definition _deterministic_jitter_ms (job_id : string) (t jitter_ms : Z) : PR Z :=
  digest_below (job_id +:+ ":" +:+ pretty (timestamp_ms t)) jitter_ms.
Definition _deterministic_cron_stagger_ms (job_id expr : string) (stagger_ms : Z) : PR Z :=
  digest_below (job_id +:+ ":" +:+ expr) stagger_ms.

(** The next due time of a normalised schedule. *)
Definition next_due_of (s : nsched) (after : Z) (job_id : string) (last_due : option Z)
    : PR (option Z) :=
  match s with
  | NAt at_ =>
      t ← parse_iso_datetime (PStr at_);
      Ok (if after <? t then Some t else None)
  | NEvery every_ms jitter_ms =>
      let base := default after last_due in
      next ← dt_add base (every_ms * 1000);
      if 0 <? jitter_ms then
        j ← _deterministic_jitter_ms job_id next jitter_ms;
        due ← dt_add next (j * 1000);
        Ok (Some due)
      else Ok (Some next)
  | NCron expr tz stagger_ms =>
      found ← _next_cron_occurrence expr tz after;
      match found with
      | None => Ok None
      | Some due =>
          if stagger_ms <=? 0 then Ok (Some due)
          else
            stagger ← _deterministic_cron_stagger_ms job_id expr stagger_ms;
            due' ← dt_add due (stagger * 1000);
            Ok (Some due')
      end
  end.

Definition compute_next_due (schedule : pyval) (after : Z) (job_id : string) (last_due : option Z)
    : PR (option Z) :=
  s ← normalize_schedule schedule;
  next_due_of s after job_id last_due.

(** The loop over missed due times: at most [safety] candidates, and the cursor
    after them. *)
Fixpoint due_loop (safety : nat) (schedule : nsched) (job_id : string) (now cursor : Z)
    : PR (list Z * option Z) :=
  match safety with
  | O => Ok ([], Some cursor)
  | S safety =>
      if cursor <=? now then
        match schedule with
        | NAt _ => Ok ([cursor], None)
        | _ =>
            next ← compute_next_due (PDict (nsched_dict schedule)) cursor job_id (Some cursor);
            match next with
            | None => Ok ([cursor], None)
            | Some c =>
                r ← due_loop safety schedule job_id now c;
                Ok (cursor :: r.1, r.2)
            end
        end
      else Ok ([], Some cursor)
  end.

(** [l[-k:]] for positive [k]. *)
Definition last_n {A} (k : Z) (l : list A) : list A := drop (length l - Z.to_nat k)%nat l.

Definition is_at (s : nsched) : bool := match s with NAt _ => true | _ => false end.

(** The points selected under a policy. *)
Definition select_points (policy : MisfirePolicy) (schedule : nsched) (now : Z)
    (due_candidates recent_candidates : list Z) : list Z :=
  let stale_only := match due_candidates, recent_candidates with
                    | _ :: _, [] => true | _, _ => false end in
  if String.eqb (mf_mode policy) "catch_up" then
    let selected := last_n (Z.max 1 (catch_up_max policy)) recent_candidates in
    match selected with
    | [] => if stale_only && is_at schedule then [now] else []
    | _ => selected
    end
  else if String.eqb (mf_mode policy) "skip" then last_n 1 recent_candidates
  else
    match last_n 1 recent_candidates with
    | [] => if stale_only then [now] else []
    | selected => selected
    end.

Definition _select_due_points_for_job (schedule_raw : pyval) (next_due_at : option string)
    (job_id misfire_policy : string) (max_lateness_s : Z) (now : Z) : PR (list Z * option Z) :=
  schedule ← normalize_schedule schedule_raw;
  let next_due_raw := py_strip (str_or next_due_at "") in
  if negb (truthy next_due_raw) then Ok ([], None)
  else
    start ← parse_iso_datetime (PStr next_due_raw);
    r ← due_loop 512 schedule job_id now start;
    let '(due_candidates, cursor) := r in
    policy ← normalize_misfire_policy (PStr misfire_policy);
    let lateness := Z.max 0 max_lateness_s in
    cutoff ← dt_add now (- (lateness * 1000000));
    let recent := List.filter (λ t, cutoff <=? t) due_candidates in
    let selected := select_points policy schedule now due_candidates recent in
    next_due ← (if is_at schedule then Ok None
                else match cursor with
                     | Some c => Ok (Some c)
                     | None => compute_next_due (PDict (nsched_dict schedule)) now job_id (Some now)
                     end);
    Ok (selected, next_due).
End Schedule.
