(* ===== verification/ScheduleCron.v ===== *)
(** Cron expressions: the values a field denotes are in the field's range, the
    search for the next occurrence terminates, and in a zone of constant offset
    it finds the first matching second after its argument. *)

From S2P Require Import Prelude PyValue Timestamps PyText Schedule.
From Stdlib Require Import Ascii.

Local Open Scope Z_scope.

(** ** Fields *)

Lemma z_in_elem z l : z_in z l = true ↔ z ∈ l.
Proof.
  unfold z_in. rewrite existsb_elem. split.
  - by intros (x & Hx & ->%Z.eqb_eq).
  - intros H. exists z. by rewrite Z.eqb_refl.
Qed.

Lemma z_range_bounds start stop step z :
  0 < step → start ≤ stop → z ∈ z_range start stop step → start ≤ z ≤ stop.
Proof.
  intros Hs Hle Hz. unfold z_range in Hz. apply list_elem_of_fmap in Hz as (i & -> & Hi).
  apply elem_of_seq in Hi. pose proof (Z.mul_div_le (stop - start) step Hs).
  assert (0 ≤ (stop - start) / step) by (apply Z.div_pos; lia). nia.
Qed.

(** The largest value a token may name. *)
Definition field_top (maximum : Z) (allow_sunday_7 : bool) : Z :=
  if allow_sunday_7 then 7 else maximum.

Lemma result_bind_Ok {A B} (m : PR A) (f : A → PR B) b :
  (x ← m; f x) = Ok b → ∃ a, m = Ok a ∧ f a = Ok b.
Proof. destruct m as [a|e]; [|done]. intros H. by exists a. Qed.

(** Splits a successful sequence of fallible calls. *)
Ltac psplit H := let a := fresh "x" in let E := fresh "E" in
  apply result_bind_Ok in H as (a & E & H).

Lemma cron_chunk_bounds mn mx a7 chunk vs :
  cron_chunk mn mx a7 chunk = Ok vs → Forall (λ z, mn ≤ z ≤ field_top mx a7) vs.
Proof.
  unfold cron_chunk. destruct (cron_token chunk) as [[base raw]|]; [|done].
  intros H. psplit H. case_match eqn:Hstep; [done|]. psplit H.
  destruct x0 as [start stop]. case_match eqn:Hr; [done|]. simplify_eq.
  bsplit. apply Z.leb_gt in Hstep. rewrite Z.ltb_ge in *.
  apply Forall_forall. intros z Hz. apply z_range_bounds in Hz; [|done|done].
  unfold field_top. lia.
Qed.

Lemma cron_chunks_bounds mn mx a7 chunks vs :
  cron_chunks mn mx a7 chunks = Ok vs → Forall (λ z, mn ≤ z ≤ field_top mx a7) vs.
Proof.
  revert vs. induction chunks as [|c rest IH]; intros vs H; simpl in H; [by simplify_eq|].
  case_match; [by apply IH|]. psplit H. psplit H. simplify_eq.
  apply Forall_app_2; [by eapply cron_chunk_bounds|by apply IH].
Qed.

Lemma parse_cron_field_bounds expr mn mx a7 vs :
  (a7 = true → mn = 0 ∧ mx = 6) →
  _parse_cron_field expr mn mx a7 = Ok vs → vs ≠ [] ∧ Forall (λ z, mn ≤ z ≤ mx) vs.
Proof.
  intros Ha H. unfold _parse_cron_field in H. case_match; [done|]. psplit H.
  apply cron_chunks_bounds in E. rewrite Forall_forall in E.
  assert (vs = (if a7 && z_in 7 x then 0 :: List.filter (λ v, negb (v =? 7)) x else x) ∧ vs ≠ [])
    as [-> Hne] by (repeat case_match; by simplify_eq).
  split; [done|]. apply Forall_forall. intros z Hz. clear H Hne. unfold field_top in E.
  destruct a7; simpl in Hz.
  - destruct (Ha eq_refl) as [-> ->]. destruct (z_in 7 x) eqn:E7.
    + apply elem_of_cons in Hz as [->|Hz]; [lia|].
      apply filter_elem in Hz as [Hz Hn%negb_true_iff%Z.eqb_neq]. specialize (E _ Hz). lia.
    + assert (z ≠ 7) by (intros ->; apply z_in_elem in Hz; congruence). specialize (E _ Hz). lia.
  - by apply E.
Qed.

(** A set of values of a field: not empty, within [lo] and [hi]. *)
Definition field_ok (lo hi : Z) (vs : list Z) : Prop := vs ≠ [] ∧ Forall (λ z, lo ≤ z ≤ hi) vs.
Definition spec_ok (s : _CronSpec) : Prop :=
  field_ok 0 59 (seconds s) ∧ field_ok 0 59 (minutes s) ∧ field_ok 0 23 (hours s) ∧
  field_ok 1 31 (days_of_month s) ∧ field_ok 1 12 (months s) ∧ field_ok 0 6 (days_of_week s) ∧
  (has_seconds s = false → seconds s = [0]).

Lemma cron_spec_ok b se mi ho dom mo dow s :
  (b = false → se = "0") → cron_spec b se mi ho dom mo dow = Ok s → spec_ok s.
Proof.
  intros Hb H. unfold cron_spec in H. do 6 psplit H. simplify_eq. unfold spec_ok. simpl.
  repeat split_and!; try (eapply parse_cron_field_bounds; [|done]; done).
  intros ->. rewrite (Hb eq_refl) in E.
  change (_parse_cron_field "0" 0 59 false) with (Ok (E := py_exn) [0]) in E. congruence.
Qed.

Lemma parse_cron_ok expr s : _parse_cron_expression expr = Ok s → spec_ok s.
Proof.
  unfold _parse_cron_expression.
  destruct (py_split expr) as [|a [|b [|c [|d [|e [|f [|g l]]]]]]]; try done; by apply cron_spec_ok.
Qed.

(** ** The search *)

Definition search_result (spec : _CronSpec) (step limit cursor : Z) (r : option Z) : Prop :=
  match r with
  | Some w => cursor ≤ w ≤ limit ∧ (step | w - cursor) ∧ _cron_matches spec w = true ∧
      ∀ v, cursor ≤ v < w → (step | v - cursor) → _cron_matches spec v = false
  | None => ∀ v, cursor ≤ v ≤ limit → (step | v - cursor) → _cron_matches spec v = false
  end.

(** The next grid point, when [cursor] itself does not match. *)
Lemma grid_step step cursor v :
  0 < step → cursor ≤ v → (step | v - cursor) →
  v = cursor ∨ cursor + step ≤ v ∧ (step | v - (cursor + step)).
Proof.
  intros Hs Hle [k Hk]. destruct (decide (k = 0)) as [->|Hk0]; [left; lia|].
  right. assert (0 < k) by nia. split; [nia|]. exists (k - 1). lia.
Qed.

Lemma search_result_step spec step limit cursor r :
  0 < step → cursor ≤ limit → _cron_matches spec cursor = false →
  search_result spec step limit (cursor + step) r → search_result spec step limit cursor r.
Proof.
  intros Hs Hl Hm H. destruct r as [w|]; simpl in *.
  - destruct H as (Hb & [k Hk] & Hw & Hmin). split_and!; [lia|lia|exists (k + 1); lia|done|].
    intros v Hv Hd. destruct (grid_step step cursor v Hs) as [->|[? ?]]; [lia|done|done|].
    apply Hmin; [lia|done].
  - intros v Hv Hd. destruct (grid_step step cursor v Hs) as [->|[? ?]]; [lia|done|done|].
    apply H; [lia|done].
Qed.

Lemma dt_add_ok t d : 0 ≤ t + d < max_instant → dt_add t d = Ok (t + d).
Proof.
  intros H. unfold dt_add. by rewrite (proj2 (Z.leb_le _ _)), (proj2 (Z.ltb_lt _ _)) by lia.
Qed.
Lemma dt_add_inv t d u : dt_add t d = Ok u → u = t + d ∧ 0 ≤ t + d < max_instant.
Proof.
  unfold dt_add. intros H. case_match eqn:E; [|done]. simplify_eq. bsplit.
  rewrite Z.leb_le, Z.ltb_lt in *. done.
Qed.

(** One round of the loop. *)
Lemma cron_search_S fuel spec step limit cursor :
  cron_search (S fuel) spec step limit cursor =
  if bool_decide (cursor ≤ limit) then
    if _cron_matches spec cursor then Some (Ok (Some cursor))
    else match dt_add cursor step with
         | Ok next => cron_search fuel spec step limit next
         | Raise e => Some (Raise e)
         end
  else Some (Ok None).
Proof.
  cbn [cron_search]. destruct (Z.leb_spec cursor limit).
  - by rewrite bool_decide_true.
  - by rewrite bool_decide_false by lia.
Qed.

Lemma cron_search_finds spec step limit fuel : ∀ cursor,
  0 < step → 0 ≤ cursor → limit + step < max_instant → limit < cursor + Z.of_nat fuel * step →
  ∃ r, cron_search (S fuel) spec step limit cursor = Some (Ok r) ∧
       search_result spec step limit cursor r.
Proof.
  induction fuel as [|fuel IH]; intros cursor Hs Hc Hmax Hfuel; rewrite cron_search_S;
    (case_bool_decide as Hle; [|exists None; split; [done|]; intros v Hv; lia]); [lia|].
  destruct (_cron_matches spec cursor) eqn:Hm.
  - exists (Some cursor). split; [done|]. simpl. split_and!; try lia; try done. exists 0. lia.
  - rewrite dt_add_ok by lia. destruct (IH (cursor + step)) as (r & -> & Hr); [lia..|].
    exists r. split; [done|]. by apply search_result_step.
Qed.

Lemma cron_search_ends spec step limit n : ∀ cursor,
  0 < step → limit < cursor + Z.of_nat n * step →
  ∃ r, ∀ fuel, (S n ≤ fuel)%nat → cron_search fuel spec step limit cursor = Some r.
Proof.
  induction n as [|n IH]; intros cursor Hs Hn;
    (destruct (decide (cursor ≤ limit)) as [Hle|Hgt];
      [|exists (Ok None); intros [|fuel] ?; [lia|]; by rewrite cron_search_S, bool_decide_false]);
    [lia|].
  destruct (_cron_matches spec cursor) eqn:Hm;
    [exists (Ok (Some cursor)); intros [|fuel] ?; [lia|];
     by rewrite cron_search_S, bool_decide_true, Hm|].
  destruct (dt_add cursor step) as [c|e] eqn:Ed.
  - pose proof Ed as [-> _]%dt_add_inv. destruct (IH (cursor + step)) as [r Hr]; [lia..|].
    exists r. intros [|fuel] ?; [lia|]. rewrite cron_search_S, bool_decide_true, Hm, Ed by done.
    apply Hr. lia.
  - exists (Raise e). intros [|fuel] ?; [lia|]. by rewrite cron_search_S, bool_decide_true, Hm, Ed.
Qed.

(** The computed number of rounds covers the distance to the limit. *)
Lemma cron_fuel_enough step limit cursor :
  0 < step → ∃ n, cron_fuel step limit cursor = S n ∧ limit < cursor + Z.of_nat n * step.
Proof.
  intros Hs. exists (Z.to_nat ((limit - cursor) / step + 1)). split; [done|].
  pose proof (Z.mul_succ_div_gt (limit - cursor) step Hs). nia.
Qed.

(** C39: the search for the next occurrence always ends: from any start, with the
    number of rounds computed from the distance to the limit or any larger
    number, the loop reaches a match, the limit, or the end of the calendar, and
    the result does not depend on the number of rounds allowed. *)
Theorem cron_search_terminates spec step limit cursor :
  0 < step →
  ∃ r, ∀ fuel, (cron_fuel step limit cursor ≤ fuel)%nat →
    cron_search fuel spec step limit cursor = Some r.
Proof.
  intros Hs. destruct (cron_fuel_enough step limit cursor Hs) as (n & -> & Hn).
  by apply cron_search_ends.
Qed.

(** ** The next occurrence *)

Definition whole_second (w : Z) : Prop := (1000000 | w).

Lemma matches_fields spec w :
  _cron_matches spec w = true →
  dt_second w ∈ seconds spec ∧ dt_minute w ∈ minutes spec ∧ dt_hour w ∈ hours spec ∧
  (dt_month_day w).1 ∈ months spec.
Proof.
  unfold _cron_matches. rewrite <-!z_in_elem. intros H.
  repeat case_match; bsplit; done.
Qed.

(** Every matching whole second lies on the grid of the search. *)
Lemma matching_on_grid spec w :
  spec_ok spec → whole_second w → _cron_matches spec w = true → (cron_step spec | w).
Proof.
  intros Hok [k Hk] Hm. unfold cron_step. destruct (has_seconds spec) eqn:Hs; [by exists k|].
  destruct Hok as (_ & _ & _ & _ & _ & _ & H0). specialize (H0 Hs).
  apply matches_fields in Hm as [Hsec _]. rewrite H0, list_elem_of_singleton in Hsec.
  unfold dt_second in Hsec. subst w. rewrite Z.div_mul in Hsec by lia.
  apply Z.mod_divide in Hsec as [j ->]; [|lia]. exists j. lia.
Qed.

Lemma cron_step_pos spec : cron_step spec = 1000000 ∨ cron_step spec = 60000000.
Proof. unfold cron_step. destruct (has_seconds spec); auto. Qed.

Lemma cron_start_ok spec w :
  0 ≤ w → w + 60000000 < max_instant →
  ∃ c, cron_start spec w = Ok c ∧ (cron_step spec | c) ∧ w < c ≤ w + cron_step spec.
Proof.
  intros H0 Hmax. destruct (cron_step_pos spec) as [E|E]; unfold cron_start;
    rewrite dt_add_ok by lia; simpl; rewrite E; eexists; (split; [done|]).
  all: set (s := cron_step spec) in *;
    pose proof (Z.mod_pos_bound (w + s) s ltac:(lia)) as Hb;
    pose proof (Z_div_mod_eq_full (w + s) s) as Hd; rewrite ?E in *; split;
    [exists ((w + s) / s); rewrite E; lia|lia].
Qed.

Section next.
Context {Env : PyEnv} {Sched : ScheduleEnv}.

(** A zone of constant offset. *)
Definition fixed_zone (tz : string) (off : Z) : Prop :=
  zone_load tz = ZoneFound ∧ ∀ t, zone_local tz t = t + off ∧ zone_utc tz t = t - off.

(** The years for which the search stays within the calendar. *)
Definition search_room (w : Z) : Prop := 0 ≤ w ∧ w + cron_horizon + 120000000 < max_instant.

(** Any zone: the wall-clock time found is the first matching whole second
    after the wall-clock time of the argument. *)
Lemma next_occurrence_local expr tz spec after :
  _parse_cron_expression expr = Ok spec → zone_load tz = ZoneFound →
  search_room (zone_local tz after) →
  let w0 := zone_local tz after in
  ∃ r, _next_cron_occurrence expr tz after = Ok (zone_utc tz <$> r) ∧
  match r with
  | Some w => w0 < w ≤ w0 + cron_step spec + cron_horizon ∧ whole_second w ∧
      _cron_matches spec w = true ∧
      ∀ v, w0 < v < w → whole_second v → _cron_matches spec v = false
  | None => ∀ v, w0 < v ≤ w0 + cron_horizon → whole_second v → _cron_matches spec v = false
  end.
Proof.
  intros Hp Hz [H0 Hmax] w0. unfold _next_cron_occurrence, _load_timezone.
  assert (0 < cron_horizon) by done. pose proof (cron_step_pos spec) as Hstep.
  destruct (cron_start_ok spec w0) as (c & Hc & Hgrid & Hb); [lia|lia|].
  destruct (cron_fuel_enough (cron_step spec) (c + cron_horizon) c) as (n & Hn & Hlt); [lia|].
  destruct (cron_search_finds spec (cron_step spec) (c + cron_horizon) n c) as (r & Hr & Hspec);
    [lia..|].
  exists r. rewrite Hp, Hz. cbn [mbind result_bind]. fold w0. rewrite Hc. cbn [mbind result_bind].
  rewrite dt_add_ok by lia. cbn [mbind result_bind]. rewrite Hn, Hr. cbn [default mbind result_bind].
  split; [by destruct r|].
  assert (∀ v, w0 < v → whole_second v → _cron_matches spec v = true →
            c ≤ v ∧ (cron_step spec | v - c)) as Hon.
  { intros v Hv Hw Hm. pose proof (matching_on_grid _ _ (parse_cron_ok _ _ Hp) Hw Hm) as Hg.
    split; [|by apply Z.divide_sub_r]. destruct Hg as [k ->], Hgrid as [j ->]. nia. }
  assert (∀ w, (cron_step spec | w - c) → whole_second w) as Hws.
  { intros w Hd. assert (cron_step spec | w) as [k ->].
    { replace w with (w - c + c) by lia. by apply Z.divide_add_r. }
    destruct Hstep as [-> | ->]; [by exists k|exists (60 * k); lia]. }
  destruct r as [w|]; simpl in Hspec.
  - destruct Hspec as (Hw & Hd & Hm & Hmin). split_and!; [lia|lia|auto|done|].
    intros v Hv Hwv. apply not_true_is_false. intros Hm'.
    destruct (Hon v) as [Hcv Hdv]; [lia|done|done|]. by rewrite Hmin in Hm' by (lia || done).
  - intros v Hv Hwv. apply not_true_is_false. intros Hm'.
    destruct (Hon v) as [Hcv Hdv]; [lia|done|done|].
    by rewrite Hspec in Hm' by (lia || done).
Qed.

(** C20: in a zone of constant offset the next occurrence of a cron expression is
    the first whole second after [after] whose wall-clock fields match the
    expression (minutes, hours, month, and the day of month or day of week), and
    the answer is [None] only when no second of the following five years
    matches.  The search steps by minutes for five-field expressions without
    missing a match. *)
Theorem next_cron_occurrence_first expr tz spec off after :
  _parse_cron_expression expr = Ok spec → fixed_zone tz off → search_room (after + off) →
  ∃ r, _next_cron_occurrence expr tz after = Ok r ∧
  match r with
  | Some u => after < u ∧ whole_second (u + off) ∧ _cron_matches spec (u + off) = true ∧
      ∀ v, after < v < u → whole_second (v + off) → _cron_matches spec (v + off) = false
  | None => ∀ v, after < v ≤ after + cron_horizon → whole_second (v + off) →
      _cron_matches spec (v + off) = false
  end.
Proof.
  intros Hp [Hz Hoff] Hroom. destruct (Hoff after) as [Hl _].
  destruct (next_occurrence_local expr tz spec after Hp Hz) as (r & -> & Hr);
    [by rewrite Hl|]. rewrite Hl in Hr. exists (zone_utc tz <$> r). split; [done|].
  destruct r as [w|]; simpl.
  - rewrite (proj2 (Hoff w)), Z.sub_add. destruct Hr as (Hb & Hw & Hm & Hmin).
    split_and!; [lia|done|done|]. intros v Hv. apply Hmin. lia.
  - intros v Hv. apply Hr. lia.
Qed.

(** The instant [h:m:s] on day [d]. *)
Definition at_clock (d h m s : Z) : Z := d * us_per_day + (h * 3600 + m * 60 + s) * 1000000.

Lemma at_clock_fields d h m s :
  0 ≤ h ≤ 23 → 0 ≤ m ≤ 59 → 0 ≤ s ≤ 59 →
  let w := at_clock d h m s in
  dt_day w = d ∧ dt_hour w = h ∧ dt_minute w = m ∧ dt_second w = s ∧ whole_second w.
Proof.
  intros Hh Hm Hs. cbv zeta. unfold dt_day, dt_hour, dt_minute, dt_second, whole_second, at_clock, us_per_day.
  split_and!; try (Z.to_euclidean_division_equations; lia).
  exists (d * 86400 + (h * 3600 + m * 60 + s)). lia.
Qed.

Lemma field_has lo hi vs : field_ok lo hi vs → ∃ v, v ∈ vs ∧ lo ≤ v ≤ hi.
Proof.
  intros [Hne Hall]. destruct vs as [|v vs]; [done|]. exists v.
  split; [by left|]. by inversion Hall.
Qed.

Lemma dt_month_bounds w : 1 ≤ (dt_month_day w).1 ≤ 12.
Proof.
  unfold dt_month_day. apply month_day_bounds. rewrite <-year_length.
  pose proof (year_of_day_spec (dt_day w)). lia.
Qed.

(** An expression that names every month and leaves the day of month free
    matches within eight days. *)
Lemma weekly_match spec w0 :
  spec_ok spec → dom_is_wildcard spec = true → (∀ m, 1 ≤ m ≤ 12 → m ∈ months spec) →
  ∃ w, w0 < w ≤ w0 + 8 * us_per_day ∧ whole_second w ∧ _cron_matches spec w = true.
Proof.
  intros (Hsec & Hmin & Hhour & _ & _ & Hdow & _) Hdom Hmonths.
  destruct (field_has _ _ _ Hsec) as (s & Hs & Bs), (field_has _ _ _ Hmin) as (m & Hm & Bm),
    (field_has _ _ _ Hhour) as (h & Hh & Bh), (field_has _ _ _ Hdow) as (dw & Hdw & Bdw).
  set (d0 := w0 / us_per_day). set (k := (dw - 2 - d0) mod 7 + 1).
  destruct (at_clock_fields (d0 + k) h m s) as (Ed & Eh & Em & Es & Hws); [done..|].
  exists (at_clock (d0 + k) h m s).
  assert (1 ≤ k ≤ 7) as Hk by (unfold k; pose proof (Z.mod_pos_bound (dw - 2 - d0) 7); lia).
  split.
  { pose proof (Z_div_mod_eq_full w0 us_per_day) as E.
    pose proof (Z.mod_pos_bound w0 us_per_day ltac:(done)) as B. fold d0 in E.
    unfold at_clock, us_per_day in *. lia. }
  split; [done|]. unfold _cron_matches, dt_weekday. rewrite Ed, Eh, Em, Es.
  rewrite !(proj2 (z_in_elem _ _)) by auto using dt_month_bounds.
  rewrite Hdom. cbn [negb andb].
  assert (((d0 + k) mod 7 + 1) mod 7 = dw) as ->
    by (unfold k; Z.to_euclidean_division_equations; lia).
  rewrite (proj2 (z_in_elem _ _) Hdw). by destruct (dow_is_wildcard spec).
Qed.

(** A cron expression with every month allowed and [*] as day of month does
    come due: in a zone of constant offset the next occurrence exists and lies
    within eight days. *)
Theorem weekly_cron_comes_due expr tz spec off after :
  _parse_cron_expression expr = Ok spec → fixed_zone tz off → search_room (after + off) →
  dom_is_wildcard spec = true → (∀ m, 1 ≤ m ≤ 12 → m ∈ months spec) →
  ∃ u, _next_cron_occurrence expr tz after = Ok (Some u) ∧ after < u ≤ after + 8 * us_per_day.
Proof.
  intros Hp [Hz Hoff] Hroom Hdom Hmonths. destruct (Hoff after) as [Hl _].
  destruct (next_occurrence_local expr tz spec after Hp Hz) as (r & -> & Hr);
    [by rewrite Hl|]. rewrite Hl in Hr.
  destruct (weekly_match spec (after + off) (parse_cron_ok _ _ Hp) Hdom Hmonths)
    as (w & Hw & Hws & Hm).
  destruct r as [w'|]; simpl.
  - exists (zone_utc tz w'). split; [done|]. rewrite (proj2 (Hoff w')).
    destruct Hr as (Hb & _ & _ & Hmin).
    destruct (Z.le_gt_cases w' w) as [|Hgt]; [lia|].
    by rewrite Hmin in Hm by (lia || done).
  - assert (8 * us_per_day ≤ cron_horizon) by done. by rewrite Hr in Hm by (lia || done).
Qed.
End next.
