(* ===== verification/ScheduleProps.v ===== *)
(** Schedules: stored forms read back as themselves, the next due time lies
    after its argument, and the due points selected for a job respect its
    misfire policy and lateness. *)

From S2P Require Import Prelude PyValue Timestamps PyText IsoText Schedule ScheduleCron.
From Stdlib Require Import Ascii.

Local Open Scope Z_scope.

(** ** Misfire policies *)

Definition policy_ok (p : MisfirePolicy) : Prop :=
  str_in (mf_mode p) ALLOWED_MISFIRE_MODES = true ∧ 1 ≤ catch_up_max p ∧
  (mf_mode p ≠ "catch_up" → catch_up_max p = 1).

Lemma drop_last_snoc c s : drop_last c (s +:+ String c "") = Some s.
Proof.
  induction s as [|d s IH]; [simpl; by rewrite Ascii.eqb_refl|].
  change (drop_last c (String d (s +:+ String c "")) = Some (String d s)). cbn [drop_last].
  rewrite IH. by destruct s.
Qed.

Lemma catch_up_match_pretty n :
  0 ≤ n → catch_up_match ("catch_up(max=" +:+ pretty n +:+ ")") = Some (pretty n).
Proof.
  intros Hn. pose proof (all_digits_pretty n Hn) as Hd. generalize dependent (pretty n).
  intros s Hd. unfold catch_up_match.
  change (py_startswith ("catch_up(max=" +:+ s +:+ ")") "catch_up(max=") with
    (String.prefix "" (s +:+ ")")).
  assert (String.prefix "" (s +:+ ")") = true) as -> by (by destruct (s +:+ ")")).
  change (String.length ("catch_up(max=" +:+ s +:+ ")") - 13)%nat with (String.length (s +:+ ")") - 0)%nat.
  rewrite Nat.sub_0_r.
  change (String.substring 13 (String.length (s +:+ ")")) ("catch_up(max=" +:+ s +:+ ")")) with
    (String.substring 0 (String.length (s +:+ ")")) (s +:+ ")")).
  rewrite substring_all. change ")" with (String ")"%char ""). by rewrite drop_last_snoc, Hd.
Qed.

Lemma catch_up_strip n :
  0 ≤ n → py_strip ("catch_up(max=" +:+ pretty n +:+ ")") = "catch_up(max=" +:+ pretty n +:+ ")".
Proof.
  intros Hn. apply strip_no_space. rewrite !str_all_app.
  assert (str_all (λ c, negb (latin1_is_space c)) (pretty n) = true) as ->; [|done].
  pose proof (all_digits_pretty n Hn) as Hd. unfold all_digits in Hd. bsplit.
  eapply str_all_impl; [apply digit_not_space|done].
Qed.

(** The text stored for a misfire policy reads back as that policy, for every
    policy [normalize_misfire_policy] can produce, and the policies it produces
    are all of that kind. *)
Theorem misfire_policy_roundtrip p :
  policy_ok p →
  normalize_misfire_policy (PStr (encode_misfire_policy p)) = Ok p ∧
  ∀ v q, normalize_misfire_policy v = Ok q → 1 ≤ catch_up_max q ∧
    str_in (mf_mode q) ALLOWED_MISFIRE_MODES = true.
Proof.
  intros (Hmode & Hmax & Hone). split.
  - destruct p as [mode cu]. cbn [mf_mode catch_up_max] in *. unfold encode_misfire_policy. cbn [mf_mode catch_up_max].
    destruct (String.eqb_spec mode "catch_up") as [->|Hne].
    + rewrite Z.max_r by lia. unfold normalize_misfire_policy. cbn [py_str].
      rewrite catch_up_strip, catch_up_match_pretty by lia.
      change (truthy ("catch_up(max=" +:+ pretty cu +:+ ")")) with true. cbn [negb].
      unfold int_text, py_int. rewrite int_of_text_pretty by lia. cbn [mbind result_bind].
      unfold checked_policy. cbn [negb str_in existsb]. simpl. by rewrite Z.max_r by lia.
    + specialize (Hone Hne). subst cu. apply str_in_elem in Hmode.
      unfold ALLOWED_MISFIRE_MODES in Hmode. rewrite !elem_of_cons, elem_of_nil in Hmode.
      destruct Hmode as [->|[->|[->|[]]]]; [reflexivity|reflexivity|done].
  - intros v q. unfold normalize_misfire_policy, checked_policy, mbind, result_bind.
    intros H. repeat case_match; simplify_eq/=; bsplit; split; try lia; done.
Qed.

(** ** Stored schedules *)

Section sched.
Context {Env : PyEnv} {Sched : ScheduleEnv}.

Lemma parse_isoformat t :
  iso_reads_back → instant_ok t → parse_iso_datetime (PStr (isoformat t)) = Ok t.
Proof.
  intros Hiso Ht. unfold parse_iso_datetime. rewrite str_or_blank_str, isoformat_strip by done.
  rewrite isoformat_truthy. cbn [negb]. rewrite isoformat_no_Z, Hiso by done. simpl default.
  unfold instant_ok in Ht. rewrite dt_add_ok by lia. f_equal. lia.
Qed.
Lemma parse_iso_range v t : parse_iso_datetime v = Ok t → instant_ok t.
Proof.
  unfold parse_iso_datetime. intros H. repeat case_match; try done.
  apply dt_add_inv in H as [-> H]. done.
Qed.

Lemma field_text_str d k s : dget d k = Some (PStr s) → field_text d k = py_strip s.
Proof. intros H. unfold field_text. by rewrite H. Qed.

Lemma default_timezone_strip : py_strip _default_timezone_name = _default_timezone_name.
Proof.
  unfold _default_timezone_name. repeat case_match; try reflexivity. apply strip_idem.
Qed.
Lemma default_timezone_truthy : truthy _default_timezone_name = true.
Proof. unfold _default_timezone_name. by repeat case_match. Qed.

Lemma py_int_or (z : Z) : py_int (py_or (PInt z) (PInt 0)) = Ok z.
Proof. unfold py_or. simpl. destruct (Z.eqb_spec z 0) as [->|]; done. Qed.

(** Normalisation of a stored schedule, by kind. *)
Lemma normalize_stored s :
  normalize_schedule (PDict (nsched_dict s)) =
  match s with
  | NAt _ => normalize_at (nsched_dict s)
  | NEvery _ _ => normalize_every (nsched_dict s)
  | NCron _ _ _ => normalize_cron (nsched_dict s)
  end.
Proof. by destruct s. Qed.

(** A normalised schedule is a fixed point of normalisation. *)
Lemma normalize_stored_fixed v s :
  iso_reads_back → normalize_schedule v = Ok s → normalize_schedule (PDict (nsched_dict s)) = Ok s.
Proof.
  intros Hiso H. unfold normalize_schedule in H. destruct v; try done.
  repeat case_match; try done.
  - unfold normalize_at in H. psplit H. simplify_eq. apply parse_iso_range in E.
    rewrite normalize_stored. unfold normalize_at. rewrite (field_text_str _ "at" (to_iso_utc x)) by done.
    unfold to_iso_utc. by rewrite isoformat_strip, parse_isoformat by done.
  - unfold normalize_every in H. psplit H. case_match eqn:He; [done|]. psplit H.
    case_match eqn:Hj; [done|]. simplify_eq. rewrite normalize_stored. unfold normalize_every.
    cbn [nsched_dict dget String.eqb Ascii.eqb Bool.eqb default id py_int mbind result_bind].
    rewrite He, py_int_or. cbn [mbind result_bind]. by rewrite Hj.
  - unfold normalize_cron in H. case_match eqn:Ht; [done|]. psplit H. psplit H. psplit H.
    case_match eqn:Hs; [done|]. simplify_eq. bsplit.
    rewrite normalize_stored. unfold normalize_cron.
    rewrite (field_text_str _ "expr" (field_text d "expr")) by done.
    assert (py_strip (field_text d "expr") = field_text d "expr") as -> by apply strip_idem.
    rewrite Ht. cbn [negb]. rewrite E.
    cbn [nsched_dict dget String.eqb Ascii.eqb Bool.eqb default id mbind result_bind].
    rewrite str_or_blank_str. set (tz := if truthy _ then _ else _) in *.
    assert (py_strip tz = tz ∧ truthy tz = true) as [-> Htz].
    { subst tz. destruct (truthy (str_or_blank _)) eqn:Etz;
        [|split; [apply default_timezone_strip|apply default_timezone_truthy]].
      split; [apply strip_idem|done]. }
    rewrite Htz, E0, py_int_or. cbn [mbind result_bind]. by rewrite Hs.
Qed.

(** The stored form of a schedule stands for the schedule the caller gave:
    the mapping kept in the store normalises to the same schedule again, and the
    due times computed from it are those of the original. *)
Theorem stored_schedule_equivalent v s after job last :
  iso_reads_back → normalize_schedule v = Ok s →
  normalize_schedule (PDict (nsched_dict s)) = Ok s ∧
  compute_next_due (PDict (nsched_dict s)) after job last = compute_next_due v after job last.
Proof.
  intros Hiso H. pose proof (normalize_stored_fixed v s Hiso H) as E. split; [done|].
  unfold compute_next_due. by rewrite E, H.
Qed.

(** ** The next due time *)

Lemma cron_search_ge fuel spec step limit : ∀ cursor w,
  0 ≤ step → cron_search fuel spec step limit cursor = Some (Ok (Some w)) → cursor ≤ w.
Proof.
  induction fuel as [|fuel IH]; intros cursor w Hs H; [done|]. rewrite cron_search_S in H.
  repeat case_match; simplify_eq; [lia|].
  match goal with E : dt_add _ _ = Ok _ |- _ => apply dt_add_inv in E as [-> _] end.
  apply IH in H; lia.
Qed.

Lemma next_occurrence_after expr tz off after u :
  fixed_zone tz off → _next_cron_occurrence expr tz after = Ok (Some u) → after < u.
Proof.
  intros [Hz Hoff] H. unfold _next_cron_occurrence in H. do 5 psplit H.
  destruct x3 as [w|]; [|done]. simplify_eq. rewrite (proj2 (Hoff w)).
  unfold cron_start in E1. psplit E1. simplify_eq. apply dt_add_inv in E4 as [-> _].
  rewrite (proj1 (Hoff after)) in *.
  destruct (cron_search _ _ _ _ _) as [r|] eqn:Es; simpl in E3; [|done]. subst r.
  pose proof (cron_step_pos x). apply cron_search_ge in Es; [|lia].
  pose proof (Z.mod_pos_bound (after + off + cron_step x) (cron_step x) ltac:(lia)). lia.
Qed.

(** Schedules whose occurrences the theorems below order: a one-time or
    interval schedule, or a cron expression in a zone of constant offset. *)
Definition steady (s : nsched) : Prop :=
  match s with
  | NAt _ => True
  | NEvery every_ms jitter_ms => 0 < every_ms ∧ 0 ≤ jitter_ms
  | NCron _ tz stagger_ms => (∃ off, fixed_zone tz off) ∧ 0 ≤ stagger_ms
  end.

Lemma digest_below_bounds seed bound n : digest_below seed bound = Ok n → 0 ≤ n ≤ Z.max 0 bound.
Proof.
  unfold digest_below. case_match eqn:E; intros H; [simplify_eq; lia|]. psplit H. simplify_eq.
  apply Z.leb_gt in E. pose proof (Z.mod_pos_bound x (bound + 1)). lia.
Qed.

(** How far a due time may be pushed back by jitter or stagger. *)
Definition spread_ms (s : nsched) : Z :=
  match s with NAt _ => 0 | NEvery _ j => j | NCron _ _ st => st end.

Lemma next_due_after s after job last u :
  steady s → after ≤ default after last →
  next_due_of s after job last = Ok (Some u) → after < u.
Proof.
  intros Hs Hlast H. destruct s as [t|e j|x tz st]; simpl in *.
  - psplit H. case_match eqn:E1; simplify_eq. by apply Z.ltb_lt in E1.
  - psplit H. apply dt_add_inv in E as [-> _]. case_match; [|simplify_eq; lia].
    psplit H. psplit H. simplify_eq. apply digest_below_bounds in E. apply dt_add_inv in E0 as [-> _].
    lia.
  - destruct Hs as [[off Hz] Hst]. psplit H. destruct x0 as [d|]; [|done].
    apply (next_occurrence_after x tz off) in E; [|done]. case_match; [simplify_eq; lia|].
    psplit H. psplit H. simplify_eq. apply digest_below_bounds in E0. apply dt_add_inv in E1 as [-> _].
    lia.
Qed.

Lemma normalized_steady v s :
  normalize_schedule v = Ok s →
  (∀ x tz st, s = NCron x tz st → ∃ off, fixed_zone tz off) → steady s.
Proof.
  intros H Hz. unfold normalize_schedule in H. destruct v; try done. repeat case_match; try done.
  - unfold normalize_at in H. psplit H. by simplify_eq.
  - unfold normalize_every in H. psplit H. case_match eqn:He; [done|]. psplit H.
    case_match eqn:Hj; [done|]. simplify_eq. rewrite Z.leb_gt in He. rewrite Z.ltb_ge in Hj. done.
  - unfold normalize_cron in H. case_match; [done|]. psplit H. psplit H. psplit H.
    case_match eqn:Hs; [done|]. simplify_eq. rewrite Z.ltb_ge in Hs. split; [by eapply Hz|done].
Qed.

(** ** Due points *)

Lemma due_loop_points k s job now c cands cur :
  due_loop k s job now c = Ok (cands, cur) →
  Forall (λ t, t ≤ now) cands ∧ (length cands ≤ k)%nat ∧
  (∀ n, cur = Some n → now < n ∨ length cands = k).
Proof.
  revert c cands cur. induction k as [|k IH]; intros c cands cur H; cbn [due_loop] in H.
  { simplify_eq. split_and!; [done|done|]. by right. }
  destruct (Z.leb_spec c now) as [Hle|Hgt].
  - destruct s; [simplify_eq; split_and!; [by repeat constructor|simpl; lia|done]|..];
      psplit H; (destruct x as [c'|];
        [|simplify_eq; split_and!; [by repeat constructor|simpl; lia|done]]);
      psplit H; destruct x as [cs cur']; simplify_eq/=;
      apply IH in E0 as (Hf & Hl & Hn); split_and!;
      [by constructor|simpl; lia|intros n ->; destruct (Hn n eq_refl); [by left|right; simpl; lia]
      |by constructor|simpl; lia|intros n ->; destruct (Hn n eq_refl); [by left|right; simpl; lia]].
  - simplify_eq. split_and!; [done|simpl; lia|]. intros n [= <-]. by left.
Qed.

Lemma last_n_elem {A} k (l : list A) x : x ∈ last_n k l → x ∈ l.
Proof.
  unfold last_n. intros H. rewrite <-(take_drop (length l - Z.to_nat k) l). apply elem_of_app. by right.
Qed.
Lemma last_n_length {A} k (l : list A) : (length (last_n k l) ≤ Z.to_nat k)%nat.
Proof. unfold last_n. rewrite length_drop. lia. Qed.

(** The number of runs a policy allows at once. *)
Definition policy_limit (p : MisfirePolicy) : nat :=
  if String.eqb (mf_mode p) "catch_up" then Z.to_nat (Z.max 1 (catch_up_max p)) else 1%nat.

Lemma select_points_bounds p s now cands recent :
  (length (select_points p s now cands recent) ≤ policy_limit p)%nat ∧
  ∀ t, t ∈ select_points p s now cands recent →
    t ∈ recent ∨ t = now ∧ recent = [] ∧ cands ≠ [] ∧ mf_mode p ≠ "skip".
Proof.
  unfold select_points, policy_limit.
  pose proof (@last_n_length Z) as Hlen. pose proof (@last_n_elem Z) as Hel.
  assert (∀ k, last_n k (@nil Z) = []) as Hnil by (intros k; unfold last_n; by rewrite drop_nil).
  destruct (String.eqb_spec (mf_mode p) "catch_up") as [Ec|Ec];
    [|destruct (String.eqb_spec (mf_mode p) "skip") as [Es|Es]].
  - destruct (last_n _ recent) as [|x l] eqn:El.
    + split; [by repeat case_match; simpl; try lia|]. intros t Ht.
      destruct cands, recent; simpl in Ht; try by apply elem_of_nil in Ht.
      case_match; [|by apply elem_of_nil in Ht]. apply list_elem_of_singleton in Ht as ->.
      right. split_and!; try done. by rewrite Ec.
    + rewrite <-El. split; [apply Hlen|]. eauto.
  - split; [apply (Hlen 1)|]. eauto.
  - destruct (last_n 1 recent) as [|x l] eqn:El.
    + split; [by repeat case_match; simpl; try lia|]. intros t Ht.
      destruct cands, recent; simpl in Ht; try by apply elem_of_nil in Ht.
      apply list_elem_of_singleton in Ht as ->. by right.
    + rewrite <-El. split; [apply (Hlen 1)|]. eauto.
Qed.

(** The due points selected for a job respect its misfire policy: at most one
    point under [skip] and [run_once], at most [catch_up_max] under [catch_up];
    every point is at most [max_lateness_s] late and never in the future (the
    point [now] that stands for points that are all too old included). *)
Theorem due_points_respect_policy v next_due job misfire lateness now points next policy :
  _select_due_points_for_job v next_due job misfire lateness now = Ok (points, next) →
  normalize_misfire_policy (PStr misfire) = Ok policy →
  (length points ≤ policy_limit policy)%nat ∧
  ∀ t, t ∈ points → now - Z.max 0 lateness * 1000000 ≤ t ≤ now.
Proof.
  intros H Hp. unfold _select_due_points_for_job in H. psplit H.
  case_match; [simplify_eq; split; [simpl; lia|]; by intros t ?%elem_of_nil|].
  psplit H. psplit H. destruct x1 as [cands cur]. rewrite Hp in H. cbn [mbind result_bind] in H.
  psplit H. psplit H. simplify_eq. apply dt_add_inv in E2 as [-> _].
  apply due_loop_points in E1 as (Hle & _ & _).
  destruct (select_points_bounds policy x now cands
    (List.filter (λ t, now + - (Z.max 0 lateness * 1000000) <=? t) cands)) as [Hlen Hin].
  split; [done|]. intros t Ht.
  destruct (Hin t Ht) as [Hr|(-> & _ & Hc & _)]; [|lia].
  apply filter_elem in Hr as [Hc Hle']. rewrite Forall_forall in Hle. specialize (Hle _ Hc).
  apply Z.leb_le in Hle'. lia.
Qed.

(** A normalised schedule, with a cron zone of constant offset. *)
Definition stored_steady (s : nsched) : Prop :=
  normalize_schedule (PDict (nsched_dict s)) = Ok s ∧ steady s.

Lemma stored_next_due_after s after job u :
  stored_steady s →
  compute_next_due (PDict (nsched_dict s)) after job (Some after) = Ok (Some u) → after < u.
Proof.
  intros [Hn Hs] H. unfold compute_next_due in H. rewrite Hn in H. cbn [mbind result_bind] in H.
  eapply next_due_after; [done| |done]. simpl. lia.
Qed.

Lemma due_loop_grows k s job now c cands n :
  stored_steady s → due_loop k s job now c = Ok (cands, Some n) →
  c ≤ n ∧ (cands ≠ [] → c < n).
Proof.
  intros Hs. revert c cands. induction k as [|k IH]; intros c cands H; cbn [due_loop] in H.
  { by simplify_eq. }
  destruct (Z.leb_spec c now) as [Hle|Hgt]; [|by simplify_eq].
  destruct s; [done|..]; psplit H; (destruct x as [c'|]; [|done]); psplit H;
    apply stored_next_due_after in E; try done; destruct x as [cs cur]; simplify_eq/=;
    apply IH in E0 as [? _]; lia.
Qed.

(** Evaluating a job moves its next due time forward: the new one is in the
    future, or the evaluation stopped after 512 missed points and the new one is
    later than the old one, so that repeated evaluations catch up.  Cron zones
    are taken with a constant offset. *)
Theorem next_due_advances v s next_due start job misfire lateness now points n :
  iso_reads_back → normalize_schedule v = Ok s →
  (∀ x tz st, s = NCron x tz st → ∃ off, fixed_zone tz off) →
  parse_iso_datetime (PStr (py_strip next_due)) = Ok start →
  _select_due_points_for_job v (Some next_due) job misfire lateness now = Ok (points, Some n) →
  now < n ∨ start < n ∧ ∃ cands, due_loop 512 s job now start = Ok (cands, Some n) ∧ length cands = 512%nat.
Proof.
  intros Hiso Hn Hz Hstart H.
  assert (stored_steady s) as Hs by (split; [by eapply normalize_stored_fixed|by eapply normalized_steady]).
  unfold _select_due_points_for_job in H. rewrite Hn in H. cbn [mbind result_bind] in H.
  assert (512 ≠ 0)%nat as Hk by done. revert Hk H. generalize 512%nat. intros k Hk H.
  assert (str_or (Some next_due) "" = next_due) as Heq by (by destruct next_due).
  rewrite Heq in H. case_match; [done|]. rewrite Hstart in H. cbn [mbind result_bind] in H.
  psplit H. destruct x as [cands cur]. psplit H. psplit H. psplit H. simplify_eq.
  destruct (is_at s); [done|]. destruct cur as [c|]; simplify_eq.
  - pose proof (due_loop_points _ _ _ _ _ _ _ E) as (_ & _ & Hcap).
    pose proof (due_loop_grows _ _ _ _ _ _ _ Hs E) as [_ Hlt].
    destruct (Hcap n eq_refl) as [|Hlen]; [by left|right]. split; [|eauto].
    apply Hlt. intros ->. by apply Hk.
  - left. by eapply stored_next_due_after.
Qed.

(** Around the end of daylight-saving time the next due time can lie in the
    past.  In a zone whose offset drops from [off] to [off - h] at the instant
    [T], an occurrence after [after >= T] that falls in the repeated wall-clock
    hour is converted with the earlier reading ([fold = 0]), and the result is
    before [T]. *)
Theorem fall_back_due_in_past expr tz spec off h T after w :
  _parse_cron_expression expr = Ok spec → zone_load tz = ZoneFound →
  (∀ t, zone_local tz t = t + (if t <? T then off else off - h)) →
  (∀ v, zone_utc tz v = v - (if v <? T + off then off else off - h)) →
  h ≤ us_per_day → T ≤ after → search_room (after + (off - h)) →
  after + (off - h) < w < T + off → whole_second w → _cron_matches spec w = true →
  ∃ u, _next_cron_occurrence expr tz after = Ok (Some u) ∧ u < T ≤ after.
Proof.
  intros Hp Hz Hl Hu Hh Ht Hroom Hw Hws Hm.
  assert (zone_local tz after = after + (off - h)) as El
    by (rewrite Hl, (proj2 (Z.ltb_ge _ _)) by done; done).
  destruct (next_occurrence_local expr tz spec after Hp Hz) as (r & -> & Hr); rewrite El in *;
    [done|].
  destruct r as [w'|]; simpl.
  - destruct Hr as (Hb & _ & _ & Hmin). exists (zone_utc tz w'). split; [done|].
    assert (w' ≤ w) by (destruct (Z.le_gt_cases w' w); [done|]; by rewrite Hmin in Hm by (lia || done)).
    rewrite Hu, (proj2 (Z.ltb_lt _ _)) by lia. lia.
  - rewrite Hr in Hm; [done| |done].
    assert (us_per_day ≤ cron_horizon) by done. lia.
Qed.
End sched.

(** ** A concrete environment

    Timestamps are read by [read_iso]; the zone database has [UTC] and a zone
    that falls back from +02:00 to +01:00 on 2024-10-27 at 01:00 UTC. *)

Definition demo_fall_back : Z := 739185 * us_per_day + 3600000000.
Definition hour_us : Z := 3600000000.

#[export] Instance sched_env : PyEnv := {|
  py_clock n := 739180 * us_per_day + Z.of_nat n * 1000000;
  py_uuid4 n := "id-" +:+ pretty n;
  py_sha256_hexdigest s := "000003e8" +:+ s;
  py_re_search pat s := None;
  py_url_hostname s := None;
  py_path_expanduser s := s;
  py_fromisoformat s := (λ t, (t, Some 0)) <$> read_iso s;
|}.
#[export] Instance demo_zones : ScheduleEnv := {|
  zone_load tz := if str_in tz ["UTC"; "Europe/Berlin"] then ZoneFound else ZoneNotFound;
  zone_local tz t := if String.eqb tz "UTC" then t
    else t + (if t <? demo_fall_back then 2 * hour_us else hour_us);
  zone_utc tz w := if String.eqb tz "UTC" then w
    else w - (if w <? demo_fall_back + 2 * hour_us then 2 * hour_us else hour_us);
  local_tzname := "CET";
  timestamp_ms t := t / 1000 - 719162 * 86400000;
|}.

Lemma sched_iso_reads_back : iso_reads_back.
Proof. intros t Ht. simpl. by rewrite read_iso_isoformat. Qed.
Lemma demo_utc_fixed : fixed_zone "UTC" 0.
Proof. split; [done|]. intros t. simpl. lia. Qed.

Definition demo_now : Z := 739180 * us_per_day + 9 * hour_us + 30000000.
Definition demo_every : pyval :=
  PDict [("kind", PStr "every"); ("every_ms", PStr "60000"); ("jitter_ms", PInt 500)].
Definition demo_cron : pyval :=
  PDict [("kind", PStr "cron"); ("expr", PStr " 30 9 * * 1-5 "); ("tz", PStr "UTC")].

Example demo_cron_normal :
  normalize_schedule demo_cron = Ok (NCron "30 9 * * 1-5" "UTC" 0).
Proof. vm_compute. reflexivity. Qed.
Example demo_default_zone : _default_timezone_name = "UTC".
Proof. vm_compute. reflexivity. Qed.

Definition demo_spec : _CronSpec :=
  {| has_seconds := false; seconds := [0]; minutes := [30]; hours := [9];
     days_of_month := z_range 1 31 1; months := z_range 1 12 1; days_of_week := [1; 2; 3; 4; 5];
     dom_is_wildcard := true; dow_is_wildcard := false |}.
Example demo_spec_parses : _parse_cron_expression "30 9 * * 1-5" = Ok demo_spec.
Proof. vm_compute. reflexivity. Qed.
Lemma demo_months m : 1 ≤ m ≤ 12 → m ∈ months demo_spec.
Proof. intros H. apply z_in_elem. assert (m ∈ z_range 1 12 1) as Hm; [|by apply z_in_elem].
  unfold z_range. apply list_elem_of_fmap. exists (Z.to_nat (m - 1)).
  change (Z.to_nat ((12 - 1) / 1 + 1)) with 12%nat. rewrite elem_of_seq. lia.
Qed.
Lemma demo_room : search_room (demo_now + 0).
Proof. unfold search_room. split; by vm_compute. Qed.

Lemma cron_search_terminates_witness :
  0 < 60000000 ∧ ∃ r, ∀ fuel, (cron_fuel 60000000 (demo_now + cron_horizon) demo_now ≤ fuel)%nat →
    cron_search fuel demo_spec 60000000 (demo_now + cron_horizon) demo_now = Some r.
Proof. split; [done|]. by apply (cron_search_terminates demo_spec 60000000). Defined.

Lemma next_cron_occurrence_first_witness :
  ∃ r, _next_cron_occurrence "30 9 * * 1-5" "UTC" demo_now = Ok r ∧
  match r with
  | Some u => demo_now < u ∧ whole_second (u + 0) ∧ _cron_matches demo_spec (u + 0) = true ∧
      ∀ v, demo_now < v < u → whole_second (v + 0) → _cron_matches demo_spec (v + 0) = false
  | None => ∀ v, demo_now < v ≤ demo_now + cron_horizon → whole_second (v + 0) →
      _cron_matches demo_spec (v + 0) = false
  end.
Proof.
  apply (next_cron_occurrence_first "30 9 * * 1-5" "UTC" demo_spec 0 demo_now).
  - apply demo_spec_parses.
  - apply demo_utc_fixed.
  - apply demo_room.
Defined.

Lemma weekly_cron_comes_due_witness :
  ∃ u, _next_cron_occurrence "30 9 * * 1-5" "UTC" demo_now = Ok (Some u) ∧
    demo_now < u ≤ demo_now + 8 * us_per_day.
Proof.
  apply (weekly_cron_comes_due "30 9 * * 1-5" "UTC" demo_spec 0 demo_now).
  - apply demo_spec_parses.
  - apply demo_utc_fixed.
  - apply demo_room.
  - reflexivity.
  - apply demo_months.
Defined.

Lemma misfire_policy_roundtrip_witness :
  normalize_misfire_policy (PStr "catch_up(max=12)") = Ok {| mf_mode := "catch_up"; catch_up_max := 12 |}.
Proof.
  apply (misfire_policy_roundtrip {| mf_mode := "catch_up"; catch_up_max := 12 |}).
  split_and!; by vm_compute.
Defined.

Lemma stored_schedule_equivalent_witness :
  normalize_schedule (PDict (nsched_dict (NEvery 60000 500))) = Ok (NEvery 60000 500) ∧
  compute_next_due (PDict (nsched_dict (NEvery 60000 500))) demo_now "job" None =
    compute_next_due demo_every demo_now "job" None.
Proof.
  apply (stored_schedule_equivalent demo_every (NEvery 60000 500) demo_now "job" None).
  - apply sched_iso_reads_back.
  - vm_compute. reflexivity.
Defined.

Definition demo_due_at : string := isoformat (demo_now - 180000000).
Definition demo_points : list Z := [demo_now - 119501000; demo_now - 59002000].
Definition demo_next : Z := demo_now + 1497000.

Example demo_selects :
  _select_due_points_for_job demo_every (Some demo_due_at) "job" "catch_up(max=2)" 600 demo_now
  = Ok (demo_points, Some demo_next).
Proof. vm_compute. reflexivity. Qed.

Lemma due_points_respect_policy_witness :
  (length demo_points ≤ 2)%nat ∧
  ∀ t, t ∈ demo_points → demo_now - Z.max 0 600 * 1000000 ≤ t ≤ demo_now.
Proof.
  apply (due_points_respect_policy demo_every (Some demo_due_at) "job" "catch_up(max=2)" 600 demo_now
           demo_points (Some demo_next) {| mf_mode := "catch_up"; catch_up_max := 2 |}).
  - apply demo_selects.
  - vm_compute. reflexivity.
Defined.

Lemma next_due_advances_witness :
  demo_now < demo_next ∨ demo_now - 180000000 < demo_next ∧
  ∃ cands, due_loop 512 (NEvery 60000 500) "job" demo_now (demo_now - 180000000)
    = Ok (cands, Some demo_next) ∧ length cands = 512%nat.
Proof.
  apply (next_due_advances demo_every (NEvery 60000 500) demo_due_at (demo_now - 180000000) "job"
           "catch_up(max=2)" 600 demo_now demo_points demo_next).
  - apply sched_iso_reads_back.
  - vm_compute. reflexivity.
  - intros x tz st H. discriminate H.
  - vm_compute. reflexivity.
  - apply demo_selects.
Defined.

(** Ten minutes into the repeated hour, an expression due every five minutes is
    next due 45 minutes before the clocks went back. *)
Definition demo_spec5 : _CronSpec :=
  {| has_seconds := false; seconds := [0]; minutes := z_range 0 59 5; hours := z_range 0 23 1;
     days_of_month := z_range 1 31 1; months := z_range 1 12 1; days_of_week := z_range 0 6 1;
     dom_is_wildcard := true; dow_is_wildcard := true |}.

Lemma fall_back_due_in_past_witness :
  ∃ u, _next_cron_occurrence "*/5 * * * *" "Europe/Berlin" (demo_fall_back + 600000000) = Ok (Some u) ∧
    u < demo_fall_back ≤ demo_fall_back + 600000000.
Proof.
  apply (fall_back_due_in_past "*/5 * * * *" "Europe/Berlin" demo_spec5 (2 * hour_us) hour_us
           demo_fall_back (demo_fall_back + 600000000) (demo_fall_back + hour_us + 900000000)).
  - vm_compute. reflexivity.
  - reflexivity.
  - intros t. reflexivity.
  - intros v. reflexivity.
  - by vm_compute.
  - by vm_compute.
  - split; by vm_compute.
  - split; by vm_compute.
  - exists 63865592100. reflexivity.
  - vm_compute. reflexivity.
Defined.
