(* ===== verification/CronTables.v ===== *)
(** The cron tables of the session database ([modules/session/storage/schema.py]
    and [rows.py]) and the SQL statements the cron store runs on them.  A JSON
    column is kept as the value its text encodes ([to_json] sorts the keys of
    objects); rows are listed in row-id order, which is also the order of rows
    that an [ORDER BY] leaves tied. *)

From S2P Require Import Prelude PyValue Timestamps PyText Schedule.
From Stdlib Require Import Ascii.

Local Open Scope Z_scope.

Record CronJob := {
  j_job_id : string;
  j_name : string;
  j_description : option string;
  j_enabled : bool;
  j_agent_id : option string;
  j_schedule : pyval;
  j_payload : pyval;
  j_delivery : pyval;
  j_session_target : string;
  j_wake_mode : string;
  j_delete_after_run : bool;
  j_misfire_policy : string;
  j_max_lateness_s : Z;
  j_max_concurrency : Z;
  j_concurrency_key : option string;
  j_max_attempts : Z;
  j_retry_backoff_s : Z;
  j_next_due_at : option string;
  j_last_run_at : option string;
  j_created_at : string;
  j_updated_at : string;
}.

Record CronRun := {
  r_run_id : string;
  r_job_id : option string;
  r_state : string;
  r_due_at : string;
  r_available_at : option string;
  r_started_at : option string;
  r_finished_at : option string;
  r_isolated_session_id : option string;
  r_summary : option string;
  r_artifact_refs : pyval;
  r_error : option pyval;
  r_output : pyval;
  r_lease_owner : option string;
  r_lease_expires_at : option string;
  r_delivery_targets : list string;
  r_attempts : Z;
  r_created_at : string;
  r_updated_at : string;
}.

Record SchedulerControl := {
  c_paused : bool;
  c_reason : option string;
  c_actor : option string;
  c_updated_at : string;
}.
Record ScopeState := {
  s_last_success_run_id : string;
  s_last_success_at : string;
  s_watermark : pyval;
  s_updated_at : string;
}.

(** The database, the number of clock readings taken and of identifiers drawn.
    [scheduled_tasks] holds the [cron_job_id] of every scheduled task, [None]
    when the table does not exist. *)
Record CronWorld := {
  cron_jobs : list CronJob;
  cron_runs : list CronRun;
  scheduler_control : option SchedulerControl;
  cron_scope_state : gmap string ScopeState;
  scheduled_tasks : option (list string);
  cron_ticks : nat;
  cron_uuids : nat;
}.

Inductive cron_exn : Type :=
| CronPy (e : py_exn)
| TaskControlError (code message : string) (details : dict)
| CronRuntimeError (msg : string)
| IntegrityError (msg : string).
Abbreviation CM A := (M CronWorld cron_exn A).

Definition cron_value_error {A} (msg : string) : CM A := raise (CronPy (PyValueError msg)).
Definition lift_py {A} (r : PR A) : CM A :=
  lift_result (match r with Ok a => Ok a | Raise e => Raise (CronPy e) end).

(** ** Row views *)

Definition opt_str (o : option string) : pyval := match o with Some s => PStr s | None => PNone end.

Definition row_to_cron_job (j : CronJob) : dict :=
  [("job_id", PStr (j_job_id j)); ("name", PStr (j_name j));
   ("description", opt_str (j_description j)); ("enabled", PBool (j_enabled j));
   ("agent_id", opt_str (j_agent_id j)); ("schedule", j_schedule j); ("payload", j_payload j);
   ("delivery", j_delivery j); ("session_target", PStr (j_session_target j));
   ("wake_mode", PStr (j_wake_mode j)); ("delete_after_run", PBool (j_delete_after_run j));
   ("misfire_policy", PStr (j_misfire_policy j)); ("max_lateness_s", PInt (j_max_lateness_s j));
   ("max_concurrency", PInt (j_max_concurrency j));
   ("concurrency_key", opt_str (j_concurrency_key j)); ("max_attempts", PInt (j_max_attempts j));
   ("retry_backoff_s", PInt (j_retry_backoff_s j)); ("next_due_at", opt_str (j_next_due_at j));
   ("last_run_at", opt_str (j_last_run_at j)); ("created_at", PStr (j_created_at j));
   ("updated_at", PStr (j_updated_at j))].
Definition row_to_cron_run (r : CronRun) : dict :=
  [("run_id", PStr (r_run_id r)); ("job_id", opt_str (r_job_id r)); ("state", PStr (r_state r));
   ("due_at", PStr (r_due_at r)); ("available_at", opt_str (r_available_at r));
   ("started_at", opt_str (r_started_at r)); ("finished_at", opt_str (r_finished_at r));
   ("isolated_session_id", opt_str (r_isolated_session_id r)); ("summary", opt_str (r_summary r));
   ("artifact_refs", r_artifact_refs r); ("error", default PNone (r_error r));
   ("output", r_output r); ("lease_owner", opt_str (r_lease_owner r));
   ("lease_expires_at", opt_str (r_lease_expires_at r));
   ("delivery_targets", PList (PStr <$> r_delivery_targets r)); ("attempts", PInt (r_attempts r));
   ("created_at", PStr (r_created_at r)); ("updated_at", PStr (r_updated_at r))].

(** [str(value or "").strip()] of an optional text. *)
Definition text_of (o : option string) : string := py_strip (str_or o "").
(** [str(value or "").strip() or None] *)
Definition text_or_none (o : option string) : option string :=
  let s := text_of o in if truthy s then Some s else None.
(** [to_json(v)]: the value the text encodes. *)
Definition to_json (v : pyval) : pyval := json_sort v.

(** ** Worlds *)

Definition set_jobs (f : list CronJob → list CronJob) (w : CronWorld) : CronWorld :=
  {| cron_jobs := f (cron_jobs w); cron_runs := cron_runs w;
     scheduler_control := scheduler_control w; cron_scope_state := cron_scope_state w;
     scheduled_tasks := scheduled_tasks w; cron_ticks := cron_ticks w; cron_uuids := cron_uuids w |}.
Definition set_runs (f : list CronRun → list CronRun) (w : CronWorld) : CronWorld :=
  {| cron_jobs := cron_jobs w; cron_runs := f (cron_runs w);
     scheduler_control := scheduler_control w; cron_scope_state := cron_scope_state w;
     scheduled_tasks := scheduled_tasks w; cron_ticks := cron_ticks w; cron_uuids := cron_uuids w |}.
Definition set_control (c : option SchedulerControl) (w : CronWorld) : CronWorld :=
  {| cron_jobs := cron_jobs w; cron_runs := cron_runs w;
     scheduler_control := c; cron_scope_state := cron_scope_state w;
     scheduled_tasks := scheduled_tasks w; cron_ticks := cron_ticks w; cron_uuids := cron_uuids w |}.
Definition set_scope (m : gmap string ScopeState) (w : CronWorld) : CronWorld :=
  {| cron_jobs := cron_jobs w; cron_runs := cron_runs w;
     scheduler_control := scheduler_control w; cron_scope_state := m;
     scheduled_tasks := scheduled_tasks w; cron_ticks := cron_ticks w; cron_uuids := cron_uuids w |}.
Definition set_counters (t u : nat) (w : CronWorld) : CronWorld :=
  {| cron_jobs := cron_jobs w; cron_runs := cron_runs w;
     scheduler_control := scheduler_control w; cron_scope_state := cron_scope_state w;
     scheduled_tasks := scheduled_tasks w; cron_ticks := t; cron_uuids := u |}.

(** A failed transaction restores the tables, not the clock. *)
Definition cron_rollback (before after : CronWorld) : CronWorld :=
  set_counters (cron_ticks after) (cron_uuids after) before.
Definition cron_tx {A} (m : CM A) : CM A := transaction cron_rollback m.

(** ** Statements *)

Definition has_job_id (jid : string) (j : CronJob) : bool := String.eqb (j_job_id j) jid.
Definition has_run_id (rid : string) (r : CronRun) : bool := String.eqb (r_run_id r) rid.
Definition job_row (w : CronWorld) (jid : string) : option CronJob :=
  List.find (has_job_id jid) (cron_jobs w).
Definition run_row (w : CronWorld) (rid : string) : option CronRun :=
  List.find (has_run_id rid) (cron_runs w).
(** [JOIN cron_jobs AS j ON j.job_id = r.job_id] *)
Definition job_of (w : CronWorld) (r : CronRun) : option CronJob :=
  match r_job_id r with Some jid => job_row w jid | None => None end.

Definition update_runs (p : CronRun → bool) (f : CronRun → CronRun) : CM nat := λ w,
  (set_runs (update_where p f) w, Ok (count_where p (cron_runs w))).
Definition update_jobs (p : CronJob → bool) (f : CronJob → CronJob) : CM nat := λ w,
  (set_jobs (update_where p f) w, Ok (count_where p (cron_jobs w))).
Definition delete_runs (p : CronRun → bool) : CM nat := λ w,
  (set_runs (List.filter (λ r, negb (p r))) w, Ok (count_where p (cron_runs w))).

Definition run_with_job (jid : option string) (r : CronRun) : CronRun :=
  {| r_run_id := r_run_id r; r_job_id := jid; r_state := r_state r; r_due_at := r_due_at r;
     r_available_at := r_available_at r; r_started_at := r_started_at r;
     r_finished_at := r_finished_at r; r_isolated_session_id := r_isolated_session_id r;
     r_summary := r_summary r; r_artifact_refs := r_artifact_refs r; r_error := r_error r;
     r_output := r_output r; r_lease_owner := r_lease_owner r;
     r_lease_expires_at := r_lease_expires_at r; r_delivery_targets := r_delivery_targets r;
     r_attempts := r_attempts r; r_created_at := r_created_at r; r_updated_at := r_updated_at r |}.
Definition of_job (jid : string) (r : CronRun) : bool := ostr_eqb (r_job_id r) (Some jid).
(** [DELETE FROM cron_jobs]: the runs of the job keep no job ([ON DELETE SET NULL]). *)
Definition delete_job (jid : string) : CM () :=
  modify (λ w, set_runs (update_where (of_job jid) (run_with_job None))
                 (set_jobs (List.filter (λ j, negb (has_job_id jid j))) w)).

Definition insert_job (j : CronJob) : CM () := λ w,
  match job_row w (j_job_id j) with
  | Some _ => (w, Raise (IntegrityError "UNIQUE constraint failed: cron_jobs.job_id"))
  | None => (set_jobs (λ l, l ++ [j]) w, Ok ())
  end.

(** [INSERT INTO cron_runs], with or without [ON CONFLICT(job_id, due_at) DO NOTHING]. *)
Definition insert_run (do_nothing : bool) (r : CronRun) : CM nat := λ w,
  match run_row w (r_run_id r) with
  | Some _ => (w, Raise (IntegrityError "UNIQUE constraint failed: cron_runs.run_id"))
  | None =>
      if existsb (λ r', match r_job_id r with
                        | Some jid => of_job jid r' && String.eqb (r_due_at r') (r_due_at r)
                        | None => false
                        end) (cron_runs w)
      then if do_nothing then (w, Ok 0%nat)
           else (w, Raise (IntegrityError "UNIQUE constraint failed: cron_runs.job_id, cron_runs.due_at"))
      else match r_job_id r, job_of w r with
           | Some _, None => (w, Raise (IntegrityError "FOREIGN KEY constraint failed"))
           | _, _ => (set_runs (λ l, l ++ [r]) w, Ok 1%nat)
           end
  end.

(** ** States *)

Definition ACTIVE_STATES : list string := ["queued"; "running"].
Definition TERMINAL_STATES : list string := ["finished"; "failed"; "cancelled"; "timed_out"].
Definition run_active (r : CronRun) : bool := str_in (r_state r) ACTIVE_STATES.
Definition run_terminal (r : CronRun) : bool := str_in (r_state r) TERMINAL_STATES.
Definition run_is (state : string) (r : CronRun) : bool := String.eqb (r_state r) state.

(** ** The clock *)

Section Clock.
Context {Env : PyEnv}.
Definition utc_now : CM Z := λ w,
  (set_counters (S (cron_ticks w)) (cron_uuids w) w, Ok (py_clock (cron_ticks w))).
(** [uuid4().hex] *)
Definition new_id : CM string := λ w,
  (set_counters (cron_ticks w) (S (cron_uuids w)) w, Ok (py_uuid4 (cron_uuids w))).
(** [parse_iso_datetime(now_iso) if now_iso else utc_now()] *)
Definition now_or (now_iso : option string) : CM Z :=
  if otruthy now_iso then lift_py (parse_iso_datetime (opt_str now_iso)) else utc_now.
End Clock.
