(* ===== verification/CronStore.v ===== *)
(** The cron store ([modules/session/storage/cron_store.py] and
    [cron_coordination.py], classes [CronStore] and [CronCoordinationStore]):
    jobs, their runs, leases and retries, scheduler control and the state shared
    by the jobs of a concurrency key.  Every method runs under the store's lock
    and in one transaction, so methods are atomic steps.  A mapping returned for
    a row is given by the row; [row_to_cron_run] and [row_to_cron_job] are the
    mappings themselves. *)

From S2P Require Import Prelude PyValue Timestamps PyText Schedule CronTables.
From Stdlib Require Import Ascii.

Local Open Scope Z_scope.

Definition MAX_CRON_ATTEMPTS : Z := 10.
Definition MAX_CRON_RETRY_BACKOFF_SECONDS : Z := 86400.
Definition TASK_REASON_SCHEDULE_INTERVAL_TOO_SHORT : string := "TASK_SCHEDULE_INTERVAL_TOO_SHORT".
Definition TASK_INTERNAL_PAUSE_REASON_KEY : string := "_openminion_pause_reason".
Definition TASK_INTERNAL_PAUSE_SOURCE_KEY : string := "_openminion_pause_source".
Definition TASK_REASON_NOT_ACTIVE : string := "task_not_active".
Definition TASK_REASON_BUSY : string := "task_busy".
Definition TASK_REASON_UNSUPPORTED_KIND : string := "task_unsupported_kind".
Definition TASK_REASON_REVISION_CONFLICT : string := "task_revision_conflict".
Definition TASK_REASON_PAST_DUE : string := "task_past_due".
Definition TASK_REASON_SCHEDULER_REVISION_CONFLICT : string := "scheduler_revision_conflict".
Definition TASK_REASON_SCHEDULER_PAUSED : string := "scheduler_paused".

(** ** Column updates *)

(** A new run row. *)
Definition new_run (rid jid state due : string) (available finished : option string)
    (error : option pyval) (owner lease : option string) (now : string) : CronRun :=
  {| r_run_id := rid; r_job_id := Some jid; r_state := state; r_due_at := due;
     r_available_at := available; r_started_at := None; r_finished_at := finished;
     r_isolated_session_id := None; r_summary := None; r_artifact_refs := PList [];
     r_error := error; r_output := PDict []; r_lease_owner := owner; r_lease_expires_at := lease;
     r_delivery_targets := []; r_attempts := 0; r_created_at := now; r_updated_at := now |}.

(** The columns that claiming, requeueing and failing a run change. *)
Definition run_claim (state : string) (available started finished : option string)
    (error : option pyval) (owner lease : option string) (attempts : Z) (now : string)
    (r : CronRun) : CronRun :=
  {| r_run_id := r_run_id r; r_job_id := r_job_id r; r_state := state; r_due_at := r_due_at r;
     r_available_at := available; r_started_at := started;
     r_finished_at := finished; r_isolated_session_id := r_isolated_session_id r;
     r_summary := r_summary r; r_artifact_refs := r_artifact_refs r; r_error := error;
     r_output := r_output r; r_lease_owner := owner;
     r_lease_expires_at := lease; r_delivery_targets := r_delivery_targets r;
     r_attempts := attempts; r_created_at := r_created_at r; r_updated_at := now |}.
Definition run_start (owner lease now : string) (r : CronRun) : CronRun :=
  run_claim "running" None (Some (default now (r_started_at r))) (r_finished_at r) (r_error r)
    (Some owner) (Some lease) (r_attempts r + 1) now r.
Definition run_requeue (available : string) (error : pyval) (now : string) (r : CronRun) : CronRun :=
  run_claim "queued" (Some available) None (r_finished_at r) (Some error) None None (r_attempts r) now r.
Definition run_fail (error : pyval) (now : string) (r : CronRun) : CronRun :=
  run_claim "failed" (r_available_at r) (r_started_at r) (Some now) (Some error) None None
    (r_attempts r) now r.
Definition run_cancel (now : string) (r : CronRun) : CronRun :=
  run_claim "cancelled" (r_available_at r) (r_started_at r) (Some now) (r_error r) None None
    (r_attempts r) now r.
Definition run_renew (lease now : string) (r : CronRun) : CronRun :=
  run_claim (r_state r) (r_available_at r) (r_started_at r) (r_finished_at r) (r_error r)
    (r_lease_owner r) (Some lease) (r_attempts r) now r.
Definition run_targets (targets : list string) (now : string) (r : CronRun) : CronRun :=
  {| r_run_id := r_run_id r; r_job_id := r_job_id r; r_state := r_state r; r_due_at := r_due_at r;
     r_available_at := r_available_at r; r_started_at := r_started_at r;
     r_finished_at := r_finished_at r; r_isolated_session_id := r_isolated_session_id r;
     r_summary := r_summary r; r_artifact_refs := r_artifact_refs r; r_error := r_error r;
     r_output := r_output r; r_lease_owner := r_lease_owner r;
     r_lease_expires_at := r_lease_expires_at r; r_delivery_targets := targets;
     r_attempts := r_attempts r; r_created_at := r_created_at r; r_updated_at := now |}.
Definition run_finish (state : string) (summary : option string) (artifacts : pyval)
    (error : option pyval) (output : pyval) (isolated : option string) (now : string)
    (r : CronRun) : CronRun :=
  {| r_run_id := r_run_id r; r_job_id := r_job_id r; r_state := state; r_due_at := r_due_at r;
     r_available_at := r_available_at r; r_started_at := r_started_at r;
     r_finished_at := Some now; r_isolated_session_id := isolated;
     r_summary := summary; r_artifact_refs := artifacts; r_error := error;
     r_output := output; r_lease_owner := None;
     r_lease_expires_at := None; r_delivery_targets := r_delivery_targets r;
     r_attempts := r_attempts r; r_created_at := r_created_at r; r_updated_at := now |}.

(** The columns of a job that change after it is created. *)
Definition job_with (enabled : bool) (schedule payload : pyval) (next_due last_run : option string)
    (now : string) (j : CronJob) : CronJob :=
  {| j_job_id := j_job_id j; j_name := j_name j; j_description := j_description j;
     j_enabled := enabled; j_agent_id := j_agent_id j; j_schedule := schedule;
     j_payload := payload; j_delivery := j_delivery j; j_session_target := j_session_target j;
     j_wake_mode := j_wake_mode j; j_delete_after_run := j_delete_after_run j;
     j_misfire_policy := j_misfire_policy j; j_max_lateness_s := j_max_lateness_s j;
     j_max_concurrency := j_max_concurrency j; j_concurrency_key := j_concurrency_key j;
     j_max_attempts := j_max_attempts j; j_retry_backoff_s := j_retry_backoff_s j;
     j_next_due_at := next_due; j_last_run_at := last_run; j_created_at := j_created_at j;
     j_updated_at := now |}.
Definition job_switch (enabled : bool) (next_due : option string) (now : string) (j : CronJob) : CronJob :=
  job_with enabled (j_schedule j) (j_payload j) next_due (j_last_run_at j) now j.
Definition job_payload (payload : pyval) (now : string) (j : CronJob) : CronJob :=
  job_with (j_enabled j) (j_schedule j) payload (j_next_due_at j) (j_last_run_at j) now j.
Definition job_next_due (next_due : option string) (now : string) (j : CronJob) : CronJob :=
  job_with (j_enabled j) (j_schedule j) (j_payload j) next_due (j_last_run_at j) now j.
Definition job_last_run (now : string) (j : CronJob) : CronJob :=
  job_with (j_enabled j) (j_schedule j) (j_payload j) (j_next_due_at j) (Some now) now j.
Definition job_edit (schedule payload : pyval) (next_due : option string) (now : string)
    (j : CronJob) : CronJob :=
  job_with (j_enabled j) schedule payload next_due (j_last_run_at j) now j.

Section Cron.
Context {Env : PyEnv} {Sched : ScheduleEnv}.

(** ** Queries *)

Definition _is_task_owned_job (w : CronWorld) (job_id : string) : bool :=
  match scheduled_tasks w with None => false | Some ids => str_in job_id ids end.

Definition _scheduler_is_paused_locked (w : CronWorld) : bool :=
  match scheduler_control w with Some c => c_paused c | None => false end.

(** [COUNT(1)] of the runs of a concurrency key, by state. *)
Definition scope_count (w : CronWorld) (key : string) (p : CronRun → bool) : nat :=
  count_where (λ r, match job_of w r with
                    | Some j => ostr_eqb (j_concurrency_key j) (Some key) && p r
                    | None => false
                    end) (cron_runs w).
Definition job_active_count (w : CronWorld) (job_id : string) : nat :=
  count_where (λ r, of_job job_id r && run_active r) (cron_runs w).

Definition _active_cron_run_count (w : CronWorld) (job_id coordination_key : string) : nat :=
  if truthy coordination_key then scope_count w coordination_key run_active
  else job_active_count w job_id.

Definition _scope_has_running_run_locked (w : CronWorld) (key excluding_run_id : string) : bool :=
  (0 <? scope_count w key (λ r, run_is "running" r && negb (has_run_id excluding_run_id r)))%nat.

Definition kind_of (schedule : pyval) : string :=
  match schedule with PDict d => str_or_blank (dget_none d "kind") | _ => "" end.

(** [_initial_next_due], for a normalised schedule. *)
Definition _initial_next_due (s : nsched) (now : Z) (job_id : string) : PR (option string) :=
  match s with
  | NAt at_ => Ok (Some at_)
  | _ =>
      next ← compute_next_due (PDict (nsched_dict s)) now job_id None;
      Ok (option_map to_iso_utc next)
  end.

Definition _due_job_rows (w : CronWorld) (now_iso : string) (now limit : Z) : list CronJob :=
  let enabled_due j := j_enabled j && match j_next_due_at j with Some _ => true | None => false end in
  let due_text j := default "" (j_next_due_at j) in
  let rows := limit_rows limit (sort_asc due_text
    (List.filter (λ j, enabled_due j && str_leb (due_text j) now_iso) (cron_jobs w))) in
  match rows with
  | _ :: _ => rows
  | [] =>
      let fallback := sort_asc due_text (List.filter enabled_due (cron_jobs w)) in
      limit_rows limit (List.filter (λ j,
        match parse_iso_datetime (PStr (due_text j)) with Ok t => t <=? now | Raise _ => false end)
        fallback)
  end.

(** ** Jobs *)

Record NewCronJob := {
  a_name : option string;
  a_schedule : pyval;
  a_payload : pyval;
  a_description : option string;
  a_enabled : bool;
  a_agent_id : option string;
  a_session_target : option string;
  a_wake_mode : option string;
  a_delivery : option pyval;
  a_delete_after_run : option bool;
  a_misfire_policy : pyval;
  a_max_lateness_s : Z;
  a_max_concurrency : Z;
  a_concurrency_key : option string;
  a_max_attempts : Z;
  a_retry_backoff_s : Z;
  a_job_id : option string;
}.

Definition payload_kind (payload : dict) : string := py_str (dget_none payload "kind").

Definition add_cron_job (a : NewCronJob) : CM string :=
  let normalized_name := text_of (a_name a) in
  if negb (truthy normalized_name) then cron_value_error "cron job name is required"
  else
    normalized_schedule ← lift_py (normalize_schedule (a_schedule a));
    normalized_payload ← lift_py (normalize_payload (a_payload a));
    normalized_target ← lift_py
      (match a_session_target a with
       | None => Ok (default_session_target_for_payload (payload_kind normalized_payload))
       | Some _ => normalize_session_target (a_session_target a)
       end);
    _ ← lift_py (validate_target_payload_pair normalized_target (payload_kind normalized_payload));
    normalized_wake_mode ← lift_py (normalize_wake_mode (a_wake_mode a));
    let delivery_default :=
      if String.eqb normalized_target "isolated"
      then PDict [("mode", PStr "announce"); ("channel", PStr "last"); ("to", PStr "last")]
      else PDict [("mode", PStr "none")] in
    normalized_delivery ← lift_py (normalize_delivery (default delivery_default (a_delivery a)));
    let delete_flag := default (default_delete_after_run (nsched_kind normalized_schedule))
                         (a_delete_after_run a) in
    policy ← lift_py (normalize_misfire_policy (a_misfire_policy a));
    jid ← (let j := py_strip (str_or (a_job_id a) "") in if truthy j then mret j else new_id);
    now_dt ← utc_now;
    let now := to_iso_utc now_dt in
    next_due ← lift_py (_initial_next_due normalized_schedule now_dt jid);
    _ ← cron_tx (insert_job
      {| j_job_id := jid; j_name := normalized_name; j_description := a_description a;
         j_enabled := a_enabled a; j_agent_id := text_or_none (a_agent_id a);
         j_schedule := to_json (PDict (nsched_dict normalized_schedule));
         j_payload := to_json (PDict normalized_payload);
         j_delivery := to_json (PDict normalized_delivery);
         j_session_target := normalized_target; j_wake_mode := normalized_wake_mode;
         j_delete_after_run := delete_flag; j_misfire_policy := encode_misfire_policy policy;
         j_max_lateness_s := Z.max 0 (a_max_lateness_s a);
         j_max_concurrency := Z.max 1 (a_max_concurrency a);
         j_concurrency_key := text_or_none (a_concurrency_key a);
         j_max_attempts := Z.max 1 (Z.min (a_max_attempts a) MAX_CRON_ATTEMPTS);
         j_retry_backoff_s := Z.max 1 (Z.min (a_retry_backoff_s a) MAX_CRON_RETRY_BACKOFF_SECONDS);
         j_next_due_at := if a_enabled a then next_due else None; j_last_run_at := None;
         j_created_at := now; j_updated_at := now |});
    mret jid.

(** [str(x or "").strip()], required. *)
Definition required (x msg : string) : CM string :=
  let t := py_strip x in if truthy t then mret t else cron_value_error msg.

Definition get_cron_job (job_id : string) : CM (option CronJob) :=
  jid ← required job_id "job_id is required";
  gets (λ w, job_row w jid).

Definition list_cron_jobs (enabled : option bool) (limit : Z) (agent_id : option string)
    (include_unowned : bool) : CM (list CronJob) :=
  let safe_limit := Z.max 1 (Z.min limit 1000) in
  gets (λ w, limit_rows safe_limit (sort_desc j_created_at (List.filter (λ j,
    match enabled with Some b => Bool.eqb (j_enabled j) b | None => true end &&
    match agent_id with
    | Some a => ostr_eqb (j_agent_id j) (Some (py_strip a))
                || include_unowned && match j_agent_id j with None => true | Some _ => false end
    | None => true
    end) (cron_jobs w)))).

Definition set_cron_job_enabled (job_id : string) (enabled cancel_queued : bool)
    (next_due_at_override : option string) : CM () :=
  job ← get_cron_job job_id;
  match job with
  | None => cron_value_error ("cron job not found: " +:+ job_id)
  | Some j =>
      now_dt ← utc_now;
      let now := to_iso_utc now_dt in
      next_due ←
        (match enabled, next_due_at_override with
         | true, Some due => mret (Some due)
         | true, None => lift_py (s ← normalize_schedule (j_schedule j);
                                  _initial_next_due s now_dt (j_job_id j))
         | false, _ => mret None
         end);
      cron_tx (
        _ ← update_jobs (has_job_id (j_job_id j)) (job_switch enabled next_due now);
        if negb enabled && cancel_queued then
          _ ← update_runs (λ r, of_job (j_job_id j) r && run_is "queued" r) (run_cancel now);
          mret ()
        else mret ())
  end.

Definition delete_cron_job (job_id : string) : CM () :=
  jid ← required job_id "job_id is required";
  cron_tx (delete_job jid).

Definition replace_cron_job_payload (job_id : string) (payload : pyval) : CM () :=
  jid ← required job_id "job_id is required";
  normalized_payload ← lift_py (normalize_payload payload);
  updated ← cron_tx (now ← utc_now;
    update_jobs (has_job_id jid) (job_payload (to_json (PDict normalized_payload)) (to_iso_utc now)));
  if (updated <=? 0)%nat then cron_value_error ("cron job not found: " +:+ jid) else mret ().

Definition list_cron_runs (job_id : option string) (limit : Z) (states : list string)
    : CM (list CronRun) :=
  let safe_limit := Z.max 1 (Z.min limit 2000) in
  let normalized_states := List.filter truthy (map py_strip states) in
  gets (λ w, limit_rows safe_limit (sort_desc r_created_at (List.filter (λ r,
    match job_id with Some jid => of_job jid r | None => true end &&
    match normalized_states with [] => true | _ => str_in (r_state r) normalized_states end)
    (cron_runs w)))).

(** [COALESCE(finished_at, updated_at, created_at)]: [updated_at] is not null. *)
Definition last_change (r : CronRun) : string := default (r_updated_at r) (r_finished_at r).
(** [a] before [b] in [ORDER BY last_change DESC, run_id DESC]. *)
Definition newer_run (a b : CronRun) : bool :=
  str_ltb (last_change b) (last_change a)
  || String.eqb (last_change a) (last_change b) && str_ltb (r_run_id b) (r_run_id a).

Definition list_unresolved_task_runs (limit offset : Z) : CM (list CronRun) :=
  let safe_limit := Z.max 1 (Z.min limit 1000) in
  let safe_offset := Z.max 0 offset in
  gets (λ w,
    let terminal := List.filter (λ r, run_terminal r
      && match r_job_id r with Some _ => true | None => false end
      && negb (run_is "cancelled" r && (r_attempts r =? 0))) (cron_runs w) in
    let newest := List.filter (λ r,
      negb (existsb (λ r', ostr_eqb (r_job_id r') (r_job_id r) && newer_run r' r) terminal)) terminal in
    limit_rows safe_limit (drop (Z.to_nat safe_offset)
      (sort_asc last_change (sort_asc r_run_id newest)))).

(** ** Retries *)

Definition _retry_delay_seconds (attempts base_backoff_s : Z) : Z :=
  Z.min (base_backoff_s * 2 ^ Z.max 0 (attempts - 1)) MAX_CRON_RETRY_BACKOFF_SECONDS.

(** [int(value or default)] of an integer column. *)
Definition z_or (v d : Z) : Z := if v =? 0 then d else v.

Definition lease_expired (now_iso : string) (r : CronRun) : bool :=
  match r_lease_expires_at r with Some e => str_leb e now_iso | None => false end.

Definition lease_error (code message : string) (attempts limit : Z) (extra : dict) : pyval :=
  PDict ([("code", PStr code); ("message", PStr message); ("attempts", PInt attempts);
          ("max_attempts", PInt limit)] ++ extra).

(** One row of the recovery: the new row, by its run and job as selected. *)
Definition recover_row (now_dt : Z) (now_iso : string) (row : CronRun * CronJob)
    : CM dict :=
  let '(r, j) := row in
  let attempts := r_attempts r in
  let attempt_limit := Z.max 1 (z_or (j_max_attempts j) 3) in
  let still r' := has_run_id (r_run_id r) r' && run_is "running" r' in
  if attempt_limit <=? attempts then
    let error := lease_error "cron_lease_expired_max_attempts"
                   "cron run lease expired after the final attempt" attempts attempt_limit [] in
    _ ← update_runs still (run_fail (to_json error) now_iso);
    mret [("run_id", PStr (r_run_id r)); ("job_id", opt_str (r_job_id r)); ("state", PStr "failed");
          ("attempts", PInt attempts); ("error", error)]
  else
    let delay_s := _retry_delay_seconds attempts (Z.max 1 (z_or (j_retry_backoff_s j) 30)) in
    available ← lift_py (dt_add now_dt (delay_s * 1000000));
    let available_at := to_iso_utc available in
    let error := lease_error "cron_lease_expired_retry"
                   "cron run lease expired; delayed retry scheduled" attempts attempt_limit
                   [("retry_delay_s", PInt delay_s)] in
    _ ← update_runs still (run_requeue available_at (to_json error) now_iso);
    mret [("run_id", PStr (r_run_id r)); ("job_id", opt_str (r_job_id r)); ("state", PStr "queued");
          ("attempts", PInt attempts); ("available_at", PStr available_at); ("error", error)].

(** The results of a loop body, in order. *)
Fixpoint for_each {A B} (f : A → CM B) (l : list A) : CM (list B) :=
  match l with
  | [] => mret []
  | x :: l' => y ← f x; ys ← for_each f l'; mret (y :: ys)
  end.

Definition expired_rows (w : CronWorld) (now_iso : string) (limit : Z) : list (CronRun * CronJob) :=
  limit_rows (Z.max 1 (Z.min limit 1000))
    (sort_asc (λ rj, default "" (r_lease_expires_at rj.1))
       (omap (λ r, match job_of w r with
                   | Some j => if run_is "running" r && lease_expired now_iso r then Some (r, j) else None
                   | None => None
                   end) (cron_runs w))).

Definition _recover_expired_cron_runs_locked (now_dt : Z) (now_iso : string) (limit : Z)
    : CM (list dict) :=
  rows ← gets (λ w, expired_rows w now_iso limit);
  for_each (recover_row now_dt now_iso) rows.

Definition recover_expired_cron_runs (now_iso : option string) (limit : Z) : CM (list dict) :=
  now_dt ← now_or now_iso;
  cron_tx (_recover_expired_cron_runs_locked now_dt (to_iso_utc now_dt) limit).

(** The owner and attempt number a worker presents; both or neither. *)
Definition fence_of (daemon_id : option string) (expected_attempts : option Z)
    : CM (option (string * Z)) :=
  match daemon_id, expected_attempts with
  | Some d, Some n => mret (Some (py_strip d, n))
  | None, None => mret None
  | _, _ => cron_value_error "daemon_id and expected_attempts must be provided together"
  end.
(** [lease_owner = ? AND attempts = ?] *)
Definition holds_lease (fence : option (string * Z)) (r : CronRun) : bool :=
  match fence with
  | Some (owner, n) => ostr_eqb (r_lease_owner r) (Some owner) && (r_attempts r =? n)
  | None => true
  end.
(** The fence of the other statements also requires [state = 'running']. *)
Definition fenced (fence : option (string * Z)) (r : CronRun) : bool :=
  match fence with Some _ => run_is "running" r | None => true end && holds_lease fence r.

Definition find_run (w : CronWorld) (rid : string) (p : CronRun → bool) : option CronRun :=
  List.find (λ r, has_run_id rid r && p r) (cron_runs w).

Definition retry_cron_run (run_id : string) (error : dict) (daemon_id : option string)
    (expected_attempts : option Z) (now_iso : option string) : CM (option CronRun) :=
  rid ← required run_id "run_id is required";
  fence ← fence_of daemon_id expected_attempts;
  now_dt ← now_or now_iso;
  let now := to_iso_utc now_dt in
  cron_tx (
    w ← get_world;
    match find_run w rid (λ r, run_is "running" r && holds_lease fence r) with
    | None => mret None
    | Some r =>
        let attempts := r_attempts r in
        let limit_col := match job_of w r with Some j => z_or (j_max_attempts j) 1 | None => 1 end in
        let backoff_col := match job_of w r with Some j => z_or (j_retry_backoff_s j) 30 | None => 30 end in
        let attempt_limit := Z.max 1 limit_col in
        let mine r' := has_run_id rid r' && run_is "running" r'
                       && holds_lease (Some (str_or (r_lease_owner r) "", attempts)) r' in
        _ ← (if attempt_limit <=? attempts then
               let terminal_error := dsetdefault (dsetdefault error "attempts" (PInt attempts))
                                       "max_attempts" (PInt attempt_limit) in
               update_runs mine (run_fail (to_json (PDict terminal_error)) now)
             else
               let delay_s := _retry_delay_seconds attempts (Z.max 1 backoff_col) in
               available ← lift_py (dt_add now_dt (delay_s * 1000000));
               let retry_error := dupdate error
                 [("attempts", PInt attempts); ("max_attempts", PInt attempt_limit);
                  ("retry_delay_s", PInt delay_s)] in
               update_runs mine (run_requeue (to_iso_utc available) (to_json (PDict retry_error)) now));
        gets (λ w, run_row w rid)
    end).

(** ** Enqueueing due runs *)

Definition _auto_pause_legacy_short_interval_job (j : CronJob) (now_iso : string) : CM () :=
  let payload := match j_payload j with PDict d => d | _ => [] end in
  let payload := dset payload TASK_INTERNAL_PAUSE_REASON_KEY
                   (PStr TASK_REASON_SCHEDULE_INTERVAL_TOO_SHORT) in
  let payload := dset payload TASK_INTERNAL_PAUSE_SOURCE_KEY (PStr "scheduler") in
  _ ← update_jobs (has_job_id (j_job_id j)) (λ j',
        job_with false (j_schedule j') (to_json (PDict payload)) None (j_last_run_at j') now_iso j');
  mret ().

Definition _persist_due_decision (j : CronJob) (due_points : list Z) (next_due : option Z)
    (now : string) : CM () :=
  _ ← update_jobs (has_job_id (j_job_id j)) (job_next_due (option_map to_iso_utc next_due) now);
  w ← get_world;
  if negb (String.eqb (kind_of (j_schedule j)) "at"
           && String.eqb (py_strip (j_misfire_policy j)) "skip"
           && match due_points with [] => true | _ => false end
           && match next_due with None => true | Some _ => false end
           && _is_task_owned_job w (j_job_id j))
  then mret ()
  else
    let due_iso := str_or (j_next_due_at j) now in
    rid ← new_id;
    _ ← insert_run true (new_run rid (j_job_id j) "failed" due_iso None (Some now)
          (Some (to_json (PDict [("code", PStr "schedule_missed");
             ("message", PStr "one-time task exceeded its allowed lateness")])))
          None None now);
    _ ← update_jobs (has_job_id (j_job_id j)) (job_switch false None now);
    mret ().

Definition enqueue_point (owner lease_expires now jid : string) (due_dt : Z) : CM (option CronRun) :=
  rid ← new_id;
  let due_iso := to_iso_utc due_dt in
  let row := new_run rid jid "queued" due_iso (Some due_iso) None None (Some owner)
               (Some lease_expires) now in
  inserted ← insert_run true row;
  mret (if (inserted <=? 0)%nat then None else Some row).

(** [int(schedule.get("every_ms", 0) or 0) < DEFAULT_TASK_MIN_EVERY_MS] for an
    interval schedule. *)
Definition short_interval (schedule : pyval) : PR bool :=
  match schedule with
  | PDict d =>
      if String.eqb (kind_of schedule) "every"
      then n ← py_int (py_or (default (PInt 0) (dget d "every_ms")) (PInt 0));
           Ok (n <? DEFAULT_TASK_MIN_EVERY_MS)
      else Ok false
  | _ => Ok false
  end.

Definition max_for_job (j : CronJob) : Z :=
  if truthy (text_of (j_concurrency_key j)) then 1 else Z.max 1 (j_max_concurrency j).

(** One due job; the rows it queued. *)
Definition enqueue_job (owner lease_expires now : string) (now_dt : Z) (j : CronJob)
    : CM (list CronRun) :=
  short ← lift_py (short_interval (j_schedule j));
  if (short : bool) then _ ← _auto_pause_legacy_short_interval_job j now; mret []
  else
    w ← get_world;
    let active_count := Z.of_nat (_active_cron_run_count w (j_job_id j) (text_of (j_concurrency_key j))) in
    if max_for_job j <=? active_count then mret []
    else
      sel ← lift_py (_select_due_points_for_job (j_schedule j) (j_next_due_at j) (j_job_id j)
                       (j_misfire_policy j) (j_max_lateness_s j) now_dt);
      let room := Z.max 0 (max_for_job j - active_count) in
      let due_points := if (0 <? room) && (room <? Z.of_nat (length sel.1))
                        then take (Z.to_nat room) sel.1 else sel.1 in
      _ ← _persist_due_decision j due_points sel.2 now;
      rows ← for_each (enqueue_point owner lease_expires now (j_job_id j)) due_points;
      mret (omap id rows).

Definition enqueue_due_cron_runs (daemon_id : string) (lease_ttl_s max_jobs : Z)
    (now_iso : option string) : CM (list CronRun) :=
  owner ← required daemon_id "daemon_id is required";
  let safe_limit := Z.max 1 (Z.min max_jobs 500) in
  now_dt ← now_or now_iso;
  let now := to_iso_utc now_dt in
  expires ← lift_py (dt_add now_dt (Z.max 1 lease_ttl_s * 1000000));
  cron_tx (
    _ ← _recover_expired_cron_runs_locked now_dt now (Z.max 100 (safe_limit * 2));
    w ← get_world;
    if _scheduler_is_paused_locked w then mret []
    else
      queued ← for_each (enqueue_job owner (to_iso_utc expires) now now_dt)
                 (_due_job_rows w now now_dt safe_limit);
      mret (concat queued)).

(** ** Acquiring runs *)

Definition acquirable (w : CronWorld) (owner now : string) (r : CronRun) : bool :=
  match job_of w r with
  | Some j =>
      run_is "queued" r && j_enabled j
      && match r_available_at r with Some a => str_leb a now | None => true end
      && (match r_lease_owner r with None => true | Some o => String.eqb o owner end
          || match r_lease_expires_at r with None => true | Some e => str_leb e now end)
  | None => false
  end.
Definition acquire_candidates (w : CronWorld) (owner now : string) (limit : Z) : list CronRun :=
  limit_rows limit (sort_asc r_due_at (List.filter (acquirable w owner now) (cron_runs w))).

Definition acquire_row (owner lease_expires now : string) (row : CronRun) : CM (option CronRun) :=
  w ← get_world;
  let job_id := text_of (r_job_id row) in
  let coordination_key :=
    match (if truthy job_id then job_row w job_id else None) with
    | Some j => text_of (j_concurrency_key j)
    | None => ""
    end in
  if truthy coordination_key && _scope_has_running_run_locked w coordination_key (r_run_id row)
  then mret None
  else
    updated ← update_runs (λ r, has_run_id (r_run_id row) r && run_is "queued" r)
                (run_start owner lease_expires now);
    if (updated <=? 0)%nat then mret None
    else gets (λ w, run_row w (r_run_id row)).

Definition acquire_cron_runs (daemon_id : string) (lease_ttl_s limit : Z) (now_iso : option string)
    : CM (list CronRun) :=
  owner ← required daemon_id "daemon_id is required";
  let safe_limit := Z.max 1 (Z.min limit 500) in
  now_dt ← now_or now_iso;
  let now := to_iso_utc now_dt in
  expires ← lift_py (dt_add now_dt (Z.max 1 lease_ttl_s * 1000000));
  cron_tx (
    _ ← _recover_expired_cron_runs_locked now_dt now (Z.max 100 (safe_limit * 2));
    w ← get_world;
    if _scheduler_is_paused_locked w then mret []
    else
      rows ← for_each (acquire_row owner (to_iso_utc expires) now)
               (acquire_candidates w owner now safe_limit);
      mret (omap id rows)).

Definition renew_cron_run_lease (run_id daemon_id : string) (expected_attempts lease_ttl_s : Z)
    (now_iso : option string) : CM bool :=
  let rid := py_strip run_id in
  let owner := py_strip daemon_id in
  if negb (truthy rid) then cron_value_error "run_id is required"
  else if negb (truthy owner) then cron_value_error "daemon_id is required"
  else
    now_dt ← now_or now_iso;
    expires ← lift_py (dt_add now_dt (Z.max 1 lease_ttl_s * 1000000));
    cron_tx (
      updated ← update_runs (λ r, has_run_id rid r && fenced (Some (owner, expected_attempts)) r)
                  (run_renew (to_iso_utc expires) (to_iso_utc now_dt));
      mret (0 <? updated)%nat).

(** ** Finishing runs *)

Definition _persist_scope_watermark_locked (key : option string) (state : string)
    (output : option dict) (run_id now_iso : string) : CM () :=
  let coordination_key := text_of key in
  match (if String.eqb state "finished" && truthy coordination_key
         then dget (default [] output) "coordination_watermark" else None) with
  | Some (PDict watermark) =>
      modify (λ w, set_scope (<[coordination_key :=
        {| s_last_success_run_id := run_id; s_last_success_at := now_iso;
           s_watermark := to_json (PDict watermark); s_updated_at := now_iso |}]> (cron_scope_state w)) w)
  | _ => mret ()
  end.

Definition _finalize_one_time_job_locked (job : option CronJob) (state job_id now_iso : string) : CM () :=
  let kind := match job with
              | Some j => match j_schedule j with PDict d => py_str (dget_none d "kind") | _ => "" end
              | None => "None"
              end in
  if negb (String.eqb state "finished") || negb (String.eqb kind "at") then mret ()
  else if match job with Some j => j_delete_after_run j | None => false end
  then delete_job job_id
  else _ ← update_jobs (has_job_id job_id) (job_switch false None now_iso); mret ().

Record RunOutcome := {
  o_state : string;
  o_summary : option string;
  o_artifact_refs : option (list pyval);
  o_error : option dict;
  o_output : option dict;
  o_isolated_session_id : option string;
}.

Definition _finish_cron_run_locked (run_id : string) (o : RunOutcome)
    (fence : option (string * Z)) (now_iso : string) : CM (option CronRun) :=
  w ← get_world;
  match find_run w run_id (fenced fence) with
  | None => mret None
  | Some row =>
      let job := job_of w row in
      updated ← update_runs (λ r, has_run_id run_id r && fenced fence r)
        (run_finish (o_state o) (o_summary o) (to_json (PList (default [] (o_artifact_refs o))))
           (option_map (λ e, to_json (PDict e)) (o_error o))
           (to_json (PDict (default [] (o_output o))))
           (text_or_none (o_isolated_session_id o)) now_iso);
      if (updated <=? 0)%nat then mret None
      else
        _ ← match r_job_id row with
            | None => mret ()
            | Some job_id =>
                _ ← update_jobs (has_job_id job_id) (job_last_run now_iso);
                _ ← _persist_scope_watermark_locked
                      (match job with Some j => j_concurrency_key j | None => None end)
                      (o_state o) (o_output o) run_id now_iso;
                _finalize_one_time_job_locked job (o_state o) job_id now_iso
            end;
        gets (λ w, run_row w run_id)
  end.

(** [o_state] is the argument [state]; the stored state is its normal form. *)
Definition finish_cron_run (run_id : string) (o : RunOutcome) (daemon_id : option string)
    (expected_attempts : option Z) (now_iso : option string) : CM (option CronRun) :=
  let normalized_state := py_strip (o_state o) in
  if negb (str_in normalized_state TERMINAL_STATES)
  then cron_value_error ("invalid terminal state: " +:+ normalized_state)
  else
    rid ← required run_id "run_id is required";
    fence ← fence_of daemon_id expected_attempts;
    now_dt ← now_or now_iso;
    cron_tx (_finish_cron_run_locked rid
      {| o_state := normalized_state; o_summary := o_summary o;
         o_artifact_refs := o_artifact_refs o; o_error := o_error o; o_output := o_output o;
         o_isolated_session_id := o_isolated_session_id o |} fence (to_iso_utc now_dt)).

Definition delete_old_cron_runs (before_iso : string) : CM nat :=
  cutoff ← required before_iso "before_iso is required";
  cron_tx (delete_runs (λ r, str_ltb (r_created_at r) cutoff && run_terminal r)).

Definition delete_terminal_cron_runs (job_id : string) : CM nat :=
  jid ← required job_id "job_id is required";
  cron_tx (delete_runs (λ r, of_job jid r && run_terminal r)).

(** ** Delivery targets *)

Definition edit_delivery_targets (run_id target : string) (daemon_id : option string)
    (expected_attempts : option Z) (edit : string → list string → option (list string)) : CM bool :=
  let rid := py_strip run_id in
  let normalized_target := py_strip target in
  if negb (truthy rid) then cron_value_error "run_id is required"
  else if negb (truthy normalized_target) then cron_value_error "target is required"
  else
    fence ← fence_of daemon_id expected_attempts;
    cron_tx (
      w ← get_world;
      match find_run w rid (fenced fence) with
      | None =>
          match fence with
          | Some _ => mret false
          | None => cron_value_error ("cron run not found: " +:+ rid)
          end
      | Some row =>
          match edit normalized_target (r_delivery_targets row) with
          | None => mret false
          | Some targets =>
              now ← utc_now;
              updated ← update_runs (λ r, has_run_id rid r && fenced fence r)
                          (run_targets targets (to_iso_utc now));
              mret (0 <? updated)%nat
          end
      end).

Definition mark_cron_delivery_target (run_id target : string) (daemon_id : option string)
    (expected_attempts : option Z) : CM bool :=
  edit_delivery_targets run_id target daemon_id expected_attempts
    (λ t targets, if str_in t targets then None else Some (targets ++ [t])).

(** [targets.remove(target)]: the first occurrence. *)
Fixpoint list_remove_str (t : string) (l : list string) : list string :=
  match l with [] => [] | x :: l' => if String.eqb x t then l' else x :: list_remove_str t l' end.

Definition unmark_cron_delivery_target (run_id target : string) (daemon_id : option string)
    (expected_attempts : option Z) : CM bool :=
  edit_delivery_targets run_id target daemon_id expected_attempts
    (λ t targets, if str_in t targets then Some (list_remove_str t targets) else None).

(** ** Operator control *)

Definition task_detail (jid : string) : dict := [("task_id", PStr jid)].

Definition update_task_cron_job (job_id instruction : string) (schedule : pyval)
    (expected_updated_at : string) : CM CronJob :=
  let jid := py_strip job_id in
  let message := py_strip instruction in
  let expected := py_strip expected_updated_at in
  if negb (truthy jid) || negb (truthy message) || negb (truthy expected)
  then cron_value_error "job_id, instruction, and expected_updated_at are required"
  else
    s ← lift_py (normalize_schedule schedule);
    now_dt ← utc_now;
    at_dt ← lift_py (match s with
                     | NAt t => d ← parse_iso_datetime (PStr t); Ok (Some d)
                     | _ => Ok None
                     end);
    if match at_dt with Some t => t <=? now_dt | None => false end
    then raise (TaskControlError TASK_REASON_PAST_DUE "one-time task schedule must be in the future"
                  (task_detail jid))
    else
      let now := to_iso_utc now_dt in
      refreshed ← cron_tx (
        w ← get_world;
        match job_row w jid with
        | None => cron_value_error ("cron job not found: " +:+ jid)
        | Some row =>
            let payload := match j_payload row with PDict d => d | _ => [] end in
            if negb (String.eqb (py_str (py_or (dget_none payload "kind") (PStr ""))) "agentTurn")
               || dmem payload "_openminion_watch" || dmem payload "_openminion_memory_consolidation"
            then raise (TaskControlError TASK_REASON_UNSUPPORTED_KIND
                          "only plain agentTurn tasks can be updated" (task_detail jid))
            else if (0 <? job_active_count w jid)%nat
            then raise (TaskControlError TASK_REASON_BUSY "task has queued or running work" (task_detail jid))
            else
              next_due ← lift_py (if j_enabled row then _initial_next_due s now_dt jid else Ok None);
              updated ← update_jobs (λ j, has_job_id jid j && String.eqb (j_updated_at j) expected)
                (job_edit (to_json (PDict (nsched_dict s)))
                   (to_json (PDict (dset payload "message" (PStr message)))) next_due now);
              if (updated <=? 0)%nat
              then raise (TaskControlError TASK_REASON_REVISION_CONFLICT
                            "task revision changed; refresh and retry" (task_detail jid))
              else gets (λ w, job_row w jid)
        end);
      match refreshed with
      | None => cron_value_error ("cron job not found: " +:+ jid)
      | Some j => mret j
      end.

Definition trigger_task_run_now (job_id : string) : CM CronRun :=
  jid ← required job_id "job_id is required";
  now_dt ← utc_now;
  let now := to_iso_utc now_dt in
  run ← cron_tx (
    w ← get_world;
    if _scheduler_is_paused_locked w
    then raise (TaskControlError TASK_REASON_SCHEDULER_PAUSED "task scheduler is paused" (task_detail jid))
    else match job_row w jid with
    | None => cron_value_error ("cron job not found: " +:+ jid)
    | Some row =>
        if negb (j_enabled row)
        then raise (TaskControlError TASK_REASON_NOT_ACTIVE "task is not active" (task_detail jid))
        else if j_max_concurrency row <=? Z.of_nat (job_active_count w jid)
        then raise (TaskControlError TASK_REASON_BUSY "task is already at its active-run limit"
                      (task_detail jid))
        else
          rid ← new_id;
          _ ← insert_run false (new_run rid jid "queued" now (Some now) None None None None now);
          gets (λ w, run_row w rid)
    end);
  match run with
  | None => raise (CronRuntimeError "queued run was not persisted")
  | Some r => mret r
  end.

Definition trigger_cron_run (job_id : string) (due_at lease_owner : option string) (lease_ttl_s : Z)
    : CM string :=
  w ← get_world;
  match job_row w job_id with
  | None => cron_value_error ("cron job not found: " +:+ job_id)
  | Some j =>
      now_dt ← utc_now;
      let now := to_iso_utc now_dt in
      due_dt ← lift_py (if otruthy due_at then parse_iso_datetime (opt_str due_at) else Ok now_dt);
      expires_dt ← lift_py (if otruthy lease_owner
                            then dt_add now_dt (Z.max 1 lease_ttl_s * 1000000) else Ok now_dt);
      rid ← new_id;
      cron_tx (
        w ← get_world;
        let key := text_of (j_concurrency_key j) in
        if truthy key && (0 <? scope_count w key run_active)%nat
        then cron_value_error ("cron coordination scope is busy: " +:+ key)
        else
          _ ← insert_run false (new_run rid (j_job_id j) "queued" (to_iso_utc due_dt)
                (Some (to_iso_utc due_dt)) None None (text_or_none lease_owner)
                (if otruthy lease_owner then Some (to_iso_utc expires_dt) else None) now);
          mret rid)
  end.

Definition get_cron_scheduler_control : CM SchedulerControl :=
  row ← cron_tx (
    w ← get_world;
    match scheduler_control w with
    | Some c => mret (Some c)
    | None =>
        now ← utc_now;
        _ ← modify (set_control (Some {| c_paused := false; c_reason := None; c_actor := None;
                                         c_updated_at := to_iso_utc now |}));
        gets scheduler_control
    end);
  match row with
  | None => raise (CronRuntimeError "scheduler control state was not persisted")
  | Some c => mret c
  end.

Definition set_cron_scheduler_control (paused : bool) (reason : option string)
    (actor expected_updated_at : string) : CM SchedulerControl :=
  _ ← get_cron_scheduler_control;
  now_dt ← utc_now;
  _ ← cron_tx (
    w ← get_world;
    match scheduler_control w with
    | Some c =>
        if String.eqb (c_updated_at c) (py_strip expected_updated_at)
        then modify (set_control (Some {| c_paused := paused; c_reason := text_or_none reason;
               c_actor := text_or_none (Some actor); c_updated_at := to_iso_utc now_dt |}))
        else raise (TaskControlError TASK_REASON_SCHEDULER_REVISION_CONFLICT
                      "scheduler revision changed; refresh and retry" [])
    | None => raise (TaskControlError TASK_REASON_SCHEDULER_REVISION_CONFLICT
                       "scheduler revision changed; refresh and retry" [])
    end);
  get_cron_scheduler_control.

Definition get_cron_scope_state (concurrency_key : string) : CM (option ScopeState) :=
  key ← required concurrency_key "concurrency_key is required";
  gets (λ w, cron_scope_state w !! key).
End Cron.
