(* ===== verification/CronInv.v ===== *)
(** The invariant of the cron tables and its preservation by every statement
    the cron store runs: unique identifiers, one run per job and due time, runs
    refer to existing jobs, attempts stay within the job's limit, and at most one
    run of a concurrency key is running. *)

From S2P Require Import Prelude PyValue Timestamps PyText Schedule CronTables CronStore.
From Stdlib Require Import Ascii.

Local Open Scope Z_scope.

(** ** The columns of a job that never change *)

Record JobCore := { jc_id : string; jc_key : option string; jc_attempts : Z; jc_concurrency : Z }.
Definition jcore (j : CronJob) : JobCore :=
  {| jc_id := j_job_id j; jc_key := j_concurrency_key j; jc_attempts := j_max_attempts j;
     jc_concurrency := j_max_concurrency j |}.
Definition core_row (cs : list JobCore) (jid : string) : option JobCore :=
  List.find (λ c, String.eqb (jc_id c) jid) cs.
Definition core_of (cs : list JobCore) (r : CronRun) : option JobCore :=
  match r_job_id r with Some jid => core_row cs jid | None => None end.
Definition cores (w : CronWorld) : list JobCore := map jcore (cron_jobs w).

Lemma job_row_core w jid : jcore <$> job_row w jid = core_row (cores w) jid.
Proof.
  unfold job_row, cores. induction (cron_jobs w) as [|j l IH]; simpl; [done|].
  unfold has_job_id at 1. by destruct (String.eqb (j_job_id j) jid).
Qed.
Lemma job_of_core w r : jcore <$> job_of w r = core_of (cores w) r.
Proof. unfold job_of, core_of. destruct (r_job_id r); [apply job_row_core|done]. Qed.
Lemma job_of_core_Some w r j : job_of w r = Some j → core_of (cores w) r = Some (jcore j).
Proof. intros H. by rewrite <-job_of_core, H. Qed.
Lemma core_of_job w r c : core_of (cores w) r = Some c → ∃ j, job_of w r = Some j ∧ jcore j = c.
Proof. rewrite <-job_of_core. destruct (job_of w r) as [j|]; simpl; [|done]. intros [= <-]. eauto. Qed.

(** ** The invariant *)

Definition is_queued (r : CronRun) : Prop := r_state r = "queued".
Definition is_running (r : CronRun) : Prop := r_state r = "running".

Definition core_ok (c : JobCore) : Prop :=
  1 ≤ jc_attempts c ≤ MAX_CRON_ATTEMPTS ∧ 1 ≤ jc_concurrency c ∧
  py_strip (jc_id c) = jc_id c ∧ truthy (jc_id c) = true ∧
  ∀ k, jc_key c = Some k → py_strip k = k ∧ truthy k = true.

Definition run_ok (cs : list JobCore) (r : CronRun) : Prop :=
  0 ≤ r_attempts r ≤ MAX_CRON_ATTEMPTS ∧ (is_queued r → r_attempts r < MAX_CRON_ATTEMPTS) ∧
  ∀ jid, r_job_id r = Some jid → ∃ c, core_row cs jid = Some c ∧
    r_attempts r ≤ jc_attempts c ∧ (is_queued r → r_attempts r < jc_attempts c).

(** Two running runs of jobs with the same concurrency key are the same run. *)
Definition scope_ok (cs : list JobCore) (rs : list CronRun) : Prop :=
  ∀ r1 r2 c1 c2 k, r1 ∈ rs → r2 ∈ rs → is_running r1 → is_running r2 →
    core_of cs r1 = Some c1 → core_of cs r2 = Some c2 → jc_key c1 = Some k → jc_key c2 = Some k →
    r_run_id r1 = r_run_id r2.

Record cron_ok (cs : list JobCore) (rs : list CronRun) : Prop := {
  ok_job_ids : NoDup (map jc_id cs);
  ok_jobs : Forall core_ok cs;
  ok_run_ids : NoDup (map r_run_id rs);
  ok_due : ∀ r1 r2 jid, r1 ∈ rs → r2 ∈ rs → r_job_id r1 = Some jid → r_job_id r2 = Some jid →
    r_due_at r1 = r_due_at r2 → r_run_id r1 = r_run_id r2;
  ok_runs : Forall (run_ok cs) rs;
  ok_scope : scope_ok cs rs;
}.
Definition cron_inv (w : CronWorld) : Prop := cron_ok (cores w) (cron_runs w).

(** ** Updates of runs *)

(** An update that keeps the identity of the row and does not start it. *)
Definition stays (cs : list JobCore) (r r' : CronRun) : Prop :=
  r_run_id r' = r_run_id r ∧ r_job_id r' = r_job_id r ∧ r_due_at r' = r_due_at r ∧
  run_ok cs r' ∧ (is_running r' → is_running r).

Lemma update_where_NoDup {A B} (g : A → B) p f (l : list A) :
  (∀ x, x ∈ l → p x = true → g (f x) = g x) → map g (update_where p f l) = map g l.
Proof.
  intros H. unfold update_where. rewrite map_map. apply map_ext_in. intros x Hx%list_elem_of_In.
  destruct (p x) eqn:E; auto.
Qed.

Lemma update_back cs rs p f r' :
  Forall (run_ok cs) rs → (∀ r, r ∈ rs → p r = true → stays cs r (f r)) →
  r' ∈ update_where p f rs → ∃ r, r ∈ rs ∧ stays cs r r'.
Proof.
  intros Hok Hf H. apply update_where_elem in H as (r & Hr & [[Hp ->]|[Hp ->]]); exists r; (split; [done|]).
  - auto.
  - rewrite Forall_forall in Hok. repeat split; try done; by apply Hok.
Qed.

Lemma cron_ok_update cs rs p f :
  cron_ok cs rs → (∀ r, r ∈ rs → p r = true → stays cs r (f r)) → cron_ok cs (update_where p f rs).
Proof.
  intros [Hids Hjobs Hrids Hdue Hruns Hscope] Hf. constructor; try done.
  - rewrite update_where_NoDup; [done|]. intros r Hr Hp. by destruct (Hf r Hr Hp).
  - intros r1 r2 jid H1 H2 E1 E2 Ed.
    apply (update_back cs) in H1 as (q1 & Hq1 & I1 & J1 & D1 & _); [|done..].
    apply (update_back cs) in H2 as (q2 & Hq2 & I2 & J2 & D2 & _); [|done..].
    rewrite I1, I2. apply (Hdue q1 q2 jid); congruence.
  - apply Forall_forall. intros r' H.
    by apply (update_back cs) in H as (q & _ & _ & _ & _ & Hq & _).
  - intros r1 r2 c1 c2 k H1 H2 R1 R2 E1 E2 K1 K2.
    apply (update_back cs) in H1 as (q1 & Hq1 & I1 & J1 & _ & _ & S1); [|done..].
    apply (update_back cs) in H2 as (q2 & Hq2 & I2 & J2 & _ & _ & S2); [|done..].
    rewrite I1, I2. unfold core_of in *. rewrite J1 in E1. rewrite J2 in E2.
    by apply (Hscope q1 q2 c1 c2 k); auto.
Qed.

Lemma run_id_unique rs r1 r2 :
  NoDup (map r_run_id rs) → r1 ∈ rs → r2 ∈ rs → r_run_id r1 = r_run_id r2 → r1 = r2.
Proof.
  induction rs as [|r rs IH]; intros Hn H1 H2 E; [by apply elem_of_nil in H1|].
  simpl in Hn. apply NoDup_cons in Hn as [Hr Hn].
  assert (∀ x, x ∈ rs → r_run_id x ∈ map r_run_id rs) as Hmap
    by (intros x Hx; apply list_elem_of_In, in_map, list_elem_of_In, Hx).
  apply elem_of_cons in H1 as [->|H1], H2 as [->|H2]; auto.
  - exfalso. apply Hr. rewrite E. auto.
  - exfalso. apply Hr. rewrite <-E. auto.
Qed.

Lemma has_run_id_true rid r : has_run_id rid r = true ↔ r_run_id r = rid.
Proof. apply String.eqb_eq. Qed.
Lemma run_is_true s r : run_is s r = true ↔ r_state r = s.
Proof. apply String.eqb_eq. Qed.

(** Starting a queued run whose concurrency key has no running run. *)
Lemma cron_ok_start cs rs rid owner lease now :
  cron_ok cs rs →
  (∀ r q c d k, r ∈ rs → q ∈ rs → r_run_id r = rid → r_run_id q ≠ rid → is_running q →
     core_of cs r = Some c → core_of cs q = Some d → jc_key c = Some k → jc_key d = Some k → False) →
  cron_ok cs (update_where (λ r, has_run_id rid r && run_is "queued" r) (run_start owner lease now) rs).
Proof.
  intros [Hids Hjobs Hrids Hdue Hruns Hscope] Hfree.
  assert (∀ r', r' ∈ update_where (λ r, has_run_id rid r && run_is "queued" r)
             (run_start owner lease now) rs →
    ∃ r, r ∈ rs ∧ r_run_id r' = r_run_id r ∧ r_job_id r' = r_job_id r ∧ r_due_at r' = r_due_at r ∧
      run_ok cs r' ∧ (is_running r' → is_running r ∨ r_run_id r = rid)) as Hback.
  { intros r' H. apply update_where_elem in H as (r & Hr & [[Hp ->]|[Hp ->]]); exists r;
      rewrite Forall_forall in Hruns; specialize (Hruns r Hr); split; try done.
    - bsplit. apply has_run_id_true in H. apply run_is_true in H0. repeat split; auto; simpl.
      all: destruct Hruns as ([? ?] & Hq & Hjob); specialize (Hq H0); try lia; try done.
      intros jid Hj. destruct (Hjob jid Hj) as (c & Hc & Hle & Hlt). exists c.
      specialize (Hlt H0). split_and!; [done|simpl; lia|done].
    - repeat split; auto; apply Hruns. }
  constructor; try done.
  - rewrite update_where_map; done.
  - intros r1 r2 jid H1 H2 E1 E2 Ed.
    apply Hback in H1 as (q1 & Hq1 & I1 & J1 & D1 & _), H2 as (q2 & Hq2 & I2 & J2 & D2 & _).
    rewrite I1, I2. apply (Hdue q1 q2 jid); congruence.
  - apply Forall_forall. intros r' H. by apply Hback in H as (q & _ & _ & _ & _ & Hq & _).
  - intros r1 r2 c1 c2 k H1 H2 R1 R2 E1 E2 K1 K2.
    apply Hback in H1 as (q1 & Hq1 & I1 & J1 & _ & _ & S1), H2 as (q2 & Hq2 & I2 & J2 & _ & _ & S2).
    rewrite I1, I2. unfold core_of in *. rewrite J1 in E1. rewrite J2 in E2.
    destruct (decide (r_run_id q1 = rid)) as [D1|D1], (decide (r_run_id q2 = rid)) as [D2|D2].
    + congruence.
    + destruct (S2 R2) as [S|]; [|done]. exfalso. by eapply (Hfree q1 q2).
    + destruct (S1 R1) as [S|]; [|done]. exfalso. by eapply (Hfree q2 q1).
    + destruct (S1 R1), (S2 R2); try done. by apply (Hscope q1 q2 c1 c2 k).
Qed.

(** ** Insertion and deletion *)

Lemma cron_ok_insert cs rs r :
  cron_ok cs rs → r_run_id r ∉ map r_run_id rs →
  (∀ q jid, q ∈ rs → r_job_id r = Some jid → r_job_id q = Some jid → r_due_at q ≠ r_due_at r) →
  run_ok cs r → ¬ is_running r → cron_ok cs (rs ++ [r]).
Proof.
  intros [Hids Hjobs Hrids Hdue Hruns Hscope] Hid Hnew Hok Hnr. constructor; try done.
  - rewrite map_app. apply NoDup_app. split; [done|]. split; [|apply NoDup_singleton].
    intros x Hx Hr%list_elem_of_singleton. by subst.
  - intros r1 r2 jid H1 H2 E1 E2 Ed.
    apply elem_of_app in H1 as [H1| ->%list_elem_of_singleton], H2 as [H2| ->%list_elem_of_singleton]; auto.
    + by apply (Hdue r1 r2 jid).
    + exfalso. by apply (Hnew r1 jid).
    + exfalso. by apply (Hnew r2 jid).
  - apply Forall_app_2; [done|]. by constructor.
  - intros r1 r2 c1 c2 k H1 H2 R1 R2.
    apply elem_of_app in H1 as [H1| ->%list_elem_of_singleton], H2 as [H2| ->%list_elem_of_singleton];
      try done. by apply (Hscope r1 r2 c1 c2 k).
Qed.

Lemma cron_ok_delete_runs cs rs p : cron_ok cs rs → cron_ok cs (List.filter p rs).
Proof.
  intros [Hids Hjobs Hrids Hdue Hruns Hscope]. constructor; try done.
  - by apply NoDup_map_filter.
  - intros r1 r2 jid [H1 _]%filter_elem [H2 _]%filter_elem. by apply Hdue.
  - apply Forall_forall. intros r [Hr _]%filter_elem. rewrite Forall_forall in Hruns. auto.
  - intros r1 r2 c1 c2 k [H1 _]%filter_elem [H2 _]%filter_elem. by apply Hscope.
Qed.

Lemma core_row_filter cs jid jid' :
  jid ≠ jid' → core_row (List.filter (λ c, negb (String.eqb (jc_id c) jid)) cs) jid' = core_row cs jid'.
Proof.
  intros Hne. unfold core_row. induction cs as [|c cs IH]; simpl; [done|].
  destruct (String.eqb_spec (jc_id c) jid) as [E|E]; simpl.
  - rewrite IH. destruct (String.eqb_spec (jc_id c) jid'); [congruence|done].
  - by rewrite IH.
Qed.

Lemma of_job_true jid r : of_job jid r = true ↔ r_job_id r = Some jid.
Proof. apply ostr_eqb_eq. Qed.
Lemma of_job_false jid r : of_job jid r = false ↔ r_job_id r ≠ Some jid.
Proof. rewrite <-of_job_true. by destruct (of_job jid r). Qed.

Lemma cron_ok_delete_job cs rs jid :
  cron_ok cs rs →
  cron_ok (List.filter (λ c, negb (String.eqb (jc_id c) jid)) cs)
          (update_where (of_job jid) (run_with_job None) rs).
Proof.
  intros [Hids Hjobs Hrids Hdue Hruns Hscope].
  assert (∀ r', r' ∈ update_where (of_job jid) (run_with_job None) rs →
    ∃ r, r ∈ rs ∧ r_run_id r' = r_run_id r ∧ r_due_at r' = r_due_at r ∧ r_attempts r' = r_attempts r ∧
      r_state r' = r_state r ∧ (r_job_id r' = None ∨ r_job_id r' = r_job_id r ∧ r_job_id r ≠ Some jid)) as Hback.
  { intros r' H. apply update_where_elem in H as (r & Hr & [[Hp ->]|[Hp ->]]); exists r;
      repeat split; try done; [by left|right]. split; [done|]. by apply of_job_false. }
  constructor.
  - by apply NoDup_map_filter.
  - apply Forall_forall. intros c [Hc _]%filter_elem. rewrite Forall_forall in Hjobs. auto.
  - by rewrite update_where_map.
  - intros r1 r2 j H1 H2 E1 E2 Ed.
    apply Hback in H1 as (q1 & Hq1 & I1 & D1 & _ & _ & [?|[J1 _]]), H2 as (q2 & Hq2 & I2 & D2 & _ & _ & [?|[J2 _]]);
      try congruence. rewrite I1, I2. apply (Hdue q1 q2 j); congruence.
  - apply Forall_forall. intros r' H. apply Hback in H as (q & Hq & _ & _ & A & S & J).
    rewrite Forall_forall in Hruns. destruct (Hruns q Hq) as (B1 & B2 & B3).
    unfold run_ok, is_queued. rewrite A, S. split_and!; try done; try lia. intros j Hj.
    destruct J as [J|[J Jne]]; [congruence|]. rewrite J in Hj. destruct (B3 j Hj) as (c & Hc & B).
    exists c. rewrite core_row_filter by congruence. done.
  - intros r1 r2 c1 c2 k H1 H2 R1 R2 E1 E2 K1 K2. unfold core_of in *.
    apply Hback in H1 as (q1 & Hq1 & I1 & _ & _ & S1 & J1), H2 as (q2 & Hq2 & I2 & _ & _ & S2 & J2).
    destruct J1 as [J1|[J1 N1]]; rewrite J1 in E1; [done|].
    destruct J2 as [J2|[J2 N2]]; rewrite J2 in E2; [done|].
    rewrite I1, I2. unfold is_running in *. rewrite S1 in R1. rewrite S2 in R2.
    destruct (r_job_id q1) as [j1|] eqn:Q1; [|done]. destruct (r_job_id q2) as [j2|] eqn:Q2; [|done].
    rewrite core_row_filter in E1, E2 by congruence.
    apply (Hscope q1 q2 c1 c2 k); unfold core_of; rewrite ?Q1, ?Q2; done.
Qed.

Lemma core_row_app cs c jid :
  core_row cs jid ≠ None ∨ jc_id c ≠ jid → core_row (cs ++ [c]) jid = core_row cs jid.
Proof.
  unfold core_row. intros H. induction cs as [|d cs IH]; simpl.
  - destruct (String.eqb_spec (jc_id c) jid); [|done]. by destruct H.
  - simpl in H. destruct (String.eqb (jc_id d) jid); [done|]. by apply IH.
Qed.

Lemma cron_ok_add_job cs rs c :
  cron_ok cs rs → core_row cs (jc_id c) = None → core_ok c → cron_ok (cs ++ [c]) rs.
Proof.
  intros [Hids Hjobs Hrids Hdue Hruns Hscope] Hnew Hok. constructor; try done.
  - rewrite map_app. apply NoDup_app. split; [done|]. split; [|apply NoDup_singleton].
    intros x Hx Hc%list_elem_of_singleton. subst x.
    apply list_elem_of_In, in_map_iff in Hx as (d & Ed & Hd).
    eapply find_none in Hnew; [|exact Hd]. simpl in Hnew. by rewrite Ed, String.eqb_refl in Hnew.
  - apply Forall_app_2; [done|]. by constructor.
  - eapply Forall_impl; [done|]. intros r (B1 & B2 & B3). split_and!; try done; try lia.
    intros j Hj. destruct (B3 j Hj) as (d & Hd & B). exists d. rewrite core_row_app; [done|].
    left. by rewrite Hd.
  - assert (∀ r d, r ∈ rs → core_of (cs ++ [c]) r = Some d → core_of cs r = Some d) as Hback.
    { intros r d Hr. unfold core_of. destruct (r_job_id r) as [j|] eqn:Ej; [|done].
      rewrite Forall_forall in Hruns. destruct (Hruns r Hr) as (_ & _ & B3).
      destruct (B3 j Ej) as (e & He & _). rewrite core_row_app; [done|]. left. by rewrite He. }
    intros r1 r2 c1 c2 k H1 H2 R1 R2 E1 E2. apply (Hscope r1 r2 c1 c2 k); auto.
Qed.
