(* ===== verification/CronSteps.v ===== *)
(** The operations of the cron store as steps, and a proof principle for their
    invariants: a predicate stable under the six kinds of table change is kept
    by every operation. *)

From S2P Require Import Prelude PyValue Timestamps PyText Schedule CronTables CronStore CronInv.
From Stdlib Require Import Ascii.

Local Open Scope Z_scope.

(** ** Stable predicates *)

Section stable.
Context {Env : PyEnv} {Sched : ScheduleEnv}.

(** [rid] is the identifier of draw [n], one of those taken so far. *)
Definition drawn (n : nat) (w : CronWorld) : Prop := (n < cron_uuids w)%nat.

(** [P] is the predicate on databases; [Q] is what it says of later draws of
    identifiers. *)
Record stable (P : CronWorld → Prop) (Q : nat → Prop) : Prop := {
  st_inv : ∀ w, P w → cron_inv w;
  st_aux : ∀ w w', cores w' = cores w → cron_runs w' = cron_runs w →
    (cron_uuids w ≤ cron_uuids w')%nat → P w → P w';
  st_fresh : ∀ w, P w → Q (cron_uuids w);
  st_delete_runs : ∀ w p, P w → (∀ r, p r = true → run_terminal r = true) →
    P (set_runs (List.filter (λ r, negb (p r))) w);
  st_delete_job : ∀ w jid, P w →
    P (set_runs (update_where (of_job jid) (run_with_job None))
         (set_jobs (List.filter (λ j, negb (has_job_id jid j))) w));
  st_add_job : ∀ w j, P w → job_row w (j_job_id j) = None → core_ok (jcore j) →
    P (set_jobs (λ l, l ++ [j]) w);
  st_insert : ∀ w r n, P w → Q n → r_run_id r = py_uuid4 n → drawn n w → r_run_id r ∉ map r_run_id (cron_runs w) →
    (∀ q jid, q ∈ cron_runs w → r_job_id r = Some jid → r_job_id q = Some jid → r_due_at q ≠ r_due_at r) →
    run_ok (cores w) r → ¬ is_running r → P (set_runs (λ l, l ++ [r]) w);
  st_update : ∀ w p f, P w →
    (∀ r, r ∈ cron_runs w → p r = true → stays (cores w) r (f r) ∧ r_attempts (f r) = r_attempts r ∧
      r_delivery_targets r ⊆ r_delivery_targets (f r)) →
    P (set_runs (update_where p f) w);
  st_start : ∀ w rid owner lease now, P w →
    (∀ r q c d k, r ∈ cron_runs w → q ∈ cron_runs w → r_run_id r = rid → r_run_id q ≠ rid →
       is_running q → core_of (cores w) r = Some c → core_of (cores w) q = Some d →
       jc_key c = Some k → jc_key d = Some k → False) →
    P (set_runs (update_where (λ r, has_run_id rid r && run_is "queued" r)
                   (run_start owner lease now)) w);
}.

(** [m] keeps [P], whether it returns or raises. *)
Definition keeps {A} (P : CronWorld → Prop) (m : CM A) : Prop := ∀ w, P w → P (m w).1.

Section ops.
Context (P : CronWorld → Prop) (Q : nat → Prop) (HP : stable P Q).

Lemma keeps_then {A B} (m : CM A) (f : A → CM B) :
  keeps P m → (∀ a, keeps P (f a)) → keeps P (mbind f m).
Proof. intros Hm Hf w Hw. apply (bind_preserves P m f); auto. Qed.
Lemma keeps_ret {A} (a : A) : keeps P (mret a : CM A).
Proof. by intros w. Qed.
Lemma keeps_raise {A} e : keeps P (raise e : CM A).
Proof. by intros w. Qed.
Lemma keeps_gets {A} (f : CronWorld → A) : keeps P (gets f : CM A).
Proof. by intros w. Qed.
Lemma keeps_lift {A} (r : PR A) : keeps P (lift_py r).
Proof. by intros w. Qed.
Lemma keeps_get {A} (f : CronWorld → CM A) :
  (∀ w, P w → P (f w w).1) → keeps P (w ← get_world; f w).
Proof. intros H w Hw. by apply H. Qed.
Lemma keeps_get_any {A} (f : CronWorld → CM A) : (∀ w, keeps P (f w)) → keeps P (w ← get_world; f w).
Proof. intros H w Hw. by apply H. Qed.
Lemma keeps_utc_now : keeps P utc_now.
Proof. intros w Hw. apply (st_aux _ _ HP w); [done|done|simpl; lia|done]. Qed.
Lemma keeps_now_or o : keeps P (now_or o).
Proof. unfold now_or. case_match; [apply keeps_lift|apply keeps_utc_now]. Qed.
Lemma keeps_new_id {A} (f : string → CM A) :
  (∀ n, Q n → keeps (λ w, P w ∧ drawn n w) (f (py_uuid4 n))) → keeps P (rid ← new_id; f rid).
Proof.
  intros Hf w Hw. change ((rid ← new_id; f rid) w) with
    (f (py_uuid4 (cron_uuids w)) (set_counters (cron_ticks w) (S (cron_uuids w)) w)).
  apply Hf; [by apply (st_fresh _ _ HP)|]. split; [|unfold drawn; simpl; lia].
  apply (st_aux _ _ HP w); [done|done|simpl; lia|done].
Qed.
Lemma keeps_required x msg : keeps P (required x msg).
Proof. unfold required. case_match; [apply keeps_ret|apply keeps_raise]. Qed.
Lemma keeps_fence_of d n : keeps P (fence_of d n).
Proof. unfold fence_of. repeat case_match; first [apply keeps_ret|apply keeps_raise]. Qed.
Lemma keeps_for_each {A B} (f : A → CM B) l : (∀ x, x ∈ l → keeps P (f x)) → keeps P (for_each f l).
Proof.
  induction l as [|x l IH]; intros H; simpl; [apply keeps_ret|].
  apply keeps_then; [apply H; by left|]. intros y.
  apply keeps_then; [apply IH; intros z Hz; apply H; by right|]. intros ys. apply keeps_ret.
Qed.
Lemma keeps_update_jobs p f : (∀ j, jcore (f j) = jcore j) → keeps P (update_jobs p f).
Proof.
  intros Hf w Hw. apply (st_aux _ _ HP w); [|done|done|done].
  unfold cores. simpl. by apply update_where_map.
Qed.
Lemma keeps_delete_runs p :
  (∀ r, p r = true → run_terminal r = true) → keeps P (delete_runs p).
Proof. intros Hp w Hw. by apply (st_delete_runs _ _ HP). Qed.
Lemma keeps_delete_job jid : keeps P (delete_job jid).
Proof. intros w Hw. by apply (st_delete_job _ _ HP). Qed.
Lemma keeps_insert_job j : core_ok (jcore j) → keeps P (insert_job j).
Proof.
  intros Hj w Hw. unfold insert_job. destruct (job_row w (j_job_id j)) eqn:E; [done|].
  by apply (st_add_job _ _ HP).
Qed.

(** Counters only grow, and a failed transaction restores the tables. *)
Definition counts {A} (m : CM A) : Prop := ∀ w, (cron_uuids w ≤ cron_uuids (m w).1)%nat.
Lemma keeps_tx {A} (m : CM A) : counts m → keeps P m → keeps P (cron_tx m).
Proof.
  intros Hc Hm w Hw. unfold cron_tx, transaction. specialize (Hc w). specialize (Hm w Hw).
  destruct (m w) as [w' [a|e]]; simpl in *; [done|].
  by apply (st_aux _ _ HP w).
Qed.

(** Inserting a run that has not started. *)
Lemma keeps_insert_run b r n :
  Q n → r_run_id r = py_uuid4 n → (∀ w, P w → drawn n w) → r_attempts r = 0 → ¬ is_running r →
  keeps P (insert_run b r).
Proof.
  intros HQ Hid Hdr Ha Hr w Hw. unfold insert_run.
  destruct (run_row w (r_run_id r)) eqn:Er; [done|]. case_match eqn:Ed; [by destruct b|].
  destruct (r_job_id r) as [jid|] eqn:Ej.
  - destruct (job_of w r) as [j|] eqn:Ejob; [|done]. apply (st_insert _ _ HP _ _ n); try done; auto.
    + intros Hin%list_elem_of_In. apply in_map_iff in Hin as (q & Eq & Hq).
      apply (find_none _ _ Er) in Hq. apply String.eqb_neq in Hq. done.
    + intros q jid' Hq E1 E2 E3. rewrite Ej in E1. simplify_eq.
      apply not_true_iff_false in Ed. apply Ed. apply existsb_exists. exists q.
      split; [by apply list_elem_of_In|]. apply andb_true_iff. split; [by apply of_job_true|].
      by apply String.eqb_eq.
    + apply job_of_core_Some in Ejob. pose proof (st_inv _ _ HP w Hw) as Hinv.
      assert (core_ok (jcore j)) as (Hat & _).
      { unfold core_of in Ejob. rewrite Ej in Ejob. apply find_some in Ejob as [Hin _].
        destruct Hinv as [_ Hjobs _ _ _ _]. rewrite Forall_forall in Hjobs. by apply Hjobs, list_elem_of_In. }
      unfold run_ok. rewrite Ha. unfold MAX_CRON_ATTEMPTS in *. split_and!; try lia.
      intros jid' E. rewrite Ej in E. simplify_eq. unfold core_of in Ejob. rewrite Ej in Ejob.
      exists (jcore j). split; [done|]. simpl in *. lia.
  - apply (st_insert _ _ HP _ _ n); try done; auto.
    + intros Hin%list_elem_of_In. apply in_map_iff in Hin as (q & Eq & Hq).
      apply (find_none _ _ Er) in Hq. apply String.eqb_neq in Hq. done.
    + intros q jid' Hq E1. by rewrite Ej in E1.
    + unfold run_ok. rewrite Ha, Ej. unfold MAX_CRON_ATTEMPTS. split_and!; try lia. done.
Qed.

(** A stable predicate together with a draw already taken. *)
Lemma stable_drawn n : stable (λ w, P w ∧ drawn n w) Q.
Proof.
  constructor; unfold drawn.
  - intros w [Hw _]. by apply (st_inv _ _ HP).
  - intros w w' Hc Hr Hu [Hw Hn]. split; [by apply (st_aux _ _ HP w)|lia].
  - intros w [Hw _]. by apply (st_fresh _ _ HP).
  - intros w p [Hw Hn] Hp. split; [by apply (st_delete_runs _ _ HP)|done].
  - intros w jid [Hw Hn]. split; [by apply (st_delete_job _ _ HP)|done].
  - intros w j [Hw Hn] H1 H2. split; [by apply (st_add_job _ _ HP)|done].
  - intros w r m [Hw Hn] HQ H1 H2 H3 H4 H5 H6. split; [by apply (st_insert _ _ HP w r m)|done].
  - intros w p f [Hw Hn] Hf. split; [by apply (st_update _ _ HP)|done].
  - intros w rid owner lease now [Hw Hn] Hfree. split; [by apply (st_start _ _ HP)|done].
Qed.

(** Updates that neither start nor requeue a run. *)
Definition benign (r r' : CronRun) : Prop :=
  r_run_id r' = r_run_id r ∧ r_job_id r' = r_job_id r ∧ r_due_at r' = r_due_at r ∧
  r_attempts r' = r_attempts r ∧ r_delivery_targets r' = r_delivery_targets r ∧
  (is_running r' → is_running r) ∧ (is_queued r' → is_queued r).

Lemma benign_stays cs r r' : run_ok cs r → benign r r' → stays cs r r' ∧ r_attempts r' = r_attempts r ∧
  r_delivery_targets r ⊆ r_delivery_targets r'.
Proof.
  intros (B1 & B2 & B3) (I & J & D & A & T & R & S). split; [|by rewrite T].
  repeat split; try done; unfold run_ok; rewrite ?A; try tauto.
  rewrite J. intros jid Hj. destruct (B3 jid Hj) as (c & Hc & L1 & L2). exists c. tauto.
Qed.

Lemma inv_run_ok w r : cron_inv w → r ∈ cron_runs w → run_ok (cores w) r.
Proof. intros [_ _ _ _ H _] Hr. rewrite Forall_forall in H. auto. Qed.

Lemma keeps_update_benign p f :
  (∀ r, p r = true → benign r (f r)) → keeps P (update_runs p f).
Proof.
  intros Hf w Hw. apply (st_update _ _ HP); [done|]. intros r Hr Hp.
  apply benign_stays; [|auto]. apply inv_run_ok; [|done]. by apply (st_inv _ _ HP).
Qed.
End ops.

(** ** Counters *)

Lemma counts_bind {A B} (m : CM A) (f : A → CM B) : counts m → (∀ a, counts (f a)) → counts (mbind f m).
Proof.
  intros Hm Hf w. unfold mbind, M_bind. specialize (Hm w).
  destruct (m w) as [w1 [a|e]]; simpl in *; [|done]. specialize (Hf a w1). lia.
Qed.
Lemma counts_get {A} (f : CronWorld → CM A) : (∀ w, counts (f w)) → counts (w ← get_world; f w).
Proof. intros H w. apply H. Qed.
Lemma counts_new_id {A} (f : string → CM A) : (∀ rid, counts (f rid)) → counts (rid ← new_id; f rid).
Proof. intros Hf. apply counts_bind; [|done]. intros w. simpl. lia. Qed.
Lemma counts_for_each {A B} (f : A → CM B) l : (∀ x, counts (f x)) → counts (for_each f l).
Proof.
  induction l as [|x l IH]; intros H; simpl; [by intros w|].
  apply counts_bind; [done|]. intros y. apply counts_bind; [auto|]. intros ys w. done.
Qed.
Lemma counts_insert_run b r : counts (insert_run b r).
Proof. intros w. unfold insert_run. repeat case_match; simpl; lia. Qed.
Lemma counts_insert_job j : counts (insert_job j).
Proof. intros w. unfold insert_job. case_match; simpl; lia. Qed.
Lemma counts_utc_now : counts utc_now.
Proof. intros w. simpl. lia. Qed.
End stable.

(** Drawing identifiers is the only change of the counter. *)
Ltac counts_prim := match goal with
  | |- counts (mret _) => intros ?; apply le_n
  | |- counts (raise _) => intros ?; apply le_n
  | |- counts (cron_value_error _) => intros ?; apply le_n
  | |- counts (gets _) => intros ?; apply le_n
  | |- counts (lift_py _) => intros ?; apply le_n
  | |- counts (update_runs _ _) => intros ?; apply le_n
  | |- counts (update_jobs _ _) => intros ?; apply le_n
  | |- counts (delete_runs _) => intros ?; apply le_n
  | |- counts (delete_job _) => intros ?; apply le_n
  | |- counts (modify _) => intros ?; apply le_n
  | |- counts (insert_run _ _) => apply counts_insert_run
  | |- counts (insert_job _) => apply counts_insert_job
  | |- counts utc_now => apply counts_utc_now
  end.
Ltac counts_tac := repeat first
  [ counts_prim
  | match goal with
    | |- counts (mbind _ new_id) => apply counts_new_id; intros ?
    | |- counts (mbind _ get_world) => apply counts_get; intros ?
    | |- counts (mbind _ _) => apply counts_bind; [|intros ?]
    | |- counts (for_each _ _) => apply counts_for_each; intros ?
    | |- counts (match ?x with _ => _ end) => destruct x
    end
  | progress cbv zeta ].
