(* ===== verification/CronKeeps.v ===== *)
(** Every operation of the cron store keeps every stable predicate. *)

From S2P Require Import Prelude PyValue Timestamps PyText Schedule CronTables CronStore CronInv CronSteps.
From Stdlib Require Import Ascii.

Local Open Scope Z_scope.

Section keeps.
Context {Env : PyEnv} {Sched : ScheduleEnv}.
Context (P : CronWorld → Prop) (Q : nat → Prop) (HP : stable P Q).

(** Sequencing, branching and the statements that need no side condition, for a
    stable predicate [p]. *)
Ltac keeps_with p q hp := repeat first
  [ apply keeps_ret | apply keeps_raise | apply keeps_gets | apply keeps_lift
  | apply (keeps_utc_now p q hp) | apply (keeps_now_or p q hp)
  | apply keeps_required | apply keeps_fence_of
  | apply (keeps_delete_job p q hp)
  | apply (keeps_update_jobs p q hp); intros ?; reflexivity
  | match goal with
    | |- keeps _ (mbind _ get_world) => fail 1
    | |- keeps _ (mbind _ new_id) => fail 1
    | |- keeps _ (mbind _ _) => apply keeps_then; [|intros ?]
    | |- keeps _ (cron_tx _) => apply (keeps_tx p q hp); [solve [counts_tac]|]
    | |- keeps _ (match ?x with _ => _ end) => destruct x eqn:?
    end
  | progress cbv zeta ].
Ltac keeps_tac := keeps_with P Q HP.

(** Draws an identifier and continues with the predicate that records it. *)
Ltac keeps_draw :=
  let n := fresh "n" in let Hn := fresh "Hn" in let HD := fresh "HD" in
  apply (keeps_new_id P Q HP); intros n Hn; pose proof (stable_drawn P Q HP n) as HD;
  keeps_with (λ w, P w ∧ drawn n w) Q HD;
  try (apply (keeps_insert_run (λ w, P w ∧ drawn n w) Q HD _ _ n); [done|done|by intros ? []|done|done]).

(** ** Recovery of expired leases *)

(** What recovery leaves alone: the jobs and the identity, job and attempts of
    every run. *)
Definition rkey (r : CronRun) : string * option string * Z := (r_run_id r, r_job_id r, r_attempts r).
Definition frozen (cs : list JobCore) (ks : list (string * option string * Z)) (w : CronWorld) : Prop :=
  P w ∧ cores w = cs ∧ map rkey (cron_runs w) = ks.

Lemma rkey_unique w r r' :
  cron_inv w → r' ∈ cron_runs w → rkey r ∈ map rkey (cron_runs w) → r_run_id r' = r_run_id r → rkey r' = rkey r.
Proof.
  intros [_ _ Hn _ _ _] Hr' Hr E. apply list_elem_of_In, in_map_iff in Hr as (q & Eq & Hq).
  apply list_elem_of_In in Hq. rewrite <-Eq. f_equal.
  apply (run_id_unique (cron_runs w)); try done. unfold rkey in Eq. simplify_eq. congruence.
Qed.

Lemma rkey_core cs r r' : rkey r' = rkey r → core_of cs r' = core_of cs r.
Proof. unfold rkey, core_of. by intros [= _ -> _]. Qed.
Lemma rkey_attempts r r' : rkey r' = rkey r → r_attempts r' = r_attempts r.
Proof. unfold rkey. by intros [= _ _ ->]. Qed.

Lemma keeps_frozen_update cs ks p f :
  (∀ r, rkey (f r) = rkey r) →
  (∀ w r, frozen cs ks w → r ∈ cron_runs w → p r = true → stays cs r (f r) ∧
     r_delivery_targets r ⊆ r_delivery_targets (f r)) →
  keeps (frozen cs ks) (update_runs p f).
Proof.
  intros Hk Hf w Hw. pose proof Hw as (H1 & H2 & H3). split_and!.
  - apply (st_update _ _ HP); [done|]. intros r Hr Hp. destruct (Hf w r Hw Hr Hp) as [Hs Ht].
    rewrite H2. split_and!; try done. specialize (Hk r). unfold rkey in Hk. by simplify_eq.
  - done.
  - simpl. by rewrite update_where_map.
Qed.

Lemma requeue_stays cs r available error now :
  run_ok cs r → r_attempts r < MAX_CRON_ATTEMPTS →
  (∀ c, core_of cs r = Some c → r_attempts r < jc_attempts c) →
  stays cs r (run_requeue available error now r).
Proof.
  intros (B1 & B2 & B3) Hmax Hlt. repeat split; try done; simpl; try lia.
  intros jid Hj. destruct (B3 jid Hj) as (c & Hc & _). exists c. simpl.
  assert (r_attempts r < jc_attempts c) by (apply Hlt; unfold core_of; by rewrite Hj).
  split_and!; [done|lia|done].
Qed.
Lemma fail_benign error now r : benign r (run_fail error now r).
Proof. repeat split; by try done. Qed.

Lemma inv_core_ok w r c : cron_inv w → core_of (cores w) r = Some c → core_ok c.
Proof.
  intros [_ H _ _ _ _] Hc. unfold core_of in Hc. destruct (r_job_id r); [|done].
  apply find_some in Hc as [Hin _]. rewrite Forall_forall in H. by apply H, list_elem_of_In.
Qed.

Lemma keeps_recover_row cs ks now_dt now r j :
  core_of cs r = Some (jcore j) → rkey r ∈ ks → keeps (frozen cs ks) (recover_row now_dt now (r, j)).
Proof.
  intros Hj Hr. assert (∀ w r', frozen cs ks w → r' ∈ cron_runs w →
    has_run_id (r_run_id r) r' && run_is "running" r' = true → run_ok cs r' ∧ core_ok (jcore j) ∧
      rkey r' = rkey r ∧ core_of cs r' = Some (jcore j)) as Hrow.
  { intros w r' (Hw & <- & <-) Hr' Hp. bsplit. apply has_run_id_true in H.
    pose proof (st_inv _ _ HP w Hw) as Hinv. assert (rkey r' = rkey r) as Ek by (by eapply rkey_unique).
    split_and!; try done; [by apply inv_run_ok|by eapply inv_core_ok|].
    by rewrite (rkey_core _ _ _ Ek). }
  unfold recover_row. destruct (Z.leb_spec (Z.max 1 (z_or (j_max_attempts j) 3)) (r_attempts r)) as [Hle|Hlt].
  - apply keeps_then; [|intros ?; apply keeps_ret]. apply keeps_frozen_update; [done|].
    intros w r' Hw Hr' Hp. destruct (Hrow w r' Hw Hr' Hp) as (Hok & _).
    eapply benign_stays in Hok as (? & _ & ?); [done|apply fail_benign].
  - apply keeps_then; [apply keeps_lift|intros av]. apply keeps_then; [|intros ?; apply keeps_ret].
    apply keeps_frozen_update; [done|]. intros w r' Hw Hr' Hp.
    destruct (Hrow w r' Hw Hr' Hp) as (Hok & Hcok & Ek & Hc). split; [|done].
    pose proof (proj1 Hcok) as Hb. pose proof (rkey_attempts _ _ Ek) as Ea.
    assert (r_attempts r < j_max_attempts j).
    { unfold z_or in Hlt. simpl in *. case_match eqn:E; [|lia]. apply Z.eqb_eq in E. lia. }
    apply requeue_stays; [done|simpl in *; lia|]. intros c Hc'. rewrite Hc in Hc'. simplify_eq.
    simpl. lia.
Qed.

Lemma expired_rows_elem w now limit r j :
  (r, j) ∈ expired_rows w now limit → r ∈ cron_runs w ∧ job_of w r = Some j ∧
    is_running r ∧ lease_expired now r = true.
Proof.
  unfold expired_rows, limit_rows. intros H. apply elem_of_take in H as (i & H & _).
  apply list_elem_of_lookup_2 in H. apply sort_asc_elem, list_elem_of_omap in H as (q & Hq & E).
  repeat case_match; simplify_eq. bsplit. split_and!; try done. by apply run_is_true.
Qed.

Lemma counts_recover_row now_dt now rj : counts (recover_row now_dt now rj).
Proof. destruct rj as [r j]. unfold recover_row. counts_tac. Qed.
Lemma counts_recover now_dt now limit : counts (_recover_expired_cron_runs_locked now_dt now limit).
Proof. unfold _recover_expired_cron_runs_locked. counts_tac. apply counts_recover_row. Qed.

Lemma keeps_recovery now_dt now limit : keeps P (_recover_expired_cron_runs_locked now_dt now limit).
Proof.
  intros w Hw. unfold _recover_expired_cron_runs_locked.
  change ((rows ← gets (λ w, expired_rows w now limit); for_each (recover_row now_dt now) rows) w)
    with (for_each (recover_row now_dt now) (expired_rows w now limit) w).
  apply (keeps_for_each (frozen (cores w) (map rkey (cron_runs w)))); [|done].
  intros [r j] Hin. apply expired_rows_elem in Hin as (Hr & Hj & _).
  apply keeps_recover_row; [by apply job_of_core_Some|].
  apply list_elem_of_In, in_map, list_elem_of_In, Hr.
Qed.

Lemma keeps_recover_expired now limit : keeps P (recover_expired_cron_runs now limit).
Proof.
  unfold recover_expired_cron_runs. keeps_tac.
  apply (keeps_tx P Q HP); [apply counts_recover|apply keeps_recovery].
Qed.

(** ** Jobs *)

Lemma text_or_none_ok o k : text_or_none o = Some k → py_strip k = k ∧ truthy k = true.
Proof.
  unfold text_or_none, text_of. case_match eqn:E; [|done]. intros [= <-].
  split; [apply strip_idem|done].
Qed.

Lemma core_ok_new jid key attempts conc a b c d e f g h i k l m n o p q r :
  py_strip jid = jid → truthy jid = true → (∀ x, key = Some x → py_strip x = x ∧ truthy x = true) →
  core_ok (jcore {| j_job_id := jid; j_name := a; j_description := b; j_enabled := c; j_agent_id := d;
    j_schedule := e; j_payload := f; j_delivery := g; j_session_target := h; j_wake_mode := i;
    j_delete_after_run := k; j_misfire_policy := l; j_max_lateness_s := m;
    j_max_concurrency := Z.max 1 conc; j_concurrency_key := key;
    j_max_attempts := Z.max 1 (Z.min attempts MAX_CRON_ATTEMPTS); j_retry_backoff_s := n;
    j_next_due_at := o; j_last_run_at := p; j_created_at := q; j_updated_at := r |}).
Proof. intros H1 H2 H3. unfold core_ok, MAX_CRON_ATTEMPTS. simpl. split_and!; try done; lia. Qed.

(** Identifiers drawn are non-empty and have no surrounding space. *)
Definition ids_plain : Prop := ∀ n, py_strip (py_uuid4 n) = py_uuid4 n ∧ truthy (py_uuid4 n) = true.

Lemma keeps_bind_post {A B} (R : A → Prop) (m : CM A) (f : A → CM B) :
  keeps P m → (∀ w w' a, m w = (w', Ok a) → R a) → (∀ a, R a → keeps P (f a)) → keeps P (mbind f m).
Proof.
  intros Hm HR Hf w Hw. specialize (Hm w Hw). unfold mbind, M_bind.
  destruct (m w) as [w' [a|e]] eqn:E; simpl in *; [|done]. apply Hf; [by eapply HR|done].
Qed.

Lemma keeps_add_job a : ids_plain → keeps P (add_cron_job a).
Proof.
  intros Hids. unfold add_cron_job. destruct (negb _); [apply keeps_raise|].
  do 7 (apply keeps_then; [apply keeps_lift|intros ?]; cbv zeta).
  apply (keeps_bind_post (λ jid, py_strip jid = jid ∧ truthy jid = true)).
  - case_match; [apply keeps_ret|]. intros w Hw.
    apply (st_aux _ _ HP w); [done|done|simpl; lia|done].
  - intros w w' jid H. case_match eqn:E; [|unfold new_id in H; simplify_eq; apply Hids].
    unfold mret, M_ret in H. simplify_eq. split; [apply strip_idem|done].
  - intros jid [H1 H2]. keeps_tac. apply (keeps_insert_job P Q HP), core_ok_new; try done.
    apply text_or_none_ok.
Qed.

Lemma keeps_set_enabled jid b c o : keeps P (set_cron_job_enabled jid b c o).
Proof.
  unfold set_cron_job_enabled, get_cron_job. keeps_tac; apply (keeps_update_benign P Q HP);
    intros r Hr; bsplit; repeat split; try done.
Qed.
Lemma keeps_delete_cron_job jid : keeps P (delete_cron_job jid).
Proof. unfold delete_cron_job. keeps_tac. Qed.
Lemma keeps_replace_payload jid v : keeps P (replace_cron_job_payload jid v).
Proof. unfold replace_cron_job_payload. keeps_tac. Qed.

(** ** Due runs *)

Lemma counts_persist_due j pts n now : counts (_persist_due_decision j pts n now).
Proof. unfold _persist_due_decision. counts_tac. Qed.
Lemma counts_enqueue_job owner lease now now_dt j : counts (enqueue_job owner lease now now_dt j).
Proof.
  unfold enqueue_job, _auto_pause_legacy_short_interval_job, enqueue_point.
  counts_tac; apply counts_persist_due.
Qed.

Lemma keeps_persist_due j pts n now : keeps P (_persist_due_decision j pts n now).
Proof.
  unfold _persist_due_decision. keeps_tac. apply keeps_get_any. intros w. keeps_tac. keeps_draw.
Qed.
Lemma keeps_enqueue_job owner lease now now_dt j : keeps P (enqueue_job owner lease now now_dt j).
Proof.
  unfold enqueue_job, _auto_pause_legacy_short_interval_job. keeps_tac.
  apply keeps_get_any. intros w. keeps_tac; [apply keeps_persist_due|].
  apply keeps_for_each. intros t _. unfold enqueue_point. keeps_draw.
Qed.
Lemma keeps_enqueue d ttl n now : keeps P (enqueue_due_cron_runs d ttl n now).
Proof.
  unfold enqueue_due_cron_runs. keeps_tac. apply (keeps_tx P Q HP).
  - apply counts_bind; [apply counts_recover|intros ?]. counts_tac. apply counts_enqueue_job.
  - apply keeps_then; [apply keeps_recovery|intros ?]. apply keeps_get_any. intros w. keeps_tac.
    apply keeps_for_each. intros j _. apply keeps_enqueue_job.
Qed.

(** ** Starting runs *)

Definition rkey2 (r : CronRun) : string * option string := (r_run_id r, r_job_id r).
Definition acquiring (cs : list JobCore) (ks : list (string * option string)) (w : CronWorld) : Prop :=
  P w ∧ cores w = cs ∧ map rkey2 (cron_runs w) = ks.

Lemma scope_free_start w key rid :
  cron_inv w → _scope_has_running_run_locked w key rid = false →
  ∀ q d, q ∈ cron_runs w → r_run_id q ≠ rid → is_running q → core_of (cores w) q = Some d →
    jc_key d ≠ Some key.
Proof.
  intros Hinv Hs q d Hq Hne Hr Hd Hk. apply core_of_job in Hd as (j & Hj & <-).
  apply Nat.ltb_ge in Hs. unfold scope_count in Hs.
  assert (0 < count_where (λ r, match job_of w r with
      | Some j => ostr_eqb (j_concurrency_key j) (Some key) && (run_is "running" r && negb (has_run_id rid r))
      | None => false end) (cron_runs w))%nat as Hpos; [|lia].
  eapply count_where_pos; [done|]. simpl. rewrite Hj. simpl in Hk.
  rewrite (proj2 (ostr_eqb_eq _ _) Hk), (proj2 (run_is_true _ _) Hr). simpl.
  apply negb_true_iff, String.eqb_neq, Hne.
Qed.

Lemma keeps_acquire_row cs ks owner lease now row :
  rkey2 row ∈ ks → keeps (acquiring cs ks) (acquire_row owner lease now row).
Proof.
  intros Hrow. unfold acquire_row. apply keeps_get. intros w Hw. cbv zeta.
  destruct (_ && _) eqn:Hscope; [done|].
  match goal with |- acquiring cs ks ((mbind ?f ?m) w).1 =>
    assert (acquiring cs ks (m w).1) as Hup end.
  { destruct Hw as (Hw & <- & <-). pose proof (st_inv _ _ HP w Hw) as Hinv. split_and!.
    - apply (st_start _ _ HP); [done|]. intros r q c d k Hr Hq Er Eq Hq' Hc Hd Kc Kd.
      apply list_elem_of_In, in_map_iff in Hrow as (r0 & E0 & H0).
      assert (r = r0) as <-.
      { apply (run_id_unique (cron_runs w)); [apply Hinv|done|by apply list_elem_of_In|].
        unfold rkey2 in E0. simplify_eq. congruence. }
      unfold rkey2 in E0. injection E0 as _ Ejob. unfold core_of in Hc.
      destruct (r_job_id r) as [jid|] eqn:Ej; [|done]. rewrite <-Ejob in Hscope.
      pose proof (inv_core_ok w r c Hinv ltac:(unfold core_of; by rewrite Ej)) as (_ & _ & Hs1 & Hs2 & Hk).
      assert (jc_id c = jid) as Eid by (by apply find_some in Hc as [_ ?%String.eqb_eq]).
      subst jid. destruct (Hk k Kc) as [Hk1 Hk2].
      assert (text_of (Some (jc_id c)) = jc_id c) as Et
        by (unfold text_of, str_or, otruthy; by rewrite Hs2).
      rewrite Et, Hs2 in Hscope. rewrite <-job_row_core in Hc.
      destruct (job_row w (jc_id c)) as [j|] eqn:Erow; [|done]. simpl in Hc. injection Hc as Ec.
      assert (text_of (j_concurrency_key j) = k) as Ek.
      { rewrite <-Ec in Kc. simpl in Kc. rewrite Kc. unfold text_of, str_or. by rewrite Hk2. }
      rewrite Ek, Hk2 in Hscope. cbn [andb] in Hscope.
      eapply (scope_free_start w k (r_run_id row)); try done.
    - done.
    - simpl. by rewrite update_where_map. }
  unfold mbind, M_bind. destruct (update_runs _ _ w) as [w' [n|e]]; simpl in *; [|done].
  by destruct n.
Qed.

Lemma counts_acquire_row owner lease now row : counts (acquire_row owner lease now row).
Proof. unfold acquire_row. counts_tac. Qed.

Lemma acquire_candidates_elem w owner now limit r :
  r ∈ acquire_candidates w owner now limit → r ∈ cron_runs w ∧ acquirable w owner now r = true.
Proof.
  unfold acquire_candidates, limit_rows. intros H. apply elem_of_take in H as (i & H & _).
  apply list_elem_of_lookup_2, sort_asc_elem, filter_elem in H. done.
Qed.

Lemma keeps_acquire d ttl n now : keeps P (acquire_cron_runs d ttl n now).
Proof.
  unfold acquire_cron_runs. keeps_tac. apply (keeps_tx P Q HP).
  - apply counts_bind; [apply counts_recover|intros ?]. counts_tac. apply counts_acquire_row.
  - apply keeps_then; [apply keeps_recovery|intros ?]. apply keeps_get. intros w Hw.
    destruct (_scheduler_is_paused_locked w); [done|].
    match goal with |- P ((mbind ?f ?m) w).1 =>
      assert (acquiring (cores w) (map rkey2 (cron_runs w)) (m w).1) as Hup end.
    { apply keeps_for_each; [|done]. intros r Hr%acquire_candidates_elem.
      apply keeps_acquire_row. apply list_elem_of_In, in_map, list_elem_of_In, Hr. }
    destruct Hup as (Hup & _). unfold mbind, M_bind. by destruct (for_each _ _ w) as [w' [l|e]].
Qed.

Lemma keeps_renew rid d n ttl now : keeps P (renew_cron_run_lease rid d n ttl now).
Proof.
  unfold renew_cron_run_lease. keeps_tac. apply (keeps_update_benign P Q HP). intros r _.
  repeat split; done.
Qed.

(** ** Finishing, retrying and deleting runs *)

Lemma terminal_not_active s : str_in s TERMINAL_STATES = true → s ≠ "running" ∧ s ≠ "queued".
Proof. intros H. split; intros ->; done. Qed.

Lemma counts_finish_locked rid o fence now : counts (_finish_cron_run_locked rid o fence now).
Proof.
  unfold _finish_cron_run_locked, _persist_scope_watermark_locked, _finalize_one_time_job_locked.
  counts_tac.
Qed.

Lemma keeps_set_scope f : keeps P (modify (λ w, set_scope (f w) w)).
Proof. intros w Hw. apply (st_aux _ _ HP w); done. Qed.

Lemma keeps_finish rid o d n now : keeps P (finish_cron_run rid o d n now).
Proof.
  unfold finish_cron_run. destruct (negb _) eqn:Hs; [apply keeps_raise|].
  apply negb_false_iff in Hs. destruct (terminal_not_active _ Hs) as [Hr Hq].
  keeps_tac. apply (keeps_tx P Q HP); [apply counts_finish_locked|].
  unfold _finish_cron_run_locked. apply keeps_get_any. intros w.
  destruct (find_run _ _ _) as [row|]; [|apply keeps_ret]. cbv zeta.
  apply keeps_then.
  { apply (keeps_update_benign P Q HP). intros r _. repeat split; try done; by intros ?. }
  intros n'. destruct (_ <=? _)%nat; [apply keeps_ret|].
  unfold _persist_scope_watermark_locked, _finalize_one_time_job_locked.
  keeps_tac; apply keeps_set_scope.
Qed.

(** A step at a world whose runs have unique identifiers, as [frozen]. *)
Lemma keeps_at_frozen {A} (m : CM A) w :
  P w → keeps (frozen (cores w) (map rkey (cron_runs w))) m → P (m w).1.
Proof. intros Hw Hm. by apply (Hm w). Qed.

Lemma keeps_retry rid e d n now : keeps P (retry_cron_run rid e d n now).
Proof.
  unfold retry_cron_run. keeps_tac. apply keeps_get. intros w Hw.
  destruct (find_run _ _ _) as [r|] eqn:Hr; [|done]. cbv zeta.
  apply List.find_some in Hr as [Hr%list_elem_of_In Hp]. bsplit.
  apply has_run_id_true in H. pose proof (st_inv _ _ HP w Hw) as Hinv.
  assert (∀ w' r', frozen (cores w) (map rkey (cron_runs w)) w' → r' ∈ cron_runs w' →
    has_run_id (r_run_id r) r' = true → run_ok (cores w) r' ∧ rkey r' = rkey r) as Hrow.
  { intros w' r' (Hw' & Ec & Ek) Hr' Hid%has_run_id_true.
    pose proof (st_inv _ _ HP w' Hw') as Hinv'. rewrite <-Ec. split; [by apply inv_run_ok|].
    eapply rkey_unique; try done. rewrite Ek. apply list_elem_of_In, in_map, list_elem_of_In, Hr. }
  apply (keeps_at_frozen _ w Hw). apply keeps_then; [|intros ?; apply keeps_gets]. rewrite H in Hrow.
  destruct (Z.leb_spec (Z.max 1 match job_of w r with Some j => z_or (j_max_attempts j) 1 | None => 1 end)
              (r_attempts r)) as [Hle|Hlt].
  - apply keeps_frozen_update; [done|]. intros w' r' Hw' Hr' Hp. bsplit.
    destruct (Hrow w' r' Hw' Hr') as [Hok _]; [done|].
    eapply benign_stays in Hok as (? & _ & ?); [done|apply fail_benign].
  - apply keeps_then; [apply keeps_lift|intros av]. apply keeps_frozen_update; [done|].
    intros w' r' Hw' Hr' Hp. bsplit. destruct (Hrow w' r' Hw' Hr') as [Hok Ek]; [done|].
    pose proof (rkey_attempts _ _ Ek) as Ea. split; [|done]. apply requeue_stays; [done|..].
    + rewrite Ea. destruct (job_of w r) as [j|] eqn:Ej; [|unfold MAX_CRON_ATTEMPTS; lia].
      apply job_of_core_Some in Ej. apply inv_core_ok in Ej as [Hb _]; [|done]. simpl in Hb.
      unfold z_or in Hlt. case_match eqn:E0; [apply Z.eqb_eq in E0; lia|lia].
    + intros c Hc. rewrite (rkey_core _ _ _ Ek) in Hc. pose proof (inv_core_ok _ _ _ Hinv Hc) as [Hb _].
      apply core_of_job in Hc as (j & Hj & <-). rewrite Hj in Hlt. rewrite Ea. simpl in *.
      unfold z_or in Hlt. case_match eqn:E0; [apply Z.eqb_eq in E0; lia|lia].
Qed.

Lemma keeps_delete_old b : keeps P (delete_old_cron_runs b).
Proof. unfold delete_old_cron_runs. keeps_tac. apply (keeps_delete_runs P Q HP). intros r H. by bsplit. Qed.
Lemma keeps_delete_terminal jid : keeps P (delete_terminal_cron_runs jid).
Proof. unfold delete_terminal_cron_runs. keeps_tac. apply (keeps_delete_runs P Q HP). intros r H. by bsplit. Qed.

(** ** Delivery targets *)

Lemma keeps_mark rid t d n : keeps P (mark_cron_delivery_target rid t d n).
Proof.
  unfold mark_cron_delivery_target, edit_delivery_targets. keeps_tac.
  apply keeps_get. intros w Hw. destruct (find_run _ _ _) as [r|] eqn:Hr; [|by case_match].
  cbv zeta. destruct (str_in _ _); [done|].
  apply List.find_some in Hr as [Hr%list_elem_of_In Hp].
  apply andb_true_iff in Hp as [Hid%has_run_id_true _].
  pose proof (st_inv _ _ HP w Hw) as Hinv.
  set (w1 := set_counters (S (cron_ticks w)) (cron_uuids w) w).
  apply (st_update _ _ HP w1); [by apply (st_aux _ _ HP w)|]. intros r' Hr' Hp.
  apply andb_true_iff in Hp as [Hid'%has_run_id_true _]. assert (r' = r) as ->.
  { apply (run_id_unique (cron_runs w)); [apply Hinv|done|done|congruence]. }
  pose proof (inv_run_ok w r Hinv Hr) as Hok. split_and!; [|done|simpl; set_solver].
  repeat split; try done; apply Hok.
Qed.

(** ** Operator control *)

Lemma keeps_update_task jid m s e : keeps P (update_task_cron_job jid m s e).
Proof.
  unfold update_task_cron_job. keeps_tac; apply keeps_get_any; intros w; keeps_tac.
Qed.
Lemma keeps_trigger_task jid : keeps P (trigger_task_run_now jid).
Proof.
  unfold trigger_task_run_now. keeps_tac; apply keeps_get_any; intros w; keeps_tac; keeps_draw.
Qed.
Lemma keeps_trigger_run jid due o ttl : keeps P (trigger_cron_run jid due o ttl).
Proof.
  unfold trigger_cron_run. apply keeps_get_any. intros w. keeps_tac; keeps_draw;
    apply keeps_get_any; intros w'; keeps_with (λ w, P w ∧ drawn n w) Q HD;
    (apply (keeps_insert_run (λ w, P w ∧ drawn n w) Q HD _ _ n); [done|done|by intros ? []|done|done]).
Qed.
Lemma keeps_set_control c : keeps P (modify (set_control c)).
Proof. intros w Hw. by apply (st_aux _ _ HP w). Qed.
Lemma keeps_get_control : keeps P get_cron_scheduler_control.
Proof.
  unfold get_cron_scheduler_control. keeps_tac. apply keeps_get_any. intros w. keeps_tac. apply keeps_set_control.
Qed.
Lemma keeps_set_scheduler b r a e : keeps P (set_cron_scheduler_control b r a e).
Proof.
  unfold set_cron_scheduler_control.
  apply keeps_then; [apply keeps_get_control|intros ?].
  apply keeps_then; [apply (keeps_utc_now P Q HP)|intros now].
  apply keeps_then; [|intros ?; apply keeps_get_control].
  keeps_tac. apply keeps_get_any. intros w. keeps_tac. apply keeps_set_control.
Qed.
End keeps.
