(* ===== verification/CronProps.v ===== *)
(** The cron store as a transition system: every database reachable by its
    operations satisfies the invariant, stale workers are fenced off, and a
    delivery mark stays. *)

From S2P Require Import Prelude PyValue Timestamps PyText Schedule CronTables CronStore CronInv CronSteps CronKeeps.
From Stdlib Require Import Ascii.

Local Open Scope Z_scope.

(** The operations; [OpTasks] is the task service registering the jobs of its
    tasks. *)
Inductive cron_op : Type :=
| OpAdd (a : NewCronJob)
| OpEnable (job_id : string) (enabled cancel_queued : bool) (next_due : option string)
| OpDelete (job_id : string)
| OpPayload (job_id : string) (payload : pyval)
| OpUpdateTask (job_id instruction : string) (schedule : pyval) (expected : string)
| OpTriggerTask (job_id : string)
| OpTrigger (job_id : string) (due_at lease_owner : option string) (ttl : Z)
| OpEnqueue (daemon_id : string) (ttl max_jobs : Z) (now : option string)
| OpAcquire (daemon_id : string) (ttl limit : Z) (now : option string)
| OpRenew (run_id daemon_id : string) (attempts ttl : Z) (now : option string)
| OpFinish (run_id : string) (o : RunOutcome) (daemon_id : option string) (attempts : option Z) (now : option string)
| OpRetry (run_id : string) (error : dict) (daemon_id : option string) (attempts : option Z) (now : option string)
| OpRecover (now : option string) (limit : Z)
| OpMark (run_id target : string) (daemon_id : option string) (attempts : option Z)
| OpUnmark (run_id target : string) (daemon_id : option string) (attempts : option Z)
| OpDeleteOld (before : string)
| OpDeleteTerminal (job_id : string)
| OpGetControl
| OpSetControl (paused : bool) (reason : option string) (actor expected : string)
| OpTasks (ids : option (list string)).

Section props.
Context {Env : PyEnv} {Sched : ScheduleEnv}.

Definition set_tasks (ids : option (list string)) (w : CronWorld) : CronWorld :=
  {| cron_jobs := cron_jobs w; cron_runs := cron_runs w; scheduler_control := scheduler_control w;
     cron_scope_state := cron_scope_state w; scheduled_tasks := ids; cron_ticks := cron_ticks w;
     cron_uuids := cron_uuids w |}.

(** The database after an operation, whether it returned or raised. *)
Definition cron_exec (op : cron_op) (w : CronWorld) : CronWorld :=
  match op with
  | OpAdd a => (add_cron_job a w).1
  | OpEnable jid b c o => (set_cron_job_enabled jid b c o w).1
  | OpDelete jid => (delete_cron_job jid w).1
  | OpPayload jid v => (replace_cron_job_payload jid v w).1
  | OpUpdateTask jid m s e => (update_task_cron_job jid m s e w).1
  | OpTriggerTask jid => (trigger_task_run_now jid w).1
  | OpTrigger jid due o ttl => (trigger_cron_run jid due o ttl w).1
  | OpEnqueue d ttl n now => (enqueue_due_cron_runs d ttl n now w).1
  | OpAcquire d ttl n now => (acquire_cron_runs d ttl n now w).1
  | OpRenew rid d n ttl now => (renew_cron_run_lease rid d n ttl now w).1
  | OpFinish rid o d n now => (finish_cron_run rid o d n now w).1
  | OpRetry rid e d n now => (retry_cron_run rid e d n now w).1
  | OpRecover now limit => (recover_expired_cron_runs now limit w).1
  | OpMark rid t d n => (mark_cron_delivery_target rid t d n w).1
  | OpUnmark rid t d n => (unmark_cron_delivery_target rid t d n w).1
  | OpDeleteOld b => (delete_old_cron_runs b w).1
  | OpDeleteTerminal jid => (delete_terminal_cron_runs jid w).1
  | OpGetControl => (get_cron_scheduler_control w).1
  | OpSetControl b r a e => (set_cron_scheduler_control b r a e w).1
  | OpTasks ids => set_tasks ids w
  end.
Definition cron_trace (ops : list cron_op) (w : CronWorld) : CronWorld :=
  foldl (λ w op, cron_exec op w) w ops.

Definition cron_empty : CronWorld :=
  {| cron_jobs := []; cron_runs := []; scheduler_control := None; cron_scope_state := ∅;
     scheduled_tasks := None; cron_ticks := 0; cron_uuids := 0 |}.

Inductive cron_reachable : CronWorld → Prop :=
| cron_reach_init : cron_reachable cron_empty
| cron_reach_step w op : cron_reachable w → cron_reachable (cron_exec op w).

(** ** Stable predicates are invariants *)

Definition not_unmark (op : cron_op) : Prop := match op with OpUnmark _ _ _ _ => False | _ => True end.

Lemma exec_keeps P Q (HP : stable P Q) op w :
  ids_plain → not_unmark op → P w → P (cron_exec op w).
Proof.
  intros Hids Hop Hw. destruct op; simpl in *; try done.
  - by apply (keeps_add_job P Q HP).
  - by apply (keeps_set_enabled P Q HP).
  - by apply (keeps_delete_cron_job P Q HP).
  - by apply (keeps_replace_payload P Q HP).
  - by apply (keeps_update_task P Q HP).
  - by apply (keeps_trigger_task P Q HP).
  - by apply (keeps_trigger_run P Q HP).
  - by apply (keeps_enqueue P Q HP).
  - by apply (keeps_acquire P Q HP).
  - by apply (keeps_renew P Q HP).
  - by apply (keeps_finish P Q HP).
  - by apply (keeps_retry P Q HP).
  - by apply (keeps_recover_expired P Q HP).
  - by apply (keeps_mark P Q HP).
  - by apply (keeps_delete_old P Q HP).
  - by apply (keeps_delete_terminal P Q HP).
  - by apply (keeps_get_control P Q HP).
  - by apply (keeps_set_scheduler P Q HP).
  - by apply (st_aux _ _ HP w).
Qed.

Lemma trace_keeps P Q (HP : stable P Q) ops w :
  ids_plain → Forall not_unmark ops → P w → P (cron_trace ops w).
Proof.
  intros Hids Hops. revert w. induction Hops as [|op ops Hop Hops IH]; intros w Hw; simpl; [done|].
  apply IH. by eapply exec_keeps.
Qed.

Lemma cron_inv_stable : stable cron_inv (λ _, True).
Proof.
  constructor; unfold cron_inv; try done.
  - intros w w' Hc Hr _. by rewrite Hc, Hr.
  - intros w p Hw _. by apply cron_ok_delete_runs.
  - intros w jid Hw. unfold cores. simpl.
    replace (map jcore (List.filter (λ j, negb (has_job_id jid j)) (cron_jobs w)))
      with (List.filter (λ c, negb (String.eqb (jc_id c) jid)) (map jcore (cron_jobs w))).
    + by apply cron_ok_delete_job.
    + clear Hw. induction (cron_jobs w) as [|j l IH]; simpl; [done|].
      unfold has_job_id at 1. destruct (String.eqb (j_job_id j) jid); simpl; [done|by f_equal].
  - intros w j Hw Hnew Hok. unfold cores. simpl. rewrite map_app. apply cron_ok_add_job; try done.
    change (map jcore (cron_jobs w)) with (cores w). simpl. by rewrite <-job_row_core, Hnew.
  - intros w r n Hw _ _ _ H1 H2 H3 H4. by apply cron_ok_insert.
  - intros w p f Hw Hf. apply cron_ok_update; [done|]. intros r Hr Hp. by destruct (Hf r Hr Hp).
  - intros w rid owner lease now Hw Hfree. by apply cron_ok_start.
Qed.

(** [unmark] changes the delivery targets of runs only. *)
Lemma unmark_runs rid t d n w :
  let w' := (unmark_cron_delivery_target rid t d n w).1 in
  cores w' = cores w ∧ cron_uuids w' = cron_uuids w ∧
  ∃ p ts now, cron_runs w' = update_where p (run_targets ts now) (cron_runs w).
Proof.
  assert (∀ u v, cron_runs u = update_where (λ _, false) (run_targets [] "") (cron_runs u) ∧
    (cron_runs v = cron_runs u → cron_runs v = update_where (λ _, false) (run_targets [] "") (cron_runs u))) as Hid.
  { intros u v. rewrite update_where_id by done. by split. }
  cbv zeta. unfold unmark_cron_delivery_target, edit_delivery_targets, fence_of, cron_tx, transaction,
    cron_value_error, find_run. munfold.
  repeat (case_match; simplify_eq/=);
    try (split_and!; [done|done|]; eexists (λ _, false), [], ""; by apply Hid).
  all: split_and!; [done|done|]; eexists _, _, _; reflexivity.
Qed.

Lemma targets_stays cs r ts now : run_ok cs r → stays cs r (run_targets ts now r).
Proof. intros H. repeat split; try done; apply H. Qed.

Lemma reachable_inv w : ids_plain → cron_reachable w → cron_inv w.
Proof.
  intros Hids. induction 1 as [|w op _ IH].
  - constructor; simpl; try done; try apply NoDup_nil_2; try constructor.
    + intros r1 r2 jid H. by apply elem_of_nil in H.
    + intros r1 r2 c1 c2 k H. by apply elem_of_nil in H.
  - destruct op; try by eapply (exec_keeps _ _ cron_inv_stable).
    simpl. destruct (unmark_runs run_id target daemon_id attempts w) as (E1 & _ & p & ts & now & E2).
    unfold cron_inv. rewrite E1, E2. apply cron_ok_update; [done|]. intros r Hr _.
    apply targets_stays. by apply inv_run_ok.
Qed.

(** ** Starts *)

(** The runs that an operation hands out to a daemon as started. *)
Definition handed_out (op : cron_op) (w : CronWorld) : list string :=
  match op with
  | OpAcquire d ttl n now =>
      match (acquire_cron_runs d ttl n now w).2 with Ok l => map r_run_id l | Raise _ => [] end
  | _ => []
  end.
Definition is_id (rid : string) (i : string) : bool := String.eqb i rid.
(** How often run [rid] is handed out along the operations. *)
Fixpoint starts (rid : string) (ops : list cron_op) (w : CronWorld) : nat :=
  match ops with
  | [] => 0
  | op :: ops' => count_where (is_id rid) (handed_out op w) + starts rid ops' (cron_exec op w)
  end.

(** [n] starts of [rid] are accounted for by its row. *)
Definition accounts (rid : string) (n : nat) (w : CronWorld) : Prop :=
  ∀ r, r ∈ cron_runs w → r_run_id r = rid → Z.of_nat n ≤ r_attempts r.
Definition accounted (rid : string) (n : nat) (w : CronWorld) : Prop :=
  cron_inv w ∧ (∀ r, r ∈ cron_runs w → ∃ k, drawn k w ∧ r_run_id r = py_uuid4 k) ∧
  (n = 0%nat ∨ ∃ k, drawn k w ∧ rid = py_uuid4 k) ∧ accounts rid n w.

Lemma accounted_stable rid n : uuids_distinct → stable (accounted rid n) (λ m, n = 0%nat ∨ py_uuid4 m ≠ rid).
Proof.
  intros Hd. pose proof cron_inv_stable as HS. constructor; unfold accounted, accounts, drawn.
  - tauto.
  - intros w w' Hc Hr Hu (Hi & Hg & Hk & Hl). rewrite Hr. split_and!; [by apply (st_aux _ _ HS w)| |destruct Hk as [->|(k & ? & ->)]|done].
    + intros r Hin. destruct (Hg r Hin) as (k & ? & ?). exists k. split; [lia|done].
    + by left.
    + right. exists k. split; [lia|done].
  - intros w (_ & _ & [->|(k & Hk & ->)] & _); [by left|right]. intros E. apply Hd in E. lia.
  - intros w p (Hi & Hg & Hk & Hl) Hp. split_and!; [by apply (st_delete_runs _ _ HS)| |done|];
      intros r [Hr _]%filter_elem; [by apply Hg|by apply Hl].
  - intros w jid (Hi & Hg & Hk & Hl). split_and!; [by apply (st_delete_job _ _ HS)| |done|];
      intros r Hr; apply update_where_elem in Hr as (q & Hq & [[_ ->]|[_ ->]]); simpl; by (apply Hg || apply Hl).
  - intros w j (Hi & Hg & Hk & Hl) H1 H2. split_and!; [by apply (st_add_job _ _ HS)|done..].
  - intros w r m (Hi & Hg & Hk & Hl) HQ Hm Hdm H1 H2 H3 H4. split_and!; [by apply (st_insert _ _ HS w r m)| |done|].
    + intros q [Hq|Hq%list_elem_of_singleton]%elem_of_app; [by apply Hg|]. subst q. by exists m.
    + intros q [Hq|Hq%list_elem_of_singleton]%elem_of_app E; [by apply Hl|]. subst q.
      destruct HQ as [->|HQ]; [apply H3|congruence].
  - intros w p f (Hi & Hg & Hk & Hl) Hf. split_and!; [by apply (st_update _ _ HS)| |done|];
      intros r Hr; apply update_where_elem in Hr as (q & Hq & [[Hp ->]|[_ ->]]); try (by apply Hg || apply Hl);
      destruct (Hf q Hq Hp) as ((I & _) & A & _); rewrite I; [by apply Hg|]. rewrite A. by apply Hl.
  - intros w r owner lease now (Hi & Hg & Hk & Hl) Hfree. split_and!; [by apply (st_start _ _ HS)| |done|];
      intros q Hq; apply update_where_elem in Hq as (x & Hx & [[Hp ->]|[_ ->]]); try (by apply Hg || apply Hl); simpl.
    + by apply Hg.
    + intros E. specialize (Hl x Hx E). lia.
Qed.

Lemma count_where_elem {A} (p : A → bool) (l : list A) : (0 < count_where p l)%nat → ∃ x, x ∈ l ∧ p x = true.
Proof.
  unfold count_where. destruct (List.filter p l) as [|x l'] eqn:E; simpl; [lia|]. intros _. exists x.
  apply filter_elem. rewrite E. by left.
Qed.
(** Taking a row counts as one more attempt of it. *)
Lemma acquire_row_accounts rid n owner lease now row w w' o :
  NoDup (map r_run_id (cron_runs w)) → accounts rid n w → acquire_row owner lease now row w = (w', Ok o) →
  map r_run_id (cron_runs w') = map r_run_id (cron_runs w) ∧
  accounts rid (n + match o with Some r => if is_id rid (r_run_id r) then 1 else 0 | None => 0 end) w' ∧
  ∀ r, o = Some r → r_run_id r ∈ map r_run_id (cron_runs w).
Proof.
  intros Hn Ha. unfold acquire_row. rewrite bind_get_world. cbv zeta.
  destruct (_ && _); [intros [= <- <-]; by rewrite Nat.add_0_r|]. unfold update_runs. munfold.
  set (p := λ r, has_run_id (r_run_id row) r && run_is "queued" r). set (f := run_start owner lease now).
  set (w1 := set_runs (update_where p f) w).
  assert (map r_run_id (cron_runs w1) = map r_run_id (cron_runs w)) as Hids by (by apply update_where_map).
  assert (accounts rid n w1) as Ha1.
  { intros r Hr E. apply update_where_elem in Hr as (q & Hq & [[_ ->]|[_ ->]]); [|by apply Ha].
    specialize (Ha q Hq E). simpl. lia. }
  destruct (count_where p (cron_runs w) <=? 0)%nat eqn:Ec; intros [= <- <-]; [by rewrite Nat.add_0_r|].
  destruct (run_row w1 (r_run_id row)) as [r'|] eqn:Er; [|by rewrite Nat.add_0_r].
  apply find_elem in Er as [Hr' Hid']. apply has_run_id_true in Hid'.
  split_and!; [done| |intros r [= <-]; rewrite <-Hids; apply list_elem_of_In, in_map, list_elem_of_In, Hr'].
  unfold is_id. destruct (String.eqb_spec (r_run_id r') rid) as [E|]; [|by rewrite Nat.add_0_r].
  apply Nat.leb_gt in Ec. destruct (count_where_elem p (cron_runs w) Ec) as (r0 & Hr0 & Hp0).
  intros r Hr Erid. apply update_where_elem in Hr as (q & Hq & [[_ ->]|[Hp ->]]); [specialize (Ha q Hq Erid); simpl; lia|].
  assert (q = r0) as ->; [|congruence]. apply (run_id_unique (cron_runs w)); try done.
  unfold p in Hp0. apply andb_true_iff in Hp0 as [Hp0 _]. apply has_run_id_true in Hp0. congruence.
Qed.
Lemma acquire_rows_account rid owner lease now rows : ∀ n w w' os,
  NoDup (map r_run_id (cron_runs w)) → accounts rid n w → for_each (acquire_row owner lease now) rows w = (w', Ok os) →
  map r_run_id (cron_runs w') = map r_run_id (cron_runs w) ∧
  accounts rid (n + count_where (is_id rid) (map r_run_id (omap id os))) w' ∧
  ∀ i, i ∈ map r_run_id (omap id os) → i ∈ map r_run_id (cron_runs w).
Proof.
  induction rows as [|row rows IH]; intros n w w' os Hn Ha H; simpl in H.
  { injection H as <- <-. simpl. unfold count_where. simpl. rewrite Nat.add_0_r. split_and!; [done..|]. by intros i ?%elem_of_nil. }
  msplit H as w1 o E1. msplit H as w2 os2 E2. injection H as <- <-.
  destruct (acquire_row_accounts rid n _ _ _ _ _ _ _ Hn Ha E1) as (I1 & A1 & M1). rewrite <-I1 in Hn.
  destruct (IH _ _ _ _ Hn A1 E2) as (I2 & A2 & M2). split; [congruence|].
  destruct o as [r|]; simpl; [|by rewrite Nat.add_0_r, I1 in *]. split.
  - unfold count_where in *. simpl. destruct (is_id rid (r_run_id r)); simpl in *; [|by rewrite Nat.add_0_r in A2].
    by rewrite <-Nat.add_assoc in A2.
  - intros i [->|Hi]%elem_of_cons; [by apply M1|]. rewrite <-I1. by apply M2.
Qed.
Lemma acquire_accounts rid n d ttl limit now w w' l : uuids_distinct →
  accounted rid n w → acquire_cron_runs d ttl limit now w = (w', Ok l) →
  accounts rid (n + count_where (is_id rid) (map r_run_id l)) w' ∧
  ∀ i, i ∈ map r_run_id l → i ∈ map r_run_id (cron_runs w').
Proof.
  intros Hd Hw. unfold acquire_cron_runs. intros H. pose proof (accounted_stable rid n Hd) as HS.
  msplit H as w0 owner E0. assert (w0 = w) as -> by (unfold required in E0; cbv zeta in E0; destruct (truthy _); [by injection E0|done]).
  cbv zeta in H. msplit H as w1 t E1. assert (accounted rid n w1) as Hw1.
  { pose proof (keeps_now_or _ _ HS now w Hw) as Hk. by rewrite E1 in Hk. }
  msplit H as w2 ex E2. assert (w2 = w1) as -> by (unfold lift_py in E2; destruct (dt_add _ _); [by injection E2|done]).
  unfold cron_tx, transaction in H.
  match type of H with (let (_, _) := ?m w1 in _) = _ => destruct (m w1) as [w3 [x|e]] eqn:E3 end; [|done]. injection H as <- <-. msplit E3 as w4 rec E4.
  assert (accounted rid n w4) as Hw4 by (pose proof (keeps_recovery _ _ HS t (to_iso_utc t) (Z.max 100 (Z.max 1 (Z.min limit 500) * 2)) w1 Hw1) as Hk; by rewrite E4 in Hk).
  rewrite bind_get_world in E3. destruct (_scheduler_is_paused_locked w4).
  { injection E3 as <- <-. unfold count_where. simpl. rewrite Nat.add_0_r. split; [apply Hw4|by intros i ?%elem_of_nil]. }
  msplit E3 as w5 os E5. injection E3 as <- <-. destruct Hw4 as (Hi & _ & _ & Ha).
  destruct (acquire_rows_account rid _ _ _ _ n w4 w5 os (ok_run_ids _ _ Hi) Ha E5) as (I & A & M).
  split; [done|]. intros i Hin. rewrite I. by apply M.
Qed.

(** The account of [rid] is kept by every operation, the starts that it hands out added. *)
Lemma accounted_exec rid n op w : ids_plain → uuids_distinct → accounted rid n w →
  accounted rid (n + count_where (is_id rid) (handed_out op w)) (cron_exec op w) ∧
  (0 < count_where (is_id rid) (handed_out op w) → rid ∈ map r_run_id (cron_runs (cron_exec op w)))%nat.
Proof.
  intros Hids Hd Hw.
  assert (accounted rid n (cron_exec op w)) as Hk.
  { destruct op; try by eapply (exec_keeps _ _ (accounted_stable rid n Hd)).
    simpl. destruct (unmark_runs run_id target daemon_id attempts w) as (E1 & Eu & p & ts & now & E2).
    destruct Hw as (Hi & Hg & Hk & Hl). unfold accounted, accounts, drawn, cron_inv. rewrite E1, E2, Eu. split_and!; [|..|done|].
    - apply cron_ok_update; [done|]. intros r Hr _. apply targets_stays. by apply inv_run_ok.
    - intros r Hr. apply update_where_elem in Hr as (q & Hq & [[_ ->]|[_ ->]]); simpl; by apply Hg.
    - intros r Hr. apply update_where_elem in Hr as (q & Hq & [[_ ->]|[_ ->]]); simpl; by apply Hl. }
  assert (count_where (is_id rid) (handed_out op w) = 0%nat ∨
    accounts rid (n + count_where (is_id rid) (handed_out op w)) (cron_exec op w) ∧
    rid ∈ map r_run_id (cron_runs (cron_exec op w))) as [->|[Ha Hin]].
  { destruct op as [| | | | | | | |d ttl limit now| | | | | | | | | | |]; try by left. simpl.
    destruct (acquire_cron_runs d ttl limit now w) as [w' [l|e]] eqn:E; [|by left]. simpl.
    destruct (acquire_accounts rid n d ttl limit now w w' l Hd Hw E) as [Ha Hm].
    destruct (count_where (is_id rid) (map r_run_id l)) as [|c] eqn:Ec; [by left|right]. split; [done|]. apply Hm.
    destruct (count_where_elem (is_id rid) (map r_run_id l)) as (i & Hi & Ei); [lia|]. by apply String.eqb_eq in Ei as <-. }
  { rewrite Nat.add_0_r. split; [done|lia]. }
  split; [|done]. destruct Hk as (Hi & Hg & Hz & _). split_and!; [done|done| |done]. right.
  apply list_elem_of_In, in_map_iff in Hin as (r & <- & Hr). apply list_elem_of_In in Hr. by apply Hg.
Qed.
Lemma starts_accounted rid ops : ∀ n w, ids_plain → uuids_distinct → accounted rid n w →
  Z.of_nat n ≤ MAX_CRON_ATTEMPTS →
  accounted rid (n + starts rid ops w) (cron_trace ops w) ∧ Z.of_nat (n + starts rid ops w) ≤ MAX_CRON_ATTEMPTS.
Proof.
  induction ops as [|op ops IH]; intros n w Hids Hd Hw Hn; simpl; [by rewrite Nat.add_0_r|].
  destruct (accounted_exec rid n op w Hids Hd Hw) as [Hw' Hin]. rewrite Nat.add_assoc. apply IH; try done.
  destruct (Nat.eq_0_gt_0_cases (count_where (is_id rid) (handed_out op w))) as [->|Hp]; [by rewrite Nat.add_0_r|].
  apply Hin, list_elem_of_In, in_map_iff in Hp as (r & Er & Hr). apply list_elem_of_In in Hr.
  destruct Hw' as (Hi & _ & _ & Ha). specialize (Ha r Hr Er). destruct (inv_run_ok _ r Hi Hr) as (B1 & _). lia.
Qed.

(** C16: along every sequence of cron operations, a run is handed out to daemons as
    started at most [MAX_CRON_ATTEMPTS] times, whatever became of its row; while
    the row is there, its attempts account for all these starts, are at most the
    [max_attempts] of its job, and leave one when the run is queued.  Leases that
    expire, retries, operator actions and interleaved daemons never exceed the limit. *)
Theorem cron_starts_bounded ops rid :
  ids_plain → uuids_distinct →
  let w := cron_trace ops cron_empty in
  Z.of_nat (starts rid ops cron_empty) ≤ MAX_CRON_ATTEMPTS ∧
  ∀ r, r ∈ cron_runs w → r_run_id r = rid →
    Z.of_nat (starts rid ops cron_empty) ≤ r_attempts r ≤ MAX_CRON_ATTEMPTS ∧
    ∀ j, job_of w r = Some j → r_attempts r ≤ j_max_attempts j ∧
      (r_state r = "queued" → r_attempts r < j_max_attempts j).
Proof.
  intros Hids Hd w. assert (cron_inv cron_empty) as He by (apply reachable_inv; [done|constructor]).
  destruct (starts_accounted rid ops 0 cron_empty Hids Hd) as [(Hi & _ & _ & Ha) Hmax]; [|done|].
  { split_and!; [done| |by left|]; by intros r ?%elem_of_nil. }
  split; [done|]. intros r Hr E. destruct (inv_run_ok _ r Hi Hr) as (B1 & _ & B3). split; [split; [by apply Ha|lia]|].
  intros j Hj. apply job_of_core_Some in Hj. unfold core_of in Hj. destruct (r_job_id r) as [jid|]; [|done].
  destruct (B3 jid eq_refl) as (c & Hc & B). change (core_row (cores w) jid = Some c) in Hc. rewrite Hj in Hc. by simplify_eq.
Qed.

(** C17: at most one run of a concurrency key is running, over all jobs that share
    the key and whatever daemons and operators do. *)
Theorem one_running_per_key w r1 r2 j1 j2 k :
  ids_plain → cron_reachable w → r1 ∈ cron_runs w → r2 ∈ cron_runs w →
  r_state r1 = "running" → r_state r2 = "running" →
  job_of w r1 = Some j1 → job_of w r2 = Some j2 →
  j_concurrency_key j1 = Some k → j_concurrency_key j2 = Some k → r1 = r2.
Proof.
  intros Hids Hw H1 H2 R1 R2 J1 J2 K1 K2. apply reachable_inv in Hw; [|done].
  destruct Hw as [_ _ Hn _ _ Hs]. apply (run_id_unique (cron_runs w)); try done.
  apply (Hs r1 r2 (jcore j1) (jcore j2) k); try done; by apply job_of_core_Some.
Qed.

(** The cron tables keep their keys: job and run identifiers are unique, a job
    has one run per due time, and every run that names a job names an existing
    one. *)
Theorem cron_tables_consistent w :
  ids_plain → cron_reachable w →
  NoDup (map j_job_id (cron_jobs w)) ∧ NoDup (map r_run_id (cron_runs w)) ∧
  (∀ r1 r2 jid, r1 ∈ cron_runs w → r2 ∈ cron_runs w → r_job_id r1 = Some jid → r_job_id r2 = Some jid →
     r_due_at r1 = r_due_at r2 → r1 = r2) ∧
  ∀ r jid, r ∈ cron_runs w → r_job_id r = Some jid → ∃ j, job_row w jid = Some j.
Proof.
  intros Hids Hw. apply reachable_inv in Hw; [|done]. pose proof Hw as [Hj _ Hn Hd _ _].
  split_and!; [|done|..].
  - unfold cores in Hj. by rewrite map_map in Hj.
  - intros r1 r2 jid H1 H2 E1 E2 Ed. apply (run_id_unique (cron_runs w)); try done. by eapply Hd.
  - intros r jid Hr Ej. destruct (inv_run_ok w r Hw Hr) as (_ & _ & B3).
    destruct (B3 jid Ej) as (c & Hc & _). rewrite <-job_row_core in Hc.
    destruct (job_row w jid); [eauto|done].
Qed.

(** ** Fencing *)

(** The lease of attempt [n] of run [rid] is over: the run has a later attempt,
    or is no longer running. *)
Definition lease_over (rid : string) (n : Z) (w : CronWorld) : Prop :=
  ∀ r, r ∈ cron_runs w → r_run_id r = rid → n < r_attempts r ∨ r_attempts r = n ∧ r_state r ≠ "running".
Definition fenced_off (k : nat) (n : Z) (w : CronWorld) : Prop :=
  cron_inv w ∧ drawn k w ∧ lease_over (py_uuid4 k) n w.

Lemma fenced_off_stable k n : uuids_distinct → stable (fenced_off k n) (λ m, m ≠ k).
Proof.
  intros Hd. pose proof cron_inv_stable as HS. constructor; unfold fenced_off, drawn, lease_over.
  - tauto.
  - intros w w' Hc Hr Hu (Hi & Hk & Hl). split_and!; [by apply (st_aux _ _ HS w)|lia|]. by rewrite Hr.
  - intros w (_ & Hk & _). lia.
  - intros w p (Hi & Hk & Hl) Hp. split_and!; [by apply (st_delete_runs _ _ HS)|done|].
    intros r [Hr _]%filter_elem. by apply Hl.
  - intros w jid (Hi & Hk & Hl). split_and!; [by apply (st_delete_job _ _ HS)|done|].
    intros r Hr. apply update_where_elem in Hr as (q & Hq & [[_ ->]|[_ ->]]); simpl; by apply Hl.
  - intros w j (Hi & Hk & Hl) H1 H2. split_and!; [by apply (st_add_job _ _ HS)|done|done].
  - intros w r m (Hi & Hk & Hl) HQ Hm Hdm H1 H2 H3 H4. split_and!; [by apply (st_insert _ _ HS w r m)|done|].
    intros q [Hq|Hq%list_elem_of_singleton]%elem_of_app E; [by apply Hl|]. subst q.
    rewrite Hm in E. by apply Hd in E.
  - intros w p f (Hi & Hk & Hl) Hf. split_and!; [by apply (st_update _ _ HS)|done|].
    intros r Hr E. apply update_where_elem in Hr as (q & Hq & [[Hp ->]|[_ ->]]); [|by apply Hl].
    destruct (Hf q Hq Hp) as ((I & _ & _ & _ & R) & A & _). rewrite A. rewrite I in E.
    destruct (Hl q Hq E) as [|[? Hnr]]; [by left|right]. split; [done|]. intros Hr. by apply Hnr, R.
  - intros w rid owner lease now (Hi & Hk & Hl) Hfree. split_and!; [by apply (st_start _ _ HS)|done|].
    intros r Hr E. apply update_where_elem in Hr as (q & Hq & [[Hp ->]|[_ ->]]); [|by apply Hl].
    left. simpl in *. destruct (Hl q Hq E) as [|[? _]]; lia.
Qed.

(** Unmarking keeps it as well, so every trace does. *)
Lemma fenced_off_exec k n op w :
  ids_plain → uuids_distinct → fenced_off k n w → fenced_off k n (cron_exec op w).
Proof.
  intros Hids Hd Hw. destruct op; try by eapply (exec_keeps _ _ (fenced_off_stable k n Hd)).
  simpl. destruct (unmark_runs run_id target daemon_id attempts w) as (E1 & Eu & p & ts & now & E2).
  destruct Hw as (Hi & Hk & Hl). unfold fenced_off, drawn, lease_over, cron_inv. rewrite E1, E2, Eu.
  split_and!; [|done|].
  - apply cron_ok_update; [done|]. intros r Hr _. apply targets_stays. by apply inv_run_ok.
  - intros r Hr. apply update_where_elem in Hr as (q & Hq & [[_ ->]|[_ ->]]); simpl; by apply Hl.
Qed.

Lemma fenced_off_trace k n ops w :
  ids_plain → uuids_distinct → fenced_off k n w → fenced_off k n (cron_trace ops w).
Proof.
  intros Hids Hd. revert w. induction ops as [|op ops IH]; intros w Hw; simpl; [done|].
  apply IH. by apply fenced_off_exec.
Qed.

Lemma fence_misses w rid d n :
  lease_over rid n w → ∀ r, r ∈ cron_runs w → has_run_id rid r && fenced (Some (d, n)) r = false.
Proof.
  intros Hl r Hr. apply not_true_is_false. intros H. unfold fenced, holds_lease in H. bsplit.
  apply has_run_id_true in H. apply run_is_true in H0. apply Z.eqb_eq in H2.
  destruct (Hl r Hr H) as [?|[_ ?]]; [lia|done].
Qed.
Lemma find_misses w rid (p : CronRun → bool) :
  (∀ r, r ∈ cron_runs w → has_run_id rid r && p r = false) → find_run w rid p = None.
Proof.
  intros H. unfold find_run. destruct (List.find _ _) as [r|] eqn:E; [|done].
  apply find_elem in E as [Hr Hp]. by rewrite H in Hp.
Qed.

(** A call that changed no run or job and, if it returned, returned [x]. *)
Definition rejected {A} (x : A) (w : CronWorld) (out : CronWorld * result cron_exn A) : Prop :=
  cron_runs out.1 = cron_runs w ∧ cron_jobs out.1 = cron_jobs w ∧ ∀ y, out.2 = Ok y → y = x.

Lemma rejected_bind {A B} (x : B) (m : CM A) (f : A → CM B) w :
  cron_runs (m w).1 = cron_runs w → cron_jobs (m w).1 = cron_jobs w →
  (∀ a w', cron_runs w' = cron_runs w → cron_jobs w' = cron_jobs w → m w = (w', Ok a) →
     rejected x w' (f a w')) → rejected x w (mbind f m w).
Proof.
  intros Hr Hj Hf. unfold mbind, M_bind. destruct (m w) as [w' [a|e]] eqn:E; simpl in *; [|by split_and!].
  destruct (Hf a w' Hr Hj eq_refl) as (H1 & H2 & H3). split_and!; congruence || done.
Qed.
Lemma rejected_tx {A} (x : A) (m : CM A) w : rejected x w (m w) → rejected x w (cron_tx m w).
Proof.
  intros H. unfold cron_tx, transaction. destruct (m w) as [w' [a|e]]; simpl in *; [done|].
  by split_and!.
Qed.
Lemma rejected_ret {A} (x : A) w : rejected x w (mret (M := M CronWorld cron_exn) x w).
Proof. split_and!; try done. by intros y [= <-]. Qed.
Lemma rejected_raise {A} (x : A) e w : rejected x w (raise e w : CronWorld * result cron_exn A).
Proof. by split_and!. Qed.

Lemma now_or_quiet o w : cron_runs (now_or o w).1 = cron_runs w ∧ cron_jobs (now_or o w).1 = cron_jobs w.
Proof. unfold now_or. by case_match. Qed.

Lemma finish_rejected k n d o now w :
  ids_plain → lease_over (py_uuid4 k) n w →
  rejected None w (finish_cron_run (py_uuid4 k) o (Some d) (Some n) now w).
Proof.
  intros Hids Hl. unfold finish_cron_run. destruct (negb _); [apply rejected_raise|].
  destruct (Hids k) as [Hs Ht]. unfold required. rewrite Hs, Ht. unfold fence_of.
  change (rejected None w ((now_dt ← now_or now; cron_tx (_finish_cron_run_locked (py_uuid4 k)
      {| o_state := py_strip (o_state o); o_summary := o_summary o;
         o_artifact_refs := o_artifact_refs o; o_error := o_error o; o_output := o_output o;
         o_isolated_session_id := o_isolated_session_id o |} (Some (py_strip d, n)) (to_iso_utc now_dt))) w)).
  destruct (now_or_quiet now w) as [Hr Hj]. apply rejected_bind; [done|done|].
  intros t w' Er Ej _. apply rejected_tx. unfold _finish_cron_run_locked.
  rewrite bind_get_world, find_misses; [apply rejected_ret|]. apply fence_misses.
  unfold lease_over. by rewrite Er.
Qed.

Lemma retry_rejected k n d e now w :
  ids_plain → lease_over (py_uuid4 k) n w →
  rejected None w (retry_cron_run (py_uuid4 k) e (Some d) (Some n) now w).
Proof.
  intros Hids Hl. unfold retry_cron_run. destruct (Hids k) as [Hs Ht]. unfold required.
  rewrite Hs, Ht. unfold fence_of. rewrite (bind_of_Ok _ _ w w (py_uuid4 k)) by done.
  rewrite (bind_of_Ok _ _ w w (Some (py_strip d, n))) by done.
  destruct (now_or_quiet now w) as [Hr Hj]. apply rejected_bind; [done|done|].
  intros t w' Er Ej _. apply rejected_tx.
  rewrite bind_get_world, find_misses; [apply rejected_ret|]. intros r Hin.
  rewrite Er in Hin. pose proof (fence_misses w (py_uuid4 k) (py_strip d) n Hl r Hin) as H.
  unfold fenced in H. done.
Qed.

Lemma renew_rejected k n d ttl now w :
  ids_plain → lease_over (py_uuid4 k) n w →
  rejected false w (renew_cron_run_lease (py_uuid4 k) d n ttl now w).
Proof.
  intros Hids Hl. unfold renew_cron_run_lease. destruct (Hids k) as [Hs Ht]. rewrite Hs, Ht.
  cbn [negb]. cbv zeta. destruct (negb _); [apply rejected_raise|].
  destruct (now_or_quiet now w) as [Hr Hj]. apply rejected_bind; [done|done|].
  intros t w' Er Ej _. apply rejected_bind; [done|done|]. intros ex w2 Er2 Ej2 _. apply rejected_tx.
  assert (∀ r, r ∈ cron_runs w2 → has_run_id (py_uuid4 k) r && fenced (Some (py_strip d, n)) r = false) as Hm.
  { apply fence_misses. unfold lease_over. by rewrite Er2, Er. }
  unfold rejected, update_runs. munfold. simpl. rewrite update_where_id by done. split_and!; try done.
  intros y [= <-]. unfold count_where.
  assert (List.filter (λ r, has_run_id (py_uuid4 k) r && fenced (Some (py_strip d, n)) r) (cron_runs w2) = [])
    as ->; [|done].
  destruct (List.filter _ _) as [|r l] eqn:E; [done|].
  assert (r ∈ List.filter (λ r, has_run_id (py_uuid4 k) r && fenced (Some (py_strip d, n)) r) (cron_runs w2))
    as Hr0 by (rewrite E; by left).
  apply filter_elem in Hr0 as [Hr0 Hp]. by rewrite Hm in Hp.
Qed.

Lemma mark_rejected k n d t w :
  ids_plain → lease_over (py_uuid4 k) n w →
  rejected false w (mark_cron_delivery_target (py_uuid4 k) t (Some d) (Some n) w).
Proof.
  intros Hids Hl. unfold mark_cron_delivery_target, edit_delivery_targets.
  destruct (Hids k) as [Hs Ht]. rewrite Hs, Ht. cbn [negb]. cbv zeta.
  destruct (negb _); [apply rejected_raise|]. unfold fence_of.
  rewrite (bind_of_Ok _ _ w w (Some (py_strip d, n))) by done. apply rejected_tx.
  rewrite bind_get_world, find_misses; [apply rejected_ret|]. by apply fence_misses.
Qed.

(** C18: a worker whose lease is over is fenced off for good.  Once attempt [n] of a
    run has ended (its lease expired and was recovered, it was retried, finished
    or started again), then after any further sequence of operations by anyone, a
    worker presenting that attempt number cannot finish, retry or renew the run or
    claim a delivery: the call returns [None] or [False] and changes no run and no
    job. *)
Theorem stale_worker_fenced k n w ops d :
  ids_plain → uuids_distinct → cron_reachable w → drawn k w → lease_over (py_uuid4 k) n w →
  let w' := cron_trace ops w in let rid := py_uuid4 k in
  (∀ o now, rejected None w' (finish_cron_run rid o (Some d) (Some n) now w')) ∧
  (∀ e now, rejected None w' (retry_cron_run rid e (Some d) (Some n) now w')) ∧
  (∀ ttl now, rejected false w' (renew_cron_run_lease rid d n ttl now w')) ∧
  (∀ t, rejected false w' (mark_cron_delivery_target rid t (Some d) (Some n) w')).
Proof.
  intros Hids Hd Hw Hk Hl. cbv zeta.
  assert (fenced_off k n (cron_trace ops w)) as (_ & _ & Hl').
  { apply fenced_off_trace; try done. split_and!; try done. by apply reachable_inv. }
  split_and!; intros; [by apply finish_rejected|by apply retry_rejected|by apply renew_rejected|by apply mark_rejected].
Qed.
End props.
