(* ===== verification/CronFlow.v ===== *)
(** What the scheduling operations of the cron store do: a paused scheduler
    starts nothing, enqueueing respects concurrency limits, a due run is started,
    retries wait for their backoff, and a successful run publishes its watermark. *)

From S2P Require Import Prelude PyValue Timestamps PyText IsoText Schedule ScheduleCron CronTables CronStore CronInv CronSteps CronKeeps.
From Stdlib Require Import Ascii.

Local Open Scope Z_scope.

Section flow.
Context {Env : PyEnv} {Sched : ScheduleEnv}.

(** ** Recovery *)

(** Recovery changes running rows only, and leaves none of them running. *)
Definition recovered (w0 w : CronWorld) : Prop :=
  cron_jobs w = cron_jobs w0 ∧ scheduler_control w = scheduler_control w0 ∧
  cron_scope_state w = cron_scope_state w0 ∧
  Forall2 (λ r r', r' = r ∨ r_run_id r' = r_run_id r ∧ r_job_id r' = r_job_id r ∧
             r_due_at r' = r_due_at r ∧ is_running r ∧ ¬ is_running r')
    (cron_runs w0) (cron_runs w).

Lemma Forall2_update {A} (R : A → A → Prop) p f l0 l :
  (∀ x y, R x y → p y = true → R x (f y)) → Forall2 R l0 l → Forall2 R l0 (update_where p f l).
Proof.
  intros Hf. unfold update_where. induction 1 as [|x y l0 l Hxy _ IH]; simpl; [constructor|].
  constructor; [|done]. destruct (p y) eqn:E; auto.
Qed.

Lemma recovered_update w0 w p f :
  recovered w0 w → (∀ r, p r = true → is_running r ∧ ¬ is_running (f r) ∧
    r_run_id (f r) = r_run_id r ∧ r_job_id (f r) = r_job_id r ∧ r_due_at (f r) = r_due_at r) →
  recovered w0 (set_runs (update_where p f) w).
Proof.
  intros (Hj & Hc & Hs & Hr) Hf. split_and!; try done. simpl. apply Forall2_update; [|done].
  intros r r' Hrr Hp. destruct (Hf r' Hp) as (R & N & I & J & D).
  destruct Hrr as [->|(I' & J' & D' & R' & N')]; [|done]. right. by split_and!.
Qed.

Lemma recovered_row w0 now_dt now rj : keeps (recovered w0) (recover_row now_dt now rj).
Proof.
  destruct rj as [r j]. unfold recover_row. cbv zeta.
  assert (∀ f, (∀ r', ¬ is_running (f r') ∧ r_run_id (f r') = r_run_id r' ∧ r_job_id (f r') = r_job_id r' ∧
    r_due_at (f r') = r_due_at r') → keeps (recovered w0)
      (update_runs (λ r', has_run_id (r_run_id r) r' && run_is "running" r') f)) as Hup.
  { intros f Hf w Hw. apply recovered_update; [done|]. intros r' Hp. bsplit. apply run_is_true in H0.
    split; [done|apply Hf]. }
  case_match.
  - apply keeps_then; [|intros ?; apply keeps_ret]. apply Hup. by intros r'.
  - apply keeps_then; [apply keeps_lift|intros av]. apply keeps_then; [|intros ?; apply keeps_ret].
    apply Hup. by intros r'.
Qed.

Lemma recovered_locked w0 now_dt now limit :
  keeps (recovered w0) (_recover_expired_cron_runs_locked now_dt now limit).
Proof.
  unfold _recover_expired_cron_runs_locked. apply keeps_then; [apply keeps_gets|intros rows].
  apply keeps_for_each. intros rj _. apply recovered_row.
Qed.
Lemma recovered_refl w : recovered w w.
Proof. split_and!; try done. induction (cron_runs w); constructor; auto. Qed.

Lemma recovered_ids w0 w : recovered w0 w → map r_run_id (cron_runs w) = map r_run_id (cron_runs w0).
Proof.
  intros (_ & _ & _ & H). induction H as [|r r' l l' Hr _ IH]; simpl; [done|].
  rewrite IH. destruct Hr as [->|(-> & _)]; done.
Qed.
Lemma recovered_running w0 w r : recovered w0 w → r ∈ cron_runs w → is_running r → r ∈ cron_runs w0.
Proof.
  intros (_ & _ & _ & H). induction H as [|q q' l l' Hq _ IH]; intros Hr Hrun; [by apply elem_of_nil in Hr|].
  apply elem_of_cons in Hr as [->|Hr]; [|right; auto].
  destruct Hq as [->|(_ & _ & _ & _ & N)]; [by left|done].
Qed.
Lemma recovered_waiting w0 w r : recovered w0 w → r ∈ cron_runs w0 → ¬ is_running r → r ∈ cron_runs w.
Proof.
  intros (_ & _ & _ & H). induction H as [|q q' l l' Hq _ IH]; intros Hr Hrun; [by apply elem_of_nil in Hr|].
  apply elem_of_cons in Hr as [->|Hr]; [|right; auto].
  destruct Hq as [->|(_ & _ & _ & R & _)]; [by left|done].
Qed.

(** ** A paused scheduler *)

(** No run was added, and no run is running that was not before. *)
Definition starts_nothing (w w' : CronWorld) : Prop :=
  map r_run_id (cron_runs w') = map r_run_id (cron_runs w) ∧
  ∀ r, r ∈ cron_runs w' → r_state r = "running" → r ∈ cron_runs w.

Lemma starts_nothing_same w w' : cron_runs w' = cron_runs w → starts_nothing w w'.
Proof. intros E. unfold starts_nothing. by rewrite E. Qed.

Lemma now_or_same o w : cron_runs (now_or o w).1 = cron_runs w ∧
  scheduler_control (now_or o w).1 = scheduler_control w.
Proof. unfold now_or. by case_match. Qed.

(** The part shared by enqueueing and acquiring. *)
Lemma paused_body {A} (k : CronWorld → CM (list A)) now_dt now n w :
  _scheduler_is_paused_locked w = true →
  let out := (_ ← _recover_expired_cron_runs_locked now_dt now n;
              w ← get_world;
              if _scheduler_is_paused_locked w then mret [] else k w) w in
  starts_nothing w out.1 ∧ ∀ xs, out.2 = Ok xs → xs = [].
Proof.
  intros Hp. cbv zeta. pose proof (recovered_locked w now_dt now n w (recovered_refl w)) as Hrec.
  destruct (_recover_expired_cron_runs_locked now_dt now n w) as [w1 [l|e]] eqn:E; simpl in Hrec.
  - rewrite (bind_of_Ok _ _ _ _ _ E), bind_get_world. assert (_scheduler_is_paused_locked w1 = true) as ->.
    { destruct Hrec as (_ & Hc & _). unfold _scheduler_is_paused_locked in *. by rewrite Hc. }
    split; [|by intros xs [= <-]]. split; [by apply recovered_ids|]. intros r. by apply recovered_running.
  - rewrite (bind_of_Raise _ _ _ _ _ E). split; [|done]. split; [by apply recovered_ids|].
    intros r. by apply recovered_running.
Qed.

Lemma paused_tx {A} (m : CM (list A)) w :
  starts_nothing w (m w).1 ∧ (∀ xs, (m w).2 = Ok xs → xs = []) →
  starts_nothing w (cron_tx m w).1 ∧ (∀ xs, (cron_tx m w).2 = Ok xs → xs = []).
Proof.
  intros H. unfold cron_tx, transaction. destruct (m w) as [w' [a|e]]; simpl in *; [done|].
  split; [by apply starts_nothing_same|done].
Qed.

Lemma required_same x msg w : (required x msg w).1 = w.
Proof. unfold required. by case_match. Qed.

(** While the scheduler is paused no run is enqueued or started: enqueueing and
    acquiring return no run, add none and leave none running that was not running
    before (expired leases are still recovered), and an operator's request to run
    a task now is refused. *)
Theorem paused_scheduler_starts_nothing w daemon_id ttl n now job_id :
  _scheduler_is_paused_locked w = true →
  (let out := enqueue_due_cron_runs daemon_id ttl n now w in
   starts_nothing w out.1 ∧ ∀ xs, out.2 = Ok xs → xs = []) ∧
  (let out := acquire_cron_runs daemon_id ttl n now w in
   starts_nothing w out.1 ∧ ∀ xs, out.2 = Ok xs → xs = []) ∧
  (let out := trigger_task_run_now job_id w in starts_nothing w out.1 ∧ ∀ r, out.2 ≠ Ok r).
Proof.
  intros Hp.
  assert (∀ (f : Z → Z → CM (list CronRun)),
    (∀ t e w', cron_runs w' = cron_runs w → scheduler_control w' = scheduler_control w →
       starts_nothing w' (f t e w').1 ∧ ∀ xs, (f t e w').2 = Ok xs → xs = []) →
    let out := (now_dt ← now_or now; ex ← lift_py (dt_add now_dt (Z.max 1 ttl * 1000000)); f now_dt ex) w in
    starts_nothing w out.1 ∧ ∀ xs, out.2 = Ok xs → xs = []) as Hpre.
  { intros f Hf. cbv zeta. unfold mbind, M_bind, lift_py, lift_result.
    destruct (now_or_same now w) as [Hr Hc]. destruct (now_or now w) as [w1 [t|e]]; simpl in *;
      [|by split; [apply starts_nothing_same|]].
    destruct (dt_add t _) as [ex|e]; simpl; [|by split; [apply starts_nothing_same|]].
    destruct (Hf t ex w1 Hr Hc) as [[H1 H2] H3]. split; [|done]. unfold starts_nothing. by rewrite <-Hr. }
  assert (∀ w', scheduler_control w' = scheduler_control w → _scheduler_is_paused_locked w' = true) as Hpw
    by (intros w' E; unfold _scheduler_is_paused_locked in *; by rewrite E).
  split_and!.
  - unfold enqueue_due_cron_runs, required. destruct (truthy _);
      [|by split; [apply starts_nothing_same|]].
    rewrite (bind_of_Ok _ _ w w (py_strip daemon_id)) by done. cbv zeta.
    apply (Hpre (λ t e, cron_tx _)). intros t e w' Hr Hc. apply paused_tx, paused_body. auto.
  - unfold acquire_cron_runs, required. destruct (truthy _);
      [|by split; [apply starts_nothing_same|]].
    rewrite (bind_of_Ok _ _ w w (py_strip daemon_id)) by done. cbv zeta.
    apply (Hpre (λ t e, cron_tx _)). intros t e w' Hr Hc. apply paused_tx, paused_body. auto.
  - unfold trigger_task_run_now, required. destruct (truthy _);
      [|by split; [apply starts_nothing_same|]].
    cbv zeta. munfold. simpl. unfold cron_tx, transaction. rewrite Hpw by done. simpl.
    split; [by apply starts_nothing_same|done].
Qed.
End flow.

(** * Progress of the cron queue: a run that is due and whose job has no
    concurrency key is started by the next acquisition with room for it. *)

Lemma retry_delay_bounds attempts base :
  1 ≤ base → 1 ≤ _retry_delay_seconds attempts base ≤ MAX_CRON_RETRY_BACKOFF_SECONDS.
Proof.
  intros Hb. unfold _retry_delay_seconds, MAX_CRON_RETRY_BACKOFF_SECONDS.
  assert (1 ≤ 2 ^ Z.max 0 (attempts - 1)) by (apply (Z.pow_le_mono_r 2 0); lia). nia.
Qed.

Lemma filter_update_where {A} (p q : A → bool) f l :
  (∀ x, q x = true → p x = false ∧ p (f x) = false) →
  List.filter p (update_where q f l) = List.filter p l.
Proof.
  intros H. unfold update_where. induction l as [|x l IH]; simpl; [done|].
  destruct (q x) eqn:E; [|by rewrite IH]. destruct (H x E) as [-> ->]. done.
Qed.

Section acquire.
Context {Env : PyEnv} {Sched : ScheduleEnv}.

(** ** Recovery in range *)

Definition in_range (t : Z) : Prop := 0 ≤ t ∧ t + MAX_CRON_RETRY_BACKOFF_SECONDS * 1000000 < max_instant.

Lemma for_each_total {A B} (f : A → CM B) l :
  (∀ x w, ∃ w' y, f x w = (w', Ok y)) → ∀ w, ∃ w' ys, for_each f l w = (w', Ok ys).
Proof.
  intros Hf. induction l as [|x l IH]; intros w; simpl; [by exists w, []|].
  destruct (Hf x w) as (w1 & y & E). rewrite (bind_of_Ok _ _ _ _ _ E).
  destruct (IH w1) as (w2 & ys & E2). rewrite (bind_of_Ok _ _ _ _ _ E2). by eexists _, _.
Qed.

Lemma recover_row_total t now rj : in_range t → ∀ w, ∃ w' d, recover_row t now rj w = (w', Ok d).
Proof.
  intros Ht w. destruct rj as [r j]. unfold recover_row. cbv zeta. case_match; [by eexists _, _|].
  pose proof (retry_delay_bounds (r_attempts r) (Z.max 1 (z_or (j_retry_backoff_s j) 30)) ltac:(lia)) as Hd.
  unfold in_range in Ht. rewrite (dt_add_ok t) by lia. by eexists _, _.
Qed.

Lemma recover_total t now n w : in_range t → ∃ w' l, _recover_expired_cron_runs_locked t now n w = (w', Ok l).
Proof. intros Ht. apply for_each_total. intros rj. by apply recover_row_total. Qed.

(** Recovery adds no run that can be acquired at once, and takes none away. *)
Definition same_acquirable (w0 : CronWorld) (owner now : string) (w : CronWorld) : Prop :=
  cron_jobs w = cron_jobs w0 ∧
  List.filter (acquirable w0 owner now) (cron_runs w) = List.filter (acquirable w0 owner now) (cron_runs w0).

Lemma acquirable_queued w owner now r : acquirable w owner now r = true → is_queued r.
Proof. unfold acquirable. intros H. case_match; [|done]. bsplit. by apply run_is_true. Qed.
Lemma not_queued_acquirable w owner now r : ¬ is_queued r → acquirable w owner now r = false.
Proof. intros Hq. apply not_true_is_false. by intros ?%acquirable_queued. Qed.

Lemma future_not_acquirable w owner t u error now r :
  instant_ok t → instant_ok u → t < u →
  acquirable w owner (isoformat t) (run_requeue (isoformat u) error now r) = false.
Proof.
  intros Ht Hu Hlt. unfold acquirable. case_match; [|done]. cbn [run_requeue run_claim r_available_at].
  rewrite isoformat_leb by done. rewrite (proj2 (Z.leb_gt _ _)) by lia. by rewrite andb_false_r.
Qed.

Lemma same_acquirable_row w0 owner t rj :
  in_range t → keeps (same_acquirable w0 owner (isoformat t)) (recover_row t (isoformat t) rj).
Proof.
  intros Ht. destruct rj as [r j]. unfold recover_row. cbv zeta.
  assert (∀ f, (∀ r', acquirable w0 owner (isoformat t) (f r') = false) →
    keeps (same_acquirable w0 owner (isoformat t))
      (update_runs (λ r', has_run_id (r_run_id r) r' && run_is "running" r') f)) as Hup.
  { intros f Hf w [Hj Hw]. split; [done|]. simpl. rewrite filter_update_where; [done|].
    intros r' Hp. split; [|done]. apply not_queued_acquirable. bsplit. apply run_is_true in H0.
    unfold is_queued. by rewrite H0. }
  case_match.
  - apply keeps_then; [|intros ?; apply keeps_ret]. apply Hup. intros r'. by apply not_queued_acquirable.
  - pose proof (retry_delay_bounds (r_attempts r) (Z.max 1 (z_or (j_retry_backoff_s j) 30)) ltac:(lia)) as Hd.
    unfold in_range in Ht. rewrite (dt_add_ok t) by lia.
    intros w Hw. erewrite bind_of_Ok by reflexivity.
    match goal with |- same_acquirable _ _ _ ((mbind ?k ?m) w).1 =>
      apply (keeps_then (same_acquirable w0 owner (isoformat t)) m k); [|intros ?; apply keeps_ret|done] end.
    apply Hup. intros r'. apply future_not_acquirable; unfold instant_ok; lia.
Qed.

Lemma same_acquirable_recover w0 owner t n :
  in_range t → keeps (same_acquirable w0 owner (isoformat t)) (_recover_expired_cron_runs_locked t (isoformat t) n).
Proof.
  intros Ht. unfold _recover_expired_cron_runs_locked. apply keeps_then; [apply keeps_gets|intros rows].
  apply keeps_for_each. intros rj _. by apply same_acquirable_row.
Qed.

Lemma acquirable_jobs w w' owner now : cron_jobs w' = cron_jobs w → acquirable w' owner now = acquirable w owner now.
Proof. intros E. unfold acquirable, job_of, job_row. by rewrite E. Qed.

(** ** Starting the candidates *)

(** The key lookup of [acquire_row] finds no concurrency key. *)
Definition keyless (w : CronWorld) (r : CronRun) : Prop :=
  ∃ j, (if truthy (text_of (r_job_id r)) then job_row w (text_of (r_job_id r)) else None) = Some j ∧
    truthy (text_of (j_concurrency_key j)) = false.

Lemma acquire_row_other owner lease now row w r :
  r ∈ cron_runs w → r_run_id r ≠ r_run_id row → r ∈ cron_runs (acquire_row owner lease now row w).1.
Proof.
  intros Hr Hne. unfold acquire_row. rewrite bind_get_world. cbv zeta.
  destruct (_ && _); [done|]. unfold mbind, M_bind, update_runs.
  assert (r ∈ update_where (λ q, has_run_id (r_run_id row) q && run_is "queued" q)
            (run_start owner lease now) (cron_runs w)) as Hin.
  { apply update_where_elem. exists r. split; [done|right]. split; [|done].
    apply andb_false_iff. left. by apply String.eqb_neq. }
  by destruct (_ <=? _)%nat.
Qed.
Lemma acquire_row_total owner lease now row w :
  ∃ w' o, acquire_row owner lease now row w = (w', Ok o) ∧ cron_jobs w' = cron_jobs w ∧
    map r_run_id (cron_runs w') = map r_run_id (cron_runs w).
Proof.
  unfold acquire_row. rewrite bind_get_world. cbv zeta. destruct (_ && _); [by eexists _, _|].
  unfold mbind, M_bind, update_runs.
  destruct (_ <=? _)%nat; eexists _, _; (split; [done|]); simpl; by rewrite update_where_map.
Qed.

Lemma run_row_unique w r :
  NoDup (map r_run_id (cron_runs w)) → r ∈ cron_runs w → run_row w (r_run_id r) = Some r.
Proof.
  intros Hn Hr. unfold run_row. destruct (List.find _ _) as [q|] eqn:E.
  - apply find_elem in E as [Hq Hid%has_run_id_true]. f_equal. by apply (run_id_unique (cron_runs w)).
  - apply list_elem_of_In in Hr. apply (find_none _ _ E) in Hr. by rewrite (proj2 (has_run_id_true _ _)) in Hr.
Qed.

Lemma acquire_row_starts owner lease now r w :
  NoDup (map r_run_id (cron_runs w)) → r ∈ cron_runs w → is_queued r → keyless w r →
  ∃ w', acquire_row owner lease now r w = (w', Ok (Some (run_start owner lease now r))) ∧
    run_start owner lease now r ∈ cron_runs w'.
Proof.
  intros Hn Hr Hq (j & Hj & Hk). unfold acquire_row. rewrite bind_get_world. cbv zeta.
  rewrite Hj, Hk. cbn [andb]. unfold mbind, M_bind, update_runs.
  assert (has_run_id (r_run_id r) r && run_is "queued" r = true) as Hp.
  { apply andb_true_iff. split; [by apply has_run_id_true|by apply run_is_true]. }
  pose proof (count_where_pos (λ q, has_run_id (r_run_id r) q && run_is "queued" q) _ _ Hr Hp) as Hc. rewrite (proj2 (Nat.leb_gt _ _)) by lia.
  set (w' := set_runs _ w).
  assert (run_start owner lease now r ∈ cron_runs w') as Hin.
  { simpl. apply update_where_elem. exists r. split; [done|]. by left. }
  exists w'. split; [|done]. unfold gets. do 2 f_equal.
  change (r_run_id r) with (r_run_id (run_start owner lease now r)) at 1.
  apply run_row_unique; [|done]. simpl. by rewrite update_where_map.
Qed.

Lemma acquire_loop owner lease now r rows : ∀ w,
  NoDup (map r_run_id (cron_runs w)) → NoDup (map r_run_id rows) →
  (∀ q, q ∈ rows → q ∈ cron_runs w) → r ∈ rows → is_queued r → keyless w r →
  ∃ w' out, for_each (acquire_row owner lease now) rows w = (w', Ok out) ∧
    Some (run_start owner lease now r) ∈ out ∧ run_start owner lease now r ∈ cron_runs w'.
Proof.
  assert (∀ rows w q, (∀ x, x ∈ rows → r_run_id q ≠ r_run_id x) → q ∈ cron_runs w →
    ∃ w' out, for_each (acquire_row owner lease now) rows w = (w', Ok out) ∧ q ∈ cron_runs w') as Hkeep.
  { clear rows r. induction rows as [|x rows IH]; intros w q Hne Hq; simpl; [by eexists _, _|].
    destruct (acquire_row_total owner lease now x w) as (w1 & o & E & _).
    pose proof (acquire_row_other owner lease now x w q Hq (Hne x ltac:(by left))) as Hq1.
    rewrite E in Hq1. rewrite (bind_of_Ok _ _ _ _ _ E).
    destruct (IH w1 q) as (w2 & out & E2 & Hq2); [intros y Hy; apply Hne; by right|done|].
    rewrite (bind_of_Ok _ _ _ _ _ E2). by eexists _, _. }
  induction rows as [|x rows IH]; intros w Hn Hnr Hin Hr Hq Hk; [by apply elem_of_nil in Hr|].
  simpl in Hnr. apply NoDup_cons in Hnr as [Hx Hnr]. simpl.
  assert (∀ y, y ∈ rows → r_run_id y ≠ r_run_id x) as Hne.
  { intros y Hy E. apply Hx. rewrite <-E. apply list_elem_of_In, in_map, list_elem_of_In, Hy. }
  apply elem_of_cons in Hr as [<-|Hr].
  - destruct (acquire_row_starts owner lease now r w) as (w1 & E & H1); try done; [apply Hin; by left|].
    rewrite (bind_of_Ok _ _ _ _ _ E).
    destruct (Hkeep rows w1 (run_start owner lease now r)) as (w2 & out & E2 & H2); [|done|].
    { intros y Hy E'. by apply (Hne y). }
    rewrite (bind_of_Ok _ _ _ _ _ E2). eexists _, _. split; [done|]. split; [by left|done].
  - destruct (acquire_row_total owner lease now x w) as (w1 & o & E & Ej & Ei).
    rewrite (bind_of_Ok _ _ _ _ _ E). destruct (IH w1) as (w2 & out & E2 & H2 & H3); try done.
    + by rewrite Ei.
    + intros q Hq'. pose proof (acquire_row_other owner lease now x w q) as Ho. rewrite E in Ho.
      apply Ho; [apply Hin; by right|by apply Hne].
    + unfold keyless, job_row in *. by rewrite Ej.
    + rewrite (bind_of_Ok _ _ _ _ _ E2). eexists _, _. split; [done|]. split; [by right|done].
Qed.

Lemma NoDup_map_take {A B} (g : A → B) n (l : list A) : NoDup (map g l) → NoDup (map g (take n l)).
Proof.
  intros H. rewrite <-(take_drop n l), map_app in H. by apply NoDup_app in H as (H & _).
Qed.

(** C22: the queue makes progress.  With the scheduler running, a queued run that is
    due, whose job is enabled and has no concurrency key, and which no other worker
    holds, is started by an acquisition whose limit covers the runs that can be
    acquired: the call returns it, running, leased to the caller, with one more
    attempt, and the table holds that row. *)
Theorem due_run_is_acquired w daemon_id ttl limit now_iso w0 t r :
  cron_inv w → _scheduler_is_paused_locked w = false → truthy (py_strip daemon_id) = true →
  now_or now_iso w = (w0, Ok t) → in_range t → t + Z.max 1 ttl * 1000000 < max_instant →
  r ∈ cron_runs w → acquirable w (py_strip daemon_id) (isoformat t) r = true → keyless w r →
  Z.of_nat (count_where (acquirable w (py_strip daemon_id) (isoformat t)) (cron_runs w))
    ≤ Z.max 1 (Z.min limit 500) →
  let r' := run_start (py_strip daemon_id) (isoformat (t + Z.max 1 ttl * 1000000)) (isoformat t) r in
  ∃ w' out, acquire_cron_runs daemon_id ttl limit now_iso w = (w', Ok out) ∧ r' ∈ out ∧ r' ∈ cron_runs w'.
Proof.
  intros Hinv Hp Hd Hnow Ht Hmax Hr Ha Hk Hlimit. cbv zeta.
  unfold acquire_cron_runs, required. rewrite Hd. rewrite (bind_of_Ok _ _ w w (py_strip daemon_id)) by done.
  cbv zeta. rewrite (bind_of_Ok _ _ _ _ _ Hnow). unfold in_range in Ht.
  rewrite dt_add_ok by lia. rewrite (bind_of_Ok _ _ w0 w0 (t + Z.max 1 ttl * 1000000)) by done.
  assert (cron_jobs w0 = cron_jobs w ∧ cron_runs w0 = cron_runs w ∧
          scheduler_control w0 = scheduler_control w) as (Ej & Er & Ec).
  { unfold now_or, lift_py, lift_result, utc_now in Hnow. repeat case_match; by simplify_eq. }
  set (owner := py_strip daemon_id) in *. set (n := Z.max 100 (Z.max 1 (Z.min limit 500) * 2)).
  destruct (recover_total t (isoformat t) n w0 Ht) as (w1 & l & E1).
  pose proof (recovered_locked w0 t (isoformat t) n w0 (recovered_refl w0)) as Hrec.
  pose proof (same_acquirable_recover w0 owner t n Ht w0 ltac:(done)) as [Ej1 Ef].
  rewrite E1 in Hrec, Ej1, Ef. simpl in Hrec, Ej1, Ef.
  rewrite <-(acquirable_jobs w w0 owner (isoformat t) Ej), <-Er in Hlimit.
  rewrite <-(acquirable_jobs w w0 owner (isoformat t) Ej) in Ha. rewrite <-Er in Hr.
  pose proof (recovered_ids _ _ Hrec) as Hids. pose proof Hrec as (_ & Hc1 & _).
  assert (NoDup (map r_run_id (cron_runs w1))) as Hn1 by (rewrite Hids, Er; apply Hinv).
  assert (r ∈ cron_runs w1) as Hr1.
  { apply (recovered_waiting w0); try done. apply acquirable_queued in Ha. unfold is_queued, is_running in *. by rewrite Ha. }
  set (cands := acquire_candidates w1 owner (isoformat t) (Z.max 1 (Z.min limit 500))).
  assert (cands = sort_asc r_due_at (List.filter (acquirable w1 owner (isoformat t)) (cron_runs w1))) as Hcands.
  { unfold cands, acquire_candidates, limit_rows. apply take_ge.
    rewrite (Permutation_length (sort_asc_perm r_due_at _)), (acquirable_jobs w0 w1 _ _ Ej1), Ef.
    unfold count_where in Hlimit. lia. }
  destruct (acquire_loop owner (isoformat (t + Z.max 1 ttl * 1000000)) (isoformat t) r cands w1)
    as (w2 & out & E2 & Ho & Hr2); try done.
  - rewrite Hcands. rewrite (sort_asc_perm r_due_at _). by apply NoDup_map_filter.
  - intros q Hq. by apply acquire_candidates_elem in Hq as [Hq _].
  - rewrite Hcands. apply sort_asc_elem, filter_elem. split; [done|]. by rewrite (acquirable_jobs w0 w1 _ _ Ej1).
  - by apply acquirable_queued in Ha.
  - unfold keyless, job_row in *. by rewrite Ej1, Ej.
  - exists w2, (omap id out). unfold cron_tx, transaction.
    rewrite (bind_of_Ok _ _ _ _ _ E1), bind_get_world.
    assert (_scheduler_is_paused_locked w1 = false) as ->
      by (unfold _scheduler_is_paused_locked in *; by rewrite Hc1, Ec).
    rewrite (bind_of_Ok _ _ _ _ _ E2). split; [done|]. split; [|done].
    apply list_elem_of_omap. by eexists.
Qed.
End acquire.

(** * Enqueueing respects concurrency: the queued and running runs of a job without
    a concurrency key stay within [max_concurrency], and those of a key within
    one, unless they exceeded it before. *)

Section enqueue.
Context {Env : PyEnv} {Sched : ScheduleEnv}.

(** ** Counting active runs *)

(** The active runs [_active_cron_run_count] counts, by the fixed columns of jobs. *)
Definition counted (cs : list JobCore) (jid key : string) (r : CronRun) : bool :=
  (if truthy key
   then match core_of cs r with Some c => ostr_eqb (jc_key c) (Some key) | None => false end
   else of_job jid r) && run_active r.

Lemma active_count_cores w jid key :
  _active_cron_run_count w jid key = count_where (counted (cores w) jid key) (cron_runs w).
Proof.
  unfold _active_cron_run_count, scope_count, job_active_count, count_where.
  assert (∀ (p q : CronRun → bool), (∀ r, p r = q r) →
    length (List.filter p (cron_runs w)) = length (List.filter q (cron_runs w))) as Hext.
  { intros p q H. f_equal. by apply filter_ext. }
  destruct (truthy key) eqn:Ek; apply Hext; intros r; unfold counted; rewrite Ek; [|done].
  destruct (job_of w r) as [j|] eqn:Ej.
  - by rewrite (job_of_core_Some _ _ _ Ej).
  - by rewrite <-job_of_core, Ej.
Qed.

Definition group_count (cs : list JobCore) (j : CronJob) (rs : list CronRun) : Z :=
  Z.of_nat (count_where (counted cs (j_job_id j) (text_of (j_concurrency_key j))) rs).

Lemma recovered_count w0 w j :
  recovered w0 w → group_count (cores w0) j (cron_runs w) ≤ group_count (cores w0) j (cron_runs w0).
Proof.
  intros (_ & _ & _ & H). unfold group_count. apply Nat2Z.inj_le. unfold count_where.
  induction H as [|r r' l l' Hr _ IH]; simpl; [done|].
  destruct Hr as [->|(I & J & _ & R & _)]; [case_match; simpl; lia|].
  assert (counted (cores w0) (j_job_id j) (text_of (j_concurrency_key j)) r' = true →
          counted (cores w0) (j_job_id j) (text_of (j_concurrency_key j)) r = true) as Himp.
  { unfold counted, core_of, of_job. rewrite J. intros H. apply andb_true_iff in H as [-> _].
    unfold run_active. by rewrite R. }
  destruct (counted _ _ _ r') eqn:E'; [rewrite Himp by done; simpl; lia|].
  destruct (counted _ _ _ r); simpl; lia.
Qed.

(** ** One job *)

(** The row of an enqueued point counts for the group of [j] only when the job
    [jx] that was due belongs to that group. *)
Lemma counted_group cs j jx rid due av lease owner now :
  Forall core_ok cs → core_row cs (j_job_id jx) = Some (jcore jx) → core_row cs (j_job_id j) = Some (jcore j) →
  counted cs (j_job_id j) (text_of (j_concurrency_key j))
    (new_run rid (j_job_id jx) "queued" due av None None owner lease now) = true →
  max_for_job jx = max_for_job j ∧
  ∀ rs, group_count cs jx rs = group_count cs j rs.
Proof.
  intros Hcs Hx Hj H. unfold counted in H. apply andb_true_iff in H as [H _].
  assert (∀ c jid k, core_row cs jid = Some c → jc_key c = Some k → text_of (Some k) = k ∧ truthy k = true) as Hkey.
  { intros c jid k Hc Ek. apply find_elem in Hc as [Hin _]. rewrite Forall_forall in Hcs.
    destruct (Hcs c Hin) as (_ & _ & _ & _ & Hk). destruct (Hk k Ek) as [H1 H2].
    unfold text_of, str_or. by rewrite H2. }
  destruct (truthy (text_of (j_concurrency_key j))) eqn:Et.
  - unfold core_of in H. cbn [new_run r_job_id] in H. rewrite Hx in H. apply ostr_eqb_eq in H. simpl in H.
    destruct (Hkey _ _ _ Hx H) as [H1 H2].
    assert (text_of (j_concurrency_key jx) = text_of (j_concurrency_key j)) as E by (by rewrite H).
    unfold max_for_job. rewrite E, Et. split; [done|]. intros rs. unfold group_count, counted. by rewrite E, Et.
  - apply of_job_true in H. cbn [new_run r_job_id] in H. injection H as E. rewrite E in Hx.
    rewrite Hj in Hx. injection Hx as E1 E2 E3 E4.
    unfold max_for_job, group_count, counted. by rewrite E1, E2, E4.
Qed.

Lemma insert_run_cases b r w :
  (insert_run b r w).1 = w ∨ (insert_run b r w).1 = set_runs (λ l, l ++ [r]) w.
Proof. unfold insert_run. repeat case_match; simpl; auto. Qed.

Lemma enqueue_point_runs owner lease now jid t w :
  let w' := (enqueue_point owner lease now jid t w).1 in
  cores w' = cores w ∧ (cron_runs w' = cron_runs w ∨
    ∃ rid, cron_runs w' = cron_runs w ++ [new_run rid jid "queued" (to_iso_utc t) (Some (to_iso_utc t))
             None None (Some owner) (Some lease) now]).
Proof.
  cbv zeta. unfold enqueue_point. rewrite (bind_of_Ok _ _ w
    (set_counters (cron_ticks w) (S (cron_uuids w)) w) (py_uuid4 (cron_uuids w))) by done. cbv zeta.
  set (w1 := set_counters _ _ w). set (row := new_run _ _ _ _ _ _ _ _ _ _).
  pose proof (insert_run_cases true row w1) as Hc. unfold mbind, M_bind.
  destruct (insert_run true row w1) as [w2 [n|e]]; simpl in *;
    (destruct Hc as [-> | ->]; (split; [done|]); [by left|right; by exists (py_uuid4 (cron_uuids w))]).
Qed.

Lemma enqueue_points_count cs j owner lease now jx pts : ∀ w,
  cores w = cs →
  let w' := (for_each (enqueue_point owner lease now (j_job_id jx)) pts w).1 in
  cores w' = cs ∧
  group_count cs j (cron_runs w') ≤ group_count cs j (cron_runs w) + Z.of_nat (length pts) ∧
  ((∀ rid due av, counted cs (j_job_id j) (text_of (j_concurrency_key j))
      (new_run rid (j_job_id jx) "queued" due av None None (Some owner) (Some lease) now) = false) →
   group_count cs j (cron_runs w') = group_count cs j (cron_runs w)).
Proof.
  induction pts as [|t pts IH]; intros w Hcs; cbv zeta; simpl; [split_and!; [done|lia|done]|].
  pose proof (enqueue_point_runs owner lease now (j_job_id jx) t w) as [Hc Hr]. cbv zeta in Hc, Hr.
  destruct (enqueue_point owner lease now (j_job_id jx) t w) as [w1 [o|e]] eqn:E; simpl in Hc, Hr.
  - rewrite (bind_of_Ok _ _ _ _ _ E). specialize (IH w1 ltac:(congruence)) as (I1 & I2 & I3).
    assert (group_count cs j (cron_runs w1) ≤ group_count cs j (cron_runs w) + 1 ∧
      ((∀ rid due av, counted cs (j_job_id j) (text_of (j_concurrency_key j))
        (new_run rid (j_job_id jx) "queued" due av None None (Some owner) (Some lease) now) = false) →
       group_count cs j (cron_runs w1) = group_count cs j (cron_runs w))) as [H1 H2].
    { destruct Hr as [-> |(rid & ->)]; [split; [lia|done]|]. unfold group_count. rewrite count_where_snoc.
      split; [case_match; lia|]. intros Hno. rewrite Hno. lia. }
    destruct (for_each _ pts w1) as [w2 [ys|e]] eqn:E2; simpl in I1, I2, I3;
      [rewrite (bind_of_Ok _ _ _ _ _ E2)|rewrite (bind_of_Raise _ _ _ _ _ E2)]; simpl;
      (split_and!; [done|lia|intros Hno; rewrite I3, H2 by done; done]).
  - rewrite (bind_of_Raise _ _ _ _ _ E). simpl. split_and!; [congruence|..].
    + destruct Hr as [-> |(rid & ->)]; [lia|]. unfold group_count. rewrite count_where_snoc. case_match; lia.
    + intros Hno. destruct Hr as [-> |(rid & ->)]; [done|]. unfold group_count.
      rewrite count_where_snoc, Hno. lia.
Qed.

Lemma persist_due_count cs j jx pts nd now w :
  cores w = cs →
  let w' := (_persist_due_decision jx pts nd now w).1 in
  cores w' = cs ∧ group_count cs j (cron_runs w') = group_count cs j (cron_runs w).
Proof.
  intros Hcs. cbv zeta. unfold _persist_due_decision.
  set (w1 := set_jobs (update_where (has_job_id (j_job_id jx)) (job_next_due (option_map to_iso_utc nd) now)) w).
  assert (∀ v p f, (∀ x, jcore (f x) = jcore x) → cores (set_jobs (update_where p f) v) = cores v) as Hup.
  { intros v p f Hf. unfold cores. simpl. by apply update_where_map. }
  assert (cores w1 = cs) as H1 by (unfold w1; rewrite Hup; done).
  rewrite (bind_of_Ok _ _ w w1 (count_where (has_job_id (j_job_id jx)) (cron_jobs w))) by done.
  rewrite bind_get_world. destruct (negb _); [done|]. cbv zeta.
  set (w2 := set_counters (cron_ticks w1) (S (cron_uuids w1)) w1).
  rewrite (bind_of_Ok _ _ w1 w2 (py_uuid4 (cron_uuids w1))) by done.
  set (row := new_run _ _ "failed" _ _ _ _ _ _ _).
  pose proof (insert_run_cases true row w2) as Hc.
  assert (∀ v, v = w2 ∨ v = set_runs (λ l, l ++ [row]) w2 →
    cores v = cs ∧ group_count cs j (cron_runs v) = group_count cs j (cron_runs w)) as Hv.
  { intros v [-> | ->]; [done|]. split; [done|]. simpl. unfold group_count. rewrite count_where_snoc.
    assert (counted cs (j_job_id j) (text_of (j_concurrency_key j)) row = false) as ->; [|lia].
    unfold counted. by rewrite andb_false_r. }
  unfold mbind, M_bind. destruct (insert_run true row w2) as [v [n|e]]; simpl in Hc; simpl; [|auto].
  destruct (Hv v Hc) as [Hcv Hgv]. rewrite Hup by done. done.
Qed.

Definition group_bound (cs : list JobCore) (j : CronJob) (c0 : Z) (w : CronWorld) : Prop :=
  cores w = cs ∧ group_count cs j (cron_runs w) ≤ Z.max c0 (max_for_job j).

Lemma enqueue_job_bound cs j c0 owner lease now now_dt jx :
  Forall core_ok cs → core_row cs (j_job_id jx) = Some (jcore jx) → core_row cs (j_job_id j) = Some (jcore j) →
  keeps (group_bound cs j c0) (enqueue_job owner lease now now_dt jx).
Proof.
  intros Hcs Hx Hj w [Hc Hg]. unfold enqueue_job.
  destruct (short_interval _) as [short|e]; [|done].
  rewrite (bind_of_Ok _ _ w w short) by done. destruct short.
  { split; [|done]. unfold cores. simpl. by rewrite update_where_map. }
  rewrite bind_get_world. cbv zeta. destruct (Z.leb_spec (max_for_job jx)
    (Z.of_nat (_active_cron_run_count w (j_job_id jx) (text_of (j_concurrency_key jx))))) as [|Hroom]; [done|].
  destruct (_select_due_points_for_job _ _ _ _ _ _) as [[pts nd]|e]; [|done].
  rewrite (bind_of_Ok _ _ w w (pts, nd)) by done. cbn [fst snd].
  rewrite active_count_cores, Hc in Hroom |- *. fold (group_count cs jx (cron_runs w)) in Hroom |- *.
  set (room := Z.max 0 _). set (pts' := if _ && _ then _ else _).
  assert (Z.of_nat (length pts') ≤ room) as Hlen.
  { unfold pts'. destruct (Z.ltb_spec 0 room); [|lia]. cbn [andb].
    destruct (Z.ltb_spec room (Z.of_nat (length pts))); [rewrite length_take; lia|lia]. }
  pose proof (persist_due_count cs j jx pts' nd now w Hc) as [Hc1 Hg1].
  destruct (_persist_due_decision jx pts' nd now w) as [w1 [[]|e]] eqn:E1; simpl in Hc1, Hg1;
    [|rewrite (bind_of_Raise _ _ _ _ _ E1); split; [done|simpl; lia]].
  rewrite (bind_of_Ok _ _ _ _ _ E1).
  pose proof (enqueue_points_count cs j owner lease now jx pts' w1 Hc1) as (Hc2 & Hg2 & Hno).
  assert (group_bound cs j c0 (for_each (enqueue_point owner lease now (j_job_id jx)) pts' w1).1) as Hfin.
  { split; [done|].
    destruct (counted cs (j_job_id j) (text_of (j_concurrency_key j))
      (new_run "" (j_job_id jx) "queued" "" None None None (Some owner) (Some lease) now)) eqn:Eb.
    - apply counted_group in Eb as [Em Eg]; try done. unfold room in Hlen.
      rewrite Eg in Hroom, Hlen. lia.
    - rewrite Hno; [lia|]. intros rid due av. exact Eb. }
  unfold mbind, M_bind. by destruct (for_each _ pts' w1) as [w2 [ys|e]].
Qed.

(** ** The whole call *)

Lemma due_job_rows_elem w now_iso now limit j : j ∈ _due_job_rows w now_iso now limit → j ∈ cron_jobs w.
Proof.
  unfold _due_job_rows, limit_rows. cbv zeta. intros H. case_match eqn:E; [|rewrite <-E in H; clear E].
  - apply elem_of_take in H as (i & H & _). apply list_elem_of_lookup_2, filter_elem in H as [H _].
    by apply sort_asc_elem, filter_elem in H as [H _].
  - apply elem_of_take in H as (i & H & _). apply list_elem_of_lookup_2, sort_asc_elem, filter_elem in H as [H _].
    done.
Qed.

Lemma core_row_elem w j : cron_inv w → j ∈ cron_jobs w → core_row (cores w) (j_job_id j) = Some (jcore j).
Proof.
  intros [Hn _ _ _ _ _] Hj. unfold cores in *. rewrite map_map in Hn. unfold core_row.
  induction (cron_jobs w) as [|x l IH]; [by apply elem_of_nil in Hj|]. simpl in *.
  apply NoDup_cons in Hn as [Hx Hn]. apply elem_of_cons in Hj as [->|Hj].
  - by rewrite String.eqb_refl.
  - destruct (String.eqb_spec (j_job_id x) (j_job_id j)) as [E|]; [|auto]. exfalso. apply Hx. rewrite E.
    apply list_elem_of_In, in_map_iff. exists j. by rewrite <-list_elem_of_In.
Qed.

Lemma keeps_group_tx {A} cs j c0 (m : CM A) : keeps (group_bound cs j c0) m → keeps (group_bound cs j c0) (cron_tx m).
Proof.
  intros Hm w Hw. specialize (Hm w Hw). unfold cron_tx, transaction.
  by destruct (m w) as [w' [a|e]].
Qed.

(** C21: enqueueing keeps every job and every concurrency key within its limit: for
    each job, after the call the number of queued and running runs that count
    against it (its own runs, or all runs of its concurrency key) is at most
    [max_concurrency] (one for a key), unless it was already higher, in which
    case it has not grown.  This holds however many jobs were due and whether
    the call returned or raised. *)
Theorem enqueue_respects_concurrency w daemon_id ttl max_jobs now_iso j :
  cron_inv w → j ∈ cron_jobs w →
  let key := text_of (j_concurrency_key j) in
  let w' := (enqueue_due_cron_runs daemon_id ttl max_jobs now_iso w).1 in
  Z.of_nat (_active_cron_run_count w' (j_job_id j) key) ≤
  Z.max (Z.of_nat (_active_cron_run_count w (j_job_id j) key)) (max_for_job j).
Proof.
  intros Hinv Hj. cbv zeta.
  assert (group_bound (cores w) j (group_count (cores w) j (cron_runs w))
            (enqueue_due_cron_runs daemon_id ttl max_jobs now_iso w).1) as [Hc Hg];
    [|by rewrite !active_count_cores, Hc].
  set (c0 := group_count (cores w) j (cron_runs w)). set (cs := cores w).
  pose proof Hinv as [_ Hcs _ _ _ _].
  unfold enqueue_due_cron_runs, required. destruct (truthy _); [|split; [done|apply Z.le_max_l]].
  rewrite (bind_of_Ok _ _ w w (py_strip daemon_id)) by done. cbv zeta.
  assert (cron_jobs (now_or now_iso w).1 = cron_jobs w ∧ cron_runs (now_or now_iso w).1 = cron_runs w) as [Ej Er]
    by (unfold now_or; by case_match).
  destruct (now_or now_iso w) as [w0 [t|e]] eqn:En; simpl in Ej, Er;
    [rewrite (bind_of_Ok _ _ _ _ _ En)|rewrite (bind_of_Raise _ _ _ _ _ En)];
    [|split; [unfold cores; simpl; by rewrite Ej|simpl; rewrite Er; apply Z.le_max_l]].
  assert (cores w0 = cs) as Ec by (unfold cs, cores; by rewrite Ej).
  assert (group_bound cs j c0 w0) as Hw0 by (split; [done|rewrite Er; apply Z.le_max_l]).
  destruct (dt_add t _) as [ex|e]; [|done]. rewrite (bind_of_Ok _ _ w0 w0 ex) by done.
  unfold cron_tx, transaction.
  match goal with |- group_bound _ _ _ (match ?m w0 with _ => _ end).1 =>
    assert (group_bound cs j c0 (m w0).1) as Hm; [|by destruct (m w0) as [w' [a|e]]] end.
  set (n := Z.max 100 _).
  pose proof (recovered_locked w0 t (to_iso_utc t) n w0 (recovered_refl w0)) as Hrec.
  destruct (_recover_expired_cron_runs_locked t (to_iso_utc t) n w0) as [w1 [l|e]] eqn:E1; simpl in Hrec.
  - rewrite (bind_of_Ok _ _ _ _ _ E1), bind_get_world.
    assert (group_bound cs j c0 w1) as Hw1.
    { pose proof (recovered_count _ _ j Hrec) as Hle. destruct Hrec as (Hjobs & _). rewrite Ec in Hle.
      split; [unfold cores; rewrite Hjobs, <-Ec; done|]. destruct Hw0. lia. }
    destruct (_scheduler_is_paused_locked w1); [done|].
    match goal with |- group_bound _ _ _ ((mbind ?f ?m) w1).1 =>
      assert (group_bound cs j c0 (m w1).1) as Hl; [|unfold mbind, M_bind; by destruct (m w1) as [w2 [ys|e]]] end.
    apply (keeps_for_each (group_bound cs j c0)); [|done]. intros jx Hx%due_job_rows_elem.
    destruct Hrec as (Hjobs & _). rewrite Hjobs, Ej in Hx.
    apply enqueue_job_bound; [done|by apply core_row_elem|by apply core_row_elem].
  - rewrite (bind_of_Raise _ _ _ _ _ E1). simpl.
    pose proof (recovered_count _ _ j Hrec) as Hle. destruct Hrec as (Hjobs & _). rewrite Ec in Hle.
    split; [unfold cores; rewrite Hjobs, <-Ec; done|]. destruct Hw0. lia.
Qed.
End enqueue.
