(* ===== verification/CronEffects.v ===== *)
(** The outcome of a run in the cron store: retries wait for their backoff or end
    the run, a successful run publishes its watermark and retires a one-time job,
    and a running run whose job was deleted is out of reach of recovery. *)

From S2P Require Import Prelude PyValue Timestamps PyText IsoText Schedule ScheduleCron CronTables CronStore CronInv CronSteps CronKeeps CronProps CronFlow.
From Stdlib Require Import Ascii.

Local Open Scope Z_scope.

Section effects.
Context {Env : PyEnv} {Sched : ScheduleEnv}.

(** An identifier as the store compares it. *)
Definition plain (s : string) : Prop := py_strip s = s ∧ truthy s = true.

Lemma required_plain s msg w : plain s → required s msg w = (w, Ok s).
Proof. intros [H1 H2]. unfold required. by rewrite H1, H2. Qed.

Lemma find_run_unique w r (p : CronRun → bool) :
  NoDup (map r_run_id (cron_runs w)) → r ∈ cron_runs w → p r = true → find_run w (r_run_id r) p = Some r.
Proof.
  intros Hn Hr Hp. unfold find_run. destruct (List.find _ _) as [q|] eqn:E.
  - apply find_elem in E as [Hq Hpq]. bsplit. apply has_run_id_true in H. f_equal.
    by apply (run_id_unique (cron_runs w)).
  - apply list_elem_of_In in Hr. apply (find_none _ _ E) in Hr.
    by rewrite Hp, (proj2 (has_run_id_true _ _)) in Hr.
Qed.

(** An update addressed to one row. *)
Lemma update_one w (p : CronRun → bool) f r :
  NoDup (map r_run_id (cron_runs w)) → r ∈ cron_runs w → (∀ x, r_run_id (f x) = r_run_id x) →
  p r = true →
  let w' := set_runs (update_where p f) w in
  f r ∈ cron_runs w' ∧ run_row w' (r_run_id r) = Some (f r).
Proof.
  intros Hn Hr Hf Hp. cbv zeta.
  assert (f r ∈ cron_runs (set_runs (update_where p f) w)) as Hin
    by (simpl; apply update_where_elem; exists r; auto).
  split; [done|]. rewrite <-(Hf r). apply run_row_unique; [|done]. simpl. by rewrite update_where_map.
Qed.

Lemma now_or_cases o w w0 t : now_or o w = (w0, Ok t) →
  cron_jobs w0 = cron_jobs w ∧ cron_runs w0 = cron_runs w ∧ cron_scope_state w0 = cron_scope_state w.
Proof. unfold now_or, lift_py, lift_result, utc_now. intros H. repeat case_match; by simplify_eq. Qed.

(** A worker that reports a retryable error either ends the run or delays it.
    When the attempt limit is reached the run fails; otherwise it is queued again
    with the same number of attempts and becomes available only after
    [min(backoff * 2^(attempts-1), 86400)] seconds: no daemon can acquire it
    earlier. *)
Theorem retry_waits_for_backoff w r j d error now_iso w0 t :
  cron_inv w → r ∈ cron_runs w → r_state r = "running" → job_of w r = Some j → 1 ≤ j_retry_backoff_s j →
  plain (r_run_id r) → plain d → r_lease_owner r = Some d →
  now_or now_iso w = (w0, Ok t) → in_range t →
  let delay := Z.min (j_retry_backoff_s j * 2 ^ Z.max 0 (r_attempts r - 1)) 86400 in
  ∃ w' r', retry_cron_run (r_run_id r) error (Some d) (Some (r_attempts r)) now_iso w = (w', Ok (Some r')) ∧
    r' ∈ cron_runs w' ∧ r_attempts r' = r_attempts r ∧ r_lease_owner r' = None ∧
    (if j_max_attempts j <=? r_attempts r then r_state r' = "failed"
     else r_state r' = "queued" ∧ r_available_at r' = Some (isoformat (t + delay * 1000000)) ∧
          1 ≤ delay ∧
          ∀ owner u, instant_ok u → u < t + delay * 1000000 → acquirable w' owner (isoformat u) r' = false).
Proof.
  intros Hinv Hr Hrun Hj Hb Hp Hd Hown Hnow Ht delay.
  unfold retry_cron_run. rewrite (bind_of_Ok _ _ w w (r_run_id r)) by (by apply required_plain).
  rewrite (bind_of_Ok _ _ w w (Some (d, r_attempts r)))
    by (unfold fence_of; by rewrite (proj1 Hd)).
  rewrite (bind_of_Ok _ _ _ _ _ Hnow). destruct (now_or_cases _ _ _ _ Hnow) as (Ej & Er & _).
  assert (NoDup (map r_run_id (cron_runs w0))) as Hn by (rewrite Er; apply Hinv).
  rewrite <-Er in Hr. assert (job_of w0 r = Some j) as Hj0 by (unfold job_of, job_row in *; by rewrite Ej).
  pose proof (job_of_core_Some _ _ _ Hj) as Hcore. apply inv_core_ok in Hcore as [Hat _]; [|done]. simpl in Hat.
  assert (ostr_eqb (r_lease_owner r) (Some d) && (r_attempts r =? r_attempts r) = true) as Hlease
    by (by rewrite Hown, (proj2 (ostr_eqb_eq _ _) eq_refl), Z.eqb_refl).
  unfold cron_tx, transaction. rewrite bind_get_world, find_run_unique; [|done|done|].
  2:{ rewrite (proj2 (run_is_true _ _) Hrun). done. }
  cbv zeta. rewrite Hj0.
  assert (∀ v d', 1 ≤ v → z_or v d' = v) as Hz by (intros v d' Hv; unfold z_or; case_match eqn:E; [lia|done]).
  rewrite !Hz, !Z.max_r by lia. rewrite Hown. cbn [str_or]. rewrite (proj2 Hd).
  assert (has_run_id (r_run_id r) r && run_is "running" r
            && holds_lease (Some (d, r_attempts r)) r = true) as Hmine.
  { by rewrite (proj2 (has_run_id_true _ _) eq_refl), (proj2 (run_is_true _ _) Hrun). }
  destruct (j_max_attempts j <=? r_attempts r) eqn:Hlim.
  - destruct (update_one w0 (λ r', has_run_id (r_run_id r) r' && run_is "running" r'
        && holds_lease (Some (d, r_attempts r)) r') (run_fail (to_json (PDict (dsetdefault (dsetdefault error
        "attempts" (PInt (r_attempts r))) "max_attempts" (PInt (j_max_attempts j))))) (to_iso_utc t)) r)
      as [H1 H2]; try done.
    eexists _, _. unfold mbind, M_bind, update_runs, gets. rewrite H2. split; [done|]. by split_and!.
  - pose proof (retry_delay_bounds (r_attempts r) (j_retry_backoff_s j) Hb) as Hdelay.
    change (1 ≤ delay ≤ 86400) in Hdelay.
    change (_retry_delay_seconds (r_attempts r) (j_retry_backoff_s j)) with delay. clearbody delay.
    destruct Ht as [Ht0 Ht1]. unfold MAX_CRON_RETRY_BACKOFF_SECONDS in Ht1. rewrite dt_add_ok by lia.
    set (f := run_requeue (to_iso_utc (t + delay * 1000000)) (to_json (PDict (dupdate error
        [("attempts", PInt (r_attempts r)); ("max_attempts", PInt (j_max_attempts j));
         ("retry_delay_s", PInt delay)]))) (to_iso_utc t)).
    destruct (update_one w0 (λ r', has_run_id (r_run_id r) r' && run_is "running" r'
        && holds_lease (Some (d, r_attempts r)) r') f r) as [H1 H2]; try done.
    eexists _, _. unfold mbind, M_bind, update_runs, gets, lift_py, lift_result. fold f. rewrite H2.
    split; [done|]. split_and!; try done; [lia|]. intros owner u Hu Hlt.
    apply future_not_acquirable; [done| |done]. unfold instant_ok in *. lia.
Qed.

(** ** Successful runs *)

(** [str(schedule.get("kind"))] of a stored schedule. *)
Definition stored_kind (j : CronJob) : string :=
  match j_schedule j with PDict d => py_str (dget_none d "kind") | _ => "" end.

(** The state of the job of a finished run. *)
Definition job_retired (w : CronWorld) (jid : string) (delete : bool) : Prop :=
  match job_row w jid with
  | None => delete = true
  | Some j => delete = false ∧ j_enabled j = false ∧ j_next_due_at j = None
  end.

Lemma job_row_update w jid f :
  (∀ j, j_job_id (f j) = j_job_id j) →
  job_row (set_jobs (update_where (has_job_id jid) f) w) jid = f <$> job_row w jid.
Proof.
  intros Hf. unfold job_row. simpl. unfold update_where. induction (cron_jobs w) as [|j l IH]; simpl; [done|].
  destruct (has_job_id jid j) eqn:E; [|by rewrite E].
  assert (has_job_id jid (f j) = true) as ->; [|done]. unfold has_job_id in *. by rewrite Hf.
Qed.
Lemma job_row_deleted w jid g :
  job_row (set_runs g (set_jobs (List.filter (λ j, negb (has_job_id jid j))) w)) jid = None.
Proof.
  unfold job_row. simpl. induction (cron_jobs w) as [|j l IH]; simpl; [done|].
  destruct (has_job_id jid j) eqn:E; simpl; [done|]. by rewrite E.
Qed.

(** The last step of finishing a run keeps the run and the scope states. *)
Lemma finalize_spec j j' state jid now w r :
  NoDup (map r_run_id (cron_runs w)) → r ∈ cron_runs w → job_row w jid = Some j' →
  ∃ w' r', _finalize_one_time_job_locked (Some j) state jid now w = (w', Ok ()) ∧
    cron_scope_state w' = cron_scope_state w ∧ run_row w' (r_run_id r) = Some r' ∧
    r_run_id r' = r_run_id r ∧ r_state r' = r_state r ∧ r_lease_owner r' = r_lease_owner r ∧
    (state = "finished" → stored_kind j = "at" → job_retired w' jid (j_delete_after_run j)).
Proof.
  intros Hn Hr Hj. unfold _finalize_one_time_job_locked. fold (stored_kind j). cbv zeta.
  destruct (negb (String.eqb state "finished") || negb (String.eqb (stored_kind j) "at")) eqn:Ek.
  { exists w, r. split_and!; try done; [by apply run_row_unique|]. intros -> E. by rewrite E in Ek. }
  destruct (j_delete_after_run j) eqn:Ed.
  - eexists _, (if of_job jid r then run_with_job None r else r).
    split; [done|]. split; [done|].
    assert ((if of_job jid r then run_with_job None r else r) ∈
      update_where (of_job jid) (run_with_job None) (cron_runs w)) as Hin.
    { apply update_where_elem. exists r. split; [done|]. destruct (of_job jid r); auto. }
    assert (∀ b : bool, r_run_id (if b then run_with_job None r else r) = r_run_id r) as Hid by (by intros []).
    split_and!.
    + rewrite <-(Hid (of_job jid r)) at 1. apply run_row_unique; [|done]. simpl. by rewrite update_where_map.
    + apply Hid.
    + by destruct (of_job jid r).
    + by destruct (of_job jid r).
    + intros _ _. unfold job_retired. by rewrite job_row_deleted.
  - eexists _, r. split; [done|]. split; [done|]. split_and!; try done; [by apply run_row_unique|].
    intros _ _. unfold job_retired. rewrite job_row_update, Hj by done. by simpl.
Qed.

(** A finished run whose output has a watermark publishes it under the scope. *)
Lemma persist_watermark k wm output rid now w :
  plain k → dget (default [] output) "coordination_watermark" = Some (PDict wm) →
  _persist_scope_watermark_locked (Some k) "finished" output rid now w
  = (set_scope (<[k := {| s_last_success_run_id := rid; s_last_success_at := now;
                          s_watermark := to_json (PDict wm); s_updated_at := now |}]> (cron_scope_state w)) w, Ok ()).
Proof.
  intros Hk Hwm. unfold _persist_scope_watermark_locked. cbv zeta.
  assert (text_of (Some k) = k) as -> by (unfold text_of, str_or; by rewrite (proj2 Hk), (proj1 Hk)).
  rewrite (proj2 Hk). change (String.eqb "finished" "finished") with true. cbn [andb]. by rewrite Hwm.
Qed.

(** A worker that reports success finishes the run, releases its lease and
    publishes the watermark of the run's concurrency key, which later reads of the
    scope state return (round trip through the store); a one-time job is retired:
    deleted when it asks for that, disabled with no next due time otherwise. *)
Theorem finish_publishes_watermark w r j jid k d o wm now_iso w0 t :
  cron_inv w → r ∈ cron_runs w → r_state r = "running" → r_job_id r = Some jid → job_row w jid = Some j →
  j_concurrency_key j = Some k → plain k → plain (r_run_id r) → plain d → r_lease_owner r = Some d →
  py_strip (o_state o) = "finished" →
  dget (default [] (o_output o)) "coordination_watermark" = Some (PDict wm) →
  now_or now_iso w = (w0, Ok t) →
  ∃ w' r', finish_cron_run (r_run_id r) o (Some d) (Some (r_attempts r)) now_iso w = (w', Ok (Some r')) ∧
    r_run_id r' = r_run_id r ∧ r_state r' = "finished" ∧ r_lease_owner r' = None ∧
    get_cron_scope_state k w' = (w', Ok (Some
      {| s_last_success_run_id := r_run_id r; s_last_success_at := isoformat t;
         s_watermark := to_json (PDict wm); s_updated_at := isoformat t |})) ∧
    (stored_kind j = "at" → job_retired w' jid (j_delete_after_run j)).
Proof.
  intros Hinv Hr Hrun Hjid Hj Hkey Hk Hp Hd Hown Hstate Hwm Hnow.
  unfold finish_cron_run. rewrite Hstate.
  change (negb (str_in "finished" TERMINAL_STATES)) with false. cbv match.
  rewrite (bind_of_Ok _ _ w w (r_run_id r)) by (by apply required_plain).
  rewrite (bind_of_Ok _ _ w w (Some (d, r_attempts r))) by (unfold fence_of; by rewrite (proj1 Hd)).
  rewrite (bind_of_Ok _ _ _ _ _ Hnow). destruct (now_or_cases _ _ _ _ Hnow) as (Ej & Er & Es).
  assert (NoDup (map r_run_id (cron_runs w0))) as Hn by (rewrite Er; apply Hinv).
  rewrite <-Er in Hr.
  assert (job_row w0 jid = Some j) as Hj0 by (unfold job_row in *; by rewrite Ej).
  assert (fenced (Some (d, r_attempts r)) r = true) as Hf.
  { unfold fenced, holds_lease. rewrite (proj2 (run_is_true _ _) Hrun), Hown, Z.eqb_refl.
    by rewrite (proj2 (ostr_eqb_eq _ _) eq_refl). }
  unfold cron_tx, transaction, _finish_cron_run_locked.
  rewrite bind_get_world, find_run_unique by done. cbv zeta. cbn [o_state o_summary o_artifact_refs o_error o_output o_isolated_session_id].
  set (f := run_finish "finished" _ _ _ _ _ _).
  set (p := λ r0, has_run_id (r_run_id r) r0 && fenced (Some (d, r_attempts r)) r0).
  assert (p r = true) as Hpr by (unfold p; by rewrite Hf, (proj2 (has_run_id_true _ _) eq_refl)).
  destruct (update_one w0 p f r) as [Hin _]; try done. set (w1 := set_runs (update_where p f) w0) in *.
  rewrite (bind_of_Ok _ _ w0 w1 (count_where p (cron_runs w0))) by done.
  pose proof (count_where_pos _ _ _ Hr Hpr) as Hc. rewrite (proj2 (Nat.leb_gt _ _)) by lia.
  rewrite Hjid.
  set (w2 := set_jobs (update_where (has_job_id jid) (job_last_run (to_iso_utc t))) w1).
  set (sc := {| s_last_success_run_id := r_run_id r; s_last_success_at := isoformat t;
         s_watermark := to_json (PDict wm); s_updated_at := isoformat t |}).
  set (w3 := set_scope (<[k := sc]> (cron_scope_state w2)) w2).
  assert (job_of w0 r = Some j) as Hjob by (unfold job_of; by rewrite Hjid).
  assert (_persist_scope_watermark_locked (Some k) "finished" (o_output o) (r_run_id r) (to_iso_utc t) w2
            = (w3, Ok ())) as Hpersist by (by rewrite (persist_watermark k wm)).
  assert (NoDup (map r_run_id (cron_runs w3))) as Hn3 by (simpl; by rewrite update_where_map).
  assert (job_row w3 jid = Some (job_last_run (to_iso_utc t) j)) as Hj3.
  { change (job_row w3 jid) with (job_row w2 jid). unfold w2. rewrite job_row_update by done.
    change (job_row w1 jid) with (job_row w0 jid). by rewrite Hj0. }
  destruct (finalize_spec j _ "finished" jid (to_iso_utc t) w3 (f r) Hn3 Hin Hj3)
    as (w4 & r' & Hfin & Hsc & Hrow & I & S & O & Hret).
  exists w4, r'. split.
  - unfold mbind, M_bind. cbn [update_jobs]. fold w2. rewrite Hjob, Hkey. cbn [update_jobs fst snd].
    rewrite Hpersist, Hfin. unfold gets. change (r_run_id (f r)) with (r_run_id r) in Hrow. by rewrite Hrow.
  - split_and!; try done; [|auto]. unfold get_cron_scope_state.
    rewrite (bind_of_Ok _ _ w4 w4 k) by (by apply required_plain). unfold gets. rewrite Hsc.
    simpl. by rewrite lookup_insert_eq.
Qed.

(** ** Runs without a job *)

(** The periodic work of the scheduler. *)
Definition is_sweep (op : cron_op) : Prop :=
  match op with OpRecover _ _ | OpEnqueue _ _ _ _ | OpAcquire _ _ _ _ => True | _ => False end.

(** [r] is an orphan of the table: running, without a job. *)
Definition orphaned (r : CronRun) (w : CronWorld) : Prop :=
  cron_inv w ∧ r ∈ cron_runs w ∧ is_running r ∧ r_job_id r = None.

Lemma insert_cases b q w :
  (insert_run b q w).1 = w ∨ (insert_run b q w).1 = set_runs (λ l, l ++ [q]) w.
Proof. unfold insert_run. repeat case_match; simpl; auto. Qed.

Definition has_run (r : CronRun) (w : CronWorld) : Prop := r ∈ cron_runs w.

Lemma has_run_same {A} r (m : CM A) : (∀ w, cron_runs (m w).1 = cron_runs w) → keeps (has_run r) m.
Proof. intros H w Hw. unfold has_run. by rewrite H. Qed.
Lemma has_run_update r p f : p r = false → keeps (has_run r) (update_runs p f).
Proof. intros Hp w Hw. unfold has_run. simpl. apply update_where_elem. exists r. auto. Qed.
Lemma has_run_insert r b q : keeps (has_run r) (insert_run b q).
Proof.
  intros w Hw. unfold has_run. destruct (insert_cases b q w) as [-> | ->]; [done|].
  simpl. apply elem_of_app. by left.
Qed.
Lemma has_run_tx {A} r (m : CM A) : keeps (has_run r) m → keeps (has_run r) (cron_tx m).
Proof. intros Hm w Hw. specialize (Hm w Hw). unfold cron_tx, transaction. by destruct (m w) as [w' [a|e]]. Qed.
Lemma has_run_now r o : keeps (has_run r) (now_or o).
Proof. apply has_run_same. intros w. unfold now_or. by case_match. Qed.

Ltac has_run_tac := repeat first
  [ apply keeps_ret | apply keeps_raise | apply keeps_gets | apply keeps_lift | apply has_run_now
  | apply has_run_insert | apply has_run_tx | apply keeps_required
  | match goal with
    | |- keeps _ utc_now => apply has_run_same; intros ?; reflexivity
    | |- keeps _ new_id => apply has_run_same; intros ?; reflexivity
    | |- keeps _ (update_jobs _ _) => apply has_run_same; intros ?; reflexivity
    | |- keeps _ (mbind _ get_world) => apply keeps_get_any; intros ?
    | |- keeps _ (mbind _ _) => apply keeps_then; [|intros ?]
    | |- keeps _ (for_each _ _) => apply keeps_for_each; intros ? ?
    | |- keeps _ (match ?x with _ => _ end) => destruct x eqn:?
    end
  | progress cbv zeta ].

Lemma has_run_recover_row r t now q j :
  r_run_id q ≠ r_run_id r → keeps (has_run r) (recover_row t now (q, j)).
Proof.
  intros Hne. unfold recover_row. has_run_tac; apply has_run_update, andb_false_iff; left;
    apply String.eqb_neq; congruence.
Qed.

Lemma orphan_recover r t now n w : orphaned r w → has_run r (_recover_expired_cron_runs_locked t now n w).1.
Proof.
  intros (Hinv & Hr & _ & Hj).
  change (_recover_expired_cron_runs_locked t now n w) with (for_each (recover_row t now) (expired_rows w now n) w).
  apply (keeps_for_each (has_run r)); [|done]. intros [q j] Hq. apply has_run_recover_row.
  apply expired_rows_elem in Hq as (Hq & Hqj & _). intros E.
  assert (q = r) as -> by (apply (run_id_unique (cron_runs w)); [apply Hinv|done|done|done]).
  unfold job_of in Hqj. by rewrite Hj in Hqj.
Qed.

Lemma has_run_enqueue_job r owner lease now t j : keeps (has_run r) (enqueue_job owner lease now t j).
Proof.
  unfold enqueue_job, _auto_pause_legacy_short_interval_job, _persist_due_decision, enqueue_point. has_run_tac.
Qed.
Lemma has_run_acquire_row r owner lease now q :
  is_running r → keeps (has_run r) (acquire_row owner lease now q).
Proof.
  intros Hr. unfold acquire_row. has_run_tac; apply has_run_update, andb_false_iff; right;
    unfold run_is; rewrite Hr; done.
Qed.

(** A sweep keeps the orphan: at the recovery inside it by [orphan_recover], then
    by the statements that follow. *)
Lemma orphan_after_recover {A} r t now n w (k : CM A) :
  orphaned r w → keeps (has_run r) k →
  has_run r ((_ ← _recover_expired_cron_runs_locked t now n; k) w).1.
Proof.
  intros Ho Hk. pose proof (orphan_recover r t now n w Ho) as H.
  destruct (_recover_expired_cron_runs_locked t now n w) as [w1 [l|e]] eqn:E; simpl in H.
  - rewrite (bind_of_Ok _ _ _ _ _ E). by apply Hk.
  - by rewrite (bind_of_Raise _ _ _ _ _ E).
Qed.

Lemma orphan_tx {A} r (m : CM A) w : has_run r w → has_run r (m w).1 → has_run r (cron_tx m w).1.
Proof. intros Hw Hm. unfold cron_tx, transaction. by destruct (m w) as [w' [a|e]]. Qed.

Lemma orphan_same_tables r w w' : cron_jobs w' = cron_jobs w → cron_runs w' = cron_runs w → orphaned r w → orphaned r w'.
Proof.
  intros Hj Hr (Hi & Hin & H). unfold orphaned, cron_inv, cores in *. by rewrite Hj, Hr.
Qed.

(** The common shape of enqueueing and acquiring. *)
Lemma orphan_sweep {A} r d now ttl (f : string → Z → Z → CM A) w :
  orphaned r w → (∀ o t e w', orphaned r w' → has_run r (f o t e w').1) →
  has_run r ((owner ← required d "daemon_id is required"; t ← now_or now;
              e ← lift_py (dt_add t ttl); f owner t e) w).1.
Proof.
  intros Ho Hf. unfold required. destruct (truthy _); [|apply Ho].
  rewrite (bind_of_Ok _ _ w w (py_strip d)) by done.
  destruct (now_or now w) as [w0 [t|e]] eqn:E.
  - rewrite (bind_of_Ok _ _ _ _ _ E). destruct (now_or_cases _ _ _ _ E) as (Ej & Er & _).
    assert (orphaned r w0) as Ho0 by (by eapply orphan_same_tables).
    destruct (dt_add t ttl) as [ex|e]; [|apply Ho0]. rewrite (bind_of_Ok _ _ w0 w0 ex) by done. by apply Hf.
  - rewrite (bind_of_Raise _ _ _ _ _ E). simpl. unfold now_or, lift_py, lift_result, utc_now in E.
    repeat case_match; simplify_eq; apply Ho.
Qed.

Lemma orphan_exec r op w : is_sweep op → orphaned r w → has_run r (cron_exec op w).
Proof.
  intros Hop Ho. pose proof Ho as (_ & Hin & Hrun & _). destruct op; try done; simpl.
  - apply orphan_sweep; [done|]. intros o t e w' Ho'. apply orphan_tx; [apply Ho'|].
    apply orphan_after_recover; [done|]. has_run_tac. apply has_run_enqueue_job.
  - apply orphan_sweep; [done|]. intros o t e w' Ho'. apply orphan_tx; [apply Ho'|].
    apply orphan_after_recover; [done|]. has_run_tac. by apply has_run_acquire_row.
  - unfold recover_expired_cron_runs. destruct (now_or now w) as [w0 [t|e]] eqn:E.
    + rewrite (bind_of_Ok _ _ _ _ _ E). destruct (now_or_cases _ _ _ _ E) as (Ej & Er & _).
      assert (orphaned r w0) as Ho0 by (by eapply orphan_same_tables).
      apply orphan_tx; [apply Ho0|]. by apply orphan_recover.
    + rewrite (bind_of_Raise _ _ _ _ _ E). simpl. unfold now_or, lift_py, lift_result, utc_now in E.
      repeat case_match; simplify_eq; apply Ho.
Qed.

(** A run whose job was deleted while it was running is never recovered.
    Whatever the scheduler does later (recovering expired leases, enqueueing,
    acquiring, at any time, by any daemon), the run stays in the table as it is:
    [running], with its dead lease; the old-run cleanup keeps it as well. *)
Theorem orphaned_run_stuck w r sweeps before :
  ids_plain → orphaned r w → Forall is_sweep sweeps →
  let w' := cron_trace sweeps w in
  r ∈ cron_runs w' ∧ r_state r = "running" ∧ r ∈ cron_runs (delete_old_cron_runs before w').1.
Proof.
  intros Hids Ho Hs. cbv zeta.
  assert (∀ op v, is_sweep op → orphaned r v → orphaned r (cron_exec op v)) as Hstep.
  { intros op v Hop Hv. pose proof Hv as (Hi & _ & Hrun & Hjob).
    split_and!; [by eapply (exec_keeps _ _ cron_inv_stable); [|destruct op|]|..|done|done].
    by apply orphan_exec. }
  assert (orphaned r (cron_trace sweeps w)) as Hw'.
  { revert w Ho. induction Hs as [|op ops Hop _ IH]; intros w Ho; simpl; auto. }
  destruct Hw' as (_ & Hin & Hrun & _). split_and!; try done.
  unfold delete_old_cron_runs, required. destruct (truthy _); [|done]. simpl.
  apply filter_elem. split; [done|]. unfold run_terminal. rewrite Hrun. by rewrite andb_false_r.
Qed.
End effects.
