(* ===== verification/CronWorker.v ===== *)
(** The scheduler's use of the cron store
    ([modules/task/scheduling/coordination.py]): recovering and acquiring runs,
    persisting outcomes and delivering results, written against the store
    protocol ([interfaces.py]) as a type class; the theorems about deliveries use
    the laws of the protocol, which the cron store satisfies. *)

From S2P Require Import Prelude PyValue Timestamps PyText Schedule CronTables CronStore CronInv CronSteps CronKeeps CronProps.
From Stdlib Require Import Ascii.

Local Open Scope Z_scope.

(** ** The protocol *)

Abbreviation SM S A := (M S cron_exn A).

(** The methods of [CronStoreProtocol] these functions call. *)
Class CronStoreProtocol (S : Type) := {
  p_recover : SM S (list dict);
  p_control : SM S SchedulerControl;
  p_enqueue : string → Z → Z → SM S (list CronRun);
  p_acquire : string → Z → Z → SM S (list CronRun);
  p_retry : string → dict → string → Z → SM S (option CronRun);
  p_finish : string → RunOutcome → string → Z → SM S (option CronRun);
  p_renew : string → string → Z → Z → SM S bool;
  p_mark : string → string → string → Z → SM S bool;
}.

(** The store, the events emitted and the deliveries handed to the handler. *)
Record WorkerWorld (S : Type) := mkWorker {
  w_store : S;
  w_events : list (string * dict);
  w_handed : list (string * string);
}.
Arguments mkWorker {S}.
Arguments w_store {S}.
Arguments w_events {S}.
Arguments w_handed {S}.
Abbreviation WM S A := (M (WorkerWorld S) cron_exn A).

(** A delivery takes no lock over its calls, so it is a sequence of steps between which
    other parties use the store: a call of the store, an event, and the call of
    the handler. *)
Inductive steps (S A : Type) : Type :=
| Return (a : A)
| Throw (e : cron_exn)
| CallStore (m : SM S bool) (k : result cron_exn bool → steps S A)
| EmitEvent (event_type : string) (details : dict) (k : steps S A)
| CallHandler (run_id marker : string) (k : steps S A).
Arguments Return {S A}.
Arguments Throw {S A}.
Arguments CallStore {S A}.
Arguments EmitEvent {S A}.
Arguments CallHandler {S A}.
Section steps.
Context {S : Type}.
#[export] Instance steps_ret : MRet (steps S) := λ A, Return.
#[export] Instance steps_bind : MBind (steps S) := λ A B f,
  fix go (p : steps S A) : steps S B :=
    match p with
    | Return a => f a
    | Throw e => Throw e
    | CallStore m k => CallStore m (λ r, go (k r))
    | EmitEvent e d k => EmitEvent e d (go k)
    | CallHandler r t k => CallHandler r t (go k)
    end.
Definition throw {A} (e : cron_exn) : steps S A := Throw e.
(** [try: p except Exception as exc: h exc] *)
Fixpoint try_except {A} (p : steps S A) (h : cron_exn → steps S A) : steps S A :=
  match p with
  | Return a => Return a
  | Throw e => h e
  | CallStore m k => CallStore m (λ r, try_except (k r) h)
  | EmitEvent e d k => EmitEvent e d (try_except k h)
  | CallHandler r t k => CallHandler r t (try_except k h)
  end.
Definition on_steps (m : SM S bool) : steps S bool :=
  CallStore m (λ r, match r with Ok b => Return b | Raise e => Throw e end).
Definition emit_step (event_type : string) (details : dict) : steps S () := EmitEvent event_type details (Return ()).
Definition hand_step (run_id marker : string) : steps S () := CallHandler run_id marker (Return ()).

(** One step: the world after it and what is left. *)
Definition step_once {A} (p : steps S A) (w : WorkerWorld S) : WorkerWorld S * steps S A :=
  match p with
  | Return _ | Throw _ => (w, p)
  | CallStore m k => let '(s', r) := m (w_store w) in (mkWorker s' (w_events w) (w_handed w), k r)
  | EmitEvent e d k => (mkWorker (w_store w) (w_events w ++ [(e, d)]) (w_handed w), k)
  | CallHandler r t k => (mkWorker (w_store w) (w_events w) (w_handed w ++ [(r, t)]), k)
  end.
(** All steps, without others between them. *)
Fixpoint run_steps {A} (p : steps S A) (w : WorkerWorld S) : WorkerWorld S * result cron_exn A :=
  match p with
  | Return a => (w, Ok a)
  | Throw e => (w, Raise e)
  | CallStore m k => let '(s', r) := m (w_store w) in run_steps (k r) (mkWorker s' (w_events w) (w_handed w))
  | EmitEvent e d k => run_steps k (mkWorker (w_store w) (w_events w ++ [(e, d)]) (w_handed w))
  | CallHandler r t k => run_steps k (mkWorker (w_store w) (w_events w) (w_handed w ++ [(r, t)]))
  end.
End steps.

Section worker.
Context {S : Type} {Store : CronStoreProtocol S}.

Definition on_store {A} (m : SM S A) : WM S A := λ w,
  let '(s', r) := m (w_store w) in (mkWorker s' (w_events w) (w_handed w), r).
Definition emit (event_type : string) (details : dict) : WM S () :=
  modify (λ w, mkWorker (w_store w) (w_events w ++ [(event_type, details)]) (w_handed w)).

Definition py_exn_text (e : py_exn) : string :=
  match e with PyValueError m | PyTypeError m | PyOverflowError m => m end.
Definition cron_exn_text (e : cron_exn) : string :=
  match e with
  | CronPy e => py_exn_text e
  | TaskControlError _ m _ | CronRuntimeError m | IntegrityError m => m
  end.

Fixpoint emit_all (items : list dict) : WM S () :=
  match items with
  | [] => mret ()
  | item :: rest =>
      _ ← emit (if py_eq (dget_none item "state") (PStr "failed")
                then "cron.run.retry_exhausted" else "cron.run.lease_recovered") item;
      emit_all rest
  end.

Definition recover_and_acquire_cron_runs (daemon_id : string) (lease_ttl_seconds capacity : Z)
    (can_start_background_work : bool) : WM S (list CronRun) :=
  recovered ← on_store p_recover;
  _ ← emit_all recovered;
  control ← on_store p_control;
  if c_paused control then
    _ ← emit "cron.scheduler.paused"
          [("reason", opt_str (c_reason control)); ("actor", opt_str (c_actor control));
           ("updated_at", PStr (c_updated_at control))];
    mret []
  else
    _ ← on_store (p_enqueue daemon_id lease_ttl_seconds (Z.max 1 (capacity * 2)));
    if negb can_start_background_work then
      _ ← emit "cron.scheduler.foreground_deferred" [("capacity", PInt capacity)];
      mret []
    else on_store (p_acquire daemon_id lease_ttl_seconds capacity).

Definition fence_rejected (run_id job_id daemon_id : string) (expected_attempts : Z) : WM S string :=
  _ ← emit "cron.run.fence_rejected"
        [("run_id", PStr run_id); ("job_id", PStr job_id); ("daemon_id", PStr daemon_id);
         ("attempts", PInt expected_attempts)];
  mret "lease_lost".

Definition persist_cron_run_outcome (run_id job_id state summary : string)
    (artifact_refs : list pyval) (output : dict) (error : option dict)
    (isolated_session_id : option string) (daemon_id : string) (expected_attempts : Z) : WM S string :=
  match (match error with
         | Some e => match dget e "retryable" with Some (PBool true) => Some e | _ => None end
         | None => None
         end) with
  | Some e =>
      retried ← on_store (p_retry run_id e daemon_id expected_attempts);
      match retried with
      | Some r =>
          let persisted_state := if truthy (r_state r) then r_state r else state in
          _ ← emit (if String.eqb persisted_state "queued"
                    then "cron.run.retry_scheduled" else "cron.run.retry_exhausted")
                [("run_id", PStr run_id); ("job_id", PStr job_id); ("attempts", PInt (r_attempts r));
                 ("available_at", opt_str (r_available_at r)); ("error", default PNone (r_error r))];
          mret persisted_state
      | None => fence_rejected run_id job_id daemon_id expected_attempts
      end
  | None =>
      finished ← on_store (p_finish run_id
        {| o_state := state; o_summary := if truthy summary then Some summary else None;
           o_artifact_refs := Some artifact_refs; o_error := error; o_output := Some output;
           o_isolated_session_id := isolated_session_id |} daemon_id expected_attempts);
      match finished with
      | Some _ => mret state
      | None => fence_rejected run_id job_id daemon_id expected_attempts
      end
  end.

Definition TASK_DELIVERY_ERROR_MESSAGE_LIMIT : nat := 500.

(** What an execution returned, as far as deliveries read it. *)
Record CronExecutionResult := { x_summary : string; x_output : dict }.
(** A delivery handler either returns or raises with a message. *)
Abbreviation handler := (string → string → dict → dict → CronExecutionResult → result string ()).

Definition delivery_outcome (state mode : string) (targets : list string) : dict :=
  [("state", PStr state); ("mode", PStr mode); ("targets", PList (PStr <$> targets))].

Definition watch_quiet (payload : pyval) (output : dict) : bool :=
  match payload with
  | PDict p => match dget p "_openminion_watch" with
               | Some (PDict _) => negb (py_truthy (default (PBool false) (dget output "watch_delivery_requested")))
               | _ => false
               end
  | _ => false
  end.

Definition deliver_cron_run (job run : dict) (res : CronExecutionResult) (delivery_handler : option handler)
    (daemon_id : string) (expected_attempts lease_ttl_seconds : Z) : steps S dict :=
  let payload := default (PDict []) (dget job "payload") in
  let delivery := match dget job "delivery" with Some (PDict d) => d | _ => [] end in
  let mode := let m := py_strip (py_str (py_or (default (PStr "none") (dget delivery "mode")) (PStr "none"))) in
              if truthy m then m else "none" in
  if watch_quiet payload (x_output res) || String.eqb mode "none"
     || String.eqb mode "webhook" && negb (truthy (py_strip (x_summary res)))
  then mret (delivery_outcome "not_requested" mode [])
  else
    let to_value := str_or_blank (default (PStr "") (dget delivery "to")) in
    let marker := mode +:+ ":" +:+ (if truthy to_value then to_value
                                    else str_or_blank (default (PStr "") (dget delivery "channel"))) in
    let run_id := match dget run "run_id" with Some v => py_str v | None => "" end in
    let seen := [("run_id", dget_none run "run_id"); ("target", PStr marker)] in
    try_except
      (match delivery_handler with
       | None => throw (CronRuntimeError ("delivery mode '" +:+ mode +:+
                   "' is configured but no delivery handler is installed"))
       | Some h =>
           if negb (truthy to_value) && str_in mode ["announce"; "webhook"]
           then throw (CronRuntimeError "delivery target is required")
           else
             lease_is_current ← on_steps (p_renew run_id daemon_id expected_attempts lease_ttl_seconds);
             if negb lease_is_current then
               _ ← emit_step "cron.delivery.fence_rejected" seen;
               mret (delivery_outcome "not_requested" mode [])
             else
               marked ← on_steps (p_mark run_id marker daemon_id expected_attempts);
               if negb marked then
                 _ ← emit_step "cron.delivery.ambiguous" seen;
                 mret (delivery_outcome "ambiguous" mode [marker])
               else
                 _ ← hand_step run_id marker;
                 _ ← match h mode to_value job run res with
                     | Ok u => mret u
                     | Raise m => throw (CronRuntimeError m)
                     end;
                 _ ← emit_step "cron.delivery.succeeded"
                       [("run_id", dget_none run "run_id"); ("job_id", dget_none job "job_id");
                        ("mode", PStr mode); ("target", PStr marker)];
                 mret (delivery_outcome "succeeded" mode [marker])
       end)
      (λ exc,
        let error := PDict [("code", PStr "cron_delivery_failed");
          ("message", PStr (String.substring 0 TASK_DELIVERY_ERROR_MESSAGE_LIMIT (cron_exn_text exc)))] in
        _ ← emit_step "cron.delivery.failed"
              [("run_id", dget_none run "run_id"); ("job_id", dget_none job "job_id");
               ("mode", PStr mode); ("target", PStr marker);
               ("best_effort", PBool (py_truthy (default (PBool false) (dget delivery "best_effort"))));
               ("error", error)];
        mret (delivery_outcome "failed" mode [] ++ [("error", error)])).
End worker.

(** ** Scheduler readiness *)

Definition _SCHEDULER_STATUS_COMMAND : string := "openminion service status cron".

Definition find_scheduler (components : list pyval) : option dict :=
  let kind item := match dget_none item "component" with
                   | PDict c => dget_none c "component_kind"
                   | _ => PNone
                   end in
  head (omap (λ v, match v with
                   | PDict item => if py_eq (kind item) (PStr "cron_scheduler") then Some item else None
                   | _ => None
                   end) components).

Definition scheduler_readiness_from_health (health_payload : dict) (reachable : bool)
    (identity_matches : option bool) : dict :=
  let '(state, reason, heartbeat) :=
    if negb reachable then ("unreachable", PStr "daemon_unreachable", PNone)
    else match identity_matches with
    | Some false => ("degraded", PStr "daemon_identity_mismatch", PNone)
    | None => ("unknown", PStr "daemon_identity_unavailable", PNone)
    | Some true =>
        match dget_none health_payload "normalized_health_snapshot" with
        | PDict snapshot =>
            match dget snapshot "components" with
            | None => ("unknown", PStr "health_snapshot_unavailable", PNone)
            | Some comps =>
                match find_scheduler (match comps with PList l => l | _ => [] end) with
                | None => ("degraded", PStr "scheduler_not_attached", PNone)
                | Some scheduler =>
                    let readiness := py_str (py_or (dget_none scheduler "readiness") (PStr "unknown")) in
                    let heartbeat := dget_none scheduler "last_heartbeat_at" in
                    if String.eqb readiness "ready" && py_truthy heartbeat
                    then ("ready", PNone, heartbeat)
                    else if String.eqb readiness "ready"
                    then ("unknown", PStr "scheduler_heartbeat_unavailable", heartbeat)
                    else ("degraded", dget_none scheduler "status_message", heartbeat)
                end
            end
        | _ => ("unknown", PStr "health_snapshot_unavailable", PNone)
        end
    end in
  let base := [("state", PStr state); ("hosted_by", PStr "daemon"); ("reason", reason)] in
  let base := if py_truthy heartbeat then base ++ [("last_heartbeat_at", heartbeat)] else base in
  if String.eqb state "ready" then base
  else base ++ [("check_command", PStr _SCHEDULER_STATUS_COMMAND)].
