(* ===== verification/CronDelivery.v ===== *)
(** Deliveries: the laws of the store protocol that make a delivery happen at most
    once, proved for every store that satisfies them, and the cron store as an
    instance. *)

From S2P Require Import Prelude PyValue Timestamps PyText Schedule CronTables CronStore CronInv CronSteps CronKeeps CronProps CronWorker.
From Stdlib Require Import Ascii.

Local Open Scope Z_scope.

(** What the scheduler relies on: [marked rid t s] says that delivery target [t]
    of run [rid] has been claimed.  Claims survive every step other parties take,
    every call of the protocol is such a step, and a successful claim is the
    first one. *)
Class CronStoreLaws (S : Type) `{CronStoreProtocol S} := {
  store_ok : S → Prop;
  store_step : S → S → Prop;
  marked : string → string → S → Prop;
  law_step_ok : ∀ s s', store_step s s' → store_ok s → store_ok s';
  law_step_marked : ∀ s s' rid t, store_step s s' → store_ok s → marked rid t s → marked rid t s';
  law_renew : ∀ rid d n ttl s, store_step s (p_renew rid d n ttl s).1;
  law_mark : ∀ rid t d n s, store_step s (p_mark rid t d n s).1;
  law_claim : ∀ rid t d n s s', store_ok s → p_mark rid t d n s = (s', Ok true) →
    ¬ marked (py_strip rid) (py_strip t) s ∧ marked (py_strip rid) (py_strip t) s';
}.

Section delivery.
Context {S : Type} {Store : CronStoreProtocol S} {Laws : CronStoreLaws S}.

(** A delivery names its run and target as the store reads them. *)
Definition claim_of (h : string * string) : string * string := (py_strip h.1, py_strip h.2).

(** What a delivery may still do: [None] when it holds no claim, [Some c] when it has
    claimed [c] and is about to call the handler for it. *)
Inductive careful {A} : option (string * string) → steps S A → Prop :=
| careful_return a : careful None (Return a)
| careful_throw e : careful None (Throw e)
| careful_emit e d k : careful None k → careful None (EmitEvent e d k)
| careful_renew rid d n ttl k : (∀ r, careful None (k r)) → careful None (CallStore (p_renew rid d n ttl) k)
| careful_mark rid t d n k :
    (∀ r, r ≠ Ok true → careful None (k r)) → careful (Some (rid, t)) (k (Ok true)) →
    careful None (CallStore (p_mark rid t d n) k)
| careful_hand rid t k : careful None k → careful (Some (rid, t)) (CallHandler rid t k).

Lemma deliver_careful job run res h d n ttl : careful None (deliver_cron_run job run res h d n ttl).
Proof.
  unfold deliver_cron_run. cbv zeta. destruct (_ || _ || _); [constructor|].
  assert (∀ e, careful None (EmitEvent (S := S) (A := dict) "cron.delivery.failed" e.1 (Return e.2))) as Hfail
    by (intros e; by do 2 constructor).
  destruct h as [h|]; [|apply (Hfail (_, _))]. destruct (_ && _); [apply (Hfail (_, _))|].
  cbn. apply careful_renew. intros [live|e]; [|apply (Hfail (_, _))]. destruct live; cbn; [|by do 2 constructor].
  apply careful_mark.
  - intros [[]|e] Hr; [done|by do 2 constructor|apply (Hfail (_, _))].
  - cbn. apply careful_hand. destruct (h _ _ _ _ _); [by do 2 constructor|apply (Hfail (_, _))].
Qed.

(** Deliveries under way, each at some step, and the world they share. *)
Record Deliveries := mkDeliveries { ds_world : WorkerWorld S; ds_running : list (steps S dict) }.
(** Any worker may start a delivery, any delivery may take its next step, and others
    use the store in between. *)
Inductive delivery_step : Deliveries → Deliveries → Prop :=
| step_other w ps s' : store_step (w_store w) s' →
    delivery_step (mkDeliveries w ps) (mkDeliveries (mkWorker s' (w_events w) (w_handed w)) ps)
| step_start w ps job run res h d n ttl :
    delivery_step (mkDeliveries w ps) (mkDeliveries w (ps ++ [deliver_cron_run job run res h d n ttl]))
| step_delivery w ps1 p ps2 :
    delivery_step (mkDeliveries w (ps1 ++ p :: ps2))
      (mkDeliveries (step_once p w).1 (ps1 ++ (step_once p w).2 :: ps2)).

(** The claims that were handed over or are about to be are distinct and recorded. *)
Definition claims_ok (w : WorkerWorld S) (held : list (option (string * string))) : Prop :=
  store_ok (w_store w) ∧ NoDup (map claim_of (w_handed w ++ omap id held)) ∧
  Forall (λ h, marked (py_strip h.1) (py_strip h.2) (w_store w)) (w_handed w ++ omap id held).
Definition deliveries_ok (ds : Deliveries) : Prop :=
  ∃ held, Forall2 careful held (ds_running ds) ∧ claims_ok (ds_world ds) held.

Lemma claims_step w s' held :
  store_step (w_store w) s' → claims_ok w held → claims_ok (mkWorker s' (w_events w) (w_handed w)) held.
Proof.
  intros Hs (Hok & Hn & Hm). split_and!; [by eapply law_step_ok|done|]. simpl.
  eapply Forall_impl; [done|]. intros h Hh. simpl in *. by eapply law_step_marked.
Qed.
(** The claim that is held by the delivery in the middle, in front of the others. *)
Lemma claims_middle w h1 c h2 :
  claims_ok w (h1 ++ c :: h2) ↔
  store_ok (w_store w) ∧ NoDup (map claim_of (option_list c ++ w_handed w ++ omap id (h1 ++ h2))) ∧
  Forall (λ h, marked (py_strip h.1) (py_strip h.2) (w_store w)) (option_list c ++ w_handed w ++ omap id (h1 ++ h2)).
Proof.
  unfold claims_ok. assert (w_handed w ++ omap id (h1 ++ c :: h2) ≡ₚ option_list c ++ w_handed w ++ omap id (h1 ++ h2)) as E.
  { rewrite !omap_app. destruct c as [c|]; simpl; [|done]. by rewrite app_assoc, <-Permutation_middle, app_assoc. }
  by rewrite (Permutation_map claim_of E), E.
Qed.
Lemma careful_step {A} held (p : steps S A) w h1 h2 : careful held p → claims_ok w (h1 ++ held :: h2) →
  ∃ held', careful held' (step_once p w).2 ∧ claims_ok (step_once p w).1 (h1 ++ held' :: h2).
Proof.
  intros Hc Hw. destruct Hc as [a|e|e d k Hk|rid d n ttl k Hk|rid t d n k Hk Hyes|rid t k Hk]; simpl.
  - exists None. split; [constructor|done].
  - exists None. split; [constructor|done].
  - exists None. by split.
  - pose proof (claims_step w _ _ (law_renew rid d n ttl (w_store w)) Hw) as Hw1.
    destruct (p_renew rid d n ttl (w_store w)) as [s1 r]. exists None. split; [apply Hk|done].
  - pose proof (claims_step w _ _ (law_mark rid t d n (w_store w)) Hw) as Hw1.
    destruct (p_mark rid t d n (w_store w)) as [s1 r] eqn:Em. simpl in *.
    assert (r = Ok true ∨ r ≠ Ok true) as [->|Hr] by (destruct r as [[]|e]; auto); [|exists None; by split; [apply Hk|]].
    destruct (law_claim rid t d n _ s1 (proj1 Hw) Em) as [Hnot Hmarked].
    exists (Some (rid, t)). split; [done|]. apply claims_middle in Hw as (_ & _ & Hm). apply claims_middle in Hw1 as (Hok & Hn & Hm1).
    apply claims_middle. simpl in *. split_and!; [done| |by constructor]. apply NoDup_cons. split; [|done].
    intros Hin. apply Hnot. apply list_elem_of_In, in_map_iff in Hin as (x & E & Hin). apply list_elem_of_In in Hin.
    rewrite Forall_forall in Hm. specialize (Hm x Hin). unfold claim_of in E. simpl in E. injection E as E1 E2.
    by rewrite E1, E2 in Hm.
  - exists None. split; [done|]. apply claims_middle in Hw as (Hok & Hn & Hm). apply claims_middle. simpl in *.
    assert ((w_handed w ++ [(rid, t)]) ++ omap id (h1 ++ h2) ≡ₚ (rid, t) :: w_handed w ++ omap id (h1 ++ h2)) as E.
    { rewrite <-app_assoc. simpl. by rewrite <-Permutation_middle. }
    split_and!; [done|by rewrite (Permutation_map claim_of E)|by rewrite E].
Qed.
Lemma delivery_step_ok ds ds' : delivery_step ds ds' → deliveries_ok ds → deliveries_ok ds'.
Proof.
  intros Hstep (held & Hc & Hw). destruct Hstep as [w ps s' Hs|w ps job run res h d n ttl|w ps1 p ps2]; simpl in *.
  - exists held. split; [done|]. by apply claims_step.
  - exists (held ++ [None]). split; [apply Forall2_app; [done|repeat constructor; apply deliver_careful]|].
    unfold claims_ok. by rewrite omap_app, app_nil_r.
  - apply Forall2_app_inv_r in Hc as (h1 & h2' & Hc1 & Hc2 & ->). inversion Hc2 as [|c p' h2 ps' Hp Hc3]; subst.
    destruct (careful_step c p w h1 h2 Hp Hw) as (c' & Hp' & Hw'). exists (h1 ++ c' :: h2). split; [|done].
    apply Forall2_app; [done|by constructor].
Qed.
Lemma delivery_trace ds ds' : rtc delivery_step ds ds' → deliveries_ok ds → deliveries_ok ds'.
Proof. induction 1 as [|d1 d2 d3 Hstep _ IH]; [done|]. intros Hd. by eapply IH, delivery_step_ok. Qed.
End delivery.
Arguments Deliveries : clear implicits.

(** ** The cron store *)

Section instance.
Context {Env : PyEnv} {Sched : ScheduleEnv}.

#[export] Instance cron_store_protocol : CronStoreProtocol CronWorld := {|
  p_recover := recover_expired_cron_runs None 100;
  p_control := get_cron_scheduler_control;
  p_enqueue d ttl n := enqueue_due_cron_runs d ttl n None;
  p_acquire d ttl n := acquire_cron_runs d ttl n None;
  p_retry rid e d n := retry_cron_run rid e (Some d) (Some n) None;
  p_finish rid o d n := finish_cron_run rid o (Some d) (Some n) None;
  p_renew rid d n ttl := renew_cron_run_lease rid d n ttl None;
  p_mark rid t d n := mark_cron_delivery_target rid t (Some d) (Some n);
|}.

(** Every run identifier was drawn. *)
Definition ids_drawn (w : CronWorld) : Prop :=
  cron_inv w ∧ ∀ r, r ∈ cron_runs w → ∃ n, r_run_id r = py_uuid4 n ∧ drawn n w.
Lemma ids_drawn_stable : stable ids_drawn (λ _, True).
Proof.
  pose proof cron_inv_stable as HS. constructor; unfold ids_drawn; try done.
  - by intros w [].
  - intros w w' Hc Hr Hu [Hi H]. split; [by apply (st_aux _ _ HS w)|]. rewrite Hr. intros r Hin.
    destruct (H r Hin) as (n & E & Hn). exists n. unfold drawn in *. split; [done|lia].
  - intros w p [Hi H] Hp. split; [by apply (st_delete_runs _ _ HS)|]. intros r [Hr _]%filter_elem. auto.
  - intros w jid [Hi H]. split; [by apply (st_delete_job _ _ HS)|].
    intros r Hr. apply update_where_elem in Hr as (q & Hq & [[_ ->]|[_ ->]]); simpl; by apply (H q).
  - intros w j [Hi H] H1 H2. split; [by apply (st_add_job _ _ HS)|done].
  - intros w r n [Hi H] _ E Hn H1 H2 H3 H4. split; [by apply (st_insert _ _ HS w r n)|].
    intros q [Hq| ->%list_elem_of_singleton]%elem_of_app; [by apply H|eauto].
  - intros w p f [Hi H] Hf. split; [by apply (st_update _ _ HS)|].
    intros r Hr. apply update_where_elem in Hr as (q & Hq & [[Hp ->]|[_ ->]]); [|by apply (H q)].
    destruct (Hf q Hq Hp) as ((-> & _) & _). by apply H.
  - intros w rid owner lease now [Hi H] Hfree. split; [by apply (st_start _ _ HS)|].
    intros r Hr. apply update_where_elem in Hr as (q & Hq & [[Hp ->]|[_ ->]]); simpl; by apply (H q).
Qed.

(** Target [t] of run [rid] is recorded, now and for good. *)
Definition target_claimed (rid t : string) (w : CronWorld) : Prop :=
  ∃ k, rid = py_uuid4 k ∧ drawn k w ∧ ∀ r, r ∈ cron_runs w → r_run_id r = rid → t ∈ r_delivery_targets r.

Lemma target_claimed_stable rid t : uuids_distinct →
  ∀ k, rid = py_uuid4 k →
  stable (λ w, cron_inv w ∧ drawn k w ∧ ∀ r, r ∈ cron_runs w → r_run_id r = rid → t ∈ r_delivery_targets r)
    (λ m, m ≠ k).
Proof.
  intros Hd k ->. pose proof cron_inv_stable as HS. constructor; unfold drawn.
  - tauto.
  - intros w w' Hc Hr Hu (Hi & Hk & H). split_and!; [by apply (st_aux _ _ HS w)|lia|by rewrite Hr].
  - intros w (_ & Hk & _). lia.
  - intros w p (Hi & Hk & H) Hp. split_and!; [by apply (st_delete_runs _ _ HS)|done|].
    intros r [Hr _]%filter_elem. by apply H.
  - intros w jid (Hi & Hk & H). split_and!; [by apply (st_delete_job _ _ HS)|done|].
    intros r Hr. apply update_where_elem in Hr as (q & Hq & [[_ ->]|[_ ->]]); simpl; by apply H.
  - intros w j (Hi & Hk & H) H1 H2. split_and!; [by apply (st_add_job _ _ HS)|done|done].
  - intros w r n (Hi & Hk & H) HQ E Hn H1 H2 H3 H4. split_and!; [by apply (st_insert _ _ HS w r n)|done|].
    intros q [Hq|Hq%list_elem_of_singleton]%elem_of_app E'; [by apply H|]. subst q. rewrite E in E'.
    by apply Hd in E'.
  - intros w p f (Hi & Hk & H) Hf. split_and!; [by apply (st_update _ _ HS)|done|].
    intros r Hr E. apply update_where_elem in Hr as (q & Hq & [[Hp ->]|[_ ->]]); [|by apply H].
    destruct (Hf q Hq Hp) as ((I & _) & _ & T). rewrite I in E. apply T. by apply H.
  - intros w rid owner lease now (Hi & Hk & H) Hfree. split_and!; [by apply (st_start _ _ HS)|done|].
    intros r Hr. apply update_where_elem in Hr as (q & Hq & [[Hp ->]|[_ ->]]); simpl; by apply H.
Qed.

Lemma mark_claims rid t d n w w' :
  ids_drawn w → mark_cron_delivery_target rid t (Some d) (Some n) w = (w', Ok true) →
  ¬ target_claimed (py_strip rid) (py_strip t) w ∧ target_claimed (py_strip rid) (py_strip t) w'.
Proof.
  intros [Hinv Hids] H. unfold mark_cron_delivery_target, edit_delivery_targets in H. cbv zeta in H.
  destruct (negb _); [done|]. destruct (negb _); [done|]. unfold fence_of in H.
  rewrite (bind_of_Ok _ _ w w (Some (py_strip d, n))) in H by done.
  apply transaction_Ok_inv in H. rewrite bind_get_world in H.
  destruct (find_run _ _ _) as [r|] eqn:Hr; [|done]. destruct (str_in _ _) eqn:Ht; [done|].
  apply find_elem in Hr as [Hr Hp]. apply andb_true_iff in Hp as [Hid%has_run_id_true Hf].
  munfold. simplify_eq/=. destruct (Hids r Hr) as (k & Ek & Hk). split.
  - intros (k' & _ & _ & Hall). specialize (Hall r Hr Hid). apply str_in_elem_false in Ht. done.
  - exists k. split_and!; [congruence|done|]. simpl. intros q Hq Eq.
    apply update_where_elem in Hq as (q0 & Hq0 & [[_ ->]|[Hp ->]]); simpl in *; [set_solver|].
    assert (q0 = r) as -> by (apply (run_id_unique (cron_runs w)); [apply Hinv|done|done|congruence]).
    by rewrite (proj2 (has_run_id_true _ _) Hid), Hf in Hp.
Qed.

Context (Hplain : ids_plain) (Hdistinct : uuids_distinct).

(** Steps of other parties: any operations but [unmark]. *)
Definition cron_others (w w' : CronWorld) : Prop := ∃ ops, Forall not_unmark ops ∧ w' = cron_trace ops w.

Lemma others_ids_drawn w w' : cron_others w w' → ids_drawn w → ids_drawn w'.
Proof. intros (ops & Hops & ->) Hw. by eapply (trace_keeps _ _ ids_drawn_stable). Qed.
Lemma others_claimed w w' rid t :
  cron_others w w' → ids_drawn w → target_claimed rid t w → target_claimed rid t w'.
Proof.
  intros (ops & Hops & ->) [Hi _] (k & E & Hk & H).
  pose proof (trace_keeps _ _ (target_claimed_stable rid t Hdistinct k E) ops w Hplain Hops
    ltac:(done)) as (_ & Hk' & H'). by exists k.
Qed.
Lemma others_exec op w : not_unmark op → cron_others w (cron_exec op w).
Proof. intros Hop. exists [op]. split; [by constructor|done]. Qed.

Definition cron_store_laws : CronStoreLaws CronWorld := {|
  store_ok := ids_drawn;
  store_step := cron_others;
  marked := target_claimed;
  law_step_ok := others_ids_drawn;
  law_step_marked := others_claimed;
  law_renew rid d n ttl w := others_exec (OpRenew rid d n ttl None) w I;
  law_mark rid t d n w := others_exec (OpMark rid t (Some d) (Some n)) w I;
  law_claim rid t d n w w' := mark_claims rid t d n w w';
|}.

(** C19: a result is delivered at most once to each target of a run.  However many
    workers deliver a run, and however the steps of their deliveries (the renewal of
    the lease, the mark in the store, the call of the handler) interleave with each
    other and with any other operations on the cron store (expired leases, retries,
    deletions; only an explicit [unmark] is excluded), the delivery handler is
    called at most once for each run and target. *)
Theorem delivery_at_most_once (ds ds' : Deliveries CronWorld) :
  ids_drawn (w_store (ds_world ds)) → w_handed (ds_world ds) = [] → ds_running ds = [] →
  rtc (@delivery_step CronWorld cron_store_protocol cron_store_laws) ds ds' →
  NoDup (map claim_of (w_handed (ds_world ds'))).
Proof.
  intros Hw Hh Hr Htr. eapply (@delivery_trace _ _ cron_store_laws) in Htr as (held & _ & _ & Hn & _).
  - rewrite map_app in Hn. by apply NoDup_app in Hn as [Hn _].
  - exists []. rewrite Hr. split; [constructor|]. unfold claims_ok. rewrite Hh. split_and!; [done|constructor|constructor].
Qed.
End instance.
