(* ===== verification/CronDemo.v ===== *)
(** Concrete runs of the cron store: the witnesses of its theorems, and the
    missed points that a catch-up policy loses. *)

From S2P Require Import Prelude PyValue Timestamps PyText IsoText Schedule ScheduleCron ScheduleProps CronTables CronStore CronInv CronSteps CronKeeps CronProps CronFlow CronEffects CronWorker CronDelivery.
From Stdlib Require Import Ascii.

Local Open Scope Z_scope.

(** ** The environment draws plain, distinct identifiers *)

Lemma pretty_nat_digits (n : nat) : str_all is_digit (pretty n) = true.
Proof. unfold pretty, pretty_nat. apply pretty_N_digits. Qed.
Lemma demo_ids_plain : ids_plain.
Proof.
  intros n. simpl. split; [|done]. apply strip_no_space.
  rewrite str_all_app.
  rewrite (str_all_impl is_digit _ _ digit_not_space (pretty_nat_digits n)). done.
Qed.
Lemma demo_ids_distinct : uuids_distinct.
Proof.
  intros i j H. unfold py_uuid4, sched_env in H.
  apply (inj (String.app "id-")) in H. by apply (inj pretty) in H.
Qed.

(** ** A database *)

Definition day0 : Z := 739180 * us_per_day.
Definition at_s (s : Z) : option string := Some (isoformat (day0 + s * 1000000)).

Definition demo_job (id : string) (key : option string) (misfire : pyval) (conc : Z) : NewCronJob :=
  {| a_name := Some id;
     a_schedule := PDict [("kind", PStr "every"); ("every_ms", PInt 60000)];
     a_payload := PDict [("kind", PStr "systemEvent"); ("event_text", PStr "tick")];
     a_description := None; a_enabled := true; a_agent_id := None; a_session_target := None;
     a_wake_mode := None; a_delivery := None; a_delete_after_run := None; a_misfire_policy := misfire;
     a_max_lateness_s := 600; a_max_concurrency := conc; a_concurrency_key := key;
     a_max_attempts := 3; a_retry_backoff_s := 30; a_job_id := Some id |}.

Lemma trace_reachable ops w : cron_reachable w → cron_reachable (cron_trace ops w).
Proof.
  revert w. induction ops as [|op ops IH]; intros w Hw; simpl; [done|]. apply IH. by constructor.
Qed.

(** One job with a concurrency key; its run is queued and then running. *)
Definition ops_queued : list cron_op :=
  [OpAdd (demo_job "job-1" (Some "sync") PNone 1); OpEnqueue "d1" 60 50 (at_s 65)].
Definition w_queued : CronWorld := cron_trace ops_queued cron_empty.
Definition w_running : CronWorld := cron_exec (OpAcquire "d1" 60 4 (at_s 66)) w_queued.
Definition w_recovered : CronWorld := cron_exec (OpRecover (at_s 200) 100) w_running.
Example demo_running : map (λ r, (r_run_id r, r_state r, r_attempts r)) (cron_runs w_running) = [("id-0", "running", 1)].
Proof. vm_compute. reflexivity. Qed.
Example demo_recovered :
  map (λ r, (r_run_id r, r_state r, r_attempts r, r_available_at r)) (cron_runs w_recovered)
  = [("id-0", "queued", 1, at_s 230)].
Proof. vm_compute. reflexivity. Qed.

Definition no_run : CronRun := new_run "" "" "" "" None None None None None "".
Definition the_run (w : CronWorld) : CronRun := default no_run (head (cron_runs w)).
Definition no_job : CronJob :=
  {| j_job_id := ""; j_name := ""; j_description := None; j_enabled := false; j_agent_id := None;
     j_schedule := PNone; j_payload := PNone; j_delivery := PNone; j_session_target := "";
     j_wake_mode := ""; j_delete_after_run := false; j_misfire_policy := ""; j_max_lateness_s := 0;
     j_max_concurrency := 0; j_concurrency_key := None; j_max_attempts := 0; j_retry_backoff_s := 0;
     j_next_due_at := None; j_last_run_at := None; j_created_at := ""; j_updated_at := "" |}.
Definition the_job (w : CronWorld) : CronJob := default no_job (head (cron_jobs w)).

Lemma w_queued_reachable : cron_reachable w_queued.
Proof. apply trace_reachable. constructor. Qed.
Lemma w_running_reachable : cron_reachable w_running.
Proof. apply cron_reach_step, w_queued_reachable. Qed.
Lemma w_recovered_reachable : cron_reachable w_recovered.
Proof. apply cron_reach_step, w_running_reachable. Qed.
Lemma w_running_inv : cron_inv w_running.
Proof. apply reachable_inv; [apply demo_ids_plain|apply w_running_reachable]. Qed.

(** The first run is in the table. *)
Lemma the_run_in w : cron_runs w ≠ [] → the_run w ∈ cron_runs w.
Proof. unfold the_run. destruct (cron_runs w) as [|r l]; [done|]. intros _. by left. Qed.
Lemma the_job_in w : cron_jobs w ≠ [] → the_job w ∈ cron_jobs w.
Proof. unfold the_job. destruct (cron_jobs w) as [|r l]; [done|]. intros _. by left. Qed.

(** The run is started, its lease expires, and it is started again. *)
Definition ops_twice : list cron_op :=
  ops_queued ++ [OpAcquire "d1" 60 4 (at_s 66); OpRecover (at_s 200) 100; OpAcquire "d2" 60 4 (at_s 600)].
Lemma cron_starts_bounded_witness :
  starts "id-0" ops_twice cron_empty = 2%nat ∧ Z.of_nat (starts "id-0" ops_twice cron_empty) ≤ MAX_CRON_ATTEMPTS.
Proof.
  split; [vm_compute; reflexivity|]. exact (proj1 (cron_starts_bounded ops_twice "id-0" demo_ids_plain demo_ids_distinct)).
Defined.

Lemma one_running_per_key_witness : the_run w_running = the_run w_running.
Proof.
  apply (one_running_per_key w_running (the_run w_running) (the_run w_running)
           (the_job w_running) (the_job w_running) "sync").
  - apply demo_ids_plain.
  - apply w_running_reachable.
  - apply the_run_in. vm_compute. discriminate.
  - apply the_run_in. vm_compute. discriminate.
  - vm_compute. reflexivity.
  - vm_compute. reflexivity.
  - vm_compute. reflexivity.
  - vm_compute. reflexivity.
  - vm_compute. reflexivity.
  - vm_compute. reflexivity.
Defined.

Lemma cron_tables_consistent_witness :
  NoDup (map j_job_id (cron_jobs w_recovered)) ∧ NoDup (map r_run_id (cron_runs w_recovered)).
Proof.
  destruct (cron_tables_consistent w_recovered demo_ids_plain w_recovered_reachable) as (H1 & H2 & _).
  split; assumption.
Defined.

(** The lease of the first attempt ended; the second daemon starts the run again
    and the first one is turned away. *)
Lemma recovered_lease_over : lease_over "id-0" 1 w_recovered.
Proof.
  intros r Hr _. apply list_elem_of_In in Hr. vm_compute in Hr. destruct Hr as [<-|[]].
  right. split; [reflexivity|discriminate].
Qed.
Lemma stale_worker_fenced_witness :
  let w' := cron_trace [OpAcquire "d2" 60 4 (at_s 240)] w_recovered in
  map (λ r, (r_state r, r_lease_owner r, r_attempts r)) (cron_runs w') = [("running", Some "d2", 2)] ∧
  ∀ o now, rejected None w' (finish_cron_run "id-0" o (Some "d1") (Some 1) now w').
Proof.
  split; [vm_compute; reflexivity|].
  assert (drawn 0 w_recovered) as Hdr by (vm_compute; repeat constructor).
  destruct (stale_worker_fenced 0 1 w_recovered [OpAcquire "d2" 60 4 (at_s 240)] "d1"
              demo_ids_plain demo_ids_distinct w_recovered_reachable Hdr recovered_lease_over) as [H _].
  exact H.
Defined.

Definition w_paused : CronWorld :=
  cron_trace [OpGetControl; OpSetControl true (Some "maintenance") "op" (default "" (at_s 1))] w_queued.
Lemma paused_scheduler_starts_nothing_witness :
  _scheduler_is_paused_locked w_paused = true ∧
  (acquire_cron_runs "d1" 60 4 (at_s 66) w_paused).2 = Ok [].
Proof.
  assert (_scheduler_is_paused_locked w_paused = true) as Hp by (vm_compute; reflexivity).
  split; [exact Hp|].
  destruct (paused_scheduler_starts_nothing w_paused "d1" 60 4 (at_s 66) "job-1" Hp) as (_ & [_ H] & _).
  vm_compute in H |- *. reflexivity.
Defined.

Definition w_plain : CronWorld :=
  cron_trace [OpAdd (demo_job "job-2" None PNone 1); OpEnqueue "d1" 60 50 (at_s 65)] cron_empty.
Lemma due_run_is_acquired_witness :
  ∃ w' out, acquire_cron_runs "d1" 60 4 (at_s 66) w_plain = (w', Ok out) ∧
    run_start "d1" (isoformat (day0 + 126000000)) (isoformat (day0 + 66000000)) (the_run w_plain) ∈ out ∧
    run_start "d1" (isoformat (day0 + 126000000)) (isoformat (day0 + 66000000)) (the_run w_plain) ∈ cron_runs w'.
Proof.
  apply (due_run_is_acquired w_plain "d1" 60 4 (at_s 66) w_plain (day0 + 66000000) (the_run w_plain)).
  - apply reachable_inv; [apply demo_ids_plain|]. apply trace_reachable. constructor.
  - vm_compute. reflexivity.
  - vm_compute. reflexivity.
  - vm_compute. reflexivity.
  - split; vm_compute; [discriminate|reflexivity].
  - vm_compute. reflexivity.
  - apply the_run_in. vm_compute. discriminate.
  - vm_compute. reflexivity.
  - exists (the_job w_plain). split; vm_compute; reflexivity.
  - vm_compute. discriminate.
Defined.

Lemma enqueue_respects_concurrency_witness :
  Z.of_nat (_active_cron_run_count (enqueue_due_cron_runs "d2" 60 50 (at_s 300) w_running).1 "job-1" "sync") ≤
  Z.max (Z.of_nat (_active_cron_run_count w_running "job-1" "sync")) (max_for_job (the_job w_running)).
Proof.
  apply (enqueue_respects_concurrency w_running "d2" 60 50 (at_s 300) (the_job w_running)).
  - apply w_running_inv.
  - apply the_job_in. vm_compute. discriminate.
Defined.

Lemma retry_waits_for_backoff_witness :
  ∃ w' r', retry_cron_run (r_run_id (the_run w_running)) [] (Some "d1")
      (Some (r_attempts (the_run w_running))) (at_s 70) w_running = (w', Ok (Some r')) ∧
    r_state r' = "queued" ∧ r_available_at r' = at_s 100.
Proof.
  destruct (retry_waits_for_backoff w_running (the_run w_running) (the_job w_running) "d1" [] (at_s 70)
              w_running (day0 + 70000000)) as (w' & r' & E & _ & _ & _ & H).
  - apply w_running_inv.
  - apply the_run_in. vm_compute. discriminate.
  - vm_compute. reflexivity.
  - vm_compute. reflexivity.
  - vm_compute. discriminate.
  - split; vm_compute; reflexivity.
  - split; vm_compute; reflexivity.
  - vm_compute. reflexivity.
  - vm_compute. reflexivity.
  - split; vm_compute; [discriminate|reflexivity].
  - assert ((j_max_attempts (the_job w_running) <=? r_attempts (the_run w_running)) = false) as Hc
      by (vm_compute; reflexivity).
    rewrite Hc in H. destruct H as (H1 & H2 & _).
    exists w', r'. split; [exact E|]. split; [exact H1|]. rewrite H2. vm_compute. reflexivity.
Defined.

Definition demo_watermark : dict := [("cursor", PInt 17)].
Definition demo_outcome : RunOutcome :=
  {| o_state := "finished"; o_summary := Some "done"; o_artifact_refs := None; o_error := None;
     o_output := Some [("coordination_watermark", PDict demo_watermark)]; o_isolated_session_id := None |}.
Lemma finish_publishes_watermark_witness :
  ∃ w' r', finish_cron_run (r_run_id (the_run w_running)) demo_outcome (Some "d1")
      (Some (r_attempts (the_run w_running))) (at_s 70) w_running = (w', Ok (Some r')) ∧
    r_state r' = "finished" ∧
    ∃ s, get_cron_scope_state "sync" w' = (w', Ok (Some s)) ∧ s_watermark s = PDict demo_watermark.
Proof.
  destruct (finish_publishes_watermark w_running (the_run w_running) (the_job w_running) "job-1" "sync" "d1"
              demo_outcome demo_watermark (at_s 70) w_running (day0 + 70000000))
    as (w' & r' & E & _ & H1 & _ & H2 & _).
  - apply w_running_inv.
  - apply the_run_in. vm_compute. discriminate.
  - vm_compute. reflexivity.
  - vm_compute. reflexivity.
  - vm_compute. reflexivity.
  - vm_compute. reflexivity.
  - split; vm_compute; reflexivity.
  - split; vm_compute; reflexivity.
  - split; vm_compute; reflexivity.
  - vm_compute. reflexivity.
  - vm_compute. reflexivity.
  - vm_compute. reflexivity.
  - vm_compute. reflexivity.
  - exists w', r'. split; [exact E|]. split; [exact H1|]. eexists. split; [exact H2|vm_compute; reflexivity].
Defined.

(** The job is deleted while its run is running; days later the run is still
    there. *)
Definition w_orphan : CronWorld := cron_exec (OpDelete "job-1") w_running.
Lemma orphaned_run_stuck_witness :
  let w' := cron_trace [OpRecover (at_s 200000) 100; OpEnqueue "d1" 60 50 (at_s 200001);
                        OpAcquire "d1" 60 4 (at_s 200002)] w_orphan in
  the_run w_orphan ∈ cron_runs w' ∧ r_state (the_run w_orphan) = "running" ∧
  the_run w_orphan ∈ cron_runs (delete_old_cron_runs (default "" (at_s 300000)) w').1.
Proof.
  apply (orphaned_run_stuck w_orphan (the_run w_orphan)
           [OpRecover (at_s 200000) 100; OpEnqueue "d1" 60 50 (at_s 200001); OpAcquire "d1" 60 4 (at_s 200002)]
           (default "" (at_s 300000))).
  - apply demo_ids_plain.
  - split; [apply reachable_inv; [apply demo_ids_plain|apply cron_reach_step, w_running_reachable]|].
    split; [apply the_run_in; vm_compute; discriminate|]. split; vm_compute; reflexivity.
  - repeat constructor.
Defined.

(** Two executions of the same run each try to deliver; the handler is called
    once. *)
Definition demo_job_row : dict :=
  [("job_id", PStr "job-1"); ("delivery", PDict [("mode", PStr "announce"); ("to", PStr "ops")])].
Definition demo_delivery : steps CronWorld dict :=
  deliver_cron_run demo_job_row [("run_id", PStr "id-0")] {| x_summary := "ok"; x_output := [] |}
    (Some (λ _ _ _ _ _, Ok ())) "d1" 1 60.
Definition demo_worker : WorkerWorld CronWorld := mkWorker w_running [] [].
(** Two workers deliver at the same time. *)
Definition two_deliveries : Deliveries CronWorld := mkDeliveries demo_worker [demo_delivery; demo_delivery].
(** The deliveries take their next steps in the given order. *)
Fixpoint advance (order : list nat) (ds : Deliveries CronWorld) : Deliveries CronWorld :=
  match order with
  | [] => ds
  | i :: order' =>
      advance order'
        match ds_running ds !! i with
        | Some p => mkDeliveries (step_once p (ds_world ds)).1
                      (take i (ds_running ds) ++ (step_once p (ds_world ds)).2 :: drop (S i) (ds_running ds))
        | None => ds
        end
  end.
Abbreviation demo_step := (@delivery_step CronWorld cron_store_protocol (cron_store_laws demo_ids_plain demo_ids_distinct)).
Lemma advance_steps order ds : rtc demo_step ds (advance order ds).
Proof.
  revert ds. induction order as [|i order IH]; intros ds; simpl; [apply rtc_refl|].
  destruct (ds_running ds !! i) as [p|] eqn:E; [|apply IH]. eapply rtc_l; [|apply IH]. destruct ds as [w ps]. simpl in *.
  rewrite <-(take_drop_middle ps i p E) at 1. apply step_delivery.
Qed.
Lemma two_deliveries_start : rtc demo_step (mkDeliveries demo_worker []) two_deliveries.
Proof. eapply rtc_l; [apply step_start|]. eapply rtc_l; [apply step_start|]. apply rtc_refl. Qed.
Definition both_orders : list nat := [0; 1; 1; 0; 0; 1; 0; 1; 1; 0]%nat.
Lemma delivery_at_most_once_witness :
  w_handed (ds_world (advance both_orders two_deliveries)) = [("id-0", "announce:ops")] ∧
  NoDup (map claim_of (w_handed (ds_world (advance both_orders two_deliveries)))).
Proof.
  split; [vm_compute; reflexivity|].
  apply (delivery_at_most_once demo_ids_plain demo_ids_distinct (mkDeliveries demo_worker [])).
  - split; [apply w_running_inv|]. intros r Hr. exists 0%nat. apply list_elem_of_In in Hr.
    vm_compute in Hr. destruct Hr as [<-|[]]. split; [reflexivity|vm_compute; repeat constructor].
  - reflexivity.
  - reflexivity.
  - transitivity two_deliveries; [apply two_deliveries_start|apply advance_steps].
Defined.

(** ** Catch-up under a concurrency limit *)

(** Catching up is cut to the concurrency limit, and the points cut off are
    never run.  A job with policy [catch_up(max=3)] and the default limit of one
    run missed three points; one call enqueues a run for the oldest of them only,
    and moves the next due time past the other two, which no later call selects. *)
Theorem catch_up_points_lost :
  let w := cron_exec (OpAdd (demo_job "job-3" None (PStr "catch_up(max=3)") 1)) cron_empty in
  let w' := cron_exec (OpEnqueue "d1" 60 50 (at_s 200)) w in
  _select_due_points_for_job (j_schedule (the_job w)) (j_next_due_at (the_job w)) "job-3"
    (j_misfire_policy (the_job w)) 600 (day0 + 200000000)
    = Ok ([day0 + 60000000; day0 + 120000000; day0 + 180000000], Some (day0 + 240000000)) ∧
  map r_due_at (cron_runs w') = [isoformat (day0 + 60000000)] ∧
  j_next_due_at (the_job w') = at_s 240.
Proof. vm_compute. split; [reflexivity|]. split; reflexivity. Qed.
