(* ===== verification/CPTables.v ===== *)
(** The control plane's tables ([modules/controlplane/storage/schema.py] and
    [pairing/schema.py]), the statements the stores run on them, and the clock and
    generators they read.  A JSON column is kept as the value its text encodes;
    rows are listed in row-id order.  Of an audit event the type, the outcome and
    the details are kept, not its identifier and time. *)

From S2P Require Import Prelude PyValue Timestamps PyText Schedule.
From Stdlib Require Import Ascii.

Local Open Scope Z_scope.

(** ** Constants ([constants.py]) *)

Definition DEFAULT_MINIMAL_SCOPES : list string :=
  ["cp.message.read"; "cp.message.write"; "session.read"; "session.write"; "run.start"].
Definition PRINCIPAL_BINDING_STATUS_ACTIVE : string := "active".
Definition PRINCIPAL_BINDING_STATUS_INACTIVE : string := "inactive".
Definition AUTH_ROLE_UNPAIRED : string := "unpaired".
Definition PAIRING_REQUIRED_HINT : string :=
  "This chat is not paired. Send /pair for setup instructions.".

(** ** Rows *)

Record PairToken := {
  t_hash : string;
  t_channel : string;
  t_hint : string;
  t_created_at : Z;
  t_expires_at : Z;
  t_used_at : option Z;
  t_expected_account : option string;
  t_expected_chat : option string;
  t_consumer_account : option string;
  t_consumer_chat : option string;
  t_scopes : list string;
}.
Record PairAttempt := {
  a_channel : string;
  a_account_id : string;
  a_chat_key : option string;
  a_attempted_at : Z;
  a_token_hash_prefix : string;
  a_outcome : string;
  a_detail : dict;
}.
Record Pairing := {
  p_pairing_id : string;
  p_channel : string;
  p_chat_id : string;
  p_user_id : string;
  p_session_id : string;
  p_created_at : string;
  p_last_seen_at : string;
  p_status : string;
  p_scopes : list string;
  p_note : option string;
}.
Record Principal := {
  pr_id : string;
  pr_created_at : string;
  pr_updated_at : string;
  pr_meta : dict;
}.
Record ChannelSubject := {
  cs_principal_id : string;
  cs_channel : string;
  cs_subject_id : string;
  cs_status : string;
  cs_scopes : list string;
  cs_note : option string;
  cs_created_at : string;
  cs_last_seen_at : string;
  cs_meta : dict;
}.
Record InboxRow := {
  i_inbox_id : string;
  i_channel : string;
  i_chat_id : string;
  i_channel_message_id : string;
  i_user_id : string;
  i_thread_id : option string;
  i_received_at : string;
  i_payload : dict;
  i_status : string;
  i_error : option string;
  i_attempts : Z;
  i_next_attempt_at : string;
  i_locked_at : option string;
  i_lock_owner : option string;
}.
Record OutboxRow := {
  o_outbox_id : string;
  o_channel : string;
  o_chat_id : string;
  o_thread_id : option string;
  o_reply_to : option string;
  o_payload : dict;
  o_status : string;
  o_created_at : string;
  o_next_attempt_at : string;
  o_attempts : Z;
  o_last_error : option string;
  o_lock_owner : option string;
  o_locked_at : option string;
}.
Record RateRow := {
  l_key_type : string;
  l_key_id : string;
  l_window_start : Z;
  l_count : Z;
  l_updated_at : string;
}.
Record ChatBinding := {
  b_chat_key : string;
  b_session_id : string;
  b_active_agent_id : option string;
  b_updated_at : string;
}.
Record SessionRow := {
  s_session_id : string;
  s_user_key : option string;
  s_chat_key : option string;
  s_title : option string;
  s_created_at : string;
  s_updated_at : string;
}.
Record SessionAgent := {
  sa_session_id : string;
  sa_agent_id : string;
  sa_updated_at : string;
}.
Record InboundRow := {
  m_message_id : string;
  m_chat_key : string;
  m_user_key : string;
  m_session_id : option string;
  m_agent_id : option string;
  m_timestamp : string;
  m_text : option string;
  m_payload : dict;
}.
Record AuditEvent := {
  e_event_type : string;
  e_outcome : string;
  e_details : dict;
}.

(** The database, the agents known to the store, the recent pairing attempts kept
    in memory, the audit log, and how many
    clock readings, identifiers and secrets were drawn. *)
Record CPWorld := {
  pair_tokens : list PairToken;
  pair_attempts : list PairAttempt;
  pairings : list Pairing;
  principals : list Principal;
  channel_subjects : list ChannelSubject;
  inbox : list InboxRow;
  outbox : list OutboxRow;
  rate_limits : list RateRow;
  chat_bindings : list ChatBinding;
  sessions : list SessionRow;
  session_agents : list SessionAgent;
  inbound_messages : list InboundRow;
  agents : list (string * string);
  pair_lru : list (string * Z);
  cp_audit : list AuditEvent;
  cp_ticks : nat;
  cp_uuids : nat;
  cp_secrets : nat;
}.

(** ** Worlds *)

Definition set_tokens (f : list PairToken → list PairToken) (w : CPWorld) : CPWorld :=
  {| pair_tokens := f (pair_tokens w); pair_attempts := pair_attempts w; pairings := pairings w;
     principals := principals w; channel_subjects := channel_subjects w; inbox := inbox w;
     outbox := outbox w; rate_limits := rate_limits w; chat_bindings := chat_bindings w;
     sessions := sessions w; session_agents := session_agents w;
     inbound_messages := inbound_messages w; agents := agents w; pair_lru := pair_lru w;
     cp_audit := cp_audit w; cp_ticks := cp_ticks w; cp_uuids := cp_uuids w;
     cp_secrets := cp_secrets w |}.
Definition set_attempts (f : list PairAttempt → list PairAttempt) (w : CPWorld) : CPWorld :=
  {| pair_tokens := pair_tokens w; pair_attempts := f (pair_attempts w); pairings := pairings w;
     principals := principals w; channel_subjects := channel_subjects w; inbox := inbox w;
     outbox := outbox w; rate_limits := rate_limits w; chat_bindings := chat_bindings w;
     sessions := sessions w; session_agents := session_agents w;
     inbound_messages := inbound_messages w; agents := agents w; pair_lru := pair_lru w;
     cp_audit := cp_audit w; cp_ticks := cp_ticks w; cp_uuids := cp_uuids w;
     cp_secrets := cp_secrets w |}.
Definition set_pairings (f : list Pairing → list Pairing) (w : CPWorld) : CPWorld :=
  {| pair_tokens := pair_tokens w; pair_attempts := pair_attempts w; pairings := f (pairings w);
     principals := principals w; channel_subjects := channel_subjects w; inbox := inbox w;
     outbox := outbox w; rate_limits := rate_limits w; chat_bindings := chat_bindings w;
     sessions := sessions w; session_agents := session_agents w;
     inbound_messages := inbound_messages w; agents := agents w; pair_lru := pair_lru w;
     cp_audit := cp_audit w; cp_ticks := cp_ticks w; cp_uuids := cp_uuids w;
     cp_secrets := cp_secrets w |}.
Definition set_principals (f : list Principal → list Principal) (w : CPWorld) : CPWorld :=
  {| pair_tokens := pair_tokens w; pair_attempts := pair_attempts w; pairings := pairings w;
     principals := f (principals w); channel_subjects := channel_subjects w; inbox := inbox w;
     outbox := outbox w; rate_limits := rate_limits w; chat_bindings := chat_bindings w;
     sessions := sessions w; session_agents := session_agents w;
     inbound_messages := inbound_messages w; agents := agents w; pair_lru := pair_lru w;
     cp_audit := cp_audit w; cp_ticks := cp_ticks w; cp_uuids := cp_uuids w;
     cp_secrets := cp_secrets w |}.
Definition set_subjects (f : list ChannelSubject → list ChannelSubject) (w : CPWorld) : CPWorld :=
  {| pair_tokens := pair_tokens w; pair_attempts := pair_attempts w; pairings := pairings w;
     principals := principals w; channel_subjects := f (channel_subjects w); inbox := inbox w;
     outbox := outbox w; rate_limits := rate_limits w; chat_bindings := chat_bindings w;
     sessions := sessions w; session_agents := session_agents w;
     inbound_messages := inbound_messages w; agents := agents w; pair_lru := pair_lru w;
     cp_audit := cp_audit w; cp_ticks := cp_ticks w; cp_uuids := cp_uuids w;
     cp_secrets := cp_secrets w |}.
Definition set_inbox (f : list InboxRow → list InboxRow) (w : CPWorld) : CPWorld :=
  {| pair_tokens := pair_tokens w; pair_attempts := pair_attempts w; pairings := pairings w;
     principals := principals w; channel_subjects := channel_subjects w; inbox := f (inbox w);
     outbox := outbox w; rate_limits := rate_limits w; chat_bindings := chat_bindings w;
     sessions := sessions w; session_agents := session_agents w;
     inbound_messages := inbound_messages w; agents := agents w; pair_lru := pair_lru w;
     cp_audit := cp_audit w; cp_ticks := cp_ticks w; cp_uuids := cp_uuids w;
     cp_secrets := cp_secrets w |}.
Definition set_outbox (f : list OutboxRow → list OutboxRow) (w : CPWorld) : CPWorld :=
  {| pair_tokens := pair_tokens w; pair_attempts := pair_attempts w; pairings := pairings w;
     principals := principals w; channel_subjects := channel_subjects w; inbox := inbox w;
     outbox := f (outbox w); rate_limits := rate_limits w; chat_bindings := chat_bindings w;
     sessions := sessions w; session_agents := session_agents w;
     inbound_messages := inbound_messages w; agents := agents w; pair_lru := pair_lru w;
     cp_audit := cp_audit w; cp_ticks := cp_ticks w; cp_uuids := cp_uuids w;
     cp_secrets := cp_secrets w |}.
Definition set_rates (f : list RateRow → list RateRow) (w : CPWorld) : CPWorld :=
  {| pair_tokens := pair_tokens w; pair_attempts := pair_attempts w; pairings := pairings w;
     principals := principals w; channel_subjects := channel_subjects w; inbox := inbox w;
     outbox := outbox w; rate_limits := f (rate_limits w); chat_bindings := chat_bindings w;
     sessions := sessions w; session_agents := session_agents w;
     inbound_messages := inbound_messages w; agents := agents w; pair_lru := pair_lru w;
     cp_audit := cp_audit w; cp_ticks := cp_ticks w; cp_uuids := cp_uuids w;
     cp_secrets := cp_secrets w |}.
Definition set_bindings (f : list ChatBinding → list ChatBinding) (w : CPWorld) : CPWorld :=
  {| pair_tokens := pair_tokens w; pair_attempts := pair_attempts w; pairings := pairings w;
     principals := principals w; channel_subjects := channel_subjects w; inbox := inbox w;
     outbox := outbox w; rate_limits := rate_limits w; chat_bindings := f (chat_bindings w);
     sessions := sessions w; session_agents := session_agents w;
     inbound_messages := inbound_messages w; agents := agents w; pair_lru := pair_lru w;
     cp_audit := cp_audit w; cp_ticks := cp_ticks w; cp_uuids := cp_uuids w;
     cp_secrets := cp_secrets w |}.
Definition set_sessions (f : list SessionRow → list SessionRow) (w : CPWorld) : CPWorld :=
  {| pair_tokens := pair_tokens w; pair_attempts := pair_attempts w; pairings := pairings w;
     principals := principals w; channel_subjects := channel_subjects w; inbox := inbox w;
     outbox := outbox w; rate_limits := rate_limits w; chat_bindings := chat_bindings w;
     sessions := f (sessions w); session_agents := session_agents w;
     inbound_messages := inbound_messages w; agents := agents w; pair_lru := pair_lru w;
     cp_audit := cp_audit w; cp_ticks := cp_ticks w; cp_uuids := cp_uuids w;
     cp_secrets := cp_secrets w |}.
Definition set_session_agents (f : list SessionAgent → list SessionAgent) (w : CPWorld) : CPWorld :=
  {| pair_tokens := pair_tokens w; pair_attempts := pair_attempts w; pairings := pairings w;
     principals := principals w; channel_subjects := channel_subjects w; inbox := inbox w;
     outbox := outbox w; rate_limits := rate_limits w; chat_bindings := chat_bindings w;
     sessions := sessions w; session_agents := f (session_agents w);
     inbound_messages := inbound_messages w; agents := agents w; pair_lru := pair_lru w;
     cp_audit := cp_audit w; cp_ticks := cp_ticks w; cp_uuids := cp_uuids w;
     cp_secrets := cp_secrets w |}.
Definition set_inbound (f : list InboundRow → list InboundRow) (w : CPWorld) : CPWorld :=
  {| pair_tokens := pair_tokens w; pair_attempts := pair_attempts w; pairings := pairings w;
     principals := principals w; channel_subjects := channel_subjects w; inbox := inbox w;
     outbox := outbox w; rate_limits := rate_limits w; chat_bindings := chat_bindings w;
     sessions := sessions w; session_agents := session_agents w;
     inbound_messages := f (inbound_messages w); agents := agents w; pair_lru := pair_lru w;
     cp_audit := cp_audit w; cp_ticks := cp_ticks w; cp_uuids := cp_uuids w;
     cp_secrets := cp_secrets w |}.
Definition set_agents (f : list (string * string) → list (string * string)) (w : CPWorld) : CPWorld :=
  {| pair_tokens := pair_tokens w; pair_attempts := pair_attempts w; pairings := pairings w;
     principals := principals w; channel_subjects := channel_subjects w; inbox := inbox w;
     outbox := outbox w; rate_limits := rate_limits w; chat_bindings := chat_bindings w;
     sessions := sessions w; session_agents := session_agents w;
     inbound_messages := inbound_messages w; agents := f (agents w); pair_lru := pair_lru w;
     cp_audit := cp_audit w; cp_ticks := cp_ticks w; cp_uuids := cp_uuids w;
     cp_secrets := cp_secrets w |}.
Definition set_lru (f : list (string * Z) → list (string * Z)) (w : CPWorld) : CPWorld :=
  {| pair_tokens := pair_tokens w; pair_attempts := pair_attempts w; pairings := pairings w;
     principals := principals w; channel_subjects := channel_subjects w; inbox := inbox w;
     outbox := outbox w; rate_limits := rate_limits w; chat_bindings := chat_bindings w;
     sessions := sessions w; session_agents := session_agents w;
     inbound_messages := inbound_messages w; agents := agents w; pair_lru := f (pair_lru w);
     cp_audit := cp_audit w; cp_ticks := cp_ticks w; cp_uuids := cp_uuids w;
     cp_secrets := cp_secrets w |}.
Definition set_audit (f : list AuditEvent → list AuditEvent) (w : CPWorld) : CPWorld :=
  {| pair_tokens := pair_tokens w; pair_attempts := pair_attempts w; pairings := pairings w;
     principals := principals w; channel_subjects := channel_subjects w; inbox := inbox w;
     outbox := outbox w; rate_limits := rate_limits w; chat_bindings := chat_bindings w;
     sessions := sessions w; session_agents := session_agents w;
     inbound_messages := inbound_messages w; agents := agents w; pair_lru := pair_lru w;
     cp_audit := f (cp_audit w); cp_ticks := cp_ticks w; cp_uuids := cp_uuids w;
     cp_secrets := cp_secrets w |}.
Definition set_counters (t u s : nat) (w : CPWorld) : CPWorld :=
  {| pair_tokens := pair_tokens w; pair_attempts := pair_attempts w; pairings := pairings w;
     principals := principals w; channel_subjects := channel_subjects w; inbox := inbox w;
     outbox := outbox w; rate_limits := rate_limits w; chat_bindings := chat_bindings w;
     sessions := sessions w; session_agents := session_agents w;
     inbound_messages := inbound_messages w; agents := agents w; pair_lru := pair_lru w;
     cp_audit := cp_audit w; cp_ticks := t; cp_uuids := u; cp_secrets := s |}.

Inductive cp_exn : Type :=
| CPPy (e : py_exn)
| CPIntegrityError (msg : string)
| CPRuntimeError (msg : string).
Abbreviation CPM A := (M CPWorld cp_exn A).

Definition cp_value_error {A} (msg : string) : CPM A := raise (CPPy (PyValueError msg)).
Definition lift_py {A} (r : PR A) : CPM A :=
  lift_result (match r with Ok a => Ok a | Raise e => Raise (CPPy e) end).

(** A failed transaction restores the tables, not the clock; the agents and the
    audit log are kept in memory and are not restored. *)
Definition cp_rollback (before after : CPWorld) : CPWorld :=
  set_agents (λ _, agents after) (set_lru (λ _, pair_lru after) (set_audit (λ _, cp_audit after)
    (set_counters (cp_ticks after) (cp_uuids after) (cp_secrets after) before))).
Definition cp_tx {A} (m : CPM A) : CPM A := transaction cp_rollback m.

(** ** Text *)

(** [str(value or "").strip()] *)
Definition stripped (s : string) : string := py_strip s.
(** [s[:n]] *)
Definition str_take (n : nat) (s : string) : string := String.substring 0 n s.
(** [list or default] *)
Definition list_or {A} (l d : list A) : list A := match l with [] => d | _ => l end.
Definition opt_or {A} (o : option (list A)) (d : list A) : list A :=
  match o with Some l => list_or l d | None => d end.
(** [z or d] for an optional integer. *)
Definition int_or (o : option Z) (d : Z) : Z :=
  match o with Some z => if z =? 0 then d else z | None => d end.
(** [[str(s) for s in scopes if str(s).strip()]] *)
Definition nonblank (l : list string) : list string := List.filter (λ s, truthy (py_strip s)) l.
(** [[text for item in l if (text := str(item).strip())]] *)
Definition stripped_nonblank (l : list string) : list string := List.filter truthy (map py_strip l).

(** ** The clock and the generators *)

(** [secrets.token_urlsafe(24)] *)
Class CPEnv := { cp_token_urlsafe : nat → string }.

(** The instant of 1970-01-01 in microseconds of [Timestamps]. *)
Definition unix_epoch : Z := 719162 * us_per_day.
(** [int(dt.timestamp())] *)
Definition unix_seconds (t : Z) : Z := Z.quot (t - unix_epoch) 1000000.

Section Clock.
Context {Env : PyEnv} {Cp : CPEnv}.

(** [datetime.now(timezone.utc)] *)
Definition cp_now : CPM Z := λ w,
  (set_counters (S (cp_ticks w)) (cp_uuids w) (cp_secrets w) w, Ok (py_clock (cp_ticks w))).
(** [uuid.uuid4().hex] *)
Definition cp_uuid : CPM string := λ w,
  (set_counters (cp_ticks w) (S (cp_uuids w)) (cp_secrets w) w, Ok (py_uuid4 (cp_uuids w))).
Definition cp_secret : CPM string := λ w,
  (set_counters (cp_ticks w) (cp_uuids w) (S (cp_secrets w)) w, Ok (cp_token_urlsafe (cp_secrets w))).

Definition iso_now : CPM string := t ← cp_now; mret (isoformat t).
Definition now_ts : CPM Z := t ← cp_now; mret (unix_seconds t).
Definition iso_after (seconds : Z) : CPM string :=
  t ← cp_now; u ← lift_py (dt_add t (Z.max 0 seconds * 1000000)); mret (isoformat u).
Definition iso_ago (seconds : Z) : CPM string :=
  t ← cp_now; u ← lift_py (dt_add t (- (Z.max 0 seconds * 1000000))); mret (isoformat u).
(** [o or uuid.uuid4().hex] *)
Definition uuid_or (o : option string) : CPM string :=
  match o with Some s => if truthy s then mret s else cp_uuid | None => cp_uuid end.
End Clock.

(** ** The audit log *)

(** [emit_audit_event(logger, type, outcome=…, **details)] with a logger. *)
Definition audit (event_type outcome : string) (details : dict) : CPM () :=
  modify (set_audit (λ l, l ++ [{| e_event_type := event_type; e_outcome := outcome;
                                   e_details := details |}])).

(** ** Statements

    Each [UPDATE] returns the number of rows it matched. *)

Definition update_tokens (p : PairToken → bool) (f : PairToken → PairToken) : CPM nat := λ w,
  (set_tokens (update_where p f) w, Ok (count_where p (pair_tokens w))).
Definition update_inbox (p : InboxRow → bool) (f : InboxRow → InboxRow) : CPM nat := λ w,
  (set_inbox (update_where p f) w, Ok (count_where p (inbox w))).
Definition update_outbox (p : OutboxRow → bool) (f : OutboxRow → OutboxRow) : CPM nat := λ w,
  (set_outbox (update_where p f) w, Ok (count_where p (outbox w))).
Definition update_subjects (p : ChannelSubject → bool) (f : ChannelSubject → ChannelSubject) : CPM nat := λ w,
  (set_subjects (update_where p f) w, Ok (count_where p (channel_subjects w))).
Definition update_pairings (p : Pairing → bool) (f : Pairing → Pairing) : CPM nat := λ w,
  (set_pairings (update_where p f) w, Ok (count_where p (pairings w))).

(** [INSERT … ON CONFLICT(key) DO UPDATE]: the rows that match the key are
    changed by [f]; without one the new row is added. *)
Definition upsert {A} (same : A → bool) (f : A → A) (x : A) (l : list A) : list A :=
  if existsb same l then update_where same f l else l ++ [x].
