(* ===== verification/CPPrincipals.v ===== *)
(** The tables of pairing: one-time tokens and attempts
    ([modules/controlplane/storage/pair_tokens.py]), and pairings, principals and
    channel subjects ([storage/principals.py]). *)

From S2P Require Import Prelude PyValue Timestamps PyText Schedule CPTables.
From Stdlib Require Import Ascii.

(** * Pairing tokens and attempts ([modules/controlplane/storage/pair_tokens.py]
    and [pairing/store.py]): issuing, consuming and migrating the one-time tokens
    that pair a chat, and the log of attempts that the rate limit counts. *)

Local Open Scope Z_scope.

(** ** Token text *)

Definition token_char (c : ascii) : bool :=
  let n := N_of_ascii c in
  ((65 <=? n) && (n <=? 90) || (97 <=? n) && (n <=? 122) || (48 <=? n) && (n <=? 57)
   || (n =? 95) || (n =? 45))%N.
(** [re.compile(r"^[A-Za-z0-9_-]{1,64}$").fullmatch(s)] *)
Definition _TOKEN_ALLOWED_RE (s : string) : bool :=
  (1 <=? String.length s)%nat && (String.length s <=? 64)%nat && str_all token_char s.

(** What the callers of [consume_pair_token] receive. *)
Record ConsumeResult := {
  c_ok : bool;
  c_reason : string;
  c_token_hint : string;
  c_token_hash_prefix : string;
  c_scopes : list string;
}.
Record IssueResult := {
  iss_token : string;
  iss_token_hint : string;
  iss_token_hash_prefix : string;
  iss_expires_at_ts : Z;
  iss_scopes : list string;
}.

Section Tokens.
Context {Env : PyEnv} {Cp : CPEnv}.

Definition token_hash (token : string) (pepper : option string) : string :=
  py_sha256_hexdigest (str_or pepper "" +:+ token).

Definition validate_or_generate_token (token : option string) : CPM string :=
  generated ← match token with
              | Some t => if truthy t then mret t else s ← cp_secret; mret (py_rstrip_chars "=" s)
              | None => s ← cp_secret; mret (py_rstrip_chars "=" s)
              end;
  if _TOKEN_ALLOWED_RE generated then mret generated
  else cp_value_error "pair token must match channel-safe charset and length".

(** ** Issuing *)

(** [INSERT INTO cp_pair_tokens]; [token_hash] is the primary key. *)
Definition insert_token (t : PairToken) : CPM () := λ w,
  if existsb (λ t', String.eqb (t_hash t') (t_hash t)) (pair_tokens w)
  then (w, Raise (CPIntegrityError "UNIQUE constraint failed: cp_pair_tokens.token_hash"))
  else (set_tokens (λ l, l ++ [t]) w, Ok ()).

Definition issue_pair_token (channel : string) (expected_account_id expected_chat_key : option string)
    (scopes : list string) (token : option string) (ttl_seconds : Z) (hash_pepper : option string)
    : CPM IssueResult :=
  let normalized_channel := stripped channel in
  if negb (truthy normalized_channel) then cp_value_error "channel is required"
  else
    generated ← validate_or_generate_token token;
    let hashed := token_hash generated hash_pepper in
    now ← now_ts;
    let expires_at_ts := now + Z.max 60 ttl_seconds in
    let scoped := nonblank scopes in
    _ ← cp_tx (insert_token
          {| t_hash := hashed; t_channel := normalized_channel; t_hint := str_take 4 generated;
             t_created_at := now; t_expires_at := expires_at_ts; t_used_at := None;
             t_expected_account := expected_account_id; t_expected_chat := expected_chat_key;
             t_consumer_account := None; t_consumer_chat := None; t_scopes := scoped |});
    mret {| iss_token := generated; iss_token_hint := str_take 4 generated;
            iss_token_hash_prefix := str_take 12 hashed; iss_expires_at_ts := expires_at_ts;
            iss_scopes := scoped |}.

(** ** Consuming *)

Definition _pair_token_failure (reason token_hint hashed : string) : ConsumeResult :=
  {| c_ok := false; c_reason := reason; c_token_hint := token_hint;
     c_token_hash_prefix := str_take 12 hashed; c_scopes := [] |}.

Definition _pair_expected_mismatch (row : PairToken) (account chat : string) : string :=
  if match t_expected_account row with Some e => negb (String.eqb e account) | None => false end
  then "user_mismatch"
  else if match t_expected_chat row with Some e => negb (String.eqb e chat) | None => false end
  then "chat_mismatch"
  else "".

Definition is_token (hashed channel : string) (t : PairToken) : bool :=
  String.eqb (t_hash t) hashed && String.eqb (t_channel t) channel.
(** [WHERE token_hash = ? AND channel = ? AND used_at_ts IS NULL AND expires_at_ts >= ?] *)
Definition token_usable (hashed channel : string) (now : Z) (t : PairToken) : bool :=
  is_token hashed channel t && match t_used_at t with None => true | Some _ => false end
  && (now <=? t_expires_at t).
Definition token_use (now : Z) (account chat : string) (t : PairToken) : PairToken :=
  {| t_hash := t_hash t; t_channel := t_channel t; t_hint := t_hint t;
     t_created_at := t_created_at t; t_expires_at := t_expires_at t; t_used_at := Some now;
     t_expected_account := t_expected_account t; t_expected_chat := t_expected_chat t;
     t_consumer_account := Some account; t_consumer_chat := Some chat; t_scopes := t_scopes t |}.

Definition consume_pair_token (channel token consumer_account_id consumer_chat_key : string)
    (hash_pepper : option string) : CPM ConsumeResult :=
  let normalized_channel := stripped channel in
  let hashed := token_hash token hash_pepper in
  now ← now_ts;
  cp_tx (
    w ← get_world;
    match List.find (is_token hashed normalized_channel) (pair_tokens w) with
    | None => mret (_pair_token_failure "invalid_token" (str_take 4 token) hashed)
    | Some row =>
        let token_hint := str_or (Some (t_hint row)) (str_take 4 token) in
        match t_used_at row with
        | Some _ => mret (_pair_token_failure "already_used" token_hint hashed)
        | None =>
            if t_expires_at row <? now
            then mret (_pair_token_failure "expired_token" token_hint hashed)
            else
              let mismatch := _pair_expected_mismatch row consumer_account_id consumer_chat_key in
              if truthy mismatch then mret (_pair_token_failure mismatch token_hint hashed)
              else
                changed ← update_tokens (token_usable hashed normalized_channel now)
                            (token_use now consumer_account_id consumer_chat_key);
                if negb (changed =? 1)%nat
                then mret (_pair_token_failure "token_race" (str_take 4 token) hashed)
                else mret {| c_ok := true; c_reason := "paired"; c_token_hint := token_hint;
                             c_token_hash_prefix := str_take 12 hashed;
                             c_scopes := stripped_nonblank (t_scopes row) |}
        end
    end).

(** ** Attempts *)

Definition count_recent_pair_attempts (channel account_id : string) (since_ts : Z) : CPM Z :=
  gets (λ w, Z.of_nat (count_where (λ a, String.eqb (a_channel a) channel
    && String.eqb (a_account_id a) account_id && (since_ts <=? a_attempted_at a)) (pair_attempts w))).
Definition count_recent_pair_attempts_for_chat (channel chat_key : string) (since_ts : Z) : CPM Z :=
  gets (λ w, Z.of_nat (count_where (λ a, String.eqb (a_channel a) channel
    && ostr_eqb (a_chat_key a) (Some chat_key) && (since_ts <=? a_attempted_at a)) (pair_attempts w))).

Definition record_pair_attempt (channel account_id : string) (chat_key : option string)
    (token outcome : string) (hash_pepper : option string) (detail : dict) : CPM () :=
  now ← now_ts;
  modify (set_attempts (λ l, l ++
    [{| a_channel := channel; a_account_id := account_id; a_chat_key := chat_key;
        a_attempted_at := now; a_token_hash_prefix := str_take 12 (token_hash token hash_pepper);
        a_outcome := outcome; a_detail := detail |}])).

(** ** Migration from the channel's own store *)

Definition has_pair_channel_data (channel : string) : CPM bool :=
  gets (λ w, existsb (λ t, String.eqb (t_channel t) channel) (pair_tokens w)).

(** A row of the old store: a mapping whose entries may be missing. *)
Record LegacyTokenRow := {
  lt_token_hash : string;
  lt_channel : option string;
  lt_token_hint : option string;
  lt_created_at_ts : option Z;
  lt_expires_at_ts : option Z;
  lt_used_at_ts : option Z;
  lt_expected_account_id : option string;
  lt_expected_user_id : option Z;
  lt_expected_chat_key : option string;
  lt_expected_chat_id : option Z;
  lt_consumer_account_id : option string;
  lt_consumer_chat_key : option string;
  lt_scopes : list string;
}.
Record LegacyAttemptRow := {
  la_channel : option string;
  la_account_id : option string;
  la_user_id : option Z;
  la_chat_key : option string;
  la_chat_id : option Z;
  la_attempted_at_ts : option Z;
  la_token_hash_prefix : option string;
  la_outcome : option string;
  la_detail : dict;
}.

(** [int(o or now_ts())]: the clock is read only when [o] is missing or zero. *)
Definition int_or_now (o : option Z) : CPM Z :=
  if int_or o 0 =? 0 then now_ts else mret (int_or o 0).
(** [key], or the text of the numeric id, when it is missing. *)
Definition key_or_id (key : option string) (prefix : string) (id : option Z) : option string :=
  match key, id with
  | None, Some n => Some (prefix +:+ pretty n)
  | _, _ => key
  end.

Fixpoint bulk_insert_token_rows (rows : list LegacyTokenRow) : CPM Z :=
  match rows with
  | [] => mret 0
  | row :: rest =>
      created ← int_or_now (lt_created_at_ts row);
      let t := {| t_hash := lt_token_hash row; t_channel := str_or (lt_channel row) "telegram";
                  t_hint := str_or (lt_token_hint row) (str_take 4 (lt_token_hash row));
                  t_created_at := created; t_expires_at := int_or (lt_expires_at_ts row) 0;
                  t_used_at := lt_used_at_ts row;
                  t_expected_account := key_or_id (lt_expected_account_id row) "telegram-bot:user:"
                                          (lt_expected_user_id row);
                  t_expected_chat := key_or_id (lt_expected_chat_key row) "telegram-bot:chat:"
                                       (lt_expected_chat_id row);
                  t_consumer_account := lt_consumer_account_id row;
                  t_consumer_chat := lt_consumer_chat_key row;
                  t_scopes := stripped_nonblank (lt_scopes row) |} in
      w ← get_world;
      let dup := existsb (λ t', String.eqb (t_hash t') (t_hash t)) (pair_tokens w) in
      _ ← (if dup then mret () else modify (set_tokens (λ l, l ++ [t])));
      copied ← bulk_insert_token_rows rest;
      mret ((if dup then 0 else 1) + copied)
  end.
Definition bulk_insert_pair_tokens (rows : list LegacyTokenRow) : CPM Z :=
  cp_tx (bulk_insert_token_rows rows).

Fixpoint bulk_insert_attempt_rows (rows : list LegacyAttemptRow) : CPM Z :=
  match rows with
  | [] => mret 0
  | row :: rest =>
      at_ts ← int_or_now (la_attempted_at_ts row);
      _ ← modify (set_attempts (λ l, l ++
            [{| a_channel := str_or (la_channel row) "telegram";
                a_account_id := str_or (key_or_id (la_account_id row) "telegram-bot:user:"
                                          (la_user_id row)) "";
                a_chat_key := key_or_id (la_chat_key row) "telegram-bot:chat:" (la_chat_id row);
                a_attempted_at := at_ts; a_token_hash_prefix := str_or (la_token_hash_prefix row) "";
                a_outcome := str_or (la_outcome row) "unknown"; a_detail := la_detail row |}]));
      copied ← bulk_insert_attempt_rows rest;
      mret (1 + copied)
  end.
Definition bulk_insert_pair_attempts (rows : list LegacyAttemptRow) : CPM Z :=
  cp_tx (bulk_insert_attempt_rows rows).

(** [PairingMigrationJob.run_once] with a legacy store that lists [tokens] and
    [attempts]. *)
Definition run_migration (channel : string) (tokens : list LegacyTokenRow)
    (attempts : list LegacyAttemptRow) : CPM (Z * Z * Z) :=
  present ← has_pair_channel_data channel;
  if (present : bool) then mret (0, 0, 1)
  else
    tokens_copied ← bulk_insert_pair_tokens tokens;
    attempts_copied ← bulk_insert_pair_attempts attempts;
    _ ← (if negb (tokens_copied =? 0) || negb (attempts_copied =? 0)
         then audit "cp.pairing.migration.completed" "ok"
                [("channel", PStr channel); ("tokens_copied", PInt tokens_copied);
                 ("attempts_copied", PInt attempts_copied)]
         else mret ());
    mret (tokens_copied, attempts_copied, 0).
End Tokens.

(** * Pairings, principals and channel subjects: which chat is bound to which
    principal, with which status and scopes.  The references of
    [cp_channel_subjects] to [cp_principals] are taken to hold: every method that
    writes a binding first writes or looks up its principal. *)

(** [_scopes_json] stores [list(scopes or ())]; [_scopes_list] reads it. *)
Definition _scopes_json (scopes : option (list string)) : list string := default [] scopes.
Definition _scopes_list (stored : list string) : list string := nonblank stored.

Definition _binding_meta (source : string) (user_id session_id : string) : dict :=
  [("session_id", PStr session_id); ("source", PStr source); ("user_id", PStr user_id)].

Definition is_pairing (channel chat_id : string) (p : Pairing) : bool :=
  String.eqb (p_channel p) channel && String.eqb (p_chat_id p) chat_id.
Definition is_subject (channel subject_id : string) (c : ChannelSubject) : bool :=
  String.eqb (cs_channel c) channel && String.eqb (cs_subject_id c) subject_id.

(** [_existing_created_at] of the subject row, if there is one. *)
Definition _existing_created_at (w : CPWorld) (channel subject_id fallback : string) : string :=
  match List.find (is_subject channel subject_id) (channel_subjects w) with
  | Some c => cs_created_at c
  | None => fallback
  end.

Section Principals.
Context {Env : PyEnv}.

Definition _upsert_principal_row (principal_id created_at updated_at : string)
    (meta_json : option dict) : CPM () :=
  modify (set_principals (upsert (λ p, String.eqb (pr_id p) principal_id)
    (λ p, {| pr_id := pr_id p; pr_created_at := pr_created_at p; pr_updated_at := updated_at;
             pr_meta := default (pr_meta p) meta_json |})
    {| pr_id := principal_id; pr_created_at := created_at; pr_updated_at := updated_at;
       pr_meta := default [] meta_json |})).

Definition subject_rebind (principal_id status : string) (scopes : list string)
    (note : option string) (last_seen_at : string) (meta : dict) (c : ChannelSubject) : ChannelSubject :=
  {| cs_principal_id := principal_id; cs_channel := cs_channel c; cs_subject_id := cs_subject_id c;
     cs_status := status; cs_scopes := scopes; cs_note := note; cs_created_at := cs_created_at c;
     cs_last_seen_at := last_seen_at; cs_meta := meta |}.
Definition _upsert_channel_subject (principal_id channel subject_id status : string)
    (scopes_json : list string) (note : option string) (created_at last_seen_at : string)
    (meta_json : dict) : CPM () :=
  modify (set_subjects (upsert (is_subject channel subject_id)
    (subject_rebind principal_id status scopes_json note last_seen_at meta_json)
    {| cs_principal_id := principal_id; cs_channel := channel; cs_subject_id := subject_id;
       cs_status := status; cs_scopes := scopes_json; cs_note := note; cs_created_at := created_at;
       cs_last_seen_at := last_seen_at; cs_meta := meta_json |})).

(** ** Pairings *)

Definition pairing_rebind (user_id session_id last_seen_at status : string) (scopes : list string)
    (note : option string) (p : Pairing) : Pairing :=
  {| p_pairing_id := p_pairing_id p; p_channel := p_channel p; p_chat_id := p_chat_id p;
     p_user_id := user_id; p_session_id := session_id; p_created_at := p_created_at p;
     p_last_seen_at := last_seen_at; p_status := status; p_scopes := scopes; p_note := note |}.

(** [INSERT INTO cp_pairings … ON CONFLICT(channel, chat_id) DO UPDATE]; the
    primary key [pairing_id] is not covered by the clause. *)
Definition upsert_pairing_row (p : Pairing) : CPM () := λ w,
  if existsb (is_pairing (p_channel p) (p_chat_id p)) (pairings w)
  then (set_pairings (update_where (is_pairing (p_channel p) (p_chat_id p))
          (pairing_rebind (p_user_id p) (p_session_id p) (p_last_seen_at p) (p_status p)
             (p_scopes p) (p_note p))) w, Ok ())
  else if existsb (λ q, String.eqb (p_pairing_id q) (p_pairing_id p)) (pairings w)
  then (w, Raise (CPIntegrityError "UNIQUE constraint failed: cp_pairings.pairing_id"))
  else (set_pairings (λ l, l ++ [p]) w, Ok ()).

Definition upsert_pairing (channel chat_id user_id session_id : string) (status : option string)
    (scopes : option (list string)) (note pairing_id : option string) : CPM string :=
  let active := str_or status PRINCIPAL_BINDING_STATUS_ACTIVE in
  pid ← uuid_or pairing_id;
  now ← iso_now;
  let scopes_json := _scopes_json scopes in
  cp_tx (
    _ ← upsert_pairing_row
          {| p_pairing_id := pid; p_channel := channel; p_chat_id := chat_id; p_user_id := user_id;
             p_session_id := session_id; p_created_at := now; p_last_seen_at := now;
             p_status := active; p_scopes := scopes_json; p_note := note |};
    w ← get_world;
    let resolved_pid := match List.find (is_pairing channel chat_id) (pairings w) with
                        | Some p => p_pairing_id p
                        | None => pid
                        end in
    _ ← _upsert_principal_row resolved_pid now now None;
    w ← get_world;
    let created_at := _existing_created_at w channel chat_id now in
    _ ← _upsert_channel_subject resolved_pid channel chat_id active scopes_json note created_at now
          (_binding_meta "cp_pairings_dual_write" user_id session_id);
    mret resolved_pid).

Definition pairing_active (p : Pairing) : bool := String.eqb (p_status p) PRINCIPAL_BINDING_STATUS_ACTIVE.

(** The row and its [scopes] entry. *)
Definition get_pairing (channel chat_id : string) : CPM (option (Pairing * list string)) :=
  gets (λ w, match List.find (λ p, is_pairing channel chat_id p && pairing_active p) (pairings w) with
             | Some p => Some (p, _scopes_list (p_scopes p))
             | None => None
             end).

Definition list_pairings (channel : option string) (limit : Z) : CPM (list (Pairing * list string)) :=
  gets (λ w, map (λ p, (p, _scopes_list (p_scopes p))) (limit_rows (Z.max 1 limit)
    (sort_desc p_last_seen_at (List.filter (λ p, pairing_active p
       && if otruthy channel then String.eqb (p_channel p) (default "" channel) else true)
       (pairings w))))).

Definition pairing_seen (now : string) (p : Pairing) : Pairing :=
  {| p_pairing_id := p_pairing_id p; p_channel := p_channel p; p_chat_id := p_chat_id p;
     p_user_id := p_user_id p; p_session_id := p_session_id p; p_created_at := p_created_at p;
     p_last_seen_at := now; p_status := p_status p; p_scopes := p_scopes p; p_note := p_note p |}.
Definition subject_seen (now : string) (c : ChannelSubject) : ChannelSubject :=
  {| cs_principal_id := cs_principal_id c; cs_channel := cs_channel c; cs_subject_id := cs_subject_id c;
     cs_status := cs_status c; cs_scopes := cs_scopes c; cs_note := cs_note c;
     cs_created_at := cs_created_at c; cs_last_seen_at := now; cs_meta := cs_meta c |}.

Definition touch_pairing (channel chat_id : string) : CPM () :=
  now ← iso_now;
  cp_tx (
    _ ← update_pairings (λ p, is_pairing channel chat_id p && pairing_active p) (pairing_seen now);
    _ ← update_subjects (is_subject channel chat_id) (subject_seen now);
    mret ()).

Record BackfillCounts := {
  bf_scanned : Z;
  bf_principal_new : Z;
  bf_subject_new : Z;
  bf_subject_updated : Z;
}.

(** One pairing of the backfill; the texts are not null, so that [or] takes them
    unless they are empty. *)
Definition text_or_now (s : string) : CPM string := if truthy s then mret s else iso_now.
Definition backfill_row (counts : BackfillCounts) (p : Pairing) : CPM BackfillCounts :=
  w ← get_world;
  let principal_exists := existsb (λ q, String.eqb (pr_id q) (p_pairing_id p)) (principals w) in
  created ← text_or_now (p_created_at p);
  updated ← iso_now;
  _ ← _upsert_principal_row (p_pairing_id p) created updated None;
  w ← get_world;
  let existing := existsb (is_subject (p_channel p) (p_chat_id p)) (channel_subjects w) in
  fallback ← text_or_now (p_created_at p);
  last_seen ← text_or_now (p_last_seen_at p);
  _ ← _upsert_channel_subject (p_pairing_id p) (p_channel p) (p_chat_id p)
        (str_or (Some (p_status p)) PRINCIPAL_BINDING_STATUS_ACTIVE) (p_scopes p) (p_note p)
        (_existing_created_at w (p_channel p) (p_chat_id p) fallback) last_seen
        (_binding_meta "cp_pairings_backfill" (p_user_id p) (p_session_id p));
  mret {| bf_scanned := bf_scanned counts + 1;
          bf_principal_new := bf_principal_new counts + (if principal_exists then 0 else 1);
          bf_subject_new := bf_subject_new counts + (if existing then 0 else 1);
          bf_subject_updated := bf_subject_updated counts + (if existing then 1 else 0) |}.
Fixpoint backfill_rows (counts : BackfillCounts) (rows : list Pairing) : CPM BackfillCounts :=
  match rows with
  | [] => mret counts
  | p :: rest => counts' ← backfill_row counts p; backfill_rows counts' rest
  end.
Definition backfill_pairings_to_principals (channel status : option string) (limit : option Z)
    : CPM BackfillCounts :=
  let active := str_or status PRINCIPAL_BINDING_STATUS_ACTIVE in
  cp_tx (
    w ← get_world;
    let rows := sort_asc p_created_at (List.filter (λ p, String.eqb (p_status p) active
                  && match channel with Some c => String.eqb (p_channel p) c | None => true end)
                  (pairings w)) in
    backfill_rows {| bf_scanned := 0; bf_principal_new := 0; bf_subject_new := 0; bf_subject_updated := 0 |}
      match limit with Some n => limit_rows (Z.max 1 n) rows | None => rows end).

(** ** Principals and their subjects *)

Definition upsert_principal (principal_id : option string) (meta : option dict) : CPM string :=
  raw ← uuid_or principal_id;
  let pid := py_strip raw in
  if negb (truthy pid) then cp_value_error "principal_id must be non-empty"
  else
    now ← iso_now;
    _ ← cp_tx (_upsert_principal_row pid now now meta);
    mret pid.

Definition bind_principal_subject (principal_id channel subject_id : string) (status : option string)
    (scopes : option (list string)) (note : option string) (meta : option dict) : CPM () :=
  let active := str_or status PRINCIPAL_BINDING_STATUS_ACTIVE in
  let pid := stripped principal_id in
  let chan := stripped channel in
  let sub := stripped subject_id in
  if negb (truthy pid) then cp_value_error "principal_id must be non-empty"
  else if negb (truthy chan) || negb (truthy sub)
  then cp_value_error "channel and subject_id must be non-empty"
  else
    now ← iso_now;
    cp_tx (
      w ← get_world;
      if negb (existsb (λ p, String.eqb (pr_id p) pid) (principals w))
      then cp_value_error ("principal_id not found: " +:+ pid)
      else
        _upsert_channel_subject pid chan sub active (_scopes_json scopes) note
          (_existing_created_at w chan sub now) now (default [] meta)).

Definition subject_active (c : ChannelSubject) : bool :=
  String.eqb (cs_status c) PRINCIPAL_BINDING_STATUS_ACTIVE.

Definition resolve_principal (channel subject_id : string) : CPM (option string) :=
  let chan := stripped channel in
  let sub := stripped subject_id in
  if negb (truthy chan) || negb (truthy sub) then mret None
  else gets (λ w,
    match List.find (λ c, is_subject chan sub c && subject_active c) (channel_subjects w) with
    | Some c => let pid := py_strip (cs_principal_id c) in if truthy pid then Some pid else None
    | None => None
    end).

(** [_normalize_binding_row] adds the [scopes] and [meta] of the row. *)
Definition _normalize_binding_row (c : ChannelSubject) : ChannelSubject * list string :=
  (c, _scopes_list (cs_scopes c)).

Definition get_channel_subject (channel subject_id : string) : CPM (option (ChannelSubject * list string)) :=
  let chan := stripped channel in
  let sub := stripped subject_id in
  if negb (truthy chan) || negb (truthy sub) then mret None
  else gets (λ w, option_map _normalize_binding_row
                    (List.find (is_subject chan sub) (channel_subjects w))).

Definition list_channel_subjects (channel status : option string) (limit : Z)
    : CPM (list (ChannelSubject * list string)) :=
  let chan := py_strip (str_or channel "") in
  let state := py_strip (str_or status "") in
  gets (λ w, map _normalize_binding_row (limit_rows (Z.max 1 limit) (sort_desc cs_last_seen_at
    (List.filter (λ c, (if truthy chan then String.eqb (cs_channel c) chan else true)
                       && (if truthy state then String.eqb (cs_status c) state else true))
       (channel_subjects w))))).

Definition subject_update (status : option string) (scopes : option (list string))
    (note : option string) (now : string) (c : ChannelSubject) : ChannelSubject :=
  {| cs_principal_id := cs_principal_id c; cs_channel := cs_channel c; cs_subject_id := cs_subject_id c;
     cs_status := default (cs_status c) status; cs_scopes := default (cs_scopes c) scopes;
     cs_note := match note with Some n => Some n | None => cs_note c end;
     cs_created_at := cs_created_at c; cs_last_seen_at := now; cs_meta := cs_meta c |}.
Definition pairing_update (status : option string) (scopes : option (list string))
    (note : option string) (now : string) (p : Pairing) : Pairing :=
  {| p_pairing_id := p_pairing_id p; p_channel := p_channel p; p_chat_id := p_chat_id p;
     p_user_id := p_user_id p; p_session_id := p_session_id p; p_created_at := p_created_at p;
     p_last_seen_at := now; p_status := default (p_status p) status;
     p_scopes := default (p_scopes p) scopes;
     p_note := match note with Some n => Some n | None => p_note p end |}.

Definition update_channel_subject (channel subject_id : string) (status : option string)
    (scopes : option (list string)) (note : option string) : CPM bool :=
  let chan := stripped channel in
  let sub := stripped subject_id in
  if negb (truthy chan) || negb (truthy sub) then mret false
  else
    now ← iso_now;
    cp_tx (
      changed ← update_subjects (is_subject chan sub) (subject_update status scopes note now);
      _ ← update_pairings (is_pairing chan sub) (pairing_update status scopes note now);
      mret (0 <? changed)%nat).

Definition touch_channel_subject (channel subject_id : string) : CPM () :=
  let chan := stripped channel in
  let sub := stripped subject_id in
  if negb (truthy chan) || negb (truthy sub) then mret ()
  else
    cp_tx (
      now ← iso_now;
      _ ← update_subjects (is_subject chan sub) (subject_seen now);
      mret ()).
End Principals.
