(* ===== verification/CPQueues.v ===== *)
(** The queues and the sessions of the control plane: the durable inbox and outbox
    ([modules/controlplane/storage/inbox_outbox.py]), in which messages are
    deduplicated on arrival, claimed by workers under a lock that expires, retried
    with an exponential backoff and set aside as dead; and sessions, chat bindings,
    messages and rate limits ([storage/store.py]). *)

From S2P Require Import Prelude PyValue Timestamps PyText Schedule CPTables.
From Stdlib Require Import Ascii.

Local Open Scope Z_scope.

(** [min(max_backoff_s, 2 ** max(0, attempts - 1))] *)
Definition retry_delay (max_backoff_s attempts : Z) : Z :=
  Z.min max_backoff_s (2 ^ Z.max 0 (attempts - 1)).

(** ** Rows *)

Definition inbox_mark (status : string) (error : option string) (attempts : Z) (next_attempt_at : string)
    (locked_at lock_owner : option string) (r : InboxRow) : InboxRow :=
  {| i_inbox_id := i_inbox_id r; i_channel := i_channel r; i_chat_id := i_chat_id r;
     i_channel_message_id := i_channel_message_id r; i_user_id := i_user_id r;
     i_thread_id := i_thread_id r; i_received_at := i_received_at r; i_payload := i_payload r;
     i_status := status; i_error := error; i_attempts := attempts;
     i_next_attempt_at := next_attempt_at; i_locked_at := locked_at; i_lock_owner := lock_owner |}.
Definition outbox_mark (status : string) (error : option string) (attempts : Z) (next_attempt_at : string)
    (locked_at lock_owner : option string) (r : OutboxRow) : OutboxRow :=
  {| o_outbox_id := o_outbox_id r; o_channel := o_channel r; o_chat_id := o_chat_id r;
     o_thread_id := o_thread_id r; o_reply_to := o_reply_to r; o_payload := o_payload r;
     o_status := status; o_created_at := o_created_at r; o_next_attempt_at := next_attempt_at;
     o_attempts := attempts; o_last_error := error; o_lock_owner := lock_owner;
     o_locked_at := locked_at |}.

Definition has_inbox_id (id : string) (r : InboxRow) : bool := String.eqb (i_inbox_id r) id.
Definition has_outbox_id (id : string) (r : OutboxRow) : bool := String.eqb (o_outbox_id r) id.
(** The key of [UNIQUE(channel, chat_id, channel_message_id)]. *)
Definition same_message (channel chat_id message_id : string) (r : InboxRow) : bool :=
  String.eqb (i_channel r) channel && String.eqb (i_chat_id r) chat_id
  && String.eqb (i_channel_message_id r) message_id.

Definition inbox_waiting (r : InboxRow) : bool := str_in (i_status r) ["new"; "failed"].
Definition outbox_waiting (r : OutboxRow) : bool := str_in (o_status r) ["pending"; "failed"].

(** [status = s AND locked_at IS NOT NULL AND locked_at < cutoff] *)
Definition lock_expired (cutoff : string) (locked_at : option string) : bool :=
  match locked_at with Some t => str_ltb t cutoff | None => false end.
Definition inbox_stale (cutoff : string) (r : InboxRow) : bool :=
  String.eqb (i_status r) "processing" && lock_expired cutoff (i_locked_at r).
Definition outbox_stale (cutoff : string) (r : OutboxRow) : bool :=
  String.eqb (o_status r) "sending" && lock_expired cutoff (o_locked_at r).

Definition inbox_reclaim (r : InboxRow) : InboxRow :=
  inbox_mark "new" (i_error r) (i_attempts r) (i_next_attempt_at r) None None r.
Definition outbox_reclaim (r : OutboxRow) : OutboxRow :=
  outbox_mark "pending" (o_last_error r) (o_attempts r) (o_next_attempt_at r) None None r.
Definition inbox_take (owner now : string) (r : InboxRow) : InboxRow :=
  inbox_mark "processing" (i_error r) (i_attempts r + 1) (i_next_attempt_at r) (Some now) (Some owner) r.
Definition outbox_take (owner now : string) (r : OutboxRow) : OutboxRow :=
  outbox_mark "sending" (o_last_error r) (o_attempts r + 1) (o_next_attempt_at r) (Some now) (Some owner) r.

(** [… WHERE status IN (…) AND next_attempt_at <= now ORDER BY … LIMIT 1] *)
Definition next_inbox (w : CPWorld) (now : string) : option InboxRow :=
  head (sort_asc i_received_at
    (List.filter (λ r, inbox_waiting r && str_leb (i_next_attempt_at r) now) (inbox w))).
Definition next_outbox (w : CPWorld) (now : string) : option OutboxRow :=
  head (sort_asc o_created_at
    (List.filter (λ r, outbox_waiting r && str_leb (o_next_attempt_at r) now) (outbox w))).

Section Queues.
Context {Env : PyEnv}.

(** ** Inbox *)

(** [INSERT INTO cp_inbox … ON CONFLICT(channel, chat_id, channel_message_id) DO
    NOTHING]; [inbox_id] is the primary key. *)
Definition insert_inbox (r : InboxRow) : CPM nat := λ w,
  if existsb (has_inbox_id (i_inbox_id r)) (inbox w)
     && negb (existsb (same_message (i_channel r) (i_chat_id r) (i_channel_message_id r)) (inbox w))
  then (w, Raise (CPIntegrityError "UNIQUE constraint failed: cp_inbox.inbox_id"))
  else if existsb (same_message (i_channel r) (i_chat_id r) (i_channel_message_id r)) (inbox w)
  then (w, Ok 0%nat)
  else (set_inbox (λ l, l ++ [r]) w, Ok 1%nat).

Definition enqueue_inbox (channel chat_id channel_message_id user_id : string) (payload : dict)
    (thread_id inbound_id : option string) : CPM (string * bool) :=
  inbox_id ← uuid_or inbound_id;
  now ← iso_now;
  cp_tx (
    inserted ← insert_inbox
      {| i_inbox_id := inbox_id; i_channel := channel; i_chat_id := chat_id;
         i_channel_message_id := channel_message_id; i_user_id := user_id; i_thread_id := thread_id;
         i_received_at := now; i_payload := payload; i_status := "new"; i_error := None;
         i_attempts := 0; i_next_attempt_at := now; i_locked_at := None; i_lock_owner := None |};
    if (inserted =? 1)%nat then mret (inbox_id, true)
    else gets (λ w, (match List.find (same_message channel chat_id channel_message_id) (inbox w) with
                     | Some r => i_inbox_id r
                     | None => inbox_id
                     end, false))).

Definition claim_inbox (lock_owner : string) (reclaim_ttl_s : Z) : CPM (option InboxRow) :=
  now ← iso_now;
  cp_tx (
    cutoff ← iso_ago reclaim_ttl_s;
    _ ← update_inbox (inbox_stale cutoff) inbox_reclaim;
    w ← get_world;
    match next_inbox w now with
    | None => mret None
    | Some row =>
        count ← update_inbox (λ r, has_inbox_id (i_inbox_id row) r && inbox_waiting r)
                  (inbox_take lock_owner now);
        if negb (count =? 1)%nat then mret None
        else gets (λ w, List.find (has_inbox_id (i_inbox_id row)) (inbox w))
    end).

Definition ack_inbox (inbox_id : string) : CPM () :=
  cp_tx (_ ← update_inbox (has_inbox_id inbox_id)
               (λ r, inbox_mark "done" None (i_attempts r) (i_next_attempt_at r) None None r);
         mret ()).
Definition fail_inbox (inbox_id error : string) : CPM () :=
  cp_tx (_ ← update_inbox (has_inbox_id inbox_id)
               (λ r, inbox_mark "failed" (Some (str_take 2000 error)) (i_attempts r)
                       (i_next_attempt_at r) None None r);
         mret ()).

Definition mark_inbox_retry (inbox_id error : string) (max_attempts max_backoff_s : Z) : CPM string :=
  cp_tx (
    w ← get_world;
    let attempts := match List.find (has_inbox_id inbox_id) (inbox w) with
                    | Some r => i_attempts r
                    | None => 0
                    end in
    if max_attempts <=? attempts then
      _ ← update_inbox (has_inbox_id inbox_id)
            (λ r, inbox_mark "dead" (Some (str_take 2000 error)) (i_attempts r)
                    (i_next_attempt_at r) None None r);
      mret "dead"
    else
      next ← iso_after (retry_delay max_backoff_s attempts);
      _ ← update_inbox (has_inbox_id inbox_id)
            (λ r, inbox_mark "failed" (Some (str_take 2000 error)) (i_attempts r) next None None r);
      mret "retry").

Definition get_inbox (inbox_id : string) : CPM (option InboxRow) :=
  gets (λ w, List.find (has_inbox_id inbox_id) (inbox w)).

(** ** Outbox *)

Definition enqueue_outbox (channel chat_id : string) (payload : dict)
    (thread_id reply_to outbox_id : option string) : CPM string :=
  oid ← uuid_or outbox_id;
  now ← iso_now;
  let row := {| o_outbox_id := oid; o_channel := channel; o_chat_id := chat_id;
                o_thread_id := thread_id; o_reply_to := reply_to; o_payload := payload;
                o_status := "pending"; o_created_at := now; o_next_attempt_at := now;
                o_attempts := 0; o_last_error := None; o_lock_owner := None; o_locked_at := None |} in
  _ ← cp_tx (modify (set_outbox (upsert (has_outbox_id oid) (λ _, row) row)));
  mret oid.

Definition claim_outbox (lock_owner : string) (reclaim_ttl_s : Z) : CPM (option OutboxRow) :=
  now ← iso_now;
  cp_tx (
    cutoff ← iso_ago reclaim_ttl_s;
    _ ← update_outbox (outbox_stale cutoff) outbox_reclaim;
    w ← get_world;
    match next_outbox w now with
    | None => mret None
    | Some row =>
        count ← update_outbox (λ r, has_outbox_id (o_outbox_id row) r && outbox_waiting r)
                  (outbox_take lock_owner now);
        if negb (count =? 1)%nat then mret None
        else gets (λ w, List.find (has_outbox_id (o_outbox_id row)) (outbox w))
    end).

Definition mark_outbox_sent (outbox_id : string) : CPM () :=
  cp_tx (_ ← update_outbox (has_outbox_id outbox_id)
               (λ r, outbox_mark "sent" None (o_attempts r) (o_next_attempt_at r) None None r);
         mret ()).

Definition mark_outbox_retry (outbox_id error : string) (max_attempts max_backoff_s : Z) : CPM string :=
  cp_tx (
    w ← get_world;
    let attempts := match List.find (has_outbox_id outbox_id) (outbox w) with
                    | Some r => o_attempts r
                    | None => 0
                    end in
    if max_attempts <=? attempts then
      _ ← update_outbox (has_outbox_id outbox_id)
            (λ r, outbox_mark "dead" (Some (str_take 2000 error)) (o_attempts r)
                    (o_next_attempt_at r) None None r);
      mret "dead"
    else
      next ← iso_after (retry_delay max_backoff_s attempts);
      _ ← update_outbox (has_outbox_id outbox_id)
            (λ r, outbox_mark "failed" (Some (str_take 2000 error)) (o_attempts r) next None None r);
      mret "retry").

Definition get_outbox (outbox_id : string) : CPM (option OutboxRow) :=
  gets (λ w, List.find (has_outbox_id outbox_id) (outbox w)).
End Queues.

(** * Sessions, chat bindings, agents, messages and rate limits of the control
    plane store ([modules/controlplane/storage/store.py]).  Reads that the code
    runs outside a transaction are part of the method, which holds the store's
    lock while it writes. *)

Definition has_session_id (sid : string) (s : SessionRow) : bool := String.eqb (s_session_id s) sid.
Definition has_chat_key (key : string) (b : ChatBinding) : bool := String.eqb (b_chat_key b) key.
Definition of_session (sid : string) (a : SessionAgent) : bool := String.eqb (sa_session_id a) sid.

(** The agents a store starts with. *)
Definition initial_agents : list (string * string) :=
  [("agent:default", "Default Agent"); ("agent:brain", "Brain Agent")].

Section Sessions.
Context {Env : PyEnv}.

(** ** Sessions *)

(** [COALESCE(a, b)] *)
Definition coalesce (a b : option string) : option string := match a with Some _ => a | None => b end.
Definition session_touch (user_key chat_key : option string) (now : string) (s : SessionRow) : SessionRow :=
  {| s_session_id := s_session_id s; s_user_key := coalesce (s_user_key s) user_key;
     s_chat_key := coalesce (s_chat_key s) chat_key; s_title := s_title s;
     s_created_at := s_created_at s; s_updated_at := now |}.
Definition _ensure_session_locked (session_id : string) (user_key chat_key : option string) : CPM () :=
  now ← iso_now;
  modify (set_sessions (upsert (has_session_id session_id) (session_touch user_key chat_key now)
    {| s_session_id := session_id; s_user_key := user_key; s_chat_key := chat_key; s_title := None;
       s_created_at := now; s_updated_at := now |})).

Definition _set_session_agent_locked (session_id agent_id : string) : CPM () :=
  now ← iso_now;
  let row := {| sa_session_id := session_id; sa_agent_id := agent_id; sa_updated_at := now |} in
  modify (set_session_agents (upsert (of_session session_id) (λ _, row) row)).

Definition put_chat_binding (chat_key session_id : string) (agent : option string) (now : string) : CPM () :=
  let row := {| b_chat_key := chat_key; b_session_id := session_id; b_active_agent_id := agent;
                b_updated_at := now |} in
  modify (set_bindings (upsert (has_chat_key chat_key) (λ _, row) row)).

Definition get_chat_binding (chat_key : string) : CPM (option ChatBinding) :=
  gets (λ w, List.find (has_chat_key chat_key) (chat_bindings w)).

Definition set_chat_binding (chat_key session_id : string) (agent_id : option string) : CPM () :=
  now ← iso_now;
  cp_tx (
    _ ← put_chat_binding chat_key session_id agent_id now;
    _ ← _ensure_session_locked session_id None (Some chat_key);
    match agent_id with
    | Some a => if truthy a then _set_session_agent_locked session_id a else mret ()
    | None => mret ()
    end).

Definition new_session (user_key chat_key : string) : CPM string :=
  id ← cp_uuid;
  let session_id := "sess-" +:+ str_take 12 id in
  now ← iso_now;
  _ ← cp_tx (
    _ ← _ensure_session_locked session_id (Some user_key) (Some chat_key);
    _ ← put_chat_binding chat_key session_id (Some "agent:default") now;
    _set_session_agent_locked session_id "agent:default");
  mret session_id.
Definition rebind_session (user_key chat_key : string) : CPM string := new_session user_key chat_key.

Definition resolve_session (user_key chat_key : string) : CPM string :=
  binding ← get_chat_binding chat_key;
  match binding with
  | Some b =>
      _ ← cp_tx (_ensure_session_locked (b_session_id b) (Some user_key) (Some chat_key));
      mret (b_session_id b)
  | None => new_session user_key chat_key
  end.

Definition resolve_agent (session_id : string) : CPM string :=
  gets (λ w, match List.find (of_session session_id) (session_agents w) with
             | Some a => str_or (Some (sa_agent_id a)) "agent:default"
             | None => "agent:default"
             end).

Definition bind_session (user_key chat_key session_id : string) : CPM () :=
  now ← iso_now;
  cp_tx (
    _ ← _ensure_session_locked session_id (Some user_key) (Some chat_key);
    current ← resolve_agent session_id;
    put_chat_binding chat_key session_id (Some current) now).

Definition session_owner (session_id : string) : CPM (option string) :=
  gets (λ w, match List.find (has_session_id session_id) (sessions w) with
             | Some s => s_user_key s
             | None => None
             end).

Definition bind_session_owned (user_key chat_key session_id : string) (is_admin : bool) : CPM bool :=
  owner ← session_owner session_id;
  match owner with
  | None => mret false
  | Some o =>
      if negb (String.eqb o user_key) && negb is_admin then mret false
      else _ ← bind_session user_key chat_key session_id; mret true
  end.

(** A session row with its agent. *)
Definition list_sessions (user_key : string) (chat_key : option string) : CPM (list (SessionRow * string)) :=
  gets (λ w, map (λ s, (s, match List.find (of_session (s_session_id s)) (session_agents w) with
                           | Some a => sa_agent_id a
                           | None => "agent:default"
                           end))
    (sort_desc s_updated_at (List.filter (λ s, ostr_eqb (s_user_key s) (Some user_key)
       && if otruthy chat_key then ostr_eqb (s_chat_key s) chat_key else true) (sessions w)))).

Definition set_session_title (session_id title : string) : CPM () :=
  now ← iso_now;
  cp_tx (
    _ ← _ensure_session_locked session_id None None;
    modify (set_sessions (update_where (has_session_id session_id)
      (λ s, {| s_session_id := s_session_id s; s_user_key := s_user_key s; s_chat_key := s_chat_key s;
               s_title := Some (py_strip title); s_created_at := s_created_at s; s_updated_at := now |})))).

Definition get_session_title (session_id : string) : CPM (option string) :=
  gets (λ w, match List.find (has_session_id session_id) (sessions w) with
             | Some s => s_title s
             | None => None
             end).

(** ** Agents *)

Definition set_agent (session_id agent_id : string) : CPM () :=
  w ← get_world;
  if negb (str_in agent_id (map fst (agents w)))
  then cp_value_error ("unknown agent id: " +:+ agent_id)
  else cp_tx (
    _ ← _ensure_session_locked session_id None None;
    _set_session_agent_locked session_id agent_id).

Definition list_agents : CPM (list (string * string)) := gets agents.

(** [self._agents.setdefault(agent_id, …)] *)
Definition ensure_agent (agent_id : string) (name : option string) : CPM () :=
  modify (set_agents (λ l, if str_in agent_id (map fst l) then l
                           else l ++ [(agent_id, str_or name agent_id)])).

(** ** Messages *)

(** The row id returned is the number of the row. *)
Definition put_inbound (chat_key user_key : string) (text : option string) (payload : dict)
    (session_id agent_id timestamp : option string) : CPM Z :=
  now ← match timestamp with
        | Some t => if truthy t then mret t else iso_now
        | None => iso_now
        end;
  msg_id ← (let v := dget_none payload "message_id" in
            if py_truthy v then mret (py_str v) else cp_uuid);
  cp_tx (
    _ ← modify (set_inbound (λ l, l ++
          [{| m_message_id := msg_id; m_chat_key := chat_key; m_user_key := user_key;
              m_session_id := session_id; m_agent_id := agent_id; m_timestamp := now;
              m_text := text; m_payload := payload |}]));
    gets (λ w, Z.of_nat (length (inbound_messages w)))).

Definition append_turn (session_id role content : string) (attachments : list string) (meta : dict)
    : CPM string :=
  w ← get_world;
  let row := List.find (has_session_id session_id) (sessions w) in
  let user_key := str_or (s ← row; s_user_key s) "user:unknown" in
  let chat_key := str_or (s ← row; s_chat_key s) ("session:" +:+ session_id) in
  _ ← cp_tx (_ensure_session_locked session_id (Some user_key) (Some chat_key));
  _ ← put_inbound chat_key user_key (Some content)
        [("role", PStr role); ("content", PStr content); ("attachments", PList (map PStr attachments));
         ("meta", PDict meta); ("source", PStr "append_turn")]
        (Some session_id) None None;
  mret session_id.

Definition list_turns (session_id : string) : CPM (list InboundRow) :=
  gets (λ w, sort_asc m_timestamp
    (List.filter (λ m, ostr_eqb (m_session_id m) (Some session_id)) (inbound_messages w))).

(** ** Rate limits *)

Record RateResult := {
  rl_allowed : bool;
  rl_count : Z;
  rl_limit : Z;
  rl_window_start : Z;
  rl_window_seconds : Z;
}.
Definition is_rate (key_type key_id : string) (window_start : Z) (r : RateRow) : bool :=
  String.eqb (l_key_type r) key_type && String.eqb (l_key_id r) key_id && (l_window_start r =? window_start).
Definition rate_old (key_type key_id : string) (before : Z) (r : RateRow) : bool :=
  String.eqb (l_key_type r) key_type && String.eqb (l_key_id r) key_id && (l_window_start r <? before).

Definition increment_rate_limit (key_type key_id : string) (window_seconds limit : Z) : CPM RateResult :=
  now ← now_ts;
  let seconds := Z.max 1 window_seconds in
  let window_start := now - now mod seconds in
  count ← cp_tx (
    updated ← iso_now;
    _ ← modify (set_rates (upsert (is_rate key_type key_id window_start)
          (λ r, {| l_key_type := l_key_type r; l_key_id := l_key_id r;
                   l_window_start := l_window_start r; l_count := l_count r + 1;
                   l_updated_at := updated |})
          {| l_key_type := key_type; l_key_id := key_id; l_window_start := window_start;
             l_count := 1; l_updated_at := updated |}));
    w ← get_world;
    let count := match List.find (is_rate key_type key_id window_start) (rate_limits w) with
                 | Some r => l_count r
                 | None => 0
                 end in
    _ ← modify (set_rates (List.filter (λ r, negb (rate_old key_type key_id
                                                    (window_start - seconds * 3) r))));
    mret count);
  mret {| rl_allowed := count <=? limit; rl_count := count; rl_limit := limit;
          rl_window_start := window_start; rl_window_seconds := seconds |}.
End Sessions.
