(* ===== verification/CPModels.v ===== *)
(** The messages, commands and identities of the control plane
    ([modules/controlplane/contracts/models.py], [contracts/inbound.py],
    [runtime/parser.py], [runtime/auth.py]).  Attachments are not modelled. *)

From S2P Require Import Prelude PyValue Timestamps PyText Schedule CPTables.
From Stdlib Require Import Ascii.

Local Open Scope Z_scope.

Record AuthContext := {
  au_role : string;
  au_scopes : list string;
  au_principal_id : option string;
  au_metadata : dict;
}.
Record InboundMessage := {
  im_user_key : string;
  im_chat_key : string;
  im_text : string;
  im_channel : string;
  im_thread_key : option string;
  im_meta : dict;
  im_inbound_id : option string;
  im_channel_message_id : option string;
  im_chat_id : option string;
  im_user_id : option string;
  im_thread_id : option string;
  im_timestamp : Z;
  im_reply_to : option string;
  im_metadata : dict;
  im_auth : option AuthContext;
}.
Record ParsedCommand := {
  pc_canonical : string;
  pc_original_text : string;
  pc_args : list string;
}.
Record ResolvedContext := {
  rc_user_key : string;
  rc_chat_key : string;
  rc_session_id : string;
  rc_agent_id : string;
  rc_role : string;
  rc_trace_id : string;
  rc_span_id : string;
}.

(** [replace(inbound, auth=auth)] *)
Definition with_auth (auth : option AuthContext) (m : InboundMessage) : InboundMessage :=
  {| im_user_key := im_user_key m; im_chat_key := im_chat_key m; im_text := im_text m;
     im_channel := im_channel m; im_thread_key := im_thread_key m; im_meta := im_meta m;
     im_inbound_id := im_inbound_id m; im_channel_message_id := im_channel_message_id m;
     im_chat_id := im_chat_id m; im_user_id := im_user_id m; im_thread_id := im_thread_id m;
     im_timestamp := im_timestamp m; im_reply_to := im_reply_to m; im_metadata := im_metadata m;
     im_auth := auth |}.

(** ** Canonical messages *)

Definition _normalize_optional_str (value : option string) : option string :=
  match value with
  | None => None
  | Some v => let text := py_strip v in if truthy text then Some text else None
  end.
Definition _derive_thread_id_from_thread_key (thread_key : string) : option string :=
  match _normalize_optional_str (Some thread_key) with
  | None => None
  | Some normalized =>
      match py_rpartition ":"%char normalized with
      | Some (_, tail) => let t := py_strip tail in if truthy t then Some t else None
      | None => Some normalized
      end
  end.
Definition _derive_thread_key_from_thread_id (channel thread_id : string) : string :=
  if String.eqb channel "telegram" then "telegram-topic:" +:+ thread_id else thread_id.

(** The warnings are not modelled; an unchanged message is returned as it is,
    which is the same value. *)
Definition canonicalize_inbound_message (m : InboundMessage) : InboundMessage :=
  let metadata := match im_metadata m with [] => im_meta m | d => d end in
  let meta := match im_meta m with [] => metadata | d => d end in
  let thread_id := _normalize_optional_str (im_thread_id m) in
  let thread_key := _normalize_optional_str (im_thread_key m) in
  let thread_id' := match thread_id, thread_key with
                    | None, Some k => _derive_thread_id_from_thread_key k
                    | t, _ => t
                    end in
  let thread_key' := match thread_key, thread_id' with
                     | None, Some t => Some (_derive_thread_key_from_thread_id (im_channel m) t)
                     | k, _ => k
                     end in
  {| im_user_key := im_user_key m; im_chat_key := im_chat_key m; im_text := im_text m;
     im_channel := im_channel m; im_thread_key := thread_key'; im_meta := meta;
     im_inbound_id := im_inbound_id m; im_channel_message_id := im_channel_message_id m;
     im_chat_id := im_chat_id m; im_user_id := im_user_id m; im_thread_id := thread_id';
     im_timestamp := im_timestamp m; im_reply_to := im_reply_to m; im_metadata := metadata;
     im_auth := im_auth m |}.

(** ** Commands *)

Definition _SUBCOMMAND_ROOTS : list string :=
  ["agent"; "artifact"; "config"; "memory"; "pair"; "profile"; "run"; "session"; "skill"].

(** [s[1:]] *)
Definition str_tail (s : string) : string :=
  match s with EmptyString => EmptyString | String _ s' => s' end.

(** [SlashCommandParser.parse] *)
Definition parse_command (text : string) : option ParsedCommand :=
  let stripped_text := py_strip text in
  if negb (py_startswith stripped_text "/" || py_startswith stripped_text "!") then None
  else
    match py_split (py_strip (str_tail stripped_text)) with
    | [] => None
    | hd :: args =>
        let canonical := py_lower hd in
        match args with
        | a :: rest =>
            if str_in canonical _SUBCOMMAND_ROOTS
            then Some {| pc_canonical := canonical +:+ "." +:+ py_lower a;
                         pc_original_text := stripped_text; pc_args := rest |}
            else Some {| pc_canonical := canonical; pc_original_text := stripped_text; pc_args := args |}
        | [] => Some {| pc_canonical := canonical; pc_original_text := stripped_text; pc_args := [] |}
        end
    end.

(** [is_pair_command]; [casefold] is [lower] but for the sharp s, which the
    comparison with [/pair] does not see. *)
Definition is_pair_command (text : string) : bool :=
  match py_split (py_strip text) with
  | hd :: _ => String.eqb (py_lower hd) "/pair"
  | [] => false
  end.

(** ** Administrators *)

Definition _ADMIN_COMMANDS : list string :=
  ["artifact.purge"; "memory.promote"; "config.set"; "approve"; "deny"].
Section AuthEvaluator.
Variable admin_user_keys : list string.
Definition role_for (user_key : string) : string :=
  if str_in user_key admin_user_keys then "admin" else "user".
Definition is_admin (user_key : string) : bool := String.eqb (role_for user_key) "admin".
Definition is_admin_command (command : string) : bool := str_in command _ADMIN_COMMANDS.
Definition auth_check (user_key command : string) : bool * string :=
  if is_admin_command command && negb (is_admin user_key)
  then (false, "command '" +:+ command +:+ "' requires admin role")
  else (true, "ok").
End AuthEvaluator.
