(* ===== verification/CPAuth.v ===== *)
(** Who may do what ([modules/controlplane/runtime/identity.py],
    [runtime/security.py], [runtime/rate_limit.py], [pairing/admin.py] and the
    pairing commands of [commands/registry_pairing.py]): the identity bound to a
    chat, the scopes a command needs, and the administration of bindings.  The
    store is present and has every method; [identity] says whether an identity API
    is configured. *)

From S2P Require Import Prelude PyValue Timestamps PyText Schedule CPTables CPPrincipals CPQueues CPModels.
From Stdlib Require Import Ascii.

Local Open Scope Z_scope.

(** ** Scopes of commands ([commands/builtin_specs.py]) *)

Definition COMMAND_SCOPES : list (string * list string) :=
  [("help", ["cp.message.read"]); ("status", ["cp.message.read"]); ("new", ["session.write"]);
   ("sessions", ["session.read"]); ("session.use", ["session.read"; "session.write"]);
   ("session.title", ["session.write"]); ("export", ["session.read"]);
   ("profile", ["session.read"]); ("profile.current", ["session.read"]);
   ("profile.list", ["session.read"]); ("profile.ls", ["session.read"]);
   ("profile.use", ["session.write"]); ("profile.info", ["session.read"]);
   ("profile.stop", ["session.write"]); ("agent", ["session.read"]);
   ("agent.list", ["session.read"]); ("agent.set", ["session.write"]);
   ("agent.ls", ["session.read"]); ("agent.use", ["session.write"]);
   ("agent.info", ["session.read"]); ("agent.stop", ["session.write"]);
   ("pair", ["cp.message.read"]); ("pair.status", ["cp.message.read"]);
   ("pair.revoke", ["session.write"]); ("session.new", ["session.write"]);
   ("session.id", ["session.read"]); ("session.status", ["session.read"]);
   ("run", ["session.read"]); ("run.status", ["session.read"]); ("cancel", ["run.cancel"]);
   ("job.ls", ["session.read"]); ("approve", ["policy.approve"]); ("deny", ["policy.approve"]);
   ("grants", ["policy.approve"]); ("diag", ["cp.message.read"]); ("logs", ["session.read"]);
   ("artifact.ls", ["session.read"]); ("artifact.purge", ["session.write"]);
   ("memory.ls", ["session.read"]); ("memory.promote", ["session.write"]);
   ("config.show", ["cp.message.read"]); ("config.set", ["session.write"]);
   ("skill.ingest", ["session.write"]); ("skill.list", ["cp.message.read"]);
   ("modules", ["cp.message.read"])].
Definition SCOPE_DESCRIPTIONS : list (string * string) :=
  [("chat.interact", "chat with OpenMinion"); ("cp.message.read", "read controlplane messages");
   ("cp.message.write", "send controlplane messages"); ("session.read", "read session state");
   ("session.write", "change session state"); ("run.start", "start runs");
   ("run.cancel", "cancel runs"); ("policy.approve", "manage policy approvals");
   ("tool.weather.read", "use weather tools"); ("tool.search.read", "use search tools")].
Definition _COMMAND_SCOPE_OVERRIDES : list (string * list string) :=
  [("cancel", ["run.cancel"]); ("approve", ["policy.approve"]); ("deny", ["policy.approve"]);
   ("grants", ["policy.approve"])].

Fixpoint assoc {A} (k : string) (l : list (string * A)) : option A :=
  match l with
  | [] => None
  | (k', v) :: l' => if String.eqb k k' then Some v else assoc k l'
  end.

(** ** Identity *)

Record PrincipalBinding := {
  pb_principal_id : string;
  pb_channel : string;
  pb_subject_id : string;
  pb_status : string;
  pb_scopes : list string;
  pb_note : option string;
  pb_metadata : dict;
}.

Definition binding_metadata (principal_id channel subject_id status : string) : dict :=
  [("principal_id", PStr principal_id);
   ("principal_binding", PDict [("channel", PStr channel); ("subject_id", PStr subject_id);
                                ("status", PStr status)])].

(** The mapping [get_pairing] returns. *)
Definition pairing_dict (ps : Pairing * list string) : dict :=
  let '(p, scopes) := ps in
  [("pairing_id", PStr (p_pairing_id p)); ("channel", PStr (p_channel p));
   ("chat_id", PStr (p_chat_id p)); ("user_id", PStr (p_user_id p));
   ("session_id", PStr (p_session_id p)); ("created_at", PStr (p_created_at p));
   ("last_seen_at", PStr (p_last_seen_at p)); ("status", PStr (p_status p));
   ("scopes_json", PStr (json_text_default (PDict [("scopes", PList (map PStr (p_scopes p)))])));
   ("note", ostr_val (p_note p)); ("scopes", PList (map PStr scopes))].

Section Identity.
Context {Env : PyEnv}.

(** [StoreBackedIdentityAPI.resolve] *)
Definition identity_resolve (channel subject_id : string) : CPM (option string) :=
  value ← resolve_principal channel subject_id;
  mret (match value with
        | Some v => let pid := py_strip v in if truthy pid then Some pid else None
        | None => None
        end).

(** [StoreBackedIdentityAPI.bind] *)
Definition identity_bind (principal_id channel subject_id : string) (scopes : option (list string))
    (status : string) (note : option string) (meta : option dict) : CPM () :=
  bind_principal_subject principal_id channel subject_id (Some status) scopes note meta.

(** [StoreBackedIdentityAPI.get_binding] *)
Definition get_binding (channel subject_id : string) : CPM (option PrincipalBinding) :=
  record ← get_channel_subject channel subject_id;
  mret (match record with
        | None => None
        | Some (c, scopes) =>
            Some {| pb_principal_id := cs_principal_id c;
                    pb_channel := str_or (Some (cs_channel c)) channel;
                    pb_subject_id := str_or (Some (cs_subject_id c)) subject_id;
                    pb_status := str_or (Some (cs_status c)) PRINCIPAL_BINDING_STATUS_INACTIVE;
                    pb_scopes := nonblank scopes; pb_note := cs_note c; pb_metadata := cs_meta c |}
        end).

(** [StoreBackedIdentityAPI.auth_context] *)
Definition auth_context (channel subject_id : string) (default_scopes : list string)
    : CPM (option AuthContext) :=
  binding ← get_binding channel subject_id;
  mret (match binding with
        | None => None
        | Some b =>
            if negb (String.eqb (pb_status b) PRINCIPAL_BINDING_STATUS_ACTIVE) then None
            else Some {| au_role := "paired"; au_scopes := list_or (pb_scopes b) default_scopes;
                         au_principal_id := Some (pb_principal_id b);
                         au_metadata := binding_metadata (pb_principal_id b) (pb_channel b)
                                          (pb_subject_id b) (pb_status b) |}
        end).

(** ** Memory namespaces *)

Definition _subject_id (channel_account_id channel_thread_id participant_kind : string) : string :=
  stripped participant_kind +:+ ":" +:+ stripped channel_account_id +:+ ":"
    +:+ stripped channel_thread_id.
Definition paired_namespace_id (pairing_id : string) : CPM string :=
  let normalized := stripped pairing_id in
  if negb (truthy normalized) then cp_value_error "pairing_id is required"
  else mret ("memory-namespace:principal:" +:+ normalized).
Definition isolated_channel_namespace_id (channel account thread kind : string) : string :=
  py_join ":" ["memory-namespace"; "isolated-channel"; stripped channel; stripped kind;
               stripped account; stripped thread].

Record ChannelIdentityProvenance := {
  cip_channel : string;
  cip_channel_account_id : string;
  cip_channel_thread_id : string;
  cip_participant_kind : string;
  cip_pairing_id : option string;
  cip_namespace_id : string;
  cip_paired : bool;
}.
Definition resolve_channel_identity_memory_provenance (channel account thread kind : string)
    : CPM ChannelIdentityProvenance :=
  binding ← get_binding channel (_subject_id account thread kind);
  let isolated := {| cip_channel := channel; cip_channel_account_id := account;
                     cip_channel_thread_id := thread; cip_participant_kind := kind;
                     cip_pairing_id := None;
                     cip_namespace_id := isolated_channel_namespace_id channel account thread kind;
                     cip_paired := false |} in
  match binding with
  | Some b =>
      if String.eqb (pb_status b) PRINCIPAL_BINDING_STATUS_ACTIVE then
        let namespace_id := str_or_blank (dget_none (pb_metadata b) "namespace_id") in
        ns ← (if truthy namespace_id then mret namespace_id else paired_namespace_id (pb_principal_id b));
        mret {| cip_channel := channel; cip_channel_account_id := account;
                cip_channel_thread_id := thread; cip_participant_kind := kind;
                cip_pairing_id := Some (pb_principal_id b); cip_namespace_id := ns; cip_paired := true |}
      else mret isolated
  | None => mret isolated
  end.

Definition CHANNEL_IDENTITY_MEMORY_PROVENANCE_VERSION : string := "channel_identity_memory.v1".
Definition bind_channel_identity_memory (pairing_id channel account thread kind : string)
    (namespace_id : option string) (scopes : option (list string)) : CPM ChannelIdentityProvenance :=
  ns ← (if otruthy namespace_id then mret (default "" namespace_id) else paired_namespace_id pairing_id);
  _ ← identity_bind pairing_id channel (_subject_id account thread kind) scopes
        PRINCIPAL_BINDING_STATUS_ACTIVE None
        (Some [("namespace_id", PStr ns); ("channel_account_id", PStr account);
               ("channel_thread_id", PStr thread); ("participant_kind", PStr kind);
               ("schema_version", PStr CHANNEL_IDENTITY_MEMORY_PROVENANCE_VERSION)]);
  resolve_channel_identity_memory_provenance channel account thread kind.
Definition unpair_channel_identity_memory (channel account thread kind : string) : CPM () :=
  binding ← get_binding channel (_subject_id account thread kind);
  match binding with
  | None => mret ()
  | Some b =>
      identity_bind (pb_principal_id b) channel (_subject_id account thread kind)
        (Some (pb_scopes b)) PRINCIPAL_BINDING_STATUS_INACTIVE (pb_note b) (Some (pb_metadata b))
  end.
End Identity.

(** ** Authorisation *)

Section Authorizer.
Context {Env : PyEnv}.
Variable identity : bool.
Variable default_scopes : list string.
(** The scopes the command registry configures. *)
Variable command_scopes : string → option (list string).

(** The store's own binding. *)
Definition auth_from_store (channel chat_id : string) : CPM (option AuthContext) :=
  principal_id ← resolve_principal channel chat_id;
  match principal_id with
  | None => mret None
  | Some pid =>
      binding ← get_channel_subject channel chat_id;
      let status := py_lower (py_strip (match binding with
                      | Some (c, _) => str_or (Some (cs_status c)) PRINCIPAL_BINDING_STATUS_ACTIVE
                      | None => PRINCIPAL_BINDING_STATUS_ACTIVE
                      end)) in
      if negb (String.eqb status PRINCIPAL_BINDING_STATUS_ACTIVE) then mret None
      else
        let scopes := list_or (match binding with Some (_, s) => s | None => [] end) default_scopes in
        _ ← touch_channel_subject channel chat_id;
        mret (Some {| au_role := "paired"; au_scopes := scopes; au_principal_id := Some pid;
                      au_metadata := binding_metadata pid channel chat_id status |})
  end.
Definition _auth_from_principal_mapping (channel chat_id : string) : CPM (option AuthContext) :=
  auth ← (if identity then auth_context channel chat_id default_scopes else mret None);
  match auth with
  | Some a => _ ← touch_channel_subject channel chat_id; mret (Some a)
  | None => auth_from_store channel chat_id
  end.

Definition auth_for_inbound (inbound : InboundMessage) : CPM AuthContext :=
  match im_auth inbound with
  | Some a => mret a
  | None =>
      let channel := im_channel inbound in
      let chat_id := str_or (im_chat_id inbound) (im_chat_key inbound) in
      principal_auth ← _auth_from_principal_mapping channel chat_id;
      match principal_auth with
      | Some a => mret a
      | None =>
          pairing ← get_pairing channel chat_id;
          mret (match pairing with
                | Some (p, scopes) =>
                    {| au_role := "paired"; au_scopes := list_or scopes default_scopes;
                       au_principal_id := Some (p_pairing_id p);
                       au_metadata := [("pairing", PDict (pairing_dict (p, scopes)))] |}
                | None => {| au_role := AUTH_ROLE_UNPAIRED; au_scopes := []; au_principal_id := None;
                             au_metadata := [] |}
                end)
      end
  end.

Definition _scopes_allowed (required : list string) (auth : AuthContext) : bool * string :=
  match List.filter (λ s, negb (str_in s (au_scopes auth))) required with
  | [] => (true, "ok")
  | missing => (false, "missing scopes: " +:+ py_join ", " missing)
  end.
Definition required_scopes (command : ParsedCommand) : list string :=
  match command_scopes (pc_canonical command) with
  | Some s => s
  | None => default default_scopes (assoc (pc_canonical command) _COMMAND_SCOPE_OVERRIDES)
  end.
Definition command_allowed (command : ParsedCommand) (auth : AuthContext) : bool * string :=
  _scopes_allowed (required_scopes command) auth.
Definition message_allowed (auth : AuthContext) : bool * string :=
  if str_in "chat.interact" (au_scopes auth) then (true, "ok")
  else _scopes_allowed ["cp.message.write"; "run.start"] auth.
End Authorizer.

(** ** Rate limits of messages ([runtime/rate_limit.py]) *)

Record RateLimitPolicy := {
  rp_chat_window_s : Z;
  rp_chat_limit : Z;
  rp_user_window_s : Z;
  rp_user_limit : Z;
  rp_session_window_s : Z;
  rp_session_limit : Z;
}.
Section RateLimiter.
Context {Env : PyEnv}.
Fixpoint check_rates (checks : list (string * string * Z * Z)) : CPM (bool * string) :=
  match checks with
  | [] => mret (true, "ok")
  | (key_type, key_id, window_s, limit) :: rest =>
      result ← increment_rate_limit key_type key_id window_s limit;
      if negb (rl_allowed result) then mret (false, "rate limit exceeded for " +:+ key_type)
      else check_rates rest
  end.
Definition rate_check (policy : RateLimitPolicy) (inbound : InboundMessage) (session_id : string)
    : CPM (bool * string) :=
  check_rates
    [("chat_id", str_or (im_chat_id inbound) (im_chat_key inbound), rp_chat_window_s policy,
      rp_chat_limit policy);
     ("user_id", str_or (im_user_id inbound) (im_user_key inbound), rp_user_window_s policy,
      rp_user_limit policy);
     ("session_id", session_id, rp_session_window_s policy, rp_session_limit policy)].
End RateLimiter.

(** ** Administration of bindings ([pairing/admin.py]) *)

Definition _public_pairing (row : ChannelSubject * list string) : dict :=
  let '(c, scopes) := row in
  [("principal_id", PStr (cs_principal_id c)); ("channel", PStr (cs_channel c));
   ("subject_id", PStr (cs_subject_id c)); ("status", PStr (cs_status c));
   ("scopes", PList (map PStr scopes)); ("note", ostr_val (cs_note c));
   ("created_at", PStr (cs_created_at c)); ("last_seen_at", PStr (cs_last_seen_at c))].

Section Admin.
Context {Env : PyEnv}.
(** [PairingAdminResult]: [None] is a pairing that was not found. *)
Definition admin_show_pairing (channel subject_id : string) : CPM (option dict) :=
  row ← get_channel_subject channel subject_id;
  mret (option_map _public_pairing row).
Definition admin_list_pairings (channel status : option string) (limit : Z) : CPM (list dict) :=
  rows ← list_channel_subjects channel status limit;
  mret (map _public_pairing rows).
Definition admin_emit (event_type channel subject_id principal_id : string) (scopes : option (list string))
    : CPM () :=
  audit event_type "ok"
    ([("channel", PStr channel); ("subject_id", PStr subject_id); ("principal_id", PStr principal_id)]
     ++ match scopes with Some s => [("scopes", PList (map PStr s))] | None => [] end).
Definition admin_set_scopes (channel subject_id : string) (scopes : list string) : CPM (option dict) :=
  existing ← get_channel_subject channel subject_id;
  match existing with
  | None => mret None
  | Some (c, _) =>
      _ ← update_channel_subject channel subject_id None (Some scopes) None;
      _ ← admin_emit "cp.pairing.binding.scopes_updated" channel subject_id (cs_principal_id c) (Some scopes);
      admin_show_pairing channel subject_id
  end.
Definition admin_revoke (channel subject_id : string) (note : option string) : CPM (option dict) :=
  existing ← get_channel_subject channel subject_id;
  match existing with
  | None => mret None
  | Some (c, _) =>
      _ ← update_channel_subject channel subject_id (Some PRINCIPAL_BINDING_STATUS_INACTIVE) None note;
      _ ← admin_emit "cp.pairing.binding.revoked" channel subject_id (cs_principal_id c) None;
      admin_show_pairing channel subject_id
  end.
End Admin.

(** ** Pairing commands ([commands/registry_pairing.py]) *)

Record CommandResult := {
  cr_ok : bool;
  cr_text : string;
  cr_data : dict;
}.
Definition newline : string := chr 10.

(** The part of the text before the first separator, and the part after it. *)
Definition _current_channel_subject (chat_key : string) : option (string * string) :=
  match partition_char ":"%char (py_strip chat_key) with
  | None => None
  | Some (c, s) =>
      let channel := py_strip c in
      let subject_id := py_strip s in
      if negb (truthy channel) || negb (truthy subject_id) then None else Some (channel, subject_id)
  end.
Definition describe_scope (scope : string) : option string :=
  let raw := py_strip scope in
  if negb (truthy raw) then None
  else match assoc raw SCOPE_DESCRIPTIONS with
       | Some label => Some (if String.eqb label raw then raw else label +:+ " (" +:+ raw +:+ ")")
       | None => Some raw
       end.
Definition _describe_scopes (scopes : list string) : string :=
  match omap describe_scope scopes with [] => "none" | rendered => py_join ", " rendered end.

Section Commands.
Context {Env : PyEnv}.
Definition _current_pairing (ctx : ResolvedContext) : CPM (option (Pairing * list string)) :=
  match _current_channel_subject (rc_chat_key ctx) with
  | None => mret None
  | Some (channel, subject_id) => get_pairing channel subject_id
  end.
Definition pair_active (pairing : option (Pairing * list string)) : option (Pairing * list string) :=
  match pairing with
  | Some (p, scopes) =>
      if String.eqb (p_status p) PRINCIPAL_BINDING_STATUS_ACTIVE then Some (p, scopes) else None
  | None => None
  end.

Definition _pair_status (ctx : ResolvedContext) : CPM CommandResult :=
  pairing ← _current_pairing ctx;
  mret (match pair_active pairing with
        | None =>
            let channel_name := match _current_channel_subject (rc_chat_key ctx) with
                                | Some (c, _) => c
                                | None => "<channel>"
                                end in
            {| cr_ok := true;
               cr_text := "No active pairing found for this chat. Ask the owner to run `openminion channel "
                          +:+ channel_name +:+ " pair`.";
               cr_data := [("paired", PBool false)] |}
        | Some (p, scopes) =>
            {| cr_ok := true;
               cr_text := "Pairing active for this chat." +:+ newline +:+ "  scopes: "
                          +:+ _describe_scopes scopes +:+ newline
                          +:+ "  access: limited to the scopes above" +:+ newline
                          +:+ "To disconnect this chat, send /pair revoke.";
               cr_data := [("paired", PBool true); ("pairing", PDict (pairing_dict (p, scopes)))] |}
        end).

Definition _pair_revoke (ctx : ResolvedContext) : CPM CommandResult :=
  pairing ← _current_pairing ctx;
  match _current_channel_subject (rc_chat_key ctx), pair_active pairing with
  | Some (channel, chat_id), Some (p, scopes) =>
      _ ← upsert_pairing channel chat_id (str_or (Some (p_user_id p)) (rc_user_key ctx))
            (str_or (Some (p_session_id p)) (rc_session_id ctx)) (Some "revoked") (Some scopes)
            (Some "revoked_from_controlplane_chat") (Some (p_pairing_id p));
      mret {| cr_ok := true;
              cr_text := "Pairing revoked. This chat no longer has controlplane access. "
                         +:+ "To reconnect, ask the owner to run `openminion channel " +:+ channel +:+ " pair`.";
              cr_data := [("revoked", PBool true); ("chat_id", PStr chat_id); ("channel", PStr channel)] |}
  | _, _ => mret {| cr_ok := true; cr_text := "No active pairing found for this chat.";
                    cr_data := [("revoked", PBool false)] |}
  end.
End Commands.
