(* ===== verification/CPPairing.v ===== *)
(** The pairing service ([modules/controlplane/pairing/service.py], [policy.py],
    [adapter.py], [results.py]) and the adapters of Slack and Telegram
    ([channels/slack/pairing_adapter.py], [channels/telegram/pairing_adapter.py],
    [pairing_text.py]).  A channel's adapter is an instance of [PairingAdapter];
    the Telegram channel's older token store, kept in a database of its own, is a
    value of [LegacyStore].  Log messages are not modelled. *)

From S2P Require Import Prelude PyValue Timestamps PyText Schedule CPTables CPPrincipals CPQueues CPModels CPAuth.
From Stdlib Require Import Ascii.

Local Open Scope Z_scope.

Definition PAIRING_MODE_OFF : string := "off".

Record PairingPolicy := {
  pp_enabled : bool;
  pp_mode : string;
  pp_token_ttl_seconds : Z;
  pp_attempt_window_seconds : Z;
  pp_max_attempts_per_user : Z;
  pp_max_attempts_per_chat : Z;
  pp_hash_pepper : option string;
  pp_allow_in_groups : bool;
  pp_default_scopes : list string;
}.
Definition default_policy : PairingPolicy :=
  {| pp_enabled := true; pp_mode := "required"; pp_token_ttl_seconds := 600;
     pp_attempt_window_seconds := 60; pp_max_attempts_per_user := 6; pp_max_attempts_per_chat := 20;
     pp_hash_pepper := None; pp_allow_in_groups := false; pp_default_scopes := DEFAULT_MINIMAL_SCOPES |}.

Record PairingAttempt := {
  pa_channel : string;
  pa_token : string;
  pa_account_id : string;
  pa_chat_key : string;
  pa_chat_type : string;
  pa_extra : dict;
}.
(** [PairingHandleResult] *)
Record HandleResult := { hr_handled : bool; hr_reply_text : option string }.

Class PairingAdapter := {
  channel_id : string;
  extract_pairing_attempt : InboundMessage → dict → PR (option PairingAttempt);
  format_success_reply : string;
  format_failure_reply : string → string;
}.

(** ** Adapters *)

Definition limited_reason (reason : string) : bool := str_in reason ["lru_limited"; "rate_limited"].

Definition slack_session_scope_key (team_id channel_id : string) (thread_ts : option string) : string :=
  let base := "slack:" +:+ team_id +:+ ":channel:" +:+ channel_id in
  if otruthy thread_ts then base +:+ ":thread:" +:+ default "" thread_ts else base.
Definition _extract_pair_token (text : string) : option string :=
  match py_split (py_strip text) with
  | [a; b] => if str_in (py_lower a) ["/pair"; "pair"] then Some b else None
  | [a; b; c] => if String.eqb (py_lower a) "/openminion" && String.eqb b "pair" then Some c else None
  | _ => None
  end.
Definition slack_extract (inbound : InboundMessage) (channel_context : dict)
    : PR (option PairingAttempt) :=
  match _extract_pair_token (im_text inbound) with
  | None => Ok None
  | Some token =>
      let metadata := list_or (im_metadata inbound) (im_meta inbound) in
      let team_id := str_or_blank (dget_none metadata "team_id") in
      let chan := py_strip (py_str (py_or (py_or (dget_none metadata "channel_id")
                                              (ostr_val (im_chat_id inbound))) (PStr ""))) in
      let user_id := py_strip (str_or (im_user_id inbound) "") in
      if negb (truthy team_id) || negb (truthy chan) || negb (truthy user_id) then Ok None
      else
        let private := py_eq (dget_none metadata "channel_type") (PStr "im")
                       || py_eq (dget_none metadata "slack_interaction") (PStr "slash_command") in
        let thread := py_strip (str_or (im_thread_id inbound) "") in
        Ok (Some {| pa_channel := "slack"; pa_token := token;
                pa_account_id := "slack:" +:+ team_id +:+ ":user:" +:+ user_id;
                pa_chat_key := slack_session_scope_key team_id chan None;
                pa_chat_type := if private then "private" else "channel";
                pa_extra := [("team_id", PStr team_id); ("channel_id", PStr chan);
                             ("subject_id", PStr chan); ("user_id", PStr user_id);
                             ("session_user_key", PStr ("slack:" +:+ team_id +:+ ":user:" +:+ user_id));
                             ("session_chat_key", PStr (slack_session_scope_key team_id chan
                                (if truthy thread then Some thread else None)))] |})
  end.
Definition slack_adapter : PairingAdapter := {|
  channel_id := "slack";
  extract_pairing_attempt := slack_extract;
  format_success_reply := "Paired.";
  format_failure_reply reason :=
    if limited_reason reason then "Too many pairing attempts. Try again shortly."
    else "Pairing failed or expired. Generate a new token.";
|}.

Definition session_scope_key (chat_id : Z) (topic_id : option Z) : string :=
  match topic_id with
  | None => "telegram:" +:+ pretty chat_id
  | Some t => "telegram:" +:+ pretty chat_id +:+ ":" +:+ pretty t
  end.
Definition extract_start_token (text : string) (bot_username : option string) : option string :=
  match py_split (py_strip text) with
  | [] => None
  | hd :: args =>
      if negb (py_startswith hd "/") then None
      else
        let cmd := str_tail hd in
        let name := match partition_char "@"%char cmd with
                    | Some (n, bot) =>
                        if otruthy bot_username
                           && negb (String.eqb (py_lower bot) (py_lower (default "" bot_username)))
                        then None else Some n
                    | None => Some cmd
                    end in
        match name, args with
        | Some n, token :: _ => if String.eqb (py_lower n) "start" then Some token else None
        | _, _ => None
        end
  end.
Definition _optional_int (v : pyval) : option Z :=
  match v with PNone => None | _ => match py_int v with Ok z => Some z | Raise _ => None end end.
(** [int(chat_id)] raises when the id is not a number. *)
Definition telegram_extract (inbound : InboundMessage) (channel_context : dict)
    : PR (option PairingAttempt) :=
  match extract_start_token (im_text inbound)
          (match dget_none channel_context "bot_username" with PStr s => Some s | _ => None end) with
  | None => Ok None
  | Some token =>
      let telegram := match dget_none (im_metadata inbound) "telegram" with PDict d => d | _ => [] end in
      let user_id := py_or (dget_none telegram "from_user_id") (ostr_val (im_user_id inbound)) in
      let chat_id := py_or (dget_none telegram "chat_id") (ostr_val (im_chat_id inbound)) in
      let topic_id := dget_none telegram "topic_id" in
      match user_id, chat_id with
      | PNone, _ | _, PNone => Ok None
      | _, _ =>
          chat ← py_int chat_id;
          Ok (Some {| pa_channel := "telegram"; pa_token := token;
                  pa_account_id := "telegram-bot:user:" +:+ py_str user_id;
                  pa_chat_key := "telegram-bot:chat:" +:+ py_str chat_id;
                  pa_chat_type := py_str (py_or (dget_none telegram "chat_type") (PStr "private"));
                  pa_extra := [("topic_id", topic_id); ("telegram_user_id", user_id);
                               ("telegram_chat_id", chat_id); ("subject_id", PStr (py_str chat_id));
                               ("user_id", PStr (py_str user_id));
                               ("session_user_key", PStr ("telegram:" +:+ py_str user_id));
                               ("session_chat_key", PStr (session_scope_key chat (_optional_int topic_id)))] |})
      end
  end.
(** The reply to a success ends its first line with a check mark, which is not in
    the modelled range of characters. *)
Definition telegram_adapter : PairingAdapter := {|
  channel_id := "telegram";
  extract_pairing_attempt := telegram_extract;
  format_success_reply := "Paired" +:+ newline +:+ "OpenMinion is ready. Send /status to verify, "
                          +:+ "/help for commands, or send a message.";
  format_failure_reply reason :=
    if limited_reason reason then "Too many pairing attempts. Try again shortly."
    else "Pairing failed or expired. Generate a new link.";
|}.

(** ** Recent attempts *)

(** [RecentPairAttemptsLRU.bump], with [max_size] entries. *)
Definition lru_bump (max_size : Z) (token_prefix : string) (seen : list (string * Z))
    : Z * list (string * Z) :=
  let current := default 0 (assoc token_prefix seen) + 1 in
  let moved := List.filter (λ e, negb (String.eqb (fst e) token_prefix)) seen ++ [(token_prefix, current)] in
  (current, if Z.max 128 max_size <? Z.of_nat (length moved) then tail moved else moved).

(** ** The service *)

(** What [TelegramPollStateStore] offers the service; its tables are its own. *)
Record LegacyStore := {
  legacy_consume : string → Z → Z → pyval → option string → CPM ConsumeResult;
  legacy_record : string → Z → Z → string → option string → CPM ();
}.

(** [except (AttributeError, TypeError, ValueError, RuntimeError, sqlite3.Error)] *)
Definition caught {A} (d : A) (m : CPM A) : CPM A := λ w,
  match m w with
  | (w', Raise (CPPy (PyOverflowError msg))) => (w', Raise (CPPy (PyOverflowError msg)))
  | (w', Raise _) => (w', Ok d)
  | r => r
  end.

Section Service.
Context {Env : PyEnv} {Cp : CPEnv} {Ad : PairingAdapter}.
Variable policy : PairingPolicy.
Variable bridge : bool.
Variable legacy : option LegacyStore.

Definition _audit (event_type outcome : string) (details : dict) : CPM () :=
  audit event_type outcome details.

Definition issue_token (expected_account_id expected_chat_key : option string)
    (token_ttl_seconds : option Z) (scopes : option (list string)) (token : option string)
    : CPM IssueResult :=
  issued ← issue_pair_token channel_id expected_account_id expected_chat_key
             (opt_or scopes (pp_default_scopes policy)) token
             (int_or token_ttl_seconds (pp_token_ttl_seconds policy)) (pp_hash_pepper policy);
  _ ← _audit "cp.pairing.token.issued" "ok"
        [("channel", PStr channel_id); ("token_hint", PStr (iss_token_hint issued));
         ("token_hash_prefix", PStr (iss_token_hash_prefix issued));
         ("expires_at_ts", PInt (iss_expires_at_ts issued))];
  mret issued.

Definition bump (token_prefix : string) : CPM Z := λ w,
  let r := lru_bump 2048 token_prefix (pair_lru w) in (set_lru (λ _, r.2) w, Ok r.1).

Definition _is_rate_limited (attempt : PairingAttempt) : CPM bool :=
  now ← now_ts;
  let since_ts := now - Z.max 1 (pp_attempt_window_seconds policy) in
  by_user ← count_recent_pair_attempts (pa_channel attempt) (pa_account_id attempt) since_ts;
  if pp_max_attempts_per_user policy <=? by_user then mret true
  else
    by_chat ← count_recent_pair_attempts_for_chat (pa_channel attempt) (pa_chat_key attempt) since_ts;
    mret (pp_max_attempts_per_chat policy <=? by_chat).

(** The two Telegram ids of an attempt. *)
Definition telegram_ids (attempt : PairingAttempt) : option (pyval * pyval) :=
  match dget_none (pa_extra attempt) "telegram_user_id", dget_none (pa_extra attempt) "telegram_chat_id" with
  | PNone, _ | _, PNone => None
  | u, c => Some (u, c)
  end.

Definition _record_attempt (attempt : PairingAttempt) (outcome : string) : CPM () :=
  _ ← record_pair_attempt (pa_channel attempt) (pa_account_id attempt) (Some (pa_chat_key attempt))
        (pa_token attempt) outcome (pp_hash_pepper policy)
        (dupdate [("chat_type", PStr (pa_chat_type attempt))] (pa_extra attempt));
  if negb (String.eqb (pa_channel attempt) "telegram") then mret ()
  else match legacy, telegram_ids attempt with
       | Some store, Some (user_id, chat_id) =>
           caught () (u ← lift_py (py_int user_id); c ← lift_py (py_int chat_id);
                      legacy_record store (pa_token attempt) u c outcome (pp_hash_pepper policy))
       | _, _ => mret ()
       end.

Definition _try_legacy_redeem (attempt : PairingAttempt) (consume : ConsumeResult) : CPM ConsumeResult :=
  if negb (String.eqb (pa_channel attempt) "telegram") then mret consume
  else match legacy, telegram_ids attempt with
       | Some store, Some (user_id, chat_id) =>
           u ← lift_py (py_int user_id);
           c ← lift_py (py_int chat_id);
           redeemed ← legacy_consume store (pa_token attempt) u c (dget_none (pa_extra attempt) "topic_id")
                        (pp_hash_pepper policy);
           if negb (c_ok redeemed) then mret consume
           else
             _ ← _audit "cp.pairing.legacy_redeem" "ok"
                   [("channel", PStr (pa_channel attempt)); ("token_hint", PStr (c_token_hint redeemed));
                    ("token_hash_prefix", PStr (c_token_hash_prefix redeemed))];
             mret redeemed
       | _, _ => mret consume
       end.

(** [str(extra.get(key) or fallback)] *)
Definition extra_or (attempt : PairingAttempt) (key fallback : string) : string :=
  py_str (py_or (dget_none (pa_extra attempt) key) (PStr fallback)).

Definition _bridge_pairing_to_controlplane (attempt : PairingAttempt) (consume : ConsumeResult) : CPM () :=
  if negb bridge then mret ()
  else
    session_id ← caught (pa_channel attempt +:+ "-pair:" +:+ pa_chat_key attempt)
      (resolve_session (extra_or attempt "session_user_key" (pa_account_id attempt))
                       (extra_or attempt "session_chat_key" (pa_chat_key attempt)));
    _ ← caught "" (upsert_pairing (pa_channel attempt) (extra_or attempt "subject_id" (pa_chat_key attempt))
          (extra_or attempt "user_id" (pa_account_id attempt)) session_id
          (Some PRINCIPAL_BINDING_STATUS_ACTIVE)
          (Some (list_or (c_scopes consume) (pp_default_scopes policy)))
          (Some (pa_channel attempt +:+ "_pair_bridge")) None);
    mret ().

Definition handled (text : string) : HandleResult := {| hr_handled := true; hr_reply_text := Some text |}.
Definition not_handled : HandleResult := {| hr_handled := false; hr_reply_text := None |}.
Definition _rejected (reason : string) : HandleResult := handled (format_failure_reply reason).
Definition too_many : HandleResult := handled "Too many pairing attempts. Try again shortly.".

(** What follows the guards: consuming the token and recording the outcome. *)
Definition redeem_attempt (attempt : PairingAttempt) : CPM HandleResult :=
  first ← consume_pair_token (pa_channel attempt) (pa_token attempt) (pa_account_id attempt)
            (pa_chat_key attempt) (pp_hash_pepper policy);
  consume ← (if negb (c_ok first) && String.eqb (c_reason first) "invalid_token"
                && match legacy with Some _ => true | None => false end
             then _try_legacy_redeem attempt first else mret first);
  let reason := str_or (Some (c_reason consume)) "unknown" in
  let details := [("channel", PStr (pa_channel attempt)); ("token_hint", PStr (c_token_hint consume));
                  ("token_hash_prefix", PStr (c_token_hash_prefix consume))] in
  _ ← _record_attempt attempt reason;
  if c_ok consume then
    _ ← _bridge_pairing_to_controlplane attempt consume;
    _ ← _audit "cp.pairing.token.consumed" "ok" details;
    mret (handled format_success_reply)
  else
    _ ← _audit "cp.pairing.token.rejected" reason details;
    mret (_rejected reason).

Definition handle_pairing_attempt (inbound : InboundMessage) (channel_context : dict) : CPM HandleResult :=
  if negb (pp_enabled policy) || String.eqb (pp_mode policy) PAIRING_MODE_OFF then mret not_handled
  else
       extracted ← lift_py (extract_pairing_attempt inbound channel_context);
       match extracted with
       | None => mret not_handled
       | Some attempt =>
           if negb (String.eqb (pa_chat_type attempt) "private") && negb (pp_allow_in_groups policy)
           then mret (handled "Pairing is only allowed in direct messages.")
           else if negb (_TOKEN_ALLOWED_RE (pa_token attempt)) then
             _ ← _record_attempt attempt "invalid_format";
             mret (_rejected "invalid_format")
           else
             lru_count ← bump (str_take 12 (pa_token attempt));
             if 8 <? lru_count then
               _ ← _record_attempt attempt "lru_limited";
               mret too_many
             else
               limited ← _is_rate_limited attempt;
               if (limited : bool) then
                 _ ← _record_attempt attempt "rate_limited";
                 mret too_many
               else redeem_attempt attempt
       end.
End Service.
