(* ===== verification/CPWorker.v ===== *)
(** Routing and the queue workers ([modules/controlplane/runtime/router.py],
    [runtime/worker/inbox.py], [runtime/worker/outbox.py]).  The dispatcher, which
    runs commands and the brain, and the channel adapters that deliver replies are
    parameters: the workers are proved for every behaviour of theirs.  [parser] is
    the dispatcher's parser. *)

From S2P Require Import Prelude PyValue Timestamps PyText Schedule CPTables CPPrincipals CPQueues CPModels CPAuth.
From Stdlib Require Import Ascii.

Local Open Scope Z_scope.

Definition cp_exn_text (e : cp_exn) : string :=
  match e with
  | CPPy (PyValueError m) | CPPy (PyTypeError m) | CPPy (PyOverflowError m) => m
  | CPIntegrityError m | CPRuntimeError m => m
  end.

(** [try: m except Exception as exc: handler(exc)] *)
Definition try_except {A} (m : CPM A) (handler : cp_exn → CPM A) : CPM A := λ w,
  match m w with
  | (w', Raise e) => handler e w'
  | r => r
  end.

(** ** Router *)

Definition _SESSION_RESERVED : list string :=
  ["new"; "use"; "title"; "id"; "status"; "list"; "export"; "sessions"].

Definition mention_char (c : ascii) : bool :=
  let n := N_of_ascii c in
  ((65 <=? n) && (n <=? 90) || (97 <=? n) && (n <=? 122) || (48 <=? n) && (n <=? 57)
   || (n =? 58) || (n =? 95) || (n =? 45))%N.
Fixpoint take_while (p : ascii → bool) (s : string) : string :=
  match s with
  | EmptyString => EmptyString
  | String c s' => if p c then String c (take_while p s') else EmptyString
  end.
(** [re.search("@([A-Za-z0-9:_-]+)", text)]: the first at sign with a name. *)
Fixpoint _AGENT_MENTION_RE (text : string) : option string :=
  match text with
  | EmptyString => None
  | String c s =>
      if Ascii.eqb c "@"%char && truthy (take_while mention_char s)
      then Some (take_while mention_char s) else _AGENT_MENTION_RE s
  end.

(** [stripped.split(maxsplit=1)[1]]: the text after the first word. *)
Definition rest_after_word (s : string) : string :=
  drop_while latin1_is_space (drop_while (λ c, negb (latin1_is_space c)) s).
Definition _extract_session_override (text : string) : option string :=
  let stripped_text := py_strip text in
  if negb (py_startswith stripped_text "/session ") then None
  else
    let candidate := rest_after_word stripped_text in
    if str_in (py_lower candidate) _SESSION_RESERVED then None else Some candidate.

(** [str(meta.get(key, "")).strip()] *)
Definition meta_text (meta : dict) (key : string) : string :=
  py_strip (match dget meta key with Some v => py_str v | None => "" end).
Definition _extract_trace_id (inbound : InboundMessage) : option string :=
  let meta := im_metadata (canonicalize_inbound_message inbound) in
  if truthy (meta_text meta "trace_id") then Some (meta_text meta "trace_id")
  else if truthy (meta_text meta "controlplane.trace_id") then Some (meta_text meta "controlplane.trace_id")
  else match dget_none meta "control_event" with
       | PDict nested => if truthy (meta_text nested "trace_id") then Some (meta_text nested "trace_id") else None
       | _ => None
       end.

Section Router.
Context {Env : PyEnv}.
(** The keys of the administrators, when an evaluator is configured. *)
Variable admins : option (list string).

Definition router_is_admin (user_key : string) : bool :=
  match admins with Some keys => is_admin keys user_key | None => false end.

Definition _resolve_agent (text session_id : string) : CPM string :=
  match _AGENT_MENTION_RE text with
  | Some name => _ ← ensure_agent name (Some name); mret name
  | None => resolve_agent session_id
  end.

(** The session a message asks for, when it may have it, or the chat's own. *)
Definition route_session (inbound : InboundMessage) : CPM string :=
  match _extract_session_override (im_text inbound) with
  | None => resolve_session (im_user_key inbound) (im_chat_key inbound)
  | Some requested =>
      let admin := router_is_admin (im_user_key inbound) in
      owner ← session_owner requested;
      bound ← bind_session_owned (im_user_key inbound) (im_chat_key inbound) requested admin;
      let details := [("user_key", PStr (im_user_key inbound)); ("chat_key", PStr (im_chat_key inbound));
                      ("requested_session_id", PStr requested); ("owner_user_key", ostr_val owner)] in
      if (bound : bool) then
        _ ← (if match owner with Some o => negb (String.eqb o (im_user_key inbound)) | None => false end
                && admin
             then audit "session.bind.admin_override" "ok" details else mret ());
        mret requested
      else
        _ ← audit "session.bind.denied" "ok"
              (details ++ [("reason", PStr (match owner with None => "missing_session"
                                            | Some _ => "owner_mismatch" end))]);
        resolve_session (im_user_key inbound) (im_chat_key inbound)
  end.

Definition router_resolve (inbound : InboundMessage) : CPM ResolvedContext :=
  session_id ← route_session inbound;
  agent_id ← _resolve_agent (im_text inbound) session_id;
  trace_id ← uuid_or (_extract_trace_id inbound);
  span ← cp_uuid;
  mret {| rc_user_key := im_user_key inbound; rc_chat_key := im_chat_key inbound;
          rc_session_id := session_id; rc_agent_id := agent_id; rc_role := "user";
          rc_trace_id := trace_id; rc_span_id := str_take 16 span |}.
End Router.

(** ** From rows to messages *)

(** The items of [scopes_raw]; a value that cannot be iterated raises. *)
Fixpoint str_chars (s : string) : list string :=
  match s with EmptyString => [] | String c s' => String c EmptyString :: str_chars s' end.
Definition py_items (v : pyval) : PR (list string) :=
  match v with
  | PList l => Ok (map py_str l)
  | PDict d => Ok (map fst d)
  | PStr s => Ok (str_chars s)
  | _ => Raise (PyTypeError "object is not iterable")
  end.
Definition _load_auth (raw : pyval) : PR (option AuthContext) :=
  match raw with
  | PDict d =>
      let role := str_or_blank (dget_none d "role") in
      if negb (truthy role) then Ok None
      else
        scopes ← py_items (py_or (dget_none d "scopes") (PList []));
        Ok (Some {| au_role := role; au_scopes := nonblank scopes;
                    au_principal_id := match dget_none d "principal_id" with
                                       | PNone => None
                                       | v => Some (py_str v)
                                       end;
                    au_metadata := match dget_none d "metadata" with PDict m => m | _ => [] end |})
  | _ => Ok None
  end.

(** [str(payload.get(a) or payload.get(b) or fallback)] *)
Definition payload_or (payload : dict) (a b fallback : string) : string :=
  py_str (py_or (py_or (dget_none payload a) (dget_none payload b)) (PStr fallback)).
Definition payload_dict (payload : dict) (key : string) : dict :=
  match dget_none payload key with PDict d => d | _ => [] end.
Definition opt_truthy_str (v : pyval) : option string := if py_truthy v then Some (py_str v) else None.

Section Worker.
Context {Env : PyEnv}.

Definition message_time (payload : dict) : CPM Z :=
  now ← cp_now;
  match dget_none payload "timestamp" with
  | PStr s =>
      if truthy (py_strip s) then
        match py_fromisoformat s with
        | Some (wall, offset) => mret (wall - default 0 offset)
        | None => cp_now
        end
      else mret now
  | _ => mret now
  end.

Definition _row_to_inbound (row : InboxRow) : CPM InboundMessage :=
  let payload := i_payload row in
  let metadata0 := payload_dict payload "metadata" in
  let meta0 := payload_dict payload "meta" in
  let metadata := list_or metadata0 meta0 in
  let meta := list_or meta0 metadata in
  timestamp ← message_time payload;
  auth ← lift_py (_load_auth (dget_none payload "auth"));
  mret (canonicalize_inbound_message
    {| im_user_key := payload_or payload "user_key" "user_id" (i_user_id row);
       im_chat_key := payload_or payload "chat_key" "chat_id" (i_chat_id row);
       im_text := py_str (py_or (dget_none payload "text") (PStr ""));
       im_channel := py_str (py_or (dget_none payload "channel") (PStr (i_channel row)));
       im_thread_key := opt_truthy_str (dget_none payload "thread_key"); im_meta := meta;
       im_inbound_id := Some (i_inbox_id row);
       im_channel_message_id := Some (i_channel_message_id row); im_chat_id := Some (i_chat_id row);
       im_user_id := Some (i_user_id row);
       im_thread_id := if otruthy (i_thread_id row) then i_thread_id row else None;
       im_timestamp := timestamp; im_reply_to := opt_truthy_str (dget_none payload "reply_to");
       im_metadata := metadata; im_auth := auth |}).

(** ** The inbox worker *)

Record Authorizer := {
  az_identity : bool;
  az_default_scopes : list string;
  az_command_scopes : string → option (list string);
}.
Record InboxConfig := {
  ic_authorizer : option Authorizer;
  ic_rate_policy : option RateLimitPolicy;
  ic_lock_owner : string;
  ic_max_attempts : Z;
  ic_max_backoff_s : Z;
}.
(** What [run_once] reports of the row it claimed. *)
Record WorkResult := {
  wr_status : string;
  wr_id : string;
  wr_detail : option string;
}.

Definition _rate_limit_already_checked (inbound : InboundMessage) : bool :=
  py_truthy (dget_none (im_meta inbound) "controlplane_rate_limit_checked")
  || py_truthy (dget_none (im_metadata inbound) "controlplane_rate_limit_checked").

Definition _queue_text_reply (row : InboxRow) (text payload_type : string) : CPM () :=
  generated_at ← iso_now;
  _ ← enqueue_outbox (i_channel row) (i_chat_id row)
        [("type", PStr payload_type); ("text", PStr text); ("generated_at", PStr generated_at)]
        (if otruthy (i_thread_id row) then i_thread_id row else None)
        (Some (py_str (py_or (dget_none (i_payload row) "reply_to") (PStr (i_channel_message_id row)))))
        None;
  mret ().

Section Inbox.
Variable cfg : InboxConfig.
Variable parser : string → option ParsedCommand.
(** [to_legacy_payload] of what [dispatcher.dispatch] returns, and the context. *)
Variable dispatch : InboundMessage → CPM (dict * ResolvedContext).

Definition _authorize_inbound (inbound : InboundMessage) : CPM (InboundMessage * option AuthContext) :=
  match ic_authorizer cfg with
  | None => mret (inbound, im_auth inbound)
  | Some az =>
      auth ← auth_for_inbound (az_identity az) (az_default_scopes az) inbound;
      mret (with_auth (Some auth) inbound, Some auth)
  end.

Definition _handle_unpaired (row : InboxRow) (inbound : InboundMessage) (auth : option AuthContext)
    (inbox_id : string) : CPM (option WorkResult) :=
  match ic_authorizer cfg, auth with
  | Some _, Some a =>
      if negb (String.eqb (au_role a) "unpaired") || is_pair_command (im_text inbound) then mret None
      else
        _ ← _queue_text_reply row PAIRING_REQUIRED_HINT "auth_error";
        _ ← ack_inbox inbox_id;
        mret (Some {| wr_status := "unpaired"; wr_id := inbox_id; wr_detail := None |})
  | _, _ => mret None
  end.

(** Whether the message or command is within the scopes of the identity. *)
Definition scope_decision (az : Authorizer) (parsed : option ParsedCommand) (auth : AuthContext)
    : bool * string :=
  match parsed with
  | None => message_allowed auth
  | Some command => command_allowed (az_default_scopes az) (az_command_scopes az) command auth
  end.
Definition _handle_scope_denial (row : InboxRow) (inbound : InboundMessage) (auth : option AuthContext)
    (parsed : option ParsedCommand) (inbox_id : string) : CPM (option WorkResult) :=
  match ic_authorizer cfg, auth with
  | Some az, Some a =>
      if is_pair_command (im_text inbound) then mret None
      else
        let decision := scope_decision az parsed a in
        if decision.1 then mret None
        else
          _ ← _queue_text_reply row ("Permission denied: " +:+ decision.2) "auth_error";
          _ ← audit "cp.error" "denied" [("outcome", PStr "denied"); ("reason", PStr decision.2);
                                        ("inbox_id", PStr inbox_id)];
          _ ← ack_inbox inbox_id;
          mret (Some {| wr_status := "denied"; wr_id := inbox_id; wr_detail := Some decision.2 |})
  | _, _ => mret None
  end.

Definition _handle_rate_limit (row : InboxRow) (inbound : InboundMessage) (inbox_id : string)
    : CPM (option WorkResult) :=
  if _rate_limit_already_checked inbound then mret None
  else match ic_rate_policy cfg with
       | None => mret None
       | Some policy =>
           session_id ← resolve_session (im_user_key inbound) (im_chat_key inbound);
           checked ← rate_check policy inbound session_id;
           let '(allowed, reason) := checked in
           if (allowed : bool) then mret None
           else
             _ ← _queue_text_reply row ("Rate limited: " +:+ reason) "rate_limited";
             _ ← audit "cp.error" "rate_limited" [("outcome", PStr "rate_limited");
                                                 ("reason", PStr reason); ("inbox_id", PStr inbox_id)];
             _ ← ack_inbox inbox_id;
             mret (Some {| wr_status := "rate_limited"; wr_id := inbox_id; wr_detail := Some reason |})
       end.

Definition _touch_bindings (row : InboxRow) : CPM () :=
  _ ← touch_pairing (i_channel row) (i_chat_id row);
  touch_channel_subject (i_channel row) (i_chat_id row).

Definition _dispatch_to_outbox (row : InboxRow) (inbound : InboundMessage) (inbox_id : string)
    : CPM WorkResult :=
  result ← dispatch inbound;
  let '(payload, ctx) := result in
  outbox_id ← enqueue_outbox (i_channel row) (i_chat_id row) payload
                (if otruthy (i_thread_id row) then i_thread_id row else None)
                (Some (str_or (im_reply_to inbound) (i_channel_message_id row))) None;
  _ ← audit "cp.outbox.enqueued" "ok"
        [("reason", PStr "enqueued"); ("outbox_id", PStr outbox_id); ("inbox_id", PStr inbox_id);
         ("channel", PStr (i_channel row)); ("chat_id", PStr (i_chat_id row));
         ("update_id", py_or (py_or (dget_none (im_metadata inbound) "update_id")
                                (dget_none (im_meta inbound) "update_id"))
                         (py_or (PStr (i_channel_message_id row)) PNone))];
  _ ← _touch_bindings row;
  _ ← audit (if py_eq (dget_none payload "type") (PStr "command_result")
             then "cp.command.executed" else "cp.chat.dispatched") "ok"
        [("session_id", PStr (rc_session_id ctx)); ("agent_id", PStr (rc_agent_id ctx));
         ("inbox_id", PStr inbox_id)];
  _ ← ack_inbox inbox_id;
  mret {| wr_status := "done"; wr_id := inbox_id; wr_detail := Some (rc_session_id ctx) |}.

Definition _mark_retry_or_dead (inbox_id : string) (exc : cp_exn) : CPM WorkResult :=
  let error := str_take 2000 (cp_exn_text exc) in
  status ← mark_inbox_retry inbox_id error (ic_max_attempts cfg) (ic_max_backoff_s cfg);
  _ ← audit (if String.eqb status "dead" then "cp.inbox.deadletter" else "cp.inbox.retry") status
        [("outcome", PStr status); ("inbox_id", PStr inbox_id); ("error", PStr error)];
  mret {| wr_status := status; wr_id := inbox_id; wr_detail := Some error |}.

(** The guards of [run_once]: [inr] is an answer without a dispatch, [inl] the
    message to dispatch. *)
Definition admit_row (row : InboxRow) : CPM (InboundMessage + WorkResult) :=
  let inbox_id := i_inbox_id row in
  inbound0 ← _row_to_inbound row;
  _ ← audit "channel.message.received" "ok"
        [("channel", PStr (i_channel row)); ("chat_id", PStr (i_chat_id row)); ("inbox_id", PStr inbox_id)];
  authorized ← _authorize_inbound inbound0;
  let '(inbound, auth) := authorized in
  unpaired ← _handle_unpaired row inbound auth inbox_id;
  match unpaired with
  | Some result => mret (inr result)
  | None =>
      denied ← _handle_scope_denial row inbound auth (parser (im_text inbound)) inbox_id;
      match denied with
      | Some result => mret (inr result)
      | None =>
          limited ← _handle_rate_limit row inbound inbox_id;
          match limited with
          | Some result => mret (inr result)
          | None => mret (inl inbound)
          end
      end
  end.
Definition inbox_work (row : InboxRow) : CPM WorkResult :=
  try_except (
    admitted ← admit_row row;
    match admitted with
    | inr result => mret result
    | inl inbound => _dispatch_to_outbox row inbound (i_inbox_id row)
    end) (_mark_retry_or_dead (i_inbox_id row)).

Definition inbox_run_once : CPM (option WorkResult) :=
  claimed ← claim_inbox (ic_lock_owner cfg) 120;
  match claimed with
  | None => mret None
  | Some row => result ← inbox_work row; mret (Some result)
  end.
End Inbox.

(** ** The outbox worker *)

Section Outbox.
Variable lock_owner : string.
Variable max_attempts max_backoff_s : Z.
(** [registry.get(channel).deliver(payload, context)] *)
Variable deliver : dict → OutboxRow → CPM pyval.

Definition delivery_details (row : OutboxRow) (reason : string) : dict :=
  [("outbox_id", PStr (o_outbox_id row)); ("channel", PStr (o_channel row));
   ("chat_id", PStr (o_chat_id row)); ("reason", PStr reason)].
Definition outbox_work (row : OutboxRow) : CPM WorkResult :=
  let outbox_id := o_outbox_id row in
  try_except (
    _ ← deliver (o_payload row) row;
    _ ← audit "cp.route.outbox.selected" "ok" (delivery_details row "registry_route");
    _ ← mark_outbox_sent outbox_id;
    _ ← audit "channel.message.sent" "ok" (delivery_details row "registry_route");
    _ ← audit "cp.delivery.sent" "ok" (delivery_details row "delivery_ok");
    mret {| wr_status := "sent"; wr_id := outbox_id; wr_detail := None |})
  (λ exc,
    _ ← audit "cp.delivery.failed" "ok"
          (delivery_details row "delivery_exception" ++ [("error", PStr (cp_exn_text exc))]);
    state ← mark_outbox_retry outbox_id (cp_exn_text exc) max_attempts max_backoff_s;
    _ ← (if String.eqb state "dead"
         then audit "cp.outbox.deadletter" "ok"
                [("outbox_id", PStr outbox_id); ("error", PStr (cp_exn_text exc));
                 ("reason", PStr "max_attempts_exceeded")]
         else mret ());
    mret {| wr_status := state; wr_id := outbox_id; wr_detail := Some (cp_exn_text exc) |}).
Definition outbox_run_once : CPM (option WorkResult) :=
  claimed ← claim_outbox lock_owner 120;
  match claimed with
  | None => mret None
  | Some row => result ← outbox_work row; mret (Some result)
  end.
End Outbox.
End Worker.
