(* ===== verification/CPSteps.v ===== *)
(** The methods of the control plane store as steps, and the tactics that show
    what a method leaves alone. *)

From S2P Require Import Prelude PyValue Timestamps PyText Schedule CPTables CPPrincipals CPQueues CPModels.
From Stdlib Require Import Ascii.

Local Open Scope Z_scope.

(** [g] has the same value before and after. *)
Definition same {T} (g : CPWorld → T) : CPWorld → CPWorld → Prop := λ w w', g w' = g w.
#[global] Instance same_preorder {T} (g : CPWorld → T) : PreOrder (same g).
Proof. split; [by intros w|]. intros w1 w2 w3 H1 H2. unfold same in *. congruence. Qed.

(** A relation that only looks at [g] holds of worlds with the same [g]. *)
Lemma within_impl {A} (R S : CPWorld → CPWorld → Prop) (m : CPM A) :
  (∀ w w', R w w' → S w w') → within R m → within S m.
Proof. intros H Hm w. apply H, Hm. Qed.

(** What a rollback keeps: [R] holds of the restored world. *)
Definition rolls_back (R : CPWorld → CPWorld → Prop) : Prop := ∀ w w', R w w' → R w (cp_rollback w w').
Create HintDb cpops.

(** Decomposes [within R m] along the program; the statements that change tables
    are left to [tac]. *)
Ltac within_with tac :=
  repeat first
    [ apply within_ret; apply _
    | apply within_raise; apply _
    | apply within_gets; apply _
    | apply within_get; apply _
    | apply within_lift; apply _
    | apply within_bind; [apply _| |intro]
    | apply within_transaction; [solve [tac]|]
    | progress unfold cp_tx, now_ts, iso_now, iso_after, iso_ago, uuid_or, lift_py, cp_value_error
    | solve [tac]
    | solve [intros ?w; tac]
    | match goal with
      | |- within _ (if ?b then _ else _) => destruct b
      | |- within _ (match ?x with _ => _ end) => destruct x
      | |- within _ (let '_ := ?x in _) => destruct x
      end ].

(** ** Keys *)

(** Rows with the same key are the same row. *)
Lemma key_unique {A B} (g : A → B) (l : list A) x y :
  NoDup (map g l) → x ∈ l → y ∈ l → g x = g y → x = y.
Proof.
  intros Hn Hx Hy E. induction l as [|z l IH]; [by apply elem_of_nil in Hx|].
  simpl in Hn. apply NoDup_cons in Hn as [Hz Hn].
  assert (∀ v, v ∈ l → g v ≠ g z) as Hne.
  { intros v Hv Ev. apply Hz. rewrite <-Ev. by apply list_elem_of_In, in_map, list_elem_of_In. }
  apply elem_of_cons in Hx as [->|Hx], Hy as [->|Hy]; [done| | |by apply IH].
  - by destruct (Hne y Hy).
  - by destruct (Hne x Hx).
Qed.

(** Adding a row with a new key. *)
Lemma key_append {A B} (g : A → B) (l : list A) x :
  NoDup (map g l) → (∀ y, y ∈ l → g y ≠ g x) → NoDup (map g (l ++ [x])).
Proof.
  intros Hn Hx. rewrite map_app. apply NoDup_app. split_and!; [done| |apply NoDup_singleton].
  intros k Hk Hin. apply list_elem_of_singleton in Hin as ->.
  apply list_elem_of_In, in_map_iff in Hk as (y & E & Hy). apply (Hx y); [by apply list_elem_of_In|done].
Qed.

(** The row that [find] returns for a key. *)
Lemma find_key {A B} (g : A → B) (p : A → bool) (l : list A) x :
  NoDup (map g l) → x ∈ l → p x = true → (∀ y, p y = true → g y = g x) → List.find p l = Some x.
Proof.
  intros Hn Hx Hp Hg. destruct (List.find p l) as [y|] eqn:E.
  - apply find_some in E as [Hy Hpy]. f_equal.
    apply (key_unique g l); [done|by apply list_elem_of_In|done|auto].
  - apply list_elem_of_In in Hx. apply (find_none _ _ E) in Hx. congruence.
Qed.

Lemma existsb_none {A} (p : A → bool) l : existsb p l = false → ∀ x, x ∈ l → p x = false.
Proof.
  intros H x Hx. apply not_true_is_false. intros Hp.
  assert (existsb p l = true) by (apply existsb_exists; exists x; split; [by apply list_elem_of_In|done]).
  congruence.
Qed.

Lemma find_app_none {A} (p : A → bool) l1 l2 :
  (∀ x, x ∈ l1 → p x = false) → List.find p (l1 ++ l2) = List.find p l2.
Proof.
  intros H. induction l1 as [|x l1 IH]; simpl; [done|]. rewrite (H x) by (left; done).
  apply IH. intros y Hy. apply H. by right.
Qed.

(** ** Methods *)

Section Methods.
Context {Env : PyEnv} {Cp : CPEnv}.

(** The methods of the store that change it.  (The retention deletions of
    [runtime/janitor.py] run their own statements and are not methods.) *)
Inductive store_method : ∀ A, CPM A → Prop :=
| sm_issue c ea ec sc t ttl p : store_method IssueResult (issue_pair_token c ea ec sc t ttl p)
| sm_consume c t a k p : store_method ConsumeResult (consume_pair_token c t a k p)
| sm_record c a k t o p d : store_method unit (record_pair_attempt c a k t o p d)
| sm_bulk_tokens rows : store_method Z (bulk_insert_pair_tokens rows)
| sm_bulk_attempts rows : store_method Z (bulk_insert_pair_attempts rows)
| sm_upsert_pairing c k u s st sc n p : store_method string (upsert_pairing c k u s st sc n p)
| sm_touch_pairing c k : store_method unit (touch_pairing c k)
| sm_backfill c st l : store_method BackfillCounts (backfill_pairings_to_principals c st l)
| sm_upsert_principal p m : store_method string (upsert_principal p m)
| sm_bind_subject p c s st sc n m : store_method unit (bind_principal_subject p c s st sc n m)
| sm_update_subject c s st sc n : store_method bool (update_channel_subject c s st sc n)
| sm_touch_subject c s : store_method unit (touch_channel_subject c s)
| sm_enqueue_inbox c k m u p t i : store_method (string * bool) (enqueue_inbox c k m u p t i)
| sm_claim_inbox o ttl : store_method (option InboxRow) (claim_inbox o ttl)
| sm_ack_inbox i : store_method unit (ack_inbox i)
| sm_fail_inbox i e : store_method unit (fail_inbox i e)
| sm_retry_inbox i e ma mb : store_method string (mark_inbox_retry i e ma mb)
| sm_enqueue_outbox c k p t r o : store_method string (enqueue_outbox c k p t r o)
| sm_claim_outbox o ttl : store_method (option OutboxRow) (claim_outbox o ttl)
| sm_sent_outbox i : store_method unit (mark_outbox_sent i)
| sm_retry_outbox i e ma mb : store_method string (mark_outbox_retry i e ma mb)
| sm_set_binding k s a : store_method unit (set_chat_binding k s a)
| sm_new_session u k : store_method string (new_session u k)
| sm_resolve_session u k : store_method string (resolve_session u k)
| sm_bind_session u k s : store_method unit (bind_session u k s)
| sm_bind_owned u k s ad : store_method bool (bind_session_owned u k s ad)
| sm_set_title s t : store_method unit (set_session_title s t)
| sm_set_agent s a : store_method unit (set_agent s a)
| sm_ensure_agent a n : store_method unit (ensure_agent a n)
| sm_put_inbound k u t p s a ts : store_method Z (put_inbound k u t p s a ts)
| sm_append_turn s r c a m : store_method string (append_turn s r c a m)
| sm_rate t i ws l : store_method RateResult (increment_rate_limit t i ws l).

Definition cp_step (w w' : CPWorld) : Prop := ∃ A (m : CPM A), store_method A m ∧ w' = (m w).1.
Definition cp_steps : CPWorld → CPWorld → Prop := rtc cp_step.

Lemma steps_within (R : CPWorld → CPWorld → Prop) `{!PreOrder R} :
  (∀ A (m : CPM A), store_method A m → within R m) → ∀ w w', cp_steps w w' → R w w'.
Proof.
  intros H w w' Hs. induction Hs as [w|w1 w2 w3 (A & m & Hm & ->) _ IH]; [done|].
  etrans; [by apply (H A m)|done].
Qed.
End Methods.

#[export] Hint Unfold issue_pair_token validate_or_generate_token consume_pair_token
  record_pair_attempt bulk_insert_pair_tokens bulk_insert_pair_attempts int_or_now upsert_pairing
  _upsert_principal_row _upsert_channel_subject touch_pairing
  backfill_pairings_to_principals backfill_row text_or_now upsert_principal bind_principal_subject
  update_channel_subject touch_channel_subject enqueue_inbox claim_inbox ack_inbox
  fail_inbox mark_inbox_retry enqueue_outbox claim_outbox mark_outbox_sent mark_outbox_retry
  set_chat_binding put_chat_binding new_session resolve_session resolve_agent get_chat_binding bind_session
  session_owner bind_session_owned set_session_title set_agent ensure_agent put_inbound append_turn
  increment_rate_limit _ensure_session_locked _set_session_agent_locked : cpops.

(** ** Frames

    [g] ignores a table when writing the table does not change it. *)

Section Frames.
Context {Env : PyEnv} {Cp : CPEnv} {T : Type} (g : CPWorld → T).
Hypothesis g_counters : ∀ t u s w, g (set_counters t u s w) = g w.
Hypothesis g_rollback : ∀ w w', g (cp_rollback w w') = g w.

Lemma insert_token_same t : (∀ f w, g (set_tokens f w) = g w) → within (same g) (insert_token t).
Proof. intros H w. unfold insert_token, same. case_match; simpl; auto. Qed.
Lemma insert_inbox_same r : (∀ f w, g (set_inbox f w) = g w) → within (same g) (insert_inbox r).
Proof. intros H w. unfold insert_inbox, same. repeat case_match; simpl; auto. Qed.
Lemma upsert_pairing_row_same p :
  (∀ f w, g (set_pairings f w) = g w) → within (same g) (upsert_pairing_row p).
Proof. intros H w. unfold upsert_pairing_row, same. repeat case_match; simpl; auto. Qed.
Lemma now_same : within (same g) cp_now.
Proof. intros w. apply g_counters. Qed.
Lemma uuid_same : within (same g) cp_uuid.
Proof. intros w. apply g_counters. Qed.
Lemma secret_same : within (same g) cp_secret.
Proof. intros w. apply g_counters. Qed.
Lemma bulk_tokens_same rows :
  (∀ f w, g (set_tokens f w) = g w) → within (same g) (bulk_insert_token_rows rows).
Proof.
  intros H. induction rows as [|r rows IH]; simpl; unfold int_or_now;
    within_with ltac:(first [done|apply IH|apply now_same|intros w; apply H]).
Qed.
Lemma bulk_attempts_same rows :
  (∀ f w, g (set_attempts f w) = g w) → within (same g) (bulk_insert_attempt_rows rows).
Proof.
  intros H. induction rows as [|r rows IH]; simpl; unfold int_or_now;
    within_with ltac:(first [done|apply IH|apply now_same|intros w; apply H]).
Qed.
Lemma backfill_same rows c :
  (∀ f w, g (set_principals f w) = g w) → (∀ f w, g (set_subjects f w) = g w) →
  within (same g) (backfill_rows c rows).
Proof.
  intros H1 H2. revert c. induction rows as [|r rows IH]; simpl; intros c; autounfold with cpops;
    within_with ltac:(first [done|apply IH|apply now_same|intros w; apply H1|intros w; apply H2]).
Qed.
End Frames.

(** Closes [within (same g) m] for a statement that does not write [g]. *)
Ltac frame_tac := first
  [ done | by apply insert_token_same | by apply insert_inbox_same | by apply upsert_pairing_row_same
  | by apply bulk_tokens_same | by apply bulk_attempts_same | by apply backfill_same ].
Ltac frames := autounfold with cpops; within_with ltac:(frame_tac).

(** A relation that holds whenever [g] is unchanged holds of the statements that
    do not write [g]. *)
Ltac frame_by H := first [ intros; apply H; done | apply (within_impl (same _) _ _ H); frame_tac ].
