(* ===== verification/CPTokenProps.v ===== *)
(** Pairing tokens: a token is consumed at most once, by the account and chat it was
    issued for, before it expires; and sessions: their owner never changes. *)

From S2P Require Import Prelude PyValue Timestamps PyText Schedule CPTables CPPrincipals CPQueues CPModels CPAuth CPWorker CPSteps.
From Stdlib Require Import Ascii.

Local Open Scope Z_scope.

(** ** The token table *)

(** [token_hash] is a primary key. *)
Definition tokens_unique (w : CPWorld) : Prop := NoDup (map t_hash (pair_tokens w)).

(** Keys stay unique, and a token that was used stays as it is. *)
Definition tokens_evolve (w w' : CPWorld) : Prop :=
  (tokens_unique w → tokens_unique w') ∧
  ∀ t, t ∈ pair_tokens w → t_used_at t ≠ None → t ∈ pair_tokens w'.

#[global] Instance tokens_evolve_preorder : PreOrder tokens_evolve.
Proof.
  split; [by split|]. intros w1 w2 w3 [H1 H2] [H3 H4]. split; auto.
Qed.

Lemma tokens_evolve_same w w' : same pair_tokens w w' → tokens_evolve w w'.
Proof. unfold same, tokens_evolve, tokens_unique. by intros ->. Qed.

Lemma tokens_evolve_append w t :
  existsb (λ t', String.eqb (t_hash t') (t_hash t)) (pair_tokens w) = false →
  tokens_evolve w (set_tokens (λ l, l ++ [t]) w).
Proof.
  intros Hno. split.
  - unfold tokens_unique. simpl. intros Hn. apply key_append; [done|].
    intros t' Ht'. apply (existsb_none _ _ Hno) in Ht'. by apply String.eqb_neq in Ht'.
  - intros t' Hin _. simpl. apply elem_of_app. by left.
Qed.

Lemma tokens_evolve_use w h ch now a k :
  tokens_evolve w (set_tokens (update_where (token_usable h ch now) (token_use now a k)) w).
Proof.
  split.
  - unfold tokens_unique. simpl. by rewrite update_where_map.
  - intros t Hin Hused. simpl. apply update_where_elem. exists t. split; [done|]. right. split; [|done].
    unfold token_usable. destruct (t_used_at t); [|done]. by rewrite andb_false_r.
Qed.

Section Tokens.
Context {Env : PyEnv} {Cp : CPEnv}.

Lemma insert_token_evolves t : within tokens_evolve (insert_token t).
Proof.
  intros w. unfold insert_token. destruct (existsb _ _) eqn:E; simpl; [done|].
  by apply tokens_evolve_append.
Qed.

Lemma bulk_tokens_evolve rows : within tokens_evolve (bulk_insert_token_rows rows).
Proof.
  induction rows as [|r rows IH]; [by intros w|]. simpl. unfold int_or_now.
  apply within_bind; [apply _| |intros created].
  { within_with ltac:(frame_by tokens_evolve_same). }
  intros w. rewrite bind_get_world. set (t := {| t_hash := _ |}).
  destruct (existsb _ _) eqn:E.
  - apply (within_bind tokens_evolve); [apply within_ret; apply _|]. intros _.
    within_with ltac:(apply IH).
  - unfold mbind at 1, M_bind at 1, modify at 1. transitivity (set_tokens (λ l, l ++ [t]) w).
    { by apply tokens_evolve_append. }
    apply (within_bind tokens_evolve); [apply IH|]. intros n. apply within_ret, _.
Qed.

Lemma method_tokens A (m : CPM A) : store_method A m → within tokens_evolve m.
Proof.
  destruct 1; autounfold with cpops;
    within_with ltac:(first [ frame_by tokens_evolve_same | apply insert_token_evolves
                            | apply bulk_tokens_evolve | apply tokens_evolve_use ]).
Qed.

(** ** Consuming *)

(** The token row that a consumer may use at [now]. *)
Definition acceptable (channel token account chat : string) (pepper : option string) (now : Z)
    (t : PairToken) : Prop :=
  t_hash t = token_hash token pepper ∧ t_channel t = py_strip channel ∧ t_used_at t = None ∧
  now ≤ t_expires_at t ∧ (∀ e, t_expected_account t = Some e → e = account) ∧
  (∀ e, t_expected_chat t = Some e → e = chat).

Lemma mismatch_spec row account chat :
  _pair_expected_mismatch row account chat = "" ↔
  (∀ e, t_expected_account row = Some e → e = account) ∧ (∀ e, t_expected_chat row = Some e → e = chat).
Proof.
  unfold _pair_expected_mismatch.
  destruct (t_expected_account row) as [e|], (t_expected_chat row) as [e'|];
    repeat match goal with |- context [String.eqb ?a ?b] =>
      let E := fresh in destruct (String.eqb a b) eqn:E;
      [apply String.eqb_eq in E; subst|apply String.eqb_neq in E] end; simpl; naive_solver.
Qed.

Lemma find_token w hashed channel row :
  tokens_unique w → row ∈ pair_tokens w → t_hash row = hashed → t_channel row = channel →
  List.find (is_token hashed channel) (pair_tokens w) = Some row.
Proof.
  intros Hu Hin Hh Hc. apply (find_key t_hash); try done; unfold is_token.
  - by rewrite Hh, Hc, !String.eqb_refl.
  - intros y Hy. bsplit. congruence.
Qed.

Lemma usable_count w hashed channel now row :
  tokens_unique w → row ∈ pair_tokens w → token_usable hashed channel now row = true →
  count_where (token_usable hashed channel now) (pair_tokens w) = 1%nat.
Proof.
  intros Hu Hin Hp. apply (count_where_unique t_hash _ _ row); try done.
  intros y Hy. unfold token_usable, is_token in *. bsplit. congruence.
Qed.

(** A refusal, whose only candidate row is [row]: what is left is that it is not
    acceptable. *)
Ltac refuse Honly :=
  eexists _, _; split; [done|]; right; split_and!; [done..|];
  let row := fresh in let Hin := fresh in
  intros row Hin Ha; pose proof (Honly _ Hin Ha); subst row.

(** What [consume_pair_token] does, on every branch. *)
Lemma consume_cases channel token account chat pepper w :
  tokens_unique w →
  let now := unix_seconds (py_clock (cp_ticks w)) in
  ∃ w1 r, consume_pair_token channel token account chat pepper w = (w1, Ok r) ∧
    ((c_ok r = true ∧ ∃ row, row ∈ pair_tokens w ∧ acceptable channel token account chat pepper now row ∧
        c_scopes r = stripped_nonblank (t_scopes row) ∧
        pair_tokens w1 = update_where (token_usable (t_hash row) (t_channel row) now)
                           (token_use now account chat) (pair_tokens w) ∧
        token_use now account chat row ∈ pair_tokens w1)
     ∨ (c_ok r = false ∧ pair_tokens w1 = pair_tokens w ∧
        ∀ row, row ∈ pair_tokens w → ¬ acceptable channel token account chat pepper now row)).
Proof.
  intros Hu now. unfold consume_pair_token. rewrite (bind_of_Ok _ _ w _ now eq_refl).
  set (w0 := set_counters _ _ _ w).
  unfold cp_tx, transaction. rewrite bind_get_world. change (pair_tokens w0) with (pair_tokens w).
  destruct (List.find _ _) as [row|] eqn:E.
  2:{ eexists _, _. split; [done|]. right. split_and!; [done..|]. intros row Hin (H1 & H2 & _).
      by rewrite (find_token w _ _ row) in E. }
  apply find_some in E as [Hin Hp]. apply list_elem_of_In in Hin. unfold is_token in Hp. bsplit.
  assert (∀ row', row' ∈ pair_tokens w → acceptable channel token account chat pepper now row' → row' = row)
    as Honly.
  { intros row' Hin' (H1 & _). apply (key_unique t_hash (pair_tokens w)); try done. by rewrite H1. }
  destruct (t_used_at row) as [u|] eqn:Eu.
  { refuse Honly. destruct Ha as (_ & _ & Ha & _). congruence. }
  destruct (t_expires_at row <? now) eqn:Ee.
  { refuse Honly. destruct Ha as (_ & _ & _ & Ha & _). apply Z.ltb_lt in Ee. lia. }
  destruct (truthy (_pair_expected_mismatch row account chat)) eqn:Em.
  { refuse Honly. destruct Ha as (_ & _ & _ & _ & Ha).
    apply mismatch_spec in Ha. by rewrite Ha in Em. }
  assert (token_usable (token_hash token pepper) (stripped channel) now row = true) as Hus.
  { unfold token_usable, is_token. rewrite Eu, H, H0, !String.eqb_refl. simpl.
    apply Z.leb_le. apply Z.ltb_ge in Ee. lia. }
  rewrite (bind_of_Ok _ _ w0 (set_tokens (update_where (token_usable (token_hash token pepper)
             (stripped channel) now) (token_use now account chat)) w0) 1%nat).
  2:{ unfold update_tokens. by rewrite (usable_count w0 _ _ now row Hu Hin Hus). }
  simpl. eexists _, _. split; [done|]. left. split; [done|]. exists row. simpl. split_and!; try done.
  - unfold acceptable. unfold truthy in Em. apply negb_false_iff, String.eqb_eq, mismatch_spec in Em as [? ?].
    split_and!; try done. apply Z.ltb_ge in Ee. lia.
  - by rewrite H, H0.
  - apply update_where_elem. exists row. split; [done|]. by left.
Qed.

(** C36: a pairing token is consumed at most once: after a consumption that
    succeeded, whatever methods of the store run next, consuming the same token
    again, from any channel, account and chat, fails and leaves the tokens alone. *)
Theorem pair_token_used_once channel token account chat pepper w w1 r w2 channel' account' chat' :
  tokens_unique w → consume_pair_token channel token account chat pepper w = (w1, Ok r) → c_ok r = true →
  cp_steps w1 w2 →
  ∃ w3 r', consume_pair_token channel' token account' chat' pepper w2 = (w3, Ok r') ∧
    c_ok r' = false ∧ pair_tokens w3 = pair_tokens w2.
Proof.
  intros Hu Hc Hok Hs.
  destruct (consume_cases channel token account chat pepper w Hu) as (w1' & r1 & Hc' & Hcase).
  rewrite Hc in Hc'. injection Hc' as <- <-.
  destruct Hcase as [(_ & row & Hin & Hacc & _ & Htok & Huse)|(H & _)]; [|congruence].
  pose proof (steps_within tokens_evolve method_tokens _ _ Hs) as [Hu2 Hused].
  assert (tokens_unique w1) as Hu1 by (unfold tokens_unique; rewrite Htok; by rewrite update_where_map).
  specialize (Hu2 Hu1). assert (t_used_at (token_use (unix_seconds (py_clock (cp_ticks w))) account chat row) ≠ None)
    as Hne by done. specialize (Hused _ Huse Hne).
  destruct (consume_cases channel' token account' chat' pepper w2 Hu2) as (w3 & r' & Hc2 & [Hcase|Hcase]).
  - exfalso. destruct Hcase as (_ & row2 & Hin2 & (Hh & _ & Hun & _) & _).
    assert (row2 = token_use (unix_seconds (py_clock (cp_ticks w))) account chat row) as ->; [|done].
    apply (key_unique t_hash (pair_tokens w2)); try done. rewrite Hh. symmetry. apply Hacc.
  - destruct Hcase as (? & ? & _). by exists w3, r'.
Qed.

(** Consuming a pairing token always answers, and accepts exactly when a token
    with that hash was issued for the channel, is unused, has not expired and
    names no other account or chat; an accepted token is marked with its consumer
    and gives its scopes, and a refusal changes no token. *)
Theorem consume_accepts_exactly channel token account chat pepper w :
  tokens_unique w →
  let now := unix_seconds (py_clock (cp_ticks w)) in
  ∃ w1 r, consume_pair_token channel token account chat pepper w = (w1, Ok r) ∧
    (c_ok r = true ↔ ∃ row, row ∈ pair_tokens w ∧ acceptable channel token account chat pepper now row) ∧
    (∀ row, row ∈ pair_tokens w → acceptable channel token account chat pepper now row →
       c_scopes r = stripped_nonblank (t_scopes row) ∧ token_use now account chat row ∈ pair_tokens w1) ∧
    (c_ok r = false → pair_tokens w1 = pair_tokens w).
Proof.
  intros Hu now.
  destruct (consume_cases channel token account chat pepper w Hu) as (w1 & r & Hc & Hcase).
  exists w1, r. split; [done|].
  destruct Hcase as [(Hok & row & Hin & Hacc & Hsc & _ & Huse)|(Hok & Htok & Hno)].
  - split_and!; [|  |congruence].
    + split; [|done]. intros _. by exists row.
    + intros row' Hin' Hacc'. assert (row' = row) as ->; [|done].
      apply (key_unique t_hash (pair_tokens w)); try done.
      transitivity (token_hash token pepper); [apply Hacc'|symmetry; apply Hacc].
  - split_and!; [|naive_solver|done]. split; [congruence|]. intros (row & Hin & Hacc). by destruct (Hno row).
Qed.
End Tokens.

(** * Sessions: the owner of a session never changes, and a chat is bound to a
    session only for its owner or an administrator. *)

Definition sessions_unique (w : CPWorld) : Prop := NoDup (map s_session_id (sessions w)).
Definition owner_of (w : CPWorld) (sid : string) : option string :=
  match List.find (has_session_id sid) (sessions w) with Some s => s_user_key s | None => None end.

(** Session ids stay unique, and owned sessions keep their owner. *)
Definition owners_kept (w w' : CPWorld) : Prop :=
  (sessions_unique w → sessions_unique w') ∧
  ∀ s o, s ∈ sessions w → s_user_key s = Some o →
    ∃ s', s' ∈ sessions w' ∧ s_session_id s' = s_session_id s ∧ s_user_key s' = Some o.

#[global] Instance owners_kept_preorder : PreOrder owners_kept.
Proof.
  split; [split; [done|by eauto]|]. intros w1 w2 w3 [H1 H2] [H3 H4]. split; [auto|].
  intros s o Hs Ho. destruct (H2 s o Hs Ho) as (s' & Hs' & Ei & Eo).
  destruct (H4 s' o Hs' Eo) as (s'' & ? & ? & ?). exists s''. split_and!; congruence.
Qed.

Lemma owners_kept_same w w' : same sessions w w' → owners_kept w w'.
Proof. unfold same, owners_kept, sessions_unique. intros ->. split; eauto. Qed.

Lemma owners_kept_update w p f :
  (∀ s, s_session_id (f s) = s_session_id s) →
  (∀ s o, s_user_key s = Some o → s_user_key (f s) = Some o) →
  owners_kept w (set_sessions (update_where p f) w).
Proof.
  intros Hid Ho. split.
  - unfold sessions_unique. simpl. by rewrite update_where_map.
  - intros s o Hs Hso. simpl. exists (if p s then f s else s). split_and!.
    + apply update_where_elem. exists s. split; [done|]. destruct (p s); auto.
    + destruct (p s); auto.
    + destruct (p s); auto.
Qed.

Lemma owners_kept_ensure sid u k now w :
  owners_kept w (set_sessions (upsert (has_session_id sid) (session_touch u k now)
    {| s_session_id := sid; s_user_key := u; s_chat_key := k; s_title := None;
       s_created_at := now; s_updated_at := now |}) w).
Proof.
  destruct (existsb (has_session_id sid) (sessions w)) eqn:E.
  - transitivity (set_sessions (update_where (has_session_id sid) (session_touch u k now)) w).
    + apply owners_kept_update; [done|]. intros s o Ho. simpl. by rewrite Ho.
    + apply owners_kept_same. unfold same, upsert. simpl. by rewrite E.
  - split.
    + unfold sessions_unique, upsert. simpl. rewrite E. intros Hn. apply key_append; [done|].
      intros s Hs. apply (existsb_none _ _ E) in Hs. unfold has_session_id in Hs. by apply String.eqb_neq in Hs.
    + intros s o Hs Ho. unfold upsert. simpl. rewrite E. exists s. split_and!; [|done..]. apply elem_of_app. by left.
Qed.

Lemma owner_of_elem w s : sessions_unique w → s ∈ sessions w → owner_of w (s_session_id s) = s_user_key s.
Proof.
  intros Hu Hs. unfold owner_of. rewrite (find_key s_session_id _ _ s); try done; unfold has_session_id.
  - by rewrite String.eqb_refl.
  - intros y Hy. by apply String.eqb_eq in Hy.
Qed.

Lemma owners_kept_owner w w' sid o :
  sessions_unique w → owners_kept w w' → owner_of w sid = Some o → owner_of w' sid = Some o.
Proof.
  intros Hu [Hu' Hk] Ho. unfold owner_of in Ho. destruct (List.find _ _) as [s|] eqn:E; [|done].
  apply find_some in E as [Hs Hi]. apply list_elem_of_In in Hs. unfold has_session_id in Hi.
  apply String.eqb_eq in Hi as <-. destruct (Hk s o Hs Ho) as (s' & Hs' & Ei & Eo).
  rewrite <-Ei, (owner_of_elem w' s'); auto.
Qed.

Section Sessions.
Context {Env : PyEnv} {Cp : CPEnv}.

Ltac owners := autounfold with cpops; within_with ltac:(first
  [ frame_by owners_kept_same | intros w; apply owners_kept_ensure
  | intros w; apply owners_kept_update; [done|]; intros ? ? Ho; simpl; by rewrite ?Ho ]).

Lemma method_owners A (m : CPM A) : store_method A m → within owners_kept m.
Proof. destruct 1; owners. Qed.

(** Once a session has an owner it keeps that owner, whatever methods of the
    store are called. *)
Theorem session_owner_fixed w w' sid o :
  sessions_unique w → owner_of w sid = Some o → cp_steps w w' → owner_of w' sid = Some o.
Proof.
  intros Hu Ho Hs. apply (owners_kept_owner w); [done| |done].
  by apply (steps_within owners_kept method_owners).
Qed.

Lemma session_owner_eq sid w : session_owner sid w = (w, Ok (owner_of w sid)).
Proof. done. Qed.

Lemma bind_session_ok u k sid w :
  ∃ w', bind_session u k sid w = (w', Ok ()) ∧ owners_kept w w' ∧
    ∃ b, get_chat_binding k w' = (w', Ok (Some b)) ∧ b_session_id b = sid.
Proof.
  pose proof (method_owners _ _ (sm_bind_session u k sid) w) as Hk.
  destruct (bind_session u k sid w) as [w' [[]|e]] eqn:E; simpl in Hk; [|done].
  exists w'. split; [done|]. split; [done|].
  unfold bind_session, cp_tx in E. msplit E as w1 now E1. apply transaction_Ok_inv in E.
  msplit E as w2 v2 E2. msplit E as w3 agent E3. unfold put_chat_binding, modify in E. injection E as <-.
  unfold get_chat_binding, gets, upsert. simpl. destruct (existsb _ _) eqn:Ex.
  - apply existsb_exists in Ex as (b & Hb & Hkey).
    set (row := {| b_chat_key := k; b_session_id := sid; b_active_agent_id := _; b_updated_at := _ |}).
    destruct (List.find (has_chat_key k) (update_where (has_chat_key k) (λ _, row) (chat_bindings w3)))
      as [b'|] eqn:Ef.
    + apply find_some in Ef as [Hb' Hk']. apply list_elem_of_In, update_where_elem in Hb'
        as (x & _ & [[_ ->]|[Hn ->]]); [by eexists|congruence].
    + exfalso. assert (row ∈ update_where (has_chat_key k) (λ _, row) (chat_bindings w3)) as Hin.
      { apply update_where_elem. exists b. split; [by apply list_elem_of_In|by left]. }
      apply list_elem_of_In in Hin. apply (find_none _ _ Ef) in Hin.
      unfold has_chat_key in Hin. simpl in Hin. by rewrite String.eqb_refl in Hin.
  - rewrite find_app_none by (by apply existsb_none).
    simpl. unfold has_chat_key. simpl. rewrite String.eqb_refl. by eexists.
Qed.

(** A chat is bound to a session on request exactly when the session has an
    owner and the requester is that owner or an administrator; otherwise nothing
    changes.  The owner stays the same. *)
Theorem session_binding_needs_owner u k sid admin w :
  sessions_unique w →
  ∃ w' b, bind_session_owned u k sid admin w = (w', Ok b) ∧
    (b = true ↔ ∃ o, owner_of w sid = Some o ∧ (o = u ∨ admin = true)) ∧
    (b = false → w' = w) ∧
    (b = true → owner_of w' sid = owner_of w sid ∧
       ∃ c, get_chat_binding k w' = (w', Ok (Some c)) ∧ b_session_id c = sid).
Proof.
  intros Hu. unfold bind_session_owned. rewrite (bind_of_Ok _ _ w w _ (session_owner_eq sid w)).
  destruct (owner_of w sid) as [o|] eqn:Eo.
  2:{ eexists w, false. split_and!; try done. split; [done|]. by intros (? & ? & _). }
  destruct (negb (String.eqb o u) && negb admin) eqn:Eg.
  - exists w, false. bsplit. split_and!; try done. split; [done|]. intros (o' & [= <-] & [->| ->]); congruence.
  - destruct (bind_session_ok u k sid w) as (w' & Hb & Hk & c & Hc & Hs).
    rewrite (bind_of_Ok _ _ w w' () Hb). exists w', true. split_and!; try done.
    + split; [|done]. intros _. exists o. split; [done|].
      apply andb_false_iff in Eg as [Eg|Eg]; bsplit; auto.
    + intros _. split; [|by eauto]. by apply (owners_kept_owner w).
Qed.

(** ** Routing *)

(** A message that asks for a session of another user, from a user who is not
    an administrator, is denied: the denial is audited and the message goes to the
    session its chat would have without the request. *)
Theorem foreign_session_denied admins m w requested o :
  _extract_session_override (im_text m) = Some requested →
  owner_of w requested = Some o → o ≠ im_user_key m → router_is_admin admins (im_user_key m) = false →
  ∃ details, route_session admins m w
    = resolve_session (im_user_key m) (im_chat_key m)
        (set_audit (λ l, l ++ [{| e_event_type := "session.bind.denied"; e_outcome := "ok";
                                  e_details := details |}]) w)
    ∧ dget details "reason" = Some (PStr "owner_mismatch").
Proof.
  intros Hreq Ho Hne Hadm. unfold route_session. rewrite Hreq, Hadm.
  rewrite (bind_of_Ok _ _ w w _ (session_owner_eq requested w)), Ho.
  rewrite (bind_of_Ok _ _ w w false).
  2:{ unfold bind_session_owned. rewrite (bind_of_Ok _ _ w w _ (session_owner_eq requested w)), Ho.
      by rewrite (proj2 (String.eqb_neq _ _) Hne). }
  eexists. split; [done|]. done.
Qed.
End Sessions.
