(* ===== verification/CPQueueProps.v ===== *)
(** The inbox: a message is stored once, a claim takes the oldest message that is
    due, a lock that has not expired is respected, and a failed message waits for its
    backoff or is set aside; and rate limits: within a window at most as many calls are
    allowed as the limit says. *)

From S2P Require Import Prelude PyValue Timestamps PyText Schedule CPTables CPPrincipals CPQueues CPModels CPSteps.
From Stdlib Require Import Ascii.

Local Open Scope Z_scope.

(** ** The inbox table *)

Definition message_key (r : InboxRow) : string * string * string :=
  (i_channel r, i_chat_id r, i_channel_message_id r).
(** The keys of [cp_inbox]. *)
Definition inbox_ok (w : CPWorld) : Prop :=
  NoDup (map i_inbox_id (inbox w)) ∧ NoDup (map message_key (inbox w)).

(** Keys stay unique and no message is forgotten. *)
Definition inbox_grows (w w' : CPWorld) : Prop :=
  (inbox_ok w → inbox_ok w') ∧
  ∀ r, r ∈ inbox w → ∃ r', r' ∈ inbox w' ∧ i_inbox_id r' = i_inbox_id r ∧ message_key r' = message_key r.

#[global] Instance inbox_grows_preorder : PreOrder inbox_grows.
Proof.
  split; [split; [done|by eauto]|]. intros w1 w2 w3 [H1 H2] [H3 H4]. split; [auto|].
  intros r Hr. destruct (H2 r Hr) as (r' & Hr' & E1 & E2).
  destruct (H4 r' Hr') as (r'' & ? & ? & ?). exists r''. split_and!; congruence.
Qed.
Lemma inbox_grows_same w w' : same inbox w w' → inbox_grows w w'.
Proof. unfold same, inbox_grows, inbox_ok. intros ->. split; eauto. Qed.

Lemma same_message_key c k m r : same_message c k m r = true ↔ message_key r = (c, k, m).
Proof.
  unfold same_message, message_key. rewrite !andb_true_iff, !String.eqb_eq. split; [|by intros [= -> -> ->]].
  by intros [[-> ->] ->].
Qed.
Lemma has_inbox_id_eq id r : has_inbox_id id r = true ↔ i_inbox_id r = id.
Proof. unfold has_inbox_id. apply String.eqb_eq. Qed.

Lemma inbox_grows_update w p f :
  (∀ r, i_inbox_id (f r) = i_inbox_id r) → (∀ r, message_key (f r) = message_key r) →
  inbox_grows w (set_inbox (update_where p f) w).
Proof.
  intros Hid Hkey. split.
  - intros [H1 H2]. split; simpl; by rewrite update_where_map.
  - intros r Hr. simpl. exists (if p r then f r else r). split_and!.
    + apply update_where_elem. exists r. split; [done|]. destruct (p r); auto.
    + destruct (p r); auto.
    + destruct (p r); auto.
Qed.

Lemma insert_inbox_grows r : within inbox_grows (insert_inbox r).
Proof.
  intros w. unfold insert_inbox.
  destruct (existsb (has_inbox_id _) _) eqn:E1, (existsb (same_message _ _ _) _) eqn:E2; simpl; try done.
  split.
  - intros [H1 H2]. split; simpl; apply key_append; try done; intros q Hq.
    + apply (existsb_none _ _ E1) in Hq. unfold has_inbox_id in Hq. by apply String.eqb_neq in Hq.
    + apply (existsb_none _ _ E2) in Hq. intros Ek.
      by rewrite (proj2 (same_message_key _ _ _ q)) in Hq by (by rewrite Ek).
  - intros q Hq. exists q. split_and!; [|done..]. simpl. apply elem_of_app. by left.
Qed.

Section Inbox.
Context {Env : PyEnv} {Cp : CPEnv}.

Lemma method_inbox A (m : CPM A) : store_method A m → within inbox_grows m.
Proof.
  destruct 1; autounfold with cpops;
    within_with ltac:(first [ frame_by inbox_grows_same | apply insert_inbox_grows
                            | by apply inbox_grows_update ]).
Qed.

(** The draws an operation makes before it looks at the inbox. *)
Lemma uuid_or_ok o w : ∃ w' id, uuid_or o w = (w', Ok id) ∧ inbox w' = inbox w.
Proof. unfold uuid_or. repeat case_match; eexists _, _; (split; [done|]); done. Qed.

Lemma iso_now_ok w : ∃ w' now, iso_now w = (w', Ok now) ∧ inbox w' = inbox w.
Proof. eexists _, _. split; [done|]. done. Qed.

Lemma enqueue_known c k m u p t i w r :
  inbox_ok w → r ∈ inbox w → message_key r = (c, k, m) →
  ∃ w', enqueue_inbox c k m u p t i w = (w', Ok (i_inbox_id r, false)) ∧ inbox w' = inbox w.
Proof.
  intros [Hn Hk] Hr Hkey. unfold enqueue_inbox.
  destruct (uuid_or_ok i w) as (w1 & id & E1 & Hi1). rewrite (bind_of_Ok _ _ _ _ _ E1).
  destruct (iso_now_ok w1) as (w2 & now & E2 & Hi2). rewrite Hi1 in Hi2. rewrite (bind_of_Ok _ _ _ _ _ E2).
  assert (existsb (same_message c k m) (inbox w2) = true) as Hex.
  { apply existsb_exists. exists r. split; [|by apply same_message_key].
    apply list_elem_of_In. by rewrite Hi2. }
  unfold cp_tx, transaction. rewrite (bind_of_Ok _ _ w2 w2 0%nat).
  2:{ unfold insert_inbox. simpl i_channel. simpl i_chat_id. simpl i_channel_message_id.
      rewrite Hex. by rewrite andb_false_r. }
  exists w2. split; [|done]. unfold gets. cbn [Nat.eqb]. cbv beta. rewrite Hi2.
  by rewrite (find_key message_key _ _ r) by (try done; by intros; rewrite ?Hkey; apply same_message_key).
Qed.

Lemma enqueue_stored c k m u p t i w w1 id b :
  inbox_ok w → enqueue_inbox c k m u p t i w = (w1, Ok (id, b)) →
  ∃ r, r ∈ inbox w1 ∧ i_inbox_id r = id ∧ message_key r = (c, k, m).
Proof.
  intros Hok H. destruct (existsb (same_message c k m) (inbox w)) eqn:Hex.
  - apply existsb_exists in Hex as (r & Hr & Hkey). apply list_elem_of_In in Hr.
    apply same_message_key in Hkey. destruct (enqueue_known c k m u p t i w r) as (w' & E & Hi); try done.
    rewrite H in E. injection E as -> -> ->. exists r. by rewrite Hi.
  - unfold enqueue_inbox in H. destruct (uuid_or_ok i w) as (w2 & id' & E1 & Hi1).
    rewrite (bind_of_Ok _ _ _ _ _ E1) in H. msplit H as w3 now E3.
    assert (inbox w3 = inbox w) as Hi3 by (rewrite <-Hi1; by injection E3 as <- <-).
    unfold cp_tx in H. apply transaction_Ok_inv in H. msplit H as w4 n E4.
    unfold insert_inbox in E4. simpl i_channel in E4. simpl i_chat_id in E4. simpl i_channel_message_id in E4.
    rewrite Hi3, Hex in E4. destruct (existsb (has_inbox_id _) _) in E4; [done|]. simpl in E4.
    injection E4 as <- <-. simpl in H. injection H as <- <- <-.
    eexists. split; [simpl; apply elem_of_app; right; by apply list_elem_of_singleton|done].
Qed.

(** A message of a channel is stored once: after it was enqueued, whatever the
    store does next, enqueueing it again returns the id of the first time, reports
    that it is not new, and adds nothing to the inbox. *)
Theorem message_enqueued_once c k m u p t i w w1 id b w2 u' p' t' i' :
  inbox_ok w → enqueue_inbox c k m u p t i w = (w1, Ok (id, b)) → cp_steps w1 w2 →
  ∃ w3, enqueue_inbox c k m u' p' t' i' w2 = (w3, Ok (id, false)) ∧ inbox w3 = inbox w2.
Proof.
  intros Hok H Hs. destruct (enqueue_stored _ _ _ _ _ _ _ _ _ _ _ Hok H) as (r & Hr & Hid & Hkey).
  pose proof (method_inbox _ _ (sm_enqueue_inbox c k m u p t i) w) as [Hok1 _]. rewrite H in Hok1.
  pose proof (steps_within inbox_grows method_inbox _ _ Hs) as [Hok2 Hg].
  destruct (Hg r Hr) as (r' & Hr' & Hid' & Hkey').
  destruct (enqueue_known c k m u' p' t' i' w2 r') as (w3 & E & Hi); [auto|done|congruence|].
  exists w3. rewrite E. split; [|done]. congruence.
Qed.

(** ** Claims *)

(** [iso_ago ttl] at the clock reading [n]. *)
Definition cutoff_at (ttl : Z) (n : nat) : Z := py_clock n - Z.max 0 ttl * 1000000.
(** The readings a claim takes are instants, and so is its cutoff. *)
Definition claim_times (ttl : Z) (w : CPWorld) : Prop :=
  instant_ok (py_clock (cp_ticks w)) ∧ instant_ok (py_clock (S (cp_ticks w))) ∧
  instant_ok (cutoff_at ttl (S (cp_ticks w))).

Definition due_at (now : string) (r : InboxRow) : bool :=
  inbox_waiting r && str_leb (i_next_attempt_at r) now.
(** The inbox after locks older than the cutoff were released. *)
Definition reclaimed (cutoff : string) (w : CPWorld) : list InboxRow :=
  update_where (inbox_stale cutoff) inbox_reclaim (inbox w).

Lemma claim_unfold o ttl w :
  claim_times ttl w →
  ∃ w2, inbox w2 = reclaimed (isoformat (cutoff_at ttl (S (cp_ticks w)))) w ∧
  let now := isoformat (py_clock (cp_ticks w)) in
  claim_inbox o ttl w =
    match next_inbox w2 now with
    | None => (w2, Ok None)
    | Some row =>
        let w3 := set_inbox (update_where (λ r, has_inbox_id (i_inbox_id row) r && inbox_waiting r)
                               (inbox_take o now)) w2 in
        if negb (count_where (λ r, has_inbox_id (i_inbox_id row) r && inbox_waiting r) (inbox w2) =? 1)%nat
        then (w3, Ok None)
        else (w3, Ok (List.find (has_inbox_id (i_inbox_id row)) (inbox w3)))
    end.
Proof.
  intros (H1 & H2 & H3).
  set (w0 := set_counters (S (cp_ticks w)) (cp_uuids w) (cp_secrets w) w).
  set (w1 := set_counters (S (cp_ticks w0)) (cp_uuids w0) (cp_secrets w0) w0).
  set (cut := isoformat (cutoff_at ttl (S (cp_ticks w)))).
  exists (set_inbox (update_where (inbox_stale cut) inbox_reclaim) w1). split; [done|]. intros now.
  unfold claim_inbox. rewrite (bind_of_Ok _ _ w w0 now) by done. unfold cp_tx, transaction.
  assert (iso_ago ttl w0 = (w1, Ok cut)) as Hago.
  { unfold iso_ago. rewrite (bind_of_Ok _ _ w0 w1 (py_clock (S (cp_ticks w)))) by done.
    unfold lift_py, dt_add.
    assert ((0 <=? py_clock (S (cp_ticks w)) + - (Z.max 0 ttl * 1000000)) &&
            (py_clock (S (cp_ticks w)) + - (Z.max 0 ttl * 1000000) <? max_instant) = true) as ->.
    { unfold instant_ok, cutoff_at in H3. apply andb_true_iff. rewrite Z.leb_le, Z.ltb_lt. lia. }
    done. }
  rewrite (bind_of_Ok _ _ _ _ _ Hago), (bind_of_Ok (update_inbox _ _) _ w1 _ _ eq_refl), bind_get_world.
  destruct (next_inbox _ now) as [row|] eqn:En; [|done].
  rewrite (bind_of_Ok (update_inbox _ _) _ _ _ _ eq_refl). cbv zeta. by destruct (negb _).
Qed.

Lemma next_inbox_spec w now r :
  next_inbox w now = Some r →
  r ∈ inbox w ∧ due_at now r = true ∧
  ∀ r', r' ∈ inbox w → due_at now r' = true → str_leb (i_received_at r) (i_received_at r') = true.
Proof.
  unfold next_inbox. set (l := List.filter _ _). destruct (sort_asc i_received_at l) as [|x rest] eqn:E; [done|].
  intros [= ->]. assert (r ∈ l) as Hr by (apply (sort_asc_elem i_received_at); rewrite E; by left).
  apply filter_elem in Hr as [Hr Hd]. split_and!; [done..|]. intros r' Hr' Hd'.
  apply (sort_asc_head i_received_at l r rest E). by apply filter_elem.
Qed.

Lemma reclaimed_ids cut w : map i_inbox_id (reclaimed cut w) = map i_inbox_id (inbox w).
Proof. unfold reclaimed. by rewrite update_where_map. Qed.

(** What a claim does to the inbox. *)
Lemma claim_spec o ttl w :
  inbox_ok w → claim_times ttl w →
  let now := isoformat (py_clock (cp_ticks w)) in
  let rows := reclaimed (isoformat (cutoff_at ttl (S (cp_ticks w)))) w in
  ∃ w' res, claim_inbox o ttl w = (w', Ok res) ∧
    match res with
    | None => inbox w' = rows ∧ ∀ r, r ∈ rows → due_at now r = false
    | Some r => ∃ r0, r0 ∈ rows ∧ due_at now r0 = true ∧ r = inbox_take o now r0 ∧
        inbox w' = update_where (has_inbox_id (i_inbox_id r0)) (inbox_take o now) rows ∧
        ∀ r', r' ∈ rows → due_at now r' = true → str_leb (i_received_at r0) (i_received_at r') = true
    end.
Proof.
  intros Hok Ht now rows. destruct (claim_unfold o ttl w Ht) as (w2 & Hi & ->). fold now rows in Hi |- *.
  destruct (next_inbox w2 now) as [r0|] eqn:En.
  2:{ exists w2, None. split_and!; try done. intros r Hr. destruct (due_at now r) eqn:Ed; [|done].
      unfold next_inbox in En. destruct (sort_asc _ _) as [|x l] eqn:Es; [|done].
      assert (r ∈ List.filter (λ r, inbox_waiting r && str_leb (i_next_attempt_at r) now) (inbox w2)) as Hin
        by (apply filter_elem; by rewrite Hi).
      apply (sort_asc_elem i_received_at) in Hin. rewrite Es in Hin. by apply elem_of_nil in Hin. }
  apply next_inbox_spec in En as (Hr0 & Hd0 & Hmin). rewrite Hi in Hr0, Hmin |- *.
  assert (NoDup (map i_inbox_id rows)) as Hn by (unfold rows; rewrite reclaimed_ids; apply Hok).
  assert (has_inbox_id (i_inbox_id r0) r0 && inbox_waiting r0 = true) as Hp.
  { unfold due_at in Hd0. apply andb_true_iff in Hd0 as [-> _]. by rewrite (proj2 (has_inbox_id_eq _ _)). }
  rewrite (count_where_unique i_inbox_id _ _ r0) by (try done; intros y Hy; bsplit; by apply has_inbox_id_eq).
  simpl negb. cbv match zeta.
  assert (update_where (λ r, has_inbox_id (i_inbox_id r0) r && inbox_waiting r) (inbox_take o now) rows
          = update_where (has_inbox_id (i_inbox_id r0)) (inbox_take o now) rows) as Hupd.
  { apply map_ext_in. intros r Hr. destruct (has_inbox_id (i_inbox_id r0) r) eqn:E; [|done].
    apply has_inbox_id_eq in E. apply list_elem_of_In in Hr.
    rewrite (key_unique i_inbox_id rows r r0 Hn Hr Hr0 E). by apply andb_true_iff in Hp as [_ ->]. }
  eexists _, _. split; [reflexivity|]. simpl inbox. rewrite Hi, Hupd.
  rewrite (find_key i_inbox_id _ _ (inbox_take o now r0)).
  - exists r0. split_and!; done.
  - by rewrite update_where_map.
  - apply update_where_elem. exists r0. split; [done|]. left. by rewrite (proj2 (has_inbox_id_eq _ _)).
  - by apply has_inbox_id_eq.
  - intros y Hy. by apply has_inbox_id_eq in Hy.
Qed.

(** A claim always answers.  It releases the locks older than the cutoff and
    takes, of the messages that wait and are due, one received first: the row
    returned is marked as in process by the claimant, with one more attempt, and
    no other row changes.  It returns nothing only when no message is due. *)
Theorem claim_takes_oldest o ttl w :
  inbox_ok w → claim_times ttl w →
  let now := isoformat (py_clock (cp_ticks w)) in
  let rows := reclaimed (isoformat (cutoff_at ttl (S (cp_ticks w)))) w in
  ∃ w' res, claim_inbox o ttl w = (w', Ok res) ∧
    match res with
    | None => inbox w' = rows ∧ ∀ r, r ∈ rows → due_at now r = false
    | Some r => ∃ r0, r0 ∈ rows ∧ due_at now r0 = true ∧ r = inbox_take o now r0 ∧
        inbox w' = update_where (has_inbox_id (i_inbox_id r0)) (inbox_take o now) rows ∧
        ∀ r', r' ∈ rows → due_at now r' = true → str_leb (i_received_at r0) (i_received_at r') = true
    end.
Proof. apply claim_spec. Qed.

(** A claim leaves a message alone while its lock is younger than the time
    after which locks are released: the row stays as it is and is not returned. *)
Theorem live_lock_respected o ttl w w' res r t :
  inbox_ok w → claim_times ttl w → r ∈ inbox w → i_status r = "processing" →
  i_locked_at r = Some (isoformat t) → instant_ok t → cutoff_at ttl (S (cp_ticks w)) ≤ t →
  claim_inbox o ttl w = (w', Ok res) →
  r ∈ inbox w' ∧ ∀ r', res = Some r' → i_inbox_id r' ≠ i_inbox_id r.
Proof.
  intros Hok Ht Hr Hst Hl Hit Hcut Hc.
  destruct (claim_spec o ttl w Hok Ht) as (w2 & res' & E & Hres). rewrite Hc in E. injection E as <- <-.
  set (rows := reclaimed _ w) in Hres.
  assert (r ∈ rows) as Hrows.
  { apply update_where_elem. exists r. split; [done|]. right. split; [|done].
    unfold inbox_stale, lock_expired. rewrite Hst, Hl. simpl. rewrite isoformat_ltb by (done || apply Ht).
    by apply Z.ltb_ge. }
  destruct res as [r1|]; [|by destruct Hres as [-> _]].
  destruct Hres as (r0 & Hr0 & Hd0 & -> & Hi & _).
  assert (i_inbox_id r0 ≠ i_inbox_id r) as Hne.
  { intros E. assert (r0 = r) as ->.
    { apply (key_unique i_inbox_id rows); try done. unfold rows. rewrite reclaimed_ids. apply Hok. }
    unfold due_at, inbox_waiting in Hd0. by rewrite Hst in Hd0. }
  split; [|by intros r' [= <-]]. rewrite Hi. apply update_where_elem. exists r. split; [done|]. right.
  split; [|done]. unfold has_inbox_id. apply String.eqb_neq. congruence.
Qed.

(** ** Retries *)

(** How long a message waits after its failure. *)
Definition backoff (max_backoff_s : Z) (r : InboxRow) : Z :=
  Z.max 0 (retry_delay max_backoff_s (i_attempts r)) * 1000000.

(** The row that the failure of [r] leaves. *)
Definition after_failure (error : string) (max_attempts max_backoff_s t : Z) (r : InboxRow) : InboxRow :=
  if max_attempts <=? i_attempts r
  then inbox_mark "dead" (Some (str_take 2000 error)) (i_attempts r) (i_next_attempt_at r) None None r
  else inbox_mark "failed" (Some (str_take 2000 error)) (i_attempts r)
         (isoformat (t + backoff max_backoff_s r)) None None r.

Lemma mark_retry_spec id error ma mb w r :
  inbox_ok w → r ∈ inbox w → i_inbox_id r = id →
  let t := py_clock (cp_ticks w) in
  instant_ok (t + backoff mb r) →
  ∃ w', mark_inbox_retry id error ma mb w = (w', Ok (if ma <=? i_attempts r then "dead" else "retry")) ∧
    after_failure error ma mb t r ∈ inbox w'.
Proof.
  intros Hok Hr Hid t Ht. unfold mark_inbox_retry, cp_tx, transaction. rewrite bind_get_world.
  rewrite (find_key i_inbox_id _ _ r); [|apply Hok|done|by apply has_inbox_id_eq|].
  2:{ intros y Hy. apply has_inbox_id_eq in Hy. congruence. }
  unfold after_failure. destruct (ma <=? i_attempts r).
  - eexists. split; [done|]. simpl. apply update_where_elem. exists r. split; [done|]. left.
    split; [by apply has_inbox_id_eq|done].
  - set (w1 := set_counters (S (cp_ticks w)) (cp_uuids w) (cp_secrets w) w).
    rewrite (bind_of_Ok _ _ w w1 (isoformat (t + backoff mb r))).
    2:{ unfold iso_after. rewrite (bind_of_Ok _ _ w w1 t) by done. unfold lift_py, dt_add.
        fold (backoff mb r). unfold instant_ok in Ht.
        by rewrite (proj2 (Z.leb_le 0 _)), (proj2 (Z.ltb_lt _ max_instant)) by lia. }
    eexists. split; [done|]. simpl. apply update_where_elem. exists r. split; [done|]. left.
    split; [by apply has_inbox_id_eq|done].
Qed.

(** The failure of a message at its last attempt sets it aside for good; any
    earlier failure makes it wait: as long as the row is as the failure left it,
    no claim returns it before the backoff, which doubles with each attempt up to
    its limit, is over. *)
Theorem failed_message_waits id error ma mb w r :
  inbox_ok w → r ∈ inbox w → i_inbox_id r = id →
  let t := py_clock (cp_ticks w) in
  instant_ok (t + backoff mb r) →
  ∃ w' r', mark_inbox_retry id error ma mb w = (w', Ok (if ma <=? i_attempts r then "dead" else "retry")) ∧
    r' ∈ inbox w' ∧ i_inbox_id r' = id ∧ i_attempts r' = i_attempts r ∧
    ∀ o ttl w2 w3 q, inbox_ok w2 → claim_times ttl w2 → r' ∈ inbox w2 →
      claim_inbox o ttl w2 = (w3, Ok (Some q)) → i_inbox_id q = id →
      i_attempts r < ma ∧ t + backoff mb r ≤ py_clock (cp_ticks w2) ∧ i_attempts q = i_attempts r + 1.
Proof.
  intros Hok Hr Hid t Ht. destruct (mark_retry_spec id error ma mb w r Hok Hr Hid Ht) as (w' & E & Hin).
  exists w', (after_failure error ma mb t r). split; [done|]. split; [done|].
  assert (i_inbox_id (after_failure error ma mb t r) = id) as Hid' by (unfold after_failure; by case_match).
  split; [done|]. split; [unfold after_failure; by case_match|].
  intros o ttl w2 w3 q Hok2 Ht2 Hin2 Hc Hq.
  destruct (claim_spec o ttl w2 Hok2 Ht2) as (w4 & res & Ec & Hres). rewrite Hc in Ec. injection Ec as <- <-.
  destruct Hres as (r0 & Hr0 & Hd0 & -> & _). set (rows := reclaimed _ w2) in Hr0.
  assert (after_failure error ma mb t r ∈ rows) as Hrows.
  { apply update_where_elem. exists (after_failure error ma mb t r). split; [done|]. right. split; [|done].
    unfold inbox_stale, after_failure. by case_match. }
  assert (r0 = after_failure error ma mb t r) as ->.
  { apply (key_unique i_inbox_id rows); try done; [unfold rows; rewrite reclaimed_ids; apply Hok2|].
    rewrite Hid'. exact Hq. }
  unfold due_at, inbox_waiting, after_failure in Hd0 |- *. destruct (ma <=? i_attempts r) eqn:Ea; [done|].
  simpl in Hd0. apply Z.leb_gt in Ea. split_and!; [done| |done].
  rewrite isoformat_leb in Hd0 by (done || apply Ht2). by apply Z.leb_le in Hd0.
Qed.

(** A message whose worker dies is claimed again with no regard to its attempts:
    neither the claim nor the release of the lock compares them with the limit. *)
Theorem crashed_message_reclaimed o ttl w r t0 :
  claim_times ttl w → inbox w = [r] → i_status r = "processing" → i_locked_at r = Some (isoformat t0) →
  instant_ok t0 → t0 < cutoff_at ttl (S (cp_ticks w)) →
  str_leb (i_next_attempt_at r) (isoformat (py_clock (cp_ticks w))) = true →
  ∃ w' q, claim_inbox o ttl w = (w', Ok (Some q)) ∧ inbox w' = [q] ∧ i_status q = "processing" ∧
    i_inbox_id q = i_inbox_id r ∧ i_attempts q = i_attempts r + 1.
Proof.
  intros Ht Hi Hst Hl Hit Hlt Hdue.
  assert (inbox_ok w) as Hok by (unfold inbox_ok; rewrite Hi; split; apply NoDup_singleton).
  destruct (claim_spec o ttl w Hok Ht) as (w' & res & E & Hres).
  assert (reclaimed (isoformat (cutoff_at ttl (S (cp_ticks w)))) w = [inbox_reclaim r]) as Hrows.
  { unfold reclaimed. rewrite Hi. simpl. unfold inbox_stale, lock_expired. rewrite Hst, Hl. simpl.
    rewrite isoformat_ltb by (done || apply Ht). by rewrite (proj2 (Z.ltb_lt _ _) Hlt). }
  rewrite Hrows in Hres. destruct res as [q|].
  - destruct Hres as (r0 & Hr0 & _ & -> & Hi' & _). apply list_elem_of_singleton in Hr0 as ->.
    exists w', (inbox_take o (isoformat (py_clock (cp_ticks w))) (inbox_reclaim r)). split; [done|].
    split_and!; try done. rewrite Hi'. simpl. unfold has_inbox_id. by rewrite String.eqb_refl.
  - destruct Hres as [_ Hno]. specialize (Hno (inbox_reclaim r) ltac:(by left)).
    unfold due_at in Hno. simpl in Hno. congruence.
Qed.
End Inbox.

(** * Rate limits: within one window of a key at most as many calls are allowed as
    the limit says. *)

(** ** The table *)

Definition rate_key (r : RateRow) : string * string * Z := (l_key_type r, l_key_id r, l_window_start r).
Definition rates_ok (w : CPWorld) : Prop :=
  NoDup (map rate_key (rate_limits w)) ∧ Forall (λ r, 0 ≤ l_count r) (rate_limits w).

(** The count of a key in a list of rows. *)
Definition count_of (kt ki : string) (ws : Z) (l : list RateRow) : Z :=
  match List.find (is_rate kt ki ws) l with Some r => l_count r | None => 0 end.

Lemma is_rate_key kt ki ws r : is_rate kt ki ws r = true ↔ rate_key r = (kt, ki, ws).
Proof.
  unfold is_rate, rate_key. rewrite !andb_true_iff, !String.eqb_eq, Z.eqb_eq.
  split; [by intros [[-> ->] ->]|by intros [= -> -> ->]].
Qed.

Lemma rate_absent kt ki ws l : existsb (is_rate kt ki ws) l = false → ∀ r, r ∈ l → rate_key r ≠ (kt, ki, ws).
Proof.
  intros E r Hr Hk. apply (existsb_none _ _ E) in Hr. by rewrite (proj2 (is_rate_key _ _ _ _) Hk) in Hr.
Qed.

Lemma count_of_elem kt ki ws l r :
  NoDup (map rate_key l) → r ∈ l → rate_key r = (kt, ki, ws) → count_of kt ki ws l = l_count r.
Proof.
  intros Hn Hr Hk. unfold count_of. rewrite (find_key rate_key _ _ r); try done.
  - by apply is_rate_key.
  - intros y Hy. apply is_rate_key in Hy. congruence.
Qed.
Lemma count_of_none kt ki ws l : (∀ r, r ∈ l → rate_key r ≠ (kt, ki, ws)) → count_of kt ki ws l = 0.
Proof.
  intros H. unfold count_of. destruct (List.find _ l) as [r|] eqn:E; [|done].
  apply find_some in E as [Hr Hp]. apply is_rate_key in Hp. by destruct (H r); [apply list_elem_of_In|].
Qed.
Lemma count_of_nonneg kt ki ws l : Forall (λ r, 0 ≤ l_count r) l → 0 ≤ count_of kt ki ws l.
Proof.
  intros H. unfold count_of. destruct (List.find _ l) as [r|] eqn:E; [|done].
  apply find_some in E as [Hr _]. rewrite Forall_forall in H. by apply H, list_elem_of_In.
Qed.

(** The row of the current window after one more call. *)
Definition counted (kt ki : string) (ws : Z) (now : string) (l : list RateRow) : list RateRow :=
  upsert (is_rate kt ki ws)
    (λ r, {| l_key_type := l_key_type r; l_key_id := l_key_id r; l_window_start := l_window_start r;
             l_count := l_count r + 1; l_updated_at := now |})
    {| l_key_type := kt; l_key_id := ki; l_window_start := ws; l_count := 1; l_updated_at := now |} l.

Lemma counted_ok kt ki ws now l :
  NoDup (map rate_key l) → Forall (λ r, 0 ≤ l_count r) l →
  NoDup (map rate_key (counted kt ki ws now l)) ∧ Forall (λ r, 0 ≤ l_count r) (counted kt ki ws now l).
Proof.
  intros Hn Hf. unfold counted, upsert. destruct (existsb _ l) eqn:E; split.
  - by rewrite update_where_map.
  - apply update_where_Forall; [|done]. intros r Hr _. simpl. lia.
  - apply key_append; [done|]. by apply rate_absent.
  - apply Forall_app. split; [done|]. apply Forall_singleton. simpl. lia.
Qed.

Lemma counted_hit kt ki ws now l :
  NoDup (map rate_key l) → count_of kt ki ws (counted kt ki ws now l) = count_of kt ki ws l + 1.
Proof.
  intros Hn. unfold counted, upsert. destruct (existsb _ l) eqn:E.
  - apply existsb_exists in E as (r & Hr & Hp). apply list_elem_of_In in Hr.
    rewrite (count_of_elem kt ki ws l r) by (try done; by apply is_rate_key).
    rewrite (count_of_elem _ _ _ _ {| l_key_type := l_key_type r; l_key_id := l_key_id r;
               l_window_start := l_window_start r; l_count := l_count r + 1; l_updated_at := now |});
      [done|by rewrite update_where_map| |by apply is_rate_key in Hp].
    apply update_where_elem. exists r. split; [done|]. left. by split.
  - rewrite (count_of_none _ _ _ l) by (by apply rate_absent).
    unfold count_of. rewrite find_app_none by (by apply existsb_none). simpl.
    unfold is_rate. simpl. by rewrite !String.eqb_refl, Z.eqb_refl.
Qed.

Lemma counted_miss kt ki ws now l kt' ki' ws' :
  (kt', ki', ws') ≠ (kt, ki, ws) → count_of kt' ki' ws' (counted kt ki ws now l) = count_of kt' ki' ws' l.
Proof.
  intros Hne. unfold counted, upsert. destruct (existsb _ l) eqn:E.
  - clear E. unfold count_of. induction l as [|r l IH]; simpl; [done|].
    destruct (is_rate kt ki ws r) eqn:E1.
    + assert (is_rate kt' ki' ws' r = false) as E2.
      { apply not_true_is_false. intros H. apply is_rate_key in E1, H. congruence. }
      unfold is_rate at 1. simpl. fold (is_rate kt' ki' ws' r). by rewrite E2.
    + destruct (is_rate kt' ki' ws' r); done.
  - unfold count_of. destruct (List.find (is_rate kt' ki' ws') l) as [r|] eqn:Ef.
    + assert (List.find (is_rate kt' ki' ws') (l ++ [{| l_key_type := kt; l_key_id := ki;
                l_window_start := ws; l_count := 1; l_updated_at := now |}]) = Some r) as ->; [|done].
      clear E. induction l as [|x l IH]; simpl in Ef |- *; [done|]. by destruct (is_rate kt' ki' ws' x); auto.
    + rewrite find_app_none by (intros x Hx; by apply (find_none _ _ Ef), list_elem_of_In). simpl.
      destruct (is_rate kt' ki' ws' _) eqn:E1; [|done]. apply is_rate_key in E1. simpl in E1.
      unfold rate_key in E1. simpl in E1. congruence.
Qed.

(** Deleting old windows keeps the counts of the others. *)
Lemma count_of_purge kt ki before l kt' ki' ws' :
  (kt', ki') ≠ (kt, ki) ∨ before ≤ ws' →
  count_of kt' ki' ws' (List.filter (λ r, negb (rate_old kt ki before r)) l) = count_of kt' ki' ws' l.
Proof.
  intros H. unfold count_of. induction l as [|r l IH]; simpl; [done|].
  destruct (is_rate kt' ki' ws' r) eqn:E1.
  - assert (rate_old kt ki before r = false) as ->; [|simpl; by rewrite E1].
    apply is_rate_key in E1. unfold rate_key in E1. injection E1 as E1 E2 E3.
    apply not_true_is_false. unfold rate_old. rewrite !andb_true_iff, !String.eqb_eq, Z.ltb_lt.
    intros [[? ?] ?]. destruct H as [H|H]; [apply H; congruence|lia].
  - destruct (rate_old kt ki before r); simpl; [done|]. by rewrite E1.
Qed.

(** ** Calls *)

Definition window_of (seconds t : Z) : Z := t - t mod seconds.
Lemma window_mono seconds t u : 0 < seconds → t ≤ u → window_of seconds t ≤ window_of seconds u.
Proof.
  intros Hs Htu. unfold window_of. pose proof (Z.div_mod t seconds ltac:(lia)).
  pose proof (Z.div_mod u seconds ltac:(lia)). pose proof (Z.div_le_mono t u seconds Hs Htu). nia.
Qed.
Lemma unix_seconds_mono t u : t ≤ u → unix_seconds t ≤ unix_seconds u.
Proof. intros H. unfold unix_seconds. apply Z.quot_le_mono; lia. Qed.

Lemma NoDup_map_purge (p : RateRow → bool) l :
  NoDup (map rate_key l) → NoDup (map rate_key (List.filter p l)).
Proof.
  induction l as [|r l IH]; simpl; [done|]. rewrite NoDup_cons. intros [Hr Hn].
  destruct (p r); simpl; [|auto]. apply NoDup_cons. split; [|auto]. intros H. apply Hr.
  apply list_elem_of_In, in_map_iff in H as (x & E & Hx). apply filter_In in Hx as [Hx _].
  rewrite <-E. by apply list_elem_of_In, in_map.
Qed.

Section Rates.
Context {Env : PyEnv}.

(** The second and the window at the next clock reading. *)
Definition second_at (w : CPWorld) : Z := unix_seconds (py_clock (cp_ticks w)).

Lemma rate_call_spec kt ki ws l w :
  rates_ok w →
  let s := Z.max 1 ws in
  let win := window_of s (second_at w) in
  ∃ w' r, increment_rate_limit kt ki ws l w = (w', Ok r) ∧ rates_ok w' ∧ (cp_ticks w ≤ cp_ticks w')%nat ∧
    rl_window_start r = win ∧
    rl_allowed r = (count_of kt ki win (rate_limits w) + 1 <=? l) ∧
    ∀ kt' ki' ws', (kt', ki') ≠ (kt, ki) ∨ win ≤ ws' →
      count_of kt' ki' ws' (rate_limits w') =
      count_of kt' ki' ws' (rate_limits w) + (if decide ((kt', ki', ws') = (kt, ki, win)) then 1 else 0).
Proof.
  intros [Hn Hf] s win. unfold increment_rate_limit.
  set (w1 := set_counters (S (cp_ticks w)) (cp_uuids w) (cp_secrets w) w).
  rewrite (bind_of_Ok _ _ w w1 (second_at w)) by done. fold s. fold (window_of s (second_at w)). fold win.
  set (w2 := set_counters (S (cp_ticks w1)) (cp_uuids w1) (cp_secrets w1) w1).
  set (now := isoformat (py_clock (cp_ticks w1))).
  set (w3 := set_rates (counted kt ki win now) w2).
  set (w4 := set_rates (List.filter (λ r, negb (rate_old kt ki (win - s * 3) r))) w3).
  rewrite (bind_of_Ok _ _ w1 w4 (count_of kt ki win (rate_limits w3))).
  2:{ unfold cp_tx, transaction. rewrite (bind_of_Ok _ _ w1 w2 now) by done.
      rewrite (bind_of_Ok _ _ w2 w3 ()) by done. by rewrite bind_get_world, (bind_of_Ok _ _ w3 w4 ()). }
  assert (rate_limits w3 = counted kt ki win now (rate_limits w)) as E3 by done.
  destruct (counted_ok kt ki win now _ Hn Hf) as [Hn3 Hf3].
  eexists w4, _. split; [done|]. split_and!; try done; simpl.
  - split; simpl; [by apply NoDup_map_purge|]. rewrite Forall_forall in Hf3 |- *.
    intros r Hr. apply filter_elem in Hr as [Hr _]. by apply Hf3.
  - lia.
  - by rewrite counted_hit.
  - intros kt' ki' ws' H. rewrite count_of_purge by (destruct H; [by left|right; lia]).
    destruct (decide _) as [[= -> -> ->]|Hne]; [by rewrite counted_hit|rewrite counted_miss by done; lia].
Qed.

(** A call with its key, window and limit. *)
Record RateCall := { rq_type : string; rq_id : string; rq_window : Z; rq_limit : Z }.
(** Calls and their results, in the order of time; between calls anything may
    happen that leaves the table of rates alone. *)
Inductive rate_trace : CPWorld → list (RateCall * RateResult) → Prop :=
| rt_nil w : rate_trace w []
| rt_call w c w' r l :
    increment_rate_limit (rq_type c) (rq_id c) (rq_window c) (rq_limit c) w = (w', Ok r) →
    rate_trace w' l → rate_trace w ((c, r) :: l)
| rt_other w w' l :
    rate_limits w' = rate_limits w → (cp_ticks w ≤ cp_ticks w')%nat → rate_trace w' l → rate_trace w l.

Definition of_key (kt ki : string) (c : RateCall) : bool := String.eqb (rq_type c) kt && String.eqb (rq_id c) ki.
Definition allowed_in (kt ki : string) (ws : Z) (cr : RateCall * RateResult) : bool :=
  of_key kt ki cr.1 && (rl_window_start cr.2 =? ws) && rl_allowed cr.2.
(** The calls of the key all have the same window and limit. *)
Definition uniform (kt ki : string) (window limit : Z) (l : list (RateCall * RateResult)) : Prop :=
  Forall (λ cr, of_key kt ki cr.1 = true → rq_window cr.1 = window ∧ rq_limit cr.1 = limit) l.

Section Key.
Context (kt ki : string) (window limit ws : Z) (Hclock : clock_monotone).

Lemma second_mono w w' : (cp_ticks w ≤ cp_ticks w')%nat → second_at w ≤ second_at w'.
Proof. intros H. apply unix_seconds_mono, Hclock, H. Qed.

(** A window that is over is not used again. *)
Lemma window_over w l :
  rate_trace w l → uniform kt ki window limit l → rates_ok w →
  ws < window_of (Z.max 1 window) (second_at w) → count_where (allowed_in kt ki ws) l = 0%nat.
Proof.
  induction 1 as [|w c w' r l Hc _ IH|w w' l Hr Ht _ IH]; intros Hu Hok Hws; [done|..].
  - apply Forall_cons in Hu as [Hc1 Hu].
    destruct (rate_call_spec (rq_type c) (rq_id c) (rq_window c) (rq_limit c) w Hok)
      as (w1 & r1 & E & Hok1 & Ht & Hwin & _). rewrite Hc in E. injection E as <- <-.
    assert (ws < window_of (Z.max 1 window) (second_at w')) as Hws'.
    { eapply Z.lt_le_trans; [done|]. apply window_mono; [lia|]. by apply second_mono. }
    specialize (IH Hu Hok1 Hws'). unfold count_where in *. simpl.
    destruct (allowed_in kt ki ws (c, r)) eqn:Ea; [|done]. exfalso.
    unfold allowed_in in Ea. simpl in Ea. bsplit. destruct (Hc1 H) as [Ew _]. simpl in Ew.
    rewrite Hwin, Ew in H1. apply Z.eqb_eq in H1. lia.
  - apply IH; [done|unfold rates_ok in *; by rewrite Hr|].
    eapply Z.lt_le_trans; [done|]. apply window_mono; [lia|]. by apply second_mono.
Qed.

Lemma window_bound w l :
  rate_trace w l → uniform kt ki window limit l → rates_ok w →
  Z.of_nat (count_where (allowed_in kt ki ws) l) ≤ Z.max 0 (limit - count_of kt ki ws (rate_limits w)).
Proof.
  induction 1 as [|w c w' r l Hc Hl IH|w w' l Hr Ht _ IH]; intros Hu Hok;
    [unfold count_where; simpl; lia|..].
  2:{ rewrite <-Hr. apply IH; [done|]. unfold rates_ok in *. by rewrite Hr. }
  apply Forall_cons in Hu as [Hc1 Hu]. pose proof (count_of_nonneg kt ki ws _ (proj2 Hok)) as Hpos.
  destruct (rate_call_spec (rq_type c) (rq_id c) (rq_window c) (rq_limit c) w Hok)
    as (w1 & r1 & E & Hok1 & Ht & Hwin & Hal & Hcnt). rewrite Hc in E. injection E as <- <-.
  specialize (IH Hu Hok1). unfold count_where in *. simpl. unfold allowed_in at 1. simpl.
  destruct (of_key kt ki c) eqn:Ek; simpl.
  2:{ rewrite (Hcnt kt ki ws) in IH.
      2:{ left. intros [= -> ->]. unfold of_key in Ek. by rewrite !String.eqb_refl in Ek. }
      destruct (decide _) as [[= -> -> ->]|_]; [|lia]. unfold of_key in Ek. by rewrite !String.eqb_refl in Ek. }
  simpl in Hc1. destruct (Hc1 Ek) as [Ew El]. unfold of_key in Ek. bsplit.
  rewrite H, H0, Ew, El in Hal. rewrite H, H0, Ew in Hcnt. rewrite Ew in Hwin.
  set (win := window_of _ (second_at w)) in *. rewrite Hwin, Hal.
  destruct (Z.lt_trichotomy win ws) as [Hlt|[->|Hgt]].
  - rewrite (proj2 (Z.eqb_neq win ws)) by lia. simpl. rewrite Hcnt in IH by (right; lia).
    destruct (decide _) as [[= E]|_]; lia.
  - rewrite Z.eqb_refl. simpl. rewrite Hcnt in IH by (right; lia). rewrite decide_True in IH by done.
    destruct (_ <=? limit) eqn:Ec; simpl; [apply Z.leb_le in Ec|apply Z.leb_gt in Ec]; lia.
  - rewrite (proj2 (Z.eqb_neq win ws)) by lia. simpl.
    pose proof (window_over w' l Hl Hu Hok1) as Hz. unfold count_where in Hz. rewrite Hz; [lia|].
    eapply Z.lt_le_trans; [done|]. apply window_mono; [lia|]. by apply second_mono.
Qed.
End Key.

(** Over any calls of the rate limiter for a key with a fixed window and
    limit, interleaved with calls for other keys and with anything that leaves the
    table of rates alone, at most [limit] calls of the key are allowed in each
    window, provided that the clock does not run backwards. *)
Theorem rate_limit_respected kt ki window limit ws w l :
  clock_monotone → rates_ok w → rate_trace w l → uniform kt ki window limit l →
  Z.of_nat (count_where (allowed_in kt ki ws) l) ≤ Z.max 0 limit.
Proof.
  intros Hc Hok Hl Hu. pose proof (window_bound kt ki window limit ws Hc w l Hl Hu Hok) as H.
  pose proof (count_of_nonneg kt ki ws _ (proj2 Hok)). lia.
Qed.
End Rates.
