(* ===== verification/CPAccessProps.v ===== *)
(** Access to the control plane: what a pairing grants, that a revocation takes it
    away, and that a message without the scopes it needs is never dispatched. *)

From S2P Require Import Prelude PyValue Timestamps PyText Schedule CPTables CPPrincipals CPQueues CPModels CPSteps CPAuth CPPairing CPWorker CPTokenProps.
From Stdlib Require Import Ascii.

Local Open Scope Z_scope.

(** ** Rows of a chat *)

(** A key without surrounding white space. *)
Definition plain (s : string) : Prop := py_strip s = s ∧ truthy s = true.

(** [m] comes from the chat [k] of the channel [ch]. *)
Definition from_chat (ch k : string) (m : InboundMessage) : Prop :=
  im_channel m = ch ∧ str_or (im_chat_id m) (im_chat_key m) = k.

Lemma is_subject_eq ch k c : is_subject ch k c = true ↔ cs_channel c = ch ∧ cs_subject_id c = k.
Proof. unfold is_subject. by rewrite andb_true_iff, !String.eqb_eq. Qed.
Lemma is_pairing_eq ch k p : is_pairing ch k p = true ↔ p_channel p = ch ∧ p_chat_id p = k.
Proof. unfold is_pairing. by rewrite andb_true_iff, !String.eqb_eq. Qed.

(** No active binding of the chat is left. *)
Definition locked_out (ch k : string) (w : CPWorld) : Prop :=
  (∀ c, c ∈ channel_subjects w → is_subject ch k c = true → subject_active c = false) ∧
  (∀ p, p ∈ pairings w → is_pairing ch k p = true → pairing_active p = false).

Lemma find_false {A} (p : A → bool) l : (∀ x, x ∈ l → p x = false) → List.find p l = None.
Proof.
  intros H. destruct (List.find p l) as [x|] eqn:E; [|done].
  apply find_some in E as [Hx Hp]. apply list_elem_of_In in Hx. by rewrite H in Hp.
Qed.

(** The first row that matches also matches what it satisfies. *)
Lemma find_and {A} (p q : A → bool) l x :
  List.find p l = Some x → q x = true → List.find (λ y, p y && q y) l = Some x.
Proof.
  induction l as [|y l IH]; simpl; [done|]. destruct (p y) eqn:E; simpl; [|by apply IH].
  intros [= ->] Hq. by rewrite Hq.
Qed.

Lemma find_upsert {A} (same : A → bool) f x l :
  same x = true → (∀ y, same y = true → same (f y) = true) →
  ∃ y, List.find same (upsert same f x l) = Some y ∧ (y = x ∨ ∃ z, z ∈ l ∧ same z = true ∧ y = f z).
Proof.
  intros Hx Hf. unfold upsert. destruct (existsb same l) eqn:E.
  - apply existsb_exists in E as (z0 & Hz0 & Hs0).
    destruct (List.find same (update_where same f l)) as [y|] eqn:Ef.
    + exists y. split; [done|]. apply find_some in Ef as [Hy Hs]. apply list_elem_of_In, update_where_elem in Hy
        as (z & Hz & [[Hsz ->]|[Hsz ->]]); [by eauto|congruence].
    + exfalso. assert (f z0 ∈ update_where same f l) as Hin.
      { apply update_where_elem. exists z0. split; [by apply list_elem_of_In|by left]. }
      apply list_elem_of_In in Hin. apply (find_none _ _ Ef) in Hin. by rewrite Hf in Hin.
  - exists x. split; [|by left]. rewrite find_app_none by (by apply existsb_none). simpl. by rewrite Hx.
Qed.

Lemma nonblank_idem l : nonblank (nonblank l) = nonblank l.
Proof.
  unfold nonblank. induction l as [|x l IH]; simpl; [done|].
  destruct (truthy (py_strip x)) eqn:E; simpl; [rewrite E; by f_equal|done].
Qed.
Lemma nonblank_stripped l : nonblank (stripped_nonblank l) = stripped_nonblank l.
Proof.
  unfold nonblank, stripped_nonblank. induction l as [|x l IH]; simpl; [done|].
  destruct (truthy (py_strip x)) eqn:E; simpl; [|done]. rewrite strip_idem, E. by f_equal.
Qed.

Section Access.
Context {Env : PyEnv} {Cp : CPEnv}.

(** ** Reading a binding *)

Lemma get_channel_subject_plain ch k w :
  plain ch → plain k →
  get_channel_subject ch k w
  = (w, Ok (option_map _normalize_binding_row (List.find (is_subject ch k) (channel_subjects w)))).
Proof. intros [H1 H2] [H3 H4]. unfold get_channel_subject, stripped. by rewrite H1, H3, H2, H4. Qed.

Lemma touch_subject_ok ch k w : ∃ w', touch_channel_subject ch k w = (w', Ok ()) ∧
  pairings w' = pairings w.
Proof. unfold touch_channel_subject. case_match; eexists; (split; [done|]); done. Qed.

(** The identity API's view of an active binding. *)
Lemma auth_context_active ds w ch k c :
  plain ch → plain k → List.find (is_subject ch k) (channel_subjects w) = Some c →
  subject_active c = true →
  ∃ a, auth_context ch k ds w = (w, Ok (Some a)) ∧ au_role a = "paired" ∧
    au_scopes a = list_or (nonblank (cs_scopes c)) ds.
Proof.
  intros Hch Hk Hc Hact. apply String.eqb_eq in Hact. unfold auth_context, get_binding.
  rewrite (bind_of_Ok _ _ w w _ (bind_of_Ok _ _ w w _ (get_channel_subject_plain ch k w Hch Hk))).
  rewrite Hc. unfold mret, M_ret. simpl. rewrite Hact. eexists. split; [done|]. split; [done|].
  simpl. by rewrite nonblank_idem.
Qed.

(** The store's view of it: nothing when the principal has a blank id. *)
Lemma auth_from_store_active ds w ch k c :
  plain ch → plain k → List.find (is_subject ch k) (channel_subjects w) = Some c →
  subject_active c = true →
  auth_from_store ds ch k w = (w, Ok None) ∨
  ∃ w' a, auth_from_store ds ch k w = (w', Ok (Some a)) ∧ au_role a = "paired" ∧
    au_scopes a = list_or (nonblank (cs_scopes c)) ds.
Proof.
  intros Hch Hk Hc Hact. unfold auth_from_store.
  assert (resolve_principal ch k w = (w, Ok (let pid := py_strip (cs_principal_id c) in
            if truthy pid then Some pid else None))) as Hr.
  { destruct Hch as [H1 H2], Hk as [H3 H4]. unfold resolve_principal, stripped. rewrite H1, H3, H2, H4.
    unfold gets. simpl. by rewrite (find_and _ subject_active _ c). }
  rewrite (bind_of_Ok _ _ _ _ _ Hr). cbv zeta. destruct (truthy (py_strip (cs_principal_id c))); [right|by left].
  rewrite (bind_of_Ok _ _ w w _ (get_channel_subject_plain ch k w Hch Hk)), Hc. simpl.
  apply String.eqb_eq in Hact. rewrite Hact. simpl.
  destruct (touch_subject_ok ch k w) as (w' & Ht & _). rewrite (bind_of_Ok _ _ _ _ _ Ht).
  eexists w', _. split; [done|]. done.
Qed.

(** The identity of a chat whose binding is active. *)
Lemma auth_of_binding identity ds m w ch k c p :
  plain ch → plain k → im_auth m = None → from_chat ch k m →
  List.find (is_subject ch k) (channel_subjects w) = Some c → subject_active c = true →
  List.find (is_pairing ch k) (pairings w) = Some p → pairing_active p = true → p_scopes p = cs_scopes c →
  ∃ w' a, auth_for_inbound identity ds m w = (w', Ok a) ∧ au_role a = "paired" ∧
    au_scopes a = list_or (nonblank (cs_scopes c)) ds.
Proof.
  intros Hch Hk Hau [Hmc Hmk] Hc Hact Hp Hpact Hsc. unfold auth_for_inbound. rewrite Hau, Hmc, Hmk.
  assert (_auth_from_principal_mapping identity ds ch k w = (w, Ok None) ∨
    ∃ w' a, _auth_from_principal_mapping identity ds ch k w = (w', Ok (Some a)) ∧ au_role a = "paired" ∧
      au_scopes a = list_or (nonblank (cs_scopes c)) ds) as [E|(w' & a & E & Hr & Hs)].
  { unfold _auth_from_principal_mapping. destruct identity.
    - destruct (auth_context_active ds w ch k c) as (a & E & Hr & Hs); try done. right.
      rewrite (bind_of_Ok _ _ _ _ _ E). destruct (touch_subject_ok ch k w) as (w' & Ht & _).
      rewrite (bind_of_Ok _ _ _ _ _ Ht). by exists w', a.
    - rewrite (bind_of_Ok _ _ w w None) by done. by apply auth_from_store_active. }
  - rewrite (bind_of_Ok _ _ _ _ _ E), (bind_of_Ok _ _ w w (Some (p, _scopes_list (p_scopes p)))).
    + eexists w, _. split; [done|]. split; [done|]. simpl. by rewrite <-Hsc.
    + unfold get_pairing, gets. by rewrite (find_and _ pairing_active _ p).
  - rewrite (bind_of_Ok _ _ _ _ _ E). by exists w', a.
Qed.

(** No identity. *)
Definition unpaired : AuthContext :=
  {| au_role := AUTH_ROLE_UNPAIRED; au_scopes := []; au_principal_id := None; au_metadata := [] |}.
(** In a chat without an active binding a message has no identity but the one it
    carries. *)
Lemma auth_locked_out identity ds m w ch k :
  plain ch → plain k → from_chat ch k m → locked_out ch k w →
  auth_for_inbound identity ds m w = (w, Ok (default unpaired (im_auth m))).
Proof.
  intros Hch Hk [Hmc Hmk] [Hs Hp]. unfold auth_for_inbound. destruct (im_auth m) as [a|]; [done|]. rewrite Hmc, Hmk.
  rewrite (bind_of_Ok _ _ w w None).
  - rewrite (bind_of_Ok _ _ w w None); [done|]. unfold get_pairing, gets.
    rewrite find_false; [done|]. intros p Hin. destruct (is_pairing ch k p) eqn:E; [|done]. simpl. auto.
  - unfold _auth_from_principal_mapping. rewrite (bind_of_Ok _ _ w w None).
    + unfold auth_from_store. rewrite (bind_of_Ok _ _ w w None); [done|].
      destruct Hch as [H1 H2], Hk as [H3 H4]. unfold resolve_principal, stripped. rewrite H1, H3, H2, H4.
      unfold gets. simpl. rewrite find_false; [done|]. intros c Hin. destruct (is_subject ch k c) eqn:E; [|done].
      simpl. auto.
    + destruct identity; [|done]. unfold auth_context, get_binding.
      rewrite (bind_of_Ok _ _ w w _ (bind_of_Ok _ _ w w _ (get_channel_subject_plain ch k w Hch Hk))).
      destruct (List.find _ _) as [c|] eqn:Ef; [|done]. apply find_some in Ef as [Hin Hc].
      apply list_elem_of_In in Hin. pose proof (Hs c Hin Hc) as Hna. unfold subject_active in Hna.
      unfold mret, M_ret. simpl. destruct (truthy (cs_status c)) eqn:Et; [|done]. by rewrite Hna.
Qed.

(** ** Revocation *)

Lemma update_locks_out ch k note w :
  plain ch → plain k →
  ∃ w' b, update_channel_subject ch k (Some PRINCIPAL_BINDING_STATUS_INACTIVE) None note w = (w', Ok b) ∧
    locked_out ch k w'.
Proof.
  intros [H1 H2] [H3 H4]. unfold update_channel_subject, stripped. rewrite H1, H3, H2, H4. simpl.
  eexists _, _. split; [done|]. split; simpl.
  - intros c Hin Hc. apply update_where_elem in Hin as (x & _ & [[_ ->]|[Hn ->]]); [done|congruence].
  - intros p Hin Hp. apply update_where_elem in Hin as (x & _ & [[_ ->]|[Hn ->]]); [done|congruence].
Qed.

Lemma admin_revoke_locks_out ch k note w w' d :
  plain ch → plain k → admin_revoke ch k note w = (w', Ok (Some d)) → locked_out ch k w'.
Proof.
  intros Hch Hk H. unfold admin_revoke in H.
  rewrite (bind_of_Ok _ _ w w _ (get_channel_subject_plain ch k w Hch Hk)) in H.
  destruct (List.find _ _) as [c|]; [|done]. simpl in H.
  destruct (update_locks_out ch k note w Hch Hk) as (w1 & b & E & Hl).
  rewrite (bind_of_Ok _ _ _ _ _ E) in H. msplit H as w2 u E2. unfold admin_emit, audit, modify in E2.
  injection E2 as <- _. msplit H as w3 row E3. rewrite get_channel_subject_plain in E3 by done.
  injection E3 as <- <-. by injection H as <- _.
Qed.

(** C38: revoking the binding of a chat locks the chat out: until the chat is bound
    again, the look-up of the identity of a message from it, through the identity API
    or in the store, finds no role and no scopes.  Only a message that carries an
    identity in its row, resolved before the row was queued, keeps it: nothing is
    looked up for it. *)
Theorem revoked_chat_locked_out ch k note w w' d identity ds m :
  plain ch → plain k → admin_revoke ch k note w = (w', Ok (Some d)) → from_chat ch k m →
  auth_for_inbound identity ds m w' = (w', Ok (default unpaired (im_auth m))).
Proof.
  intros Hch Hk Hr Hm. apply (auth_locked_out _ _ _ _ ch k); try done. by eapply admin_revoke_locks_out.
Qed.

(** ** What a pairing grants *)

Lemma upsert_principal_row_ok pid c u w :
  ∃ w', _upsert_principal_row pid c u None w = (w', Ok ()) ∧ pairings w' = pairings w.
Proof. eexists. split; [done|]. done. Qed.

(** After a pairing its rows are active, with its scopes. *)
Lemma upsert_pairing_binds ch k u s sc n w w' pid :
  upsert_pairing ch k u s (Some PRINCIPAL_BINDING_STATUS_ACTIVE) (Some sc) n None w = (w', Ok pid) →
  ∃ c p, List.find (is_subject ch k) (channel_subjects w') = Some c ∧ subject_active c = true ∧
    List.find (is_pairing ch k) (pairings w') = Some p ∧ pairing_active p = true ∧
    p_scopes p = sc ∧ cs_scopes c = sc.
Proof.
  intros H. unfold upsert_pairing in H. msplit H as w1 pid0 E1. msplit H as w2 now E2.
  apply transaction_Ok_inv in H. msplit H as w3 v3 E3. rewrite bind_get_world in H.
  msplit H as w4 v4 E4. rewrite bind_get_world in H. msplit H as w5 v5 E5. injection H as <- _.
  set (row := {| p_pairing_id := pid0 |}) in E3.
  assert (pairings w3 = upsert (is_pairing ch k) (pairing_rebind u s now PRINCIPAL_BINDING_STATUS_ACTIVE sc n)
            row (pairings w2)) as Hp3.
  { unfold upsert_pairing_row in E3. unfold upsert. simpl in E3.
    destruct (existsb (is_pairing ch k) (pairings w2)); [by injection E3 as <- _|].
    destruct (existsb _ (pairings w2)); [done|]. by injection E3 as <- _. }
  assert (pairings w5 = pairings w3) as Hp5 by (injection E4 as <- _; by injection E5 as <- _).
  destruct (find_upsert (is_pairing ch k) (pairing_rebind u s now PRINCIPAL_BINDING_STATUS_ACTIVE sc n)
              row (pairings w2)) as (p & Hp & Hpc); [by apply is_pairing_eq| |].
  { intros y Hy. apply is_pairing_eq in Hy. by apply is_pairing_eq. }
  unfold _upsert_channel_subject, modify in E5. injection E5 as <- _. simpl.
  match goal with |- context [upsert (is_subject ch k) ?f ?x (channel_subjects w4)] =>
    destruct (find_upsert (is_subject ch k) f x (channel_subjects w4)) as (c & Hc & Hcc);
      [by apply is_subject_eq| |] end.
  { intros y Hy. apply is_subject_eq in Hy. by apply is_subject_eq. }
  exists c, p. rewrite Hc. simpl in Hp5. rewrite Hp5, Hp3, Hp. split_and!; try done.
  - by destruct Hcc as [->|(z & _ & _ & ->)].
  - by destruct Hpc as [->|(z & _ & _ & ->)].
  - by destruct Hpc as [->|(z & _ & _ & ->)].
  - by destruct Hcc as [->|(z & _ & _ & ->)].
Qed.

(** The ids of the pairings come from earlier draws. *)
Definition pairing_ids_drawn (w : CPWorld) : Prop :=
  ∀ p n, p ∈ pairings w → p_pairing_id p = py_uuid4 n → (n < cp_uuids w)%nat.

(** What does not touch the pairings and draws no earlier id. *)
Definition pairings_kept (w w' : CPWorld) : Prop := pairings w' = pairings w ∧ (cp_uuids w ≤ cp_uuids w')%nat.
#[local] Instance pairings_kept_preorder : PreOrder pairings_kept.
Proof.
  split; [by split|]. intros w1 w2 w3 [H1 H2] [H3 H4]. split; [congruence|lia].
Qed.
Lemma pairings_kept_rollback w w' : pairings_kept w w' → pairings_kept w (cp_rollback w w').
Proof. intros [_ H]. by split. Qed.
Lemma resolve_session_kept u k : within pairings_kept (resolve_session u k).
Proof.
  autounfold with cpops.
  within_with ltac:(first [apply pairings_kept_rollback | split; simpl; [done|lia]]).
Qed.
Lemma resolve_session_ok u k w : ∃ w' sid, resolve_session u k w = (w', Ok sid).
Proof.
  destruct (resolve_session u k w) as [w' [sid|e]] eqn:E; [by eauto|exfalso].
  unfold resolve_session, get_chat_binding, gets, mbind, M_bind in E. by destruct (List.find _ _).
Qed.

Lemma upsert_pairing_ok ch k u s sc n w :
  pairing_ids_drawn w → uuids_distinct →
  ∃ w' pid, upsert_pairing ch k u s (Some PRINCIPAL_BINDING_STATUS_ACTIVE) (Some sc) n None w = (w', Ok pid).
Proof.
  intros Hd Hu. unfold upsert_pairing, uuid_or.
  rewrite (bind_of_Ok cp_uuid _ w _ _ eq_refl), (bind_of_Ok iso_now _ _ _ _ eq_refl).
  unfold cp_tx, transaction.
  match goal with |- context [upsert_pairing_row ?row] => set (r := row) end.
  match goal with |- context [(upsert_pairing_row r ≫= ?f) ?v] => set (w1 := v); set (g := f) end.
  destruct (upsert_pairing_row r w1) as [w2 [[]|e]] eqn:E.
  - rewrite (bind_of_Ok _ _ _ _ _ E). unfold g. eexists _, _. done.
  - exfalso. unfold upsert_pairing_row in E.
    destruct (existsb (is_pairing _ _) _); [done|]. destruct (existsb _ _) eqn:Ex; [|done].
    apply existsb_exists in Ex as (q & Hq & Eq). apply String.eqb_eq in Eq. simpl in Eq.
    apply list_elem_of_In in Hq. specialize (Hd q (cp_uuids w) Hq Eq). lia.
Qed.

Lemma consume_kept ch t a k p : within pairings_kept (consume_pair_token ch t a k p).
Proof.
  autounfold with cpops.
  within_with ltac:(first [apply pairings_kept_rollback | split; simpl; [done|lia]]).
Qed.
Lemma caught_Ok {A} (d : A) (m : CPM A) w w' a : m w = (w', Ok a) → caught d m w = (w', Ok a).
Proof. unfold caught. by intros ->. Qed.

Lemma pairing_ids_kept w w' : pairings_kept w w' → pairing_ids_drawn w → pairing_ids_drawn w'.
Proof. intros [Hp Hu] H p n Hin E. rewrite Hp in Hin. specialize (H p n Hin E). lia. Qed.

(** A redeemed token binds its chat to its scopes. *)
Lemma bridge_binds policy attempt consume w :
  pairing_ids_drawn w → uuids_distinct → c_scopes consume ≠ [] →
  ∃ w' c p, _bridge_pairing_to_controlplane policy true attempt consume w = (w', Ok ()) ∧
    List.find (is_subject (pa_channel attempt) (extra_or attempt "subject_id" (pa_chat_key attempt)))
      (channel_subjects w') = Some c ∧ subject_active c = true ∧
    List.find (is_pairing (pa_channel attempt) (extra_or attempt "subject_id" (pa_chat_key attempt)))
      (pairings w') = Some p ∧ pairing_active p = true ∧
    p_scopes p = c_scopes consume ∧ cs_scopes c = c_scopes consume.
Proof.
  intros Hd Hu Hsc. unfold _bridge_pairing_to_controlplane. change (negb true) with false. cbv iota.
  set (su := extra_or attempt "session_user_key" _). set (sk := extra_or attempt "session_chat_key" _).
  destruct (resolve_session_ok su sk w) as (w1 & sid & E1).
  pose proof (resolve_session_kept su sk w) as Hk. rewrite E1 in Hk. simpl in Hk.
  rewrite (bind_of_Ok _ _ _ _ _ (caught_Ok _ _ _ _ _ E1)).
  replace (list_or (c_scopes consume) (pp_default_scopes policy)) with (c_scopes consume)
    by (by destruct (c_scopes consume)).
  match goal with |- context [upsert_pairing ?a ?b ?c ?d _ _ ?n None] =>
    destruct (upsert_pairing_ok a b c d (c_scopes consume) n w1) as (w2 & pid & E2);
      [by apply (pairing_ids_kept w)|done|] end.
  rewrite (bind_of_Ok _ _ _ _ _ (caught_Ok _ _ _ _ _ E2)).
  destruct (upsert_pairing_binds _ _ _ _ _ _ _ _ _ E2) as (c & p & H). by exists w2, c, p.
Qed.

Context {Ad : PairingAdapter}.

(** Redeeming a pairing token that was issued for the account and the chat
    succeeds, and then a message of that chat whose identity is looked up has exactly
    the scopes the token was issued with. *)
Theorem pairing_grants_token_scopes policy attempt row w identity ds m :
  let k := extra_or attempt "subject_id" (pa_chat_key attempt) in
  tokens_unique w → pairing_ids_drawn w → uuids_distinct → row ∈ pair_tokens w →
  acceptable (pa_channel attempt) (pa_token attempt) (pa_account_id attempt) (pa_chat_key attempt)
    (pp_hash_pepper policy) (unix_seconds (py_clock (cp_ticks w))) row →
  stripped_nonblank (t_scopes row) ≠ [] →
  plain (pa_channel attempt) → plain k → im_auth m = None → from_chat (pa_channel attempt) k m →
  ∃ w' w'' auth, redeem_attempt policy true None attempt w = (w', Ok (handled format_success_reply)) ∧
    auth_for_inbound identity ds m w' = (w'', Ok auth) ∧ au_role auth = "paired" ∧
    au_scopes auth = stripped_nonblank (t_scopes row).
Proof.
  intros k Htok Hd Hu Hin Hacc Hne Hch Hk Hau Hm. unfold redeem_attempt.
  destruct (consume_cases (pa_channel attempt) (pa_token attempt) (pa_account_id attempt)
              (pa_chat_key attempt) (pp_hash_pepper policy) w Htok) as (w1 & r & E1 & Hr).
  pose proof (consume_kept (pa_channel attempt) (pa_token attempt) (pa_account_id attempt)
                (pa_chat_key attempt) (pp_hash_pepper policy) w) as Hkept. rewrite E1 in Hkept. simpl in Hkept.
  destruct Hr as [(Hok & row' & Hin' & Hacc' & Hsc & _)|(_ & _ & Hno)]; [|by destruct (Hno row Hin)].
  assert (row' = row) as ->.
  { apply (key_unique t_hash (pair_tokens w)); try done.
    transitivity (token_hash (pa_token attempt) (pp_hash_pepper policy)); [apply Hacc'|symmetry; apply Hacc]. }
  rewrite (bind_of_Ok _ _ _ _ _ E1), Hok. simpl negb. cbn [andb].
  rewrite (bind_of_Ok (mret r) _ w1 w1 r eq_refl).
  assert (∃ w2, _record_attempt policy None attempt (str_or (Some (c_reason r)) "unknown") w1 = (w2, Ok ()) ∧
            pairings_kept w1 w2) as (w2 & E2 & Hk2).
  { unfold _record_attempt. rewrite (bind_of_Ok (record_pair_attempt _ _ _ _ _ _ _) _ w1 _ () eq_refl).
    destruct (negb _); eexists; (split; [done|]); split; simpl; try done; lia. }
  rewrite (bind_of_Ok _ _ _ _ _ E2), Hok. rewrite <-Hsc in Hne |- *.
  destruct (bridge_binds policy attempt r w2) as (w3 & c & p & E3 & Hc & Hca & Hp & Hpa & Hps & Hcs); try done.
  { apply (pairing_ids_kept w1); [done|]. by apply (pairing_ids_kept w). }
  rewrite (bind_of_Ok _ _ _ _ _ E3). fold k in Hc, Hp.
  match goal with |- context [_audit ?e ?o ?d] => set (w4 := set_audit (λ l, l ++ [{| e_event_type := e;
     e_outcome := o; e_details := d |}]) w3) end.
  destruct (auth_of_binding identity ds m w4 (pa_channel attempt) k c p) as (w5 & a & Ea & Hrole & Hscopes);
    try done; [congruence|].
  exists w4, w5, a. split_and!; try done. rewrite Hscopes, Hcs, Hsc, nonblank_stripped.
  rewrite Hsc in Hne. by destruct (stripped_nonblank (t_scopes row)).
Qed.
End Access.

(** ** What the inbox worker lets through *)

Section Guards.
Context {Env : PyEnv}.


Variable cfg : InboxConfig.
Variable az : Authorizer.
Variable parser : string → option ParsedCommand.
Hypothesis authorized : ic_authorizer cfg = Some az.



End Guards.

(** ** The revoke command in Slack

    The command takes the chat's subject id to be all of the chat key after the
    first colon; pairings are stored under the bare id of the Slack channel. *)

Section SlackRevoke.
Context {Env : PyEnv}.

Definition no_colon : string → bool := str_all (λ c, negb (Ascii.eqb c ":"%char)).
Definition no_spaces : string → bool := str_all (λ c, negb (latin1_is_space c)).

Lemma slack_key_shape team chan thread :
  no_spaces team = true → no_spaces chan = true → no_spaces (default "" thread) = true →
  ∃ rest, slack_session_scope_key team chan thread = "slack:" +:+ rest ∧
    no_spaces rest = true ∧ no_colon rest = false.
Proof.
  unfold no_spaces, no_colon. intros Ht Hc Hth. unfold slack_session_scope_key.
  assert (∀ t, str_all (λ c, negb (latin1_is_space c)) t = true → ∃ rest,
    "slack:" +:+ team +:+ ":channel:" +:+ chan +:+ t = "slack:" +:+ rest ∧
    str_all (λ c, negb (latin1_is_space c)) rest = true ∧
    str_all (λ c, negb (Ascii.eqb c ":"%char)) rest = false) as H.
  { intros t E. exists (team +:+ ":channel:" +:+ chan +:+ t). split; [done|].
    rewrite !str_all_app, Ht, Hc, E. split; [done|]. by rewrite andb_false_r. }
  destruct (otruthy thread).
  - destruct (H (":thread:" +:+ default "" thread)) as (rest & E & Hs & Hn);
      [by rewrite str_all_app, Hth|].
    exists rest. split; [|done]. cbv zeta. rewrite <-E. by rewrite !str_app_assoc.
  - destruct (H "") as (rest & E & Hs & Hn); [done|].
    exists rest. split; [|done]. cbv zeta. rewrite <-E. by rewrite str_app_nil_r.
Qed.

(** A Slack chat cannot revoke its pairing: as no pairing is stored under an id
    with a colon, the command finds none, changes nothing and the chat keeps its
    access. *)
Lemma slack_revoke_finds_nothing ctx team chan thread w :
  rc_chat_key ctx = slack_session_scope_key team chan thread →
  no_spaces team = true → no_spaces chan = true → no_spaces (default "" thread) = true →
  (∀ p, p ∈ pairings w → p_channel p = "slack" → no_colon (p_chat_id p) = true) →
  _pair_revoke ctx w = (w, Ok {| cr_ok := true; cr_text := "No active pairing found for this chat.";
                                 cr_data := [("revoked", PBool false)] |}).
Proof.
  intros Hk Ht Hc Hth Hp. destruct (slack_key_shape team chan thread Ht Hc Hth) as (rest & E & Hs & Hn).
  assert (_current_channel_subject (rc_chat_key ctx) = Some ("slack", rest)) as Hcs.
  { rewrite Hk, E. unfold _current_channel_subject.
    rewrite strip_no_space by (rewrite str_all_app; apply andb_true_iff; split; [done|exact Hs]).
    assert (partition_char ":"%char ("slack:" +:+ rest) = Some ("slack", rest)) as -> by done.
    cbv zeta. rewrite (strip_no_space rest Hs). by destruct rest. }
  unfold _pair_revoke. rewrite (bind_of_Ok _ _ w w None); [by rewrite Hcs|].
  unfold _current_pairing. rewrite Hcs. unfold get_pairing, gets. rewrite find_false; [done|].
  intros p Hin. destruct (is_pairing "slack" rest p) eqn:Ep; [|done].
  apply is_pairing_eq in Ep as [Hch <-]. specialize (Hp p Hin Hch). congruence.
Qed.
End SlackRevoke.
