(* ===== verification/CPGuessProps.v ===== *)
(** Guessing pairing tokens: the attempts that reach the token store, per account
    and per chat, are bounded in every window of time. *)

From S2P Require Import Prelude PyValue Timestamps PyText Schedule CPTables CPPrincipals CPQueues CPModels CPSteps CPAuth CPPairing CPQueueProps.
From Stdlib Require Import Ascii.

Local Open Scope Z_scope.

(** ** Counting *)

(** The outcomes of attempts that were refused before the token was looked up. *)
Definition refusals : list string := ["invalid_format"; "lru_limited"; "rate_limited"].
Definition tried (a : PairAttempt) : bool := negb (str_in (a_outcome a) refusals).
Definition by_user (channel account : string) (a : PairAttempt) : bool :=
  String.eqb (a_channel a) channel && String.eqb (a_account_id a) account.
Definition by_chat (channel chat : string) (a : PairAttempt) : bool :=
  String.eqb (a_channel a) channel && ostr_eqb (a_chat_key a) (Some chat).
Definition tried_in (q : PairAttempt → bool) (window t : Z) (a : PairAttempt) : bool :=
  q a && tried a && (t <=? a_attempted_at a) && (a_attempted_at a <=? t + window).

Definition bounded (q : PairAttempt → bool) (window limit : Z) (l : list PairAttempt) : Prop :=
  ∀ t, Z.of_nat (count_where (tried_in q window t) l) ≤ Z.max 0 limit.

Lemma bounded_other q window limit l a :
  q a && tried a = false → bounded q window limit l → bounded q window limit (l ++ [a]).
Proof.
  intros E H t. rewrite count_where_snoc. unfold tried_in at 2. rewrite E. simpl. specialize (H t). lia.
Qed.

(** An attempt made after fewer than [limit] rows were counted since [since]. *)
Lemma bounded_counted q window limit l a since :
  Z.of_nat (count_where (λ x, q x && (since <=? a_attempted_at x)) l) < limit →
  since + window ≤ a_attempted_at a →
  bounded q window limit l → bounded q window limit (l ++ [a]).
Proof.
  intros Hc Ha H t. rewrite count_where_snoc. destruct (tried_in q window t a) eqn:E; [|specialize (H t); lia].
  unfold tried_in in E. bsplit.
  pose proof (count_where_mono (tried_in q window t) (λ x, q x && (since <=? a_attempted_at x)) l) as Hm.
  enough (∀ x, x ∈ l → tried_in q window t x = true → q x && (since <=? a_attempted_at x) = true) as Hx
    by (specialize (Hm Hx); lia). intros x _ Hx. unfold tried_in in Hx. bsplit.
  apply andb_true_iff. split; [done|]. lia.
Qed.

Section Guesses.
Context {Env : PyEnv} {Cp : CPEnv} {Ad : PairingAdapter}.
Variable policy : PairingPolicy.
Variable bridge : bool.
Variable legacy : option LegacyStore.
Hypothesis Hclock : clock_monotone.

Definition window : Z := Z.max 1 (pp_attempt_window_seconds policy).
(** The attempts on record keep to the limits of the policy. *)
Definition guesses_bounded (w : CPWorld) : Prop :=
  (∀ ch acc, bounded (by_user ch acc) window (pp_max_attempts_per_user policy) (pair_attempts w)) ∧
  (∀ ch k, bounded (by_chat ch k) window (pp_max_attempts_per_chat policy) (pair_attempts w)).

(** What records no attempt; the clock only moves on. *)
Definition attempts_kept (w w' : CPWorld) : Prop :=
  pair_attempts w' = pair_attempts w ∧ (cp_ticks w ≤ cp_ticks w')%nat.
#[export] Instance attempts_kept_preorder : PreOrder attempts_kept.
Proof. split; [by split|]. intros w1 w2 w3 [H1 H2] [H3 H4]. split; [congruence|lia]. Qed.

(** The older token store has tables of its own. *)
Definition legacy_separate : Prop :=
  ∀ store, legacy = Some store →
    (∀ t u c topic p, within attempts_kept (legacy_consume store t u c topic p)) ∧
    (∀ t u c o p, within attempts_kept (legacy_record store t u c o p)).
Hypothesis Hlegacy : legacy_separate.

Lemma kept_rollback w w' : attempts_kept w w' → attempts_kept w (cp_rollback w w').
Proof. intros [_ H]. by split. Qed.
Ltac kept := autounfold with cpops;
  within_with ltac:(first [apply kept_rollback | split; simpl; [done|lia]]).

Lemma caught_kept {A} (d : A) m : within attempts_kept m → within attempts_kept (caught d m).
Proof.
  intros H w. specialize (H w). unfold caught. destruct (m w) as [w' [a|e]]; simpl in *; [done|].
  destruct e as [[]| |]; done.
Qed.
Lemma upsert_row_kept p : within attempts_kept (upsert_pairing_row p).
Proof. intros w. unfold upsert_pairing_row. repeat case_match; split; simpl; done || lia. Qed.
Lemma bridge_kept attempt c : within attempts_kept (_bridge_pairing_to_controlplane policy bridge attempt c).
Proof.
  unfold _bridge_pairing_to_controlplane. destruct (negb bridge); [apply within_ret, _|].
  apply within_bind; [apply _|apply caught_kept|intros sid].
  { kept. }
  apply within_bind; [apply _|apply caught_kept|intros pid; apply within_ret, _].
  autounfold with cpops.
  within_with ltac:(first [apply kept_rollback|apply upsert_row_kept|split; simpl; [done|lia]]).
Qed.
Lemma consume_kept_attempts ch t a k p : within attempts_kept (consume_pair_token ch t a k p).
Proof. kept. Qed.
Lemma audit_kept e o d : within attempts_kept (audit e o d).
Proof. intros w. split; simpl; [done|lia]. Qed.

Lemma legacy_redeem_kept attempt c : within attempts_kept (_try_legacy_redeem policy legacy attempt c).
Proof.
  unfold _try_legacy_redeem. destruct (negb _); [apply within_ret, _|].
  destruct legacy as [store|] eqn:El; [|apply within_ret, _].
  destruct (telegram_ids attempt) as [[u k]|]; [|apply within_ret, _].
  destruct (Hlegacy store El) as [Hc _].
  within_with ltac:(first [apply Hc|apply audit_kept]).
Qed.
(** ** Recording *)

Lemma bounded_kept w w' : attempts_kept w w' → guesses_bounded w → guesses_bounded w'.
Proof. intros [E _] [H1 H2]. split; intros; rewrite E; auto. Qed.

(** The row that [_record_attempt] adds. *)
Lemma record_spec attempt outcome w :
  ∃ a, a_channel a = pa_channel attempt ∧ a_account_id a = pa_account_id attempt ∧
    a_chat_key a = Some (pa_chat_key attempt) ∧ a_outcome a = outcome ∧
    a_attempted_at a = second_at w ∧
    pair_attempts (_record_attempt policy legacy attempt outcome w).1 = pair_attempts w ++ [a].
Proof.
  unfold _record_attempt. set (d := dupdate _ _).
  destruct (record_pair_attempt (pa_channel attempt) (pa_account_id attempt)
    (Some (pa_chat_key attempt)) (pa_token attempt) outcome (pp_hash_pepper policy) d w) as [w1 r] eqn:E1.
  injection E1 as <- <-. rewrite (bind_of_Ok _ _ w _ () eq_refl). cbv beta.
  match goal with |- context [(?m ?v).1] => set (rest := m); set (w1 := v) end.
  assert (within attempts_kept rest) as Hr.
  { unfold rest. destruct (negb _); [apply within_ret, _|].
    destruct legacy as [store|] eqn:El; [|apply within_ret, _].
    destruct (telegram_ids attempt) as [[u k]|]; [|apply within_ret, _]. apply caught_kept.
    destruct (Hlegacy store El) as [_ Hrec]. within_with ltac:(apply Hrec). }
  destruct (Hr w1) as [-> _].
  by exists {| a_channel := pa_channel attempt; a_account_id := pa_account_id attempt;
    a_chat_key := Some (pa_chat_key attempt); a_attempted_at := second_at w;
    a_token_hash_prefix := str_take 12 (token_hash (pa_token attempt) (pp_hash_pepper policy));
    a_outcome := outcome; a_detail := d |}.
Qed.

Lemma record_refusal attempt outcome w :
  outcome ∈ refusals → guesses_bounded w → guesses_bounded (_record_attempt policy legacy attempt outcome w).1.
Proof.
  intros Ho [H1 H2]. destruct (record_spec attempt outcome w) as (a & _ & _ & _ & Eo & _ & E).
  assert (tried a = false) as Ht.
  { unfold tried. rewrite Eo. apply list_elem_of_In in Ho. by destruct Ho as [<-|[<-|[<-|[]]]]. }
  split; intros; rewrite E; apply bounded_other; auto; by rewrite Ht, andb_false_r.
Qed.

(** The counts of the attempt's account and chat are below the limits. *)
Definition below_limits (attempt : PairingAttempt) (since : Z) (l : list PairAttempt) : Prop :=
  Z.of_nat (count_where (λ a, by_user (pa_channel attempt) (pa_account_id attempt) a
    && (since <=? a_attempted_at a)) l) < pp_max_attempts_per_user policy ∧
  Z.of_nat (count_where (λ a, by_chat (pa_channel attempt) (pa_chat_key attempt) a
    && (since <=? a_attempted_at a)) l) < pp_max_attempts_per_chat policy.

Lemma limited_spec attempt w :
  ∃ w' b, _is_rate_limited policy attempt w = (w', Ok b) ∧ attempts_kept w w' ∧
    (b = false → below_limits attempt (second_at w - window) (pair_attempts w)).
Proof.
  unfold _is_rate_limited. set (w1 := set_counters (S (cp_ticks w)) (cp_uuids w) (cp_secrets w) w).
  assert (attempts_kept w w1) as Hk by (split; simpl; [done|lia]).
  rewrite (bind_of_Ok now_ts _ w w1 (second_at w) eq_refl). fold window.
  rewrite (bind_of_Ok (count_recent_pair_attempts _ _ _) _ w1 w1 _ eq_refl).
  destruct (_ <=? _) eqn:E1; [by exists w1, true|].
  rewrite (bind_of_Ok (count_recent_pair_attempts_for_chat _ _ _) _ w1 w1 _ eq_refl).
  eexists w1, _. split; [done|]. split; [done|]. intros E2. apply Z.leb_gt in E1, E2. by split.
Qed.

Lemma record_below attempt outcome since w :
  below_limits attempt since (pair_attempts w) → since + window ≤ second_at w →
  guesses_bounded w → guesses_bounded (_record_attempt policy legacy attempt outcome w).1.
Proof.
  intros [Hu Hc] Hs [H1 H2]. destruct (record_spec attempt outcome w) as (a & E1 & E2 & E3 & _ & E5 & E).
  split; intros ch k; rewrite E.
  - destruct (by_user ch k a) eqn:Ea; [|apply bounded_other; [by rewrite Ea|auto]].
    unfold by_user in Ea. bsplit. subst. apply (bounded_counted _ _ _ _ _ since); [|by rewrite E5|auto].
    by rewrite E1, E2.
  - destruct (by_chat ch k a) eqn:Ea; [|apply bounded_other; [by rewrite Ea|auto]].
    unfold by_chat in Ea. rewrite E1, E3 in Ea. apply andb_true_iff in Ea as [Ea1 Ea2]. simpl in Ea2.
    apply String.eqb_eq in Ea1, Ea2. subst ch k.
    by apply (bounded_counted _ _ _ _ _ since); [|rewrite E5|auto].
Qed.

(** ** Handling an attempt *)

Lemma redeem_bounded attempt since w :
  below_limits attempt since (pair_attempts w) → since + window ≤ second_at w →
  guesses_bounded w → guesses_bounded (redeem_attempt policy bridge legacy attempt w).1.
Proof.
  intros Hb Hs H. unfold redeem_attempt. unfold mbind at 1, M_bind at 1.
  pose proof (consume_kept_attempts (pa_channel attempt) (pa_token attempt) (pa_account_id attempt)
    (pa_chat_key attempt) (pp_hash_pepper policy) w) as Hk1.
  destruct (consume_pair_token _ _ _ _ _ w) as [w1 [first|e]]; simpl in Hk1; [|by eapply bounded_kept].
  unfold mbind at 1, M_bind at 1. match goal with |- context [match ?m w1 with _ => _ end] => set (m2 := m) end.
  assert (within attempts_kept m2) as Hm2.
  { unfold m2. destruct (_ && _); [apply legacy_redeem_kept|apply within_ret, _]. }
  specialize (Hm2 w1). destruct (m2 w1) as [w2 [consume|e]]; simpl in Hm2; cbv beta iota zeta.
  2:{ eapply bounded_kept; [|done]. by etrans. }
  assert (attempts_kept w w2) as Hk2 by (by etrans).
  set (out := str_or (Some (c_reason consume)) "unknown").
  assert (guesses_bounded (_record_attempt policy legacy attempt out w2).1) as Hrec.
  { apply (record_below _ _ since); [by rewrite (proj1 Hk2)| |by eapply bounded_kept].
    etrans; [done|]. apply second_mono, Hk2. done. }
  unfold mbind at 1, M_bind at 1. destruct (_record_attempt _ _ _ _ w2) as [w3 [[]|e]]; simpl in Hrec; cbv beta iota; [|done].
  match goal with |- guesses_bounded (?m w3).1 => assert (within attempts_kept m) as Hm end.
  { destruct (c_ok consume); within_with ltac:(first [apply bridge_kept|apply audit_kept]). }
  eapply bounded_kept; [apply Hm|done].
Qed.

Lemma handle_bounded inbound ctx w :
  guesses_bounded w → guesses_bounded (handle_pairing_attempt policy bridge legacy inbound ctx w).1.
Proof.
  intros H. unfold handle_pairing_attempt. destruct (_ || _); [done|].
  unfold lift_py, lift_result, mbind at 1, M_bind at 1.
  destruct (extract_pairing_attempt inbound ctx) as [[attempt|]|e]; simpl; try done.
  destruct (_ && _); [done|]. destruct (negb (_TOKEN_ALLOWED_RE _)).
  { unfold mbind, M_bind. pose proof (record_refusal attempt "invalid_format" w) as Hr.
    destruct (_record_attempt _ _ _ _ w) as [w1 [[]|e]]; apply Hr; (done || unfold refusals; set_solver). }
  destruct (bump (str_take 12 (pa_token attempt)) w) as [w1 [n|e]] eqn:Eb; [|done].
  rewrite (bind_of_Ok _ _ _ _ _ Eb).
  assert (attempts_kept w w1) as Hk1 by (by injection Eb as <- _; split; simpl; [|lia]).
  assert (guesses_bounded w1) as H1 by (by eapply bounded_kept).
  destruct (8 <? n).
  { unfold mbind, M_bind. pose proof (record_refusal attempt "lru_limited" w1) as Hr.
    destruct (_record_attempt _ _ _ _ w1) as [w2 [[]|e]]; apply Hr; (done || unfold refusals; set_solver). }
  destruct (limited_spec attempt w1) as (w2 & b & El & Hk2 & Hb). rewrite (bind_of_Ok _ _ _ _ _ El).
  assert (guesses_bounded w2) as H2 by (by eapply bounded_kept).
  destruct b.
  { unfold mbind, M_bind. pose proof (record_refusal attempt "rate_limited" w2) as Hr.
    destruct (_record_attempt _ _ _ _ w2) as [w3 [[]|e]]; apply Hr; (done || unfold refusals; set_solver). }
  apply (redeem_bounded attempt (second_at w1 - window)); [|pose proof (second_mono Hclock w1 w2 (proj2 Hk2)); lia|done].
  rewrite (proj1 Hk2). by apply Hb.
Qed.
(** An execution: pairing messages are handled, and between them anything may
    happen that records no attempt. *)
Definition pairing_step (w w' : CPWorld) : Prop :=
  (∃ inbound ctx, w' = (handle_pairing_attempt policy bridge legacy inbound ctx w).1) ∨
  pair_attempts w' = pair_attempts w.

(** However many pairing messages are handled, at most the policy's number of
    attempts of one account, and at most its number of attempts from one chat, get
    as far as looking up a token within any window of the policy's length; the
    clock must not run backwards, and the older token store has tables of its
    own. *)
Theorem pairing_guesses_bounded w w' ch acc k t :
  pair_attempts w = [] → rtc pairing_step w w' →
  Z.of_nat (count_where (tried_in (by_user ch acc) window t) (pair_attempts w'))
    ≤ Z.max 0 (pp_max_attempts_per_user policy) ∧
  Z.of_nat (count_where (tried_in (by_chat ch k) window t) (pair_attempts w'))
    ≤ Z.max 0 (pp_max_attempts_per_chat policy).
Proof.
  intros H0 Hs. assert (guesses_bounded w) as H.
  { split; intros ???; rewrite H0; unfold count_where; simpl; lia. }
  assert (guesses_bounded w') as [Hu Hc]; [|split; [apply Hu|apply Hc]].
  clear H0. induction Hs as [w|w1 w2 w3 [(m & c & ->)|E] _ IH]; [done|apply IH; by apply handle_bounded|].
  apply IH. destruct H. split; intros; rewrite E; auto.
Qed.
End Guesses.

(** Every look-up of a token is on record as one. *)
Lemma redeem_recorded `{PyEnv} `{CPEnv} `{PairingAdapter} policy bridge attempt w :
  ∃ a, pair_attempts (redeem_attempt policy bridge None attempt w).1 = pair_attempts w ++ [a] ∧
    a_channel a = pa_channel attempt ∧ a_account_id a = pa_account_id attempt ∧ tried a = true.
Proof.
  unfold redeem_attempt. unfold mbind at 1, M_bind at 1.
  pose proof (consume_kept_attempts (pa_channel attempt) (pa_token attempt) (pa_account_id attempt)
    (pa_chat_key attempt) (pp_hash_pepper policy) w) as Hk1.
  assert (∃ w1 r, consume_pair_token (pa_channel attempt) (pa_token attempt) (pa_account_id attempt)
    (pa_chat_key attempt) (pp_hash_pepper policy) w = (w1, Ok r) ∧
    str_in (str_or (Some (c_reason r)) "unknown") refusals = false) as (w1 & r & E & Hr).
  { unfold consume_pair_token. rewrite (bind_of_Ok now_ts _ w _ _ eq_refl). unfold cp_tx, transaction.
    rewrite bind_get_world. destruct (List.find _ _) as [row|]; [|eexists _, _; by split].
    destruct (t_used_at row); [eexists _, _; by split|]. destruct (_ <? _); [eexists _, _; by split|].
    set (mm := _pair_expected_mismatch row _ _).
    assert (mm = "user_mismatch" ∨ mm = "chat_mismatch" ∨ mm = "") as Hmm.
    { unfold mm, _pair_expected_mismatch. repeat case_match; auto. }
    destruct Hmm as [->|[->| ->]]; [eexists _, _; by split|eexists _, _; by split|].
    change (truthy "") with false. cbv iota. rewrite (bind_of_Ok (update_tokens _ _) _ _ _ _ eq_refl).
    destruct (negb _); eexists _, _; by split. }
  rewrite E in Hk1 |- *. simpl in Hk1. cbv beta iota.
  rewrite andb_false_r. rewrite (bind_of_Ok (mret r) _ w1 w1 r eq_refl). cbv zeta.
  set (out := str_or (Some (c_reason r)) "unknown") in *.
  destruct (record_spec policy None ltac:(by intros ?) attempt out w1) as (a & E1 & E2 & _ & E4 & _ & Ea).
  exists a. unfold tried. rewrite E4, Hr. split_and!; try done.
  unfold mbind at 1, M_bind at 1. destruct (_record_attempt _ _ _ _ w1) as [w3 [[]|e]]; simpl in Ea; cbv beta iota.
  2:{ simpl. rewrite Ea. by rewrite (proj1 Hk1). }
  match goal with |- pair_attempts (?m w3).1 = _ => assert (within attempts_kept m) as Hm end.
  { destruct (c_ok r); within_with ltac:(first [apply bridge_kept|apply audit_kept]). }
  rewrite (proj1 (Hm w3)), Ea. by rewrite (proj1 Hk1).
Qed.
