(* ===== verification/OrderedDict.v ===== *)
(** Python's [OrderedDict] with keys of a decidable type: the entries in their
    order, each key once.  The caches and stores that evict their oldest entry are
    built on it. *)

From S2P Require Import Prelude.

(** ** Operations *)

Section Operations.
Context {K : Type} `{EqDecision K} {V : Type}.
Implicit Types (k : K) (v : V) (d : list (K * V)).

(** [d.get(k)] *)
Fixpoint od_get d k : option V :=
  match d with
  | [] => None
  | (k', v) :: d' => if bool_decide (k = k') then Some v else od_get d' k
  end.
(** [d[k] = v]: in place when the key exists, at the end otherwise. *)
Fixpoint od_set d k v : list (K * V) :=
  match d with
  | [] => [(k, v)]
  | (k', v') :: d' => if bool_decide (k = k') then (k', v) :: d' else (k', v') :: od_set d' k v
  end.
(** [d.pop(k, None)] *)
Definition od_pop d k : list (K * V) := List.filter (λ e, negb (bool_decide (k = e.1))) d.
(** [d.move_to_end(k)] of a key that is present. *)
Definition od_move_to_end d k : list (K * V) :=
  match od_get d k with Some v => od_pop d k ++ [(k, v)] | None => d end.
(** [while len(d) > n: d.popitem(last=False)] *)
Fixpoint od_trim (n : nat) d : list (K * V) :=
  match d with
  | [] => []
  | _ :: d' => if n <? length d then od_trim n d' else d
  end.
End Operations.

(** ** Laws *)

Section Laws.
Context {K : Type} `{EqDecision K} {V : Type}.
Implicit Types (k : K) (v : V) (d : list (K * V)).

Definition od_ok d : Prop := NoDup (map fst d).

Lemma od_get_elem d k v : od_get d k = Some v → (k, v) ∈ d.
Proof.
  induction d as [|[k' v'] d IH]; simpl; [done|]. case_bool_decide as E; [|intros H; right; auto].
  intros [= ->]. subst. left.
Qed.
Lemma elem_od_get d k v : od_ok d → (k, v) ∈ d → od_get d k = Some v.
Proof.
  unfold od_ok. induction d as [|[k' v'] d IH]; simpl; [by intros _ ?%elem_of_nil|].
  rewrite NoDup_cons. intros [Hk Hn] Hin. apply elem_of_cons in Hin as [[= <- <-]|Hin].
  - by rewrite bool_decide_true.
  - rewrite bool_decide_false; [by apply IH|]. intros ->. apply Hk.
    apply list_elem_of_In, in_map_iff. exists (k', v). split; [done|by apply list_elem_of_In].
Qed.
Lemma od_get_none d k : od_get d k = None ↔ k ∉ map fst d.
Proof.
  induction d as [|[k' v'] d IH]; simpl; [split; [by intros _ ?%elem_of_nil|done]|].
  rewrite elem_of_cons. case_bool_decide as E; [split; [done|tauto]|]. rewrite IH. tauto.
Qed.

Lemma od_get_app d1 d2 k : od_get (d1 ++ d2) k = match od_get d1 k with Some v => Some v | None => od_get d2 k end.
Proof. induction d1 as [|[k' v'] d IH]; simpl; [done|]. by case_bool_decide. Qed.

Lemma od_get_set d k v k' : od_get (od_set d k v) k' = if decide (k' = k) then Some v else od_get d k'.
Proof.
  induction d as [|[k1 v1] d IH]; simpl; [repeat case_bool_decide; by case_decide|].
  destruct (bool_decide_reflect (k = k1)) as [->|]; simpl.
  - case_bool_decide; by case_decide.
  - rewrite IH. repeat case_bool_decide; case_decide; congruence.
Qed.
Lemma od_set_same d k v : od_get d k = Some v → od_set d k v = d.
Proof.
  induction d as [|[k' v'] d IH]; [done|]. cbn. case_bool_decide as E; [intros [= ->]; by subst|]. intros H. by rewrite IH.
Qed.
Lemma od_set_new d k v : od_get d k = None → od_set d k v = d ++ [(k, v)].
Proof. induction d as [|[k' v'] d IH]; [done|]. cbn. case_bool_decide; [done|]. intros E. by rewrite IH. Qed.
Lemma od_get_pop d k k' : od_get (od_pop d k) k' = if decide (k' = k) then None else od_get d k'.
Proof.
  induction d as [|[k1 v1] d IH]; simpl; [by case_decide|].
  destruct (bool_decide_reflect (k = k1)) as [->|]; simpl; rewrite IH; [|];
    repeat case_bool_decide; case_decide; congruence.
Qed.
Lemma od_get_move d k k' : od_get (od_move_to_end d k) k' = od_get d k'.
Proof.
  unfold od_move_to_end. destruct (od_get d k) as [v|] eqn:E; [|done].
  rewrite od_get_app, od_get_pop. simpl. destruct (decide (k' = k)) as [->|Hne].
  - by rewrite bool_decide_true, E.
  - rewrite bool_decide_false by done. by destruct (od_get d k').
Qed.

Lemma od_pop_keys d k : map fst (od_pop d k) = List.filter (λ k', negb (bool_decide (k = k'))) (map fst d).
Proof. induction d as [|[k1 v1] d IH]; simpl; [done|]. case_bool_decide; simpl; by rewrite IH. Qed.
Lemma od_set_keys d k v :
  map fst (od_set d k v) = match od_get d k with Some _ => map fst d | None => map fst d ++ [k] end.
Proof.
  induction d as [|[k1 v1] d IH]; simpl; [done|]. case_bool_decide; simpl; [done|].
  rewrite IH. by destruct (od_get d k).
Qed.
Lemma od_trim_suffix n d : ∃ d0, d = d0 ++ od_trim n d ∧ (length (od_trim n d) ≤ n)%nat.
Proof.
  induction d as [|e d IH]; [exists []; simpl; split; [done|lia]|]. cbn [od_trim].
  destruct (n <? length (e :: d)) eqn:E.
  - destruct IH as (d0 & Hd & Hl). exists (e :: d0). simpl. split; [by f_equal|done].
  - exists []. apply Nat.ltb_ge in E. done.
Qed.
Lemma od_trim_small n d : (length d ≤ n)%nat → od_trim n d = d.
Proof.
  destruct d as [|e d]; [done|]. intros H. cbn [od_trim]. by rewrite (proj2 (Nat.ltb_ge _ _)).
Qed.
Lemma od_trim_one n e d : length d = n → od_trim n (e :: d) = d.
Proof.
  intros H. cbn [od_trim]. simpl length. rewrite (proj2 (Nat.ltb_lt _ _)) by lia.
  apply od_trim_small. lia.
Qed.

Lemma NoDup_filter_bool {A} (p : A → bool) (l : list A) : NoDup l → NoDup (List.filter p l).
Proof.
  induction 1 as [|x l Hx _ IH]; simpl; [constructor|]. destruct (p x); [|done].
  constructor; [|done]. intros H. by apply Hx, (proj1 (filter_elem p l x) H).
Qed.
Lemma od_pop_ok d k : od_ok d → od_ok (od_pop d k).
Proof. unfold od_ok. rewrite od_pop_keys. apply NoDup_filter_bool. Qed.
Lemma od_set_ok d k v : od_ok d → od_ok (od_set d k v).
Proof.
  unfold od_ok. rewrite od_set_keys. destruct (od_get d k) eqn:E; [done|]. intros H.
  apply od_get_none in E. apply NoDup_app. split_and!; [done| |apply NoDup_singleton].
  intros x Hx ->%list_elem_of_singleton. done.
Qed.
Lemma od_pop_snoc_ok d k v : od_ok d → od_ok (od_pop d k ++ [(k, v)]).
Proof.
  intros H. unfold od_ok. rewrite map_app. apply NoDup_app. split_and!; [by apply od_pop_ok| |apply NoDup_singleton].
  simpl. intros x Hx ->%list_elem_of_singleton. rewrite od_pop_keys in Hx.
  apply filter_elem in Hx as [_ Hx]. by rewrite bool_decide_true in Hx.
Qed.
Lemma od_move_ok d k : od_ok d → od_ok (od_move_to_end d k).
Proof. unfold od_move_to_end. destruct (od_get d k); [apply od_pop_snoc_ok|done]. Qed.
Lemma od_trim_ok n d : od_ok d → od_ok (od_trim n d).
Proof.
  destruct (od_trim_suffix n d) as (d0 & E & _). unfold od_ok. rewrite E at 1. rewrite map_app.
  intros H. by apply NoDup_app in H as (_ & _ & H).
Qed.

Lemma od_pop_length d k : (length (od_pop d k) ≤ length d)%nat.
Proof. unfold od_pop. induction d as [|e d IH]; simpl; [lia|]. destruct (negb _); simpl; lia. Qed.
Lemma od_pop_length_lt d k v : od_get d k = Some v → (S (length (od_pop d k)) ≤ length d)%nat.
Proof.
  induction d as [|[k' v'] d IH]; simpl; [done|]. case_bool_decide as E; simpl.
  - intros _. pose proof (od_pop_length d k). lia.
  - intros H. specialize (IH H). lia.
Qed.
Lemma od_move_length d k : (length (od_move_to_end d k) ≤ length d)%nat.
Proof.
  unfold od_move_to_end. destruct (od_get d k) as [v|] eqn:E; [|done].
  rewrite length_app. pose proof (od_pop_length_lt d k v E). simpl. lia.
Qed.
Lemma od_pop_Forall (P : K * V → Prop) d k : Forall P d → Forall P (od_pop d k).
Proof. rewrite !Forall_forall. intros H e [He _]%filter_elem. by apply H. Qed.
Lemma od_move_Forall (P : K * V → Prop) d k : Forall P d → Forall P (od_move_to_end d k).
Proof.
  intros H. unfold od_move_to_end. destruct (od_get d k) as [v|] eqn:E; [|done].
  apply Forall_app. split; [by apply od_pop_Forall|]. apply Forall_singleton.
  rewrite Forall_forall in H. by apply H, od_get_elem.
Qed.

(** Setting a key and moving it to the end. *)
Lemma od_set_move d k v : od_move_to_end (od_set d k v) k = od_pop d k ++ [(k, v)].
Proof.
  unfold od_move_to_end. rewrite od_get_set, decide_True by done. f_equal.
  induction d as [|[k1 v1] d IH]; simpl; [by rewrite bool_decide_true|].
  destruct (bool_decide_reflect (k = k1)) as [->|Hne]; simpl; [by rewrite bool_decide_true|].
  rewrite bool_decide_false by done. simpl. by rewrite IH.
Qed.
End Laws.

#[export] Hint Resolve od_pop_ok od_set_ok od_move_ok od_trim_ok od_pop_snoc_ok : core.
