(* ===== verification/CPCache.v ===== *)
(** The cache of principal lookups ([CachedIdentityAPI] of
    [modules/controlplane/runtime/identity.py]): positive answers are kept for a
    time, the least recently used ones are dropped.  Bindings and authorisation are
    never cached. *)

From S2P Require Import Prelude PyValue Timestamps PyText OrderedDict Schedule CPTables CPPrincipals CPQueues CPModels CPAuth.
From Stdlib Require Import Ascii.

Local Open Scope Z_scope.

Definition cache_key : Type := string * string.
(** The cache, the store behind it and the number of clock readings. *)
Record CacheWorld := {
  cw_store : CPWorld;
  cw_cache : list (cache_key * (string * Z));
  cw_reads : nat;
}.
Abbreviation KM := (M CacheWorld cp_exn).

(** The readings of [time.monotonic()], in some unit. *)
Class MonotonicClock := { monotonic : nat → Z }.

Section CachedIdentityAPI.
Context {Env : PyEnv} {Mono : MonotonicClock}.
(** [max(1, maxsize)] and [max(0, ttl_seconds)] *)
Variable _maxsize : nat.
Variable _ttl : Z.

Definition set_cache (f : list (cache_key * (string * Z)) → list (cache_key * (string * Z))) : KM () :=
  modify (λ w, {| cw_store := cw_store w; cw_cache := f (cw_cache w); cw_reads := cw_reads w |}).
Definition _clock : KM Z := λ w,
  ({| cw_store := cw_store w; cw_cache := cw_cache w; cw_reads := S (cw_reads w) |}, Ok (monotonic (cw_reads w))).
(** A call of the store behind the cache. *)
Definition inner {A} (m : CPM A) : KM A := λ w,
  let '(w', r) := m (cw_store w) in
  ({| cw_store := w'; cw_cache := cw_cache w; cw_reads := cw_reads w |}, r).

Definition _remember (key : cache_key) (principal_id : string) (now : Z) : KM () :=
  set_cache (λ d, od_trim _maxsize (od_move_to_end (od_set d key (principal_id, now + _ttl)) key)).

Definition cached_resolve (channel subject_id : string) : KM (option string) :=
  let key := (channel, subject_id) in
  now ← _clock;
  w ← get_world;
  let ask := principal_id ← inner (identity_resolve channel subject_id);
             _ ← match principal_id with Some p => _remember key p now | None => mret () end;
             mret principal_id in
  match od_get (cw_cache w) key with
  | Some (principal_id, expires_at) =>
      if now <=? expires_at then _ ← set_cache (λ d, od_move_to_end d key); mret (Some principal_id)
      else _ ← set_cache (λ d, od_pop d key); ask
  | None => ask
  end.
Definition cached_bind (principal_id channel subject_id : string) (scopes : option (list string))
    (status : string) (note : option string) (meta : option dict) : KM () :=
  _ ← set_cache (λ d, od_pop d (channel, subject_id));
  inner (identity_bind principal_id channel subject_id scopes status note meta).
Definition cached_get_binding (channel subject_id : string) : KM (option PrincipalBinding) :=
  inner (get_binding channel subject_id).
Definition cached_auth_context (channel subject_id : string) (default_scopes : list string)
    : KM (option AuthContext) := inner (auth_context channel subject_id default_scopes).

(** ** What the cache answers *)

(** The answer of the store. *)
Definition answer (w : CPWorld) (channel subject_id : string) : option string :=
  match (identity_resolve channel subject_id w).2 with Ok r => r | Raise _ => None end.

(** Every entry repeats an answer that the store gave at some reading of the clock;
    [seen] lists the readings with the store at that time. *)
Definition entry_ok (seen : list (Z * CPWorld)) (e : cache_key * (string * Z)) : Prop :=
  ∃ t w0, (t, w0) ∈ seen ∧ e.2.2 = t + _ttl ∧ answer w0 e.1.1 e.1.2 = Some e.2.1.
Definition cache_ok (seen : list (Z * CPWorld)) (w : CacheWorld) : Prop :=
  od_ok (cw_cache w) ∧ (length (cw_cache w) ≤ _maxsize)%nat ∧ Forall (entry_ok seen) (cw_cache w).

Lemma entry_more seen seen' e : seen ⊆ seen' → entry_ok seen e → entry_ok seen' e.
Proof. intros H (t & w0 & Hin & He). exists t, w0. split; [by apply H|done]. Qed.
Lemma cache_more seen seen' w : seen ⊆ seen' → cache_ok seen w → cache_ok seen' w.
Proof.
  intros H (H1 & H2 & H3). split_and!; [done|done|]. eapply Forall_impl; [done|].
  intros e. by apply entry_more.
Qed.

Lemma identity_resolve_pure ch s w : identity_resolve ch s w = (w, Ok (answer w ch s)).
Proof. unfold answer, identity_resolve, resolve_principal, mbind, M_bind. by destruct (_ || _). Qed.
Lemma inner_resolve ch s w : inner (identity_resolve ch s) w = (w, Ok (answer (cw_store w) ch s)).
Proof. unfold inner. rewrite identity_resolve_pure. by destruct w. Qed.

(** Asking the store and remembering its answer. *)
Lemma ask_spec seen ch s now w :
  cache_ok seen w → (0 < _maxsize)%nat →
  ∃ w', (principal_id ← inner (identity_resolve ch s);
         _ ← match principal_id with Some p => _remember (ch, s) p now | None => mret () end;
         mret principal_id) w = (w', Ok (answer (cw_store w) ch s)) ∧
    cache_ok ((now, cw_store w) :: seen) w'.
Proof.
  intros Hok Hm. rewrite (bind_of_Ok _ _ _ _ _ (inner_resolve ch s w)).
  destruct (answer (cw_store w) ch s) as [p|] eqn:E.
  2:{ exists w. split; [done|]. apply (cache_more seen); [|done]. intros x Hx. by right. }
  eexists. split; [done|]. destruct Hok as (H1 & H2 & H3). simpl. rewrite od_set_move.
  set (d := od_pop (cw_cache w) (ch, s) ++ [((ch, s), (p, now + _ttl))]).
  assert (Forall (entry_ok ((now, cw_store w) :: seen)) d) as Hd.
  { apply Forall_app. split.
    - apply od_pop_Forall. eapply Forall_impl; [done|]. intros e. apply entry_more. intros x Hx. by right.
    - apply Forall_singleton. exists now, (cw_store w). split; [left|done]. }
  destruct (od_trim_suffix _maxsize d) as (d0 & Et & Hl). split_and!; simpl.
  - apply od_trim_ok. unfold d. auto.
  - exact Hl.
  - rewrite Et in Hd. by apply Forall_app in Hd as [_ Hd].
Qed.

(** The cache as it is used: lookups and bindings through it, and anything that
    happens to the store behind its back. *)
Inductive cache_run : list (Z * CPWorld) → CacheWorld → Prop :=
| cr_start w : cw_cache w = [] → cache_run [] w
| cr_resolve seen ch s w :
    cache_run seen w → cache_run ((monotonic (cw_reads w), cw_store w) :: seen) (cached_resolve ch s w).1
| cr_bind seen pid ch s sc st n m w : cache_run seen w → cache_run seen (cached_bind pid ch s sc st n m w).1
| cr_store seen w cp :
    cache_run seen w →
    cache_run seen {| cw_store := cp; cw_cache := cw_cache w; cw_reads := cw_reads w |}.

Lemma resolve_spec seen ch s w :
  cache_ok seen w → (0 < _maxsize)%nat →
  ∃ w' r, cached_resolve ch s w = (w', Ok r) ∧ cache_ok ((monotonic (cw_reads w), cw_store w) :: seen) w' ∧
    (r = answer (cw_store w) ch s ∨
     ∃ t w0 p, (t, w0) ∈ seen ∧ monotonic (cw_reads w) ≤ t + _ttl ∧ r = Some p ∧ answer w0 ch s = Some p).
Proof.
  intros Hok Hm. unfold cached_resolve. rewrite (bind_of_Ok _clock _ w _ _ eq_refl), bind_get_world.
  set (w1 := {| cw_store := cw_store w; cw_cache := cw_cache w; cw_reads := S (cw_reads w) |}). cbv zeta.
  change (cw_cache w1) with (cw_cache w). assert (cache_ok seen w1) as Hok1 by exact Hok.
  destruct (od_get (cw_cache w) (ch, s)) as [[p expires]|] eqn:E.
  2:{ destruct (ask_spec seen ch s (monotonic (cw_reads w)) w1 Hok1 Hm) as (w' & -> & H'). by eauto 10. }
  destruct Hok as (H1 & H2 & H3). destruct (monotonic (cw_reads w) <=? expires) eqn:El.
  - eexists _, _. split; [done|]. split.
    + apply (cache_more seen); [intros x Hx; by right|]. split_and!; simpl; [auto| |].
      * pose proof (od_move_length (cw_cache w) (ch, s)). lia.
      * by apply od_move_Forall.
    + right. apply od_get_elem in E. rewrite Forall_forall in H3.
      destruct (H3 _ E) as (t & w0 & Hin & He & Ha). simpl in He, Ha. exists t, w0, p. apply Z.leb_le in El.
      split_and!; [done|lia|done|done].
  - rewrite (bind_of_Ok (set_cache _) _ w1 _ () eq_refl).
    match goal with |- context [(inner _ ≫= _) ?v] => set (w2 := v) end.
    destruct (ask_spec seen ch s (monotonic (cw_reads w)) w2) as (w' & -> & H'); [|done|by eauto 10].
    split_and!; simpl; [auto| |by apply od_pop_Forall].
    pose proof (od_pop_length (cw_cache w) (ch, s)). lia.
Qed.

Lemma run_ok seen w : (0 < _maxsize)%nat → cache_run seen w → cache_ok seen w.
Proof.
  intros Hm. induction 1 as [w Hw|seen ch s w _ IH|seen pid ch s sc st n m w _ IH|seen w cp _ IH].
  - unfold cache_ok. rewrite Hw. split_and!; [apply NoDup_nil_2|simpl; lia|apply Forall_nil_2].
  - destruct (resolve_spec seen ch s w IH Hm) as (w' & r & E & H & _). by rewrite E.
  - destruct IH as (H1 & H2 & H3). unfold cached_bind. rewrite (bind_of_Ok (set_cache _) _ w _ () eq_refl).
    unfold inner. destruct (identity_bind _ _ _ _ _ _ _ _) as [w' r]. split_and!; simpl; [auto| |by apply od_pop_Forall].
    pose proof (od_pop_length (cw_cache w) (ch, s)). lia.
  - exact IH.
Qed.

(** A lookup through the cache always answers, with the store's present answer
    or with one that the store gave at a lookup no longer ago than the time to
    live; bindings made behind the cache's back are therefore seen after that time
    at the latest.  The cache never holds more entries than its size. *)
Theorem cached_answer_recent seen ch s w :
  (0 < _maxsize)%nat → cache_run seen w →
  ∃ w' r, cached_resolve ch s w = (w', Ok r) ∧ (length (cw_cache w') ≤ _maxsize)%nat ∧
    (r = answer (cw_store w) ch s ∨
     ∃ t w0 p, (t, w0) ∈ seen ∧ monotonic (cw_reads w) ≤ t + _ttl ∧ r = Some p ∧ answer w0 ch s = Some p).
Proof.
  intros Hm Hr. destruct (resolve_spec seen ch s w (run_ok seen w Hm Hr) Hm) as (w' & r & E & (_ & Hl & _) & H).
  by exists w', r.
Qed.

(** A binding made through the cache is seen at once. *)
Lemma cached_bind_seen pid ch s sc st n m w w1 :
  cached_bind pid ch s sc st n m w = (w1, Ok ()) →
  ∃ w2, cached_resolve ch s w1 = (w2, Ok (answer (cw_store w1) ch s)).
Proof.
  unfold cached_bind. rewrite (bind_of_Ok (set_cache _) _ w _ () eq_refl). unfold inner.
  destruct (identity_bind _ _ _ _ _ _ _ _) as [cp r]. intros [= <- ->]. unfold cached_resolve.
  rewrite (bind_of_Ok _clock _ _ _ _ eq_refl), bind_get_world. simpl. rewrite od_get_pop, decide_True by done.
  rewrite (bind_of_Ok _ _ _ _ _ (inner_resolve ch s _)). simpl. by destruct (answer cp ch s); eexists.
Qed.
End CachedIdentityAPI.
