(* ===== verification/CPDemo.v ===== *)
(** Concrete runs of the control plane: a token is issued and redeemed, sessions
    are opened, messages are queued and claimed.  The witnesses of the theorems
    start from these databases. *)

From S2P Require Import Prelude PyValue Timestamps PyText IsoText PolicyModels Demo Schedule CPTables CPPrincipals CPQueues CPModels CPAuth CPPairing CPWorker CPSteps CPTokenProps CPQueueProps CPAccessProps CPGuessProps OrderedDict CPCache.
From Stdlib Require Import Ascii.

Local Open Scope Z_scope.

#[global] Instance demo_cp : CPEnv := {| cp_token_urlsafe n := "secret" +:+ pretty n |}.

Definition cp_empty : CPWorld :=
  {| pair_tokens := []; pair_attempts := []; pairings := []; principals := []; channel_subjects := [];
     inbox := []; outbox := []; rate_limits := []; chat_bindings := []; sessions := [];
     session_agents := []; inbound_messages := []; agents := []; pair_lru := []; cp_audit := [];
     cp_ticks := 0; cp_uuids := 0; cp_secrets := 0 |}.

(** The world that a method leaves. *)
Definition after {A} (m : CPM A) (w : CPWorld) : CPWorld := (m w).1.

(** ** Pairing *)

Definition w_issued : CPWorld :=
  after (issue_pair_token "slack" (Some "slack:T1:user:U1") (Some "slack:T1:channel:C1")
           ["chat.interact"; "session.read"] (Some "tok-1") 600 None) cp_empty.
Definition w_consumed : CPWorld :=
  after (consume_pair_token "slack" "tok-1" "slack:T1:user:U1" "slack:T1:channel:C1" None) w_issued.
Definition demo_attempt : PairingAttempt :=
  {| pa_channel := "slack"; pa_token := "tok-1"; pa_account_id := "slack:T1:user:U1";
     pa_chat_key := "slack:T1:channel:C1"; pa_chat_type := "private";
     pa_extra := [("subject_id", PStr "C1"); ("user_id", PStr "U1")] |}.
Definition slack_message (text : string) : InboundMessage :=
  {| im_user_key := "slack:T1:user:U1"; im_chat_key := "slack:T1:channel:C1"; im_text := text;
     im_channel := "slack"; im_thread_key := None;
     im_meta := [("team_id", PStr "T1"); ("channel_type", PStr "im")]; im_inbound_id := None;
     im_channel_message_id := Some "1.0"; im_chat_id := Some "C1"; im_user_id := Some "U1";
     im_thread_id := None; im_timestamp := 0; im_reply_to := None;
     im_metadata := [("team_id", PStr "T1"); ("channel_type", PStr "im")]; im_auth := None |}.
#[local] Existing Instance slack_adapter.
Definition w_paired : CPWorld :=
  after (handle_pairing_attempt default_policy true None (slack_message "/pair tok-1") []) w_issued.

Example demo_paired :
  map (λ p, (p_channel p, p_chat_id p, p_status p, p_scopes p)) (pairings w_paired)
  = [("slack", "C1", "active", ["chat.interact"; "session.read"])].
Proof. vm_compute. reflexivity. Qed.
Example demo_attempts : map a_outcome (pair_attempts w_paired) = ["paired"].
Proof. vm_compute. reflexivity. Qed.

(** Checks the decidable hypotheses of a concrete database. *)
Ltac by_decide := match goal with |- ?P => apply (bool_decide_unpack P); vm_compute; exact I end.

Lemma pair_token_used_once_witness :
  ∃ w3 r', consume_pair_token "slack" "tok-1" "other" "elsewhere" None
             (after (issue_pair_token "slack" None None [] (Some "tok-2") 600 None) w_consumed) = (w3, Ok r') ∧
    c_ok r' = false ∧
    pair_tokens w3
    = pair_tokens (after (issue_pair_token "slack" None None [] (Some "tok-2") 600 None) w_consumed).
Proof.
  eapply (pair_token_used_once "slack" "tok-1" "slack:T1:user:U1" "slack:T1:channel:C1" None w_issued w_consumed).
  - unfold tokens_unique. by_decide.
  - vm_compute. reflexivity.
  - reflexivity.
  - apply rtc_once. exists _, (issue_pair_token "slack" None None [] (Some "tok-2") 600 None).
    by split; [constructor|].
Defined.

Lemma consume_accepts_exactly_witness :
  let now := unix_seconds (py_clock (cp_ticks w_issued)) in
  ∃ w1 r, consume_pair_token "slack" "tok-1" "slack:T1:user:U2" "slack:T1:channel:C1" None w_issued = (w1, Ok r) ∧
    (c_ok r = true ↔ ∃ row, row ∈ pair_tokens w_issued ∧
       acceptable "slack" "tok-1" "slack:T1:user:U2" "slack:T1:channel:C1" None now row) ∧
    (∀ row, row ∈ pair_tokens w_issued →
       acceptable "slack" "tok-1" "slack:T1:user:U2" "slack:T1:channel:C1" None now row →
       c_scopes r = stripped_nonblank (t_scopes row) ∧
       token_use now "slack:T1:user:U2" "slack:T1:channel:C1" row ∈ pair_tokens w1) ∧
    (c_ok r = false → pair_tokens w1 = pair_tokens w_issued).
Proof.
  apply (consume_accepts_exactly "slack" "tok-1" "slack:T1:user:U2" "slack:T1:channel:C1" None w_issued).
  unfold tokens_unique. by_decide.
Defined.

Definition the_token : PairToken := default (token_use 0 "" "" {| t_hash := ""; t_channel := ""; t_hint := "";
  t_created_at := 0; t_expires_at := 0; t_used_at := None; t_expected_account := None; t_expected_chat := None;
  t_consumer_account := None; t_consumer_chat := None; t_scopes := [] |}) (head (pair_tokens w_issued)).

Lemma pairing_grants_token_scopes_witness :
  ∃ w' w'' auth, redeem_attempt default_policy true None demo_attempt w_issued
                 = (w', Ok (handled format_success_reply)) ∧
    auth_for_inbound false [] (slack_message "hello") w' = (w'', Ok auth) ∧ au_role auth = "paired" ∧
    au_scopes auth = stripped_nonblank (t_scopes the_token).
Proof.
  apply (pairing_grants_token_scopes default_policy demo_attempt the_token w_issued false [] (slack_message "hello")).
  - unfold tokens_unique. by_decide.
  - intros p n Hp. vm_compute in Hp. by apply elem_of_nil in Hp.
  - exact demo_uuids_distinct.
  - vm_compute. left.
  - vm_compute. split_and!; try done; by intros ? [= <-].
  - vm_compute. done.
  - by split; vm_compute.
  - by split; vm_compute.
  - reflexivity.
  - by split_and!; vm_compute.
Defined.

Lemma revoked_chat_locked_out_witness :
  auth_for_inbound true ["chat.interact"] (slack_message "hello") (after (admin_revoke "slack" "C1" None) w_paired)
  = (after (admin_revoke "slack" "C1" None) w_paired,
     Ok unpaired).
Proof.
  eapply (revoked_chat_locked_out "slack" "C1" None w_paired).
  - by split; vm_compute.
  - by split; vm_compute.
  - vm_compute. reflexivity.
  - by split_and!; vm_compute.
Defined.

(** The revoke command in the same chat finds nothing to revoke. *)
Example slack_chat_cannot_revoke :
  let ctx := {| rc_user_key := "slack:T1:user:U1"; rc_chat_key := "slack:T1:channel:C1"; rc_session_id := "s";
                rc_agent_id := "a"; rc_role := "user"; rc_trace_id := "t"; rc_span_id := "p" |} in
  (_pair_revoke ctx w_paired).1 = w_paired ∧
  match (auth_for_inbound false [] (slack_message "hello") w_paired).2 with
  | Ok a => au_role a = "paired"
  | Raise _ => False
  end.
Proof. vm_compute. by split. Qed.

Lemma pairing_guesses_bounded_witness :
  Z.of_nat (count_where (tried_in (by_user "slack" "slack:T1:user:U1") (window default_policy) 0)
    (pair_attempts w_paired)) ≤ Z.max 0 (pp_max_attempts_per_user default_policy) ∧
  Z.of_nat (count_where (tried_in (by_chat "slack" "slack:T1:channel:C1") (window default_policy) 0)
    (pair_attempts w_paired)) ≤ Z.max 0 (pp_max_attempts_per_chat default_policy).
Proof.
  apply (pairing_guesses_bounded default_policy true None demo_clock_monotone) with w_issued.
  - by intros store.
  - vm_compute. reflexivity.
  - apply rtc_once. left. by exists (slack_message "/pair tok-1"), [].
Defined.

(** ** Sessions *)

Definition w_session : CPWorld := after (new_session "u1" "chat-1") cp_empty.
Lemma session_owner_fixed_witness :
  owner_of (after (bind_session "u2" "chat-2" "sess-id-0") w_session) "sess-id-0" = Some "u1".
Proof.
  apply (session_owner_fixed w_session).
  - unfold sessions_unique. by_decide.
  - vm_compute. reflexivity.
  - apply rtc_once. exists _, (bind_session "u2" "chat-2" "sess-id-0"). by split; [constructor|].
Defined.

Lemma session_binding_needs_owner_witness :
  ∃ w' b, bind_session_owned "u2" "chat-2" "sess-id-0" false w_session = (w', Ok b) ∧
    (b = true ↔ ∃ o, owner_of w_session "sess-id-0" = Some o ∧ (o = "u2" ∨ false = true)) ∧
    (b = false → w' = w_session) ∧
    (b = true → owner_of w' "sess-id-0" = owner_of w_session "sess-id-0" ∧
       ∃ c, get_chat_binding "chat-2" w' = (w', Ok (Some c)) ∧ b_session_id c = "sess-id-0").
Proof. apply (session_binding_needs_owner "u2" "chat-2" "sess-id-0" false w_session). unfold sessions_unique. by_decide. Defined.

Definition session_request : InboundMessage :=
  {| im_user_key := "u2"; im_chat_key := "chat-2"; im_text := "/session sess-id-0"; im_channel := "slack";
     im_thread_key := None; im_meta := []; im_inbound_id := None; im_channel_message_id := None;
     im_chat_id := None; im_user_id := None; im_thread_id := None; im_timestamp := 0; im_reply_to := None;
     im_metadata := []; im_auth := None |}.
Lemma foreign_session_denied_witness :
  ∃ details, route_session (Some ["root"]) session_request w_session
    = resolve_session "u2" "chat-2"
        (set_audit (λ l, l ++ [{| e_event_type := "session.bind.denied"; e_outcome := "ok";
                                  e_details := details |}]) w_session)
    ∧ dget details "reason" = Some (PStr "owner_mismatch").
Proof. by apply (foreign_session_denied (Some ["root"]) session_request w_session "sess-id-0" "u1"). Defined.

(** ** Queues *)

Definition demo_payload : dict := [("text", PStr "hello"); ("channel", PStr "slack")].
Definition w_queued_message : CPWorld :=
  after (enqueue_inbox "slack" "C1" "1.0" "U1" demo_payload None (Some "in-1")) cp_empty.
Definition w_claimed : CPWorld := after (claim_inbox "worker-1" 120) w_queued_message.
Definition no_row : InboxRow :=
  {| i_inbox_id := ""; i_channel := ""; i_chat_id := ""; i_channel_message_id := ""; i_user_id := "";
     i_thread_id := None; i_received_at := ""; i_payload := []; i_status := ""; i_error := None;
     i_attempts := 0; i_next_attempt_at := ""; i_locked_at := None; i_lock_owner := None |}.
Definition first_row (w : CPWorld) : InboxRow := default no_row (head (inbox w)).
Example demo_claimed : i_status (first_row w_claimed) = "processing" ∧ i_attempts (first_row w_claimed) = 1.
Proof. vm_compute. by split. Qed.

Lemma message_enqueued_once_witness :
  ∃ w3, enqueue_inbox "slack" "C1" "1.0" "U1" [] None None w_claimed = (w3, Ok ("in-1", false)) ∧
    inbox w3 = inbox w_claimed.
Proof.
  eapply (message_enqueued_once "slack" "C1" "1.0" "U1" demo_payload None (Some "in-1") cp_empty w_queued_message).
  - by split; by_decide.
  - vm_compute. reflexivity.
  - apply rtc_once. exists _, (claim_inbox "worker-1" 120). by split; [constructor|].
Defined.

Ltac demo_times := split_and!; vm_compute; done.

Lemma claim_takes_oldest_witness :
  let now := isoformat (py_clock (cp_ticks w_queued_message)) in
  let rows := reclaimed (isoformat (cutoff_at 120 (S (cp_ticks w_queued_message)))) w_queued_message in
  ∃ w' res, claim_inbox "worker-1" 120 w_queued_message = (w', Ok res) ∧
    match res with
    | None => inbox w' = rows ∧ ∀ r, r ∈ rows → due_at now r = false
    | Some r => ∃ r0, r0 ∈ rows ∧ due_at now r0 = true ∧ r = inbox_take "worker-1" now r0 ∧
        inbox w' = update_where (has_inbox_id (i_inbox_id r0)) (inbox_take "worker-1" now) rows ∧
        ∀ r', r' ∈ rows → due_at now r' = true → str_leb (i_received_at r0) (i_received_at r') = true
    end.
Proof.
  apply (claim_takes_oldest "worker-1" 120 w_queued_message).
  - by split; by_decide.
  - demo_times.
Defined.

Lemma live_lock_respected_witness :
  first_row w_claimed ∈ inbox (after (claim_inbox "worker-2" 120) w_claimed) ∧
  ∀ r', None = Some r' → i_inbox_id r' ≠ i_inbox_id (first_row w_claimed).
Proof.
  apply (live_lock_respected "worker-2" 120 w_claimed _ None (first_row w_claimed)
           (py_clock (cp_ticks w_queued_message))).
  - by split; by_decide.
  - demo_times.
  - vm_compute. left.
  - vm_compute. reflexivity.
  - vm_compute. reflexivity.
  - split; vm_compute; done.
  - vm_compute; done.
  - vm_compute. reflexivity.
Defined.

Lemma failed_message_waits_witness :
  let t := py_clock (cp_ticks w_claimed) in
  let r := first_row w_claimed in
  ∃ w' r', mark_inbox_retry "in-1" "boom" 5 300 w_claimed = (w', Ok (if 5 <=? i_attempts r then "dead" else "retry")) ∧
    r' ∈ inbox w' ∧ i_inbox_id r' = "in-1" ∧ i_attempts r' = i_attempts r ∧
    ∀ o ttl w2 w3 q, inbox_ok w2 → claim_times ttl w2 → r' ∈ inbox w2 →
      claim_inbox o ttl w2 = (w3, Ok (Some q)) → i_inbox_id q = "in-1" →
      i_attempts r < 5 ∧ t + backoff 300 r ≤ py_clock (cp_ticks w2) ∧ i_attempts q = i_attempts r + 1.
Proof.
  apply (failed_message_waits "in-1" "boom" 5 300 w_claimed (first_row w_claimed)).
  - by split; by_decide.
  - vm_compute. left.
  - vm_compute. reflexivity.
  - split; vm_compute; done.
Defined.

(** ** Rate limits *)

Definition demo_call : RateCall := {| rq_type := "chat_id"; rq_id := "C1"; rq_window := 60; rq_limit := 1 |}.
Definition rate_result (w : CPWorld) : RateResult :=
  match (increment_rate_limit "chat_id" "C1" 60 1 w).2 with
  | Ok r => r
  | Raise _ => {| rl_allowed := true; rl_count := 0; rl_limit := 0; rl_window_start := 0; rl_window_seconds := 0 |}
  end.
Definition w_rate1 : CPWorld := after (increment_rate_limit "chat_id" "C1" 60 1) cp_empty.
Lemma rate_limit_respected_witness :
  Z.of_nat (count_where (allowed_in "chat_id" "C1" (window_of 60 (second_at cp_empty)))
    [(demo_call, rate_result cp_empty); (demo_call, rate_result w_rate1)]) ≤ Z.max 0 1.
Proof.
  apply (rate_limit_respected "chat_id" "C1" 60 1 _ cp_empty).
  - exact demo_clock_monotone.
  - split; constructor.
  - econstructor; [vm_compute; reflexivity|]. econstructor; [vm_compute; reflexivity|]. constructor.
  - repeat constructor.
Defined.

(** ** The inbox worker *)

Definition demo_authorizer : Authorizer :=
  {| az_identity := true; az_default_scopes := DEFAULT_MINIMAL_SCOPES;
     az_command_scopes := λ c, assoc c COMMAND_SCOPES |}.
Definition demo_inbox_config : InboxConfig :=
  {| ic_authorizer := Some demo_authorizer; ic_rate_policy := None; ic_lock_owner := "worker-1";
     ic_max_attempts := 5; ic_max_backoff_s := 300 |}.

(** Whether the message of a row is dispatched, and with which identity. *)
Definition admitted (w : CPWorld) (payload : dict) : option (option AuthContext) :=
  let w1 := after (enqueue_inbox "slack" "C1" "2.0" "U1" payload None (Some "in-2")) w in
  match List.find (has_inbox_id "in-2") (inbox w1) with
  | Some row =>
      match (admit_row demo_inbox_config parse_command row w1).2 with
      | Ok (inl m) => Some (im_auth m)
      | _ => None
      end
  | None => None
  end.
Definition carried : AuthContext :=
  {| au_role := "paired"; au_scopes := ["chat.interact"; "session.read"]; au_principal_id := Some "p1"; au_metadata := [] |}.
(** A row that carries the identity of its sender, as the rows of Telegram do, is
    dispatched with that identity and its scopes after the chat was revoked; the same
    row without it is not. *)
Theorem queued_identity_survives_revocation :
  let w := after (admin_revoke "slack" "C1" None) w_paired in
  let payload := [("text", PStr "hello"); ("channel", PStr "slack")] in
  let auth := PDict [("role", PStr "paired"); ("scopes", PList [PStr "chat.interact"; PStr "session.read"]);
                     ("principal_id", PStr "p1")] in
  admitted w (dset payload "auth" auth) = Some (Some carried) ∧ admitted w payload = None.
Proof. vm_compute. auto. Qed.

(** [/pair revoke] needs [session.write] ([COMMAND_SCOPES]); the worker dispatches it
    for a sender that has not that scope, as it does every [/pair] command. *)
Theorem pair_revoke_scope_unchecked :
  let auth := carried in
  (scope_decision demo_authorizer (parse_command "/pair revoke") auth).1 = false ∧
  admitted w_paired [("text", PStr "/pair revoke"); ("channel", PStr "slack");
                     ("auth", PDict [("role", PStr "paired");
                        ("scopes", PList [PStr "chat.interact"; PStr "session.read"]); ("principal_id", PStr "p1")])]
  = Some (Some auth).
Proof. vm_compute. auto. Qed.

(** ** The identity cache *)

#[global] Instance demo_monotonic : MonotonicClock := {| monotonic n := Z.of_nat n |}.
Definition w_cache0 : CacheWorld := {| cw_store := w_paired; cw_cache := []; cw_reads := 0 |}.
Definition w_cache1 : CacheWorld := (cached_resolve 2 300 "slack" "C1" w_cache0).1.
(** The chat is revoked behind the cache's back. *)
Definition w_cache2 : CacheWorld :=
  {| cw_store := after (admin_revoke "slack" "C1" None) w_paired; cw_cache := cw_cache w_cache1;
     cw_reads := cw_reads w_cache1 |}.
Example demo_stale_answer :
  answer (cw_store w_cache2) "slack" "C1" = None ∧ (cached_resolve 2 300 "slack" "C1" w_cache2).2 ≠ Ok None.
Proof. vm_compute. by split. Qed.
Lemma cached_answer_recent_witness :
  ∃ w' r, cached_resolve 2 300 "slack" "C1" w_cache2 = (w', Ok r) ∧ (length (cw_cache w') ≤ 2)%nat ∧
    (r = answer (cw_store w_cache2) "slack" "C1" ∨
     ∃ t w0 p, (t, w0) ∈ [(monotonic (cw_reads w_cache0), cw_store w_cache0)] ∧ monotonic (cw_reads w_cache2) ≤ t + 300 ∧
       r = Some p ∧ answer w0 "slack" "C1" = Some p).
Proof.
  apply (cached_answer_recent 2 300 [(monotonic (cw_reads w_cache0), cw_store w_cache0)] "slack" "C1" w_cache2).
  - lia.
  - unfold w_cache2. apply cr_store. unfold w_cache1. apply cr_resolve. by apply cr_start.
Defined.
