(* ===== verification/Todo.v ===== *)
(** The session todo list: the stores of [modules/session/todo/service.py] (in
    memory, and backed by a JSON file) and the tool handlers of
    [tools/todo/plugin.py].  The file holds the value that its JSON text denotes.
    A method under the store's lock is one step. *)

From S2P Require Import Prelude PyValue PyText OrderedDict.
From Stdlib Require Import Ascii.

Local Open Scope Z_scope.

(** ** Constants and records *)

Definition STATUS_TODO : string := "todo".
Definition STATUS_DONE : string := "done".
Definition VALID_STATUSES : list string := ["todo"; "in_progress"; "done"; "blocked"].

Inductive todo_exn :=
| TodoEmptyError (msg : string)
| InvalidTodoIndexError (msg : string)
| InvalidTodoStatusError (msg : string)
| TodoFileError (e : py_exn).
(** [exc.code] of a [TodoError] *)
Definition todo_code (e : todo_exn) : option string :=
  match e with
  | TodoEmptyError _ => Some "PLAN_EMPTY"
  | InvalidTodoIndexError _ => Some "INVALID_PLAN_INDEX"
  | InvalidTodoStatusError _ => Some "INVALID_PLAN_STATUS"
  | TodoFileError _ => None
  end.
Definition todo_message (e : todo_exn) : string :=
  match e with
  | TodoEmptyError m | InvalidTodoIndexError m | InvalidTodoStatusError m => m
  | TodoFileError _ => ""
  end.

Record TodoItem := {
  ti_index : Z;
  ti_text : string;
  ti_status : string;
  ti_created_at : pyval;
  ti_updated_at : pyval;
}.
Record Todo := {
  td_session_id : string;
  td_items : list TodoItem;
  td_created_at : pyval;
  td_updated_at : pyval;
}.
Definition summary (t : Todo) : string :=
  let total := length (td_items t) in
  let done := count_where (λ i, String.eqb (ti_status i) "done") (td_items t) in
  let in_progress := count_where (λ i, String.eqb (ti_status i) "in_progress") (td_items t) in
  pretty done +:+ "/" +:+ pretty total +:+ " done, " +:+ pretty in_progress +:+ " in progress".

Record TodoWorld := {
  todos : list (string * Todo);
  todo_file : option pyval;
  todo_ticks : nat;
}.
Definition set_todos (f : list (string * Todo) → list (string * Todo)) (w : TodoWorld) : TodoWorld :=
  {| todos := f (todos w); todo_file := todo_file w; todo_ticks := todo_ticks w |}.
Definition set_file (v : pyval) (w : TodoWorld) : TodoWorld :=
  {| todos := todos w; todo_file := Some v; todo_ticks := todo_ticks w |}.
Abbreviation TM := (M TodoWorld todo_exn).

(** The readings of [time.time()] and [float(s)] of a text. *)
Class TodoEnv := {
  time_time : nat → pyval;
  py_float_text : string → option pyval;
}.

Definition with_index (i : Z) (x : TodoItem) : TodoItem :=
  {| ti_index := i; ti_text := ti_text x; ti_status := ti_status x;
     ti_created_at := ti_created_at x; ti_updated_at := ti_updated_at x |}.
(** [for offset, item in enumerate(items): item.index = offset] *)
Definition reindexed (items : list TodoItem) : list TodoItem := imap (λ i, with_index (Z.of_nat i)) items.
Definition with_status (status : string) (now : pyval) (x : TodoItem) : TodoItem :=
  {| ti_index := ti_index x; ti_text := ti_text x; ti_status := status;
     ti_created_at := ti_created_at x; ti_updated_at := now |}.
Definition with_items (items : list TodoItem) (now : pyval) (t : Todo) : Todo :=
  {| td_session_id := td_session_id t; td_items := items; td_created_at := td_created_at t;
     td_updated_at := now |}.
Definition new_item (index : Z) (text : string) (now : pyval) : TodoItem :=
  {| ti_index := index; ti_text := text; ti_status := STATUS_TODO; ti_created_at := now;
     ti_updated_at := now |}.
Definition new_plan (session_id : string) (items : list string) (now : pyval) : Todo :=
  {| td_session_id := session_id; td_items := imap (λ i text, new_item (Z.of_nat i) text now) items;
     td_created_at := now; td_updated_at := now |}.

(** ** The store in memory *)

Section InMemoryTodoStore.
Context {Env : TodoEnv}.
(** Both are at least one: the constructor refuses smaller ones. *)
Variable max_sessions max_items_per_plan : nat.

Definition clock : TM pyval := λ w,
  ({| todos := todos w; todo_file := todo_file w; todo_ticks := S (todo_ticks w) |},
   Ok (time_time (todo_ticks w))).

Definition mem_set_plan (session_id : string) (items : list string) : TM Todo :=
  if (max_items_per_plan <? length items)%nat then
    raise (InvalidTodoIndexError ("Plan would have " +:+ pretty (length items)
      +:+ " items, exceeding cap of " +:+ pretty max_items_per_plan))
  else
    now ← clock;
    let todo := new_plan session_id items now in
    _ ← modify (set_todos (λ d, od_trim max_sessions (od_move_to_end (od_set d session_id todo) session_id)));
    mret todo.

(** The place where [add_item] inserts. *)
Definition insert_at (position : Z) (n : nat) : result todo_exn nat :=
  if (position =? -1) || (Z.of_nat n <=? position) then Ok n
  else if position <? -1 then
    Raise (InvalidTodoIndexError ("position must be -1 (append) or a non-negative integer, got "
                                  +:+ pretty position))
  else Ok (Z.to_nat position).

Definition mem_add_item (session_id text : string) (position : Z) : TM TodoItem :=
  now ← clock;
  w ← get_world;
  match od_get (todos w) session_id with
  | None => raise (TodoEmptyError ("No plan set for session " +:+ repr_str session_id
              +:+ "; call set_plan first or use add_item only after set_plan."))
  | Some todo =>
      if (max_items_per_plan <=? length (td_items todo))%nat then
        raise (InvalidTodoIndexError ("Plan for session " +:+ repr_str session_id +:+ " is at the "
          +:+ pretty max_items_per_plan +:+ "-item cap; cannot add more."))
      else
        at_ ← lift_result (insert_at position (length (td_items todo)));
        let item := new_item (Z.of_nat at_) text now in
        let items := reindexed (take at_ (td_items todo) ++ [item] ++ drop at_ (td_items todo)) in
        _ ← modify (set_todos (λ d, od_move_to_end (od_set d session_id (with_items items now todo)) session_id));
        mret item
  end.

Definition mem_update_item_status (session_id : string) (index : Z) (status : string) : TM TodoItem :=
  if negb (str_in status VALID_STATUSES) then
    raise (InvalidTodoStatusError ("status must be one of " +:+ "('todo', 'in_progress', 'done', 'blocked')"
                                   +:+ ", got " +:+ repr_str status))
  else
    now ← clock;
    w ← get_world;
    match od_get (todos w) session_id with
    | None => raise (TodoEmptyError ("No plan set for session " +:+ repr_str session_id))
    | Some todo =>
        let out_of_range := raise (InvalidTodoIndexError ("index " +:+ pretty index
          +:+ " out of range for plan with " +:+ pretty (length (td_items todo)) +:+ " item(s)")) in
        if index <? 0 then out_of_range
        else match td_items todo !! Z.to_nat index with
             | None => out_of_range
             | Some old =>
                 let item := with_status status now old in
                 let items := <[Z.to_nat index := item]> (td_items todo) in
                 _ ← modify (set_todos (λ d, od_move_to_end
                       (od_set d session_id (with_items items now todo)) session_id));
                 mret item
             end
    end.

Definition mem_get_plan (session_id : string) : TM (option Todo) :=
  w ← get_world;
  _ ← modify (set_todos (λ d, od_move_to_end d session_id));
  mret (od_get (todos w) session_id).

Definition mem_clear_plan (session_id : string) : TM () :=
  modify (set_todos (λ d, od_pop d session_id)).

Definition session_count : TM nat := gets (λ w, length (todos w)).

(** ** The store with a file *)

Definition _todo_item_payload (i : TodoItem) : pyval :=
  PDict [("index", PInt (ti_index i)); ("text", PStr (ti_text i)); ("status", PStr (ti_status i));
         ("created_at", ti_created_at i); ("updated_at", ti_updated_at i)].
Definition _todo_to_payload (t : Todo) : pyval :=
  PDict [("session_id", PStr (td_session_id t)); ("items", PList (map _todo_item_payload (td_items t)));
         ("created_at", td_created_at t); ("updated_at", td_updated_at t)].

(** What the text of the payload denotes: the keys of every object are sorted. *)
Definition store_payload (d : list (string * Todo)) : pyval :=
  json_sort (PDict [("version", PInt 1);
                    ("sessions", PDict (map (λ e, (e.1, _todo_to_payload e.2)) d))]).
Definition _save : TM () := w ← get_world; modify (set_file (store_payload (todos w))).

Definition file_set_plan (session_id : string) (items : list string) : TM Todo :=
  todo ← mem_set_plan session_id items; _ ← _save; mret todo.
Definition file_add_item (session_id text : string) (position : Z) : TM TodoItem :=
  item ← mem_add_item session_id text position; _ ← _save; mret item.
Definition file_update_item_status (session_id : string) (index : Z) (status : string) : TM TodoItem :=
  item ← mem_update_item_status session_id index status; _ ← _save; mret item.
Definition file_clear_plan (session_id : string) : TM () := _ ← mem_clear_plan session_id; _save.

(** [float(v or 0.0)] *)
Definition float_zero : pyval := PFloat 0 1 "0.0".
Definition float_or_zero (v : pyval) : result todo_exn pyval :=
  if negb (py_truthy v) then Ok float_zero
  else match v with
       | PFloat _ _ _ => Ok v
       | PInt z => Ok (PFloat z 1 (pretty z +:+ ".0"))
       | PBool _ => Ok (PFloat 1 1 "1.0")
       | PStr s => match py_float_text (py_strip s) with
                   | Some f => Ok f
                   | None => Raise (TodoFileError (PyValueError "could not convert string to float"))
                   end
       | _ => Raise (TodoFileError (PyTypeError "float() argument must be a string or a real number"))
       end.
Definition _coerce_status (v : pyval) : string :=
  let status := py_str (py_or v (PStr STATUS_TODO)) in
  if str_in status VALID_STATUSES then status else STATUS_TODO.
(** [d.get(k, default)] *)
Definition dget_or (d : dict) (k : string) (v : pyval) : pyval := default v (dget d k).

Definition item_from_payload (offset : nat) (d : dict) : result todo_exn TodoItem :=
  let status := _coerce_status (dget_or d "status" (PStr STATUS_TODO)) in
  created ← float_or_zero (dget_or d "created_at" float_zero);
  updated ← float_or_zero (dget_or d "updated_at" float_zero);
  Ok {| ti_index := Z.of_nat offset; ti_text := py_str (py_or (dget_or d "text" (PStr "")) (PStr ""));
        ti_status := status; ti_created_at := created; ti_updated_at := updated |}.
(** The items from the [offset]-th on; what is no object is left out. *)
Fixpoint items_from_payload (offset : nat) (l : list pyval) : result todo_exn (list TodoItem) :=
  match l with
  | [] => Ok []
  | PDict d :: l' =>
      item ← item_from_payload offset d;
      rest ← items_from_payload (S offset) l';
      Ok (item :: rest)
  | _ :: l' => items_from_payload (S offset) l'
  end.
(** The elements of a value that is iterated; characters and keys are texts. *)
Definition iterated (v : pyval) : result todo_exn (list pyval) :=
  match v with
  | PList l => Ok l
  | PStr _ | PDict _ => Ok []
  | _ => Raise (TodoFileError (PyTypeError "object is not iterable"))
  end.
Definition _todo_from_payload (session_id : string) (d : dict) : result todo_exn Todo :=
  raw ← iterated (py_or (dget_or d "items" (PList [])) (PList []));
  items ← items_from_payload 0 raw;
  created ← float_or_zero (dget_or d "created_at" float_zero);
  updated ← float_or_zero (dget_or d "updated_at" float_zero);
  Ok {| td_session_id := py_str (py_or (dget_or d "session_id" (PStr session_id)) (PStr session_id));
        td_items := items; td_created_at := created; td_updated_at := updated |}.

Fixpoint load_sessions (sessions : dict) (acc : list (string * Todo)) : result todo_exn (list (string * Todo)) :=
  match sessions with
  | [] => Ok acc
  | (session_id, PDict raw) :: rest =>
      todo ← _todo_from_payload session_id raw;
      load_sessions rest (od_set acc (td_session_id todo) todo)
  | _ :: rest => load_sessions rest acc
  end.
Definition load_payload (payload : pyval) : result todo_exn (list (string * Todo)) :=
  match payload with
  | PDict d =>
      match dget_or d "sessions" (PDict []) with
      | PDict sessions => loaded ← load_sessions sessions []; Ok (od_trim max_sessions loaded)
      | _ => Raise (TodoFileError (PyValueError "Todo store sessions must be a JSON object"))
      end
  | _ => Raise (TodoFileError (PyValueError "Todo store payload must be a JSON object"))
  end.
(** Opening the store: [_load] on the empty store. *)
Definition open_store : TM () :=
  w ← get_world;
  match todo_file w with
  | None => modify (set_todos (λ _, []))
  | Some payload => loaded ← lift_result (load_payload payload); modify (set_todos (λ _, loaded))
  end.
End InMemoryTodoStore.

(** ** The tool handlers

    The arguments are as the schemas of the tools validate them. *)

(** The protocol of a todo store ([interfaces.py]). *)
Class TodoStore := {
  set_plan : string → list string → TM Todo;
  add_item : string → string → Z → TM TodoItem;
  update_item_status : string → Z → string → TM TodoItem;
  get_plan : string → TM (option Todo);
  clear_plan : string → TM ();
}.
Definition memory_store {Env : TodoEnv} (max_sessions max_items : nat) : TodoStore := {|
  set_plan := mem_set_plan max_sessions max_items;
  add_item := mem_add_item max_items;
  update_item_status := mem_update_item_status;
  get_plan := mem_get_plan;
  clear_plan := mem_clear_plan;
|}.
Definition file_store {Env : TodoEnv} (max_sessions max_items : nat) : TodoStore := {|
  set_plan := file_set_plan max_sessions max_items;
  add_item := file_add_item max_items;
  update_item_status := file_update_item_status;
  get_plan := mem_get_plan;
  clear_plan := file_clear_plan;
|}.

(** [ToolRuntimeError(code, message, {"session_id": …})], or an exception that is
    no [TodoError]. *)
Inductive tool_exn :=
| ToolRuntimeError (code message session_id : string)
| ToolOther (e : todo_exn).
Abbreviation HM := (M TodoWorld tool_exn).

(** [except TodoError as exc: _raise_as_tool_error(exc, …)] *)
Definition _raise_as_tool_error {A} (session_id : string) (m : TM A) : HM A := λ w,
  match m w with
  | (w', Ok a) => (w', Ok a)
  | (w', Raise e) =>
      (w', Raise match todo_code e with
                 | Some code => ToolRuntimeError code (todo_message e) session_id
                 | None => ToolOther e
                 end)
  end.

Definition _FALLBACK_SESSION_ID : string := "_default".
Definition _resolve_session_id (session_id : option string) : string :=
  let raw := py_strip (str_or session_id "") in
  if truthy raw then raw else _FALLBACK_SESSION_ID.

Definition _serialize_item (i : TodoItem) : pyval :=
  PDict [("index", PInt (ti_index i)); ("text", PStr (ti_text i)); ("status", PStr (ti_status i))].
Definition _serialize_plan (todo : option Todo) (session_id : string) : pyval :=
  match todo with
  | None => PDict [("session_id", PStr session_id); ("items", PList []);
                   ("summary", PStr "0/0 done, 0 in progress")]
  | Some t => PDict [("session_id", PStr (td_session_id t));
                     ("items", PList (map _serialize_item (td_items t))); ("summary", PStr (summary t))]
  end.
Definition _ok_payload (todo : option Todo) (session_id message : string) : dict :=
  [("plan", _serialize_plan todo session_id); ("message", PStr message)].

Section Handlers.
Context {Store : TodoStore}.

Definition _mutate_and_get_plan {A} (session_id : string) (mutate : TM A) : HM Todo :=
  todo ← _raise_as_tool_error session_id (_ ← mutate; get_plan session_id);
  match todo with
  | Some t => mret t
  | None => raise (ToolRuntimeError "PLAN_EMPTY" "No plan set for this session." session_id)
  end.

Definition _h_set (ctx : option string) (items : list string) : HM dict :=
  let session_id := _resolve_session_id ctx in
  todo ← _raise_as_tool_error session_id (set_plan session_id items);
  mret (_ok_payload (Some todo) session_id
          ("Plan set with " +:+ pretty (length (td_items todo)) +:+ " item(s).")).
Definition _h_add (ctx : option string) (item : string) (position : Z) : HM dict :=
  let session_id := _resolve_session_id ctx in
  todo ← _mutate_and_get_plan session_id (add_item session_id (py_strip item) position);
  mret (_ok_payload (Some todo) session_id
          ("Item added; plan has " +:+ pretty (length (td_items todo)) +:+ " item(s).")).
Definition _h_update (ctx : option string) (index : Z) (status : string) : HM dict :=
  let session_id := _resolve_session_id ctx in
  todo ← _mutate_and_get_plan session_id (update_item_status session_id index status);
  mret (_ok_payload (Some todo) session_id
          ("Item " +:+ pretty index +:+ " -> " +:+ status +:+ ".")).
Definition _h_complete (ctx : option string) (index : Z) : HM dict :=
  let session_id := _resolve_session_id ctx in
  todo ← _mutate_and_get_plan session_id (update_item_status session_id index "done");
  mret (_ok_payload (Some todo) session_id ("Item " +:+ pretty index +:+ " marked done.")).
(** [get_plan] raises nothing. *)
Definition _h_list (ctx : option string) : HM dict :=
  let session_id := _resolve_session_id ctx in
  todo ← _raise_as_tool_error session_id (get_plan session_id);
  mret (_ok_payload todo session_id
          (match todo with
           | Some t => "Plan has " +:+ pretty (length (td_items t)) +:+ " item(s)."
           | None => "No plan set for this session."
           end)).
Definition _h_clear (ctx : option string) : HM dict :=
  let session_id := _resolve_session_id ctx in
  _ ← _raise_as_tool_error session_id (clear_plan session_id);
  mret (_ok_payload None session_id "Plan cleared.").

(** The statuses are written one by one after the plan was replaced. *)
Fixpoint write_statuses (session_id : string) (index : Z) (items : list (string * string)) : TM () :=
  match items with
  | [] => mret ()
  | (_, given) :: rest =>
      let status := str_or (Some given) "todo" in
      _ ← (if negb (String.eqb status "todo")
           then _ ← update_item_status session_id index status; mret () else mret ());
      write_statuses session_id (index + 1) rest
  end.
Definition _h_todo_write (ctx : option string) (todos : list (string * string)) : HM dict :=
  let session_id := _resolve_session_id ctx in
  todo ← _mutate_and_get_plan session_id
    (_ ← set_plan session_id (map (λ t, py_strip t.1) todos); write_statuses session_id 0 todos);
  mret (_ok_payload (Some todo) session_id
          ("Todo list updated with " +:+ pretty (length (td_items todo)) +:+ " item(s).")).
End Handlers.
