(* ===== verification/TodoProps.v ===== *)
(** The session todo list: its plans stay well formed, reopening the file restores
    every plan, and the session that is evicted is the one used least recently; what
    the tool that writes a whole list does, and what concurrent saves can lose. *)

From S2P Require Import Prelude PyValue PyText OrderedDict Todo.
From Stdlib Require Import Ascii.
From Stdlib Require Import Ascii Sorting.Sorted.

Local Open Scope Z_scope.

(** ** Stores with the same plans

    The order of the sessions matters for eviction only. *)

Definition same_plans (d d' : list (string * Todo)) : Prop := ∀ k, od_get d k = od_get d' k.
#[export] Instance same_plans_equiv : Equivalence same_plans.
Proof.
  split; [by intros d k|by intros d d' H k|]. intros d1 d2 d3 H1 H2 k. by rewrite H1.
Qed.
#[export] Instance od_get_proper : Proper (same_plans ==> eq ==> eq) (@od_get string _ Todo).
Proof. intros d d' H k ? <-. apply H. Qed.
#[export] Instance od_set_proper : Proper (same_plans ==> eq ==> eq ==> same_plans) (@od_set string _ Todo).
Proof. intros d d' H k ? <- t ? <- k'. by rewrite !od_get_set, H. Qed.
#[export] Instance od_pop_proper : Proper (same_plans ==> eq ==> same_plans) (@od_pop string _ Todo).
Proof. intros d d' H k ? <- k'. by rewrite !od_get_pop, H. Qed.
Lemma move_same_plans d k : same_plans (od_move_to_end d k) d.
Proof. intros k'. apply od_get_move. Qed.

Lemma perm_same_plans d d' : d ≡ₚ d' → od_ok d → same_plans d d'.
Proof.
  intros Hp Hok k. assert (od_ok d') as Hok' by (unfold od_ok; by rewrite <-Hp).
  destruct (od_get d k) as [t|] eqn:E.
  - symmetry. apply elem_od_get; [done|]. rewrite <-Hp. by apply od_get_elem.
  - symmetry. apply od_get_none in E. apply od_get_none. by rewrite <-Hp.
Qed.

(** ** Well-formed plans *)

(** A time is a positive float. *)
Definition is_time (v : pyval) : Prop := ∃ n d r, v = PFloat n d r ∧ n ≠ 0.
(** The item at place [i]. *)
Definition item_ok (i : nat) (x : TodoItem) : Prop :=
  ti_index x = Z.of_nat i ∧ str_in (ti_status x) VALID_STATUSES = true ∧
  is_time (ti_created_at x) ∧ is_time (ti_updated_at x).
Definition plan_ok (max_items : nat) (k : string) (t : Todo) : Prop :=
  td_session_id t = k ∧ (length (td_items t) ≤ max_items)%nat ∧
  (∀ i x, td_items t !! i = Some x → item_ok i x) ∧ is_time (td_created_at t) ∧ is_time (td_updated_at t).
Definition plans_ok (max_sessions max_items : nat) (d : list (string * Todo)) : Prop :=
  od_ok d ∧ (length d ≤ max_sessions)%nat ∧ ∀ k t, od_get d k = Some t → plan_ok max_items k t.

Section Props.
Context {Env : TodoEnv}.
Variable max_sessions max_items : nat.
Hypothesis clock_times : ∀ n, is_time (time_time n).
Abbreviation ok := (plans_ok max_sessions max_items).

Lemma ok_pop d k : ok d → ok (od_pop d k).
Proof.
  intros (H1 & H2 & H3). split_and!; [auto|pose proof (od_pop_length d k); lia|].
  intros k' t. rewrite od_get_pop. case_decide; [done|auto].
Qed.
Lemma ok_move d k : ok d → ok (od_move_to_end d k).
Proof.
  intros (H1 & H2 & H3). split_and!; [auto|pose proof (od_move_length d k); lia|].
  intros k' t. rewrite od_get_move. auto.
Qed.
(** Replacing the plan of a session that has one. *)
Lemma ok_replace d k t t' : ok d → od_get d k = Some t → plan_ok max_items k t' → ok (od_set d k t').
Proof.
  intros (H1 & H2 & H3) E Ht. split_and!; [auto| |].
  - rewrite <-(length_map fst), od_set_keys, E, length_map. done.
  - intros k' u. rewrite od_get_set. case_decide; [by intros [= <-]; subst|auto].
Qed.
Lemma trim_get n (d : list (string * Todo)) k t : od_ok d → od_get (od_trim n d) k = Some t → od_get d k = Some t.
Proof.
  intros Hok H. apply elem_od_get; [done|]. apply od_get_elem in H.
  destruct (od_trim_suffix n d) as (d0 & E & _). rewrite E. apply elem_of_app. by right.
Qed.
Lemma ok_new d k t : ok d → plan_ok max_items k t → ok (od_trim max_sessions (od_move_to_end (od_set d k t) k)).
Proof.
  intros (H1 & H2 & H3) Ht. assert (od_ok (od_move_to_end (od_set d k t) k)) as Hok by auto.
  split_and!; [auto| |].
  - by destruct (od_trim_suffix max_sessions (od_move_to_end (od_set d k t) k)) as (d0 & _ & H).
  - intros k' u Hu. apply trim_get in Hu; [|done]. rewrite od_get_move, od_get_set in Hu.
    case_decide; [injection Hu as <-; by subst|auto].
Qed.

Lemma new_plan_ok k items n : (length items ≤ max_items)%nat → plan_ok max_items k (new_plan k items (time_time n)).
Proof.
  intros H. split_and!; try apply clock_times; simpl; [done|by rewrite length_imap|].
  intros i x Hx. apply list_lookup_imap_Some in Hx as (text & _ & ->). by split_and!; try apply clock_times.
Qed.
Lemma reindexed_lookup l i x : reindexed l !! i = Some x ↔ ∃ y, l !! i = Some y ∧ x = with_index (Z.of_nat i) y.
Proof. unfold reindexed. rewrite list_lookup_imap_Some. done. Qed.
Lemma with_items_ok k t items n :
  plan_ok max_items k t → (length items ≤ max_items)%nat → (∀ i x, items !! i = Some x → item_ok i x) →
  plan_ok max_items k (with_items items (time_time n) t).
Proof. intros (H1 & _ & _ & H4 & _) Hl Hi. by split_and!; try apply clock_times. Qed.

Lemma add_item_ok k t at_ text n :
  plan_ok max_items k t → (length (td_items t) < max_items)%nat →
  plan_ok max_items k (with_items (reindexed (take at_ (td_items t) ++
    [new_item (Z.of_nat at_) text (time_time n)] ++ drop at_ (td_items t))) (time_time n) t).
Proof.
  intros Ht Hl. set (item := new_item _ _ _). apply with_items_ok; [done| |].
  - unfold reindexed. rewrite length_imap, !length_app, length_take, length_drop. simpl. lia.
  - intros i x (y & Hin & ->)%reindexed_lookup. apply list_elem_of_lookup_2 in Hin.
    assert (y = item ∨ y ∈ td_items t) as [->|[j Hj]%list_elem_of_lookup].
    { rewrite <-(take_drop at_ (td_items t)). rewrite !elem_of_app, list_elem_of_singleton in *. tauto. }
    + by split_and!; try apply clock_times.
    + destruct Ht as (_ & _ & Ht & _). by destruct (Ht j y Hj) as (_ & ? & ? & ?).
Qed.
Lemma update_item_ok k t i old status n :
  plan_ok max_items k t → td_items t !! i = Some old → str_in status VALID_STATUSES = true →
  plan_ok max_items k (with_items (<[i := with_status status (time_time n) old]> (td_items t)) (time_time n) t).
Proof.
  intros Ht Hi Hs. apply with_items_ok; [done|rewrite length_insert; apply Ht|].
  intros j x. destruct (decide (i = j)) as [<-|Hne].
  - rewrite list_lookup_insert_eq by (by eapply lookup_lt_Some). intros [= <-].
    destruct Ht as (_ & _ & Ht & _). destruct (Ht i old Hi) as (H1 & _ & H3 & _).
    by split_and!; try apply clock_times.
  - rewrite list_lookup_insert_ne by done. apply Ht.
Qed.

(** ** Reading back what was saved *)

Lemma time_reads_back v : is_time v → float_or_zero v = Ok v.
Proof.
  intros (n & d & r & -> & Hn). unfold float_or_zero. simpl. by rewrite (proj2 (Z.eqb_neq n 0)).
Qed.
Lemma time_json v : is_time v → json_sort v = v.
Proof. by intros (n & d & r & -> & _). Qed.
Lemma text_reads_back s : py_str (py_or (PStr s) (PStr "")) = s.
Proof. unfold py_or. simpl. destruct (truthy s) eqn:E; [done|]. by destruct s. Qed.
Lemma id_reads_back s : py_str (py_or (PStr s) (PStr s)) = s.
Proof. unfold py_or. by destruct (py_truthy _). Qed.
Lemma status_reads_back s : str_in s VALID_STATUSES = true → _coerce_status (PStr s) = s.
Proof.
  intros H. unfold _coerce_status, py_or. simpl py_truthy.
  assert (truthy s = true) as -> by (apply str_in_elem in H; unfold VALID_STATUSES in H;
    repeat (apply elem_of_cons in H as [->|H]; [done|]); by apply elem_of_nil in H).
  simpl py_str. by rewrite H.
Qed.

(** The objects that the saved text denotes, with their keys sorted. *)
Definition saved_item (x : TodoItem) : dict :=
  [("created_at", ti_created_at x); ("index", PInt (ti_index x)); ("status", PStr (ti_status x));
   ("text", PStr (ti_text x)); ("updated_at", ti_updated_at x)].
Definition saved_plan (t : Todo) : dict :=
  [("created_at", td_created_at t); ("items", PList (map (λ x, PDict (saved_item x)) (td_items t)));
   ("session_id", PStr (td_session_id t)); ("updated_at", td_updated_at t)].

Lemma saved_item_json i x : item_ok i x → json_sort (_todo_item_payload x) = PDict (saved_item x).
Proof.
  intros (_ & _ & H1 & H2). unfold _todo_item_payload, saved_item. simpl.
  by rewrite (time_json _ H1), (time_json _ H2).
Qed.
Lemma saved_plan_json k t : plan_ok max_items k t → json_sort (_todo_to_payload t) = PDict (saved_plan t).
Proof.
  intros (_ & _ & Hi & H1 & H2). unfold _todo_to_payload, saved_plan. simpl.
  rewrite (time_json _ H1), (time_json _ H2), map_map. do 4 f_equal. f_equal.
  apply map_ext_in. intros x [i Hx]%list_elem_of_In%list_elem_of_lookup. by apply (saved_item_json i), Hi.
Qed.

Lemma item_reads_back i x : item_ok i x → item_from_payload i (saved_item x) = Ok x.
Proof.
  intros (Hi & Hs & H1 & H2). unfold item_from_payload, dget_or. simpl.
  rewrite (time_reads_back _ H1). simpl. rewrite (time_reads_back _ H2). simpl.
  rewrite (status_reads_back _ Hs), text_reads_back. destruct x. simpl in *. by subst.
Qed.
Lemma items_read_back o l :
  (∀ i x, l !! i = Some x → item_ok (o + i) x) →
  items_from_payload o (map (λ x, PDict (saved_item x)) l) = Ok l.
Proof.
  revert o. induction l as [|x l IH]; intros o H; simpl; [done|].
  rewrite item_reads_back by (specialize (H 0%nat x eq_refl); by rewrite Nat.add_0_r in H). simpl.
  rewrite IH; [done|]. intros i y Hy. specialize (H (S i) y Hy). by rewrite Nat.add_succ_r in H.
Qed.
Lemma plan_reads_back k t : plan_ok max_items k t → _todo_from_payload k (saved_plan t) = Ok t.
Proof.
  intros (Hk & _ & Hi & H1 & H2). unfold _todo_from_payload, dget_or. simpl.
  assert (iterated (py_or (PList (map (λ x, PDict (saved_item x)) (td_items t))) (PList []))
          = Ok (map (λ x, PDict (saved_item x)) (td_items t))) as ->.
  { unfold py_or. simpl. by destruct (td_items t). }
  simpl. rewrite (items_read_back 0 (td_items t)) by done. simpl.
  rewrite (time_reads_back _ H1). simpl. rewrite (time_reads_back _ H2). simpl.
  subst k. rewrite id_reads_back. by destruct t.
Qed.

Lemma dinsert_perm k v d : dinsert_sorted k v d ≡ₚ (k, v) :: d.
Proof.
  induction d as [|[k' v'] d IH]; simpl; [done|]. destruct (str_leb k k'); [done|].
  rewrite IH. apply Permutation_swap.
Qed.
Lemma dsort_perm d : dsort d ≡ₚ d.
Proof. induction d as [|[k v] d IH]; simpl; [done|]. by rewrite dinsert_perm, IH. Qed.

Lemma load_sessions_read l acc :
  (∀ k t, (k, t) ∈ l → plan_ok max_items k t) → od_ok (acc ++ l) →
  load_sessions (map (λ e, (e.1, PDict (saved_plan e.2))) l) acc = Ok (acc ++ l).
Proof.
  revert acc. induction l as [|[k t] l IH]; intros acc Hl Hok; simpl; [by rewrite app_nil_r|].
  assert (plan_ok max_items k t) as Ht by (apply Hl; left).
  rewrite (plan_reads_back k t Ht). simpl. rewrite (proj1 Ht).
  assert (od_set acc k t = acc ++ [(k, t)]) as ->.
  { assert (od_get acc k = None) as E.
    { apply od_get_none. unfold od_ok in Hok. rewrite map_app in Hok. simpl in Hok.
      apply NoDup_app in Hok as (_ & Hd & _). intros Hin. apply (Hd k Hin). left. }
    clear -E. induction acc as [|[k' v] acc IH]; simpl in *; [done|].
    case_bool_decide; [done|]. by rewrite IH. }
  rewrite IH; [by rewrite <-app_assoc| |by rewrite <-app_assoc].
  intros k' t' H. apply Hl. by right.
Qed.

(** What was saved is read back, in the order of the keys. *)
Lemma load_saved d :
  ok d → ∃ d', load_payload max_sessions (store_payload d) = Ok d' ∧ d' ≡ₚ d.
Proof.
  intros (Hok & Hlen & Hd).
  assert (map (λ '(k, v), (k, json_sort v)) (map (λ e : string * Todo, (e.1, _todo_to_payload e.2)) d)
          = map (λ e, (e.1, PDict (saved_plan e.2))) d) as Hmap.
  { rewrite map_map. apply map_ext_in. intros [k t] Hin. simpl. f_equal.
    apply (saved_plan_json k), Hd, elem_od_get; [done|]. by apply list_elem_of_In. }
  assert (store_payload d = PDict [("sessions", PDict (dsort (map (λ e, (e.1, PDict (saved_plan e.2))) d)));
                                   ("version", PInt 1)]) as ->.
  { unfold store_payload. simpl. by rewrite Hmap. }
  destruct (Permutation_map_inv _ _ (dsort_perm (map (λ e : string * Todo, (e.1, PDict (saved_plan e.2))) d)))
    as (d' & E & Hp).
  exists d'. split; [|by symmetry]. unfold load_payload, dget_or. simpl. rewrite E.
  rewrite load_sessions_read; simpl.
  - rewrite od_trim_small; [done|]. by rewrite <-Hp.
  - intros k t Hin. apply Hd, elem_od_get; [done|]. by rewrite Hp.
  - unfold od_ok. by rewrite <-Hp.
Qed.

(** ** Sequences of calls *)

Inductive todo_op :=
| OpSetPlan (session_id : string) (items : list string)
| OpAddItem (session_id text : string) (position : Z)
| OpUpdateStatus (session_id : string) (index : Z) (status : string)
| OpGetPlan (session_id : string)
| OpClearPlan (session_id : string).
Definition op_session (op : todo_op) : string :=
  match op with
  | OpSetPlan k _ | OpAddItem k _ _ | OpUpdateStatus k _ _ | OpGetPlan k | OpClearPlan k => k
  end.
(** Calls a method of a store and tells whether it used the session's plan. *)
Definition call (S : TodoStore) (op : todo_op) : TM bool :=
  match op with
  | OpSetPlan k items => _ ← set_plan k items; mret true
  | OpAddItem k text position => _ ← add_item k text position; mret true
  | OpUpdateStatus k index status => _ ← update_item_status k index status; mret true
  | OpGetPlan k => t ← get_plan k; mret (match t with Some _ => true | None => false end)
  | OpClearPlan k => _ ← clear_plan k; mret false
  end.
Abbreviation mem_call := (call (memory_store max_sessions max_items)).
Abbreviation file_call := (call (file_store max_sessions max_items)).

(** What a call does with its session. *)
Inductive usage := Unused | Used (k : string) | Dropped (k : string).
(** What it does to the plans. *)
Inductive effect (d : list (string * Todo)) : usage → list (string * Todo) → Prop :=
| eff_none : effect d Unused d
| eff_new k t : plan_ok max_items k t →
    effect d (Used k) (od_trim max_sessions (od_move_to_end (od_set d k t) k))
| eff_replace k t t' : od_get d k = Some t → plan_ok max_items k t' →
    effect d (Used k) (od_move_to_end (od_set d k t') k)
| eff_touch k t : od_get d k = Some t → effect d (Used k) (od_move_to_end d k)
| eff_pop k : effect d (Dropped k) (od_pop d k).

Definition used (op : todo_op) (r : result todo_exn bool) : usage :=
  match r, op with
  | Ok true, _ => Used (op_session op)
  | Ok false, OpClearPlan k => Dropped k
  | _, _ => Unused
  end.

Lemma mem_set_effect k items w w' r :
  mem_set_plan max_sessions max_items k items w = (w', r) →
  effect (todos w) (match r with Ok _ => Used k | Raise _ => Unused end) (todos w') ∧ todo_file w' = todo_file w.
Proof.
  unfold mem_set_plan. destruct (_ <? _)%nat eqn:E; [intros [= <- <-]; split; [constructor|done]|].
  intros [= <- <-]. split; [|done]. simpl. constructor. apply new_plan_ok. by apply Nat.ltb_ge in E.
Qed.
Lemma mem_add_effect k text position w w' r :
  ok (todos w) → mem_add_item max_items k text position w = (w', r) →
  effect (todos w) (match r with Ok _ => Used k | Raise _ => Unused end) (todos w') ∧ todo_file w' = todo_file w.
Proof.
  intros (_ & _ & Hok). unfold mem_add_item. rewrite (bind_of_Ok clock _ w _ _ eq_refl), bind_get_world. simpl.
  destruct (od_get (todos w) k) as [t|] eqn:E; [|intros [= <- <-]; split; [constructor|done]].
  destruct (_ <=? _)%nat eqn:El; [intros [= <- <-]; split; [constructor|done]|].
  destruct (insert_at position _) as [i|e] eqn:Ei; [|intros [= <- <-]; split; [constructor|done]].
  intros [= <- <-]. split; [|done]. simpl. apply (eff_replace _ _ t); [done|].
  apply add_item_ok; [by apply Hok|]. by apply Nat.leb_gt in El.
Qed.
Lemma mem_update_effect k index status w w' r :
  ok (todos w) → mem_update_item_status k index status w = (w', r) →
  effect (todos w) (match r with Ok _ => Used k | Raise _ => Unused end) (todos w') ∧ todo_file w' = todo_file w.
Proof.
  intros (_ & _ & Hok). unfold mem_update_item_status.
  destruct (str_in status VALID_STATUSES) eqn:Es; [|intros [= <- <-]; split; [constructor|done]].
  change (negb true) with false. cbv iota.
  rewrite (bind_of_Ok clock _ w _ _ eq_refl), bind_get_world. simpl.
  destruct (od_get (todos w) k) as [t|] eqn:E; [|intros [= <- <-]; split; [constructor|done]].
  destruct (index <? 0); [intros [= <- <-]; split; [constructor|done]|].
  destruct (td_items t !! Z.to_nat index) as [old|] eqn:Eo; [|intros [= <- <-]; split; [constructor|done]].
  intros [= <- <-]. split; [|done]. simpl. apply (eff_replace _ _ t); [done|]. apply update_item_ok; auto.
Qed.

Lemma mem_call_effect op w :
  ok (todos w) →
  effect (todos w) (used op (mem_call op w).2) (todos (mem_call op w).1) ∧
  todo_file (mem_call op w).1 = todo_file w.
Proof.
  intros Hok. unfold call. destruct op as [k items|k text pos|k index status|k|k]; cbn [memory_store set_plan
    add_item update_item_status get_plan clear_plan].
  - unfold mbind, M_bind. destruct (mem_set_plan _ _ k items w) as [w' [t|e]] eqn:E;
      apply (mem_set_effect _ _ _ _ _) in E; exact E.
  - unfold mbind, M_bind. destruct (mem_add_item _ k text pos w) as [w' [t|e]] eqn:E;
      apply (mem_add_effect _ _ _ _ _ _ Hok) in E; exact E.
  - unfold mbind, M_bind. destruct (mem_update_item_status k index status w) as [w' [t|e]] eqn:E;
      apply (mem_update_effect _ _ _ _ _ _ Hok) in E; exact E.
  - split; [|done]. simpl. destruct (od_get (todos w) k) as [t|] eqn:E; simpl; [by apply (eff_touch _ _ t)|].
    unfold od_move_to_end. rewrite E. constructor.
  - split; [|done]. simpl. constructor.
Qed.

Lemma effect_ok d u d' : effect d u d' → ok d → ok d'.
Proof.
  destruct 1; intros Hok; [done|by apply ok_new| |by apply ok_move|by apply ok_pop].
  apply ok_move. by apply (ok_replace d k t).
Qed.

(** ** The store with a file *)

(** A call of the store with a file is the call in memory, followed by a save
    unless it failed or only read. *)
Definition saves (op : todo_op) (r : result todo_exn bool) : bool :=
  match r, op with Raise _, _ => false | _, OpGetPlan _ => false | _, _ => true end.
Lemma file_call_eq op w :
  file_call op w
  = (let '(w', r) := mem_call op w in (if saves op r then set_file (store_payload (todos w')) w' else w', r)).
Proof.
  destruct op as [k items|k text pos|k index status|k|k]; unfold call; cbn [memory_store file_store set_plan
    add_item update_item_status get_plan clear_plan]; unfold file_set_plan, file_add_item,
    file_update_item_status, file_clear_plan, mbind, M_bind.
  - by destruct (mem_set_plan _ _ _ _ _) as [w' [t|e]].
  - by destruct (mem_add_item _ _ _ _ _) as [w' [t|e]].
  - by destruct (mem_update_item_status _ _ _ _) as [w' [t|e]].
  - by destruct (mem_get_plan _ _) as [w' [t|e]].
  - done.
Qed.

(** The file holds the plans in memory, up to the order of the sessions. *)
Definition durable (w : TodoWorld) : Prop :=
  ok (todos w) ∧
  match todo_file w with
  | None => todos w = []
  | Some p => ∃ d, p = store_payload d ∧ ok d ∧ same_plans d (todos w)
  end.

Lemma durable_call op w : durable w → durable (file_call op w).1.
Proof.
  intros [Hok Hf]. rewrite file_call_eq. pose proof (mem_call_effect op w Hok) as [He Hfile].
  destruct (mem_call op w) as [w' r] eqn:E. simpl in He, Hfile. pose proof (effect_ok _ _ _ He Hok) as Hok'.
  destruct (saves op r) eqn:Es; simpl; [split; [done|]; by exists (todos w')|].
  assert (same_plans (todos w) (todos w') ∧ (todos w = [] → todos w' = [])) as [Hs Hnil].
  { destruct r as [b|e]; [|by inversion He]. destruct op as [| | |k|]; try done.
    injection E as <- _. simpl. split; [symmetry; apply move_same_plans|by intros ->]. }
  split; [done|]. rewrite Hfile. destruct (todo_file w); [|auto].
  destruct Hf as (d & -> & Hd & Hsd). exists d. split_and!; [done|done|]. by rewrite Hsd.
Qed.

(** Opening a durable store. *)
Lemma open_durable w :
  durable w → ∃ w', open_store max_sessions w = (w', Ok ()) ∧ same_plans (todos w') (todos w) ∧ durable w'.
Proof.
  intros [Hok Hf]. unfold open_store. rewrite bind_get_world. destruct (todo_file w) as [p|] eqn:Ef.
  - destruct Hf as (d & -> & Hd & Hs). destruct (load_saved d Hd) as (d' & E & Hp). rewrite E.
    eexists. split; [done|]. simpl.
    assert (ok d') as Hd'.
    { destruct Hd as (H1 & H2 & H3). split_and!; [unfold od_ok; by rewrite Hp|by rewrite Hp|].
      intros k t Ht. apply H3. rewrite <-(perm_same_plans d' d); [done|done|]. unfold od_ok. by rewrite Hp. }
    assert (same_plans d' (todos w)) as Hs'.
    { transitivity d; [|done]. apply perm_same_plans; [done|apply Hd']. }
    split; [done|]. split; [done|]. simpl. rewrite Ef. exists d. split_and!; [done|done|]. simpl. by rewrite Hs', Hs.
  - eexists. split; [done|]. simpl. rewrite Hf. split; [done|]. split; simpl; [by rewrite Hf in Hok|]. by rewrite Ef.
Qed.

Inductive file_step (w : TodoWorld) : TodoWorld → Prop :=
| fs_call op : file_step w (file_call op w).1
| fs_open : file_step w (open_store max_sessions w).1.
Definition fresh (w : TodoWorld) : Prop := todos w = [] ∧ todo_file w = None.

Lemma steps_durable w0 w : fresh w0 → rtc file_step w0 w → durable w.
Proof.
  intros [H1 H2] Hs. assert (durable w0) as H.
  { split; [|by rewrite H2]. rewrite H1. split_and!; [apply NoDup_nil_2|simpl; lia|done]. }
  clear H1 H2. induction Hs as [w|w1 w2 w3 Hst _ IH]; [done|]. apply IH.
  destruct Hst; [by apply durable_call|]. by destruct (open_durable w1 H) as (w' & -> & _ & H').
Qed.

(** C40: after any sequence of calls and reopenings of a todo store with a file, each
    session has at most one plan, the number of plans and of items in a plan are
    within the limits, every item has its place as index and a valid status. *)
Theorem todo_plans_wellformed w0 w k t i x :
  fresh w0 → rtc file_step w0 w → od_get (todos w) k = Some t → td_items t !! i = Some x →
  NoDup (map fst (todos w)) ∧ (length (todos w) ≤ max_sessions)%nat ∧ td_session_id t = k ∧
  (length (td_items t) ≤ max_items)%nat ∧ ti_index x = Z.of_nat i ∧ ti_status x ∈ VALID_STATUSES.
Proof.
  intros H0 Hs Ht Hx. destruct (steps_durable w0 w H0 Hs) as [(Hok & Hl & Hp) _].
  destruct (Hp k t Ht) as (Hk & Hn & Hi & _). destruct (Hi i x Hx) as (Hix & Hst & _).
  apply str_in_elem in Hst. by split_and!.
Qed.

(** Whatever calls were made and however often the store was opened before,
    opening it again succeeds and every session has the plan it had, with its
    texts, statuses and times. *)
Theorem todo_reopen_restores w0 w :
  fresh w0 → rtc file_step w0 w →
  ∃ w', open_store max_sessions w = (w', Ok ()) ∧ ∀ k, od_get (todos w') k = od_get (todos w) k.
Proof.
  intros H0 Hs. destruct (open_durable w (steps_durable w0 w H0 Hs)) as (w' & E & H & _). by exists w'.
Qed.
End Props.

(** * The todo list in use: which session is evicted, what the tool that writes a
    whole list does, and what two threads that save at once can lose. *)

(** ** Recency *)

(** How many uses ago [k] was last used; the latest use comes first in [h]. *)
Fixpoint age (k : string) (h : list string) : nat :=
  match h with
  | [] => 0
  | k' :: h' => if String.eqb k k' then 0 else S (age k h')
  end.
(** The sessions come in the order of their last use, the oldest first. *)
Definition older (h : list string) (e e' : string * Todo) : Prop := (age e'.1 h < age e.1 h)%nat.
Definition by_recency (h : list string) (d : list (string * Todo)) : Prop := StronglySorted (older h) d.

Lemma age_same k h : age k (k :: h) = 0%nat.
Proof. simpl. by rewrite String.eqb_refl. Qed.
Lemma age_other k k' h : k ≠ k' → age k (k' :: h) = S (age k h).
Proof. intros H. simpl. by rewrite (proj2 (String.eqb_neq _ _)). Qed.

Lemma recency_sublist p h d : by_recency h d → by_recency h (List.filter p d).
Proof.
  unfold by_recency. induction 1 as [|e d _ IH Hf]; simpl; [constructor|]. destruct (p e); [|done].
  constructor; [done|]. rewrite Forall_forall in Hf |- *. intros x Hx. apply Hf, (filter_elem p d x), Hx.
Qed.
Lemma recency_suffix h d0 d : by_recency h (d0 ++ d) → by_recency h d.
Proof. unfold by_recency. induction d0 as [|e d0 IH]; simpl; [done|]. intros H. inversion H; auto. Qed.
Lemma recency_split h d0 d e e' : by_recency h (d0 ++ d) → e ∈ d0 → e' ∈ d → older h e e'.
Proof.
  unfold by_recency. induction d0 as [|x d0 IH]; intros H He He'; [by apply elem_of_nil in He|].
  simpl in H. inversion H as [|?? Hs Hf]; subst. apply elem_of_cons in He as [->|He]; [|by apply IH].
  rewrite Forall_forall in Hf. apply Hf, elem_of_app. by right.
Qed.

(** A use of [k] puts it last. *)
Lemma recency_use k t h d : by_recency h d → by_recency (k :: h) (od_pop d k ++ [(k, t)]).
Proof.
  intros H. apply (recency_sublist (λ e, negb (bool_decide (k = e.1)))) in H. fold (od_pop d k) in H.
  assert (∀ e, e ∈ od_pop d k → e.1 ≠ k) as Hne.
  { intros e [_ He]%filter_elem Hk. by rewrite bool_decide_true in He. }
  unfold by_recency in *. induction H as [|e l Hs IH Hf]; simpl.
  - constructor; [constructor|apply Forall_nil_2].
  - assert (e.1 ≠ k) as He by (apply Hne; left). constructor.
    + apply IH. intros x Hx. apply Hne. by right.
    + apply Forall_app. split.
      2:{ apply Forall_singleton. unfold older. simpl fst. rewrite age_same, age_other by done. lia. }
      rewrite Forall_forall in Hf |- *. intros x Hx. specialize (Hf x Hx). unfold older in *.
      rewrite !age_other by (try done; apply Hne; by right). lia.
Qed.

Section Eviction.
Context {Env : TodoEnv}.
Variable max_sessions max_items : nat.
Hypothesis clock_times : ∀ n, is_time (time_time n).
Abbreviation mem_call := (call (memory_store max_sessions max_items)).

(** The uses after a call. *)
Definition note (u : usage) (h : list string) : list string := match u with Used k => k :: h | _ => h end.

Lemma effect_recency d u d' h : effect max_sessions max_items d u d' → by_recency h d → by_recency (note u h) d'.
Proof.
  destruct 1 as [|k t Ht|k t t' Hk Ht|k t Hk|k]; intros H; simpl.
  - done.
  - rewrite od_set_move. destruct (od_trim_suffix max_sessions (od_pop d k ++ [(k, t)])) as (d0 & E & _).
    apply (recency_suffix _ d0). rewrite <-E. by apply recency_use.
  - rewrite od_set_move. by apply recency_use.
  - unfold od_move_to_end. rewrite Hk. by apply recency_use.
  - by apply recency_sublist.
Qed.

(** A run of calls on the store in memory, with the sessions they used. *)
Inductive mem_run (w : TodoWorld) : list string → TodoWorld → Prop :=
| mr_start : mem_run w [] w
| mr_call op w1 h : mem_run w h w1 → mem_run w (note (used op (mem_call op w1).2) h) (mem_call op w1).1.

Lemma run_recency w0 h w :
  todos w0 = [] → mem_run w0 h w → plans_ok max_sessions max_items (todos w) ∧ by_recency h (todos w).
Proof.
  intros H0 Hr. induction Hr as [|op w1 h _ [Hok Hs]].
  - rewrite H0. split; [split_and!; [apply NoDup_nil_2|simpl; lia|done]|constructor].
  - destruct (mem_call_effect max_sessions max_items clock_times op w1 Hok) as [He _].
    split; [by eapply effect_ok|by eapply effect_recency].
Qed.

(** When setting a plan drops another session's plan because there are too many,
    that session was used less recently than every session that stays. *)
Theorem least_recent_evicted w0 h w k items w' t gone stays :
  todos w0 = [] → mem_run w0 h w →
  mem_set_plan max_sessions max_items k items w = (w', Ok t) →
  gone ≠ k → stays ≠ k → od_get (todos w) gone ≠ None → od_get (todos w') gone = None →
  od_get (todos w') stays ≠ None → (age stays h < age gone h)%nat.
Proof.
  intros H0 Hr Hset Hg Hst Hgone Hnone Hstays. destruct (run_recency w0 h w H0 Hr) as [(Hok & _ & _) Hs].
  unfold mem_set_plan in Hset. destruct (_ <? _)%nat; [done|]. injection Hset as <- _. simpl in Hnone, Hstays.
  set (p := new_plan _ _ _) in Hnone, Hstays. rewrite od_set_move in Hnone, Hstays.
  assert (od_ok (od_pop (todos w) k ++ [(k, p)])) as Hok' by auto.
  destruct (od_trim_suffix max_sessions (od_pop (todos w) k ++ [(k, p)])) as (d0 & E & _).
  destruct (od_get (todos w) gone) as [tg|] eqn:Eg; [|done].
  destruct (od_get (od_trim _ _) stays) as [ts|] eqn:Es; [|done].
  assert ((gone, tg) ∈ d0) as Hin0.
  { assert ((gone, tg) ∈ od_pop (todos w) k ++ [(k, p)]) as Hin.
    { apply od_get_elem. rewrite od_get_app, od_get_pop, decide_False, Eg by done. done. }
    rewrite E in Hin. apply elem_of_app in Hin as [Hin|Hin]; [done|].
    rewrite (elem_od_get _ gone tg) in Hnone; [done|auto|done]. }
  assert ((stays, ts) ∈ od_trim max_sessions (od_pop (todos w) k ++ [(k, p)])) as Hin1 by (by apply od_get_elem).
  pose proof (recency_use k p h (todos w) Hs) as Hs'. rewrite E in Hs'.
  pose proof (recency_split _ _ _ _ _ Hs' Hin0 Hin1) as Ho. unfold older in Ho.
  simpl fst in Ho. rewrite !age_other in Ho by done. lia.
Qed.
End Eviction.

(** ** Writing a whole list *)

Section Handlers.
Context {Env : TodoEnv}.
Variable max_sessions max_items : nat.
Hypothesis some_session : (0 < max_sessions)%nat.
#[local] Instance the_store : TodoStore := memory_store max_sessions max_items.

(** The status that the tool writes for an item. *)
Definition given_status (item : string * string) : string := str_or (Some item.2) "todo".

Lemma get_moved_set (d : list (string * Todo)) k t : od_get (od_move_to_end (od_set d k t) k) k = Some t.
Proof. by rewrite od_get_move, od_get_set, decide_True. Qed.

Lemma update_status_spec k i status w t old :
  od_get (todos w) k = Some t → td_items t !! i = Some old → str_in status VALID_STATUSES = true →
  ∃ w' x now, mem_update_item_status k (Z.of_nat i) status w = (w', Ok x) ∧
    od_get (todos w') k = Some (with_items (<[i := with_status status now old]> (td_items t)) now t).
Proof.
  intros Ht Hi Hs. unfold mem_update_item_status. rewrite Hs. change (negb true) with false. cbv iota.
  rewrite (bind_of_Ok clock _ w _ _ eq_refl), bind_get_world. simpl. rewrite Ht.
  rewrite (proj2 (Z.ltb_ge _ _)) by lia. rewrite Nat2Z.id, Hi. eexists _, _, _. split; [done|]. simpl.
  apply get_moved_set.
Qed.

Lemma write_statuses_spec k rest : ∀ j w t,
  od_get (todos w) k = Some t → length (td_items t) = (j + length rest)%nat →
  (∀ i x, td_items t !! i = Some x → (j ≤ i)%nat → ti_status x = "todo") →
  Forall (λ i, given_status i ∈ VALID_STATUSES) rest →
  ∃ w' t', write_statuses k (Z.of_nat j) rest w = (w', Ok ()) ∧ od_get (todos w') k = Some t' ∧
    td_session_id t' = td_session_id t ∧ map ti_text (td_items t') = map ti_text (td_items t) ∧
    map ti_status (td_items t') = map ti_status (take j (td_items t)) ++ map given_status rest.
Proof.
  induction rest as [|[text given] rest IH]; intros j w t Ht Hlen Htodo Hv.
  { exists w, t. simpl in *. split_and!; try done. rewrite firstn_all2 by lia. by rewrite app_nil_r. }
  simpl in Hlen. apply Forall_cons in Hv as [Hv Hrest].
  destruct (lookup_lt_is_Some_2 (td_items t) j) as [old Hold]; [lia|].
  cbn [write_statuses]. change (str_or (Some given) "todo") with (given_status (text, given)). replace (Z.of_nat j + 1) with (Z.of_nat (S j)) by lia.
  destruct (String.eqb (given_status (text, given)) "todo") eqn:E; cbv [negb]; cbv iota.
  - rewrite (bind_of_Ok (mret ()) _ w w () eq_refl).
    destruct (IH (S j) w t) as (w' & t' & Hw & Hg & Hk & Htx & Hst); try done; [lia|intros; apply (Htodo i); [done|lia]|].
    exists w', t'. split_and!; try done. rewrite Hst, (take_S_r _ _ old) by done. rewrite map_app, <-app_assoc. simpl.
    apply String.eqb_eq in E. by rewrite E, (Htodo j old Hold).
  - apply str_in_elem in Hv.
    destruct (update_status_spec k j (given_status (text, given)) w t old) as (w1 & x & now & Hu & Hg1); try done.
    rewrite (bind_of_Ok _ _ w w1 ()) by (cbn [update_item_status the_store memory_store];
      by rewrite (bind_of_Ok _ _ w w1 x Hu)).
    set (t1 := with_items _ now t) in Hg1. assert (j < length (td_items t))%nat as Hj by lia.
    destruct (IH (S j) w1 t1) as (w' & t' & Hw & Hg & Hk & Htx & Hst); try done.
    { unfold t1. simpl. rewrite length_insert. lia. }
    { intros i y Hy Hi. unfold t1 in Hy. simpl in Hy. rewrite list_lookup_insert_ne in Hy by lia.
      apply (Htodo i); [done|lia]. }
    exists w', t'. split_and!; try done.
    + rewrite Htx. unfold t1. simpl. change (map ti_text) with (fmap (M := list) ti_text).
      rewrite list_fmap_insert. simpl. apply list_insert_id. by rewrite list_lookup_fmap, Hold.
    + rewrite Hst. unfold t1. simpl td_items.
      rewrite (take_S_r _ _ (with_status (given_status (text, given)) now old)) by (by apply list_lookup_insert_eq).
      rewrite take_insert_ge by lia. rewrite map_app, <-app_assoc. done.
Qed.

(** The plan of a session right after it was set. *)
Lemma set_plan_get k items w :
  (length items ≤ max_items)%nat →
  ∃ w' now, mem_set_plan max_sessions max_items k items w = (w', Ok (new_plan k items now)) ∧
    od_get (todos w') k = Some (new_plan k items now).
Proof.
  intros Hl. unfold mem_set_plan. rewrite (proj2 (Nat.ltb_ge _ _)) by done.
  eexists _, _. split; [done|]. simpl. set (t := new_plan _ _ _). rewrite od_set_move.
  set (d := od_pop (todos w) k).
  assert (od_get d k = None) as Hd by (unfold d; by rewrite od_get_pop, decide_True).
  clearbody d. induction d as [|e d IH].
  { cbn [app od_trim]. simpl length. rewrite (proj2 (Nat.ltb_ge _ _)) by lia. simpl. by rewrite bool_decide_true. }
  destruct e as [k' v]. simpl in Hd. case_bool_decide as Ek; [done|]. rewrite <-app_comm_cons. cbn [od_trim].
  destruct (_ <? _)%nat; [by apply IH|]. simpl. rewrite bool_decide_false by done. rewrite od_get_app, Hd. simpl.
  by rewrite bool_decide_true.
Qed.

(** When the statuses are valid and the list is not too long, writing a todo
    list succeeds, and the session's plan then has exactly the given items with the
    given statuses, in order; this is also what the tool returns. *)
Theorem todo_write_then_read ctx items w :
  let k := _resolve_session_id ctx in
  (length items ≤ max_items)%nat → Forall (λ i, given_status i ∈ VALID_STATUSES) items →
  ∃ w' r t, _h_todo_write ctx items w = (w', Ok r) ∧ od_get (todos w') k = Some t ∧
    map ti_text (td_items t) = map (λ i, py_strip i.1) items ∧
    map ti_status (td_items t) = map given_status items ∧
    dget r "plan" = Some (_serialize_plan (Some t) k).
Proof.
  intros k Hl Hv. unfold _h_todo_write. fold k.
  destruct (set_plan_get k (map (λ i, py_strip i.1) items) w) as (w1 & now & E1 & Hg1); [by rewrite length_map|].
  destruct (write_statuses_spec k items 0 w1 _ Hg1) as (w2 & t & E2 & Hg2 & Hk & Htx & Hst); try done.
  { simpl. by rewrite length_imap, length_map. }
  { intros i x Hx _. simpl in Hx. apply list_lookup_imap_Some in Hx as (y & _ & ->). done. }
  assert (_mutate_and_get_plan k (_ ← set_plan k (map (λ i, py_strip i.1) items); write_statuses k 0 items) w
          = (set_todos (λ d, od_move_to_end d k) w2, Ok t)) as ->%(bind_of_Ok _ _ _ _ _).
  { unfold _mutate_and_get_plan. rewrite (bind_of_Ok _ _ w (set_todos (λ d, od_move_to_end d k) w2) (Some t)); [done|].
    unfold _raise_as_tool_error. rewrite (bind_of_Ok _ _ w w2 ()).
    - simpl. by rewrite Hg2.
    - cbn [set_plan the_store memory_store]. rewrite (bind_of_Ok _ _ w w1 _ E1). exact E2. }
  eexists _, _, t. split; [done|]. split_and!.
  - simpl. by rewrite od_get_move.
  - rewrite Htx. simpl. clear. generalize (map (λ i : string * string, py_strip i.1) items). intros l.
    change (map ti_text) with (fmap (M := list) ti_text). apply list_eq. intros i.
    rewrite list_lookup_fmap, list_lookup_imap. by destruct (l !! i).
  - by rewrite Hst.
  - done.
Qed.

(** When the status of an item is refused, the old plan is gone all the same: the
    tool reports an error after it has replaced the plan. *)
Theorem refused_todo_write_replaces ctx text bad rest w :
  let k := _resolve_session_id ctx in
  (length ((text, bad) :: rest) ≤ max_items)%nat → truthy bad = true → bad ∉ VALID_STATUSES →
  ∃ w' message now, _h_todo_write ctx ((text, bad) :: rest) w
      = (w', Raise (ToolRuntimeError "INVALID_PLAN_STATUS" message k)) ∧
    od_get (todos w') k = Some (new_plan k (map (λ i, py_strip i.1) ((text, bad) :: rest)) now).
Proof.
  intros k Hl Hb Hv. unfold _h_todo_write. fold k. set (items := (text, bad) :: rest) in *.
  destruct (set_plan_get k (map (λ i, py_strip i.1) items) w) as (w1 & now & E1 & Hg1); [by rewrite length_map|].
  assert (∃ message, write_statuses k 0 items w1 = (w1, Raise (InvalidTodoStatusError message))) as (message & E2).
  { unfold items. cbn [write_statuses]. unfold str_or at 1 2. rewrite Hb.
    assert (String.eqb bad "todo" = false) as ->.
    { apply String.eqb_neq. intros ->. apply Hv. left. }
    cbv [negb]. cbv iota. cbn [update_item_status the_store memory_store]. unfold mem_update_item_status.
    apply str_in_elem_false in Hv. rewrite Hv. cbv [negb]. cbv iota. by eexists. }
  exists w1, message, now. split; [|done].
  rewrite (bind_of_Raise _ _ w w1 (ToolRuntimeError "INVALID_PLAN_STATUS" message k)); [done|].
  unfold _mutate_and_get_plan. rewrite (bind_of_Raise _ _ w w1 (ToolRuntimeError "INVALID_PLAN_STATUS" message k)); [done|].
  unfold _raise_as_tool_error. rewrite (bind_of_Raise _ _ w w1 (InvalidTodoStatusError message)); [done|].
  cbn [set_plan the_store memory_store]. by rewrite (bind_of_Ok _ _ w w1 _ E1).
Qed.
End Handlers.

(** ** Threads that share a store with a file

    A method changes the plans under the lock; the snapshot that is saved is taken
    under the lock once more, and written without it. *)

Inductive save_phase := Idle | Changed | Snapped (payload : pyval).

Inductive conc_step {Env : TodoEnv} (max_sessions max_items : nat) :
    TodoWorld * list save_phase → TodoWorld * list save_phase → Prop :=
| cs_call i op w w' b ps :
    ps !! i = Some Idle → call (memory_store max_sessions max_items) op w = (w', Ok b) →
    conc_step max_sessions max_items (w, ps) (w', <[i := Changed]> ps)
| cs_snapshot i w ps :
    ps !! i = Some Changed →
    conc_step max_sessions max_items (w, ps) (w, <[i := Snapped (store_payload (todos w))]> ps)
| cs_write i p w ps :
    ps !! i = Some (Snapped p) → conc_step max_sessions max_items (w, ps) (set_file p w, <[i := Idle]> ps).
