(* ===== verification/TodoDemo.v ===== *)
(** Concrete runs of the todo list: the witnesses of its theorems, a recency that
    is lost when the file is reopened, and a change that two saves lose. *)

From S2P Require Import Prelude PyValue PyText OrderedDict Todo TodoProps.
From Stdlib Require Import Ascii.

Local Open Scope Z_scope.

#[global] Instance demo_todo_env : TodoEnv := {|
  time_time n := PFloat (Z.of_nat n + 1) 1 (pretty (n + 1)%nat +:+ ".0");
  py_float_text _ := None;
|}.
Lemma demo_clock_times n : is_time (time_time n).
Proof. simpl. eexists _, _, _. split; [done|]. lia. Qed.

Definition todo_empty : TodoWorld := {| todos := []; todo_file := None; todo_ticks := 0 |}.

(** Calls one after the other on a store for two sessions of three items. *)
Fixpoint todo_calls (S : TodoStore) (ops : list todo_op) (w : TodoWorld) : TodoWorld :=
  match ops with [] => w | op :: rest => todo_calls S rest (call S op w).1 end.
Definition demo_file : TodoStore := file_store 2 3.

Lemma file_calls_steps ops w : rtc (file_step 2 3) w (todo_calls demo_file ops w).
Proof.
  revert w. induction ops as [|op ops IH]; intros w; simpl; [done|].
  eapply rtc_l; [apply (fs_call 2 3 w op)|apply IH].
Qed.

Definition demo_ops : list todo_op :=
  [OpSetPlan "b" ["write"; "test"]; OpSetPlan "a" ["read"]; OpAddItem "b" "review" 1;
   OpUpdateStatus "b" 0 "done"].
Definition w_todo : TodoWorld := todo_calls demo_file demo_ops todo_empty.
Example demo_plan :
  option_map (λ t, map (λ x, (ti_index x, ti_text x, ti_status x)) (td_items t)) (od_get (todos w_todo) "b")
  = Some [(0, "write", "done"); (1, "review", "todo"); (2, "test", "todo")].
Proof. vm_compute. reflexivity. Qed.

Definition no_item : TodoItem := new_item 0 "" PNone.
Definition plan_b : Todo := default (new_plan "" [] PNone) (od_get (todos w_todo) "b").
Definition item_b : TodoItem := default no_item (td_items plan_b !! 1%nat).

Lemma todo_plans_wellformed_witness :
  NoDup (map fst (todos w_todo)) ∧ (length (todos w_todo) ≤ 2)%nat ∧ td_session_id plan_b = "b" ∧
  (length (td_items plan_b) ≤ 3)%nat ∧ ti_index item_b = Z.of_nat 1 ∧ ti_status item_b ∈ VALID_STATUSES.
Proof.
  apply (todo_plans_wellformed 2 3 demo_clock_times todo_empty w_todo "b" plan_b 1 item_b).
  - by split.
  - apply file_calls_steps.
  - vm_compute. reflexivity.
  - vm_compute. reflexivity.
Defined.

Lemma todo_reopen_restores_witness :
  ∃ w', open_store 2 w_todo = (w', Ok ()) ∧ ∀ k, od_get (todos w') k = od_get (todos w_todo) k.
Proof. apply (todo_reopen_restores 2 3 demo_clock_times todo_empty w_todo); [by split|apply file_calls_steps]. Defined.

(** ** Eviction *)

Definition demo_memory : TodoStore := memory_store 2 3.
Definition w_used : TodoWorld :=
  todo_calls demo_memory [OpSetPlan "a" ["read"]; OpSetPlan "b" ["write"]; OpGetPlan "a"] todo_empty.
Lemma used_run : mem_run 2 3 todo_empty ["a"; "b"; "a"] w_used.
Proof.
  exact (mr_call 2 3 _ (OpGetPlan "a") _ _ (mr_call 2 3 _ (OpSetPlan "b" ["write"]) _ _
    (mr_call 2 3 _ (OpSetPlan "a" ["read"]) _ _ (mr_start 2 3 todo_empty)))).
Qed.
Lemma least_recent_evicted_witness : (age "a" ["a"; "b"; "a"] < age "b" ["a"; "b"; "a"])%nat.
Proof.
  eapply (least_recent_evicted 2 3 demo_clock_times todo_empty ["a"; "b"; "a"] w_used "c" ["plan"]).
  - reflexivity.
  - exact used_run.
  - vm_compute. reflexivity.
  - done.
  - done.
  - vm_compute. done.
  - vm_compute. reflexivity.
  - vm_compute. done.
Defined.

(** Reopening sorts the sessions by name: the session used last, [a], is then the
    first to be evicted, although [b] was used before it. *)
Theorem reopening_forgets_recency :
  let before := todo_calls demo_file [OpSetPlan "a" ["read"]; OpSetPlan "b" ["write"]; OpGetPlan "a"] todo_empty in
  let reopened := (open_store 2 before).1 in
  map fst (todos (call demo_file (OpSetPlan "c" ["plan"]) before).1) = ["a"; "c"] ∧
  map fst (todos (call demo_file (OpSetPlan "c" ["plan"]) reopened).1) = ["b"; "c"].
Proof. vm_compute. by split. Qed.

(** ** The tool *)

Lemma todo_write_then_read_witness :
  let _ := memory_store 2 3 in
  ∃ w' r t, _h_todo_write (Some "s") [(" read ", "done"); ("write", "")] w_todo = (w', Ok r) ∧
    od_get (todos w') (_resolve_session_id (Some "s")) = Some t ∧
    map ti_text (td_items t) = map (λ i, py_strip i.1) [(" read ", "done"); ("write", "")] ∧
    map ti_status (td_items t) = map given_status [(" read ", "done"); ("write", "")] ∧
    dget r "plan" = Some (_serialize_plan (Some t) (_resolve_session_id (Some "s"))).
Proof.
  apply (todo_write_then_read 2 3 ltac:(lia) (Some "s") [(" read ", "done"); ("write", "")] w_todo).
  - simpl. lia.
  - repeat constructor; vm_compute; set_solver.
Defined.

(** ** Concurrent saves *)

Definition w1_conc : TodoWorld := (call (memory_store 2 3) (OpSetPlan "a" ["read"]) todo_empty).1.
Definition w2_conc : TodoWorld := (call (memory_store 2 3) (OpSetPlan "b" ["write"]) w1_conc).1.

(** Two threads each set a plan and save; both calls return, and the file lacks one
    of the plans: the older snapshot was written last. *)
Theorem concurrent_saves_lose_update :
  ∃ w, rtc (conc_step 2 3) (todo_empty, [Idle; Idle]) (w, [Idle; Idle]) ∧
    od_get (todos w) "b" ≠ None ∧
    ∀ w', open_store 2 w = (w', Ok ()) → od_get (todos w') "b" = None.
Proof.
  exists (set_file (store_payload (todos w1_conc)) (set_file (store_payload (todos w2_conc)) w2_conc)).
  split_and!.
  - eapply rtc_l; [by apply (cs_call 2 3 0 (OpSetPlan "a" ["read"]) todo_empty w1_conc true [Idle; Idle])|].
    eapply rtc_l; [by apply (cs_snapshot 2 3 0)|].
    eapply rtc_l; [by eapply (cs_call 2 3 1 (OpSetPlan "b" ["write"]) w1_conc w2_conc true)|].
    eapply rtc_l; [by apply (cs_snapshot 2 3 1)|].
    eapply rtc_l; [by apply (cs_write 2 3 1)|].
    eapply rtc_l; [by apply (cs_write 2 3 0)|]. done.
  - vm_compute. done.
  - intros w' E. vm_compute in E. injection E as <-. vm_compute. reflexivity.
Qed.
