(* ===== verification/TaskPlan.v ===== *)
(** Task plans ([modules/task/plan.py]): the models with the validators that run
    before and after their fields are set, the check of the dependency graph, the
    signals that advance a plan and the assignment of steps; and the plan of a
    project checkpoint ([updated_checkpoint_task_plan] of
    [modules/task/project/checkpoints.py]).  A model that is refused is a
    [ValidationError] with the locations of its errors, in the order of the
    fields; a [model_copy] checks nothing. *)

From S2P Require Import Prelude PyValue PyText.
From Stdlib Require Import Ascii.

Local Open Scope Z_scope.

Definition TASK_PLAN_OUTPUT_SUMMARY_MAX_CHARS : nat := 240.
Definition TASK_PLAN_TOOL_FAMILIES : list string :=
  ["browser"; "code"; "exec"; "fetch"; "file"; "ip"; "location"; "search"; "skill"; "task";
   "time"; "utility"; "weather"; "web"].
Definition TaskPlanStatus : list string := ["active"; "completed"; "abandoned"].
Definition TaskPlanStepStatus : list string := ["pending"; "in_progress"; "completed"; "blocked"].
Definition TaskPlanDifficulty : list string := ["low"; "medium"; "high"].

Inductive plan_exn : Type :=
| ValidationError (locations : list string)
| PlanValueError (msg : string)
(** the fuel of the graph traversal was too small *)
| OutOfFuel.

(** ** Values *)

Definition _trimmed_non_empty (value : pyval) : string := str_or_blank value.
(** [s.rstrip()] *)
Definition py_rstrip (s : string) : string := drop_while_end latin1_is_space s.
Definition _bounded_output_summary (value : pyval) : string :=
  let text := _trimmed_non_empty value in
  if (String.length text <=? TASK_PLAN_OUTPUT_SUMMARY_MAX_CHARS)%nat then text
  else py_rstrip (String.substring 0 TASK_PLAN_OUTPUT_SUMMARY_MAX_CHARS text).
Definition _optional_text (value : pyval) : option string :=
  let text := _trimmed_non_empty value in if truthy text then Some text else None.

(** A field: its value, or its location when it is refused. *)
Definition field (A : Type) : Type := result string A.
Definition errors_of {A} (f : field A) : list string :=
  match f with Ok _ => [] | Raise loc => [loc] end.
(** [Field(min_length=1)] after [_strip_required_text] *)
Definition required_text (loc : string) (value : pyval) : field string :=
  let text := _trimmed_non_empty value in if truthy text then Ok text else Raise loc.
(** a [Literal] field *)
Definition literal (loc : string) (allowed : list string) (value : string) : field string :=
  if str_in value allowed then Ok value else Raise loc.

Definition _normalize_depends_on (value : pyval) : field (list string) :=
  match value with
  | PNone => Ok []
  | PList l => Ok (List.filter truthy (map _trimmed_non_empty l))
  | _ => Raise "depends_on"
  end.
Fixpoint collect_families (l : list pyval) (families : list string) : field (list string) :=
  match l with
  | [] => Ok families
  | item :: l' =>
      let family := _trimmed_non_empty item in
      if negb (truthy family) then collect_families l' families
      else if negb (str_in family TASK_PLAN_TOOL_FAMILIES) then Raise "tool_families"
      else collect_families l' (if str_in family families then families else families ++ [family])
  end.
Definition _normalize_tool_families (value : pyval) : field (list string) :=
  match value with
  | PNone => Ok []
  | PList l => collect_families l []
  | _ => Raise "tool_families"
  end.

(** ** Steps *)

Record TaskPlanStep := {
  step_id : string;
  description : string;
  step_status : string;
  estimated_difficulty : string;
  depends_on : list string;
  tool_families : list string;
  output_summary : string;
  blocker_type : option string;
  blocker_details : option string;
  assigned_participant_id : option string;
  worker_session_id : option string;
  continuation_packet_id : option string;
}.

Definition TaskPlanStep_new (sid descr : pyval) (status difficulty : string)
    (deps families summary btype bdetails participant worker packet : pyval)
    : result plan_exn TaskPlanStep :=
  let f_id := required_text "step_id" sid in
  let f_descr := required_text "description" descr in
  let f_status := literal "status" TaskPlanStepStatus status in
  let f_diff := literal "estimated_difficulty" TaskPlanDifficulty difficulty in
  let f_deps := _normalize_depends_on deps in
  let f_fam := _normalize_tool_families families in
  match f_id, f_descr, f_status, f_diff, f_deps, f_fam with
  | Ok i, Ok d, Ok s, Ok e, Ok ds, Ok fs =>
      Ok {| step_id := i; description := d; step_status := s; estimated_difficulty := e;
            depends_on := ds; tool_families := fs; output_summary := _bounded_output_summary summary;
            blocker_type := _optional_text btype; blocker_details := _optional_text bdetails;
            assigned_participant_id := _optional_text participant;
            worker_session_id := _optional_text worker;
            continuation_packet_id := _optional_text packet |}
  | _, _, _, _, _, _ =>
      Raise (ValidationError (errors_of f_id ++ errors_of f_descr ++ errors_of f_status
               ++ errors_of f_diff ++ errors_of f_deps ++ errors_of f_fam))
  end.

(** ** The dependency graph *)

Definition step_ids (steps : list TaskPlanStep) : list string := map step_id steps.
(** [len(step_ids) != len(set(step_ids))] *)
Definition has_duplicates (ids : list string) : bool :=
  negb (size (list_to_set ids : gset string) =? length ids)%nat.
(** The first unknown dependency, with its step. *)
Fixpoint unknown_dependency (known : gset string) (steps : list TaskPlanStep) : option (string * string) :=
  match steps with
  | [] => None
  | step :: rest =>
      match List.filter (λ d, negb (bool_decide (d ∈ known))) (depends_on step) with
      | d :: _ => Some (step_id step, d)
      | [] => unknown_dependency known rest
      end
  end.
(** [{step.step_id: step.depends_on for step in self.steps}] *)
Definition deps_by_step (steps : list TaskPlanStep) : gmap string (list string) :=
  foldl (λ m s, <[step_id s := depends_on s]> m) ∅ steps.

(** The sets [visiting] and [visited]. *)
Record Marks := { visiting : gset string; visited : gset string }.
Abbreviation VM A := (M Marks plan_exn A).

(** [for x in l: f(x)] *)
Fixpoint for_all (f : string → VM ()) (l : list string) : VM () :=
  match l with
  | [] => mret ()
  | x :: l' => _ ← f x; for_all f l'
  end.

Fixpoint visit (deps : gmap string (list string)) (fuel : nat) (sid : string) : VM () :=
  match fuel with
  | O => raise OutOfFuel
  | S fuel' =>
      marks ← get_world;
      if bool_decide (sid ∈ visited marks) then mret ()
      else if bool_decide (sid ∈ visiting marks)
      then raise (PlanValueError "TaskPlan dependencies must be acyclic")
      else
        _ ← modify (λ m, {| visiting := {[sid]} ∪ visiting m; visited := visited m |});
        _ ← for_all (visit deps fuel') (default [] (deps !! sid));
        modify (λ m, {| visiting := visiting m ∖ {[sid]}; visited := {[sid]} ∪ visited m |})
  end.

(** A path of the traversal visits each step once, hence the fuel. *)
Definition _validate_step_graph (steps : list TaskPlanStep) : result plan_exn () :=
  let ids := step_ids steps in
  if has_duplicates ids
  then Raise (PlanValueError "TaskPlan steps must have unique step_id values")
  else match unknown_dependency (list_to_set ids) steps with
  | Some (s, d) => Raise (PlanValueError ("TaskPlan step " +:+ repr_str s +:+
                            " depends on unknown step " +:+ repr_str d))
  | None => (for_all (visit (deps_by_step steps) (S (length steps))) ids
               {| visiting := ∅; visited := ∅ |}).2
  end.

(** ** Plans *)

Record TaskPlan := {
  plan_id : string;
  objective : string;
  workflow_id : option string;
  workflow_version_hash : option string;
  root_goal_id : option string;
  criterion_ids : list string;
  plan_status : string;
  steps : list TaskPlanStep;
  continue_plan_autonomously : bool;
}.

(** The validator of the graph runs when every field is valid. *)
Definition TaskPlan_new (pid obj wid whash goal : pyval) (criteria : list string) (status : string)
    (sts : list TaskPlanStep) (continue : bool) : result plan_exn TaskPlan :=
  let f_id := required_text "plan_id" pid in
  let f_obj := required_text "objective" obj in
  let f_status := literal "status" TaskPlanStatus status in
  let f_steps := match sts with [] => Raise "steps" | _ => Ok sts end : field (list TaskPlanStep) in
  match f_id, f_obj, f_status, f_steps with
  | Ok i, Ok o, Ok s, Ok l =>
      _ ← _validate_step_graph l;
      Ok {| plan_id := i; objective := o; workflow_id := _optional_text wid;
            workflow_version_hash := _optional_text whash; root_goal_id := _optional_text goal;
            criterion_ids := criteria; plan_status := s; steps := l;
            continue_plan_autonomously := continue |}
  | _, _, _, _ =>
      Raise (ValidationError (errors_of f_id ++ errors_of f_obj ++ errors_of f_status
               ++ errors_of f_steps))
  end.

(** ** Signals and assignments

    Their fields are taken as their own models left them. *)

Record TaskPlanStepCompleted := {
  sc_plan_id : string;
  sc_step_id : string;
  sc_outcome : string;
  sc_output_summary : string;
  sc_continue : bool;
}.
Record TaskPlanStepBlocked := {
  sb_plan_id : string;
  sb_step_id : string;
  sb_blocker_type : string;
  sb_blocker_details : string;
}.
Record TaskPlanTerminalSignal := { ts_plan_id : string; ts_reason : string }.
Record TaskPlanStepAssigned := {
  as_plan_id : string;
  as_step_id : string;
  as_participant_id : string;
  as_worker_session_id : string;
  as_continuation_packet_id : string;
}.

Definition has_step_id (sid : string) (s : TaskPlanStep) : bool := String.eqb (step_id s) sid.
Definition step_complete (signal : TaskPlanStepCompleted) (s : TaskPlanStep) : TaskPlanStep :=
  {| step_id := step_id s; description := description s; step_status := "completed";
     estimated_difficulty := estimated_difficulty s; depends_on := depends_on s;
     tool_families := tool_families s; output_summary := sc_output_summary signal;
     blocker_type := None; blocker_details := None;
     assigned_participant_id := assigned_participant_id s; worker_session_id := worker_session_id s;
     continuation_packet_id := continuation_packet_id s |}.
Definition step_block (signal : TaskPlanStepBlocked) (s : TaskPlanStep) : TaskPlanStep :=
  {| step_id := step_id s; description := description s; step_status := "blocked";
     estimated_difficulty := estimated_difficulty s; depends_on := depends_on s;
     tool_families := tool_families s; output_summary := output_summary s;
     blocker_type := Some (sb_blocker_type signal); blocker_details := Some (sb_blocker_details signal);
     assigned_participant_id := assigned_participant_id s; worker_session_id := worker_session_id s;
     continuation_packet_id := continuation_packet_id s |}.
Definition step_assign (a : TaskPlanStepAssigned) (s : TaskPlanStep) : TaskPlanStep :=
  {| step_id := step_id s; description := description s; step_status := step_status s;
     estimated_difficulty := estimated_difficulty s; depends_on := depends_on s;
     tool_families := tool_families s; output_summary := output_summary s;
     blocker_type := blocker_type s; blocker_details := blocker_details s;
     assigned_participant_id := Some (as_participant_id a);
     worker_session_id := Some (as_worker_session_id a);
     continuation_packet_id := Some (as_continuation_packet_id a) |}.
(** [plan.model_copy(update={"steps": ..., "status": ...})] *)
Definition plan_copy (sts : list TaskPlanStep) (status : string) (p : TaskPlan) : TaskPlan :=
  {| plan_id := plan_id p; objective := objective p; workflow_id := workflow_id p;
     workflow_version_hash := workflow_version_hash p; root_goal_id := root_goal_id p;
     criterion_ids := criterion_ids p; plan_status := status; steps := sts;
     continue_plan_autonomously := continue_plan_autonomously p |}.

(** One round of the loop over the step signals. *)
Definition signal_step (sid : string) (change : TaskPlanStep → TaskPlanStep) (sts : list TaskPlanStep)
    : result plan_exn (list TaskPlanStep) :=
  if negb (existsb (has_step_id sid) sts)
  then Raise (PlanValueError ("unknown task plan step: " +:+ sid))
  else Ok (update_where (has_step_id sid) change sts).

Record Signals := {
  sig_step_completed : option TaskPlanStepCompleted;
  sig_step_blocked : option TaskPlanStepBlocked;
  sig_abandoned : option TaskPlanTerminalSignal;
  sig_completed : option TaskPlanTerminalSignal;
}.
(** The plan ids of the signals that are given. *)
Definition signal_plan_ids (s : Signals) : list string :=
  omap id [sc_plan_id <$> sig_step_completed s; sb_plan_id <$> sig_step_blocked s;
           ts_plan_id <$> sig_abandoned s; ts_plan_id <$> sig_completed s].

Definition apply_task_plan_signals (plan : option TaskPlan) (s : Signals)
    : result plan_exn (option TaskPlan) :=
  match signal_plan_ids s with
  | [] => Ok plan
  | ids =>
      match plan with
      | None => Raise (PlanValueError "task plan progress requires a checkpoint task plan")
      | Some p =>
          if existsb (λ i, negb (String.eqb i (plan_id p))) ids
          then Raise (PlanValueError "task plan progress must match the checkpoint task plan")
          else
            s1 ← match sig_step_completed s with
                 | None => Ok (steps p)
                 | Some g => signal_step (sc_step_id g) (step_complete g) (steps p)
                 end;
            s2 ← match sig_step_blocked s with
                 | None => Ok s1
                 | Some g => signal_step (sb_step_id g) (step_block g) s1
                 end;
            let status := match sig_abandoned s with Some _ => "abandoned" | None => plan_status p end in
            match sig_completed s with
            | None => Ok (Some (plan_copy s2 status p))
            | Some _ =>
                if existsb (λ t, negb (String.eqb (step_status t) "completed")) s2
                then Raise (PlanValueError "task plan completion requires every step to be completed")
                else Ok (Some (plan_copy s2 "completed" p))
            end
      end
  end.

Definition completed_ids (sts : list TaskPlanStep) : list string :=
  map step_id (List.filter (λ s, String.eqb (step_status s) "completed") sts).

Definition apply_task_plan_assignment (p : TaskPlan) (a : TaskPlanStepAssigned)
    : result plan_exn TaskPlan :=
  if negb (String.eqb (as_plan_id a) (plan_id p))
  then Raise (PlanValueError "task plan assignment must match the active plan")
  else match List.filter (has_step_id (as_step_id a)) (steps p) with
  | [] => Raise (PlanValueError ("unknown task plan step: " +:+ as_step_id a))
  | selected :: _ =>
      if negb (String.eqb (step_status selected) "pending")
      then Raise (PlanValueError "task plan assignment requires a pending step")
      else if existsb (λ d, negb (str_in d (completed_ids (steps p)))) (depends_on selected)
      then Raise (PlanValueError "task plan assignment requires completed dependencies")
      else Ok (plan_copy (update_where (has_step_id (as_step_id a)) (step_assign a) (steps p))
                 (plan_status p) p)
  end.

(** ** Revisions *)

Record TaskPlanRevision := {
  rv_plan_id : string;
  rv_revision_id : option string;
  rv_predecessor_revision_id : option string;
  rv_criterion_ids : list string;
  rv_verifier_refs : list string;
  rv_reason : string;
  rv_revised_steps : list TaskPlanStep;
  rv_objective : option string;
  rv_workflow_id : option string;
  rv_workflow_version_hash : option string;
  rv_continue : bool;
}.

(** [a or b] for optional texts and for lists *)
Definition otext_or (a b : option string) : option string := if otruthy a then a else b.
Definition list_or (a b : list string) : list string := match a with [] => b | _ => a end.

Definition to_task_plan (r : TaskPlanRevision) (fallback_objective : string)
    (fallback_workflow_id fallback_workflow_version_hash : option string)
    (fallback_criterion_ids : list string) : result plan_exn TaskPlan :=
  TaskPlan_new (PStr (rv_plan_id r)) (PStr (str_or (rv_objective r) fallback_objective))
    (ostr_val (otext_or (rv_workflow_id r) fallback_workflow_id))
    (ostr_val (otext_or (rv_workflow_version_hash r) fallback_workflow_version_hash)) PNone
    (list_or (rv_criterion_ids r) fallback_criterion_ids) "active" (rv_revised_steps r) (rv_continue r).

(** [incoming.model_copy(update={"criterion_ids": incoming.criterion_ids or plan.criterion_ids})] *)
Definition revision_with_criteria (ids : list string) (r : TaskPlanRevision) : TaskPlanRevision :=
  {| rv_plan_id := rv_plan_id r; rv_revision_id := rv_revision_id r;
     rv_predecessor_revision_id := rv_predecessor_revision_id r;
     rv_criterion_ids := list_or (rv_criterion_ids r) ids; rv_verifier_refs := rv_verifier_refs r;
     rv_reason := rv_reason r; rv_revised_steps := rv_revised_steps r; rv_objective := rv_objective r;
     rv_workflow_id := rv_workflow_id r; rv_workflow_version_hash := rv_workflow_version_hash r;
     rv_continue := rv_continue r |}.

(** ** The plan of a project checkpoint *)

(** What [updated_checkpoint_task_plan] reads: of the checkpoint, the plan and
    revision that its payload holds ([TaskPlan.model_validate] has read them), the
    count, the flag [plan_revision_required] and the verifier references of the
    project run; of the turn, the plan, revisions and signals it produced. *)
Record PlanCheckpoint := {
  ck_plan : option TaskPlan;
  ck_revision : option TaskPlanRevision;
  ck_revision_count : Z;
  ck_revision_required : bool;
  ck_verifier_refs : list string;
}.
Record PlanTurn := {
  turn_plan : option TaskPlan;
  turn_revisions : list TaskPlanRevision;
  turn_revision : option TaskPlanRevision;
  turn_signals : Signals;
}.

Definition strs_eqb (a b : list string) : bool := bool_decide (a = b).

(** The guards of the loop over the incoming revisions. *)
Definition check_revision (ck : PlanCheckpoint) (plan : TaskPlan) (revision : option TaskPlanRevision)
    (incoming : TaskPlanRevision) : result plan_exn () :=
  if negb (String.eqb (rv_plan_id incoming) (plan_id plan))
  then Raise (PlanValueError "plan revision must match the checkpoint task plan")
  else if negb (otruthy (rv_revision_id incoming))
  then Raise (PlanValueError "plan revision requires revision_id")
  else if match rv_verifier_refs incoming with [] => true | _ => false end
          || existsb (λ r, negb (truthy (py_strip r))) (rv_verifier_refs incoming)
  then Raise (PlanValueError "plan revision requires verifier_refs")
  else if ck_revision_required ck
          && negb (forallb (λ r, str_in r (List.filter (λ v, py_endswith v ":failed")
                                             (ck_verifier_refs ck))) (rv_verifier_refs incoming))
  then Raise (PlanValueError "plan revision verifier_refs must match failed checkpoint verifiers")
  else if negb (strs_eqb (rv_criterion_ids incoming) [])
          && negb (strs_eqb (rv_criterion_ids incoming) (criterion_ids plan))
  then Raise (PlanValueError "plan revision cannot change criterion_ids")
  else match revision with
  | None =>
      if otruthy (rv_predecessor_revision_id incoming)
      then Raise (PlanValueError "first plan revision cannot name a predecessor")
      else Ok ()
  | Some r =>
      if ostr_eqb (rv_revision_id incoming) (rv_revision_id r)
      then Raise (PlanValueError "duplicate plan revision_id")
      else if negb (ostr_eqb (rv_predecessor_revision_id incoming) (rv_revision_id r))
      then Raise (PlanValueError "plan revision predecessor is stale or missing")
      else Ok ()
  end.

(** The loop, with the plan, the current revision and their count; [replan] says
    that the plan follows the revisions. *)
Fixpoint apply_revisions (ck : PlanCheckpoint) (replan : bool) (plan : option TaskPlan)
    (revision : option TaskPlanRevision) (count : Z) (incoming : list TaskPlanRevision)
    : result plan_exn (option TaskPlan * option TaskPlanRevision * Z) :=
  match incoming with
  | [] => Ok (plan, revision, count)
  | r :: rest =>
      match plan with
      | None => Raise (PlanValueError "plan revision must match the checkpoint task plan")
      | Some p =>
          _ ← check_revision ck p revision r;
          let r' := revision_with_criteria (criterion_ids p) r in
          p' ← (if replan then to_task_plan r' (objective p) (workflow_id p) (workflow_version_hash p)
                                 (criterion_ids p)
                else Ok p);
          apply_revisions ck replan (Some p') (Some r') (count + 1) rest
      end
  end.

Definition updated_checkpoint_task_plan (ck : PlanCheckpoint) (turn : PlanTurn)
    : result plan_exn (option TaskPlan * option TaskPlanRevision * Z) :=
  let s := turn_signals turn in
  if ck_revision_required ck && (is_some (sig_step_completed s) || is_some (sig_step_blocked s)
                                 || is_some (sig_abandoned s) || is_some (sig_completed s))
  then Raise (PlanValueError "revision-only turn cannot advance or complete plan steps")
  else
    '(plan, revision) ←
      match turn_plan turn with
      | None => Ok (ck_plan ck, ck_revision ck)
      | Some incoming =>
          if match ck_plan ck with
             | Some p => String.eqb (plan_id incoming) (plan_id p)
                         && negb (strs_eqb (criterion_ids incoming) (criterion_ids p))
             | None => false
             end
          then Raise (PlanValueError "task plan criterion_ids are immutable")
          else Ok (Some incoming,
                   match ck_revision ck with
                   | Some r => if String.eqb (rv_plan_id r) (plan_id incoming) then Some r else None
                   | None => None
                   end)
      end;
    let revisions := match turn_revisions turn with
                     | [] => match turn_revision turn with Some r => [r] | None => [] end
                     | l => l
                     end in
    let replan := negb (is_some (turn_plan turn)) || ck_revision_required ck in
    '(plan, revision, count) ←
      apply_revisions ck replan plan revision (ck_revision_count ck) revisions;
    plan ← apply_task_plan_signals plan s;
    Ok (plan, revision, count).
