(* ===== verification/TaskPlanProps.v ===== *)
(** Theorems about task plans: the check of the dependency graph accepts exactly
    the graphs without cycles and always ends; a plan that was accepted can be
    carried out; what signals, assignments and revisions leave alone. *)

From S2P Require Import Prelude PyValue PyText TaskPlan.
From stdpp Require Import relations.

(** The step [x] names [y] as a dependency. *)
Definition depends (sts : list TaskPlanStep) (x y : string) : Prop :=
  ∃ s, s ∈ sts ∧ step_id s = x ∧ y ∈ depends_on s.

(** ** Sets of identifiers *)

Lemma list_to_set_size_le (l : list string) : size (list_to_set l : gset string) ≤ length l.
Proof.
  induction l as [|x l IH]; simpl; [done|].
  rewrite size_union_alt, size_singleton.
  assert (size ((list_to_set l : gset string) ∖ {[x]}) ≤ size (list_to_set l : gset string))
    by (apply subseteq_size; set_solver). lia.
Qed.
Lemma has_duplicates_spec ids : has_duplicates ids = false ↔ NoDup ids.
Proof.
  unfold has_duplicates. rewrite negb_false_iff, Nat.eqb_eq. split; [|by apply size_list_to_set].
  induction ids as [|x ids IH]; simpl; intros H; [constructor|].
  pose proof (list_to_set_size_le ids) as Hle. destruct (decide (x ∈ ids)) as [Hx|Hx].
  - rewrite subseteq_union_1_L in H by set_solver. lia.
  - rewrite size_union, size_singleton in H by set_solver. constructor; [done|]. apply IH. lia.
Qed.

Lemma unknown_dependency_spec known sts :
  unknown_dependency known sts = None ↔ ∀ s d, s ∈ sts → d ∈ depends_on s → d ∈ known.
Proof.
  induction sts as [|s sts IH]; simpl; [split; [by intros _ s d Hs%elem_of_nil|done]|].
  destruct (List.filter _ _) as [|d ds] eqn:E.
  - rewrite IH. split.
    + intros H t d [->|Ht]%elem_of_cons Hd; [|eauto]. destruct (decide (d ∈ known)) as [?|Hn]; [done|].
      assert (d ∈ List.filter (λ d, negb (bool_decide (d ∈ known))) (depends_on s)) as Hin
        by (apply filter_elem; by rewrite bool_decide_eq_false_2).
      rewrite E in Hin. by apply elem_of_nil in Hin.
    + intros H t d Ht. apply H. by right.
  - split; [done|]. intros H. assert (d ∈ d :: ds) as Hd by left. rewrite <-E in Hd.
    apply filter_elem in Hd as [Hd Hn]. rewrite bool_decide_eq_true_2 in Hn; [done|].
    apply (H s); [left|done].
Qed.

Lemma unknown_dependency_found known sts s d :
  unknown_dependency known sts = Some (s, d) → depends sts s d ∧ d ∉ known.
Proof.
  induction sts as [|t sts IH]; simpl; [done|].
  destruct (List.filter _ _) as [|e es] eqn:E.
  - intros H. destruct (IH H) as [(u & Hu & Hid & Hd) Hn]. split; [|done]. exists u. split; [by right|done].
  - intros [= <- <-]. assert (e ∈ e :: es) as He by left. rewrite <-E in He.
    apply filter_elem in He as [He Hn]. split; [exists t; split; [left|done]|].
    by apply negb_true_iff, bool_decide_eq_false in Hn.
Qed.

(** ** The traversal *)

Lemma sn_no_cycle {A} (R : relation A) x : sn R x → ¬ tc R x x.
Proof.
  induction 1 as [x _ IH]. intros Hc. inversion Hc as [? ? H|? y ? H1 H2]; subst.
  - by apply (IH x).
  - apply (IH y H1). by apply (tc_r y x y).
Qed.

Definition acyclic_error : plan_exn := PlanValueError "TaskPlan dependencies must be acyclic".

Section Visit.
Variable deps : gmap string (list string).
(** [x] depends on [y] *)
Definition dep_edge (x y : string) : Prop := y ∈ default [] (deps !! x).
Variable known : gset string.
Hypothesis known_closed : ∀ x y, dep_edge x y → y ∈ known.

Definition marks_ok (m : Marks) : Prop := ∀ v, v ∈ visited m → sn dep_edge v.
(** What visiting [xs] from the marks [m] may give: every step of [xs] is visited
    and the path is as before, or there is a cycle. *)
Definition visit_result (m : Marks) (xs : list string) (r : Marks * result plan_exn ()) : Prop :=
  match r with
  | (m', Ok _) => visiting m' = visiting m ∧ visited m ⊆ visited m' ∧
                  (∀ x, x ∈ xs → x ∈ visited m') ∧ marks_ok m'
  | (_, Raise e) => e = acyclic_error ∧ ∃ x, tc dep_edge x x
  end.

Lemma for_all_result (f : string → VM ()) m xs :
  (∀ x m', x ∈ xs → visiting m' = visiting m → marks_ok m' → visit_result m' [x] (f x m')) →
  marks_ok m → visit_result m xs (for_all f xs m).
Proof.
  revert m. induction xs as [|x xs IH]; intros m Hf Hm; simpl.
  - split_and!; [done|done|by intros x Hx%elem_of_nil|done].
  - pose proof (Hf x m ltac:(left) eq_refl Hm) as Hx. unfold mbind, M_bind.
    destruct (f x m) as [m1 [[]|e]]; [|done]. destruct Hx as (Hv & Hs & Hxv & Hm1).
    assert (visit_result m1 xs (for_all f xs m1)) as H.
    { apply IH; [|done]. intros y m' Hy Hv' Hm'. apply Hf; [by right|congruence|done]. }
    destruct (for_all f xs m1) as [m2 [[]|e]]; [|done]. destruct H as (Hv2 & Hs2 & Hx2 & Hm2).
    split; [congruence|]. split; [by trans (visited m1)|]. split; [|done].
    intros y [->|Hy]%elem_of_cons; [apply Hs2, Hxv; by left|auto].
Qed.

Lemma visit_spec fuel sid m :
  sid ∈ known → size (known ∖ visiting m) < fuel → (∀ v, v ∈ visiting m → tc dep_edge v sid) →
  marks_ok m → visit_result m [sid] (visit deps fuel sid m).
Proof.
  revert sid m. induction fuel as [|fuel IH]; intros sid m Hk Hf Hp Hm; [lia|]. simpl.
  rewrite bind_get_world. case_bool_decide as Hd.
  { split_and!; [done|done|by intros x ->%list_elem_of_singleton|done]. }
  case_bool_decide as Hg; [split; [done|]; exists sid; auto|].
  rewrite (bind_of_Ok (modify _) _ m _ () eq_refl). set (m0 := {| visiting := _; visited := _ |}).
  assert (visit_result m0 (default [] (deps !! sid)) (for_all (visit deps fuel) (default [] (deps !! sid)) m0)) as H.
  { apply for_all_result; [|done]. intros x m' Hx Hv Hm'. apply IH; [by apply (known_closed sid)| |..|done].
    - rewrite Hv. unfold m0. simpl.
      assert (size (known ∖ ({[sid]} ∪ visiting m)) < size (known ∖ visiting m))
        by (apply subset_size; set_solver). lia.
    - rewrite Hv. unfold m0. simpl. intros v [->%elem_of_singleton|Hin]%elem_of_union;
        [by apply tc_once|by apply (tc_r v sid x); [auto|]]. }
  unfold mbind, M_bind. destruct (for_all _ _ m0) as [m1 [[]|e]]; [|done].
  destruct H as (Hv & Hs & Hx & Hm1). simpl. split.
  { rewrite Hv. unfold m0. simpl. clear -Hg. set_solver. }
  unfold m0 in Hs. simpl in Hs. split; [clear -Hs; set_solver|].
  split; [intros x ->%list_elem_of_singleton; by apply elem_of_union_l, elem_of_singleton|].
  intros v [->%elem_of_singleton|Hin]%elem_of_union; [|by apply Hm1].
  constructor. intros y Hy. by apply Hm1, Hx.
Qed.
End Visit.

(** ** The graph of a plan *)


Lemma deps_fold_other (m : gmap string (list string)) sts x : x ∉ step_ids sts → foldl (λ m s, <[step_id s := depends_on s]> m) m sts !! x = m !! x.
Proof.
  revert m. induction sts as [|s sts IH]; intros m Hx; simpl; [done|].
  apply not_elem_of_cons in Hx as [Hne Hx]. rewrite IH by done. by rewrite lookup_insert_ne.
Qed.
Lemma deps_by_step_lookup sts s : NoDup (step_ids sts) → s ∈ sts → deps_by_step sts !! step_id s = Some (depends_on s).
Proof.
  unfold deps_by_step. generalize (∅ : gmap string (list string)).
  induction sts as [|t sts IH]; intros m Hn Hs; [by apply elem_of_nil in Hs|]. simpl.
  apply NoDup_cons in Hn as [Hn1 Hn2]. apply elem_of_cons in Hs as [->|Hs]; [|by apply IH].
  rewrite deps_fold_other by done. by rewrite lookup_insert_eq.
Qed.
Lemma depends_edge sts x y :
  NoDup (step_ids sts) → dep_edge (deps_by_step sts) x y ↔ depends sts x y.
Proof.
  intros Hn. unfold dep_edge, depends. split.
  - destruct (decide (x ∈ step_ids sts)) as [Hx|Hx].
    + apply list_elem_of_In, in_map_iff in Hx as (s & <- & Hs%list_elem_of_In).
      rewrite deps_by_step_lookup by done. eauto.
    + unfold deps_by_step. rewrite deps_fold_other, lookup_empty by done. by intros ?%elem_of_nil.
  - intros (s & Hs & <- & Hy). by rewrite deps_by_step_lookup.
Qed.

(** What [_validate_step_graph] is meant to check. *)
Definition good_graph (sts : list TaskPlanStep) : Prop :=
  NoDup (step_ids sts) ∧ (∀ s d, s ∈ sts → d ∈ depends_on s → d ∈ step_ids sts) ∧
  ∀ x, ¬ tc (depends sts) x x.

Lemma tc_depends sts x y :
  NoDup (step_ids sts) → tc (dep_edge (deps_by_step sts)) x y ↔ tc (depends sts) x y.
Proof.
  intros Hn. split; induction 1 as [x y H|x y z H _ IH];
    [by apply tc_once, depends_edge|eapply tc_l; [|done]; by apply depends_edge
    |by apply tc_once, depends_edge|eapply tc_l; [|done]; by apply depends_edge].
Qed.

(** The outcome of the traversal: success makes every step well founded, and the
    only failure is a cycle. *)
Lemma traversal_outcome sts :
  NoDup (step_ids sts) → unknown_dependency (list_to_set (step_ids sts)) sts = None →
  let r := (for_all (visit (deps_by_step sts) (S (length sts))) (step_ids sts) {| visiting := ∅; visited := ∅ |}).2 in
  (r = Ok () ∧ ∀ x, sn (depends sts) x) ∨ (r = Raise acyclic_error ∧ ∃ x, tc (depends sts) x x).
Proof.
  intros Hn Hu. rewrite unknown_dependency_spec in Hu. set (deps := deps_by_step sts).
  set (known := list_to_set (step_ids sts) : gset string) in *.
  assert (∀ x y, dep_edge deps x y → y ∈ known) as Hk.
  { intros x y (s & Hs & _ & Hy)%depends_edge; [|done]. by apply (Hu s). }
  assert (∀ x, sn (dep_edge deps) x → sn (depends sts) x) as Hsn.
  { intros x. induction 1 as [x _ IH]. constructor. intros y Hy. apply IH. by apply depends_edge. }
  assert (visit_result deps {| visiting := ∅; visited := ∅ |} (step_ids sts)
            (for_all (visit deps (S (length sts))) (step_ids sts) {| visiting := ∅; visited := ∅ |})) as H.
  { apply for_all_result; [|by intros v Hv%elem_of_empty]. intros x m' Hx Hv Hm. apply (visit_spec deps known Hk);
      [by apply elem_of_list_to_set| |by rewrite Hv|done].
    rewrite Hv. simpl. replace (known ∖ ∅) with known by set_solver.
    pose proof (list_to_set_size_le (step_ids sts)) as Hl. unfold step_ids in Hl at 2. rewrite length_map in Hl.
    unfold known. lia. }
  simpl. destruct (for_all _ _ _) as [m' [[]|e]]; [left|right]; simpl.
  - destruct H as (_ & _ & Hv & Hm). split; [done|]. intros x. destruct (decide (x ∈ step_ids sts)) as [Hx|Hx].
    + by apply Hsn, Hm, Hv.
    + constructor. intros y (s & Hs & <- & _). destruct Hx. by apply list_elem_of_fmap_2.
  - destruct H as (-> & x & Hx). split; [done|]. exists x. by apply tc_depends.
Qed.

Lemma graph_check_iff sts : _validate_step_graph sts = Ok () ↔ good_graph sts.
Proof.
  unfold _validate_step_graph, good_graph. destruct (has_duplicates _) eqn:Ed.
  { split; [done|]. intros (H & _). apply has_duplicates_spec in H. congruence. }
  apply has_duplicates_spec in Ed.
  destruct (unknown_dependency _ _) as [[s d]|] eqn:Eu.
  { split; [done|]. intros (_ & H & _).
    assert (unknown_dependency (list_to_set (step_ids sts)) sts = None) as E
      by (apply unknown_dependency_spec; intros t e Ht He; apply elem_of_list_to_set; eauto).
    congruence. }
  destruct (traversal_outcome sts Ed Eu) as [[-> Hs]|[-> (x & Hx)]].
  - split; [|done]. intros _. split_and!; [done| |].
    + intros s d Hs' Hd. apply (elem_of_list_to_set (C:=gset string)).
      exact (proj1 (unknown_dependency_spec _ _) Eu s d Hs' Hd).
    + intros x. apply sn_no_cycle, Hs.
  - split; [done|]. intros (_ & _ & H). by destruct (H x).
Qed.

(** C32: the check of a plan's dependency graph always ends, and accepts exactly the
    lists of steps with distinct identifiers in which every dependency is a step and
    no step depends on itself, directly or through others; a refusal names the
    condition that fails. *)
Theorem step_graph_check_exact sts :
  match _validate_step_graph sts with
  | Ok _ => good_graph sts
  | Raise (PlanValueError msg) =>
      (msg = "TaskPlan steps must have unique step_id values" ∧ ¬ NoDup (step_ids sts)) ∨
      (∃ s d, depends sts s d ∧ (d ∉ step_ids sts) ∧
         msg = ("TaskPlan step " +:+ repr_str s +:+ " depends on unknown step " +:+ repr_str d)) ∨
      (msg = "TaskPlan dependencies must be acyclic" ∧ ∃ x, tc (depends sts) x x)
  | Raise _ => False
  end.
Proof.
  destruct (_validate_step_graph sts) as [[]|e] eqn:E; [by apply graph_check_iff|].
  unfold _validate_step_graph in E. destruct (has_duplicates _) eqn:Ed.
  { injection E as <-. left. split; [done|]. intros H. apply has_duplicates_spec in H. congruence. }
  apply has_duplicates_spec in Ed. destruct (unknown_dependency _ _) as [[s d]|] eqn:Eu.
  { injection E as <-. right. left. exists s, d. apply unknown_dependency_found in Eu as [? Hd].
    split; [done|]. split; [|done]. intros Hin. by apply Hd, elem_of_list_to_set. }
  destruct (traversal_outcome sts Ed Eu) as [[E' _]|[E' Hx]]; [congruence|].
  rewrite E' in E. injection E as <-. right. by right.
Qed.

(** ** Progress *)

(** The part of the steps that the graph is made of. *)
Definition shape (sts : list TaskPlanStep) : list (string * list string) :=
  map (λ s, (step_id s, depends_on s)) sts.
Lemma shape_ids sts : step_ids sts = map fst (shape sts).
Proof. unfold step_ids, shape. by rewrite map_map. Qed.
Lemma shape_elem sts x ds : (x, ds) ∈ shape sts ↔ ∃ s, s ∈ sts ∧ step_id s = x ∧ depends_on s = ds.
Proof.
  unfold shape. rewrite list_elem_of_In, in_map_iff. setoid_rewrite list_elem_of_In. naive_solver.
Qed.
Lemma good_graph_shape sts sts' : shape sts' = shape sts → good_graph sts → good_graph sts'.
Proof.
  intros E (Hn & Hd & Hc). assert (step_ids sts' = step_ids sts) as Ei by (rewrite !shape_ids; congruence).
  assert (∀ x y, depends sts' x y → depends sts x y) as Hdep.
  { intros x y (s & Hs & <- & Hy). assert ((step_id s, depends_on s) ∈ shape sts) as H
      by (rewrite <-E; apply shape_elem; eauto).
    apply shape_elem in H as (t & Ht & Hid & Hds). exists t. rewrite Hds. done. }
  unfold good_graph. rewrite Ei. split_and!; [done| |].
  - intros s d Hs Hy. destruct (Hdep (step_id s) d) as (t & Ht & _ & Hin); [by exists s|]. by apply (Hd t).
  - intros x Hx. apply (Hc x). revert Hx. generalize x at 2 4. intros y. induction 1; [by apply tc_once, Hdep|].
    eapply tc_l; [by apply Hdep|done].
Qed.

Inductive plan_progress : TaskPlan → TaskPlan → Prop :=
| progress_signals p p' s : apply_task_plan_signals (Some p) s = Ok (Some p') → plan_progress p p'
| progress_assignment p p' a : apply_task_plan_assignment p a = Ok p' → plan_progress p p'.

Lemma signal_step_shape sid f sts sts' :
  (∀ s, step_id (f s) = step_id s ∧ depends_on (f s) = depends_on s) →
  signal_step sid f sts = Ok sts' → shape sts' = shape sts.
Proof.
  intros Hf. unfold signal_step. destruct (negb _); [done|]. intros [= <-]. apply update_where_map.
  intros s. destruct (Hf s). congruence.
Qed.
(** The steps after a signal, without its checks. *)
Lemma signals_steps p s p' :
  apply_task_plan_signals (Some p) s = Ok (Some p') →
  shape (steps p') = shape (steps p) ∧ plan_id p' = plan_id p ∧ criterion_ids p' = criterion_ids p.
Proof.
  unfold apply_task_plan_signals. destruct (signal_plan_ids s); [by intros [= ->]|].
  destruct (existsb _ _); [done|]. unfold mbind, result_bind.
  destruct (match sig_step_completed s with Some _ => _ | None => _ end) as [s1|] eqn:E1; [|done].
  destruct (match sig_step_blocked s with Some _ => _ | None => _ end) as [s2|] eqn:E2; [|done].
  intros H. assert (shape s2 = shape (steps p)) as Hs.
  { trans (shape s1).
    - destruct (sig_step_blocked s); [|by injection E2 as ->]. revert E2. by apply signal_step_shape.
    - destruct (sig_step_completed s); [|by injection E1 as ->]. revert E1. by apply signal_step_shape. }
  destruct (sig_completed s); [destruct (existsb _ s2); [done|]|]; by injection H as <-.
Qed.
Lemma assignment_steps p a p' :
  apply_task_plan_assignment p a = Ok p' →
  shape (steps p') = shape (steps p) ∧ plan_id p' = plan_id p ∧ criterion_ids p' = criterion_ids p.
Proof.
  unfold apply_task_plan_assignment. destruct (negb _); [done|]. destruct (List.filter _ _); [done|].
  destruct (negb _); [done|]. destruct (existsb _ _); [done|]. intros [= <-]. split; [|done].
  by apply update_where_map.
Qed.
Lemma progress_shape p p' :
  rtc plan_progress p p' →
  shape (steps p') = shape (steps p) ∧ plan_id p' = plan_id p ∧ criterion_ids p' = criterion_ids p.
Proof.
  induction 1 as [p|p p1 p' H _ (IH1 & IH2 & IH3)]; [done|].
  destruct H as [p p1 s H|p p1 a H];
    [apply signals_steps in H as (H1 & H2 & H3)|apply assignment_steps in H as (H1 & H2 & H3)];
    split_and!; congruence.
Qed.

Lemma TaskPlan_new_graph pid obj wid whash goal crit status sts c p :
  TaskPlan_new pid obj wid whash goal crit status sts c = Ok p →
  steps p = sts ∧ plan_status p = status ∧ _validate_step_graph sts = Ok ().
Proof.
  unfold TaskPlan_new. destruct (required_text _ pid); [|done]. destruct (required_text _ obj); [|done].
  unfold literal. destruct (str_in _ _); [|done]. destruct sts as [|s sts]; [done|].
  unfold mbind, result_bind. destruct (_validate_step_graph _) as [[]|]; [|done]. by intros [= <-].
Qed.

(** Whatever signals and assignments a validated plan goes through, its
    dependency graph stays the validated one, and so do its identity and its
    criteria; the copies that skip the validators cannot break it. *)
Theorem progress_keeps_plan pid obj wid whash goal crit status sts c p p' :
  TaskPlan_new pid obj wid whash goal crit status sts c = Ok p → rtc plan_progress p p' →
  _validate_step_graph (steps p') = Ok () ∧ shape (steps p') = shape sts ∧
  plan_id p' = plan_id p ∧ criterion_ids p' = criterion_ids p.
Proof.
  intros Hp Hr. apply TaskPlan_new_graph in Hp as (<- & _ & Hg).
  destruct (progress_shape p p' Hr) as (Hs & Hi & Hc). split_and!; [|done..].
  apply graph_check_iff. apply graph_check_iff in Hg. by eapply good_graph_shape.
Qed.

(** ** Carrying a plan out *)

Lemma good_graph_sn sts : good_graph sts → ∀ x, sn (depends sts) x.
Proof.
  intros (Hn & Hd & Hc). assert (unknown_dependency (list_to_set (step_ids sts)) sts = None) as Hu.
  { apply unknown_dependency_spec. intros s d Hs Hy. apply elem_of_list_to_set. eauto. }
  destruct (traversal_outcome sts Hn Hu) as [[_ H]|[_ (x & Hx)]]; [done|by destruct (Hc x)].
Qed.

Definition is_completed (s : TaskPlanStep) : bool := String.eqb (step_status s) "completed".
Definition ready (sts : list TaskPlanStep) (s : TaskPlanStep) : Prop :=
  s ∈ sts ∧ step_status s = "pending" ∧ ∀ d, d ∈ depends_on s → d ∈ completed_ids sts.

(** In a graph without cycles some step that is not completed waits for none. *)
Lemma ready_step_exists sts s :
  good_graph sts → (∀ t, t ∈ sts → step_status t = "pending" ∨ is_completed t = true) →
  s ∈ sts → is_completed s = false → ∃ t, ready sts t.
Proof.
  intros Hg Hst. pose proof (good_graph_sn sts Hg (step_id s)) as Hsn. destruct Hg as (Hn & Hd & _).
  remember (step_id s) as x eqn:Ex. revert s Ex. induction Hsn as [x _ IH]. intros s -> Hs Hc.
  destruct (existsb (λ d, negb (str_in d (completed_ids sts))) (depends_on s)) eqn:E.
  - apply existsb_exists in E as (d & Hdin%list_elem_of_In & Hnc). apply negb_true_iff, str_in_elem_false in Hnc.
    specialize (Hd s d Hs Hdin). apply list_elem_of_In, in_map_iff in Hd as (t & <- & Ht%list_elem_of_In).
    apply (IH (step_id t)) with t; [by exists s|done|done|]. destruct (is_completed t) eqn:Et; [|done].
    destruct Hnc. unfold completed_ids. apply list_elem_of_In, in_map_iff. exists t. split; [done|].
    by apply list_elem_of_In, filter_elem.
  - exists s. split; [done|]. split; [destruct (Hst s Hs); congruence|]. intros d Hdin.
    destruct (str_in d (completed_ids sts)) eqn:Ed; [by apply str_in_elem|].
    assert (existsb (λ d, negb (str_in d (completed_ids sts))) (depends_on s) = true); [|congruence].
    apply existsb_exists. exists d. rewrite Ed. split; [by apply list_elem_of_In|done].
Qed.

Lemma same_id_same_step sts s t :
  NoDup (step_ids sts) → s ∈ sts → t ∈ sts → step_id s = step_id t → s = t.
Proof.
  intros Hn Hs Ht E. apply list_elem_of_lookup in Hs as [i Hi]. apply list_elem_of_lookup in Ht as [j Hj].
  assert (i = j) as ->; [|congruence]. apply (NoDup_lookup _ i j (step_id s) Hn); unfold step_ids;
    rewrite list_lookup_fmap; [by rewrite Hi|by rewrite Hj, E].
Qed.

(** A ready step can be assigned to anyone. *)
Lemma ready_assignable p s a :
  NoDup (step_ids (steps p)) → ready (steps p) s → as_plan_id a = plan_id p → as_step_id a = step_id s →
  apply_task_plan_assignment p a =
  Ok (plan_copy (update_where (has_step_id (step_id s)) (step_assign a) (steps p)) (plan_status p) p).
Proof.
  intros Hn (Hs & Hp & Hd) Ep Es. unfold apply_task_plan_assignment. rewrite Ep, Es, String.eqb_refl. simpl.
  destruct (List.filter (has_step_id (step_id s)) (steps p)) as [|t ts] eqn:E.
  - assert (s ∈ List.filter (has_step_id (step_id s)) (steps p)) as H
      by (apply filter_elem; split; [done|apply String.eqb_refl]).
    rewrite E in H. by apply elem_of_nil in H.
  - assert (t ∈ t :: ts) as Ht by left. rewrite <-E in Ht. apply filter_elem in Ht as [Ht Hid%String.eqb_eq].
    rewrite (same_id_same_step (steps p) t s) by done. rewrite Hp. simpl.
    destruct (existsb _ _) eqn:Ee; [|done]. apply existsb_exists in Ee as (d & Hin%list_elem_of_In & Hnd).
    apply negb_true_iff, str_in_elem_false in Hnd. by destruct Hnd; apply Hd.
Qed.

(** A worker takes a step and reports it as completed. *)
Inductive work : TaskPlan → TaskPlan → Prop :=
| work_step p p1 p2 a g :
    apply_task_plan_assignment p a = Ok p1 → sc_step_id g = as_step_id a →
    apply_task_plan_signals (Some p1) {| sig_step_completed := Some g; sig_step_blocked := None;
      sig_abandoned := None; sig_completed := None |} = Ok (Some p2) → work p p2.

Definition open_steps (sts : list TaskPlanStep) : nat := count_where (λ s, negb (is_completed s)) sts.

Lemma open_steps_update sts s f :
  NoDup (step_ids sts) → s ∈ sts → is_completed s = false → (∀ t, is_completed (f t) = true) →
  open_steps sts = S (open_steps (update_where (has_step_id (step_id s)) f sts)).
Proof.
  intros Hn Hs Hc Hf. unfold open_steps, count_where. induction sts as [|t sts IH]; [by apply elem_of_nil in Hs|].
  apply NoDup_cons in Hn as [Hn1 Hn2]. simpl. apply elem_of_cons in Hs as [->|Hs].
  - unfold has_step_id at 1. rewrite String.eqb_refl, Hc, Hf. simpl. f_equal. f_equal.
    rewrite update_where_id; [done|]. intros u Hu. apply String.eqb_neq. intros E. destruct Hn1. rewrite <-E.
    by apply list_elem_of_fmap_2.
  - assert (has_step_id (step_id s) t = false) as ->.
    { apply String.eqb_neq. intros E. destruct Hn1. rewrite E. by apply list_elem_of_fmap_2. }
    specialize (IH Hn2 Hs). destruct (negb (is_completed t)); simpl; rewrite IH; done.
Qed.

Definition startable (p : TaskPlan) : Prop :=
  good_graph (steps p) ∧ ∀ t, t ∈ steps p → step_status t = "pending" ∨ is_completed t = true.

Lemma existsb_step_true sts s : s ∈ sts → existsb (has_step_id (step_id s)) sts = true.
Proof.
  intros Hs. apply existsb_exists. exists s. split; [by apply list_elem_of_In|apply String.eqb_refl].
Qed.

Lemma one_work p n : startable p → open_steps (steps p) = S n → ∃ p', work p p' ∧ startable p' ∧ open_steps (steps p') = n.
Proof.
  intros [Hg Hst] Hn. assert (∃ s, s ∈ steps p ∧ is_completed s = false) as (s0 & Hs0 & Hc0).
  { unfold open_steps, count_where in Hn. destruct (List.filter _ _) as [|s l] eqn:E; [done|]. exists s.
    assert (s ∈ s :: l) as H by left. rewrite <-E in H. apply filter_elem in H as [? ?%negb_true_iff]. done. }
  destruct (ready_step_exists _ s0 Hg Hst Hs0 Hc0) as (s & Hr). destruct Hg as (Hnd & Hd & Hcy).
  set (a := {| as_plan_id := plan_id p; as_step_id := step_id s; as_participant_id := "w";
    as_worker_session_id := "w"; as_continuation_packet_id := "w" |}).
  set (g := {| sc_plan_id := plan_id p; sc_step_id := step_id s; sc_outcome := ""; sc_output_summary := "";
    sc_continue := false |}).
  pose proof (ready_assignable p s a Hnd Hr eq_refl eq_refl) as Ea. destruct Hr as (Hs & Hp & _).
  set (s1 := update_where (has_step_id (step_id s)) (step_assign a) (steps p)) in Ea.
  set (s2 := update_where (has_step_id (step_id s)) (step_complete g) s1).
  assert (s2 = update_where (has_step_id (step_id s)) (λ t, step_complete g (step_assign a t)) (steps p)) as E2.
  { unfold s2, s1, update_where. rewrite map_map. apply map_ext. intros t.
    destruct (has_step_id (step_id s) t) eqn:E; [|by rewrite E]. change (has_step_id (step_id s) (step_assign a t))
      with (has_step_id (step_id s) t). by rewrite E. }
  assert (existsb (has_step_id (step_id s)) s1 = true) as Ex.
  { assert (step_id (step_assign a s) = step_id s) as <- by done. apply existsb_step_true.
    apply update_where_elem. exists s. split; [done|]. left. split; [apply String.eqb_refl|done]. }
  exists (plan_copy s2 (plan_status p) p). split.
  { eapply (work_step p _ _ a g Ea); [done|]. unfold apply_task_plan_signals. simpl.
    rewrite String.eqb_refl. simpl. unfold mbind, result_bind, signal_step. by rewrite Ex. }
  assert (shape s2 = shape (steps p)) as Hsh by (rewrite E2; by apply update_where_map).
  simpl. split; [split|].
  - by apply (good_graph_shape (steps p)).
  - intros t Ht. change (t ∈ s2) in Ht. rewrite E2, update_where_elem in Ht.
    destruct Ht as (u & Hu & [[_ ->]|[_ ->]]); [by right|auto].
  - rewrite E2. assert (is_completed s = false) as Hc by (unfold is_completed; by rewrite Hp).
    rewrite (open_steps_update (steps p) s (λ t, step_complete g (step_assign a t)) Hnd Hs Hc) in Hn by done. lia.
Qed.

Lemma work_plan_id p p' : work p p' → plan_id p' = plan_id p.
Proof.
  destruct 1 as [p p1 p2 a g Ha _ Hg]. apply assignment_steps in Ha as (_ & H1 & _).
  apply signals_steps in Hg as (_ & H2 & _). congruence.
Qed.
Lemma all_work n p : startable p → open_steps (steps p) = n →
  ∃ p1, nsteps work n p p1 ∧ plan_id p1 = plan_id p ∧ open_steps (steps p1) = 0.
Proof.
  revert p. induction n as [|n IH]; intros p Hs Hn; [exists p; by split_and!; [constructor|..]|].
  destruct (one_work p n Hs Hn) as (p' & Hw & Hs' & Hn'). destruct (IH p' Hs' Hn') as (p1 & Hw1 & Hid & Ho).
  exists p1. split; [by econstructor|]. split; [|done]. rewrite Hid. by apply work_plan_id.
Qed.
Lemma completion_accepted p : open_steps (steps p) = 0 →
  ∃ p', apply_task_plan_signals (Some p) {| sig_step_completed := None; sig_step_blocked := None;
      sig_abandoned := None; sig_completed := Some {| ts_plan_id := plan_id p; ts_reason := "" |} |}
      = Ok (Some p') ∧ plan_status p' = "completed" ∧ Forall (λ t, step_status t = "completed") (steps p').
Proof.
  intros Ho. assert (Forall (λ t, step_status t = "completed") (steps p)) as Hf.
  { apply Forall_forall. intros t Ht. apply String.eqb_eq. destruct (is_completed t) eqn:E; [done|].
    assert (0 < open_steps (steps p)); [|lia]. eapply count_where_pos; [done|]. by rewrite E. }
  exists (plan_copy (steps p) "completed" p). split; [|done].
  unfold apply_task_plan_signals. simpl. rewrite String.eqb_refl. simpl.
  destruct (existsb _ (steps p)) eqn:E; [|done]. apply existsb_exists in E as (t & Ht%list_elem_of_In & Hn).
  rewrite Forall_forall in Hf. by rewrite (Hf t Ht), String.eqb_refl in Hn.
Qed.

(** A validated plan whose steps are pending or completed never gets stuck:
    taking a ready step and completing it can be repeated as many times as there
    are open steps, and then the plan is accepted as completed. *)
Theorem validated_plan_completes pid obj wid whash goal crit status sts c p :
  TaskPlan_new pid obj wid whash goal crit status sts c = Ok p →
  (∀ t, t ∈ sts → step_status t = "pending" ∨ step_status t = "completed") →
  ∃ p1 p2, nsteps work (open_steps sts) p p1 ∧
    apply_task_plan_signals (Some p1) {| sig_step_completed := None; sig_step_blocked := None;
      sig_abandoned := None; sig_completed := Some {| ts_plan_id := plan_id p; ts_reason := "" |} |}
      = Ok (Some p2) ∧
    plan_status p2 = "completed" ∧ Forall (λ t, step_status t = "completed") (steps p2).
Proof.
  intros Hp Hst. apply TaskPlan_new_graph in Hp as (<- & _ & Hg). apply graph_check_iff in Hg.
  assert (startable p) as Hs.
  { split; [done|]. intros t Ht. destruct (Hst t Ht) as [?|E]; [by left|right]. unfold is_completed. by rewrite E. }
  destruct (all_work (open_steps (steps p)) p Hs eq_refl) as (p1 & Hw & Hid & Ho). exists p1.
  rewrite <-Hid. destruct (completion_accepted p1 Ho) as (p2 & E & Hc & Hf). by exists p2.
Qed.

(** ** Revisions *)

Lemma required_text_strip loc v s : required_text loc v = Ok s → s = _trimmed_non_empty v.
Proof. unfold required_text. destruct (truthy _); [by intros [= <-]|done]. Qed.

Lemma list_or_same a b : a = [] ∨ a = b → list_or a b = b.
Proof. by intros [->| ->]; destruct b. Qed.

(** Guards that a revision has passed. *)
Lemma check_revision_ok ck p rev r :
  check_revision ck p rev r = Ok () →
  rv_plan_id r = plan_id p ∧ (rv_criterion_ids r = [] ∨ rv_criterion_ids r = criterion_ids p) ∧
  match rev with
  | None => otruthy (rv_predecessor_revision_id r) = false
  | Some r0 => rv_predecessor_revision_id r = rv_revision_id r0 ∧ rv_revision_id r ≠ rv_revision_id r0
  end.
Proof.
  unfold check_revision. destruct (negb (String.eqb _ _)) eqn:E1; [done|].
  destruct (negb (otruthy _)); [done|]. destruct (_ || _); [done|]. destruct (_ && _); [done|].
  destruct (_ && _) eqn:E2; [done|]. intros H. apply negb_false_iff, String.eqb_eq in E1. split; [done|]. split.
  - apply andb_false_iff in E2 as [E2|E2]; apply negb_false_iff, bool_decide_eq_true in E2; auto.
  - revert H. destruct rev as [r0|]; [|by destruct (otruthy _)]. destruct (ostr_eqb _ _) eqn:E3; [done|].
    destruct (negb (ostr_eqb _ _)) eqn:E4; [done|]. intros _. apply negb_false_iff, ostr_eqb_eq in E4. split; [done|].
    intros E. rewrite E in E3. by rewrite (proj2 (ostr_eqb_eq _ _) eq_refl) in E3.
Qed.

Lemma to_task_plan_ids r obj wid whash ids p :
  to_task_plan r obj wid whash ids = Ok p →
  plan_id p = py_strip (rv_plan_id r) ∧ criterion_ids p = list_or (rv_criterion_ids r) ids.
Proof.
  unfold to_task_plan, TaskPlan_new. destruct (required_text "plan_id" _) as [i|] eqn:E; [|done].
  destruct (required_text "objective" _); [|done]. unfold literal. simpl. destruct (rv_revised_steps r); [done|].
  unfold mbind, result_bind. destruct (_validate_step_graph _) as [[]|]; [|done]. intros [= <-]. simpl.
  split; [|done]. apply required_text_strip in E as ->. apply str_or_blank_str.
Qed.

(** Links of the chain of revisions that starts at [rev]. *)
Fixpoint revision_chain (rev : option TaskPlanRevision) (l : list TaskPlanRevision) : Prop :=
  match l with
  | [] => True
  | r :: l' =>
      match rev with
      | None => otruthy (rv_predecessor_revision_id r) = false
      | Some r0 => rv_predecessor_revision_id r = rv_revision_id r0 ∧ rv_revision_id r ≠ rv_revision_id r0
      end ∧ revision_chain (Some r) l'
  end.
Lemma revision_chain_head r r' l :
  rv_revision_id r = rv_revision_id r' → revision_chain (Some r) l → revision_chain (Some r') l.
Proof. destruct l as [|s l]; simpl; [done|]. by intros ->. Qed.

Lemma apply_revisions_spec ck replan p rev n l plan' rev' n' :
  apply_revisions ck replan (Some p) rev n l = Ok (plan', rev', n') → py_strip (plan_id p) = plan_id p →
  revision_chain rev l ∧ n' = (n + Z.of_nat (length l))%Z ∧
  ∃ p', plan' = Some p' ∧ plan_id p' = plan_id p ∧ criterion_ids p' = criterion_ids p.
Proof.
  revert p rev n. induction l as [|r l IH]; intros p rev n H Hid; simpl in H.
  { injection H as <- <- <-. split; [done|]. split; [simpl; lia|by exists p]. }
  unfold mbind, result_bind in H. destruct (check_revision ck p rev r) as [[]|] eqn:Ec; [|done].
  apply check_revision_ok in Ec as (Ep & Ecr & Hc).
  destruct (if replan then _ else _) as [p1|] eqn:E1; [|done].
  assert (plan_id p1 = plan_id p ∧ criterion_ids p1 = criterion_ids p) as [Hi Hcr].
  { destruct replan; [|by injection E1 as ->]. apply to_task_plan_ids in E1 as [-> ->]. simpl. rewrite Ep. split; [done|].
    rewrite (list_or_same (rv_criterion_ids r)) by done. apply list_or_same. by right. }
  apply IH in H as (Hch & -> & p' & -> & Hi' & Hcr'); [|congruence]. split; [split; [done|]|].
  - by eapply revision_chain_head; [|exact Hch].
  - split; [simpl; lia|]. exists p'. split_and!; congruence.
Qed.

Lemma signals_keep plan s plan' p' :
  apply_task_plan_signals plan s = Ok plan' → plan' = Some p' →
  ∃ p, plan = Some p ∧ plan_id p' = plan_id p ∧ criterion_ids p' = criterion_ids p.
Proof.
  intros H ->. destruct plan as [p|].
  - apply signals_steps in H as (_ & ? & ?). by exists p.
  - unfold apply_task_plan_signals in H. by destruct (signal_plan_ids s).
Qed.
Definition incoming_revisions (turn : PlanTurn) : list TaskPlanRevision :=
  match turn_revisions turn with
  | [] => match turn_revision turn with Some r => [r] | None => [] end
  | l => l
  end.

(** A turn of a project cannot change what its plan is judged by: as long as
    the plan is the same, its criteria are, through replacement, revisions and
    signals; and the revisions it hands in are counted and form a chain in which
    each names the one before. *)
Theorem plan_criteria_immutable ck turn p p' rev n :
  ck_plan ck = Some p → py_strip (plan_id p) = plan_id p →
  (∀ q, turn_plan turn = Some q → py_strip (plan_id q) = plan_id q) →
  updated_checkpoint_task_plan ck turn = Ok (Some p', rev, n) →
  n = (ck_revision_count ck + Z.of_nat (length (incoming_revisions turn)))%Z ∧
  (plan_id p' = plan_id p → criterion_ids p' = criterion_ids p) ∧
  ∃ start, revision_chain start (incoming_revisions turn).
Proof.
  intros Hck Hp Hq. unfold updated_checkpoint_task_plan. fold (incoming_revisions turn).
  destruct (_ && _); [done|]. unfold mbind, result_bind.
  destruct (match turn_plan turn with Some _ => _ | None => _ end) as [[plan r0]|] eqn:E1; [|done].
  assert (∃ q, plan = Some q ∧ py_strip (plan_id q) = plan_id q ∧
            (plan_id q = plan_id p → criterion_ids q = criterion_ids p)) as (q & -> & Hqs & Hqc).
  { destruct (turn_plan turn) as [q|]; rewrite Hck in E1; [|injection E1 as <- <-; by exists p].
    destruct (_ && _) eqn:Eb; [done|]. injection E1 as <- _. exists q. split; [done|]. split; [by apply Hq|].
    intros E. rewrite E, String.eqb_refl in Eb. by apply negb_false_iff, bool_decide_eq_true in Eb. }
  destruct (apply_revisions _ _ _ _ _ _) as [[[plan2 r2] n2]|] eqn:E2; [|done].
  apply apply_revisions_spec in E2 as (Hch & -> & p2 & -> & Hi2 & Hc2); [|done].
  destruct (apply_task_plan_signals _ _) as [pl|] eqn:E3; [|done]. intros [= -> <- <-].
  destruct (signals_keep _ _ _ p' E3 eq_refl) as (p3 & [= <-] & Hi3 & Hc3). split; [done|]. split; [|by eexists].
  intros E. rewrite Hc3, Hc2. apply Hqc. congruence.
Qed.

(** A turn that may only revise the plan can still hand in a whole plan of its
    own, with steps that are completed already. *)
Theorem revision_only_turn_replaces ck q :
  ck_revision_required ck = true → ck_plan ck = None ∨ ck_plan ck = Some q ∨
    (∃ p, ck_plan ck = Some p ∧ criterion_ids q = criterion_ids p) →
  ∃ rev, updated_checkpoint_task_plan ck {| turn_plan := Some q; turn_revisions := []; turn_revision := None;
    turn_signals := {| sig_step_completed := None; sig_step_blocked := None; sig_abandoned := None;
                       sig_completed := None |} |} = Ok (Some q, rev, ck_revision_count ck).
Proof.
  intros Hr Hp. unfold updated_checkpoint_task_plan. rewrite Hr. simpl. unfold mbind, result_bind.
  assert (match ck_plan ck with Some p => String.eqb (plan_id q) (plan_id p) && negb (strs_eqb (criterion_ids q) (criterion_ids p))
    | None => false end = false) as ->; [|by eexists].
  destruct Hp as [->|[->|(p & -> & E)]]; [done|..]; unfold strs_eqb; rewrite bool_decide_eq_true_2 by done;
    simpl; by rewrite andb_false_r.
Qed.
