(* ===== verification/TaskLife.v ===== *)
(** The lifecycle repository of tasks ([modules/task/runtime/lifecycle_models.py],
    [lifecycle_repository.py] and [lifecycle_checkpoints.py]): task records and
    their states, checkpoints, and the claims under which one worker at a time
    runs a cycle of a project.  A JSON column holds the value its text encodes.
    An operation is one step here; where the code reads before its transaction
    begins, the reading and the writing part are definitions of their own. *)

From S2P Require Import Prelude PyValue Timestamps PyText Schedule CronTables CronStore.
From Stdlib Require Import Ascii.

Local Open Scope Z_scope.

(** ** Models *)

Inductive TaskLifecycleState : Type := ACTIVE | PAUSED | CANCELLED | DONE | FAILED.
#[export] Instance TaskLifecycleState_eq : EqDecision TaskLifecycleState.
Proof. solve_decision. Defined.

Definition state_value (s : TaskLifecycleState) : string :=
  match s with
  | ACTIVE => "active" | PAUSED => "paused" | CANCELLED => "cancelled" | DONE => "done" | FAILED => "failed"
  end.
Definition ALL_TASK_STATES : list TaskLifecycleState := [ACTIVE; PAUSED; CANCELLED; DONE; FAILED].
Definition _TERMINAL_TASK_STATES : list TaskLifecycleState := [CANCELLED; DONE; FAILED].
Definition _ALLOWED_STATE_TRANSITIONS (s : TaskLifecycleState) : list TaskLifecycleState :=
  match s with
  | ACTIVE => [PAUSED; CANCELLED; DONE; FAILED]
  | PAUSED => [ACTIVE; CANCELLED; DONE; FAILED]
  | CANCELLED | DONE | FAILED => []
  end.
Definition state_in (s : TaskLifecycleState) (l : list TaskLifecycleState) : bool := bool_decide (s ∈ l).

Inductive task_exn : Type :=
| TaskValueError (msg : string)
| TaskKeyError (msg : string)
| TaskIntegrityError (msg : string)
| TaskOperationalError (msg : string)
| TaskPyError (e : py_exn)
| ProjectCycleClaimUnavailable (msg : string)
| StaleProjectCycleClaim (msg : string)
| TaskResumeExpiredError (task_id : string)
| TaskNotImplemented (msg : string)
| TaskCronError (e : cron_exn).

(** Members are passed through: their value is the text that is looked up. *)
Definition _normalize_task_state (value : string) : result task_exn TaskLifecycleState :=
  let normalized := py_lower (py_strip value) in
  match List.filter (λ s, String.eqb normalized (state_value s)) ALL_TASK_STATES with
  | s :: _ => Ok s
  | [] => Raise (TaskValueError ("unknown task state: " +:+ repr_str value))
  end.

(** [json.dumps(dict(metadata or {}), sort_keys=True)] and back *)
Definition _dump_metadata (metadata : dict) : dict :=
  match json_sort (PDict metadata) with PDict d => d | _ => metadata end.

Record TaskLifecycleRecord := {
  k_task_id : string;
  k_cron_job_id : string;
  k_agent_id : option string;
  k_state : TaskLifecycleState;
  k_created_at : string;
  k_updated_at : string;
  k_cancelled_at : option string;
  k_completed_at : option string;
  k_failed_at : option string;
  k_failure_reason : option string;
  k_metadata : dict;
}.
Record CheckpointRow := {
  c_task_id : string;
  c_checkpoint_id : string;
  c_created_at : string;
  c_state : dict;
}.
Record ProjectCycleClaim := {
  cl_task_id : string;
  cl_owner_id : string;
  cl_fence_token : Z;
  cl_expected_checkpoint_id : option string;
  cl_expires_at : string;
}.

(** The tables [scheduled_tasks], [task_checkpoints] and [project_cycle_claims],
    whether the repository's connection was left in a transaction
    ([_conn.in_transaction] between two calls), and how many clock readings and
    identifiers were drawn. *)
Record TaskWorld := {
  tasks : list TaskLifecycleRecord;
  task_checkpoints : list CheckpointRow;
  project_cycle_claims : list ProjectCycleClaim;
  in_transaction : bool;
  task_ticks : nat;
  task_uuids : nat;
}.
Abbreviation TkM A := (M TaskWorld task_exn A).

Definition set_task_rows (f : list TaskLifecycleRecord → list TaskLifecycleRecord) (w : TaskWorld) : TaskWorld :=
  {| tasks := f (tasks w); task_checkpoints := task_checkpoints w;
     project_cycle_claims := project_cycle_claims w; in_transaction := in_transaction w; task_ticks := task_ticks w; task_uuids := task_uuids w |}.
Definition set_checkpoints (f : list CheckpointRow → list CheckpointRow) (w : TaskWorld) : TaskWorld :=
  {| tasks := tasks w; task_checkpoints := f (task_checkpoints w);
     project_cycle_claims := project_cycle_claims w; in_transaction := in_transaction w; task_ticks := task_ticks w; task_uuids := task_uuids w |}.
Definition set_claims (f : list ProjectCycleClaim → list ProjectCycleClaim) (w : TaskWorld) : TaskWorld :=
  {| tasks := tasks w; task_checkpoints := task_checkpoints w;
     project_cycle_claims := f (project_cycle_claims w); in_transaction := in_transaction w; task_ticks := task_ticks w; task_uuids := task_uuids w |}.
Definition set_task_counters (t u : nat) (w : TaskWorld) : TaskWorld :=
  {| tasks := tasks w; task_checkpoints := task_checkpoints w;
     project_cycle_claims := project_cycle_claims w; in_transaction := in_transaction w; task_ticks := t; task_uuids := u |}.

Definition set_in_transaction (b : bool) (w : TaskWorld) : TaskWorld :=
  {| tasks := tasks w; task_checkpoints := task_checkpoints w; project_cycle_claims := project_cycle_claims w;
     in_transaction := b; task_ticks := task_ticks w; task_uuids := task_uuids w |}.

(** [self._conn.commit()] *)
Definition task_commit : TkM () := modify (set_in_transaction false).
(** [with self._conn:] commits, and rolls the tables back when its body raises; a
    transaction that was left open before has written nothing. *)
Definition task_rollback (before after : TaskWorld) : TaskWorld :=
  set_in_transaction false (set_task_counters (task_ticks after) (task_uuids after) before).
Definition task_tx {A} (m : TkM A) : TkM A := transaction task_rollback (a ← m; _ ← task_commit; mret a).

Definition has_task_id (tid : string) (r : TaskLifecycleRecord) : bool := String.eqb (k_task_id r) tid.
Definition has_cron_job (jid : string) (r : TaskLifecycleRecord) : bool := String.eqb (k_cron_job_id r) jid.
Definition task_row (w : TaskWorld) (tid : string) : option TaskLifecycleRecord :=
  head (List.filter (has_task_id tid) (tasks w)).
Definition update_tasks (p : TaskLifecycleRecord → bool) (f : TaskLifecycleRecord → TaskLifecycleRecord) : TkM () :=
  modify (set_task_rows (update_where p f)).

(** [UPDATE scheduled_tasks SET ...], by the columns that change *)
Definition task_with_metadata (metadata : dict) (now : string) (r : TaskLifecycleRecord) : TaskLifecycleRecord :=
  {| k_task_id := k_task_id r; k_cron_job_id := k_cron_job_id r; k_agent_id := k_agent_id r;
     k_state := k_state r; k_created_at := k_created_at r; k_updated_at := now;
     k_cancelled_at := k_cancelled_at r; k_completed_at := k_completed_at r; k_failed_at := k_failed_at r;
     k_failure_reason := k_failure_reason r; k_metadata := metadata |}.
Definition task_with_state (s : TaskLifecycleState) (now : string) (cancelled completed failed reason : option string)
    (r : TaskLifecycleRecord) : TaskLifecycleRecord :=
  {| k_task_id := k_task_id r; k_cron_job_id := k_cron_job_id r; k_agent_id := k_agent_id r;
     k_state := s; k_created_at := k_created_at r; k_updated_at := now;
     k_cancelled_at := cancelled; k_completed_at := completed; k_failed_at := failed;
     k_failure_reason := reason; k_metadata := k_metadata r |}.

Section Tasks.
Context {Env : PyEnv}.

Definition task_now : TkM Z := λ w,
  (set_task_counters (S (task_ticks w)) (task_uuids w) w, Ok (py_clock (task_ticks w))).
Definition _utc_now_iso : TkM string := t ← task_now; mret (isoformat t).
(** [(now or datetime.now(timezone.utc)).astimezone(timezone.utc)] *)
Definition now_or_clock (now : option Z) : TkM Z :=
  match now with Some t => mret t | None => task_now end.
Definition _new_task_id : TkM string := λ w,
  (set_task_counters (task_ticks w) (S (task_uuids w)) w, Ok (py_uuid4 (task_uuids w))).

(** [str(x or "").strip()], refused when nothing is left *)
Definition needed (x msg : string) : TkM string :=
  let t := py_strip x in if truthy t then mret t else raise (TaskValueError msg).

(** ** Repository *)

Definition task_get (task_id : string) : TkM (option TaskLifecycleRecord) :=
  tid ← needed task_id "task_id is required";
  gets (λ w, task_row w tid).
Definition get_by_cron_job_id (cron_job_id : string) : TkM (option TaskLifecycleRecord) :=
  jid ← needed cron_job_id "cron_job_id is required";
  gets (λ w, head (List.filter (has_cron_job jid) (tasks w))).

Definition _require_task_record (record : option TaskLifecycleRecord) (task_id : string) : TkM TaskLifecycleRecord :=
  match record with
  | Some r => mret r
  | None => raise (TaskKeyError ("task not found after write: " +:+ task_id))
  end.
Definition task_found (record : option TaskLifecycleRecord) (task_id : string) : TkM TaskLifecycleRecord :=
  match record with
  | Some r => mret r
  | None => raise (TaskKeyError ("task not found: " +:+ task_id))
  end.
Definition reread (tid : string) : TkM TaskLifecycleRecord :=
  r ← task_get tid; _require_task_record r tid.

Definition update_metadata (task_id : string) (metadata : dict) : TkM TaskLifecycleRecord :=
  found ← task_get task_id;
  record ← task_found found task_id;
  now ← _utc_now_iso;
  _ ← update_tasks (has_task_id (k_task_id record)) (task_with_metadata (_dump_metadata metadata) now);
  _ ← task_commit;
  reread (k_task_id record).

(** [BEGIN IMMEDIATE] *)
Definition begin_immediate : TkM () := λ w,
  if in_transaction w
  then (w, Raise (TaskOperationalError "cannot start a transaction within a transaction"))
  else (w, Ok ()).
(** [mutate] may raise; the row is read and written in one transaction. *)
Definition mutate_metadata (task_id : string) (mutate : dict → result task_exn dict) : TkM TaskLifecycleRecord :=
  tid ← needed task_id "task_id is required";
  _ ← task_tx (
    _ ← begin_immediate;
    w ← get_world;
    row ← task_found (task_row w tid) tid;
    metadata ← lift_result (mutate (k_metadata row));
    now ← _utc_now_iso;
    update_tasks (has_task_id tid) (task_with_metadata (_dump_metadata metadata) now));
  reread tid.

(** The [INSERT] opens a transaction; when a constraint fails, the statement is
    undone and the transaction stays open. *)
Definition insert_task (r : TaskLifecycleRecord) : TkM () := λ w,
  if existsb (has_task_id (k_task_id r)) (tasks w)
  then (set_in_transaction true w, Raise (TaskIntegrityError "UNIQUE constraint failed: scheduled_tasks.task_id"))
  else if existsb (has_cron_job (k_cron_job_id r)) (tasks w)
  then (set_in_transaction true w, Raise (TaskIntegrityError "UNIQUE constraint failed: scheduled_tasks.cron_job_id"))
  else (set_task_rows (λ l, l ++ [r]) w, Ok ()).

Definition when (b : bool) (now : string) : option string := if b then Some now else None.

Definition task_create (task_id cron_job_id : string) (agent_id : option string)
    (state : TaskLifecycleState) (metadata : dict) : TkM TaskLifecycleRecord :=
  tid ← needed task_id "task_id is required";
  jid ← needed cron_job_id "cron_job_id is required";
  now ← _utc_now_iso;
  _ ← insert_task
    {| k_task_id := tid; k_cron_job_id := jid;
       k_agent_id := if otruthy agent_id then py_strip <$> agent_id else None;
       k_state := state; k_created_at := now; k_updated_at := now;
       k_cancelled_at := when (bool_decide (state = CANCELLED)) now;
       k_completed_at := when (bool_decide (state = DONE)) now;
       k_failed_at := when (bool_decide (state = FAILED)) now; k_failure_reason := None;
       k_metadata := _dump_metadata metadata |};
  _ ← task_commit;
  reread tid.

Definition task_list (limit : Z) (agent_id : option string) (include_unowned : bool) : TkM (list TaskLifecycleRecord) :=
  let safe_limit := Z.max 1 (Z.min limit 1000) in
  gets (λ w, limit_rows safe_limit (sort_desc k_created_at (List.filter (λ r,
    match agent_id with
    | Some a => ostr_eqb (k_agent_id r) (Some (py_strip a))
                || include_unowned && match k_agent_id r with None => true | Some _ => false end
    | None => true
    end) (tasks w)))).

(** [json_extract(metadata, '$.key') = ?] for a text argument *)
Definition json_extract_is (metadata : dict) (key text : string) : bool :=
  match dget metadata key with
  | Some (PStr s) => String.eqb s text
  | Some (PList _ as v) | Some (PDict _ as v) => String.eqb (json_text v) text
  | _ => false
  end.
(** The open mode tasks of a project task. *)
Definition open_mode_child (project_task_id : string) (r : TaskLifecycleRecord) : bool :=
  state_in (k_state r) [ACTIVE; PAUSED] && json_extract_is (k_metadata r) "kind" "mode"
  && json_extract_is (k_metadata r) "project_task_id" project_task_id
  && String.eqb (k_cron_job_id r) (k_task_id r).
Definition cancel_row (now : string) (r : TaskLifecycleRecord) : TaskLifecycleRecord :=
  task_with_state CANCELLED now (Some now) (k_completed_at r) (k_failed_at r) (k_failure_reason r) r.

Definition some_or (o : option string) (now : string) : option string :=
  match o with None => Some now | Some _ => o end.
(** The writing part of [transition]: [record] was read before. *)
Definition transition_write (record : TaskLifecycleRecord) (to_state : TaskLifecycleState)
    (failure_reason : option string) : TkM TaskLifecycleRecord :=
  now ← _utc_now_iso;
  let cancelled_at := if bool_decide (to_state = CANCELLED) then some_or (k_cancelled_at record) now
                      else k_cancelled_at record in
  let completed_at := if bool_decide (to_state = DONE) then some_or (k_completed_at record) now
                      else k_completed_at record in
  let failed_at := if bool_decide (to_state = FAILED) then Some now else k_failed_at record in
  let reason := if bool_decide (to_state = FAILED)
                then Some (let t := py_strip (default "" failure_reason) in if truthy t then t else "failed")
                else k_failure_reason record in
  _ ← update_tasks (has_task_id (k_task_id record))
        (task_with_state to_state now cancelled_at completed_at failed_at reason);
  _ ← (if state_in to_state _TERMINAL_TASK_STATES && py_truthy (dget_none (k_metadata record) "project_run_id")
       then update_tasks (open_mode_child (k_task_id record)) (cancel_row now)
       else mret ());
  _ ← task_commit;
  reread (k_task_id record).

Definition transition (task_id to_state : string) (failure_reason : option string) : TkM TaskLifecycleRecord :=
  target ← lift_result (_normalize_task_state to_state);
  found ← task_get task_id;
  record ← task_found found task_id;
  if bool_decide (k_state record = target) then mret record
  else if negb (state_in target (_ALLOWED_STATE_TRANSITIONS (k_state record)))
  then raise (TaskValueError ("invalid task state transition: " +:+ state_value (k_state record)
                +:+ " -> " +:+ state_value target))
  else transition_write record target failure_reason.

Definition record_scheduled_outcome (task_id : string) (expected_state to_state : TaskLifecycleState)
    (metadata : dict) (failure_reason : option string) : TkM TaskLifecycleRecord :=
  found ← task_get task_id;
  record ← task_found found task_id;
  if negb (bool_decide (k_state record = expected_state)) then mret record
  else if negb (bool_decide (to_state = expected_state))
          && negb (state_in to_state (_ALLOWED_STATE_TRANSITIONS expected_state))
  then raise (TaskValueError ("invalid task state transition: " +:+ state_value expected_state
                +:+ " -> " +:+ state_value to_state))
  else
    now ← _utc_now_iso;
    let completed_at := if bool_decide (to_state = DONE) then some_or (k_completed_at record) now
                        else k_completed_at record in
    let failed_at := if bool_decide (to_state = FAILED) then Some now else k_failed_at record in
    let reason := if bool_decide (to_state = FAILED)
                  then Some (let t := py_strip (default "" failure_reason) in if truthy t then t else "failed")
                  else k_failure_reason record in
    _ ← update_tasks (λ r, has_task_id (k_task_id record) r && bool_decide (k_state r = expected_state))
          (λ r, task_with_metadata (_dump_metadata metadata) now
                  (task_with_state to_state now (k_cancelled_at r) completed_at failed_at reason r));
    _ ← task_commit;
    reread (k_task_id record).

(** ** Checkpoints *)

Definition of_task (tid : string) (c : CheckpointRow) : bool := String.eqb (c_task_id c) tid.
Definition is_checkpoint (tid cid : string) (c : CheckpointRow) : bool :=
  of_task tid c && String.eqb (c_checkpoint_id c) cid.
(** [ORDER BY created_at DESC, checkpoint_id DESC] *)
Definition checkpoint_after (a b : CheckpointRow) : bool :=
  str_ltb (c_created_at b) (c_created_at a)
  || String.eqb (c_created_at b) (c_created_at a) && str_ltb (c_checkpoint_id b) (c_checkpoint_id a).
Definition latest_checkpoint (w : TaskWorld) (tid : string) : option CheckpointRow :=
  match List.filter (of_task tid) (task_checkpoints w) with
  | [] => None
  | c :: l => Some (py_max checkpoint_after c l)
  end.
Definition _latest_checkpoint_id_locked (w : TaskWorld) (tid : string) : option string :=
  c_checkpoint_id <$> latest_checkpoint w tid.

Definition save_checkpoint (task_id checkpoint_id : string) (state : dict) : TkM () :=
  tid ← needed task_id "task_id is required";
  cid ← needed checkpoint_id "checkpoint_id is required";
  found ← task_get tid;
  _ ← task_found found tid;
  now ← _utc_now_iso;
  (* INSERT OR REPLACE *)
  _ ← modify (set_checkpoints (λ l, List.filter (λ c, negb (is_checkpoint tid cid c)) l
    ++ [{| c_task_id := tid; c_checkpoint_id := cid; c_created_at := now; c_state := _dump_metadata state |}]));
  task_commit.

Definition get_latest_checkpoint (task_id : string) : TkM (option (string * dict)) :=
  tid ← needed task_id "task_id is required";
  gets (λ w, (λ c, (c_checkpoint_id c, c_state c)) <$> latest_checkpoint w tid).
Definition get_checkpoint (task_id checkpoint_id : string) : TkM (option dict) :=
  tid ← needed task_id "task_id is required";
  cid ← needed checkpoint_id "checkpoint_id is required";
  gets (λ w, c_state <$> head (List.filter (is_checkpoint tid cid) (task_checkpoints w))).
Definition list_checkpoints (task_id : string) : TkM (list string) :=
  tid ← needed task_id "task_id is required";
  gets (λ w, map c_checkpoint_id (sort_asc c_created_at (sort_asc c_checkpoint_id
    (List.filter (of_task tid) (task_checkpoints w))))).

(** ** Claims *)

Definition has_claim (tid : string) (c : ProjectCycleClaim) : bool := String.eqb (cl_task_id c) tid.
Definition claim_row (w : TaskWorld) (tid : string) : option ProjectCycleClaim :=
  head (List.filter (has_claim tid) (project_cycle_claims w)).
Definition get_project_cycle_claim (task_id : string) : TkM (option ProjectCycleClaim) :=
  tid ← needed task_id "task_id is required";
  gets (λ w, claim_row w tid).

Definition _parse_claim_time (value : string) : TkM Z :=
  match py_fromisoformat (py_replace "Z"%char "+00:00" value) with
  | Some (local, None) => mret local
  | Some (local, Some offset) => mret (local - offset)
  | None => raise (TaskPyError (PyValueError "Invalid isoformat string"))
  end.
(** [at + timedelta(seconds=ttl_seconds)] *)
Definition expiry (at_ : Z) (ttl_seconds : Z) : TkM Z :=
  match dt_add at_ (ttl_seconds * 1000000) with
  | Ok t => mret t
  | Raise e => raise (TaskPyError e)
  end.

(** [INSERT ... ON CONFLICT(task_id) DO UPDATE SET ...] *)
Definition upsert_claim (c : ProjectCycleClaim) : TkM () :=
  modify (set_claims (λ l, if existsb (has_claim (cl_task_id c)) l
                           then update_where (has_claim (cl_task_id c)) (λ _, c) l else l ++ [c])).
Definition claim_expires (t : string) (c : ProjectCycleClaim) : ProjectCycleClaim :=
  {| cl_task_id := cl_task_id c; cl_owner_id := cl_owner_id c; cl_fence_token := cl_fence_token c;
     cl_expected_checkpoint_id := cl_expected_checkpoint_id c; cl_expires_at := t |}.
Definition set_claim_expiry (tid t : string) : TkM () :=
  modify (set_claims (update_where (has_claim tid) (claim_expires t))).

Definition stale_checkpoint {A} (expected found : option string) : TkM A :=
  raise (StaleProjectCycleClaim ("expected checkpoint " +:+ py_repr (ostr_val expected) +:+ ", found "
           +:+ py_repr (ostr_val found))).

(** The statements of [acquire_project_cycle_claim] under the lock. *)
Definition grant_claim (tid owner : string) (expected : option string) (expires_at fence : Z) : TkM ProjectCycleClaim :=
  let claim := {| cl_task_id := tid; cl_owner_id := owner; cl_fence_token := fence;
                  cl_expected_checkpoint_id := expected; cl_expires_at := isoformat expires_at |} in
  _ ← upsert_claim claim; mret claim.
Definition take_over_claim (tid owner : string) (expected : option string) (acquired_at expires_at : Z)
    (existing : ProjectCycleClaim) (until : Z) : TkM ProjectCycleClaim :=
  if (acquired_at <? until) && negb (String.eqb (cl_owner_id existing) owner)
  then raise (ProjectCycleClaimUnavailable ("project cycle is already claimed: " +:+ tid))
  else if String.eqb (cl_owner_id existing) owner
          && ostr_eqb (cl_expected_checkpoint_id existing) expected && (acquired_at <? until)
  then mret existing
  else grant_claim tid owner expected expires_at (cl_fence_token existing + 1).
Definition acquire_locked (tid owner : string) (expected : option string) (acquired_at expires_at : Z)
    : TkM ProjectCycleClaim :=
  w ← get_world;
  let latest := _latest_checkpoint_id_locked w tid in
  if negb (ostr_eqb latest expected) then stale_checkpoint expected latest
  else match claim_row w tid with
  | None => grant_claim tid owner expected expires_at 1
  | Some existing =>
      until ← _parse_claim_time (cl_expires_at existing);
      take_over_claim tid owner expected acquired_at expires_at existing until
  end.
Definition acquire_project_cycle_claim (task_id owner_id : string) (expected_checkpoint_id : option string)
    (ttl_seconds : Z) (now : option Z) : TkM ProjectCycleClaim :=
  tid ← needed task_id "task_id is required";
  owner ← needed owner_id "owner_id is required";
  if ttl_seconds <? 1 then raise (TaskValueError "ttl_seconds must be greater than zero")
  else
    acquired_at ← now_or_clock now;
    expires_at ← expiry acquired_at ttl_seconds;
    task_tx (acquire_locked tid owner (text_or_none expected_checkpoint_id) acquired_at expires_at).

Definition same_claim (current claim : ProjectCycleClaim) : bool :=
  String.eqb (cl_owner_id current) (cl_owner_id claim)
  && (cl_fence_token current =? cl_fence_token claim)
  && ostr_eqb (cl_expected_checkpoint_id current) (cl_expected_checkpoint_id claim).
Definition _require_matching_claim (row : option ProjectCycleClaim) (claim : ProjectCycleClaim)
    (at_ : option Z) : TkM ProjectCycleClaim :=
  match row with
  | None => raise (StaleProjectCycleClaim "project cycle claim does not exist")
  | Some current =>
      if negb (same_claim current claim) then raise (StaleProjectCycleClaim "project cycle claim is stale")
      else match at_ with
      | None => mret current
      | Some t =>
          until ← _parse_claim_time (cl_expires_at current);
          if until <=? t then raise (StaleProjectCycleClaim "project cycle claim expired")
          else mret current
      end
  end.

Definition refresh_project_cycle_claim (claim : ProjectCycleClaim) (ttl_seconds : Z) (now : option Z)
    : TkM ProjectCycleClaim :=
  if ttl_seconds <? 1 then raise (TaskValueError "ttl_seconds must be greater than zero")
  else
    refreshed_at ← now_or_clock now;
    expires_at ← expiry refreshed_at ttl_seconds;
    _ ← task_tx (
      w ← get_world;
      _ ← _require_matching_claim (claim_row w (cl_task_id claim)) claim (Some refreshed_at);
      set_claim_expiry (cl_task_id claim) (isoformat expires_at));
    mret (claim_expires (isoformat expires_at) claim).

Definition release_project_cycle_claim (claim : ProjectCycleClaim) (now : option Z) : TkM () :=
  released_at ← now_or_clock now;
  task_tx (
    w ← get_world;
    _ ← _require_matching_claim (claim_row w (cl_task_id claim)) claim None;
    set_claim_expiry (cl_task_id claim) (isoformat released_at)).

Definition insert_checkpoint (c : CheckpointRow) : TkM () := λ w,
  if existsb (is_checkpoint (c_task_id c) (c_checkpoint_id c)) (task_checkpoints w)
  then (w, Raise (TaskIntegrityError "UNIQUE constraint failed: task_checkpoints.task_id, task_checkpoints.checkpoint_id"))
  else (set_checkpoints (λ l, l ++ [c]) w, Ok ()).

(** The checks of [commit_project_cycle_checkpoint], which read before the
    transaction of the writes begins, and the writes. *)
Definition commit_check (claim : ProjectCycleClaim) (committed_at : Z) : TkM () :=
  w ← get_world;
  _ ← _require_matching_claim (claim_row w (cl_task_id claim)) claim (Some committed_at);
  let latest := _latest_checkpoint_id_locked w (cl_task_id claim) in
  if negb (ostr_eqb latest (cl_expected_checkpoint_id claim))
  then stale_checkpoint (cl_expected_checkpoint_id claim) latest
  else mret ().
Definition commit_write (claim : ProjectCycleClaim) (cid : string) (state : dict) (committed_at : Z) : TkM () :=
  _ ← insert_checkpoint {| c_task_id := cl_task_id claim; c_checkpoint_id := cid;
        c_created_at := isoformat committed_at; c_state := _dump_metadata state |};
  w ← get_world;
  row ← task_found (task_row w (cl_task_id claim)) (cl_task_id claim);
  let metadata := dset (k_metadata row) "last_checkpoint_id" (PStr cid) in
  update_tasks (has_task_id (cl_task_id claim))
    (task_with_metadata (_dump_metadata metadata) (isoformat committed_at)).
Definition commit_project_cycle_checkpoint (claim : ProjectCycleClaim) (checkpoint_id : string) (state : dict)
    (now : option Z) : TkM () :=
  cid ← needed checkpoint_id "checkpoint_id is required";
  committed_at ← now_or_clock now;
  task_tx (_ ← commit_check claim committed_at; commit_write claim cid state committed_at).
End Tasks.
