(* ===== verification/TaskLifeProps.v ===== *)
(** Theorems about the lifecycle repository: the state machine of tasks, the
    claims on project cycles and the chain of checkpoints. *)

From S2P Require Import Prelude PyValue Timestamps PyText Schedule CronTables CronStore TaskLife.
From Stdlib Require Import Ascii.
From stdpp Require Import relations.

Local Open Scope Z_scope.

(** ** Operations *)

Inductive task_op : Type :=
| TkCreate (task_id cron_job_id : string) (agent_id : option string) (state : TaskLifecycleState) (metadata : dict)
| TkUpdateMetadata (task_id : string) (metadata : dict)
| TkMutateMetadata (task_id : string) (mutate : dict → result task_exn dict)
| TkTransition (task_id to_state : string) (reason : option string)
| TkOutcome (task_id : string) (expected to_state : TaskLifecycleState) (metadata : dict) (reason : option string)
| TkSave (task_id checkpoint_id : string) (state : dict)
| TkAcquire (task_id owner_id : string) (expected : option string) (ttl : Z) (now : option Z)
| TkRefresh (claim : ProjectCycleClaim) (ttl : Z) (now : option Z)
| TkRelease (claim : ProjectCycleClaim) (now : option Z)
| TkCommit (claim : ProjectCycleClaim) (checkpoint_id : string) (state : dict) (now : option Z)
(* the writes of a commit whose checks, through another connection, came earlier *)
| TkWrite (claim : ProjectCycleClaim) (checkpoint_id : string) (state : dict) (committed_at : Z).

(** [g] has the same value before and after. *)
Definition tsame {T} (g : TaskWorld → T) : TaskWorld → TaskWorld → Prop := λ w w', g w' = g w.
#[global] Instance tsame_preorder {T} (g : TaskWorld → T) : PreOrder (tsame g).
Proof. split; [by intros w|]. intros w1 w2 w3 H1 H2. unfold tsame in *. congruence. Qed.

Lemma within_begin (R : TaskWorld → TaskWorld → Prop) `{!Reflexive R} : within R begin_immediate.
Proof. intros w. unfold begin_immediate. by destruct (in_transaction w). Qed.

(** Decomposes [within R m]; the statements that change tables are left to [tac]. *)
Ltac twithin tac :=
  repeat first
    [ apply within_ret; apply _
    | apply within_raise; apply _
    | apply within_gets; apply _
    | apply within_get; apply _
    | apply within_lift; apply _
    | apply within_begin; apply _
    | apply within_bind; [apply _| |intro]
    | apply within_transaction; [solve [tac]|]
    | progress unfold task_tx, _utc_now_iso, now_or_clock, needed, task_found, reread, _require_task_record,
        task_get, stale_checkpoint
    | solve [tac]
    | solve [intros ?w; tac]
    | match goal with
      | |- within _ (if ?b then _ else _) => destruct b
      | |- within _ (match ?x with _ => _ end) => destruct x
      end ].

Lemma task_tx_eq {A} (m : TkM A) w : task_tx m w =
  match m w with
  | (w', Ok a) => (set_in_transaction false w', Ok a)
  | (w', Raise e) => (task_rollback w w', Raise e)
  end.
Proof. unfold task_tx, transaction, mbind, M_bind. by destruct (m w) as [w' [a|e]]. Qed.

Section Props.
Context {Env : PyEnv}.

(** The database after an operation, whether it returned or raised. *)
Definition task_exec (op : task_op) (w : TaskWorld) : TaskWorld :=
  match op with
  | TkCreate tid jid agent s md => (task_create tid jid agent s md w).1
  | TkUpdateMetadata tid md => (update_metadata tid md w).1
  | TkMutateMetadata tid f => (mutate_metadata tid f w).1
  | TkTransition tid s reason => (transition tid s reason w).1
  | TkOutcome tid e s md reason => (record_scheduled_outcome tid e s md reason w).1
  | TkSave tid cid st => (save_checkpoint tid cid st w).1
  | TkAcquire tid owner e ttl now => (acquire_project_cycle_claim tid owner e ttl now w).1
  | TkRefresh c ttl now => (refresh_project_cycle_claim c ttl now w).1
  | TkRelease c now => (release_project_cycle_claim c now w).1
  | TkCommit c cid st now => (commit_project_cycle_checkpoint c cid st now w).1
  | TkWrite c cid st t => (task_tx (commit_write c cid st t) w).1
  end.
Definition task_step (w w' : TaskWorld) : Prop := ∃ op, w' = task_exec op w.

(** ** Claims *)

(** A claim is replaced only by one with a greater fence; otherwise at most its
    expiry changes. *)
Definition claim_le (o o' : option ProjectCycleClaim) : Prop :=
  match o, o' with
  | None, _ => True
  | Some c, Some c' => cl_fence_token c < cl_fence_token c' ∨ same_claim c' c = true
  | Some _, None => False
  end.
Definition claims_le (w w' : TaskWorld) : Prop := ∀ tid, claim_le (claim_row w tid) (claim_row w' tid).

Lemma same_claim_spec a b :
  same_claim a b = true ↔ cl_owner_id a = cl_owner_id b ∧ cl_fence_token a = cl_fence_token b ∧
    cl_expected_checkpoint_id a = cl_expected_checkpoint_id b.
Proof.
  unfold same_claim. rewrite !andb_true_iff, String.eqb_eq, Z.eqb_eq, ostr_eqb_eq. tauto.
Qed.
Lemma same_claim_refl a : same_claim a a = true.
Proof. by apply same_claim_spec. Qed.
#[global] Instance claim_le_preorder : PreOrder claim_le.
Proof.
  split; [intros [c|]; simpl; [right; apply same_claim_refl|done]|].
  intros [a|] [b|] [c|]; simpl; try tauto. rewrite !same_claim_spec. intros [?|(?&?&?)] [?|(?&?&?)];
    try (left; lia). right. split_and!; congruence.
Qed.
#[global] Instance claims_le_preorder : PreOrder claims_le.
Proof. split; [intros w tid; reflexivity|]. intros w1 w2 w3 H1 H2 tid. by trans (claim_row w2 tid). Qed.

Lemma within_claims_same {A} (m : TkM A) : within (tsame project_cycle_claims) m → within claims_le m.
Proof. intros H w tid. unfold claim_row. by rewrite (H w). Qed.

Lemma claims_rollback w w' : claims_le w (task_rollback w w').
Proof. intros tid. reflexivity. Qed.
Lemma claims_unchanged_rollback w w' : tsame project_cycle_claims w (task_rollback w w').
Proof. done. Qed.

Lemma filter_update_other {A} (p q : A → bool) (f : A → A) l :
  (∀ x, p x = true → q x = false ∧ q (f x) = false) → List.filter q (update_where p f l) = List.filter q l.
Proof.
  intros H. induction l as [|x l IH]; simpl; [done|]. destruct (p x) eqn:E; rewrite IH; [|done].
  destruct (H x E) as [-> ->]. done.
Qed.
Lemma filter_update_same {A} (p : A → bool) (f : A → A) l :
  (∀ x, p x = true → p (f x) = true) → List.filter p (update_where p f l) = map f (List.filter p l).
Proof.
  intros H. induction l as [|x l IH]; simpl; [done|]. destruct (p x) eqn:E; simpl; rewrite ?E, IH; [|done].
  by rewrite (H x E).
Qed.

Lemma claim_row_upsert c w tid :
  claim_row (set_claims (λ l, if existsb (has_claim (cl_task_id c)) l
                          then update_where (has_claim (cl_task_id c)) (λ _, c) l else l ++ [c]) w) tid
  = if bool_decide (tid = cl_task_id c) then Some c else claim_row w tid.
Proof.
  unfold claim_row. simpl. generalize (project_cycle_claims w). intros l.
  assert (has_claim (cl_task_id c) c = true) as Hc by apply String.eqb_refl.
  case_bool_decide as E.
  - subst tid. destruct (existsb _ l) eqn:Ee.
    + rewrite filter_update_same by done. apply existsb_elem in Ee as (x & Hx & Hp).
      destruct (List.filter _ l) as [|y ys] eqn:Ef; [|done].
      assert (x ∈ List.filter (has_claim (cl_task_id c)) l) as H by by apply filter_elem.
      rewrite Ef in H. by apply elem_of_nil in H.
    + rewrite List.filter_app. simpl. rewrite Hc.
      assert (List.filter (has_claim (cl_task_id c)) l = []) as ->; [|done].
      destruct (List.filter _ l) as [|y ys] eqn:Ef; [done|].
      assert (y ∈ y :: ys) as Hy by left. rewrite <-Ef in Hy. apply filter_elem in Hy as [Hy Hp].
      assert (existsb (has_claim (cl_task_id c)) l = true) by (apply existsb_elem; eauto). congruence.
  - assert (has_claim tid c = false) as Hn by (apply String.eqb_neq; congruence).
    destruct (existsb _ l).
    + rewrite filter_update_other; [done|]. intros x Hx%String.eqb_eq. split; [|done].
      apply String.eqb_neq. congruence.
    + rewrite List.filter_app. simpl. by rewrite Hn, app_nil_r.
Qed.
Lemma claim_row_expiry t t' w tid :
  claim_row (set_claims (update_where (has_claim t) (claim_expires t')) w) tid
  = if bool_decide (tid = t) then claim_expires t' <$> claim_row w tid else claim_row w tid.
Proof.
  unfold claim_row. simpl. case_bool_decide as E.
  - subst. rewrite filter_update_same by done. by destruct (List.filter _ _).
  - rewrite filter_update_other; [done|]. intros x Hx%String.eqb_eq.
    split; apply String.eqb_neq; simpl; congruence.
Qed.
Lemma expiry_claims_le t t' : within claims_le (set_claim_expiry t t').
Proof.
  intros w tid. simpl. rewrite claim_row_expiry. case_bool_decide; [|done].
  destruct (claim_row w tid) as [c|]; simpl; [|done]. right. by apply same_claim_spec.
Qed.

Lemma claim_le_None o : claim_le None o.
Proof. done. Qed.

Lemma claim_row_id w tid c : claim_row w tid = Some c → cl_task_id c = tid.
Proof.
  unfold claim_row. destruct (List.filter _ _) as [|y ys] eqn:Ef; [done|]. intros [= ->].
  assert (c ∈ c :: ys) as Hy by left. rewrite <-Ef in Hy. by apply filter_elem in Hy as [_ ?%String.eqb_eq].
Qed.

(** A grant leaves the row it returns, of the caller: the row that was there, or one
    with a greater fence. *)
Definition granted (tid owner : string) (w : TaskWorld) (r : TaskWorld * result task_exn ProjectCycleClaim) : Prop :=
  claims_le w r.1 ∧
  ∀ c, r.2 = Ok c → claim_row r.1 tid = Some c ∧ cl_task_id c = tid ∧ cl_owner_id c = owner ∧
    (claim_row w tid = Some c ∨ ∀ c0, claim_row w tid = Some c0 → cl_fence_token c0 < cl_fence_token c).

Lemma granted_raise tid owner w w' e : claims_le w w' → granted tid owner w (w', Raise e).
Proof. done. Qed.
Lemma grant_granted tid owner expected t fence w :
  (∀ c, claim_row w tid = Some c → cl_fence_token c < fence) →
  granted tid owner w (grant_claim tid owner expected t fence w).
Proof.
  intros Hf. unfold grant_claim. set (c := {| cl_task_id := tid; cl_owner_id := owner |}).
  rewrite (bind_of_Ok (upsert_claim c) _ w _ () eq_refl). split.
  - intros x. cbn [fst mret M_ret]. rewrite claim_row_upsert. case_bool_decide as E; [|reflexivity].
    change (x = tid) in E. subst x. destruct (claim_row w tid) as [c1|] eqn:Ec; [|done]. left. by apply Hf.
  - cbn [fst snd mret M_ret]. intros c1 [= <-]. rewrite claim_row_upsert.
    rewrite bool_decide_eq_true_2 by done. split_and!; [done..|]. by right.
Qed.
Lemma acquire_locked_granted tid owner expected t t' w :
  granted tid owner w (acquire_locked tid owner expected t t' w).
Proof.
  unfold acquire_locked. rewrite bind_get_world. destruct (negb _); [by apply granted_raise|].
  destruct (claim_row w tid) as [c0|] eqn:Ec; [|apply grant_granted; by rewrite Ec].
  assert (∀ lim, granted tid owner w (take_over_claim tid owner expected t t' c0 lim w)) as H.
  { intros lim. unfold take_over_claim. destruct (_ && _); [by apply granted_raise|].
    destruct (_ && _ && _) eqn:Eo.
    - split; [done|]. intros c [= <-]. bsplit. split_and!; [done|by apply (claim_row_id w)|done|by left].
    - apply grant_granted. intros c. rewrite Ec. intros [= <-]. lia. }
  unfold mbind, M_bind, _parse_claim_time.
  destruct (py_fromisoformat _) as [[local [off|]]|]; [apply H|apply H|by apply granted_raise].
Qed.
Lemma granted_before tid owner w w1 r :
  project_cycle_claims w1 = project_cycle_claims w → granted tid owner w1 r → granted tid owner w r.
Proof.
  intros E [H1 H2]. unfold granted, claims_le, claim_row in *. rewrite E in *. by split.
Qed.
Lemma now_or_clock_spec now w : ∃ w1 t, now_or_clock now w = (w1, Ok t) ∧ tasks w1 = tasks w ∧
  task_checkpoints w1 = task_checkpoints w ∧ project_cycle_claims w1 = project_cycle_claims w.
Proof. destruct now; simpl; by repeat eexists. Qed.

Lemma acquire_granted tid owner e ttl now w :
  granted (py_strip tid) (py_strip owner) w (acquire_project_cycle_claim tid owner e ttl now w).
Proof.
  unfold acquire_project_cycle_claim, needed. destruct (truthy (py_strip tid)); [|by apply granted_raise].
  rewrite (bind_of_Ok (mret _) _ w w _ eq_refl). destruct (truthy (py_strip owner)); [|by apply granted_raise].
  rewrite (bind_of_Ok (mret _) _ w w _ eq_refl). destruct (ttl <? 1); [by apply granted_raise|].
  destruct (now_or_clock_spec now w) as (w1 & t & E & _ & _ & Ec). rewrite (bind_of_Ok _ _ w w1 t E).
  unfold expiry. destruct (dt_add t (ttl * 1000000)) as [t'|ex]; apply (granted_before _ _ w w1 _ Ec);
    [|by apply granted_raise]. rewrite (bind_of_Ok (mret _) _ w1 w1 _ eq_refl).
  rewrite task_tx_eq. pose proof (acquire_locked_granted (py_strip tid) (py_strip owner) (text_or_none e) t t' w1) as H.
  destruct (acquire_locked _ _ _ _ _ w1) as [w2 [c|ex]]; [done|]. apply granted_raise, claims_rollback.
Qed.

(** No other operation touches the claims. *)
Lemma claims_kept_create tid jid a s md : within (tsame project_cycle_claims) (task_create tid jid a s md).
Proof.
  unfold task_create, insert_task. twithin ltac:(done).
  intros w. simpl. destruct (existsb _ _); [done|]. by destruct (existsb _ _).
Qed.
Lemma claims_kept_transition tid s reason : within (tsame project_cycle_claims) (transition tid s reason).
Proof. unfold transition, transition_write. twithin ltac:(done). Qed.
Lemma claims_kept_outcome tid e s md reason : within (tsame project_cycle_claims) (record_scheduled_outcome tid e s md reason).
Proof. unfold record_scheduled_outcome. twithin ltac:(done). Qed.
Lemma claims_kept_metadata tid md : within (tsame project_cycle_claims) (update_metadata tid md).
Proof. unfold update_metadata. twithin ltac:(done). Qed.
Lemma claims_kept_mutate tid f : within (tsame project_cycle_claims) (mutate_metadata tid f).
Proof. unfold mutate_metadata. twithin ltac:(done). Qed.
Lemma claims_kept_save tid cid st : within (tsame project_cycle_claims) (save_checkpoint tid cid st).
Proof. unfold save_checkpoint. twithin ltac:(done). Qed.
Lemma claims_kept_commit c cid st now : within (tsame project_cycle_claims) (commit_project_cycle_checkpoint c cid st now).
Proof.
  unfold commit_project_cycle_checkpoint, commit_check, commit_write, insert_checkpoint, _require_matching_claim,
    _parse_claim_time.
  twithin ltac:(done). intros w. simpl. by destruct (existsb _ _).
Qed.
Lemma claims_kept_write c cid st t : within (tsame project_cycle_claims) (task_tx (commit_write c cid st t)).
Proof. unfold commit_write, insert_checkpoint. twithin ltac:(done). intros w. simpl. by destruct (existsb _ _). Qed.
Lemma claims_le_refresh c ttl now : within claims_le (refresh_project_cycle_claim c ttl now).
Proof.
  unfold refresh_project_cycle_claim, _require_matching_claim, _parse_claim_time, expiry.
  twithin ltac:(first [apply expiry_claims_le|intros; apply claims_rollback|by apply within_claims_same]).
Qed.
Lemma claims_le_release c now : within claims_le (release_project_cycle_claim c now).
Proof.
  unfold release_project_cycle_claim, _require_matching_claim, _parse_claim_time, expiry.
  twithin ltac:(first [apply expiry_claims_le|intros; apply claims_rollback|by apply within_claims_same]).
Qed.
#[local] Hint Resolve claims_kept_create claims_kept_transition claims_kept_outcome claims_kept_metadata
  claims_kept_mutate claims_kept_save claims_kept_commit claims_kept_write : core.

Lemma exec_claims_le op w : claims_le w (task_exec op w).
Proof.
  destruct op; simpl; first [apply (proj1 (acquire_granted _ _ _ _ _ _))|apply claims_le_refresh
    |apply claims_le_release|match goal with |- claims_le _ (?m w).1 => revert w; change (within claims_le m) end;
     apply within_claims_same; auto].
Qed.
Lemma run_claims_le w w' : rtc task_step w w' → claims_le w w'.
Proof.
  induction 1 as [w|w w1 w' [op ->] _ IH]; [reflexivity|]. etrans; [apply exec_claims_le|done].
Qed.

(** A claim whose fence was passed is refused, and the tables stay as they are. *)
Definition refused {A} (m : TkM A) (w : TaskWorld) : Prop :=
  ∃ e, (m w).2 = Raise e ∧ tasks (m w).1 = tasks w ∧ task_checkpoints (m w).1 = task_checkpoints w ∧
    project_cycle_claims (m w).1 = project_cycle_claims w.

Lemma refused_raise {A} (m : TkM A) w w' e : m w = (w', Raise e) → tasks w' = tasks w →
  task_checkpoints w' = task_checkpoints w → project_cycle_claims w' = project_cycle_claims w → refused m w.
Proof. intros E H1 H2 H3. exists e. by rewrite E. Qed.

Definition stale_claim : task_exn := StaleProjectCycleClaim "project cycle claim is stale".

Section Fenced.
Variables (claim cur : ProjectCycleClaim) (w : TaskWorld).
Hypothesis row : claim_row w (cl_task_id claim) = Some cur.
Hypothesis passed : cl_fence_token claim < cl_fence_token cur.

Lemma require_fenced at_ w1 : project_cycle_claims w1 = project_cycle_claims w →
  _require_matching_claim (claim_row w1 (cl_task_id claim)) claim at_ w1 = (w1, Raise stale_claim).
Proof.
  intros E. assert (claim_row w1 (cl_task_id claim) = Some cur) as -> by (unfold claim_row in *; by rewrite E).
  unfold _require_matching_claim. assert (same_claim cur claim = false) as ->; [|done].
  destruct (same_claim cur claim) eqn:Es; [|done]. apply same_claim_spec in Es as (_ & Es & _). lia.
Qed.
Lemma fenced_check t : refused (commit_check claim t) w.
Proof.
  eapply refused_raise; [|done..]. unfold commit_check. rewrite bind_get_world. by apply bind_of_Raise, require_fenced.
Qed.
Lemma fenced_release now : refused (release_project_cycle_claim claim now) w.
Proof.
  unfold release_project_cycle_claim. destruct (now_or_clock_spec now w) as (w1 & t & E & H1 & H2 & H3).
  eapply refused_raise; [rewrite (bind_of_Ok _ _ w w1 t E); rewrite task_tx_eq, bind_get_world;
    rewrite (bind_of_Raise _ _ w1 w1 _ (require_fenced _ w1 H3)); done|done..].
Qed.
Lemma fenced_refresh ttl now : refused (refresh_project_cycle_claim claim ttl now) w.
Proof.
  unfold refresh_project_cycle_claim. destruct (ttl <? 1); [by eapply refused_raise|].
  destruct (now_or_clock_spec now w) as (w1 & t & E & H1 & H2 & H3). unfold expiry.
  destruct (dt_add t (ttl * 1000000)) as [t'|e] eqn:Ed.
  - eapply refused_raise; [rewrite (bind_of_Ok _ _ w w1 t E), Ed, (bind_of_Ok (mret _) _ w1 w1 t' eq_refl);
      apply bind_of_Raise; rewrite task_tx_eq, bind_get_world;
      rewrite (bind_of_Raise _ _ w1 w1 _ (require_fenced _ w1 H3)); done|done..].
  - eapply refused_raise; [rewrite (bind_of_Ok _ _ w w1 t E), Ed; by apply bind_of_Raise|done..].
Qed.
Lemma fenced_commit cid st now : refused (commit_project_cycle_checkpoint claim cid st now) w.
Proof.
  unfold commit_project_cycle_checkpoint, needed. destruct (truthy (py_strip cid)); [|by eapply refused_raise].
  destruct (now_or_clock_spec now w) as (w1 & t & E & H1 & H2 & H3).
  eapply refused_raise; [rewrite (bind_of_Ok (mret _) _ w w _ eq_refl), (bind_of_Ok _ _ w w1 t E);
    rewrite task_tx_eq; unfold commit_check|..].
  - rewrite (bind_of_Raise _ _ w1 w1 stale_claim); [done|]. rewrite bind_get_world.
    by apply bind_of_Raise, require_fenced.
  - done.
  - done.
  - done.
Qed.
End Fenced.

(** C31: once a new claim on a project cycle was granted, to another worker or to
    the same one, the claim granted before can neither be refreshed nor released,
    and a commit under it is refused by its checks: whatever happened in between and
    afterwards, each attempt raises and changes no table.  (A claim that is handed
    out again unchanged, while it is valid, is not new.) *)
Theorem stale_cycle_claim_refused tid owner e ttl now w0 w1 c w2 tid' owner' e' ttl' now' w3 c' w4 :
  acquire_project_cycle_claim tid owner e ttl now w0 = (w1, Ok c) → rtc task_step w1 w2 →
  acquire_project_cycle_claim tid' owner' e' ttl' now' w2 = (w3, Ok c') →
  cl_task_id c' = cl_task_id c → claim_row w2 (cl_task_id c) ≠ Some c' → rtc task_step w3 w4 →
  (∀ ttl now, refused (refresh_project_cycle_claim c ttl now) w4) ∧
  (∀ now, refused (release_project_cycle_claim c now) w4) ∧
  (∀ t, refused (commit_check c t) w4) ∧
  (∀ cid st now, refused (commit_project_cycle_checkpoint c cid st now) w4).
Proof.
  intros E1 H12 E2 Ht Hnew H34.
  destruct (acquire_granted tid owner e ttl now w0) as [_ G1]. rewrite E1 in G1. destruct (G1 c eq_refl) as (R1 & T1 & _).
  destruct (acquire_granted tid' owner' e' ttl' now' w2) as [_ G2]. rewrite E2 in G2.
  destruct (G2 c' eq_refl) as (R3 & T3 & _ & F3).
  simpl in *. rewrite <-T1 in R1. rewrite <-T3, Ht in R3, F3. destruct F3 as [?|F3]; [done|].
  pose proof (run_claims_le w1 w2 H12 (cl_task_id c)) as L12. rewrite R1 in L12.
  destruct (claim_row w2 (cl_task_id c)) as [c0|] eqn:R2; [|done]. simpl in L12. specialize (F3 c0 eq_refl).
  pose proof (run_claims_le w3 w4 H34 (cl_task_id c)) as L34. rewrite R3 in L34.
  destruct (claim_row w4 (cl_task_id c)) as [cur|] eqn:R4; [|done]. simpl in L34.
  assert (cl_fence_token c < cl_fence_token cur) as Hp
    by (destruct L12 as [?|(_ & ? & _)%same_claim_spec], L34 as [?|(_ & ? & _)%same_claim_spec]; lia).
  split_and!; intros; [by eapply fenced_refresh|by eapply fenced_release|by eapply fenced_check|by eapply fenced_commit].
Qed.

(** ** The chain of checkpoints

    Threads that share one repository.  A commit reads the clock, then waits for the
    repository's lock, under which it runs its checks and its writes; other
    operations take the lock for the whole of what they do to claims and checkpoints. *)

(** A commit that has read the clock. *)
Record commit_call := {
  cc_claim : ProjectCycleClaim;
  cc_id : string;
  cc_blob : dict;
  cc_at : Z;
}.
Definition cc_task (k : commit_call) : string := cl_task_id (cc_claim k).
Definition cc_expected (k : commit_call) : option string := cl_expected_checkpoint_id (cc_claim k).
(** The tables; the commits that wait for the lock and the one that holds it, its
    checks passed; the claims handed out; and the commits that succeeded: the task,
    the checkpoint the cycle started from and the new one. *)
Record Repo := {
  rp_world : TaskWorld;
  rp_calls : list commit_call;
  rp_lock : option commit_call;
  rp_claims : list ProjectCycleClaim;
  rp_commits : list (string * option string * string);
}.

Definition is_commit (op : task_op) : bool :=
  match op with TkCommit _ _ _ _ | TkWrite _ _ _ _ => true | _ => false end.
(** No checkpoint is saved a second time under its identifier. *)
Definition saves_new (op : task_op) (w : TaskWorld) : Prop :=
  match op with
  | TkSave tid cid _ => existsb (is_checkpoint (py_strip tid) (py_strip cid)) (task_checkpoints w) = false
  | _ => True
  end.

Inductive repo_step : Repo → Repo → Prop :=
| repo_op op w calls claims commits :
    is_commit op = false → saves_new op w →
    repo_step {| rp_world := w; rp_calls := calls; rp_lock := None; rp_claims := claims; rp_commits := commits |}
      {| rp_world := task_exec op w; rp_calls := calls; rp_lock := None; rp_claims := claims; rp_commits := commits |}
| repo_acquire tid owner e ttl now c w w' calls claims commits :
    acquire_project_cycle_claim tid owner e ttl now w = (w', Ok c) →
    repo_step {| rp_world := w; rp_calls := calls; rp_lock := None; rp_claims := claims; rp_commits := commits |}
      {| rp_world := w'; rp_calls := calls; rp_lock := None; rp_claims := c :: claims; rp_commits := commits |}
| repo_begin g c cid cid' st t w w' calls lock claims commits :
    (* [c] is a claim handed out, or a refreshed copy of one *)
    g ∈ claims → cl_task_id g = cl_task_id c → same_claim g c = true →
    needed cid "checkpoint_id is required" w = (w, Ok cid') → now_or_clock None w = (w', Ok t) →
    repo_step {| rp_world := w; rp_calls := calls; rp_lock := lock; rp_claims := claims; rp_commits := commits |}
      {| rp_world := w'; rp_calls := {| cc_claim := c; cc_id := cid'; cc_blob := st; cc_at := t |} :: calls;
         rp_lock := lock; rp_claims := claims; rp_commits := commits |}
| repo_check k r w w' calls1 calls2 claims commits :
    transaction task_rollback (commit_check (cc_claim k) (cc_at k)) w = (w', r) →
    repo_step
      {| rp_world := w; rp_calls := calls1 ++ k :: calls2; rp_lock := None; rp_claims := claims; rp_commits := commits |}
      {| rp_world := w'; rp_calls := calls1 ++ calls2; rp_lock := match r with Ok _ => Some k | Raise _ => None end;
         rp_claims := claims; rp_commits := commits |}
| repo_write k r w w' calls claims commits :
    task_tx (commit_write (cc_claim k) (cc_id k) (cc_blob k) (cc_at k)) w = (w', r) →
    repo_step {| rp_world := w; rp_calls := calls; rp_lock := Some k; rp_claims := claims; rp_commits := commits |}
      {| rp_world := w'; rp_calls := calls; rp_lock := None; rp_claims := claims;
         rp_commits := match r with Ok _ => (cc_task k, cc_expected k, cc_id k) :: commits | Raise _ => commits end |}.

(** The first [n] readings of the clock strictly increase. *)
Definition clock_strict (n : nat) : Prop :=
  (∀ i j, (i < j < n)%nat → py_clock i < py_clock j) ∧ ∀ i, (i < n)%nat → instant_ok (py_clock i).

Definition ticks_le (w w' : TaskWorld) : Prop := (task_ticks w ≤ task_ticks w')%nat.
#[global] Instance ticks_le_preorder : PreOrder ticks_le.
Proof. split; [by intros w; unfold ticks_le|]. intros w1 w2 w3. unfold ticks_le. lia. Qed.
(** The checkpoints are untouched. *)
Definition no_checkpoint (w w' : TaskWorld) : Prop := tsame task_checkpoints w w' ∧ ticks_le w w'.
#[global] Instance no_checkpoint_preorder : PreOrder no_checkpoint.
Proof.
  split; [by intros w; split; [|unfold ticks_le; lia]|].
  intros w1 w2 w3 [? ?] [? ?]. split; etrans; eauto.
Qed.
Ltac frame := split; [done|unfold ticks_le; simpl; lia].
Ltac no_write := twithin ltac:(first
  [ frame
  | match goal with |- ∀ w w', _ → _ => intros ? ? [_ ?]; split; [done|unfold ticks_le in *; simpl in *; lia] end
  | intros; frame ]).
Lemma no_write_create tid jid a s md : within no_checkpoint (task_create tid jid a s md).
Proof.
  unfold task_create, insert_task. no_write.
  intros w. simpl. destruct (existsb _ _); [frame|]. destruct (existsb _ _); frame.
Qed.
Lemma no_write_transition tid s reason : within no_checkpoint (transition tid s reason).
Proof. unfold transition, transition_write. no_write. Qed.
Lemma no_write_outcome tid e s md reason : within no_checkpoint (record_scheduled_outcome tid e s md reason).
Proof. unfold record_scheduled_outcome. no_write. Qed.
Lemma no_write_metadata tid md : within no_checkpoint (update_metadata tid md).
Proof. unfold update_metadata. no_write. Qed.
Lemma no_write_mutate tid f : within no_checkpoint (mutate_metadata tid f).
Proof. unfold mutate_metadata. no_write. Qed.
Lemma no_write_acquire tid owner e ttl now : within no_checkpoint (acquire_project_cycle_claim tid owner e ttl now).
Proof.
  unfold acquire_project_cycle_claim, acquire_locked, take_over_claim, grant_claim, upsert_claim, _parse_claim_time, expiry.
  no_write.
Qed.
Lemma no_write_refresh c ttl now : within no_checkpoint (refresh_project_cycle_claim c ttl now).
Proof.
  unfold refresh_project_cycle_claim, _require_matching_claim, _parse_claim_time, expiry, set_claim_expiry. no_write.
Qed.
Lemma no_write_release c now : within no_checkpoint (release_project_cycle_claim c now).
Proof.
  unfold release_project_cycle_claim, _require_matching_claim, _parse_claim_time, set_claim_expiry. no_write.
Qed.

Lemma needed_spec x msg w :
  needed x msg w = if truthy (py_strip x) then (w, Ok (py_strip x)) else (w, Raise (TaskValueError msg)).
Proof. unfold needed. by destruct (truthy _). Qed.
Lemma bind_needed {A} x msg (f : string → TkM A) w :
  (t ← needed x msg; f t) w = if truthy (py_strip x) then f (py_strip x) w else (w, Raise (TaskValueError msg)).
Proof. unfold mbind, M_bind. rewrite needed_spec. by destruct (truthy _). Qed.
Lemma needed_found {A} tid (f : option TaskLifecycleRecord → TkM A) w :
  (found ← task_get tid; f found) w =
  if truthy (py_strip tid) then f (task_row w (py_strip tid)) w else (w, Raise (TaskValueError "task_id is required")).
Proof. unfold task_get. unfold mbind at 1, M_bind at 1. rewrite bind_needed. by destruct (truthy _). Qed.

Lemma require_world row claim at_ w : (_require_matching_claim row claim at_ w).1 = w.
Proof.
  unfold _require_matching_claim, _parse_claim_time. destruct row; [|done]. destruct (negb _); [done|].
  destruct at_ as [t|]; [|done]. unfold mbind, M_bind.
  destruct (py_fromisoformat _) as [[l [o|]]|]; simpl; [by destruct (_ <=? t)..|done].
Qed.
Lemma commit_check_world c t w : (commit_check c t w).1 = w.
Proof.
  unfold commit_check. rewrite bind_get_world. pose proof (require_world (claim_row w (cl_task_id c)) c (Some t) w) as H.
  unfold mbind, M_bind. destruct (_require_matching_claim _ _ _ w) as [w1 [a|e]]; simpl in H; subst; [|done].
  by destruct (negb _).
Qed.
(** A commit is refused unless the latest checkpoint is the one the claim expects. *)
Lemma commit_check_latest c t w w' :
  commit_check c t w = (w', Ok ()) → _latest_checkpoint_id_locked w (cl_task_id c) = cl_expected_checkpoint_id c.
Proof.
  unfold commit_check. rewrite bind_get_world. intros H. msplit H as w1 a E. destruct (negb _) eqn:En; [done|].
  by apply negb_false_iff, ostr_eqb_eq in En.
Qed.

Lemma commit_write_effect c cid st at_ w w' r :
  commit_write c cid st at_ w = (w', r) →
  match r with
  | Ok _ => existsb (is_checkpoint (cl_task_id c) cid) (task_checkpoints w) = false ∧ task_ticks w' = task_ticks w ∧
      task_checkpoints w' = task_checkpoints w ++ [{| c_task_id := cl_task_id c; c_checkpoint_id := cid;
        c_created_at := isoformat at_; c_state := _dump_metadata st |}]
  | Raise _ => task_ticks w' = task_ticks w
  end.
Proof.
  unfold commit_write. set (row := {| c_task_id := _; c_checkpoint_id := _ |}).
  unfold insert_checkpoint, mbind, M_bind, get_world, task_found.
  change (c_task_id row) with (cl_task_id c). change (c_checkpoint_id row) with cid.
  destruct (existsb _ _) eqn:Ee; [by intros [= <- <-]|]. destruct (task_row _ _) as [k|]; [|by intros [= <- <-]].
  by intros [= <- <-].
Qed.

(** *** The latest checkpoint *)

Lemma py_max_key {A} (gt : A → A → bool) (key : A → string) x l :
  (∀ a b, gt a b = true → str_leb (key b) (key a) = true) → (∀ a b, gt a b = false → str_leb (key a) (key b) = true) →
  ∀ y, y ∈ x :: l → str_leb (key y) (key (py_max gt x l)) = true.
Proof.
  intros H1 H2. revert x. induction l as [|z l IH]; intros x y Hy; unfold py_max; simpl.
  - apply list_elem_of_singleton in Hy as ->. apply str_leb_refl.
  - pose proof (IH (if gt z x then z else x) _ ltac:(by left)) as Hm. unfold py_max in *.
    apply elem_of_cons in Hy as [->|Hy]; [|apply elem_of_cons in Hy as [->|Hy]].
    + destruct (gt z x) eqn:E; [|done]. apply H1 in E. by eapply str_leb_trans.
    + destruct (gt z x) eqn:E; [done|]. apply H2 in E. by eapply str_leb_trans.
    + apply IH. by right.
Qed.

(** A row of the task's checkpoints. *)
Definition task_ck (w : TaskWorld) (tid : string) (c : CheckpointRow) : Prop :=
  c ∈ task_checkpoints w ∧ c_task_id c = tid.
Lemma task_ck_filter w tid c : task_ck w tid c ↔ c ∈ List.filter (of_task tid) (task_checkpoints w).
Proof. rewrite filter_elem. unfold task_ck, of_task. by rewrite String.eqb_eq. Qed.
Lemma is_checkpoint_spec w tid x :
  existsb (is_checkpoint tid x) (task_checkpoints w) = true ↔ ∃ c, task_ck w tid c ∧ c_checkpoint_id c = x.
Proof.
  rewrite existsb_elem. unfold is_checkpoint, of_task, task_ck. setoid_rewrite andb_true_iff.
  setoid_rewrite String.eqb_eq. naive_solver.
Qed.
Lemma latest_spec w tid m : latest_checkpoint w tid = Some m →
  task_ck w tid m ∧ ∀ c, task_ck w tid c → str_leb (c_created_at c) (c_created_at m) = true.
Proof.
  unfold latest_checkpoint. setoid_rewrite task_ck_filter. destruct (List.filter _ _) as [|c l]; [done|]. intros [= <-].
  split; [apply py_max_elem|]. apply (py_max_key checkpoint_after).
  - intros a b [H|H]%orb_true_iff; [by apply str_ltb_leb|]. apply andb_true_iff in H as [->%String.eqb_eq _]. apply str_leb_refl.
  - intros a b [H _]%orb_false_iff. by rewrite str_leb_ltb, H.
Qed.
Lemma latest_none w tid c : latest_checkpoint w tid = None → ¬ task_ck w tid c.
Proof.
  unfold latest_checkpoint. rewrite task_ck_filter. destruct (List.filter _ _); [|done]. by intros _ ?%elem_of_nil.
Qed.

(** The checkpoint [e], if there is one, is in the table. *)
Definition known (w : TaskWorld) (tid : string) (e : option string) : Prop :=
  ∀ x, e = Some x → existsb (is_checkpoint tid x) (task_checkpoints w) = true.
(** [e] has a successor: a later checkpoint of the task. *)
Definition past (w : TaskWorld) (tid : string) (e : option string) : Prop :=
  known w tid e ∧ ∃ d, task_ck w tid d ∧
    ∀ c, task_ck w tid c → e = Some (c_checkpoint_id c) → str_ltb (c_created_at c) (c_created_at d) = true.
Lemma past_not_latest w tid e : past w tid e → _latest_checkpoint_id_locked w tid ≠ e.
Proof.
  intros (_ & d & Hd & Hp) <-. unfold _latest_checkpoint_id_locked in Hp.
  destruct (latest_checkpoint w tid) as [m|] eqn:El; [|by apply (latest_none _ _ d) in El].
  destruct (latest_spec _ _ _ El) as [Hm Hmax]. specialize (Hp m Hm eq_refl). specialize (Hmax d Hd).
  by rewrite str_leb_ltb, Hp in Hmax.
Qed.
Lemma known_latest w tid : known w tid (_latest_checkpoint_id_locked w tid).
Proof.
  intros x. unfold _latest_checkpoint_id_locked. destruct (latest_checkpoint w tid) as [m|] eqn:El; [|done].
  intros [= <-]. apply latest_spec in El as [Hm _]. apply is_checkpoint_spec. eauto.
Qed.

(** *** The table of checkpoints only grows *)

Inductive grown (w w' : TaskWorld) : Prop :=
| grown_same : no_checkpoint w w' → grown w w'
| grown_row c i : ticks_le w w' → (i < task_ticks w')%nat → c_created_at c = isoformat (py_clock i) →
    existsb (is_checkpoint (c_task_id c) (c_checkpoint_id c)) (task_checkpoints w) = false →
    task_checkpoints w' = task_checkpoints w ++ [c] → grown w w'.
Lemma grown_ticks w w' : grown w w' → ticks_le w w'.
Proof. by intros [[_ ?]|]. Qed.
Lemma grown_ck w w' tid c : grown w w' → task_ck w tid c → task_ck w' tid c.
Proof.
  intros [[E _]|d i _ _ _ _ E] [Hc Ht]; split; try done; [by rewrite E|]. rewrite E. apply elem_of_app. by left.
Qed.
Lemma grown_known w w' tid e : grown w w' → known w tid e → known w' tid e.
Proof.
  intros Hg Hk x Ex. specialize (Hk x Ex). apply is_checkpoint_spec in Hk as (c & Hc & Hx). apply is_checkpoint_spec.
  exists c. split; [by eapply grown_ck|done].
Qed.
(** The row of a checkpoint that is there stays what it is. *)
Lemma grown_known_row w w' tid c : grown w w' → task_ck w' tid c → known w tid (Some (c_checkpoint_id c)) → task_ck w tid c.
Proof.
  intros [[E _]|d i _ _ _ Hf E] [Hc Ht] Hk; rewrite E in Hc; [done|].
  apply elem_of_app in Hc as [Hc|Hc%list_elem_of_singleton]; [done|]. subst d. specialize (Hk _ eq_refl).
  rewrite Ht, Hk in Hf. done.
Qed.
Lemma grown_past w w' tid e : grown w w' → past w tid e → past w' tid e.
Proof.
  intros Hg (Hk & d & Hd & Hp). split; [by eapply grown_known|]. exists d. split; [by eapply grown_ck|].
  intros c Hc Ee. apply Hp; [|done]. eapply grown_known_row; [done..|by rewrite <-Ee].
Qed.

Lemma filter_kept {A} (p : A → bool) l : (∀ x, x ∈ l → p x = true) → List.filter p l = l.
Proof.
  intros H. induction l as [|x l IH]; simpl; [done|]. rewrite (H x) by left. f_equal. apply IH. intros y Hy. apply H. by right.
Qed.
Lemma save_grown tid cid st w :
  existsb (is_checkpoint (py_strip tid) (py_strip cid)) (task_checkpoints w) = false →
  grown w (save_checkpoint tid cid st w).1.
Proof.
  intros Hf. assert (grown w w) as Hsame by (apply grown_same; reflexivity). unfold save_checkpoint. rewrite bind_needed.
  destruct (truthy (py_strip tid)); [|done]. rewrite bind_needed. destruct (truthy (py_strip cid)); [|done].
  rewrite needed_found. destruct (truthy _); [|done]. destruct (task_row w _) as [r|]; [|done].
  eapply (grown_row _ _ {| c_task_id := py_strip tid; c_checkpoint_id := py_strip cid |} (task_ticks w));
    [unfold ticks_le; simpl; lia|simpl; lia|done|done|]. simpl. f_equal. apply filter_kept. intros c Hc.
  destruct (is_checkpoint _ _ c) eqn:E; [|done].
  assert (existsb (is_checkpoint (py_strip tid) (py_strip cid)) (task_checkpoints w) = true)
    by (apply existsb_elem; eauto). congruence.
Qed.
Lemma op_grown op w : is_commit op = false → saves_new op w → grown w (task_exec op w).
Proof.
  intros Hc Hs. destruct op; simpl in *; try done; try (by apply save_grown);
    apply grown_same; first [apply no_write_create|apply no_write_transition|apply no_write_outcome
      |apply no_write_metadata|apply no_write_mutate|apply no_write_acquire|apply no_write_refresh|apply no_write_release].
Qed.

(** *** Commits *)

Lemma check_outcome c t w w' r : commit_check c t w = (w', r) →
  w' = w ∧ ∀ u, r = Ok u → _latest_checkpoint_id_locked w (cl_task_id c) = cl_expected_checkpoint_id c.
Proof.
  intros E. pose proof (commit_check_world c t w) as Hw. rewrite E in Hw. split; [done|]. intros [] ->.
  by eapply commit_check_latest.
Qed.
Lemma write_outcome c cid st at_ w w' r : task_tx (commit_write c cid st at_) w = (w', r) →
  match r with
  | Ok _ => existsb (is_checkpoint (cl_task_id c) cid) (task_checkpoints w) = false ∧ task_ticks w' = task_ticks w ∧
      task_checkpoints w' = task_checkpoints w ++ [{| c_task_id := cl_task_id c; c_checkpoint_id := cid;
        c_created_at := isoformat at_; c_state := _dump_metadata st |}]
  | Raise _ => no_checkpoint w w'
  end.
Proof.
  rewrite task_tx_eq. destruct (commit_write c cid st at_ w) as [w2 r2] eqn:E.
  apply commit_write_effect in E. destruct r2 as [u|e]; intros [= <- <-]; [done|].
  split; [done|]. unfold ticks_le. simpl. lia.
Qed.
(** A commit is its parts in a row. *)
Lemma commit_phases c cid st w :
  commit_project_cycle_checkpoint c cid st None w =
  (cid' ← needed cid "checkpoint_id is required";
   t ← now_or_clock None;
   _ ← transaction task_rollback (commit_check c t);
   task_tx (commit_write c cid' st t)) w.
Proof.
  unfold commit_project_cycle_checkpoint. rewrite !bind_needed. destruct (truthy _); [|done].
  set (w1 := set_task_counters (S (task_ticks w)) (task_uuids w) w).
  rewrite !(bind_of_Ok (now_or_clock None) _ w w1 (py_clock (task_ticks w)) eq_refl).
  rewrite task_tx_eq. unfold transaction, mbind, M_bind. destruct (commit_check c _ w1) as [w2 [u|e]] eqn:Ec; [|done].
  destruct (check_outcome _ _ _ _ _ Ec) as [-> _]. by rewrite task_tx_eq.
Qed.
(** The checks under the lock. *)
Lemma checked_outcome c t w w' r : transaction task_rollback (commit_check c t) w = (w', r) →
  no_checkpoint w w' ∧
  ∀ u, r = Ok u → w' = w ∧ _latest_checkpoint_id_locked w (cl_task_id c) = cl_expected_checkpoint_id c.
Proof.
  unfold transaction. destruct (commit_check c t w) as [w2 [u|e]] eqn:Ec; intros [= <- <-];
    destruct (check_outcome _ _ _ _ _ Ec) as [-> Hl].
  - split; [reflexivity|]. intros u' _. split; [done|by apply (Hl u)].
  - by split; [frame|].
Qed.
Lemma acquire_expected tid owner e ttl now w w' c :
  acquire_project_cycle_claim tid owner e ttl now w = (w', Ok c) →
  known w (cl_task_id c) (cl_expected_checkpoint_id c).
Proof.
  unfold acquire_project_cycle_claim. rewrite bind_needed. destruct (truthy (py_strip tid)); [|done].
  rewrite bind_needed. destruct (truthy (py_strip owner)); [|done]. destruct (ttl <? 1); [done|].
  destruct (now_or_clock_spec now w) as (w1 & t & E & _ & Eck & _). rewrite (bind_of_Ok _ _ w w1 t E).
  unfold expiry. destruct (dt_add t (ttl * 1000000)) as [t'|ex]; [|done].
  rewrite (bind_of_Ok (mret _) _ w1 w1 _ eq_refl). rewrite task_tx_eq.
  destruct (acquire_locked _ _ _ _ _ w1) as [w2 [c2|ex]] eqn:Ea; [|done]. intros [= <- <-].
  unfold acquire_locked in Ea. rewrite bind_get_world in Ea. destruct (negb _) eqn:En; [done|].
  apply negb_false_iff, ostr_eqb_eq in En.
  assert (cl_task_id c2 = py_strip tid ∧ cl_expected_checkpoint_id c2 = text_or_none e) as [-> ->].
  { destruct (claim_row w1 _) as [c0|] eqn:Er; [|by injection Ea as _ <-]. msplit Ea as w3 until Eu.
    unfold take_over_claim in Ea. destruct (_ && _); [done|]. destruct (_ && _ && _) eqn:Eo; [|by injection Ea as _ <-].
    injection Ea as _ <-. bsplit. split; [by apply (claim_row_id w1)|]. by apply ostr_eqb_eq. }
  rewrite <-En. unfold known. rewrite <-Eck. apply known_latest.
Qed.

(** *** The invariant *)

(** A commit read the clock after its predecessor was written. *)
Definition call_ok (w : TaskWorld) (k : commit_call) : Prop :=
  known w (cc_task k) (cc_expected k) ∧
  ∃ i, (i < task_ticks w)%nat ∧ cc_at k = py_clock i ∧
    ∀ c, task_ck w (cc_task k) c → cc_expected k = Some (c_checkpoint_id c) →
      ∃ j, (j < i)%nat ∧ c_created_at c = isoformat (py_clock j).
Record repo_ok (s : Repo) : Prop := {
  ok_stamps : ∀ c, c ∈ task_checkpoints (rp_world s) →
    ∃ i, (i < task_ticks (rp_world s))%nat ∧ c_created_at c = isoformat (py_clock i);
  ok_claims : ∀ g, g ∈ rp_claims s → known (rp_world s) (cl_task_id g) (cl_expected_checkpoint_id g);
  ok_calls : ∀ k, k ∈ rp_calls s → call_ok (rp_world s) k;
  ok_lock : ∀ k, rp_lock s = Some k → call_ok (rp_world s) k ∧
    _latest_checkpoint_id_locked (rp_world s) (cc_task k) = cc_expected k;
  ok_commits : ∀ t e cid, (t, e, cid) ∈ rp_commits s →
    past (rp_world s) t e ∧ known (rp_world s) t (Some cid);
  ok_once : NoDup (map fst (rp_commits s));
}.

Lemma grown_call w w' k : grown w w' → call_ok w k → call_ok w' k.
Proof.
  intros Hg (Hk & i & Hi & Ei & Hr). split; [by eapply grown_known|]. exists i. apply grown_ticks in Hg as Ht.
  unfold ticks_le in Ht. split; [lia|]. split; [done|]. intros c Hc Ec. apply Hr; [|done].
  eapply grown_known_row; [done..|by rewrite <-Ec].
Qed.
Lemma grown_stamps w w' : grown w w' →
  (∀ c, c ∈ task_checkpoints w → ∃ i, (i < task_ticks w)%nat ∧ c_created_at c = isoformat (py_clock i)) →
  ∀ c, c ∈ task_checkpoints w' → ∃ i, (i < task_ticks w')%nat ∧ c_created_at c = isoformat (py_clock i).
Proof.
  intros Hg Hs c Hc. apply grown_ticks in Hg as Ht. unfold ticks_le in Ht.
  assert (c ∈ task_checkpoints w → ∃ i, (i < task_ticks w')%nat ∧ c_created_at c = isoformat (py_clock i)) as Hold
    by (intros H; destruct (Hs c H) as (i & ? & ?); exists i; split; [lia|done]).
  destruct Hg as [[E _]|d i _ Hi Hd _ E]; rewrite E in Hc; [by apply Hold|].
  apply elem_of_app in Hc as [Hc|Hc%list_elem_of_singleton]; [by apply Hold|]. subst d. eauto.
Qed.
(** What the growth of the table keeps, while no commit holds the lock. *)
Lemma grown_ok w w' calls claims commits : grown w w' →
  repo_ok {| rp_world := w; rp_calls := calls; rp_lock := None; rp_claims := claims; rp_commits := commits |} →
  repo_ok {| rp_world := w'; rp_calls := calls; rp_lock := None; rp_claims := claims; rp_commits := commits |}.
Proof.
  intros Hg [H1 H2 H3 _ H5 H6]. constructor; simpl in *; [by eapply grown_stamps|..|done].
  - intros g Hin. eapply grown_known; [done|by apply H2].
  - intros k Hin. eapply grown_call; [done|by apply H3].
  - done.
  - intros t e cid Hin. destruct (H5 t e cid Hin). split; [by eapply grown_past|by eapply grown_known].
Qed.

Section Chain.
Variable n : nat.
Hypothesis strict : clock_strict n.

Lemma begin_call_ok g c cid st w w' t :
  (∀ c, c ∈ task_checkpoints w → ∃ i, (i < task_ticks w)%nat ∧ c_created_at c = isoformat (py_clock i)) →
  known w (cl_task_id g) (cl_expected_checkpoint_id g) → cl_task_id g = cl_task_id c → same_claim g c = true →
  now_or_clock None w = (w', Ok t) → call_ok w' {| cc_claim := c; cc_id := cid; cc_blob := st; cc_at := t |}.
Proof.
  intros Hs Hk Ht (_ & _ & He)%same_claim_spec [= <- <-]. unfold call_ok, cc_task, cc_expected. simpl.
  rewrite <-Ht, <-He. split; [done|]. exists (task_ticks w). split; [lia|]. split; [done|]. intros r [Hr _] _.
  apply (Hs r Hr).
Qed.
Lemma begin_grown w w' t : now_or_clock None w = (w', Ok t) → no_checkpoint w w'.
Proof. intros [= <- <-]. frame. Qed.

(** The new checkpoint is later than the one its cycle started from. *)
Lemma written_past k w w' u : (task_ticks w' ≤ n)%nat → call_ok w k →
  task_tx (commit_write (cc_claim k) (cc_id k) (cc_blob k) (cc_at k)) w = (w', Ok u) →
  grown w w' ∧ past w' (cc_task k) (cc_expected k) ∧ known w' (cc_task k) (Some (cc_id k)).
Proof.
  intros Hn (Hk & i & Hi & Ei & Hr) Hw. apply write_outcome in Hw as (Hf & Ht & E).
  set (d := {| c_task_id := _; c_checkpoint_id := _ |}) in E.
  assert (grown w w') as Hg by (eapply (grown_row _ _ d i); [unfold ticks_le; lia|lia|by rewrite <-Ei|done|done]).
  assert (task_ck w' (cc_task k) d) as Hd by (split; [rewrite E; apply elem_of_app; right; by left|done]).
  split; [done|]. split; [|intros x [= <-]; apply is_checkpoint_spec; eauto].
  split; [by eapply grown_known|]. exists d. split; [done|]. intros c Hc Ec.
  assert (task_ck w (cc_task k) c) as Hc0 by (eapply grown_known_row; [done..|by rewrite <-Ec]).
  destruct (Hr c Hc0 Ec) as (j & Hj & ->). simpl. rewrite Ei. destruct strict as [Hlt Hok].
  rewrite isoformat_ltb by (apply Hok; lia). apply Z.ltb_lt, Hlt. lia.
Qed.

Lemma repo_step_ok s s' : repo_step s s' → (task_ticks (rp_world s') ≤ n)%nat → repo_ok s → repo_ok s'.
Proof.
  intros Hstep Hn Hok. destruct Hstep as [op w calls claims commits Hc Hs|tid owner e ttl now c w w' calls claims commits Ha
    |g c cid cid' st t w w' calls lock claims commits Hg Ht Hsame Hneed Hnow|k r w w' calls1 calls2 claims commits Hck
    |k r w w' calls claims commits Hw]; simpl in Hn.
  - by apply (grown_ok w); [apply op_grown|].
  - assert (grown w w') as Hg by (apply grown_same; pose proof (no_write_acquire tid owner e ttl now w) as H; by rewrite Ha in H).
    pose proof (acquire_expected _ _ _ _ _ _ _ _ Ha) as Hk. apply (grown_ok w w' _ _ _ Hg) in Hok as [H1 H2 H3 H4 H5 H6].
    constructor; simpl in *; try done. intros x [->|Hx]%elem_of_cons; [by eapply grown_known|by apply H2].
  - pose proof (begin_grown _ _ _ Hnow) as Hno. assert (grown w w') as Hgr by by apply grown_same.
    destruct Hok as [H1 H2 H3 H4 H5 H6]. constructor; simpl in *; [by eapply grown_stamps|..|done].
    + intros x Hx. eapply grown_known; [done|by apply H2].
    + intros k [->|Hk]%elem_of_cons; [|by eapply grown_call; [|apply H3]].
      by eapply (begin_call_ok g); [apply H1|apply H2|..].
    + intros k Hk. destruct (H4 k Hk) as [Hc Hl]. split; [by eapply grown_call|].
      unfold _latest_checkpoint_id_locked, latest_checkpoint in *. destruct Hno as [E _]. by rewrite E.
    + intros a b d Hin. destruct (H5 a b d Hin). split; [by eapply grown_past|by eapply grown_known].
  - apply checked_outcome in Hck as [Hg Hl]. apply (grown_ok w w') in Hok as [H1 H2 H3 _ H5 H6]; [|by apply grown_same].
    constructor; simpl in *; try done.
    + intros x Hx. apply H3. rewrite elem_of_app, elem_of_cons. apply elem_of_app in Hx. tauto.
    + intros x Hx. destruct r as [u|]; [|done]. injection Hx as <-. destruct (Hl u eq_refl) as [-> El]. split; [|done].
      apply H3. rewrite elem_of_app, elem_of_cons. auto.
  - destruct Hok as [H1 H2 H3 H4 H5 H6]. simpl in *. destruct (H4 k eq_refl) as [Hc Hl]. destruct r as [u|e].
    + destruct (written_past k w w' u Hn Hc Hw) as (Hg & Hp & Hk).
      assert ((cc_task k, cc_expected k) ∉ map fst commits) as Hfresh.
      { intros ([[t e] cid] & [= -> ->] & Hin%list_elem_of_In)%list_elem_of_In%in_map_iff.
        destruct (H5 _ _ _ Hin) as [Hp0 _]. by apply past_not_latest in Hp0. }
      assert (repo_ok {| rp_world := w'; rp_calls := calls; rp_lock := None; rp_claims := claims; rp_commits := commits |})
        as [G1 G2 G3 G4 G5 G6] by (apply (grown_ok w); [done|]; by constructor).
      constructor; simpl in *; try done; [|by constructor].
      intros t e cid [[= -> -> ->]|Hin]%elem_of_cons; [done|by apply (G5 _ _ cid)].
    + apply write_outcome in Hw. apply (grown_ok w); [by apply grown_same|]. by constructor.
Qed.
Lemma repo_step_ticks s s' : repo_step s s' → ticks_le (rp_world s) (rp_world s').
Proof.
  intros Hstep. destruct Hstep as [op w calls claims commits Hc Hs|tid owner e ttl now c w w' calls claims commits Ha
    |g c cid cid' st t w w' calls lock claims commits Hg Ht Hsame Hneed Hnow|k r w w' calls1 calls2 claims commits Hck
    |k r w w' calls claims commits Hw]; simpl.
  - by apply grown_ticks, op_grown.
  - pose proof (no_write_acquire tid owner e ttl now w) as H. rewrite Ha in H. apply H.
  - apply (begin_grown _ _ _ Hnow).
  - by apply checked_outcome in Hck as [[_ ?] _].
  - apply write_outcome in Hw. destruct r; [|apply Hw]. unfold ticks_le. lia.
Qed.
Lemma repo_run_ok s s' : rtc repo_step s s' → (task_ticks (rp_world s') ≤ n)%nat → repo_ok s → repo_ok s'.
Proof.
  induction 1 as [s|s s1 s' Hst Hrun IH]; [done|]. intros Hn Hok. apply IH; [done|]. eapply repo_step_ok; [done| |done].
  assert (ticks_le (rp_world s1) (rp_world s')) as Ht.
  { clear -Hrun. induction Hrun as [s|s s1 s' H _ IH]; [reflexivity|]. etrans; [by apply repo_step_ticks|done]. }
  unfold ticks_le in Ht. lia.
Qed.
End Chain.

(** A repository without checkpoints in which no commit is under way. *)
Definition repo_start (w : TaskWorld) : Repo :=
  {| rp_world := w; rp_calls := []; rp_lock := None; rp_claims := []; rp_commits := [] |}.
Lemma repo_start_ok w : task_checkpoints w = [] → repo_ok (repo_start w).
Proof.
  intros E. constructor; simpl; try (by intros; set_solver); [|constructor]. intros c. rewrite E. set_solver.
Qed.
Lemma past_refused c t w : past w (cl_task_id c) (cl_expected_checkpoint_id c) → refused (commit_check c t) w.
Proof.
  intros Hp%past_not_latest. destruct (commit_check c t w) as [w' [u|e]] eqn:E.
  - destruct (check_outcome _ _ _ _ _ E) as [_ Hl]. by destruct (Hp (Hl u eq_refl)).
  - destruct (check_outcome _ _ _ _ _ E) as [-> _]. by eapply refused_raise.
Qed.

(** C33: of the cycles that start from the same checkpoint of a project at most one
    commits, however many threads commit at once through one repository, as long as
    the clock advances and no checkpoint is saved again under its identifier: the
    committed checkpoints have different predecessors, each is in the table, and the
    checks of any other commit from such a predecessor refuse it. *)
Theorem checkpoint_committed_once w0 s :
  task_checkpoints w0 = [] → rtc repo_step (repo_start w0) s → clock_strict (task_ticks (rp_world s)) →
  NoDup (map fst (rp_commits s)) ∧
  (∀ t e cid, (t, e, cid) ∈ rp_commits s → existsb (is_checkpoint t cid) (task_checkpoints (rp_world s)) = true) ∧
  (∀ c t, (cl_task_id c, cl_expected_checkpoint_id c) ∈ map fst (rp_commits s) →
     refused (commit_check c t) (rp_world s)).
Proof.
  intros H0 Hrun Hst. destruct (repo_run_ok _ Hst _ _ Hrun (le_n _) (repo_start_ok w0 H0)) as [_ _ _ _ H5 H6].
  split; [done|]. split; [intros t e cid Hin; by apply (H5 t e cid Hin)|].
  intros c t ([[t' e] cid] & [= -> ->] & Hin%list_elem_of_In)%list_elem_of_In%in_map_iff. apply past_refused.
  by apply (H5 _ _ _ Hin).
Qed.

(** ** The state machine of tasks *)

Definition terminal (s : TaskLifecycleState) : Prop := s ∈ _TERMINAL_TASK_STATES.
Definition trimmed (x : string) : Prop := py_strip x = x ∧ truthy x = true.
(** A finished task has the time at which it finished. *)
Definition row_ok (r : TaskLifecycleRecord) : Prop :=
  trimmed (k_task_id r) ∧ trimmed (k_cron_job_id r) ∧
  (k_state r = DONE → k_completed_at r ≠ None) ∧ (k_state r = FAILED → k_failed_at r ≠ None).
Definition tasks_ok (w : TaskWorld) : Prop :=
  NoDup (map k_task_id (tasks w)) ∧ NoDup (map k_cron_job_id (tasks w)) ∧ ∀ r, r ∈ tasks w → row_ok r.
(** A row stays, with its identifiers; a terminal state is final. *)
Definition rows_kept (w w' : TaskWorld) : Prop :=
  ∀ i r, tasks w !! i = Some r → ∃ r', tasks w' !! i = Some r' ∧ k_task_id r' = k_task_id r ∧
    k_cron_job_id r' = k_cron_job_id r ∧ (terminal (k_state r) → k_state r' = k_state r).
Definition good_step (w w' : TaskWorld) : Prop := tasks_ok w → tasks_ok w' ∧ rows_kept w w'.

#[global] Instance good_step_preorder : PreOrder good_step.
Proof.
  split.
  - intros w Hw. split; [done|]. intros i r Hr. by exists r.
  - intros w1 w2 w3 H12 H23 Hw. destruct (H12 Hw) as [Hw2 K12]. destruct (H23 Hw2) as [Hw3 K23]. split; [done|].
    intros i r Hr. destruct (K12 i r Hr) as (r2 & Hr2 & I2 & J2 & T2). destruct (K23 i r2 Hr2) as (r3 & Hr3 & I3 & J3 & T3).
    exists r3. split_and!; [done|congruence|congruence|]. intros Ht. rewrite T3; [by apply T2|]. by rewrite (T2 Ht).
Qed.
Lemma good_same w w' : tasks w' = tasks w → good_step w w'.
Proof.
  intros E Hw. unfold tasks_ok, rows_kept. rewrite E. split; [done|]. intros i r Hr. by exists r.
Qed.

(** An update of rows that keeps identifiers, terminal states and well-formed rows. *)
Lemma update_good p f w :
  (∀ r, k_task_id (f r) = k_task_id r ∧ k_cron_job_id (f r) = k_cron_job_id r) →
  (tasks_ok w → ∀ r, r ∈ tasks w → p r = true → row_ok r →
     row_ok (f r) ∧ (terminal (k_state r) → k_state (f r) = k_state r)) →
  good_step w (set_task_rows (update_where p f) w).
Proof.
  intros Hid Hf Hw. specialize (Hf Hw). destruct Hw as (H1 & H2 & H3). split.
  - split_and!; simpl; [rewrite update_where_map; [done|apply Hid]..|].
    intros r (x & Hx & [[Hp ->]|[_ ->]])%update_where_elem; [|by apply H3]. apply Hf; auto.
  - intros i r Hr. simpl. unfold update_where. rewrite list_lookup_fmap, Hr. simpl.
    assert (r ∈ tasks w) as Hin by (apply list_elem_of_lookup; eauto).
    destruct (p r) eqn:Ep; eexists; (split; [done|]); [|done]. destruct (Hid r). split_and!; [done|done|].
    apply Hf; auto.
Qed.
Lemma metadata_good p md now w : good_step w (set_task_rows (update_where p (task_with_metadata md now)) w).
Proof. apply update_good; [done|]. intros _ r _ _ Hr. by split. Qed.

Lemma task_row_spec w tid r : NoDup (map k_task_id (tasks w)) → task_row w tid = Some r ↔ r ∈ tasks w ∧ k_task_id r = tid.
Proof.
  intros Hn. unfold task_row. split.
  - destruct (List.filter _ _) as [|y ys] eqn:E; [done|]. intros [= ->]. assert (r ∈ r :: ys) as H by left.
    rewrite <-E in H. by apply filter_elem in H as [? ?%String.eqb_eq].
  - intros [Hr Hid]. assert (r ∈ List.filter (has_task_id tid) (tasks w)) as H
      by (apply filter_elem; split; [done|by apply String.eqb_eq]).
    destruct (List.filter _ _) as [|y ys] eqn:E; [by apply elem_of_nil in H|]. simpl. f_equal.
    assert (y ∈ y :: ys) as Hy by left. rewrite <-E in Hy. apply filter_elem in Hy as [Hy Hiy%String.eqb_eq].
    apply list_elem_of_lookup in Hr as [i Hi], Hy as [j Hj].
    assert (i = j) as ->; [|congruence].
    apply (NoDup_lookup _ i j tid Hn); rewrite list_lookup_fmap; [rewrite Hi|rewrite Hj]; simpl; congruence.
Qed.

Lemma allowed_open s s' : state_in s' (_ALLOWED_STATE_TRANSITIONS s) = true → ¬ terminal s.
Proof.
  unfold terminal, _TERMINAL_TASK_STATES. intros H. destruct s; try by apply bool_decide_eq_true, elem_of_nil in H.
  all: rewrite !elem_of_cons, elem_of_nil; naive_solver.
Qed.
Lemma open_not_terminal s : state_in s [ACTIVE; PAUSED] = true → ¬ terminal s.
Proof.
  unfold terminal, _TERMINAL_TASK_STATES, state_in. rewrite bool_decide_eq_true, !elem_of_cons, !elem_of_nil. naive_solver.
Qed.
Lemma some_or_some o now : some_or o now ≠ None.
Proof. by destruct o. Qed.

Lemma reread_good tid w : good_step w (reread tid w).1.
Proof.
  apply good_same. unfold reread, _require_task_record. rewrite needed_found. destruct (truthy _); [|done].
  by destruct (task_row _ _).
Qed.
Lemma commit_reread_good tid w : good_step w ((_ ← task_commit; reread tid) w).1.
Proof.
  rewrite (bind_of_Ok task_commit _ w (set_in_transaction false w) () eq_refl).
  trans (set_in_transaction false w); [by apply good_same|apply reread_good].
Qed.
Lemma transition_write_good record to_state reason w :
  (tasks_ok w → record ∈ tasks w) → ¬ terminal (k_state record) →
  good_step w (transition_write record to_state reason w).1.
Proof.
  intros Hrec Hopen. unfold transition_write, _utc_now_iso.
  set (w1 := set_task_counters (S (task_ticks w)) (task_uuids w) w).
  rewrite (bind_of_Ok _ _ w w1 (isoformat (py_clock (task_ticks w))) eq_refl). set (now := isoformat _).
  set (w2 := set_task_rows (update_where (has_task_id (k_task_id record)) (task_with_state to_state now
    (if bool_decide (to_state = CANCELLED) then some_or (k_cancelled_at record) now else k_cancelled_at record)
    (if bool_decide (to_state = DONE) then some_or (k_completed_at record) now else k_completed_at record)
    (if bool_decide (to_state = FAILED) then Some now else k_failed_at record)
    (if bool_decide (to_state = FAILED)
     then Some (if truthy (py_strip (default "" reason)) then py_strip (default "" reason) else "failed")
     else k_failure_reason record))) w1).
  rewrite (bind_of_Ok (update_tasks _ _) _ w1 w2 () eq_refl).
  assert (good_step w w2) as H2.
  { trans w1; [by apply good_same|]. apply update_good; [done|]. intros Hok r Hr Hp%String.eqb_eq (Hi1 & Hi2 & _).
    specialize (Hrec Hok). assert (r = record) as ->.
    { assert (task_row w1 (k_task_id record) = Some r) as E1 by (apply task_row_spec; [apply Hok|done]).
      assert (task_row w1 (k_task_id record) = Some record) as E2 by (apply task_row_spec; [apply Hok|done]). congruence. }
    split; [|by intros ?]. split; [done|]. split; [done|].
    split; cbn [task_with_state k_state k_completed_at k_failed_at]; intros ->;
      (rewrite bool_decide_eq_true_2 by done); [apply some_or_some|done]. }
  etrans; [exact H2|]. destruct (_ && _).
  - rewrite (bind_of_Ok (update_tasks _ _) _ w2 _ () eq_refl). etrans; [|apply commit_reread_good].
    apply update_good; [done|]. intros _ r _ Hp (Hi1 & Hi2 & Ha & Hb). unfold open_mode_child in Hp. bsplit.
    split; [by split_and!|]. intros Ht. by apply open_not_terminal in Ht.
  - rewrite (bind_of_Ok (mret ()) _ w2 w2 () eq_refl). apply commit_reread_good.
Qed.

Lemma transition_good tid s reason w : good_step w (transition tid s reason w).1.
Proof.
  unfold transition. destruct (_normalize_task_state s) as [target|e]; [|by apply good_same].
  rewrite (bind_of_Ok (lift_result _) _ w w target eq_refl), needed_found.
  destruct (truthy _); [|by apply good_same]. destruct (task_row w _) as [record|] eqn:Er; [|by apply good_same].
  rewrite (bind_of_Ok (task_found (Some record) tid) _ w w record eq_refl). case_bool_decide; [by apply good_same|].
  destruct (negb _) eqn:Ea; [by apply good_same|]. apply negb_false_iff, allowed_open in Ea.
  apply transition_write_good; [|done]. intros Hok. by apply task_row_spec in Er as [? _]; [|apply Hok].
Qed.

Lemma outcome_good tid e s md reason w : good_step w (record_scheduled_outcome tid e s md reason w).1.
Proof.
  unfold record_scheduled_outcome. rewrite needed_found. destruct (truthy _); [|by apply good_same].
  destruct (task_row w _) as [record|] eqn:Er; [|by apply good_same].
  rewrite (bind_of_Ok (task_found (Some record) tid) _ w w record eq_refl).
  destruct (negb (bool_decide (k_state record = e))) eqn:Es; [by apply good_same|].
  apply negb_false_iff, bool_decide_eq_true in Es. destruct (_ && _) eqn:Ea; [by apply good_same|].
  unfold _utc_now_iso. set (w1 := set_task_counters (S (task_ticks w)) (task_uuids w) w).
  rewrite (bind_of_Ok _ _ w w1 (isoformat (py_clock (task_ticks w))) eq_refl). set (now := isoformat _).
  rewrite (bind_of_Ok (update_tasks _ _) _ w1 _ () eq_refl).
  etrans; [|apply commit_reread_good]. trans w1; [by apply good_same|]. apply update_good; [done|].
  intros _ r Hr Hp (Hi1 & Hi2 & _). apply andb_true_iff in Hp as [_ Hst%bool_decide_eq_true].
  split; [split; [done|]; split; [done|]; split; cbn [task_with_state task_with_metadata k_state k_completed_at k_failed_at]; intros ->;
    (rewrite bool_decide_eq_true_2 by done); [apply some_or_some|done]|].
  intros Ht. cbn [task_with_state task_with_metadata k_state]. apply andb_false_iff in Ea as [Ea|Ea]; apply negb_false_iff in Ea.
  - apply bool_decide_eq_true in Ea. congruence.
  - apply allowed_open in Ea. by rewrite Hst in Ht.
Qed.

Lemma NoDup_map_snoc {A B} (g : A → B) l x :
  NoDup (map g l) → (∀ y, y ∈ l → g y ≠ g x) → NoDup (map g (l ++ [x])).
Proof.
  intros Hn Hx. rewrite map_app. apply NoDup_app. split; [done|]. split; [|apply NoDup_singleton].
  intros y Hy Hin. apply list_elem_of_singleton in Hin as ->. apply list_elem_of_In, in_map_iff in Hy as (z & Hz & Hzl).
  apply (Hx z); [by apply list_elem_of_In|done].
Qed.
Lemma insert_task_good r w : row_ok r → good_step w (insert_task r w).1.
Proof.
  intros Hr Hw. unfold insert_task.
  assert (∀ w', tasks w' = tasks w → tasks_ok w' ∧ rows_kept w w') as Hsame by (intros w' E; by apply good_same).
  destruct (existsb (has_task_id _) _) eqn:E1; [by apply Hsame|]. destruct (existsb (has_cron_job _) _) eqn:E2; [by apply Hsame|].
  destruct Hw as (H1 & H2 & H3).
  assert (∀ p y, existsb p (tasks w) = false → y ∈ tasks w → p y = false) as Hno.
  { intros p y E Hy. destruct (p y) eqn:Ep; [|done]. assert (existsb p (tasks w) = true) by (apply existsb_elem; eauto). congruence. }
  split.
  - split_and!; simpl.
    + apply NoDup_map_snoc; [done|]. intros y Hy. by apply String.eqb_neq, (Hno (has_task_id (k_task_id r))).
    + apply NoDup_map_snoc; [done|]. intros y Hy. by apply String.eqb_neq, (Hno (has_cron_job (k_cron_job_id r))).
    + intros y [Hy| ->%list_elem_of_singleton]%elem_of_app; [by apply H3|done].
  - intros i x Hx. exists x. split; [|done]. simpl. by apply lookup_app_l_Some.
Qed.
Lemma create_good tid jid a s md w : good_step w (task_create tid jid a s md w).1.
Proof.
  unfold task_create. rewrite bind_needed. destruct (truthy (py_strip tid)) eqn:Et; [|by apply good_same].
  rewrite bind_needed. destruct (truthy (py_strip jid)) eqn:Ej; [|by apply good_same].
  unfold _utc_now_iso. set (w1 := set_task_counters (S (task_ticks w)) (task_uuids w) w).
  rewrite (bind_of_Ok _ _ w w1 (isoformat (py_clock (task_ticks w))) eq_refl).
  trans w1; [by apply good_same|]. unfold mbind at 1, M_bind at 1.
  match goal with |- context[insert_task ?r w1] => assert (good_step w1 (insert_task r w1).1) as H;
    [apply insert_task_good|destruct (insert_task r w1) as [w2 [[]|e]]; [|done]] end.
  - split; [split; [apply strip_idem|done]|]. split; [split; [apply strip_idem|done]|].
    split; cbn; intros ->; by rewrite bool_decide_eq_true_2.
  - etrans; [exact H|apply commit_reread_good].
Qed.

Ltac good := twithin ltac:(first
  [ apply metadata_good | by apply good_same
  | match goal with |- ∀ w w', _ → _ => intros ? ? _; by apply good_same end ]).
Lemma exec_good op w : good_step w (task_exec op w).
Proof.
  destruct op; simpl.
  - apply create_good.
  - revert w. change (within good_step (update_metadata task_id metadata)). unfold update_metadata. good.
  - revert w. change (within good_step (mutate_metadata task_id mutate)). unfold mutate_metadata. good.
  - apply transition_good.
  - apply outcome_good.
  - revert w. change (within good_step (save_checkpoint task_id checkpoint_id state)). unfold save_checkpoint. good.
  - revert w. change (within good_step (acquire_project_cycle_claim task_id owner_id expected ttl now)).
    unfold acquire_project_cycle_claim, acquire_locked, take_over_claim, grant_claim, upsert_claim, _parse_claim_time, expiry.
    good.
  - revert w. change (within good_step (refresh_project_cycle_claim claim ttl now)).
    unfold refresh_project_cycle_claim, _require_matching_claim, _parse_claim_time, expiry, set_claim_expiry. good.
  - revert w. change (within good_step (release_project_cycle_claim claim now)).
    unfold release_project_cycle_claim, _require_matching_claim, _parse_claim_time, set_claim_expiry. good.
  - revert w. change (within good_step (commit_project_cycle_checkpoint claim checkpoint_id state now)).
    unfold commit_project_cycle_checkpoint, commit_check, commit_write, insert_checkpoint, _require_matching_claim,
      _parse_claim_time.
    good. intros w. apply good_same. simpl. by destruct (existsb _ _).
  - revert w. change (within good_step (task_tx (commit_write claim checkpoint_id state committed_at))).
    unfold commit_write, insert_checkpoint. good. intros w. apply good_same. simpl. by destruct (existsb _ _).
Qed.

Lemma run_good w w' : rtc task_step w w' → good_step w w'.
Proof. induction 1 as [w|w w1 w' [op ->] _ IH]; [reflexivity|]. etrans; [apply exec_good|done]. Qed.
Lemma rows_kept_row w w' tid r : tasks_ok w → tasks_ok w' → rows_kept w w' → task_row w tid = Some r →
  ∃ r', task_row w' tid = Some r' ∧ k_cron_job_id r' = k_cron_job_id r ∧ (terminal (k_state r) → k_state r' = k_state r).
Proof.
  intros Hw Hw' Hk Hr. apply task_row_spec in Hr as [Hr Hid]; [|apply Hw].
  apply list_elem_of_lookup in Hr as [i Hi]. destruct (Hk i r Hi) as (r' & Hi' & Hid' & Hj & Ht). exists r'.
  split_and!; [|done|done]. apply task_row_spec; [apply Hw'|]. split; [apply list_elem_of_lookup; eauto|congruence].
Qed.

(** A task is never removed and keeps its job; once it is cancelled, done or
    failed its state never changes again, whatever operations follow; and a task
    that is done or failed has the time at which that happened. *)
Theorem terminal_task_final w0 w w' tid r :
  tasks w0 = [] → rtc task_step w0 w → task_row w tid = Some r → rtc task_step w w' →
  ∃ r', task_row w' tid = Some r' ∧ k_cron_job_id r' = k_cron_job_id r ∧
    (terminal (k_state r) → k_state r' = k_state r) ∧ row_ok r'.
Proof.
  intros H0 Hr Hrow Hr'. assert (tasks_ok w0) as Hok0.
  { unfold tasks_ok. rewrite H0. split_and!; [constructor..|by intros x Hx%elem_of_nil]. }
  destruct (run_good w0 w Hr Hok0) as [Hok _]. destruct (run_good w w' Hr' Hok) as [Hok' Hk].
  destruct (rows_kept_row w w' tid r Hok Hok' Hk Hrow) as (r' & E & Hj & Ht). exists r'. split_and!; [done..|].
  apply task_row_spec in E as [E _]; [|apply Hok']. by apply Hok'.
Qed.

(** ** What a transition accepts *)

Lemma update_row_lookup w p f tid r : NoDup (map k_task_id (tasks w)) →
  (∀ x, k_task_id (f x) = k_task_id x) → task_row w tid = Some r →
  task_row (set_task_rows (update_where p f) w) tid = Some (if p r then f r else r).
Proof.
  intros Hn Hid Hr. apply task_row_spec in Hr as [Hr Ht]; [|done]. apply task_row_spec.
  - simpl. by rewrite update_where_map.
  - simpl. split; [|destruct (p r); rewrite ?Hid; done]. apply update_where_elem. exists r. destruct (p r) eqn:E; auto.
Qed.
End Props.
