(* ===== verification/TaskManager.v ===== *)
(** The task manager ([modules/task/runtime/lifecycle_manager.py],
    [lifecycle_progress.py] and [lifecycle_schedule.py]): task records on top of
    the lifecycle repository and a cron store.  The cron store is an instance of
    [TaskCronStoreProtocol]: the modelled store, or the one that has no cron
    ([_NullCronRepository]).  The two databases share the clock and the source of
    identifiers; in one file, the cron store sees the jobs of the table of tasks, and
    the connection of the repository, left in a transaction, locks the store out.  Jobs and
    runs are taken as rows; [row_to_cron_run] is the mapping a run is passed as. *)

From S2P Require Import Prelude PyValue Timestamps PyText Schedule CronTables CronStore TaskLife.
From Stdlib Require Import Ascii.

Local Open Scope Z_scope.

Abbreviation KM A := (M CronWorld task_exn A).
(** [TaskCronStoreProtocol]; [replace_payload] is [None] when the repository has no
    callable [replace_cron_job_payload]. *)
Class TaskCronStoreProtocol := {
  p_add_cron_job : NewCronJob → KM string;
  p_delete_cron_job : string → KM ();
  p_get_cron_job : string → KM (option CronJob);
  p_list_cron_jobs : Z → option string → bool → KM (list CronJob);
  p_list_unresolved_task_runs : Z → Z → KM (list CronRun);
  p_set_cron_job_enabled : string → bool → bool → option string → KM ();
  p_list_cron_runs : option string → Z → list string → KM (list CronRun);
  p_trigger_task_run_now : string → KM CronRun;
  p_update_task_cron_job : string → string → pyval → string → KM CronJob;
  p_delete_terminal_cron_runs : string → KM nat;
  p_get_cron_scheduler_control : KM SchedulerControl;
  p_set_cron_scheduler_control : bool → option string → string → string → KM SchedulerControl;
  p_replace_cron_job_payload : option (string → pyval → KM ());
}.

(** A method of the cron store, its exceptions wrapped. *)
Definition from_cron {A} (m : CM A) : KM A := λ w,
  match m w with
  | (w', Ok a) => (w', Ok a)
  | (w', Raise e) => (w', Raise (TaskCronError e))
  end.
Definition unavailable {A} (msg : string) : KM A := raise (TaskNotImplemented msg).
Definition _NullCronRepository : TaskCronStoreProtocol := {|
  p_add_cron_job _ := unavailable "Cron scheduling is unavailable for linked tasks";
  p_delete_cron_job _ := mret ();
  p_get_cron_job _ := mret None;
  p_list_cron_jobs _ _ _ := mret [];
  p_list_unresolved_task_runs _ _ := mret [];
  p_set_cron_job_enabled _ _ _ _ := mret ();
  p_list_cron_runs _ _ _ := mret [];
  p_trigger_task_run_now _ := unavailable "Cron scheduling is unavailable";
  p_update_task_cron_job _ _ _ _ := unavailable "Cron scheduling is unavailable";
  p_delete_terminal_cron_runs _ := unavailable "Cron scheduling is unavailable";
  p_get_cron_scheduler_control := unavailable "Cron scheduling is unavailable";
  p_set_cron_scheduler_control _ _ _ _ := unavailable "Cron scheduling is unavailable";
  p_replace_cron_job_payload := None;
|}.
#[export] Instance cron_store_protocol `{PyEnv} `{ScheduleEnv} : TaskCronStoreProtocol := {|
  p_add_cron_job a := from_cron (add_cron_job a);
  p_delete_cron_job jid := from_cron (delete_cron_job jid);
  p_get_cron_job jid := from_cron (get_cron_job jid);
  p_list_cron_jobs limit agent unowned := from_cron (list_cron_jobs None limit agent unowned);
  p_list_unresolved_task_runs limit offset := from_cron (list_unresolved_task_runs limit offset);
  p_set_cron_job_enabled jid enabled cancel due := from_cron (set_cron_job_enabled jid enabled cancel due);
  p_list_cron_runs jid limit states := from_cron (list_cron_runs jid limit states);
  p_trigger_task_run_now jid := from_cron (trigger_task_run_now jid);
  p_update_task_cron_job jid instruction schedule expected :=
    from_cron (update_task_cron_job jid instruction schedule expected);
  p_delete_terminal_cron_runs jid := from_cron (delete_terminal_cron_runs jid);
  p_get_cron_scheduler_control := from_cron get_cron_scheduler_control;
  p_set_cron_scheduler_control paused reason actor expected :=
    from_cron (set_cron_scheduler_control paused reason actor expected);
  p_replace_cron_job_payload := Some (λ jid payload, from_cron (replace_cron_job_payload jid payload));
|}.

(** ** The two databases *)

(** [mw_one_file]: the cron store and the lifecycle repository have one file, each
    through a connection of its own; [false] for two files, or no cron store. *)
Record ManagerWorld := { mw_cron : CronWorld; mw_tasks : TaskWorld; mw_one_file : bool }.
Abbreviation MM A := (M ManagerWorld task_exn A).

Definition set_mw_tasks (t : TaskWorld) (w : ManagerWorld) : ManagerWorld :=
  {| mw_cron := mw_cron w; mw_tasks := t; mw_one_file := mw_one_file w |}.
Definition on_tasks {A} (m : TkM A) : MM A := λ w,
  match m (mw_tasks w) with (t, r) => (set_mw_tasks t w, r) end.
(** The cron database with the counters and, in one file, the table of tasks. *)
Definition cron_view (w : ManagerWorld) : CronWorld :=
  let t := mw_tasks w in
  let c := mw_cron w in
  {| cron_jobs := cron_jobs c; cron_runs := cron_runs c; scheduler_control := scheduler_control c;
     cron_scope_state := cron_scope_state c;
     scheduled_tasks := if mw_one_file w then Some (map k_cron_job_id (tasks t)) else scheduled_tasks c;
     cron_ticks := task_ticks t; cron_uuids := task_uuids t |}.
Definition set_mw_cron (c : CronWorld) (w : ManagerWorld) : ManagerWorld :=
  {| mw_cron := c; mw_tasks := set_task_counters (cron_ticks c) (cron_uuids c) (mw_tasks w);
     mw_one_file := mw_one_file w |}.
Definition on_cron {A} (m : KM A) : MM A := λ w,
  match m (cron_view w) with (c, r) => (set_mw_cron c w, r) end.

(** The other connection is in a transaction and holds the write lock of the file.
    A method that writes then raises, after its checks, and writes nothing. *)
Definition file_locked (w : ManagerWorld) : bool := mw_one_file w && in_transaction (mw_tasks w).
Definition unwritten (w w' : ManagerWorld) : ManagerWorld :=
  set_mw_tasks (set_task_counters (task_ticks (mw_tasks w')) (task_uuids (mw_tasks w')) (mw_tasks w)) w.
Definition on_cron_write {A} (m : KM A) : MM A := λ w,
  if file_locked w then
    match on_cron m w with
    | (w', Ok _) => (unwritten w w', Raise (TaskOperationalError "database is locked"))
    | (w', Raise e) => (unwritten w w', Raise e)
    end
  else on_cron m w.
(** [try: m except Exception as e: h(e)] *)
Definition try_except {A} (m : MM A) (h : task_exn → MM A) : MM A := λ w,
  match m w with
  | (w', Ok a) => (w', Ok a)
  | (w', Raise e) => h e w'
  end.

(** ** Outcomes of runs *)

Definition _TERMINAL_RUN_STATES : list string := ["finished"; "failed"; "cancelled"; "timed_out"].

(** [s[:n]] *)
Definition cut (n : nat) (s : string) : string := String.substring 0 n s.
Definition bounded_task_run_error (error : pyval) : pyval :=
  match error with
  | PDict e =>
      let result := [("code", PStr (cut 100 (py_str (py_or (dget_none e "code") (PStr "failed")))));
                     ("message", PStr (cut 500 (py_str (py_or (dget_none e "message") (PStr "")))))] in
      PDict (match dget_none e "details" with
             | PDict details => dset result "details" (PDict (take 20 details))
             | _ => result
             end)
  | _ => PNone
  end.

(** The values of a mapping; anything else has none. *)
Definition as_dict (v : pyval) : dict := match v with PDict d => d | _ => [] end.
Definition is_mapping (v : pyval) : bool := match v with PDict _ => true | _ => false end.

Definition _project_security_scan_outcome (metadata : dict) (output : pyval) (run_id run_state cron_job_id : string)
    : dict :=
  if negb (dmem metadata "security_scan_admission") then metadata
  else
    let scan_state := dset (dset (as_dict (dget_none metadata "security_scan")) "status" (PStr run_state))
                        "completed_run_id" (PStr run_id) in
    let verified := if is_mapping output then dget_none (as_dict output) "security_scan" else PNone in
    let scan_state :=
      if is_mapping verified && py_eq (dget_none (as_dict verified) "job_id") (PStr cron_job_id)
         && py_eq (dget_none (as_dict verified) "run_id") (PStr run_id)
      then
        let scan_state := dset scan_state "last_attempt" verified in
        if String.eqb run_state "finished" && py_eq (dget_none (as_dict verified) "status") (PStr "completed")
        then dupdate scan_state (as_dict verified) else scan_state
      else scan_state in
    dset metadata "security_scan" (PDict scan_state).

Definition last_run_entry (run : dict) (run_id run_state : string) : pyval :=
  let summary := cut 1000 (py_str (py_or (dget_none run "summary") (PStr ""))) in
  PDict [("run_id", PStr run_id); ("state", PStr run_state); ("due_at", dget_none run "due_at");
         ("finished_at", dget_none run "finished_at");
         ("summary", if truthy summary then PStr summary else PNone);
         ("last_error", bounded_task_run_error (dget_none run "error"))].

(** [json.dumps(scan, separators=(",", ":"), ensure_ascii=False).encode()] *)
Definition utf8_char (c : ascii) : string :=
  let n := N_of_ascii c in
  if (n <? 128)%N then String c EmptyString else chr (192 + n / 64) +:+ chr (128 + n mod 64).
Definition json_raw_char (c : ascii) : string :=
  let n := N_of_ascii c in if (126 <? n)%N then utf8_char c else json_char c.
Fixpoint json_raw (v : pyval) : string :=
  match v with
  | PStr s => chr 34 +:+ concat_map_str json_raw_char s +:+ chr 34
  | PList l => "[" +:+ py_join "," (map json_raw l) +:+ "]"
  | PDict d => "{" +:+ py_join "," (map (λ '(k, v), chr 34 +:+ concat_map_str json_raw_char k +:+ chr 34
                                          +:+ ":" +:+ json_raw v) d) +:+ "}"
  | _ => json_text v
  end.

Section Manager.
Context {Env : PyEnv} {Sched : ScheduleEnv} {Cron : TaskCronStoreProtocol}.

Definition lift_task {A} (r : result task_exn A) : MM A := lift_result r.
Definition lift_pr {A} (r : PR A) : MM A :=
  lift_result (match r with Ok a => Ok a | Raise e => Raise (TaskPyError e) end).

(** ** Records *)

Definition get_task (task_id : string) : MM (option TaskLifecycleRecord) := on_tasks (task_get task_id).
Definition get_task_by_job (cron_job_id : string) : MM (option TaskLifecycleRecord) :=
  on_tasks (get_by_cron_job_id cron_job_id).

Definition ensure_task_record (cron_job_id : string) (agent_id task_id : option string) (metadata : dict)
    : MM TaskLifecycleRecord :=
  let effective_task_id := py_strip (str_or task_id cron_job_id) in
  existing ← get_task effective_task_id;
  match existing with
  | Some r => mret r
  | None => on_tasks (task_create effective_task_id (py_strip cron_job_id) agent_id ACTIVE metadata)
  end.
Definition ensure_task_record_for_job (job : CronJob) : MM TaskLifecycleRecord :=
  let job_id := py_strip (j_job_id job) in
  if negb (truthy job_id) then raise (TaskValueError "cron job payload is missing job_id")
  else ensure_task_record job_id (text_or_none (j_agent_id job)) (Some job_id) [].

Definition new_or_given (task_id : option string) : MM string :=
  t ← (if otruthy task_id then mret (default "" task_id) else on_tasks _new_task_id);
  mret (py_strip t).
Definition create_linked_task (linked_job_id : string) (agent_id : option string) (metadata : dict)
    (task_id : option string) : MM TaskLifecycleRecord :=
  let jid := py_strip linked_job_id in
  if negb (truthy jid) then raise (TaskValueError "linked_job_id is required")
  else
    tid ← new_or_given task_id;
    on_tasks (task_create tid jid agent_id ACTIVE metadata).
Definition create_task (session_id mode_name goal : string) (agent_id : option string) (metadata : dict)
    (task_id : option string) : MM TaskLifecycleRecord :=
  let sid := py_strip session_id in
  let mode := py_strip mode_name in
  let g := py_strip goal in
  if negb (truthy sid) then raise (TaskValueError "session_id is required")
  else if negb (truthy mode) then raise (TaskValueError "mode_name is required")
  else if negb (truthy g) then raise (TaskValueError "goal is required")
  else
    tid ← new_or_given task_id;
    let base := [("kind", PStr "mode"); ("parent_session_id", PStr sid); ("mode_name", PStr mode);
                 ("goal", PStr g); ("resume_count", PInt 0)] in
    on_tasks (task_create tid tid agent_id ACTIVE (dupdate base metadata)).

Definition list_open_tasks_for_session (session_id : string) (mode_name : option string) (limit : Z)
    : MM (list TaskLifecycleRecord) :=
  let sid := py_strip session_id in
  if negb (truthy sid) then raise (TaskValueError "session_id is required")
  else
    records ← on_tasks (task_list (Z.max 1 (Z.min limit 1000)) None false);
    mret (List.filter (λ r,
      state_in (k_state r) [ACTIVE; PAUSED]
      && String.eqb (py_strip (py_str (py_or (py_or (dget_none (k_metadata r) "parent_session_id")
           (dget_none (k_metadata r) "session_id")) (PStr "")))) sid
      && match text_or_none mode_name with
         | None => true
         | Some mode => String.eqb (str_or_blank (dget_none (k_metadata r) "mode_name")) mode
         end) records).

(** ** Jobs *)

Definition get_scheduled_job (task_id : string) : MM (option CronJob) := on_cron (p_get_cron_job task_id).
Definition list_scheduled_jobs (limit : Z) (agent_id : option string) (include_unowned : bool) : MM (list CronJob) :=
  on_cron (p_list_cron_jobs limit agent_id include_unowned).
Definition list_scheduled_runs (job_id : option string) (limit : Z) (states : list string) : MM (list CronRun) :=
  on_cron (p_list_cron_runs job_id limit states).
Definition set_enabled (job_id : string) (enabled cancel_queued : bool) (override : option string) : MM () :=
  on_cron_write (p_set_cron_job_enabled job_id enabled cancel_queued override).
Definition create_cron_job (a : NewCronJob) : MM string := on_cron_write (p_add_cron_job a).

Definition replace_payload (job_id : string) (payload : pyval) : MM () :=
  match p_replace_cron_job_payload with
  | None => raise (TaskNotImplemented "Cron payload replacement is unavailable")
  | Some replacer => on_cron_write (replacer job_id payload)
  end.
Definition delete_scheduled_job (job_id : string) : MM () :=
  let normalized := py_strip job_id in
  if negb (truthy normalized) then mret ()
  else try_except (on_cron_write (p_delete_cron_job normalized)) (λ _, mret ()).

Definition update_task_metadata (task_id : string) (metadata : dict) : MM TaskLifecycleRecord :=
  on_tasks (update_metadata task_id metadata).
Definition mutate_task_metadata (task_id : string) (mutate : dict → result task_exn dict) : MM TaskLifecycleRecord :=
  on_tasks (mutate_metadata task_id mutate).

Definition linked_cron_job_id (r : TaskLifecycleRecord) : string :=
  str_or_blank (dget_none (k_metadata r) "linked_cron_job_id").
Definition get_linked_cron_job (task_id : string) : MM (option string) :=
  record ← get_task task_id;
  mret (match record with
        | None => None
        | Some r => let linked := linked_cron_job_id r in if truthy linked then Some linked else None
        end).
Definition find_task_by_linked_cron_job (cron_job_id : string) : MM (option TaskLifecycleRecord) :=
  let normalized := py_strip cron_job_id in
  if negb (truthy normalized) then mret None
  else
    records ← on_tasks (task_list 1000 None false);
    mret (List.find (λ r, String.eqb (linked_cron_job_id r) normalized) records).

Definition _cleanup_linked_cron_job (task_id : string) : MM () :=
  record ← get_task task_id;
  match record with
  | None => mret ()
  | Some r =>
      let linked := linked_cron_job_id r in
      if negb (truthy linked) then mret ()
      else
        _ ← delete_scheduled_job linked;
        _ ← update_task_metadata task_id (dpop (k_metadata r) "linked_cron_job_id");
        mret ()
  end.

Definition transition_task (task_id to_state : string) (failure_reason : option string) : MM TaskLifecycleRecord :=
  record ← on_tasks (transition task_id to_state failure_reason);
  if state_in (k_state record) _TERMINAL_TASK_STATES then
    _ ← _cleanup_linked_cron_job (k_task_id record);
    refreshed ← get_task (k_task_id record);
    mret (default record refreshed)
  else mret record.

(** ** Progress *)

Definition mgr_found (record : option TaskLifecycleRecord) (task_id : string) : MM TaskLifecycleRecord :=
  match record with
  | Some r => mret r
  | None => raise (TaskKeyError ("task not found: " +:+ task_id))
  end.
Definition mgr_save_checkpoint (task_id checkpoint_id : string) (state : dict) : MM () :=
  _ ← on_tasks (save_checkpoint task_id checkpoint_id state);
  found ← get_task task_id;
  record ← mgr_found found task_id;
  _ ← update_task_metadata task_id (dset (k_metadata record) "last_checkpoint_id" (PStr checkpoint_id));
  mret ().
(** [dict(x or {})] of a mapping; anything else is refused *)
Definition dict_of (v : pyval) : MM dict :=
  match py_or v (PDict []) with
  | PDict d => mret d
  | _ => raise (TaskPyError (PyTypeError "cannot convert to a dictionary"))
  end.
Definition update_progress (task_id : string) (progress : dict) : MM () :=
  found ← get_task task_id;
  record ← mgr_found found task_id;
  previous ← dict_of (default (PDict []) (dget (k_metadata record) "progress"));
  let payload := dupdate previous progress in
  let metadata := dset (k_metadata record) "progress" (PDict payload) in
  let checkpoint_id := str_or_blank (dget_none payload "last_checkpoint_id") in
  let metadata := if truthy checkpoint_id then dset metadata "last_checkpoint_id" (PStr checkpoint_id) else metadata in
  _ ← update_task_metadata task_id metadata;
  mret ().

(** ** Scheduling *)

Definition with_delete_flag (a : NewCronJob) : NewCronJob :=
  {| a_name := a_name a; a_schedule := a_schedule a; a_payload := a_payload a; a_description := a_description a;
     a_enabled := a_enabled a; a_agent_id := a_agent_id a; a_session_target := a_session_target a;
     a_wake_mode := a_wake_mode a; a_delivery := a_delivery a;
     a_delete_after_run := Some (default false (a_delete_after_run a)); a_misfire_policy := a_misfire_policy a;
     a_max_lateness_s := a_max_lateness_s a; a_max_concurrency := a_max_concurrency a;
     a_concurrency_key := a_concurrency_key a; a_max_attempts := a_max_attempts a;
     a_retry_backoff_s := a_retry_backoff_s a; a_job_id := a_job_id a |}.
Definition schedule_task (a : NewCronJob) (metadata : dict) : MM TaskLifecycleRecord :=
  created_job_id ← on_cron_write (p_add_cron_job (with_delete_flag a));
  try_except (ensure_task_record created_job_id (a_agent_id a) (Some created_job_id) metadata)
    (λ e, _ ← try_except (on_cron_write (p_delete_cron_job created_job_id)) (λ _, mret ()); raise e).

(** The arguments [schedule_user_task] passes on; the others have their defaults. *)
Definition user_job (name : string) (schedule payload : dict) (agent_id : string) (max_attempts : Z) : NewCronJob :=
  {| a_name := Some name; a_schedule := PDict schedule; a_payload := PDict payload; a_description := None;
     a_enabled := true; a_agent_id := Some agent_id; a_session_target := Some "isolated"; a_wake_mode := None;
     a_delivery := None; a_delete_after_run := Some false; a_misfire_policy := PStr "skip";
     a_max_lateness_s := 600; a_max_concurrency := 1; a_concurrency_key := None; a_max_attempts := max_attempts;
     a_retry_backoff_s := 30; a_job_id := None |}.
Record ScheduledTask := {
  st_record : option TaskLifecycleRecord;
  st_job : option CronJob;
  st_deduped : bool;
}.
Definition same_user_job (name agent_id : string) (schedule payload : dict) (job : CronJob) : bool :=
  j_enabled job && String.eqb (py_strip (j_name job)) (py_strip name)
  && String.eqb (text_of (j_agent_id job)) (py_strip agent_id)
  && py_eq (py_or (j_schedule job) (PDict [])) (PDict schedule)
  && py_eq (py_or (j_payload job) (PDict [])) (PDict payload).
Definition schedule_user_task (name instruction : string) (schedule : dict) (agent_id : string)
    (origin security_scan : option dict) : MM ScheduledTask :=
  let payload := [("kind", PStr "agentTurn"); ("message", PStr (py_strip instruction))] in
  let payload := match security_scan with Some s => dset payload "security_scan" (PDict s) | None => payload end in
  let payload := match origin with
                 | Some ((_ :: _) as o) => dset payload "_openminion_origin" (PDict o)
                 | _ => payload
                 end in
  jobs ← list_scheduled_jobs 1000 None false;
  match List.find (same_user_job name agent_id schedule payload) jobs with
  | Some job =>
      _ ← ensure_task_record_for_job job;
      record ← get_task_by_job (j_job_id job);
      mret {| st_record := record; st_job := Some job; st_deduped := true |}
  | None =>
      record ← schedule_task (user_job name schedule payload agent_id
                                match security_scan with Some _ => 1 | None => 3 end)
        match security_scan with
        | Some s => [("security_scan_admission", PStr (py_sha256_hexdigest (json_raw (PDict s))))]
        | None => []
        end;
      job ← get_scheduled_job (k_cron_job_id record);
      mret {| st_record := Some record; st_job := job; st_deduped := false |}
  end.

Definition _require_scheduled_record (task_id : string) : MM TaskLifecycleRecord :=
  by_id ← get_task task_id;
  match by_id with
  | Some r => mret r
  | None =>
      by_job ← get_task_by_job task_id;
      match by_job with
      | Some r => mret r
      | None =>
          job ← get_scheduled_job task_id;
          match job with
          | None => raise (TaskKeyError ("task not found: " +:+ task_id))
          | Some j => ensure_task_record_for_job j
          end
      end
  end.
Definition job_found (job : option CronJob) (task_id : string) : MM CronJob :=
  match job with
  | Some j => mret j
  | None => raise (TaskKeyError ("task not found: " +:+ task_id))
  end.

Definition set_scheduled_job_enabled (task_id : string) (enabled : bool) : MM CronJob :=
  record ← _require_scheduled_record task_id;
  _ ← set_enabled (k_cron_job_id record) enabled false None;
  refreshed ← get_scheduled_job (k_cron_job_id record);
  job_found refreshed task_id.

(** The common part of [cancel_task] and [pause_task]: the job is disabled, the
    task moved, and the job enabled again when that is refused; then the queued
    runs are cancelled. *)
Definition stop_task (record : TaskLifecycleRecord) (job : CronJob) (to_state : TaskLifecycleState)
    : MM TaskLifecycleRecord :=
  let jid := k_cron_job_id record in
  _ ← set_enabled jid false false None;
  moved ← try_except (transition_task (k_task_id record) (state_value to_state) None)
    (λ e, _ ← set_enabled jid (j_enabled job) false (j_next_due_at job); raise e);
  _ ← set_enabled jid false true None;
  mret moved.
Definition cancel_task (task_id : string) : MM TaskLifecycleRecord :=
  record ← _require_scheduled_record task_id;
  found ← get_scheduled_job (k_cron_job_id record);
  job ← job_found found task_id;
  stop_task record job CANCELLED.
Definition pause_task (task_id : string) : MM (TaskLifecycleRecord * CronJob) :=
  record ← _require_scheduled_record task_id;
  found ← get_scheduled_job (k_cron_job_id record);
  job ← job_found found task_id;
  moved ← stop_task record job PAUSED;
  refreshed ← get_scheduled_job (k_cron_job_id moved);
  job' ← job_found refreshed task_id;
  mret (moved, job').

Definition resume_task (task_id : string) : MM (TaskLifecycleRecord * CronJob) :=
  record ← _require_scheduled_record task_id;
  found ← get_scheduled_job (k_cron_job_id record);
  job ← job_found found task_id;
  let schedule := as_dict (j_schedule job) in
  expired ← ((if String.eqb (str_or_blank (dget_none schedule "kind")) "at" then
               at_ ← lift_pr (parse_iso_datetime (PStr (py_str (py_or (dget_none schedule "at") (PStr "")))));
               now ← on_tasks task_now;
               mret (at_ <=? now)
             else mret false) : MM bool);
  if (expired : bool) then raise (TaskResumeExpiredError (k_task_id record))
  else if negb (state_in (k_state record) [ACTIVE; PAUSED])
  then raise (TaskValueError ("task cannot be resumed from " +:+ state_value (k_state record)))
  else
    let jid := k_cron_job_id record in
    let payload := as_dict (j_payload job) in
    let cleaned := dpop (dpop payload TASK_INTERNAL_PAUSE_REASON_KEY) TASK_INTERNAL_PAUSE_SOURCE_KEY in
    _ ← (if negb (py_eq (PDict cleaned) (PDict payload)) then replace_payload jid (PDict cleaned) else mret ());
    _ ← set_enabled jid true false None;
    moved ← try_except (transition_task (k_task_id record) (state_value ACTIVE) None)
      (λ e, _ ← set_enabled jid false false None;
            _ ← replace_payload jid (PDict payload);
            raise e);
    refreshed ← get_scheduled_job (k_cron_job_id moved);
    job' ← job_found refreshed task_id;
    mret (moved, job').

Definition not_active {A} (msg tid : string) : MM A :=
  raise (TaskCronError (TaskControlError TASK_REASON_NOT_ACTIVE msg [("task_id", PStr tid)])).
Definition run_task_now (task_id : string) : MM CronRun :=
  record ← _require_scheduled_record task_id;
  if negb (bool_decide (k_state record = ACTIVE)) then not_active "task is not active" (k_task_id record)
  else on_cron_write (p_trigger_task_run_now (k_cron_job_id record)).
Definition update_scheduled_task (task_id instruction : string) (schedule : pyval) (expected_updated_at : string)
    : MM CronJob :=
  record ← _require_scheduled_record task_id;
  if negb (state_in (k_state record) [ACTIVE; PAUSED])
  then not_active "task is not active or paused" (k_task_id record)
  else on_cron_write (p_update_task_cron_job (k_cron_job_id record) instruction schedule expected_updated_at).

Definition remaining_runs (jid : string) : MM (list CronRun) := list_scheduled_runs (Some jid) 1 _TERMINAL_RUN_STATES.
Definition last_run_id (metadata : dict) : string :=
  match dget_none metadata "last_run" with PDict l => str_or_blank (dget_none l "run_id") | _ => "" end.
Definition delete_terminal_run_history (task_id : string) : MM nat :=
  record ← _require_scheduled_record task_id;
  deleted ← on_cron_write (p_delete_terminal_cron_runs (k_cron_job_id record));
  (* the runs that remain are read inside the change of the metadata *)
  remaining ← remaining_runs (k_cron_job_id record);
  _ ← mutate_task_metadata (k_task_id record) (λ metadata,
    Ok (match remaining with
        | r :: _ => if String.eqb (py_strip (r_run_id r)) (last_run_id metadata) then metadata
                    else dpop metadata "last_run"
        | [] => dpop metadata "last_run"
        end));
  mret deleted.

Definition scheduler_control_status : MM SchedulerControl := on_cron p_get_cron_scheduler_control.
Definition pause_scheduler (reason expected_updated_at actor : string) : MM SchedulerControl :=
  on_cron_write (p_set_cron_scheduler_control true (Some reason) actor expected_updated_at).
Definition resume_scheduler (expected_updated_at actor : string) : MM SchedulerControl :=
  on_cron_write (p_set_cron_scheduler_control false None actor expected_updated_at).

(** ** Outcomes *)

(** The target of an open task whose last run is over, with the reason. *)
Definition outcome_target (record : TaskLifecycleRecord) (is_terminal : bool) (run_state : string) (error : pyval)
    : TaskLifecycleState * option string :=
  if is_terminal && state_in (k_state record) [PAUSED; ACTIVE] then
    if String.eqb run_state "finished" then (DONE, None)
    else (FAILED, Some (py_str (py_or (dget_none (as_dict (bounded_task_run_error error)) "code") (PStr run_state))))
  else (k_state record, None).

(** The run was the last one: the schedule has one point, or the watch is over. *)
Definition terminal_task (job : option CronJob) (run : dict) : bool :=
  let schedule := match job with Some j => as_dict (j_schedule j) | None => [] end in
  let output := dget_none run "output" in
  String.eqb (str_or_blank (dget_none schedule "kind")) "at"
  || is_mapping output && py_truthy (default (PBool false) (dget (as_dict output) "watch_terminal")).
Definition already_recorded (record : TaskLifecycleRecord) (job : option CronJob) (run : dict) : bool :=
  let prior_run := dget_none (k_metadata record) "last_run" in
  is_mapping prior_run && py_eq (dget_none (as_dict prior_run) "run_id") (PStr (str_or_blank (dget_none run "run_id")))
  && (negb (terminal_task job run) || state_in (k_state record) _TERMINAL_TASK_STATES).
(** The writing part of [record_scheduled_outcome]. *)
Definition write_outcome (record : TaskLifecycleRecord) (job : option CronJob) (cron_job_id : string) (run : dict)
    : MM TaskLifecycleRecord :=
  let run_state := str_or_blank (dget_none run "state") in
  let run_id := str_or_blank (dget_none run "run_id") in
  let metadata := dset (_project_security_scan_outcome (k_metadata record) (dget_none run "output") run_id run_state cron_job_id)
                    "last_run" (last_run_entry run run_id run_state) in
  _ ← (if terminal_task job run && match job with Some j => j_enabled j | None => false end
       then set_enabled (k_cron_job_id record) false false None else mret ());
  if bool_decide (k_state record = CANCELLED) then
    on_tasks (record_scheduled_outcome (k_task_id record) CANCELLED CANCELLED metadata None)
  else
    let target := outcome_target record (terminal_task job run) run_state (dget_none run "error") in
    on_tasks (record_scheduled_outcome (k_task_id record) (k_state record) target.1 metadata target.2).

Definition mgr_record_scheduled_outcome (cron_job_id : string) (run : dict) : MM (option TaskLifecycleRecord) :=
  found ← get_task_by_job cron_job_id;
  match found with
  | None => mret None
  | Some record =>
      let run_state := str_or_blank (dget_none run "state") in
      if negb (str_in run_state _TERMINAL_RUN_STATES) then mret (Some record)
      else
        attempts ← (if String.eqb run_state "cancelled" then lift_pr (py_int (py_or (dget_none run "attempts") (PInt 0)))
                    else mret 1);
        if String.eqb run_state "cancelled" && (attempts =? 0) then mret (Some record)
        else
          job ← get_scheduled_job (k_cron_job_id record);
          if already_recorded record job run then mret (Some record)
          else r ← write_outcome record job cron_job_id run; mret (Some r)
  end.

(** One run of the loops of [reconcile_scheduled_outcomes]; the answer says
    whether the task changed. *)
Definition reconcile_run (normalized_job_id : string) (run : CronRun) : MM bool :=
  let job_id := py_strip (str_or (r_job_id run) normalized_job_id) in
  before ← get_task_by_job job_id;
  match before with
  | None => mret false
  | Some b =>
      job ← get_scheduled_job job_id;
      let schedule := match job with Some j => as_dict (j_schedule j) | None => [] end in
      let one_shot_is_open := String.eqb (str_or_blank (dget_none schedule "kind")) "at"
                              && state_in (k_state b) [ACTIVE; PAUSED] in
      if String.eqb (last_run_id (k_metadata b)) (py_strip (r_run_id run)) && negb one_shot_is_open then mret false
      else
        after ← mgr_record_scheduled_outcome job_id (row_to_cron_run run);
        mret (match after with
              | Some a => negb (bool_decide (k_state a = k_state b))
                          || negb (py_eq (PDict (k_metadata a)) (PDict (k_metadata b)))
              | None => false
              end)
  end.
(** The loop over a page, which stops at the limit. *)
Fixpoint reconcile_page (job_id : string) (limit : Z) (reconciled : Z) (runs : list CronRun) : MM Z :=
  match runs with
  | [] => mret reconciled
  | run :: rest =>
      changed ← reconcile_run job_id run;
      let reconciled' := if changed : bool then reconciled + 1 else reconciled in
      if changed && (limit <=? reconciled') then mret reconciled'
      else reconcile_page job_id limit reconciled' rest
  end.
(** The loop over pages of unresolved runs; [fuel] bounds the number of pages. *)
Fixpoint reconcile_pages (fuel : nat) (limit offset reconciled : Z) : MM Z :=
  match fuel with
  | O => mret reconciled
  | S fuel' =>
      if limit <=? reconciled then mret reconciled
      else
        runs ← on_cron (p_list_unresolved_task_runs 1000 offset);
        match runs with
        | [] => mret reconciled
        | _ =>
            reconciled' ← reconcile_page "" limit reconciled runs;
            if Z.of_nat (length runs) <? 1000 then mret reconciled'
            else reconcile_pages fuel' limit (offset + Z.of_nat (length runs)) reconciled'
        end
  end.
Definition reconcile_scheduled_outcomes (cron_job_id : option string) (limit : Z) : MM Z :=
  let jid := text_of cron_job_id in
  if truthy jid then
    runs ← list_scheduled_runs (Some jid) 1 _TERMINAL_RUN_STATES;
    reconcile_page jid 1 0 runs
  else
    w ← get_world;
    reconcile_pages (S (length (cron_runs (mw_cron w)))) (Z.max 1 (Z.min limit 1000)) 0 0.
End Manager.
