(* ===== verification/TaskManagerProps.v ===== *)
(** Theorems about the task manager on top of the modelled cron store: how the
    task table and the cron tables stay in step when an operation succeeds, and
    when one half of it fails. *)

From S2P Require Import Prelude PyValue Timestamps PyText Schedule CronTables CronStore CronKeeps TaskLife TaskLifeProps TaskManager.
From Stdlib Require Import Ascii.

Local Open Scope Z_scope.

Section Props.
Context {Env : PyEnv} {Sched : ScheduleEnv}.

(** ** The cron half *)

Lemma on_cron_Ok {A} (m : KM A) w c a :
  m (cron_view w) = (c, Ok a) →
  on_cron m w = (set_mw_cron c w, Ok a).
Proof. unfold on_cron. by intros ->. Qed.
(** Without the lock a method that writes runs as it is, and only then returns. *)
Lemma on_cron_write_free {A} (m : KM A) w : file_locked w = false → on_cron_write m w = on_cron m w.
Proof. unfold on_cron_write. by intros ->. Qed.
Lemma on_cron_write_Ok {A} (m : KM A) w w' a :
  on_cron_write m w = (w', Ok a) → file_locked w = false ∧ on_cron m w = (w', Ok a).
Proof. unfold on_cron_write. destruct (file_locked w); [|done]. by destruct (on_cron m w) as [w1 [b|e]]. Qed.
Lemma on_tasks_Ok {A} (m : TkM A) w t a :
  m (mw_tasks w) = (t, Ok a) → on_tasks m w = (set_mw_tasks t w, Ok a).
Proof. unfold on_tasks. by intros ->. Qed.
Lemma on_tasks_Raise {A} (m : TkM A) w t e :
  m (mw_tasks w) = (t, Raise e) → on_tasks m w = (set_mw_tasks t w, Raise e).
Proof. unfold on_tasks. by intros ->. Qed.

(** Worlds with the same tables. *)
Definition same_tables (w w' : ManagerWorld) : Prop :=
  cron_jobs (mw_cron w') = cron_jobs (mw_cron w) ∧ cron_runs (mw_cron w') = cron_runs (mw_cron w) ∧
  tasks (mw_tasks w') = tasks (mw_tasks w).

(** Switching a job on or off: the rows of the job, and of its queued runs. *)
Definition switched (jid : string) (enabled cancel : bool) (due : option string) (w w' : ManagerWorld) : Prop :=
  ∃ now, cron_jobs (mw_cron w') = update_where (has_job_id jid) (job_switch enabled due now) (cron_jobs (mw_cron w)) ∧
    cron_runs (mw_cron w') = (if negb enabled && cancel
      then update_where (λ r, of_job jid r && run_is "queued" r) (run_cancel now) (cron_runs (mw_cron w))
      else cron_runs (mw_cron w)) ∧
    tasks (mw_tasks w') = tasks (mw_tasks w).

Lemma job_row_id c jid j : job_row c jid = Some j → j_job_id j = jid ∧ j ∈ cron_jobs c.
Proof.
  unfold job_row. intros H. apply find_elem in H as [? ?%String.eqb_eq]. done.
Qed.

Lemma get_cron_job_row jid j c : trimmed jid → job_row c jid = Some j → get_cron_job jid c = (c, Ok (Some j)).
Proof.
  intros [Hs Ht] Hj. unfold get_cron_job, required. rewrite Hs, Ht.
  rewrite (bind_of_Ok (mret _) _ c c jid eq_refl). unfold gets. by rewrite Hj.
Qed.

(** A job that exists can always be switched off, and on when its due time is given. *)
Lemma set_enabled_given jid enabled cancel due w j :
  file_locked w = false → trimmed jid → job_row (mw_cron w) jid = Some j → (enabled = true → due ≠ None) →
  ∃ w', set_enabled jid enabled cancel due w = (w', Ok ()) ∧ file_locked w' = false ∧
    switched jid enabled cancel (if enabled then due else None) w w'.
Proof.
  intros Hfree [Hs Ht] Hj Hd. unfold set_enabled. rewrite on_cron_write_free by done. simpl p_set_cron_job_enabled.
  set (c := cron_view w).
  pose proof (job_row_id _ _ _ Hj) as [Hid _].
  set (c1 := set_counters (S (cron_ticks c)) (cron_uuids c) c).
  set (now := to_iso_utc (py_clock (cron_ticks c))).
  assert (∃ c', set_cron_job_enabled jid enabled cancel due c = (c', Ok ()) ∧
    cron_jobs c' = update_where (has_job_id jid) (job_switch enabled (if enabled then due else None) now) (cron_jobs c) ∧
    cron_runs c' = (if negb enabled && cancel
      then update_where (λ r, of_job jid r && run_is "queued" r) (run_cancel now) (cron_runs c) else cron_runs c))
    as (c' & E & Hjobs & Hruns).
  { unfold set_cron_job_enabled. rewrite (bind_of_Ok _ _ c c (Some j) (get_cron_job_row jid j c (conj Hs Ht) Hj)), Hid.
    rewrite (bind_of_Ok utc_now _ c c1 _ eq_refl).
    destruct enabled; [destruct due as [d|]; [|by destruct Hd]|]; rewrite (bind_of_Ok (mret _) _ c1 c1 _ eq_refl);
      [|destruct cancel]; (eexists; split; [reflexivity|]); done. }
  eexists. split; [apply (on_cron_Ok _ w c' ())|split; [done|exists now; by split_and!]].
  change (from_cron (set_cron_job_enabled jid enabled cancel due) c = (c', Ok ())). unfold from_cron. by rewrite E.
Qed.

Lemma switched_row jid enabled cancel due w w' x j :
  switched jid enabled cancel due w w' → job_row (mw_cron w) x = Some j →
  ∃ j', job_row (mw_cron w') x = Some j'.
Proof.
  intros (now & E & _) Hj. unfold job_row in *. rewrite E. clear E. revert Hj. generalize (cron_jobs (mw_cron w)).
  intros l. induction l as [|y l IH]; [done|]. simpl. destruct (has_job_id jid y); simpl;
    change (has_job_id x (job_switch enabled due now y)) with (has_job_id x y); destruct (has_job_id x y); eauto.
Qed.
Lemma manager_eta w : set_mw_tasks (mw_tasks w) w = w.
Proof. by destruct w. Qed.
Lemma get_task_row tid r w : trimmed tid → task_row (mw_tasks w) tid = Some r → get_task tid w = (w, Ok (Some r)).
Proof.
  intros [Hs Ht] Hr. unfold get_task, on_tasks, task_get, needed. rewrite Hs, Ht.
  rewrite (bind_of_Ok (mret _) _ _ _ tid eq_refl). unfold gets. by rewrite Hr, manager_eta.
Qed.
Lemma get_job_row jid j w : trimmed jid → job_row (mw_cron w) jid = Some j →
  ∃ w', get_scheduled_job jid w = (w', Ok (Some j)) ∧ same_tables w w' ∧ mw_cron w' = cron_view w ∧
    file_locked w' = file_locked w.
Proof.
  intros Ht Hj. set (c := cron_view w).
  exists (set_mw_cron c w).
  split; [|done]. apply (on_cron_Ok _ w c). simpl. unfold from_cron. fold c. by rewrite (get_cron_job_row jid j c Ht Hj).
Qed.
Lemma normalize_value s : _normalize_task_state (state_value s) = Ok s.
Proof. by destruct s. Qed.

Lemma transition_refused tid target t r :
  trimmed tid → task_row t tid = Some r → terminal (k_state r) → k_state r ≠ target →
  ∃ msg, transition tid (state_value target) None t = (t, Raise (TaskValueError msg)).
Proof.
  intros [Hs Ht] Hr Hterm Hne. unfold transition. rewrite (bind_of_Ok _ _ t t target); [|by rewrite normalize_value].
  rewrite needed_found, Hs, Ht, Hr. rewrite (bind_of_Ok (task_found (Some r) tid) _ t t r eq_refl).
  rewrite bool_decide_eq_false_2 by done.
  assert (state_in target (_ALLOWED_STATE_TRANSITIONS (k_state r)) = false) as ->; [|by eexists].
  destruct (state_in _ _) eqn:E; [|done]. by apply allowed_open in E.
Qed.

(** A job without the time of its last change. *)
Definition job_content (j : CronJob) : CronJob := job_switch (j_enabled j) (j_next_due_at j) "" j.
Definition restored (w w' : ManagerWorld) : Prop :=
  map job_content (cron_jobs (mw_cron w')) = map job_content (cron_jobs (mw_cron w)) ∧
  cron_runs (mw_cron w') = cron_runs (mw_cron w) ∧ tasks (mw_tasks w') = tasks (mw_tasks w).

Lemma switch_back jid j jobs now now' :
  NoDup (map j_job_id jobs) → j ∈ jobs → j_job_id j = jid →
  map job_content (update_where (has_job_id jid) (job_switch (j_enabled j) (j_next_due_at j) now')
    (update_where (has_job_id jid) (job_switch false None now) jobs)) = map job_content jobs.
Proof.
  intros Hn Hj Hid. unfold update_where. rewrite !map_map. apply map_ext_in. intros x Hx%list_elem_of_In.
  destruct (has_job_id jid x) eqn:E; [|by rewrite E].
  change (has_job_id jid (job_switch false None now x)) with (has_job_id jid x). rewrite E.
  apply String.eqb_eq in E. assert (x = j) as ->; [|done].
  apply list_elem_of_lookup in Hx as [i Hi], Hj as [i' Hi'].
  assert (i = i') as ->; [|congruence]. apply (NoDup_lookup _ i i' jid Hn); rewrite list_lookup_fmap;
    [rewrite Hi|rewrite Hi']; simpl; congruence.
Qed.

Lemma stop_refused record job target w :
  file_locked w = false → trimmed (k_task_id record) → trimmed (k_cron_job_id record) →
  task_row (mw_tasks w) (k_task_id record) = Some record →
  job_row (mw_cron w) (k_cron_job_id record) = Some job → NoDup (map j_job_id (cron_jobs (mw_cron w))) →
  terminal (k_state record) → k_state record ≠ target → (j_enabled job = true ↔ j_next_due_at job ≠ None) →
  ∃ w' msg, stop_task record job target w = (w', Raise (TaskValueError msg)) ∧ restored w w'.
Proof.
  intros Hfree Ht Htj Hr Hj Hn Hterm Hne Hdue. set (jid := k_cron_job_id record) in *.
  destruct (set_enabled_given jid false false None w job Hfree Htj Hj) as (w1 & E1 & Hfree1 & Hs1); [done|].
  destruct (switched_row _ _ _ _ _ _ jid job Hs1 Hj) as (j1 & Hj1). destruct Hs1 as (n1 & Hjobs1 & Hruns1 & Ht1).
  assert (task_row (mw_tasks w1) (k_task_id record) = Some record) as Hr1 by (unfold task_row in *; by rewrite Ht1).
  destruct (transition_refused (k_task_id record) target (mw_tasks w1) record) as (msg & Et); [done..|].
  destruct (set_enabled_given jid (j_enabled job) false (j_next_due_at job) w1 j1 Hfree1 Htj Hj1) as (w2 & E2 & _ & n2 & Hjobs2 & Hruns2 & Ht2);
    [by intros ?%Hdue|].
  exists w2, msg. split.
  - unfold stop_task. fold jid. rewrite (bind_of_Ok _ _ w w1 () E1). apply bind_of_Raise. unfold try_except, transition_task.
    rewrite (bind_of_Raise _ _ w1 w1 (TaskValueError msg)).
    + by rewrite (bind_of_Ok _ _ w1 w2 () E2).
    + rewrite (on_tasks_Raise _ _ _ _ Et). by rewrite manager_eta.
  - destruct (job_row_id _ _ _ Hj) as [Hid Hin]. split_and!.
    + rewrite Hjobs2, Hjobs1. replace (if j_enabled job then j_next_due_at job else None) with (j_next_due_at job);
        [by apply switch_back|]. destruct (j_enabled job); [done|]. destruct (j_next_due_at job); [|done].
      destruct Hdue as [_ Hd]. by discriminate Hd.
    + rewrite Hruns2, Hruns1. by destruct (j_enabled job).
    + congruence.
Qed.

Lemma require_by_id tid r w :
  trimmed tid → task_row (mw_tasks w) tid = Some r → _require_scheduled_record tid w = (w, Ok r).
Proof.
  intros Ht Hr. unfold _require_scheduled_record. by rewrite (bind_of_Ok _ _ w w (Some r) (get_task_row tid r w Ht Hr)).
Qed.

(** When a task that is done, failed or cancelled is to be paused or cancelled,
    the request is refused after the job was switched off already, and the job is
    switched on again as it was: the jobs (but for the time of the change), the
    runs and the tasks are as before. *)
Theorem refused_stop_restores_job tid w record job :
  file_locked w = false → trimmed tid → task_row (mw_tasks w) tid = Some record → trimmed (k_cron_job_id record) →
  job_row (mw_cron w) (k_cron_job_id record) = Some job → NoDup (map j_job_id (cron_jobs (mw_cron w))) →
  terminal (k_state record) → (j_enabled job = true ↔ j_next_due_at job ≠ None) →
  (∃ w' msg, pause_task tid w = (w', Raise (TaskValueError msg)) ∧ restored w w') ∧
  (k_state record ≠ CANCELLED →
   ∃ w' msg, cancel_task tid w = (w', Raise (TaskValueError msg)) ∧ restored w w').
Proof.
  intros Hfree Ht Hr Htj Hj Hn Hterm Hdue.
  assert (k_task_id record = tid) as Hid.
  { unfold task_row in Hr. destruct (List.filter _ _) as [|y ys] eqn:E; [done|]. injection Hr as ->.
    assert (record ∈ record :: ys) as H by left. rewrite <-E in H. by apply filter_elem in H as [_ ?%String.eqb_eq]. }
  pose proof (require_by_id tid record w Ht Hr) as E1.
  destruct (get_job_row (k_cron_job_id record) job w Htj Hj) as (w1 & E2 & (S1 & S2 & S3) & S4 & S5).
  assert (∀ target, k_state record ≠ target →
    ∃ w' msg, stop_task record job target w1 = (w', Raise (TaskValueError msg)) ∧ restored w w') as Hstop.
  { intros target Hne. destruct (stop_refused record job target w1) as (w' & msg & E & R1 & R2 & R3); try done.
    - by rewrite S5.
    - by rewrite Hid.
    - unfold task_row in *. by rewrite S3, Hid.
    - unfold job_row in *. by rewrite S1.
    - by rewrite S1.
    - exists w', msg. split; [done|]. unfold restored. by rewrite R1, R2, R3, S1, S2, S3. }
  split; [|intros Hc].
  - destruct (Hstop PAUSED) as (w' & msg & E & HR).
    { intros Hp. rewrite Hp in Hterm. unfold terminal, _TERMINAL_TASK_STATES in Hterm.
      rewrite !elem_of_cons, elem_of_nil in Hterm. naive_solver. }
    exists w', msg. split; [|done]. unfold pause_task. rewrite (bind_of_Ok _ _ w w record E1), (bind_of_Ok _ _ w w1 _ E2).
    rewrite (bind_of_Ok (job_found (Some job) tid) _ w1 w1 job eq_refl). by apply bind_of_Raise.
  - destruct (Hstop CANCELLED Hc) as (w' & msg & E & HR).
    exists w', msg. split; [|done]. unfold cancel_task. rewrite (bind_of_Ok _ _ w w record E1), (bind_of_Ok _ _ w w1 _ E2).
    by rewrite (bind_of_Ok (job_found (Some job) tid) _ w1 w1 job eq_refl).
Qed.

(** ** Stopping a task *)

Lemma reread_Ok tid t t' r : reread tid t = (t', Ok r) → t' = t ∧ task_row t (py_strip tid) = Some r.
Proof.
  unfold reread. rewrite needed_found. destruct (truthy _); [|done]. unfold _require_task_record.
  destruct (task_row t _); [|done]. by intros [= <- <-].
Qed.
Lemma task_row_flag b t tid : task_row (set_in_transaction b t) tid = task_row t tid.
Proof. done. Qed.


(** Every operation of the manager keeps the task table in order. *)
Definition mgood (w w' : ManagerWorld) : Prop := good_step (mw_tasks w) (mw_tasks w').
#[global] Instance mgood_preorder : PreOrder mgood.
Proof. split; [by intros w; unfold mgood|]. intros w1 w2 w3. unfold mgood. apply transitivity. Qed.

Lemma get_task_inv tid w w' o : get_task tid w = (w', Ok o) → w' = w ∧ o = task_row (mw_tasks w) (py_strip tid).
Proof.
  unfold get_task, on_tasks, task_get, needed. destruct (truthy _); [|done]. intros [= <- <-]. by rewrite manager_eta.
Qed.

Lemma set_enabled_off_inv jid cancel w w' :
  trimmed jid → set_enabled jid false cancel None w = (w', Ok ()) → switched jid false cancel None w w'.
Proof.
  intros Ht H. pose proof H as [Hfree Hc]%on_cron_write_Ok. destruct (job_row (mw_cron w) jid) as [j|] eqn:Hj.
  - destruct (set_enabled_given jid false cancel None w j Hfree Ht Hj) as (w2 & E & _ & Hs); [done|]. rewrite E in H. by injection H as <-.
  - exfalso. clear H. rename Hc into H. unfold on_cron in H. simpl in H. unfold from_cron, set_cron_job_enabled in H.
    destruct Ht as [Hs Ht]. set (c := cron_view w) in H.
    rewrite (bind_of_Ok (get_cron_job jid) _ c c None) in H; [done|].
    unfold get_cron_job, required. rewrite Hs, Ht. rewrite (bind_of_Ok (mret _) _ c c jid eq_refl). unfold gets. by rewrite <-Hj.
Qed.


Lemma tasks_ok_same t t' : tasks t' = tasks t → tasks_ok t → tasks_ok t'.
Proof. unfold tasks_ok. by intros ->. Qed.




(** ** Scheduling *)

Lemma bind_lift_py {A B} (r : PR A) (f : A → CM B) c :
  mbind f (lift_py r) c = match r with Ok a => f a c | Raise e => (c, Raise (CronPy e)) end.
Proof. by destruct r. Qed.
Lemma insert_job_effect j c c' r : cron_tx (insert_job j) c = (c', r) →
  match r with
  | Ok _ => cron_jobs c' = cron_jobs c ++ [j] ∧ job_row c (j_job_id j) = None
  | Raise _ => cron_jobs c' = cron_jobs c
  end.
Proof.
  unfold cron_tx, transaction, insert_job. destruct (job_row c _) eqn:E; intros [= <- <-]; done.
Qed.
(** A new job is appended, under an identifier that no job has. *)
Definition job_added (c : CronWorld) (res : CronWorld * result cron_exn string) : Prop :=
  match res with
  | (c', Ok jid) => ∃ j, cron_jobs c' = cron_jobs c ++ [j] ∧ j_job_id j = jid ∧ job_row c jid = None ∧ trimmed jid
  | (c', Raise _) => cron_jobs c' = cron_jobs c
  end.
Lemma add_job_effect a c : ids_plain → job_added c (add_cron_job a c).
Proof.
  intros Hids. unfold add_cron_job. destruct (negb _); [done|].
  rewrite bind_lift_py. destruct (normalize_schedule _) as [s|]; [|done].
  rewrite bind_lift_py. destruct (normalize_payload _) as [p|]; [|done].
  rewrite bind_lift_py. destruct (match a_session_target a with Some _ => _ | None => _ end) as [t|]; [|done].
  rewrite bind_lift_py. destruct (validate_target_payload_pair _ _); [|done].
  rewrite bind_lift_py. destruct (normalize_wake_mode _) as [wm|]; [|done].
  rewrite bind_lift_py. destruct (normalize_delivery _) as [d|]; [|done].
  rewrite bind_lift_py. destruct (normalize_misfire_policy _) as [mp|]; [|done].
  set (jid0 := py_strip (str_or (a_job_id a) "")).
  assert (∃ c1 jid, (if truthy jid0 then mret jid0 else new_id) c = (c1, Ok jid) ∧ cron_jobs c1 = cron_jobs c ∧ trimmed jid)
    as (c1 & jid & E & Hc1 & Htj).
  { destruct (truthy jid0) eqn:Et; repeat eexists; try done; [apply strip_idem|apply Hids|apply Hids]. }
  rewrite (bind_of_Ok _ _ c c1 jid E). set (c2 := set_counters (S (cron_ticks c1)) (cron_uuids c1) c1).
  rewrite (bind_of_Ok utc_now _ c1 c2 _ eq_refl), bind_lift_py.
  destruct (_initial_next_due _ _ _) as [due|]; [|done].
  unfold mbind at 1, M_bind at 1. match goal with |- context[cron_tx (insert_job ?j) c2] => set (job := j) end.
  destruct (cron_tx (insert_job job) c2) as [c3 r] eqn:Ei. apply insert_job_effect in Ei.
  destruct r as [[]|e]; simpl; [|by rewrite Ei]. destruct Ei as [E1 E2]. exists job. rewrite E1.
  split_and!; [by rewrite <-Hc1|done| |done]. unfold job_row in *. by rewrite <-Hc1.
Qed.

Lemma ensure_cron jid a tid md w w' r :
  ensure_task_record jid a tid md w = (w', r) → mw_cron w' = mw_cron w.
Proof.
  unfold ensure_task_record, get_task, mbind, M_bind, on_tasks. destruct (task_get _ _) as [t [o|e]]; [|by intros [= <- <-]].
  destruct o; [by intros [= <- <-]|]. destruct (task_create _ _ _ _ _ _) as [t' x]. by intros [= <- <-].
Qed.
(** A record that cannot be written leaves the table as it is and, for lack of a
    rollback, the connection in a transaction. *)
Definition insert_refused (t t' : TaskWorld) (e : task_exn) : Prop :=
  tasks t' = tasks t ∧ in_transaction t' = true ∧ ∃ msg, e = TaskIntegrityError msg.
Lemma create_raise tid jid a s md t t' e :
  trimmed tid → trimmed jid → task_create tid jid a s md t = (t', Raise e) → insert_refused t t' e.
Proof.
  intros [Hst Et] [Hsj Ej]. unfold task_create. rewrite bind_needed, Hst, Et, bind_needed, Hsj, Ej.
  unfold _utc_now_iso. set (t1 := set_task_counters (S (task_ticks t)) (task_uuids t) t).
  rewrite (bind_of_Ok _ _ t t1 (isoformat (py_clock (task_ticks t))) eq_refl).
  set (row := {| k_task_id := tid |}). unfold mbind, M_bind.
  unfold insert_task. destruct (existsb (has_task_id _) _); [intros [= <- <-]; by split_and!; [..|eexists]|].
  destruct (existsb _ _); [intros [= <- <-]; by split_and!; [..|eexists]|].
  unfold task_commit, modify, reread. rewrite needed_found, Hst, Et, task_row_flag.
  assert (∃ x, task_row (set_task_rows (λ l, l ++ [row]) t1) tid = Some x) as (x & ->); [|done].
  unfold task_row. simpl. rewrite List.filter_app. simpl. unfold has_task_id at 2. simpl. rewrite String.eqb_refl.
  destruct (List.filter _ _); by eexists.
Qed.
Lemma ensure_raise jid a md w w' e :
  trimmed jid → ensure_task_record jid a (Some jid) md w = (w', Raise e) →
  insert_refused (mw_tasks w) (mw_tasks w') e ∧ mw_one_file w' = mw_one_file w.
Proof.
  intros Hj. pose proof Hj as [Hs Ht]. unfold ensure_task_record, str_or, otruthy. simpl. rewrite Ht. simpl. rewrite Hs.
  unfold mbind, M_bind. destruct (get_task jid w) as [w1 [o|x]] eqn:Eg.
  - apply get_task_inv in Eg as [-> ->]. destruct (task_row (mw_tasks w) _); [done|]. unfold on_tasks.
    destruct (task_create _ _ _ _ _ _) as [t' [x|x]] eqn:E; [done|]. intros [= <- <-].
    split; [|done]. by eapply create_raise.
  - unfold get_task, on_tasks, task_get, needed in Eg. rewrite Hs, Ht in Eg. done.
Qed.
(** Deleting the job that was just appended gives the old jobs back. *)
Lemma delete_appended jid j jobs :
  List.find (has_job_id jid) jobs = None → j_job_id j = jid →
  List.filter (λ x, negb (has_job_id jid x)) (jobs ++ [j]) = jobs.
Proof.
  intros Hf Hj. rewrite List.filter_app. simpl. unfold has_job_id at 2. rewrite Hj, String.eqb_refl. simpl.
  rewrite app_nil_r. induction jobs as [|x l IH]; [done|]. simpl in *. destruct (has_job_id jid x); [done|]. simpl. by rewrite IH.
Qed.

(** Adding a job, through the lock of the file. *)
Lemma add_job_written a w w1 r : ids_plain → on_cron_write (p_add_cron_job a) w = (w1, r) →
  tasks (mw_tasks w1) = tasks (mw_tasks w) ∧ mw_one_file w1 = mw_one_file w ∧
  match r with
  | Ok jid => ∃ j, cron_jobs (mw_cron w1) = cron_jobs (mw_cron w) ++ [j] ∧ j_job_id j = jid ∧
      job_row (mw_cron w) jid = None ∧ trimmed jid
  | Raise _ => cron_jobs (mw_cron w1) = cron_jobs (mw_cron w)
  end.
Proof.
  intros Hids. unfold on_cron_write, on_cron. simpl p_add_cron_job. unfold from_cron.
  pose proof (add_job_effect a (cron_view w) Hids) as Ha.
  destruct (add_cron_job a (cron_view w)) as [c [jid|x]], (file_locked w); intros [= <- <-]; by split_and!.
Qed.

(** C35: a request to schedule a task that raises changes no task, and leaves no job,
    except in one case: the cron store and the task records share a file, and the job
    was added but the record refused ([IntegrityError]).  Then the connection of the
    records stays in the transaction of the refused [INSERT], the job that was added
    cannot be deleted for the lock, and it stays. *)
Theorem failed_schedule_effect a md w w' e :
  ids_plain → schedule_task a md w = (w', Raise e) →
  tasks (mw_tasks w') = tasks (mw_tasks w) ∧
  (cron_jobs (mw_cron w') = cron_jobs (mw_cron w) ∨
   mw_one_file w = true ∧ file_locked w' = true ∧ (∃ msg, e = TaskIntegrityError msg) ∧
   ∃ j, cron_jobs (mw_cron w') = cron_jobs (mw_cron w) ++ [j]).
Proof.
  intros Hids H. unfold schedule_task in H. unfold mbind at 1, M_bind at 1 in H.
  destruct (on_cron_write _ w) as [w1 r1] eqn:Ea. apply (add_job_written _ _ _ _ Hids) in Ea as (Ht1 & Hf1 & Hj1).
  destruct r1 as [jid|x]; [|injection H as <- <-; auto]. destruct Hj1 as (j & Hj & Hid & Hnew & Htj).
  unfold try_except at 1 in H. destruct (ensure_task_record _ _ _ _ w1) as [w2 [r|x]] eqn:Ee; [done|].
  pose proof (ensure_cron _ _ _ _ _ _ _ Ee) as Hc2.
  apply ensure_raise in Ee as [(Ht2 & Ho2 & Hmsg) Hf2]; [|done]. destruct Htj as [Hs Ht].
  unfold mbind, M_bind, try_except, on_cron_write in H.
  assert (file_locked w2 = mw_one_file w) as El by (unfold file_locked; rewrite Ho2, andb_true_r; congruence).
  rewrite El in H. destruct (mw_one_file w) eqn:Ew.
  - simpl p_delete_cron_job in H. unfold on_cron, from_cron, delete_cron_job, required in H. rewrite Hs, Ht in H.
    injection H as <- <-. simpl. split; [congruence|]. right. split; [done|]. split; [done|]. split; [done|].
    exists j. by rewrite Hc2.
  - simpl p_delete_cron_job in H. unfold on_cron, from_cron, delete_cron_job, required in H. rewrite Hs, Ht in H.
    injection H as <- <-. simpl. split; [congruence|]. left. rewrite Hc2, Hj. by apply delete_appended.
Qed.

(** ** Outcomes *)

Lemma dget_insert_sorted k v d k' :
  dget (dinsert_sorted k v d) k' = if String.eqb k' k then Some v else dget d k'.
Proof.
  induction d as [|[x y] d IH]; simpl; [by destruct (String.eqb k' k)|].
  destruct (str_leb k x) eqn:E; simpl; [done|]. rewrite IH. destruct (String.eqb k' x) eqn:E1; [|done].
  destruct (String.eqb k' k) eqn:E2; [|done]. apply String.eqb_eq in E1, E2. subst. by rewrite str_leb_refl in E.
Qed.
Lemma dget_sorted d k : dget (dsort (map (λ '(k, v), (k, json_sort v)) d)) k = json_sort <$> dget d k.
Proof.
  induction d as [|[x y] d IH]; simpl; [done|]. rewrite dget_insert_sorted. by destruct (String.eqb k x).
Qed.
Lemma dump_get md k : dget_none (_dump_metadata md) k = json_sort (dget_none md k).
Proof. unfold _dump_metadata, dget_none. simpl. rewrite dget_sorted. by destruct (dget md k). Qed.

Lemma cron_row_unique t jid r :
  NoDup (map k_cron_job_id (tasks t)) → r ∈ tasks t → k_cron_job_id r = jid →
  head (List.filter (has_cron_job jid) (tasks t)) = Some r.
Proof.
  intros Hn Hr Hid. assert (r ∈ List.filter (has_cron_job jid) (tasks t)) as H
    by (apply filter_elem; split; [done|by apply String.eqb_eq]).
  destruct (List.filter _ _) as [|y ys] eqn:E; [by apply elem_of_nil in H|]. simpl. f_equal.
  assert (y ∈ y :: ys) as Hy by left. rewrite <-E in Hy. apply filter_elem in Hy as [Hy Hiy%String.eqb_eq].
  apply list_elem_of_lookup in Hr as [i Hi], Hy as [j Hj]. assert (i = j) as ->; [|congruence].
  apply (NoDup_lookup _ i j jid Hn); rewrite list_lookup_fmap; [rewrite Hi|rewrite Hj]; simpl; congruence.
Qed.
(** The row that an outcome of the present state leaves. *)
Lemma outcome_row record s md reason t t' r :
  tasks_ok t → record ∈ tasks t →
  record_scheduled_outcome (k_task_id record) (k_state record) s md reason t = (t', Ok r) →
  tasks_ok t' ∧ r ∈ tasks t' ∧ k_state r = s ∧ k_metadata r = _dump_metadata md ∧
  k_task_id r = k_task_id record ∧ k_cron_job_id r = k_cron_job_id record.
Proof.
  intros Hok Hin H. pose proof (outcome_good (k_task_id record) (k_state record) s md reason t Hok) as [Hok' _].
  rewrite H in Hok'. split; [done|]. assert (row_ok record) as [[Hs Ht] _] by by apply Hok.
  assert (task_row t (k_task_id record) = Some record) as Hr by (apply task_row_spec; [apply Hok|done]).
  unfold record_scheduled_outcome in H. rewrite needed_found, Hs, Ht, Hr in H.
  rewrite (bind_of_Ok (task_found (Some record) _) _ t t record eq_refl) in H. rewrite bool_decide_eq_true_2 in H by done.
  change (negb true) with false in H. cbv iota in H. destruct (_ && _); [done|].
  unfold _utc_now_iso in H. set (t1 := set_task_counters (S (task_ticks t)) (task_uuids t) t) in H.
  rewrite (bind_of_Ok _ _ t t1 (isoformat (py_clock (task_ticks t))) eq_refl) in H. msplit H as t2 u E2.
  injection E2 as <- <-. apply reread_Ok in H as [-> H]. rewrite Hs, task_row_flag in H.
  match type of H with context[set_task_rows (update_where ?p ?f) t1] =>
    rewrite (update_row_lookup t1 p f (k_task_id record) record (proj1 Hok) (λ _, eq_refl) Hr) in H end.
  unfold has_task_id in H at 1. rewrite String.eqb_refl, bool_decide_eq_true_2 in H by done.
  change (true && true) with true in H. cbv iota in H. injection H as <-. split_and!; try done.
  apply update_where_elem. exists record. split; [done|]. left. split; [|done].
  unfold has_task_id. by rewrite String.eqb_refl, bool_decide_eq_true_2.
Qed.

Lemma get_job_any jid w : trimmed jid →
  ∃ w', get_scheduled_job jid w = (w', Ok (job_row (mw_cron w) jid)) ∧ same_tables w w'.
Proof.
  intros [Hs Ht]. set (c := cron_view w).
  exists (set_mw_cron c w).
  split; [|done]. apply (on_cron_Ok _ w c). simpl. unfold from_cron, get_cron_job, required. by rewrite Hs, Ht.
Qed.
Lemma by_job_unique jid w r : tasks_ok (mw_tasks w) → truthy (py_strip jid) = true → r ∈ tasks (mw_tasks w) →
  k_cron_job_id r = py_strip jid → get_task_by_job jid w = (w, Ok (Some r)).
Proof.
  intros (_ & Hn & _) Ht Hr Hid. unfold get_task_by_job, on_tasks, get_by_cron_job_id, needed. rewrite Ht.
  rewrite (bind_of_Ok (mret _) _ _ _ _ eq_refl). unfold gets. by rewrite (cron_row_unique _ _ r), manager_eta.
Qed.
Lemma by_job_inv jid w w' o : get_task_by_job jid w = (w', Ok o) →
  w' = w ∧ truthy (py_strip jid) = true ∧ ∀ r, o = Some r → r ∈ tasks (mw_tasks w) ∧ k_cron_job_id r = py_strip jid.
Proof.
  unfold get_task_by_job, on_tasks, get_by_cron_job_id, needed. destruct (truthy _); [|done].
  intros [= <- <-]. rewrite manager_eta. split; [done|]. split; [done|]. intros r.
  destruct (List.filter _ _) as [|y ys] eqn:E; [done|]. intros [= ->]. assert (r ∈ r :: ys) as H by left.
  rewrite <-E in H. by apply filter_elem in H as [? ?%String.eqb_eq].
Qed.
(** The schedules of the jobs. *)
Definition schedule_of (w : ManagerWorld) (jid : string) : option pyval := j_schedule <$> job_row (mw_cron w) jid.
Lemma switched_schedule jid enabled cancel due w w' x :
  switched jid enabled cancel due w w' → schedule_of w' x = schedule_of w x.
Proof.
  intros (now & E & _). unfold schedule_of, job_row. rewrite E. clear E. induction (cron_jobs (mw_cron w)) as [|y l IH]; [done|].
  simpl. destruct (has_job_id jid y); simpl; [change (has_job_id x (job_switch enabled due now y)) with (has_job_id x y)|];
    by destruct (has_job_id x y).
Qed.
Lemma terminal_task_schedule job job' run :
  (j_schedule <$> job) = (j_schedule <$> job') → terminal_task job run = terminal_task job' run.
Proof. unfold terminal_task. destruct job, job'; simpl; [by intros [= ->]|done..]. Qed.

Lemma outcome_target_terminal record run_state error :
  terminal (outcome_target record true run_state error).1.
Proof.
  unfold outcome_target, terminal, _TERMINAL_TASK_STATES. destruct (k_state record);
    [destruct (String.eqb run_state "finished")..| | |]; apply (bool_decide_unpack _); by vm_compute.
Qed.

(** What recording a new outcome leaves. *)
Lemma write_outcome_Ok record job jid run w w1 r :
  tasks_ok (mw_tasks w) → record ∈ tasks (mw_tasks w) → write_outcome record job jid run w = (w1, Ok r) →
  tasks_ok (mw_tasks w1) ∧ r ∈ tasks (mw_tasks w1) ∧ k_cron_job_id r = k_cron_job_id record ∧
  dget_none (k_metadata r) "last_run" = json_sort (last_run_entry run (str_or_blank (dget_none run "run_id"))
    (str_or_blank (dget_none run "state"))) ∧
  (terminal_task job run = true → terminal (k_state r)) ∧ ∀ x, schedule_of w1 x = schedule_of w x.
Proof.
  intros Hok Hin H. unfold write_outcome in H. msplit H as w2 u E2.
  assert (tasks (mw_tasks w2) = tasks (mw_tasks w) ∧ ∀ x, schedule_of w2 x = schedule_of w x) as [Ht Hsch].
  { destruct (_ && _); [|by injection E2 as <-]. destruct u. apply set_enabled_off_inv in E2; [|by apply Hok].
    split; [by destruct E2 as (_ & _ & _ & ?)|]. intros x. by eapply switched_schedule. }
  assert (tasks_ok (mw_tasks w2)) as Hok2 by by eapply tasks_ok_same.
  assert (record ∈ tasks (mw_tasks w2)) as Hin2 by by rewrite Ht. set (md := dset _ _ _) in H.
  assert (∀ s reason, on_tasks (record_scheduled_outcome (k_task_id record) (k_state record) s md reason) w2 = (w1, Ok r) →
    (terminal_task job run = true → terminal s) →
    tasks_ok (mw_tasks w1) ∧ r ∈ tasks (mw_tasks w1) ∧ k_cron_job_id r = k_cron_job_id record ∧
    dget_none (k_metadata r) "last_run" = json_sort (last_run_entry run (str_or_blank (dget_none run "run_id"))
      (str_or_blank (dget_none run "state"))) ∧
    (terminal_task job run = true → terminal (k_state r)) ∧ ∀ x, schedule_of w1 x = schedule_of w x) as Hgo.
  { intros s reason Ho Hterm. unfold on_tasks in Ho. destruct (record_scheduled_outcome _ _ _ _ _ _) as [t' [r'|e]] eqn:Er; [|done].
    injection Ho as <- <-. apply outcome_row in Er as (H1 & H2 & H3 & H4 & _ & H6); [|done|done].
    split_and!; [done|done|done| |by rewrite H3|done]. rewrite H4, dump_get. unfold md, dget_none at 1. by rewrite dget_dset_eq. }
  case_bool_decide as Ec.
  - rewrite <-Ec in H. eapply Hgo; [exact H|]. intros _. rewrite Ec. apply (bool_decide_unpack _). by vm_compute.
  - eapply Hgo; [exact H|]. intros ->. apply outcome_target_terminal.
Qed.

Lemma recorded_again r job run :
  dget_none (k_metadata r) "last_run" = json_sort (last_run_entry run (str_or_blank (dget_none run "run_id"))
    (str_or_blank (dget_none run "state"))) →
  (terminal_task job run = true → terminal (k_state r)) → already_recorded r job run = true.
Proof.
  intros Hm Ht. unfold already_recorded. rewrite Hm. unfold last_run_entry. cbn [json_sort as_dict is_mapping].
  unfold dget_none at 1. rewrite dget_sorted. cbn [dget String.eqb]. simpl (dget _ "run_id"). cbn [option_fmap option_map default].
  simpl. rewrite String.eqb_refl. simpl. destruct (terminal_task job run); [|done]. simpl. apply bool_decide_eq_true. by apply Ht.
Qed.

(** The outcome of a run is recorded once: reporting the same run again returns
    the same record and changes neither a task nor a job nor a run, although the
    first report may have closed the task and switched its job off. *)
Theorem outcome_recorded_once jid run w w1 r1 :
  tasks_ok (mw_tasks w) → mgr_record_scheduled_outcome jid run w = (w1, Ok (Some r1)) →
  ∃ w2, mgr_record_scheduled_outcome jid run w1 = (w2, Ok (Some r1)) ∧ same_tables w1 w2.
Proof.
  intros Hok H. pose proof H as H0. unfold mgr_record_scheduled_outcome in H. msplit H as w0 found E0.
  pose proof E0 as E0'. apply by_job_inv in E0' as (-> & Htj & Hfound). destruct found as [record|]; [|done].
  destruct (Hfound record eq_refl) as [Hin Hid].
  destruct (negb _) eqn:Est; [injection H as <- <-; by exists w|]. set (rs := str_or_blank (dget_none run "state")) in *.
  msplit H as w0' attempts Ea.
  assert (w0' = w) as -> by (destruct (String.eqb rs "cancelled"); by injection Ea).
  destruct (_ && _) eqn:Ec; [injection H as <- <-; by exists w|].
  assert (row_ok record) as (_ & Htr & _) by by apply Hok.
  destruct (get_job_any (k_cron_job_id record) w Htr) as (wa & Ej & Ha1 & Ha2 & Ha3).
  rewrite (bind_of_Ok _ _ w wa _ Ej) in H. set (job := job_row (mw_cron w) (k_cron_job_id record)) in H.
  (* a second report finds [r], whose outcome is recorded, and returns it *)
  assert (∀ w' r, tasks_ok (mw_tasks w') → r ∈ tasks (mw_tasks w') → k_cron_job_id r = k_cron_job_id record →
    already_recorded r (job_row (mw_cron w') (k_cron_job_id record)) run = true →
    ∃ w2, mgr_record_scheduled_outcome jid run w' = (w2, Ok (Some r)) ∧ same_tables w' w2) as Hagain.
  { intros w' r Hok' Hr Hjr Har. destruct (get_job_any (k_cron_job_id record) w' Htr) as (w2 & Ej2 & Hs2). exists w2. split; [|done].
    unfold mgr_record_scheduled_outcome. rewrite (bind_of_Ok _ _ w' w' (Some r)); [|apply by_job_unique; congruence].
    fold rs. rewrite Est. rewrite (bind_of_Ok _ _ w' w' attempts).
    - rewrite Ec, Hjr, (bind_of_Ok _ _ w' w2 _ Ej2), Har. done.
    - destruct (String.eqb rs "cancelled"); [|by injection Ea as <-]. unfold lift_pr, lift_result in *. by injection Ea as ->. }
  destruct (already_recorded record job run) eqn:Ear.
  - injection H as <- <-. apply Hagain; [by eapply tasks_ok_same|by rewrite Ha3|done|].
    unfold job_row in *. by rewrite Ha1.
  - msplit H as w1' r Ew. injection H as -> ->.
    apply write_outcome_Ok in Ew as (Hok1 & Hr1 & Hj1 & Hm1 & Ht1 & Hsch); [|by eapply tasks_ok_same|by rewrite Ha3].
    apply Hagain; [done|done|done|]. apply recorded_again; [done|]. intros Htt. apply Ht1. rewrite <-Htt.
    apply terminal_task_schedule. specialize (Hsch (k_cron_job_id record)). unfold schedule_of in Hsch.
    rewrite Hsch. unfold job, job_row. by rewrite Ha1.
Qed.
End Props.
