(* ===== verification/TaskDemo.v ===== *)
(** Concrete plans and tasks: the witnesses of the theorems about them, and what
    happens when two processes change the same task, or the same project, at once. *)

From S2P Require Import Prelude PyValue Timestamps PyText IsoText Schedule ScheduleCron ScheduleProps CronTables CronStore CronKeeps CronProps CronDemo TaskPlan TaskPlanProps TaskLife TaskLifeProps TaskManager TaskManagerProps.
From Stdlib Require Import Ascii.
From stdpp Require Import relations.

Local Open Scope Z_scope.

(** ** Plans *)

Definition plan_step (id : string) (deps : list string) : TaskPlanStep :=
  {| step_id := id; description := id; step_status := "pending"; estimated_difficulty := "low";
     depends_on := deps; tool_families := []; output_summary := ""; blocker_type := None;
     blocker_details := None; assigned_participant_id := None; worker_session_id := None;
     continuation_packet_id := None |}.
Definition demo_steps : list TaskPlanStep :=
  [plan_step "test" ["build"; "write"]; plan_step "build" ["write"]; plan_step "write" []].
Definition demo_plan : TaskPlan :=
  {| plan_id := "p"; objective := "ship"; workflow_id := None; workflow_version_hash := None;
     root_goal_id := None; criterion_ids := ["c1"]; plan_status := "active"; steps := demo_steps;
     continue_plan_autonomously := false |}.
Lemma demo_plan_new :
  TaskPlan_new (PStr " p ") (PStr "ship") PNone PNone PNone ["c1"] "active" demo_steps false = Ok demo_plan.
Proof. vm_compute. reflexivity. Qed.
Example cyclic_plan_refused :
  TaskPlan_new (PStr "p") (PStr "o") PNone PNone PNone [] "active"
    [plan_step "a" ["b"]; plan_step "b" ["c"]; plan_step "c" ["b"]] false
  = Raise (PlanValueError "TaskPlan dependencies must be acyclic").
Proof. vm_compute. reflexivity. Qed.

Definition demo_assignment : TaskPlanStepAssigned :=
  {| as_plan_id := "p"; as_step_id := "write"; as_participant_id := "w"; as_worker_session_id := "s";
     as_continuation_packet_id := "k" |}.
Definition assigned_plan : TaskPlan :=
  plan_copy (update_where (has_step_id "write") (step_assign demo_assignment) demo_steps) "active" demo_plan.

Lemma progress_keeps_plan_witness :
  _validate_step_graph (steps assigned_plan) = Ok () ∧ shape (steps assigned_plan) = shape demo_steps ∧
  plan_id assigned_plan = plan_id demo_plan ∧ criterion_ids assigned_plan = criterion_ids demo_plan.
Proof.
  apply (progress_keeps_plan (PStr " p ") (PStr "ship") PNone PNone PNone ["c1"] "active" demo_steps false
           demo_plan assigned_plan demo_plan_new).
  apply rtc_once. apply (progress_assignment _ _ demo_assignment). vm_compute. reflexivity.
Defined.

Lemma validated_plan_completes_witness :
  ∃ p1 p2, nsteps work 3 demo_plan p1 ∧
    apply_task_plan_signals (Some p1) {| sig_step_completed := None; sig_step_blocked := None;
      sig_abandoned := None; sig_completed := Some {| ts_plan_id := "p"; ts_reason := "" |} |} = Ok (Some p2) ∧
    plan_status p2 = "completed" ∧ Forall (λ t, step_status t = "completed") (steps p2).
Proof.
  apply (validated_plan_completes (PStr " p ") (PStr "ship") PNone PNone PNone ["c1"] "active" demo_steps false
           demo_plan demo_plan_new).
  intros t Ht. left. revert t Ht. apply Forall_forall. repeat constructor.
Defined.

Definition demo_revision : TaskPlanRevision :=
  {| rv_plan_id := "p"; rv_revision_id := Some "r1"; rv_predecessor_revision_id := None; rv_criterion_ids := [];
     rv_verifier_refs := ["unit:failed"]; rv_reason := "tests failed"; rv_revised_steps := [plan_step "fix" []];
     rv_objective := None; rv_workflow_id := None; rv_workflow_version_hash := None; rv_continue := true |}.
Definition demo_checkpoint : PlanCheckpoint :=
  {| ck_plan := Some demo_plan; ck_revision := None; ck_revision_count := 0; ck_revision_required := true;
     ck_verifier_refs := ["unit:failed"] |}.
Definition no_signals : Signals :=
  {| sig_step_completed := None; sig_step_blocked := None; sig_abandoned := None; sig_completed := None |}.
Definition demo_turn : PlanTurn :=
  {| turn_plan := None; turn_revisions := []; turn_revision := Some demo_revision; turn_signals := no_signals |}.
Definition revised_plan : TaskPlan :=
  {| plan_id := "p"; objective := "ship"; workflow_id := None; workflow_version_hash := None;
     root_goal_id := None; criterion_ids := ["c1"]; plan_status := "active"; steps := [plan_step "fix" []];
     continue_plan_autonomously := true |}.
Lemma plan_criteria_immutable_witness :
  1 = (0 + Z.of_nat 1)%Z ∧ (plan_id revised_plan = plan_id demo_plan → criterion_ids revised_plan = criterion_ids demo_plan) ∧
  ∃ start, revision_chain start [demo_revision].
Proof.
  apply (plan_criteria_immutable demo_checkpoint demo_turn demo_plan revised_plan
           (Some (revision_with_criteria ["c1"] demo_revision)) 1).
  - reflexivity.
  - vm_compute. reflexivity.
  - intros q. discriminate.
  - vm_compute. reflexivity.
Defined.

(** ** Tasks and claims *)

Definition task_empty : TaskWorld :=
  {| tasks := []; task_checkpoints := []; project_cycle_claims := []; in_transaction := false; task_ticks := 0; task_uuids := 0 |}.
Definition t_created : TaskWorld := task_exec (TkCreate "t1" "t1" None ACTIVE [("project_run_id", PStr "prun")]) task_empty.
Definition t_done : TaskWorld := task_exec (TkTransition "t1" "done" None) t_created.
Definition t_later : TaskWorld := task_exec (TkTransition "t1" "active" None) t_done.
Definition row_of (t : TaskWorld) : TaskLifecycleRecord :=
  default {| k_task_id := ""; k_cron_job_id := ""; k_agent_id := None; k_state := ACTIVE; k_created_at := "";
             k_updated_at := ""; k_cancelled_at := None; k_completed_at := None; k_failed_at := None;
             k_failure_reason := None; k_metadata := [] |} (task_row t "t1").
Lemma step_of op w : task_step w (task_exec op w).
Proof. by exists op. Qed.

Lemma terminal_task_final_witness :
  ∃ r', task_row t_later "t1" = Some r' ∧ k_cron_job_id r' = k_cron_job_id (row_of t_done) ∧
    (terminal (k_state (row_of t_done)) → k_state r' = k_state (row_of t_done)) ∧ row_ok r'.
Proof.
  apply (terminal_task_final task_empty t_done t_later "t1" (row_of t_done)).
  - reflexivity.
  - eapply rtc_l; [apply step_of|]. apply rtc_once, step_of.
  - vm_compute. reflexivity.
  - apply rtc_once, step_of.
Defined.

(** Two claims on the first cycle of a project: the second is taken after the first
    has expired. *)
Definition claim_of (t : TaskWorld) : ProjectCycleClaim :=
  default {| cl_task_id := ""; cl_owner_id := ""; cl_fence_token := 0; cl_expected_checkpoint_id := None;
             cl_expires_at := "" |} (claim_row t "t1").
Definition time_at (s : Z) : option Z := Some (day0 + s * 1000000).
Definition t_claim1 : TaskWorld := task_exec (TkAcquire "t1" "w1" None 60 (time_at 10)) t_created.
Definition t_claim2 : TaskWorld := task_exec (TkAcquire "t1" "w2" None 60 (time_at 100)) t_claim1.

Lemma stale_cycle_claim_refused_witness :
  (∀ ttl now, refused (refresh_project_cycle_claim (claim_of t_claim1) ttl now) t_claim2) ∧
  (∀ now, refused (release_project_cycle_claim (claim_of t_claim1) now) t_claim2) ∧
  (∀ t, refused (commit_check (claim_of t_claim1) t) t_claim2) ∧
  (∀ cid st now, refused (commit_project_cycle_checkpoint (claim_of t_claim1) cid st now) t_claim2).
Proof.
  apply (stale_cycle_claim_refused "t1" "w1" None 60 (time_at 10) t_created t_claim1 (claim_of t_claim1) t_claim1
           "t1" "w2" None 60 (time_at 100) t_claim2 (claim_of t_claim2) t_claim2).
  - vm_compute. reflexivity.
  - apply rtc_refl.
  - vm_compute. reflexivity.
  - vm_compute. reflexivity.
  - vm_compute. discriminate.
  - apply rtc_refl.
Defined.

Definition t_claimed : TaskWorld := task_exec (TkAcquire "t1" "w1" None 60 None) t_created.
Lemma demo_clock_strict n : (n ≤ 1000)%nat → clock_strict n.
Proof.
  intros Hn. split; [intros i j Hij; simpl; lia|]. intros i Hi. unfold instant_ok, max_instant, us_per_day. simpl.
  unfold us_per_day. lia.
Qed.
(** Two threads commit under one claim: both read the clock, the second while the
    first holds the lock; the first commits and the second is refused. *)
Definition demo_call (cid : string) (at_ : nat) : commit_call :=
  {| cc_claim := claim_of t_claimed; cc_id := cid; cc_blob := []; cc_at := py_clock at_ |}.
Definition tick (w : TaskWorld) : TaskWorld := set_task_counters (S (task_ticks w)) (task_uuids w) w.
Definition t_written : TaskWorld :=
  task_exec (TkWrite (claim_of t_claimed) "ck1" [] (py_clock (task_ticks t_claimed))) (tick (tick t_claimed)).
Definition two_commits : Repo :=
  {| rp_world := t_written; rp_calls := []; rp_lock := None; rp_claims := [claim_of t_claimed];
     rp_commits := [("t1", None, "ck1")] |}.
Lemma two_commits_run : rtc repo_step (repo_start t_created) two_commits.
Proof.
  eapply rtc_l. { apply (repo_acquire "t1" "w1" None 60 None (claim_of t_claimed) t_created t_claimed). vm_compute. reflexivity. }
  eapply rtc_l. { by apply (repo_begin (claim_of t_claimed) (claim_of t_claimed) "ck1" "ck1" []); [left|..]. }
  eapply rtc_l. { apply (repo_check (demo_call "ck1" (task_ticks t_claimed)) (Ok ()) (tick t_claimed) (tick t_claimed) [] []).
    vm_compute. reflexivity. }
  eapply rtc_l. { by apply (repo_begin (claim_of t_claimed) (claim_of t_claimed) "ck2" "ck2" []); [left|..]. }
  eapply rtc_l. { apply (repo_write (demo_call "ck1" (task_ticks t_claimed)) (Ok ()) (tick (tick t_claimed)) t_written).
    vm_compute. reflexivity. }
  eapply rtc_l; [|apply rtc_refl].
  apply (repo_check (demo_call "ck2" (task_ticks (tick t_claimed)))
           (Raise (StaleProjectCycleClaim "expected checkpoint None, found 'ck1'")) t_written t_written [] []).
  vm_compute. reflexivity.
Qed.
Lemma checkpoint_committed_once_witness :
  NoDup (map fst (rp_commits two_commits)) ∧
  (∀ t e cid, (t, e, cid) ∈ rp_commits two_commits →
     existsb (is_checkpoint t cid) (task_checkpoints (rp_world two_commits)) = true) ∧
  (∀ c t, (cl_task_id c, cl_expected_checkpoint_id c) ∈ map fst (rp_commits two_commits) →
     refused (commit_check c t) (rp_world two_commits)).
Proof.
  apply (checkpoint_committed_once t_created two_commits).
  - vm_compute. reflexivity.
  - apply two_commits_run.
  - apply demo_clock_strict. vm_compute. lia.
Defined.

(** ** Scheduled tasks *)

Definition manager_empty : ManagerWorld := {| mw_cron := cron_empty; mw_tasks := task_empty; mw_one_file := true |}.
Definition sched_job : NewCronJob := demo_job "job-1" None PNone 1.
Definition m_sched : ManagerWorld := (schedule_task sched_job [] manager_empty).1.
Definition m_row (w : ManagerWorld) : TaskLifecycleRecord :=
  default (row_of task_empty) (task_row (mw_tasks w) "job-1").
Definition m_job (w : ManagerWorld) : CronJob := default no_job (job_row (mw_cron w) "job-1").
Example demo_scheduled :
  (k_cron_job_id (m_row m_sched), k_state (m_row m_sched), j_enabled (m_job m_sched))
  = ("job-1", ACTIVE, true).
Proof. vm_compute. reflexivity. Qed.

Lemma elem_of_single {A} (P : A → Prop) (l : list A) x : l = [x] → P x → ∀ y, y ∈ l → P y.
Proof. intros -> H y Hy%list_elem_of_singleton. by subst. Qed.
Ltac one_task :=
  split; [vm_compute; apply NoDup_singleton|]; split; [vm_compute; apply NoDup_singleton|];
  eapply elem_of_single; [vm_compute; reflexivity|];
  repeat split; try (vm_compute; reflexivity); intros H; vm_compute in H |- *; discriminate.

(** The task has finished; its job is on. *)
Definition m_done : ManagerWorld := (transition_task "job-1" "done" None m_sched).1.

Lemma refused_stop_restores_job_witness :
  ∃ w' msg, cancel_task "job-1" m_done = (w', Raise (TaskValueError msg)) ∧ restored m_done w'.
Proof.
  destruct (refused_stop_restores_job "job-1" m_done (m_row m_done) (m_job m_done)) as [_ H].
  - vm_compute. reflexivity.
  - split; vm_compute; reflexivity.
  - vm_compute. reflexivity.
  - split; vm_compute; reflexivity.
  - vm_compute. reflexivity.
  - vm_compute. apply NoDup_singleton.
  - vm_compute. repeat constructor.
  - split; [intros _; vm_compute; discriminate|intros _; vm_compute; reflexivity].
  - apply H. vm_compute. discriminate.
Defined.


(** A task of another name holds the identifier of the job, which is scheduled again
    after it was deleted. *)
Definition m_linked : ManagerWorld := (create_linked_task "job-1" None [] (Some "other") manager_empty).1.
Definition m_failed : ManagerWorld := (schedule_task sched_job [] m_linked).1.
Lemma failed_schedule_effect_witness :
  map k_task_id (tasks (mw_tasks m_failed)) = ["other"] ∧
  (cron_jobs (mw_cron m_failed) = [] ∨
   file_locked m_failed = true ∧ ∃ j, cron_jobs (mw_cron m_failed) = cron_jobs (mw_cron m_linked) ++ [j]).
Proof.
  edestruct (failed_schedule_effect sched_job [] m_linked m_failed) as [H1 H2].
  - apply demo_ids_plain.
  - vm_compute. reflexivity.
  - rewrite H1. split; [vm_compute; reflexivity|].
    destruct H2 as [H2|(_ & H2 & _ & H3)]; [left; rewrite H2; vm_compute; reflexivity|right; by split].
Defined.
(** With two files the job is deleted again. *)
Definition two_files (w : ManagerWorld) : ManagerWorld :=
  {| mw_cron := mw_cron w; mw_tasks := mw_tasks w; mw_one_file := false |}.
Example failed_schedule_two_files : cron_jobs (mw_cron (schedule_task sched_job [] (two_files m_linked)).1) = [].
Proof. vm_compute. reflexivity. Qed.

(** A run of the task: a run of a watch that is over. *)
Definition demo_outcome (id state : string) (output : pyval) : dict :=
  [("run_id", PStr id); ("state", PStr state); ("summary", PStr "x"); ("output", output);
   ("error", PDict [("code", PStr "E_TOOL"); ("message", PStr "boom")])].
Definition watch_over : pyval := PDict [("watch_terminal", PBool true)].
Definition m_report1 : ManagerWorld :=
  (mgr_record_scheduled_outcome "job-1" (demo_outcome "r1" "failed" watch_over) m_sched).1.
Lemma outcome_recorded_once_witness :
  k_state (m_row m_report1) = FAILED ∧ j_enabled (m_job m_report1) = false ∧
  ∃ w2, mgr_record_scheduled_outcome "job-1" (demo_outcome "r1" "failed" watch_over) m_report1
        = (w2, Ok (Some (m_row m_report1))) ∧ same_tables m_report1 w2.
Proof.
  split; [vm_compute; reflexivity|]. split; [vm_compute; reflexivity|].
  apply (outcome_recorded_once "job-1" (demo_outcome "r1" "failed" watch_over) m_sched).
  - one_task.
  - vm_compute. reflexivity.
Defined.

(** ** What the code does not prevent *)

(** The reason of a failure is lost when a run that was still on its way is
    reported after it: the state does not change, and the reason becomes "failed". *)
Theorem failure_reason_overwritten :
  k_failure_reason (m_row m_report1) = Some "E_TOOL" ∧
  let w := (mgr_record_scheduled_outcome "job-1" (demo_outcome "r2" "finished" PNone) m_report1).1 in
  k_state (m_row w) = FAILED ∧ k_failure_reason (m_row w) = Some "failed".
Proof. vm_compute. auto. Qed.

(** A record that is refused leaves the connection of the records in a transaction:
    in one file the job stays in the schedule without a record, and as long as that
    connection does not write again the cron store is locked out of the file. *)
Theorem failed_schedule_keeps_job :
  (schedule_task sched_job [] m_linked).2
    = Raise (TaskIntegrityError "UNIQUE constraint failed: scheduled_tasks.cron_job_id") ∧
  map j_job_id (cron_jobs (mw_cron m_failed)) = ["job-1"] ∧
  map k_task_id (tasks (mw_tasks m_failed)) = ["other"] ∧
  (set_enabled "job-1" false false None m_failed).2 = Raise (TaskOperationalError "database is locked").
Proof. vm_compute. auto. Qed.

(** Two transitions of a task that both read it while it was active: the second one
    to write makes a finished task paused, and the time it finished is lost. *)
Theorem concurrent_transition_overwrites :
  let w := (transition_write (row_of t_created) PAUSED None t_done).1 in
  state_in PAUSED (_ALLOWED_STATE_TRANSITIONS (k_state (row_of t_created))) = true ∧
  k_state (row_of t_done) = DONE ∧ k_completed_at (row_of t_done) ≠ None ∧
  k_state (row_of w) = PAUSED ∧ k_completed_at (row_of w) = None.
Proof. vm_compute. repeat split; discriminate. Qed.

(** The checks of a commit precede the statement that opens its transaction.  A
    worker that has passed them, and goes on after its claim expired and another
    worker committed, writes a second successor of the same checkpoint. *)
Theorem concurrent_commits_fork :
  let w1 := t_claim1 in
  let w2 := (commit_project_cycle_checkpoint (claim_of t_claim2) "ck-b" [] (time_at 110) t_claim2).1 in
  let w3 := (commit_write (claim_of t_claim1) "ck-a" [] (default 0 (time_at 20)) w2) in
  (commit_check (claim_of t_claim1) (default 0 (time_at 20)) w1).2 = Ok () ∧
  map c_checkpoint_id (task_checkpoints w2) = ["ck-b"] ∧
  w3.2 = Ok () ∧ map c_checkpoint_id (task_checkpoints w3.1) = ["ck-b"; "ck-a"].
Proof. vm_compute. auto. Qed.
