(* ===== verification/BlobStore.v ===== *)
(** The content-addressed blob directory: [BlobStoreFS] of
    modules/storage/backends/blob_store.py, as far as artifacts use it, and
    [FileSystemCASBlobStore] of modules/artifact/storage/fs_cas.py.

    A payload is a file [<shard>/<hash>] or [<shard>/<hash>.<ext>], the shard being
    the first two digits of the hash; beside it stands the sidecar
    [<hash>.meta.json], kept here under the hash as the object its text denotes
    ([None] for a text that is no JSON).  A payload and a sidecar are written under
    a temporary name and renamed, hence in one step.  Bytes are strings, a
    character per byte. *)

From S2P Require Import Prelude PyValue PyText.
From Stdlib Require Import Ascii.

Record BlobFile := { bf_shard : string; bf_name : string; bf_data : string }.
Record BlobDir := {
  payloads : list BlobFile;
  sidecars : list (string * option dict);
}.

Inductive blob_exn : Type :=
| BlobValueError (msg : string)
| BlobNotFound (msg : string)
| BlobPyError (e : py_exn).
Abbreviation BR A := (result blob_exn A).

(** ** Names *)

Definition is_hex_lower (c : ascii) : bool := str_mem c "0123456789abcdef".
Definition _is_sha256_hash (value : string) : bool :=
  (String.length value =? 64)%nat && str_all is_hex_lower value.
Definition _normalize_hash (value : string) : BR string :=
  let text := py_lower (py_strip value) in
  if _is_sha256_hash text then Ok text
  else Raise (BlobValueError ("invalid sha256 hash: " +:+ value)).

Fixpoint str_filter (p : ascii → bool) (s : string) : string :=
  match s with
  | EmptyString => EmptyString
  | String c s' => if p c then String c (str_filter p s') else str_filter p s'
  end.
Definition _normalize_ext (value : pyval) : string :=
  str_filter latin1_isalnum (drop_while (Ascii.eqb ".") (py_lower (str_or_blank value))).

Definition shard_of (hash : string) : string := String.substring 0 2 hash.
(** The file name of [_target_path]. *)
Definition _target_path (hash ext : string) : string := if truthy ext then hash +:+ "." +:+ ext else hash.
(** [path.stem]: the name without its last suffix *)
Definition path_stem (name : string) : string :=
  match py_rpartition "." name with
  | Some (stem, suffix) => if truthy stem && truthy suffix then stem else name
  | None => name
  end.
Definition is_sidecar_name (name : string) : bool := py_endswith name ".meta.json".

(** ** Lookup *)

Definition in_shard (hash : string) (f : BlobFile) : bool := String.eqb (bf_shard f) (shard_of hash).
(** The payloads whose name begins with the hash, sorted by name. *)
Definition hash_matches (d : BlobDir) (hash : string) : list BlobFile :=
  sort_asc bf_name (List.filter (λ f, in_shard hash f && py_startswith (bf_name f) hash
    && negb (is_sidecar_name (bf_name f))) (payloads d)).
Definition _resolve_path (d : BlobDir) (ref : string) : BR BlobFile :=
  hash ← _normalize_hash ref;
  match hash_matches d hash with
  | [] => Raise (BlobNotFound ("blob not found: " +:+ hash))
  | f :: _ => Ok f
  end.
Definition blob_exists (d : BlobDir) (ref : string) : BR bool :=
  match _resolve_path d ref with
  | Ok _ => Ok true
  | Raise (BlobNotFound _) => Ok false
  | Raise e => Raise e
  end.
(** [open(ref).read()] *)
Definition blob_open (d : BlobDir) (ref : string) : BR string :=
  f ← _resolve_path d ref; Ok (bf_data f).

Definition is_target (hash ext : string) (f : BlobFile) : bool :=
  in_shard hash f && String.eqb (bf_name f) (_target_path hash ext).
Definition target_file (d : BlobDir) (hash ext : string) : option BlobFile :=
  List.find (is_target hash ext) (payloads d).
Definition find_sidecar (d : BlobDir) (hash : string) : option (option dict) :=
  match List.find (λ kv, String.eqb kv.1 hash) (sidecars d) with
  | Some (_, v) => Some v
  | None => None
  end.

(** ** Writing *)

Record BlobRef := {
  br_hash : string; br_path : string; br_size : Z; br_media_type : string; br_created_at : string;
  br_ext : option string;
}.
Definition file_path (hash ext : string) : string := shard_of hash +:+ "/" +:+ _target_path hash ext.
Definition text_some (s : string) : option string := if truthy s then Some s else None.
Definition text_field (d : dict) (k def : string) : string := py_str (default (PStr def) (dget d k)).

(** The blob that the sidecar records, if it is there. *)
Definition _existing_ref (d : BlobDir) (hash : string) : BR (option BlobRef) :=
  match find_sidecar d hash with
  | Some (Some meta) =>
      let ext := _normalize_ext (dget_none meta "ext") in
      match target_file d hash ext with
      | Some f =>
          size ← match py_int (default (PInt (Z.of_nat (String.length (bf_data f)))) (dget meta "size")) with
                 | Ok z => Ok z
                 | Raise e => Raise (BlobPyError e)
                 end;
          Ok (Some {| br_hash := hash; br_path := file_path hash ext; br_size := size;
                      br_media_type := text_field meta "media_type" "application/octet-stream";
                      br_created_at := text_field meta "created_at" ""; br_ext := text_some ext |})
      | None => Ok None
      end
  | _ => Ok None
  end.
Definition _write_meta (hash : string) (payload : dict) (d : BlobDir) : BlobDir :=
  {| payloads := payloads d;
     sidecars := List.filter (λ kv, negb (String.eqb kv.1 hash)) (sidecars d) ++ [(hash, Some payload)] |}.
Definition add_payload (hash ext data : string) (d : BlobDir) : BlobDir :=
  {| payloads := payloads d ++ [{| bf_shard := shard_of hash; bf_name := _target_path hash ext; bf_data := data |}];
     sidecars := sidecars d |}.

(** [now] is the reading of the clock; [put_known_hash_file] is the same with the
    bytes of the file. *)
Definition put_known_hash_bytes (digest data media_type ext : string) (meta : dict) (now : string) (d : BlobDir)
    : BR (BlobDir * BlobRef) :=
  hash ← _normalize_hash digest;
  existing ← _existing_ref d hash;
  match existing with
  | Some r => Ok (d, r)
  | None =>
      let ext_value := _normalize_ext (PStr ext) in
      let d1 := match target_file d hash ext_value with
                | Some _ => d
                | None => add_payload hash ext_value data d
                end in
      let size := match target_file d1 hash ext_value with Some f => Z.of_nat (String.length (bf_data f)) | None => 0%Z end in
      let payload_meta :=
        [("algo", PStr "sha256"); ("hash", PStr hash); ("media_type", PStr media_type);
         ("ext", if truthy ext_value then PStr ext_value else PNone); ("size", PInt size);
         ("created_at", PStr now); ("meta", PDict meta)] in
      Ok (_write_meta hash payload_meta d1,
          {| br_hash := hash; br_path := file_path hash ext_value; br_size := size; br_media_type := media_type;
             br_created_at := now; br_ext := text_some ext_value |})
  end.

(** [_owned_payload_paths]: the payloads whose stem is the hash. *)
Definition owned (hash : string) (f : BlobFile) : bool :=
  in_shard hash f && negb (is_sidecar_name (bf_name f)) && String.eqb (path_stem (bf_name f)) hash
  && _is_sha256_hash (path_stem (bf_name f)).
Definition blob_delete (ref : string) (d : BlobDir) : BR BlobDir :=
  hash ← _normalize_hash ref;
  Ok {| payloads := List.filter (λ f, negb (owned hash f)) (payloads d);
        sidecars := List.filter (λ kv, negb (String.eqb kv.1 hash)) (sidecars d) |}.

(** ** The store of artifacts *)

Section CAS.
Context {Env : PyEnv}.

Definition cas_put_bytes (sha256 data now : string) (d : BlobDir) : BR BlobDir :=
  present ← blob_exists d sha256;
  if (present : bool) then Ok d
  else if negb (String.eqb (py_sha256_hexdigest data) sha256)
  then Raise (BlobValueError "sha256 mismatch for put_bytes payload")
  else '(d', _) ← put_known_hash_bytes sha256 data "application/octet-stream" "" [] now d; Ok d'.
(** [put_file] of a file with the bytes [data]. *)
Definition cas_put_file (sha256 data now : string) (d : BlobDir) : BR BlobDir :=
  present ← blob_exists d sha256;
  if (present : bool) then Ok d
  else if negb (String.eqb (py_sha256_hexdigest data) sha256)
  then Raise (BlobValueError "sha256 mismatch for put_file payload")
  else '(d', _) ← put_known_hash_bytes sha256 data "application/octet-stream" "" [] now d; Ok d'.
End CAS.

(** The set of the first 64 characters of the names, sorted. *)
Definition blob_name_sha (f : BlobFile) : option string :=
  let name := bf_name f in
  if negb (is_sidecar_name name) && (64 <=? String.length name)%nat
     && str_all is_hex_lower (String.substring 0 64 name)
  then Some (String.substring 0 64 name) else None.
Definition list_sha256 (d : BlobDir) : list string :=
  sort_asc (λ s, s) (remove_dups (omap blob_name_sha (payloads d))).
