(* ===== verification/BlobStoreProps.v ===== *)
(** The blob directory as the artifact store uses it: every payload is named by the
    digest of its bytes, and lookup, writing, deletion and the inventory act on
    exactly the payload of a digest. *)

From S2P Require Import Prelude PyValue PyText BlobStore.
From Stdlib Require Import Ascii.

(** ** Digests as names *)

Definition valid_sha (s : string) : Prop := _is_sha256_hash s = true.
Lemma valid_sha_split s : valid_sha s ↔ String.length s = 64 ∧ str_all is_hex_lower s = true.
Proof. unfold valid_sha, _is_sha256_hash. by rewrite andb_true_iff, Nat.eqb_eq. Qed.

Lemma mem_str_elem c s : str_mem c s = true ↔ c ∈ String.list_ascii_of_string s.
Proof.
  induction s as [|d s IH]; simpl; [split; [done|intros H; inversion H]|].
  rewrite orb_true_iff, IH, Ascii.eqb_eq, elem_of_cons. done.
Qed.
Lemma hex_case (P : ascii → Prop) c :
  Forall P (String.list_ascii_of_string "0123456789abcdef") → is_hex_lower c = true → P c.
Proof. intros H Hc%mem_str_elem. by eapply Forall_forall in H. Qed.
Lemma hex_lower_fixed c : is_hex_lower c = true → latin1_lower c = c.
Proof. apply (hex_case (λ c, latin1_lower c = c)). repeat constructor. Qed.
Lemma hex_not_space c : is_hex_lower c = true → negb (latin1_is_space c) = true.
Proof. apply (hex_case (λ c, negb (latin1_is_space c) = true)). repeat constructor. Qed.
Lemma hex_not_dot c : is_hex_lower c = true → Ascii.eqb c "." = false.
Proof. apply (hex_case (λ c, Ascii.eqb c "." = false)). repeat constructor. Qed.

Lemma lower_hex s : str_all is_hex_lower s = true → py_lower s = s.
Proof.
  induction s as [|c s IH]; simpl; [done|]. intros [Hc Hs]%andb_true_iff. unfold py_lower in *. simpl.
  by rewrite hex_lower_fixed, IH.
Qed.
Lemma strip_hex s : str_all is_hex_lower s = true → py_strip s = s.
Proof. intros H. apply strip_no_space. eapply str_all_impl; [|done]. apply hex_not_space. Qed.
Lemma normalize_valid s : valid_sha s → _normalize_hash s = Ok s.
Proof.
  intros H. unfold _normalize_hash. pose proof H as [_ Hx]%valid_sha_split.
  rewrite strip_hex, lower_hex by done. by rewrite H.
Qed.
Lemma normalize_Ok s h : _normalize_hash s = Ok h → valid_sha h.
Proof. unfold _normalize_hash. destruct (_is_sha256_hash _) eqn:E; [by intros [= <-]|done]. Qed.

Lemma str_all_substring p n m s : str_all p s = true → str_all p (String.substring n m s) = true.
Proof.
  revert n m. induction s as [|c s IH]; intros [|n] [|m]; simpl; try done; intros [Hc Hs]%andb_true_iff.
  - by rewrite Hc, IH.
  - by apply IH.
  - by apply IH.
Qed.
Lemma valid_not_sidecar s : valid_sha s → is_sidecar_name s = false.
Proof.
  intros [_ H]%valid_sha_split. unfold is_sidecar_name, py_endswith. apply andb_false_iff. right.
  apply String.eqb_neq. intros E.
  assert (str_all is_hex_lower ".meta.json" = true) as Hx by (rewrite <-E; by apply str_all_substring).
  done.
Qed.
Lemma rpartition_absent s : str_all is_hex_lower s = true → py_rpartition "." s = None.
Proof.
  induction s as [|c s IH]; simpl; [done|]. intros [Hc Hs]%andb_true_iff. by rewrite IH, hex_not_dot.
Qed.
Lemma stem_valid s : valid_sha s → path_stem s = s.
Proof. intros [_ H]%valid_sha_split. unfold path_stem. by rewrite rpartition_absent. Qed.

Lemma prefix_same_length s t : String.prefix s t = true → String.length s = String.length t → s = t.
Proof.
  revert t. induction s as [|c s IH]; intros [|d t]; simpl; try done. destruct (ascii_dec c d) as [->|]; [|done].
  intros H [= E]. by rewrite (IH t).
Qed.
Lemma prefix_self s : String.prefix s s = true.
Proof. induction s as [|c s IH]; simpl; [done|]. by destruct (ascii_dec c c). Qed.
Lemma prefix_all p s t : String.prefix s t = true → str_all p t = true → str_all p s = true.
Proof.
  revert t. induction s as [|c s IH]; intros [|d t]; simpl; try done. destruct (ascii_dec c d) as [->|]; [|done].
  intros H [-> Ht]%andb_true_iff. by apply (IH t).
Qed.

(** ** The directory *)

Section Dir.
Context {Env : PyEnv}.

Definition file_ok (f : BlobFile) : Prop :=
  valid_sha (bf_name f) ∧ bf_shard f = shard_of (bf_name f) ∧ py_sha256_hexdigest (bf_data f) = bf_name f.
Definition dir_ok (d : BlobDir) : Prop := (∀ f, f ∈ payloads d → file_ok f) ∧ NoDup (map bf_name (payloads d)).
Definition has_blob (d : BlobDir) (s : string) : Prop := ∃ f, f ∈ payloads d ∧ bf_name f = s.

Lemma matches_spec d s f : dir_ok d → valid_sha s → f ∈ hash_matches d s ↔ f ∈ payloads d ∧ bf_name f = s.
Proof.
  intros [Hd _] Hs. unfold hash_matches. rewrite sort_asc_elem, filter_elem. split.
  - intros [Hf Hb]. split; [done|]. bsplit. destruct (Hd f Hf) as ([Hl _]%valid_sha_split & _).
    apply valid_sha_split in Hs as [Hl' _]. symmetry. apply prefix_same_length; [done|congruence].
  - intros [Hf <-]. split; [done|]. destruct (Hd f Hf) as (Hv & Hsh & _). unfold in_shard, py_startswith.
    by rewrite Hsh, String.eqb_refl, prefix_self, valid_not_sidecar.
Qed.
Lemma resolve_path_spec d s : dir_ok d → valid_sha s →
  match _resolve_path d s with
  | Ok f => f ∈ payloads d ∧ bf_name f = s
  | Raise (BlobNotFound _) => ¬ has_blob d s
  | Raise _ => False
  end.
Proof.
  intros Hd Hs. unfold _resolve_path. rewrite normalize_valid by done. simpl.
  unfold mbind, result_bind. destruct (hash_matches d s) as [|f l] eqn:E.
  - intros (f & Hf). assert (f ∈ hash_matches d s) as Hm by by apply matches_spec. rewrite E in Hm. inversion Hm.
  - apply (matches_spec d s f); [done..|]. rewrite E. left.
Qed.
Lemma exists_spec d s : dir_ok d → valid_sha s → ∃ b : bool, blob_exists d s = Ok b ∧ (b = true ↔ has_blob d s).
Proof.
  intros Hd Hs. pose proof (resolve_path_spec d s Hd Hs) as H. unfold blob_exists.
  destruct (_resolve_path d s) as [f|[msg|msg|e]]; try done.
  - exists true. split; [done|]. split; [|done]. intros _. by exists f.
  - exists false. split; [done|]. split; [done|]. by intros ?%H.
Qed.
Lemma open_spec d s : dir_ok d → valid_sha s → has_blob d s →
  ∃ f, f ∈ payloads d ∧ bf_name f = s ∧ blob_open d s = Ok (bf_data f).
Proof.
  intros Hd Hs Hb. pose proof (resolve_path_spec d s Hd Hs) as H. unfold blob_open.
  destruct (_resolve_path d s) as [f|[msg|msg|e]]; try done. exists f. naive_solver.
Qed.

Lemma find_target d s : dir_ok d → valid_sha s → ¬ has_blob d s → target_file d s "" = None.
Proof.
  intros [Hd _] Hs Hb. unfold target_file. destruct (List.find _ _) as [f|] eqn:E; [|done].
  apply find_some in E as [Hf E]. unfold is_target, _target_path in E. simpl in E. bsplit. destruct Hb. exists f.
  split; [by apply list_elem_of_In|done].
Qed.
(** A payload has no extension, so that a sidecar that records one finds nothing. *)
Lemma existing_none d s : dir_ok d → valid_sha s → ¬ has_blob d s → _existing_ref d s = Ok None.
Proof.
  intros Hd Hs Hb. unfold _existing_ref. destruct (find_sidecar d s) as [[meta|]|]; [|done..].
  destruct (target_file d s _) as [f|] eqn:E; [|done]. exfalso. unfold target_file in E.
  apply find_some in E as [Hf%list_elem_of_In E]. unfold is_target in E. bsplit.
  destruct Hd as [Hd _]. destruct (Hd f Hf) as ([Hl Hx]%valid_sha_split & _). unfold _target_path in *.
  destruct (truthy _); [|apply Hb; by exists f].
  match goal with H : bf_name f = _ |- _ => rewrite H in Hx end. rewrite !str_all_app in Hx. simpl in Hx.
  by rewrite andb_false_r in Hx.
Qed.

Definition new_file (s data : string) : BlobFile := {| bf_shard := shard_of s; bf_name := s; bf_data := data |}.
Lemma put_known_spec s data mt meta now d : dir_ok d → valid_sha s → ¬ has_blob d s →
  ∃ d' r, put_known_hash_bytes s data mt "" meta now d = Ok (d', r) ∧ payloads d' = payloads d ++ [new_file s data].
Proof.
  intros Hd Hs Hb. unfold put_known_hash_bytes. rewrite normalize_valid by done.
  unfold mbind, result_bind. rewrite existing_none by done. change (_normalize_ext (PStr "")) with "".
  rewrite (find_target d s) by done. eexists _, _. split; [reflexivity|]. done.
Qed.
Lemma dir_ok_snoc s data d d' : dir_ok d → valid_sha s → ¬ has_blob d s → py_sha256_hexdigest data = s →
  payloads d' = payloads d ++ [new_file s data] → dir_ok d'.
Proof.
  intros [Hd Hn] Hs Hb Hh E. split.
  - intros f. rewrite E, elem_of_app, list_elem_of_singleton. intros [Hf| ->]; [by apply Hd|]. done.
  - rewrite E, map_app. apply NoDup_app. split; [done|]. split; [|apply NoDup_singleton].
    intros x Hx%list_elem_of_In%in_map_iff Hy%list_elem_of_singleton. destruct Hx as (f & <- & Hf).
    apply Hb. exists f. split; [by apply list_elem_of_In|done].
Qed.
Lemma cas_put_spec s data now d : dir_ok d → valid_sha s → ¬ has_blob d s → py_sha256_hexdigest data = s →
  ∃ d', cas_put_bytes s data now d = Ok d' ∧ cas_put_file s data now d = Ok d' ∧
    payloads d' = payloads d ++ [new_file s data].
Proof.
  intros Hd Hs Hb Hh. destruct (exists_spec d s Hd Hs) as (b & Hb1 & Hb2).
  assert (b = false) as -> by (destruct b; [destruct Hb; by apply Hb2|done]).
  destruct (put_known_spec s data "application/octet-stream" [] now d Hd Hs Hb) as (d' & r & Hp & E).
  exists d'. unfold cas_put_bytes, cas_put_file, mbind, result_bind.
  by rewrite Hb1, Hh, String.eqb_refl, Hp.
Qed.

Lemma delete_spec s d d' : dir_ok d → blob_delete s d = Ok d' →
  ∃ h, _normalize_hash s = Ok h ∧ dir_ok d' ∧ ∀ f, f ∈ payloads d' ↔ f ∈ payloads d ∧ bf_name f ≠ h.
Proof.
  intros [Hd Hn] H. unfold blob_delete in H. destruct (_normalize_hash s) as [h|] eqn:En; [|done].
  injection H as <-. exists h. split; [done|]. simpl.
  assert (∀ f, f ∈ payloads d → owned h f = String.eqb (bf_name f) h) as Ho.
  { intros f Hf. destruct (Hd f Hf) as (Hv & Hsh & _). unfold owned, in_shard. rewrite Hsh, stem_valid, valid_not_sidecar by done.
    destruct (String.eqb (bf_name f) h) eqn:E; simpl; [|by rewrite andb_false_r]. bsplit.
    apply normalize_Ok in En. subst h. rewrite String.eqb_refl. simpl. done. }
  assert (∀ f, f ∈ List.filter (λ f, negb (owned h f)) (payloads d) ↔ f ∈ payloads d ∧ bf_name f ≠ h) as Hf.
  { intros f. rewrite filter_elem. split; intros [Hin H]; (split; [done|]); rewrite (Ho f Hin) in *.
    - by apply negb_true_iff, String.eqb_neq in H.
    - by apply negb_true_intro, String.eqb_neq. }
  split; [|done]. split; simpl; [intros f [Hin _]%Hf; by apply Hd|].
  clear -Hn. induction (payloads d) as [|x l IH]; simpl in *; [constructor|]. inversion_clear Hn as [|? ? H1 H2].
  destruct (negb _); [|by apply IH]. constructor; [|by apply IH]. intros Hx. apply H1.
  apply list_elem_of_In, in_map_iff in Hx as (f & E & Hx). apply filter_In in Hx as [Hx _]. rewrite <-E.
  apply list_elem_of_In. by apply in_map.
Qed.
Lemma delete_valid s d : valid_sha s → ∃ d', blob_delete s d = Ok d'.
Proof. intros H. unfold blob_delete. rewrite normalize_valid by done. by eexists. Qed.

Lemma list_sha256_spec d s : dir_ok d → s ∈ list_sha256 d ↔ has_blob d s.
Proof.
  intros [Hd _]. unfold list_sha256. rewrite sort_asc_elem, elem_of_remove_dups, list_elem_of_omap.
  split; intros (f & Hf & E); exists f; (split; [done|]); destruct (Hd f Hf) as (Hv & _); unfold blob_name_sha in *;
    pose proof Hv as [Hl Hx]%valid_sha_split; rewrite valid_not_sidecar, Hl in * by done; simpl in *;
    rewrite <-Hl, substring_all, Hx in *; simpl in *; congruence.
Qed.
End Dir.
