(* ===== verification/BlobGc.v ===== *)
(** The rest of [BlobStoreFS] of modules/storage/backends/blob_store.py: [put_bytes],
    [put_file], [stat], [path_for], [verify] and [gc], and what a collection keeps
    and removes.

    The modification time of a file is what the file system reports: a function of
    its directory and name, here in microseconds, as is the reading of the clock.
    The code compares the age in days as floating-point numbers; the comparison here
    is exact. *)

From S2P Require Import Prelude PyValue PyText Timestamps BlobStore BlobStoreProps.
From Stdlib Require Import Ascii.
From stdpp Require Import sorting.

Local Open Scope Z_scope.

Definition path_of (f : BlobFile) : string := bf_shard f +:+ "/" +:+ bf_name f.
Definition file_size (f : BlobFile) : Z := Z.of_nat (String.length (bf_data f)).
(** The object of the sidecar, when there is one that can be read. *)
Definition sidecar_meta (d : BlobDir) (hash : string) : option dict := mjoin (find_sidecar d hash).

Definition blob_stat (d : BlobDir) (ref : string) : BR dict :=
  f ← _resolve_path d ref;
  hash ← _normalize_hash ref;
  let meta := default [] (sidecar_meta d hash) in
  Ok [("size", PInt (file_size f)); ("hash", PStr hash);
      ("media_type", PStr (text_field meta "media_type" "application/octet-stream"));
      ("created_at", PStr (text_field meta "created_at" "")); ("path", PStr (path_of f))].
Definition path_for (d : BlobDir) (digest : string) : BR string :=
  hash ← _normalize_hash digest;
  match _resolve_path d hash with
  | Ok f => Ok (path_of f)
  | Raise (BlobNotFound _) =>
      Ok (file_path hash (match sidecar_meta d hash with
                          | Some meta => _normalize_ext (dget_none meta "ext")
                          | None => ""
                          end))
  | Raise e => Raise e
  end.
Definition blob_verify `{PyEnv} (d : BlobDir) (digest : string) : BR dict :=
  hash ← _normalize_hash digest;
  f ← _resolve_path d hash;
  let calculated := py_sha256_hexdigest (bf_data f) in
  Ok [("hash", PStr hash); ("calculated_hash", PStr calculated); ("matches", PBool (String.eqb calculated hash));
      ("size", PInt (file_size f)); ("path", PStr (path_of f));
      ("metadata", match sidecar_meta d hash with Some meta => PDict meta | None => PNone end)].

(** [guess] is the media type that the name of the file suggests. *)
Definition blob_put_bytes `{PyEnv} (data media_type ext : string) (meta : dict) (now : string) (d : BlobDir) : BR (BlobDir * BlobRef) :=
  put_known_hash_bytes (py_sha256_hexdigest data) data media_type ext meta now d.
Definition blob_put_file `{PyEnv} (data suffix : string) (guess media_type : option string) (meta : dict) (now : string)
    (d : BlobDir) : BR (BlobDir * BlobRef) :=
  let ext_value := _normalize_ext (PStr (drop_while (Ascii.eqb ".") suffix)) in
  let mime := if otruthy media_type then default "" media_type
              else if otruthy guess then default "" guess else "application/octet-stream" in
  put_known_hash_bytes (py_sha256_hexdigest data) data mime ext_value meta now d.

(** ** Collection *)

(** The digest a file is a payload of: its stem. *)
Definition owned_hash (f : BlobFile) : option string :=
  if is_sidecar_name (bf_name f) then None
  else if _is_sha256_hash (path_stem (bf_name f)) then Some (path_stem (bf_name f)) else None.
Definition payload_of (hash : string) (f : BlobFile) : bool := ostr_eqb (owned_hash f) (Some hash).
(** [_owned_payload_groups]: the digests and the payloads of each, in the order of
    their paths. *)
Definition group_hashes (d : BlobDir) : list string := remove_dups (omap owned_hash (payloads d)).
Definition group (d : BlobDir) (hash : string) : list BlobFile :=
  sort_asc bf_shard (sort_asc bf_name (List.filter (payload_of hash) (payloads d))).

Definition sizes (l : list BlobFile) : Z := foldr (λ f n, file_size f + n) 0 l.
Definition min_of (l : list Z) : Z := match l with [] => 0 | x :: rest => foldl Z.min x rest end.

Record Unit_ := { u_oldest : Z; u_hash : string; u_size : Z }.
(** The order of the tuples: the time, then the digest. *)
Definition unit_leb (a b : Unit_) : bool :=
  (u_oldest a <? u_oldest b) || ((u_oldest a =? u_oldest b) && str_leb (u_hash a) (u_hash b)).
Definition unit_le (a b : Unit_) : Prop := unit_leb a b = true.
#[export] Instance unit_le_dec : RelDecision unit_le.
Proof. intros a b. unfold unit_le. apply _. Defined.

(** The digests that the loop over the sorted units selects. *)
Fixpoint evict_to (max running : Z) (units : list Unit_) : list string :=
  match units with
  | [] => []
  | u :: rest => if running <=? max then [] else u_hash u :: evict_to max (running - u_size u) rest
  end.

Record BlobGcReport := {
  bg_dry_run : bool; bg_total_files : Z; bg_total_bytes : Z; bg_candidates : list string;
  bg_deleted_files : Z; bg_deleted_bytes : Z;
}.
Definition int_option (policy : dict) (k : string) : BR Z :=
  match py_int (default (PInt (-1)) (dget policy k)) with Ok z => Ok z | Raise e => Raise (BlobPyError e) end.

Section Gc.
Context (mtime : BlobFile → Z) (now : Z).

Definition unit_of (d : BlobDir) (hash : string) : Unit_ :=
  {| u_oldest := min_of (map mtime (group d hash)); u_hash := hash; u_size := sizes (group d hash) |}.
Definition units_of (d : BlobDir) : list Unit_ := map (unit_of d) (group_hashes d).
Definition aged (max_age_days : Z) (units : list Unit_) : list string :=
  if 0 <=? max_age_days
  then map u_hash (List.filter (λ u, max_age_days * us_per_day <=? now - u_oldest u) units)
  else [].
Definition oversize (max_total_bytes total_bytes : Z) (units : list Unit_) : list string :=
  if (0 <=? max_total_bytes) && (max_total_bytes <? total_bytes)
  then evict_to max_total_bytes total_bytes (merge_sort unit_le units)
  else [].
(** The payloads and the sidecar of a digest are unlinked. *)
Definition evict (d : BlobDir) (hash : string) : BlobDir :=
  {| payloads := List.filter (λ f, negb (payload_of hash f)) (payloads d);
     sidecars := List.filter (λ kv, negb (String.eqb kv.1 hash)) (sidecars d) |}.
Definition selection (d : BlobDir) (max_age_days max_total_bytes : Z) : list string :=
  let units := units_of d in
  sort_asc (λ s, s) (remove_dups (aged max_age_days units
    ++ oversize max_total_bytes (foldr (λ u n, u_size u + n) 0 units) units)).
Definition blob_gc (policy : dict) (d : BlobDir) : BR (BlobDir * BlobGcReport) :=
  let dry_run := py_truthy (default (PBool true) (dget policy "dry_run")) in
  max_age_days ← int_option policy "max_age_days";
  max_total_bytes ← int_option policy "max_total_bytes";
  let units := units_of d in
  let total_files := foldr (λ h n, Z.of_nat (length (group d h)) + n) 0 (group_hashes d) in
  let total_bytes := foldr (λ u n, u_size u + n) 0 units in
  let selected := selection d max_age_days max_total_bytes in
  let evicting := selected ≫= group d in
  Ok (if dry_run then d else foldl evict d selected,
      {| bg_dry_run := dry_run; bg_total_files := total_files; bg_total_bytes := total_bytes;
         bg_candidates := map path_of evicting;
         bg_deleted_files := if dry_run then 0 else Z.of_nat (length evicting);
         bg_deleted_bytes := if dry_run then 0 else sizes evicting |}).
End Gc.

(** ** What a collection removes *)

Definition in_hashes (hs : list string) (f : BlobFile) : bool :=
  match owned_hash f with Some h => str_in h hs | None => false end.
(** The bytes of all payloads. *)
Definition owned_bytes (d : BlobDir) : Z := sizes (List.filter (λ f, is_some (owned_hash f)) (payloads d)).

Lemma sizes_perm l l' : l ≡ₚ l' → sizes l = sizes l'.
Proof. unfold sizes. induction 1; simpl; lia. Qed.
Lemma sizes_app l l' : sizes (l ++ l') = sizes l + sizes l'.
Proof. unfold sizes. induction l; simpl; lia. Qed.
Lemma file_size_nonneg f : 0 <= file_size f.
Proof. unfold file_size. lia. Qed.
Lemma sizes_filter_le (p q : BlobFile → bool) l : (∀ f, p f = true → q f = true) →
  sizes (List.filter p l) <= sizes (List.filter q l).
Proof.
  intros H. induction l as [|f l IH]; simpl; [done|]. pose proof (H f) as Hf. pose proof (file_size_nonneg f).
  destruct (p f), (q f); unfold sizes in *; simpl; try lia; by specialize (Hf eq_refl).
Qed.
Lemma sizes_split (p q r : BlobFile → bool) l : (∀ f, r f = p f || q f) → (∀ f, p f && q f = false) →
  sizes (List.filter r l) = sizes (List.filter p l) + sizes (List.filter q l).
Proof.
  intros H1 H2. induction l as [|f l IH]; simpl; [done|]. rewrite H1. pose proof (H2 f).
  destruct (p f), (q f); try done; unfold sizes in *; simpl; lia.
Qed.
Lemma group_sizes d h : sizes (group d h) = sizes (List.filter (payload_of h) (payloads d)).
Proof. apply sizes_perm. unfold group. by rewrite !sort_asc_perm. Qed.
Lemma payload_of_eq h f : payload_of h f = true ↔ owned_hash f = Some h.
Proof. apply ostr_eqb_eq. Qed.
Lemma payload_in_hashes h hs f : h ∉ hs → payload_of h f && in_hashes hs f = false.
Proof.
  intros Hh. apply andb_false_iff. destruct (payload_of h f) eqn:E; [right|by left].
  apply payload_of_eq in E. unfold in_hashes. rewrite E. by apply str_in_elem_false.
Qed.
Lemma in_hashes_cons h hs f : in_hashes (h :: hs) f = payload_of h f || in_hashes hs f.
Proof. unfold in_hashes, payload_of, owned_hash. destruct (is_sidecar_name _); [done|]. by destruct (_is_sha256_hash _). Qed.
(** The sum over a set of digests is the sum over their payloads. *)
Lemma group_sum d hs : NoDup hs →
  foldr (λ h n, sizes (group d h) + n) 0 hs = sizes (List.filter (in_hashes hs) (payloads d)).
Proof.
  induction 1 as [|h hs Hh _ IH]; simpl.
  - induction (payloads d) as [|f l IHl]; simpl; [done|].
    unfold in_hashes at 1. by destruct (owned_hash f).
  - rewrite IH, group_sizes. symmetry. apply sizes_split; [apply in_hashes_cons|]. intros f. by apply payload_in_hashes.
Qed.
Lemma in_all_hashes d f : f ∈ payloads d → in_hashes (group_hashes d) f = is_some (owned_hash f).
Proof.
  intros Hf. unfold in_hashes. destruct (owned_hash f) as [h|] eqn:E; simpl; [|done].
  apply str_in_elem. unfold group_hashes. rewrite elem_of_remove_dups. apply list_elem_of_omap. eauto.
Qed.

Lemma foldl_evict hs d : payloads (foldl evict d hs) = List.filter (λ f, negb (in_hashes hs f)) (payloads d).
Proof.
  revert d. induction hs as [|h hs IH]; intros d; simpl.
  - induction (payloads d) as [|f l IHl]; simpl; [done|]. unfold in_hashes at 1.
    destruct (owned_hash f); simpl; by rewrite <-IHl.
  - rewrite IH. unfold evict. simpl. induction (payloads d) as [|f l IHl]; simpl; [done|].
    rewrite in_hashes_cons. destruct (payload_of h f); simpl; [done|]. by destruct (in_hashes hs f); simpl; rewrite IHl.
Qed.
Lemma filter_filter_and {A} (p q r : A → bool) l : (∀ x, r x = p x && q x) → List.filter p (List.filter q l) = List.filter r l.
Proof.
  intros H. induction l as [|x l IH]; simpl; [done|]. rewrite H, <-IH. destruct (q x) eqn:E; simpl; [|by rewrite andb_false_r].
  by rewrite andb_true_r.
Qed.
(** What a set of digests takes up is what its removal frees. *)
Lemma evict_frees hs d : NoDup hs →
  owned_bytes d = foldr (λ h n, sizes (group d h) + n) 0 hs + owned_bytes (foldl evict d hs).
Proof.
  intros Hnd. rewrite group_sum by done. unfold owned_bytes. rewrite foldl_evict.
  rewrite (filter_filter_and _ _ (λ f, is_some (owned_hash f) && negb (in_hashes hs f))) by done.
  apply sizes_split; intros f; unfold in_hashes; destruct (owned_hash f) as [h|]; simpl; try done; by destruct (str_in h hs).
Qed.
Lemma evict_more hs hs' d : (∀ h, h ∈ hs → h ∈ hs') → owned_bytes (foldl evict d hs') <= owned_bytes (foldl evict d hs).
Proof.
  intros H. unfold owned_bytes. rewrite !foldl_evict.
  rewrite !(filter_filter_and _ _ (λ f, is_some (owned_hash f) && negb (in_hashes _ f))) by done.
  apply sizes_filter_le. intros f. unfold in_hashes. destruct (owned_hash f) as [h|]; simpl; [|done].
  rewrite !negb_true_iff, !str_in_elem_false. eauto.
Qed.

(** ** Which digests are selected *)

#[local] Instance unit_le_trans : Transitive unit_le.
Proof.
  intros a b c. unfold unit_le, unit_leb. rewrite !orb_true_iff, !andb_true_iff, !Z.ltb_lt, !Z.eqb_eq.
  intros [H1|[H1 H2]] [H3|[H3 H4]]; [left; lia..|right]. split; [lia|]. by eapply str_leb_trans.
Qed.
#[local] Instance unit_le_total : Total unit_le.
Proof.
  intros a b. unfold unit_le, unit_leb. rewrite !orb_true_iff, !andb_true_iff, !Z.ltb_lt, !Z.eqb_eq.
  destruct (Z.lt_trichotomy (u_oldest a) (u_oldest b)) as [H|[H|H]]; [auto| |auto].
  destruct (str_leb (u_hash a) (u_hash b)) eqn:E; [auto|]. right. right. split; [done|].
  rewrite str_leb_ltb in E. apply negb_false_iff in E. by apply str_ltb_leb.
Qed.
Definition unit_sizes (us : list Unit_) : Z := foldr (λ u n, u_size u + n) 0 us.
Lemma evict_to_prefix max run us :
  ∃ l1 l2, us = l1 ++ l2 ∧ evict_to max run us = map u_hash l1 ∧ (run - unit_sizes l1 <= max ∨ l2 = []).
Proof.
  revert run. induction us as [|u us IH]; intros run; simpl; [exists [], []; auto|].
  destruct (Z.leb_spec run max); [exists [], (u :: us); simpl; split_and!; [done..|left; lia]|].
  destruct (IH (run - u_size u)) as (l1 & l2 & -> & -> & Hr). exists (u :: l1), l2. simpl. split_and!; [done..|].
  destruct Hr; [left; lia|by right].
Qed.

Section GcProps.
Context (mtime : BlobFile → Z) (now : Z).
Abbreviation unit_of := (unit_of mtime).
Abbreviation units_of := (units_of mtime).

Lemma unit_sizes_perm us us' : us ≡ₚ us' → unit_sizes us = unit_sizes us'.
Proof. unfold unit_sizes. induction 1; simpl; lia. Qed.
Lemma unit_sizes_map d hs : unit_sizes (map (unit_of d) hs) = foldr (λ h n, sizes (group d h) + n) 0 hs.
Proof. induction hs as [|h hs IH]; simpl; [done|]. by rewrite IH. Qed.
Lemma units_hashes d hs : map u_hash (map (unit_of d) hs) = hs.
Proof. rewrite map_map. apply map_id. Qed.
Lemma hashes_nodup d : NoDup (group_hashes d).
Proof. apply NoDup_remove_dups. Qed.
Lemma filter_same {A} (p q : A → bool) l : (∀ x, x ∈ l → p x = q x) → List.filter p l = List.filter q l.
Proof.
  induction l as [|x l IH]; intros H; simpl; [done|]. rewrite (H x) by (by left). rewrite IH; [done|]. intros y Hy. apply H. by right.
Qed.
Lemma units_total d : unit_sizes (units_of d) = owned_bytes d.
Proof.
  unfold BlobGc.units_of. rewrite unit_sizes_map, group_sum by apply hashes_nodup. unfold owned_bytes. f_equal.
  apply filter_same. intros f Hf. by apply in_all_hashes.
Qed.
(** Part of the units in the order of the tuples are the units of their digests. *)
Lemma sorted_units d : ∃ hs, merge_sort unit_le (units_of d) = map (unit_of d) hs ∧ hs ≡ₚ group_hashes d.
Proof.
  assert (∀ us, us ≡ₚ units_of d → us = map (unit_of d) (map u_hash us)) as H.
  { intros us Hus. assert (∀ u, u ∈ us → u = unit_of d (u_hash u)) as Hu.
    { intros u Hin. rewrite Hus in Hin. apply list_elem_of_In, in_map_iff in Hin as (h & <- & _). done. }
    clear Hus. induction us as [|u us IH]; simpl; [done|]. f_equal; [apply Hu; by left|]. apply IH. intros x Hx. apply Hu. by right. }
  exists (map u_hash (merge_sort unit_le (units_of d))). split; [apply H, merge_sort_Permutation|].
  rewrite merge_sort_Permutation. unfold BlobGc.units_of. by rewrite units_hashes.
Qed.
Lemma oversize_spec d max : 0 <= max → max < owned_bytes d →
  ∃ hs, oversize max (owned_bytes d) (units_of d) = hs ∧ NoDup hs ∧ (∀ h, h ∈ hs → h ∈ group_hashes d) ∧
    owned_bytes (foldl evict d hs) <= max ∧
    ∀ h k, h ∈ hs → k ∈ group_hashes d → k ∉ hs → unit_le (unit_of d h) (unit_of d k).
Proof.
  intros H0 Hm. unfold oversize. rewrite (proj2 (Z.leb_le _ _) H0), (proj2 (Z.ltb_lt _ _) Hm). simpl.
  destruct (sorted_units d) as (hs & E & Hp). pose proof (StronglySorted_merge_sort unit_le (units_of d)) as Hs.
  destruct (evict_to_prefix max (owned_bytes d) (merge_sort unit_le (units_of d))) as (l1 & l2 & El & -> & Hr).
  rewrite El in Hs. rewrite E in El. apply map_eq_app in El as (h1 & h2 & -> & <- & <-).
  rewrite units_hashes. exists h1. pose proof (hashes_nodup d) as Hnd. rewrite <-Hp in Hnd.
  assert (∀ h, h ∈ h1 → h ∈ group_hashes d) as Hsub by (intros h Hh; rewrite <-Hp; apply elem_of_app; by left).
  assert (NoDup h1) as Hn1 by (apply NoDup_app in Hnd; by destruct Hnd). split_and!; [done..| |].
  - pose proof (evict_frees h1 d Hn1) as Hf. rewrite unit_sizes_map in Hr. destruct Hr as [Hr|Hr]; [lia|].
    apply map_eq_nil in Hr as ->. rewrite app_nil_r in Hp.
    assert (foldr (λ h n, sizes (group d h) + n) 0 h1 = owned_bytes d); [|lia].
    rewrite <-unit_sizes_map, <-units_total. apply unit_sizes_perm. unfold BlobGc.units_of. by rewrite Hp.
  - intros h k Hh Hk Hnk. rewrite <-Hp in Hk. apply elem_of_app in Hk as [Hk|Hk]; [done|].
    eapply (StronglySorted_app_1_elem_of unit_le); [apply Hs|by apply list_elem_of_In, in_map, list_elem_of_In..].
Qed.

Lemma sort_text_elem (l : list string) x : x ∈ sort_asc (λ s, s) l ↔ x ∈ l.
Proof. apply sort_asc_elem. Qed.
Lemma selection_spec d age max : ∃ hs, selection mtime now d age max = hs ∧ NoDup hs ∧
  (0 <= max → owned_bytes (foldl evict d hs) <= max) ∧
  ∀ h, h ∈ hs → h ∈ group_hashes d ∧
    ((0 <= age ∧ age * us_per_day <= now - u_oldest (unit_of d h)) ∨
     (0 <= max < owned_bytes d ∧ ∀ k, k ∈ group_hashes d → k ∉ hs → unit_le (unit_of d h) (unit_of d k))).
Proof.
  eexists. split; [done|]. unfold selection. change (foldr _ 0 (units_of d)) with (unit_sizes (units_of d)). rewrite units_total.
  set (old := aged now age (units_of d)). set (big := oversize max (owned_bytes d) (units_of d)).
  assert (∀ h, h ∈ sort_asc (λ s, s) (remove_dups (old ++ big)) ↔ h ∈ old ∨ h ∈ big) as Hin.
  { intros h. by rewrite sort_text_elem, elem_of_remove_dups, elem_of_app. }
  assert (∀ h, h ∈ old → h ∈ group_hashes d ∧ 0 <= age ∧ age * us_per_day <= now - u_oldest (unit_of d h)) as Hold.
  { intros h. unfold old, aged. destruct (Z.leb_spec 0 age); [|intros Hx; by apply not_elem_of_nil in Hx].
    intros Hh%list_elem_of_In. apply in_map_iff in Hh as (u & <- & Hu%list_elem_of_In). apply filter_elem in Hu as [Hu Hle].
    apply list_elem_of_In, in_map_iff in Hu as (k & <- & Hk%list_elem_of_In). simpl. split_and!; [done..|]. by apply Z.leb_le in Hle. }
  split; [rewrite sort_asc_perm; apply NoDup_remove_dups|].
  destruct (decide (0 <= max < owned_bytes d)) as [[H0 Hm]|Hno].
  - destruct (oversize_spec d max H0 Hm) as (hs & E & Hn & Hsub & Hle & Hord). change (big = hs) in E. rewrite E in *. split.
    + intros _. etrans; [|exact Hle]. apply evict_more. intros h Hh. apply Hin. by right.
    + intros h Hh. apply Hin in Hh as [Hh|Hh]; [destruct (Hold h Hh); auto|]. split; [by apply Hsub|]. right. split; [lia|].
      intros k Hk Hnk. apply Hord; [done..|]. intros Hb. apply Hnk, Hin. by right.
  - split.
    + intros H0. pose proof (evict_more [] (sort_asc (λ s, s) (remove_dups (old ++ big))) d) as Hl. simpl in Hl.
      assert (owned_bytes d <= max) by lia. etrans; [apply Hl|done]. intros h Hx. by apply not_elem_of_nil in Hx.
    + intros h Hh. apply Hin in Hh as [Hh|Hh]; [destruct (Hold h Hh); auto|]. exfalso. unfold big, oversize in Hh.
      destruct (Z.leb_spec 0 max), (Z.ltb_spec max (owned_bytes d)); simpl in Hh; try (by apply not_elem_of_nil in Hh). lia.
Qed.

Lemma sizes_bind d hs : sizes (hs ≫= group d) = foldr (λ h n, sizes (group d h) + n) 0 hs.
Proof. induction hs as [|h hs IH]; [done|]. change (sizes (group d h ++ (hs ≫= group d)) = sizes (group d h) + foldr (λ h n, sizes (group d h) + n) 0 hs).
  by rewrite sizes_app, IH. Qed.

(** C30: a collection of the blob directory that is carried out leaves no more bytes
    of payloads than the budget, when there is one, and reports exactly the bytes it
    freed.  It removes the payloads of whole digests and no other file, and only
    digests that are past the age limit, or, when the directory was over budget,
    older than every digest that stays. *)
Theorem blob_gc_within_budget policy d d' report age max :
  blob_gc mtime now policy d = Ok (d', report) → bg_dry_run report = false →
  int_option policy "max_age_days" = Ok age → int_option policy "max_total_bytes" = Ok max →
  (0 <= max → owned_bytes d' <= max) ∧ bg_deleted_bytes report = owned_bytes d - owned_bytes d' ∧
  ∃ hs, payloads d' = List.filter (λ f, negb (in_hashes hs f)) (payloads d) ∧
    ∀ h, h ∈ hs →
      (0 <= age ∧ age * us_per_day <= now - u_oldest (unit_of d h)) ∨
      (0 <= max < owned_bytes d ∧ ∀ k, k ∈ group_hashes d → k ∉ hs → unit_le (unit_of d h) (unit_of d k)).
Proof.
  unfold blob_gc. intros H Hdry Ha Hm. rewrite Ha, Hm in H. simpl in H. injection H as <- <-. simpl in *. rewrite Hdry.
  destruct (selection_spec d age max) as (hs & -> & Hnd & Hle & Hwhy). split; [done|]. split.
  - rewrite sizes_bind. pose proof (evict_frees hs d Hnd). lia.
  - exists hs. split; [apply foldl_evict|]. intros h Hh. by apply Hwhy.
Qed.
End GcProps.
