(* ===== verification/ArtifactIndex.v ===== *)
(** The index of artifacts: models.py, errors.py, constants.py and
    storage/store.py of modules/artifact.  The four tables, the blob directory,
    the events handed to a retriever, and the counts of clock readings and of drawn
    identifiers make up [ArtWorld]; each statement of the index is one step.  A
    JSON column holds the object its text denotes. *)

From S2P Require Import Prelude PyValue Timestamps PyText Schedule BlobStore.
From Stdlib Require Import Ascii.

Local Open Scope Z_scope.

(** ** References *)

Definition ARTIFACT_REF_PREFIX : string := "artifact://sha256/".
Definition VALID_OWNER_TYPES : list string := ["session"; "memory"; "alias"; "collection"; "a2a"].

Definition sha_to_ref (sha256 : string) : string := ARTIFACT_REF_PREFIX +:+ sha256.
(** [s.removeprefix(p)] *)
Definition py_removeprefix (p s : string) : string :=
  if py_startswith s p then String.substring (String.length p) (String.length s - String.length p) s else s.
(** A [ValueError] is [Raise]. *)
Definition parse_ref_or_sha (ref_or_sha : string) : PR string :=
  let raw := py_strip ref_or_sha in
  let candidate := py_removeprefix ARTIFACT_REF_PREFIX raw in
  if negb (String.length candidate =? 64)%nat then Raise (PyValueError ("Expected sha256/ref, got: " +:+ raw))
  else
    let lowered := py_lower candidate in
    if str_all is_hex_lower lowered then Ok lowered
    else Raise (PyValueError ("Invalid sha256: " +:+ candidate)).

Definition EXPIRY_ERROR : string := "expires_at must be a timezone-aware ISO-8601 timestamp".
Definition normalize_alias_expiry `{PyEnv} (expires_at : string) : PR string :=
  let raw := py_strip expires_at in
  let raw := if py_endswith raw "Z" then String.substring 0 (String.length raw - 1) raw +:+ "+00:00" else raw in
  match py_fromisoformat raw with
  | Some (local, Some offset) => t ← dt_add local (- offset); Ok (isoformat t)
  | _ => Raise (PyValueError EXPIRY_ERROR)
  end.

(** ** Rows *)

Record ArtifactMeta := {
  am_sha256 : string; am_size_bytes : Z; am_mime : string; am_created_at : string;
  am_original_name : option string; am_original_path : option string; am_label : option string;
  am_session_id : option string; am_trace_id : option string; am_agent_id : option string;
  am_encoding : option string; am_deleted_at : option string; am_meta_json : option dict;
}.
Record ArtifactRef := {
  ar_ref : string; ar_sha256 : string; ar_mime : string; ar_size_bytes : Z; ar_created_at : string;
  ar_label : option string; ar_meta : option dict;
}.
Definition to_ref (a : ArtifactMeta) : ArtifactRef :=
  {| ar_ref := sha_to_ref (am_sha256 a); ar_sha256 := am_sha256 a; ar_mime := am_mime a;
     ar_size_bytes := am_size_bytes a; ar_created_at := am_created_at a; ar_label := am_label a;
     ar_meta := am_meta_json a |}.
Record ViewRecord := {
  vr_raw_sha256 : string; vr_view_type : string; vr_schema_version : string; vr_policy_hash : string;
  vr_view_sha256 : option string; vr_view_path : option string; vr_mime : string; vr_size_bytes : Z;
  vr_created_at : string; vr_deleted_at : option string;
}.
Record AliasRecord := {
  al_alias : string; al_sha256 : string; al_updated_at : string; al_expires_at : option string;
  al_meta_json : option dict;
}.
Record ReferenceEdge := {
  re_ref_id : string; re_owner_type : string; re_owner_id : string; re_sha256 : string;
  re_created_at : string; re_deleted_at : option string;
}.

Inductive art_exn : Type :=
| ArtifactCtlError (code message : string) (details : dict)
| ArtBlobError (e : blob_exn)
| ArtPyError (e : py_exn)
| ArtFileNotFound (path : string)
| ArtOther (msg : string).

Record ArtWorld := {
  artifacts : list ArtifactMeta;
  artifact_views : list ViewRecord;
  aliases : list AliasRecord;
  reference_edges : list ReferenceEdge;
  art_blobs : BlobDir;
  art_events : list dict;
  art_ticks : nat;
  art_uuids : nat;
}.
Abbreviation AM A := (M ArtWorld art_exn A).

Definition set_artifacts (f : list ArtifactMeta → list ArtifactMeta) (w : ArtWorld) : ArtWorld :=
  {| artifacts := f (artifacts w); artifact_views := artifact_views w; aliases := aliases w;
     reference_edges := reference_edges w; art_blobs := art_blobs w; art_events := art_events w;
     art_ticks := art_ticks w; art_uuids := art_uuids w |}.
Definition set_views (f : list ViewRecord → list ViewRecord) (w : ArtWorld) : ArtWorld :=
  {| artifacts := artifacts w; artifact_views := f (artifact_views w); aliases := aliases w;
     reference_edges := reference_edges w; art_blobs := art_blobs w; art_events := art_events w;
     art_ticks := art_ticks w; art_uuids := art_uuids w |}.
Definition set_aliases (f : list AliasRecord → list AliasRecord) (w : ArtWorld) : ArtWorld :=
  {| artifacts := artifacts w; artifact_views := artifact_views w; aliases := f (aliases w);
     reference_edges := reference_edges w; art_blobs := art_blobs w; art_events := art_events w;
     art_ticks := art_ticks w; art_uuids := art_uuids w |}.
Definition set_edges (f : list ReferenceEdge → list ReferenceEdge) (w : ArtWorld) : ArtWorld :=
  {| artifacts := artifacts w; artifact_views := artifact_views w; aliases := aliases w;
     reference_edges := f (reference_edges w); art_blobs := art_blobs w; art_events := art_events w;
     art_ticks := art_ticks w; art_uuids := art_uuids w |}.
Definition set_blobs (d : BlobDir) (w : ArtWorld) : ArtWorld :=
  {| artifacts := artifacts w; artifact_views := artifact_views w; aliases := aliases w;
     reference_edges := reference_edges w; art_blobs := d; art_events := art_events w;
     art_ticks := art_ticks w; art_uuids := art_uuids w |}.
Definition add_event (e : dict) (w : ArtWorld) : ArtWorld :=
  {| artifacts := artifacts w; artifact_views := artifact_views w; aliases := aliases w;
     reference_edges := reference_edges w; art_blobs := art_blobs w; art_events := art_events w ++ [e];
     art_ticks := art_ticks w; art_uuids := art_uuids w |}.
Definition set_art_counters (t u : nat) (w : ArtWorld) : ArtWorld :=
  {| artifacts := artifacts w; artifact_views := artifact_views w; aliases := aliases w;
     reference_edges := reference_edges w; art_blobs := art_blobs w; art_events := art_events w;
     art_ticks := t; art_uuids := u |}.

Definition live_row (a : ArtifactMeta) : bool := negb (is_some (am_deleted_at a)).
Definition live_view (v : ViewRecord) : bool := negb (is_some (vr_deleted_at v)).
Definition live_edge (e : ReferenceEdge) : bool := negb (is_some (re_deleted_at e)).
(** [expires_at IS NULL OR expires_at > now] *)
Definition alias_active (now : string) (a : AliasRecord) : bool :=
  match al_expires_at a with None => true | Some e => str_ltb now e end.
(** [deleted_at IS NOT NULL AND deleted_at <= cutoff] *)
Definition deleted_by (cutoff : string) (deleted_at : option string) : bool :=
  match deleted_at with None => false | Some t => str_leb t cutoff end.

Definition row_deleted (at_ : option string) (a : ArtifactMeta) : ArtifactMeta :=
  {| am_sha256 := am_sha256 a; am_size_bytes := am_size_bytes a; am_mime := am_mime a;
     am_created_at := am_created_at a; am_original_name := am_original_name a;
     am_original_path := am_original_path a; am_label := am_label a; am_session_id := am_session_id a;
     am_trace_id := am_trace_id a; am_agent_id := am_agent_id a; am_encoding := am_encoding a;
     am_deleted_at := at_; am_meta_json := am_meta_json a |}.
Definition view_deleted (at_ : string) (v : ViewRecord) : ViewRecord :=
  {| vr_raw_sha256 := vr_raw_sha256 v; vr_view_type := vr_view_type v; vr_schema_version := vr_schema_version v;
     vr_policy_hash := vr_policy_hash v; vr_view_sha256 := vr_view_sha256 v; vr_view_path := vr_view_path v;
     vr_mime := vr_mime v; vr_size_bytes := vr_size_bytes v; vr_created_at := vr_created_at v;
     vr_deleted_at := Some at_ |}.
Definition edge_deleted (at_ : string) (e : ReferenceEdge) : ReferenceEdge :=
  {| re_ref_id := re_ref_id e; re_owner_type := re_owner_type e; re_owner_id := re_owner_id e;
     re_sha256 := re_sha256 e; re_created_at := re_created_at e; re_deleted_at := Some at_ |}.
Definition edge_renewed (at_ : string) (e : ReferenceEdge) : ReferenceEdge :=
  {| re_ref_id := re_ref_id e; re_owner_type := re_owner_type e; re_owner_id := re_owner_id e;
     re_sha256 := re_sha256 e; re_created_at := at_; re_deleted_at := None |}.

(** The object that a JSON column returns. *)
Definition stored_json (v : option dict) : option dict :=
  match v with
  | Some d => match json_sort (PDict d) with PDict d' => Some d' | _ => Some d end
  | None => None
  end.

(** [INSERT ... ON CONFLICT(key) DO UPDATE]: the rows that conflict are changed, and
    without any the new one is added. *)
Definition upsert {A} (same : A → bool) (change : A → A) (new : A) (l : list A) : list A :=
  if existsb same l then update_where same change l else l ++ [new].

(** SQL [s LIKE pat]: [%] is any text, [_] one character; ASCII letters match in
    either case. *)
Fixpoint like_go (fuel : nat) (pat s : string) : bool :=
  match fuel with
  | O => false
  | S fuel' =>
      match pat with
      | EmptyString => String.eqb s ""
      | String p pat' =>
          if Ascii.eqb p "%" then
            like_go fuel' pat' s || match s with String _ s' => like_go fuel' pat s' | EmptyString => false end
          else match s with
               | String c s' => (Ascii.eqb p "_" || Ascii.eqb (ascii_upper p) (ascii_upper c)) && like_go fuel' pat' s'
               | EmptyString => false
               end
      end
  end.
Definition sql_like (s pat : string) : bool := like_go (S (String.length s + String.length pat)) pat s.
Definition olike (o : option string) (pat : string) : bool :=
  match o with Some s => sql_like s pat | None => false end.
Definition _bounded_limit (value upper : Z) : Z := Z.max 1 (Z.min value upper).

(** [date(created_at)] of a UTC timestamp: its first ten characters. *)
Definition sql_date (t : string) : string := String.substring 0 10 t.

Section Index.
Context {Env : PyEnv}.

Definition art_now : AM Z :=
  λ w, (set_art_counters (S (art_ticks w)) (art_uuids w) w, Ok (py_clock (art_ticks w))).
Definition iso_now : AM string := t ← art_now; mret (isoformat t).
Definition new_uuid : AM string :=
  λ w, (set_art_counters (art_ticks w) (S (art_uuids w)) w, Ok (py_uuid4 (art_uuids w))).
(** [now - timedelta(days=max(0, days))] *)
Definition days_ago (days : Z) : AM Z :=
  now ← art_now;
  match dt_add now (- (Z.max 0 days * us_per_day)) with
  | Ok t => mret t
  | Raise e => raise (ArtPyError e)
  end.
Definition cutoff_of (days : Z) : AM string := t ← days_ago days; mret (isoformat t).
Definition cutoff_date (days : Z) : AM string := t ← days_ago days; mret (sql_date (isoformat t)).

(** ** Artifacts *)

Definition has_sha (sha : string) (a : ArtifactMeta) : bool := String.eqb (am_sha256 a) sha.
Definition upsert_artifact (m : ArtifactMeta) : AM () :=
  modify (set_artifacts (upsert (has_sha (am_sha256 m)) (row_deleted (am_deleted_at m))
    {| am_sha256 := am_sha256 m; am_size_bytes := am_size_bytes m; am_mime := am_mime m;
       am_created_at := am_created_at m; am_original_name := am_original_name m;
       am_original_path := am_original_path m; am_label := am_label m; am_session_id := am_session_id m;
       am_trace_id := am_trace_id m; am_agent_id := am_agent_id m; am_encoding := am_encoding m;
       am_deleted_at := am_deleted_at m; am_meta_json := stored_json (am_meta_json m) |})).
Definition find_artifact (w : ArtWorld) (sha : string) (include_deleted : bool) : option ArtifactMeta :=
  List.find (λ a, has_sha sha a && (include_deleted || live_row a)) (artifacts w).
Definition get_artifact (sha : string) (include_deleted : bool) : AM (option ArtifactMeta) :=
  gets (λ w, find_artifact w sha include_deleted).

(** [_artifact_base_query]: the rows that satisfy the filters. *)
Definition filter_text (filters : dict) (key : string) : option string :=
  let v := dget_none filters key in if py_truthy v then Some (py_str v) else None.
Definition field_is (o : option string) (wanted : option string) : bool :=
  match wanted with None => true | Some s => ostr_eqb o (Some s) end.
Definition base_query (filters : dict) (w : ArtWorld) (a : ArtifactMeta) : bool :=
  let owner_type := filter_text filters "owner_type" in
  let owner_id := filter_text filters "owner_id" in
  (py_truthy (default (PBool false) (dget filters "include_deleted")) || live_row a)
  && field_is (am_session_id a) (filter_text filters "session_id")
  && field_is (am_trace_id a) (filter_text filters "trace_id")
  && field_is (am_agent_id a) (filter_text filters "agent_id")
  && field_is (Some (am_mime a)) (filter_text filters "mime")
  && (negb (is_some owner_type || is_some owner_id)
      || existsb (λ e, String.eqb (re_sha256 e) (am_sha256 a)
                       && String.eqb (re_owner_type e) (default "" owner_type)
                       && String.eqb (re_owner_id e) (default "" owner_id) && live_edge e) (reference_edges w))
  && match filter_text filters "missing_view_type" with
     | None => true
     | Some t => negb (existsb (λ v, String.eqb (vr_raw_sha256 v) (am_sha256 a)
                                     && String.eqb (vr_view_type v) t && live_view v) (artifact_views w))
     end.
Definition query_rows (filters : dict) : AM (list ArtifactMeta) :=
  gets (λ w, List.filter (base_query filters w) (artifacts w)).

Definition index_list_recent (limit : Z) (filters : dict) : AM (list ArtifactMeta) :=
  rows ← query_rows filters;
  mret (limit_rows (_bounded_limit limit 1000) (sort_desc am_created_at rows)).
Definition index_search (query : string) (filters : dict) (limit : Z) : AM (list ArtifactMeta) :=
  rows ← query_rows filters;
  let q := "%" +:+ py_strip query +:+ "%" in
  let hit a := olike (am_original_name a) q || olike (am_label a) q || sql_like (am_mime a) q
               || olike (option_map (λ d, json_text_default (PDict d)) (am_meta_json a)) q
               || sql_like (am_sha256 a) q in
  mret (limit_rows (_bounded_limit limit 5000) (sort_desc am_created_at (List.filter hit rows))).
Fixpoint insert_larger (x : ArtifactMeta) (l : list ArtifactMeta) : list ArtifactMeta :=
  match l with
  | [] => [x]
  | y :: l' => if am_size_bytes y <=? am_size_bytes x then x :: l else y :: insert_larger x l'
  end.
Definition index_largest (limit : Z) (filters : dict) : AM (list ArtifactMeta) :=
  rows ← query_rows filters;
  mret (limit_rows (_bounded_limit limit 1000) (foldr insert_larger [] (sort_desc am_created_at rows))).
Definition all_artifacts (include_deleted : bool) : AM (list ArtifactMeta) :=
  gets (λ w, sort_asc am_created_at (List.filter (λ a, include_deleted || live_row a) (artifacts w))).

(** ** Views *)

Definition same_view (raw view_type schema policy : string) (v : ViewRecord) : bool :=
  String.eqb (vr_raw_sha256 v) raw && String.eqb (vr_view_type v) view_type
  && String.eqb (vr_schema_version v) schema && String.eqb (vr_policy_hash v) policy.
Definition same_key (v : ViewRecord) : ViewRecord → bool :=
  same_view (vr_raw_sha256 v) (vr_view_type v) (vr_schema_version v) (vr_policy_hash v).
(** Every column but those of the key is replaced. *)
Definition upsert_view (v : ViewRecord) : AM () :=
  modify (set_views (upsert (same_key v) (λ _, v) v)).
Definition get_view (raw view_type schema policy : string) (include_deleted : bool) : AM (option ViewRecord) :=
  gets (λ w, List.find (λ v, same_view raw view_type schema policy v && (include_deleted || live_view v))
               (artifact_views w)).
Definition views_of (w : ArtWorld) (raw : string) (include_deleted : bool) : list ViewRecord :=
  sort_asc vr_view_type (List.filter (λ v, String.eqb (vr_raw_sha256 v) raw && (include_deleted || live_view v))
    (artifact_views w)).
Definition index_list_views (raw : string) : AM (list ViewRecord) := gets (λ w, views_of w raw false).

(** ** Aliases *)

Definition is_alias (name : string) (a : AliasRecord) : bool := String.eqb (al_alias a) name.
Definition index_alias_set (alias sha : string) (expires_at : option string) (meta : option dict) : AM () :=
  now ← iso_now;
  let row := {| al_alias := alias; al_sha256 := sha; al_updated_at := now; al_expires_at := expires_at;
                al_meta_json := stored_json meta |} in
  modify (set_aliases (upsert (is_alias alias) (λ _, row) row)).
Definition index_alias_resolve (alias : string) : AM (option AliasRecord) :=
  now ← iso_now; gets (λ w, List.find (λ a, is_alias alias a && alias_active now a) (aliases w)).
Definition index_alias_list (prefix : option string) : AM (list AliasRecord) :=
  now ← iso_now;
  gets (λ w, sort_asc al_alias (List.filter (λ a, alias_active now a
    && match prefix with
       | Some p => if truthy p then sql_like (al_alias a) (p +:+ "%") else true
       | None => true
       end) (aliases w))).
Definition index_alias_delete (alias : string) : AM () :=
  modify (set_aliases (List.filter (λ a, negb (is_alias alias a)))).

(** ** References *)

Definition same_edge (owner_type owner_id sha : string) (e : ReferenceEdge) : bool :=
  String.eqb (re_owner_type e) owner_type && String.eqb (re_owner_id e) owner_id && String.eqb (re_sha256 e) sha.
Definition add_reference (owner_type owner_id sha : string) : AM () :=
  now ← iso_now;
  rid ← new_uuid;
  modify (set_edges (upsert (same_edge owner_type owner_id sha) (edge_renewed now)
    {| re_ref_id := rid; re_owner_type := owner_type; re_owner_id := owner_id; re_sha256 := sha;
       re_created_at := now; re_deleted_at := None |})).
Definition remove_reference (owner_type owner_id sha : string) : AM () :=
  now ← iso_now;
  modify (set_edges (update_where (λ e, same_edge owner_type owner_id sha e && live_edge e) (edge_deleted now))).
Definition remove_references_for_owner (owner_type owner_id : string) : AM () :=
  now ← iso_now;
  modify (set_edges (update_where (λ e, String.eqb (re_owner_type e) owner_type
    && String.eqb (re_owner_id e) owner_id && live_edge e) (edge_deleted now))).

(** ** Retention: sets are lists without regard to order *)

Definition active_reference_shas : AM (list string) :=
  gets (λ w, map re_sha256 (List.filter live_edge (reference_edges w))).
Definition active_alias_shas : AM (list string) :=
  now ← iso_now; gets (λ w, map al_sha256 (List.filter (alias_active now) (aliases w))).
Definition view_shas_of (l : list ViewRecord) : list string :=
  omap (λ v, match vr_view_sha256 v with Some s => if truthy s then Some s else None | None => None end) l.
(** [view_sha256 IS NOT NULL] *)
Definition active_view_shas : AM (list string) :=
  gets (λ w, omap vr_view_sha256 (List.filter live_view (artifact_views w))).
Definition retained_view_shas (grace_days : Z) : AM (list string) :=
  cutoff ← cutoff_of grace_days;
  gets (λ w, omap vr_view_sha256 (List.filter (λ v, negb (deleted_by cutoff (vr_deleted_at v))) (artifact_views w))).
Definition recent_artifact_shas (keep_days : Z) : AM (list string) :=
  cutoff ← cutoff_date keep_days;
  gets (λ w, map am_sha256 (List.filter (λ a, live_row a && str_leb cutoff (sql_date (am_created_at a))) (artifacts w))).
Definition eligible_for_gc (older_than_days : Z) (protected : list string) : AM (list string) :=
  cutoff ← cutoff_date older_than_days;
  gets (λ w, List.filter (λ s, negb (str_in s protected))
    (map am_sha256 (List.filter (λ a, live_row a && str_ltb (sql_date (am_created_at a)) cutoff) (artifacts w)))).

(** The updates of the distinct hashes, in one transaction. *)
Definition soft_delete_artifacts (shas : list string) (deleted_at : string) : AM nat :=
  let rows := List.filter (λ s, truthy (py_strip s)) shas in
  let hit a := str_in (am_sha256 a) rows && live_row a in
  w ← get_world;
  _ ← modify (set_artifacts (update_where hit (row_deleted (Some deleted_at))));
  mret (count_where hit (artifacts w)).
Definition soft_delete_views_for_raw (raw deleted_at : string) : AM () :=
  modify (set_views (update_where (λ v, String.eqb (vr_raw_sha256 v) raw && live_view v) (view_deleted deleted_at))).
Definition purgeable_views (grace_days : Z) : AM (list ViewRecord) :=
  cutoff ← cutoff_of grace_days; gets (λ w, List.filter (λ v, deleted_by cutoff (vr_deleted_at v)) (artifact_views w)).
Definition purgeable_artifacts (grace_days : Z) : AM (list ArtifactMeta) :=
  cutoff ← cutoff_of grace_days; gets (λ w, List.filter (λ a, deleted_by cutoff (am_deleted_at a)) (artifacts w)).
Definition hard_delete_artifact (sha : string) : AM () :=
  modify (set_artifacts (List.filter (λ a, negb (has_sha sha a && is_some (am_deleted_at a))))).
Definition hard_delete_views_for_raw (raw : string) : AM () :=
  modify (set_views (List.filter (λ v, negb (String.eqb (vr_raw_sha256 v) raw && is_some (vr_deleted_at v))))).
Definition hard_delete_view (v : ViewRecord) : AM () :=
  modify (set_views (List.filter (λ x, negb (same_key v x && is_some (vr_deleted_at x))))).
Definition hard_delete_expired_aliases (grace_days : Z) : AM () :=
  cutoff ← cutoff_of grace_days; modify (set_aliases (List.filter (λ a, negb (deleted_by cutoff (al_expires_at a))))).
Definition hard_delete_reference_tombstones (grace_days : Z) : AM () :=
  cutoff ← cutoff_of grace_days; modify (set_edges (List.filter (λ e, negb (deleted_by cutoff (re_deleted_at e))))).
End Index.
