(* ===== verification/ArtifactText.v ===== *)
(** The text side of artifacts: content sniffing (content.py), redaction, excerpts
    and tables (control.py of modules/artifact).  The UTF-8 codec, the JSON parser,
    the CSV reader and the table of MIME types are parameters ([TextEnv]); the
    three regular expressions of the redaction are written out as scanners. *)

From S2P Require Import Prelude PyValue PyText BlobStore.
From Stdlib Require Import Ascii.

Local Open Scope Z_scope.

(** [utf8_decode] is [bytes.decode("utf-8")], [None] for a [UnicodeDecodeError];
    [json_loads] and [csv_reader] raise the message of the error for a text they
    refuse; [mime_guess] is [mimetypes.guess_type] of the path and [path_suffix] its
    suffix. *)
Class TextEnv := {
  utf8_decode : string → option string;
  utf8_decode_replace : string → string;
  utf8_encode : string → string;
  json_loads : string → result string pyval;
  csv_reader : string → string → result string (list (list string));
  mime_guess : string → option string;
  path_suffix : string → string;
}.

(** ** Slices and lines *)

(** [l[:n]] *)
Definition slice_to {A} (n : Z) (l : list A) : list A :=
  if n <? 0 then take (Z.to_nat (Z.of_nat (length l) + n)) l else take (Z.to_nat n) l.
(** [s[:n]] *)
Definition str_slice_to (n : Z) (s : string) : string :=
  let m := if n <? 0 then Z.of_nat (String.length s) + n else n in
  String.substring 0 (Z.to_nat m) s.

Fixpoint span (p : ascii → bool) (s : string) : string * string :=
  match s with
  | EmptyString => ("", "")
  | String c s' => if p c then let (a, b) := span p s' in (String c a, b) else ("", s)
  end.

(** [s.splitlines()]: a line ends at a line break; [\r\n] is one. *)
Definition is_line_break (c : ascii) : bool :=
  let n := N_of_ascii c in ((10 <=? n) && (n <=? 13) || (28 <=? n) && (n <=? 30) || (n =? 133))%N.
Fixpoint lines_go (cur : string) (s : string) : list string :=
  match s with
  | EmptyString => if truthy cur then [cur] else []
  | String c s' =>
      if is_line_break c then
        cur :: match c, s' with
               | "013"%char, String "010"%char s'' => lines_go "" s''
               | _, _ => lines_go "" s'
               end
      else lines_go (cur +:+ String c "") s'
  end.
Definition py_splitlines (s : string) : list string := lines_go "" s.

Fixpoint str_count (c : ascii) (s : string) : Z :=
  match s with EmptyString => 0 | String d s' => (if Ascii.eqb c d then 1 else 0) + str_count c s' end.

(** ** Sniffing *)

Definition NUL : ascii := "000"%char.
(** [bytes.lstrip()] strips ASCII white space. *)
Definition is_ascii_space (c : ascii) : bool :=
  let n := N_of_ascii c in ((9 <=? n) && (n <=? 13) || (n =? 32))%N.
Definition UTF8_BOM : string := chr 239 +:+ chr 187 +:+ chr 191.
Definition _FALLBACK_MIME_BY_SUFFIX : list (string * string) :=
  [(".yaml", "text/yaml"); (".yml", "text/yaml"); (".md", "text/markdown"); (".csv", "text/csv");
   (".tsv", "text/tab-separated-values")].
Definition assoc (l : list (string * string)) (k : string) : option string :=
  option_map snd (List.find (λ kv, String.eqb kv.1 k) l).

Definition is_printable (c : ascii) : bool :=
  let n := N_of_ascii c in ((n =? 9) || (n =? 10) || (n =? 13) || (32 <=? n) && (n <=? 126))%N.
Fixpoint count_chars (p : ascii → bool) (s : string) : Z :=
  match s with EmptyString => 0 | String c s' => (if p c then 1 else 0) + count_chars p s' end.
(** [printable / len(sample) >= 0.85] *)
Definition _is_probably_text (sample : string) : bool :=
  if negb (truthy sample) then true
  else 17 * Z.of_nat (String.length sample) <=? 20 * count_chars is_printable sample.

Definition sniff_mime (sample : string) : string :=
  let s := if py_startswith sample UTF8_BOM then String.substring 3 (String.length sample - 3) sample else sample in
  let s := drop_while is_ascii_space s in
  if py_startswith s "{" || py_startswith s "[" then "application/json"
  else if negb (truthy s) then "application/octet-stream"
  else if str_mem NUL s then "application/octet-stream"
  else if _is_probably_text s then "text/plain"
  else "application/octet-stream".

Section Content.
Context {Txt : TextEnv}.

Definition _determine_mime (provided path : option string) (sample : string) : string :=
  if otruthy provided then default "" provided
  else match path with
  | None => sniff_mime sample
  | Some p =>
      match mime_guess p with
      | Some g => if truthy g then g else default (sniff_mime sample) (assoc _FALLBACK_MIME_BY_SUFFIX (py_lower (path_suffix p)))
      | None => default (sniff_mime sample) (assoc _FALLBACK_MIME_BY_SUFFIX (py_lower (path_suffix p)))
      end
  end.

Definition _decode_text (data : string) : string * list string :=
  if negb (truthy data) then ("", [])
  else if str_mem NUL (str_slice_to 4096 data) then ("", ["binary_content"])
  else match utf8_decode data with
  | Some t => (t, [])
  | None => (utf8_decode_replace data, ["decode_errors_replaced"])
  end.
Definition _detect_encoding (data : string) : option string :=
  if negb (truthy data) then None
  else
    let warnings := (_decode_text data).2 in
    if str_in "binary_content" warnings then Some "binary"
    else if str_in "decode_errors_replaced" warnings then Some "utf-8-lossy"
    else Some "utf-8".
Definition _extract_ingest_text_from_bytes (data : string) : string :=
  py_strip (str_slice_to 20000 (_decode_text (str_slice_to 80003 data)).1).
End Content.

(** ** Redaction *)

Definition is_letter (c : ascii) : bool :=
  let n := N_of_ascii c in ((65 <=? n) && (n <=? 90) || (97 <=? n) && (n <=? 122))%N.
(** [A-Za-z0-9._%+-] and [A-Za-z0-9.-] *)
Definition is_local (c : ascii) : bool := is_letter c || is_digit c || str_mem c "._%+-".
Definition is_domain (c : ascii) : bool := is_letter c || is_digit c || str_mem c ".-".
Definition is_hex (c : ascii) : bool :=
  let n := N_of_ascii c in (is_digit c || (65 <=? n) && (n <=? 70) || (97 <=? n) && (n <=? 102))%N.

(** What follows the last match of [\.[A-Za-z]{2,}] in the characters of a domain;
    the dot is not the first of them. *)
Fixpoint tld_rest (first : bool) (dom : string) : option string :=
  match dom with
  | EmptyString => None
  | String c d =>
      match tld_rest false d with
      | Some t => Some t
      | None =>
          if Ascii.eqb c "." && negb first then
            let (letters, rest) := span is_letter d in
            if (2 <=? String.length letters)%nat then Some rest else None
          else None
      end
  end.
(** The rest of the text after a match of [_EMAIL_RE] at its beginning. *)
Definition email_rest (s : string) : option string :=
  match (span is_local s).2 with
  | String "@" s' => let (dom, after) := span is_domain s' in
                     option_map (λ t, t +:+ after) (tld_rest true dom)
  | _ => None
  end.
(** [_EMAIL_RE.sub("[REDACTED_EMAIL]", s)]; [prev] says that the character before is
    one of a local part. *)
Fixpoint redact_emails (fuel : nat) (prev : bool) (s : string) : string :=
  match fuel, s with
  | S fuel', String c s' =>
      match (if is_local c && negb prev then email_rest s else None) with
      | Some rest => "[REDACTED_EMAIL]" +:+ redact_emails fuel' true rest
      | None => String c (redact_emails fuel' (is_local c) s')
      end
  | _, _ => ""
  end.

(** [int(ch) for ch in candidate if ch.isdigit()] *)
Fixpoint digit_values (s : string) : list Z :=
  match s with
  | EmptyString => []
  | String c s' => if is_digit c then digit_val c :: digit_values s' else digit_values s'
  end.
Definition luhn_value (parity index digit : Z) : Z :=
  if index mod 2 =? parity then (let v := digit * 2 in if 9 <? v then v - 9 else v) else digit.
Fixpoint luhn_sum (parity index : Z) (l : list Z) : Z :=
  match l with [] => 0 | d :: l' => luhn_value parity index d + luhn_sum parity (index + 1) l' end.
Definition _passes_luhn (candidate : string) : bool :=
  let digits := digit_values candidate in
  let n := Z.of_nat (length digits) in
  if n <? 12 then false else luhn_sum (n mod 2) 0 digits mod 10 =? 0.

(** [n] digits, then the rest *)
Fixpoint take_digits (n : nat) (s : string) : option string :=
  match n, s with
  | O, _ => Some s
  | S n', String c s' => if is_digit c then take_digits n' s' else None
  | S _, EmptyString => None
  end.
Definition opt_char (c : ascii) (s : string) : string :=
  match s with String d s' => if Ascii.eqb c d then s' else s | EmptyString => s end.
(** At most [n] digits are skipped. *)
Fixpoint skip_digits (n : nat) (s : string) : string :=
  match n, s with
  | S n', String c s' => if is_digit c then skip_digits n' s' else s
  | _, _ => s
  end.
Definition iso_fraction (s : string) : string :=
  match s with
  | String "." s' => let (d, rest) := span is_digit s' in if truthy d then rest else s
  | _ => s
  end.
Definition iso_zone (s : string) : string :=
  match s with
  | String "Z" s' => s'
  | String c s' =>
      if Ascii.eqb c "+" || Ascii.eqb c "-"
      then match take_digits 2 s' with
           | Some r => default s (take_digits 2 (opt_char ":" r))
           | None => s
           end
      else s
  | EmptyString => s
  end.
(** The rest after a match of [_ISO_TIMESTAMP_RE] at the beginning. *)
Definition iso_rest (s : string) : option string :=
  s ← take_digits 4 s; s ← take_digits 2 (opt_char "-" s); s ← take_digits 2 (opt_char "-" s);
  match s with
  | String "T" s => s ← take_digits 2 s; Some (iso_zone (iso_fraction (skip_digits 12 s)))
  | _ => None
  end.
(** A match that begins at or before [lo] and ends at or after [hi], the text
    starting at [pos]. *)
Fixpoint iso_covers (fuel : nat) (pos lo hi : nat) (s : string) : bool :=
  match fuel with
  | O => false
  | S fuel' =>
      match iso_rest s with
      | Some rest =>
          let stop := (pos + (String.length s - String.length rest))%nat in
          ((pos <=? lo) && (hi <=? stop))%nat || iso_covers fuel' stop lo hi rest
      | None => match s with String _ s' => iso_covers fuel' (S pos) lo hi s' | EmptyString => false end
      end
  end.
Definition _is_iso_timestamp_context (text : string) (start stop : nat) : bool :=
  let context_start := (start - 16)%nat in
  let context_end := Nat.min (String.length text) (stop + 10)%nat in
  let context := String.substring context_start (context_end - context_start) text in
  iso_covers (S (String.length context)) context_start start stop context.
Definition _redact_long_number_match (text candidate : string) (start : nat) : string :=
  if _is_iso_timestamp_context text start (start + String.length candidate)%nat then candidate
  else if negb (_passes_luhn candidate) then candidate
  else "[REDACTED_NUMBER]".
(** The digits of a match of [_LONG_NUM_RE] at the beginning, and the rest. *)
Definition long_number (s : string) : option (string * string) :=
  let (digits, rest) := span is_digit s in
  if ((12 <=? String.length digits) && (String.length digits <=? 19))%nat
     && negb match rest with String c _ => is_hex c | EmptyString => false end
  then Some (digits, rest) else None.
(** [_LONG_NUM_RE.sub(...)] at position [pos] of [text]; [prev] says that the
    character before is a hexadecimal digit. *)
Fixpoint redact_numbers (fuel : nat) (text : string) (pos : nat) (prev : bool) (s : string) : string :=
  match fuel, s with
  | S fuel', String c s' =>
      match (if prev then None else long_number s) with
      | Some (digits, rest) =>
          _redact_long_number_match text digits pos
          +:+ redact_numbers fuel' text (pos + String.length digits) true rest
      | None => String c (redact_numbers fuel' text (S pos) (is_hex c) s')
      end
  | _, _ => ""
  end.
Definition _redact_text (text : string) : string :=
  let redacted := redact_emails (String.length text) false text in
  redact_numbers (String.length redacted) redacted 0 false redacted.

Example redact_card :
  _redact_text "pay 4111111111111111 by bob.lee@mail.example.org, 2024-05-01T101112131415Z"
  = "pay [REDACTED_NUMBER] by [REDACTED_EMAIL], 2024-05-01T101112131415Z".
Proof. vm_compute. reflexivity. Qed.

(** ** Excerpts and tables *)

Definition _bounded_excerpt (text : string) (max_lines max_chars : Z) : string * list string :=
  if negb (truthy text) then ("", [])
  else
    let lines := py_splitlines text in
    let cut_lines := max_lines <? Z.of_nat (length lines) in
    let excerpt := py_join (chr 10) (if cut_lines then slice_to max_lines lines else lines) in
    let cut_chars := max_chars <? Z.of_nat (String.length excerpt) in
    (if cut_chars then str_slice_to max_chars excerpt else excerpt,
     (if cut_lines then ["truncated_lines"] else []) ++ (if cut_chars then ["truncated_chars"] else [])).

Definition pstrs (l : list string) : pyval := PList (map PStr l).
(** An error of the reader is raised. *)
Definition _build_table_view `{TextEnv} (text delimiter : string) (max_rows : Z) : result string dict :=
  rows ← csv_reader delimiter text;
  let header := match rows with h :: _ => h | [] => [] end in
  let body := match rows with _ :: b => b | [] => [] end in
  let sampled := take (Z.to_nat max_rows) body in
  let total := Z.of_nat (length body) in
  Ok [("columns", pstrs header); ("rows", PList (map pstrs sampled));
      ("sampled_rows", PInt (Z.of_nat (length sampled))); ("total_rows", PInt total);
      ("warnings", pstrs (if max_rows <? total then ["rows_sampled"] else []))].

(** [json.dumps(v, ensure_ascii=True, indent=2)] *)
Fixpoint spaces (n : nat) : string := match n with O => "" | S n' => String " " (spaces n') end.
Fixpoint json_indent (level : nat) (v : pyval) : string :=
  let open_line := chr 10 +:+ spaces (2 * S level) in
  let close_line := chr 10 +:+ spaces (2 * level) in
  match v with
  | PList [] => "[]"
  | PList l => "[" +:+ open_line +:+ py_join ("," +:+ open_line) (map (json_indent (S level)) l) +:+ close_line +:+ "]"
  | PDict [] => "{}"
  | PDict d => "{" +:+ open_line
      +:+ py_join ("," +:+ open_line) (map (λ '(k, x), json_str k +:+ ": " +:+ json_indent (S level) x) d)
      +:+ close_line +:+ "}"
  | _ => json_text v
  end.
Definition json_pretty (v : pyval) : string := json_indent 0 (json_sort v).
