(* ===== verification/ArtifactCtl.v ===== *)
(** [ArtifactCtl] (control.py of modules/artifact), with integrity.py, refs.py and the
    retention checks of config.py: ingestion, views, aliases, references, garbage
    collection, purging and verification over the index and the blob directory.

    A file to ingest is found by [source_file], a parameter, which gives its resolved
    path, its name and its bytes.  A retriever is told of new text by an event; what
    it does with it, exceptions included, does not reach the caller. *)

From S2P Require Import Prelude PyValue Timestamps PyText Schedule BlobStore ArtifactIndex ArtifactText.
From Stdlib Require Import Ascii.

Local Open Scope Z_scope.

Record ArtifactConfig := {
  max_ingest_bytes : Z; auto_generate : list string; table_max_rows : Z; digest_max_chars : Z;
  digest_max_lines : Z; text_max_chars : Z; json_max_chars : Z; expire_default_days : Z; keep_days : Z;
  delete_unreferenced_after_days : Z; purge_grace_days : Z; delete_views_first : bool;
  store_original_path : bool; redaction_enabled : bool;
}.
Definition ctl_error (code message : string) : art_exn := ArtifactCtlError code message [].

(** [validate_retention_config] *)
Definition validate_retention_config (c : ArtifactConfig) : result art_exn () :=
  let bad name := Raise (ctl_error "INVALID_CONFIG" ("retention." +:+ name +:+ " must be non-negative")) in
  if keep_days c <? 0 then bad "keep_days"
  else if delete_unreferenced_after_days c <? 0 then bad "delete_unreferenced_after_days"
  else if purge_grace_days c <? 0 then bad "purge_grace_days"
  else Ok ().
Definition retention_override (value : Z) (field_name : string) : result art_exn Z :=
  if value <? 0 then Raise (ctl_error "INVALID_ARGUMENT" (field_name +:+ " must be non-negative")) else Ok value.
Definition days_or (override : option Z) (configured : Z) (field_name : string) : AM Z :=
  match override with None => mret configured | Some v => lift_result (retention_override v field_name) end.

Definition _SCHEMA_VERSION : string := "v1".
Definition is_opaque (a : ArtifactMeta) : bool := py_truthy (dget_none (default [] (am_meta_json a)) "opaque").

Record SourceFile := { sf_path : string; sf_name : string; sf_data : string }.
Record GCReport := {
  gc_keep_days : Z; gc_delete_after : Z; gc_roots : nat; gc_protected : nat; gc_eligible : nat;
  gc_marked_deleted : nat; gc_candidates : list string;
}.
Record PurgeReport := { pr_grace_days : Z; pr_purged_views : Z; pr_purged_blobs : Z; pr_missing_files : Z }.
Record VerifyIssue := {
  vi_sha256 : string; vi_issue : string; vi_expected : option string; vi_actual : option string;
}.
Record VerifyReport := { ve_checked : nat; ve_ok : Z; ve_failed : nat; ve_issues : list VerifyIssue }.

(** What a caller says of an artifact. *)
Record Ingest := {
  in_mime : option string; in_original_name : option string; in_original_path : option string;
  in_label : option string; in_meta : option dict; in_session_id : option string;
  in_trace_id : option string; in_agent_id : option string; in_retrieve : bool;
}.

Section Ctl.
Context {Env : PyEnv} {Txt : TextEnv} (source_file : string → option SourceFile) (cfg : ArtifactConfig).

(** ** The blob directory *)

Definition lift_blob {A} (r : BR A) : AM A :=
  match r with Ok a => mret a | Raise e => raise (ArtBlobError e) end.
Definition blob_present (sha : string) : AM bool := w ← get_world; lift_blob (blob_exists (art_blobs w) sha).
Definition blob_change (f : BlobDir → BR BlobDir) : AM () :=
  w ← get_world; d ← lift_blob (f (art_blobs w)); modify (set_blobs d).
Definition delete_blob (sha : string) : AM () := blob_change (blob_delete sha).

(** ** Resolution *)

Definition _resolve_sha (ref_or_sha : string) : AM string :=
  let raw := py_strip ref_or_sha in
  if negb (truthy raw) then raise (ctl_error "INVALID_ARGUMENT" "Expected artifact ref, sha256, or alias")
  else match parse_ref_or_sha raw with
  | Ok sha => mret sha
  | Raise _ =>
      resolved ← index_alias_resolve raw;
      match resolved with
      | Some a => mret (al_sha256 a)
      | None => raise (ctl_error "NOT_FOUND" ("Unknown artifact ref/sha/alias: " +:+ ref_or_sha))
      end
  end.
Definition not_found {A} (ref_or_sha : string) : AM A :=
  raise (ctl_error "NOT_FOUND" ("Artifact not found: " +:+ ref_or_sha)).
Definition _resolve_active_sha (ref_or_sha : string) : AM string :=
  sha ← _resolve_sha ref_or_sha;
  found ← get_artifact sha false;
  match found with None => not_found ref_or_sha | Some _ => mret sha end.
Definition ctl_get (ref_or_sha : string) : AM ArtifactMeta :=
  sha ← _resolve_sha ref_or_sha;
  found ← get_artifact sha true;
  match found with None => not_found ref_or_sha | Some m => mret m end.

(** [open(...).read()] *)
Definition read_bytes (ref_or_sha : string) (session_id : option string) : AM string :=
  sha ← _resolve_active_sha ref_or_sha;
  meta ← ctl_get sha;
  if is_opaque meta && (negb (otruthy session_id) || negb (ostr_eqb session_id (am_session_id meta)))
  then raise (ctl_error "POLICY_DENIED" "Opaque input belongs to another session")
  else
    present ← blob_present sha;
    if negb present then raise (ctl_error "NOT_FOUND" ("Blob is missing for artifact: " +:+ sha))
    else w ← get_world; lift_blob (blob_open (art_blobs w) sha).

(** ** Ingestion *)

Definition _enforce_ingest_size (size_bytes : Z) (source : string) : AM () :=
  if size_bytes <=? max_ingest_bytes cfg then mret ()
  else raise (ArtifactCtlError "PAYLOAD_TOO_LARGE" ("Artifact payload exceeds configured limit for " +:+ source)
                [("size_bytes", PInt size_bytes); ("max_ingest_bytes", PInt (max_ingest_bytes cfg))]).
Definition _check_ingest_policy (sha : string) (opaque : bool) : AM () :=
  existing ← get_artifact sha true;
  match existing with
  | None => mret ()
  | Some m => if Bool.eqb (is_opaque m) opaque then mret ()
              else raise (ctl_error "POLICY_DENIED" "Existing artifact has a different input policy")
  end.
Definition no_opaque_meta (meta : option dict) : AM () :=
  if dmem (default [] meta) "opaque"
  then raise (ctl_error "INVALID_ARGUMENT" "Opaque policy is not caller metadata") else mret ().
Definition store_blob (put : string → BlobDir → BR BlobDir) (sha : string) : AM () :=
  present ← blob_present sha;
  if present : bool then mret () else now ← iso_now; blob_change (put now).

Definition _emit_retrieve_ingest_event (ref : ArtifactRef) (text : string) (meta : ArtifactMeta)
    (fallback_title : option string) : AM () :=
  if negb (truthy (py_strip text)) then mret ()
  else
    let payload_meta := default [] (am_meta_json meta) in
    let tags := List.filter truthy (map (λ v, py_strip (py_str v))
                  (match dget_none payload_meta "tags" with PList l => l | _ => [] end)) in
    let tags := if str_in "artifact" tags then tags else "artifact" :: tags in
    let text := if redaction_enabled cfg then _redact_text text else text in
    modify (add_event
      [("artifact_ref", PStr (ar_ref ref)); ("text", PStr text);
       ("scope", PStr (py_str (py_or (dget_none payload_meta "scope") (PStr "project"))));
       ("scope_key", dget_none payload_meta "scope_key");
       ("session_id", py_or (ostr_val (am_session_id meta)) (dget_none payload_meta "session_id"));
       ("agent_id", py_or (ostr_val (am_agent_id meta)) (dget_none payload_meta "agent_id"));
       ("project_id", dget_none payload_meta "project_id");
       ("title", PStr (py_str (py_or (dget_none payload_meta "title")
                                 (py_or (ostr_val fallback_title) (PStr (ar_ref ref))))));
       ("tags", pstrs tags)]).

(** The part of [_ingest_bytes_internal] and [ingest_file] after the bytes are
    stored; [after] generates the views. *)
Definition record_artifact (a : Ingest) (sha mime : string) (size : Z) (encoding : option string) (opaque : bool)
    (after : string → AM ()) (text : string) (fallback_title : option string) : AM ArtifactRef :=
  created_at ← iso_now;
  let meta := {| am_sha256 := sha; am_size_bytes := size; am_mime := mime; am_created_at := created_at;
                 am_original_name := in_original_name a;
                 am_original_path := if store_original_path cfg then in_original_path a else None;
                 am_label := in_label a; am_session_id := in_session_id a; am_trace_id := in_trace_id a;
                 am_agent_id := in_agent_id a; am_encoding := encoding; am_deleted_at := None;
                 am_meta_json := in_meta a |} in
  _ ← upsert_artifact meta;
  _ ← _check_ingest_policy sha opaque;
  _ ← after sha;
  m ← ctl_get sha;
  let ref := to_ref m in
  _ ← (if negb opaque && in_retrieve a then _emit_retrieve_ingest_event ref text meta fallback_title else mret ());
  mret ref.
Definition with_meta (meta : option dict) (a : Ingest) : Ingest :=
  {| in_mime := in_mime a; in_original_name := in_original_name a; in_original_path := in_original_path a;
     in_label := in_label a; in_meta := meta; in_session_id := in_session_id a; in_trace_id := in_trace_id a;
     in_agent_id := in_agent_id a; in_retrieve := in_retrieve a |}.
Definition opaque_meta (meta : option dict) : dict := dset (default [] meta) "opaque" (PBool true).
(** [x or y] for optional text *)
Definition o_or (x y : option string) : option string := if otruthy x then x else y.

Definition _ingest_bytes_internal (data : string) (a : Ingest) (opaque : bool) (after : string → AM ())
    : AM ArtifactRef :=
  let size := Z.of_nat (String.length data) in
  _ ← _enforce_ingest_size size (str_or (in_original_name a) "bytes");
  let sha := py_sha256_hexdigest data in
  _ ← _check_ingest_policy sha opaque;
  _ ← no_opaque_meta (in_meta a);
  let a := if opaque then with_meta (Some (opaque_meta (in_meta a))) a else a in
  let sample := str_slice_to 4096 data in
  let mime := _determine_mime (in_mime a) (if otruthy (in_original_name a) then in_original_name a else None) sample in
  _ ← store_blob (λ now, cas_put_bytes sha data now) sha;
  record_artifact a sha mime size (_detect_encoding sample) opaque after (_extract_ingest_text_from_bytes data)
    (o_or (in_label a) (in_original_name a)).

(** ** Views *)

Definition _policy_hash (policy : dict) : string :=
  match policy with
  | [] => ""
  | _ => py_sha256_hexdigest (json_text_default (json_sort (PDict policy)))
  end.
Definition view_settings (view_type : string) : dict :=
  if String.eqb view_type "digest" then
    [("redaction_enabled", PBool (redaction_enabled cfg)); ("digest_max_chars", PInt (digest_max_chars cfg));
     ("digest_max_lines", PInt (digest_max_lines cfg)); ("table_max_rows", PInt (table_max_rows cfg))]
  else if String.eqb view_type "text" then
    [("redaction_enabled", PBool (redaction_enabled cfg)); ("text_max_chars", PInt (text_max_chars cfg))]
  else if String.eqb view_type "json" then [("json_max_chars", PInt (json_max_chars cfg))]
  else [("table_max_rows", PInt (table_max_rows cfg))].

Definition lift_text {A} (r : result string A) : AM A :=
  match r with Ok a => mret a | Raise msg => raise (ArtOther msg) end.
Definition is_table_mime (mime : string) : bool := str_in mime ["text/csv"; "text/tab-separated-values"].
Definition table_delimiter (mime : string) : string :=
  if String.eqb mime "text/tab-separated-values" then chr 9 else ",".

Definition first_line (excerpt : string) : option string :=
  option_map (String.substring 0 200) (List.find truthy (map py_strip (py_splitlines excerpt))).
Definition json_stats (mime text : string) : dict * list string :=
  if String.eqb mime "application/json" && truthy text then
    match json_loads text with
    | Ok (PDict d) => ([("json_keys_count", PInt (Z.of_nat (length d)))], [])
    | Ok _ => ([], [])
    | Raise _ => ([], ["json_unparseable"])
    end
  else ([], []).
Definition _build_digest (raw : ArtifactMeta) (data : string) : AM dict :=
  let '(text, warnings) := _decode_text data in
  let text := if redaction_enabled cfg then _redact_text text else text in
  let '(excerpt, excerpt_warnings) := _bounded_excerpt text (digest_max_lines cfg) (digest_max_chars cfg) in
  let '(stats_json, json_warnings) := json_stats (am_mime raw) text in
  stats_table ← (if is_table_mime (am_mime raw) && truthy text then
                   info ← lift_text (_build_table_view text (table_delimiter (am_mime raw)) (table_max_rows cfg));
                   mret [("table_rows_sampled", default (PInt 0) (dget info "sampled_rows"))]
                 else mret []);
  let stats := (if truthy text then [("line_count", PInt (str_count "010" text + 1))] else [])
               ++ stats_json ++ stats_table in
  let opt k (o : option string) : dict := if otruthy o then [(k, ostr_val o)] else [] in
  mret ([("artifact_sha256", PStr (am_sha256 raw)); ("mime", PStr (am_mime raw));
         ("size_bytes", PInt (am_size_bytes raw)); ("created_at", PStr (am_created_at raw));
         ("excerpt", PStr excerpt); ("warnings", pstrs (warnings ++ excerpt_warnings ++ json_warnings))]
        ++ opt "original_name" (am_original_name raw) ++ opt "label" (am_label raw)
        ++ opt "summary" (first_line excerpt)
        ++ match stats with [] => [] | _ => [("stats", PDict stats)] end).

Definition unsupported {A} (message : string) (warnings : list string) : AM A :=
  raise (ArtifactCtlError "UNSUPPORTED_VIEW" message [("warnings", pstrs warnings)]).
Definition too_large {A} (message key : string) (limit : Z) : AM A :=
  raise (ArtifactCtlError "VIEW_TOO_LARGE" message [(key, PInt limit)]).
Definition longer (text : string) (limit : Z) : bool := limit <? Z.of_nat (String.length text).
Definition pretty_bytes (v : pyval) : string := utf8_encode (json_pretty v).

Definition _generate_view_payload (raw : ArtifactMeta) (view_type : string) : AM (string * string) :=
  data ← read_bytes (am_sha256 raw) None;
  let '(text, warnings) := _decode_text data in
  if String.eqb view_type "text" then
    if longer text (text_max_chars cfg)
    then too_large "Text view input exceeds configured limit" "text_max_chars" (text_max_chars cfg)
    else mret (utf8_encode (if redaction_enabled cfg then _redact_text text else text), "text/plain")
  else if String.eqb view_type "json" then
    if bool_decide (warnings ≠ []) then unsupported "JSON view unavailable for binary artifact" warnings
    else if longer text (json_max_chars cfg)
    then too_large "JSON view input exceeds configured limit" "json_max_chars" (json_max_chars cfg)
    else match json_loads text with
    | Ok parsed => mret (pretty_bytes parsed, "application/json")
    | Raise msg => raise (ctl_error "UNSUPPORTED_VIEW" ("Artifact is not valid JSON: " +:+ msg))
    end
  else if String.eqb view_type "table" then
    if negb (is_table_mime (am_mime raw))
    then raise (ctl_error "UNSUPPORTED_VIEW" ("Table view unsupported for mime: " +:+ am_mime raw))
    else if bool_decide (warnings ≠ []) then unsupported "Table view unavailable for binary artifact" warnings
    else
      table ← lift_text (_build_table_view text (table_delimiter (am_mime raw)) (table_max_rows cfg));
      mret (pretty_bytes (PDict table), "application/json")
  else
    digest ← _build_digest raw data;
    mret (pretty_bytes (PDict digest), "application/json").

(** The artifact of a view: derived, without views of its own. *)
Definition view_ingest (raw : ArtifactMeta) (view_type mime : string) : Ingest :=
  let name := am_sha256 raw +:+ "." +:+ view_type +:+ "."
              +:+ (if String.eqb mime "application/json" then "json" else "txt") in
  {| in_mime := Some mime; in_original_name := Some name; in_original_path := Some name;
     in_label := Some ("view:" +:+ view_type +:+ ":" +:+ String.substring 0 12 (am_sha256 raw));
     in_meta := Some [("derived_from", PStr (am_sha256 raw)); ("view_type", PStr view_type);
                      ("schema_version", PStr _SCHEMA_VERSION)];
     in_session_id := am_session_id raw; in_trace_id := am_trace_id raw; in_agent_id := am_agent_id raw;
     in_retrieve := false |}.
(** The artifact of an existing view that is still there. *)
Definition existing_view (raw_sha view_type policy_hash : string) : AM (option ArtifactMeta) :=
  existing ← get_view raw_sha view_type _SCHEMA_VERSION policy_hash false;
  match existing with
  | Some v =>
      if otruthy (vr_view_sha256 v) then
        let sha := default "" (vr_view_sha256 v) in
        meta ← get_artifact sha false;
        match meta with
        | Some m => present ← blob_present sha; mret (if present : bool then Some m else None)
        | None => mret None
        end
      else mret None
  | None => mret None
  end.
Definition ensure_view (ref_or_sha view_type : string) (policy : dict) : AM ArtifactRef :=
  let normalized := py_lower (py_strip view_type) in
  if negb (str_in normalized ["digest"; "text"; "json"; "table"])
  then raise (ctl_error "INVALID_ARGUMENT" ("Unsupported view type: " +:+ view_type))
  else
    raw_sha ← _resolve_sha ref_or_sha;
    found ← get_artifact raw_sha false;
    match found with
    | None => not_found ref_or_sha
    | Some raw =>
        if is_opaque raw then raise (ctl_error "POLICY_DENIED" "Opaque inputs have no content views")
        else
          let policy_hash := _policy_hash (("policy", PDict policy) :: view_settings normalized) in
          existing ← existing_view raw_sha normalized policy_hash;
          match existing with
          | Some m => mret (to_ref m)
          | None =>
              '(payload, mime) ← _generate_view_payload raw normalized;
              view_ref ← _ingest_bytes_internal payload (view_ingest raw normalized mime) false (λ _, mret ());
              _ ← upsert_view {| vr_raw_sha256 := raw_sha; vr_view_type := normalized;
                    vr_schema_version := _SCHEMA_VERSION; vr_policy_hash := policy_hash;
                    vr_view_sha256 := Some (ar_sha256 view_ref); vr_view_path := None; vr_mime := mime;
                    vr_size_bytes := ar_size_bytes view_ref; vr_created_at := ar_created_at view_ref;
                    vr_deleted_at := None |};
              mret view_ref
          end
    end.
Definition ensure_digest (ref_or_sha : string) (policy : dict) : AM ArtifactRef := ensure_view ref_or_sha "digest" policy.

(** Every exception of a view is logged or ignored. *)
Definition swallow {A} (m : AM A) : AM () := λ w, match m w with (w', _) => (w', Ok ()) end.
Definition _auto_generate_views (sha : string) : AM () :=
  foldr (λ view_type rest, _ ← swallow (ensure_view sha view_type []); rest) (mret ()) (auto_generate cfg).

Definition ingest_bytes (data : string) (a : Ingest) (opaque : bool) : AM ArtifactRef :=
  if opaque && negb (otruthy (in_session_id a))
  then raise (ctl_error "INVALID_ARGUMENT" "Opaque inputs require a session")
  else
    let a := {| in_mime := in_mime a; in_original_name := in_original_name a; in_original_path := in_original_name a;
                in_label := in_label a; in_meta := in_meta a; in_session_id := in_session_id a;
                in_trace_id := in_trace_id a; in_agent_id := in_agent_id a; in_retrieve := in_retrieve a |} in
    _ingest_bytes_internal data a opaque (if opaque then λ _, mret () else _auto_generate_views).
Definition ingest_file (path : string) (a : Ingest) : AM ArtifactRef :=
  _ ← no_opaque_meta (in_meta a);
  match source_file path with
  | None => raise (ArtFileNotFound path)
  | Some src =>
      let data := sf_data src in
      let size := Z.of_nat (String.length data) in
      _ ← _enforce_ingest_size size (sf_path src);
      let sha := py_sha256_hexdigest data in
      _ ← _check_ingest_policy sha false;
      let sample := str_slice_to 256000 data in
      let sniff := str_slice_to 4096 sample in
      let mime := _determine_mime (in_mime a) (Some (sf_path src)) sniff in
      _ ← store_blob (λ now, cas_put_file sha data now) sha;
      let a := {| in_mime := in_mime a; in_original_name := Some (sf_name src); in_original_path := Some (sf_path src);
                  in_label := in_label a; in_meta := in_meta a; in_session_id := in_session_id a;
                  in_trace_id := in_trace_id a; in_agent_id := in_agent_id a; in_retrieve := in_retrieve a |} in
      record_artifact a sha mime size (_detect_encoding sniff) false _auto_generate_views
        (_extract_ingest_text_from_bytes sample) (o_or (in_label a) (Some (sf_name src)))
  end.

Definition list_views (ref_or_sha : string) : AM (list ViewRecord) :=
  raw ← _resolve_sha ref_or_sha; index_list_views raw.
Definition read_view (ref_or_sha view_type : string) : AM pyval :=
  view_ref ← ensure_view ref_or_sha view_type [];
  raw ← read_bytes (ar_sha256 view_ref) None;
  if String.eqb (ar_mime view_ref) "application/json" then
    let text := match utf8_decode raw with Some t => json_loads t | None => Raise "invalid utf-8" end in
    match text with
    | Ok v => mret v
    | Raise msg => raise (ctl_error "INTERNAL_ERROR" ("Failed to decode JSON view: " +:+ msg))
    end
  else mret (PStr (utf8_decode_replace raw)).
Definition read_digest (ref_or_sha : string) : AM dict :=
  payload ← read_view ref_or_sha "digest";
  match payload with
  | PDict d => mret d
  | _ => raise (ctl_error "INTERNAL_ERROR" "Digest payload is not JSON")
  end.

(** ** Aliases *)

Definition default_expiry (expires_at : option string) : AM (option string) :=
  match expires_at with
  | None =>
      if 0 <? expire_default_days cfg then
        now ← art_now;
        match dt_add now (expire_default_days cfg * us_per_day) with
        | Ok t => mret (Some (isoformat t))
        | Raise e => raise (ArtPyError e)
        end
      else mret None
  | Some t => mret (Some t)
  end.
Definition alias_set (alias ref_or_sha : string) (overwrite : bool) (expires_at : option string)
    (meta_json : option dict) : AM () :=
  let name := py_strip alias in
  if negb (truthy name) then raise (ctl_error "INVALID_ARGUMENT" "Alias cannot be empty")
  else
    expires_at ← match expires_at with
                 | None => mret None
                 | Some t => match normalize_alias_expiry t with
                             | Ok t => mret (Some t)
                             | Raise (PyValueError msg) => raise (ctl_error "INVALID_ARGUMENT" msg)
                             | Raise e => raise (ArtPyError e)
                             end
                 end;
    existing ← index_alias_resolve name;
    if is_some existing && negb overwrite
    then raise (ctl_error "ALREADY_EXISTS" ("Alias already exists: " +:+ alias))
    else
      sha ← _resolve_active_sha ref_or_sha;
      expires_at ← default_expiry expires_at;
      index_alias_set name sha expires_at meta_json.
Definition alias_resolve (alias : string) : AM (option ArtifactRef) :=
  rec ← index_alias_resolve alias;
  match rec with
  | None => mret None
  | Some a => meta ← get_artifact (al_sha256 a) false; mret (option_map to_ref meta)
  end.
Definition alias_list (prefix : option string) : AM (list AliasRecord) := index_alias_list prefix.
Definition alias_delete (alias : string) : AM () := index_alias_delete alias.

(** ** References *)

Definition _validate_owner_type (owner_type : string) : AM () :=
  if str_in owner_type VALID_OWNER_TYPES then mret ()
  else raise (ctl_error "INVALID_ARGUMENT" ("Invalid owner_type: " +:+ owner_type)).
Definition ref_add (owner_type owner_id ref_or_sha : string) : AM () :=
  _ ← _validate_owner_type owner_type;
  if negb (truthy (py_strip owner_id)) then raise (ctl_error "INVALID_ARGUMENT" "owner_id cannot be blank")
  else sha ← _resolve_active_sha ref_or_sha; add_reference owner_type owner_id sha.
Definition ref_remove (owner_type owner_id ref_or_sha : string) : AM () :=
  _ ← _validate_owner_type owner_type;
  sha ← _resolve_sha ref_or_sha;
  remove_reference owner_type owner_id sha.
Definition ref_remove_owner (owner_type owner_id : string) : AM () :=
  _ ← _validate_owner_type owner_type; remove_references_for_owner owner_type owner_id.

(** refs.py *)
Definition normalize_artifact_ref_target (value : pyval) : option string :=
  let mime := match value with PDict d => dget_none d "mime" | _ => PNone end in
  if String.eqb (str_or_blank mime) "application/x-openminion-capture" then None
  else
    let candidates := match value with
                      | PDict d => [dget_none d "ref"; dget_none d "sha256"]
                      | v => [v]
                      end in
    head (omap (λ c, let text := str_or_blank c in
                     if truthy text then match parse_ref_or_sha text with Ok s => Some s | Raise _ => None end
                     else None) candidates).
Fixpoint unique_targets (seen : list string) (values : list pyval) : list string :=
  match values with
  | [] => []
  | v :: rest =>
      match normalize_artifact_ref_target v with
      | Some t => if str_in t seen then unique_targets seen rest else t :: unique_targets (t :: seen) rest
      | None => unique_targets seen rest
      end
  end.
Definition normalize_artifact_ref_targets (values : pyval) : list string :=
  match values with
  | PNone => []
  | PList l => unique_targets [] l
  | v => unique_targets [] [v]
  end.
Definition for_targets (f : string → AM ()) (values : pyval) : AM () :=
  foldr (λ t rest, _ ← f t; rest) (mret ()) (normalize_artifact_ref_targets values).
Definition add_reference_edges (owner_type owner_id : string) (values : pyval) : AM () :=
  for_targets (ref_add owner_type owner_id) values.
Definition remove_reference_edges (owner_type owner_id : string) (values : pyval) : AM () :=
  for_targets (ref_remove owner_type owner_id) values.

(** ** Retention *)

(** [for x in l: f(x)] *)
Definition each {A} (f : A → AM ()) (l : list A) : AM () := foldr (λ x rest, _ ← f x; rest) (mret ()) l.

Definition _soft_delete_derived_views (shas : list string) (deleted_at : string) : AM (list string) :=
  w ← get_world;
  let candidates := shas ≫= (λ raw, view_shas_of (views_of w raw false)) in
  _ ← each (λ raw, soft_delete_views_for_raw raw deleted_at) shas;
  refs ← active_reference_shas;
  names ← active_alias_shas;
  views ← active_view_shas;
  let protected := refs ++ names ++ views in
  let deletable := List.filter (λ s, negb (str_in s protected)) candidates in
  _ ← soft_delete_artifacts deletable deleted_at;
  mret deletable.

Definition gc (plan_only : bool) (keep_days_arg delete_after_arg : option Z) : AM GCReport :=
  keep ← days_or keep_days_arg (keep_days cfg) "keep_days";
  delete_after ← days_or delete_after_arg (delete_unreferenced_after_days cfg) "delete_unreferenced_after_days";
  refs ← active_reference_shas;
  names ← active_alias_shas;
  recent ← recent_artifact_shas keep;
  w ← get_world;
  let roots := refs ++ names in
  let kept := roots ++ recent in
  let protected := kept ++ (kept ≫= (λ raw, view_shas_of (views_of w raw false))) in
  eligible ← eligible_for_gc delete_after protected;
  marked ← (if negb plan_only && bool_decide (eligible ≠ []) then
              now ← iso_now;
              marked ← soft_delete_artifacts eligible now;
              _ ← _soft_delete_derived_views eligible now;
              mret marked
            else mret 0%nat);
  mret {| gc_keep_days := keep; gc_delete_after := delete_after; gc_roots := length (remove_dups roots);
          gc_protected := length (remove_dups protected); gc_eligible := length eligible;
          gc_marked_deleted := marked; gc_candidates := eligible |}.

Definition ctl_delete (ref_or_sha : string) (soft : bool) : AM () :=
  sha ← _resolve_sha ref_or_sha;
  now ← iso_now;
  derived ← _soft_delete_derived_views [sha] now;
  active ← active_view_shas;
  _ ← (if str_in sha active then mret ()
       else _ ← soft_delete_artifacts [sha] now; if soft then mret () else delete_blob sha);
  if soft then mret () else each delete_blob derived.

(** [_purge_blob_sha]: whether the blob was deleted, now or before. *)
Definition _purge_blob_sha (handled : list string) (sha : string) : AM (list string * bool) :=
  if str_in sha handled then mret (handled, true)
  else
    present ← blob_present sha;
    if present : bool then _ ← delete_blob sha; mret (sha :: handled, true) else mret (sha :: handled, false).
(** [_purge_views] and [_purge_artifacts]: the blobs of [shas] in order, with the
    numbers of those deleted and of those missing. *)
Fixpoint purge_blobs (handled shas : list string) (purged missing : Z) : AM (list string * Z * Z) :=
  match shas with
  | [] => mret (handled, purged, missing)
  | sha :: rest =>
      '(handled', gone) ← _purge_blob_sha handled sha;
      if gone : bool then purge_blobs handled' rest (purged + 1) missing
      else purge_blobs handled' rest purged (missing + 1)
  end.
Definition view_hit (shas : list string) (v : ViewRecord) : bool :=
  match vr_view_sha256 v with Some s => str_in s shas | None => false end.
Definition hits (shas : list string) (views : list ViewRecord) : list string :=
  omap vr_view_sha256 (List.filter (view_hit shas) views).
Definition mark_view_artifact (shas : list string) (v : ViewRecord) : AM () :=
  if view_hit shas v then
    at_ ← (if otruthy (vr_deleted_at v) then mret (default "" (vr_deleted_at v)) else iso_now);
    _ ← soft_delete_artifacts [default "" (vr_view_sha256 v)] at_;
    mret ()
  else mret ().
(** The two loops over blobs, in either order. *)
Definition purge_both (first : bool) (gone view_hits : list string) : AM (Z * Z * Z) :=
  if first then
    '(handled, pv, m1) ← purge_blobs [] view_hits 0 0;
    '(_, pb, m2) ← purge_blobs handled gone 0 0;
    mret (pv, pb, m1 + m2)
  else
    '(handled, pb, m1) ← purge_blobs [] gone 0 0;
    '(_, pv, m2) ← purge_blobs handled view_hits 0 0;
    mret (pv, pb, m1 + m2).
(** The part of [purge] after the artifacts of expired views are marked. *)
Definition purge_rest (grace : Z) (views : list ViewRecord) (protected view_shas : list string) : AM PurgeReport :=
  rows ← purgeable_artifacts grace;
  let gone := List.filter (λ s, negb (str_in s protected)) (map am_sha256 rows) in
  '(purged_views, purged_blobs, missing) ←
    purge_both (delete_views_first cfg) gone (hits (List.filter (λ s, str_in s gone) view_shas) views);
  _ ← each hard_delete_view views;
  _ ← each hard_delete_artifact gone;
  _ ← hard_delete_expired_aliases grace;
  _ ← hard_delete_reference_tombstones grace;
  mret {| pr_grace_days := grace; pr_purged_views := purged_views; pr_purged_blobs := purged_blobs;
          pr_missing_files := missing |}.
Definition purge (grace_arg : option Z) : AM PurgeReport :=
  grace ← days_or grace_arg (purge_grace_days cfg) "grace_days";
  views ← purgeable_views grace;
  refs ← active_reference_shas;
  names ← active_alias_shas;
  retained ← retained_view_shas grace;
  let protected := refs ++ names ++ retained in
  let view_shas := List.filter (λ s, negb (str_in s protected)) (view_shas_of views) in
  _ ← each (mark_view_artifact view_shas) views;
  purge_rest grace views protected view_shas.

(** ** Verification *)

Definition row_issue (d : BlobDir) (a : ArtifactMeta) : AM (option VerifyIssue) :=
  present ← lift_blob (blob_exists d (am_sha256 a));
  if negb present
  then mret (Some {| vi_sha256 := am_sha256 a; vi_issue := "missing_blob"; vi_expected := None; vi_actual := None |})
  else
    data ← lift_blob (blob_open d (am_sha256 a));
    let actual := py_sha256_hexdigest data in
    mret (if String.eqb actual (am_sha256 a) then None
          else Some {| vi_sha256 := am_sha256 a; vi_issue := "digest_mismatch"; vi_expected := Some (am_sha256 a);
                       vi_actual := Some actual |}).
Fixpoint row_issues (d : BlobDir) (rows : list ArtifactMeta) : AM (list VerifyIssue) :=
  match rows with
  | [] => mret []
  | a :: rest =>
      i ← row_issue d a;
      more ← row_issues d rest;
      mret (option_list i ++ more)
  end.
Definition build_verify_report (rows : list ArtifactMeta) (orphan_shas : list string) : AM VerifyReport :=
  w ← get_world;
  found ← row_issues (art_blobs w) rows;
  let issues := found ++ map (λ s, {| vi_sha256 := s; vi_issue := "orphan_blob"; vi_expected := None; vi_actual := None |})
                           orphan_shas in
  let checked := (length rows + length orphan_shas)%nat in
  mret {| ve_checked := checked; ve_ok := Z.of_nat checked - Z.of_nat (length issues); ve_failed := length issues;
          ve_issues := issues |}.
Definition verify (target : option string) : AM VerifyReport :=
  if String.eqb (str_or target "all") "all" then
    rows ← all_artifacts false;
    indexed ← all_artifacts true;
    w ← get_world;
    build_verify_report rows
      (sort_asc (λ s, s) (List.filter (λ s, negb (str_in s (map am_sha256 indexed))) (list_sha256 (art_blobs w))))
  else
    m ← ctl_get (default "" target);
    build_verify_report [m] [].
End Ctl.
