(* ===== verification/ArtifactProps.v ===== *)
(** The invariant of the artifact store, and that ingestion, views, aliases and
    references keep it: every live artifact has its bytes, every payload is
    indexed, and payloads are named by the digest of their bytes. *)

From S2P Require Import Prelude PyValue Timestamps PyText Schedule BlobStore BlobStoreProps ArtifactIndex ArtifactText ArtifactCtl.
From Stdlib Require Import Ascii.

Local Open Scope Z_scope.

Definition live_sha (w : ArtWorld) (s : string) : Prop :=
  ∃ a, a ∈ artifacts w ∧ am_sha256 a = s ∧ live_row a = true.
Definition has_row (w : ArtWorld) (s : string) : Prop := ∃ a, a ∈ artifacts w ∧ am_sha256 a = s.
Definition blob_in (w : ArtWorld) (s : string) : Prop := has_blob (art_blobs w) s.
(** The two rows are of the same artifact with the same owner and metadata. *)
Definition same_artifact (a b : ArtifactMeta) : Prop :=
  am_sha256 b = am_sha256 a ∧ am_session_id b = am_session_id a ∧ am_meta_json b = am_meta_json a.

Section Inv.
Context {Env : PyEnv}.

(** The payloads of digests in [X] may lack a row. *)
Record store_ok (X : string → Prop) (w : ArtWorld) : Prop := {
  ok_dir : dir_ok (art_blobs w);
  ok_rows : NoDup (map am_sha256 (artifacts w));
  ok_shas : ∀ a, a ∈ artifacts w → valid_sha (am_sha256 a);
  ok_aliases : ∀ x, x ∈ aliases w → valid_sha (al_sha256 x);
  ok_views : ∀ v s, v ∈ artifact_views w → vr_view_sha256 v = Some s → valid_sha s;
  ok_live : ∀ s, live_sha w s → blob_in w s;
  ok_indexed : ∀ s, blob_in w s → has_row w s ∨ X s;
}.
Definition none (s : string) : Prop := False.
Abbreviation art_ok := (store_ok none).

Lemma store_ok_same X w w' :
  artifacts w' = artifacts w → aliases w' = aliases w → artifact_views w' = artifact_views w →
  art_blobs w' = art_blobs w → store_ok X w → store_ok X w'.
Proof.
  intros E1 E2 E3 E4 [H1 H2 H3 H4 H5 H6 H7].
  split; unfold live_sha, has_row, blob_in in *; rewrite ?E1, ?E2, ?E3, ?E4; done.
Qed.
Lemma live_valid X w s : store_ok X w → live_sha w s → valid_sha s.
Proof. intros H (a & Ha & <- & _). by eapply ok_shas. Qed.
Lemma row_unique X w a b : store_ok X w → a ∈ artifacts w → b ∈ artifacts w → am_sha256 a = am_sha256 b → a = b.
Proof.
  intros H Ha Hb E. apply list_elem_of_lookup in Ha as [i Hi], Hb as [j Hj].
  assert (i = j) as ->; [|congruence]. eapply (NoDup_lookup _ _ _ _ (ok_rows _ _ H)).
  - rewrite list_lookup_fmap, Hi. done.
  - rewrite list_lookup_fmap, Hj. simpl. by rewrite E.
Qed.

(** ** Growth: the invariant holds, and the live artifacts of [w0] and its rows are
    still there. *)
Record grown (X : string → Prop) (w0 w : ArtWorld) : Prop := {
  gr_ok : store_ok X w;
  gr_live : ∀ s, live_sha w0 s → live_sha w s;
  gr_rows : ∀ a, a ∈ artifacts w0 → ∃ b, b ∈ artifacts w ∧ same_artifact a b;
  gr_bytes : ∀ f, f ∈ payloads (art_blobs w0) → f ∈ payloads (art_blobs w);
}.
Lemma grown_refl X w : store_ok X w → grown X w w.
Proof. intros H. split; [done..| |done]. intros a Ha. by exists a. Qed.
Lemma grown_same X w0 w w' :
  artifacts w' = artifacts w → aliases w' = aliases w → artifact_views w' = artifact_views w →
  art_blobs w' = art_blobs w → grown X w0 w → grown X w0 w'.
Proof.
  intros E1 E2 E3 E4 [H1 H2 H3 H4]. split; [by eapply store_ok_same| | |]; unfold live_sha; by rewrite ?E1, ?E4.
Qed.
Definition grows {A} (m : AM A) : Prop := ∀ w0, triple (grown none w0) m (λ _, grown none w0) (grown none w0).

Lemma grows_ret {A} (a : A) : grows (mret a).
Proof. by intros w0 w. Qed.
Lemma grows_raise {A} e : grows (raise e : AM A).
Proof. by intros w0 w. Qed.
Lemma grows_gets {A} (f : ArtWorld → A) : grows (gets f).
Proof. by intros w0 w. Qed.
Lemma grows_get : grows get_world.
Proof. by intros w0 w. Qed.
Lemma grows_lift {A} (r : result art_exn A) : grows (lift_result r).
Proof. intros w0 w Hw. by destruct r. Qed.
Lemma grows_bind {A B} (m : AM A) (f : A → AM B) : grows m → (∀ a, grows (f a)) → grows (mbind f m).
Proof. intros Hm Hf w0. eapply triple_bind; [apply Hm|]. intros a. apply Hf. Qed.
Lemma grows_same {A} (m : AM A) :
  (∀ w, let w' := (m w).1 in artifacts w' = artifacts w ∧ aliases w' = aliases w ∧
     artifact_views w' = artifact_views w ∧ art_blobs w' = art_blobs w) → grows m.
Proof.
  intros H w0 w Hw. specialize (H w). simpl in H. destruct (m w) as [w' [a|e]], H as (E1 & E2 & E3 & E4);
    by eapply grown_same.
Qed.
Lemma grows_swallow {A} (m : AM A) : grows m → grows (swallow m).
Proof. intros H w0 w Hw. specialize (H w0 w Hw). unfold swallow. by destruct (m w) as [w' [a|e]]. Qed.
(** A step that leaves the four tables and the directory alone keeps any growth. *)
Lemma now_grown X w0 Y : triple (grown X w0) iso_now (λ _, grown X w0) Y.
Proof. intros w Hw. by apply (grown_same X w0 w). Qed.
End Inv.
Abbreviation art_ok := (store_ok none).

Create HintDb grow.
Ltac grow :=
  repeat first
    [ apply grows_ret | apply grows_raise | apply grows_gets | apply grows_get | apply grows_lift
    | solve [eauto with grow]
    | solve [apply grows_same; intros ?w; repeat split]
    | apply grows_swallow
    | apply grows_bind; [|intro]
    | progress unfold lift_blob, lift_text, not_found, ctl_error, unsupported, too_large
    | match goal with
      | |- grows (if ?b then _ else _) => destruct b
      | |- grows (match ?x with _ => _ end) => destruct x
      | |- grows (let '(_, _) := ?x in _) => destruct x
      end ].

Section Ops.
Context {Env : PyEnv} {Txt : TextEnv} (source_file : string → option SourceFile) (cfg : ArtifactConfig).

(** ** Reading *)

Lemma days_ago_grows d : grows (days_ago d).
Proof. unfold days_ago. grow. Qed.
#[local] Hint Resolve days_ago_grows : grow.
Lemma alias_resolve_grows name : grows (index_alias_resolve name).
Proof. unfold index_alias_resolve, iso_now. grow. Qed.
#[local] Hint Resolve alias_resolve_grows : grow.
Lemma resolve_grows r : grows (_resolve_sha r).
Proof. unfold _resolve_sha. grow. Qed.
#[local] Hint Resolve resolve_grows : grow.
Lemma resolve_active_grows r : grows (_resolve_active_sha r).
Proof. unfold _resolve_active_sha, get_artifact. grow. Qed.
#[local] Hint Resolve resolve_active_grows : grow.
Lemma ctl_get_grows r : grows (ctl_get r).
Proof. unfold ctl_get, get_artifact. grow. Qed.
#[local] Hint Resolve ctl_get_grows : grow.
Lemma blob_present_grows s : grows (blob_present s).
Proof. unfold blob_present. grow. Qed.
#[local] Hint Resolve blob_present_grows : grow.
Lemma read_bytes_grows r sess : grows (read_bytes r sess).
Proof.
  unfold read_bytes. grow.
Qed.
#[local] Hint Resolve read_bytes_grows : grow.
Lemma policy_grows s o : grows (_check_ingest_policy s o).
Proof. unfold _check_ingest_policy, get_artifact. grow. Qed.
#[local] Hint Resolve policy_grows : grow.
Lemma emit_grows r t m f : grows (_emit_retrieve_ingest_event cfg r t m f).
Proof. unfold _emit_retrieve_ingest_event. grow. Qed.
#[local] Hint Resolve emit_grows : grow.
Lemma existing_view_grows r t p : grows (existing_view r t p).
Proof. unfold existing_view, get_view, get_artifact. grow. Qed.
#[local] Hint Resolve existing_view_grows : grow.
Lemma payload_grows m t : grows (_generate_view_payload cfg m t).
Proof.
  unfold _generate_view_payload, _build_digest. grow.
Qed.
#[local] Hint Resolve payload_grows : grow.

Lemma find_In {A} (p : A → bool) l x : List.find p l = Some x → x ∈ l ∧ p x = true.
Proof. intros [H1 H2]%find_some. split; [by apply list_elem_of_In|done]. Qed.

Lemma parse_valid r s : parse_ref_or_sha r = Ok s → valid_sha s.
Proof.
  unfold parse_ref_or_sha. set (c := py_removeprefix _ _). destruct (negb _) eqn:El; [done|].
  destruct (str_all _ _) eqn:Ex; [|done]. intros [= <-]. apply valid_sha_split. split; [|done].
  apply negb_false_iff, Nat.eqb_eq in El. rewrite <-El. clear. unfold py_lower. generalize c. intros t.
  induction t as [|x t IH]; simpl; [done|]. by rewrite IH.
Qed.
Lemma resolve_valid r w0 X :
  triple (grown X w0) (_resolve_sha r) (λ s w, grown X w0 w ∧ valid_sha s) (grown X w0).
Proof.
  intros w Hw. unfold _resolve_sha. destruct (negb _); [done|].
  destruct (parse_ref_or_sha _) as [s|e] eqn:E; [split; [done|by eapply parse_valid]|].
  unfold index_alias_resolve, iso_now, mbind, M_bind, art_now, mret, M_ret, gets. simpl.
  destruct (List.find _ _) as [a|] eqn:Ea.
  - split; [by apply (grown_same X w0 w)|]. apply find_In in Ea as [Ha _]. by eapply ok_aliases; [apply Hw|].
  - by apply (grown_same X w0 w).
Qed.
Lemma resolve_active_live r w0 :
  triple (grown none w0) (_resolve_active_sha r) (λ s w, grown none w0 w ∧ live_sha w s) (grown none w0).
Proof.
  unfold _resolve_active_sha. eapply triple_bind; [apply resolve_valid|]. intros s.
  eapply triple_bind; [apply triple_gets|]. intros found w [[Hw _] ->]. unfold find_artifact.
  destruct (List.find _ _) as [a|] eqn:Ea; [|done]. split; [done|]. apply find_In in Ea as [Ha Hb].
  simpl in Hb. unfold has_sha in Hb. bsplit. by exists a.
Qed.
Lemma valid_parse s : valid_sha s → parse_ref_or_sha s = Ok s.
Proof.
  intros H. pose proof H as [Hl Hx]%valid_sha_split. unfold parse_ref_or_sha. rewrite strip_hex by done.
  unfold py_removeprefix. destruct (py_startswith s ARTIFACT_REF_PREFIX) eqn:E.
  - by pose proof (prefix_all is_hex_lower _ _ E Hx).
  - rewrite Hl, lower_hex, Hx by done. done.
Qed.
Lemma valid_truthy s : valid_sha s → truthy s = true.
Proof. intros [Hl _]%valid_sha_split. by destruct s. Qed.
Lemma resolve_of_valid s w : valid_sha s → _resolve_sha s w = (w, Ok s).
Proof.
  intros H. pose proof H as [_ Hx]%valid_sha_split. unfold _resolve_sha. rewrite strip_hex by done.
  by rewrite valid_truthy, valid_parse.
Qed.
Lemma ctl_get_of_valid s w a : valid_sha s → find_artifact w s true = Some a → ctl_get s w = (w, Ok a).
Proof. intros H E. unfold ctl_get. by rewrite (bind_of_Ok _ _ w w s (resolve_of_valid s w H)), (bind_of_Ok _ _ w w (Some a)); [|unfold get_artifact, gets; rewrite E]. Qed.

(** ** Ingestion *)

Definition only (sha s : string) : Prop := s = sha.

Lemma upsert_elem {A} (same : A → bool) change new (l : list A) y :
  y ∈ upsert same change new l →
  (∃ x, x ∈ l ∧ same x = true ∧ y = change x) ∨ (y ∈ l ∧ same y = false) ∨ y = new.
Proof.
  unfold upsert. destruct (existsb same l) eqn:E.
  - intros (x & Hx & [[Hs ->]|[Hs ->]])%update_where_elem; eauto.
  - intros [Hy|Hy%list_elem_of_singleton]%elem_of_app; [|by auto]. destruct (same y) eqn:Es; [|by auto].
    exfalso. apply not_true_iff_false in E. apply E, existsb_exists. exists y. by rewrite <-list_elem_of_In.
Qed.

Lemma upsert_rows m l : NoDup (map am_sha256 l) → am_deleted_at m = None →
  let l' := upsert (has_sha (am_sha256 m)) (row_deleted None) m l in
  NoDup (map am_sha256 l') ∧
  (∀ a, a ∈ l → ∃ b, b ∈ l' ∧ same_artifact a b ∧ (live_row a = true → live_row b = true)) ∧
  (∃ b, b ∈ l' ∧ am_sha256 b = am_sha256 m ∧ live_row b = true).
Proof.
  intros Hn Hm l'. unfold l', upsert. destruct (existsb _ l) eqn:E.
  - split_and!.
    + by rewrite update_where_map.
    + intros a Ha. destruct (has_sha (am_sha256 m) a) eqn:Eh.
      * exists (row_deleted None a). split; [apply update_where_elem; exists a; auto|]. done.
      * exists a. split; [apply update_where_elem; exists a; auto|]. done.
    + apply existsb_exists in E as (a & Ha%list_elem_of_In & Eh). exists (row_deleted None a).
      split; [apply update_where_elem; exists a; auto|]. split; [by apply String.eqb_eq|done].
  - split_and!.
    + rewrite map_app. apply NoDup_app. split; [done|]. split; [|apply NoDup_singleton].
      intros x (a & <- & Ha)%list_elem_of_In%in_map_iff Hx%list_elem_of_singleton.
      apply not_true_iff_false in E. apply E, existsb_exists. exists a. split; [done|]. by apply String.eqb_eq.
    + intros a Ha. exists a. split; [apply elem_of_app; by left|]. done.
    + exists m. split; [apply elem_of_app; right; by apply list_elem_of_singleton|]. split; [done|].
      unfold live_row. by rewrite Hm.
Qed.

Lemma upsert_grown m w0 X : am_deleted_at m = None → valid_sha (am_sha256 m) →
  triple (λ w, grown (only (am_sha256 m)) w0 w ∧ blob_in w (am_sha256 m)) (upsert_artifact m)
    (λ _ w, grown none w0 w ∧ live_sha w (am_sha256 m)) X.
Proof.
  intros Hd Hv. unfold upsert_artifact. apply triple_modify. intros w [[[H1 H2 H3 H4 H5 H6 H7] G2 G3 G4] Hb].
  rewrite Hd. set (n := {| am_sha256 := am_sha256 m |}).
  destruct (upsert_rows n (artifacts w) H2 eq_refl) as (U1 & U2 & b & Hb1 & Hb2 & Hb3). simpl in U1, U2, Hb1, Hb2.
  set (l' := upsert _ _ _ _) in *.
  assert (∀ a, a ∈ l' → am_sha256 a = am_sha256 m ∨ a ∈ artifacts w) as Hl.
  { intros a [(x & Hx & Hs & ->)|[[Ha _]| ->]]%upsert_elem; [left|by right|by left]. by apply String.eqb_eq in Hs. }
  split; [|by exists b]. split.
  - split; simpl; try done.
    + intros a [->|Ha]%Hl; [done|by apply H3].
    + intros s (a & Ha & <- & Hlive). destruct (Hl a Ha) as [->|Hin]; [done|]. apply H6. by exists a.
    + intros s [(a & Ha & <-)| ->]%H7.
      * left. destruct (U2 a Ha) as (c & Hc & (E & _) & _). by exists c.
      * left. by exists b.
  - intros s (a & Ha & <- & Hlive)%G2. destruct (U2 a Ha) as (c & Hc & (E & _) & Hlive'). exists c. auto.
  - intros a (c & Hc & E1 & E2 & E3)%G3. destruct (U2 c Hc) as (d & Hd' & (F1 & F2 & F3) & _). exists d.
    split; [done|]. split_and!; congruence.
  - done.
Qed.

(** The bytes of the digest are there: those given, unless it had some before. *)
Definition stored (w0 : ArtWorld) (sha data : string) (w : ArtWorld) : Prop :=
  ∃ f, f ∈ payloads (art_blobs w) ∧ bf_name f = sha ∧ (¬ blob_in w0 sha → bf_data f = data).
Lemma store_blob_exact put data sha w0 : art_ok w0 →
  valid_sha sha → py_sha256_hexdigest data = sha →
  (∀ now d, dir_ok d → ¬ has_blob d sha → ∃ d', put now d = Ok d' ∧ payloads d' = payloads d ++ [new_file sha data]) →
  triple (λ w, w = w0) (store_blob put sha) (λ _ w, grown (only sha) w0 w ∧ stored w0 sha data w ∧ artifacts w = artifacts w0) (grown none w0).
Proof.
  intros [H1 H2 H3 H4 H5 H6 H7] Hv Hh Hput w ->. unfold store_blob.
  destruct (exists_spec (art_blobs w0) sha H1 Hv) as (b & Eb & Hb).
  rewrite (bind_of_Ok _ _ w0 w0 b); [|unfold blob_present; by rewrite bind_get_world, Eb].
  destruct b.
  - split; [|split; [|done]; destruct (proj1 Hb eq_refl) as (f & Hf & E); exists f; split_and!; [done..|]; intros Hn; destruct Hn; by exists f].
    apply grown_refl. split; try done. intros s Hs. destruct (H7 s Hs); [by left|done].
  - assert (¬ has_blob (art_blobs w0) sha) as Hn by by intros ?%Hb.
    unfold iso_now, mbind, M_bind, art_now, mret, M_ret. simpl. unfold blob_change, mbind, M_bind, get_world. simpl.
    destruct (Hput (isoformat (py_clock (art_ticks w0))) (art_blobs w0) H1 Hn) as (d' & -> & Ep). simpl.
    assert (∀ s, has_blob d' s ↔ has_blob (art_blobs w0) s ∨ s = sha) as Hd'.
    { intros s. unfold has_blob. rewrite Ep. setoid_rewrite elem_of_app. setoid_rewrite list_elem_of_singleton. split.
      - intros (f & [Hf| ->] & <-); [left; by exists f|by right].
      - intros [(f & Hf & <-)| ->]; [exists f; by auto|]. exists (new_file sha data). by auto. }
    split; [|split; [exists (new_file sha data); split; [simpl; rewrite Ep; apply elem_of_app; right; by apply list_elem_of_singleton|done]|done]].
    split; [split; simpl; try done|done|intros a Ha; by exists a|intros f Hf; simpl; rewrite Ep; apply elem_of_app; by left].
    + by eapply dir_ok_snoc.
    + intros s Hs. unfold blob_in. simpl. apply Hd'. left. by apply H6.
    + intros s [Hs| ->]%Hd'; [|by right]. destruct (H7 s Hs); [by left|done].
Qed.

Lemma grown_trans X w0 w1 w2 : grown X w0 w1 → grown none w1 w2 → grown none w0 w2.
Proof.
  intros [_ L1 R1 B1] [O2 L2 R2 B2]. split; [done|by auto| |by auto].
  intros a (b & Hb & E1 & E2 & E3)%R1. destruct (R2 b Hb) as (c & Hc & F1 & F2 & F3). exists c.
  split; [done|]. split_and!; congruence.
Qed.
Lemma grows_exact {A} (m : AM A) :
  (∀ w0, art_ok w0 → triple (λ w, w = w0) m (λ _, grown none w0) (grown none w0)) → grows m.
Proof.
  intros Hm w0 w Hw. pose proof (Hm w (gr_ok _ _ _ Hw) w eq_refl) as H.
  destruct (m w) as [w' [a|e]]; by eapply grown_trans.
Qed.
(** A growing step carries along what growth preserves. *)
Lemma grows_carry {A} (m : AM A) w0 (K : ArtWorld → Prop) : grows m →
  (∀ w w', grown none w w' → K w → K w') →
  triple (λ w, grown none w0 w ∧ K w) m (λ _ w, grown none w0 w ∧ K w) (grown none w0).
Proof.
  intros Hm HK w [Hw Hk]. pose proof (Hm w w (grown_refl _ _ (gr_ok _ _ _ Hw))) as H.
  destruct (m w) as [w' [a|e]]; [split|]; [by eapply grown_trans|by eapply HK|by eapply grown_trans].
Qed.

(** The row of the digest is of the session that gave it, when there was none before. *)
Definition of_giver (w0 : ArtWorld) (sha : string) (own : option string) (a : ArtifactMeta) : Prop :=
  am_sha256 a = sha ∧ (¬ has_row w0 sha → am_session_id a = own).
(** The artifact is live, its bytes are there, and its row has the input policy. *)
Definition admitted (w0 : ArtWorld) (sha data : string) (opaque : bool) (own : option string) (w : ArtWorld) : Prop :=
  live_sha w sha ∧ stored w0 sha data w ∧ ∃ a, a ∈ artifacts w ∧ of_giver w0 sha own a ∧ is_opaque a = opaque.
Lemma same_opaque a b : same_artifact a b → is_opaque b = is_opaque a.
Proof. unfold is_opaque. by intros (_ & _ & ->). Qed.
Lemma same_giver w0 sha own a b : same_artifact a b → of_giver w0 sha own a → of_giver w0 sha own b.
Proof. intros (E1 & E2 & _) [H1 H2]. split; [congruence|]. intros Hn. rewrite E2. by apply H2. Qed.
Lemma admitted_grown w0 sha data opaque own w w' :
  grown none w w' → admitted w0 sha data opaque own w → admitted w0 sha data opaque own w'.
Proof.
  intros [H1 H2 H3 H4] (Hl & (f & Hf & Ef) & a & Ha & Eo & Ep). split_and!; [by apply H2| |].
  - exists f. split; [by apply H4|done].
  - destruct (H3 a Ha) as (b & Hb & Hs). exists b. rewrite (same_opaque a b Hs). split_and!; [done|by eapply same_giver|done].
Qed.
Lemma ctl_get_admitted s w0 data opaque own w1 : valid_sha s →
  triple (λ w, grown none w0 w ∧ admitted w1 s data opaque own w) (ctl_get s)
    (λ m w, (grown none w0 w ∧ admitted w1 s data opaque own w) ∧ am_sha256 m = s) (grown none w0).
Proof.
  intros Hv w [Hw Hl]. unfold ctl_get. rewrite (bind_of_Ok _ _ w w s (resolve_of_valid s w Hv)).
  unfold get_artifact, mbind, M_bind, gets. destruct (find_artifact w s true) as [a|] eqn:E; [|done].
  split; [done|]. apply find_In in E as [_ E]. unfold has_sha in E. by bsplit.
Qed.
Lemma policy_admitted sha data opaque own w0 w1 :
  triple (λ w, grown none w0 w ∧ live_sha w sha ∧ stored w1 sha data w ∧ ∃ a, a ∈ artifacts w ∧ of_giver w1 sha own a)
    (_check_ingest_policy sha opaque) (λ _ w, grown none w0 w ∧ admitted w1 sha data opaque own w) (grown none w0).
Proof.
  intros w (Hw & Hl & Hs & x & Hx & Ho). unfold _check_ingest_policy, get_artifact, mbind, M_bind, gets.
  destruct (find_artifact w sha true) as [a|] eqn:E.
  - destruct (Bool.eqb _ _) eqn:Eo; [|done]. split; [done|]. split_and!; [done..|]. apply find_In in E as [Ha E].
    unfold has_sha in E. bsplit. exists a. assert (a = x) as ->.
    { eapply row_unique; [exact (gr_ok _ _ _ Hw)|done..|]. destruct Ho as [-> _]. by bsplit. }
    split_and!; [done|done|]. by apply eqb_prop.
  - exfalso. destruct Hl as (a & Ha & <- & _). unfold find_artifact in E. apply find_none with (x := a) in E;
      [|by apply list_elem_of_In]. unfold has_sha in E. by rewrite String.eqb_refl in E.
Qed.

Lemma record_grown a sha mime size enc opaque after text title w0 data :
  valid_sha sha → grows (after sha) →
  triple (λ w, grown (only sha) w0 w ∧ stored w0 sha data w ∧ artifacts w = artifacts w0)
    (record_artifact cfg a sha mime size enc opaque after text title)
    (λ r w, (grown none w0 w ∧ admitted w0 sha data opaque (in_session_id a) w) ∧ ar_sha256 r = sha ∧ ar_ref r = sha_to_ref sha)
    (grown none w0).
Proof.
  intros Hv Ha. unfold record_artifact.
  apply triple_bind with (λ _ w, grown (only sha) w0 w ∧ stored w0 sha data w ∧ artifacts w = artifacts w0).
  { intros w (Hw & Hb & E). split; [by apply (grown_same _ _ w)|done]. }
  intros now. set (m := {| am_sha256 := sha |}).
  apply triple_bind with (λ _ w, grown none w0 w ∧ live_sha w sha ∧ stored w0 sha data w ∧
    ∃ x, x ∈ artifacts w ∧ of_giver w0 sha (in_session_id a) x).
  { intros w (Hw & (f & Hf & Ef) & Er). destruct (upsert_grown m w0 (λ _, True) eq_refl Hv w) as [H1 H2].
    - split; [done|]. exists f. naive_solver.
    - simpl. split; [done|]. split; [done|]. split; [by exists f|]. destruct H2 as (x & Hx & Ex & _). exists x. split; [done|].
      split; [done|]. intros Hn. simpl in Hx. apply upsert_elem in Hx as [(y & Hy & Hs & ->)|[[Hy _]| ->]]; [..|done].
      + destruct Hn. rewrite Er in Hy. exists y. split; [done|]. by apply String.eqb_eq in Hs.
      + destruct Hn. rewrite Er in Hy. by exists x. }
  intros []. eapply triple_bind; [apply policy_admitted|]. intros [].
  eapply triple_bind; [by apply grows_carry; [|intros; eapply admitted_grown]|]. intros [].
  eapply triple_bind; [by apply ctl_get_admitted|]. intros x. apply triple_pure. intros Hm.
  eapply triple_bind; [apply grows_carry; [destruct (_ && _); [apply emit_grows|apply grows_ret]|intros; by eapply admitted_grown]|].
  intros [] w Hw. split; [done|]. simpl. by rewrite Hm.
Qed.

Context (sha_hex : ∀ data, valid_sha (py_sha256_hexdigest data)).

Definition ingested (w0 : ArtWorld) (data : string) (opaque : bool) (own : option string) (r : ArtifactRef) (w : ArtWorld) : Prop :=
  (grown none w0 w ∧ admitted w0 (py_sha256_hexdigest data) data opaque own w) ∧
  ar_sha256 r = py_sha256_hexdigest data ∧ ar_ref r = sha_to_ref (py_sha256_hexdigest data).
(** A check that only reads. *)
Lemma check_exact (m : AM ()) w0 : art_ok w0 → (∀ w, (m w).1 = w) → triple (λ w, w = w0) m (λ _ w, w = w0) (grown none w0).
Proof.
  intros Hok H w ->. specialize (H w0). destruct (m w0) as [w' [a|e]]; simpl in H; subst; [done|by apply grown_refl].
Qed.
Lemma policy_same s o w : (_check_ingest_policy s o w).1 = w.
Proof.
  unfold _check_ingest_policy, get_artifact, mbind, M_bind, gets. destruct (find_artifact w s true); [|done].
  by destruct (Bool.eqb _ _).
Qed.
Lemma size_same n s w : (_enforce_ingest_size cfg n s w).1 = w.
Proof. unfold _enforce_ingest_size. by destruct (_ <=? _). Qed.
Lemma no_opaque_same m w : (no_opaque_meta m w).1 = w.
Proof. unfold no_opaque_meta. by destruct (dmem _ _). Qed.
Lemma ingest_exact data a opaque after w0 : art_ok w0 → grows (after (py_sha256_hexdigest data)) →
  triple (λ w, w = w0) (_ingest_bytes_internal cfg data a opaque after) (ingested w0 data opaque (in_session_id a)) (grown none w0).
Proof.
  intros Hok Ha. unfold _ingest_bytes_internal.
  eapply triple_bind; [apply check_exact; [done|apply size_same]|]. intros [].
  eapply triple_bind; [apply check_exact; [done|apply policy_same]|]. intros [].
  eapply triple_bind; [apply check_exact; [done|apply no_opaque_same]|]. intros [].
  eapply triple_bind; [apply (store_blob_exact _ data); [done|apply sha_hex|done|]|].
  { intros now d Hd Hb. destruct (cas_put_spec _ data now d Hd (sha_hex data) Hb eq_refl) as (d' & E & _ & Ep). eauto. }
  intros []. destruct opaque; by apply record_grown.
Qed.
Lemma ingest_grown data a opaque after w0 : grows (after (py_sha256_hexdigest data)) →
  triple (grown none w0) (_ingest_bytes_internal cfg data a opaque after)
    (λ r w, grown none w0 w ∧ ar_sha256 r = py_sha256_hexdigest data) (grown none w0).
Proof.
  intros Ha w Hw. pose proof (ingest_exact data a opaque after w (gr_ok _ _ _ Hw) Ha w eq_refl) as H.
  destruct (_ingest_bytes_internal cfg data a opaque after w) as [w' [r|e]]; [|by eapply grown_trans].
  destruct H as [[H _] [E _]]. split; [by eapply grown_trans|done].
Qed.

Lemma upsert_view_grown v w0 X s : vr_view_sha256 v = Some s → valid_sha s →
  triple (grown none w0) (upsert_view v) (λ _, grown none w0) X.
Proof.
  intros Ev Hs. apply triple_modify. intros w [[H1 H2 H3 H4 H5 H6 H7] G2 G3 G4]. split; [|done..]. split; try done.
  intros x t [(y & _ & _ & ->)|[[Hx _]| ->]]%upsert_elem; [congruence|by apply H5|congruence].
Qed.
Lemma ensure_view_grows r t p : grows (ensure_view cfg r t p).
Proof.
  unfold ensure_view, get_artifact. destruct (negb _); [apply grows_raise|].
  apply grows_bind; [apply resolve_grows|]. intros raw. apply grows_bind; [apply grows_gets|]. intros [m|]; [|apply grows_raise].
  destruct (is_opaque m); [apply grows_raise|]. apply grows_bind; [apply existing_view_grows|].
  intros [x|]; [apply grows_ret|]. apply grows_bind; [apply payload_grows|]. intros [payload mime] w0.
  eapply triple_bind; [apply ingest_grown; apply grows_ret|]. intros ref.
  apply triple_pure. intros Er. apply triple_bind with (λ _, grown none w0); [|by intros [] w].
  eapply (upsert_view_grown _ w0 (grown none w0) (py_sha256_hexdigest payload)); [simpl; by rewrite Er|apply sha_hex].
Qed.
Lemma auto_views_grows sha : grows (_auto_generate_views cfg sha).
Proof.
  unfold _auto_generate_views. induction (auto_generate cfg) as [|t l IH]; simpl; [apply grows_ret|].
  apply grows_bind; [apply grows_swallow, ensure_view_grows|]. by intros _.
Qed.
Lemma ingest_bytes_exact data a opaque w0 : art_ok w0 →
  triple (λ w, w = w0) (ingest_bytes cfg data a opaque) (ingested w0 data opaque (in_session_id a)) (grown none w0).
Proof.
  intros Hok. unfold ingest_bytes. destruct (opaque && _); [intros w ->; by apply grown_refl|].
  cbv zeta. match goal with |- triple _ (_ingest_bytes_internal _ _ ?b _ _) _ _ =>
    change (in_session_id a) with (in_session_id b) end.
  apply ingest_exact; [done|]. destruct opaque; [apply grows_ret|apply auto_views_grows].
Qed.
Lemma ingest_bytes_grows data a opaque : grows (ingest_bytes cfg data a opaque).
Proof.
  apply grows_exact. intros w0 Hok. eapply triple_weaken; [by apply ingest_bytes_exact|done| |done].
  by intros r w [[Hw _] _].
Qed.
Lemma ingest_file_grows path a : grows (ingest_file source_file cfg path a).
Proof.
  apply grows_exact. intros w0 Hok. unfold ingest_file.
  eapply triple_bind; [apply check_exact; [done|apply no_opaque_same]|]. intros [].
  destruct (source_file path) as [src|]; [|intros w ->; by apply grown_refl].
  eapply triple_bind; [apply check_exact; [done|apply size_same]|]. intros [].
  eapply triple_bind; [apply check_exact; [done|apply policy_same]|]. intros [].
  eapply triple_bind; [apply (store_blob_exact _ (sf_data src)); [done|apply sha_hex|done|]|].
  { intros now d Hd Hb. destruct (cas_put_spec _ (sf_data src) now d Hd (sha_hex _) Hb eq_refl) as (d' & _ & E & Ep). eauto. }
  intros []. eapply triple_weaken;
    [apply (record_grown _ _ _ _ _ _ _ _ _ w0 (sf_data src)); [apply sha_hex|apply auto_views_grows]|done| |done].
  by intros r w [[Hw _] _].
Qed.

(** ** Aliases and references *)

Lemma alias_set_grown name sha exp meta w0 : valid_sha sha →
  triple (grown none w0) (index_alias_set name sha exp meta) (λ _, grown none w0) (grown none w0).
Proof.
  intros Hs. unfold index_alias_set. eapply triple_bind; [apply now_grown|]. intros now.
  apply triple_modify. intros w [[H1 H2 H3 H4 H5 H6 H7] G2 G3 G4]. split; [|done..]. split; try done.
  intros x [(y & _ & _ & ->)|[[Hx _]| ->]]%upsert_elem; [done|by apply H4|done].
Qed.
Lemma default_expiry_grows e : grows (default_expiry cfg e).
Proof. unfold default_expiry. grow. Qed.
Lemma alias_set_grows alias r ow exp meta : grows (alias_set cfg alias r ow exp meta).
Proof.
  unfold alias_set. destruct (negb _); [apply grows_raise|]. apply grows_bind; [grow|]. intros e1.
  apply grows_bind; [apply alias_resolve_grows|]. intros ex. destruct (_ && _); [apply grows_raise|].
  intros w0. eapply triple_bind; [apply resolve_active_live|]. intros sha w [Hw Hl].
  apply (live_valid _ _ _ (gr_ok _ _ _ Hw)) in Hl. revert w Hw. eapply triple_bind; [apply default_expiry_grows|].
  intros e2. by apply alias_set_grown.
Qed.
Lemma alias_delete_grows alias : grows (alias_delete alias).
Proof.
  intros w0. apply triple_modify. intros w [[H1 H2 H3 H4 H5 H6 H7] G2 G3 G4]. split; [|done..]. split; try done.
  intros x [Hx _]%filter_elem. by apply H4.
Qed.
Lemma ref_add_grows ot oi r : grows (ref_add ot oi r).
Proof. unfold ref_add, _validate_owner_type, add_reference, iso_now. grow. Qed.
Lemma ref_remove_grows ot oi r : grows (ref_remove ot oi r).
Proof. unfold ref_remove, _validate_owner_type, remove_reference, iso_now. grow. Qed.
Lemma ref_remove_owner_grows ot oi : grows (ref_remove_owner ot oi).
Proof. unfold ref_remove_owner, _validate_owner_type, remove_references_for_owner, iso_now. grow. Qed.
End Ops.
