(* ===== verification/ArtifactRetention.v ===== *)
(** Deletion, garbage collection and purging of artifacts: they keep the invariant
    of the store, and what they leave alone. *)

From S2P Require Import Prelude PyValue Timestamps PyText Schedule BlobStore BlobStoreProps ArtifactIndex ArtifactText ArtifactCtl ArtifactProps.
From Stdlib Require Import Ascii.

Local Open Scope Z_scope.

Section Retention.
Context {Env : PyEnv} {Txt : TextEnv} (cfg : ArtifactConfig).

(** The bytes of a digest are where they were. *)
Definition bytes_kept (w0 w : ArtWorld) (s : string) : Prop :=
  ∀ f, f ∈ payloads (art_blobs w0) → bf_name f = s → f ∈ payloads (art_blobs w).
(** The invariant holds, the rows are among those of [w0], and a live artifact of
    [w0] that is [safe] is live and has its bytes. *)
Record shrunk (safe : string → Prop) (w0 w : ArtWorld) : Prop := {
  sh_ok : art_ok w;
  sh_rows : ∀ a, a ∈ artifacts w → ∃ b, b ∈ artifacts w0 ∧ same_artifact b a;
  sh_safe : ∀ s, safe s → live_sha w0 s → live_sha w s ∧ bytes_kept w0 w s;
}.
Lemma shrunk_refl safe w : art_ok w → shrunk safe w w.
Proof. intros H. split; [done| |]; [intros a Ha; by exists a|]. intros s _ Hl. split; [done|]. by intros f. Qed.
Lemma shrunk_same safe w0 w w' :
  artifacts w' = artifacts w → aliases w' = aliases w → artifact_views w' = artifact_views w →
  art_blobs w' = art_blobs w → shrunk safe w0 w → shrunk safe w0 w'.
Proof.
  intros E1 E2 E3 E4 [H1 H2 H3]. split; [by eapply store_ok_same| |]; unfold live_sha, bytes_kept; rewrite E1, ?E4; done.
Qed.

(** ** Single steps *)

Lemma soft_rows_live w shas at_ s :
  live_sha (set_artifacts (update_where (λ a, str_in (am_sha256 a) (List.filter (λ s, truthy (py_strip s)) shas)
    && live_row a) (row_deleted (Some at_))) w) s →
  live_sha w s ∧ (truthy (py_strip s) = true → s ∉ shas).
Proof.
  intros (a & Ha & <- & Hl). simpl in Ha. apply update_where_elem in Ha as (x & Hx & [[Hp ->]|[Hp ->]]); [done|].
  split; [by exists x|]. intros Ht Hin. rewrite Hl, andb_true_r in Hp. apply str_in_elem_false in Hp. apply Hp.
  apply filter_elem. done.
Qed.
Lemma soft_delete_eq shas at_ w :
  soft_delete_artifacts shas at_ w =
  (set_artifacts (update_where (λ a, str_in (am_sha256 a) (List.filter (λ s, truthy (py_strip s)) shas)
     && live_row a) (row_deleted (Some at_))) w,
   Ok (count_where (λ a, str_in (am_sha256 a) (List.filter (λ s, truthy (py_strip s)) shas) && live_row a) (artifacts w))).
Proof. done. Qed.
Lemma soft_rows_shrunk safe w0 w shas at_ : (∀ s, s ∈ shas → ¬ safe s) → shrunk safe w0 w →
  shrunk safe w0 (set_artifacts (update_where (λ a, str_in (am_sha256 a) (List.filter (λ s, truthy (py_strip s)) shas)
    && live_row a) (row_deleted (Some at_))) w).
Proof.
  intros Hs [[H1 H2 H3 H4 H5 H6 H7] G2 G3]. set (p := λ a, _). split.
  - split; simpl; try done.
    + by rewrite update_where_map.
    + intros a (x & Hx & [[_ ->]|[_ ->]])%update_where_elem; by apply (H3 x).
    + intros s [Hl _]%soft_rows_live. by apply H6.
    + intros s [(a & Ha & <-)|[]]%H7. left. destruct (p a) eqn:E.
      * exists (row_deleted (Some at_) a). split; [|done]. apply update_where_elem. exists a. auto.
      * exists a. split; [|done]. apply update_where_elem. exists a. auto.
  - intros a Ha. simpl in Ha. apply update_where_elem in Ha as (x & Hx & [[_ ->]|[_ ->]]); [|by apply G2].
    destruct (G2 x Hx) as (b & Hb & E1 & E2 & E3). by exists b.
  - intros s Hsafe [(a & Ha & <- & Hl) Hb]%G3; [|done]. split; [|done]. exists a. split; [|done]. simpl.
    apply update_where_elem. exists a. split; [done|]. right. split; [|done]. unfold p. rewrite Hl, andb_true_r.
    apply str_in_elem_false. intros [Hin _]%filter_elem. by apply (Hs _ Hin).
Qed.

Lemma set_views_shrunk safe w0 w f :
  (∀ v s, v ∈ f (artifact_views w) → vr_view_sha256 v = Some s →
     ∃ v', v' ∈ artifact_views w ∧ vr_view_sha256 v' = Some s) →
  shrunk safe w0 w → shrunk safe w0 (set_views f w).
Proof.
  intros Hf [[H1 H2 H3 H4 H5 H6 H7] G2 G3]. split; [|done..]. split; try done. simpl.
  intros v s Hv E. destruct (Hf v s Hv E) as (v' & Hv' & E'). by eapply H5.
Qed.
Lemma set_aliases_shrunk safe w0 w p : shrunk safe w0 w → shrunk safe w0 (set_aliases (List.filter p) w).
Proof.
  intros [[H1 H2 H3 H4 H5 H6 H7] G2 G3]. split; [|done..]. split; try done. simpl.
  intros x [Hx _]%filter_elem. by apply H4.
Qed.

(** Deleting the blob of a digest that is not live. *)
Lemma delete_blob_shrunk safe w0 s w : valid_sha s → ¬ live_sha w s → shrunk safe w0 w →
  ∃ w', delete_blob s w = (w', Ok ()) ∧ shrunk safe w0 w' ∧ artifacts w' = artifacts w ∧
    (∀ t, blob_in w' t ↔ blob_in w t ∧ t ≠ s).
Proof.
  intros Hv Hl [[H1 H2 H3 H4 H5 H6 H7] G2 G3]. destruct (delete_valid s (art_blobs w) Hv) as (d & Ed).
  exists (set_blobs d w). unfold delete_blob, blob_change, mbind, M_bind, get_world. simpl. rewrite Ed.
  destruct (delete_spec s (art_blobs w) d H1 Ed) as (h & Eh & Hd & Hf). rewrite normalize_valid in Eh by done.
  injection Eh as <-.
  assert (∀ t, has_blob d t ↔ has_blob (art_blobs w) t ∧ t ≠ s) as Ht.
  { intros t. unfold has_blob. setoid_rewrite Hf. clear. naive_solver. }
  split_and!; [done| |done|done]. split.
  - split; simpl; try done.
    + intros t Hlt. unfold blob_in. simpl. apply Ht. split; [by apply H6|]. intros ->. by apply Hl.
    + intros t [Hb _]%Ht. by apply H7.
  - done.
  - intros t Hsafe [Hlt Hk]%G3; [|done]. split; [done|]. intros f Hin <-. simpl. apply Hf. split; [by apply Hk|].
    intros <-. by apply Hl.
Qed.
Lemma delete_blobs_shrunk safe w0 shas : ∀ w, (∀ s, s ∈ shas → valid_sha s ∧ ¬ live_sha w s) → shrunk safe w0 w →
  ∃ w', each delete_blob shas w = (w', Ok ()) ∧ shrunk safe w0 w'.
Proof.
  induction shas as [|s l IH]; intros w Hs Hw; simpl; [by exists w|].
  destruct (Hs s) as [Hv Hl]; [by left|].
  destruct (delete_blob_shrunk safe w0 s w Hv Hl Hw) as (w1 & E & Hw1 & Ea & _). rewrite (bind_of_Ok _ _ w w1 () E).
  apply IH; [|done]. intros t Ht. unfold live_sha. rewrite Ea. apply Hs. by right.
Qed.

(** ** Derived views *)

Definition ticked (k : nat) (w : ArtWorld) : ArtWorld := set_art_counters (k + art_ticks w) (art_uuids w) w.
Lemma alias_shas_eq w : active_alias_shas w = (ticked 1 w,
  Ok (map al_sha256 (List.filter (alias_active (isoformat (py_clock (art_ticks w)))) (aliases w)))).
Proof. done. Qed.


Definition of_raws (shas : list string) (v : ViewRecord) : bool := str_in (vr_raw_sha256 v) shas && live_view v.
Lemma soft_views_eq shas at_ w :
  each (λ raw, soft_delete_views_for_raw raw at_) shas w =
  (set_views (update_where (of_raws shas) (view_deleted at_)) w, Ok ()).
Proof.
  revert w. induction shas as [|s l IH]; intros w.
  - simpl. f_equal. unfold set_views. rewrite (update_where_id (of_raws [])) by done. by destruct w.
  - simpl. unfold mbind, M_bind, soft_delete_views_for_raw at 1, modify. rewrite IH. f_equal. unfold set_views. simpl. f_equal.
    unfold update_where. rewrite map_map. apply map_ext. intros v. unfold of_raws, live_view. simpl.
    destruct (String.eqb (vr_raw_sha256 v) s) eqn:E, (vr_deleted_at v) eqn:Ed; simpl; rewrite ?Ed, ?andb_false_r; simpl;
      rewrite ?andb_false_r, ?andb_true_r; done.
Qed.

(** The world and the result of [_soft_delete_derived_views]. *)
Definition derived_candidates (w : ArtWorld) (shas : list string) : list string :=
  shas ≫= (λ raw, view_shas_of (views_of w raw false)).
Definition views_gone (shas : list string) (at_ : string) (w : ArtWorld) : ArtWorld :=
  set_views (update_where (of_raws shas) (view_deleted at_)) w.
Definition derived_protected (w : ArtWorld) : list string :=
  map re_sha256 (List.filter live_edge (reference_edges w))
  ++ map al_sha256 (List.filter (alias_active (isoformat (py_clock (art_ticks w)))) (aliases w))
  ++ omap vr_view_sha256 (List.filter live_view (artifact_views w)).
Definition derived_deletable (w : ArtWorld) (shas : list string) (at_ : string) : list string :=
  List.filter (λ s, negb (str_in s (derived_protected (views_gone shas at_ w)))) (derived_candidates w shas).
Lemma derived_eq shas at_ w :
  _soft_delete_derived_views shas at_ w =
  ((soft_delete_artifacts (derived_deletable w shas at_) at_ (ticked 1 (views_gone shas at_ w))).1,
   Ok (derived_deletable w shas at_)).
Proof.
  unfold _soft_delete_derived_views. rewrite bind_get_world. cbv zeta.
  rewrite (bind_of_Ok _ _ w _ _ (soft_views_eq shas at_ w)). fold (views_gone shas at_ w). done.
Qed.

Lemma candidates_valid w shas s : art_ok w → s ∈ derived_candidates w shas → valid_sha s.
Proof.
  intros Hw. unfold derived_candidates. rewrite list_elem_of_bind. intros (raw & Hs & _).
  apply list_elem_of_omap in Hs as (v & Hv & E). unfold views_of in Hv. rewrite sort_asc_elem in Hv.
  apply filter_elem in Hv as [Hv _]. destruct (vr_view_sha256 v) as [t|] eqn:Et; [|done].
  destruct (truthy t); [|done]. injection E as ->. by eapply ok_views.
Qed.
Lemma valid_strip_truthy s : valid_sha s → truthy (py_strip s) = true.
Proof. intros H. pose proof H as [_ Hx]%valid_sha_split. rewrite strip_hex by done. by apply valid_truthy. Qed.
Lemma derived_shrunk safe w0 shas at_ w :
  (∀ s, s ∈ derived_deletable w shas at_ → ¬ safe s) → shrunk safe w0 w →
  let w' := (_soft_delete_derived_views shas at_ w).1 in
  shrunk safe w0 w' ∧
  (∀ s, s ∈ derived_deletable w shas at_ → valid_sha s ∧ ¬ live_sha w' s) ∧ (∀ s, live_sha w' s → live_sha w s).
Proof.
  intros Hsafe Hw. rewrite derived_eq, soft_delete_eq. cbn [fst]. split_and!.
  - apply soft_rows_shrunk; [done|]. apply (shrunk_same _ _ (views_gone shas at_ w)); try done.
    apply set_views_shrunk; [|done]. intros v s (x & Hx & [[_ ->]|[_ ->]])%update_where_elem E; by exists x.
  - intros s Hs. assert (valid_sha s) as Hv.
    { unfold derived_deletable in Hs. apply filter_elem in Hs as [Hs _]. eapply candidates_valid; [apply Hw|done]. }
    split; [done|]. intros [_ Hn]%soft_rows_live. by apply Hn; [apply valid_strip_truthy|].
  - by intros s [Hl _]%soft_rows_live.
Qed.

(** ** Deletion *)

Lemma ticked_0 w : ticked 0 w = w.
Proof. by destruct w. Qed.
Lemma ticked_shrunk safe w0 k w : shrunk safe w0 w → shrunk safe w0 (ticked k w).
Proof. by apply shrunk_same. Qed.
Lemma resolve_cases r w : art_ok w →
  ∃ k res, _resolve_sha r w = (ticked k w, res) ∧ ∀ s, res = Ok s → valid_sha s.
Proof.
  intros Hw. unfold _resolve_sha. destruct (negb _); [exists 0%nat; eexists; rewrite ticked_0; split; [done|done]|].
  destruct (parse_ref_or_sha _) as [s|e] eqn:E.
  - exists 0%nat. eexists. rewrite ticked_0. split; [done|]. intros t [= <-]. by eapply parse_valid.
  - unfold index_alias_resolve, iso_now, mbind, M_bind, art_now, mret, M_ret, gets. simpl.
    exists 1%nat. destruct (List.find _ _) as [a|] eqn:Ea; eexists; (split; [done|]); [|done].
    intros s [= <-]. apply find_In in Ea as [Ha _]. by eapply ok_aliases.
Qed.
Lemma ctl_delete_shrunk r soft w : art_ok w → shrunk none w (ctl_delete r soft w).1.
Proof.
  intros Hw. unfold ctl_delete. destruct (resolve_cases r w Hw) as (k & res & E & Hv).
  destruct res as [sha|e].
  2: { rewrite (bind_of_Raise _ _ _ _ _ E). by apply ticked_shrunk, shrunk_refl. }
  rewrite (bind_of_Ok _ _ _ _ _ E). clear E. specialize (Hv sha eq_refl). set (w1 := ticked k w).
  rewrite (bind_of_Ok _ _ w1 (ticked 1 w1) (isoformat (py_clock (art_ticks w1))) eq_refl).
  set (now := isoformat _). set (w2 := ticked 1 w1).
  assert (shrunk none w w2) as H2 by by apply ticked_shrunk, ticked_shrunk, shrunk_refl.
  destruct (derived_shrunk none w [sha] now w2) as (H3 & Hder & _); [by intros ? _ []|done|].
  rewrite (bind_of_Ok _ _ _ _ _ (derived_eq [sha] now w2)). rewrite derived_eq in H3, Hder. cbn [fst] in H3, Hder.
  set (w3 := (soft_delete_artifacts _ _ _).1) in *. set (derived := derived_deletable w2 [sha] now) in *.
  rewrite (bind_of_Ok _ _ w3 w3 _ eq_refl).
  assert (∃ w4, (if str_in sha (omap vr_view_sha256 (List.filter live_view (artifact_views w3))) then mret ()
                 else _ ← soft_delete_artifacts [sha] now; if soft then mret () else delete_blob sha) w3 = (w4, Ok ()) ∧
            shrunk none w w4 ∧ ∀ s, live_sha w4 s → live_sha w3 s) as (w4 & E4 & H4 & Hl4).
  { destruct (str_in sha _); [by exists w3|]. rewrite (bind_of_Ok _ _ w3 _ _ (soft_delete_eq [sha] now w3)).
    set (w4 := set_artifacts _ _). assert (shrunk none w w4) as H4 by (apply soft_rows_shrunk; [by intros ? _ []|done]).
    assert (∀ s, live_sha w4 s → live_sha w3 s) as Hl4 by by intros s [Hl _]%soft_rows_live.
    destruct soft; [by exists w4|].
    destruct (delete_blob_shrunk none w sha w4 Hv) as (w5 & E5 & H5 & Ea & _); [|done|].
    - intros [_ Hn]%soft_rows_live. apply Hn; [by apply valid_strip_truthy|by left].
    - exists w5. split_and!; [done|done|]. intros s. unfold live_sha at 1. rewrite Ea. apply Hl4. }
  rewrite (bind_of_Ok _ _ w3 w4 () E4). destruct soft; [done|].
  destruct (delete_blobs_shrunk none w derived w4) as (w5 & E5 & H5); [|done|by rewrite E5].
  intros s Hs. destruct (Hder s Hs) as [Hvs Hns]. split; [done|]. by intros ?%Hl4.
Qed.

(** ** Garbage collection *)

(** The alias is active at the next [k] readings of the clock. *)
Definition active_during (w : ArtWorld) (k : nat) (a : AliasRecord) : Prop :=
  ∀ n, (art_ticks w ≤ n < art_ticks w + k)%nat → alias_active (isoformat (py_clock n)) a = true.
(** An owner or an alias holds on to the artifact. *)
Definition rooted (w : ArtWorld) (k : nat) (s : string) : Prop :=
  (∃ e, e ∈ reference_edges w ∧ live_edge e = true ∧ re_sha256 e = s) ∨
  (∃ a, a ∈ aliases w ∧ al_sha256 a = s ∧ active_during w k a).
Definition view_of_root (w : ArtWorld) (k : nat) (s : string) : Prop :=
  ∃ v, v ∈ artifact_views w ∧ live_view v = true ∧ vr_view_sha256 v = Some s ∧ rooted w k (vr_raw_sha256 v).

Lemma days_or_eq o c n w : ∃ r, days_or o c n w = (w, r).
Proof. unfold days_or. destruct o; [unfold lift_result|]; by eexists. Qed.
Lemma days_ago_eq d w : ∃ r, days_ago d w = (ticked 1 w, r).
Proof. unfold days_ago, mbind, M_bind, art_now. simpl. destruct (dt_add _ _); by eexists. Qed.
Lemma cutoff_eq (f : Z → string) d w : ∃ r, ((t ← days_ago d; mret (f t)) : AM string) w = (ticked 1 w, r).
Proof.
  destruct (days_ago_eq d w) as [[t|e] E]; [rewrite (bind_of_Ok _ _ _ _ _ E)|rewrite (bind_of_Raise _ _ _ _ _ E)]; by eexists.
Qed.

(** What [gc] protects, computed at the beginning. *)
Definition gc_roots_of (w : ArtWorld) : list string :=
  map re_sha256 (List.filter live_edge (reference_edges w))
  ++ map al_sha256 (List.filter (alias_active (isoformat (py_clock (art_ticks w)))) (aliases w)).
Lemma gc_tail eligible w :
  (now ← iso_now; marked ← soft_delete_artifacts eligible now; _ ← _soft_delete_derived_views eligible now; mret marked) w
  = (let now := isoformat (py_clock (art_ticks w)) in
     let '(w1, marked) := soft_delete_artifacts eligible now (ticked 1 w) in
     ((_soft_delete_derived_views eligible now w1).1, marked)).
Proof.
  rewrite (bind_of_Ok _ _ w (ticked 1 w) _ eq_refl). cbv zeta. rewrite soft_delete_eq.
  rewrite (bind_of_Ok _ _ _ _ _ (soft_delete_eq _ _ _)), derived_eq. by rewrite (bind_of_Ok _ _ _ _ _ (derived_eq _ _ _)).
Qed.
(** [gc] reads the clock, and then possibly marks artifacts none of which is a root
    or a view of one. *)
Lemma gc_world plan keep del w :
  (∃ k, (gc cfg plan keep del w).1 = ticked k w) ∨
  ∃ eligible now,
    (∀ s, s ∈ eligible → (s ∉ gc_roots_of w) ∧
       (∀ v, v ∈ artifact_views w → live_view v = true → vr_raw_sha256 v ∈ gc_roots_of w → vr_view_sha256 v = Some s →
         truthy s = false)) ∧
    (gc cfg plan keep del w).1
    = (_soft_delete_derived_views eligible now (soft_delete_artifacts eligible now (ticked 4 w)).1).1.
Proof.
  unfold gc. destruct (days_or_eq keep (keep_days cfg) "keep_days" w) as [[kd|e] E];
    [rewrite (bind_of_Ok _ _ _ _ _ E)|rewrite (bind_of_Raise _ _ _ _ _ E); left; exists 0%nat; by rewrite ticked_0].
  destruct (days_or_eq del (delete_unreferenced_after_days cfg) "delete_unreferenced_after_days" w) as [[da|e] E'];
    [rewrite (bind_of_Ok _ _ _ _ _ E')|rewrite (bind_of_Raise _ _ _ _ _ E'); left; exists 0%nat; by rewrite ticked_0].
  rewrite (bind_of_Ok _ _ w w _ eq_refl), (bind_of_Ok _ _ _ _ _ (alias_shas_eq w)).
  unfold recent_artifact_shas, cutoff_date. destruct (cutoff_eq (λ t, sql_date (isoformat t)) kd (ticked 1 w)) as [[c1|e] E1].
  2: { left. exists 2%nat. rewrite (bind_of_Raise _ _ _ (ticked 1 (ticked 1 w)) e); [done|]. by rewrite (bind_of_Raise _ _ _ _ _ E1). }
  erewrite (bind_of_Ok _ _ (ticked 1 w)); [|by rewrite (bind_of_Ok _ _ _ _ _ E1)]. rewrite bind_get_world. cbv zeta.
  match goal with |- context [eligible_for_gc da ?p] => set (protected := p) end.
  unfold eligible_for_gc, cutoff_date.
  destruct (cutoff_eq (λ t, sql_date (isoformat t)) da (ticked 1 (ticked 1 w))) as [[c2|e] E2].
  2: { left. exists 3%nat. by rewrite (bind_of_Raise _ _ _ (ticked 1 (ticked 1 (ticked 1 w))) e); [|rewrite (bind_of_Raise _ _ _ _ _ E2)]. }
  erewrite (bind_of_Ok _ _ (ticked 1 (ticked 1 w))); [|by rewrite (bind_of_Ok _ _ _ _ _ E2)].
  match goal with |- context [bool_decide (?l ≠ [])] => set (eligible := l) end.
  destruct (negb plan && _); [|left; by exists 3%nat]. right. exists eligible, (isoformat (py_clock (3 + art_ticks w))).
  split.
  2: { rewrite (bind_of_Ok _ _ _ _ _ (gc_tail eligible (ticked 1 (ticked 1 (ticked 1 w))))). done. }
  intros s Hs. unfold eligible in Hs. apply filter_elem in Hs as [_ Hs%negb_true_iff%str_in_elem_false].
  assert (∀ x, x ∈ gc_roots_of w → x ∈ gc_roots_of w ++ map am_sha256 (List.filter (λ a, live_row a && str_leb c1
    (sql_date (am_created_at a))) (artifacts w))) as Hk by (intros x Hx; apply elem_of_app; by left).
  split.
  - intros Hr%Hk. apply Hs. unfold protected. apply elem_of_app. by left.
  - intros v Hv Hl Hr%Hk Es. destruct (truthy s) eqn:Et; [|done]. exfalso. apply Hs. unfold protected.
    apply elem_of_app. right. apply list_elem_of_bind. exists (vr_raw_sha256 v). split; [|done].
    apply list_elem_of_omap. exists v. rewrite Es, Et. split; [|done]. unfold views_of. rewrite sort_asc_elem.
    apply filter_elem. split; [done|]. simpl. by rewrite String.eqb_refl, Hl.
Qed.

Lemma rooted_gc k w s : (0 < k)%nat → rooted w k s → s ∈ gc_roots_of w.
Proof.
  intros Hk [(e & He & Hl & <-)|(a & Ha & <- & Hact)]; apply elem_of_app; [left|right]; apply list_elem_of_In, in_map.
  - by apply list_elem_of_In, filter_elem.
  - apply list_elem_of_In, filter_elem. split; [done|]. apply Hact. lia.
Qed.
Lemma gc_shrunk plan keep del w : art_ok w →
  shrunk (λ s, rooted w 5 s ∨ view_of_root w 5 s) w (gc cfg plan keep del w).1.
Proof.
  intros Hw. set (safe := λ s, _). pose proof (shrunk_refl safe w Hw) as H0.
  destruct (gc_world plan keep del w) as [[k ->]|(eligible & now & Hel & ->)]; [by apply ticked_shrunk|].
  rewrite soft_delete_eq. cbn [fst].
  assert (∀ s, s ∈ eligible → ¬ safe s) as Hsafe.
  { intros s Hs [Hr|(v & Hv & Hl & Es & Hr)]; destruct (Hel s Hs) as [H1 H2].
    - apply H1. by apply (rooted_gc 5); [lia|].
    - pose proof (H2 v Hv Hl (rooted_gc 5 _ _ ltac:(lia) Hr) Es) as Ht.
      assert (valid_sha s) as Hvs by by eapply ok_views. by rewrite valid_truthy in Ht. }
  apply derived_shrunk; [|apply soft_rows_shrunk; [done|by apply ticked_shrunk]].
  intros s Hs Hsf. unfold derived_deletable in Hs. apply filter_elem in Hs as [_ Hs%negb_true_iff%str_in_elem_false].
  apply Hs. unfold derived_protected. destruct Hsf as [[(e & He & Hl & <-)|(a & Ha & <- & Hact)]|(v & Hv & Hl & Es & Hr)].
  - apply elem_of_app. left. by apply list_elem_of_In, in_map, list_elem_of_In, filter_elem.
  - apply elem_of_app. right. apply elem_of_app. left. apply list_elem_of_In, in_map, list_elem_of_In, filter_elem.
    split; [done|]. apply Hact. simpl. lia.
  - apply elem_of_app. right. apply elem_of_app. right. apply list_elem_of_omap. exists v. split; [|done].
    apply filter_elem. split; [|done]. simpl. apply update_where_elem. exists v. split; [done|]. right. split; [|done].
    unfold of_raws. rewrite Hl, andb_true_r. apply str_in_elem_false. intros Hin. destruct (Hel _ Hin) as [Hn _].
    apply Hn. by apply (rooted_gc 5); [lia|].
Qed.

(** ** Purging *)

Lemma each_triple {A} (P : ArtWorld → Prop) (f : A → AM ()) l :
  (∀ x, x ∈ l → triple P (f x) (λ _, P) P) → triple P (each f l) (λ _, P) P.
Proof.
  induction l as [|x l IH]; intros H; simpl; [by intros w|]. eapply triple_bind; [apply H; by left|].
  intros []. apply IH. intros y Hy. apply H. by right.
Qed.

(** No digest of [gone] is live, and those [handled] have no bytes. *)
Record purging (safe : string → Prop) (gone handled : list string) (w0 w : ArtWorld) : Prop := {
  pu_shrunk : shrunk safe w0 w;
  pu_gone : ∀ t, t ∈ gone → valid_sha t ∧ ¬ live_sha w t;
  pu_handled : ∀ t, t ∈ handled → ¬ blob_in w t;
}.
Lemma purging_same safe gone handled w0 w w' :
  artifacts w' = artifacts w → aliases w' = aliases w → artifact_views w' = artifact_views w →
  art_blobs w' = art_blobs w → purging safe gone handled w0 w → purging safe gone handled w0 w'.
Proof.
  intros E1 E2 E3 E4 [H1 H2 H3]. split; [by eapply shrunk_same| |]; unfold live_sha, blob_in; by rewrite ?E1, ?E4.
Qed.

Lemma purge_blobs_spec safe gone w0 shas : ∀ handled purged missing w,
  (∀ t, t ∈ shas → t ∈ gone) → purging safe gone handled w0 w →
  ∃ w' handled' p m, purge_blobs handled shas purged missing w = (w', Ok (handled', p, m)) ∧
    purging safe gone handled' w0 w' ∧ (∀ t, t ∈ handled ∨ t ∈ shas → t ∈ handled').
Proof.
  induction shas as [|s l IH]; intros handled purged missing w Hin Hw; simpl.
  { exists w, handled, purged, missing. split; [done|]. split; [done|]. intros t [Ht|Ht]; [done|inversion Ht]. }
  assert (∃ w1 h1 g, _purge_blob_sha handled s w = (w1, Ok (h1, g)) ∧ purging safe gone h1 w0 w1 ∧
            (∀ t, t ∈ handled ∨ t = s → t ∈ h1)) as (w1 & h1 & g & E & Hw1 & Hh).
  { unfold _purge_blob_sha. destruct (str_in s handled) eqn:Es.
    { exists w, handled, true. split; [done|]. split; [done|]. apply str_in_elem in Es. by intros t [Ht| ->]. }
    pose proof Hw as [[Hok G2 G3] H2 H3]. destruct (H2 s) as [Hv Hl]; [apply Hin; by left|].
    destruct (exists_spec (art_blobs w) s (ok_dir _ _ Hok) Hv) as (b & Eb & Hb).
    rewrite (bind_of_Ok _ _ w w b); [|unfold blob_present; by rewrite bind_get_world, Eb]. destruct b.
    - destruct (delete_blob_shrunk safe w0 s w Hv Hl) as (w1 & E1 & S1 & Ea & Hbl); [done|].
      exists w1, (s :: handled), true. rewrite (bind_of_Ok _ _ _ _ _ E1). split; [done|]. split.
      + split; [done|by unfold live_sha; rewrite Ea|]. intros t [->|Ht]%elem_of_cons [Hx Hne]%Hbl; [done|by apply (H3 t)].
      + intros t [Ht| ->]; [by right|by left].
    - exists w, (s :: handled), false. split; [done|]. split.
      + split; [done..|]. intros t [->|Ht]%elem_of_cons Hx; [by apply Hb in Hx|by apply (H3 t)].
      + intros t [Ht| ->]; [by right|by left]. }
  rewrite (bind_of_Ok _ _ _ _ _ E).
  destruct (IH h1 (if g then purged + 1 else purged) (if g then missing else missing + 1) w1) as (w2 & h2 & p & m & E2 & Hw2 & Hh2);
    [intros t Ht; apply Hin; by right|done|].
  exists w2, h2, p, m. split; [by destruct g|]. split; [done|]. intros t [Ht|[->|Ht]%elem_of_cons]; apply Hh2; auto.
Qed.

Lemma hard_view_triple safe gone handled w0 v X :
  triple (purging safe gone handled w0) (hard_delete_view v) (λ _, purging safe gone handled w0) X.
Proof.
  apply triple_modify. intros w [H1 H2 H3]. split; [|done..]. apply set_views_shrunk; [|done].
  intros x s [Hx _]%filter_elem E. by exists x.
Qed.
Lemma hard_artifact_triple safe gone handled w0 t X : t ∈ gone → t ∈ handled →
  triple (purging safe gone handled w0) (hard_delete_artifact t) (λ _, purging safe gone handled w0) X.
Proof.
  intros Hg Hh. apply triple_modify. intros w [[[H1 H2 H3 H4 H5 H6 H7] G2 G3] P2 P3].
  set (l := List.filter (λ a, negb (has_sha t a && is_some (am_deleted_at a))) (artifacts w)).
  assert (∀ a, a ∈ l → a ∈ artifacts w) as Hl by by intros a [Ha _]%filter_elem.
  assert (∀ s, live_sha (set_artifacts (λ _, l) w) s ↔ live_sha w s) as Hlive.
  { intros s. split; intros (a & Ha & Hs); exists a; (split; [|done]); [by apply Hl|].
    apply filter_elem. split; [done|]. destruct Hs as [_ Hs]. unfold live_row in Hs. destruct (is_some _); [done|].
    by rewrite andb_false_r. }
  split; [split; [split| |]; simpl; try done| |done].
  - by apply NoDup_map_filter.
  - intros a Ha%Hl. by apply H3.
  - intros s Hs%Hlive. by apply H6.
  - intros s Hb. destruct (H7 s Hb) as [(a & Ha & <-)|[]]. left. exists a. split; [|done]. apply filter_elem.
    split; [done|]. unfold has_sha. destruct (String.eqb_spec (am_sha256 a) t) as [E|]; [|done].
    exfalso. apply (P3 t Hh). by rewrite <-E.
  - intros a Ha%Hl. by apply G2.
  - intros s Hs Hls. destruct (G3 s Hs Hls) as [L1 L2]. split; [by apply Hlive|done].
  - intros x Hx. destruct (P2 x Hx) as [Hv Hn]. split; [done|]. by intros ?%Hlive.
Qed.

(** Why [purge] leaves an artifact alone: it is held on to, a live view is made of it,
    or no deleted view is. *)
Definition purge_safe (w : ArtWorld) (s : string) : Prop :=
  rooted w 2 s ∨ (∃ v, v ∈ artifact_views w ∧ live_view v = true ∧ vr_view_sha256 v = Some s) ∨
  (∀ v, v ∈ artifact_views w → vr_view_sha256 v = Some s → live_view v = true).

Lemma mark_triple safe w0 shas v : (∀ s, s ∈ shas → ¬ safe s) →
  triple (shrunk safe w0) (mark_view_artifact shas v) (λ _, shrunk safe w0) (shrunk safe w0).
Proof.
  intros Hs. unfold mark_view_artifact, view_hit. destruct (vr_view_sha256 v) as [s|]; [|by intros w].
  destruct (str_in s shas) eqn:Es; [|by intros w]. apply str_in_elem in Es.
  apply triple_bind with (λ _, shrunk safe w0).
  { destruct (otruthy _); [by intros w|]. intros w Hw. by apply (shrunk_same _ _ w). }
  intros at_ w Hw. rewrite (bind_of_Ok _ _ _ _ _ (soft_delete_eq _ _ _)). simpl default.
  apply soft_rows_shrunk; [|done]. intros t ->%list_elem_of_singleton. by apply Hs.
Qed.
Lemma gone_ok safe w0 w rows (p : string → bool) :
  shrunk safe w0 w → (∀ a, a ∈ rows → a ∈ artifacts w ∧ live_row a = false) →
  purging safe (List.filter p (map am_sha256 rows)) [] w0 w.
Proof.
  intros Hw Hr. split; [done| |by intros t Ht; inversion Ht]. intros t [Ht _]%filter_elem.
  apply list_elem_of_In, in_map_iff in Ht as (a & <- & Ha%list_elem_of_In). destruct (Hr a Ha) as [Hin Hl].
  split; [by eapply ok_shas; [apply Hw|]|]. intros (b & Hb & Es & Hlb).
  rewrite (row_unique _ _ _ _ (sh_ok _ _ _ Hw) Hb Hin Es) in Hlb. congruence.
Qed.

Lemma purge_both_spec safe first gone hs w0 w : (∀ t, t ∈ hs → t ∈ gone) → purging safe gone [] w0 w →
  ∃ w' handled r, purge_both first gone hs w = (w', Ok r) ∧ purging safe gone handled w0 w' ∧ (∀ t, t ∈ gone → t ∈ handled).
Proof.
  intros Hs Hw. unfold purge_both. destruct first.
  - destruct (purge_blobs_spec safe gone w0 hs [] 0 0 w Hs Hw) as (w1 & h1 & p1 & m1 & E1 & H1 & _).
    destruct (purge_blobs_spec safe gone w0 gone h1 0 0 w1 (λ _ x, x) H1) as (w2 & h2 & p2 & m2 & E2 & H2 & Hh).
    rewrite (bind_of_Ok _ _ _ _ _ E1), (bind_of_Ok _ _ _ _ _ E2). eexists _, _, _. split; [done|]. split; [done|]. auto.
  - destruct (purge_blobs_spec safe gone w0 gone [] 0 0 w (λ _ x, x) Hw) as (w1 & h1 & p1 & m1 & E1 & H1 & Hh1).
    destruct (purge_blobs_spec safe gone w0 hs h1 0 0 w1 Hs H1) as (w2 & h2 & p2 & m2 & E2 & H2 & Hh).
    rewrite (bind_of_Ok _ _ _ _ _ E1), (bind_of_Ok _ _ _ _ _ E2). eexists _, _, _. split; [done|]. split; [done|].
    intros t Ht. apply Hh. left. apply Hh1. by right.
Qed.

Lemma purge_rest_shrunk safe w0 grace views protected view_shas :
  triple (shrunk safe w0) (purge_rest cfg grace views protected view_shas) (λ _, shrunk safe w0) (shrunk safe w0).
Proof.
  intros w Hw. unfold purge_rest, purgeable_artifacts, cutoff_of.
  destruct (cutoff_eq isoformat grace w) as [[c|e] E].
  2: { rewrite (bind_of_Raise _ _ w (ticked 1 w) e); [by apply ticked_shrunk|]. by rewrite (bind_of_Raise _ _ _ _ _ E). }
  erewrite (bind_of_Ok _ _ w); [|by rewrite (bind_of_Ok _ _ _ _ _ E)]. cbv zeta.
  set (rows := List.filter (λ a, deleted_by c (am_deleted_at a)) (artifacts (ticked 1 w))).
  set (gone := List.filter (λ s, negb (str_in s protected)) (map am_sha256 rows)).
  assert (purging safe gone [] w0 (ticked 1 w)) as Hp.
  { apply gone_ok; [by apply ticked_shrunk|]. intros a [Ha Hd]%filter_elem. split; [done|]. unfold live_row.
    unfold deleted_by in Hd. by destruct (am_deleted_at a). }
  set (hs := hits _ _). assert (∀ t, t ∈ hs → t ∈ gone) as Hs.
  { intros t (v & Hv & E')%list_elem_of_omap. apply filter_elem in Hv as [_ Hv]. unfold view_hit in Hv. rewrite E' in Hv.
    apply str_in_elem, filter_elem in Hv as [_ Hv%str_in_elem]. done. }
  destruct (purge_both_spec safe (delete_views_first cfg) gone hs w0 (ticked 1 w) Hs Hp) as (w2 & h & [[pv pb] ms] & E2 & H2 & Hh).
  rewrite (bind_of_Ok _ _ _ _ _ E2). revert w2 E2 H2. intros w2 _.
  apply (triple_bind (purging safe gone h w0) _ (λ _, purging safe gone h w0) (shrunk safe w0)).
  { eapply triple_weaken; [apply (each_triple (purging safe gone h w0)); intros v _; apply hard_view_triple|done|done|apply pu_shrunk]. }
  intros []. apply (triple_bind _ _ (λ _, purging safe gone h w0)).
  { eapply triple_weaken; [apply (each_triple (purging safe gone h w0)); intros t Ht; apply hard_artifact_triple; [done|by apply Hh]|done|done|apply pu_shrunk]. }
  intros []. apply (triple_bind _ _ (λ _, shrunk safe w0)).
  { intros w3 [H3 _ _]. unfold hard_delete_expired_aliases, cutoff_of. destruct (cutoff_eq isoformat grace w3) as [[c3|e] E3];
      [rewrite (bind_of_Ok _ _ _ _ _ E3)|rewrite (bind_of_Raise _ _ _ _ _ E3)]; [|by apply ticked_shrunk].
    by apply set_aliases_shrunk, ticked_shrunk. }
  intros []. apply (triple_bind _ _ (λ _, shrunk safe w0)); [|by intros [] w5].
  intros w4 H4. unfold hard_delete_reference_tombstones, cutoff_of. destruct (cutoff_eq isoformat grace w4) as [[c4|e] E4];
    [rewrite (bind_of_Ok _ _ _ _ _ E4)|rewrite (bind_of_Raise _ _ _ _ _ E4)]; [|by apply ticked_shrunk].
  by apply (shrunk_same _ _ (ticked 1 w4)); [..|apply ticked_shrunk].
Qed.

Lemma purge_shrunk g w : art_ok w → shrunk (purge_safe w) w (purge cfg g w).1.
Proof.
  intros Hw. pose proof (shrunk_refl (purge_safe w) w Hw) as H0. unfold purge.
  destruct (days_or_eq g (purge_grace_days cfg) "grace_days" w) as [[grace|e] E];
    [rewrite (bind_of_Ok _ _ _ _ _ E)|by rewrite (bind_of_Raise _ _ _ _ _ E)].
  unfold purgeable_views, retained_view_shas, cutoff_of. destruct (cutoff_eq isoformat grace w) as [[c1|e] E1].
  2: { rewrite (bind_of_Raise _ _ w (ticked 1 w) e); [by apply ticked_shrunk|]. by rewrite (bind_of_Raise _ _ _ _ _ E1). }
  erewrite (bind_of_Ok _ _ w); [|by rewrite (bind_of_Ok _ _ _ _ _ E1)].
  set (views := List.filter _ (artifact_views (ticked 1 w))).
  rewrite (bind_of_Ok _ _ (ticked 1 w) _ _ eq_refl), (bind_of_Ok _ _ _ _ _ (alias_shas_eq (ticked 1 w))).
  destruct (cutoff_eq isoformat grace (ticked 1 (ticked 1 w))) as [[c2|e] E2].
  2: { rewrite (bind_of_Raise _ _ _ (ticked 1 (ticked 1 (ticked 1 w))) e); [by do 3 apply ticked_shrunk|].
       by rewrite (bind_of_Raise _ _ _ _ _ E2). }
  erewrite (bind_of_Ok _ _ (ticked 1 (ticked 1 w))); [|by rewrite (bind_of_Ok _ _ _ _ _ E2)]. cbv zeta.
  match goal with |- context [purge_rest _ _ _ ?p _] => set (protected := p) end.
  set (view_shas := List.filter _ (view_shas_of views)).
  assert (∀ s, s ∈ view_shas → ¬ purge_safe w s) as Hsafe.
  { intros s Hs. unfold view_shas in Hs. apply filter_elem in Hs as [Hs Hn%negb_true_iff%str_in_elem_false].
    apply list_elem_of_omap in Hs as (v & Hv & Es). destruct (vr_view_sha256 v) as [t|] eqn:Et; [|done].
    destruct (truthy t); [|done]. injection Es as ->. apply filter_elem in Hv as [Hv Hd].
    intros [[(e & He & Hl & <-)|(a & Ha & <- & Hact)]|[(v' & Hv' & Hl & Es)|Hno]].
    - apply Hn, elem_of_app. left. by apply list_elem_of_In, in_map, list_elem_of_In, filter_elem.
    - apply Hn, elem_of_app. right. apply elem_of_app. left. apply list_elem_of_In, in_map, list_elem_of_In, filter_elem.
      split; [done|]. apply Hact. simpl. lia.
    - apply Hn, elem_of_app. right. apply elem_of_app. right. apply list_elem_of_omap. exists v'. split; [|done].
      apply filter_elem. split; [done|]. unfold live_view in Hl. by destruct (vr_deleted_at v').
    - specialize (Hno v Hv Et). unfold live_view in Hno. unfold deleted_by in Hd. by destruct (vr_deleted_at v). }
  assert (triple (shrunk (purge_safe w) w)
    (_ ← each (mark_view_artifact view_shas) views; purge_rest cfg grace views protected view_shas)
    (λ _, shrunk (purge_safe w) w) (shrunk (purge_safe w) w)) as H.
  { eapply triple_bind; [apply each_triple; intros v _; by apply mark_triple|]. intros []. apply purge_rest_shrunk. }
  specialize (H (ticked 1 (ticked 1 (ticked 1 w)))). 
  match goal with |- shrunk _ _ (?x).1 => destruct x as [w' [r|e]] end; apply H; by do 3 apply ticked_shrunk.
Qed.
End Retention.
