(* ===== verification/ArtifactUse.v ===== *)
(** The artifact store over any sequence of requests: it verifies, what was ingested
    can be read, collection and purging keep what is in use, and an opaque input
    stays with its session. *)

From S2P Require Import Prelude PyValue Timestamps PyText Schedule BlobStore BlobStoreProps ArtifactIndex ArtifactText ArtifactCtl ArtifactProps ArtifactRetention.
From Stdlib Require Import Ascii.
From stdpp Require Import relations.

Local Open Scope Z_scope.

Inductive art_op : Type :=
| AoIngest (data : string) (a : Ingest) (opaque : bool)
| AoIngestFile (path : string) (a : Ingest)
| AoRead (ref_or_sha : string) (session_id : option string)
| AoView (ref_or_sha view_type : string) (policy : dict)
| AoReadView (ref_or_sha view_type : string)
| AoAliasSet (alias ref_or_sha : string) (overwrite : bool) (expires_at : option string) (meta : option dict)
| AoAliasDelete (alias : string)
| AoAddEdges (owner_type owner_id : string) (values : pyval)
| AoRemoveEdges (owner_type owner_id : string) (values : pyval)
| AoRemoveOwner (owner_type owner_id : string)
| AoGc (plan_only : bool) (keep delete_after : option Z)
| AoDelete (ref_or_sha : string) (soft : bool)
| AoPurge (grace : option Z).

Definition art_empty : ArtWorld :=
  {| artifacts := []; artifact_views := []; aliases := []; reference_edges := [];
     art_blobs := {| payloads := []; sidecars := [] |}; art_events := []; art_ticks := 0; art_uuids := 0 |}.

Section Use.
Context {Env : PyEnv} {Txt : TextEnv} (source_file : string → option SourceFile) (cfg : ArtifactConfig).

(** The store after a request, whether it returned or raised. *)
Definition art_exec (op : art_op) (w : ArtWorld) : ArtWorld :=
  match op with
  | AoIngest data a opaque => (ingest_bytes cfg data a opaque w).1
  | AoIngestFile path a => (ingest_file source_file cfg path a w).1
  | AoRead r s => (read_bytes r s w).1
  | AoView r t p => (ensure_view cfg r t p w).1
  | AoReadView r t => (read_view cfg r t w).1
  | AoAliasSet alias r o e m => (alias_set cfg alias r o e m w).1
  | AoAliasDelete alias => (alias_delete alias w).1
  | AoAddEdges t i v => (add_reference_edges t i v w).1
  | AoRemoveEdges t i v => (remove_reference_edges t i v w).1
  | AoRemoveOwner t i => (ref_remove_owner t i w).1
  | AoGc p k d => (gc cfg p k d w).1
  | AoDelete r s => (ctl_delete r s w).1
  | AoPurge g => (purge cfg g w).1
  end.
Definition art_step (w w' : ArtWorld) : Prop := ∃ op, w' = art_exec op w.

(** [hashlib.sha256(...).hexdigest()] is 64 lower-case hexadecimal digits. *)
Definition sha_is_hex : Prop := ∀ data, valid_sha (py_sha256_hexdigest data).

Lemma grows_step {A} (m : AM A) w : grows m → art_ok w → grown none w (m w).1.
Proof.
  intros H Hw. specialize (H w w (grown_refl _ _ Hw)). by destruct (m w) as [w' [a|e]].
Qed.
Lemma targets_grow (f : string → AM ()) v : (∀ t, grows (f t)) → grows (for_targets f v).
Proof.
  intros H. unfold for_targets. induction (normalize_artifact_ref_targets v) as [|t l IH]; simpl; [apply grows_ret|].
  by apply grows_bind.
Qed.
Lemma read_view_grows r t : sha_is_hex → grows (read_view cfg r t).
Proof.
  intros Hs. unfold read_view. apply grows_bind; [by apply ensure_view_grows|]. intros ref.
  apply grows_bind; [apply read_bytes_grows|]. intros raw. destruct (String.eqb _ _); [|apply grows_ret].
  destruct (match utf8_decode raw with Some t => _ | None => _ end); [apply grows_ret|apply grows_raise].
Qed.
(** A request either only adds, or only removes. *)
Lemma exec_cases op w : sha_is_hex → art_ok w →
  grown none w (art_exec op w) ∨ shrunk none w (art_exec op w).
Proof.
  intros Hs Hw.
  assert (∀ safe w', shrunk safe w w' → shrunk none w w') as Hn by (intros safe w' [H1 H2 _]; split; [done..|by intros s []]).
  destruct op; cbn [art_exec]. 1-10: left; apply grows_step; [|done].
  - by apply ingest_bytes_grows.
  - by apply ingest_file_grows.
  - apply read_bytes_grows.
  - by apply ensure_view_grows.
  - by apply read_view_grows.
  - apply alias_set_grows.
  - apply alias_delete_grows.
  - apply targets_grow. intros t. apply ref_add_grows.
  - apply targets_grow. intros t. apply ref_remove_grows.
  - apply ref_remove_owner_grows.
  - right. eapply Hn, gc_shrunk, Hw.
  - right. by apply ctl_delete_shrunk.
  - right. eapply Hn, purge_shrunk, Hw.
Qed.
Lemma exec_ok op w : sha_is_hex → art_ok w → art_ok (art_exec op w).
Proof. intros Hs Hw. by destruct (exec_cases op w Hs Hw) as [[H _ _ _]|[H _ _]]. Qed.
Lemma reachable_ok w w' : sha_is_hex → art_ok w → rtc art_step w w' → art_ok w'.
Proof. intros Hs Hw H. induction H as [|w w1 w2 [op ->] _ IH]; [done|]. apply IH. by apply exec_ok. Qed.
Lemma empty_ok : art_ok art_empty.
Proof.
  assert (∀ A (x : A), x ∉ @nil A) as Hnil by (intros A x H; inversion H).
  split; simpl; try (intros ? H; by apply Hnil in H).
  - split; [intros f H; by apply Hnil in H|constructor].
  - constructor.
  - intros v s H. by apply Hnil in H.
  - intros s (a & H & _). by apply Hnil in H.
  - intros s (f & H & _). by apply Hnil in H.
Qed.

(** ** Verification *)

Lemma filter_none {A} (p : A → bool) l : (∀ x, x ∈ l → p x = false) → List.filter p l = [].
Proof.
  induction l as [|x l IH]; intros H; simpl; [done|]. rewrite (H x) by (by left). apply IH. intros y Hy. apply H. by right.
Qed.
Lemma row_issue_none w a : art_ok w → a ∈ artifacts w → live_row a = true → row_issue (art_blobs w) a w = (w, Ok None).
Proof.
  intros Hw Ha Hl. pose proof (ok_shas _ _ Hw a Ha) as Hv. pose proof (ok_dir _ _ Hw) as Hd.
  assert (has_blob (art_blobs w) (am_sha256 a)) as Hb by (apply (ok_live _ _ Hw); by exists a).
  destruct (exists_spec _ _ Hd Hv) as (b & Eb & Hbb). assert (b = true) as -> by by apply Hbb.
  destruct (open_spec _ _ Hd Hv Hb) as (f & Hf & En & Eo). destruct Hd as [Hd _]. destruct (Hd f Hf) as (_ & _ & Eh).
  unfold row_issue. rewrite Eb, Eo. unfold mbind, M_bind. simpl. by rewrite Eh, En, String.eqb_refl.
Qed.
Lemma row_issues_none w rows : art_ok w → (∀ a, a ∈ rows → a ∈ artifacts w ∧ live_row a = true) →
  row_issues (art_blobs w) rows w = (w, Ok []).
Proof.
  intros Hw. induction rows as [|a l IH]; intros H; simpl; [done|]. destruct (H a) as [Ha Hl]; [by left|].
  rewrite (bind_of_Ok _ _ _ _ _ (row_issue_none w a Hw Ha Hl)), (bind_of_Ok _ _ w w []); [done|].
  apply IH. intros x Hx. apply H. by right.
Qed.

(** C23: whatever requests an artifact store has served since it was empty, a
    verification of all of it finds nothing wrong: every live artifact has its
    bytes, the bytes have the digest that names them, and no bytes are without an
    entry. *)
Theorem artifact_store_verifies w : sha_is_hex → rtc art_step art_empty w →
  ∃ report, verify None w = (w, Ok report) ∧ ve_failed report = 0%nat ∧ ve_issues report = [] ∧
    ve_checked report = count_where live_row (artifacts w) ∧ ve_ok report = Z.of_nat (ve_checked report).
Proof.
  intros Hs Hr. pose proof (reachable_ok _ _ Hs empty_ok Hr) as Hw.
  set (rows := sort_asc am_created_at (List.filter (λ a, false || live_row a) (artifacts w))).
  assert (List.filter (λ s, negb (str_in s (map am_sha256 (sort_asc am_created_at (List.filter (λ a, true || live_row a)
    (artifacts w)))))) (list_sha256 (art_blobs w)) = []) as Ho.
  { apply filter_none. intros s Hin. apply negb_false_iff, str_in_elem.
    apply list_sha256_spec in Hin; [|apply Hw]. apply (ok_indexed _ _ Hw) in Hin as [(a & Ha & <-)|[]].
    apply list_elem_of_In, in_map, list_elem_of_In. rewrite sort_asc_elem. by apply filter_elem. }
  unfold verify, str_or. change (String.eqb "all" "all") with true. cbv iota.
  rewrite (bind_of_Ok _ _ w w rows eq_refl), (bind_of_Ok _ _ w w _ eq_refl), bind_get_world, Ho.
  unfold build_verify_report. rewrite bind_get_world, (bind_of_Ok _ _ w w []).
  2: { apply row_issues_none; [done|]. intros a Ha. unfold rows in Ha. rewrite sort_asc_elem in Ha. by apply filter_elem in Ha. }
  eexists. split; [done|]. simpl. assert (length rows = count_where live_row (artifacts w)) as El.
  { unfold rows, count_where. by rewrite (Permutation_length (sort_asc_perm _ _)). }
  rewrite El, Nat.add_0_r. split_and!; [done..|lia].
Qed.

(** ** Reading what was ingested *)

Lemma prefix_app p s : String.prefix p (p +:+ s) = true.
Proof. induction p as [|c p IH]; simpl; [by destruct s|]. by destruct (ascii_dec c c). Qed.
Lemma resolve_ref s w : valid_sha s → _resolve_sha (sha_to_ref s) w = (w, Ok s).
Proof.
  intros Hv. pose proof Hv as [Hl Hx]%valid_sha_split.
  assert (py_strip (sha_to_ref s) = sha_to_ref s) as Es.
  { apply strip_no_space. unfold sha_to_ref. rewrite str_all_app. apply andb_true_iff. split; [done|].
    eapply str_all_impl; [|done]. apply hex_not_space. }
  unfold _resolve_sha. rewrite Es. change (negb (truthy (sha_to_ref s))) with false. cbv iota.
  unfold parse_ref_or_sha. rewrite Es. unfold py_removeprefix, py_startswith, sha_to_ref. rewrite prefix_app.
  rewrite str_length_app, Nat.add_comm, Nat.add_sub, substring_app, Hl, lower_hex, Hx by done. done.
Qed.
Lemma find_row w a : art_ok w → a ∈ artifacts w → find_artifact w (am_sha256 a) true = Some a.
Proof.
  intros Hw Ha. unfold find_artifact. destruct (List.find _ _) as [b|] eqn:E.
  - apply find_In in E as [Hb E]. unfold has_sha in E. bsplit. f_equal. by eapply row_unique.
  - apply find_none with (x := a) in E; [|by apply list_elem_of_In]. unfold has_sha in E. by rewrite String.eqb_refl in E.
Qed.
Lemma find_live_row w a : art_ok w → a ∈ artifacts w → live_row a = true → find_artifact w (am_sha256 a) false = Some a.
Proof.
  intros Hw Ha Hl. unfold find_artifact. destruct (List.find _ _) as [b|] eqn:E.
  - apply find_In in E as [Hb E]. unfold has_sha in E. bsplit. f_equal. by eapply row_unique.
  - apply find_none with (x := a) in E; [|by apply list_elem_of_In]. unfold has_sha in E. by rewrite String.eqb_refl, Hl in E.
Qed.
(** The sessions that may read an artifact: all, unless it is an opaque input, and then
    the session that it belongs to. *)
Definition may_read (a : ArtifactMeta) (session : option string) : bool :=
  negb (is_opaque a) || otruthy session && ostr_eqb session (am_session_id a).
Lemma read_live w a r session : art_ok w → a ∈ artifacts w → live_row a = true → may_read a session = true →
  _resolve_sha r w = (w, Ok (am_sha256 a)) →
  ∃ f, f ∈ payloads (art_blobs w) ∧ bf_name f = am_sha256 a ∧ read_bytes r session w = (w, Ok (bf_data f)).
Proof.
  intros Hw Ha Hl Ho Er. pose proof (ok_shas _ _ Hw a Ha) as Hv. pose proof (ok_dir _ _ Hw) as Hd.
  assert (has_blob (art_blobs w) (am_sha256 a)) as Hb by (apply (ok_live _ _ Hw); by exists a).
  destruct (exists_spec _ _ Hd Hv) as (b & Eb & Hbb). assert (b = true) as -> by by apply Hbb.
  destruct (open_spec _ _ Hd Hv Hb) as (f & Hf & En & Eo). exists f. split_and!; [done..|].
  unfold read_bytes. rewrite (bind_of_Ok _ _ w w (am_sha256 a)).
  2: { unfold _resolve_active_sha. rewrite (bind_of_Ok _ _ _ _ _ Er), (bind_of_Ok _ _ w w (Some a)); [done|].
       unfold get_artifact, gets. by rewrite find_live_row. }
  rewrite (bind_of_Ok _ _ w w a); [|by apply ctl_get_of_valid; [|apply find_row]].
  assert (is_opaque a && (negb (otruthy session) || negb (ostr_eqb session (am_session_id a))) = false) as ->.
  { unfold may_read in Ho. destruct (is_opaque a), (otruthy session), (ostr_eqb session (am_session_id a)); done. }
  rewrite (bind_of_Ok _ _ w w true); [|unfold blob_present; by rewrite bind_get_world, Eb].
  unfold negb. cbv iota. unfold mbind, M_bind, get_world. by rewrite Eo.
Qed.

(** C26: what was ingested can be read back by the reference that was returned, by
    every session when it is an ordinary input, and by the session that it belongs to
    when it is an opaque one; that is the session that ingested it, unless the index
    already had an entry of the digest (whose session it keeps).  The bytes are those
    given when the store had none of that digest, and have the digest of those given in
    any case; an artifact that had been marked for deletion is live again. *)
Theorem ingest_then_read w data a opaque w' r session :
  sha_is_hex → rtc art_step art_empty w → ingest_bytes cfg data a opaque w = (w', Ok r) →
  let sha := py_sha256_hexdigest data in
  ∃ x, x ∈ artifacts w' ∧ am_sha256 x = sha ∧ live_row x = true ∧ is_opaque x = opaque ∧
    (¬ has_row w sha → am_session_id x = in_session_id a) ∧
    (may_read x session = true →
     ∃ d, read_bytes (ar_ref r) session w' = (w', Ok d) ∧ py_sha256_hexdigest d = sha ∧ (¬ blob_in w sha → d = data)).
Proof.
  intros Hs Hr H sha. pose proof (reachable_ok _ _ Hs empty_ok Hr) as Hw.
  pose proof (ingest_bytes_exact source_file cfg Hs data a opaque w Hw w eq_refl) as Hi. rewrite H in Hi.
  destruct Hi as [[Hg ((x & Hx & Ex & Hl) & (f & Hf & Ef & Hdata) & b & Hb & [Eb Hown] & Ho)] [_ Eref]].
  pose proof (gr_ok _ _ _ Hg) as Hw'.
  assert (b = x) as -> by (eapply row_unique; [exact Hw'|done..|congruence]).
  exists x. split_and!; [done..|]. intros Hmay.
  destruct (read_live w' x (ar_ref r) session Hw' Hx Hl Hmay) as (g & Hg' & En & Eread).
  { rewrite Eref, Ex. apply resolve_ref, Hs. }
  exists (bf_data g). split; [done|]. destruct (ok_dir _ _ Hw') as [Hd Hn]. destruct (Hd g Hg') as (_ & _ & Eh).
  split; [unfold sha; congruence|]. intros Hnb. rewrite <-(Hdata Hnb). f_equal.
  apply list_elem_of_lookup in Hf as [i Hi], Hg' as [j Hj]. assert (i = j) as ->; [|congruence].
  eapply (NoDup_lookup _ _ _ _ Hn); rewrite list_lookup_fmap, ?Hi, ?Hj; simpl; [done|]. by rewrite En, Ex, Ef.
Qed.

(** ** Collection and purging *)

(** C24: garbage collection never marks what is in use: a live artifact that an
    owner refers to, that an alias names while it runs, or that is a view of such
    an artifact is live afterwards and its bytes are untouched. *)
Theorem gc_keeps_roots w plan keep del w' r s :
  sha_is_hex → rtc art_step art_empty w → gc cfg plan keep del w = (w', r) → live_sha w s →
  rooted w 5 s ∨ view_of_root w 5 s → live_sha w' s ∧ bytes_kept w w' s.
Proof.
  intros Hs Hr H Hl Hroot. pose proof (reachable_ok _ _ Hs empty_ok Hr) as Hw.
  pose proof (gc_shrunk cfg plan keep del w Hw) as [_ _ Hsafe]. rewrite H in Hsafe. by apply Hsafe.
Qed.

(** Purging removes no live artifact and no bytes of one, unless the only views
    made of it are deleted ones and nobody holds on to it. *)
Theorem purge_keeps_live w grace w' r s :
  sha_is_hex → rtc art_step art_empty w → purge cfg grace w = (w', r) → live_sha w s → purge_safe w s →
  live_sha w' s ∧ bytes_kept w w' s.
Proof.
  intros Hs Hr H Hl Hp. pose proof (reachable_ok _ _ Hs empty_ok Hr) as Hw.
  pose proof (purge_shrunk cfg grace w Hw) as [_ _ Hsafe]. rewrite H in Hsafe. by apply Hsafe.
Qed.

(** ** Opaque inputs *)

(** A request after which the artifact is still indexed. *)
Definition held (s : string) (w w' : ArtWorld) : Prop := art_step w w' ∧ has_row w' s.
Lemma held_keeps w w' a : sha_is_hex → art_ok w → a ∈ artifacts w → held (am_sha256 a) w w' →
  ∃ b, b ∈ artifacts w' ∧ same_artifact a b.
Proof.
  intros Hs Hw Ha [[op ->] (b & Hb & Eb)]. destruct (exec_cases op w Hs Hw) as [G|S]; [by apply G|].
  destruct (sh_rows _ _ _ S b Hb) as (c & Hc & Hsame). exists b. split; [done|].
  assert (c = a) as ->; [|done]. eapply row_unique; [done..|]. destruct Hsame as [E _]. congruence.
Qed.
Lemma held_all w w' a : sha_is_hex → art_ok w → a ∈ artifacts w → rtc (held (am_sha256 a)) w w' →
  art_ok w' ∧ ∃ b, b ∈ artifacts w' ∧ same_artifact a b.
Proof.
  intros Hs Hw Ha H. remember (am_sha256 a) as s eqn:Es. revert a Ha Es.
  induction H as [w|w w1 w2 H1 _ IH]; intros a Ha ->; [split; [done|by exists a]|].
  destruct (held_keeps w w1 a Hs Hw Ha H1) as (b & Hb & Hsame). destruct H1 as [[op ->] _].
  destruct (IH (exec_ok op w Hs Hw) b Hb) as (Hw2 & c & Hc & Hsame'); [by destruct Hsame|].
  split; [done|]. exists c. split; [done|]. destruct Hsame as (E1 & E2 & E3), Hsame' as (F1 & F2 & F3).
  split_and!; congruence.
Qed.

Lemma get_eq s inc w x : find_artifact w s inc = x → get_artifact s inc w = (w, Ok x).
Proof. intros <-. done. Qed.
Lemma bind_raised {A B} (m : AM A) (f : A → AM B) w w' e : m w = (w', Raise e) → ∃ e', ((m ≫= f) w).2 = Raise e'.
Proof. intros E. exists e. by rewrite (bind_of_Raise _ _ _ _ _ E). Qed.

(** The refusals, at an opaque row [b] of a well-formed store. *)
Section Opaque.
Context (w : ArtWorld) (b : ArtifactMeta) (Hw : art_ok w) (Hb : b ∈ artifacts w) (Ho : is_opaque b = true).
Lemma opaque_unread r session : (_resolve_sha r w).2 = Ok (am_sha256 b) →
  otruthy session = false ∨ session ≠ am_session_id b → ∃ e, (read_bytes r session w).2 = Raise e.
Proof.
  intros Er Hses. destruct (resolve_cases r w Hw) as (k & res & E & _). rewrite E in Er. simpl in Er. subst res.
  unfold read_bytes. destruct (find_artifact (ticked k w) (am_sha256 b) false) as [x|] eqn:Ef.
  2: { eapply bind_raised. unfold _resolve_active_sha.
       by rewrite (bind_of_Ok _ _ _ _ _ E), (bind_of_Ok _ _ _ _ _ (get_eq _ _ _ _ Ef)). }
  rewrite (bind_of_Ok _ _ w (ticked k w) (am_sha256 b)).
  2: { unfold _resolve_active_sha. by rewrite (bind_of_Ok _ _ _ _ _ E), (bind_of_Ok _ _ _ _ _ (get_eq _ _ _ _ Ef)). }
  rewrite (bind_of_Ok _ _ _ _ _ (ctl_get_of_valid _ (ticked k w) b (ok_shas _ _ Hw b Hb) (find_row w b Hw Hb))), Ho.
  destruct Hses as [->|Hne]; [by eexists|]. destruct (ostr_eqb session (am_session_id b)) eqn:Eo.
  - by apply ostr_eqb_eq in Eo.
  - rewrite orb_true_r. by eexists.
Qed.
Lemma opaque_no_view r t p : (_resolve_sha r w).2 = Ok (am_sha256 b) → ∃ e, (ensure_view cfg r t p w).2 = Raise e.
Proof.
  intros Er. destruct (resolve_cases r w Hw) as (k & res & E & _). rewrite E in Er. simpl in Er. subst res.
  unfold ensure_view. destruct (negb _); [by eexists|].
  rewrite (bind_of_Ok _ _ _ _ _ E), (bind_of_Ok _ _ _ _ _ (get_eq _ _ _ _ eq_refl)).
  destruct (find_artifact _ _ false) as [x|] eqn:Ef; [|by eexists].
  assert (x = b) as ->; [|rewrite Ho; by eexists].
  apply find_In in Ef as [Hx Ex]. unfold has_sha in Ex. bsplit. by eapply (row_unique _ w).
Qed.
Lemma opaque_no_reingest data i : py_sha256_hexdigest data = am_sha256 b → ∃ e, (ingest_bytes cfg data i false w).2 = Raise e.
Proof.
  intros Ed. unfold ingest_bytes. cbn [andb]. generalize (_auto_generate_views cfg). intros after.
  unfold _ingest_bytes_internal, _enforce_ingest_size. cbv zeta.
  destruct (_ <=? _); [|by eexists]. rewrite (bind_of_Ok _ _ w w () eq_refl).
  eapply bind_raised. unfold _check_ingest_policy. rewrite Ed, (bind_of_Ok _ _ _ _ _ (get_eq _ _ _ _ (find_row w b Hw Hb))).
  by rewrite Ho.
Qed.
End Opaque.

(** C25: an opaque input stays with the session that handed it in: whatever requests
    follow while it is indexed, its entry keeps its owner and its policy; under any
    name another session cannot read it, no view of it can be made, and its bytes
    cannot be ingested again as an ordinary input. *)
Theorem opaque_input_private w w' a session :
  sha_is_hex → rtc art_step art_empty w → a ∈ artifacts w → is_opaque a = true → rtc (held (am_sha256 a)) w w' →
  otruthy session = false ∨ session ≠ am_session_id a →
  (∃ b, b ∈ artifacts w' ∧ same_artifact a b) ∧
  (∀ r, (_resolve_sha r w').2 = Ok (am_sha256 a) →
     (∃ e, (read_bytes r session w').2 = Raise e) ∧ ∀ t p, ∃ e, (ensure_view cfg r t p w').2 = Raise e) ∧
  (∀ data i, py_sha256_hexdigest data = am_sha256 a → ∃ e, (ingest_bytes cfg data i false w').2 = Raise e).
Proof.
  intros Hs Hr Ha Ho Hheld Hses. pose proof (reachable_ok _ _ Hs empty_ok Hr) as Hw0.
  destruct (held_all w w' a Hs Hw0 Ha Hheld) as (Hw & b & Hb & Hsame). split; [by exists b|].
  pose proof (same_opaque a b Hsame) as Ho'. rewrite Ho in Ho'. destruct Hsame as (E1 & E2 & _). rewrite <-E1.
  rewrite <-E2 in Hses. split; [|intros data i; by apply opaque_no_reingest].
  intros r Er. split; [by apply (opaque_unread w' b)|]. intros t p. by apply (opaque_no_view w' b).
Qed.
End Use.
