(* ===== verification/ArtifactDemo.v ===== *)
(** Runs of the artifact store: the concrete inputs at which its theorems apply, and
    what the code does not prevent. *)

From S2P Require Import Prelude PyValue Timestamps PyText IsoText Schedule BlobStore BlobStoreProps BlobGc ArtifactIndex ArtifactText ArtifactCtl ArtifactProps ArtifactRetention ArtifactUse.
From Stdlib Require Import Ascii.
From stdpp Require Import relations.

Local Open Scope Z_scope.

(** ** A world to run in *)

Definition hex_char (z : Z) : ascii := default "0"%char (String.get (Z.to_nat (z mod 16)) "0123456789abcdef").
Fixpoint hexn (n : nat) (z : Z) : string :=
  match n with O => "" | S n' => String (hex_char z) (hexn n' (z / 16)) end.
Fixpoint toy_fold (acc : Z) (s : string) : Z :=
  match s with EmptyString => acc | String c s' => toy_fold ((acc * 257 + Z.of_N (N_of_ascii c) + 1) mod (16 ^ 64)) s' end.

(** A day passes between two readings of the clock; texts are their own encoding. *)
#[local] Instance art_env : PyEnv :=
  {| py_clock n := (739180 + Z.of_nat n) * us_per_day; py_uuid4 n := "id-" +:+ pretty n;
     py_sha256_hexdigest s := hexn 64 (toy_fold 7 s); py_re_search _ _ := None; py_url_hostname _ := None;
     py_path_expanduser s := s; py_fromisoformat s := option_map (λ t, (t, Some 0)) (read_iso s) |}.
#[local] Instance art_txt : TextEnv :=
  {| utf8_decode s := Some s; utf8_decode_replace s := s; utf8_encode s := s; json_loads s := Raise "no JSON";
     csv_reader _ s := Ok [[s]]; mime_guess _ := None; path_suffix _ := "" |}.

Lemma hex_char_hex z : is_hex_lower (hex_char z) = true.
Proof.
  unfold hex_char. pose proof (Z.mod_pos_bound z 16 ltac:(lia)). assert (Z.to_nat (z mod 16) < 16)%nat as Hn by lia.
  revert Hn. generalize (Z.to_nat (z mod 16)). intros n Hn. do 16 (destruct n as [|n]; [done|]). lia.
Qed.
Lemma hexn_length n z : String.length (hexn n z) = n.
Proof. revert z. induction n as [|n IH]; intros z; simpl; [done|by rewrite IH]. Qed.
Lemma hexn_hex n z : str_all is_hex_lower (hexn n z) = true.
Proof. revert z. induction n as [|n IH]; intros z; simpl; [done|by rewrite hex_char_hex, IH]. Qed.
Lemma demo_sha_hex : sha_is_hex.
Proof. intros data. apply valid_sha_split. split; [apply hexn_length|apply hexn_hex]. Qed.

Definition no_files (path : string) : option SourceFile := None.
Definition demo_cfg (views : list string) : ArtifactConfig :=
  {| max_ingest_bytes := 1000; auto_generate := views; table_max_rows := 200; digest_max_chars := 2000;
     digest_max_lines := 80; text_max_chars := 20000; json_max_chars := 20000; expire_default_days := 30;
     keep_days := 14; delete_unreferenced_after_days := 7; purge_grace_days := 7; delete_views_first := true;
     store_original_path := false; redaction_enabled := true |}.
Definition from_session (s : string) : Ingest :=
  {| in_mime := None; in_original_name := None; in_original_path := None; in_label := None; in_meta := None;
     in_session_id := Some s; in_trace_id := None; in_agent_id := None; in_retrieve := true |}.
(** The requests [ops] in order. *)
Definition runs (cfg : ArtifactConfig) (ops : list art_op) (w : ArtWorld) : ArtWorld :=
  fold_left (λ w op, art_exec no_files cfg op w) ops w.
Lemma runs_steps cfg ops w : rtc (art_step no_files cfg) w (runs cfg ops w).
Proof.
  revert w. induction ops as [|op ops IH]; intros w; simpl; [done|]. eapply rtc_l; [by exists op|apply IH].
Qed.
(** A collection that is only planned: some days pass. *)
Definition days_pass : list art_op := replicate 10 (AoGc true None None).
Definition sha (data : string) : string := py_sha256_hexdigest data.
Definition data_of (r : ArtWorld * result art_exn string) : option string :=
  match r.2 with Ok d => Some d | Raise _ => None end.

(** ** Witnesses *)

(** A digest was made of each of two inputs, an owner refers to the second, and some
    days later a collection marks the first. *)
Definition cfg_digest : ArtifactConfig := demo_cfg ["digest"].
Definition w_before : ArtWorld :=
  runs cfg_digest
    ([AoIngest "alpha" (from_session "s1") false; AoIngest "beta" (from_session "s1") false;
      AoAddEdges "session" "s1" (PStr (sha "beta"))] ++ days_pass) art_empty.
Definition w_used : ArtWorld := art_exec no_files cfg_digest (AoGc false None None) w_before.
Lemma w_used_runs : rtc (art_step no_files cfg_digest) art_empty w_used.
Proof. eapply rtc_r; [apply runs_steps|by exists (AoGc false None None)]. Defined.

Definition no_row : ArtifactMeta := Build_ArtifactMeta "" 0 "" "" None None None None None None None None None.
Definition row_at (w : ArtWorld) (i : nat) : ArtifactMeta := default no_row (artifacts w !! i).
Lemma live_at w i s :
  match artifacts w !! i with Some a => live_row a && String.eqb (am_sha256 a) s | None => false end = true → live_sha w s.
Proof.
  destruct (artifacts w !! i) as [a|] eqn:E; [|done]. intros [H1 H2%String.eqb_eq]%andb_true_iff.
  exists a. split_and!; [by eapply list_elem_of_lookup_2|done|done].
Defined.
Definition lives (w : ArtWorld) : list (string * bool) := map (λ a, (am_sha256 a, live_row a)) (artifacts w).

Lemma artifact_store_verifies_witness :
  count_where live_row (artifacts w_used) = 2%nat ∧ length (artifacts w_used) = 4%nat ∧
  ∃ report, verify None w_used = (w_used, Ok report) ∧ ve_failed report = 0%nat ∧ ve_issues report = [] ∧
    ve_checked report = count_where live_row (artifacts w_used) ∧ ve_ok report = Z.of_nat (ve_checked report).
Proof.
  split; [vm_compute; reflexivity|]. split; [vm_compute; reflexivity|].
  apply (artifact_store_verifies no_files cfg_digest w_used).
  - apply demo_sha_hex.
  - apply w_used_runs.
Defined.

(** The bytes of a marked input come back: the entry is live again. *)
Definition w_again : ArtWorld * result art_exn ArtifactRef := ingest_bytes cfg_digest "alpha" (from_session "s2") false w_used.
Definition ref_again : ArtifactRef :=
  match w_again.2 with Ok r => r | Raise _ => Build_ArtifactRef "" "" "" 0 "" None None end.
Lemma ingest_then_read_witness :
  ∃ x d, x ∈ artifacts w_again.1 ∧ is_opaque x = false ∧
    read_bytes (ar_ref ref_again) (Some "s3") w_again.1 = (w_again.1, Ok d) ∧
    py_sha256_hexdigest d = py_sha256_hexdigest "alpha".
Proof.
  destruct (ingest_then_read no_files cfg_digest w_used "alpha" (from_session "s2") false w_again.1 ref_again (Some "s3"))
    as (x & Hx & _ & _ & Ho & _ & Hread); [apply demo_sha_hex|apply w_used_runs|vm_compute; reflexivity|].
  destruct Hread as (d & Hd & Es & _); [unfold may_read; rewrite Ho; reflexivity|].
  exists x, d. exact (conj Hx (conj Ho (conj Hd Es))).
Defined.

Lemma gc_keeps_roots_witness :
  length (artifacts w_before) = 4%nat ∧
  let w' := (gc cfg_digest false None None w_before).1 in
  count_where live_row (artifacts w') = 2%nat ∧ live_sha w' (sha "beta") ∧ bytes_kept w_before w' (sha "beta").
Proof.
  split; [vm_compute; reflexivity|]. split; [vm_compute; reflexivity|].
  apply (gc_keeps_roots no_files cfg_digest w_before false None None _ (gc cfg_digest false None None w_before).2 (sha "beta")).
  - apply demo_sha_hex.
  - apply runs_steps.
  - apply surjective_pairing.
  - apply (live_at _ 2). vm_compute. reflexivity.
  - left. left. exists (default (Build_ReferenceEdge "" "" "" "" "" None) (reference_edges w_before !! 0%nat)).
    split; [|split; vm_compute; reflexivity]. apply list_elem_of_lookup. exists 0%nat. vm_compute. reflexivity.
Defined.

Definition w_late : ArtWorld := runs cfg_digest days_pass w_used.
Lemma purge_keeps_live_witness :
  let w' := (purge cfg_digest None w_late).1 in
  lives w' = [(sha "beta", true); (am_sha256 (row_at w_used 3), true)] ∧
  length (payloads (art_blobs w_late)) = 4%nat ∧ length (payloads (art_blobs w')) = 2%nat ∧
  live_sha w' (sha "beta") ∧ bytes_kept w_late w' (sha "beta").
Proof.
  split; [vm_compute; reflexivity|]. split; [vm_compute; reflexivity|]. split; [vm_compute; reflexivity|].
  apply (purge_keeps_live no_files cfg_digest w_late None _ (purge cfg_digest None w_late).2 (sha "beta")).
  - apply demo_sha_hex.
  - transitivity w_used; [apply w_used_runs|apply runs_steps].
  - apply surjective_pairing.
  - apply (live_at _ 2). vm_compute. reflexivity.
  - left. left. exists (default (Build_ReferenceEdge "" "" "" "" "" None) (reference_edges w_late !! 0%nat)).
    split; [|split; vm_compute; reflexivity]. apply list_elem_of_lookup. exists 0%nat. vm_compute. reflexivity.
Defined.

(** An input handed in by one session, which another session then asks for. *)
Definition w_secret : ArtWorld := runs cfg_digest [AoIngest "secret" (from_session "s1") true] art_empty.
Definition w_asked : ArtWorld := runs cfg_digest [AoRead (sha_to_ref (sha "secret")) (Some "s2")] w_secret.
Lemma opaque_input_private_witness :
  (∃ b, b ∈ artifacts w_asked ∧ same_artifact (row_at w_secret 0) b) ∧
  (∀ r, (_resolve_sha r w_asked).2 = Ok (am_sha256 (row_at w_secret 0)) →
     (∃ e, (read_bytes r (Some "s2") w_asked).2 = Raise e) ∧
     ∀ t p, ∃ e, (ensure_view cfg_digest r t p w_asked).2 = Raise e) ∧
  (∀ data i, py_sha256_hexdigest data = am_sha256 (row_at w_secret 0) →
     ∃ e, (ingest_bytes cfg_digest data i false w_asked).2 = Raise e).
Proof.
  apply (opaque_input_private no_files cfg_digest w_secret w_asked (row_at w_secret 0) (Some "s2")).
  - apply demo_sha_hex.
  - apply runs_steps.
  - apply list_elem_of_lookup. exists 0%nat. vm_compute. reflexivity.
  - vm_compute. reflexivity.
  - eapply rtc_l; [|apply rtc_refl]. split; [by exists (AoRead (sha_to_ref (sha "secret")) (Some "s2"))|].
    exists (row_at w_asked 0). split; [apply list_elem_of_lookup; exists 0%nat|]; vm_compute; reflexivity.
  - right. vm_compute. discriminate.
Defined.
Example secret_read_by_owner : data_of (read_bytes (sha_to_ref (sha "secret")) (Some "s1") w_asked) = Some "secret".
Proof. vm_compute. reflexivity. Qed.

(** Payloads of twenty, five and ten bytes, the largest the oldest, and a budget of
    twenty-five bytes. *)
Definition blob (data : string) : BlobFile :=
  {| bf_shard := shard_of (sha data); bf_name := sha data; bf_data := data |}.
Definition d_full : BlobDir :=
  {| payloads := [blob "aaaaaaaaaaaaaaaaaaaa"; blob "bbbbb"; blob "cccccccccc"]; sidecars := [] |}.
Definition demo_mtime (f : BlobFile) : Z := - file_size f * us_per_day.
Definition budget : dict := [("dry_run", PBool false); ("max_total_bytes", PInt 25)].
Definition gc_out : BlobDir * BlobGcReport :=
  match blob_gc demo_mtime 0 budget d_full with Ok r => r | Raise _ => (d_full, Build_BlobGcReport true 0 0 [] 0 0) end.
Lemma blob_gc_within_budget_witness :
  map bf_data (payloads gc_out.1) = ["bbbbb"; "cccccccccc"] ∧
  (0 <= 25 → owned_bytes gc_out.1 <= 25) ∧ bg_deleted_bytes gc_out.2 = owned_bytes d_full - owned_bytes gc_out.1 ∧
  ∃ hs, payloads gc_out.1 = List.filter (λ f, negb (in_hashes hs f)) (payloads d_full) ∧
    ∀ h, h ∈ hs →
      (0 <= -1 ∧ -1 * us_per_day <= 0 - u_oldest (unit_of demo_mtime d_full h)) ∨
      (0 <= 25 < owned_bytes d_full ∧
       ∀ k, k ∈ group_hashes d_full → k ∉ hs → unit_le (unit_of demo_mtime d_full h) (unit_of demo_mtime d_full k)).
Proof.
  split; [vm_compute; reflexivity|]. apply (blob_gc_within_budget demo_mtime 0 budget d_full gc_out.1 gc_out.2 (-1) 25).
  - vm_compute. reflexivity.
  - vm_compute. reflexivity.
  - reflexivity.
  - reflexivity.
Defined.

(** ** What the code does not prevent *)

(** A file whose name only begins with a digest is taken for its payload: writing the
    blob is skipped, its reader gets the other bytes, and deleting the blob leaves it
    there. *)
Definition d_backup : BlobDir :=
  {| payloads := [{| bf_shard := shard_of (sha "alpha"); bf_name := sha "alpha" +:+ "backup"; bf_data := "junk" |}];
     sidecars := [] |}.
Theorem unrelated_file_taken_for_blob :
  owned (sha "alpha") (default (blob "") (payloads d_backup !! 0%nat)) = false ∧
  cas_put_bytes (sha "alpha") "alpha" "now" d_backup = Ok d_backup ∧
  blob_open d_backup (sha "alpha") = Ok "junk" ∧
  match blob_delete (sha "alpha") d_backup with Ok d => blob_exists d (sha "alpha") | Raise e => Raise e end = Ok true.
Proof. vm_compute. auto. Qed.

(** The text of a short plain input is the input, so that the view of it is the
    artifact itself.  A collection marks both; ingesting the input again revives the
    artifact and not the record of the view, and the next purge, which removes
    records of views that were deleted long ago, destroys the live artifact. *)
Definition text_view : list art_op := [AoIngest "alpha" (from_session "s1") false; AoView (sha "alpha") "text" []].
Definition w_revived : ArtWorld :=
  runs cfg_digest (text_view ++ days_pass ++ [AoGc false None None] ++ days_pass
                   ++ [AoIngest "alpha" (from_session "s2") false]) art_empty.
Theorem purge_destroys_live_artifact :
  live_sha w_revived (sha "alpha") ∧ data_of (read_bytes (sha "alpha") None w_revived) = Some "alpha" ∧
  let w := (purge cfg_digest None w_revived).1 in
  str_in (sha "alpha") (map am_sha256 (artifacts w)) = false ∧ data_of (read_bytes (sha "alpha") None w) = None.
Proof. split; [apply (live_at _ 0)|]; vm_compute; auto. Qed.

(** Ingesting an input again revives its entry with the time it was first ingested,
    so that the next collection marks what was stored a moment ago. *)
Definition w_old : ArtWorld :=
  runs cfg_digest ([AoIngest "alpha" (from_session "s1") false] ++ days_pass
                   ++ [AoGc false None None; AoIngest "alpha" (from_session "s2") false]) art_empty.
Theorem reingest_keeps_age :
  live_sha w_old (sha "alpha") ∧ lives (gc cfg_digest false None None w_old).1 = map (λ p, (p.1, false)) (lives w_old).
Proof. split; [apply (live_at _ 0)|]; vm_compute; reflexivity. Qed.

(** A collection marks an input that was ingested today, well within [keep_days],
    when its bytes are also those of a view of an artifact that is old. *)
Definition card : string := "call 4111111111111111".
Definition w_twin : ArtWorld :=
  runs cfg_digest ([AoIngest card (from_session "s1") false] ++ days_pass
                   ++ [AoIngest "call [REDACTED_NUMBER]" (from_session "s2") false; AoView (sha card) "text" []]) art_empty.
Theorem gc_collects_recent_twin :
  let w := (gc cfg_digest false None None w_twin).1 in
  am_sha256 (row_at w_twin 2) = sha "call [REDACTED_NUMBER]" ∧ live_row (row_at w_twin 2) = true ∧
  live_row (row_at w_twin 3) = true ∧ live_row (row_at w 2) = false ∧ live_row (row_at w 3) = true.
Proof. vm_compute. auto. Qed.

(** A second session that hands in the same opaque bytes is given their reference,
    and cannot read by it: the entry keeps the first session. *)
Theorem opaque_second_session_locked_out :
  let r := ingest_bytes cfg_digest "secret" (from_session "s2") true w_secret in
  match r.2 with Ok ref => String.eqb (ar_ref ref) (sha_to_ref (sha "secret")) | Raise _ => false end = true ∧
  data_of (read_bytes (sha_to_ref (sha "secret")) (Some "s2") r.1) = None ∧
  data_of (read_bytes (sha_to_ref (sha "secret")) (Some "s1") r.1) = Some "secret".
Proof. vm_compute. auto. Qed.

(** An address that follows another one and a character an address may hold is left
    in the text. *)
Theorem adjacent_email_survives :
  _redact_text "alice@example.com-bob@example.org" = "[REDACTED_EMAIL]-bob@example.org".
Proof. vm_compute. reflexivity. Qed.
