(* ===== verification/CommandParser.v ===== *)
(** Shell commands: the splitting of a text into words ([shlex.split]), the parser of
    tools/exec/command_parser.py, and the classification of commands in
    modules/tool/commands.py and modules/tool/runtime/command_patterns.py.

    The parser goes over the text by an index; here it goes over the characters that
    are left, with the number of characters still to be passed over ([skip]), the
    index, and the text since the last operator ([cur], the code's
    [raw[segment_start:idx]]). *)

From S2P Require Import Prelude PyValue PyText.
From Stdlib Require Import Ascii.

Definition is_char (s : string) (c : ascii) : bool := str_mem c s.
Definition snoc (s : string) (c : ascii) : string := s +:+ String c "".

(** ** [shlex.split] *)

(** The state of the lexer: between words, in a word, in quotes, and after an escape,
    with the state to go back to. *)
Inductive lex_state : Type := LSpace | LWord | LQuote (q : ascii) | LEscape (back : option ascii).

Definition SQUOTE : ascii := "'".
Definition DQUOTE : ascii := "034".
Definition BACKSLASH : ascii := "\".
Definition NEWLINE : ascii := "010".

(** [shlex.whitespace] and [shlex.quotes] *)
Definition lex_space (c : ascii) : bool :=
  Ascii.eqb c " " || Ascii.eqb c "009" || Ascii.eqb c "013" || Ascii.eqb c NEWLINE.
Definition lex_quote (c : ascii) : bool := Ascii.eqb c SQUOTE || Ascii.eqb c DQUOTE.

(** [posix=True]; an error is the text of the [ValueError]. *)
Fixpoint lex (st : lex_state) (token : string) (s : string) : result string (list string) :=
  match s with
  | EmptyString =>
      match st with
      | LSpace => Ok []
      | LWord => Ok [token]
      | LQuote _ => Raise "No closing quotation"
      | LEscape _ => Raise "No escaped character"
      end
  | String c s' =>
      match st with
      | LSpace =>
          if lex_space c then lex LSpace "" s'
          else if Ascii.eqb c BACKSLASH then lex (LEscape None) "" s'
          else if lex_quote c then lex (LQuote c) "" s'
          else lex LWord (String c "") s'
      | LWord =>
          if lex_space c then words ← lex LSpace "" s'; Ok (token :: words)
          else if lex_quote c then lex (LQuote c) token s'
          else if Ascii.eqb c BACKSLASH then lex (LEscape None) token s'
          else lex LWord (snoc token c) s'
      | LQuote q =>
          if Ascii.eqb c q then lex LWord token s'
          else if Ascii.eqb c BACKSLASH && Ascii.eqb q DQUOTE then lex (LEscape (Some q)) token s'
          else lex (LQuote q) (snoc token c) s'
      | LEscape None => lex LWord (snoc token c) s'
      | LEscape (Some q) =>
          if negb (Ascii.eqb c BACKSLASH) && negb (Ascii.eqb c q)
          then lex (LQuote q) (snoc (snoc token BACKSLASH) c) s'
          else lex (LQuote q) (snoc token c) s'
      end
  end.
Definition shlex_split (s : string) : result string (list string) := lex LSpace "" s.

(** [posix=False]: quotes are kept and end a word they begin. *)
Fixpoint lex_plain (st : lex_state) (token : string) (s : string) : result string (list string) :=
  match s with
  | EmptyString =>
      match st with
      | LSpace => Ok []
      | LQuote _ => Raise "No closing quotation"
      | _ => Ok [token]
      end
  | String c s' =>
      match st with
      | LSpace =>
          if lex_space c then lex_plain LSpace "" s'
          else if lex_quote c then lex_plain (LQuote c) (String c "") s'
          else lex_plain LWord (String c "") s'
      | LQuote q =>
          if Ascii.eqb c q then words ← lex_plain LSpace "" s'; Ok (snoc token c :: words)
          else lex_plain (LQuote q) (snoc token c) s'
      | _ =>
          if lex_space c then words ← lex_plain LSpace "" s'; Ok (token :: words)
          else lex_plain LWord (snoc token c) s'
      end
  end.
Definition shlex_split_plain (s : string) : result string (list string) := lex_plain LSpace "" s.

(** [shlex.quote] and [shlex.join] *)
Definition shlex_safe (c : ascii) : bool :=
  let n := N_of_ascii c in
  ((48 <=? n) && (n <=? 57) || (65 <=? n) && (n <=? 90) || (97 <=? n) && (n <=? 122))%N || is_char "_@%+=:,./-" c.
(** A single quote, between the end and the beginning of single quotes. *)
Definition quoted_single : string :=
  String SQUOTE (String DQUOTE (String SQUOTE (String DQUOTE (String SQUOTE "")))).
Fixpoint escape_single (s : string) : string :=
  match s with
  | EmptyString => ""
  | String c s' =>
      if Ascii.eqb c SQUOTE then quoted_single +:+ escape_single s' else String c (escape_single s')
  end.
Definition shlex_quote (s : string) : string :=
  if negb (truthy s) then "''"
  else if str_all shlex_safe s then s
  else "'" +:+ escape_single s +:+ "'".
Definition shlex_join (words : list string) : string := py_join " " (map shlex_quote words).

(** ** Segments *)

Inductive ShellFamily : Type := POSIX | POWERSHELL | CMD | UNKNOWN.
Definition shell_value (f : ShellFamily) : string :=
  match f with POSIX => "posix" | POWERSHELL => "powershell" | CMD => "cmd" | UNKNOWN => "unknown" end.

Record CommandSegment := { cs_raw : string; cs_argv : list string; cs_start : nat; cs_end : nat }.
Record ParseResult := { pr_segments : list CommandSegment; pr_operators : list string }.
Record CommandParseError := { pe_code : string; pe_message : string; pe_position : option nat }.
Abbreviation PE A := (result CommandParseError A).
Definition parse_error {A} (code message : string) (position : option nat) : PE A :=
  Raise {| pe_code := code; pe_message := message; pe_position := position |}.

(** [_segment_bounds]: the number of leading spaces; what is between the bounds is
    the stripped text. *)
Definition leading (s : string) : nat := String.length s - String.length (drop_while latin1_is_space s).

(** The text of a segment that begins at [start]. *)
Definition _parse_segment (text : string) (start : nat) : PE CommandSegment :=
  match shlex_split text with
  | Raise message =>
      parse_error (if py_contains (py_lower message) "quotation" then "unmatched_quote" else "invalid_syntax")
        message (Some start)
  | Ok [] => parse_error "invalid_syntax" "command must include an executable" (Some start)
  | Ok argv => Ok {| cs_raw := text; cs_argv := argv; cs_start := start; cs_end := (start + String.length text)%nat |}
  end.
Definition empty_segment {A} (position : option nat) : PE A :=
  parse_error "empty_segment" "unsupported command syntax: empty command segment" position.
(** The segment in [cur], which begins at [start]. *)
Definition close_segment (cur : string) (start : nat) (position : option nat) : PE CommandSegment :=
  let text := py_strip cur in
  if truthy text then _parse_segment text (start + leading cur) else empty_segment position.

Definition DEV_NULL : string := ">/dev/null".
(** [_redirection_end]: [Some n] when the next [n] characters discard the output,
    [None] at other characters. *)
Definition redirection (idx : nat) (c : ascii) (rest : string) : PE (option nat) :=
  if negb (is_char "<>" c) then Ok None
  else if py_startswith rest DEV_NULL
          && match String.get (String.length DEV_NULL) rest with
             | None => true
             | Some d => latin1_is_space d || is_char ";|&" d
             end
  then Ok (Some (String.length DEV_NULL))
  else parse_error "unsupported_redirection" "unsupported command syntax: redirections are not supported" (Some idx).

Inductive quote_mode : Type := QSingle | QDouble.
Record Scan := { sc_start : nat; sc_separator : option nat; sc_segments : list CommandSegment; sc_operators : list string }.
(** A segment and the operator after it, [width] characters at [idx]. *)
Definition split_at (st : Scan) (cur op : string) (idx : nat) : PE Scan :=
  segment ← close_segment cur (sc_start st) (Some idx);
  Ok {| sc_start := (idx + String.length op)%nat; sc_separator := Some idx;
        sc_segments := sc_segments st ++ [segment]; sc_operators := sc_operators st ++ [op] |}.

(** The loop of [_parse_command_posix]; it ends with the state and the text of the
    last segment. *)
Fixpoint scan (skip idx : nat) (quote : option (quote_mode * nat)) (st : Scan) (cur rest : string) : PE (Scan * string) :=
  match rest with
  | EmptyString =>
      match quote with
      | Some (_, position) => parse_error "unmatched_quote" "No closing quotation" (Some position)
      | None => Ok (st, cur)
      end
  | String c rest' =>
      match skip, quote with
      | S n, _ => scan n (S idx) quote st (snoc cur c) rest'
      | O, None =>
          if Ascii.eqb c BACKSLASH then
            match rest' with
            | String d rest'' =>
                if is_char ";|&" d then scan 0 (2 + idx) None st (snoc (snoc cur c) d) rest''
                else scan 0 (S idx) None st (snoc cur c) rest'
            | EmptyString => scan 0 (S idx) None st (snoc cur c) rest'
            end
          else if Ascii.eqb c SQUOTE then scan 0 (S idx) (Some (QSingle, idx)) st (snoc cur c) rest'
          else if Ascii.eqb c DQUOTE then scan 0 (S idx) (Some (QDouble, idx)) st (snoc cur c) rest'
          else
            r ← redirection idx c rest;
            match r with
            | Some n => scan (n - 1) (S idx) None st (snoc cur c) rest'
            | None =>
                if Ascii.eqb c NEWLINE
                then parse_error "unsupported_syntax" "unsupported command syntax: newline is not supported" (Some idx)
                else if Ascii.eqb c "&" then
                  match rest' with
                  | String "&" rest'' => st' ← split_at st cur "&&" idx; scan 0 (2 + idx) None st' "" rest''
                  | _ => parse_error "unsupported_syntax" "unsupported command syntax: '&' is not supported" (Some idx)
                  end
                else if Ascii.eqb c "|" then
                  match rest' with
                  | String "|" rest'' => st' ← split_at st cur "||" idx; scan 0 (2 + idx) None st' "" rest''
                  | _ => st' ← split_at st cur "|" idx; scan 0 (S idx) None st' "" rest'
                  end
                else if Ascii.eqb c ";" then st' ← split_at st cur ";" idx; scan 0 (S idx) None st' "" rest'
                else scan 0 (S idx) None st (snoc cur c) rest'
            end
      | O, Some (QSingle, p) =>
          scan 0 (S idx) (if Ascii.eqb c SQUOTE then None else quote) st (snoc cur c) rest'
      | O, Some (QDouble, p) =>
          if Ascii.eqb c BACKSLASH then
            match rest' with
            | String d rest'' => scan 0 (2 + idx) quote st (snoc (snoc cur c) d) rest''
            | EmptyString => scan 0 (S idx) quote st (snoc cur c) rest'
            end
          else scan 0 (S idx) (if Ascii.eqb c DQUOTE then None else quote) st (snoc cur c) rest'
      end
  end.
Definition empty_command {A} : PE A := parse_error "invalid_syntax" "command must not be empty" None.
Definition _parse_command_posix (command : string) : PE ParseResult :=
  let start := leading command in
  if negb (truthy (py_strip command)) then empty_command
  else
    '(st, cur) ← scan 0 start None {| sc_start := start; sc_separator := None; sc_segments := []; sc_operators := [] |}
                   "" (py_strip command);
    last ← close_segment cur (sc_start st) (sc_separator st);
    Ok {| pr_segments := sc_segments st ++ [last]; pr_operators := sc_operators st |}.

(** The first character that the portable subset refuses. *)
Fixpoint refuse_syntax (family : ShellFamily) (idx : nat) (s : string) : PE () :=
  match s with
  | EmptyString => Ok ()
  | String c s' =>
      if is_char "<>" c
      then parse_error "unsupported_redirection" "unsupported command syntax: redirections are not supported" (Some idx)
      else if Ascii.eqb c NEWLINE
      then parse_error "unsupported_syntax" "unsupported command syntax: newline is not supported" (Some idx)
      else if is_char ";|&" c
      then parse_error "unsupported_syntax"
             ("unsupported command syntax for " +:+ shell_value family +:+ " portable subset") (Some idx)
      else refuse_syntax family (S idx) s'
  end.
Definition _parse_command_portable_windows_subset (command : string) (family : ShellFamily) : PE ParseResult :=
  let start := leading command in
  let text := py_strip command in
  if negb (truthy text) then empty_command
  else
    _ ← refuse_syntax family start text;
    match shlex_split_plain text with
    | Raise message => parse_error "unmatched_quote" message (Some start)
    | Ok [] => parse_error "invalid_syntax" "command must include an executable" (Some start)
    | Ok argv =>
        Ok {| pr_segments := [{| cs_raw := text; cs_argv := argv; cs_start := start;
                                 cs_end := (start + String.length text)%nat |}];
              pr_operators := [] |}
    end.
Definition parse_command (command : string) (family : ShellFamily) : PE ParseResult :=
  match family with
  | POSIX => _parse_command_posix command
  | POWERSHELL | CMD => _parse_command_portable_windows_subset command family
  | UNKNOWN => parse_error "unsupported_shell" "unsupported shell family" None
  end.

(** ** Classification *)

Definition _is_posix_env_assignment (token : string) : bool :=
  match partition_char "=" token with
  | Some (String c rest as name, _) =>
      (latin1_isalpha c || Ascii.eqb c "_") && str_all (λ c, latin1_isalnum c || Ascii.eqb c "_") name
  | _ => false
  end.
(** [effective_command_argv] and [_effective_posix_command_argv] *)
Fixpoint effective_command_argv (argv : list string) : list string :=
  match argv with
  | [] => []
  | a :: rest => if _is_posix_env_assignment a then effective_command_argv rest else argv
  end.

Definition strs_eq (a b : list string) : bool := bool_decide (a = b).
Definition _DISCLOSURE_SAFE_COMMANDS : list (list string) :=
  [["docker"; "info"]; ["docker"; "version"]; ["docker"; "context"; "show"]].
Definition _is_bounded_network_diagnostic (argv : list string) : bool :=
  match argv with
  | ["getent"; "hosts"; host] => truthy host && negb (py_startswith host "-")
  | ["ping"; "-c"; n; host] =>
      match int_of_text n with
      | Some count => ((1 <=? count) && (count <=? 10))%Z && truthy host && negb (py_startswith host "-")
      | None => false
      end
  | _ => false
  end.
Definition is_bounded_read_only_command (argv : list string) : bool :=
  let normalized := map (λ a, py_lower (py_strip a)) argv in
  existsb (strs_eq normalized) _DISCLOSURE_SAFE_COMMANDS || _is_bounded_network_diagnostic normalized.
(** [text.split("&&", 1)] *)
Fixpoint split_and (s : string) : option (string * string) :=
  match s with
  | String "&" (String "&" rest) => Some ("", rest)
  | String c s' => match split_and s' with Some (a, b) => Some (String c a, b) | None => None end
  | EmptyString => None
  end.
Definition normalize_cd_prefixed_command (command : string) (workdir : option string) : string * option string :=
  let raw := py_strip command in
  match split_and raw with
  | None => (raw, workdir)
  | Some (prefix, remainder) =>
      match shlex_split (py_strip prefix) with
      | Ok [cd; dir] =>
          if negb (String.eqb (py_strip cd) "cd") then (raw, workdir)
          else if negb (truthy (py_strip remainder)) then (raw, workdir)
          else
            let given := py_strip (default "" workdir) in
            let effective := if truthy given then given else py_strip dir in
            (py_strip remainder, if truthy effective then Some effective else None)
      | _ => (raw, workdir)
      end
  end.

Definition _READ_ONLY_EXECUTABLES : list string :=
  ["ls"; "pwd"; "cat"; "head"; "tail"; "find"; "grep"; "wc"; "stat"; "tree"; "whoami"].
Definition _READ_ONLY_PLATFORM_PATTERNS : list (list string) :=
  [["uname"; "-m"]; ["uname"; "-s"]; ["sw_vers"]; ["sysctl"; "-n"; "hw.machine"]].
Definition _is_read_only_discovery_argv (argv : list string) : bool :=
  match argv with
  | ["command"; "-v"; name] => truthy (py_strip name)
  | ["which"; name] => truthy (py_strip name)
  | [name; "--version"] =>
      let executable := py_strip name in
      truthy executable && negb (py_contains executable "/") && negb (py_contains executable "\")
  | _ => existsb (strs_eq argv) _READ_ONLY_PLATFORM_PATTERNS
  end.
Definition is_read_only_exec_command (command : string) (family : ShellFamily) : bool :=
  match family with
  | POSIX =>
      match parse_command command family with
      | Ok {| pr_segments := [segment]; pr_operators := [] |} =>
          let argv := effective_command_argv (map py_strip (cs_argv segment)) in
          match argv with
          | [] => false
          | executable :: _ =>
              str_in (py_lower executable) _READ_ONLY_EXECUTABLES || _is_read_only_discovery_argv argv
              || is_bounded_read_only_command argv
          end
      | _ => false
      end
  | _ => false
  end.

(** ** Patterns of allowed commands *)

Definition DISCOVERY_KNOWN_TOOLS : list string :=
  ["as"; "clang"; "docker"; "gcc"; "ld"; "make"; "nasm"; "objdump"; "otool"; "open"; "ps"; "python"; "python3";
   "python3.11"; "ssh"; "systemctl"].
Definition allow_pattern (id : string) (argv : list string) : pyval :=
  PDict [("id", PStr id); ("argv", PList (map PStr argv)); ("action_class", PStr "discovery")].
Definition COMMAND_ALLOW_PATTERNS : list pyval :=
  [allow_pattern "tool.discovery.command_v" ["command"; "-v"; "{known_tool}"];
   allow_pattern "tool.discovery.which" ["which"; "{known_tool}"];
   allow_pattern "tool.discovery.version" ["{known_tool}"; "--version"];
   allow_pattern "platform.uname_machine" ["uname"; "-m"];
   allow_pattern "platform.uname_system" ["uname"; "-s"];
   allow_pattern "platform.macos_version" ["sw_vers"];
   allow_pattern "platform.macos_machine" ["sysctl"; "-n"; "hw.machine"]].
Definition command_action_class (argv : list string) : string :=
  match effective_command_argv argv with
  | [] => "unknown"
  | exec :: rest =>
      if is_bounded_read_only_command (exec :: rest) then "inspect"
      else
        let name := py_lower (py_strip exec) in
        if str_in name ["rm"; "dd"; "mkfs"; "shutdown"; "reboot"; "poweroff"; "halt"] then "destructive"
        else if str_in name ["sudo"; "su"] then "privileged"
        else if str_in name ["command"; "which"] then "discovery"
        else if str_in name ["pip"; "pip3"; "npm"; "yarn"]
                && existsb (λ a, String.eqb (py_lower (py_strip a)) "install") rest then "install"
        else if str_in name ["as"; "clang"; "gcc"; "ld"; "make"; "nasm"] then "compile"
        else if py_startswith name "./" || py_contains name "/" then "run"
        else "unknown"
  end.
Definition _known_command_tools (commands : dict) : list string :=
  match dget commands "known_tools" with
  | None => DISCOVERY_KNOWN_TOOLS
  | Some (PList l) => List.filter truthy (map (λ v, py_strip (py_str v)) l)
  | Some _ => DISCOVERY_KNOWN_TOOLS
  end.
Definition _match_pattern_token (token value : string) (known : list string) : bool :=
  if String.eqb token "{known_tool}" then str_in value known else String.eqb token value.
Definition pattern_matches (known argv : list string) (pattern : pyval) : bool :=
  match pattern with
  | PDict d =>
      match default (PList []) (dget d "argv") with
      | PList expected =>
          (length expected =? length argv)%nat
          && forallb (λ p, _match_pattern_token (py_str p.1) p.2 known) (zip expected argv)
      | _ => false
      end
  | _ => false
  end.
Definition matching_allow_pattern (argv : list string) (commands : dict) : option pyval :=
  match default (PList COMMAND_ALLOW_PATTERNS) (dget commands "allow_patterns") with
  | PList patterns => List.find (pattern_matches (_known_command_tools commands) (effective_command_argv argv)) patterns
  | _ => None
  end.
