(* ===== verification/ToolPolicy.v ===== *)
(** The policy that guards tools: modules/tool/runtime/policy_config.py,
    policy_access.py, policy_exec.py, policy_paths.py, policy_checks.py,
    policy_normalization.py, policy_defaults.py, policy_shared.py and dangerous.py.

    A policy is the dictionary of its file over the defaults.  The checks only read
    it: each returns or raises.  A value of another type than the code expects makes
    it raise as Python does ([ToolPython] with the name of the exception). *)

From S2P Require Import Prelude PyValue PyText CommandParser.
From Stdlib Require Import Ascii.

Inductive tool_exn : Type :=
| ToolRuntimeError (code message : string) (details : dict)
| ToolPython (name : string).
Abbreviation TR A := (result tool_exn A).
Definition denied {A} (message : string) (details : dict) : TR A := Raise (ToolRuntimeError "POLICY_DENIED" message details).
Definition _invalid_argument {A} (message : string) : TR A := Raise (ToolRuntimeError "INVALID_ARGUMENT" message []).
Definition confirm_required {A} (message : string) (details : dict) : TR A :=
  Raise (ToolRuntimeError "CONFIRM_REQUIRED" message details).

(** ** Reading a policy *)

(** [d.get(k, {})], where the code goes on to read a dictionary *)
Definition section (d : dict) (k : string) : TR dict :=
  match dget d k with
  | None => Ok []
  | Some (PDict s) => Ok s
  | Some _ => Raise (ToolPython "AttributeError")
  end.
Fixpoint chars (s : string) : list pyval :=
  match s with EmptyString => [] | String c s' => PStr (String c "") :: chars s' end.
(** The iteration over a value. *)
Definition py_iter (v : pyval) : TR (list pyval) :=
  match v with
  | PList l => Ok l
  | PStr s => Ok (chars s)
  | PDict m => Ok (map (λ kv, PStr kv.1) m)
  | _ => Raise (ToolPython "TypeError")
  end.
(** [list(d.get(k, []))], and the iteration over it *)
Definition items (d : dict) (k : string) : TR (list pyval) :=
  match dget d k with None => Ok [] | Some v => py_iter v end.
Definition hashable (v : pyval) : bool := match v with PList _ | PDict _ => false | _ => true end.
(** [set(d.get(k, []))] *)
Definition set_items (d : dict) (k : string) : TR (list pyval) :=
  l ← items d k; if forallb hashable l then Ok l else Raise (ToolPython "TypeError").
(** [text in values] *)
Definition text_in (s : string) (l : list pyval) : bool := existsb (py_eq (PStr s)) l.
(** [s.startswith(prefix)] for the prefixes in order, up to the first that holds *)
Fixpoint prefix_in (s : string) (l : list pyval) : TR (option string) :=
  match l with
  | [] => Ok None
  | PStr p :: rest => if py_startswith s p then Ok (Some p) else prefix_in s rest
  | _ => Raise (ToolPython "TypeError")
  end.

(** ** Modes and scopes *)

Definition SCOPE_ORDER : list (string * Z) :=
  [("READ_ONLY", 0); ("WRITE_SAFE", 1); ("POWER_USER", 2); ("UI_AUTOMATION", 3)]%Z.
Definition scope_rank (scope : string) : option Z :=
  match List.find (λ kv, String.eqb kv.1 scope) SCOPE_ORDER with Some (_, n) => Some n | None => None end.
Definition max_scope (raw : dict) : TR string :=
  match default (PStr "WRITE_SAFE") (dget raw "scope") with
  | PStr s => if is_some (scope_rank s) then Ok s else _invalid_argument ("Invalid policy scope: " +:+ s)
  | PList _ | PDict _ => Raise (ToolPython "TypeError")
  | v => _invalid_argument ("Invalid policy scope: " +:+ py_str v)
  end.
Definition effective_scope (raw : dict) (requested : option string) : TR string :=
  policy_max ← max_scope raw;
  let req := default "" requested in
  if negb (truthy req) then Ok policy_max
  else
    match scope_rank req, scope_rank policy_max with
    | None, _ => _invalid_argument ("Unknown requested scope: " +:+ req)
    | Some r, Some m => Ok (if (r <=? m)%Z then req else policy_max)
    | Some _, None => Raise (ToolPython "KeyError")
    end.
Definition _validated_mode (value : pyval) (def : string) (valid : list string) (label : string) : TR string :=
  let mode := py_lower (py_strip (py_str (py_or value (PStr def)))) in
  if str_in mode valid then Ok mode else _invalid_argument ("Invalid " +:+ label +:+ " mode: " +:+ mode).

Definition _EXEC_SECURITY_MODES : list string := ["deny"; "allowlist"; "full"].
Definition _EXEC_ASK_MODES : list string := ["off"; "on-miss"; "always"].
Definition _DANGEROUS_MODES : list string := ["prompt"; "deny"; "allow"].
Definition exec_security_mode (raw : dict) : TR string :=
  e ← section raw "exec"; _validated_mode (dget_none e "security") "allowlist" _EXEC_SECURITY_MODES "exec security".
Definition exec_ask_mode (raw : dict) : TR string :=
  e ← section raw "exec"; _validated_mode (dget_none e "ask") "on-miss" _EXEC_ASK_MODES "exec ask".
Definition exec_ask_fallback (raw : dict) : TR string :=
  e ← section raw "exec"; _validated_mode (dget_none e "askFallback") "deny" _EXEC_SECURITY_MODES "exec askFallback".
Definition exec_allowlist (raw : dict) : TR (list string) :=
  e ← section raw "exec";
  match dget e "allowlist" with
  | Some (PList l) => Ok (List.filter (λ s, truthy (py_strip s)) (map py_str l))
  | _ => Ok []
  end.
Definition exec_host_enabled (raw : dict) : TR bool :=
  e ← section raw "exec"; Ok (py_truthy (default (PBool false) (dget e "host_enabled"))).
Definition dangerous_enabled (raw : dict) : TR bool :=
  d ← section raw "dangerous"; Ok (py_truthy (default (PBool true) (dget d "enabled"))).
Definition dangerous_mode (raw : dict) : TR string :=
  d ← section raw "dangerous"; _validated_mode (dget_none d "mode") "prompt" _DANGEROUS_MODES "dangerous".
Definition limit_int (raw : dict) (key : string) (def : Z) : TR Z :=
  l ← section raw "limits";
  let val := default (PInt def) (dget l key) in
  match py_int val with
  | Ok z => Ok z
  | Raise _ => _invalid_argument ("Invalid policy limit for " +:+ key +:+ ": " +:+ py_str val)
  end.
Definition redaction_mode (raw : dict) : TR string :=
  r ← section raw "redaction";
  match default (PStr "normal") (dget r "mode") with
  | PStr m => if str_in m ["normal"; "strict"; "off"] then Ok m else _invalid_argument ("Invalid redaction mode: " +:+ m)
  | v => _invalid_argument ("Invalid redaction mode: " +:+ py_str v)
  end.

(** ** Paths *)

(** A POSIX path: its root (empty when it is relative) and its components. *)
Record Path := { pt_root : string; pt_parts : list string }.
Definition parse_path (s : string) : Path :=
  {| pt_root := if py_startswith s "//" && negb (py_startswith s "///") then "//"
                else if py_startswith s "/" then "/" else "";
     pt_parts := List.filter (λ p, truthy p && negb (String.eqb p ".")) (split_char "/" s) |}.
Definition path_text (p : Path) : string :=
  let s := pt_root p +:+ py_join "/" (pt_parts p) in if truthy s then s else ".".
Definition is_absolute (p : Path) : bool := truthy (pt_root p).
(** [a / b] *)
Definition path_div (a b : Path) : Path :=
  if is_absolute b then b else {| pt_root := pt_root a; pt_parts := pt_parts a ++ pt_parts b |}.
Definition path_name (p : Path) : string := default "" (last (pt_parts p)).
(** The components without [..], in an absolute path. *)
Fixpoint norm_parts (acc l : list string) : list string :=
  match l with
  | [] => acc
  | p :: rest =>
      if String.eqb p ".." then norm_parts (take (length acc - 1) acc) rest else norm_parts (acc ++ [p]) rest
  end.

(** What the operating system and the registry of tools provide: the working
    directory, the resolution of symbolic links, the search of executables, the
    environment of the process, and the names that tools are also known by. *)
Class ToolEnv := {
  cwd : Path;
  realpath : Path → Path;
  which : string → option string;
  process_env : list (string * string);
  normalize_raw_name : string → option string;
}.

Fixpoint list_prefix (a b : list string) : bool :=
  match a, b with
  | [], _ => true
  | x :: a', y :: b' => String.eqb x y && list_prefix a' b'
  | _ :: _, [] => false
  end.
(** [_is_subpath]: [path.relative_to(root)] does not raise. *)
Definition _is_subpath (path root : Path) : bool :=
  String.eqb (pt_root path) (pt_root root) && list_prefix (pt_parts root) (pt_parts path).

Section Policy.
Context {Env : PyEnv} {Sys : ToolEnv}.

Definition expand (s : string) : Path := parse_path (py_path_expanduser s).
(** [Path(os.path.abspath(p))] *)
Definition abspath (p : Path) : Path :=
  let q := path_div cwd p in {| pt_root := pt_root q; pt_parts := norm_parts [] (pt_parts q) |}.
Definition under (workspace : Path) (p : Path) : Path := if is_absolute p then p else path_div workspace p.
Definition _expand_path_pair (value : string) (workspace : Path) : Path * Path :=
  let a := abspath (under workspace (expand (str_replace "${WORKSPACE}" (path_text workspace) value))) in (a, realpath a).
Definition _resolve_candidate_path (raw_path : string) (workspace : Path) : Path * Path :=
  let a := abspath (under workspace (expand raw_path)) in (a, realpath a).

Definition in_deny_root (candidate resolved : Path) (root : Path * Path) : bool :=
  _is_subpath candidate root.1 || _is_subpath candidate root.2 || _is_subpath resolved root.2.
Definition text_roots (workspace : Path) (l : list pyval) : list (Path * Path) :=
  map (λ v, _expand_path_pair (py_str v) workspace) l.
(** The loop over the allowed roots; [None] when none of them is a root of the path. *)
Fixpoint allowed_by (candidate resolved : Path) (roots : list (Path * Path)) : TR (option Path) :=
  match roots with
  | [] => Ok None
  | (root_candidate, root_resolved) :: rest =>
      let candidate_allowed := _is_subpath candidate root_candidate || _is_subpath candidate root_resolved in
      let resolved_allowed := _is_subpath resolved root_resolved in
      if candidate_allowed && resolved_allowed then Ok (Some resolved)
      else if candidate_allowed && negb resolved_allowed then
        denied "Denied by policy: resolved path escapes allowed root"
          [("rule", PStr "paths.allow.symlink_escape"); ("requested_path", PStr (path_text candidate));
           ("resolved_path", PStr (path_text resolved)); ("allow_root", PStr (path_text root_resolved))]
      else allowed_by candidate resolved rest
  end.
Definition ensure_path_allowed (raw : dict) (raw_path : string) (workspace : Path) (operation : string) : TR Path :=
  if negb (str_in operation ["read"; "write"]) then _invalid_argument ("Unsupported path operation: " +:+ operation)
  else
    let '(candidate, resolved) := _resolve_candidate_path raw_path workspace in
    paths ← section raw "paths";
    deny ← items paths "deny";
    let allow_key := if String.eqb operation "read" then "read_allow" else "write_allow" in
    allow ← items paths allow_key;
    match List.find (in_deny_root candidate resolved) (text_roots workspace deny) with
    | Some root =>
        denied ("Denied by policy: path '" +:+ path_text resolved +:+ "' is in deny roots")
          [("rule", PStr "paths.deny"); ("path", PStr (path_text resolved)); ("deny_root", PStr (path_text root.2))]
    | None =>
        found ← allowed_by candidate resolved (text_roots workspace allow);
        match found with
        | Some p => Ok p
        | None => denied ("Denied by policy: path '" +:+ path_text resolved +:+ "' is outside allowed roots")
                    [("rule", PStr ("paths." +:+ allow_key)); ("path", PStr (path_text resolved))]
        end
    end.

(** ** Paths of tools *)

(** The context of a tool call: its environment, its policy, its workspace, whether it
    was confirmed, the permission mode and the session. *)
Record RuntimeContext := {
  ctx_env : dict; ctx_raw : dict; ctx_workspace : string; ctx_confirm : bool; ctx_permission_mode : string;
  ctx_session_id : option string;
}.
Definition resolved_text (s : string) : Path := realpath (expand s).
Definition _TOOL_WORKSPACE_ROOT_ENV_KEYS : list string := ["OPENMINION_WORKSPACE_ROOT"; "OPENMINION_WORKSPACE"].
(** [resolve_tool_workspace_root(env=env, fallback=fallback)] *)
Definition resolve_tool_workspace_root (env : dict) (fallback : string) : Path :=
  match List.find truthy (map (λ name, str_or_blank (dget_none env name)) _TOOL_WORKSPACE_ROOT_ENV_KEYS) with
  | Some candidate => resolved_text candidate
  | None => resolved_text fallback
  end.
Definition path_eqb (a b : Path) : bool := _is_subpath a b && _is_subpath b a.
Definition resolve_workspace_root (ctx : RuntimeContext) : TR Path :=
  let first := str_or_blank (dget_none (ctx_env ctx) "OPENMINION_WORKSPACE_ROOT") in
  let explicit := if truthy first then first else str_or_blank (dget_none (ctx_env ctx) "OPENMINION_WORKSPACE") in
  if truthy explicit then Ok (resolved_text explicit)
  else if py_truthy (dget_none (ctx_raw ctx) "workspace_root") then
    match dget_none (ctx_raw ctx) "workspace_root" with
    | PStr s => Ok (resolved_text s)
    | _ => Raise (ToolPython "TypeError")
    end
  else
    let env_workspace := resolve_tool_workspace_root (ctx_env ctx) "" in
    Ok (if negb (path_eqb env_workspace (realpath cwd)) then env_workspace else resolved_text (ctx_workspace ctx)).
Definition resolve_relative_base_dir (ctx : RuntimeContext) : TR Path :=
  root ← resolve_workspace_root ctx;
  metadata ← section (ctx_raw ctx) "context_metadata";
  let candidate := str_or_blank (dget_none metadata "cwd") in
  if negb (truthy candidate) then Ok root
  else let p := resolved_text candidate in Ok (if _is_subpath p root then p else root).
Definition workspace_retry_path (raw_path : string) : string :=
  let candidate := expand raw_path in
  match pt_parts candidate with
  | "tmp" :: _ :: _ => if is_absolute candidate then path_text {| pt_root := ""; pt_parts := pt_parts candidate |}
                       else path_text {| pt_root := ""; pt_parts := ["tmp"; path_name candidate] |}
  | _ => path_text {| pt_root := "";
                      pt_parts := ["tmp"; if truthy (path_name candidate) then path_name candidate else "scratch.txt"] |}
  end.
Definition _workspace_escape_error {A} (raw_path : string) (root : Path) : TR A :=
  let retry := workspace_retry_path raw_path in
  denied ("path escapes workspace root: " +:+ raw_path +:+ ". Use a relative path under the workspace root, for example "
          +:+ retry +:+ ".")
    [("workspace_root", PStr (path_text root)); ("retry_path", PStr retry);
     ("retry_hint", PStr "Use a relative path under the workspace root.")].
(** The path as it is looked up: without the name of the workspace in front of it. *)
Definition drop_workspace_name (root candidate : Path) : Path :=
  match pt_parts candidate with
  | p :: rest => if String.eqb p (path_name root) then {| pt_root := ""; pt_parts := rest |} else candidate
  | [] => candidate
  end.
Definition resolve_path (ctx : RuntimeContext) (raw_path operation : string) : TR string :=
  root ← resolve_workspace_root ctx;
  base ← resolve_relative_base_dir ctx;
  let candidate := expand raw_path in
  let located := if is_absolute candidate then candidate else path_div base (drop_workspace_name root candidate) in
  let resolved := realpath located in
  if negb (is_absolute candidate) && negb (_is_subpath resolved root) then _workspace_escape_error raw_path root
  else
    match ensure_path_allowed (ctx_raw ctx) (path_text resolved) root operation with
    | Ok _ => Ok (path_text resolved)
    | Raise (ToolRuntimeError _ _ details as e) =>
        if py_eq (dget_none details "rule") (PStr ("paths." +:+ operation +:+ "_allow"))
        then _workspace_escape_error raw_path root else Raise e
    | Raise e => Raise e
    end.

(** ** Tools *)

Definition canonical_tool_name (tool_name : string) : string :=
  let token := py_strip tool_name in
  if negb (truthy token) then ""
  else let name := default "" (normalize_raw_name token) in if truthy name then name else token.
Definition is_plugin_enabled (raw : dict) (name : string) : TR bool :=
  plugins ← section raw "plugins";
  deny ← set_items plugins "deny";
  if text_in name deny then Ok false
  else allow ← items plugins "allow"; Ok (match allow with [] => true | _ => text_in name allow end).
Definition ensure_tool_allowed (raw : dict) (tool_name : string) : TR () :=
  tools ← section raw "tools";
  deny_exact ← set_items tools "deny_exact";
  if text_in tool_name deny_exact
  then denied ("Denied by policy: tool '" +:+ tool_name +:+ "' is denylisted") [("rule", PStr "tools.deny_exact")]
  else
    deny_prefix ← items tools "deny_prefix";
    hit ← prefix_in tool_name deny_prefix;
    match hit with
    | Some pref => denied ("Denied by policy: tool '" +:+ tool_name +:+ "' is denied by prefix")
                     [("rule", PStr "tools.deny_prefix"); ("prefix", PStr pref)]
    | None =>
        allow_exact ← set_items tools "allow_exact";
        allow_prefix ← items tools "allow_prefix";
        match allow_exact, allow_prefix with
        | [], [] => Ok ()
        | _, _ =>
            if text_in tool_name allow_exact then Ok ()
            else
              ok ← prefix_in tool_name allow_prefix;
              match ok with
              | Some _ => Ok ()
              | None => denied ("Denied by policy: tool '" +:+ tool_name +:+ "' is not allowed")
                          [("rule", PStr "tools.allow_exact_or_prefix")]
              end
        end
    end.
Definition ensure_scope_allowed (effective min_scope tool_name : string) : TR () :=
  match scope_rank effective, scope_rank min_scope with
  | Some e, Some m =>
      if (e <? m)%Z then
        denied ("Denied by policy: tool '" +:+ tool_name +:+ "' requires scope '" +:+ min_scope +:+ "'")
          [("rule", PStr "scope.minimum"); ("effective_scope", PStr effective); ("required_scope", PStr min_scope)]
      else Ok ()
  | _, _ => Raise (ToolPython "KeyError")
  end.

(** What the rules of [confirm.required_when] ask for: the reason of the last one
    that applies. *)
Definition args_match (d args : dict) : bool :=
  match d with [] => false | _ => forallb (λ kv, py_eq (dget_none args kv.1) kv.2) d end.
Definition argv_text (args : dict) : TR string := l ← items args "argv"; Ok (py_join " " (map py_str l)).
Fixpoint all_tokens (text : string) (tokens : list pyval) : TR bool :=
  match tokens with
  | [] => Ok true
  | PStr t :: rest => if py_contains text t then all_tokens text rest else Ok false
  | _ => Raise (ToolPython "TypeError")
  end.
Definition rule_reason (tool_name : string) (args : dict) (rule : pyval) : TR (option dict) :=
  match rule with
  | PDict r =>
      if negb (String.eqb (canonical_tool_name (py_str (default (PStr "") (dget r "tool")))) tool_name) then Ok None
      else
        let by_args := match default (PDict []) (dget r "args_match") with
                       | PDict d => Ok (if args_match d args
                                        then Some [("rule", PStr "confirm.required_when.args_match"); ("match", PDict d)]
                                        else None)
                       | v => if py_truthy v then Raise (ToolPython "AttributeError") else Ok None
                       end in
        first ← by_args;
        tokens ← items r "args_match_contains_argv";
        match tokens with
        | [] => Ok first
        | _ =>
            text ← argv_text args;
            hit ← all_tokens text tokens;
            Ok (if (hit : bool)
                then Some [("rule", PStr "confirm.required_when.args_match_contains_argv"); ("tokens", PList tokens)]
                else first)
        end
  | _ => Ok None
  end.
Fixpoint rules_reason (tool_name : string) (args : dict) (rules : list pyval) (reason : option dict) : TR (option dict) :=
  match rules with
  | [] => Ok reason
  | rule :: rest =>
      r ← rule_reason tool_name args rule;
      rules_reason tool_name args rest (match r with Some d => Some d | None => reason end)
  end.
Definition ensure_confirm_if_required (raw : dict) (tool_name : string) (args : dict) (confirm dangerous : bool) : TR () :=
  let name := canonical_tool_name tool_name in
  cfg ← section raw "confirm";
  required_tools ← items cfg "required_tools";
  let listed := str_in name (map (λ v, canonical_tool_name (py_str v)) required_tools) || dangerous in
  rules ← items cfg "required_when";
  reason ← rules_reason name args rules
             (if listed then Some [("rule", PStr "confirm.required_tools"); ("tool", PStr name)] else None);
  match reason with
  | Some d =>
      if confirm then Ok ()
      else confirm_required "Denied by policy: operation requires explicit confirmation"
             (dset d "suggestion" (PStr "Retry with meta.confirm=true or --confirm"))
  | None => Ok ()
  end.
(** ** Commands *)

Definition _normalize_exec_name (exec_name : string) : string :=
  match py_rpartition "/" exec_name with Some (_, name) => name | None => exec_name end.
Definition ensure_exec_allowed (raw : dict) (argv : list string) (confirm : bool) : TR string :=
  let effective := effective_command_argv argv in
  match effective with
  | [] => _invalid_argument "cmd.run argv must include executable"
  | raw_exec :: _ =>
      let exec_name := _normalize_exec_name raw_exec in
      if negb (truthy exec_name) then _invalid_argument "cmd.run executable cannot be empty"
      else
        security_mode ← exec_security_mode raw;
        ask_mode ← exec_ask_mode raw;
        allowlist ← exec_allowlist raw;
        commands ← section raw "commands";
        let ask (rule : string) : TR () :=
          if confirm then Ok ()
          else confirm_required "Exec approval required"
                 [("rule", PStr rule); ("exec", PStr exec_name); ("mode", PStr ask_mode)] in
        if String.eqb security_mode "deny"
        then denied ("Denied by policy: exec is disabled for '" +:+ exec_name +:+ "'")
               [("rule", PStr "exec.security"); ("mode", PStr security_mode)]
        else
          _ ← (if String.eqb security_mode "allowlist"
                  && negb (is_some (matching_allow_pattern effective commands)
                           || str_in exec_name allowlist || str_in raw_exec allowlist)
               then if str_in ask_mode ["on-miss"; "always"] then ask "exec.ask.on_miss"
                    else denied ("Denied by policy: command '" +:+ exec_name +:+ "' is not allowlisted")
                           [("rule", PStr "exec.allowlist")]
               else Ok ());
          _ ← (if String.eqb ask_mode "always" then ask "exec.ask.always" else Ok ());
          Ok exec_name
  end.
Definition ensure_dangerous_allowed (raw : dict) (dangerous : bool) (pattern_id reason : string) (confirm : bool) : TR () :=
  enabled ← dangerous_enabled raw;
  if negb enabled || negb dangerous then Ok ()
  else
    mode ← dangerous_mode raw;
    let details := [("rule", PStr "dangerous"); ("pattern_id", PStr pattern_id); ("reason", PStr reason)] in
    if String.eqb mode "allow" then Ok ()
    else if String.eqb mode "deny" then denied "Denied by policy: dangerous command blocked" details
    else if negb confirm then confirm_required "Approval required for dangerous command" details
    else Ok ().

(** [re.search(str(expr), text)] for the expressions in order, up to the first match *)
Fixpoint regex_hit (text : string) (l : list pyval) : TR (option pyval) :=
  match l with
  | [] => Ok None
  | v :: rest =>
      match py_re_search (py_str v) text with
      | None => Raise (ToolPython "re.error")
      | Some true => Ok (Some v)
      | Some false => regex_hit text rest
      end
  end.
Definition MODEL_FILE_TRASH : string := "file.trash".
Definition _MKDIR_SCAFFOLD_HINT : dict :=
  [("suggested_tool", PStr "file.write");
   ("suggested_fix", PStr ("For project scaffolding, write the target file directly with file.write; "
                           +:+ "parent directories are created automatically by default."))].
Definition ensure_command_allowed (raw : dict) (argv : list string) (confirm : bool) : TR string :=
  let effective := effective_command_argv argv in
  match effective with
  | [] => _invalid_argument "cmd.run argv must include executable"
  | raw_exec :: _ =>
      let exec_name := py_strip (_normalize_exec_name raw_exec) in
      if negb (truthy exec_name) then _invalid_argument "cmd.run executable cannot be empty"
      else
        commands ← section raw "commands";
        deny_exact ← set_items commands "deny_exact";
        if text_in exec_name deny_exact then
          denied ("Denied by policy: command '" +:+ exec_name +:+ "' is denylisted")
            ([("rule", PStr "commands.deny_exact"); ("command", PStr exec_name)]
             ++ if String.eqb exec_name "rm"
                then [("suggested_tool", PStr MODEL_FILE_TRASH);
                      ("suggested_fix", PStr "Use file.trash with the exact path.")]
                else [])
        else
          deny_regex ← items commands "deny_regex";
          hit ← regex_hit (py_join " " argv) deny_regex;
          match hit with
          | Some expr =>
              denied ("Denied by policy: command '" +:+ exec_name +:+ "' matched deny regex")
                [("rule", PStr "commands.deny_regex"); ("regex", expr)]
          | None =>
              let mode_raw := py_str (default (PStr "allowlist") (dget commands "mode")) in
              let mode := py_lower mode_raw in
              allow ← set_items commands "allow";
              let action_class := command_action_class effective in
              if String.eqb mode "allowlist" then
                if String.eqb action_class "install" then
                  denied ("Denied by policy: command '" +:+ exec_name +:+ "' is an install command")
                    [("rule", PStr "commands.install"); ("command", PStr exec_name); ("action_class", PStr action_class)]
                else if negb (text_in exec_name allow) && negb (is_some (matching_allow_pattern effective commands))
                        && negb confirm then
                  denied ("Denied by policy: command '" +:+ exec_name +:+ "' is not allowlisted")
                    ([("rule", PStr "commands.allow"); ("command", PStr exec_name); ("action_class", PStr action_class)]
                     ++ if String.eqb exec_name "mkdir" then _MKDIR_SCAFFOLD_HINT else [])
                else Ok exec_name
              else if negb (String.eqb mode "blocklist") then
                Raise (ToolRuntimeError "INVALID_ARGUMENT" ("Invalid command mode: " +:+ mode_raw)
                         [("rule", PStr "commands.mode")])
              else Ok exec_name
          end
  end.
(** [raw_env] are the variables of the call; every expression is compiled before one of
    them is looked at. *)
Fixpoint kept_env (allow deny : list pyval) (raw_env : list (string * string)) (out : list (string * string))
    : TR (list (string * string)) :=
  match raw_env with
  | [] => Ok out
  | (key, value) :: rest =>
      if negb (bool_decide (allow = [])) && negb (text_in key allow) then kept_env allow deny rest out
      else
        hit ← regex_hit key deny;
        kept_env allow deny rest
          (if is_some hit then out else List.filter (λ kv, negb (String.eqb kv.1 key)) out ++ [(key, value)])
  end.
Definition filter_env (raw : dict) (raw_env : list (string * string)) : TR (list (string * string)) :=
  cfg ← section raw "env";
  allow ← set_items cfg "allow_keys";
  deny ← items cfg "deny_keys_regex";
  if existsb (λ expr, negb (is_some (py_re_search (py_str expr) ""))) deny then Raise (ToolPython "re.error")
  else
  kept_env allow deny raw_env (List.filter (λ kv, text_in kv.1 allow) process_env).

Definition _DANGEROUS_PATTERNS : list (string * string) :=
  [("rm_rf", "\brm\b.*\s-rf\b"); ("shutdown", "\bshutdown\b"); ("reboot", "\breboot\b|\bhalt\b|\bpoweroff\b");
   ("curl_pipe_sh", "\b(curl|wget)\b.*\|\s*sh\b"); ("mkfs", "\bmkfs\b"); ("dd", "\bdd\b");
   ("diskutil_erase", "\bdiskutil\b.*\berase\b"); ("format", "\bformat\b|\bchkdsk\b")].
(** The pattern that a command matches; the patterns ignore the case. *)
Definition detect_dangerous_command (argv : list string) : option string :=
  match argv with
  | [] => None
  | _ =>
      let text := py_join " " argv in
      option_map fst (List.find (λ p, bool_decide (py_re_search ("(?i)" +:+ p.2) text = Some true)) _DANGEROUS_PATTERNS)
  end.

(** ** The checks before a tool runs *)

Record ToolSpec := { ts_min_scope : string; ts_dangerous : bool }.
Definition text_arg (args : dict) (k : string) : option string :=
  match dget args k with Some (PStr s) => Some s | _ => None end.
Definition str_arg (args : dict) (k def : string) : string := py_str (default (PStr def) (dget args k)).
(** [args.get("workdir") or args.get("cwd")]: texts, when the arguments were validated *)
Definition workdir_arg (args : dict) : option string :=
  if otruthy (text_arg args "workdir") then text_arg args "workdir" else text_arg args "cwd".
Definition path_check (raw : dict) (path : string) (workspace : Path) (operation : string) : TR () :=
  _ ← ensure_path_allowed raw path workspace operation; Ok ().
(** The command of [exec.run], and the arguments with a leading [cd] moved to the
    working directory. *)
Definition exec_args (args : dict) : dict :=
  let raw_command := py_str (py_or (dget_none args "command") (PStr "")) in
  let '(command, workdir) := normalize_cd_prefixed_command raw_command (workdir_arg args) in
  if String.eqb command raw_command then args
  else
    let args := dset args "command" (PStr command) in
    if otruthy workdir then dset args "workdir" (PStr (default "" workdir)) else args.
Definition lex_argv (command : string) : TR (list string) :=
  if truthy command then match shlex_split command with Ok l => Ok l | Raise _ => Raise (ToolPython "ValueError") end
  else Ok [].
Definition text_items (l : list pyval) : TR (list string) :=
  foldr (λ v rest, r ← rest; match v with PStr s => Ok (s :: r) | _ => Raise (ToolPython "TypeError") end) (Ok []) l.
Definition command_argv (name : string) (args : dict) : TR (list string) :=
  if String.eqb name "exec.run" then lex_argv (py_str (py_or (dget_none args "command") (PStr "")))
  else l ← items args "argv"; text_items l.
Definition command_check (raw : dict) (argv : list string) (confirm : bool) : TR () :=
  match ensure_command_allowed raw argv confirm with
  | Ok _ => Ok ()
  | Raise (ToolRuntimeError code message details as e) =>
      if negb (String.eqb code "POLICY_DENIED") || negb (py_eq (dget_none details "rule") (PStr "commands.allow"))
      then Raise e
      else _ ← ensure_exec_allowed raw argv confirm; Raise e
  | Raise e => Raise e
  end.
(** The arguments as the checks leave them. *)
Definition run_policy_preflight (raw : dict) (spec : ToolSpec) (tool_name : string) (args : dict) (scope : string)
    (confirm : bool) (workspace : Path) : TR dict :=
  let name := canonical_tool_name tool_name in
  _ ← ensure_tool_allowed raw name;
  _ ← ensure_scope_allowed scope (ts_min_scope spec) name;
  if str_in name ["cmd.run"; "exec.run"] then
    let args := if String.eqb name "exec.run" then exec_args args else args in
    argv ← command_argv name args;
    _ ← command_check raw argv confirm;
    _ ← ensure_exec_allowed raw argv confirm;
    let hit := detect_dangerous_command argv in
    _ ← ensure_dangerous_allowed raw (is_some hit) (default "" hit)
          (match hit with Some p => "matched pattern " +:+ p | None => "" end) confirm;
    _ ← path_check raw (if String.eqb name "exec.run"
                        then (let d := default "" (workdir_arg args) in if truthy d then d else ".")
                        else str_arg args "cwd" ".") workspace "read";
    _ ← ensure_confirm_if_required raw name args confirm (ts_dangerous spec);
    Ok args
  else
    _ ← ensure_confirm_if_required raw name args confirm (ts_dangerous spec);
    _ ← (if str_in name ["file.list_dir"; "file.read"; "file.find"] then
           path_check raw (str_arg args (if String.eqb name "file.find" then "root" else "path") ".") workspace "read"
         else if str_in name ["file.write"; "file.trash"] then path_check raw (str_arg args "path" ".") workspace "write"
         else if String.eqb name "file.copy" then
           _ ← path_check raw (str_arg args "src" ".") workspace "read"; path_check raw (str_arg args "dst" ".") workspace "write"
         else if String.eqb name "file.move" then
           _ ← path_check raw (str_arg args "src" ".") workspace "write"; path_check raw (str_arg args "dst" ".") workspace "write"
         else Ok ());
    Ok args.
End Policy.

(** ** The policy file *)

(** [deep_merge]: the value of a key of the override over the one there. *)
Fixpoint merge_val (old : option pyval) (v : pyval) {struct v} : pyval :=
  match v, old with
  | PDict o, Some (PDict b) =>
      PDict ((fix go (o : dict) (out : dict) : dict :=
                match o with
                | [] => out
                | (k, x) :: rest => go rest (dset out k (merge_val (dget out k) x))
                end) o b)
  | _, _ => v
  end.
Definition deep_merge (base override : dict) : dict :=
  match merge_val (Some (PDict base)) (PDict override) with PDict d => d | _ => base end.

Definition map_field (f : pyval → pyval) (k : string) (d : dict) : dict :=
  match dget d k with Some v => dset d k (f v) | None => d end.
Definition map_texts (f : string → string) (v : pyval) : pyval :=
  match v with PList l => PList (map (λ x, PStr (f (py_str x))) l) | _ => v end.
Definition normalize_rule (rule : pyval) : pyval :=
  match rule with
  | PDict r =>
      let token := py_str (default (PStr "") (dget r "tool")) in
      PDict (if truthy token then dset r "tool" (PStr (py_strip token)) else r)
  | v => v
  end.
Definition normalize_policy_legacy_aliases (raw : dict) : dict :=
  let tools (v : pyval) :=
    match v with
    | PDict t =>
        PDict (map_field (map_texts py_strip) "deny_exact"
                (map_field (map_texts py_strip) "allow_exact" (map_field (map_texts (λ s, s)) "allow_prefix" t)))
    | v => v
    end in
  let confirm (v : pyval) :=
    match v with
    | PDict c =>
        PDict (map_field (λ x, match x with PList l => PList (map normalize_rule l) | x => x end) "required_when"
                (map_field (map_texts py_strip) "required_tools" c))
    | v => v
    end in
  map_field confirm "confirm" (map_field tools "tools" raw).

Definition texts (l : list string) : pyval := PList (map PStr l).
Definition DEFAULT_POLICY : dict :=
  [("version", PInt 1); ("scope", PStr "WRITE_SAFE"); ("workspace_root", PStr "~/openminion_tool_runs");
   ("plugins", PDict
     [("allow", texts ["openminion_tool"; "openminion_tool_browser"; "openminion_tool_browser_pinchtab";
        "openminion_tool_search_brave"; "openminion_tool_exec"; "openminion_tool_reactions";
        "openminion_tool_weather_openmeteo"; "openminion_tool_gws"; "openminion_tool_time"; "openminion_tool_host"]);
      ("deny", texts [])]);
   ("tools", PDict
     [("allow_exact", texts ["agent.list"; "agent.get"]);
      ("allow_prefix", texts ["file."; "code."; "cmd."; "sys."; "proc."; "tool."; "browser"; "blockchain."; "commerce.";
        "web."; "exec."; "git."; "plan."; "reactions."; "weather"; "time"; "location"; "host."; "ip."; "gws."; "fetch.";
        "task."; "skill."; "security."; "ops."; "mcp."; "memory."; "graph."]);
      ("deny_exact", texts []); ("deny_prefix", texts []);
      ("weather_openmeteo", PDict [("fallback", PDict [("enabled", PBool false)])])]);
   ("paths", PDict
     [("read_allow", texts ["${WORKSPACE}"]); ("write_allow", texts ["${WORKSPACE}"]);
      ("deny", texts ["/etc"; "/System"; "/Library/Keychains"; "~/.ssh"; "~/.gnupg"; "C:\Windows"; "C:\Program Files";
        "C:\Program Files (x86)"])]);
   ("commands", PDict
     [("mode", PStr "allowlist");
      ("allow", texts ["git"; "python"; "python3"; "python3.11"; "node"; "npm"; "yarn"; "make"; "bash"; "zsh"; "sh"; "ls";
        "pwd"; "echo"; "cat"; "head"; "tail"; "grep"; "rg"; "ripgrep"; "ssh"; "sed"; "awk"; "cut"; "sort"; "uniq"; "wc";
        "whoami"]);
      ("deny_exact", texts ["rm"; "dd"; "mkfs"]);
      ("deny_regex", texts [".*shutdown.*"; ".*reboot.*"; ".*poweroff.*"; ".*halt.*"]);
      ("known_tools", texts DISCOVERY_KNOWN_TOOLS); ("allow_patterns", PList COMMAND_ALLOW_PATTERNS)]);
   ("exec", PDict
     [("security", PStr "allowlist"); ("ask", PStr "on-miss"); ("askFallback", PStr "deny"); ("allowlist", texts []);
      ("host_enabled", PBool false)]);
   ("dangerous", PDict
     [("enabled", PBool true); ("mode", PStr "prompt");
      ("approvals", PDict [("allow_once", PBool true); ("allow_session", PBool true); ("allow_always", PBool true);
        ("deny_default", PBool true)])]);
   ("audit", PDict [("write_mode", PStr "dual"); ("retention_days", PInt 30); ("gc_on_startup", PBool false)]);
   ("env", PDict
     [("allow_keys", texts ["PATH"; "PYTHONPATH"; "NODE_ENV"]);
      ("deny_keys_regex", texts [".*KEY.*"; ".*TOKEN.*"; ".*SECRET.*"])]);
   ("confirm", PDict
     [("required_tools", texts ["proc.kill"; "skill.ingest"]);
      ("required_when", PList
        [PDict [("tool", PStr "file.copy"); ("args_match", PDict [("overwrite", PBool true)])];
         PDict [("tool", PStr "file.move"); ("args_match", PDict [("overwrite", PBool true)])];
         PDict [("tool", PStr "cmd.run"); ("args_match_contains_argv", texts ["sudo"])]])]);
   ("limits", PDict
     [("outer_timeout_sec", PInt 60); ("cmd_timeout_sec", PInt 45); ("cmd_max_output_bytes", PInt 200000);
      ("file_max_read_bytes", PInt 200000); ("fs_list_max_entries", PInt 500);
      ("max_artifact_bytes_total", PInt 50000000); ("max_single_artifact_bytes", PInt 10000000)]);
   ("redaction", PDict [("mode", PStr "normal")])]%Z.
(** [Policy.load]: [loaded] is the object of the file, empty when there is none. *)
Definition policy_load (loaded : pyval) : TR dict :=
  match py_or loaded (PDict []) with
  | PDict d => Ok (deep_merge DEFAULT_POLICY (normalize_policy_legacy_aliases d))
  | _ => _invalid_argument "Policy file must parse to an object"
  end.
