(* ===== verification/ExecPolicy.v ===== *)
(** The tool that runs commands, up to their start: how a command is checked
    (tools/exec/policy.py, hints.py and workspace.py), and the handler of [exec.run]
    (handlers.py, sessions.py, schemas.py).

    Debug events are not modelled.  The shell family and the directories that exist
    are parameters of the checks. *)

From S2P Require Import Prelude PyValue PyText CommandParser ToolPolicy.
From Stdlib Require Import Ascii.

(** ** Hints *)

Definition _UNSUPPORTED_REDIRECTION_HINT_TOOL : string :=
  "file.list_dir".
Definition _UNSUPPORTED_REDIRECTION_HINT_FIX : string :=
  "Redirections are not supported. For workspace inspection, use file.list_dir and file.read instead of"
    +:+ " shell chains. For command output, run the command directly; stdout and stderr previews are captured"
    +:+ " separately.".
Definition _UNSUPPORTED_COMMAND_OUTPUT_REDIRECTION_HINT_TOOL : string :=
  "exec.run".
Definition _UNSUPPORTED_COMMAND_OUTPUT_REDIRECTION_HINT_FIX : string :=
  "Redirections, pipes, and shell output truncation are not supported. Run the verification command dir"
    +:+ "ectly; stdout and stderr previews are captured separately.".
Definition _PYTEST_EXECUTABLE_HINT_TOOL : string :=
  "exec.run".
Definition _PYTEST_EXECUTABLE_HINT_FIX : string :=
  "Bare `pytest` is not allowlisted. Run pytest through the allowed Python module form instead: `python"
    +:+ " -m pytest -q tests`. Do not use pipes, redirections, shell chaining, or output truncation.".
Definition _PACKAGE_INSTALL_HINT_TOOL : string :=
  "exec.run".
Definition _PACKAGE_INSTALL_HINT_FIX : string :=
  "Package-manager install commands are not allowlisted for this execution surface. Do not install the "
    +:+ "project just to verify local changes. If the task requires Python test verification, run the allowed"
    +:+ " direct command `python -m pytest -q tests` from the workspace instead.".
Definition _DISCOVERY_HINT_TOOL : string :=
  "exec.run".
Definition _DISCOVERY_HINT_FIX : string :=
  "Run toolchain discovery as a direct command such as `command -v nasm`, then run a separate direct ve"
    +:+ "rsion check such as `nasm --version` if the tool exists. Do not use pipes, redirections, or shell ch"
    +:+ "aining.".
Definition READ_ONLY_DISCOVERY_HINTS : list (string * (string * string)) :=
  [("find", ("file.find",
     "If you are enumerating files in the workspace, use file.find or file.list_dir(recursive=True) instea"
     +:+ "d of shelling out to find; both stay inside the workspace sandbox and return structured results."));
   ("ls", ("file.list_dir",
     "If you are listing directory contents, use file.list_dir instead of shelling out to ls; file.list_di"
     +:+ "r returns structured entries and supports recursive listing."));
   ("cat", ("file.read",
     "If you are reading a file, use file.read instead of shelling out to cat; file.read returns structure"
     +:+ "d content with encoding handling."));
   ("head", ("file.read",
     "If you are reading the first lines of a file, use file.read with the appropriate range arguments ins"
     +:+ "tead of shelling out to head."));
   ("tail", ("file.read",
     "If you are reading the last lines of a file, use file.read with the appropriate range arguments inst"
     +:+ "ead of shelling out to tail."));
   ("grep", ("file.search",
     "If you are searching for a pattern across files, use file.search instead of shelling out to grep; fi"
     +:+ "le.search returns structured matches with file path and line context."));
   ("curl", ("web.fetch",
     "If you are fetching web content, use web.fetch for a known URL or web.search when you need to discov"
     +:+ "er sources. Do not shell out to curl; the web tools provide the bounded network surface."));
   ("wget", ("web.fetch",
     "If you are fetching web content, use web.fetch for a known URL or web.search when you need to discov"
     +:+ "er sources. Do not shell out to wget; the web tools provide the bounded network surface."))].

(** [details.setdefault] of a suggested tool and fix *)
Definition suggest (tool fix_ : string) (d : dict) : dict :=
  dsetdefault (dsetdefault d "suggested_tool" (PStr tool)) "suggested_fix" (PStr fix_).
Definition _attach_parse_error_hint (details : dict) (code : string) : dict :=
  if String.eqb (py_strip code) "unsupported_redirection" then
    let command := py_lower (str_or_blank (dget_none details "command")) in
    if py_contains command "pytest" || py_contains command "python -m"
    then suggest _UNSUPPORTED_COMMAND_OUTPUT_REDIRECTION_HINT_TOOL _UNSUPPORTED_COMMAND_OUTPUT_REDIRECTION_HINT_FIX details
    else suggest _UNSUPPORTED_REDIRECTION_HINT_TOOL _UNSUPPORTED_REDIRECTION_HINT_FIX details
  else details.
Definition _attach_executable_denial_hint (details : dict) (executable : string) : dict :=
  let normalized := py_lower (py_strip executable) in
  let d := if String.eqb normalized "pytest" then suggest _PYTEST_EXECUTABLE_HINT_TOOL _PYTEST_EXECUTABLE_HINT_FIX details
           else details in
  let d := if str_in normalized ["pip"; "pip3"] then suggest _PACKAGE_INSTALL_HINT_TOOL _PACKAGE_INSTALL_HINT_FIX d else d in
  if str_in normalized ["command"; "which"] then suggest _DISCOVERY_HINT_TOOL _DISCOVERY_HINT_FIX d else d.
Definition is_discovery_segment (segment : CommandSegment) : bool :=
  match map py_strip (cs_argv segment) with
  | [] => false
  | a :: rest => str_in a ["command"; "which"] || strs_eq rest ["--version"]
  end.
Definition _discovery_chain_detected (parsed : ParseResult) : bool :=
  negb (bool_decide (pr_operators parsed = [])) && existsb is_discovery_segment (pr_segments parsed).
Definition position_val (p : option nat) : pyval := match p with Some n => PInt (Z.of_nat n) | None => PNone end.
Definition _attach_discovery_chain_hint (command : string) : dict :=
  [("command", PStr command); ("parse_error_code", PStr "unsupported_chain"); ("parse_error_position", PNone);
   ("suggested_tool", PStr _DISCOVERY_HINT_TOOL); ("suggested_fix", PStr _DISCOVERY_HINT_FIX)].
Definition parse_error_details (command : string) (e : CommandParseError) : dict :=
  _attach_parse_error_hint
    [("command", PStr command); ("parse_error_code", PStr (pe_code e)); ("parse_error_position", position_val (pe_position e))]
    (pe_code e).
Definition unsupported_shell_details (command : string) (family : ShellFamily) : dict :=
  [("command", PStr command); ("shell_family", PStr (shell_value family)); ("parse_error_code", PStr "unsupported_shell");
   ("parse_error_position", PNone)].

(** ** Settings *)

Definition EXEC_SAFE_BINS_DEFAULT : list string :=
  ["awk"; "cat"; "cut"; "grep"; "head"; "sed"; "sort"; "tail"; "tr"; "uniq"; "wc"; "whoami"].
Definition EXEC_SAFE_BIN_TRUSTED_DIRS_DEFAULT : list string :=
  ["/bin"; "/usr/bin"; "/usr/local/bin"; "/usr/lib/cargo/bin/coreutils"].
Definition EXEC_DENY_HOST_ENV_PREFIXES : list string := ["LD_"; "DYLD_"].
Definition _normalize_bool_env (value : string) : bool := str_in (py_lower (py_strip value)) ["1"; "true"; "yes"; "on"].
Definition _env_value (ctx : RuntimeContext) (key def : string) : string :=
  str_or_blank (default (PStr def) (dget (ctx_env ctx) key)).
Definition _host_execution_enabled (ctx : RuntimeContext) : TR bool :=
  enabled ← exec_host_enabled (ctx_raw ctx);
  Ok (enabled || _normalize_bool_env (_env_value ctx "OPENMINION_TOOL_EXEC_ENABLE_HOST_EXEC" "0")).
Definition _sanitize_command (command : string) : string :=
  let normalized := py_strip command in
  if (String.length normalized <=? 240)%nat then normalized
  else String.substring 0 240 normalized +:+ "...[truncated]".
(** [None] when the variables may be set. *)
Fixpoint host_env_error (env : list (string * string)) : option string :=
  match env with
  | [] => None
  | (key, _) :: rest =>
      let key := py_upper key in
      if String.eqb key "PATH" then Some "host execution rejects env override PATH"
      else if existsb (py_startswith key) EXEC_DENY_HOST_ENV_PREFIXES
      then Some "host execution rejects dynamic loader env overrides (LD_*/DYLD_*)"
      else host_env_error rest
  end.
Definition _env_overrides_for_mode (host : string) (env : list (string * string)) : option string :=
  if String.eqb host "sandbox" then None else host_env_error env.
(** [re.split] at colons and commas *)
Definition split_colon_comma (s : string) : list string := split_char ":" s ≫= split_char ",".
Definition split_comma_tokens (s : string) : list string := List.filter truthy (map py_strip (split_char "," s)).

(** [re.sub] of a final run of redirections of the error output *)
Definition ends_in_capture (s : string) : option string :=
  let n := String.length s in
  if py_endswith s "2>&1" then
    let before := String.substring 0 (n - 4) s in
    let trimmed := drop_while_end latin1_is_space before in
    if String.eqb trimmed before then None else Some trimmed
  else None.
Fixpoint drop_captures (fuel : nat) (s : string) : string :=
  match fuel with
  | O => s
  | S fuel' => match ends_in_capture s with Some t => drop_captures fuel' t | None => s end
  end.
Definition _normalize_capture_redirection_suffix (command : string) : string :=
  let raw := py_strip command in py_strip (drop_captures (String.length raw) raw).

Section Exec.
Context {Env : PyEnv} {Sys : ToolEnv} (family : ShellFamily).

(** ** Executables *)

Definition resolved_paths (l : list string) : list Path := map resolved_text (List.filter truthy (map py_strip l)).
Definition _parse_allowlist_paths_from_env (ctx : RuntimeContext) : list Path :=
  let raw := _env_value ctx "OPENMINION_TOOL_EXEC_ALLOWLIST_PATHS" "" in
  if truthy raw then resolved_paths (split_colon_comma raw) else [].
Definition _parse_safe_bins_from_env (ctx : RuntimeContext) : list string :=
  let raw := _env_value ctx "OPENMINION_TOOL_EXEC_SAFE_BINS" "" in
  if truthy raw then split_comma_tokens raw else EXEC_SAFE_BINS_DEFAULT.
Definition _parse_safe_bin_trusted_dirs_from_env (ctx : RuntimeContext) : list Path :=
  let raw := _env_value ctx "OPENMINION_TOOL_EXEC_SAFE_BIN_TRUSTED_DIRS" "" in
  if truthy raw then resolved_paths (split_colon_comma raw) else map parse_path EXEC_SAFE_BIN_TRUSTED_DIRS_DEFAULT.
Definition _is_under_trusted_dir (path : Path) (trusted : list Path) : bool :=
  let candidate := resolved_text (path_text path) in
  existsb (λ t, _is_subpath candidate (resolved_text (path_text t))) trusted.

Definition _canonicalize_executable_name (executable : string) : string :=
  let raw_name := py_strip executable in
  if negb (truthy raw_name) then raw_name
  else if String.eqb raw_name "python3" && otruthy (which "python3.11") then "python3.11"
  else if String.eqb raw_name "python" && negb (is_some (which "python")) && otruthy (which "python3.11")
  then "python3.11"
  else raw_name.
Definition canonical_argv (argv : list string) : list string :=
  match argv with [] => [] | a :: rest => _canonicalize_executable_name a :: rest end.
(** The segments joined again by their operators. *)
Fixpoint rebuild_from (built : string) (operators segments : list string) : string :=
  match operators, segments with
  | op :: ops, seg :: segs => rebuild_from (built +:+ " " +:+ op +:+ " " +:+ seg) ops segs
  | _, _ => built
  end.
Definition rebuild (argvs : list (list string)) (operators : list string) : string :=
  match map shlex_join argvs with [] => "" | s :: rest => rebuild_from s operators rest end.
Definition _normalize_executable_variants (command : string) : string :=
  let raw_command := py_strip command in
  match family with
  | POSIX =>
      match parse_command raw_command family with
      | Ok parsed =>
          let argvs := map cs_argv (pr_segments parsed) in
          if bool_decide (map canonical_argv argvs = argvs) then raw_command
          else rebuild (map canonical_argv argvs) (pr_operators parsed)
      | Raise _ => raw_command
      end
  | _ => raw_command
  end.

(** ** Validation *)

(** The answer of a validator: whether the command is allowed, the message and the
    details. *)
Record Verdict := { v_allowed : bool; v_message : string; v_details : dict }.
Definition refuse (message : string) (details : dict) : TR Verdict :=
  Ok {| v_allowed := false; v_message := message; v_details := details |}.
Definition checked_row (raw exec_ : string) (key value : string) : pyval :=
  PDict [("segment", PStr raw); ("exec", PStr exec_); (key, PStr value)].
Definition accept (checked : list pyval) : TR Verdict :=
  Ok {| v_allowed := true; v_message := ""; v_details := [("checked", PList checked)] |}.

Definition _direct_discovery_allowlist_details (command : string) (parsed : ParseResult) : option (list pyval) :=
  match parsed with
  | {| pr_segments := [segment]; pr_operators := [] |} =>
      let exec := default "" (head (cs_argv segment)) in
      if str_in exec ["command"; "which"] && is_read_only_exec_command command family
      then Some [checked_row (cs_raw segment) exec "path" "shell-discovery-builtin"] else None
  | _ => None
  end.
(** The file that an executable names. *)
Definition executable_path (raw_exec : string) : option Path :=
  let located := if is_absolute (parse_path raw_exec) then Some raw_exec else which raw_exec in
  match located with
  | Some s => if truthy s then Some (resolved_text s) else None
  | None => None
  end.
Definition host_executable_ok (allowed : list Path) (bins : list string) (trusted : list Path) (p : Path) : bool :=
  existsb (path_eqb p) allowed || (str_in (path_name p) bins && _is_under_trusted_dir p trusted).
Fixpoint host_segments (allowed : list Path) (bins : list string) (trusted : list Path) (checked : list pyval)
    (segments : list CommandSegment) : TR Verdict :=
  match segments with
  | [] => accept checked
  | segment :: rest =>
      let raw_exec := default "" (head (cs_argv segment)) in
      match executable_path raw_exec with
      | None => refuse ("allowlist validation failed: executable not found '" +:+ raw_exec +:+ "'")
                  [("segment", PStr (cs_raw segment))]
      | Some p =>
          let checked := checked ++ [checked_row (cs_raw segment) (path_name p) "path" (path_text p)] in
          if host_executable_ok allowed bins trusted p then host_segments allowed bins trusted checked rest
          else refuse ("allowlist validation failed: executable '" +:+ path_name p +:+ "' is not allowed")
                 (_attach_executable_denial_hint
                    [("segment", PStr (cs_raw segment)); ("resolved_path", PStr (path_text p)); ("checked", PList checked)]
                    (path_name p))
      end
  end.
Definition _validate_host_allowlist (command : string) (ctx : RuntimeContext) : TR Verdict :=
  match family with
  | UNKNOWN => refuse "allowlist validation failed: unsupported shell family" (unsupported_shell_details command family)
  | _ =>
      match parse_command command family with
      | Raise e => refuse ("allowlist validation failed: " +:+ pe_message e) (parse_error_details command e)
      | Ok parsed =>
          match _direct_discovery_allowlist_details command parsed with
          | Some checked => accept checked
          | None =>
              policy_bins ← exec_allowlist (ctx_raw ctx);
              host_segments (_parse_allowlist_paths_from_env ctx) (policy_bins ++ _parse_safe_bins_from_env ctx)
                (_parse_safe_bin_trusted_dirs_from_env ctx) [] (pr_segments parsed)
          end
      end
  end.

(** The details of a refused segment, with the hints for its executable. *)
Definition segment_details (command executable : string) (details : dict) : dict :=
  let d := if String.eqb executable "mkdir"
           then suggest "file.write"
                  ("If you are scaffolding files or folders, write the target file directly with file.write; parent "
                   +:+ "directories are created automatically by default.") details
           else details in
  let d := if String.eqb executable "cd"
           then dsetdefault (dsetdefault d "suggested_tool" (PStr "exec.run")) "suggested_fix"
                  (PStr (if bool_decide (py_re_search "\bpip(?:3)?\s+install\b" command = Some true)
                         then _PACKAGE_INSTALL_HINT_FIX
                         else "Do not prefix the command with `cd ... &&`. Pass the target directory with the exec.run "
                              +:+ "`workdir`/`cwd` argument and keep the command itself focused on the executable you want "
                              +:+ "to run."))
           else d in
  let d := match List.find (λ kv, String.eqb kv.1 executable) READ_ONLY_DISCOVERY_HINTS with
           | Some (_, (tool, fix_)) => suggest tool fix_ d
           | None => d
           end in
  _attach_executable_denial_hint d executable.
Fixpoint policy_segments (raw : dict) (confirm : bool) (command : string) (checked : list pyval)
    (segments : list CommandSegment) : TR Verdict :=
  match segments with
  | [] => accept checked
  | segment :: rest =>
      let executable := default "" (head (cs_argv segment)) in
      match ensure_command_allowed raw (cs_argv segment) confirm with
      | Ok resolved =>
          policy_segments raw confirm command (checked ++ [checked_row (cs_raw segment) executable "resolved" resolved]) rest
      | Raise (ToolRuntimeError code message details) =>
          let details := segment_details command executable details in
          refuse (if String.eqb code "POLICY_DENIED" && py_truthy (dget_none details "command")
                  then "blocked executable: " +:+ py_str (dget_none details "command") else message)
            (dupdate [("segment", PStr (cs_raw segment))] details)
      | Raise e => Raise e
      end
  end.
Definition _validate_command_against_policy (command : string) (ctx : RuntimeContext) : TR Verdict :=
  match family with
  | UNKNOWN => refuse "exec validation not supported: unsupported shell family" (unsupported_shell_details command family)
  | _ =>
      match parse_command command family with
      | Raise e => refuse ("unsupported command syntax: " +:+ pe_message e) (parse_error_details command e)
      | Ok parsed =>
          if _discovery_chain_detected parsed
          then refuse "unsupported command syntax: split toolchain discovery into direct commands"
                 (_attach_discovery_chain_hint command)
          else policy_segments (ctx_raw ctx) (ctx_confirm ctx) command [] (pr_segments parsed)
      end
  end.

(** ** The working directory *)

Context (workspace_root : Path) (is_dir : Path → bool).

Definition workdir_root (value : pyval) : list Path :=
  let s := str_or_blank value in
  if negb (truthy s) then []
  else if str_in s ["."; "$workspace"; "${workspace}"; "{workspace}"] then [realpath workspace_root]
  else [realpath (under workspace_root (expand s))].
(** The values of [read_allow] or [write_allow]: a single text stands for itself. *)
Definition allow_values (paths : dict) (k : string) : list pyval :=
  match py_or (dget_none paths k) (PList []) with
  | PStr s => [PStr s]
  | PList l => l
  | PDict m => map (λ kv, PStr kv.1) m
  | _ => []
  end.
Fixpoint distinct_paths (seen : list Path) (l : list Path) : list Path :=
  match l with
  | [] => []
  | p :: rest => if existsb (path_eqb p) seen then distinct_paths seen rest else p :: distinct_paths (p :: seen) rest
  end.
Definition _candidate_workdir_roots (ctx : RuntimeContext) : list Path :=
  let listed := match dget_none (ctx_raw ctx) "paths" with
                | PDict paths => (allow_values paths "read_allow" ++ allow_values paths "write_allow") ≫= workdir_root
                | _ => []
                end in
  distinct_paths [] (workspace_root :: listed).
Definition _resolve_single_part_workdir (raw_name : string) (roots : list Path) : Path :=
  let normalized := py_strip raw_name in
  match List.find (λ r, String.eqb (path_name r) normalized) roots with
  | Some r => r
  | None =>
      match List.find is_dir (map (λ r, realpath (path_div r (parse_path normalized))) roots) with
      | Some p => p
      | None => path_div workspace_root (parse_path normalized)
      end
  end.
End Exec.

(** [inl] is the text of a [ValueError]. *)
Definition _resolve_workspace_cwd `{PyEnv} `{ToolEnv} (is_dir : Path → bool) (ctx : RuntimeContext)
    (raw_workdir : option string) : TR (string + Path) :=
  let workspace_root := resolve_tool_workspace_root (ctx_env ctx) (ctx_workspace ctx) in
  let roots := _candidate_workdir_roots workspace_root ctx in
  let given := py_strip (default "" raw_workdir) in
  let candidate :=
    if negb (truthy given) then workspace_root
    else
      let p := expand given in
      realpath (match pt_parts p with
                | [name] => if is_absolute p then p else _resolve_single_part_workdir workspace_root is_dir name roots
                | _ => under workspace_root p
                end) in
  if negb (existsb (_is_subpath candidate) roots) then Ok (inl "workdir must stay under workspace root or allowed path")
  else if negb (is_dir candidate) then Ok (inl "workdir does not exist or is not a directory")
  else _ ← ensure_path_allowed (ctx_raw ctx) (path_text candidate) workspace_root "read"; Ok (inr candidate).

(** * The handler of [exec.run] up to the point where a command is started:
    tools/exec/handlers.py and tools/exec/sessions.py, with the arguments of
    tools/exec/schemas.py and the shell of tools/exec/process.py.

    [_h_exec_run] returns the error, the request for an approval, or what is handed to
    the sandbox, its sessions or the process manager.  The summaries and the events
    of the results are left out. *)

(** ** Arguments *)

Record ExecRunArgs := {
  er_command : string; er_workdir : option string; er_env : list (string * string); er_yield_ms : Z; er_background : bool;
  er_timeout_s : Z; er_pty : bool; er_host : string; er_security : string; er_ask : string; er_ask_fallback : string;
  er_node : option string; er_include_evidence_artifact : bool;
}.
Definition with_command (p : ExecRunArgs) (command : string) (workdir : option string) : ExecRunArgs :=
  {| er_command := command; er_workdir := workdir; er_env := er_env p; er_yield_ms := er_yield_ms p;
     er_background := er_background p; er_timeout_s := er_timeout_s p; er_pty := er_pty p; er_host := er_host p;
     er_security := er_security p; er_ask := er_ask p; er_ask_fallback := er_ask_fallback p; er_node := er_node p;
     er_include_evidence_artifact := er_include_evidence_artifact p |}.
Definition with_host (p : ExecRunArgs) (host security ask : string) : ExecRunArgs :=
  {| er_command := er_command p; er_workdir := er_workdir p; er_env := er_env p; er_yield_ms := er_yield_ms p;
     er_background := er_background p; er_timeout_s := er_timeout_s p; er_pty := er_pty p; er_host := host;
     er_security := security; er_ask := ask; er_ask_fallback := er_ask_fallback p; er_node := er_node p;
     er_include_evidence_artifact := er_include_evidence_artifact p |}.
Definition validated (p : ExecRunArgs) (command : string) (env : list (string * string)) (node : option string) : ExecRunArgs :=
  {| er_command := command; er_workdir := er_workdir p; er_env := env; er_yield_ms := er_yield_ms p;
     er_background := er_background p; er_timeout_s := er_timeout_s p; er_pty := er_pty p; er_host := er_host p;
     er_security := er_security p; er_ask := er_ask p; er_ask_fallback := er_ask_fallback p; er_node := node;
     er_include_evidence_artifact := er_include_evidence_artifact p |}.

Definition _EXEC_RUN_COMMAND_ALIASES : list string := ["cmd"; "command_line"].
Definition _EXEC_RUN_WORKDIR_ALIASES : list string := ["cwd"; "working_directory"; "path"].
Definition _EXEC_RUN_TIMEOUT_ALIASES : list string :=
  ["timeout"; "timeout_ms"; "timeout_sec"; "timeout_secs"; "timeout_seconds"; "max_duration"].
Definition _EXEC_RUN_IGNORED_METADATA_KEYS : list string := ["daemon"; "description"; "stderr_to_stdout"].
(** One name among the aliases of a field: it is dropped when the field is there and
    renamed when it is not. *)
Definition take_alias (field : string) (read : string → pyval → pyval) (cleaned : dict) (alias : string) : dict :=
  match dget cleaned alias with
  | None => cleaned
  | Some v => if dmem cleaned field then dpop cleaned alias else dset (dpop cleaned alias) field (read alias v)
  end.
Definition timeout_value (alias : string) (v : pyval) : pyval :=
  if String.eqb alias "timeout_ms" then match py_int v with Ok z => PInt (Z.max 1 (z / 1000)) | Raise _ => v end else v.
Definition _coerce_aliases (values : dict) : dict :=
  let d := fold_left (take_alias "command" (λ _ v, v)) _EXEC_RUN_COMMAND_ALIASES values in
  let d := fold_left (take_alias "workdir" (λ _ v, v)) _EXEC_RUN_WORKDIR_ALIASES d in
  let d := fold_left (take_alias "timeout_s" timeout_value) _EXEC_RUN_TIMEOUT_ALIASES d in
  fold_left dpop _EXEC_RUN_IGNORED_METADATA_KEYS d.
Definition invalid {A} : TR A := Raise (ToolPython "ValidationError").
Definition _normalize_command (value : string) : TR string :=
  let normalized := py_strip value in if truthy normalized then Ok normalized else invalid.
Definition _normalize_node (value : option string) : option string :=
  match value with Some s => let n := py_strip s in if truthy n then Some n else None | None => None end.
Definition _normalize_workdir (value : pyval) : pyval :=
  match value with PNone => PNone | v => let n := py_strip (py_str v) in if truthy n then PStr n else PNone end.

(** ** The shell *)

(** The platform, the variable [SHELL] and the files that exist. *)
Record HostShell := { hs_windows : bool; hs_SHELL : string; hs_exists : string → bool }.
Definition posix_shells : list string :=
  ["/bin/bash"; "/usr/bin/bash"; "/bin/zsh"; "/usr/bin/zsh"; "/bin/sh"; "/usr/bin/sh"].
Definition not_fish (shell : string) : bool := negb (String.eqb (py_lower (path_name (parse_path shell))) "fish").
Definition _select_shell `{ToolEnv} (hs : HostShell) (command : string) : list string * ShellFamily :=
  if hs_windows hs then
    match List.find otruthy (map which ["pwsh"; "powershell"]) with
    | Some located => ([default "" located; "-NoLogo"; "-NoProfile"; "-Command"; command], POWERSHELL)
    | None => (["cmd.exe"; "/c"; command], CMD)
    end
  else
    let env_shell := py_strip (hs_SHELL hs) in
    if truthy env_shell && not_fish env_shell && hs_exists hs env_shell then ([env_shell; "-lc"; command], POSIX)
    else
      match List.find (λ c, hs_exists hs c && not_fish c) posix_shells with
      | Some candidate => ([candidate; "-lc"; command], POSIX)
      | None => (["sh"; "-lc"; command], POSIX)
      end.
Definition resolve_shell_family `{ToolEnv} (hs : HostShell) : ShellFamily := (_select_shell hs "").2.

(** ** What is handed on *)

Record SecurityLabExecutionScope := {
  sl_session_id : string; sl_activation_id : string; sl_config_fingerprint : string;
  sl_resolved_scope_fingerprint : string; sl_daemon_id : string; sl_target_container_id : string;
  sl_target_image_id : string; sl_worker_image_digest : string;
}.
(** [ExecutionSandboxSpec]; the network is denied unless a specification says
    otherwise.  The last field is that of [SecurityLabExecutionSpec]. *)
Record ExecutionSandboxSpec := {
  sp_workspace_root : string; sp_read_allow : list string; sp_write_allow : list string; sp_delete_allow : list string;
  sp_cmd_allowlist : list string; sp_env_allowlist : list string; sp_timeout_s : Z; sp_max_output_bytes : Z;
  sp_session_mode : string; sp_net_mode : string; sp_security_lab : option SecurityLabExecutionScope;
}.
Record ExecSpec := { xs_cmd : list string; xs_cwd : string; xs_env : list (string * string) }.
Inductive session_backend : Type := PROCESS_MANAGER | SANDBOX_SESSIONS.
Record _ExecRunPreparation := {
  ep_agent_id : string; ep_params : ExecRunArgs; ep_cwd_path : Path; ep_env : list (string * string);
  ep_shell_argv : list string; ep_shell_family : ShellFamily; ep_sandbox_spec : option ExecutionSandboxSpec;
  ep_exec_spec : option ExecSpec; ep_session_backend : session_backend; ep_use_sandbox_runner : bool;
  ep_use_sandbox_sessions : bool;
}.
Inductive exec_outcome : Type :=
| ExecError (code message : string) (details : dict)
| ApprovalPending
| Prepared (prep : _ExecRunPreparation).

(** Whether the context has a sandbox, and whether that keeps sessions. *)
Record Sandbox := { sb_runner : bool; sb_session_manager : bool }.
Definition _sandbox_session_manager_for_ctx (sb : Sandbox) : bool := sb_runner sb && sb_session_manager sb.
(** The configuration of the laboratory, when there is a runner for it. *)
Record SecurityLabConfig := {
  lc_executable_allowlist : list string; lc_command_timeout_seconds : Z; lc_max_output_bytes : Z;
}.

Definition _agent_id (ctx : RuntimeContext) : string :=
  let v := dget_none (ctx_raw ctx) "agent_id" in
  if py_truthy v then py_str v
  else let e := _env_value ctx "OPENMINION_AGENT_ID" "" in if truthy e then e else "default-agent".
Definition _security_lab_metadata (ctx : RuntimeContext) : dict :=
  match dget_none (ctx_raw ctx) "context_metadata" with PDict m => m | _ => [] end.
Definition _security_lab_required (ctx : RuntimeContext) : bool :=
  String.eqb (py_lower (py_str (default (PStr "") (dget (_security_lab_metadata ctx) "lab_required")))) "true".
Definition watch_job (ctx : RuntimeContext) : bool :=
  match dget_none (ctx_raw ctx) "context_metadata" with
  | PDict m => String.eqb (py_lower (str_or_blank (dget_none m "watch_job"))) "true"
  | _ => false
  end.
Definition _sandbox_env_allowlist (ctx : RuntimeContext) : TR (list string) :=
  match default (PDict []) (dget (ctx_raw ctx) "env") with
  | PDict cfg =>
      l ← py_iter (py_or (default (PList []) (dget cfg "allow_keys")) (PList []));
      Ok (List.filter truthy (map (λ v, py_strip (py_str v)) l))
  | _ => Ok []
  end.

Section Run.
Context {Env : PyEnv} {Sys : ToolEnv} (hs : HostShell) (is_dir : Path → bool) (sb : Sandbox).
(** What pydantic reads from the fields, what [json.loads] reads from a text, and
    [float] of a text as a fraction. *)
Context (pydantic : dict → option ExecRunArgs) (json_loads : string → option pyval)
  (float_of_text : string → option (Z * positive)).

Definition env_texts (v : pyval) : TR (list (string * string)) :=
  match v with PDict d => Ok (map (λ kv, (kv.1, py_str kv.2)) d) | _ => invalid end.
Definition _normalize_env (value : pyval) : TR (list (string * string)) :=
  match value with
  | PNone => Ok []
  | PStr s =>
      let token := py_strip s in
      if negb (truthy token) then Ok []
      else match json_loads token with Some v => env_texts v | None => invalid end
  | v => env_texts v
  end.
(** [ExecRunArgs.model_validate] *)
Definition model_validate (args : dict) : TR ExecRunArgs :=
  let cleaned := map_field _normalize_workdir "workdir" (_coerce_aliases args) in
  env ← match dget cleaned "env" with Some v => _normalize_env v | None => Ok [] end;
  match pydantic (map_field (λ _, PDict (map (λ kv, (kv.1, PStr kv.2)) env)) "env" cleaned) with
  | Some p => command ← _normalize_command (er_command p); Ok (validated p command env (_normalize_node (er_node p)))
  | None => invalid
  end.

Definition _build_exec_sandbox_spec (ctx : RuntimeContext) (shell_argv : list string) (timeout_s : Z) (mode : string)
    : TR ExecutionSandboxSpec :=
  let shell_cmd := py_strip (default "" (head shell_argv)) in
  let shell_name := path_name (parse_path shell_cmd) in
  let cmd_allowlist := if truthy shell_cmd
                       then [shell_cmd] ++ (if truthy shell_name && negb (String.eqb shell_name shell_cmd) then [shell_name] else [])
                       else [] in
  let root := path_text (resolved_text (ctx_workspace ctx)) in
  env_allowlist ← _sandbox_env_allowlist ctx;
  Ok {| sp_workspace_root := root; sp_read_allow := [root]; sp_write_allow := [root]; sp_delete_allow := [];
        sp_cmd_allowlist := cmd_allowlist; sp_env_allowlist := env_allowlist; sp_timeout_s := timeout_s;
        sp_max_output_bytes := 4096 * 4; sp_session_mode := mode; sp_net_mode := "deny"; sp_security_lab := None |}.
Definition _exec_environment (params : ExecRunArgs) (ctx : RuntimeContext) : TR (list (string * string)) :=
  env ← filter_env (ctx_raw ctx) (er_env params); Ok (List.filter (λ kv, negb (String.eqb kv.1 "SSH_AUTH_SOCK")) env).

(** ** Ordinary commands *)

Definition normalized_run (params : ExecRunArgs) : ExecRunArgs :=
  let '(command, workdir) := normalize_cd_prefixed_command (er_command params) (er_workdir params) in
  with_command params
    (_normalize_executable_variants (resolve_shell_family hs) (_normalize_capture_redirection_suffix command)) workdir.
(** The checks for a command outside of the sandbox; [None] when it may go on. *)
Definition host_checks (params : ExecRunArgs) (ctx : RuntimeContext) : TR (option exec_outcome) :=
  if String.eqb (er_host params) "sandbox" then Ok None
  else if String.eqb (er_security params) "deny"
  then Ok (Some (ExecError "POLICY_DENIED" "host execution denied by security mode"
                   [("host", PStr (er_host params)); ("security", PStr (er_security params))]))
  else
    verdict ← (if String.eqb (er_security params) "allowlist"
               then _validate_host_allowlist (resolve_shell_family hs) (er_command params) ctx else accept []);
    if negb (v_allowed verdict) then Ok (Some (ExecError "POLICY_DENIED" (v_message verdict) (v_details verdict)))
    else
      enabled ← _host_execution_enabled ctx;
      if negb enabled
      then Ok (Some (ExecError "UNSANDBOXED_EXEC_DISABLED" "unsandboxed execution disabled" [("host", PStr (er_host params))]))
      else if str_in (er_ask params) ["on-miss"; "always"] && negb (ctx_confirm ctx) then Ok (Some ApprovalPending)
      else Ok None.
(** What a checked command is run with. *)
Definition preparation (params : ExecRunArgs) (ctx : RuntimeContext) (cwd_path : Path) : TR exec_outcome :=
  env ← _exec_environment params ctx;
  let in_sandbox := String.eqb (er_host params) "sandbox" in
  let session := er_background params || er_pty params in
  let use_sandbox_sessions := in_sandbox && session && _sandbox_session_manager_for_ctx sb in
  let '(shell_argv, shell_family) := _select_shell hs (er_command params) in
  let mode := if er_pty params then "pty" else if er_background params then "background" else "foreground" in
  spec ← (if in_sandbox && sb_runner sb
          then s ← _build_exec_sandbox_spec ctx shell_argv (er_timeout_s params) mode; Ok (Some s) else Ok None);
  if in_sandbox && sb_runner sb && session && negb use_sandbox_sessions
  then let mode := if er_background params then "background" else "pty" in
       Ok (ExecError "SANDBOX_SESSION_UNSUPPORTED" ("sandbox " +:+ mode +:+ " sessions are not supported yet")
             [("host", PStr (er_host params)); ("mode", PStr mode)])
  else
    Ok (Prepared
      {| ep_agent_id := _agent_id ctx; ep_params := params; ep_cwd_path := cwd_path; ep_env := env;
         ep_shell_argv := shell_argv; ep_shell_family := shell_family; ep_sandbox_spec := spec;
         ep_exec_spec := if in_sandbox && sb_runner sb
                         then Some {| xs_cmd := shell_argv; xs_cwd := path_text cwd_path; xs_env := env |} else None;
         ep_session_backend := if use_sandbox_sessions then SANDBOX_SESSIONS else PROCESS_MANAGER;
         ep_use_sandbox_runner := in_sandbox && negb (er_background params) && negb (er_pty params) && sb_runner sb;
         ep_use_sandbox_sessions := use_sandbox_sessions |}).
Definition _prepare_exec_run (given : ExecRunArgs) (ctx : RuntimeContext) : TR exec_outcome :=
  let params := normalized_run given in
  match _env_overrides_for_mode (er_host params) (er_env params) with
  | Some message => Ok (ExecError "POLICY_DENIED" message [("host", PStr (er_host params))])
  | None =>
      if watch_job ctx && negb (is_read_only_exec_command (er_command params) POSIX)
      then Ok (ExecError "POLICY_DENIED" "watch turns only allow read-only exec.run commands"
                 [("watch_job", PBool true); ("command", PStr (_sanitize_command (er_command params)))])
      else
        stopped ← host_checks params ctx;
        match stopped with
        | Some o => Ok o
        | None =>
            located ← _resolve_workspace_cwd is_dir ctx (er_workdir params);
            match located with
            | inl message => Ok (ExecError "INVALID_ARGUMENT" message [("workdir", ostr_val (er_workdir params))])
            | inr cwd_path =>
                verdict ← _validate_command_against_policy (resolve_shell_family hs) (er_command params) ctx;
                if negb (v_allowed verdict) then Ok (ExecError "POLICY_DENIED" (v_message verdict) (v_details verdict))
                else preparation params ctx cwd_path
            end
        end
  end.

(** ** Commands of the laboratory *)

Definition py_float (v : pyval) : TR (Z * positive) :=
  match v with
  | PBool b => Ok (Z.b2z b, 1%positive)
  | PInt z => Ok (z, 1%positive)
  | PFloat n d _ => Ok (n, d)
  | PStr s => match float_of_text s with Some q => Ok q | None => Raise (ToolPython "ValueError") end
  | _ => Raise (ToolPython "TypeError")
  end.
Definition lab_syntax (c : ascii) : bool := is_char ";&|<>`$" c || Ascii.eqb c NEWLINE || Ascii.eqb c "013".
Definition ascii_name_start (c : ascii) : bool :=
  is_char "abcdefghijklmnopqrstuvwxyzABCDEFGHIJKLMNOPQRSTUVWXYZ_" c.
Definition ascii_name_char (c : ascii) : bool := ascii_name_start c || is_char "0123456789" c.
(** [re.fullmatch(r"[A-Za-z_][A-Za-z0-9_]*=.*", s)] where [s] has no newline *)
Fixpoint name_then_equals (s : string) : bool :=
  match s with
  | EmptyString => false
  | String c s' => Ascii.eqb c "=" || (ascii_name_char c && name_then_equals s')
  end.
Definition sets_variable (s : string) : bool :=
  match s with EmptyString => false | String c s' => ascii_name_start c && name_then_equals s' end.
(** The reason why the laboratory may not be used, if there is one; [now] is [time.time()]
    in microseconds.  The text of a value that counts as true is never blank. *)
Definition lab_reason (params : ExecRunArgs) (ctx : RuntimeContext) (lab : option SecurityLabConfig) (now : Z)
    : TR (option string) :=
  let metadata := _security_lab_metadata ctx in
  match py_eq (dget_none metadata "security_lab_state") (PStr "ready"), lab with
  | true, Some config =>
      if negb (String.eqb (ctx_permission_mode ctx) "ask") then Ok (Some "security lab requires permission mode ask")
      else if negb (ctx_confirm ctx) then Ok (Some "security lab exec requires operator approval")
      else if negb (String.eqb (er_host params) "sandbox") || negb (String.eqb (er_security params) "deny")
      then Ok (Some "security lab requires host=sandbox and security=deny")
      else if er_background params || er_pty params || negb (bool_decide (er_env params = []))
      then Ok (Some "security lab requires foreground non-PTY execution without environment values")
      else if is_some (er_workdir params) || is_some (er_node params)
      then Ok (Some "security lab uses its fixed worker directory and target")
      else if negb (er_include_evidence_artifact params) then Ok (Some "security lab requires include_evidence_artifact=true")
      else
        e ← py_float (py_or (default (PInt 0) (dget metadata "activation_expires_at")) (PInt 0));
        let '(num, den) := e in
        (* [remaining * den], in microseconds *)
        let remaining := (num * 1000000 - now * Zpos den)%Z in
        if (remaining <=? 0)%Z || (lc_command_timeout_seconds config <? er_timeout_s params)%Z
           || (remaining <? er_timeout_s params * 1000000 * Zpos den)%Z
        then Ok (Some "security lab timeout exceeds the active approval")
        else Ok None
  | _, _ =>
      Ok (Some (py_str (py_or (default (PStr "") (dget metadata "security_lab_reason")) (PStr "security lab unavailable"))))
  end.
Definition lab_argv (command : string) (config : SecurityLabConfig) : string + list string :=
  if negb (str_all (λ c, negb (lab_syntax c)) command)
  then inl "security lab command must be one direct argv without shell syntax"
  else
    match shlex_split command with
    | Raise _ => inl "security lab command is not valid POSIX argv"
    | Ok [] => inl "security lab command is empty"
    | Ok (exec :: rest) =>
        if sets_variable exec then inl "security lab command cannot set environment values"
        else if negb (str_in exec (lc_executable_allowlist config)) then inl "security lab executable is not allowlisted"
        else inr (exec :: rest)
    end.
Definition metadata_text (metadata : dict) (k : string) : TR string :=
  match dget metadata k with Some v => Ok (py_str v) | None => Raise (ToolPython "KeyError") end.
Definition _security_lab_preparation (params : ExecRunArgs) (ctx : RuntimeContext) (config : SecurityLabConfig)
    (argv : list string) : TR _ExecRunPreparation :=
  let text := metadata_text (_security_lab_metadata ctx) in
  activation ← text "activation_id"; fingerprint ← text "config_fingerprint"; scope ← text "resolved_scope_fingerprint";
  daemon ← text "daemon_id"; container ← text "target_container_id"; image ← text "target_image_id";
  digest ← text "worker_image_digest";
  let spec :=
    {| sp_workspace_root := "/workspace"; sp_read_allow := ["/workspace"]; sp_write_allow := ["/workspace"];
       sp_delete_allow := []; sp_cmd_allowlist := take 1 argv; sp_env_allowlist := []; sp_timeout_s := er_timeout_s params;
       sp_max_output_bytes := lc_max_output_bytes config; sp_session_mode := "foreground"; sp_net_mode := "deny";
       sp_security_lab := Some
         {| sl_session_id := default "" (ctx_session_id ctx); sl_activation_id := activation;
            sl_config_fingerprint := fingerprint; sl_resolved_scope_fingerprint := scope; sl_daemon_id := daemon;
            sl_target_container_id := container; sl_target_image_id := image; sl_worker_image_digest := digest |} |} in
  Ok {| ep_agent_id := _agent_id ctx; ep_params := params; ep_cwd_path := parse_path "/workspace"; ep_env := [];
        ep_shell_argv := argv; ep_shell_family := POSIX; ep_sandbox_spec := Some spec;
        ep_exec_spec := Some {| xs_cmd := argv; xs_cwd := "/workspace"; xs_env := [] |};
        ep_session_backend := PROCESS_MANAGER; ep_use_sandbox_runner := true; ep_use_sandbox_sessions := false |}.
Definition _prepare_security_lab_exec (params : ExecRunArgs) (ctx : RuntimeContext) (lab : option SecurityLabConfig) (now : Z)
    : TR exec_outcome :=
  let refused reason := Ok (ExecError "POLICY_DENIED" reason [("activity_class", PStr "local_lab_active")]) in
  reason ← lab_reason params ctx lab now;
  match reason, lab with
  | Some reason, _ => refused reason
  | None, None => Raise (ToolPython "AttributeError")
  | None, Some config =>
      match lab_argv (er_command params) config with
      | inl reason => refused reason
      | inr argv => prep ← _security_lab_preparation params ctx config argv; Ok (Prepared prep)
      end
  end.

(** ** The handler *)

Definition _gateway_fallback_policy (command : string) (ctx : RuntimeContext) : TR (string * string * string) :=
  verdict ← _validate_host_allowlist (resolve_shell_family hs) command ctx;
  Ok (if v_allowed verdict then ("gateway", "allowlist", "off") else ("gateway", "full", "on-miss")).
Definition no_sandbox : bool := negb (sb_runner sb) && negb (_sandbox_session_manager_for_ctx sb).
Definition _exec_run_sandbox_unavailable (params : ExecRunArgs) (ctx : RuntimeContext) : bool :=
  negb (_security_lab_required ctx) && String.eqb (er_host params) "sandbox" && no_sandbox.
Definition default_host (args : dict) (ctx : RuntimeContext) : TR dict :=
  if negb (_security_lab_required ctx) && negb (dmem args "host") && no_sandbox then
    enabled ← _host_execution_enabled ctx;
    if (enabled : bool) then
      r ← _gateway_fallback_policy (py_str (py_or (dget_none args "command") (py_or (dget_none args "cmd") (PStr "")))) ctx;
      let '(host, security, ask) := r in
      Ok (dupdate args [("host", PStr host); ("security", PStr security); ("ask", PStr ask)])
    else Ok args
  else Ok args.
Definition fallback_host (params : ExecRunArgs) (ctx : RuntimeContext) : TR ExecRunArgs :=
  if _exec_run_sandbox_unavailable params ctx then
    enabled ← _host_execution_enabled ctx;
    if (enabled : bool) then
      r ← _gateway_fallback_policy (er_command params) ctx;
      let '(host, security, ask) := r in Ok (with_host params host security ask)
    else Ok params
  else Ok params.
Definition SANDBOX_UNAVAILABLE_MESSAGE : string :=
  "sandbox execution is not configured; use structured file tools, configure a sandbox, or restart with "
  +:+ "--allow-unsandboxed-exec".
Definition HOST_WARNING : string :=
  "Unsandboxed commands use the OpenMinion process's OS permissions and are not confined to workspace roots.".
Definition _h_exec_run (args : dict) (ctx : RuntimeContext) (lab : option SecurityLabConfig) (now : Z) : TR exec_outcome :=
  normalized ← default_host args ctx;
  validated ← model_validate normalized;
  params ← fallback_host validated ctx;
  if _exec_run_sandbox_unavailable params ctx
  then Ok (ExecError "SANDBOX_UNAVAILABLE" SANDBOX_UNAVAILABLE_MESSAGE
             [("host", PStr (er_host params)); ("host_warning", PStr HOST_WARNING)])
  else if _security_lab_required ctx then _prepare_security_lab_exec params ctx lab now
  else _prepare_exec_run params ctx.
End Run.
