(* ===== verification/ExecProcess.v ===== *)
(** The processes that commands run in: [ProcessManager] of tools/exec/process.py, the
    handlers of tools/exec/handlers.py that poll, feed, kill and list them, and the
    environment of base/config/env/subprocess.py.

    A session is a record of the manager: what is fixed when it starts, and what
    refreshing it changes.  The operating system answers the reads, the polls and the
    readings of the clock in the order in which they are made: nothing is assumed of
    its answers.  Times are in microseconds.  Sessions of a sandbox are kept by the
    sandbox and not here. *)

From S2P Require Import Prelude PyValue PyText OrderedDict CommandParser ToolPolicy ExecPolicy.
From Stdlib Require Import Ascii.

(** ** The operating system *)

Inductive stream_name : Type := Stdout | Stderr.
Inductive write_result : Type := Written | BrokenPipe | WriteFailed (what : string).
(** [os_read] is what the reads of a descriptor return, one after the other, until one
    of them blocks, fails or is empty; [os_spawn] is the process of a command, if it
    starts; [signal_attr] are the names that the module [signal] has. *)
Class ProcEnv := {
  os_time : nat → Z;
  os_read : nat → nat → stream_name → string;
  os_poll : nat → nat → option Z;
  os_write : nat → nat → string → write_result;
  os_spawn : nat → list string → string → list (string * string) → result string nat;
  os_session_id : nat → string;
  os_environ : list (string * string);
  signal_attr : string → option string;
}.
(** How often the system was asked, and the signals and the input that it was given. *)
Record OsState := { os_tick : nat; os_signals : list (nat * string); os_input : list (nat * string) }.
Definition OS (A : Type) : Type := OsState → A * OsState.
#[export] Instance OS_ret : MRet OS := λ A a s, (a, s).
#[export] Instance OS_bind : MBind OS := λ A B f m s, let '(a, s') := m s in f a s'.
Definition asks {A} (f : nat → A) : OS A := λ s,
  (f (os_tick s), {| os_tick := S (os_tick s); os_signals := os_signals s; os_input := os_input s |}).
Definition signals (handle : nat) (sig : string) : OS () := λ s,
  ((), {| os_tick := S (os_tick s); os_signals := os_signals s ++ [(handle, sig)]; os_input := os_input s |}).
Definition feeds (handle : nat) (payload : string) : OS () := λ s,
  ((), {| os_tick := os_tick s; os_signals := os_signals s; os_input := os_input s ++ [(handle, payload)] |}).

(** ** Sessions *)

(** What is fixed when a session starts; [si_handle] stands for its process and its
    descriptors. *)
Record SessionInfo := {
  si_session_id : string; si_agent_id : string; si_command : string; si_cwd : string; si_host : string;
  si_shell_family : string; si_use_pty : bool; si_timeout_s : Z; si_started_at : Z; si_deadline : Z; si_handle : nat;
}.
(** The output of a session and how much of it was handed out. *)
Record Stream := { st_buffer : string; st_cursor : nat }.
(** [sr_process] is [None] when the record let go of the process, and otherwise the
    [returncode] it has; [sr_open] says whether the descriptors are open. *)
Record SessionRecord := {
  sr_info : SessionInfo; sr_process : option (option Z); sr_open : bool; sr_exit_code : option Z; sr_killed : bool;
  sr_timed_out : bool; sr_stopped_at : Z; sr_out : Stream; sr_err : Stream;
}.
Definition set_process (p : option (option Z)) (e : SessionRecord) : SessionRecord :=
  {| sr_info := sr_info e; sr_process := p; sr_open := sr_open e; sr_exit_code := sr_exit_code e; sr_killed := sr_killed e;
     sr_timed_out := sr_timed_out e; sr_stopped_at := sr_stopped_at e; sr_out := sr_out e; sr_err := sr_err e |}.
Definition set_closed (e : SessionRecord) : SessionRecord :=
  {| sr_info := sr_info e; sr_process := sr_process e; sr_open := false; sr_exit_code := sr_exit_code e;
     sr_killed := sr_killed e; sr_timed_out := sr_timed_out e; sr_stopped_at := sr_stopped_at e; sr_out := sr_out e;
     sr_err := sr_err e |}.
Definition set_flags (killed timed_out : bool) (e : SessionRecord) : SessionRecord :=
  {| sr_info := sr_info e; sr_process := sr_process e; sr_open := sr_open e; sr_exit_code := sr_exit_code e;
     sr_killed := killed; sr_timed_out := timed_out; sr_stopped_at := sr_stopped_at e; sr_out := sr_out e; sr_err := sr_err e |}.
Definition set_exit (code stopped : Z) (e : SessionRecord) : SessionRecord :=
  {| sr_info := sr_info e; sr_process := sr_process e; sr_open := sr_open e; sr_exit_code := Some code;
     sr_killed := sr_killed e; sr_timed_out := sr_timed_out e; sr_stopped_at := stopped; sr_out := sr_out e; sr_err := sr_err e |}.
Definition set_streams (out err : Stream) (e : SessionRecord) : SessionRecord :=
  {| sr_info := sr_info e; sr_process := sr_process e; sr_open := sr_open e; sr_exit_code := sr_exit_code e;
     sr_killed := sr_killed e; sr_timed_out := sr_timed_out e; sr_stopped_at := sr_stopped_at e; sr_out := out; sr_err := err |}.
Definition extend (st : Stream) (chunk : string) : Stream :=
  {| st_buffer := st_buffer st +:+ chunk; st_cursor := st_cursor st |}.

Section Process.
Context {Proc : ProcEnv}.

Definition handle (e : SessionRecord) : nat := si_handle (sr_info e).
Definition _drain_output_locked (e : SessionRecord) : OS SessionRecord :=
  if negb (sr_open e) then mret e
  else if si_use_pty (sr_info e)
  then chunk ← asks (λ n, os_read n (handle e) Stdout); mret (set_streams (extend (sr_out e) chunk) (sr_err e) e)
  else
    out ← asks (λ n, os_read n (handle e) Stdout);
    err ← asks (λ n, os_read n (handle e) Stderr);
    mret (set_streams (extend (sr_out e) out) (extend (sr_err e) err) e).
(** [Popen.poll]: the code that was seen first stays. *)
Definition poll (e : SessionRecord) : OS (SessionRecord * option Z) :=
  match sr_process e with
  | Some None => rc ← asks (λ n, os_poll n (handle e)); mret (set_process (Some rc) e, rc)
  | Some (Some rc) => mret (e, Some rc)
  | None => mret (e, None)
  end.
Definition _resolve_signal (signal_name : string) : string :=
  let normalized := str_replace "-" "" (py_upper (py_strip signal_name)) in
  if str_in normalized ["TERM"; "SIGTERM"] then "SIGTERM"
  else if str_in normalized ["KILL"; "SIGKILL"] then "SIGKILL"
  else if str_in normalized ["INT"; "SIGINT"] then "SIGINT"
  else default "SIGTERM" (signal_attr normalized).
Definition _terminate_locked (e : SessionRecord) (signal_name : string) : OS SessionRecord :=
  match sr_process e with
  | None => mret e
  | Some _ =>
      _ ← signals (handle e) (_resolve_signal signal_name);
      mret (set_flags true (sr_timed_out e) e)
  end.
Definition _close_streams_locked (e : SessionRecord) : OS SessionRecord :=
  r ← poll (set_closed e);
  let '(e, rc) := r in
  mret (match rc with Some _ => set_process None e | None => e end).
(** What is done to a session that is past its deadline. *)
Definition time_out (e : SessionRecord) : OS SessionRecord :=
  e ← _terminate_locked (set_flags true true e) "TERM";
  e ← _drain_output_locked e;
  r ← poll e;
  let '(e, rc) := r in
  e ← match rc with None => _terminate_locked e "KILL" | Some _ => mret e end;
  _drain_output_locked e.
Definition overdue (e : SessionRecord) : OS bool :=
  match sr_exit_code e with
  | Some _ => mret false
  | None => now ← asks os_time; mret (si_deadline (sr_info e) <=? now)%Z
  end.
Definition collect_exit (e : SessionRecord) : OS SessionRecord :=
  r ← poll e;
  let '(e, rc) := r in
  match rc with
  | None => mret e
  | Some code => now ← asks os_time; e ← _drain_output_locked (set_exit code now e); _close_streams_locked e
  end.
Definition _refresh_locked (e : SessionRecord) : OS SessionRecord :=
  e ← _drain_output_locked e;
  match sr_process e with
  | None => mret e
  | Some _ =>
      late ← overdue e;
      e ← (if (late : bool) then time_out e else mret e);
      collect_exit e
  end.
Definition _status_locked (e : SessionRecord) : string :=
  match sr_exit_code e with
  | None => "running"
  | Some code => if sr_killed e || sr_timed_out e || (code <? 0)%Z then "killed" else "exited"
  end.

(** ** The manager *)

Record ProcWorld := { pw_sessions : list (string * SessionRecord); pw_os : OsState }.
Definition PM (A : Type) : Type := ProcWorld → A * ProcWorld.
#[global] Instance PM_ret : MRet PM := λ A a w, (a, w).
#[global] Instance PM_bind : MBind PM := λ A B f m w, let '(a, w') := m w in f a w'.
Definition on_os {A} (m : OS A) : PM A := λ w,
  let '(a, s) := m (pw_os w) in (a, {| pw_sessions := pw_sessions w; pw_os := s |}).
(** An operation on a session of the agent: [missing] when there is none of that
    name; the session is left out when [body] returns no record. *)
Definition with_session {A} (agent_id session_id : string) (missing : A) (body : SessionRecord → OS (option SessionRecord * A))
    : PM A := λ w,
  match od_get (pw_sessions w) session_id with
  | Some e =>
      if String.eqb (si_agent_id (sr_info e)) agent_id then
        let '((e', a), s) := body e (pw_os w) in
        (a, {| pw_sessions := match e' with
                              | Some e' => od_set (pw_sessions w) session_id e'
                              | None => od_pop (pw_sessions w) session_id
                              end; pw_os := s |})
      else (missing, w)
  | None => (missing, w)
  end.
Definition snapshot (agent_id session_id : string) : PM (option SessionRecord) :=
  with_session agent_id session_id None (λ e, e ← _refresh_locked e; mret (Some e, Some e)).
Definition unread (st : Stream) : string :=
  String.substring (st_cursor st) (String.length (st_buffer st) - st_cursor st) (st_buffer st).
Definition read_all (st : Stream) : Stream := {| st_buffer := st_buffer st; st_cursor := String.length (st_buffer st) |}.
Definition consume_new_output (agent_id session_id : string) : PM (string * string) :=
  with_session agent_id session_id ("", "") (λ e,
    e ← _refresh_locked e;
    mret (Some (set_streams (read_all (sr_out e)) (read_all (sr_err e)) e), (unread (sr_out e), unread (sr_err e)))).
Definition full_output (agent_id session_id : string) : PM (string * string) :=
  with_session agent_id session_id ("", "") (λ e,
    e ← _refresh_locked e; mret (Some e, (st_buffer (sr_out e), st_buffer (sr_err e)))).
Definition write_input (e : SessionRecord) (payload : string) : OS (bool * string) :=
  if sr_open e then
    r ← asks (λ n, os_write n (handle e) payload);
    match r with
    | Written => _ ← feeds (handle e) payload; mret (true, "input delivered")
    | BrokenPipe => mret (false, "session stdin is closed")
    | WriteFailed what => mret (false, "failed to write input: " +:+ what)
    end
  else mret (false, "session has no writable stdin").
Definition send_input (agent_id session_id payload : string) : PM (bool * string) :=
  if negb (truthy payload) then mret (true, "no-op")
  else
    with_session agent_id session_id (false, "session not found") (λ e,
      e ← _refresh_locked e;
      match sr_exit_code e with
      | Some _ => mret (Some e, (false, "session is not running"))
      | None => r ← write_input e payload; mret (Some e, r)
      end).
Definition kill_session (e : SessionRecord) (signal_name : option string) : OS SessionRecord :=
  let name := default "" signal_name in
  e ← _terminate_locked e (if truthy name then name else "TERM");
  e ← _refresh_locked e;
  match sr_exit_code e with
  | Some _ => mret e
  | None => e ← _terminate_locked e "KILL"; _refresh_locked e
  end.
Definition kill (agent_id session_id : string) (signal_name : option string) : PM (bool * string * option SessionRecord) :=
  with_session agent_id session_id (false, "session not found", None) (λ e,
    e ← _refresh_locked e;
    match sr_exit_code e with
    | Some _ => mret (Some e, (true, "session already exited", Some e))
    | None => e ← kill_session e signal_name; mret (Some e, (true, "session terminated", Some e))
    end).
Definition clear (agent_id session_id : string) : PM (bool * string) :=
  with_session agent_id session_id (false, "session not found") (λ e,
    e ← _refresh_locked e;
    match sr_exit_code e with
    | None => mret (Some e, (false, "cannot clear a running session"))
    | Some _ => _ ← _close_streams_locked e; mret (None, (true, "session cleared"))
    end).
(** One round of [wait]: [None] when it goes on. *)
Definition wait_round (agent_id session_id : string) : PM (option bool) :=
  with_session agent_id session_id (Some false) (λ e,
    e ← _refresh_locked e; mret (Some e, match sr_exit_code e with Some _ => Some true | None => None end)).
Fixpoint wait_go (fuel : nat) (agent_id session_id : string) (deadline : Z) : PM (option bool) :=
  match fuel with
  | O => mret None
  | S fuel' =>
      r ← wait_round agent_id session_id;
      match r with
      | Some b => mret (Some b)
      | None =>
          now ← on_os (asks os_time);
          if (deadline <=? now)%Z then mret (Some false) else wait_go fuel' agent_id session_id deadline
      end
  end.
(** [None] when the rounds allowed were not enough; [wait_us] is the time to wait. *)
Definition wait (fuel : nat) (agent_id session_id : string) (wait_us : Z) : PM (option bool) :=
  now ← on_os (asks os_time); wait_go fuel agent_id session_id (now + Z.max 0 wait_us).

Record SessionRow := { row_info : SessionInfo; row_status : string; row_exit_code : option Z; row_stopped_at : Z }.
Definition row_of (e : SessionRecord) : SessionRow :=
  {| row_info := sr_info e; row_status := _status_locked e; row_exit_code := sr_exit_code e; row_stopped_at := sr_stopped_at e |}.
Fixpoint list_go (agent_id : string) (include_exited : bool) (l : list (string * SessionRecord))
    : OS (list (string * SessionRecord) * list SessionRow) :=
  match l with
  | [] => mret ([], [])
  | (k, e) :: rest =>
      if String.eqb (si_agent_id (sr_info e)) agent_id then
        e ← _refresh_locked e;
        r ← list_go agent_id include_exited rest;
        mret ((k, e) :: r.1, if negb (is_some (sr_exit_code e)) || include_exited then row_of e :: r.2 else r.2)
      else r ← list_go agent_id include_exited rest; mret ((k, e) :: r.1, r.2)
  end.
(** [sort(key=started_at_unix, reverse=True)], which keeps the order of equal rows *)
Fixpoint insert_row (r : SessionRow) (l : list SessionRow) : list SessionRow :=
  match l with
  | [] => [r]
  | x :: l' => if (si_started_at (row_info x) <=? si_started_at (row_info r))%Z then r :: l else x :: insert_row r l'
  end.
Definition list_sessions (agent_id : string) (include_exited : bool) : PM (list SessionRow) := λ w,
  let '((l, rows), s) := list_go agent_id include_exited (pw_sessions w) (pw_os w) in
  (foldr insert_row [] rows, {| pw_sessions := l; pw_os := s |}).

(** ** Starting *)

Definition DEFAULT_SUBPROCESS_ENV_ALLOWLIST : list string :=
  ["COLORTERM"; "FORCE_COLOR"; "HOME"; "LANG"; "LC_ALL"; "LC_CTYPE"; "NO_COLOR"; "PATH"; "SHELL"; "TERM"; "TMPDIR"; "TZ"; "USER"].
Definition environ_get (key : string) : string :=
  match List.find (λ kv, String.eqb kv.1 key) os_environ with Some (_, v) => v | None => "" end.
Definition _inherited_env : list (string * string) :=
  let allowed := DEFAULT_SUBPROCESS_ENV_ALLOWLIST ++ split_comma_tokens (environ_get "OPENMINION_SUBPROCESS_ENV_ALLOW") in
  List.filter (λ kv, str_in kv.1 allowed) os_environ.
Definition build_subprocess_env (overlay : list (string * string)) : list (string * string) :=
  List.filter (λ kv, negb (str_in kv.1 (map fst overlay))) _inherited_env ++ overlay.
Definition new_session (info : SessionInfo) : SessionRecord :=
  {| sr_info := info; sr_process := Some None; sr_open := true; sr_exit_code := None; sr_killed := false;
     sr_timed_out := false; sr_stopped_at := 0; sr_out := {| st_buffer := ""; st_cursor := 0 |};
     sr_err := {| st_buffer := ""; st_cursor := 0 |} |}.
Definition put_session (session_id : string) (e : SessionRecord) : PM () := λ w,
  ((), {| pw_sessions := od_set (pw_sessions w) session_id e; pw_os := pw_os w |}).
Definition start `{ToolEnv} (hs : HostShell) (agent_id command cwd_ : string) (env : list (string * string)) (use_pty : bool)
    (timeout_s : Z) (host : string) : PM (result string SessionRecord) :=
  if use_pty && hs_windows hs then mret (Raise "RuntimeError: PTY execution is not supported on Windows")
  else
    let '(shell_argv, family) := _select_shell hs command in
    now ← on_os (asks os_time);
    session_id ← on_os (asks os_session_id);
    spawned ← on_os (asks (λ n, os_spawn n shell_argv cwd_ (build_subprocess_env env)));
    match spawned with
    | Raise what => mret (Raise what)
    | Ok h =>
        e ← on_os (_refresh_locked (new_session
               {| si_session_id := session_id; si_agent_id := agent_id; si_command := command; si_cwd := cwd_; si_host := host;
                  si_shell_family := shell_value family; si_use_pty := use_pty; si_timeout_s := timeout_s;
                  si_started_at := now; si_deadline := now + timeout_s * 1000000; si_handle := h |}));
        _ ← put_session session_id e;
        mret (Ok e)
    end.

(** ** Requests *)

Definition ESC : string := String "027" "".
Definition chr (n : nat) : string := String (ascii_of_nat n) "".
Definition _KEY_ALIASES : list (string * string) :=
  [("ENTER", chr 13); ("RETURN", chr 13); ("TAB", chr 9); ("BACKSPACE", chr 127); ("ESC", ESC); ("UP", ESC +:+ "[A");
   ("DOWN", ESC +:+ "[B"); ("LEFT", ESC +:+ "[D"); ("RIGHT", ESC +:+ "[C"); ("C-C", chr 3); ("C-D", chr 4); ("C-Z", chr 26)].
(** [re.fullmatch(r"C-[A-Z]", s)]: the letter *)
Definition control_letter (s : string) : option ascii :=
  match s with
  | String "C" (String "-" (String c EmptyString)) =>
      if ((65 <=? nat_of_ascii c) && (nat_of_ascii c <=? 90))%nat then Some c else None
  | _ => None
  end.
(** [utf8] is [str.encode] of a text, with replacements. *)
Definition encode_key (utf8 : string → string) (raw : string) : string :=
  let normalized := py_strip raw in
  if negb (truthy normalized) then ""
  else
    let key_upper := py_upper normalized in
    match List.find (λ kv, String.eqb kv.1 key_upper) _KEY_ALIASES with
    | Some (_, bytes) => bytes
    | None =>
        match control_letter key_upper with
        | Some c => chr (nat_of_ascii c - 64)
        | None => if (String.length normalized =? 1)%nat then utf8 normalized else ""
        end
    end.
Definition _encode_keys (utf8 : string → string) (keys : list string) : string := py_join "" (map (encode_key utf8) keys).

(** The answers of the handlers, without their artifacts and previews: the status, the
    summary and the code and message of an error. *)
Record ProcessAckResult := { ack_ok : bool; ack_summary : string; ack_error : option (string * string) }.
Record ProcessPollResult := {
  pl_ok : bool; pl_status : string; pl_exit_code : option Z; pl_stdout : string; pl_stderr : string;
  pl_error : option (string * string);
}.
Definition ack (code : string) (r : bool * string) : ProcessAckResult :=
  {| ack_ok := r.1; ack_summary := r.2; ack_error := if r.1 then None else Some (code, r.2) |}.
Definition not_found : ProcessAckResult :=
  {| ack_ok := false; ack_summary := "Session not found."; ack_error := Some ("NOT_FOUND", "session not found") |}.
(** The record as it is now: what [snapshot] returned is the record of the manager. *)
Definition live (agent_id session_id : string) (e : SessionRecord) : PM SessionRecord :=
  with_session agent_id session_id e (λ e, mret (Some e, e)).
Definition _h_process_poll (agent_id session_id : string) : PM ProcessPollResult :=
  found ← snapshot agent_id session_id;
  match found with
  | None => mret {| pl_ok := false; pl_status := "killed"; pl_exit_code := None; pl_stdout := ""; pl_stderr := "";
                    pl_error := Some ("NOT_FOUND", "session not found") |}
  | Some e =>
      out ← consume_new_output agent_id session_id;
      e ← live agent_id session_id e;
      mret {| pl_ok := true; pl_status := _status_locked e; pl_exit_code := sr_exit_code e; pl_stdout := out.1;
              pl_stderr := out.2; pl_error := None |}
  end.
Definition _h_process_send_keys (utf8 : string → string) (agent_id session_id : string) (keys : list string) : PM ProcessAckResult :=
  found ← snapshot agent_id session_id;
  match found with
  | None => mret not_found
  | Some e =>
      if negb (si_use_pty (sr_info e)) then
        mret {| ack_ok := false; ack_summary := "send_keys requires a PTY session.";
                ack_error := Some ("INVALID_REQUEST", "send_keys requires pty=true") |}
      else
        let payload := _encode_keys utf8 keys in
        if negb (truthy payload) then
          mret {| ack_ok := false; ack_summary := "No encodable keys were provided.";
                  ack_error := Some ("INVALID_ARGUMENT", "keys list did not contain supported keys") |}
        else r ← send_input agent_id session_id payload; mret (ack "EXEC_ERROR" r)
  end.
Definition _h_process_submit (agent_id session_id : string) : PM ProcessAckResult :=
  r ← send_input agent_id session_id (chr 13); mret (ack "EXEC_ERROR" r).
Definition _h_process_paste (utf8 : string → string) (agent_id session_id text : string) (bracketed : bool) : PM ProcessAckResult :=
  let payload := utf8 text in
  r ← send_input agent_id session_id (if bracketed then ESC +:+ "[200~" +:+ payload +:+ ESC +:+ "[201~" else payload);
  mret (ack "EXEC_ERROR" r).
Definition _h_process_kill (agent_id session_id : string) (signal_name : option string) : PM ProcessAckResult :=
  r ← kill agent_id session_id signal_name; mret (ack "NOT_FOUND" r.1).
Definition _h_process_clear (agent_id session_id : string) : PM ProcessAckResult :=
  r ← clear agent_id session_id; mret (ack "INVALID_REQUEST" r).

(** What [exec.run] returns of a command that the process manager runs. *)
Inductive run_result : Type :=
| RunError (code message : string)
| RunRunning (session_id summary : string)
| RunCompleted (session_id : string) (e : SessionRecord) (stdout stderr : string).
(** [_start_exec_run_session], where neither the sandbox nor its sessions are used;
    [fuel] bounds the rounds of waiting. *)
Definition _start_exec_run_session `{ToolEnv} (hs : HostShell) (fuel : nat) (prep : _ExecRunPreparation) : PM run_result :=
  let params := ep_params prep in
  started ← start hs (ep_agent_id prep) (er_command params) (path_text (ep_cwd_path prep)) (ep_env prep) (er_pty params)
              (er_timeout_s params) (er_host params);
  match started with
  | Raise what => mret (RunError "EXEC_ERROR" ("failed to start command: " +:+ what))
  | Ok session =>
      let session_id := si_session_id (sr_info session) in
      if er_background params then mret (RunRunning session_id "Command started in background.")
      else
        finished ← wait fuel (ep_agent_id prep) session_id
                     (Z.min (er_timeout_s params * 1000000) (Z.max 0 (er_yield_ms params * 1000)));
        match finished with
        | Some true =>
            found ← snapshot (ep_agent_id prep) session_id;
            out ← full_output (ep_agent_id prep) session_id;
            match found with
            | None => mret (RunError "NOT_FOUND" "session not found")
            | Some e =>
                e ← live (ep_agent_id prep) session_id e;
                _ ← clear (ep_agent_id prep) session_id;
                mret (RunCompleted session_id e out.1 out.2)
            end
        | _ => mret (RunRunning session_id "Command still running; use exec.poll with returned session_id.")
        end
  end.

(** A request of an agent, and its answer. *)
Inductive proc_request : Type :=
| RRun (prep : _ExecRunPreparation) | RPoll (session_id : string) | RKeys (session_id : string) (keys : list string)
| RSubmit (session_id : string) | RPaste (session_id text : string) (bracketed : bool)
| RKill (session_id : string) (signal_name : option string) | RClear (session_id : string) | RList (include_exited : bool).
Inductive proc_reply : Type :=
| PRun (r : run_result) | PPoll (r : ProcessPollResult) | PAck (r : ProcessAckResult) | PRows (rows : list SessionRow).
(** A run is started for the agent that asks. *)
Definition for_agent (agent_id : string) (prep : _ExecRunPreparation) : _ExecRunPreparation :=
  {| ep_agent_id := agent_id; ep_params := ep_params prep; ep_cwd_path := ep_cwd_path prep; ep_env := ep_env prep;
     ep_shell_argv := ep_shell_argv prep; ep_shell_family := ep_shell_family prep; ep_sandbox_spec := ep_sandbox_spec prep;
     ep_exec_spec := ep_exec_spec prep; ep_session_backend := ep_session_backend prep;
     ep_use_sandbox_runner := ep_use_sandbox_runner prep; ep_use_sandbox_sessions := ep_use_sandbox_sessions prep |}.
Definition serve `{ToolEnv} (hs : HostShell) (utf8 : string → string) (fuel : nat) (agent_id : string) (req : proc_request)
    : PM proc_reply :=
  match req with
  | RRun prep => r ← _start_exec_run_session hs fuel (for_agent agent_id prep); mret (PRun r)
  | RPoll sid => r ← _h_process_poll agent_id sid; mret (PPoll r)
  | RKeys sid keys => r ← _h_process_send_keys utf8 agent_id sid keys; mret (PAck r)
  | RSubmit sid => r ← _h_process_submit agent_id sid; mret (PAck r)
  | RPaste sid text bracketed => r ← _h_process_paste utf8 agent_id sid text bracketed; mret (PAck r)
  | RKill sid sig => r ← _h_process_kill agent_id sid sig; mret (PAck r)
  | RClear sid => r ← _h_process_clear agent_id sid; mret (PAck r)
  | RList incl => r ← list_sessions agent_id incl; mret (PRows r)
  end.
End Process.
