(* ===== verification/CommandProps.v ===== *)
(** The parser of commands: a rebuilt command parses to the segments it was built
    from, and the segments and operators of a parsed command make up all of it. *)

From S2P Require Import Prelude PyValue PyText CommandParser ToolPolicy ExecPolicy.
From Stdlib Require Import Ascii.

#[local] Arguments String.app : simpl never.

(** ** Strings *)

Lemma app_nil_l_str t : "" +:+ t = t.
Proof. done. Qed.
Lemma app_cons c s t : String c s +:+ t = String c (s +:+ t).
Proof. done. Qed.
Lemma snoc_app s c t : snoc s c +:+ t = s +:+ String c t.
Proof. unfold snoc. by rewrite str_app_assoc. Qed.
Lemma length_app_str s t : String.length (s +:+ t) = String.length s + String.length t.
Proof. induction s as [|c s IH]; [done|]. rewrite app_cons. simpl. by rewrite IH. Qed.
Lemma length_snoc s c : String.length (snoc s c) = S (String.length s).
Proof. unfold snoc. rewrite length_app_str. simpl. lia. Qed.
Create Rewrite HintDb strs.
#[local] Hint Rewrite app_nil_l_str app_cons str_app_assoc str_app_nil_r snoc_app : strs.
Ltac strs := autorewrite with strs; simpl.

(** A text that neither begins nor ends in a space. *)
Definition tight (s : string) : Prop :=
  (∃ c t, s = String c t ∧ latin1_is_space c = false) ∧ ∃ t c, s = snoc t c ∧ latin1_is_space c = false.
Lemma drop_end_snoc p t c : p c = false → drop_while_end p (snoc t c) = snoc t c.
Proof.
  intros Hc. induction t as [|x t IH]; [by unfold snoc; strs; rewrite Hc|].
  change (snoc (String x t) c) with (String x (snoc t c)). simpl. rewrite IH. by destruct t.
Qed.
Lemma drop_end_spaces p s q : str_all p q = true → drop_while_end p (s +:+ q) = drop_while_end p s.
Proof.
  intros Hq. induction s as [|c s IH]; [|rewrite app_cons; simpl; by rewrite IH]. strs.
  induction q as [|c q IH]; simpl in *; [done|]. apply andb_true_iff in Hq as [Hc Hq]. by rewrite (IH Hq), Hc.
Qed.
Lemma drop_spaces p q s : str_all p q = true → drop_while p (q +:+ s) = drop_while p s.
Proof. induction q as [|c q IH]; [done|]. rewrite app_cons. simpl. intros [Hc Hq]%andb_true_iff. rewrite Hc. by apply IH. Qed.
Lemma strip_pads p s q : str_all latin1_is_space p = true → str_all latin1_is_space q = true → tight s →
  py_strip (p +:+ s +:+ q) = s.
Proof.
  intros Hp Hq [(c & t & E & Hc) (t' & c' & E' & Hc')]. unfold py_strip. rewrite drop_spaces by done.
  rewrite E, app_cons. simpl. rewrite Hc, <-app_cons, <-E, drop_end_spaces by done. rewrite E'. by apply drop_end_snoc.
Qed.
Lemma strip_tight s : tight s → py_strip s = s.
Proof. intros H. pose proof (strip_pads "" s "" eq_refl eq_refl H) as E. by rewrite str_app_nil_r in E. Qed.
Lemma tight_app s t : tight s → tight t → ∀ m, tight (s +:+ m +:+ t).
Proof.
  intros [(c & u & -> & Hc) _] [_ (v & d & -> & Hd)] m. split; [eauto|].
  exists (String c u +:+ m +:+ v), d. split; [|done]. unfold snoc. by rewrite !str_app_assoc.
Qed.
Lemma tight_truthy s : tight s → truthy s = true.
Proof. by intros [(c & t & -> & _) _]. Qed.

(** ** Quoted words *)

Lemma safe_plain c : shlex_safe c = true →
  lex_space c = false ∧ lex_quote c = false ∧ Ascii.eqb c BACKSLASH = false ∧ is_char "<>" c = false ∧
  Ascii.eqb c NEWLINE = false ∧ Ascii.eqb c "&" = false ∧ Ascii.eqb c "|" = false ∧ Ascii.eqb c ";" = false ∧
  latin1_is_space c = false ∧ Ascii.eqb c SQUOTE = false ∧ Ascii.eqb c DQUOTE = false.
Proof. by destruct c as [[] [] [] [] [] [] [] []]. Qed.
Lemma lex_single w : ∀ tok rest,
  lex (LQuote SQUOTE) tok (escape_single w +:+ String SQUOTE rest) = lex LWord (tok +:+ w) rest.
Proof.
  induction w as [|c w IH]; intros tok rest; simpl; [by rewrite str_app_nil_r|].
  destruct (Ascii.eqb c SQUOTE) eqn:E; simpl.
  - apply Ascii.eqb_eq in E as ->. rewrite IH. by strs.
  - rewrite E, andb_false_r, IH. by strs.
Qed.
Lemma lex_safe w : ∀ tok rest, str_all shlex_safe w = true → lex LWord tok (w +:+ rest) = lex LWord (tok +:+ w) rest.
Proof.
  induction w as [|c w IH]; intros tok rest; simpl; [by rewrite str_app_nil_r|]. intros [Hc Hw]%andb_true_iff.
  destruct (safe_plain c Hc) as (-> & -> & -> & _). rewrite IH by done. by strs.
Qed.
Lemma lex_quoted w rest : lex LSpace "" (shlex_quote w +:+ rest) = lex LWord w rest.
Proof.
  unfold shlex_quote. destruct w as [|c w]; [done|]. change (negb (truthy (String c w))) with false. cbv iota.
  destruct (str_all shlex_safe (String c w)) eqn:E.
  - simpl in E. apply andb_true_iff in E as [Hc Hw]. simpl. destruct (safe_plain c Hc) as (-> & -> & -> & _). by apply (lex_safe w).
  - rewrite !str_app_assoc. exact (lex_single (String c w) "" rest).
Qed.
Lemma join_cons w w' ws : shlex_join (w :: w' :: ws) = shlex_quote w +:+ String " " (shlex_join (w' :: ws)).
Proof. done. Qed.
Lemma split_join w ws : shlex_split (shlex_join (w :: ws)) = Ok (w :: ws).
Proof.
  unfold shlex_split. revert w. induction ws as [|w' ws IH]; intros w.
  - change (shlex_join [w]) with (shlex_quote w). by rewrite <-(str_app_nil_r (shlex_quote w)), lex_quoted.
  - rewrite join_cons, lex_quoted. simpl. by rewrite IH.
Qed.

(** ** The scanner on quoted words *)

Lemma scan_char idx st cur c rest : shlex_safe c = true ∨ c = " "%char →
  scan 0 idx None st cur (String c rest) = scan 0 (S idx) None st (snoc cur c) rest.
Proof.
  intros [Hc| ->]; [|done]. destruct (safe_plain c Hc) as (_ & _ & H1 & H2 & H3 & H4 & H5 & H6 & _ & H7 & H8).
  cbn [scan]. by rewrite H1, H7, H8; unfold redirection; rewrite H2; simpl; rewrite H3, H4, H5, H6.
Qed.
Lemma scan_safe w : ∀ idx st cur rest, str_all shlex_safe w = true →
  scan 0 idx None st cur (w +:+ rest) = scan 0 (String.length w + idx) None st (cur +:+ w) rest.
Proof.
  induction w as [|c w IH]; intros idx st cur rest; [by rewrite str_app_nil_r|]. cbn [str_all].
  intros [Hc Hw]%andb_true_iff. rewrite app_cons, scan_char by auto. rewrite IH by done. rewrite snoc_app.
  f_equal. simpl. lia.
Qed.
Lemma scan_single w : ∀ idx p st cur rest,
  scan 0 idx (Some (QSingle, p)) st cur (escape_single w +:+ String SQUOTE rest)
  = scan 0 (S (String.length (escape_single w)) + idx) None st (snoc (cur +:+ escape_single w) SQUOTE) rest.
Proof.
  induction w as [|c w IH]; intros idx p st cur rest; [by cbn [escape_single]; rewrite str_app_nil_r|].
  cbn [escape_single]. destruct (Ascii.eqb c SQUOTE) eqn:E.
  - rewrite str_app_assoc. unfold quoted_single at 1. rewrite !app_cons, app_nil_l_str.
    do 5 (cbn [scan]; cbn [Ascii.eqb SQUOTE DQUOTE BACKSLASH Bool.eqb]). rewrite IH. f_equal.
    + rewrite length_app_str. simpl. lia.
    + f_equal. by rewrite !snoc_app.
  - rewrite !app_cons. cbn [scan]. rewrite E, IH, snoc_app. f_equal. simpl. lia.
Qed.
Lemma scan_quoted w idx st cur rest :
  scan 0 idx None st cur (shlex_quote w +:+ rest)
  = scan 0 (String.length (shlex_quote w) + idx) None st (cur +:+ shlex_quote w) rest.
Proof.
  unfold shlex_quote. destruct w as [|c w].
  - cbn [truthy negb]. simpl. f_equal. by unfold snoc; rewrite str_app_assoc.
  - change (negb (truthy (String c w))) with false. cbv iota.
    destruct (str_all shlex_safe (String c w)) eqn:E; [by apply scan_safe|]. rewrite !str_app_assoc.
    change ("'" +:+ escape_single (String c w) +:+ "'" +:+ rest)
      with (String SQUOTE (escape_single (String c w) +:+ String SQUOTE rest)).
    change (scan 0 idx None st cur (String SQUOTE (escape_single (String c w) +:+ String SQUOTE rest)))
      with (scan 0 (S idx) (Some (QSingle, idx)) st (snoc cur SQUOTE) (escape_single (String c w) +:+ String SQUOTE rest)).
    rewrite scan_single, snoc_app. f_equal.
    + rewrite !length_app_str. simpl. lia.
    + unfold snoc. by rewrite !str_app_assoc.
Qed.
Lemma scan_join w ws : ∀ idx st cur rest,
  scan 0 idx None st cur (shlex_join (w :: ws) +:+ rest)
  = scan 0 (String.length (shlex_join (w :: ws)) + idx) None st (cur +:+ shlex_join (w :: ws)) rest.
Proof.
  revert w. induction ws as [|w' ws IH]; intros w idx st cur rest; [apply scan_quoted|].
  rewrite join_cons, str_app_assoc, scan_quoted, app_cons, scan_char by auto. rewrite IH, snoc_app, str_app_assoc. f_equal.
  rewrite length_app_str. simpl. lia.
Qed.
Lemma quote_tight w : tight (shlex_quote w).
Proof.
  unfold shlex_quote. destruct w as [|c w].
  - simpl. split; [by exists SQUOTE, "'"|by exists "'", SQUOTE].
  - change (negb (truthy (String c w))) with false. cbv iota. destruct (str_all shlex_safe (String c w)) eqn:E.
    + split.
      * exists c, w. split; [done|]. simpl in E. apply andb_true_iff in E as [Hc _]. by apply safe_plain.
      * revert c E. induction w as [|d w IH]; intros c E; simpl in E; apply andb_true_iff in E as [Hc Hw].
        -- exists "", c. split; [done|by apply safe_plain].
        -- destruct (IH d Hw) as (t & e & -> & He). by exists (String c t), e.
    + split; [by exists SQUOTE, (escape_single (String c w) +:+ "'")|].
      exists ("'" +:+ escape_single (String c w)), SQUOTE. split; [|done]. unfold snoc. by rewrite !str_app_assoc.
Qed.
Lemma join_tight w ws : tight (shlex_join (w :: ws)).
Proof.
  revert w. induction ws as [|w' ws IH]; intros w; [apply quote_tight|]. rewrite join_cons.
  apply (tight_app _ _ (quote_tight w) (IH w') " ").
Qed.

(** ** A rebuilt command *)

Definition operators : list string := ["&&"; "||"; "|"; ";"].
Fixpoint tail_text (ops : list string) (argvs : list (list string)) : string :=
  match ops, argvs with
  | op :: ops', argv :: argvs' => " " +:+ op +:+ " " +:+ shlex_join argv +:+ tail_text ops' argvs'
  | _, _ => ""
  end.
Lemma rebuild_tail argv argvs ops : rebuild (argv :: argvs) ops = shlex_join argv +:+ tail_text ops argvs.
Proof.
  unfold rebuild. cbn [map]. generalize (shlex_join argv). revert argvs.
  induction ops as [|op ops IH]; intros argvs s; [by cbn; rewrite str_app_nil_r|].
  destruct argvs as [|a argvs]; [by cbn; rewrite str_app_nil_r|]. cbn [rebuild_from map tail_text].
  by rewrite IH, !str_app_assoc.
Qed.
Lemma close_join pad argv pad' start pos : argv ≠ [] →
  str_all latin1_is_space pad = true → str_all latin1_is_space pad' = true →
  ∃ seg, close_segment (pad +:+ shlex_join argv +:+ pad') start pos = Ok seg ∧ cs_argv seg = argv.
Proof.
  intros Hne Hp Hq. destruct argv as [|w ws]; [done|]. pose proof (join_tight w ws) as Ht. unfold close_segment.
  rewrite strip_pads by done. rewrite tight_truthy by done. unfold _parse_segment. rewrite split_join. by eexists.
Qed.
Lemma scan_operator op idx st cur rest : op ∈ operators →
  scan 0 idx None st cur (op +:+ String " " rest)
  = (st' ← split_at st cur op idx; scan 0 (String.length op + idx) None st' "" (String " " rest)).
Proof.
  intros H. unfold operators in H. repeat (apply elem_of_cons in H as [->|H]; [reflexivity|]). by apply not_elem_of_nil in H.
Qed.
Lemma scan_tail argvs : ∀ ops argv idx st pad,
  length ops = length argvs → (∀ op, op ∈ ops → op ∈ operators) → (∀ a, a ∈ argv :: argvs → a ≠ []) →
  str_all latin1_is_space pad = true →
  ∃ st' pad' last, scan 0 idx None st pad (shlex_join argv +:+ tail_text ops argvs) = Ok (st', pad' +:+ shlex_join last) ∧
    str_all latin1_is_space pad' = true ∧ last ≠ [] ∧
    map cs_argv (sc_segments st') ++ [last] = map cs_argv (sc_segments st) ++ argv :: argvs ∧
    sc_operators st' = sc_operators st ++ ops.
Proof.
  induction argvs as [|b argvs IH]; intros ops argv idx st pad Hlen Hops Hne Hpad.
  all: destruct argv as [|w ws]; [by destruct (Hne []); [left|]|]; rewrite scan_join.
  - destruct ops; [|done]. cbn [tail_text scan]. exists st, pad, (w :: ws). by rewrite app_nil_r.
  - destruct ops as [|op ops]; [done|]. cbn [tail_text].
    assert (op ∈ operators) as Hop by (apply Hops; by left).
    destruct (close_join pad (w :: ws) " " (sc_start st) (Some (S (String.length (shlex_join (w :: ws)) + idx))))
      as (seg & Es & Ea); [done..|].
    change (" " +:+ op +:+ " " +:+ ?t) with (String " " (op +:+ String " " t)).
    rewrite scan_char by auto. unfold snoc. rewrite !str_app_assoc, scan_operator by done.
    unfold split_at. rewrite Es. cbn [mbind result_bind]. rewrite scan_char by auto.
    edestruct (IH ops b) as (st' & pad' & last & E & Hp & Hl & E1 & E2); [by injection Hlen| | | |].
    + intros o Ho. apply Hops. by right.
    + intros a Ha. apply Hne. by right.
    + instantiate (1 := snoc "" " "). done.
    + exists st', pad', last. split_and!; [exact E|done..| |].
      * rewrite E1. cbn [sc_segments]. rewrite map_app. cbn [map]. rewrite Ea. by rewrite <-!app_assoc.
      * rewrite E2. cbn [sc_operators]. by rewrite <-app_assoc.
Qed.
Lemma tail_tight ops argvs argv : length ops = length argvs → (∀ a, a ∈ argv :: argvs → a ≠ []) →
  tight (shlex_join argv +:+ tail_text ops argvs).
Proof.
  revert ops argv. induction argvs as [|b argvs IH]; intros ops argv Hlen Hne.
  all: destruct argv as [|w ws]; [by destruct (Hne []); [left|]|].
  - destruct ops; [|done]. cbn [tail_text]. rewrite str_app_nil_r. apply join_tight.
  - destruct ops as [|op ops]; [done|]. cbn [tail_text].
    assert (tight (shlex_join b +:+ tail_text ops argvs)) as Ht.
    { apply IH; [by injection Hlen|]. intros a Ha. apply Hne. by right. }
    pose proof (tight_app _ _ (join_tight w ws) Ht (" " +:+ op +:+ " ")) as H. by rewrite !str_app_assoc in H.
Qed.

(** C28: a command that is put together from words, quoted, and operators is parsed
    into exactly these words and operators, whatever characters the words hold. *)
Theorem rebuilt_command_parses argvs ops :
  argvs ≠ [] → (∀ a, a ∈ argvs → a ≠ []) → S (length ops) = length argvs → (∀ op, op ∈ ops → op ∈ operators) →
  ∃ r, parse_command (rebuild argvs ops) POSIX = Ok r ∧ map cs_argv (pr_segments r) = argvs ∧ pr_operators r = ops.
Proof.
  intros Hne Ha Hlen Hops. destruct argvs as [|argv argvs]; [done|]. injection Hlen as Hlen. rewrite rebuild_tail.
  pose proof (tail_tight ops argvs argv Hlen Ha) as Ht. unfold parse_command, _parse_command_posix.
  rewrite (strip_tight _ Ht), (tight_truthy _ Ht). cbn [negb].
  destruct (scan_tail argvs ops argv (leading (shlex_join argv +:+ tail_text ops argvs))
    {| sc_start := leading (shlex_join argv +:+ tail_text ops argvs); sc_separator := None; sc_segments := [];
       sc_operators := [] |} "" Hlen Hops Ha eq_refl) as (st & pad & last & E & Hp & Hl & E1 & E2).
  rewrite E. cbn [mbind result_bind]. destruct (close_join pad last "" (sc_start st) (sc_separator st) Hl Hp eq_refl)
    as (seg & Es & Eseg). rewrite str_app_nil_r in Es. rewrite Es. eexists. split; [done|].
  cbn [pr_segments pr_operators]. rewrite map_app. cbn [map]. rewrite Eseg. by split.
Qed.

(** ** What the segments hold *)

Abbreviation spaces s := (str_all latin1_is_space s = true).
(** A segment of the text from [pos] on: the positions that it was found at, and the
    words that the lexer finds in it. *)
Definition segment_at (pos : nat) (seg : CommandSegment) : Prop :=
  cs_start seg = pos ∧ cs_end seg = pos + String.length (cs_raw seg) ∧ cs_argv seg ≠ [] ∧
  shlex_split (cs_raw seg) = Ok (cs_argv seg).
(** The segments with the operators after them, from position [off] on: the text is
    made of them and of spaces around the segments. *)
Inductive pieces (off : nat) : list CommandSegment → list string → string → Prop :=
| pieces_none : pieces off [] [] ""
| pieces_next segs ops text p seg q op :
    pieces off segs ops text → spaces p → spaces q → op ∈ operators →
    segment_at (off + String.length text + String.length p) seg →
    pieces off (segs ++ [seg]) (ops ++ [op]) (text +:+ p +:+ cs_raw seg +:+ q +:+ op).

Lemma strip_split s : ∃ p q, s = p +:+ py_strip s +:+ q ∧ spaces p ∧ spaces q ∧ leading s = String.length p.
Proof.
  assert (∃ p, s = p +:+ drop_while latin1_is_space s ∧ spaces p) as (p & E & Hp).
  { induction s as [|c s (p & E & Hp)]; [by exists ""|]. cbn [drop_while]. destruct (latin1_is_space c) eqn:Ec; [|by exists ""].
    exists (String c p). rewrite app_cons, <-E. split; [done|]. cbn [str_all]. by rewrite Ec. }
  assert (∀ u, ∃ q, u = drop_while_end latin1_is_space u +:+ q ∧ spaces q) as Hend.
  { induction u as [|c u (q & E' & Hq)]; [by exists ""|]. cbn [drop_while_end].
    destruct (drop_while_end latin1_is_space u) as [|d v] eqn:Ed.
    - rewrite app_nil_l_str in E'. subst q. destruct (latin1_is_space c) eqn:Ec; [|by exists u].
      exists (String c u). split; [done|]. cbn [str_all]. by rewrite Ec.
    - exists q. by rewrite app_cons, <-E'. }
  destruct (Hend (drop_while latin1_is_space s)) as (q & E' & Hq). exists p, q. unfold py_strip. rewrite <-E'.
  split_and!; [done..|]. unfold leading. rewrite E at 1. rewrite length_app_str. lia.
Qed.
Lemma close_pieces cur start pos seg : close_segment cur start pos = Ok seg →
  ∃ p q, cur = p +:+ cs_raw seg +:+ q ∧ spaces p ∧ spaces q ∧ segment_at (start + String.length p) seg.
Proof.
  unfold close_segment. destruct (truthy (py_strip cur)); [|done]. destruct (strip_split cur) as (p & q & E & Hp & Hq & ->).
  unfold _parse_segment. destruct (shlex_split (py_strip cur)) as [[|a argv]|m] eqn:Es; [done| |done]. intros [= <-].
  exists p, q. done.
Qed.
Definition laid_out (off : nat) (st : Scan) (text : string) : Prop :=
  pieces off (sc_segments st) (sc_operators st) text ∧ sc_start st = off + String.length text.
Lemma split_laid_out off st cur op idx st' text :
  laid_out off st text → op ∈ operators → idx = off + String.length text + String.length cur →
  split_at st cur op idx = Ok st' → laid_out off st' (text +:+ cur +:+ op).
Proof.
  intros [Hp Hs] Hop Hidx. unfold split_at. destruct (close_segment cur _ _) as [seg|e] eqn:E; [|done]. intros [= <-].
  apply close_pieces in E as (p & q & E & Hp1 & Hq & Hseg). rewrite Hs in Hseg. split; cbn [sc_segments sc_operators sc_start].
  - rewrite E, !str_app_assoc. by apply pieces_next.
  - rewrite Hidx, !length_app_str. lia.
Qed.
(** The scanner loses no character: what was before and what is left is in the pieces
    and in the text of the last segment. *)
Lemma scan_laid_out off rest : ∀ skip idx quote st cur st' cur' text,
  laid_out off st text → idx = off + String.length text + String.length cur →
  scan skip idx quote st cur rest = Ok (st', cur') →
  ∃ text', laid_out off st' text' ∧ text' +:+ cur' = text +:+ cur +:+ rest.
Proof.
  induction rest as [rest IH] using (induction_ltof1 _ String.length). unfold ltof in IH.
  intros skip idx quote st cur st' cur' text Hl Hidx H. destruct rest as [|c rest]; cbn [scan] in H.
  { destruct quote as [[m p]|]; [done|]. injection H as <- <-. exists text. by rewrite str_app_nil_r. }
  assert (∀ sk qu, scan sk (S idx) qu st (snoc cur c) rest = Ok (st', cur') →
    ∃ text', laid_out off st' text' ∧ text' +:+ cur' = text +:+ cur +:+ String c rest) as Hone.
  { intros sk qu Hs. rewrite <-snoc_app. eapply IH; [simpl; lia|exact Hl| |exact Hs]. rewrite length_snoc. lia. }
  assert (∀ d r qu, rest = String d r → scan 0 (S (S idx)) qu st (snoc (snoc cur c) d) r = Ok (st', cur') →
    ∃ text', laid_out off st' text' ∧ text' +:+ cur' = text +:+ cur +:+ String c rest) as Htwo.
  { intros d r qu -> Hs. rewrite <-!snoc_app. eapply IH; [simpl; lia|exact Hl| |exact Hs]. rewrite !length_snoc. lia. }
  assert (∀ op r k, op ∈ operators → String c rest = op +:+ r → k = String.length op + idx →
    (st1 ← split_at st cur op idx; scan 0 k None st1 "" r) = Ok (st', cur') →
    ∃ text', laid_out off st' text' ∧ text' +:+ cur' = text +:+ cur +:+ String c rest) as Hop.
  { intros op r k Hin E -> Hs. destruct (split_at st cur op idx) as [st1|e] eqn:Es; [|done]. cbn [mbind result_bind] in Hs.
    pose proof (split_laid_out off st cur op idx st1 text Hl Hin Hidx Es) as Hl1.
    assert (0 < String.length op) as Hlen.
    { unfold operators in Hin. repeat (apply elem_of_cons in Hin as [->|Hin]; [simpl; lia|]). by apply not_elem_of_nil in Hin. }
    apply (f_equal String.length) in E as Elen. rewrite length_app_str in Elen. simpl in Elen.
    assert (String.length op + idx = off + String.length (text +:+ cur +:+ op) + 0) as Hk by (rewrite !length_app_str; lia).
    destruct (IH r ltac:(simpl; lia) _ _ _ _ "" _ _ _ Hl1 Hk Hs) as (t' & H1 & H2).
    exists t'. split; [done|]. by rewrite H2, E, app_nil_l_str, !str_app_assoc. }
  destruct skip as [|n]; [|by eapply Hone]. destruct quote as [[[] p]|].
  - by eapply Hone.
  - destruct (Ascii.eqb c BACKSLASH); [|by eapply Hone]. destruct rest as [|d r]; [by eapply Hone|by eapply Htwo].
  - destruct (Ascii.eqb c BACKSLASH).
    { destruct rest as [|d r]; [by eapply Hone|]. destruct (is_char ";|&" d); [by eapply Htwo|by eapply Hone]. }
    destruct (Ascii.eqb c SQUOTE); [by eapply Hone|]. destruct (Ascii.eqb c DQUOTE); [by eapply Hone|].
    destruct (redirection idx c (String c rest)) as [[n|]|e]; cbn [mbind result_bind] in H; [by eapply Hone| |done].
    destruct (Ascii.eqb c NEWLINE); [done|].
    destruct (Ascii.eqb c "&") eqn:E4; [|destruct (Ascii.eqb c "|") eqn:E5; [|destruct (Ascii.eqb c ";") eqn:E6]].
    + apply Ascii.eqb_eq in E4 as ->. destruct rest as [|d r]; [done|].
      destruct d as [[] [] [] [] [] [] [] []]; try discriminate H. eapply (Hop "&&"); [left|done..].
    + apply Ascii.eqb_eq in E5 as ->. destruct rest as [|d r]; [eapply (Hop "|"); [by right; right; left|done..]|].
      destruct d as [[] [] [] [] [] [] [] []];
        first [eapply (Hop "||"); [by right; left|reflexivity|reflexivity|exact H]
              |eapply (Hop "|"); [by right; right; left|reflexivity|reflexivity|exact H]].
    + apply Ascii.eqb_eq in E6 as ->. eapply (Hop ";"); [by do 3 right; left|done..].
    + by eapply Hone.
Qed.

(** C13: the segments and operators that a command is parsed to make up the whole of it.
    The command is its segments, in order, with the operators between them and
    spaces around; each segment is at the positions that it records, and its words
    are those of the lexer.  So no character of a command that was accepted is left
    out of what is checked afterwards, other than spaces and operators. *)
Theorem parsed_command_covered command r :
  parse_command command POSIX = Ok r →
  ∃ lead segs text p last q, command = lead +:+ text +:+ p +:+ cs_raw last +:+ q ∧
    spaces lead ∧ spaces p ∧ spaces q ∧ pr_segments r = segs ++ [last] ∧
    pieces (String.length lead) segs (pr_operators r) text ∧
    segment_at (String.length lead + String.length text + String.length p) last.
Proof.
  intros H. unfold parse_command, _parse_command_posix in H. destruct (negb _); [done|].
  destruct (scan _ _ _ _ _ _) as [[st cur]|e] eqn:E; cbn [mbind result_bind] in H; [|done].
  destruct (strip_split command) as (lead & tail & Ecmd & Hlead & Htail & Hn). rewrite Hn in E.
  apply (scan_laid_out (String.length lead) _ _ _ _ _ _ _ _ "") in E as (text & [Hp Hs] & Et);
    [|split; [apply pieces_none|simpl; lia]|simpl; lia]. cbn [sc_start] in Hs.
  destruct (close_segment cur _ _) as [seg|e] eqn:El; cbn [mbind result_bind] in H; [|done]. injection H as <-.
  apply close_pieces in El as (p & q & Ec & Hp1 & Hq & Hseg). rewrite Hs in Hseg.
  rewrite !app_nil_l_str in Et. exists lead, (sc_segments st), text, p, seg, (q +:+ tail).
  split_and!; [|done..| |done|done|done].
  - rewrite Ecmd at 1. rewrite <-Et, Ec. by rewrite !str_app_assoc.
  - rewrite str_all_app. by rewrite Hq.
Qed.
