(* ===== verification/ToolPolicyProps.v ===== *)
(** What the checks of tools guarantee: the paths a tool may touch, the scope it runs
    in, the commands that are accepted, and what is known of a command line that is
    handed to a shell. *)

From S2P Require Import Prelude PyValue PyText CommandParser ToolPolicy ExecPolicy.
From Stdlib Require Import Ascii.

(** A step of a check that succeeded. *)
Lemma bind_Ok {E A B} (m : result E A) (f : A → result E B) b :
  (x ← m; f x) = Ok b → ∃ a, m = Ok a ∧ f a = Ok b.
Proof. destruct m as [a|e]; simpl; [by exists a|done]. Qed.
Ltac step_ok H x E := apply bind_Ok in H as (x & E & H).

(** ** Scopes *)

Definition rank_le (a b : string) : Prop :=
  ∃ n m, scope_rank a = Some n ∧ scope_rank b = Some m ∧ (n <= m)%Z.
Lemma max_scope_rank raw s : max_scope raw = Ok s → is_some (scope_rank s) = true.
Proof. unfold max_scope. destruct (default _ _); try done. destruct (is_some (scope_rank s0)) eqn:E; [by intros [= <-]|done]. Qed.

(** The scope of a call is never wider than the policy's and never wider than the
    one that was asked for. *)
Theorem scope_never_widened raw requested s :
  effective_scope raw requested = Ok s →
  ∃ m, max_scope raw = Ok m ∧ rank_le s m ∧ (otruthy requested = true → rank_le s (default "" requested)).
Proof.
  unfold effective_scope. intros H. step_ok H m Em. exists m. split; [done|]. pose proof (max_scope_rank raw m Em) as Hm.
  destruct (scope_rank m) as [k|] eqn:Ek; [|done]. destruct (negb (truthy (default "" requested))) eqn:Et.
  - injection H as <-. split; [by exists k, k|]. intros Ht. destruct requested as [r|]; [|done]. simpl in Et, Ht.
    by rewrite Ht in Et.
  - destruct (scope_rank (default "" requested)) as [r|] eqn:Er; [|done]. injection H as <-.
    destruct (Z.leb_spec r k); split; try intros _; eexists _, _; split_and!; try done; lia.
Qed.

(** ** Paths *)

Section Paths.
Context {Env : PyEnv} {Sys : ToolEnv}.

Definition allow_key (operation : string) : string := if String.eqb operation "read" then "read_allow" else "write_allow".
(** A path that the policy lets an operation touch: below an allowed root and below
    no denied one, symbolic links resolved. *)
Definition confined (raw : dict) (workspace : Path) (operation : string) (p : Path) : Prop :=
  ∃ paths deny allow, section raw "paths" = Ok paths ∧ items paths "deny" = Ok deny ∧
    items paths (allow_key operation) = Ok allow ∧
    (∃ v, v ∈ allow ∧ _is_subpath p (_expand_path_pair (py_str v) workspace).2 = true) ∧
    ∀ v, v ∈ deny → _is_subpath p (_expand_path_pair (py_str v) workspace).2 = false.

Lemma allowed_by_sound c r roots p : allowed_by c r roots = Ok (Some p) → p = r ∧ ∃ root, root ∈ roots ∧ _is_subpath r root.2 = true.
Proof.
  induction roots as [|[a b] roots IH]; simpl; [done|].
  destruct ((_is_subpath c a || _is_subpath c b) && _is_subpath r b) eqn:E.
  - intros [= <-]. split; [done|]. exists (a, b). split; [by left|]. by apply andb_true_iff in E as [_ E].
  - destruct (_ && negb _); [done|]. intros H. destruct (IH H) as (-> & root & Hr & Es). split; [done|]. exists root.
    split; [by right|done].
Qed.
Lemma roots_elem ws l root : root ∈ text_roots ws l ↔ ∃ v, v ∈ l ∧ root = _expand_path_pair (py_str v) ws.
Proof.
  unfold text_roots. rewrite list_elem_of_In, in_map_iff. setoid_rewrite list_elem_of_In.
  split; intros (v & H1 & H2); eauto.
Qed.
Lemma path_allowed_confined raw path ws op p : ensure_path_allowed raw path ws op = Ok p →
  p = (_resolve_candidate_path path ws).2 ∧ confined raw ws op p.
Proof.
  unfold ensure_path_allowed. destruct (negb _); [done|]. destruct (_resolve_candidate_path path ws) as [c r] eqn:Er.
  intros H. step_ok H paths Ep. step_ok H deny Ed. step_ok H allow Ea.
  destruct (List.find _ _) as [root|] eqn:Ef; [done|]. step_ok H found El. destruct found as [q|]; [|done]. injection H as ->.
  apply allowed_by_sound in El as (-> & root & Hroot & Hs). apply roots_elem in Hroot as (v & Hv & ->).
  split; [done|]. exists paths, deny, allow. split_and!; [done..|eauto|]. intros d Hd.
  assert (_expand_path_pair (py_str d) ws ∈ text_roots ws deny) as Hin by (apply roots_elem; eauto).
  apply list_elem_of_In in Hin. pose proof (find_none _ _ Ef _ Hin) as Hn. unfold in_deny_root in Hn.
  by apply orb_false_iff in Hn as [_ Hn].
Qed.

(** What the operating system does: a resolved path is absolute and without empty
    components, dots or separators in them, resolving it again changes nothing, and
    only a leading tilde is expanded. *)
Definition clean_part (s : string) : bool :=
  truthy s && negb (String.eqb s ".") && negb (String.eqb s "..") && str_all (λ c, negb (Ascii.eqb c "/")) s.
Definition clean (p : Path) : Prop := (pt_root p = "/" ∨ pt_root p = "//") ∧ forallb clean_part (pt_parts p) = true.
Definition realpath_resolves : Prop := ∀ p, clean (realpath p) ∧ realpath (realpath p) = realpath p.
Definition expanduser_tilde_only : Prop := ∀ s, py_startswith s "/" = true → py_path_expanduser s = s.

Lemma split_no_sep s : str_all (λ c, negb (Ascii.eqb c "/")) s = true → split_char "/" s = [s].
Proof.
  induction s as [|c s IH]; [done|]. cbn [str_all split_char]. intros [Hc Hs]%andb_true_iff. apply negb_true_iff in Hc.
  rewrite Hc. by rewrite IH.
Qed.
Lemma split_sep s t : str_all (λ c, negb (Ascii.eqb c "/")) s = true →
  split_char "/" (s +:+ String "/" t) = s :: split_char "/" t.
Proof.
  induction s as [|c s IH]; [done|]. change (String c s +:+ String "/" t) with (String c (s +:+ String "/" t)).
  cbn [str_all]. intros [Hc Hs]%andb_true_iff. apply negb_true_iff in Hc. cbn [split_char]. rewrite Hc. by rewrite IH.
Qed.
Lemma split_join_parts p l : forallb clean_part (p :: l) = true → split_char "/" (py_join "/" (p :: l)) = p :: l.
Proof.
  revert p. induction l as [|q l IH]; intros p H; apply andb_true_iff in H as [Hp Hl];
    apply andb_true_iff in Hp as [_ Hp].
  - by apply split_no_sep.
  - change (py_join "/" (p :: q :: l)) with (p +:+ String "/" (py_join "/" (q :: l))). rewrite split_sep by done. by rewrite IH.
Qed.
Lemma filter_clean l : forallb clean_part l = true → List.filter (λ p, truthy p && negb (String.eqb p ".")) l = l.
Proof.
  induction l as [|p l IH]; simpl; [done|]. intros [Hp Hl]%andb_true_iff. rewrite IH by done. unfold clean_part in Hp.
  apply andb_true_iff in Hp as [Hp _]. apply andb_true_iff in Hp as [Hp _]. by rewrite Hp.
Qed.
Lemma prefix_cons a p b s : String.prefix (String a p) (String b s) = Ascii.eqb a b && String.prefix p s.
Proof. cbn [String.prefix]. destruct (ascii_dec a b) as [->|H]; [by rewrite Ascii.eqb_refl|]. by rewrite (proj2 (Ascii.eqb_neq a b) H). Qed.
Lemma parse_text p : clean p → parse_path (path_text p) = p ∧ py_startswith (path_text p) "/" = true.
Proof.
  destruct p as [root parts]. intros [Hroot Hp]. unfold path_text, parse_path. cbn [pt_root pt_parts] in *.
  assert (match parts with [] => True | p :: _ => ∃ c t, p = String c t ∧ Ascii.eqb c "/" = false end) as Hh.
  { destruct parts as [|p l]; [done|]. cbn [forallb] in Hp. apply andb_true_iff in Hp as [Hp _]. unfold clean_part in Hp.
    destruct p as [|c t]; [done|]. exists c, t. split; [done|]. simpl in Hp. bsplit. done. }
  destruct parts as [|p l]; [by destruct Hroot as [-> | ->]|].
  destruct Hh as (c & t & -> & Hc).
  assert (∃ u, py_join "/" (String c t :: l) = String c u) as [u Eu] by (destruct l; by eexists).
  pose proof (split_join_parts _ _ Hp) as Es. pose proof (filter_clean _ Hp) as Ef. rewrite Eu in *.
  destruct Hroot as [-> | ->].
  - change (truthy ("/" +:+ String c u)) with true. cbv iota. change ("/" +:+ String c u) with (String "/" (String c u)).
    change (split_char "/" (String "/" (String c u))) with ("" :: split_char "/" (String c u)). rewrite Es.
    repeat change (List.filter ?p ("" :: ?x)) with (List.filter p x). rewrite Ef. split; [|done]. f_equal. unfold py_startswith. rewrite !prefix_cons, (Ascii.eqb_sym "/" c), Hc. by destruct u.
  - change (truthy ("//" +:+ String c u)) with true. cbv iota. change ("//" +:+ String c u) with (String "/" (String "/" (String c u))).
    change (split_char "/" (String "/" (String "/" (String c u)))) with ("" :: "" :: split_char "/" (String c u)). rewrite Es.
    repeat change (List.filter ?p ("" :: ?x)) with (List.filter p x). rewrite Ef. split; [|done]. f_equal. unfold py_startswith. rewrite !prefix_cons, (Ascii.eqb_sym "/" c), Hc. by destruct u.
Qed.
Lemma norm_clean l acc : forallb clean_part l = true → norm_parts acc l = acc ++ l.
Proof.
  revert acc. induction l as [|p l IH]; intros acc H; [by rewrite app_nil_r|]. cbn [forallb] in H.
  apply andb_true_iff in H as [Hp Hl]. cbn [norm_parts]. unfold clean_part in Hp.
  apply andb_true_iff in Hp as [Hp _]. apply andb_true_iff in Hp as [_ Hp]. apply negb_true_iff in Hp. rewrite Hp, IH by done.
  by rewrite <- app_assoc.
Qed.
Lemma clean_absolute p : clean p → is_absolute p = true.
Proof. by intros [[E | E] _]; unfold is_absolute; rewrite E. Qed.
Lemma abspath_clean p : clean p → abspath p = p.
Proof.
  intros Hp. unfold abspath, path_div. rewrite clean_absolute by done. destruct p as [root parts]. cbn [pt_root pt_parts].
  f_equal. by apply norm_clean, Hp.
Qed.
(** The text of a resolved path names that path wherever it is read. *)
Lemma resolved_candidate p ws : realpath_resolves → expanduser_tilde_only → realpath p = p →
  _resolve_candidate_path (path_text p) ws = (p, p).
Proof.
  intros Hr Hu Ep. destruct (Hr p) as [Hc _]. rewrite Ep in Hc. destruct (parse_text p Hc) as [Hparse Hs].
  unfold _resolve_candidate_path, expand. rewrite Hu, Hparse by done. unfold under.
  rewrite clean_absolute, abspath_clean, Ep by done. done.
Qed.

(** C11: the path that a tool is handed is resolved, lies below an allowed root and
    below no denied one, and a relative path never leaves the workspace. *)
Theorem tool_path_confined ctx raw_path operation text :
  realpath_resolves → expanduser_tilde_only →
  resolve_path ctx raw_path operation = Ok text →
  ∃ root p, resolve_workspace_root ctx = Ok root ∧ text = path_text p ∧ realpath p = p ∧
    confined (ctx_raw ctx) root operation p ∧
    (is_absolute (expand raw_path) = false → _is_subpath p root = true).
Proof.
  intros Hr Hu H. unfold resolve_path in H. step_ok H root Eroot. step_ok H base Ebase.
  set (located := if is_absolute _ then _ else _) in H. destruct (Hr located) as [_ Hi].
  destruct (negb _ && negb _) eqn:Eesc; [done|].
  destruct (ensure_path_allowed _ _ _ _) as [q|[c msg d|n]] eqn:Ea; [|by destruct (py_eq _ _)|done].
  injection H as <-. apply path_allowed_confined in Ea as [-> Hc].
  rewrite (resolved_candidate (realpath located) root Hr Hu Hi) in Hc.
  exists root, (realpath located). split_and!; [done..|]. intros Hrel. rewrite Hrel in Eesc. simpl in Eesc.
  by apply negb_false_iff in Eesc.
Qed.
End Paths.

(** ** Commands *)

Section Commands.
Context {Env : PyEnv} {Sys : ToolEnv}.



(** *** Before a tool runs *)




End Commands.

(** * What is known of a command that is handed to a shell. *)

Section Exec.
Context {Env : PyEnv} {Sys : ToolEnv} (family : ShellFamily).



End Exec.

Section Run.
Context {Env : PyEnv} {Sys : ToolEnv} (hs : HostShell) (is_dir : Path → bool) (sb : Sandbox).
Context (pydantic : dict → option ExecRunArgs) (json_loads : string → option pyval)
  (float_of_text : string → option (Z * positive)).
Abbreviation family := (resolve_shell_family hs).








Lemma lab_reason_none params ctx lab now : lab_reason float_of_text params ctx lab now = Ok None →
  match lab with
  | None => False
  | Some config =>
      ctx_confirm ctx = true ∧ ctx_permission_mode ctx = "ask" ∧ er_workdir params = None ∧ er_background params = false ∧
      er_env params = [] ∧ (er_timeout_s params ≤ lc_command_timeout_seconds config)%Z ∧
      ∃ num den,
        py_float float_of_text (py_or (default (PInt 0) (dget (_security_lab_metadata ctx) "activation_expires_at")) (PInt 0))
          = Ok (num, den) ∧
        (er_timeout_s params * 1000000 * Zpos den ≤ num * 1000000 - now * Zpos den)%Z
  end.
Proof.
  unfold lab_reason. intros H. destruct (py_eq _ _); [|done]. destruct lab as [config|]; [|done].
  destruct (String.eqb_spec (ctx_permission_mode ctx) "ask"); [|done].
  destruct (ctx_confirm ctx); [|done]. cbn [negb] in H.
  destruct (_ || negb _); [done|]. destruct (er_background params); [done|].
  destruct (er_pty params); [done|]. destruct (bool_decide _) eqn:Ee; [|done].
  apply bool_decide_eq_true in Ee. destruct (er_workdir params); [done|].
  destruct (is_some (er_node params)); [done|]. destruct (negb (er_include_evidence_artifact params)); [done|].
  cbn [negb orb is_some] in H. step_ok H q Ef. destruct q as [num den].
  destruct (_ || _) eqn:Eo; [done|]. apply orb_false_iff in Eo as [[Eo1 Eo2]%orb_false_iff Eo3].
  split_and!; try done; [lia|]. exists num, den. split; [done|lia].
Qed.
Lemma lab_argv_ok command config argv : lab_argv command config = inr argv →
  ∃ exec rest, argv = exec :: rest ∧ exec ∈ lc_executable_allowlist config ∧ str_all (λ c, negb (lab_syntax c)) command = true.
Proof.
  unfold lab_argv. destruct (str_all _ command); [|done]. cbn [negb]. destruct (shlex_split command) as [[|exec rest]|]; [done| |done].
  destruct (sets_variable exec); [done|]. destruct (str_in exec _) eqn:Ei; [|done]. intros [= <-]. exists exec, rest.
  split; [reflexivity|]. split; [by apply str_in_elem|reflexivity].
Qed.
Lemma lab_prepared params ctx config argv prep : _security_lab_preparation params ctx config argv = Ok prep →
  ep_params prep = params ∧ ep_shell_argv prep = argv ∧ ep_env prep = [] ∧ ep_use_sandbox_runner prep = true.
Proof.
  unfold _security_lab_preparation. intros H. step_ok H x1 E1. step_ok H x2 E2. step_ok H x3 E3. step_ok H x4 E4. step_ok H x5 E5.
  step_ok H x6 E6. step_ok H x7 E7. injection H as <-. done.
Qed.

(** C15: where the laboratory is required, a command is run there alone: it was approved,
    is one executable of its list with no syntax of the shell, takes neither a
    directory nor variables, and may not outlast the approval. *)
Theorem lab_run_confined args ctx lab now prep :
  _security_lab_required ctx = true →
  _h_exec_run hs is_dir sb pydantic json_loads float_of_text args ctx lab now = Ok (Prepared prep) →
  ∃ config exec rest, lab = Some config ∧ ctx_confirm ctx = true ∧ ctx_permission_mode ctx = "ask" ∧
    ep_use_sandbox_runner prep = true ∧ ep_shell_argv prep = exec :: rest ∧ exec ∈ lc_executable_allowlist config ∧
    str_all (λ c, negb (lab_syntax c)) (er_command (ep_params prep)) = true ∧
    er_workdir (ep_params prep) = None ∧ ep_env prep = [] ∧ er_background (ep_params prep) = false ∧
    (er_timeout_s (ep_params prep) ≤ lc_command_timeout_seconds config)%Z ∧
    ∃ num den, py_float float_of_text (py_or (default (PInt 0) (dget (_security_lab_metadata ctx) "activation_expires_at")) (PInt 0))
        = Ok (num, den) ∧
      (er_timeout_s (ep_params prep) * 1000000 * Zpos den ≤ num * 1000000 - now * Zpos den)%Z.
Proof.
  intros Hlab H. unfold _h_exec_run in H. step_ok H normalized En. step_ok H valid Ev. step_ok H params Ep.
  unfold _exec_run_sandbox_unavailable in H. rewrite Hlab in H. cbn [negb andb] in H.
  unfold _prepare_security_lab_exec in H. step_ok H reason Er. destruct reason; [done|].
  apply lab_reason_none in Er. destruct lab as [config|]; [|done].
  destruct (lab_argv (er_command params) config) as [m|argv] eqn:Ea; [done|]. step_ok H q Eq1. injection H as ->.
  apply lab_argv_ok in Ea as (exec & rest & -> & Hex & Hsyn). apply lab_prepared in Eq1 as (E1 & E2 & E3 & E4). rewrite E1.
  destruct Er as (? & ? & ? & ? & ? & ? & num & den & ?). exists config, exec, rest. naive_solver.
Qed.
End Run.
