(* ===== verification/ExecProcessProps.v ===== *)
(** What the process manager promises: agents do not see each other's sessions, output
    is handed out once and in order, a session that ended stays as it is, one that is
    past its deadline is killed, and waiting ends. *)

From S2P Require Import Prelude PyValue PyText OrderedDict CommandParser ToolPolicy ExecPolicy ExecProcess.
From Stdlib Require Import Ascii.

(** ** Programs that ask the system *)

Create HintDb proc.

(** A later state of the system: signals that were sent stay sent. *)
Definition later (s s' : OsState) : Prop := (os_tick s ≤ os_tick s')%nat ∧ os_signals s `prefix_of` os_signals s'.
#[global] Instance later_preorder : PreOrder later.
Proof. split; [by intros s|]. intros a b c [T1 P1] [T2 P2]. split; [lia|by etrans]. Qed.
(** What a program returns, whatever the system answers; asking never goes back. *)
Definition os_ok {A} (m : OS A) (P : A → Prop) : Prop := ∀ s, P (m s).1 ∧ later s (m s).2.
Lemma os_ok_ret {A} (a : A) P : P a → os_ok (mret a) P.
Proof. by intros H s. Qed.
Lemma os_ok_bind {A B} (m : OS A) (f : A → OS B) P Q : os_ok m P → (∀ a, P a → os_ok (f a) Q) → os_ok (m ≫= f) Q.
Proof.
  intros Hm Hf s. specialize (Hm s). unfold mbind, OS_bind. destruct (m s) as [a s1]. destruct Hm as [Ha Ht].
  destruct (Hf a Ha s1) as [Hb Ht']. split; [done|]. by etrans.
Qed.
Lemma os_ok_weaken {A} (m : OS A) (P Q : A → Prop) : os_ok m P → (∀ a, P a → Q a) → os_ok m Q.
Proof. intros H HPQ s. destruct (H s). eauto. Qed.
Lemma os_ok_asks {A} (f : nat → A) : os_ok (asks f) (λ _, True).
Proof. intros s. split; [done|]. split; [simpl; lia|done]. Qed.
Lemma os_ok_signals h sig : os_ok (signals h sig) (λ _, True).
Proof. intros s. split; [done|]. split; [simpl; lia|by eexists]. Qed.
Lemma os_ok_feeds h p : os_ok (feeds h p) (λ _, True).
Proof. intros s. split; [done|]. split; [simpl; lia|done]. Qed.
Ltac os_bind := eapply os_ok_bind.
Ltac os_ask := eapply os_ok_bind; [first [apply os_ok_asks|apply os_ok_signals|apply os_ok_feeds]|intros ? _].

(** ** A session only grows *)

Definition extends (a b : Stream) : Prop := st_cursor b = st_cursor a ∧ ∃ x, st_buffer b = st_buffer a +:+ x.
Definition grows (e e' : SessionRecord) : Prop :=
  sr_info e' = sr_info e ∧ extends (sr_out e) (sr_out e') ∧ extends (sr_err e) (sr_err e').
#[global] Instance extends_preorder : PreOrder extends.
Proof.
  split.
  - intros a. split; [done|]. exists "". by rewrite str_app_nil_r.
  - intros a b c [E1 [x E2]] [E3 [y E4]]. split; [congruence|]. exists (x +:+ y). by rewrite E4, E2, str_app_assoc.
Qed.
#[global] Instance grows_preorder : PreOrder grows.
Proof.
  split.
  - intros e. by split_and!.
  - intros a b c (E1 & O1 & R1) (E2 & O2 & R2). split_and!; [congruence|by etrans|by etrans].
Qed.
Lemma extends_extend st x : extends st (extend st x).
Proof. split; [done|]. by exists x. Qed.
#[export] Hint Resolve extends_extend : proc.

Section Process.
Context {Proc : ProcEnv}.

(** The state of a session between two operations: its process is kept while it runs,
    and let go of with its descriptors when it ended. *)
Definition session_wf (e : SessionRecord) : Prop :=
  match sr_exit_code e with
  | None => sr_process e = Some None ∧ sr_open e = true
  | Some _ => sr_process e = None ∧ sr_open e = false
  end.
(** Within an operation, before the end of the process is recorded. *)
Definition running (e : SessionRecord) : Prop :=
  sr_exit_code e = None ∧ sr_open e = true ∧ is_some (sr_process e) = true.

Lemma drain_grows e : os_ok (_drain_output_locked e) (λ e', grows e e' ∧ sr_exit_code e' = sr_exit_code e ∧
  sr_open e' = sr_open e ∧ sr_process e' = sr_process e ∧ (sr_open e = false → e' = e)).
Proof.
  unfold _drain_output_locked. destruct (sr_open e) eqn:Eo; simpl; [|apply os_ok_ret; split_and!; done].
  destruct (si_use_pty (sr_info e)); repeat os_ask; apply os_ok_ret; cbn; split_and!; try done; split_and!; cbn; auto with proc; done.
Qed.
Lemma set_process_id e : set_process (sr_process e) e = e.
Proof. by destruct e. Qed.
Lemma poll_spec e : os_ok (poll e) (λ r, r.1 = set_process (sr_process r.1) e ∧
  match sr_process e with
  | None => r.1 = e ∧ r.2 = None
  | Some _ => sr_process r.1 = Some r.2
  end).
Proof.
  unfold poll. destruct (sr_process e) as [[rc|]|] eqn:Ep; [|os_ask|]; apply os_ok_ret; cbn; split; try done; by rewrite set_process_id.
Qed.
Lemma terminate_grows e sig : os_ok (_terminate_locked e sig) (λ e', grows e e' ∧ sr_exit_code e' = sr_exit_code e ∧
  sr_open e' = sr_open e ∧ sr_process e' = sr_process e).
Proof.
  unfold _terminate_locked. destruct (sr_process e) eqn:Ep; [os_ask|]; apply os_ok_ret; cbn; split_and!; done.
Qed.
Lemma poll_grows e : os_ok (poll e) (λ r, grows e r.1 ∧ sr_exit_code r.1 = sr_exit_code e ∧ sr_open r.1 = sr_open e ∧
  (sr_process e = None → r = (e, None)) ∧ (is_some (sr_process e) = true → sr_process r.1 = Some r.2)).
Proof.
  eapply os_ok_weaken; [apply poll_spec|]. intros [e' rc] [E H]. cbn in *. rewrite E. cbn. split_and!; try done.
  - intros Ep. rewrite Ep in H. destruct H as [He ->]. by rewrite <- E, He.
  - intros Ep. by destruct (sr_process e).
Qed.
Lemma close_grows e : os_ok (_close_streams_locked e) (λ e', grows e e' ∧ sr_exit_code e' = sr_exit_code e ∧ sr_open e' = false ∧
  ∀ rc, sr_process e = Some (Some rc) → sr_process e' = None).
Proof.
  unfold _close_streams_locked. destruct (sr_process e) as [[rc|]|] eqn:Ep; unfold poll; cbn; rewrite Ep.
  - apply os_ok_ret. cbn. split_and!; done.
  - apply os_ok_bind with (P := λ r, ∃ rc, r = (set_process (Some rc) (set_closed e), rc)); [os_ask; apply os_ok_ret; by eexists|].
    intros r [[rc|] ->]; apply os_ok_ret; cbn; split_and!; done.
  - apply os_ok_ret. cbn. split_and!; done.
Qed.
Lemma time_out_running e : running e → os_ok (time_out e) (λ e', grows e e' ∧ running e').
Proof.
  intros (Hx & Ho & Hp). unfold time_out. os_bind; [apply terminate_grows|]. intros e1 (G1 & X1 & O1 & P1). cbn in X1, O1, P1.
  os_bind; [apply drain_grows|]. intros e2 (G2 & X2 & O2 & P2 & _). os_bind; [apply poll_grows|].
  intros [e3 rc] (G3 & X3 & O3 & _ & P3). cbn in *. assert (sr_process e3 = Some rc) as P3'. { apply P3. by rewrite P2, P1. }
  apply os_ok_bind with (P := λ e', grows e3 e' ∧ sr_exit_code e' = sr_exit_code e3 ∧ sr_open e' = sr_open e3 ∧ sr_process e' = sr_process e3).
  { destruct rc; [apply os_ok_ret; by split_and!|apply terminate_grows]. }
  intros e4 (G4 & X4 & O4 & P4). eapply os_ok_weaken; [apply drain_grows|]. intros e5 (G5 & X5 & O5 & P5 & _). split.
  - etrans; [|exact G5]. etrans; [|exact G4]. etrans; [|exact G3]. by etrans.
  - split_and!; [congruence|congruence|]. by rewrite P5, P4, P3'.
Qed.
Lemma collect_exit_wf e : running e → os_ok (collect_exit e) (λ e', grows e e' ∧ session_wf e').
Proof.
  intros (Hx & Ho & Hp). unfold collect_exit. os_bind; [apply poll_grows|]. intros [e1 rc] (G1 & X1 & O1 & _ & P1). cbn in *.
  specialize (P1 Hp). destruct rc as [code|].
  - os_ask. os_bind; [apply drain_grows|]. intros e2 (G2 & X2 & O2 & P2 & _). cbn in *.
    eapply os_ok_weaken; [apply close_grows|]. intros e3 (G3 & X3 & O3 & P3). split.
    + etrans; [|exact G3]. etrans; [exact G1|]. exact G2.
    + unfold session_wf. rewrite X3, X2. split; [|done]. by eapply P3; rewrite P2.
  - apply os_ok_ret. split; [done|]. unfold session_wf. rewrite X1, Hx. split; [done|congruence].
Qed.
(** Refreshing a session appends to its output, and leaves it running or ended. *)
Lemma refresh_wf e : session_wf e → os_ok (_refresh_locked e) (λ e', grows e e' ∧ session_wf e').
Proof.
  intros Hwf. unfold _refresh_locked. os_bind; [apply drain_grows|]. intros e1 (G1 & X1 & O1 & P1 & S1).
  unfold session_wf in Hwf. destruct (sr_exit_code e) as [code|] eqn:Ex.
  - destruct Hwf as [Hp Ho]. rewrite P1, Hp. apply os_ok_ret. split; [done|]. unfold session_wf. rewrite X1, P1, O1. done.
  - destruct Hwf as [Hp Ho]. rewrite P1, Hp. assert (running e1) as Hr by (split_and!; [done|congruence|by rewrite P1, Hp]).
    apply os_ok_bind with (P := λ _, True). { unfold overdue. rewrite X1. os_ask. by apply os_ok_ret. }
    intros late _. apply os_ok_bind with (P := λ e', grows e1 e' ∧ running e').
    { destruct late; [by apply time_out_running|by apply os_ok_ret]. }
    intros e2 [G2 Hr2]. eapply os_ok_weaken; [by apply collect_exit_wf|]. intros e3 [G3 Hwf3]. split; [|done].
    etrans; [exact G1|]. by etrans.
Qed.
(** One that ended is not touched. *)
Lemma refresh_ended e code s : session_wf e → sr_exit_code e = Some code → _refresh_locked e s = (e, s).
Proof.
  intros Hwf Ex. unfold session_wf in Hwf. rewrite Ex in Hwf. destruct Hwf as [Hp Ho].
  unfold _refresh_locked, _drain_output_locked. rewrite Ho. cbn [negb]. unfold mbind, OS_bind, mret, OS_ret. by rewrite Hp.
Qed.
Lemma kill_session_wf e sig : session_wf e → sr_exit_code e = None → os_ok (kill_session e sig) (λ e', grows e e' ∧ session_wf e').
Proof.
  assert (∀ e sig, session_wf e → sr_exit_code e = None → os_ok (_terminate_locked e sig) (λ e', grows e e' ∧ session_wf e')) as Ht.
  { intros e0 sig0 Hwf Hx. eapply os_ok_weaken; [apply terminate_grows|]. intros e1 (G & X & O & P). split; [done|].
    unfold session_wf in *. rewrite X, O, P. exact Hwf. }
  intros Hwf Hx. unfold kill_session. os_bind; [by apply Ht|]. intros e1 [G1 W1]. os_bind; [by apply refresh_wf|]. intros e2 [G2 W2].
  destruct (sr_exit_code e2) eqn:Ex; [apply os_ok_ret; split; [by etrans|done]|].
  os_bind; [by apply Ht|]. intros e3 [G3 W3]. eapply os_ok_weaken; [by apply refresh_wf|]. intros e4 [G4 W4]. split; [|done].
  etrans; [exact G1|]. etrans; [exact G2|]. by etrans.
Qed.

(** ** What was handed out *)

Definition consumed (st : Stream) : string := String.substring 0 (st_cursor st) (st_buffer st).
Definition stream_ok (st : Stream) : Prop := (st_cursor st ≤ String.length (st_buffer st))%nat.
Definition entry_ok (e : SessionRecord) : Prop := session_wf e ∧ stream_ok (sr_out e) ∧ stream_ok (sr_err e).
(** From one record of a session to a later one, while [x] of its two outputs is handed
    out; one that ended keeps all but its cursors. *)
Definition advances (x : string * string) (e e' : SessionRecord) : Prop :=
  sr_info e' = sr_info e ∧ entry_ok e' ∧ consumed (sr_out e') = consumed (sr_out e) +:+ x.1 ∧
  consumed (sr_err e') = consumed (sr_err e) +:+ x.2 ∧
  (is_some (sr_exit_code e) = true → e' = set_streams (sr_out e') (sr_err e') e ∧
     st_buffer (sr_out e') = st_buffer (sr_out e) ∧ st_buffer (sr_err e') = st_buffer (sr_err e)).

Lemma extends_ok a b : stream_ok a → extends a b → stream_ok b ∧ consumed b = consumed a.
Proof.
  unfold stream_ok, consumed. intros Ha [E [x ->]]. rewrite E, str_length_app. split; [lia|]. by apply substring_app_l.
Qed.
Lemma set_streams_id e : set_streams (sr_out e) (sr_err e) e = e.
Proof. by destruct e. Qed.
Lemma grows_advances e e' : entry_ok e → grows e e' → session_wf e' → sr_exit_code e = None → advances ("", "") e e'.
Proof.
  intros (_ & Ho & He) (Ei & Go & Ge) Hwf Hx. destruct (extends_ok _ _ Ho Go) as [Ho' Eo].
  destruct (extends_ok _ _ He Ge) as [He' Ee]. unfold advances. rewrite Eo, Ee, !str_app_nil_r. split_and!; try done. intros H. by rewrite Hx in H.
Qed.
Lemma advances_refl e : entry_ok e → advances ("", "") e e.
Proof. intros H. unfold advances. rewrite !str_app_nil_r, set_streams_id. by split_and!. Qed.
Lemma advances_trans e1 e2 e3 x : advances ("", "") e1 e2 → advances x e2 e3 → advances x e1 e3.
Proof.
  intros (I1 & _ & O1 & R1 & S1) (I2 & K2 & O2 & R2 & S2). split_and!; [congruence|done| | |].
  - by rewrite O2, O1, str_app_nil_r.
  - by rewrite R2, R1, str_app_nil_r.
  - intros H. destruct (S1 H) as (E1 & B1 & C1). rewrite E1 in S2. destruct (S2 H) as (E2 & B2 & C2). cbn in B2, C2.
    split_and!; [|congruence..]. by rewrite E2 at 1.
Qed.
Lemma refresh_advances e : entry_ok e → os_ok (_refresh_locked e) (advances ("", "") e).
Proof.
  intros He. destruct (sr_exit_code e) as [code|] eqn:Ex.
  - intros s. rewrite (refresh_ended e code) by (done || apply He). split; [by apply advances_refl|done].
  - eapply os_ok_weaken; [apply refresh_wf, He|]. intros e' [G W]. by apply grows_advances.
Qed.

(** ** The manager *)

Definition used (sid : string) (w : ProcWorld) : Prop := ∃ n, (n < os_tick (pw_os w))%nat ∧ os_session_id n = sid.
Definition world_ok (w : ProcWorld) : Prop :=
  od_ok (pw_sessions w) ∧ ∀ k e, od_get (pw_sessions w) k = Some e → entry_ok e ∧ used k w.
(** [uuid4] never repeats an identifier. *)
Definition ids_distinct : Prop := ∀ n m, os_session_id n = os_session_id m → n = m.
(** From one world to a later one, [x] of the outputs of a session is handed out. *)
Definition handed (sid : string) (x : string * string) (w w' : ProcWorld) : Prop :=
  match od_get (pw_sessions w) sid, od_get (pw_sessions w') sid with
  | Some e, Some e' => advances x e e'
  | None, Some e' => ¬ used sid w ∧ (consumed (sr_out e'), consumed (sr_err e')) = x
  | _, None => x = ("", "")
  end.
Definition tracks {A} (m : PM A) (f : string → A → string * string) : Prop := ∀ w, world_ok w →
  world_ok (m w).2 ∧ (os_tick (pw_os w) ≤ os_tick (pw_os (m w).2))%nat ∧ ∀ sid, handed sid (f sid (m w).1) w (m w).2.
Definition quiet {A} (m : PM A) : Prop := tracks m (λ _ _, ("", "")).

Lemma used_mono sid w w' : (os_tick (pw_os w) ≤ os_tick (pw_os w'))%nat → used sid w → used sid w'.
Proof. intros H (n & Hn & E). exists n. split; [lia|done]. Qed.
Lemma handed_refl sid w : world_ok w → handed sid ("", "") w w.
Proof.
  intros [_ H]. unfold handed. destruct (od_get (pw_sessions w) sid) as [e|] eqn:E; [|done]. by apply advances_refl, (H sid).
Qed.
Lemma handed_trans sid x w w1 w2 : world_ok w → (os_tick (pw_os w) ≤ os_tick (pw_os w1))%nat →
  handed sid ("", "") w w1 → handed sid x w1 w2 → handed sid x w w2.
Proof.
  intros [_ Hw] Ht. unfold handed. destruct (od_get (pw_sessions w) sid) as [e|] eqn:E0;
    destruct (od_get (pw_sessions w1) sid) as [e1|] eqn:E1; destruct (od_get (pw_sessions w2) sid) as [e2|] eqn:E2; try done.
  - by apply advances_trans.
  - intros _ [Hn _]. destruct Hn. eapply used_mono; [done|]. by apply (Hw sid e).
  - intros [Hn [= Eo Ee]] (_ & _ & Co & Ce & _). split; [done|]. rewrite Co, Ce, Eo, Ee. by destruct x.
  - intros _ [Hn Hx]. split; [|done]. intros Hu. apply Hn. by eapply used_mono.
Qed.
Lemma tracks_ret {A} (a : A) f : (∀ sid, f sid a = ("", "")) → tracks (mret a) f.
Proof. intros Hf w Hw. split_and!; [done|done|]. intros sid. cbn. rewrite Hf. by apply handed_refl. Qed.
Lemma tracks_bind {A B} (m : PM A) (k : A → PM B) f : quiet m → (∀ a, tracks (k a) f) → tracks (m ≫= k) f.
Proof.
  intros Hm Hk w Hw. destruct (Hm w Hw) as (W1 & T1 & H1). unfold mbind, PM_bind. destruct (m w) as [a w1]. cbn in *.
  destruct (Hk a w1 W1) as (W2 & T2 & H2). split_and!; [done|lia|]. intros sid. by eapply handed_trans.
Qed.
(** A continuation that only reads. *)
Lemma tracks_after {A B} (m : PM A) (k : A → PM B) f g :
  tracks m f → (∀ a w, (k a w).2 = w ∧ ∀ sid, g sid (k a w).1 = f sid a) → tracks (m ≫= k) g.
Proof.
  intros Hm Hk w Hw. destruct (Hm w Hw) as (W1 & T1 & H1). unfold mbind, PM_bind. destruct (m w) as [a w1]. cbn in *.
  destruct (Hk a w1) as [E Hg]. rewrite E. split_and!; [done..|]. intros sid. by rewrite Hg.
Qed.
Lemma quiet_os {A} (m : OS A) P : os_ok m P → quiet (on_os m).
Proof.
  intros Hm w Hw. unfold on_os. destruct (Hm (pw_os w)) as [_ [Ht _]]. destruct (m (pw_os w)) as [a s]. cbn in *.
  assert (world_ok {| pw_sessions := pw_sessions w; pw_os := s |}) as Hw'.
  { destruct Hw as [Hk He]. split; [done|]. intros k e E. destruct (He k e E) as [H1 H2]. split; [done|]. by eapply used_mono. }
  split_and!; [done..|]. intros sid. exact (handed_refl sid w Hw).
Qed.

(** What the body of an operation does to a session, while it hands out [x]. *)
Definition body_ok {A} (body : SessionRecord → OS (option SessionRecord * A)) (x : A → string * string) : Prop := ∀ e, entry_ok e →
  os_ok (body e) (λ r, match r.1 with Some e' => advances (x r.2) e e' | None => x r.2 = ("", "") end).
Lemma tracks_session {A} agent sid (missing : A) body x : body_ok body x → x missing = ("", "") →
  tracks (with_session agent sid missing body) (λ sid' r, if decide (sid' = sid) then x r else ("", "")).
Proof.
  intros Hb Hm w Hw. unfold with_session. destruct (od_get (pw_sessions w) sid) as [e|] eqn:E; [|cbn].
  2: { split_and!; [done..|]. intros sid'. rewrite Hm. case_decide; by apply handed_refl. }
  destruct (String.eqb _ agent); cbn.
  2: { split_and!; [done..|]. intros sid'. rewrite Hm. case_decide; by apply handed_refl. }
  destruct Hw as [Hk He]. destruct (He sid e E) as [Hent Hu]. destruct (Hb e Hent (pw_os w)) as [H1 [Ht _]].
  destruct (body e (pw_os w)) as [[e' a] s]. cbn in *. unfold handed, world_ok, used. cbn.
  destruct e' as [e'|].
  - split_and!; [by apply od_set_ok| |done|].
    + intros k e0. rewrite od_get_set. case_decide as Ek.
      * intros [= <-]. subst k. split; [apply H1|]. destruct Hu as (n & ? & ?). exists n. split; [lia|done].
      * intros E0. destruct (He k e0 E0) as [? (n & ? & ?)]. split; [done|]. exists n. split; [lia|done].
    + intros sid'. rewrite od_get_set. case_decide as Ek; [subst; by rewrite E|].
      exact (handed_refl sid' w (conj Hk He)).
  - split_and!; [by apply od_pop_ok| |done|].
    + intros k e0. rewrite od_get_pop. case_decide as Ek; [done|].
      intros E0. destruct (He k e0 E0) as [? (n & ? & ?)]. split; [done|]. exists n. split; [lia|done].
    + intros sid'. rewrite od_get_pop. case_decide as Ek; [by destruct (od_get _ sid')|].
      exact (handed_refl sid' w (conj Hk He)).
Qed.
Lemma quiet_session {A} agent sid (missing : A) body : body_ok body (λ _, ("", "")) → quiet (with_session agent sid missing body).
Proof.
  intros Hb w Hw. destruct (tracks_session agent sid missing body (λ _, ("", "")) Hb eq_refl w Hw) as (W & T & H).
  split_and!; [done..|]. intros sid'. specialize (H sid'). by destruct (decide (sid' = sid)).
Qed.

(** *** Operations on a session *)

(** Every operation refreshes the session first. *)
Lemma body_refresh {A} (k : SessionRecord → OS (option SessionRecord * A)) x : body_ok k x →
  body_ok (λ e, e ← _refresh_locked e; k e) x.
Proof.
  intros Hk e He. os_bind; [by apply refresh_advances|]. intros e1 H1. eapply os_ok_weaken; [apply Hk, H1|].
  intros [[e'|] a] H; [by eapply advances_trans|done].
Qed.
Lemma keep_ret {A} e (a : A) : entry_ok e →
  os_ok (mret (Some e, a)) (λ r, match r.1 with Some e' => advances ("", "") e e' | None => ("", "") = ("", "") end).
Proof. intros He. apply os_ok_ret. by apply advances_refl. Qed.
Lemma body_keep {A} (f : SessionRecord → A) : body_ok (λ e, mret (Some e, f e)) (λ _, ("", "")).
Proof. intros e He. by apply keep_ret. Qed.
Lemma consume_stream st : stream_ok st → consumed (read_all st) = consumed st +:+ unread st.
Proof. intros H. unfold consumed, unread, read_all. cbn. by rewrite substring_split, substring_all. Qed.
Lemma body_consume : body_ok (λ e,
  mret (Some (set_streams (read_all (sr_out e)) (read_all (sr_err e)) e), (unread (sr_out e), unread (sr_err e)))) (λ r, r).
Proof.
  intros e (Hwf & Ho & He). apply os_ok_ret. split; [done|]. split; [split; [exact Hwf|split; unfold stream_ok; cbn; lia]|].
  split; [by apply consume_stream|]. split; [by apply consume_stream|done].
Qed.
Lemma consume_tracks agent sid :
  tracks (consume_new_output agent sid) (λ sid' r, if decide (sid' = sid) then r else ("", "")).
Proof. apply (tracks_session agent sid _ _ (λ r, r)); [apply body_refresh, body_consume|done]. Qed.
Lemma snapshot_quiet agent sid : quiet (snapshot agent sid).
Proof. apply quiet_session, body_refresh, body_keep. Qed.
Lemma full_output_quiet agent sid : quiet (full_output agent sid).
Proof. apply quiet_session, body_refresh, body_keep. Qed.
Lemma wait_round_quiet agent sid : quiet (wait_round agent sid).
Proof. apply quiet_session, body_refresh, body_keep. Qed.
Lemma body_send payload : body_ok (λ e,
  match sr_exit_code e with
  | Some _ => mret (Some e, (false, "session is not running"))
  | None => r ← write_input e payload; mret (Some e, r)
  end) (λ _, ("", "")).
Proof.
  intros e He. destruct (sr_exit_code e); [by apply keep_ret|]. apply os_ok_bind with (P := λ _, True); [|intros r _; by apply keep_ret].
  unfold write_input. destruct (sr_open e); [|by apply os_ok_ret]. os_ask.
  match goal with |- os_ok (match ?r with _ => _ end) _ => destruct r end; [os_ask|..]; by apply os_ok_ret.
Qed.
Lemma body_kill sig : body_ok (λ e,
  match sr_exit_code e with
  | Some _ => mret (Some e, (true, "session already exited", Some e))
  | None => e ← kill_session e sig; mret (Some e, (true, "session terminated", Some e))
  end) (λ _, ("", "")).
Proof.
  intros e He. destruct (sr_exit_code e) eqn:Ex; [by apply keep_ret|].
  os_bind; [apply kill_session_wf; [apply He|done]|]. intros e1 [G W]. apply os_ok_ret. by apply grows_advances.
Qed.
Lemma body_clear : body_ok (λ e,
  match sr_exit_code e with
  | None => mret (Some e, (false, "cannot clear a running session"))
  | Some _ => _ ← _close_streams_locked e; mret (None, (true, "session cleared"))
  end) (λ _, ("", "")).
Proof.
  intros e He. destruct (sr_exit_code e) eqn:Ex; [|by apply keep_ret]. os_bind; [apply close_grows|]. intros e1 _. by apply os_ok_ret.
Qed.
Lemma send_input_quiet agent sid payload : quiet (send_input agent sid payload).
Proof. unfold send_input. destruct (negb _); [by apply tracks_ret|]. apply quiet_session, body_refresh, body_send. Qed.
Lemma kill_quiet agent sid sig : quiet (kill agent sid sig).
Proof. apply quiet_session, body_refresh, body_kill. Qed.
Lemma clear_quiet agent sid : quiet (clear agent sid).
Proof. apply quiet_session, body_refresh, body_clear. Qed.
Lemma wait_quiet fuel agent sid us : quiet (wait fuel agent sid us).
Proof.
  unfold wait. apply tracks_bind; [eapply quiet_os, os_ok_asks|]. intros now. generalize (now + Z.max 0 us)%Z. intros deadline.
  induction fuel as [|fuel IH]; cbn [wait_go]; [by apply tracks_ret|]. apply tracks_bind; [apply wait_round_quiet|].
  intros [b|]; [by apply tracks_ret|]. apply tracks_bind; [eapply quiet_os, os_ok_asks|]. intros t.
  destruct (deadline <=? t)%Z; [by apply tracks_ret|done].
Qed.

(** *** All sessions *)

Lemma list_go_spec agent incl l : Forall (λ kv, entry_ok kv.2) l → os_ok (list_go agent incl l) (λ r, map fst r.1 = map fst l ∧
  ∀ k, match od_get l k, od_get r.1 k with Some e, Some e' => advances ("", "") e e' | None, None => True | _, _ => False end).
Proof.
  induction l as [|[k e] l IH]; intros Hl; [by apply os_ok_ret|]. inversion Hl as [|? ? He Hl']; subst. cbn [list_go].
  assert (∀ e' r, advances ("", "") e e' → (map fst (r : list _) = map fst l ∧
    ∀ k, match od_get l k, od_get r k with Some e, Some e' => advances ("", "") e e' | None, None => True | _, _ => False end) →
    map fst ((k, e') :: r) = map fst ((k, e) :: l) ∧ ∀ k0, match od_get ((k, e) :: l) k0, od_get ((k, e') :: r) k0 with
      Some e, Some e' => advances ("", "") e e' | None, None => True | _, _ => False end) as Hcons.
  { intros e' r Ha [E Hr]. split; [cbn; by rewrite E|]. intros k0. cbn. destruct (bool_decide (k0 = k)); [done|apply Hr]. }
  destruct (String.eqb _ agent).
  - os_bind; [by apply refresh_advances|]. intros e1 H1. os_bind; [by apply IH|]. intros r Hr. apply os_ok_ret. by apply Hcons.
  - os_bind; [by apply IH|]. intros r Hr. apply os_ok_ret. apply Hcons; [by apply advances_refl|done].
Qed.
Lemma list_sessions_quiet agent incl : quiet (list_sessions agent incl).
Proof.
  intros w [Hk He]. unfold list_sessions. assert (Forall (λ kv, entry_ok kv.2) (pw_sessions w)) as Hf.
  { apply Forall_forall. intros [k e] Hin. apply (He k e). by apply elem_od_get. }
  destruct (list_go_spec agent incl _ Hf (pw_os w)) as [[E Hg] [Ht _]]. destruct (list_go _ _ _ _) as [[l rows] s]. cbn in *.
  split_and!; [split|done|].
  - unfold od_ok. cbn. by rewrite E.
  - cbn. intros k e' Ee. specialize (Hg k). rewrite Ee in Hg. destruct (od_get (pw_sessions w) k) as [e|] eqn:E0; [|done].
    destruct (He k e E0) as [_ (n & ? & ?)]. split; [apply Hg|]. exists n. split; [cbn; lia|done].
  - intros sid. unfold handed. cbn. specialize (Hg sid). by destruct (od_get (pw_sessions w) sid), (od_get l sid).
Qed.

(** *** Starting a command *)


Lemma new_session_ok info : entry_ok (new_session info).
Proof. split_and!; [done|unfold stream_ok; cbn; lia..]. Qed.
#[local] Arguments _refresh_locked : simpl never.
#[local] Arguments new_session : simpl never.
(** A session under a name that was never used. *)
Lemma put_new_handed sid e e0 w s : world_ok w → ¬ used sid w → advances ("", "") (new_session e0) e →
  (os_tick (pw_os w) ≤ os_tick s)%nat → (∃ n, (n < os_tick s)%nat ∧ os_session_id n = sid) →
  let w' := {| pw_sessions := od_set (pw_sessions w) sid e; pw_os := s |} in
  world_ok w' ∧ ∀ sid', handed sid' ("", "") w w'.
Proof.
  intros Hw Hn Ha Ht Hu w'. pose proof Hw as [Hk He]. split; [split|].
  - by apply od_set_ok.
  - cbn. intros k e'. rewrite od_get_set. case_decide as Ek.
    + intros [= <-]. subst k. split; [apply Ha|done].
    + intros E. destruct (He k e' E) as [? (n & ? & ?)]. split; [done|]. exists n. split; [cbn; lia|done].
  - intros sid'. unfold handed. cbn. rewrite od_get_set. case_decide as Ek; [subst sid'|exact (handed_refl sid' w Hw)].
    destruct (od_get (pw_sessions w) sid) as [e1|] eqn:E1; [destruct Hn; by apply (He sid e1)|]. split; [done|].
    destruct Ha as (_ & _ & Co & Ce & _). by rewrite Co, Ce.
Qed.
Lemma start_quiet `{ToolEnv} hs agent command cwd env pty timeout host : ids_distinct →
  quiet (start hs agent command cwd env pty timeout host).
Proof.
  intros Hid. unfold start. destruct (pty && _); [by apply tracks_ret|]. destruct (_select_shell hs command) as [argv fam].
  intros w Hw. unfold mbind, PM_bind, on_os, asks. cbn. set (s1 := {| os_tick := S (S (S (os_tick (pw_os w)))) |}).
  assert (os_tick s1 = S (S (S (os_tick (pw_os w))))) as Es by done. clearbody s1.
  destruct (os_spawn _ _ _ _) as [h|what]; cbn.
  - match goal with |- context [_refresh_locked (new_session ?i)] => set (info := i) end.
    destruct (refresh_advances _ (new_session_ok info) s1) as [Ha [Ht _]]. destruct (_refresh_locked (new_session info) s1) as [e s].
    cbn in *. destruct (put_new_handed (os_session_id (S (os_tick (pw_os w)))) e info w s) as [W Hh]; [done| |done|lia| |].
    + intros (n & Hn & E). apply Hid in E. lia.
    + eexists. split; [|done]. lia.
    + split_and!; [exact W|lia|exact Hh].
  - assert (world_ok {| pw_sessions := pw_sessions w; pw_os := s1 |}).
    { destruct Hw as [Hk He]. split; [done|]. intros k e E. destruct (He k e E) as [? Hu]. split; [done|].
      eapply used_mono; [|done]. cbn. lia. }
    split_and!; [done|lia|]. intros sid. exact (handed_refl sid w Hw).
Qed.

(** *** Requests *)

Lemma live_reads agent sid e w : ∃ e', live agent sid e w = (e', w).
Proof.
  unfold live, with_session. destruct (od_get (pw_sessions w) sid) as [e'|] eqn:E; [|by eexists].
  destruct (String.eqb _ agent); [|by eexists]. exists e'. cbn. rewrite od_set_same by done. by destruct w.
Qed.
(** What a poll hands out of a session. *)
Definition polled (sid : string) (req : proc_request) (reply : proc_reply) : string * string :=
  match req, reply with
  | RPoll sid', PPoll r => if decide (sid = sid') then (pl_stdout r, pl_stderr r) else ("", "")
  | _, _ => ("", "")
  end.
Lemma poll_tracks agent sid : tracks (_h_process_poll agent sid) (λ sid' r, if decide (sid' = sid) then (pl_stdout r, pl_stderr r) else ("", "")).
Proof.
  unfold _h_process_poll. apply tracks_bind; [apply snapshot_quiet|]. intros [e|].
  - eapply tracks_after; [apply consume_tracks|]. intros [o r] w.
    unfold mbind, PM_bind. destruct (live_reads agent sid e w) as [e' ->]. cbn. split; [done|]. intros sid'. by case_decide.
  - apply tracks_ret. intros sid'. by case_decide.
Qed.
Lemma run_quiet `{ToolEnv} hs fuel prep : ids_distinct → quiet (_start_exec_run_session hs fuel prep).
Proof.
  intros Hid. unfold _start_exec_run_session. apply tracks_bind; [by apply start_quiet|]. intros [e|what]; [|by apply tracks_ret].
  destruct (er_background _); [by apply tracks_ret|]. apply tracks_bind; [apply wait_quiet|]. intros [[]|]; try by apply tracks_ret.
  apply tracks_bind; [apply snapshot_quiet|]. intros found. apply tracks_bind; [apply full_output_quiet|]. intros out.
  destruct found as [e1|]; [|by apply tracks_ret]. apply tracks_bind; [apply quiet_session, body_keep|].
  intros e2. apply tracks_bind; [apply clear_quiet|]. intros r. by apply tracks_ret.
Qed.
Lemma ack_send_quiet agent sid payload code : quiet (r ← send_input agent sid payload; mret (ack code r)).
Proof. apply tracks_bind; [apply send_input_quiet|]. intros r. by apply tracks_ret. Qed.
Lemma h_kill_quiet agent sid sig : quiet (_h_process_kill agent sid sig).
Proof. apply tracks_bind; [apply kill_quiet|]. intros r. by apply tracks_ret. Qed.
Lemma h_clear_quiet agent sid : quiet (_h_process_clear agent sid).
Proof. apply tracks_bind; [apply clear_quiet|]. intros r. by apply tracks_ret. Qed.
Lemma keys_quiet utf8 agent sid keys : quiet (_h_process_send_keys utf8 agent sid keys).
Proof.
  unfold _h_process_send_keys. apply tracks_bind; [apply snapshot_quiet|]. intros [e|]; [|by apply tracks_ret].
  destruct (negb _); [by apply tracks_ret|]. destruct (negb _); [by apply tracks_ret|]. apply ack_send_quiet.
Qed.
Lemma serve_tracks `{ToolEnv} hs utf8 fuel agent req : ids_distinct → tracks (serve hs utf8 fuel agent req) (λ sid, polled sid req).
Proof.
  intros Hid. destruct req; cbn [serve polled].
  all: first [apply tracks_bind; [|intros r; by apply tracks_ret] | idtac].
  - by apply run_quiet.
  - eapply tracks_after; [apply poll_tracks|]. intros r w. split; [done|]. intros sid. cbn. by case_decide.
  - apply keys_quiet.
  - apply ack_send_quiet.
  - apply ack_send_quiet.
  - apply h_kill_quiet.
  - apply h_clear_quiet.
  - apply list_sessions_quiet.
Qed.
End Process.

(** * The theorems on the process manager, over sequences of requests of any agents. *)

Section Use.
Context {Proc : ProcEnv} {Sys : ToolEnv} (hs : HostShell) (utf8 : string → string) (fuel : nat).

(** ** Sequences of requests *)

Fixpoint serve_all (reqs : list (string * proc_request)) : PM (list proc_reply) :=
  match reqs with
  | [] => mret []
  | (agent, req) :: rest => r ← serve hs utf8 fuel agent req; rs ← serve_all rest; mret (r :: rs)
  end.
Definition no_sessions (s : OsState) : ProcWorld := {| pw_sessions := []; pw_os := s |}.
(** All that the polls of a session returned, put together: its output and its errors. *)
Fixpoint polled_all (sid : string) (reqs : list (string * proc_request)) (replies : list proc_reply) : string * string :=
  match reqs, replies with
  | (_, req) :: reqs', r :: replies' =>
      let x := polled sid req r in let y := polled_all sid reqs' replies' in (x.1 +:+ y.1, x.2 +:+ y.2)
  | _, _ => ("", "")
  end.

Lemma no_sessions_ok s : world_ok (no_sessions s).
Proof. split; [constructor|done]. Qed.
Lemma serve_all_cons agent req reqs w : serve_all ((agent, req) :: reqs) w =
  let '(r, w1) := serve hs utf8 fuel agent req w in let '(rs, w2) := serve_all reqs w1 in (r :: rs, w2).
Proof. cbn. unfold mbind, PM_bind. destruct (serve _ _ _ _ _ w) as [r w1]. by destruct (serve_all reqs w1). Qed.
Lemma serve_calls_ok reqs w : ids_distinct → world_ok w → world_ok (serve_all reqs w).2.
Proof.
  intros Hid. revert w. induction reqs as [|[agent req] reqs IH]; intros w Hw; [done|]. rewrite serve_all_cons.
  destruct (serve_tracks hs utf8 fuel agent req Hid w Hw) as (W1 & _). destruct (serve hs utf8 fuel agent req w) as [r w1]. cbn in W1.
  specialize (IH w1 W1). by destruct (serve_all reqs w1).
Qed.
Lemma advances_app e1 e2 e3 x y : advances x e1 e2 → advances y e2 e3 → advances (x.1 +:+ y.1, x.2 +:+ y.2) e1 e3.
Proof.
  intros (I1 & _ & O1 & R1 & S1) (I2 & K2 & O2 & R2 & S2). split_and!; [congruence|done| | |].
  - by rewrite O2, O1, str_app_assoc.
  - by rewrite R2, R1, str_app_assoc.
  - intros H. destruct (S1 H) as (E1 & B1 & C1). rewrite E1 in S2. destruct (S2 H) as (E2 & B2 & C2). cbn in B2, C2.
    split_and!; [|congruence..]. by rewrite E2 at 1.
Qed.
(** What became of a session that is still there. *)
Lemma session_history sid reqs w replies w' e' : ids_distinct → world_ok w → serve_all reqs w = (replies, w') →
  od_get (pw_sessions w') sid = Some e' →
  match od_get (pw_sessions w) sid with
  | Some e => advances (polled_all sid reqs replies) e e'
  | None => ¬ used sid w ∧ (consumed (sr_out e'), consumed (sr_err e')) = polled_all sid reqs replies
  end.
Proof.
  intros Hid. revert w replies. induction reqs as [|[agent req] reqs IH]; intros w replies Hw H He'.
  - injection H as <- <-. rewrite He'. by apply advances_refl, Hw with (k := sid).
  - rewrite serve_all_cons in H. destruct (serve_tracks hs utf8 fuel agent req Hid w Hw) as (W1 & T1 & H1).
    destruct (serve hs utf8 fuel agent req w) as [r w1]. cbn in *. destruct (serve_all reqs w1) as [rs w2] eqn:E.
    injection H as <- <-. specialize (IH w1 rs W1 E He'). specialize (H1 sid). unfold handed in H1. cbn [polled_all].
    destruct (od_get (pw_sessions w) sid) as [e|] eqn:E0; destruct (od_get (pw_sessions w1) sid) as [e1|] eqn:E1.
    + by eapply advances_app.
    + destruct IH as [Hn _]. destruct Hn. eapply used_mono; [done|]. by apply (proj2 Hw sid e).
    + destruct H1 as [Hn Hx]. split; [done|]. destruct IH as (_ & _ & Co & Ce & _). rewrite Co, Ce, <- Hx. done.
    + destruct IH as [Hn Hx]. rewrite H1, Hx. split; [|by destruct (polled_all sid reqs rs)]. intros Hu. apply Hn. by eapply used_mono.
Qed.
Lemma poll_reads_all agent sid w e' : od_get (pw_sessions (_h_process_poll agent sid w).2) sid = Some e' →
  si_agent_id (sr_info e') = agent → world_ok w → consumed (sr_out e') = st_buffer (sr_out e') ∧ consumed (sr_err e') = st_buffer (sr_err e').
Proof.
  intros H Ha Hw. unfold _h_process_poll in H. destruct (snapshot_quiet agent sid w Hw) as (W1 & _ & H1). unfold mbind, PM_bind in H.
  unfold snapshot, with_session in H, W1, H1. destruct (od_get (pw_sessions w) sid) as [e|] eqn:E; [|cbn in H; congruence].
  destruct (String.eqb_spec (si_agent_id (sr_info e)) agent) as [Ea|]; [|cbn in H; congruence].
  unfold mbind, OS_bind in H, W1, H1. destruct (_refresh_locked e (pw_os w)) as [e1 s1]. cbn in H, W1, H1.
  specialize (H1 sid). unfold handed in H1. cbn in H1. rewrite E, od_get_set, decide_True in H1 by done.
  destruct H1 as (I1 & _). unfold consume_new_output, with_session in H. cbn in H. rewrite od_get_set, decide_True in H by done.
  rewrite I1, Ea, String.eqb_refl in H. unfold mbind, OS_bind in H. destruct (_refresh_locked e1 s1) as [e2 s2]. cbn in H.
  match type of H with context [live agent sid e1 ?x] => destruct (live_reads agent sid e1 x) as [e3 E3] end. rewrite E3 in H. cbn in H.
  rewrite od_get_set, decide_True in H by done. injection H as <-. cbn. unfold consumed. cbn. by rewrite !substring_all.
Qed.

(** C27: the polls of a session return its output once and in order: put together they
    are the part of it that was handed out, and all of it after a poll. *)
Theorem polled_output_exact reqs s replies w sid e :
  ids_distinct → serve_all reqs (no_sessions s) = (replies, w) → od_get (pw_sessions w) sid = Some e →
  (consumed (sr_out e), consumed (sr_err e)) = polled_all sid reqs replies ∧
  ∀ reqs' agent, reqs = reqs' ++ [(agent, RPoll sid)] → si_agent_id (sr_info e) = agent →
    polled_all sid reqs replies = (st_buffer (sr_out e), st_buffer (sr_err e)).
Proof.
  intros Hid H He. pose proof (session_history sid reqs (no_sessions s) replies w e Hid (no_sessions_ok s) H He) as [_ Hx].
  split; [done|]. intros reqs' agent -> Ha. rewrite <- Hx. clear Hx.
  assert (∃ w1, world_ok w1 ∧ w = (_h_process_poll agent sid w1).2) as (w1 & W1 & ->).
  { revert H. generalize (no_sessions_ok s). generalize (no_sessions s). revert replies. induction reqs' as [|[a r] reqs' IH]; intros replies w0 W0 H.
    - exists w0. split; [done|]. cbn in H. unfold mbind, PM_bind in H. destruct (_h_process_poll agent sid w0). by injection H as _ <-.
    - cbn [app] in H. rewrite serve_all_cons in H. destruct (serve_tracks hs utf8 fuel a r Hid w0 W0) as (W1 & _).
      destruct (serve hs utf8 fuel a r w0) as [r0 w1]. cbn in W1. destruct (serve_all (reqs' ++ [(agent, RPoll sid)]) w1) as [rs w2] eqn:E. injection H as _ <-.
      by eapply IH. }
  destruct (poll_reads_all agent sid w1 e He Ha W1) as [-> ->]. done.
Qed.

(** A session that ended stays as it was: its exit code, its flags and its output do
    not change, and only what was read of it moves on. *)
Theorem ended_session_final reqs w replies w' sid e e' :
  ids_distinct → world_ok w → serve_all reqs w = (replies, w') →
  od_get (pw_sessions w) sid = Some e → is_some (sr_exit_code e) = true → od_get (pw_sessions w') sid = Some e' →
  e' = set_streams (sr_out e') (sr_err e') e ∧ st_buffer (sr_out e') = st_buffer (sr_out e) ∧
  st_buffer (sr_err e') = st_buffer (sr_err e).
Proof.
  intros Hid Hw H E Hx E'. pose proof (session_history sid reqs w replies w' e' Hid Hw H E') as Hh. rewrite E in Hh. by apply Hh.
Qed.

(** ** Deadlines *)

(** What holds after a program, in the state it was run in. *)
Definition wp {A} (m : OS A) (Q : A → OsState → Prop) (s : OsState) : Prop := Q (m s).1 (m s).2.
Lemma wp_bind {A B} (m : OS A) (f : A → OS B) Q s : wp m (λ a, wp (f a) Q) s → wp (m ≫= f) Q s.
Proof. unfold wp, mbind, OS_bind. by destruct (m s). Qed.
Lemma wp_ok {A} (m : OS A) P Q s : os_ok m P → (∀ a s', P a → later s s' → Q a s') → wp m Q s.
Proof. intros Hm HQ. destruct (Hm s). by apply HQ. Qed.
Definition killed_or_ended (h : nat) (e : SessionRecord) (s : OsState) : Prop :=
  is_some (sr_exit_code e) = true ∨ (h, "SIGKILL") ∈ os_signals s.
Lemma prefix_elem {A} (x : A) l l' : x ∈ l → l `prefix_of` l' → x ∈ l'.
Proof. intros H [k ->]. apply elem_of_app. by left. Qed.
Lemma collect_known e rc s : sr_process e = Some (Some rc) → wp (collect_exit e) (λ e', killed_or_ended (handle e) e') s.
Proof.
  intros Hp. unfold collect_exit. apply wp_bind. unfold poll, wp at 1. rewrite Hp. cbn. apply wp_bind. unfold asks, wp at 1. cbn.
  apply wp_bind. eapply wp_ok; [apply drain_grows|]. intros e1 s1 (_ & X1 & _) _. eapply wp_ok; [apply close_grows|].
  intros e2 s2 (_ & X2 & _) _. left. by rewrite X2, X1.
Qed.
Lemma time_out_kills e s : session_wf e → sr_exit_code e = None →
  wp (time_out e) (λ e' s', running e' ∧ handle e' = handle e ∧
    ((∃ rc, sr_process e' = Some (Some rc)) ∨ (handle e, "SIGKILL") ∈ os_signals s')) s.
Proof.
  intros Hwf Hx. unfold session_wf in Hwf. rewrite Hx in Hwf. destruct Hwf as [Hp Ho]. unfold time_out.
  apply wp_bind. eapply wp_ok; [apply terminate_grows|]. intros e1 s1 (G1 & X1 & O1 & P1) _. cbn in X1, O1, P1.
  apply wp_bind. eapply wp_ok; [apply drain_grows|]. intros e2 s2 (G2 & X2 & O2 & P2 & _) _.
  apply wp_bind. eapply wp_ok; [apply poll_grows|]. intros [e3 rc] s3 (G3 & X3 & O3 & _ & P3) _. cbn in *.
  assert (sr_process e3 = Some rc) as P3'. { apply P3. by rewrite P2, P1, Hp. }
  assert (handle e3 = handle e) as Hh. { unfold handle. by rewrite (proj1 G3), (proj1 G2), (proj1 G1). }
  destruct rc as [code|].
  - apply wp_bind. unfold wp at 1. cbn. eapply wp_ok; [apply drain_grows|]. intros e4 s4 (G4 & X4 & O4 & P4 & _) _.
    split_and!; [split_and!; [congruence..|by rewrite P4, P3']|unfold handle in *; by rewrite (proj1 G4), Hh|left; exists code; congruence].
  - apply wp_bind. unfold _terminate_locked, wp at 1. rewrite P3'. unfold mbind, OS_bind. cbn [signals mret OS_ret fst snd]. eapply wp_ok; [apply drain_grows|].
    intros e4 s4 (G4 & X4 & O4 & P4 & _) [_ Hpre]. cbn in *. split_and!.
    + split_and!; [congruence..|by rewrite P4, P3'].
    + unfold handle in *. by rewrite (proj1 G4).
    + right. eapply prefix_elem; [|exact Hpre]. apply elem_of_app. right. rewrite Hh. left.
Qed.
(** Refreshing a session that is past its deadline. *)
Lemma refresh_overdue e s : session_wf e → sr_exit_code e = None →
  (∀ n, (os_tick s ≤ n)%nat → (si_deadline (sr_info e) ≤ os_time n)%Z) → wp (_refresh_locked e) (killed_or_ended (handle e)) s.
Proof.
  intros Hwf Hx Hd. pose proof Hwf as Hwf0. unfold session_wf in Hwf0. rewrite Hx in Hwf0. destruct Hwf0 as [Hp Ho]. unfold _refresh_locked.
  apply wp_bind. eapply wp_ok; [apply drain_grows|]. intros e1 s1 (G1 & X1 & O1 & P1 & _) [T1 _]. rewrite P1, Hp.
  assert (session_wf e1) as W1. { unfold session_wf. by rewrite X1, Hx, P1, O1. }
  apply wp_bind. unfold overdue. rewrite X1, Hx. apply wp_bind. unfold asks, wp at 1. cbn. unfold wp at 1. cbn.
  rewrite (proj1 G1), (proj2 (Z.leb_le _ _)) by by apply Hd.
  apply wp_bind. assert (handle e1 = handle e) as Hh by (unfold handle; by rewrite (proj1 G1)).
  pose proof (time_out_kills e1 {| os_tick := S (os_tick s1); os_signals := os_signals s1; os_input := os_input s1 |} W1 ltac:(congruence)) as Hk.
  unfold wp in Hk |- *. destruct (time_out e1 _) as [e2 s2]. cbn in *. destruct Hk as (Hr & Hh2 & [[rc Hrc]|Hs]).
  - rewrite <- Hh, <- Hh2. exact (collect_known e2 rc s2 Hrc).
  - right. destruct (collect_exit_wf e2 Hr s2) as [_ [_ Hpre]]. eapply prefix_elem; [|exact Hpre]. by rewrite <- Hh.
Qed.

(** C29: polling a session that is past its deadline ends it: its end is recorded, or it
    was sent the signal that no process can refuse. *)
Theorem overdue_session_killed agent sid w e reply w' :
  world_ok w → od_get (pw_sessions w) sid = Some e → si_agent_id (sr_info e) = agent → sr_exit_code e = None →
  (∀ n, (os_tick (pw_os w) ≤ n)%nat → (si_deadline (sr_info e) ≤ os_time n)%Z) →
  _h_process_poll agent sid w = (reply, w') →
  ∃ e', od_get (pw_sessions w') sid = Some e' ∧
    (is_some (sr_exit_code e') = true ∨ (si_handle (sr_info e), "SIGKILL") ∈ os_signals (pw_os w')).
Proof.
  intros Hw E Ha Hx Hd H. destruct (proj2 Hw sid e E) as [He _].
  pose proof (refresh_overdue e (pw_os w) (proj1 He) Hx Hd) as Hk. destruct (refresh_advances e He (pw_os w)) as [Ha1 Hl1].
  unfold _h_process_poll, snapshot, consume_new_output, with_session, mbind, PM_bind, OS_bind in H. rewrite E, Ha, String.eqb_refl in H.
  unfold wp in Hk. destruct (_refresh_locked e (pw_os w)) as [e1 s1]. cbn in H, Hk, Ha1, Hl1.
  destruct Ha1 as (I1 & He1 & _ & _ & S1). rewrite od_get_set, decide_True, I1, Ha, String.eqb_refl in H by done.
  destruct (refresh_advances e1 He1 s1) as [Ha2 Hl2]. destruct (_refresh_locked e1 s1) as [e2 s2] eqn:Er. cbn in H, Ha2, Hl2.
  match type of H with context [live agent sid e1 ?x] => destruct (live_reads agent sid e1 x) as [e3 E3] end. rewrite E3 in H.
  injection H as _ <-. cbn. rewrite od_get_set, decide_True by done. eexists. split; [done|]. cbn. destruct Hk as [Hk|Hk].
  - left. destruct Ha2 as (_ & _ & _ & _ & S2). destruct (S2 Hk) as [-> _]. done.
  - right. eapply prefix_elem; [exact Hk|]. apply Hl2.
Qed.

(** Waiting for a session ends: when each reading of the clock is later than the one
    before, as many rounds as microseconds are waited for are enough. *)
Theorem wait_returns rounds agent sid us w :
  world_ok w → (∀ n, os_time n < os_time (S n))%Z → (Z.max 1 us ≤ Z.of_nat rounds)%Z →
  (wait rounds agent sid us w).1 ≠ None.
Proof.
  intros Hw Hclock Hr. assert (∀ n m, (n ≤ m)%nat → (os_time n ≤ os_time m)%Z) as Hmono.
  { intros n m. induction 1 as [|m Hm IH]; [done|]. specialize (Hclock m). lia. }
  assert (∀ k deadline v, world_ok v → (0 < k)%nat → (deadline < os_time (os_tick (pw_os v)) + Z.of_nat k)%Z →
    (wait_go k agent sid deadline v).1 ≠ None) as Hgo.
  { induction k as [|k IH]; intros deadline v Hv Hk Hd; [lia|]. cbn [wait_go]. unfold mbind, PM_bind.
    destruct (wait_round_quiet agent sid v Hv) as (W1 & T1 & _). destruct (wait_round agent sid v) as [[b|] v1]; [done|]. cbn in W1, T1 |- *.
    specialize (Hmono _ _ T1). specialize (Hclock (os_tick (pw_os v1))). destruct (Z.leb_spec deadline (os_time (os_tick (pw_os v1)))); [done|].
    destruct (quiet_os (asks os_time) (λ _, True) (os_ok_asks os_time) v1 W1) as (W2 & _). cbn in W2. apply IH; [done|lia|cbn; lia]. }
  unfold wait, mbind, PM_bind. cbn. destruct (quiet_os (asks os_time) (λ _, True) (os_ok_asks os_time) w Hw) as (W2 & _). cbn in W2.
  apply Hgo; [done|lia|]. cbn. specialize (Hclock (os_tick (pw_os w))). lia.
Qed.
End Use.

(** * The sessions of one agent are out of the reach of another: a request neither
    depends on them nor changes them. *)

Definition mine (agent : string) (kv : string * SessionRecord) : bool := String.eqb (si_agent_id (sr_info kv.2)) agent.
(** The world with the sessions of one agent alone, and the sessions of the others. *)
Definition only (agent : string) (w : ProcWorld) : ProcWorld :=
  {| pw_sessions := List.filter (mine agent) (pw_sessions w); pw_os := pw_os w |}.
Definition others (agent : string) (w : ProcWorld) : list (string * SessionRecord) :=
  List.filter (λ kv, negb (mine agent kv)) (pw_sessions w).

(** ** Filtered dictionaries *)

Section Filter.
Context {V : Type} (p : string * V → bool).
Implicit Types (d : list (string * V)).

Lemma filter_keys k d : k ∈ map fst (List.filter p d) → k ∈ map fst d.
Proof.
  rewrite !list_elem_of_In, !in_map_iff. intros (kv & <- & H%filter_In). exists kv. split; [done|apply H].
Qed.
Lemma od_get_filter d k : od_ok d → od_get (List.filter p d) k =
  match od_get d k with Some v => if p (k, v) then Some v else None | None => None end.
Proof.
  unfold od_ok. induction d as [|[k' v] d IH]; [done|]. cbn. intros H. inversion H as [|? ? Hn Hd]; subst. specialize (IH Hd).
  destruct (p (k', v)) eqn:Ep; cbn; case_bool_decide as E; subst; rewrite ?Ep; try done.
  apply od_get_none. by intros ?%filter_keys.
Qed.
Lemma filter_od_pop d k : List.filter p (od_pop d k) = od_pop (List.filter p d) k.
Proof.
  unfold od_pop. induction d as [|kv d IH]; [done|]. cbn. destruct (negb _) eqn:E1, (p kv) eqn:E2; cbn; rewrite ?E1, ?E2, IH; done.
Qed.
Lemma filter_od_set d k v v' : od_ok d → od_get d k = Some v → p (k, v) = p (k, v') →
  List.filter p (od_set d k v') = if p (k, v) then od_set (List.filter p d) k v' else List.filter p d.
Proof.
  unfold od_ok. induction d as [|[k' v0] d IH]; [done|]. cbn. intros H. inversion H as [|? ? Hn Hd]; subst. specialize (IH Hd).
  case_bool_decide as E.
  - subst k'. intros [= ->] Ep. cbn. rewrite <- Ep. destruct (p (k, v)); cbn; [by rewrite bool_decide_true|done].
  - intros Eg Ep. specialize (IH Eg Ep). cbn. destruct (p (k', v0)) eqn:Ek; cbn; rewrite ?bool_decide_false by done; rewrite IH; by destruct (p (k, v)).
Qed.
Lemma filter_od_pop_none d k v : od_ok d → od_get d k = Some v → p (k, v) = false → List.filter p (od_pop d k) = List.filter p d.
Proof.
  intros Hok Hg Hp. rewrite filter_od_pop. unfold od_pop. induction d as [|[k' v0] d IH]; [done|]. unfold od_ok in Hok. cbn in Hok, Hg.
  inversion Hok as [|? ? Hn Hd]; subst. cbn. case_bool_decide as E.
  - subst k'. injection Hg as ->. rewrite Hp. cbn. clear -Hn. induction d as [|[k1 v1] d IH]; [done|]. cbn in *. destruct (p (k1, v1)); cbn.
    + rewrite bool_decide_false by (intros ->; apply Hn; by left). cbn. rewrite IH; [done|]. intros H. apply Hn. by right.
    + apply IH. intros H. apply Hn. by right.
  - destruct (p (k', v0)); cbn; rewrite ?bool_decide_false by done; cbn; by rewrite IH.
Qed.
End Filter.

Section Isolation.
Context {Proc : ProcEnv}.

(** ** Programs that keep to the sessions of an agent *)

Definition isolated {A} (agent : string) (m : PM A) : Prop := ∀ w, world_ok w →
  m (only agent w) = ((m w).1, only agent (m w).2) ∧ others agent (m w).2 = others agent w.
Lemma isolated_ret {A} agent (a : A) : isolated agent (mret a).
Proof. by intros w _. Qed.
Lemma isolated_bind {A B} agent (m : PM A) (k : A → PM B) f :
  isolated agent m → tracks m f → (∀ a, isolated agent (k a)) → isolated agent (m ≫= k).
Proof.
  intros Hm Ht Hk w Hw. destruct (Hm w Hw) as [E1 O1]. destruct (Ht w Hw) as (W1 & _). unfold mbind, PM_bind. rewrite E1.
  destruct (m w) as [a w1]. cbn in *. destruct (Hk a w1 W1) as [E2 O2]. split; [done|congruence].
Qed.
Lemma isolated_os {A} agent (m : OS A) : isolated agent (on_os m).
Proof. intros w _. unfold on_os, only, others. cbn. by destruct (m (pw_os w)). Qed.
Lemma isolated_session {A} agent sid (missing : A) body x : body_ok body x → isolated agent (with_session agent sid missing body).
Proof.
  intros Hb w [Hk He]. unfold with_session. cbn [only pw_sessions pw_os]. rewrite od_get_filter by done.
  destruct (od_get (pw_sessions w) sid) as [e|] eqn:E; [|done]. unfold mine at 1. cbn [snd].
  destruct (String.eqb (si_agent_id (sr_info e)) agent) eqn:Ea; [|done]. rewrite Ea.
  destruct (Hb e (proj1 (He sid e E)) (pw_os w)) as [H1 _]. destruct (body e (pw_os w)) as [[[e'|] a] s]; cbn in *; unfold only, others; cbn.
  - assert (mine agent (sid, e) = mine agent (sid, e')) as Em by (unfold mine; cbn; by rewrite (proj1 H1)).
    rewrite (filter_od_set (mine agent) _ sid e e' Hk E Em).
    rewrite (filter_od_set (λ kv, negb (mine agent kv)) _ sid e e' Hk E) by (by rewrite Em).
    cbn beta. assert (mine agent (sid, e) = true) as -> by exact Ea. done.
  - rewrite filter_od_pop. split; [done|]. apply filter_od_pop_none with e; [done|done|]. unfold mine. cbn. by rewrite Ea.
Qed.

(** ** The operations *)

#[local] Arguments _refresh_locked : simpl never.
#[local] Arguments new_session : simpl never.
Lemma isolated_list agent incl : isolated agent (list_sessions agent incl).
Proof.
  intros w [Hk He]. unfold list_sessions, only, others. cbn [pw_sessions pw_os].
  assert (Forall (λ kv, entry_ok kv.2) (pw_sessions w)) as Hf.
  { apply Forall_forall. intros [k e] Hin. apply (He k e). by apply elem_od_get. }
  enough (∀ l s, Forall (λ kv, entry_ok kv.2) l → let r := list_go agent incl l s in
    list_go agent incl (List.filter (mine agent) l) s = ((List.filter (mine agent) r.1.1, r.1.2), r.2) ∧
    List.filter (λ kv, negb (mine agent kv)) r.1.1 = List.filter (λ kv, negb (mine agent kv)) l) as Hgo.
  { destruct (Hgo (pw_sessions w) (pw_os w) Hf) as [E O]. destruct (list_go agent incl (pw_sessions w) (pw_os w)) as [[l rows] s].
    cbn in *. by rewrite E. }
  clear. induction l as [|[k e] l IH]; intros s Hl; [done|]. inversion Hl as [|? ? Hent Hl']; subst. cbn [list_go List.filter].
  assert (mine agent (k, e) = String.eqb (si_agent_id (sr_info e)) agent) as Em by done. cbn zeta. rewrite Em.
  destruct (String.eqb (si_agent_id (sr_info e)) agent) eqn:Ea.
  - cbn [list_go negb]. rewrite Ea. unfold mbind, OS_bind. destruct (refresh_advances e Hent s) as [Ha _].
    destruct (_refresh_locked e s) as [e1 s1]. cbn [fst] in Ha. destruct (IH s1 Hl') as [E O]. rewrite E.
    assert (mine agent (k, e1) = true) as Em1 by (unfold mine; cbn; rewrite (proj1 Ha); exact Ea).
    destruct (list_go agent incl l s1) as [[l1 rows] s2]. cbn in *. by rewrite Em1.
  - unfold mbind, OS_bind. destruct (IH s Hl') as [E O]. rewrite E. destruct (list_go agent incl l s) as [[l1 rows] s2]. cbn in *.
    rewrite Em. cbn. by rewrite O.
Qed.
Lemma isolated_start `{ToolEnv} hs agent command cwd env pty timeout host : ids_distinct →
  isolated agent (start hs agent command cwd env pty timeout host).
Proof.
  intros Hid. unfold start. destruct (pty && _); [apply isolated_ret|]. destruct (_select_shell hs command) as [argv fam].
  intros w [Hk He]. unfold mbind, PM_bind, on_os, asks. cbn. destruct (os_spawn _ _ _ _) as [h|what]; cbn; [|done].
  match goal with |- context [_refresh_locked (new_session ?i) ?s] => set (info := i); set (s1 := s) end.
  destruct (refresh_advances _ (new_session_ok info) s1) as [Ha _]. destruct (_refresh_locked (new_session info) s1) as [e s]. cbn in Ha |- *.
  assert (od_get (pw_sessions w) (os_session_id (S (os_tick (pw_os w)))) = None) as En.
  { destruct (od_get _ _) as [e0|] eqn:E; [|done]. destruct (He _ e0 E) as [_ (n & Hn & Ei)]. apply Hid in Ei. lia. }
  unfold only, others. cbn. rewrite !od_set_new by (rewrite ?od_get_filter, ?En by done; done). rewrite !List.filter_app. cbn.
  assert (mine agent (os_session_id (S (os_tick (pw_os w))), e) = true) as ->.
  { unfold mine. cbn. rewrite (proj1 Ha). apply String.eqb_refl. }
  cbn. by rewrite app_nil_r.
Qed.
Lemma isolated_refreshed {A} agent sid (missing : A) (f : SessionRecord → A) :
  isolated agent (with_session agent sid missing (λ e, e ← _refresh_locked e; mret (Some e, f e))).
Proof. eapply isolated_session, body_refresh, body_keep. Qed.
Lemma isolated_send agent sid payload : isolated agent (send_input agent sid payload).
Proof. unfold send_input. destruct (negb _); [apply isolated_ret|]. eapply isolated_session, body_refresh, body_send. Qed.
Lemma isolated_live agent sid e : isolated agent (live agent sid e).
Proof. eapply isolated_session, body_keep. Qed.
Lemma isolated_wait fuel agent sid us : isolated agent (wait fuel agent sid us).
Proof.
  unfold wait. eapply isolated_bind; [apply isolated_os|eapply quiet_os, os_ok_asks|]. intros now.
  generalize (now + Z.max 0 us)%Z. intros deadline. induction fuel as [|fuel IH]; cbn [wait_go]; [apply isolated_ret|].
  eapply isolated_bind; [apply isolated_refreshed|apply wait_round_quiet|]. intros [b|]; [apply isolated_ret|].
  eapply isolated_bind; [apply isolated_os|eapply quiet_os, os_ok_asks|]. intros t. by destruct (deadline <=? t)%Z; [apply isolated_ret|].
Qed.
Lemma isolated_poll agent sid : isolated agent (_h_process_poll agent sid).
Proof.
  unfold _h_process_poll. eapply isolated_bind; [apply isolated_refreshed|apply snapshot_quiet|]. intros [e|]; [|apply isolated_ret].
  eapply isolated_bind; [eapply isolated_session, body_refresh, body_consume|apply consume_tracks|]. intros out.
  eapply isolated_bind; [apply isolated_live|apply quiet_session, body_keep|]. intros e'. apply isolated_ret.
Qed.
Lemma isolated_keys utf8 agent sid keys : isolated agent (_h_process_send_keys utf8 agent sid keys).
Proof.
  unfold _h_process_send_keys. eapply isolated_bind; [apply isolated_refreshed|apply snapshot_quiet|]. intros [e|]; [|apply isolated_ret].
  destruct (negb _); [apply isolated_ret|]. destruct (negb _); [apply isolated_ret|].
  eapply isolated_bind; [apply isolated_send|apply send_input_quiet|]. intros r. apply isolated_ret.
Qed.
Lemma isolated_run `{ToolEnv} hs fuel prep : ids_distinct → isolated (ep_agent_id prep) (_start_exec_run_session hs fuel prep).
Proof.
  intros Hid. unfold _start_exec_run_session. eapply isolated_bind; [by apply isolated_start|by apply start_quiet|].
  intros [e|what]; [|apply isolated_ret]. destruct (er_background _); [apply isolated_ret|].
  eapply isolated_bind; [apply isolated_wait|apply wait_quiet|]. intros [[]|]; try apply isolated_ret.
  eapply isolated_bind; [apply isolated_refreshed|apply snapshot_quiet|]. intros found.
  eapply isolated_bind; [apply isolated_refreshed|apply full_output_quiet|]. intros out. destruct found as [e1|]; [|apply isolated_ret].
  eapply isolated_bind; [apply isolated_live|apply quiet_session, body_keep|]. intros e2.
  eapply isolated_bind; [eapply isolated_session, body_refresh, body_clear|apply clear_quiet|]. intros r. apply isolated_ret.
Qed.

(** C14: what a request of an agent returns and does is the same without the sessions of
    the other agents, and these are left as they were. *)
Theorem agents_isolated `{ToolEnv} hs utf8 fuel agent req w :
  ids_distinct → world_ok w →
  serve hs utf8 fuel agent req (only agent w)
    = ((serve hs utf8 fuel agent req w).1, only agent (serve hs utf8 fuel agent req w).2) ∧
  others agent (serve hs utf8 fuel agent req w).2 = others agent w.
Proof.
  intros Hid Hw. revert w Hw. change (isolated agent (serve hs utf8 fuel agent req)). destruct req; cbn [serve].
  - eapply isolated_bind; [by apply (isolated_run hs fuel (for_agent agent prep))|by apply run_quiet|]. intros r. apply isolated_ret.
  - eapply isolated_bind; [apply isolated_poll|apply poll_tracks|]. intros r. apply isolated_ret.
  - eapply isolated_bind; [apply isolated_keys|apply keys_quiet|]. intros r. apply isolated_ret.
  - eapply isolated_bind; [|apply ack_send_quiet|intros r; apply isolated_ret].
    eapply isolated_bind; [apply isolated_send|apply send_input_quiet|]. intros r. apply isolated_ret.
  - eapply isolated_bind; [|apply ack_send_quiet|intros r; apply isolated_ret].
    eapply isolated_bind; [apply isolated_send|apply send_input_quiet|]. intros r. apply isolated_ret.
  - eapply isolated_bind; [|apply h_kill_quiet|intros r; apply isolated_ret].
    eapply isolated_bind; [eapply isolated_session, body_refresh, body_kill|apply kill_quiet|]. intros r. apply isolated_ret.
  - eapply isolated_bind; [|apply h_clear_quiet|intros r; apply isolated_ret].
    eapply isolated_bind; [eapply isolated_session, body_refresh, body_clear|apply clear_quiet|]. intros r. apply isolated_ret.
  - eapply isolated_bind; [apply isolated_list|apply list_sessions_quiet|]. intros r. apply isolated_ret.
Qed.
End Isolation.
