(* ===== verification/ToolDemo.v ===== *)
(** Runs of the checks of tools and commands and of the process manager: the concrete
    inputs at which their theorems apply, and the command lines that pass although a
    shell reads them differently. *)

From S2P Require Import Prelude PyValue PyText Demo OrderedDict CommandParser ToolPolicy ExecPolicy ExecProcess CommandProps ToolPolicyProps ExecProcessProps.
From Stdlib Require Import Ascii.

(** ** A world to run in *)

(** A system without symbolic links, at work in [/work]. *)
Definition plain_realpath (p : Path) : Path :=
  {| pt_root := if String.eqb (pt_root p) "//" then "//" else "/"; pt_parts := List.filter clean_part (norm_parts [] (pt_parts p)) |}.
Definition work : Path := {| pt_root := "/"; pt_parts := ["work"] |}.
#[local] Instance demo_tools : ToolEnv := {|
  cwd := work; realpath := plain_realpath;
  which name := if str_in name ["cat"; "echo"; "python3.11"] then Some ("/usr/bin/" +:+ name) else None;
  process_env := [("PATH", "/usr/bin"); ("API_TOKEN", "secret")];
  normalize_raw_name name := if String.eqb name "read_file" then Some "file.read" else None |}.

Lemma filter_all_clean l : forallb clean_part (List.filter clean_part l) = true.
Proof. apply forallb_forall. by intros x [_ H]%filter_In. Qed.
Lemma filter_clean_id l : forallb clean_part l = true → List.filter clean_part l = l.
Proof. induction l as [|p l IH]; simpl; [done|]. intros [-> H]%andb_true_iff. by rewrite IH. Qed.
Lemma plain_realpath_resolves : realpath_resolves.
Proof.
  intros p. change (@realpath demo_tools) with plain_realpath. split.
  - split; [|apply filter_all_clean]. cbn [plain_realpath pt_root]. destruct (String.eqb _ _); [by right|by left].
  - unfold plain_realpath. cbn [pt_root pt_parts]. rewrite norm_clean, app_nil_l, (filter_clean_id _ (filter_all_clean _)) by apply filter_all_clean.
    f_equal. by destruct (String.eqb (pt_root p) "//").
Qed.
Lemma demo_expanduser : expanduser_tilde_only.
Proof. by intros s _. Qed.

Definition default_ctx (confirm : bool) : RuntimeContext :=
  {| ctx_env := [("OPENMINION_WORKSPACE_ROOT", PStr "/work")]; ctx_raw := DEFAULT_POLICY; ctx_workspace := "/work";
     ctx_confirm := confirm; ctx_permission_mode := "ask"; ctx_session_id := None |}.
Definition all_dirs (p : Path) : bool := true.

(** ** Where the theorems apply *)

Lemma scope_never_widened_witness :
  effective_scope DEFAULT_POLICY (Some "READ_ONLY") = Ok "READ_ONLY" ∧
  ∃ m, max_scope DEFAULT_POLICY = Ok m ∧ rank_le "READ_ONLY" m ∧
    (otruthy (Some "READ_ONLY") = true → rank_le "READ_ONLY" (default "" (Some "READ_ONLY"))).
Proof. split; [reflexivity|]. apply (scope_never_widened DEFAULT_POLICY (Some "READ_ONLY") "READ_ONLY"). reflexivity. Defined.

Lemma tool_path_confined_witness :
  resolve_path (default_ctx false) "notes/../a.txt" "write" = Ok "/work/a.txt" ∧
  ∃ root p, resolve_workspace_root (default_ctx false) = Ok root ∧ "/work/a.txt" = path_text p ∧ realpath p = p ∧
    confined DEFAULT_POLICY root "write" p ∧
    (is_absolute (expand "notes/../a.txt") = false → _is_subpath p root = true).
Proof.
  split; [vm_compute; reflexivity|].
  apply (tool_path_confined (default_ctx false) "notes/../a.txt" "write" "/work/a.txt" plain_realpath_resolves demo_expanduser).
  vm_compute. reflexivity.
Defined.


(** The fields of a call as pydantic reads them. *)
Definition field (d : dict) (k def : string) : string := py_str (default (PStr def) (dget d k)).
Definition demo_params (command : string) (workdir : option string) (env : list (string * string)) (host security ask : string)
    (evidence : bool) : ExecRunArgs :=
  {| er_command := command; er_workdir := workdir; er_env := env; er_yield_ms := 10000; er_background := false;
     er_timeout_s := 60; er_pty := false; er_host := host; er_security := security; er_ask := ask; er_ask_fallback := "off";
     er_node := None; er_include_evidence_artifact := evidence |}.
Definition demo_pydantic (d : dict) : option ExecRunArgs :=
  match dget d "command" with
  | Some (PStr command) =>
      Some (demo_params command (text_arg d "workdir") [] (field d "host" "sandbox") (field d "security" "deny")
              (field d "ask" "on-miss") (py_truthy (dget_none d "include_evidence_artifact")))
  | _ => None
  end.
Definition bash_host : HostShell := {| hs_windows := false; hs_SHELL := "/bin/bash"; hs_exists _ := true |}.
Definition no_json (s : string) : option pyval := None.
Definition no_float (s : string) : option (Z * positive) := None.
Definition demo_run (sb : Sandbox) (args : dict) (ctx : RuntimeContext) (lab : option SecurityLabConfig) : TR exec_outcome :=
  _h_exec_run bash_host all_dirs sb demo_pydantic no_json no_float args ctx lab 0.
Definition ctx_of (env raw : dict) : RuntimeContext :=
  {| ctx_env := env; ctx_raw := raw; ctx_workspace := "/work"; ctx_confirm := true; ctx_permission_mode := "ask";
     ctx_session_id := Some "s1" |}.

Definition no_sandboxes : Sandbox := {| sb_runner := false; sb_session_manager := false |}.

(** A command in the laboratory, approved for another hour. *)
Definition lab_keys : list string :=
  ["activation_id"; "config_fingerprint"; "resolved_scope_fingerprint"; "daemon_id"; "target_container_id"; "target_image_id";
   "worker_image_digest"].
Definition lab_metadata : dict :=
  [("lab_required", PStr "true"); ("security_lab_state", PStr "ready"); ("activation_expires_at", PInt 3600)]
  ++ map (λ k, (k, PStr k)) lab_keys.
Definition lab_ctx : RuntimeContext := ctx_of [] [("context_metadata", PDict lab_metadata)].
Definition nmap_only : SecurityLabConfig :=
  {| lc_executable_allowlist := ["nmap"]; lc_command_timeout_seconds := 120; lc_max_output_bytes := 4096 |}.
Definition lab_args : dict := [("command", PStr "nmap -sV target"); ("include_evidence_artifact", PBool true)].
Definition lab_spec : ExecutionSandboxSpec :=
  {| sp_workspace_root := "/workspace"; sp_read_allow := ["/workspace"]; sp_write_allow := ["/workspace"]; sp_delete_allow := [];
     sp_cmd_allowlist := ["nmap"]; sp_env_allowlist := []; sp_timeout_s := 60; sp_max_output_bytes := 4096;
     sp_session_mode := "foreground"; sp_net_mode := "deny"; sp_security_lab := Some
       {| sl_session_id := "s1"; sl_activation_id := "activation_id"; sl_config_fingerprint := "config_fingerprint";
          sl_resolved_scope_fingerprint := "resolved_scope_fingerprint"; sl_daemon_id := "daemon_id";
          sl_target_container_id := "target_container_id"; sl_target_image_id := "target_image_id";
          sl_worker_image_digest := "worker_image_digest" |} |}.
Definition lab_prep : _ExecRunPreparation :=
  {| ep_agent_id := "default-agent"; ep_params := demo_params "nmap -sV target" None [] "sandbox" "deny" "on-miss" true;
     ep_cwd_path := {| pt_root := "/"; pt_parts := ["workspace"] |}; ep_env := []; ep_shell_argv := ["nmap"; "-sV"; "target"];
     ep_shell_family := POSIX; ep_sandbox_spec := Some lab_spec;
     ep_exec_spec := Some {| xs_cmd := ["nmap"; "-sV"; "target"]; xs_cwd := "/workspace"; xs_env := [] |};
     ep_session_backend := PROCESS_MANAGER; ep_use_sandbox_runner := true; ep_use_sandbox_sessions := false |}.
Lemma lab_run_confined_witness :
  demo_run no_sandboxes lab_args lab_ctx (Some nmap_only) = Ok (Prepared lab_prep) ∧
  ∃ config exec rest, Some nmap_only = Some config ∧ ep_shell_argv lab_prep = exec :: rest ∧
    exec ∈ lc_executable_allowlist config.
Proof.
  split; [vm_compute; reflexivity|].
  destruct (lab_run_confined bash_host all_dirs no_sandboxes demo_pydantic no_json no_float lab_args lab_ctx (Some nmap_only) 0 lab_prep)
    as (config & exec & rest & H1 & _ & _ & _ & H2 & H3 & _); [reflexivity|vm_compute; reflexivity|].
  exists config, exec, rest. split; [exact H1|]. split; [exact H2|exact H3].
Defined.

Definition two_commands : list (list string) := [["echo"; "it's | fine"]; ["grep"; "x; y"]].
Lemma rebuilt_command_parses_witness :
  ∃ r, parse_command (rebuild two_commands ["|"]) POSIX = Ok r ∧ map cs_argv (pr_segments r) = two_commands ∧ pr_operators r = ["|"].
Proof.
  apply (rebuilt_command_parses two_commands ["|"]); [done| |done|].
  - intros a [-> |[-> |H%elem_of_nil]%elem_of_cons]%elem_of_cons; done.
  - intros op ->%list_elem_of_singleton. right. right. left.
Defined.

Definition quoted_segment : CommandSegment := {| cs_raw := "grep ';' a.txt"; cs_argv := ["grep"; ";"; "a.txt"]; cs_start := 14; cs_end := 28 |}.
Definition quoted_parse : ParseResult :=
  {| pr_segments := [{| cs_raw := "cat a.txt"; cs_argv := ["cat"; "a.txt"]; cs_start := 1; cs_end := 10 |}; quoted_segment];
     pr_operators := ["&&"] |}.
Lemma parsed_command_covered_witness :
  parse_command " cat a.txt && grep ';' a.txt" POSIX = Ok quoted_parse ∧
  ∃ text p last q, " cat a.txt && grep ';' a.txt" = text +:+ p +:+ cs_raw last +:+ q.
Proof.
  split; [vm_compute; reflexivity|].
  destruct (parsed_command_covered " cat a.txt && grep ';' a.txt" quoted_parse)
    as (lead & segs & text & p & last & q & E & _); [vm_compute; reflexivity|].
  exists (lead +:+ text), p, last, q. rewrite str_app_assoc. exact E.
Defined.

(** ** Command lines that a shell reads differently *)

Definition accepted (command : string) : bool :=
  match _validate_command_against_policy POSIX command (default_ctx false) with Ok v => v_allowed v | Raise _ => false end.

(** An escaped quote opens a quotation for the parser and not for a shell: the
    separators up to the next one are not seen, and a denied command between them is
    taken for arguments of [echo]. *)
Theorem escaped_quote_hides_command :
  accepted "echo \' ; rm a.txt ; echo \'" = true ∧ accepted "echo ; rm a.txt ; echo" = false.
Proof. split; vm_compute; reflexivity. Qed.

(** A comment ends at the end of its line for a shell, and so do the quotes in it; for the
    parser they quote, newlines included. *)
Theorem comment_hides_command :
  accepted ("echo #'" +:+ String NEWLINE ("rm a.txt" +:+ String NEWLINE "#'")) = true ∧ accepted "rm a.txt" = false.
Proof. split; vm_compute; reflexivity. Qed.

(** A command substitution is taken for arguments: the command in it is run by the
    shell and checked by nothing. *)
Theorem command_substitution_unchecked : accepted "echo $(rm a.txt)" = true ∧ accepted "rm a.txt" = false.
Proof. split; vm_compute; reflexivity. Qed.

(** Outside of the sandbox the variables of the call may not name a library to load,
    but an assignment in front of the command may. *)
Theorem assignment_sets_loader_variable :
  accepted "LD_PRELOAD=x.so cat a.txt" = true ∧ host_env_error [("LD_PRELOAD", "x.so")] ≠ None.
Proof. split; [vm_compute; reflexivity|done]. Qed.

(** [find] counts as read-only with the actions that delete files and run commands. *)
Theorem find_delete_read_only :
  is_read_only_exec_command "find . -delete" POSIX = true ∧ is_read_only_exec_command "find . -exec rm {} +" POSIX = true.
Proof. split; vm_compute; reflexivity. Qed.

(** When an interpreter is renamed, the command is put together again from its words:
    a redirection or a variable comes back quoted, as an argument. *)
Theorem normalised_redirection_quoted :
  _normalize_executable_variants POSIX "python3 x.py >/dev/null" = "python3.11 x.py '>/dev/null'" ∧
  _normalize_executable_variants POSIX "python3 x.py $HOME" = "python3.11 x.py '$HOME'".
Proof. split; vm_compute; reflexivity. Qed.

(** The name by which a policy refers to the workspace is not among those that the
    working directories know: it becomes a directory of that name below it. *)
Theorem workspace_token_unknown :
  _candidate_workdir_roots work (default_ctx false) = [work; {| pt_root := "/"; pt_parts := ["work"; "${WORKSPACE}"] |}] ∧
  _expand_path_pair "${WORKSPACE}" work = (work, work).
Proof. split; vm_compute; reflexivity. Qed.

(** * Runs of the process manager: the concrete inputs at which its theorems apply. *)

(** A system on which a second passes between two questions, a read returns the letter
    of its number, and processes end after forty questions. *)
#[local] Instance demo_proc : ProcEnv := {|
  os_time n := (Z.of_nat n * 1000000)%Z;
  os_read n _ st := match st with Stdout => chr (65 + n mod 26) | Stderr => "" end;
  os_poll n _ := if (40 <=? n)%nat then Some 0%Z else None;
  os_write _ _ _ := Written;
  os_spawn n _ _ _ := Ok n;
  os_session_id n := "execproc_" +:+ pretty n;
  os_environ := [("PATH", "/usr/bin")];
  signal_attr _ := None;
|}.
Definition sh_host : HostShell := {| hs_windows := false; hs_SHELL := ""; hs_exists _ := false |}.
Lemma demo_session_ids_distinct : ids_distinct.
Proof. intros n m H. cbn in H. apply (inj (String.app "execproc_")) in H. by apply (inj pretty) in H. Qed.
Lemma demo_clock n : (os_time n < os_time (S n))%Z.
Proof. cbn. lia. Qed.

Definition background_run (timeout : Z) : proc_request :=
  RRun {| ep_agent_id := ""; ep_params :=
            {| er_command := "make"; er_workdir := None; er_env := []; er_yield_ms := 0; er_background := true;
               er_timeout_s := timeout; er_pty := false; er_host := "gateway"; er_security := "full"; er_ask := "off";
               er_ask_fallback := "off"; er_node := None; er_include_evidence_artifact := false |};
          ep_cwd_path := {| pt_root := "/"; pt_parts := [] |}; ep_env := []; ep_shell_argv := []; ep_shell_family := POSIX;
          ep_sandbox_spec := None; ep_exec_spec := None; ep_session_backend := PROCESS_MANAGER;
          ep_use_sandbox_runner := false; ep_use_sandbox_sessions := false |}.
Definition fresh_os : OsState := {| os_tick := 0; os_signals := []; os_input := [] |}.
Definition served (reqs : list (string * proc_request)) (w : ProcWorld) : list proc_reply * ProcWorld :=
  serve_all sh_host (λ s, s) 10 reqs w.
Definition sid : string := "execproc_1".

Definition two_polls : list (string * proc_request) := [("ann", background_run 1000); ("ann", RPoll sid)] ++ [("ann", RPoll sid)].
Definition polled_twice : list proc_reply * ProcWorld := served two_polls (no_sessions fresh_os).
Lemma polled_output_exact_witness :
  ∃ e, od_get (pw_sessions polled_twice.2) sid = Some e ∧
    polled_all sid two_polls polled_twice.1 = (st_buffer (sr_out e), st_buffer (sr_err e)) ∧ st_buffer (sr_out e) = "DHLPT".
Proof.
  destruct (od_get (pw_sessions polled_twice.2) sid) as [e|] eqn:E; [|vm_compute in E; discriminate].
  exists e. split; [reflexivity|]. split.
  - destruct (polled_output_exact sh_host (λ s, s) 10 two_polls fresh_os polled_twice.1 polled_twice.2 sid e demo_session_ids_distinct
                (surjective_pairing _) E) as [_ H]. apply (H _ "ann" eq_refl).
    vm_compute in E. injection E as <-. reflexivity.
  - vm_compute in E. injection E as <-. reflexivity.
Defined.

(** A session that ended, and is polled again. *)
Definition until_end : list (string * proc_request) :=
  ("ann", background_run 1000) :: repeat ("ann", RPoll sid) 5.
Definition ended : ProcWorld := (served until_end (no_sessions fresh_os)).2.
Definition afterwards : list (string * proc_request) := [("bob", RClear sid); ("ann", RKill sid None); ("ann", RPoll sid)].
Lemma ended_session_final_witness :
  ∃ e e', od_get (pw_sessions ended) sid = Some e ∧ sr_exit_code e = Some 0%Z ∧
    od_get (pw_sessions (served afterwards ended).2) sid = Some e' ∧ st_buffer (sr_out e') = st_buffer (sr_out e).
Proof.
  destruct (od_get (pw_sessions ended) sid) as [e|] eqn:E; [|vm_compute in E; discriminate].
  destruct (od_get (pw_sessions (served afterwards ended).2) sid) as [e'|] eqn:E'; [|vm_compute in E'; discriminate].
  exists e, e'. assert (sr_exit_code e = Some 0%Z) as Ex by (vm_compute in E; injection E as <-; reflexivity).
  split; [reflexivity|]. split; [exact Ex|]. split; [reflexivity|].
  apply (ended_session_final sh_host (λ s, s) 10 afterwards ended _ (served afterwards ended).2 sid e e' demo_session_ids_distinct
           (serve_calls_ok sh_host (λ s, s) 10 until_end _ demo_session_ids_distinct (no_sessions_ok fresh_os)) (surjective_pairing _) E);
    [rewrite Ex; reflexivity|exact E'].
Defined.

(** A session of six seconds. *)
Definition short : ProcWorld := (served [("ann", background_run 6)] (no_sessions fresh_os)).2.
Lemma overdue_session_killed_witness :
  ∃ e, od_get (pw_sessions short) sid = Some e ∧
    ∃ e', od_get (pw_sessions (_h_process_poll "ann" sid short).2) sid = Some e' ∧
      (is_some (sr_exit_code e') = true ∨
       (si_handle (sr_info e), "SIGKILL") ∈ os_signals (pw_os (_h_process_poll "ann" sid short).2)).
Proof.
  destruct (od_get (pw_sessions short) sid) as [e|] eqn:E; [|vm_compute in E; discriminate]. exists e. split; [reflexivity|].
  apply (overdue_session_killed "ann" sid short e (_h_process_poll "ann" sid short).1).
  - apply (serve_calls_ok sh_host (λ s, s) 10 _ _ demo_session_ids_distinct (no_sessions_ok fresh_os)).
  - exact E.
  - vm_compute in E. injection E as <-. reflexivity.
  - vm_compute in E. injection E as <-. reflexivity.
  - assert (si_deadline (sr_info e) = 6000000%Z) as -> by (vm_compute in E; injection E as <-; reflexivity).
    assert (os_tick (pw_os short) = 7%nat) as -> by (vm_compute; reflexivity). intros n Hn. cbn. lia.
  - apply surjective_pairing.
Defined.

Lemma wait_returns_witness : (wait 5 "ann" sid 5 ended).1 ≠ None.
Proof.
  apply (wait_returns 5 "ann" sid 5 ended); [|exact demo_clock|lia].
  apply (serve_calls_ok sh_host (λ s, s) 10 until_end _ demo_session_ids_distinct (no_sessions_ok fresh_os)).
Defined.

(** Another agent polls, kills and lists in vain. *)
Lemma agents_isolated_witness :
  (serve sh_host (λ s, s) 10 "bob" (RKill sid None) short).1 = PAck (ack "NOT_FOUND" (false, "session not found")) ∧
  others "bob" (serve sh_host (λ s, s) 10 "bob" (RKill sid None) short).2 = others "bob" short.
Proof.
  split; [vm_compute; reflexivity|].
  apply (agents_isolated sh_host (λ s, s) 10 "bob" (RKill sid None) short demo_session_ids_distinct).
  apply (serve_calls_ok sh_host (λ s, s) 10 _ _ demo_session_ids_distinct (no_sessions_ok fresh_os)).
Defined.
